(* ===== verification/_CoqProject ===== *)
-Q . S2P
Prelude.v
CText.v
JsonText.v
ObjectStore.v
Journal.v
Codec.v
WalBatch.v
Sha256.v
Segment.v
SegmentTheory.v
Checksum.v
CheckpointPage.v
SqliteWal.v
SqliteWalTheory.v
DbMetadata.v
CommitManifest.v
CommitManifestTheory.v
CommitPublish.v
CommitPublishTheory.v
CommitResolve.v
CommitResolveTheory.v
Lease.v
S3Target.v
CapabilityProbe.v
LeaseTheory.v
CheckpointManifest.v
CheckpointManifestTheory.v
Gc.v
GcTheory.v
CheckpointBuild.v
CheckpointBuildTheory.v
AesGcm.v
Cipher.v
CipherTheory.v
LocalFile.v
Recovery.v
RecoveryTheory.v
RecoveryRestore.v
RecoveryChain.v
RecoveryProps.v
WalPublisher.v
WalPublisherTheory.v
WalPublisherSafety.v
WalPublisherProps.v
WalPublisherRetry.v
Triples.v
Replica.v
ReplicaTheory.v
ReplicaSafety.v
ReplicaProps.v
ReplicaFence.v
ReplicaGap.v
ReplicaPromote.v
LazyCache.v
LazyCacheTheory.v
LazyCacheRefine.v
LazyHydration.v
LazyRestore.v
LazyTheory.v
LazySound.v
LazyDemand.v
LazyOpen.v
LazyProps.v
LazySession.v
Forward.v
ForwardTheory.v
ForwardWire.v
ForwardProps.v
LocalVfs.v
LocalVfsProps.v
LocalVfsLazy.v
Core.v
JsonMode.v
JsonModeProps.v
Studio.v
StudioProps.v
LocalCache.v
LocalCacheProps.v
LocalCacheRound.v
StudioRequest.v
