(* ===== verification/Prelude.v ===== *)
(** * OtsarDB storage engine: a verification development (root file)

    OtsarDB is a database whose durable state lives in the objects of an S3
    store. A writer turns the frames of SQLite's write-ahead log into batches,
    stores them as immutable segments, stores a commit manifest that names
    them, and moves HEAD to that manifest; the manifests form a chain by commit
    id, generation and digest. Readers walk the chain from HEAD and replay it
    into a local file, from a checkpoint when there is one. A lease elects the
    writer and a sweep deletes what a checkpoint has superseded. Everything is
    modelled as functions of the source (shallow embedding): fallible code
    returns options or sums, code that calls the store or the files is a
    computation of the state monad [M].

    ** Files and sources (under src/src)

    - Prelude, CText, JsonText, Codec: bytes, machine integers, the monad, the
      C string functions, the text scanners and the little-endian fields that
      the other files share (the static helpers of the storage modules).
    - ObjectStore: storage/object_store.h, the table of operations and its
      dispatchers. The class [StoreLaws] is the interface every client theorem
      is proved against: what get, put and delete may do, with an environment
      [env] of peers acting between the calls ([quiet] when there are none).
      [mem_store], with a script of faults, instantiates it.
    - Journal: storage/journal.c, the HEAD record and its compare-and-swap.
    - DbMetadata: storage/db_metadata.c.
    - WalBatch, SqliteWal(Theory): storage/wal_batch.c, storage/sqlite_wal.c.
    - Sha256, Segment(Theory): crypto/sha256_pure.c, storage/segment.c. SHA-256
      and LZ4 are the classes [Sha256] and [Lz4]; [pure_sha256] is the portable
      code of the repository, LZ4 is a vendored library with its round trip as
      the law.
    - Checksum, CheckpointPage: storage/checksum.c, storage/checkpoint_page.c.
    - CommitManifest(Theory): storage/commit_manifest.c, formats 1 to 4.
    - CommitPublish(Theory), CommitResolve(Theory): storage/commit_publish.c,
      publication and the resolution of an ambiguous or conflicting commit.
    - Lease(Theory): ha/lease.c. CheckpointManifest(Theory), CheckpointBuild
      (Theory): storage/checkpoint_manifest.c, storage/checkpoint_build.c.
      Gc(Theory): storage/gc.c.
    - AesGcm, Cipher(Theory): crypto/aes_gcm_pure.c, crypto/cipher.c. [Aead] is
      the interface; the portable AES-256-GCM instantiates it.
    - LocalFile: the calls on local files, each of which may fail or write
      short, by a script of faults.
    - Recovery, RecoveryTheory, RecoveryRestore, RecoveryChain, RecoveryProps:
      storage/recovery.c, with the images a store denotes as pure functions.
    - WalPublisher, WalPublisherTheory, WalPublisherSafety, WalPublisherProps,
      WalPublisherRetry: storage/wal_publisher.c. The state record has the
      fields of the struct in groups (cached HEAD, local image, rolling sum,
      position in the WAL); the replica is a record of operations.
    - S3Target, CapabilityProbe: storage/s3_target.c,
      storage/capability_probe.c.
    - Triples: Hoare triples of the monad, which the replica and the lazy
      files use. Replica, ReplicaTheory, ReplicaSafety, ReplicaProps,
      ReplicaFence, ReplicaGap, ReplicaPromote: storage/replica.c; the stores of the destinations are a
      family indexed by number.
    - LazyCache, LazyCacheTheory, LazyCacheRefine: the page cache of
      storage/lazy_hydration.c, its slots and links as indices. LazyHydration
      (demand reads, prefetch, session writes), LazyRestore (the restore), and
      LazyTheory, LazySound, LazyDemand, LazyOpen, LazyProps, LazySession with
      their theorems.
    - Forward, ForwardTheory, ForwardWire, ForwardProps: ha/forward.c; a
      connection is the pieces that arrive, with their delays, and what is sent.
    - LocalVfs, LocalVfsProps: storage/local_vfs.c over a record of system
      calls; LocalVfsLazy: its composition with the lazy hydrator (the page
      hooks of storage/s3_database.cpp).
    - Core: core/otsardb.c. JsonMode, JsonModeProps: cli/json_mode.c. Studio,
      StudioProps: the request gate and the SQL generators of cli/studio.c;
      StudioRequest: its JSON requests.
    - LocalCache, LocalCacheProps, LocalCacheRound: storage/local_cache.cpp
      over a disk with failing calls and losses of power.

    ** What the theorems show

    - Publication is crash safe (HEAD never designates something that is not
      stored) and linearizes at the move of HEAD, with peers and faults; the
      resolution of an ambiguous commit and the detection of conflicts are
      justified by the chain that was read.
    - A successful restore is exactly an image the authenticated chain, or a
      checkpoint bound to it, denotes; it is validated whatever faults strike;
      an intact chain is always restored; a delta equals the whole replay; the
      walk of the chain terminates.
    - A sync of the publisher preserves its invariant and the safety of the
      store on every path; what it acknowledges was seen on HEAD's chain and,
      when no put times out, is stored there frame by frame; a stale image and
      a dead lease are fenced; the rolling checksum of a commit that does not
      shrink the database is the one recovery computes; retries are bounded.
      Through the VFS, a sync that SQLite sees succeed has published every
      write of the log.
    - An acknowledged commit is held by a quorum of the replicas; a session with
      a superseded epoch writes nothing; the epoch never goes back; the gap that
      is replayed is exactly the missing chain; a promotion chooses the newest
      committed destination. The probe reports the capabilities a store has.
    - A restored hydrator indexes the parent chain of the head, newest first; a
      lazy read serves the replay of that chain over the checkpoint's image,
      also through the VFS and whatever part of a page is read, when every
      segment has a page set and no page is in two segments of one commit
      (findings show what happens otherwise); the page cache refines a list in
      order of recency; the bitmap refines a set of pages.
    - A cached image that is served is one that was saved for that very head,
      across failures and losses of power, and what is saved is served.
    - A checkpoint that is built holds the pages of the image, unless a read of
      the image failed; a sweep deletes superseded objects only, past the
      retention window by the clock it reads; a takeover of the lease fences the
      old holder and waits for it.
    - The forwarding server serves connections one after the other, runs a
      statement once and whole or not at all, within a bound on reading beside
      the time of the handler and of the sends; client and server compose to a
      round trip. The JSON output is complete or says that it is not. The SQL
      generated for an edit reads as the intended statement, the gate passes
      only requests with the session's token, and the edit that a client sends
      is the one the generator gets.
    - Codecs: round trips, bounds of every read, soundness of the decoders on
      arbitrary input; equivalence of the table CRC-32, the field arithmetic of
      GHASH and the incremental checksum with their reference definitions.
    - Theorems with concrete inputs show the defects listed as findings.

    ** Bounds and fuel

    Loops that are not structural have fuel. The WAL scan has one round per
    frame that fits, and delivers every transaction that is complete and valid;
    the walks of the chain have as many rounds as the generation of their start,
    which is proved to be enough (RecoveryChain.chain_loop_enough); the sweep and the lease have theorems of
    their own. The raise of an epoch has three attempts, as in the code. The
    rounds of a prefetch worker and the wake-ups of a waiting reader are
    arguments, and the theorems hold for any number; the loops over pages are
    proved to end, except that marking a range up to page [UINT32_MAX] is proved
    not to end. The calls on the image of a checkpoint build have a script of
    outcomes; the time a forwarded statement takes is an argument. A request is
    read in at most 16384 rounds for its headers and one round per byte of its body, a response in as many rounds as its
    buffer has bytes, and every round takes a byte. Copies of files have one
    round per buffer. 64-bit sums and products are reduced with [u64] where the
    code may wrap; sizes of buffers that fit in memory are not.

    ** Not modelled

    Allocation failure, diagnostics and statistics, threads and locks beyond
    what is said above (an operation is one run; peers act between store calls,
    workers between the rounds of a reader), wall clocks (read from the state),
    the OpenSSL paths and LZ4 themselves, floating point, the life cycle of the
    server threads and their sockets, and the parts listed with that status in
    the manifest: the session and the HTTP adapter in C++
    (storage/s3_database.cpp, storage/s3_object_store.cpp), which are glue over
    a network library and threads, and the command line and the pages and
    window of the studio, which are user interface. *)

From stdpp Require Export base list strings gmap option numbers tactics.
From Stdlib Require Export ZArith Lia.

#[global] Set Default Goal Selector "!".
#[export] Set Warnings "-notation-overridden,-clear-no-such-hyp".
Open Scope Z_scope.

(** ** Bytes and C strings

    A [char] or [unsigned char] is its value 0..255 as a [Z]; a buffer, a C
    string (without its terminating NUL) and an object key are lists of such
    values. *)

Abbreviation bytes := (list Z).

Definition zlen {A} (l : list A) : Z := Z.of_nat (length l).

Definition byte_ok (b : Z) : Prop := 0 <= b < 256.
Definition bytes_ok (l : bytes) : Prop := Forall byte_ok l.

Definition UINT32_MAX : Z := 2 ^ 32 - 1.
Definition UINT64_MAX : Z := 2 ^ 64 - 1.
Definition SIZE_MAX : Z := UINT64_MAX.
Definition INT_MAX : Z := 2 ^ 31 - 1.

Definition u32 (v : Z) : Z := v mod 2 ^ 32.
Definition u64 (v : Z) : Z := v mod 2 ^ 64.
Definition u16 (v : Z) : Z := v mod 2 ^ 16.

Definition is_u32 (v : Z) : Prop := 0 <= v <= UINT32_MAX.
Definition is_u64 (v : Z) : Prop := 0 <= v <= UINT64_MAX.

(** String literals of the source: the ASCII codes. *)
Definition str (s : string) : bytes :=
  (fun a => Z.of_N (Ascii.N_of_ascii a)) <$> String.list_ascii_of_string s.

(** The double quote, and a literal between double quotes ([\"name\"]). *)
Definition dq : Z := 34.
Definition quoted (s : bytes) : bytes := dq :: s ++ [dq].
Definition q (s : string) : bytes := quoted (str s).

Definition bytes_eqb (a b : bytes) : bool := bool_decide (a = b).

(** [p] is a prefix of [l] ([strncmp(l, p, strlen(p)) == 0]). *)
Fixpoint prefixb (p l : bytes) : bool :=
  match p, l with
  | [], _ => true
  | _ :: _, [] => false
  | a :: p', b :: l' => (a =? b) && prefixb p' l'
  end.

#[global] Arguments str : simpl never.
#[global] Arguments quoted : simpl never.
#[global] Arguments bytes_eqb : simpl never.
#[global] Arguments zlen : simpl never.
#[global] Arguments dq : simpl never.

Create HintDb otsar.
Create Rewrite HintDb zlen.

(** ** A state monad

    Operations that talk to a store are functions of its state. *)
Definition M (S A : Type) : Type := S -> A * S.
Definition mret_ {S A} (a : A) : M S A := fun s => (a, s).
Definition mbind_ {S A B} (m : M S A) (k : A -> M S B) : M S B :=
  fun s => let '(a, s') := m s in k a s'.

Declare Scope otsar_scope.
Delimit Scope otsar_scope with otsar.
Notation "'let!' x ':=' m 'in' k" := (mbind_ m (fun x => k))
  (at level 10, x pattern, m at level 100, k at level 200,
   format "'[v' 'let!'  x  ':='  m  'in' '/' k ']'") : otsar_scope.
Notation "'return!' a" := (mret_ a) (at level 100) : otsar_scope.

(** Sequencing of calls that may fail: the first error is the result. *)
Definition mbind_err {S E A B} (m : M S (E + A)) (k : A -> M S (E + B)) : M S (E + B) :=
  mbind_ m (fun r => match r with inl e => mret_ (inl e) | inr a => k a end).
Notation "'let?' x ':=' m 'in' k" := (mbind_err m (fun x => k))
  (at level 10, x pattern, m at level 100, k at level 200,
   format "'[v' 'let?'  x  ':='  m  'in' '/' k ']'") : otsar_scope.
Open Scope otsar_scope.

(** ** Automation *)

(** Decide closed boolean tests on string literals by computation. *)
Ltac eval_closed_test t :=
  let v := eval vm_compute in t in
  match v with
  | true => change t with true
  | false => change t with false
  end.

Ltac is_closed_bytes t :=
  lazymatch t with
  | str ?s => idtac
  | q ?s => idtac
  | quoted (str ?s) => idtac
  end.

Ltac lit_tests :=
  repeat match goal with
  | |- context [bytes_eqb ?a ?b] =>
      is_closed_bytes a; is_closed_bytes b; eval_closed_test (bytes_eqb a b)
  end.

(** Case analysis on the test of an [if] in a hypothesis or the goal. *)
Ltac case_if_in H :=
  match type of H with
  | context [if ?b then _ else _] => let E := fresh "E" in destruct b eqn:E
  end.

(** Turn boolean hypotheses into propositions. *)
Ltac prop_bools :=
  repeat match goal with
  | H : _ && _ = true |- _ => apply andb_prop in H; destruct H
  | H : _ || _ = false |- _ => apply orb_false_elim in H; destruct H
  | H : negb _ = true |- _ => apply negb_true_iff in H
  | H : negb _ = false |- _ => apply negb_false_iff in H
  | H : (_ =? _) = true |- _ => apply Z.eqb_eq in H
  | H : (_ =? _) = false |- _ => apply Z.eqb_neq in H
  | H : (_ <? _) = true |- _ => apply Z.ltb_lt in H
  | H : (_ <? _) = false |- _ => apply Z.ltb_ge in H
  | H : (_ <=? _) = true |- _ => apply Z.leb_le in H
  | H : (_ <=? _) = false |- _ => apply Z.leb_gt in H
  | H : bool_decide _ = true |- _ => apply bool_decide_eq_true in H
  | H : bool_decide _ = false |- _ => apply bool_decide_eq_false in H
  end.

(** ** Generic lemmas *)

Lemma bytes_eqb_eq a b : bytes_eqb a b = true <-> a = b.
Proof. unfold bytes_eqb. apply bool_decide_eq_true. Qed.

Lemma bytes_eqb_refl a : bytes_eqb a a = true.
Proof. by apply bytes_eqb_eq. Qed.

Lemma bytes_eqb_neq a b : bytes_eqb a b = false <-> a ≠ b.
Proof. unfold bytes_eqb. apply bool_decide_eq_false. Qed.

Lemma zlen_nonneg {A} (l : list A) : 0 <= zlen l.
Proof. unfold zlen. lia. Qed.

Lemma zlen_app {A} (a b : list A) : zlen (a ++ b) = zlen a + zlen b.
Proof. unfold zlen. rewrite length_app. lia. Qed.

Lemma zlen_cons {A} (x : A) l : zlen (x :: l) = 1 + zlen l.
Proof. unfold zlen. cbn. lia. Qed.

Lemma zlen_nil {A} : zlen (@nil A) = 0.
Proof. reflexivity. Qed.

Lemma zlen_0 {A} (l : list A) : zlen l = 0 -> l = [].
Proof. unfold zlen. destruct l; cbn; [done|lia]. Qed.

Lemma zlen_eqb_0 {A} (x : A) l : (zlen (x :: l) =? 0) = false.
Proof. apply Z.eqb_neq. rewrite zlen_cons. pose proof (zlen_nonneg l). lia. Qed.

Lemma prefixb_app p l : prefixb p (p ++ l) = true.
Proof. induction p as [|a p IH]; cbn; [done|]. by rewrite Z.eqb_refl, IH. Qed.

Lemma prefixb_spec p l : prefixb p l = true <-> exists r, l = p ++ r.
Proof.
  split.
  - revert l. induction p as [|a p IH]; intros l H; [by exists l|].
    destruct l as [|b l]; cbn in H; [done|]. prop_bools. subst.
    destruct (IH _ H0) as [r ->]. by exists r.
  - intros [r ->]. apply prefixb_app.
Qed.

Lemma bytes_ok_app a b : bytes_ok (a ++ b) <-> bytes_ok a /\ bytes_ok b.
Proof. apply Forall_app. Qed.

Lemma drop_app_exact {A} n (a b : list A) : length a = n -> drop n (a ++ b) = b.
Proof. intros <-. apply drop_app_length. Qed.

Lemma take_app_exact {A} n (a b : list A) : length a = n -> take n (a ++ b) = a.
Proof. intros <-. apply take_app_length. Qed.

Lemma take_zlen_app (n : Z) (a b : bytes) : zlen a = n -> take (Z.to_nat n) (a ++ b) = a.
Proof. intros <-. unfold zlen. rewrite Nat2Z.id. apply take_app_length. Qed.

Lemma drop_zlen_app (n : Z) (a b : bytes) : zlen a = n -> drop (Z.to_nat n) (a ++ b) = b.
Proof. intros <-. unfold zlen. rewrite Nat2Z.id. apply drop_app_length. Qed.

(** A run, given its result. *)
Lemma run_fst {A S} (m : A * S) a : fst m = a -> m = (a, snd m).
Proof. by destruct m; intros <-. Qed.

#[export] Hint Resolve zlen_nonneg bytes_eqb_refl : otsar.
#[export] Hint Rewrite @zlen_app @zlen_cons @zlen_nil : zlen.
