(* ===== verification/CText.v ===== *)
(** * C text: strings, decimal numbers and JSON field extraction

    The engine reads and writes its JSON objects with [snprintf], [strstr],
    [strchr], [strncmp] and [strtoull], never with a JSON parser. This file
    models those functions of the C library on byte lists and proves the lemma
    library that the JSON components (journal, metadata, manifests, lease)
    share: a text is a stream of quoted and raw tokens, and [strstr] for
    ["name":...] finds the first quoted token equal to the name. *)

From S2P Require Import Prelude.

(** ** The C library *)

(** The C string a buffer holds: the bytes before the first NUL. *)
Fixpoint cstr (l : bytes) : bytes :=
  match l with
  | [] => []
  | c :: t => if c =? 0 then [] else c :: cstr t
  end.

(** [strstr(hay, needle)]: the suffix of [hay] at the first occurrence. *)
Fixpoint strstr (hay needle : bytes) : option bytes :=
  if prefixb needle hay then Some hay
  else match hay with
       | [] => None
       | _ :: t => strstr t needle
       end.

(** [strchr(s, c)], as the bytes before the first [c] and those after it. *)
Fixpoint split_at (c : Z) (s : bytes) : option (bytes * bytes) :=
  match s with
  | [] => None
  | x :: t => if x =? c then Some ([], t)
              else match split_at c t with
                   | Some (a, b) => Some (x :: a, b)
                   | None => None
                   end
  end.

Fixpoint skip_while (f : Z -> bool) (l : bytes) : bytes :=
  match l with
  | [] => []
  | c :: t => if f c then skip_while f t else l
  end.

Fixpoint span (f : Z -> bool) (l : bytes) : bytes * bytes :=
  match l with
  | [] => ([], [])
  | c :: t => if f c then let '(a, b) := span f t in (c :: a, b) else ([], l)
  end.

Definition is_digit (c : Z) : bool := (48 <=? c) && (c <=? 57).
(** [while ( *p == ' ' || *p == '\t') ++p] *)
Definition is_blank (c : Z) : bool := (c =? 32) || (c =? 9).
(** [isspace] of the C locale *)
Definition is_space (c : Z) : bool := (c =? 32) || ((9 <=? c) && (c <=? 13)).

Definition digits_value (ds : bytes) : Z :=
  foldl (fun acc d => acc * 10 + (d - 48)) 0 ds.

(** [strtoull(p, &end, 10)]: [None] when no conversion was performed
    ([end == p]); otherwise the value, the bytes at [end], and whether [errno]
    was set to [ERANGE]. *)
Definition strtoull (p : bytes) : option (Z * bytes * bool) :=
  let p1 := skip_while is_space p in
  let '(neg, p2) := match p1 with
                    | 45 :: t => (true, t)
                    | 43 :: t => (false, t)
                    | _ => (false, p1)
                    end in
  let '(ds, rest) := span is_digit p2 in
  match ds with
  | [] => None
  | _ => let v := digits_value ds in
         if UINT64_MAX <? v then Some (UINT64_MAX, rest, true)
         else Some (if neg : bool then u64 (- v) else v, rest, false)
  end.

(** [%u] and [%llu]: the decimal digits of an unsigned value. *)
Fixpoint dec_fuel (fuel : nat) (n : Z) (acc : bytes) : bytes :=
  match fuel with
  | O => acc
  | S f => let acc' := (48 + n mod 10) :: acc in
           if n / 10 =? 0 then acc' else dec_fuel f (n / 10) acc'
  end.
Definition dec (n : Z) : bytes := dec_fuel 20 n [].

(** The last byte of a string ([s[len - 1]]), when it is not empty. *)
Fixpoint last_byte (s : bytes) : option Z :=
  match s with
  | [] => None
  | [c] => Some c
  | _ :: t => last_byte t
  end.

(** [snprintf(buf, cap, "%s", s)]: what the buffer holds. *)
Definition snprintf_s (cap : Z) (s : bytes) : bytes := take (Z.to_nat (cap - 1)) s.

(** ** Basic lemmas *)

Definition no_byte (c : Z) (s : bytes) : bool := forallb (fun x => negb (x =? c)) s.
Definition noq (s : bytes) : bool := no_byte dq s.
Definition no_nul (s : bytes) : bool := no_byte 0 s.

#[global] Arguments noq : simpl never.
#[global] Arguments no_nul : simpl never.
#[global] Arguments dec : simpl never.

Lemma no_byte_cons c x s : no_byte c (x :: s) = negb (x =? c) && no_byte c s.
Proof. reflexivity. Qed.

Lemma no_byte_app c a b : no_byte c (a ++ b) = no_byte c a && no_byte c b.
Proof. apply forallb_app. Qed.

Lemma noq_app a b : noq (a ++ b) = noq a && noq b.
Proof. apply no_byte_app. Qed.

Lemma no_nul_app a b : no_nul (a ++ b) = no_nul a && no_nul b.
Proof. apply no_byte_app. Qed.

Lemma cstr_no_nul s : no_nul s = true -> cstr s = s.
Proof.
  induction s as [|c s IH]; [done|]. unfold no_nul. rewrite no_byte_cons. intros H.
  prop_bools. cbn. destruct (Z.eqb_spec c 0); [done|]. by rewrite IH.
Qed.

Lemma cstr_is_no_nul s : no_nul (cstr s) = true.
Proof.
  induction s as [|c s IH]; [done|]. cbn. destruct (Z.eqb_spec c 0); [done|].
  unfold no_nul in *. rewrite no_byte_cons, IH.
  by destruct (Z.eqb_spec c 0).
Qed.

Lemma split_at_app c a b :
  no_byte c a = true -> split_at c (a ++ c :: b) = Some (a, b).
Proof.
  induction a as [|x a IH]; cbn [app split_at].
  - by rewrite Z.eqb_refl.
  - rewrite no_byte_cons. intros H. prop_bools.
    destruct (Z.eqb_spec x c); [done|]. by rewrite IH.
Qed.

Lemma split_at_Some c s a b :
  split_at c s = Some (a, b) -> s = a ++ c :: b /\ no_byte c a = true.
Proof.
  revert a b. induction s as [|x s IH]; intros a b H; cbn in H; [done|].
  destruct (Z.eqb_spec x c) as [->|Hne].
  - by simplify_eq.
  - destruct (split_at c s) as [[a' b']|] eqn:E; [|done]. simplify_eq.
    destruct (IH _ _ eq_refl) as [-> Hn]. split; [done|].
    rewrite no_byte_cons, Hn. by apply Z.eqb_neq in Hne as ->.
Qed.

Lemma span_app f a b :
  forallb f a = true -> (match b with [] => true | c :: _ => negb (f c) end) = true ->
  span f (a ++ b) = (a, b).
Proof.
  intros Ha Hb. induction a as [|x a IH]; cbn in *.
  - destruct b; [done|]. cbn. by destruct (f z).
  - apply andb_prop in Ha as [-> Ha]. by rewrite IH.
Qed.

Lemma skip_while_stop f l :
  (match l with [] => true | c :: _ => negb (f c) end) = true -> skip_while f l = l.
Proof. destruct l; [done|]. cbn. by destruct (f z). Qed.

(** ** Decimal round trip *)

Lemma is_digit_of n : is_digit (48 + n mod 10) = true.
Proof.
  unfold is_digit. pose proof (Z.mod_pos_bound n 10 ltac:(lia)).
  apply andb_true_intro. split; apply Z.leb_le; lia.
Qed.

Lemma digits_value_snoc ds d : digits_value (ds ++ [d]) = digits_value ds * 10 + (d - 48).
Proof. unfold digits_value. by rewrite foldl_app. Qed.

Lemma digits_value_cons d ds :
  digits_value (d :: ds) = (d - 48) * 10 ^ zlen ds + digits_value ds.
Proof.
  induction ds as [|e ds IH] using rev_ind.
  - rewrite zlen_nil. unfold digits_value. cbn. lia.
  - rewrite app_comm_cons, !digits_value_snoc, IH, zlen_app, zlen_cons, zlen_nil.
    rewrite Z.pow_add_r, Z.mul_add_distr_r by (auto using zlen_nonneg with lia). cbn.
    nia.
Qed.

Lemma dec_fuel_spec fuel n acc :
  0 <= n < 10 ^ Z.of_nat fuel -> (0 < fuel)%nat ->
  forallb is_digit acc = true ->
  exists ds, dec_fuel fuel n acc = ds ++ acc /\ ds <> [] /\
    forallb is_digit ds = true /\ digits_value ds = n.
Proof.
  revert n acc. induction fuel as [|fuel IH]; intros n acc Hn Hf Hacc; [lia|].
  cbn [dec_fuel]. destruct (Z.eqb_spec (n / 10) 0) as [H0|H0].
  - exists [48 + n mod 10]. cbn [app forallb]. rewrite is_digit_of. split_and!; try done.
    unfold digits_value. cbn. pose proof (Z.div_mod n 10 ltac:(lia)). lia.
  - assert (0 < fuel)%nat.
    { destruct fuel; [|lia]. change (10 ^ Z.of_nat 1) with 10 in Hn.
      rewrite Z.div_small in H0; lia. }
    destruct (IH (n / 10) ((48 + n mod 10) :: acc)) as (ds & -> & Hne & Hds & Hv).
    + rewrite Nat2Z.inj_succ, Z.pow_succ_r in Hn by lia. split.
      * apply Z.div_pos; lia.
      * apply Z.div_lt_upper_bound; lia.
    + done.
    + cbn. by rewrite is_digit_of, Hacc.
    + exists (ds ++ [48 + n mod 10]). rewrite <- app_assoc. split_and!.
      * done.
      * by destruct ds.
      * rewrite forallb_app, Hds. cbn. by rewrite is_digit_of.
      * rewrite digits_value_snoc, Hv. pose proof (Z.div_mod n 10 ltac:(lia)). lia.
Qed.

Lemma dec_spec n : is_u64 n ->
  dec n <> [] /\ forallb is_digit (dec n) = true /\ digits_value (dec n) = n.
Proof.
  intros [H0 H1]. destruct (dec_fuel_spec 20 n []) as (ds & E & ? & ? & ?).
  - split; [done|]. unfold UINT64_MAX in H1.
    change (10 ^ Z.of_nat 20) with 100000000000000000000. lia.
  - lia.
  - done.
  - unfold dec. by rewrite E, app_nil_r.
Qed.

Lemma digits_no_byte c ds :
  is_digit c = false -> forallb is_digit ds = true -> no_byte c ds = true.
Proof.
  intros Hc. induction ds as [|d ds IH]; [done|]. cbn [forallb]. intros H.
  apply andb_prop in H as [Hd H]. rewrite no_byte_cons, IH by done.
  destruct (Z.eqb_spec d c); [congruence|done].
Qed.

Lemma dec_noq n : is_u64 n -> noq (dec n) = true.
Proof. intros H. apply digits_no_byte; [done|]. by apply dec_spec. Qed.

Lemma dec_no_nul n : is_u64 n -> no_nul (dec n) = true.
Proof. intros H. apply digits_no_byte; [done|]. by apply dec_spec. Qed.

Lemma u32_is_u64 n : is_u32 n -> is_u64 n.
Proof. unfold is_u32, is_u64, UINT32_MAX, UINT64_MAX. lia. Qed.

Lemma dec_head n : is_u64 n -> exists d ds, dec n = d :: ds /\ is_digit d = true.
Proof.
  intros H. destruct (dec_spec n H) as (Hne & Hd & _). destruct (dec n) as [|d ds]; [done|].
  cbn in Hd. apply andb_prop in Hd as [Hd _]. by exists d, ds.
Qed.

Lemma digit_not_space d : is_digit d = true -> is_space d = false /\ is_blank d = false.
Proof.
  unfold is_digit, is_space, is_blank. intros H. prop_bools.
  destruct (Z.eqb_spec d 32), (Z.leb_spec 9 d), (Z.leb_spec d 13), (Z.eqb_spec d 9); cbn; lia.
Qed.

(** Reading back a printed number: [strtoull] stops at the first non-digit. *)
Lemma strtoull_dec n rest :
  is_u64 n -> (match rest with [] => true | c :: _ => negb (is_digit c) end) = true ->
  strtoull (dec n ++ rest) = Some (n, rest, false).
Proof.
  intros Hn Hr. destruct (dec_spec n Hn) as (Hne & Hd & Hv).
  destruct (dec_head n Hn) as (d & ds & E & Hd0).
  unfold strtoull. rewrite skip_while_stop.
  2:{ rewrite E. cbn. by destruct (digit_not_space d Hd0) as [-> _]. }
  assert (Hm : (match dec n ++ rest with
                | 45 :: t => (true, t) | 43 :: t => (false, t)
                | _ => (false, dec n ++ rest) end) = (false, dec n ++ rest)).
  { rewrite E. cbn [app]. unfold is_digit in Hd0. prop_bools.
    assert (d <> 45 /\ d <> 43) as [? ?] by lia.
    destruct d as [|p|p]; try done. do 6 (destruct p as [p|p|]; try done; try lia). }
  rewrite Hm. rewrite span_app by done.
  destruct (dec n) as [|d' ds'] eqn:E'; [done|]. rewrite <- E'.
  rewrite E', Hv. unfold is_u64 in Hn.
  destruct (Z.ltb_spec UINT64_MAX n); [lia|done].
Qed.
