(* ===== verification/JsonText.v ===== *)
(** * JSON texts as token streams

    Every JSON object the engine publishes is a sequence of double-quoted
    strings ([TQ]) and raw runs without quotes ([TR]). The lemmas of this file
    say what [strstr] returns on such a text for a pattern that starts with a
    quoted name, so that each decoder's round trip is a computation on its
    token list. [tail] is whatever the bytes
    after the text are: the code that scans an object without copying it reads
    into the memory behind it. *)

From S2P Require Import Prelude CText.

Inductive tok :=
  | TQ (s : bytes)
  | TR (s : bytes).

(** The text of a token stream in front of [tail]. *)
Fixpoint text (ts : list tok) (tail : bytes) : bytes :=
  match ts with
  | [] => tail
  | TQ s :: r => dq :: s ++ dq :: text r tail
  | TR s :: r => s ++ text r tail
  end.

(** Characters that may follow a closing quote. *)
Definition is_sep (c : Z) : bool :=
  (c =? 44) || (c =? 58) || (c =? 125) || (c =? 93).

Definition starts_sep (ts : list tok) : bool :=
  match ts with
  | TR (c :: _) :: _ => is_sep c
  | _ => false
  end.

Fixpoint toks_wf (ts : list tok) : bool :=
  match ts with
  | [] => true
  | TQ s :: r => noq s && starts_sep r && toks_wf r
  | TR s :: r => noq s && toks_wf r
  end.

(** A field name: quote-free, not starting with a separator. *)
Definition name_ok (n : bytes) : bool :=
  noq n && match n with [] => false | c :: _ => negb (is_sep c) end.

(** The pattern of [strstr]: the quoted name followed by [pt]. *)
Definition pattern (n pt : bytes) : bytes := quoted n ++ pt.

(** [p = strstr(hay, pat); p += strlen(pat)] *)
Definition find_after (hay pat : bytes) : option bytes :=
  match strstr hay pat with
  | Some r => Some (drop (length pat) r)
  | None => None
  end.

(** The text after the first quoted token equal to [n] and followed by [pt]. *)
Fixpoint tok_find (n pt : bytes) (ts : list tok) (tail : bytes) : option bytes :=
  match ts with
  | [] => find_after tail (pattern n pt)
  | TQ s :: r =>
      if prefixb pt (text r tail) && bytes_eqb s n
      then Some (drop (length pt) (text r tail)) else tok_find n pt r tail
  | TR _ :: r => tok_find n pt r tail
  end.

(** ** Skipping quote-free text *)

Lemma prefixb_quoted_ne n pt c t : c <> dq -> prefixb (pattern n pt) (c :: t) = false.
Proof.
  intros H. unfold pattern, quoted. cbn [app prefixb]. destruct (Z.eqb_spec dq c); [congruence|done].
Qed.

Lemma strstr_skip n pt a b :
  noq a = true -> strstr (a ++ b) (pattern n pt) = strstr b (pattern n pt).
Proof.
  unfold noq. induction a as [|c a IH]; [done|]. rewrite no_byte_cons. intros H. prop_bools.
  cbn [app]. unfold strstr at 1; fold strstr.
  rewrite prefixb_quoted_ne by done. by apply IH.
Qed.

(** Matching at an opening quote compares the whole quoted strings. *)
Lemma prefixb_at_quoted n s pt r :
  noq n = true -> noq s = true ->
  prefixb (pattern n pt) (quoted s ++ r) = prefixb pt r && bytes_eqb s n.
Proof.
  unfold pattern, quoted. cbn [app prefixb]. rewrite Z.eqb_refl. cbn [andb].
  rewrite <- !app_assoc. cbn [app]. unfold noq. revert s.
  induction n as [|c n IH]; intros s Hn Hs.
  - destruct s as [|d s]; cbn [app prefixb].
    + rewrite Z.eqb_refl. by rewrite bytes_eqb_refl, andb_true_r.
    + rewrite no_byte_cons in Hs. prop_bools.
      destruct (Z.eqb_spec dq d); [congruence|]. cbn [andb].
      rewrite (proj2 (bytes_eqb_neq _ _)) by done. by rewrite andb_false_r.
  - rewrite no_byte_cons in Hn. prop_bools. destruct s as [|d s]; cbn [app prefixb].
    + destruct (Z.eqb_spec c dq); [congruence|]. cbn [andb].
      rewrite (proj2 (bytes_eqb_neq _ _)) by done. by rewrite andb_false_r.
    + rewrite no_byte_cons in Hs. prop_bools. rewrite IH by done.
      destruct (Z.eqb_spec c d) as [->|Hcd]; cbn [andb].
      * f_equal. unfold bytes_eqb. apply bool_decide_ext. split; [by intros ->|by intros [=]].
      * rewrite (proj2 (bytes_eqb_neq (d :: s) _)) by congruence. by rewrite andb_false_r.
Qed.

Lemma sep_not_dq c : is_sep c = true -> c <> dq.
Proof. intros H ->. by vm_compute in H. Qed.

Lemma find_after_skip n pt a b :
  noq a = true -> find_after (a ++ b) (pattern n pt) = find_after b (pattern n pt).
Proof. intros H. unfold find_after. by rewrite strstr_skip. Qed.

(** A quoted token that is not the match is skipped: its closing quote cannot
    open a match either, since a separator follows it. *)
Lemma find_after_quoted n pt s r :
  name_ok n = true -> noq s = true ->
  (match r with c :: _ => is_sep c | [] => false end) = true ->
  find_after (quoted s ++ r) (pattern n pt) =
  if prefixb pt r && bytes_eqb s n then Some (drop (length pt) r)
  else find_after r (pattern n pt).
Proof.
  intros Hn Hs Hr. unfold name_ok in Hn. apply andb_prop in Hn as [Hnq Hn0].
  destruct (prefixb pt r && bytes_eqb s n) eqn:E.
  - rewrite <- (prefixb_at_quoted n s pt r) in E by done.
    apply prefixb_spec in E as [r' Hr']. rewrite Hr'. unfold find_after.
    assert (strstr (pattern n pt ++ r') (pattern n pt) = Some (pattern n pt ++ r')) as ->.
    { destruct (pattern n pt) eqn:Ep; [done|]. rewrite <- Ep. unfold strstr.
      rewrite Ep. cbn [app]. rewrite <- Ep.
      change (z :: l ++ r') with ((z :: l) ++ r'). by rewrite <- Ep, prefixb_app. }
    f_equal. rewrite drop_app_length.
    assert (quoted s = quoted n) as Hq.
    { assert (prefixb (pattern n pt) (quoted s ++ r) = true) as Hp
        by (rewrite Hr'; apply prefixb_app).
      rewrite prefixb_at_quoted in Hp by done. prop_bools. f_equal. by apply bytes_eqb_eq. }
    rewrite Hq in Hr'. unfold pattern in Hr'. rewrite <- app_assoc in Hr'.
    apply app_inv_head in Hr'. by rewrite Hr', drop_app_length.
  - unfold find_after. change (quoted s ++ r) with (dq :: (s ++ [dq]) ++ r).
    unfold strstr at 1; fold strstr. change (dq :: (s ++ [dq]) ++ r) with (quoted s ++ r).
    rewrite prefixb_at_quoted, E by done.
    rewrite <- app_assoc, strstr_skip by done. cbn [app].
    unfold strstr at 1; fold strstr.
    destruct r as [|c r]; [done|]. destruct n as [|d n]; [done|].
    unfold pattern at 1, quoted at 1. cbn [app prefixb]. rewrite Z.eqb_refl.
    destruct (Z.eqb_spec d c) as [->|]; [by rewrite Hr in Hn0|]. done.
Qed.

(** The first occurrence in a token stream. *)
Lemma find_after_text n pt ts tail :
  name_ok n = true -> toks_wf ts = true ->
  find_after (text ts tail) (pattern n pt) = tok_find n pt ts tail.
Proof.
  intros Hn. induction ts as [|[s|s] ts IH]; intros Hwf; cbn [toks_wf] in Hwf; [done| |];
    cbn [text tok_find]; prop_bools.
  - replace (dq :: s ++ dq :: text ts tail) with (quoted s ++ text ts tail)
      by (unfold quoted; cbn; by rewrite <- app_assoc).
    rewrite find_after_quoted; [by rewrite IH|done|done|].
    destruct ts as [|[|[|c r]] ts]; done.
  - rewrite find_after_skip by done. by apply IH.
Qed.

Lemma text_app a b tail : text (a ++ b) tail = text a (text b tail).
Proof. induction a as [|[s|s] a IH]; cbn; [done| |]; by rewrite IH. Qed.

Lemma text_tail ts tail : text ts tail = text ts [] ++ tail.
Proof.
  induction ts as [|[s|s] ts IH]; [done| |]; cbn [text]; rewrite IH.
  - by rewrite <- app_comm_cons, <- app_assoc.
  - by rewrite app_assoc.
Qed.

Definition tok_str (t : tok) : bytes := match t with TQ s => s | TR s => s end.

Lemma text_no_nul ts :
  forallb (fun t => no_nul (tok_str t)) ts = true -> no_nul (text ts []) = true.
Proof.
  induction ts as [|[s|s] ts IH]; [done| |]; cbn [forallb text tok_str]; intros H; prop_bools.
  - change (dq :: s ++ dq :: text ts []) with ([dq] ++ s ++ [dq] ++ text ts []).
    rewrite !no_nul_app, H, IH by done. done.
  - by rewrite no_nul_app, H, IH.
Qed.

(** ** Field extraction

    The static [extract_u64] and [extract_string] of the storage modules come
    in a few variants; [cap] is the size of the [pattern] buffer. *)

(** [snprintf(pattern, cap, ...) >= cap] fails; otherwise find the pattern. *)
Definition find_field (cap : Z) (json name pt : bytes) : option bytes :=
  if cap <=? zlen (pattern name pt) then None
  else find_after json (pattern name pt).

(** journal.c, db_metadata.c and checkpoint_manifest.c: the value of
    [strtoull], whatever its sign and range. *)
Definition extract_u64_raw (cap : Z) (json name : bytes) : option Z :=
  match find_field cap json name (str ":") with
  | None => None
  | Some p =>
      match strtoull (skip_while is_blank p) with
      | None => None
      | Some (v, _, _) => Some v
      end
  end.

(** A number is read with a leading minus sign and [ERANGE] refused. *)
Definition strtoull_checked (p : bytes) : option (Z * bytes) :=
  match p with
  | 45 :: _ => None
  | _ => match strtoull p with
         | Some (v, rest, false) => Some (v, rest)
         | _ => None
         end
  end.

(** commit_manifest.c and commit_publish.c *)
Definition extract_u64_checked (cap : Z) (json name : bytes) : option Z :=
  match find_field cap json name (str ":") with
  | None => None
  | Some p => option_map fst (strtoull_checked (skip_while is_blank p))
  end.

(** The quoted value after the name, when it fits [out_size] with its NUL. *)
Definition quoted_value (p : bytes) (out_size : Z) : option bytes :=
  match split_at dq p with
  | None => None
  | Some (v, _) => if out_size <=? zlen v then None else Some v
  end.

Definition str_colon_quote : bytes := str ":" ++ [dq].

Definition extract_string_raw (cap : Z) (json name : bytes) (out_size : Z) : option bytes :=
  match find_field cap json name str_colon_quote with
  | None => None
  | Some p => quoted_value p out_size
  end.

(** ** Extraction from token streams *)

Lemma find_field_text cap ts tail name pt :
  name_ok name = true -> toks_wf ts = true -> zlen (pattern name pt) < cap ->
  find_field cap (text ts tail) name pt = tok_find name pt ts tail.
Proof.
  intros. unfold find_field. destruct (Z.leb_spec cap (zlen (pattern name pt))); [lia|].
  by apply find_after_text.
Qed.

Definition stops_number (r : bytes) : bool :=
  match r with [] => true | c :: _ => negb (is_digit c) end.

Lemma blank_dec v r : is_u64 v -> skip_while is_blank (dec v ++ r) = dec v ++ r.
Proof.
  intros H. apply skip_while_stop. destruct (dec_head v H) as (d & ds & -> & Hd). cbn.
  by destruct (digit_not_space d Hd) as [_ ->].
Qed.

Lemma strtoull_checked_dec v r :
  is_u64 v -> stops_number r = true -> strtoull_checked (dec v ++ r) = Some (v, r).
Proof.
  intros Hv Hr. pose proof (strtoull_dec v r Hv Hr) as E. unfold strtoull_checked.
  destruct (dec_head v Hv) as (d & ds & Ed & Hd). rewrite Ed in *. cbn [app] in *.
  rewrite E. unfold is_digit in Hd. prop_bools.
  destruct d as [|p|p]; try done. do 6 (destruct p as [p|p|]; try done; try lia).
Qed.

Lemma extract_u64_raw_text cap ts tail name v r :
  name_ok name = true -> toks_wf ts = true -> zlen (pattern name (str ":")) < cap ->
  tok_find name (str ":") ts tail = Some (dec v ++ r) ->
  is_u64 v -> stops_number r = true ->
  extract_u64_raw cap (text ts tail) name = Some v.
Proof.
  intros ??? Hf Hv Hr. unfold extract_u64_raw. rewrite find_field_text, Hf by done.
  by rewrite blank_dec, strtoull_dec.
Qed.

Lemma extract_u64_checked_text cap ts tail name v r :
  name_ok name = true -> toks_wf ts = true -> zlen (pattern name (str ":")) < cap ->
  tok_find name (str ":") ts tail = Some (dec v ++ r) ->
  is_u64 v -> stops_number r = true ->
  extract_u64_checked cap (text ts tail) name = Some v.
Proof.
  intros ??? Hf Hv Hr. unfold extract_u64_checked. rewrite find_field_text, Hf by done.
  by rewrite blank_dec, strtoull_checked_dec.
Qed.

Lemma quoted_value_app s r n :
  noq s = true -> zlen s < n -> quoted_value (s ++ dq :: r) n = Some s.
Proof.
  intros Hs Hn. unfold quoted_value. rewrite split_at_app by done.
  destruct (Z.leb_spec n (zlen s)); [lia|done].
Qed.

Lemma extract_string_raw_text cap ts tail name n s r :
  name_ok name = true -> toks_wf ts = true -> zlen (pattern name str_colon_quote) < cap ->
  tok_find name str_colon_quote ts tail = Some (s ++ dq :: r) ->
  noq s = true -> zlen s < n ->
  extract_string_raw cap (text ts tail) name n = Some s.
Proof.
  intros ??? Hf Hs Hn. unfold extract_string_raw. rewrite find_field_text, Hf by done.
  by apply quoted_value_app.
Qed.

(** ** Tactics *)

(** Token lists of the components are unfolded through this database. *)
Create HintDb toks.

(** Well-formedness of a concrete token list with symbolic values. *)
Ltac json_wf :=
  autounfold with toks; cbn [app toks_wf forallb tok_str];
  repeat match goal with
  | |- _ && _ = true => apply andb_true_intro; split
  | |- noq (dec _) = true => apply dec_noq
  | |- no_nul (dec _) = true => apply dec_no_nul
  | |- noq (str _) = true => reflexivity
  | |- no_nul (str _) = true => reflexivity
  | |- starts_sep _ = true => reflexivity
  | |- true = true => reflexivity
  | |- _ => first [ assumption | reflexivity ]
  end.

(** Find a field in a concrete token list: the name tokens are compared by
    computation, a value token is passed over by what follows it. *)
Lemma tok_find_TR n pt s r tail : tok_find n pt (TR s :: r) tail = tok_find n pt r tail.
Proof. reflexivity. Qed.

Lemma tok_find_ne n pt s r tail :
  bytes_eqb s n = false -> tok_find n pt (TQ s :: r) tail = tok_find n pt r tail.
Proof. intros H. cbn. by rewrite H, andb_false_r. Qed.

Lemma tok_find_np n pt s r tail :
  prefixb pt (text r tail) = false -> tok_find n pt (TQ s :: r) tail = tok_find n pt r tail.
Proof. intros H. cbn. by rewrite H. Qed.

Lemma tok_find_hit n pt r tail :
  prefixb pt (text r tail) = true ->
  tok_find n pt (TQ n :: r) tail = Some (drop (length pt) (text r tail)).
Proof. intros H. cbn. by rewrite H, bytes_eqb_refl. Qed.

Ltac json_find :=
  autounfold with toks; cbn [app];
  repeat first
    [ rewrite tok_find_TR
    | match goal with
      | |- context [tok_find (str ?n) ?pt (TQ (str ?s) :: ?r) ?tail] =>
          first [ rewrite (tok_find_ne (str n) pt (str s) r tail) by reflexivity
                | rewrite (tok_find_hit (str n) pt r tail) by reflexivity
                | rewrite (tok_find_np (str n) pt (str s) r tail) by reflexivity ]
      | |- context [tok_find (str ?n) ?pt (TQ ?s :: ?r) ?tail] =>
          rewrite (tok_find_np (str n) pt s r tail) by reflexivity
      end ].
