(* ===== verification/ObjectStore.v ===== *)
(** * The object store interface (object_store.h)

    [otsardb_object_store] is a table of operations with a capability mask; the
    engine never talks to S3 in any other way. The store's own state is
    abstract ([S]). [StoreLaws] states what a client may rely on: conditional
    puts are atomic, a failed precondition changes nothing, a timeout or a
    transport error leaves open whether the write happened, and between two
    operations other clients may change the contents as the relation [env]
    allows. [mem_store] is a reference store with scripted faults, modelled on
    tests/memory_store.c and tests/fault_store.c, that satisfies the laws. *)

From S2P Require Import Prelude CText.

(** [otsardb_store_result] without [OTSARDB_STORE_OK], which is the successful
    side of each operation's result. *)
Inductive store_error :=
  | OTSARDB_STORE_NOT_FOUND
  | OTSARDB_STORE_PRECONDITION_FAILED
  | OTSARDB_STORE_ERROR
  | OTSARDB_STORE_NOT_EMPTY
  | OTSARDB_STORE_TIMEOUT
  | OTSARDB_STORE_UNSUPPORTED.

#[export] Instance store_error_eq_dec : EqDecision store_error.
Proof. solve_decision. Defined.

Definition OTSARDB_STORE_CAP_ETAG : Z := Z.shiftl 1 0.
Definition OTSARDB_STORE_CAP_RANGE_GET : Z := Z.shiftl 1 1.
Definition OTSARDB_STORE_CAP_READ_AFTER_WRITE : Z := Z.shiftl 1 2.
Definition OTSARDB_STORE_CAP_CONDITIONAL_CREATE : Z := Z.shiftl 1 3.
Definition OTSARDB_STORE_CAP_CONDITIONAL_UPDATE : Z := Z.shiftl 1 4.
Definition OTSARDB_STORE_CAP_MULTIPART : Z := Z.shiftl 1 5.

(** A NULL etag is [None]. *)
Record otsardb_store_object := mkObject {
  so_data : bytes;
  so_etag : option bytes;
  so_last_modified_secs : Z
}.

Record otsardb_store_put_options := mkPutOptions {
  if_none_match : bool;
  if_match_etag : option bytes
}.

Definition plain_put : otsardb_store_put_options := mkPutOptions false None.

(** The operation table; a NULL entry is [None]. A streamed put pulls its
    chunks from a list, a listing returns the keys the callback would see. *)
Record otsardb_object_store (S : Type) := mkStore {
  ops_get : option (bytes -> M S (store_error + otsardb_store_object));
  ops_get_range : option (bytes -> Z -> Z -> M S (store_error + otsardb_store_object));
  ops_put : option (bytes -> bytes -> otsardb_store_put_options ->
                    M S (store_error + option bytes));
  ops_put_stream : option (bytes -> list bytes -> Z -> otsardb_store_put_options ->
                           M S (store_error + option bytes));
  ops_delete_object : option (bytes -> M S (option store_error));
  ops_list : option (bytes -> M S (store_error + list bytes));
  capabilities : Z
}.
Arguments mkStore {S}.
Arguments ops_get {S}.
Arguments ops_get_range {S}.
Arguments ops_put {S}.
Arguments ops_put_stream {S}.
Arguments ops_delete_object {S}.
Arguments ops_list {S}.
Arguments capabilities {S}.

Section Dispatch.
Context {S : Type} (store : otsardb_object_store S).

Definition otsardb_store_supports (capability : Z) : bool :=
  Z.land (capabilities store) capability =? capability.

Definition otsardb_store_get (key : bytes) : M S (store_error + otsardb_store_object) :=
  match ops_get store with
  | None => return! inl OTSARDB_STORE_UNSUPPORTED
  | Some f => f key
  end.

Definition otsardb_store_get_range (key : bytes) (offset length : Z)
  : M S (store_error + otsardb_store_object) :=
  match ops_get_range store with
  | None => return! inl OTSARDB_STORE_UNSUPPORTED
  | Some f => f key offset length
  end.

Definition otsardb_store_put (key data : bytes) (options : otsardb_store_put_options)
  : M S (store_error + option bytes) :=
  match ops_put store with
  | None => return! inl OTSARDB_STORE_UNSUPPORTED
  | Some f => f key data options
  end.

Definition otsardb_store_put_stream (key : bytes) (source : list bytes) (expected_size : Z)
    (options : otsardb_store_put_options) : M S (store_error + option bytes) :=
  match ops_put_stream store with
  | None => return! inl OTSARDB_STORE_UNSUPPORTED
  | Some f => f key source expected_size options
  end.

Definition otsardb_store_delete (key : bytes) : M S (option store_error) :=
  match ops_delete_object store with
  | None => return! Some OTSARDB_STORE_UNSUPPORTED
  | Some f => f key
  end.

Definition otsardb_store_list (prefix : bytes) : M S (store_error + list bytes) :=
  match ops_list store with
  | None => return! inl OTSARDB_STORE_UNSUPPORTED
  | Some f => f prefix
  end.

End Dispatch.

(** ** What clients rely on *)

Abbreviation contents := (gmap bytes otsardb_store_object).

(** The conditional headers of a put, evaluated on the contents. *)
Definition precondition (v : contents) (k : bytes) (o : otsardb_store_put_options) : bool :=
  (negb (if_none_match o) || bool_decide (v !! k = None)) &&
  match if_match_etag o with
  | None => true
  | Some e => match v !! k with
              | Some ob => bool_decide (so_etag ob = Some e)
              | None => false
              end
  end.

(** [w'] is [w] with [data] stored under [k]. *)
Definition stored (w w' : contents) (k data : bytes) (etag : option bytes) : Prop :=
  exists ob, so_data ob = data /\ (forall e, etag = Some e -> so_etag ob = Some e) /\
             w' = <[k := ob]> w.

Class StoreLaws {S} (store : otsardb_object_store S) (view : S -> contents)
    (env : contents -> contents -> Prop) : Prop := {
  get_law : forall key s r s', otsardb_store_get store key s = (r, s') ->
    env (view s) (view s') /\
    match r with
    | inr ob => view s' !! key = Some ob
    | inl OTSARDB_STORE_NOT_FOUND => view s' !! key = None
    | inl _ => True
    end;
  put_law : forall key data o s r s', otsardb_store_put store key data o s = (r, s') ->
    exists w, env (view s) w /\
    match r with
    | inr etag => precondition w key o = true /\ stored w (view s') key data etag
    | inl OTSARDB_STORE_PRECONDITION_FAILED => precondition w key o = false /\ view s' = w
    | inl OTSARDB_STORE_UNSUPPORTED => view s' = w
    | inl _ => view s' = w \/
               (precondition w key o = true /\ stored w (view s') key data None)
    end;
  delete_law : forall key s r s', otsardb_store_delete store key s = (r, s') ->
    exists w, env (view s) w /\ (view s' = w \/ view s' = delete key w)
}.

(** What a store promises of its streamed puts. *)
Class StreamLaw {S} (store : otsardb_object_store S) (view : S -> contents)
    (env : contents -> contents -> Prop) : Prop := {
  stream_law : forall key source o s r s',
    otsardb_store_put_stream store key source (zlen (concat source)) o s = (r, s') ->
    exists w, env (view s) w /\
      (view s' = w \/ exists etag, precondition w key o = true /\ stored w (view s') key (concat source) etag)
}.

Lemma stream_put_law {S} (store : otsardb_object_store S) (view : S -> contents) env `{!StreamLaw store view env}
    key data o s r s' :
  otsardb_store_put_stream store key [data] (zlen data) o s = (r, s') ->
  exists w, env (view s) w /\
    (view s' = w \/ exists etag, precondition w key o = true /\ stored w (view s') key data etag).
Proof.
  intros H. pose proof (stream_law key [data] o s r s') as L. cbn [concat] in L. rewrite app_nil_r in L. auto.
Qed.
#[global] Arguments stream_put_law {S store view env _}.

(** Fewer promises of the peers are promises still. *)
Lemma store_laws_weaken {S} (store : otsardb_object_store S) (view : S -> contents) (env env' : contents -> contents -> Prop) :
  (forall v w, env v w -> env' v w) -> StoreLaws store view env -> StoreLaws store view env'.
Proof.
  intros Hi [G P D]. split.
  - intros key s r s' H. destruct (G _ _ _ _ H). auto.
  - intros key data o s r s' H. destruct (P _ _ _ _ _ _ H) as (w & ? & ?). eauto.
  - intros key s r s' H. destruct (D _ _ _ _ H) as (w & ? & ?). eauto.
Qed.

(** Stores on which nobody else writes. *)
Abbreviation quiet := (@eq contents) (only parsing).

(** ** The reference store *)

Inductive fault :=
  | F_none                          (* perform the operation *)
  | F_fail (e : store_error)        (* fail without performing it *)
  | F_after (e : store_error).      (* perform it, then report [e] *)

Record mem := mkMem {
  m_objects : contents;
  m_next_version : Z;
  m_now : Z;
  m_faults : list fault
}.

Definition mem_pop (s : mem) : fault * mem :=
  match m_faults s with
  | [] => (F_none, s)
  | f :: r => (f, mkMem (m_objects s) (m_next_version s) (m_now s) r)
  end.

(** [make_etag]: the letter v followed by the version. *)
Definition make_etag (version : Z) : bytes := str "v" ++ dec version.

Definition mem_write (key data : bytes) (s : mem) : bytes * mem :=
  let version := m_next_version s + 1 in
  let etag := make_etag version in
  (etag, mkMem (<[key := mkObject data (Some etag) (m_now s)]> (m_objects s))
               version (m_now s) (m_faults s)).

Definition mem_get (key : bytes) : M mem (store_error + otsardb_store_object) :=
  fun s0 => let '(f, s) := mem_pop s0 in
  match f with
  | F_fail OTSARDB_STORE_NOT_FOUND => (inl OTSARDB_STORE_ERROR, s)
  | F_fail e | F_after e =>
      (inl (if bool_decide (e = OTSARDB_STORE_NOT_FOUND) then OTSARDB_STORE_ERROR else e), s)
  | F_none => (match m_objects s !! key with
               | None => inl OTSARDB_STORE_NOT_FOUND
               | Some ob => inr ob
               end, s)
  end.

Definition mem_get_range (key : bytes) (offset length : Z)
  : M mem (store_error + otsardb_store_object) :=
  fun s0 => let '(f, s) := mem_pop s0 in
  match f with
  | F_fail e | F_after e => (inl e, s)
  | F_none => (match m_objects s !! key with
               | None => inl OTSARDB_STORE_NOT_FOUND
               | Some ob =>
                   if zlen (so_data ob) <? offset then inl OTSARDB_STORE_ERROR
                   else inr (mkObject (take (Z.to_nat length) (drop (Z.to_nat offset) (so_data ob)))
                                      (so_etag ob) (so_last_modified_secs ob))
               end, s)
  end.

Definition is_transport (e : store_error) : bool :=
  match e with
  | OTSARDB_STORE_ERROR | OTSARDB_STORE_TIMEOUT => true
  | _ => false
  end.

Definition mem_perform_put (caps : Z) (key data : bytes) (o : otsardb_store_put_options)
    (s : mem) : (store_error + option bytes) * mem :=
  if if_none_match o && negb (Z.land caps OTSARDB_STORE_CAP_CONDITIONAL_CREATE =?
                              OTSARDB_STORE_CAP_CONDITIONAL_CREATE)
  then (inl OTSARDB_STORE_UNSUPPORTED, s)
  else if bool_decide (is_Some (if_match_etag o)) &&
          negb (Z.land caps OTSARDB_STORE_CAP_CONDITIONAL_UPDATE =?
                OTSARDB_STORE_CAP_CONDITIONAL_UPDATE)
  then (inl OTSARDB_STORE_UNSUPPORTED, s)
  else if negb (precondition (m_objects s) key o)
  then (inl OTSARDB_STORE_PRECONDITION_FAILED, s)
  else let '(etag, s') := mem_write key data s in (inr (Some etag), s').

Definition mem_put (caps : Z) (key data : bytes) (o : otsardb_store_put_options)
  : M mem (store_error + option bytes) :=
  fun s0 => let '(f, s) := mem_pop s0 in
  match f with
  | F_none => mem_perform_put caps key data o s
  | F_fail e => (inl (if is_transport e then e else OTSARDB_STORE_ERROR), s)
  | F_after e =>
      match mem_perform_put caps key data o s with
      | (inr _, s') => (inl (if is_transport e then e else OTSARDB_STORE_ERROR), s')
      | r => r
      end
  end.

Definition mem_put_stream (caps : Z) (key : bytes) (source : list bytes) (expected : Z)
    (o : otsardb_store_put_options) : M mem (store_error + option bytes) :=
  let data := concat source in
  if zlen data <? expected then return! inl OTSARDB_STORE_ERROR
  else mem_put caps key (take (Z.to_nat expected) data) o.

Definition mem_delete (key : bytes) : M mem (option store_error) :=
  fun s0 => let '(f, s) := mem_pop s0 in
  match f with
  | F_fail e => (Some e, s)
  | _ => match m_objects s !! key with
         | None => (Some OTSARDB_STORE_NOT_FOUND, s)
         | Some _ =>
             (match f with F_after e => Some e | _ => None end,
              mkMem (delete key (m_objects s)) (m_next_version s) (m_now s) (m_faults s))
         end
  end.

Definition mem_list (prefix : bytes) : M mem (store_error + list bytes) :=
  fun s => (inr (drop (length prefix) <$>
                 filter (fun k => Is_true (prefixb prefix k)) (fst <$> map_to_list (m_objects s))), s).

Definition mem_store (caps : Z) : otsardb_object_store mem :=
  mkStore (Some mem_get) (Some mem_get_range) (Some (mem_put caps)) (Some (mem_put_stream caps))
          (Some mem_delete) (Some mem_list) caps.

Definition CAPS_ALL : Z := 31.
Definition CAPS_CORE : Z := 7.

Definition mem_empty : mem := mkMem ∅ 0 0 [].

Lemma mem_pop_objects s f s' : mem_pop s = (f, s') -> m_objects s' = m_objects s.
Proof. unfold mem_pop. destruct (m_faults s); intros; by simplify_eq. Qed.

Lemma mem_perform_put_spec caps key data o s r s' :
  mem_perform_put caps key data o s = (r, s') ->
  match r with
  | inr etag => precondition (m_objects s) key o = true /\
                stored (m_objects s) (m_objects s') key data etag
  | inl OTSARDB_STORE_PRECONDITION_FAILED =>
      precondition (m_objects s) key o = false /\ m_objects s' = m_objects s
  | inl e => e = OTSARDB_STORE_UNSUPPORTED /\ m_objects s' = m_objects s
  end.
Proof.
  unfold mem_perform_put. intros H.
  repeat (case_if_in H; [by simplify_eq|]).
  destruct (precondition (m_objects s) key o); cbn in H; simplify_eq; [|done].
  split; [done|]. eexists. split_and!; [..|done]; [done|]. by intros ? [= <-].
Qed.

Lemma transport_put (e : store_error) (P Q R : Prop) :
  R ->
  match (if is_transport e then e else OTSARDB_STORE_ERROR) with
  | OTSARDB_STORE_PRECONDITION_FAILED => P
  | OTSARDB_STORE_UNSUPPORTED => Q
  | _ => R
  end.
Proof. by destruct e. Qed.

(** The reference store, faults included, satisfies the laws. *)
#[export] Instance mem_store_laws caps : StoreLaws (mem_store caps) m_objects quiet.
Proof.
  split.
  - intros key s r s' H. cbn in H. unfold mem_get in H.
    destruct (mem_pop s) as [f s1] eqn:Ep. pose proof (mem_pop_objects _ _ _ Ep) as Eo.
    destruct f as [|e|e]; [| |].
    + simplify_eq. rewrite Eo. split; [done|]. by destruct (m_objects s !! key).
    + destruct e; simplify_eq; cbn; by rewrite Eo.
    + destruct e; simplify_eq; cbn; by rewrite Eo.
  - intros key data o s r s' H. cbn in H. unfold mem_put in H.
    destruct (mem_pop s) as [f s1] eqn:Ep. pose proof (mem_pop_objects _ _ _ Ep) as Eo.
    exists (m_objects s1). split; [by rewrite Eo|].
    destruct f as [|e|e].
    + apply mem_perform_put_spec in H. destruct r as [[]|]; try (destruct H; done); auto.
    + simplify_eq. apply transport_put. by left.
    + destruct (mem_perform_put caps key data o s1) as [r1 s2] eqn:E.
      apply mem_perform_put_spec in E. destruct r1 as [e1|et].
      * simplify_eq. destruct e1; try (destruct E; done); auto.
      * simplify_eq. apply transport_put. right. destruct E as [Hp (ob & Hd & _ & Hw)].
        split; [done|]. by exists ob.
  - intros key s r s' H. cbn in H. unfold mem_delete in H.
    destruct (mem_pop s) as [f s1] eqn:Ep. pose proof (mem_pop_objects _ _ _ Ep) as Eo.
    exists (m_objects s1). split; [by rewrite Eo|].
    destruct f; repeat case_match; simplify_eq; cbn; auto.
Qed.

#[export] Instance mem_stream_law caps : StreamLaw (mem_store caps) m_objects quiet.
Proof.
  split. intros key source o s r s' H. cbn in H. unfold mem_put_stream in H.
  rewrite Z.ltb_irrefl in H. unfold zlen in H. rewrite Nat2Z.id, firstn_all in H.
  destruct (put_law (store := mem_store caps) (view := m_objects) (env := quiet) key (concat source) o s r s' H)
    as (w & Hw & Hr).
  exists w. split; [done|]. destruct r as [[]|etag]; try (by left); try (left; apply Hr);
    try (destruct Hr as [Hr|Hr]; [by left|right; by exists None]). right. by exists etag.
Qed.
