(* ===== verification/Journal.v ===== *)
(** * The journal: the HEAD object (journal.c, journal.h)

    [HEAD.json] is the only mutable publication point of a database: it names
    the current commit, its generation, its manifest key and the manifest's
    SHA-256. This file models the JSON encoder and decoder of the HEAD, the
    read and the two publications (conditional and unconditional), and proves
    the round trip and the compare-and-swap contract. *)

From S2P Require Import Prelude CText JsonText ObjectStore.

Definition OTSARDB_COMMIT_ID_MAX : Z := 63.
Definition OTSARDB_KEY_MAX : Z := 1023.
Definition OTSARDB_SHA256_HEX_MAX : Z := 64.

Record otsardb_head := mkHead {
  hd_format_version : Z;
  hd_generation : Z;
  hd_database_id : bytes;
  hd_commit_id : bytes;
  hd_commit_key : bytes;
  hd_commit_sha256 : bytes
}.

#[export] Instance otsardb_head_eq_dec : EqDecision otsardb_head.
Proof. solve_decision. Defined.

Inductive otsardb_journal_result :=
  | OTSARDB_JOURNAL_OK
  | OTSARDB_JOURNAL_NOT_FOUND
  | OTSARDB_JOURNAL_CONFLICT
  | OTSARDB_JOURNAL_INVALID
  | OTSARDB_JOURNAL_ERROR
  | OTSARDB_JOURNAL_AMBIGUOUS
  | OTSARDB_JOURNAL_UNSUPPORTED.

#[export] Instance otsardb_journal_result_eq_dec : EqDecision otsardb_journal_result.
Proof. solve_decision. Defined.

(** [root] and [suffix] joined by a slash unless the root is empty or already
    ends with one; fails when the result does not fit [out_size] bytes. *)
Definition root_join (root suffix : bytes) (out_size : Z) : option bytes :=
  let needs_slash := match last_byte root with Some c => negb (c =? 47) | None => false end in
  let key := root ++ (if needs_slash then str "/" else []) ++ suffix in
  if (0 <? zlen key) && (zlen key <? out_size) then Some key else None.

Definition build_head_key (root : bytes) (out_size : Z) : option bytes :=
  root_join root (str "HEAD.json") out_size.

Definition extract_u64 (json name : bytes) : option Z := extract_u64_raw 64 json name.
Definition extract_string (json name : bytes) (out_size : Z) : option bytes :=
  extract_string_raw 64 json name out_size.

Definition otsardb_head_encode_json (head : otsardb_head) : bytes :=
  str "{" ++ q "otsardb_format" ++ str ":" ++ dec (hd_format_version head) ++
  str "," ++ q "database_id" ++ str ":" ++ quoted (hd_database_id head) ++
  str "," ++ q "generation" ++ str ":" ++ dec (hd_generation head) ++
  str "," ++ q "commit_id" ++ str ":" ++ quoted (hd_commit_id head) ++
  str "," ++ q "commit_key" ++ str ":" ++ quoted (hd_commit_key head) ++
  str "," ++ q "commit_sha256" ++ str ":" ++ quoted (hd_commit_sha256 head) ++
  str "}" ++ [10].

Definition otsardb_head_decode_json (json : bytes) : option otsardb_head :=
  if zlen json =? 0 then None else
  let copy := cstr json in
  match extract_u64 copy (str "otsardb_format"),
        extract_u64 copy (str "generation"),
        extract_string copy (str "database_id") (OTSARDB_COMMIT_ID_MAX + 1),
        extract_string copy (str "commit_id") (OTSARDB_COMMIT_ID_MAX + 1),
        extract_string copy (str "commit_key") (OTSARDB_KEY_MAX + 1),
        extract_string copy (str "commit_sha256") (OTSARDB_SHA256_HEX_MAX + 1) with
  | Some format, Some generation, Some database_id, Some commit_id, Some commit_key, Some sha =>
      if (format =? 0) || (UINT32_MAX <? format) then None
      else Some (mkHead format generation database_id commit_id commit_key sha)
  | _, _, _, _, _, _ => None
  end.

Section Operations.
Context {S : Type} (store : otsardb_object_store S).

Definition otsardb_journal_read_head (database_root : bytes)
  : M S (otsardb_journal_result * option (otsardb_head * bytes)) :=
  match build_head_key database_root (OTSARDB_KEY_MAX + 1) with
  | None => return! (OTSARDB_JOURNAL_INVALID, None)
  | Some key =>
      let! rc := otsardb_store_get store key in
      match rc with
      | inl OTSARDB_STORE_NOT_FOUND => return! (OTSARDB_JOURNAL_NOT_FOUND, None)
      | inl OTSARDB_STORE_UNSUPPORTED => return! (OTSARDB_JOURNAL_UNSUPPORTED, None)
      | inl _ => return! (OTSARDB_JOURNAL_ERROR, None)
      | inr object =>
          match otsardb_head_decode_json (so_data object), so_etag object with
          | Some head, Some (c :: e) => return! (OTSARDB_JOURNAL_OK, Some (head, c :: e))
          | _, _ => return! (OTSARDB_JOURNAL_INVALID, None)
          end
      end
  end.

Definition publish_head_json (database_root : bytes) (head : otsardb_head)
    (options : otsardb_store_put_options)
  : M S (otsardb_journal_result * option bytes) :=
  match build_head_key database_root (OTSARDB_KEY_MAX + 1) with
  | None => return! (OTSARDB_JOURNAL_INVALID, None)
  | Some key =>
      let! rc := otsardb_store_put store key (otsardb_head_encode_json head) options in
      match rc with
      | inl OTSARDB_STORE_PRECONDITION_FAILED => return! (OTSARDB_JOURNAL_CONFLICT, None)
      | inl OTSARDB_STORE_TIMEOUT => return! (OTSARDB_JOURNAL_AMBIGUOUS, None)
      | inl OTSARDB_STORE_UNSUPPORTED => return! (OTSARDB_JOURNAL_UNSUPPORTED, None)
      | inl _ => return! (OTSARDB_JOURNAL_ERROR, None)
      | inr etag => return! (OTSARDB_JOURNAL_OK, etag)
      end
  end.

Definition otsardb_journal_publish_head (database_root : bytes) (head : otsardb_head)
    (expected_etag : option bytes) (create_if_missing : bool)
  : M S (otsardb_journal_result * option bytes) :=
  if negb create_if_missing && bool_decide (expected_etag = None)
  then return! (OTSARDB_JOURNAL_INVALID, None)
  else publish_head_json database_root head
         (mkPutOptions create_if_missing (if create_if_missing then None else expected_etag)).

Definition otsardb_journal_publish_head_unconditional (database_root : bytes)
    (head : otsardb_head) : M S (otsardb_journal_result * option bytes) :=
  publish_head_json database_root head plain_put.

End Operations.

(** ** Well-formed heads: what fits the struct and survives the JSON text *)

(** A string field of a struct: no NUL, no quote, shorter than its array. *)
Definition field_ok (cap : Z) (s : bytes) : bool :=
  no_nul s && noq s && (zlen s <? cap).

Definition head_ok (h : otsardb_head) : Prop :=
  (0 < hd_format_version h <= UINT32_MAX) /\ is_u64 (hd_generation h) /\
  field_ok 64 (hd_database_id h) = true /\ field_ok 64 (hd_commit_id h) = true /\
  field_ok 1024 (hd_commit_key h) = true /\ field_ok 65 (hd_commit_sha256 h) = true.

Definition head_toks (h : otsardb_head) : list tok :=
  [TR (str "{"); TQ (str "otsardb_format"); TR (str ":"); TR (dec (hd_format_version h));
   TR (str ","); TQ (str "database_id"); TR (str ":"); TQ (hd_database_id h);
   TR (str ","); TQ (str "generation"); TR (str ":"); TR (dec (hd_generation h));
   TR (str ","); TQ (str "commit_id"); TR (str ":"); TQ (hd_commit_id h);
   TR (str ","); TQ (str "commit_key"); TR (str ":"); TQ (hd_commit_key h);
   TR (str ","); TQ (str "commit_sha256"); TR (str ":"); TQ (hd_commit_sha256 h);
   TR (str "}"); TR [10]].

#[export] Hint Unfold head_toks : toks.

Lemma head_encode_toks h : otsardb_head_encode_json h = text (head_toks h) [].
Proof.
  unfold otsardb_head_encode_json, head_toks, q, quoted. cbn [text].
  repeat (rewrite <- ?app_assoc, <- ?app_comm_cons; cbn [app]). by rewrite ?app_nil_r.
Qed.

Lemma field_ok_split cap s : field_ok cap s = true ->
  no_nul s = true /\ noq s = true /\ zlen s < cap.
Proof. unfold field_ok. intros H. prop_bools. done. Qed.

Ltac split_fields :=
  repeat match goal with
  | H : field_ok _ _ = true |- _ => apply field_ok_split in H as (? & ? & ?)
  end.

(** Read one field of a token list. *)
Ltac json_num := eapply extract_u64_raw_text;
  [reflexivity|json_wf|reflexivity|json_find; reflexivity|auto using u32_is_u64|reflexivity].
Ltac json_str := eapply extract_string_raw_text;
  [reflexivity|json_wf|reflexivity|json_find; reflexivity|assumption|assumption].

Lemma head_decode_toks h : head_ok h ->
  otsardb_head_decode_json (text (head_toks h) []) = Some h.
Proof.
  intros (Hf & Hg & ? & ? & ? & ?). split_fields.
  assert (is_u64 (hd_format_version h)) by (apply u32_is_u64; unfold is_u32; lia).
  unfold otsardb_head_decode_json.
  assert ((zlen (text (head_toks h) []) =? 0) = false) as -> by apply zlen_eqb_0.
  rewrite cstr_no_nul by (apply text_no_nul; json_wf).
  unfold extract_u64, extract_string.
  assert (extract_u64_raw 64 (text (head_toks h) []) (str "otsardb_format")
    = Some (hd_format_version h)) as -> by json_num.
  assert (extract_u64_raw 64 (text (head_toks h) []) (str "generation")
    = Some (hd_generation h)) as -> by json_num.
  assert (extract_string_raw 64 (text (head_toks h) []) (str "database_id") (OTSARDB_COMMIT_ID_MAX + 1)
    = Some (hd_database_id h)) as -> by json_str.
  assert (extract_string_raw 64 (text (head_toks h) []) (str "commit_id") (OTSARDB_COMMIT_ID_MAX + 1)
    = Some (hd_commit_id h)) as -> by json_str.
  assert (extract_string_raw 64 (text (head_toks h) []) (str "commit_key") (OTSARDB_KEY_MAX + 1)
    = Some (hd_commit_key h)) as -> by json_str.
  assert (extract_string_raw 64 (text (head_toks h) []) (str "commit_sha256") (OTSARDB_SHA256_HEX_MAX + 1)
    = Some (hd_commit_sha256 h)) as -> by json_str.
  destruct (Z.eqb_spec (hd_format_version h) 0); [lia|].
  destruct (Z.ltb_spec UINT32_MAX (hd_format_version h)); [lia|]. by destruct h.
Qed.

(** ** Contracts over a lawful store *)

(** What a put of [data] under [key] does, by journal result code. *)
Definition put_outcome (env : contents -> contents -> Prop) (v v' : contents)
    (key data : bytes) (o : otsardb_store_put_options)
    (rc : otsardb_journal_result) (etag : option bytes) : Prop :=
  exists w, env v w /\
  match rc with
  | OTSARDB_JOURNAL_OK => precondition w key o = true /\ stored w v' key data etag
  | OTSARDB_JOURNAL_CONFLICT => precondition w key o = false /\ v' = w
  | OTSARDB_JOURNAL_AMBIGUOUS | OTSARDB_JOURNAL_ERROR =>
      v' = w \/ (precondition w key o = true /\ stored w v' key data None)
  | _ => v' = w
  end.

Section Contracts.
Context {S : Type} (store : otsardb_object_store S) (view : S -> contents)
        (env : contents -> contents -> Prop) {Henv : Reflexive env}
        {Hlaws : StoreLaws store view env}.

Lemma publish_head_json_outcome root h o key s rc etag s' :
  build_head_key root (OTSARDB_KEY_MAX + 1) = Some key ->
  publish_head_json store root h o s = ((rc, etag), s') ->
  put_outcome env (view s) (view s') key (otsardb_head_encode_json h) o rc etag.
Proof.
  intros Hk. unfold publish_head_json. rewrite Hk. unfold mbind_, mret_.
  destruct (otsardb_store_put store key (otsardb_head_encode_json h) o s) as [r s1] eqn:E.
  destruct (put_law _ _ _ _ _ _ E) as (w & Hw & Hr).
  intros H. exists w. split; [done|]. destruct r as [[]|e]; cbn in H; simplify_eq; auto.
Qed.

Lemma read_head_outcome root key s rc res s' :
  build_head_key root (OTSARDB_KEY_MAX + 1) = Some key ->
  otsardb_journal_read_head store root s = ((rc, res), s') ->
  env (view s) (view s') /\
  match rc with
  | OTSARDB_JOURNAL_OK => exists ob h e, res = Some (h, e) /\ view s' !! key = Some ob /\
      otsardb_head_decode_json (so_data ob) = Some h /\ so_etag ob = Some e
  | OTSARDB_JOURNAL_NOT_FOUND => view s' !! key = None
  | OTSARDB_JOURNAL_INVALID => exists ob, view s' !! key = Some ob /\
      (otsardb_head_decode_json (so_data ob) = None \/ so_etag ob = None \/ so_etag ob = Some [])
  | OTSARDB_JOURNAL_ERROR | OTSARDB_JOURNAL_UNSUPPORTED => res = None
  | _ => False
  end.
Proof.
  intros Hk. unfold otsardb_journal_read_head. rewrite Hk. unfold mbind_, mret_.
  destruct (otsardb_store_get store key s) as [r s1] eqn:E.
  destruct (get_law _ _ _ _ E) as (Hw & Hr).
  intros H. destruct r as [[]|ob]; cbn in H; try (simplify_eq; done).
  destruct (otsardb_head_decode_json (so_data ob)) as [h|] eqn:Ed;
    [destruct (so_etag ob) as [[|c e]|] eqn:Ee|]; cbn in H; simplify_eq; split; try done;
    try (exists ob; eauto; done).
  by exists ob, h, (c :: e).
Qed.

End Contracts.

(** A HEAD record that fits its struct and whose strings hold no quote is
    read back exactly from the JSON text the encoder prints. *)
Theorem head_json_roundtrip (h : otsardb_head) :
  head_ok h -> otsardb_head_decode_json (otsardb_head_encode_json h) = Some h.
Proof. intros H. rewrite head_encode_toks. by apply head_decode_toks. Qed.

Definition sample_head : otsardb_head :=
  mkHead 1 7 (str "db-1") (str "c-7") (str "root/commits/c-7.json") (replicate 64 97).

Lemma sample_head_ok : head_ok sample_head.
Proof. unfold head_ok, is_u64. vm_compute. split_and!; (done || discriminate). Defined.

Lemma head_json_roundtrip_witness :
  otsardb_head_decode_json (otsardb_head_encode_json sample_head) = Some sample_head.
Proof. apply (head_json_roundtrip sample_head), sample_head_ok. Defined.

(** Compare-and-swap of HEAD over any lawful store, other writers acting
    between the operations: a successful conditional publication found HEAD
    with the expected etag (or absent, for a creation) and replaced it; a
    conflict found it otherwise and changed nothing; only an ambiguous or error
    result leaves open whether HEAD was replaced, and then only when the
    precondition held. *)
Theorem publish_head_compare_and_swap {S} (store : otsardb_object_store S) view env
    (Hlaws : StoreLaws store view env) root h key expected create s rc etag s' :
  build_head_key root (OTSARDB_KEY_MAX + 1) = Some key ->
  create = true \/ is_Some expected ->
  otsardb_journal_publish_head store root h expected create s = ((rc, etag), s') ->
  exists w, env (view s) w /\
    let swap_ok := if create then w !! key = None
                   else exists ob, w !! key = Some ob /\ so_etag ob = expected in
    match rc with
    | OTSARDB_JOURNAL_OK => swap_ok /\ stored w (view s') key (otsardb_head_encode_json h) etag
    | OTSARDB_JOURNAL_CONFLICT => ~ swap_ok /\ view s' = w
    | OTSARDB_JOURNAL_AMBIGUOUS | OTSARDB_JOURNAL_ERROR =>
        view s' = w \/
        (swap_ok /\ stored w (view s') key (otsardb_head_encode_json h) None)
    | _ => view s' = w
    end.
Proof.
  intros Hk Hc H. unfold otsardb_journal_publish_head in H.
  assert (negb create && bool_decide (expected = None) = false) as Hg.
  { destruct Hc as [->|[e ->]]; [done|]. by rewrite andb_false_r. }
  rewrite Hg in H. apply (publish_head_json_outcome store view env _ _ _ key) in H; [|done].
  destruct H as (w & Hw & Hr). exists w. split; [done|]. cbn.
  set (o := mkPutOptions create (if create then None else expected)) in *.
  assert (precondition w key o = true <->
    (if create then w !! key = None
     else exists ob, w !! key = Some ob /\ so_etag ob = expected)) as Hp.
  { unfold precondition, o. cbn. destruct create; cbn.
    - rewrite andb_true_r. apply bool_decide_eq_true.
    - destruct Hc as [|[e ->]]; [done|]. destruct (w !! key) as [ob|].
      + rewrite bool_decide_eq_true. naive_solver.
      + naive_solver. }
  destruct rc; try done; rewrite <- Hp; try done.
  rewrite not_true_iff_false. done.
Qed.

Definition demo_root : bytes := str "db".

Lemma publish_head_compare_and_swap_witness :
  exists w, quiet (m_objects mem_empty) w /\ w !! str "db/HEAD.json" = None /\
    stored w (m_objects (snd (otsardb_journal_publish_head (mem_store CAPS_ALL) demo_root
                                sample_head None true mem_empty)))
           (str "db/HEAD.json") (otsardb_head_encode_json sample_head) (Some (str "v1")).
Proof.
  destruct (publish_head_compare_and_swap (mem_store CAPS_ALL) m_objects quiet
    (mem_store_laws CAPS_ALL) demo_root sample_head (str "db/HEAD.json") None true mem_empty
    OTSARDB_JOURNAL_OK (Some (str "v1"))
    (snd (otsardb_journal_publish_head (mem_store CAPS_ALL) demo_root sample_head None true
            mem_empty)))
    as (w & Hw & Hn & Hs).
  - vm_compute. reflexivity.
  - by left.
  - vm_compute. reflexivity.
  - by exists w.
Defined.

(** Read-your-writes for HEAD when nobody else writes: after a successful
    publication that returned an etag, a read returns exactly the published
    head with that etag, or fails with a transport error; it never reports the
    head missing, invalid or different. *)
Theorem publish_then_read_head {S} (store : otsardb_object_store S) view
    (Hlaws : StoreLaws store view quiet) root h o key c e s s' rc res s'' :
  build_head_key root (OTSARDB_KEY_MAX + 1) = Some key -> head_ok h ->
  publish_head_json store root h o s = ((OTSARDB_JOURNAL_OK, Some (c :: e)), s') ->
  otsardb_journal_read_head store root s' = ((rc, res), s'') ->
  (rc = OTSARDB_JOURNAL_OK /\ res = Some (h, c :: e)) \/
  (res = None /\ (rc = OTSARDB_JOURNAL_ERROR \/ rc = OTSARDB_JOURNAL_UNSUPPORTED)).
Proof.
  intros Hk Hh Hp Hr.
  apply (publish_head_json_outcome store view quiet _ _ _ key) in Hp; [|done].
  destruct Hp as (w & _ & _ & ob & Hd & He & Hv).
  apply (read_head_outcome store view quiet _ key) in Hr; [|done].
  destruct Hr as [Hs Hr]. rewrite <- Hs, Hv in Hr.
  specialize (He _ eq_refl).
  assert (otsardb_head_decode_json (so_data ob) = Some h) as Hdec.
  { rewrite Hd, head_encode_toks. by apply head_decode_toks. }
  destruct rc; try done; try (right; auto; done).
  - destruct Hr as (ob' & h' & e' & -> & Hl & Hd' & He'). rewrite lookup_insert_eq in Hl.
    left. by simplify_eq.
  - by rewrite lookup_insert_eq in Hr.
  - destruct Hr as (ob' & Hl & Hx). rewrite lookup_insert_eq in Hl. simplify_eq.
    destruct Hx as [|[|]]; congruence.
Qed.

Lemma publish_then_read_head_witness :
  let s' := snd (publish_head_json (mem_store CAPS_ALL) demo_root sample_head plain_put mem_empty) in
  fst (otsardb_journal_read_head (mem_store CAPS_ALL) demo_root s')
    = (OTSARDB_JOURNAL_OK, Some (sample_head, str "v1")).
Proof.
  destruct (publish_then_read_head (mem_store CAPS_ALL) m_objects (mem_store_laws CAPS_ALL)
    demo_root sample_head plain_put (str "db/HEAD.json") 118 [49] mem_empty
    (snd (publish_head_json (mem_store CAPS_ALL) demo_root sample_head plain_put mem_empty))
    OTSARDB_JOURNAL_OK (Some (sample_head, str "v1"))
    (snd (otsardb_journal_read_head (mem_store CAPS_ALL) demo_root
       (snd (publish_head_json (mem_store CAPS_ALL) demo_root sample_head plain_put mem_empty)))))
    as [[_ H]|[H _]].
  - vm_compute. reflexivity.
  - apply sample_head_ok.
  - vm_compute. reflexivity.
  - vm_compute. reflexivity.
  - vm_compute. reflexivity.
  - done.
Defined.
