(* ===== verification/Codec.v ===== *)
(** * Little- and big-endian integer codecs

    The [put_u*_le]/[get_u*_le] loops that segment.c, wal_batch.c and
    checkpoint_page.c each define, the big-endian readers of sqlite_wal.c and
    checksum.c, and the lemmas to read a record back field by field. *)

From S2P Require Import Prelude.

(** [for (i = 0; i < n; ++i) p[i] = (v >> (i * 8)) & 0xff] *)
Fixpoint put_le (n : nat) (v : Z) : bytes :=
  match n with
  | O => []
  | S n' => Z.land v 255 :: put_le n' (Z.shiftr v 8)
  end.

(** [for (i = 0; i < n; ++i) v |= p[i] << (i * 8)]; bytes past the end of the
    list read as 0, every caller checks the size first. *)
Fixpoint get_le (n : nat) (p : bytes) : Z :=
  match n with
  | O => 0
  | S n' => Z.lor (hd 0 p) (Z.shiftl (get_le n' (tail p)) 8)
  end.

Definition put_u16_le (v : Z) : bytes := put_le 2 v.
Definition put_u32_le (v : Z) : bytes := put_le 4 v.
Definition put_u64_le (v : Z) : bytes := put_le 8 v.
Definition get_u16_le (p : bytes) : Z := get_le 2 p.
Definition get_u32_le (p : bytes) : Z := get_le 4 p.
Definition get_u64_le (p : bytes) : Z := get_le 8 p.

Fixpoint put_be (n : nat) (v : Z) : bytes :=
  match n with
  | O => []
  | S n' => Z.land (Z.shiftr v (8 * Z.of_nat n')) 255 :: put_be n' v
  end.
Definition put_u64_be (v : Z) : bytes := put_be 8 v.

Definition read_u32_be (p : bytes) : Z :=
  match p with
  | a :: b :: c :: d :: _ =>
      Z.lor (Z.lor (Z.lor (Z.shiftl a 24) (Z.shiftl b 16)) (Z.shiftl c 8)) d
  | _ => 0
  end.

Lemma length_put_le n v : length (put_le n v) = n.
Proof. revert v. induction n as [|n IH]; intros v; [done|]. cbn. by rewrite IH. Qed.

Lemma land_255 v : Z.land v 255 = v mod 256.
Proof. change 255 with (Z.ones 8). by rewrite Z.land_ones. Qed.

Lemma shiftr_8 v : Z.shiftr v 8 = v / 256.
Proof. by rewrite Z.shiftr_div_pow2. Qed.

(** Disjoint bit ranges: a byte and a shifted word. *)
Lemma land_byte_shifted b w : 0 <= b < 256 -> Z.land b (w * 256) = 0.
Proof.
  intros Hb. apply Z.bits_inj'. intros i Hi. rewrite Z.land_spec, Z.bits_0.
  destruct (Z.ltb_spec i 8).
  - replace (w * 256) with (Z.shiftl w 8) by (rewrite Z.shiftl_mul_pow2; lia).
    rewrite (Z.shiftl_spec_low w 8 i) by lia. apply andb_false_r.
  - rewrite (Z.bits_above_log2 b i); [done|lia|].
    destruct (Z.eq_dec b 0) as [->|]; [cbn; lia|].
    apply Z.log2_lt_pow2; [lia|]. apply Z.lt_le_trans with (2 ^ 8); [lia|].
    apply Z.pow_le_mono_r; lia.
Qed.

Lemma land_nibble_shifted w d : 0 <= d < 16 -> Z.land (w * 16) d = 0.
Proof.
  intros Hd. rewrite Z.land_comm. apply Z.bits_inj'. intros i Hi. rewrite Z.land_spec, Z.bits_0.
  destruct (Z.ltb_spec i 4).
  - replace (w * 16) with (Z.shiftl w 4) by (rewrite Z.shiftl_mul_pow2; lia).
    rewrite (Z.shiftl_spec_low w 4 i) by lia. apply andb_false_r.
  - destruct (Z.eq_dec d 0) as [->|]; [by rewrite Z.bits_0|].
    rewrite (Z.bits_above_log2 d i); [done|lia|].
    apply Z.log2_lt_pow2; [lia|]. apply Z.lt_le_trans with (2 ^ 4); [lia|].
    apply Z.pow_le_mono_r; lia.
Qed.

Lemma lor_shiftl_8 b w : 0 <= b < 256 -> Z.lor b (Z.shiftl w 8) = b + 256 * w.
Proof.
  intros Hb. rewrite Z.shiftl_mul_pow2 by lia. change (2 ^ 8) with 256.
  rewrite <- Z.lxor_lor, <- Z.add_nocarry_lxor by (by apply land_byte_shifted). lia.
Qed.

Lemma get_put_le n v r : get_le n (put_le n v ++ r) = v mod 2 ^ (8 * Z.of_nat n).
Proof.
  revert v. induction n as [|n IH]; intros v; [by rewrite Z.mod_1_r|].
  unfold get_le, put_le; fold get_le put_le. cbn [app hd tail].
  rewrite IH, land_255, shiftr_8, lor_shiftl_8 by (apply Z.mod_pos_bound; lia).
  replace (8 * Z.of_nat (S n)) with (8 + 8 * Z.of_nat n) by lia.
  rewrite Z.pow_add_r by lia. change (2 ^ 8) with 256.
  rewrite Z.rem_mul_r by lia. lia.
Qed.

Lemma get_put_u32 v r : is_u32 v -> get_u32_le (put_u32_le v ++ r) = v.
Proof.
  intros H. unfold get_u32_le, put_u32_le. rewrite get_put_le. apply Z.mod_small.
  unfold is_u32, UINT32_MAX in H. change (2 ^ (8 * Z.of_nat 4)) with (2 ^ 32). lia.
Qed.

Lemma get_put_u64 v r : is_u64 v -> get_u64_le (put_u64_le v ++ r) = v.
Proof.
  intros H. unfold get_u64_le, put_u64_le. rewrite get_put_le. apply Z.mod_small.
  unfold is_u64, UINT64_MAX in H. change (2 ^ (8 * Z.of_nat 8)) with (2 ^ 64). lia.
Qed.

Lemma get_put_u16 v r : 0 <= v < 2 ^ 16 -> get_u16_le (put_u16_le v ++ r) = v.
Proof. intros H. unfold get_u16_le, put_u16_le. rewrite get_put_le. by apply Z.mod_small. Qed.

Lemma put_le_ok n v : bytes_ok (put_le n v).
Proof.
  revert v. induction n as [|n IH]; intros v; [constructor|].
  unfold put_le; fold put_le. constructor; [|apply IH].
  rewrite land_255. red. apply Z.mod_pos_bound. lia.
Qed.

Lemma get_le_bound n p : bytes_ok p -> 0 <= get_le n p < 2 ^ (8 * Z.of_nat n).
Proof.
  revert p. induction n as [|n IH]; intros p Hp; [cbn; lia|].
  unfold get_le; fold get_le.
  assert (0 <= hd 0 p < 256) by (destruct Hp; cbn; [lia|done]).
  assert (bytes_ok (tail p)) as Ht by (destruct Hp; [constructor|done]).
  specialize (IH _ Ht). rewrite lor_shiftl_8 by done.
  replace (8 * Z.of_nat (S n)) with (8 + 8 * Z.of_nat n) by lia.
  rewrite Z.pow_add_r by lia. change (2 ^ 8) with 256. nia.
Qed.

Lemma put_get_le n p : bytes_ok p -> (n <= length p)%nat -> put_le n (get_le n p) = take n p.
Proof.
  revert p. induction n as [|n IH]; intros p Hp Hn; [done|].
  destruct Hp as [|b p Hb Hp]; cbn in Hn; [lia|].
  unfold get_le, put_le; fold get_le put_le. cbn [hd tail].
  rewrite lor_shiftl_8 by done. rewrite land_255, shiftr_8.
  replace ((b + 256 * get_le n p) mod 256) with b.
  2:{ rewrite Z.mul_comm, Z.mod_add, Z.mod_small; [done|apply Hb|lia]. }
  replace ((b + 256 * get_le n p) / 256) with (get_le n p).
  2:{ rewrite Z.mul_comm, Z.div_add, Z.div_small; [done|apply Hb|lia]. }
  rewrite IH; [done|done|lia].
Qed.

Lemma get_u32_is p : bytes_ok p -> is_u32 (get_u32_le p).
Proof. intros H. pose proof (get_le_bound 4 p H). unfold is_u32, UINT32_MAX, get_u32_le.
  change (2 ^ (8 * Z.of_nat 4)) with (2 ^ 32) in *. lia. Qed.

Lemma get_u64_is p : bytes_ok p -> is_u64 (get_u64_le p).
Proof. intros H. pose proof (get_le_bound 8 p H). unfold is_u64, UINT64_MAX, get_u64_le.
  change (2 ^ (8 * Z.of_nat 8)) with (2 ^ 64) in *. lia. Qed.

(** Bounds of bit operations on [n]-bit values. *)
Lemma lxor_bound n a b : 0 <= n -> 0 <= a < 2 ^ n -> 0 <= b < 2 ^ n -> 0 <= Z.lxor a b < 2 ^ n.
Proof.
  intros Hn Ha Hb. split; [apply Z.lxor_nonneg; lia|].
  destruct (Z.eq_dec (Z.lxor a b) 0) as [->|Hne]; [lia|].
  assert (0 <= Z.lxor a b) by (apply Z.lxor_nonneg; lia).
  apply Z.log2_lt_pow2; [lia|].
  assert (0 < n) by (destruct (Z.eq_dec n 0) as [->|]; [cbn in *; exfalso; apply Hne;
    assert (a = 0) as -> by lia; assert (b = 0) as -> by lia; done|lia]).
  pose proof (Z.log2_lxor a b ltac:(lia) ltac:(lia)).
  assert (forall x, 0 <= x < 2 ^ n -> Z.log2 x < n) as Hl.
  { intros x Hx. destruct (Z.eq_dec x 0) as [->|]; [cbn; lia|]. apply Z.log2_lt_pow2; lia. }
  pose proof (Hl a Ha). pose proof (Hl b Hb). lia.
Qed.

Lemma lor_bound n a b : 0 < n -> 0 <= a < 2 ^ n -> 0 <= b < 2 ^ n -> 0 <= Z.lor a b < 2 ^ n.
Proof.
  intros Hn Ha Hb. assert (0 <= Z.lor a b) by (apply Z.lor_nonneg; lia). split; [done|].
  destruct (Z.eq_dec (Z.lor a b) 0) as [->|]; [lia|]. apply Z.log2_lt_pow2; [lia|].
  assert (forall x, 0 <= x < 2 ^ n -> Z.log2 x < n) as Hl.
  { intros x Hx. destruct (Z.eq_dec x 0) as [->|]; [cbn; lia|]. apply Z.log2_lt_pow2; lia. }
  rewrite Z.log2_lor by lia. apply Z.max_lub_lt; auto.
Qed.

Lemma read_u32_be_is p : bytes_ok p -> is_u32 (read_u32_be p).
Proof.
  intros H. unfold read_u32_be. assert (is_u32 0) by (unfold is_u32, UINT32_MAX; lia).
  destruct p as [|a [|b [|c [|d p]]]]; [assumption..|].
  unfold bytes_ok in H. rewrite !list.Forall_cons in H. destruct H as (Ha & Hb & Hc & Hd & _).
  unfold byte_ok in *. rewrite !Z.shiftl_mul_pow2 by lia.
  assert (0 <= Z.lor (Z.lor (Z.lor (a * 2 ^ 24) (b * 2 ^ 16)) (c * 2 ^ 8)) d < 2 ^ 32) as Hr.
  { repeat apply lor_bound; try done; lia. }
  unfold is_u32, UINT32_MAX. lia.
Qed.

Lemma shiftr_bound n k a : 0 <= k -> 0 <= a < 2 ^ n -> 0 <= Z.shiftr a k < 2 ^ n.
Proof.
  intros Hk Ha. rewrite Z.shiftr_div_pow2 by done.
  assert (0 < 2 ^ k) by (apply Z.pow_pos_nonneg; lia).
  split; [apply Z.div_pos; lia|]. apply Z.div_lt_upper_bound; [lia|]. nia.
Qed.

Lemma length_put_u16 v : length (put_u16_le v) = 2%nat.
Proof. apply length_put_le. Qed.
Lemma length_put_u32 v : length (put_u32_le v) = 4%nat.
Proof. apply length_put_le. Qed.
Lemma length_put_u64 v : length (put_u64_le v) = 8%nat.
Proof. apply length_put_le. Qed.

Lemma zlen_put_u16 v : zlen (put_u16_le v) = 2.
Proof. unfold zlen. by rewrite length_put_u16. Qed.
Lemma zlen_put_u32 v : zlen (put_u32_le v) = 4.
Proof. unfold zlen. by rewrite length_put_u32. Qed.
Lemma zlen_put_u64 v : zlen (put_u64_le v) = 8.
Proof. unfold zlen. by rewrite length_put_u64. Qed.

#[export] Hint Rewrite zlen_put_u16 zlen_put_u32 zlen_put_u64 : zlen.

(** Reading at an offset: the fields before it are dropped one at a time. *)
Lemma drop_field {A} (n : nat) (a b : list A) :
  (length a <= n)%nat -> drop n (a ++ b) = drop (n - length a) b.
Proof. intros H. rewrite drop_app_ge by done. done. Qed.

#[global] Arguments put_le : simpl never.
#[global] Arguments get_le : simpl never.

#[global] Arguments put_u16_le : simpl never.
#[global] Arguments put_u32_le : simpl never.
#[global] Arguments put_u64_le : simpl never.
#[global] Arguments get_u16_le : simpl never.
#[global] Arguments get_u32_le : simpl never.
#[global] Arguments get_u64_le : simpl never.

(** Normalise [drop n (f1 ++ f2 ++ ...)] to the field at offset [n]: the
    lengths of the fields before it are known by computation. *)
Ltac at_field :=
  repeat match goal with
  | |- context [drop (Datatypes.S ?n') (?a ++ ?b)] =>
      let n := constr:(Datatypes.S n') in
      let k := eval vm_compute in (n - length a)%nat in
      rewrite (drop_field n a b) by (apply Nat.leb_le; reflexivity);
      change (n - length a)%nat with k
  end; rewrite ?drop_0.
