(* ===== verification/WalBatch.v ===== *)
(** * WAL batches (wal_batch.c)

    A batch is the payload of a segment: a 32-byte header and one fixed-size
    record per frame (page number, padding, page image). *)

From S2P Require Import Prelude Codec.

Definition OTSARDB_WAL_BATCH_VERSION : Z := 1.
Definition OTSARDB_WAL_BATCH_HEADER_SIZE : Z := 32.
Definition OTSARDB_WAL_BATCH_FRAME_HEADER_SIZE : Z := 8.
Definition OTSARDB_WAL_BATCH_PAGE_SIZE_MIN : Z := 512.
Definition OTSARDB_WAL_BATCH_PAGE_SIZE_MAX : Z := 65536.

Definition OTSARDB_WAL_BATCH_MAGIC : bytes := str "OTSWAL01".

Record otsardb_wal_batch_view := mkBatchView {
  wb_format_version : Z;
  wb_page_size : Z;
  wb_database_size_pages : Z;
  wb_frame_count : Z;
  wb_data : bytes;
  wb_size : Z
}.

Definition valid_page_size (page_size : Z) : bool :=
  (512 <=? page_size) && (page_size <=? 65536) && (Z.land page_size (page_size - 1) =? 0).

Definition batch_record (page_no : Z) (page : bytes) : bytes :=
  put_u32_le page_no ++ put_u32_le 0 ++ page.

(** The frame loop; [pages] is the cursor into the concatenated images. *)
Fixpoint encode_frames (page_size : Z) (page_nos : list Z) (pages : bytes) : option bytes :=
  match page_nos with
  | [] => Some []
  | page_no :: rest =>
      if page_no =? 0 then None
      else match encode_frames page_size rest (drop (Z.to_nat page_size) pages) with
           | None => None
           | Some out => Some (batch_record page_no (take (Z.to_nat page_size) pages) ++ out)
           end
  end.

Definition batch_header (page_size database_size_pages frame_count : Z) : bytes :=
  OTSARDB_WAL_BATCH_MAGIC ++ put_u32_le OTSARDB_WAL_BATCH_VERSION ++ put_u32_le page_size ++
  put_u64_le database_size_pages ++ put_u32_le frame_count ++ put_u32_le 0.

(** [frame_count] is the length of [page_nos]. *)
Definition otsardb_wal_batch_encode (page_size database_size_pages : Z)
    (page_nos : list Z) (pages : bytes) : option bytes :=
  let frame_count := zlen page_nos in
  if negb (valid_page_size page_size) || (database_size_pages =? 0) || (frame_count =? 0)
  then None
  else
    let record_size := OTSARDB_WAL_BATCH_FRAME_HEADER_SIZE + page_size in
    if (SIZE_MAX - OTSARDB_WAL_BATCH_HEADER_SIZE) / record_size <? frame_count then None
    else match encode_frames page_size page_nos pages with
         | None => None
         | Some frames => Some (batch_header page_size database_size_pages frame_count ++ frames)
         end.

Definition otsardb_wal_batch_decode (data : bytes) : option otsardb_wal_batch_view :=
  let size := zlen data in
  if size <? OTSARDB_WAL_BATCH_HEADER_SIZE then None
  else if negb (bytes_eqb (take 8 data) OTSARDB_WAL_BATCH_MAGIC) then None
  else
    let format_version := get_u32_le (drop 8 data) in
    let page_size := get_u32_le (drop 12 data) in
    let database_size_pages := get_u64_le (drop 16 data) in
    let frame_count := get_u32_le (drop 24 data) in
    if negb (format_version =? OTSARDB_WAL_BATCH_VERSION) || negb (valid_page_size page_size) ||
       (database_size_pages =? 0) || (frame_count =? 0)
    then None
    else
      let record_size := OTSARDB_WAL_BATCH_FRAME_HEADER_SIZE + page_size in
      if ((SIZE_MAX - OTSARDB_WAL_BATCH_HEADER_SIZE) / record_size <? frame_count) ||
         negb (OTSARDB_WAL_BATCH_HEADER_SIZE + frame_count * record_size =? size)
      then None
      else Some (mkBatchView format_version page_size database_size_pages frame_count data size).

(** The record of frame [index], as a suffix of the batch. *)
Definition batch_record_at (batch : otsardb_wal_batch_view) (index : Z) : bytes :=
  drop (Z.to_nat (OTSARDB_WAL_BATCH_HEADER_SIZE +
                  index * (OTSARDB_WAL_BATCH_FRAME_HEADER_SIZE + wb_page_size batch)))
       (wb_data batch).

(** The page is the [page_size] bytes at [record + FRAME_HEADER_SIZE]. *)
Definition otsardb_wal_batch_frame (batch : otsardb_wal_batch_view) (index : Z)
  : option (Z * bytes) :=
  if wb_frame_count batch <=? index then None
  else
    let record := batch_record_at batch index in
    let page_no := get_u32_le record in
    if page_no =? 0 then None
    else Some (page_no,
               take (Z.to_nat (wb_page_size batch))
                    (drop (Z.to_nat OTSARDB_WAL_BATCH_FRAME_HEADER_SIZE) record)).

(** ** Correctness *)

(** A frame the encoder accepts: a 1-based 32-bit page number and one page. *)
Definition frame_ok (page_size : Z) (f : Z * bytes) : Prop :=
  0 < f.1 <= UINT32_MAX /\ zlen f.2 = page_size.

Definition batch_ok (page_size database_size_pages : Z) (frames : list (Z * bytes)) : Prop :=
  valid_page_size page_size = true /\ 0 < database_size_pages <= UINT64_MAX /\
  0 < zlen frames <= UINT32_MAX /\ Forall (frame_ok page_size) frames.

Definition batch_okb (page_size database_size_pages : Z) (frames : list (Z * bytes)) : bool :=
  valid_page_size page_size && (0 <? database_size_pages) &&
  (database_size_pages <=? UINT64_MAX) && (0 <? zlen frames) && (zlen frames <=? UINT32_MAX) &&
  forallb (fun f => (0 <? f.1) && (f.1 <=? UINT32_MAX) && (zlen f.2 =? page_size)) frames.

Lemma batch_okb_ok ps db frames : batch_okb ps db frames = true -> batch_ok ps db frames.
Proof.
  unfold batch_okb, batch_ok. intros H. prop_bools. split_and!; try done.
  apply Forall_forall. intros f Hf. rewrite forallb_forall in H0.
  specialize (H0 f Hf). cbn in H0. prop_bools. done.
Qed.

Definition batch_records (frames : list (Z * bytes)) : bytes :=
  concat ((fun f => batch_record f.1 f.2) <$> frames).

Lemma valid_page_size_bounds ps : valid_page_size ps = true -> 512 <= ps <= 65536.
Proof. unfold valid_page_size. intros H. prop_bools. lia. Qed.

Lemma encode_frames_records ps frames :
  Forall (frame_ok ps) frames ->
  encode_frames ps (frames.*1) (concat (frames.*2)) = Some (batch_records frames).
Proof.
  induction 1 as [|[n page] frames [Hn Hp] Hf IH]; [done|].
  cbn [fmap list_fmap fst snd concat encode_frames] in *.
  destruct (Z.eqb_spec n 0); [lia|].
  rewrite take_zlen_app, drop_zlen_app by done. by rewrite IH.
Qed.

Lemma zlen_batch_record ps f : frame_ok ps f -> zlen (batch_record f.1 f.2) = 8 + ps.
Proof.
  intros [_ H]. unfold batch_record. autorewrite with zlen. lia.
Qed.

Lemma zlen_batch_records ps frames :
  Forall (frame_ok ps) frames -> zlen (batch_records frames) = zlen frames * (8 + ps).
Proof.
  induction 1 as [|f frames Hf _ IH]; [done|].
  unfold batch_records in *. cbn [fmap list_fmap concat].
  autorewrite with zlen. rewrite IH, (zlen_batch_record ps) by done. lia.
Qed.

Lemma zlen_batch_header ps db n : zlen (batch_header ps db n) = 32.
Proof. unfold batch_header. autorewrite with zlen. reflexivity. Qed.

(** The suffix of the records at frame [i] starts with the record of frame [i]. *)
Lemma drop_batch_records ps frames i f :
  Forall (frame_ok ps) frames -> 0 <= ps -> frames !! i = Some f ->
  exists rest, drop (Z.to_nat (Z.of_nat i * (8 + ps))) (batch_records frames)
               = batch_record f.1 f.2 ++ rest.
Proof.
  intros H Hps. revert i. induction H as [|g frames Hg Hf IH]; intros i Hi; [done|].
  destruct i as [|i]; cbn in Hi.
  - simplify_eq. cbn. by eexists.
  - destruct (IH _ Hi) as [rest Hr]. exists rest. rewrite <- Hr.
    unfold batch_records at 1. cbn [fmap list_fmap concat].
    rewrite Nat2Z.inj_succ, Z.mul_succ_l, Z.add_comm, Z2Nat.inj_add by nia.
    rewrite <- drop_drop, drop_zlen_app by (by apply zlen_batch_record). done.
Qed.

Lemma batch_header_fields ps db n r :
  is_u32 ps -> is_u64 db -> is_u32 n ->
  let data := batch_header ps db n ++ r in
  take 8 data = OTSARDB_WAL_BATCH_MAGIC /\
  get_u32_le (drop 8 data) = OTSARDB_WAL_BATCH_VERSION /\
  get_u32_le (drop 12 data) = ps /\ get_u64_le (drop 16 data) = db /\
  get_u32_le (drop 24 data) = n.
Proof.
  intros Hps Hdb Hn. unfold batch_header. cbn zeta. rewrite <- !app_assoc.
  split_and!; [by apply take_app_exact|..]; at_field; auto using get_put_u32, get_put_u64.
Qed.

Lemma wal_batch_decode_records ps db frames :
  batch_ok ps db frames ->
  ((SIZE_MAX - 32) / (8 + ps) <? zlen frames) = false ->
  let data := batch_header ps db (zlen frames) ++ batch_records frames in
  otsardb_wal_batch_decode data = Some (mkBatchView 1 ps db (zlen frames) data (zlen data)).
Proof.
  intros (Hv & Hdb & Hn & Hf) Hcap data.
  pose proof (valid_page_size_bounds _ Hv) as Hps.
  destruct (batch_header_fields ps db (zlen frames) (batch_records frames))
    as (E0 & E1 & E2 & E3 & E4); [unfold is_u32, UINT32_MAX; lia|unfold is_u64; lia|split; lia|].
  fold data in E0, E1, E2, E3, E4.
  assert (zlen data = 32 + zlen frames * (8 + ps)) as Hlen.
  { unfold data. autorewrite with zlen. by rewrite zlen_batch_header, (zlen_batch_records ps). }
  unfold otsardb_wal_batch_decode, OTSARDB_WAL_BATCH_HEADER_SIZE,
    OTSARDB_WAL_BATCH_FRAME_HEADER_SIZE.
  rewrite E0, E1, E2, E3, E4, Hv, Hcap, bytes_eqb_refl, Hlen.
  rewrite Z.eqb_refl. cbn [negb orb].
  destruct (Z.ltb_spec (32 + zlen frames * (8 + ps)) 32); [nia|].
  destruct (Z.eqb_spec db 0); [lia|]. destruct (Z.eqb_spec (zlen frames) 0); [lia|].
  by rewrite Z.eqb_refl.
Qed.

Lemma batch_frame_lookup ps db frames i f :
  batch_ok ps db frames -> frames !! i = Some f ->
  let data := batch_header ps db (zlen frames) ++ batch_records frames in
  otsardb_wal_batch_frame (mkBatchView 1 ps db (zlen frames) data (zlen data)) (Z.of_nat i)
  = Some f.
Proof.
  intros (Hv & Hdb & Hn & Hf) Hi data.
  pose proof (valid_page_size_bounds _ Hv) as Hps.
  pose proof (lookup_lt_Some _ _ _ Hi) as Hlt.
  unfold otsardb_wal_batch_frame, batch_record_at. cbn [wb_frame_count wb_page_size wb_data].
  destruct (Z.leb_spec (zlen frames) (Z.of_nat i)) as [Hle|_]; [unfold zlen in Hle; lia|].
  unfold OTSARDB_WAL_BATCH_HEADER_SIZE, OTSARDB_WAL_BATCH_FRAME_HEADER_SIZE.
  rewrite Z2Nat.inj_add by nia. unfold data.
  rewrite <- drop_drop, drop_zlen_app by apply zlen_batch_header.
  destruct (drop_batch_records ps frames i f Hf ltac:(lia) Hi) as [rest ->].
  rewrite Forall_lookup in Hf. destruct (Hf _ _ Hi) as [Hno Hp].
  unfold batch_record. rewrite <- !app_assoc, get_put_u32 by (split; lia).
  destruct (Z.eqb_spec f.1 0); [lia|].
  change (Z.to_nat 8) with 8%nat. at_field. rewrite take_zlen_app by done. by destruct f.
Qed.

Lemma wal_batch_encode_records ps db frames :
  batch_ok ps db frames -> ((SIZE_MAX - 32) / (8 + ps) <? zlen frames) = false ->
  otsardb_wal_batch_encode ps db frames.*1 (concat frames.*2)
  = Some (batch_header ps db (zlen frames) ++ batch_records frames).
Proof.
  intros (Hv & Hdb & Hn & Hf) Hcap. unfold otsardb_wal_batch_encode.
  assert (zlen frames.*1 = zlen frames) as -> by (unfold zlen; by rewrite length_fmap).
  rewrite Hv. unfold OTSARDB_WAL_BATCH_HEADER_SIZE, OTSARDB_WAL_BATCH_FRAME_HEADER_SIZE.
  rewrite Hcap. destruct (Z.eqb_spec db 0); [lia|].
  destruct (Z.eqb_spec (zlen frames) 0); [lia|]. cbn [negb orb].
  by rewrite encode_frames_records.
Qed.

(** 32-bit frame counts always fit a 64-bit size. *)
Lemma batch_count_fits ps (n : Z) :
  512 <= ps <= 65536 -> n <= UINT32_MAX -> ((SIZE_MAX - 32) / (8 + ps) <? n) = false.
Proof.
  intros Hps Hn. apply Z.ltb_ge. unfold UINT32_MAX in Hn.
  apply Z.le_trans with (2 ^ 32 - 1); [lia|]. apply Z.div_le_lower_bound; [lia|].
  unfold SIZE_MAX, UINT64_MAX. nia.
Qed.

(** A WAL batch survives its encoding: every batch of frames within the
    format's bounds is accepted by the encoder, the decoder accepts the bytes
    with the same page size, database size and frame count, and frame [i] of
    the decoded view is frame [i] of the input, page image included. *)
Theorem wal_batch_roundtrip (ps db : Z) (frames : list (Z * bytes)) :
  batch_ok ps db frames ->
  exists data view,
    otsardb_wal_batch_encode ps db frames.*1 (concat frames.*2) = Some data /\
    otsardb_wal_batch_decode data = Some view /\
    wb_page_size view = ps /\ wb_database_size_pages view = db /\
    wb_frame_count view = zlen frames /\
    forall i f, frames !! i = Some f ->
      otsardb_wal_batch_frame view (Z.of_nat i) = Some f.
Proof.
  intros H. destruct H as (Hv & Hdb & Hn & Hf).
  pose proof (batch_count_fits ps (zlen frames) (valid_page_size_bounds _ Hv) (proj2 Hn)) as Hc.
  assert (batch_ok ps db frames) as Hok by done.
  eexists _, _. split_and!; [by apply wal_batch_encode_records
    |by apply wal_batch_decode_records|done|done|done|].
  intros i f Hi. by apply batch_frame_lookup.
Qed.

Lemma wal_batch_roundtrip_witness :
  exists data view,
    otsardb_wal_batch_encode 512 3 [2; 3] (concat [replicate 512 7; replicate 512 9]) = Some data /\
    otsardb_wal_batch_decode data = Some view /\
    otsardb_wal_batch_frame view (Z.of_nat 1) = Some (3, replicate 512 9).
Proof.
  destruct (wal_batch_roundtrip 512 3 [(2, replicate 512 7); (3, replicate 512 9)])
    as (data & view & H1 & H2 & _ & _ & _ & H3).
  - apply batch_okb_ok. vm_compute. reflexivity.
  - exists data, view. exact (conj H1 (conj H2 (H3 1%nat _ eq_refl))).
Defined.

(** Bounds of the batch reader: whatever bytes the decoder accepts, every
    frame index below the decoded count addresses a whole record inside the
    buffer, and the size arithmetic did not wrap; the record after the last one
    starts exactly at the end. *)
Theorem wal_batch_frames_in_bounds (data : bytes) (view : otsardb_wal_batch_view) (i : Z) :
  otsardb_wal_batch_decode data = Some view -> 0 <= i < wb_frame_count view ->
  let record := OTSARDB_WAL_BATCH_FRAME_HEADER_SIZE + wb_page_size view in
  OTSARDB_WAL_BATCH_HEADER_SIZE + i * record + record <= zlen data <= SIZE_MAX /\
  zlen (batch_record_at view i) >= record /\
  OTSARDB_WAL_BATCH_HEADER_SIZE + wb_frame_count view * record = zlen data.
Proof.
  unfold otsardb_wal_batch_decode. intros H Hi.
  repeat case_match; try done. simplify_eq. cbn [wb_frame_count wb_page_size] in *.
  prop_bools. unfold batch_record_at. cbn [wb_page_size wb_data].
  unfold OTSARDB_WAL_BATCH_HEADER_SIZE, OTSARDB_WAL_BATCH_FRAME_HEADER_SIZE in *.
  set (ps := get_u32_le (drop 12 data)) in *. set (n := get_u32_le (drop 24 data)) in *.
  assert (512 <= ps <= 65536) by (by apply valid_page_size_bounds).
  assert (i * (8 + ps) + (8 + ps) <= n * (8 + ps)) by nia.
  assert (0 <= i * (8 + ps)) by nia.
  assert (n * (8 + ps) <= SIZE_MAX - 32).
  { apply Z.le_trans with ((SIZE_MAX - 32) / (8 + ps) * (8 + ps)); [nia|].
    rewrite Z.mul_comm. apply Z.mul_div_le. lia. }
  assert (zlen (drop (Z.to_nat (32 + i * (8 + ps))) data) = zlen data - (32 + i * (8 + ps))).
  { unfold zlen in *. rewrite length_drop. lia. }
  lia.
Qed.

Definition sample_batch : bytes :=
  batch_header 512 3 1 ++ batch_record 2 (replicate 512 7).

Lemma wal_batch_frames_in_bounds_witness :
  32 + 0 * 520 + 520 <= zlen sample_batch <= SIZE_MAX.
Proof.
  apply (wal_batch_frames_in_bounds sample_batch
    (mkBatchView 1 512 3 1 sample_batch (zlen sample_batch)) 0).
  - vm_compute. reflexivity.
  - vm_compute. split; [discriminate|reflexivity].
Defined.
