(* ===== verification/Sha256.v ===== *)
(** * SHA-256 (sha256.c, sha256_pure.c)

    The native build computes [otsardb_sha256] with OpenSSL, which is not part
    of the repository: the rest of the development takes it as the interface
    [Sha256], a total function to 32 bytes. The WebAssembly build uses the pure
    C implementation, modelled here in full; it is an instance of the
    interface. The streaming update, which copies whole runs into its block
    buffer, is proved equivalent to absorbing one byte at a time. *)

From S2P Require Import Prelude Codec.

Definition OTSARDB_SHA256_SIZE : Z := 32.
Definition OTSARDB_SHA256_HEX_SIZE : Z := 64.

(** What the engine relies on of [otsardb_sha256]. *)
Class Sha256 := {
  otsardb_sha256 : bytes -> bytes;
  sha256_length : forall data, length (otsardb_sha256 data) = 32%nat;
  sha256_ok : forall data, bytes_ok (otsardb_sha256 data)
}.

Definition hex_digit (n : Z) : Z :=
  nth (Z.to_nat n) (str "0123456789abcdef") 0.

Definition otsardb_sha256_hex (digest : bytes) : bytes :=
  concat ((fun b => [hex_digit (Z.land (Z.shiftr b 4) 15); hex_digit (Z.land b 15)]) <$> digest).

Definition otsardb_sha256_hex_data `{Sha256} (data : bytes) : bytes :=
  otsardb_sha256_hex (otsardb_sha256 data).

Module Pure.

Definition K : list Z := concat [
  [0x428a2f98; 0x71374491; 0xb5c0fbcf; 0xe9b5dba5; 0x3956c25b];
  [0x59f111f1; 0x923f82a4; 0xab1c5ed5; 0xd807aa98; 0x12835b01];
  [0x243185be; 0x550c7dc3; 0x72be5d74; 0x80deb1fe; 0x9bdc06a7];
  [0xc19bf174; 0xe49b69c1; 0xefbe4786; 0x0fc19dc6; 0x240ca1cc];
  [0x2de92c6f; 0x4a7484aa; 0x5cb0a9dc; 0x76f988da; 0x983e5152];
  [0xa831c66d; 0xb00327c8; 0xbf597fc7; 0xc6e00bf3; 0xd5a79147];
  [0x06ca6351; 0x14292967; 0x27b70a85; 0x2e1b2138; 0x4d2c6dfc];
  [0x53380d13; 0x650a7354; 0x766a0abb; 0x81c2c92e; 0x92722c85];
  [0xa2bfe8a1; 0xa81a664b; 0xc24b8b70; 0xc76c51a3; 0xd192e819];
  [0xd6990624; 0xf40e3585; 0x106aa070; 0x19a4c116; 0x1e376c08];
  [0x2748774c; 0x34b0bcb5; 0x391c0cb3; 0x4ed8aa4a; 0x5b9cca4f];
  [0x682e6ff3; 0x748f82ee; 0x78a5636f; 0x84c87814; 0x8cc70208];
  [0x90befffa; 0xa4506ceb; 0xbef9a3f7; 0xc67178f2]].

Definition rotr (x n : Z) : Z := Z.lor (Z.shiftr x n) (u32 (Z.shiftl x (32 - n))).
Definition lxor3 (a b c : Z) : Z := Z.lxor (Z.lxor a b) c.
Definition not32 (x : Z) : Z := Z.lxor x 0xffffffff.

Definition load_be32 (p : bytes) : Z := read_u32_be p.
Definition store_be32 (v : Z) : bytes :=
  [Z.land (Z.shiftr v 24) 255; Z.land (Z.shiftr v 16) 255; Z.land (Z.shiftr v 8) 255;
   Z.land v 255].

(** The eight chaining words, then the bit count and the used part of the
    block buffer ([block_used] is its length). *)
Record words := mkWords { wa : Z; wb : Z; wc : Z; wd : Z; we : Z; wf : Z; wg : Z; wh : Z }.

Record otsardb_sha256_pure_ctx := mkCtx {
  h : words;
  total_bits : Z;
  block : bytes
}.

Definition otsardb_sha256_pure_init : otsardb_sha256_pure_ctx :=
  mkCtx (mkWords 0x6a09e667 0xbb67ae85 0x3c6ef372 0xa54ff53a
                 0x510e527f 0x9b05688c 0x1f83d9ab 0x5be0cd19) 0 [].

(** [w[i]] for [i >= 16], appended one word at a time. *)
Definition schedule_step (w : list Z) : list Z :=
  let i := length w in
  let at_ k := nth (i - k) w 0 in
  let s0 := lxor3 (rotr (at_ 15%nat) 7) (rotr (at_ 15%nat) 18) (Z.shiftr (at_ 15%nat) 3) in
  let s1 := lxor3 (rotr (at_ 2%nat) 17) (rotr (at_ 2%nat) 19) (Z.shiftr (at_ 2%nat) 10) in
  w ++ [u32 (at_ 16%nat + s0 + at_ 7%nat + s1)].

Definition schedule (blk : bytes) : list Z :=
  Nat.iter 48 schedule_step ((fun i => load_be32 (drop (i * 4) blk)) <$> seq 0 16).

Definition round (s : words) (kw : Z * Z) : words :=
  let s1 := lxor3 (rotr (we s) 6) (rotr (we s) 11) (rotr (we s) 25) in
  let ch := Z.lxor (Z.land (we s) (wf s)) (Z.land (not32 (we s)) (wg s)) in
  let t1 := u32 (wh s + s1 + ch + kw.1 + kw.2) in
  let s0 := lxor3 (rotr (wa s) 2) (rotr (wa s) 13) (rotr (wa s) 22) in
  let maj := lxor3 (Z.land (wa s) (wb s)) (Z.land (wa s) (wc s)) (Z.land (wb s) (wc s)) in
  let t2 := u32 (s0 + maj) in
  mkWords (u32 (t1 + t2)) (wa s) (wb s) (wc s) (u32 (wd s + t1)) (we s) (wf s) (wg s).

Definition compress (hs : words) (blk : bytes) : words :=
  let r := foldl round hs (combine K (schedule blk)) in
  mkWords (u32 (wa hs + wa r)) (u32 (wb hs + wb r)) (u32 (wc hs + wc r)) (u32 (wd hs + wd r))
          (u32 (we hs + we r)) (u32 (wf hs + wf r)) (u32 (wg hs + wg r)) (u32 (wh hs + wh r)).

(** The copy loop of [update]: fill the block, compress when it is full. Each
    round consumes at least one byte, so the size of the input is enough fuel. *)
Fixpoint update_loop (fuel : nat) (hs : words) (blk data : bytes) : words * bytes :=
  match fuel with
  | O => (hs, blk)
  | S fuel' =>
      match data with
      | [] => (hs, blk)
      | _ =>
          let take_n := ((64 - length blk) `min` length data)%nat in
          let blk' := blk ++ take take_n data in
          let rest := drop take_n data in
          if (length blk' =? 64)%nat then update_loop fuel' (compress hs blk') [] rest
          else update_loop fuel' hs blk' rest
      end
  end.

Definition otsardb_sha256_pure_update (ctx : otsardb_sha256_pure_ctx) (data : bytes)
  : otsardb_sha256_pure_ctx :=
  let bits := u64 (total_bits ctx + u64 (zlen data * 8)) in
  let '(hs, blk) := update_loop (length data) (h ctx) (block ctx) data in
  mkCtx hs bits blk.

Definition pad_to (n : nat) (blk : bytes) : bytes := blk ++ replicate (n - length blk) 0.

Definition digest_of (w : words) : bytes :=
  store_be32 (wa w) ++ store_be32 (wb w) ++ store_be32 (wc w) ++ store_be32 (wd w) ++
  store_be32 (we w) ++ store_be32 (wf w) ++ store_be32 (wg w) ++ store_be32 (wh w).

Definition otsardb_sha256_pure_final (ctx : otsardb_sha256_pure_ctx) : bytes :=
  let blk := block ctx ++ [0x80] in
  let '(hs, blk) := if (56 <? length blk)%nat
                    then (compress (h ctx) (pad_to 64 blk), [])
                    else (h ctx, blk) in
  let blk := pad_to 56 blk ++ put_u64_be (total_bits ctx) in
  digest_of (compress hs blk).

Definition otsardb_sha256_pure_digest (data : bytes) : bytes :=
  otsardb_sha256_pure_final (otsardb_sha256_pure_update otsardb_sha256_pure_init data).

(** ** Streaming *)

(** Reference: absorb one byte. *)
Definition absorb (s : words * bytes) (b : Z) : words * bytes :=
  let blk := s.2 ++ [b] in
  if (length blk =? 64)%nat then (compress s.1 blk, []) else (s.1, blk).

Lemma absorb_run hs blk run :
  (length blk + length run < 64)%nat -> foldl absorb (hs, blk) run = (hs, blk ++ run).
Proof.
  revert blk. induction run as [|b run IH]; intros blk Hl; cbn [foldl]; [by rewrite app_nil_r|].
  cbn in Hl. unfold absorb at 2. cbn [fst snd].
  rewrite length_app. cbn [length].
  destruct (Nat.eqb_spec (length blk + 1) 64); [lia|].
  rewrite IH by (rewrite length_app; cbn; lia). by rewrite <- app_assoc.
Qed.

Lemma absorb_full hs blk run :
  (length blk + length run = 64)%nat -> run <> [] ->
  foldl absorb (hs, blk) run = (compress hs (blk ++ run), []).
Proof.
  intros Hl Hne. destruct run as [|b run] using rev_ind; [done|]. clear IHrun.
  rewrite length_app in Hl. cbn in Hl. rewrite foldl_app, absorb_run by lia.
  cbn [foldl]. unfold absorb. cbn [fst snd]. rewrite <- app_assoc.
  rewrite !length_app. cbn [length].
  destruct (Nat.eqb_spec (length blk + (length run + 1)) 64); [done|lia].
Qed.

Lemma update_loop_absorb fuel hs blk data :
  (length data <= fuel)%nat -> (length blk < 64)%nat ->
  update_loop fuel hs blk data = foldl absorb (hs, blk) data.
Proof.
  revert hs blk data. induction fuel as [|fuel IH]; intros hs blk data Hf Hb.
  { destruct data; [done|cbn in Hf; lia]. }
  destruct data as [|b data]; [done|]. unfold update_loop; fold update_loop.
  set (d := b :: data) in *. set (n := ((64 - length blk) `min` length d)%nat).
  assert (1 <= n)%nat by (unfold n, d; cbn; lia).
  assert (n <= length d)%nat by (unfold n; lia).
  assert (foldl absorb (hs, blk) d = foldl absorb (foldl absorb (hs, blk) (take n d)) (drop n d))
    as -> by (by rewrite <- foldl_app, take_drop).
  rewrite length_app, length_take. replace (n `min` length d)%nat with n by lia.
  assert (length (drop n d) <= fuel)%nat by (rewrite length_drop; lia).
  destruct (Nat.eqb_spec (length blk + n) 64) as [E|E].
  - rewrite absorb_full; [apply IH; [done|cbn; lia]|rewrite length_take; lia|].
    intros Hn. apply (f_equal length) in Hn. rewrite length_take in Hn. cbn in Hn. lia.
  - rewrite absorb_run by (rewrite length_take; lia).
    apply IH; [done|]. rewrite length_app, length_take. lia.
Qed.

Lemma absorb_length s b : (length s.2 < 64)%nat -> (length (absorb s b).2 < 64)%nat.
Proof.
  intros H. unfold absorb. rewrite length_app. cbn [length].
  destruct (Nat.eqb_spec (length s.2 + 1) 64); cbn; [lia|].
  rewrite length_app. cbn. lia.
Qed.

Lemma absorb_all_length data s :
  (length s.2 < 64)%nat -> (length (foldl absorb s data).2 < 64)%nat.
Proof.
  revert s. induction data as [|b data IH]; intros s Hs; [done|].
  cbn. apply IH. by apply absorb_length.
Qed.

Lemma pure_update_eq ctx data :
  (length (block ctx) < 64)%nat ->
  otsardb_sha256_pure_update ctx data =
  mkCtx (foldl absorb (h ctx, block ctx) data).1 (u64 (total_bits ctx + zlen data * 8))
        (foldl absorb (h ctx, block ctx) data).2.
Proof.
  intros Hb. unfold otsardb_sha256_pure_update. rewrite update_loop_absorb by done.
  destruct (foldl absorb (h ctx, block ctx) data) as [hs blk]. f_equal.
  unfold u64. by rewrite Z.add_mod_idemp_r.
Qed.

Lemma digest_length w : length (digest_of w) = 32%nat.
Proof. reflexivity. Qed.

Lemma digest_ok w : bytes_ok (digest_of w).
Proof.
  unfold digest_of, store_be32.
  repeat (apply Forall_app; split); repeat constructor; rewrite land_255;
    apply Z.mod_pos_bound; lia.
Qed.

End Pure.

Lemma pure_digest_length data : length (Pure.otsardb_sha256_pure_digest data) = 32%nat.
Proof.
  unfold Pure.otsardb_sha256_pure_digest, Pure.otsardb_sha256_pure_final. by case_match.
Qed.

Lemma pure_digest_ok data : bytes_ok (Pure.otsardb_sha256_pure_digest data).
Proof.
  unfold Pure.otsardb_sha256_pure_digest, Pure.otsardb_sha256_pure_final.
  case_match. apply Pure.digest_ok.
Qed.

(** The pure C digest is an instance of the interface. *)
#[export] Instance pure_sha256 : Sha256 := {
  otsardb_sha256 := Pure.otsardb_sha256_pure_digest;
  sha256_length := pure_digest_length;
  sha256_ok := pure_digest_ok
}.

Lemma length_sha256_hex digest : length (otsardb_sha256_hex digest) = (2 * length digest)%nat.
Proof.
  unfold otsardb_sha256_hex. induction digest as [|b d IH]; [done|].
  cbn [fmap list_fmap concat]. rewrite length_app, IH. cbn. lia.
Qed.

Lemma zlen_sha256_hex_data `{Sha256} data : zlen (otsardb_sha256_hex_data data) = 64.
Proof.
  unfold otsardb_sha256_hex_data, zlen. by rewrite length_sha256_hex, sha256_length.
Qed.

(** Streaming SHA-256: feeding [a] then [b] to the context leaves exactly
    the state of feeding [a ++ b] at once, wherever the split falls with
    respect to the 64-byte blocks. *)
Theorem sha256_update_streaming (ctx : Pure.otsardb_sha256_pure_ctx) (a b : bytes) :
  (length (Pure.block ctx) < 64)%nat ->
  Pure.otsardb_sha256_pure_update (Pure.otsardb_sha256_pure_update ctx a) b
  = Pure.otsardb_sha256_pure_update ctx (a ++ b).
Proof.
  intros Hb. rewrite (Pure.pure_update_eq ctx a) by done.
  rewrite Pure.pure_update_eq, (Pure.pure_update_eq ctx (a ++ b)) by
    (try done; by apply Pure.absorb_all_length).
  cbn. rewrite foldl_app. destruct (foldl Pure.absorb _ a). cbn. f_equal.
  unfold u64. rewrite zlen_app, Z.add_mod_idemp_l by done. f_equal. lia.
Qed.

Lemma sha256_update_streaming_witness :
  Pure.otsardb_sha256_pure_update
    (Pure.otsardb_sha256_pure_update Pure.otsardb_sha256_pure_init (str "ab")) (str "c")
  = Pure.otsardb_sha256_pure_update Pure.otsardb_sha256_pure_init (str "ab" ++ str "c").
Proof. apply sha256_update_streaming. cbn. lia. Defined.

(** The FIPS 180-4 vector for abc. *)
Example sha256_abc :
  otsardb_sha256_hex_data (H := pure_sha256) (str "abc")
  = str "ba7816bf8f01cfea414140de5dae2223b00361a396177a9cb410ff61f20015ad".
Proof. vm_compute. reflexivity. Qed.

(** Hex digits are printable and no quotes. *)
Lemma hex_digit_ok n : 0 <= n < 16 -> 48 <= hex_digit n <= 102.
Proof.
  intros Hn. assert (forallb (fun k => (48 <=? hex_digit (Z.of_nat k)) &&
    (hex_digit (Z.of_nat k) <=? 102)) (seq 0 16) = true) as Hall by reflexivity.
  rewrite forallb_forall in Hall. specialize (Hall (Z.to_nat n)).
  rewrite Z2Nat.id in Hall by lia. assert (In (Z.to_nat n) (seq 0 16)) as Hin by (apply in_seq; lia).
  specialize (Hall Hin). prop_bools. lia.
Qed.

Lemma sha256_hex_range digest : Forall (fun c => 48 <= c <= 102) (otsardb_sha256_hex digest).
Proof.
  unfold otsardb_sha256_hex. induction digest as [|b digest IH]; [constructor|].
  cbn [fmap list_fmap concat app].
  assert (forall x, 0 <= Z.land x 15 < 16) as Hl.
  { intros x. change 15 with (Z.ones 4). rewrite Z.land_ones by lia. apply Z.mod_pos_bound. lia. }
  constructor; [apply hex_digit_ok, Hl|]. constructor; [apply hex_digit_ok, Hl|done].
Qed.
