(* ===== verification/Segment.v ===== *)
(** * Segments (segment.c)

    A segment is an immutable object holding one WAL batch: a 60-byte header,
    the commit id and the stored payload, whose SHA-256 the header carries. The
    version 3 payload is a copy of the batch header followed by one
    self-describing block per distinct page, sorted by page number, the last
    frame of a page winning; each block is stored raw or LZ4-compressed and
    carries the CRC-32 of its record. LZ4 (vendored third-party code) is a
    parameter with its documented round trip as a law. *)

From S2P Require Import Prelude CText Codec Sha256 WalBatch.

(** ** LZ4 (lz4.h)

    Sizes are C [int]s; a compression that fails returns 0, here the empty
    list; a decompression that fails returns a negative value, here [None]. *)
Class Lz4 := {
  LZ4_compressBound : Z -> Z;
  LZ4_compress_default : bytes -> Z -> Z -> bytes;
  LZ4_decompress_safe : bytes -> Z -> Z -> option bytes
}.

Class Lz4Laws `{Lz4} : Prop := {
  lz4_roundtrip : forall src, zlen src <= INT_MAX ->
    let c := LZ4_compress_default src (zlen src) (LZ4_compressBound (zlen src)) in
    c <> [] -> LZ4_decompress_safe c (zlen c) (zlen src) = Some src
}.

(** Conversion of an unsigned 32-bit value to [int]. *)
Definition to_int (v : Z) : Z := if 2 ^ 31 <=? v then v - 2 ^ 32 else v.

Definition OTSARDB_SEGMENT_FORMAT_VERSION : Z := 3.
Definition OTSARDB_SEGMENT_FLAG_LZ4 : Z := 1.
Definition OTSARDB_SEGMENT_COMMIT_ID_MAX : Z := 63.
Definition OTSARDB_SEGMENT_BLOCK_FLAG_LZ4 : Z := 1.
Definition OTSARDB_SEGMENT_BLOCK_HEADER_SIZE : Z := 13.
Definition OTSARDB_SEGMENT_BATCH_HEADER_COPY_SIZE : Z := 32.
Definition OTSARDB_SEGMENT_WAL_FRAMES : Z := 1.
Definition OTSARDB_SEGMENT_HEADER_SIZE : Z := 60.
Definition OTSARDB_SEGMENT_MAX_DECOMPRESSED : Z := 1024 * 1024 * 1024.
Definition OTSARDB_SEGMENT_MAGIC : bytes := str "ARKSEG01".

(** ** CRC-32 *)

Definition crc32_bit (c : Z) : Z :=
  if Z.odd c then Z.lxor 0xEDB88320 (Z.shiftr c 1) else Z.shiftr c 1.

(** [table[i]] *)
Definition crc32_table_entry (i : Z) : Z := Nat.iter 8 crc32_bit i.

Definition crc32_table : list Z := (fun i => crc32_table_entry (Z.of_nat i)) <$> seq 0 256.

Definition crc32_step (crc b : Z) : Z :=
  Z.lxor (nth (Z.to_nat (Z.land (Z.lxor crc b) 0xff)) crc32_table 0) (Z.shiftr crc 8).

Definition otsardb_segment_crc32 (data : bytes) : Z :=
  Z.lxor (foldl crc32_step 0xFFFFFFFF data) 0xFFFFFFFF.

(** ** Blocks *)

Record otsardb_segment_view := mkSegmentView {
  sv_format_version : Z;
  sv_kind : Z;
  sv_commit_id : bytes;
  sv_payload : bytes;
  sv_compressed : bool;
  sv_payload_sha256 : bytes
}.

Record otsardb_segment_frame_info := mkFrameInfo {
  fi_offsets : list Z;
  fi_page_nos : list Z
}.

Definition no_frames : otsardb_segment_frame_info := mkFrameInfo [] [].

Section Segment.
Context `{Sha256} `{Lz4}.

(** The decoded record, its page number and the position after the block. *)
Definition otsardb_segment_frame_decode (data : bytes) (pos : Z) : option (bytes * Z * Z) :=
  let size := zlen data in
  if (size <? pos) || (size - pos <? OTSARDB_SEGMENT_BLOCK_HEADER_SIZE) then None
  else
    let p := drop (Z.to_nat pos) data in
    let orig_len := get_u32_le p in
    let data_len := get_u32_le (drop 4 p) in
    let flags := nth 8 p 0 in
    let frame_crc := get_u32_le (drop 9 p) in
    if (orig_len <? OTSARDB_WAL_BATCH_FRAME_HEADER_SIZE + OTSARDB_WAL_BATCH_PAGE_SIZE_MIN) ||
       (OTSARDB_SEGMENT_MAX_DECOMPRESSED <? orig_len) ||
       negb (Z.ldiff flags OTSARDB_SEGMENT_BLOCK_FLAG_LZ4 =? 0)
    then None
    else if size - pos - OTSARDB_SEGMENT_BLOCK_HEADER_SIZE <? data_len then None
    else
      let stored := drop 13 p in
      let frame :=
        if negb (Z.land flags OTSARDB_SEGMENT_BLOCK_FLAG_LZ4 =? 0) then
          match LZ4_decompress_safe (take (Z.to_nat data_len) stored) (to_int data_len)
                                    (to_int orig_len) with
          | Some out => if zlen out =? orig_len then Some out else None
          | None => None
          end
        else if data_len =? orig_len then Some (take (Z.to_nat orig_len) stored)
        else None in
      match frame with
      | None => None
      | Some frame =>
          if negb (otsardb_segment_crc32 frame =? frame_crc) then None
          else
            let page_no := get_u32_le frame in
            if (page_no =? 0) || negb (get_u32_le (drop 4 frame) =? 0) then None
            else Some (frame, page_no,
                       pos + OTSARDB_SEGMENT_BLOCK_HEADER_SIZE + data_len)
      end.

(** ** Encoder *)

(** [refs]: page number and index of its last frame, in order of first use. *)
Fixpoint refs_add (refs : list (Z * Z)) (page_no i : Z) : list (Z * Z) :=
  match refs with
  | [] => [(page_no, i)]
  | (p, j) :: r => if p =? page_no then (p, i) :: r else (p, j) :: refs_add r page_no i
  end.

Fixpoint collect_refs (batch : otsardb_wal_batch_view) (i : nat) (todo : nat)
    (refs : list (Z * Z)) : option (list (Z * Z)) :=
  match todo with
  | O => Some refs
  | S todo' =>
      match otsardb_wal_batch_frame batch (Z.of_nat i) with
      | None => None
      | Some (page_no, _) => collect_refs batch (S i) todo' (refs_add refs page_no (Z.of_nat i))
      end
  end.

(** [qsort] by page number; the page numbers are distinct, so the sorted order
    is unique. *)
Fixpoint ref_insert (x : Z * Z) (l : list (Z * Z)) : list (Z * Z) :=
  match l with
  | [] => [x]
  | y :: r => if x.1 <=? y.1 then x :: l else y :: ref_insert x r
  end.
Definition ref_sort (l : list (Z * Z)) : list (Z * Z) := foldr ref_insert [] l.

(** First pass: stored length and flags of a block. *)
Definition choose_block (compress : bool) (frame : bytes) : Z * Z :=
  let orig_len := zlen frame in
  if compress && (64 <=? orig_len) then
    let bound := LZ4_compressBound orig_len in
    if 0 <? bound then
      let compressed_len := zlen (LZ4_compress_default frame orig_len bound) in
      if (0 <? compressed_len) && (compressed_len <? orig_len)
      then (compressed_len, OTSARDB_SEGMENT_BLOCK_FLAG_LZ4)
      else (orig_len, 0)
    else (orig_len, 0)
  else (orig_len, 0).

(** Second pass: the block's bytes; a compression of another length fails. *)
Definition write_block (frame : bytes) (choice : Z * Z) : option bytes :=
  let orig_len := zlen frame in
  let '(data_len, flags) := choice in
  let header := put_u32_le orig_len ++ put_u32_le data_len ++ [flags] ++
                put_u32_le (otsardb_segment_crc32 frame) in
  if negb (Z.land flags OTSARDB_SEGMENT_BLOCK_FLAG_LZ4 =? 0) then
    let bound := LZ4_compressBound orig_len in
    let c := LZ4_compress_default frame orig_len bound in
    if (bound <=? 0) || negb (zlen c =? data_len) then None
    else Some (header ++ c)
  else Some (header ++ frame).

(** The block loop: the blocks and their offsets from [offset] on. *)
Fixpoint write_blocks (offset : Z) (frames : list bytes) (choices : list (Z * Z))
  : option (bytes * list Z) :=
  match frames, choices with
  | frame :: fs, choice :: cs =>
      match write_block frame choice with
      | None => None
      | Some block =>
          match write_blocks (offset + zlen block) fs cs with
          | None => None
          | Some (out, offsets) => Some (block ++ out, offset :: offsets)
          end
      end
  | _, _ => Some ([], [])
  end.

Definition blocks_bytes (choices : list (Z * Z)) : Z :=
  foldr (fun c acc => OTSARDB_SEGMENT_BLOCK_HEADER_SIZE + c.1 + acc) 0 choices.

(** The 28 header bytes before the digest. *)
Definition segment_header (version kind commit_id_len flags stored_size : Z) : bytes :=
  OTSARDB_SEGMENT_MAGIC ++ put_u32_le version ++ put_u32_le kind ++ put_u16_le commit_id_len ++
  put_u16_le flags ++ put_u64_le stored_size.

Definition segment_encode_v3 (commit_id payload : bytes) (compress : bool)
  : option (bytes * bytes * otsardb_segment_frame_info) :=
  match otsardb_wal_batch_decode payload with
  | None => None
  | Some batch =>
      if negb (wb_format_version batch =? OTSARDB_WAL_BATCH_VERSION) then None else
      let frame_record_size := OTSARDB_WAL_BATCH_FRAME_HEADER_SIZE + wb_page_size batch in
      match collect_refs batch 0 (Z.to_nat (wb_frame_count batch)) [] with
      | None => None
      | Some refs =>
          let refs := ref_sort refs in
          let unique_count := zlen refs in
          if (UINT32_MAX <? frame_record_size) || (INT_MAX <? frame_record_size) then None else
          let frames := (fun r => take (Z.to_nat frame_record_size) (batch_record_at batch r.2))
                          <$> refs in
          let choices := choose_block compress <$> frames in
          let stored_payload_size :=
            OTSARDB_SEGMENT_BATCH_HEADER_COPY_SIZE + blocks_bytes choices in
          let commit_id_len := zlen commit_id in
          if (OTSARDB_SEGMENT_COMMIT_ID_MAX <? commit_id_len) ||
             (SIZE_MAX - commit_id_len <? OTSARDB_SEGMENT_HEADER_SIZE) ||
             (SIZE_MAX - stored_payload_size <? OTSARDB_SEGMENT_HEADER_SIZE + commit_id_len)
          then None else
          let total := OTSARDB_SEGMENT_HEADER_SIZE + commit_id_len + stored_payload_size in
          let header_copy := take 24 (wb_data batch) ++ put_u32_le unique_count ++
                             take 4 (drop 28 (wb_data batch)) in
          match write_blocks (OTSARDB_SEGMENT_HEADER_SIZE + commit_id_len +
                              OTSARDB_WAL_BATCH_HEADER_SIZE) frames choices with
          | None => None
          | Some (blocks, offsets) =>
              let stored := header_copy ++ blocks in
              let encoded :=
                segment_header OTSARDB_SEGMENT_FORMAT_VERSION OTSARDB_SEGMENT_WAL_FRAMES
                               commit_id_len 0 stored_payload_size ++
                otsardb_sha256 stored ++ commit_id ++ stored in
              if negb (zlen encoded =? total) then None
              else Some (encoded, otsardb_sha256_hex_data encoded, mkFrameInfo offsets (refs.*1))
          end
      end
  end.

(** Version 2: the whole payload, LZ4-compressed when that is shorter. *)
Definition otsardb_segment_encode (kind : Z) (commit_id payload : bytes) (compress : bool)
  : option (bytes * bytes) :=
  if (zlen commit_id =? 0) || (kind =? 0) then None else
  let commit_id_len := zlen commit_id in
  if (OTSARDB_SEGMENT_COMMIT_ID_MAX <? commit_id_len) || (2 ^ 16 - 1 <? commit_id_len) then None
  else
    let payload_size := zlen payload in
    let '(stored, flags) :=
      if compress && (64 <=? payload_size) && (payload_size <=? INT_MAX) then
        let bound := LZ4_compressBound payload_size in
        if 0 <? bound then
          let c := LZ4_compress_default payload payload_size bound in
          if (0 <? zlen c) && (zlen c + 4 <? payload_size)
          then (put_u32_le payload_size ++ c, OTSARDB_SEGMENT_FLAG_LZ4)
          else (payload, 0)
        else (payload, 0)
      else (payload, 0) in
    let stored_size := zlen stored in
    if (SIZE_MAX - commit_id_len <? OTSARDB_SEGMENT_HEADER_SIZE) ||
       (SIZE_MAX - stored_size <? OTSARDB_SEGMENT_HEADER_SIZE + commit_id_len) then None
    else
      let encoded := segment_header 2 kind commit_id_len flags stored_size ++
                     otsardb_sha256 stored ++ commit_id ++ stored in
      Some (encoded, otsardb_sha256_hex_data encoded).

Definition otsardb_segment_encode_with_frames (kind : Z) (commit_id payload : bytes)
    (compress : bool) : option (bytes * bytes * otsardb_segment_frame_info) :=
  if (zlen commit_id =? 0) || (kind =? 0) then None else
  let fallback :=
    match otsardb_segment_encode kind commit_id payload compress with
    | None => None
    | Some (data, sha) => Some (data, sha, no_frames)
    end in
  if kind =? OTSARDB_SEGMENT_WAL_FRAMES then
    match segment_encode_v3 commit_id payload compress with
    | Some r => Some r
    | None => fallback
    end
  else fallback.

(** ** Decoder *)

Definition otsardb_segment_decode (data : bytes) : option otsardb_segment_view :=
  let size := zlen data in
  if size <? OTSARDB_SEGMENT_HEADER_SIZE then None
  else if negb (bytes_eqb (take 8 data) OTSARDB_SEGMENT_MAGIC) then None
  else
    let format_version := get_u32_le (drop 8 data) in
    let kind := get_u32_le (drop 12 data) in
    let commit_id_len := get_u16_le (drop 16 data) in
    let flags := get_u16_le (drop 18 data) in
    let payload_size := get_u64_le (drop 20 data) in
    let expected_payload_digest := take 32 (drop 28 data) in
    if (negb (format_version =? 1) && negb (format_version =? 2) &&
        negb (format_version =? OTSARDB_SEGMENT_FORMAT_VERSION)) ||
       (kind =? 0) || (commit_id_len =? 0) ||
       (OTSARDB_SEGMENT_COMMIT_ID_MAX <? commit_id_len) ||
       (SIZE_MAX <? payload_size) ||
       negb (Z.ldiff flags OTSARDB_SEGMENT_FLAG_LZ4 =? 0) ||
       ((format_version =? 1) && negb (flags =? 0)) ||
       ((3 <=? format_version) && negb (flags =? 0))
    then None
    else
      let expected_size := OTSARDB_SEGMENT_HEADER_SIZE + commit_id_len in
      if SIZE_MAX - payload_size <? expected_size then None
      else if negb (size =? expected_size + payload_size) then None
      else
        let commit_id := take (Z.to_nat commit_id_len) (drop 60 data) in
        let payload := drop (Z.to_nat commit_id_len) (drop 60 data) in
        if negb (bytes_eqb (otsardb_sha256 payload) expected_payload_digest) then None
        else Some (mkSegmentView format_version kind (cstr commit_id) payload
                     ((3 <=? format_version) ||
                      negb (Z.land flags OTSARDB_SEGMENT_FLAG_LZ4 =? 0))
                     (otsardb_sha256_hex (otsardb_sha256 payload))).

(** The block loop of the version 3 rebuild: the records and the position after
    the last block. *)
Fixpoint rebuild_frames (payload : bytes) (frame_record_size : Z) (count : nat) (pos : Z)
  : option (bytes * Z) :=
  match count with
  | O => Some ([], pos)
  | S count' =>
      match otsardb_segment_frame_decode payload pos with
      | None => None
      | Some (frame, _, pos') =>
          if negb (zlen frame =? frame_record_size) then None
          else match rebuild_frames payload frame_record_size count' pos' with
               | None => None
               | Some (out, last) => Some (frame ++ out, last)
               end
      end
  end.

Definition segment_decompress_v3 (payload : bytes) : option bytes :=
  let size := zlen payload in
  if (size <? OTSARDB_SEGMENT_BATCH_HEADER_COPY_SIZE) ||
     negb (bytes_eqb (take 8 payload) (str "OTSWAL01")) then None
  else
    let page_size := get_u32_le (drop 12 payload) in
    let frame_count := get_u32_le (drop 24 payload) in
    if (page_size <? OTSARDB_WAL_BATCH_PAGE_SIZE_MIN) ||
       (OTSARDB_WAL_BATCH_PAGE_SIZE_MAX <? page_size) ||
       negb (Z.land page_size (page_size - 1) =? 0) || (frame_count =? 0) then None
    else
      let frame_record_size := OTSARDB_WAL_BATCH_FRAME_HEADER_SIZE + page_size in
      if (OTSARDB_SEGMENT_MAX_DECOMPRESSED - OTSARDB_WAL_BATCH_HEADER_SIZE) / frame_record_size
         <? frame_count then None
      else
        let expected_out := OTSARDB_WAL_BATCH_HEADER_SIZE + frame_count * frame_record_size in
        match rebuild_frames payload frame_record_size (Z.to_nat frame_count)
                OTSARDB_SEGMENT_BATCH_HEADER_COPY_SIZE with
        | None => None
        | Some (records, pos) =>
            let out := take 32 payload ++ records in
            if negb (zlen out =? expected_out) || negb (pos =? size) then None
            else match otsardb_wal_batch_decode out with
                 | None => None
                 | Some _ => Some out
                 end
        end.

Definition otsardb_segment_decompress (view : otsardb_segment_view) : option bytes :=
  if 3 <=? sv_format_version view then segment_decompress_v3 (sv_payload view)
  else if negb (sv_compressed view) then None
  else
    let stored := sv_payload view in
    let stored_size := zlen stored in
    if stored_size <? 4 then None
    else
      let original_size := get_u32_le stored in
      if (original_size =? 0) || (OTSARDB_SEGMENT_MAX_DECOMPRESSED <? original_size) then None
      else match LZ4_decompress_safe (drop 4 stored) (to_int (u32 (stored_size - 4)))
                                     (to_int original_size) with
           | Some out => if zlen out =? original_size then Some out else None
           | None => None
           end.

End Segment.
