(* ===== verification/SegmentTheory.v ===== *)
(** * Segments: theorems

    The table-driven CRC-32 equals the bitwise definition; a version 3 segment
    decodes to exactly the last-writer batch of its input; the offsets the
    encoder reports address exactly the blocks of the pages it lists. *)

From Stdlib Require Import Sorting.Sorted.
From S2P Require Import Prelude CText Codec Sha256 WalBatch Segment.

(** ** CRC-32: table-driven against bitwise *)

(** The reflected CRC-32, one bit at a time. *)
Definition crc32_bitwise_step (crc b : Z) : Z := Nat.iter 8 crc32_bit (Z.lxor crc b).
Definition crc32_bitwise (data : bytes) : Z :=
  Z.lxor (foldl crc32_bitwise_step 0xFFFFFFFF data) 0xFFFFFFFF.

Lemma odd_lxor a b : Z.odd (Z.lxor a b) = xorb (Z.odd a) (Z.odd b).
Proof. by rewrite <- !Z.bit0_odd, Z.lxor_spec. Qed.

Lemma crc32_bit_lxor a b : crc32_bit (Z.lxor a b) = Z.lxor (crc32_bit a) (crc32_bit b).
Proof.
  unfold crc32_bit. rewrite odd_lxor, Z.shiftr_lxor.
  destruct (Z.odd a), (Z.odd b); cbn [xorb].
  - rewrite Z.lxor_assoc, (Z.lxor_comm _ (Z.lxor _ (Z.shiftr b 1))).
    by rewrite Z.lxor_assoc, (Z.lxor_comm (Z.shiftr b 1)), <- Z.lxor_assoc, Z.lxor_nilpotent,
      Z.lxor_0_l.
  - by rewrite Z.lxor_assoc.
  - by rewrite <- !Z.lxor_assoc, (Z.lxor_comm 0xEDB88320).
  - done.
Qed.

Lemma crc32_iter_lxor n a b :
  Nat.iter n crc32_bit (Z.lxor a b) = Z.lxor (Nat.iter n crc32_bit a) (Nat.iter n crc32_bit b).
Proof. induction n as [|n IH]; [done|]. by rewrite !Nat.iter_succ, IH, crc32_bit_lxor. Qed.

Lemma crc32_iter_shiftl n x : Nat.iter n crc32_bit (Z.shiftl x (Z.of_nat n)) = x.
Proof.
  induction n as [|n IH]; [cbn; apply Z.shiftl_0_r|].
  rewrite Nat.iter_succ_r.
  replace (crc32_bit (Z.shiftl x (Z.of_nat (S n)))) with (Z.shiftl x (Z.of_nat n)); [done|].
  unfold crc32_bit. rewrite <- Z.bit0_odd, Z.shiftl_spec_low by lia.
  rewrite Z.shiftr_shiftl_l by lia. f_equal. lia.
Qed.

Lemma split_low_byte x : x = Z.lxor (Z.land x 255) (Z.shiftl (Z.shiftr x 8) 8).
Proof.
  apply Z.bits_inj'. intros i Hi. change 255 with (Z.ones 8).
  rewrite Z.lxor_spec, Z.land_spec.
  destruct (Z.ltb_spec i 8).
  - rewrite Z.ones_spec_low, Z.shiftl_spec_low by lia. by rewrite andb_true_r, xorb_false_r.
  - rewrite Z.ones_spec_high, Z.shiftl_spec_high, Z.shiftr_spec by lia.
    rewrite andb_false_r. cbn. f_equal. lia.
Qed.

Lemma crc32_iter8 x :
  Nat.iter 8 crc32_bit x = Z.lxor (crc32_table_entry (Z.land x 255)) (Z.shiftr x 8).
Proof.
  rewrite (split_low_byte x) at 1. rewrite crc32_iter_lxor.
  by rewrite (crc32_iter_shiftl 8).
Qed.

Lemma crc32_table_nth i : 0 <= i < 256 -> nth (Z.to_nat i) crc32_table 0 = crc32_table_entry i.
Proof.
  intros Hi. unfold crc32_table. change (fmap (fun j => crc32_table_entry (Z.of_nat j)) (seq 0 256))
    with (List.map (fun j => crc32_table_entry (Z.of_nat j)) (seq 0 256)).
  rewrite nth_indep with (d' := crc32_table_entry (Z.of_nat 0))
    by (rewrite List.length_map, List.length_seq; lia).
  rewrite (List.map_nth (fun j => crc32_table_entry (Z.of_nat j))), List.seq_nth by lia.
  f_equal. lia.
Qed.

Lemma crc32_step_bitwise crc b : byte_ok b -> crc32_step crc b = crc32_bitwise_step crc b.
Proof.
  intros Hb. unfold crc32_step, crc32_bitwise_step. rewrite crc32_iter8.
  rewrite crc32_table_nth by (rewrite land_255; apply Z.mod_pos_bound; lia).
  f_equal. rewrite Z.shiftr_lxor. rewrite (Z.shiftr_div_pow2 b) by lia.
  rewrite Z.div_small by (change (2 ^ 8) with 256; apply Hb). by rewrite Z.lxor_0_r.
Qed.

(** The table-driven CRC-32 that guards every block of a segment equals the
    bit-by-bit reflected CRC-32 (polynomial 0xEDB88320) on every byte string. *)
Theorem crc32_table_equivalence (data : bytes) :
  bytes_ok data -> otsardb_segment_crc32 data = crc32_bitwise data.
Proof.
  intros H. unfold otsardb_segment_crc32, crc32_bitwise. f_equal.
  generalize 0xFFFFFFFF as crc. induction H as [|b data Hb _ IH]; intros crc; [done|].
  cbn. by rewrite crc32_step_bitwise, IH.
Qed.

Lemma crc32_table_equivalence_witness :
  otsardb_segment_crc32 (str "123456789") = crc32_bitwise (str "123456789").
Proof. apply crc32_table_equivalence. vm_compute. repeat constructor; done. Defined.

(** The standard check value. *)
Example crc32_check_value : otsardb_segment_crc32 (str "123456789") = 0xCBF43926.
Proof. vm_compute. reflexivity. Qed.

(** ** Bounds of the CRC *)

Lemma crc32_bit_bound c : 0 <= c < 2 ^ 32 -> 0 <= crc32_bit c < 2 ^ 32.
Proof.
  intros Hc. unfold crc32_bit. pose proof (shiftr_bound 32 1 c ltac:(lia) Hc).
  destruct (Z.odd c); [apply lxor_bound; lia|done].
Qed.

Lemma crc32_iter_bound n c : 0 <= c < 2 ^ 32 -> 0 <= Nat.iter n crc32_bit c < 2 ^ 32.
Proof.
  intros Hc. induction n as [|n IH]; [done|]. rewrite Nat.iter_succ. by apply crc32_bit_bound.
Qed.

Lemma crc32_bound data : is_u32 (otsardb_segment_crc32 data).
Proof.
  unfold is_u32, UINT32_MAX, otsardb_segment_crc32.
  enough (forall c, 0 <= c < 2 ^ 32 -> 0 <= foldl crc32_step c data < 2 ^ 32) as Hb.
  { pose proof (lxor_bound 32 _ 0xFFFFFFFF ltac:(lia) (Hb 0xFFFFFFFF ltac:(lia)) ltac:(lia)). lia. }
  induction data as [|b data IH]; intros c Hc; [done|]. cbn. apply IH.
  unfold crc32_step. rewrite crc32_table_nth by (rewrite land_255; apply Z.mod_pos_bound; lia).
  apply lxor_bound; [lia| |by apply shiftr_bound].
  apply crc32_iter_bound. rewrite land_255. pose proof (Z.mod_pos_bound (Z.lxor c b) 256). lia.
Qed.

(** ** Blocks *)

Section Blocks.
Context `{Sha256} `{HL : Lz4} `{!Lz4Laws}.
Context (ps : Z) (Hps : valid_page_size ps = true).
Context (compress : bool).

(** The record of a frame. *)
Definition rec_of (f : Z * bytes) : bytes := batch_record f.1 f.2.

Lemma ps_bounds : 512 <= ps <= 65536.
Proof. by apply valid_page_size_bounds. Qed.

Lemma block_choice f : frame_ok ps f ->
  let r := rec_of f in
  (choose_block compress r = (zlen r, 0)) \/
  (exists c, LZ4_compress_default r (zlen r) (LZ4_compressBound (zlen r)) = c /\ c <> [] /\
     0 < LZ4_compressBound (zlen r) /\ zlen c < zlen r /\
     choose_block compress r = (zlen c, OTSARDB_SEGMENT_BLOCK_FLAG_LZ4)).
Proof.
  intros Hf. cbn zeta. unfold choose_block. destruct (compress && (64 <=? zlen (rec_of f))); [|by left].
  destruct (Z.ltb_spec 0 (LZ4_compressBound (zlen (rec_of f)))); [|by left].
  set (c := LZ4_compress_default _ _ _).
  destruct (Z.ltb_spec 0 (zlen c)); cbn [andb]; [|by left].
  destruct (Z.ltb_spec (zlen c) (zlen (rec_of f))); [|by left].
  right. exists c. split_and!; auto. intros Hc. rewrite Hc, zlen_nil in *. lia.
Qed.

(** The bytes of the block of a frame. *)
Lemma write_block_total f : frame_ok ps f ->
  exists block, write_block (rec_of f) (choose_block compress (rec_of f)) = Some block /\
    zlen block = OTSARDB_SEGMENT_BLOCK_HEADER_SIZE + (choose_block compress (rec_of f)).1.
Proof.
  intros Hf. destruct (block_choice f Hf) as [->|(c & Hc & Hne & Hb & Hlt & ->)]; unfold write_block.
  - eexists. split; [done|]. autorewrite with zlen. cbn.
    unfold OTSARDB_SEGMENT_BLOCK_HEADER_SIZE. lia.
  - change (negb (Z.land OTSARDB_SEGMENT_BLOCK_FLAG_LZ4 OTSARDB_SEGMENT_BLOCK_FLAG_LZ4 =? 0))
      with true. cbv iota. rewrite Hc, Z.eqb_refl.
    destruct (Z.leb_spec (LZ4_compressBound (zlen (rec_of f))) 0); [lia|]. cbn [orb negb].
    eexists. split; [done|]. autorewrite with zlen.
    unfold OTSARDB_SEGMENT_BLOCK_HEADER_SIZE. cbn [fst]. lia.
Qed.

Lemma rec_head f r : frame_ok ps f ->
  get_u32_le (rec_of f ++ r) = f.1 /\ get_u32_le (drop 4 (rec_of f ++ r)) = 0.
Proof.
  intros [Hn _]. unfold rec_of, batch_record. rewrite <- !app_assoc. at_field.
  rewrite !get_put_u32; [done|..]; unfold is_u32, UINT32_MAX in *; lia.
Qed.

Definition block_bytes (orig_len data_len flags crc : Z) (body : bytes) : bytes :=
  put_u32_le orig_len ++ put_u32_le data_len ++ [flags] ++ put_u32_le crc ++ body.

Lemma block_fields L D fl C body rest :
  is_u32 L -> is_u32 D -> is_u32 C ->
  let p := block_bytes L D fl C body ++ rest in
  get_u32_le p = L /\ get_u32_le (drop 4 p) = D /\ nth 8 p 0 = fl /\
  get_u32_le (drop 9 p) = C /\ drop 13 p = body ++ rest.
Proof.
  intros HL0 HD0 HC0. unfold block_bytes. cbn zeta. rewrite <- !app_assoc.
  split_and!; [by apply get_put_u32| |done| |]; at_field; auto using get_put_u32.
Qed.

(** What a block holds: the record itself, or its compression. *)
Lemma block_shape f block :
  frame_ok ps f ->
  write_block (rec_of f) (choose_block compress (rec_of f)) = Some block ->
  exists body flags,
    block = block_bytes (zlen (rec_of f)) (zlen body) flags
                        (otsardb_segment_crc32 (rec_of f)) body /\
    zlen body <= zlen (rec_of f) /\
    ((flags = 0 /\ body = rec_of f) \/
     (flags = 1 /\ LZ4_decompress_safe body (zlen body) (zlen (rec_of f)) = Some (rec_of f))).
Proof.
  intros Hf Hw. pose proof ps_bounds. pose proof (zlen_batch_record ps f Hf) as Hrl.
  fold (rec_of f) in Hrl.
  destruct (block_choice f Hf) as [E|(c & Hc & Hne & Hb & Hlt & E)]; rewrite E in Hw.
  - cbn in Hw. injection Hw as <-. exists (rec_of f), 0. unfold block_bytes.
    split_and!; [by rewrite <- ?app_assoc|lia|by left].
  - unfold write_block in Hw.
    change (negb (Z.land OTSARDB_SEGMENT_BLOCK_FLAG_LZ4 OTSARDB_SEGMENT_BLOCK_FLAG_LZ4 =? 0))
      with true in Hw. cbv iota in Hw. rewrite Hc in Hw.
    case_if_in Hw; [done|]. injection Hw as <-. exists c, 1. unfold block_bytes.
    split_and!; [by rewrite <- ?app_assoc|lia|right].
    split; [done|]. rewrite <- Hc. apply lz4_roundtrip; [unfold INT_MAX; lia|]. by rewrite Hc.
Qed.

(** A written block decodes, wherever it lies, to its record. *)
Lemma block_decodes f block pre post :
  frame_ok ps f ->
  write_block (rec_of f) (choose_block compress (rec_of f)) = Some block ->
  otsardb_segment_frame_decode (pre ++ block ++ post) (zlen pre)
  = Some (rec_of f, f.1, zlen pre + zlen block).
Proof.
  intros Hf Hw. pose proof ps_bounds as Hpsb.
  pose proof (zlen_batch_record ps f Hf) as Hrl. fold (rec_of f) in Hrl.
  destruct (rec_head f [] Hf) as [Hn Hz]. rewrite app_nil_r in Hn, Hz.
  destruct (block_shape f block Hf Hw) as (body & flags & -> & Hle & Hbody).
  pose proof (zlen_nonneg post). pose proof (zlen_nonneg body).
  set (r := rec_of f) in *. set (C := otsardb_segment_crc32 r).
  assert (zlen (block_bytes (zlen r) (zlen body) flags C body) = 13 + zlen body) as Hbl
    by (unfold block_bytes; autorewrite with zlen; lia).
  destruct (block_fields (zlen r) (zlen body) flags C body post) as (E0 & E4 & E8 & E9 & E13);
    [unfold is_u32, UINT32_MAX; lia..|apply crc32_bound|].
  unfold otsardb_segment_frame_decode, OTSARDB_SEGMENT_BLOCK_HEADER_SIZE,
    OTSARDB_WAL_BATCH_FRAME_HEADER_SIZE, OTSARDB_WAL_BATCH_PAGE_SIZE_MIN,
    OTSARDB_SEGMENT_MAX_DECOMPRESSED.
  rewrite (drop_zlen_app (zlen pre)) by done. rewrite E0, E4, E8, E9, E13.
  assert (zlen (pre ++ block_bytes (zlen r) (zlen body) flags C body ++ post)
          = zlen pre + 13 + zlen body + zlen post) as ->
    by (autorewrite with zlen; lia).
  rewrite Hbl.
  destruct (Z.ltb_spec (zlen pre + 13 + zlen body + zlen post) (zlen pre)); [lia|].
  destruct (Z.ltb_spec (zlen pre + 13 + zlen body + zlen post - zlen pre) 13); [lia|].
  destruct (Z.ltb_spec (zlen r) (8 + 512)); [lia|].
  destruct (Z.ltb_spec (1024 * 1024 * 1024) (zlen r)); [lia|].
  destruct (Z.ltb_spec (zlen pre + 13 + zlen body + zlen post - zlen pre - 13) (zlen body)); [lia|].
  assert (to_int (zlen body) = zlen body /\ to_int (zlen r) = zlen r) as [-> ->].
  { unfold to_int. destruct (Z.leb_spec (2 ^ 31) (zlen body)), (Z.leb_spec (2 ^ 31) (zlen r)); lia. }
  rewrite take_zlen_app by done.
  assert ((Z.ldiff flags OTSARDB_SEGMENT_BLOCK_FLAG_LZ4 =? 0) = true) as ->
    by (by destruct Hbody as [[-> _]|[-> _]]).
  cbn [orb negb].
  match goal with |- match ?m with _ => _ end = _ => assert (m = Some r) as -> end.
  { destruct Hbody as [[-> ->]|[-> ->]].
    - change (Z.land 0 OTSARDB_SEGMENT_BLOCK_FLAG_LZ4 =? 0) with true. cbn [negb].
      rewrite Z.eqb_refl, take_zlen_app; done.
    - change (Z.land 1 OTSARDB_SEGMENT_BLOCK_FLAG_LZ4 =? 0) with false. cbn [negb].
      by rewrite Z.eqb_refl. }
  rewrite Hn, Hz. unfold C. rewrite Z.eqb_refl. cbn [negb].
  destruct (Z.eqb_spec f.1 0) as [E|]; [destruct Hf as [[] _]; lia|]. cbn.
  by replace (zlen pre + 13 + zlen body) with (zlen pre + (13 + zlen body)) by lia.
Qed.
End Blocks.

(** ** The block area *)

Section BlockArea.
Context `{Sha256} `{HL : Lz4} `{!Lz4Laws}.
Context (ps : Z) (Hps : valid_page_size ps = true).
Context (compress : bool).

Definition choices_of (cf : list (Z * bytes)) : list (Z * Z) :=
  choose_block compress <$> (rec_of <$> cf).

Lemma blocks_bytes_bound cf :
  Forall (frame_ok ps) cf -> 0 <= blocks_bytes (choices_of cf) <= zlen cf * (21 + ps).
Proof.
  induction 1 as [|f cf Hf _ IH]; [done|]. rewrite zlen_cons.
  unfold choices_of, blocks_bytes in *. cbn [fmap list_fmap foldr].
  pose proof (zlen_batch_record ps f Hf) as Hrl. fold (rec_of f) in Hrl.
  pose proof (ps_bounds ps Hps).
  assert (0 <= (choose_block compress (rec_of f)).1 <= 8 + ps).
  { destruct (block_choice ps compress f Hf) as [->|(c & _ & _ & _ & Hlt & ->)]; cbn [fst];
      [lia|pose proof (zlen_nonneg c); lia]. }
  unfold OTSARDB_SEGMENT_BLOCK_HEADER_SIZE in *. lia.
Qed.

(** What the block loop writes: the announced number of bytes, decoded back
    record by record; the offset of block [i] decodes to record [i]. *)
Lemma write_blocks_spec cf offset :
  Forall (frame_ok ps) cf ->
  exists out offs,
    write_blocks offset (rec_of <$> cf) (choices_of cf) = Some (out, offs) /\
    zlen out = blocks_bytes (choices_of cf) /\ length offs = length cf /\
    (forall pre post,
       rebuild_frames (pre ++ out ++ post) (8 + ps) (length cf) (zlen pre)
       = Some (batch_records cf, zlen pre + zlen out)) /\
    (forall pre post i off f, zlen pre = offset -> offs !! i = Some off -> cf !! i = Some f ->
       exists next, otsardb_segment_frame_decode (pre ++ out ++ post) off
                    = Some (rec_of f, f.1, next)).
Proof.
  intros Hf. revert offset. induction Hf as [|f cf Hf Hcf IH]; intros offset.
  - exists [], []. split_and!; try done. intros pre post. cbn. by rewrite zlen_nil, Z.add_0_r.
  - destruct (write_block_total ps compress f Hf) as (block & Hw & Hbl).
    destruct (IH (offset + zlen block)) as (out & offs & Hws & Hlen & Hno & Hre & Hdec).
    exists (block ++ out), (offset :: offs). unfold choices_of in *.
    cbn [fmap list_fmap write_blocks blocks_bytes foldr length]. rewrite Hw, Hws.
    split_and!; [done| |by rewrite Hno| |].
    + rewrite zlen_app, Hlen, Hbl. done.
    + intros pre post. cbn [rebuild_frames].
      rewrite <- !app_assoc, (block_decodes ps Hps compress f block) by done.
      unfold rec_of at 1. rewrite (zlen_batch_record ps f Hf), Z.eqb_refl. cbn [negb].
      specialize (Hre (pre ++ block) post). rewrite <- !app_assoc, zlen_app in Hre.
      rewrite Hre, zlen_app. unfold batch_records. cbn [fmap list_fmap concat]. unfold rec_of.
      do 2 f_equal. lia.
    + intros pre post [|i] off g Hpre Ho Hg; cbn in Ho, Hg; simplify_eq.
      * rewrite <- !app_assoc. eexists. by apply (block_decodes ps Hps compress).
      * specialize (Hdec (pre ++ block) post i off g). rewrite zlen_app, <- !app_assoc in Hdec.
        rewrite <- !app_assoc. by apply Hdec.
Qed.
End BlockArea.

(** ** The last writer of each page *)

(** The pages after replaying the frames in order: the specification. *)
Definition pages_of (frames : list (Z * bytes)) : gmap Z bytes :=
  foldl (fun m f => <[f.1 := f.2]> m) ∅ frames.

Lemma pages_of_snoc frames f : pages_of (frames ++ [f]) = <[f.1 := f.2]> (pages_of frames).
Proof. unfold pages_of. by rewrite foldl_app. Qed.

Lemma refs_add_fst refs p i :
  (refs_add refs p i).*1 = if bool_decide (p ∈ refs.*1) then refs.*1 else refs.*1 ++ [p].
Proof.
  induction refs as [|[p' j] refs IH]; [done|]. cbn [refs_add fmap list_fmap fst].
  destruct (Z.eqb_spec p' p) as [->|Hne]; cbn [fmap list_fmap fst].
  - rewrite bool_decide_true by (left). done.
  - rewrite IH. case_bool_decide as Hin; case_bool_decide as Hin'; try done.
    + destruct Hin'. by right.
    + apply elem_of_cons in Hin' as [->|]; done.
Qed.

Lemma refs_add_NoDup refs p i : NoDup refs.*1 -> NoDup (refs_add refs p i).*1.
Proof.
  intros Hn. rewrite refs_add_fst. case_bool_decide as Hin; [done|].
  apply list.NoDup_app. split_and!; [done|set_solver|apply NoDup_singleton].
Qed.

Lemma elem_refs_add refs p i p' j : NoDup refs.*1 ->
  (p', j) ∈ refs_add refs p i <-> (p' = p /\ j = i) \/ (p' <> p /\ (p', j) ∈ refs).
Proof.
  induction refs as [|[p0 j0] refs IH]; intros Hn; cbn [refs_add].
  - rewrite list_elem_of_singleton. set_solver.
  - cbn in Hn. apply list.NoDup_cons in Hn as [Hp0 Hn]. specialize (IH Hn).
    destruct (Z.eqb_spec p0 p) as [->|Hne]; rewrite !elem_of_cons.
    + assert (p' = p -> (p', j) ∉ refs).
      { intros -> Hin. apply Hp0. apply list_elem_of_fmap. by exists (p, j). }
      naive_solver.
    + rewrite IH. naive_solver.
Qed.

(** [refs] records, for every page of the first [i] frames, its last frame. *)
Definition refs_inv (all : list (Z * bytes)) (i : nat) (refs : list (Z * Z)) : Prop :=
  NoDup refs.*1 /\
  (forall p j, (p, j) ∈ refs -> 0 <= j /\ exists page, all !! Z.to_nat j = Some (p, page) /\
     pages_of (take i all) !! p = Some page) /\
  (forall p, is_Some (pages_of (take i all) !! p) -> p ∈ refs.*1).

Lemma refs_inv_step all i refs f :
  all !! i = Some f -> refs_inv all i refs ->
  refs_inv all (S i) (refs_add refs f.1 (Z.of_nat i)).
Proof.
  intros Hi (Hn & Hin & Hdom). unfold refs_inv.
  rewrite (take_S_r _ _ _ Hi), pages_of_snoc. split_and!; [by apply refs_add_NoDup| |].
  - intros p j Hp. apply elem_refs_add in Hp as [[-> ->]|[Hne Hp]]; [| |done].
    + split; [lia|]. exists f.2. rewrite Nat2Z.id, lookup_insert_eq, Hi. by destruct f.
    + destruct (Hin p j Hp) as (Hj & page & ? & ?). split; [done|]. exists page.
      by rewrite lookup_insert_ne.
  - intros p Hp. rewrite refs_add_fst. destruct (decide (p = f.1)) as [->|Hne].
    + case_bool_decide; [done|]. apply elem_of_app. right. by left.
    + rewrite lookup_insert_ne in Hp by done. specialize (Hdom p Hp).
      case_bool_decide; [done|]. apply elem_of_app. by left.
Qed.

Lemma ref_insert_perm x l : ref_insert x l ≡ₚ x :: l.
Proof.
  induction l as [|y l IH]; cbn; [done|]. destruct (x.1 <=? y.1); [done|].
  rewrite IH. apply Permutation_swap.
Qed.

Lemma ref_sort_perm l : ref_sort l ≡ₚ l.
Proof.
  unfold ref_sort. induction l as [|x l IH]; cbn; [done|]. by rewrite ref_insert_perm, IH.
Qed.

Lemma ref_insert_sorted x l :
  StronglySorted Z.lt l.*1 -> x.1 ∉ l.*1 -> StronglySorted Z.lt (ref_insert x l).*1.
Proof.
  induction l as [|y l IH]; cbn [ref_insert fmap list_fmap]; intros Hs Hx.
  - repeat constructor.
  - apply not_elem_of_cons in Hx as [Hne Hx]. apply StronglySorted_inv in Hs as [Hs Hall].
    destruct (Z.leb_spec x.1 y.1); cbn [fmap list_fmap].
    + constructor; [by constructor|]. constructor; [lia|].
      eapply list.Forall_impl; [exact Hall|]. cbn. lia.
    + constructor; [by apply IH|]. rewrite list.Forall_forall in Hall |- *. intros z Hz.
      rewrite (ref_insert_perm x l) in Hz. cbn [fmap list_fmap] in Hz.
      apply elem_of_cons in Hz as [->|Hz]; [lia|by apply Hall].
Qed.

Lemma ref_sort_sorted l : NoDup l.*1 -> StronglySorted Z.lt (ref_sort l).*1.
Proof.
  induction l as [|x l IH]; intros Hn; [constructor|]. cbn in Hn. apply list.NoDup_cons in Hn as [Hx Hn].
  cbn [ref_sort foldr]. apply ref_insert_sorted; [by apply IH|].
  intros Hin. apply Hx. by rewrite <- (ref_sort_perm l).
Qed.

(** ** The version 3 segment *)

Section V3.
Context `{HS : Sha256} `{HL : Lz4} `{!Lz4Laws}.
Context (ps db : Z) (frames : list (Z * bytes)).
Context (Hok : batch_ok ps db frames).

Definition payload_of (cf : list (Z * bytes)) : bytes :=
  batch_header ps db (zlen cf) ++ batch_records cf.
Definition view_of : otsardb_wal_batch_view :=
  mkBatchView 1 ps db (zlen frames) (payload_of frames) (zlen (payload_of frames)).

Lemma collect_refs_spec todo i refs :
  (i + todo = length frames)%nat -> refs_inv frames i refs ->
  exists refs', collect_refs view_of i todo refs = Some refs' /\
    refs_inv frames (length frames) refs'.
Proof.
  revert i refs. induction todo as [|todo IH]; intros i refs Hi Hinv; cbn [collect_refs].
  - exists refs. split; [done|]. by replace (length frames) with i by lia.
  - destruct (lookup_lt_is_Some_2 frames i ltac:(lia)) as [[n page] Hf].
    unfold view_of, payload_of. rewrite (batch_frame_lookup ps db frames i (n, page)) by done.
    apply IH; [lia|]. by apply (refs_inv_step frames i refs (n, page)).
Qed.

Lemma batch_record_take i f : frames !! i = Some f ->
  take (Z.to_nat (8 + ps)) (batch_record_at view_of (Z.of_nat i)) = rec_of f.
Proof.
  intros Hi. destruct Hok as (Hv & _ & _ & Hf).
  pose proof (valid_page_size_bounds _ Hv) as Hb.
  unfold batch_record_at, view_of, payload_of. cbn [wb_page_size wb_data].
  unfold OTSARDB_WAL_BATCH_HEADER_SIZE, OTSARDB_WAL_BATCH_FRAME_HEADER_SIZE.
  rewrite (Z2Nat.inj_add 32) by nia. rewrite <- drop_drop, drop_zlen_app by apply zlen_batch_header.
  destruct (drop_batch_records ps frames i f Hf ltac:(lia) Hi) as [rest ->].
  apply take_zlen_app. apply zlen_batch_record. rewrite list.Forall_forall in Hf.
  apply Hf. by eapply list_elem_of_lookup_2.
Qed.

(** [cf] lists the last write of every page once, by increasing page number. *)
Definition last_writers (cf : list (Z * bytes)) : Prop :=
  StronglySorted Z.lt cf.*1 /\
  forall n page, (n, page) ∈ cf <-> pages_of frames !! n = Some page.

Lemma last_writers_nonempty cf : last_writers cf -> 0 < zlen frames -> 0 < zlen cf.
Proof.
  intros [_ Hlw] Hn. destruct cf; [|unfold zlen; cbn; lia]. exfalso.
  destruct (exists_last (l := frames)) as (fs & f & E); [by intros E; rewrite E in Hn|].
  apply (not_elem_of_nil (f.1, f.2)), Hlw. rewrite E, pages_of_snoc. apply lookup_insert_eq.
Qed.

Lemma refs_frames refs :
  refs_inv frames (length frames) refs ->
  exists cf, last_writers cf /\ Forall (frame_ok ps) cf /\ cf.*1 = (ref_sort refs).*1 /\
    zlen cf <= zlen frames /\
    (fun r => take (Z.to_nat (8 + ps)) (batch_record_at view_of r.2)) <$> ref_sort refs
    = rec_of <$> cf.
Proof.
  intros (Hn & Hin & Hdom). rewrite firstn_all in *.
  set (pick := fun r : Z * Z => default (r.1, []) (frames !! Z.to_nat r.2)).
  assert (forall r, r ∈ ref_sort refs -> 0 <= r.2 /\ exists page,
    frames !! Z.to_nat r.2 = Some (r.1, page) /\ pick r = (r.1, page) /\
    pages_of frames !! r.1 = Some page) as Hr.
  { intros [p j] Hr. rewrite ref_sort_perm in Hr. destruct (Hin p j Hr) as (Hj & page & Hf & Hp).
    split; [done|]. exists page. unfold pick. cbn [fst snd]. by rewrite Hf. }
  exists (pick <$> ref_sort refs).
  assert ((pick <$> ref_sort refs).*1 = (ref_sort refs).*1) as Hfst.
  { rewrite <- list_fmap_compose. apply list_fmap_ext. intros i r Hi.
    destruct (Hr r) as (_ & page & _ & Hp & _); [by eapply list_elem_of_lookup_2|]. cbn. by rewrite Hp. }
  assert (StronglySorted Z.lt (pick <$> ref_sort refs).*1) as Hsort
    by (rewrite Hfst; by apply ref_sort_sorted).
  split_and!; [split; [done|]| |done| |].
  - intros n page. rewrite list_elem_of_fmap. split.
    + intros (r & Hpr & Hrin). destruct (Hr r Hrin) as (_ & page' & _ & Hp & Hpg).
      rewrite Hp in Hpr. by simplify_eq.
    + intros Hp. assert (n ∈ refs.*1) as Hnin by (apply Hdom; eauto).
      rewrite <- (ref_sort_perm refs) in Hnin. apply list_elem_of_fmap in Hnin as (r & -> & Hrin).
      exists r. split; [|done]. destruct (Hr r Hrin) as (_ & page' & _ & -> & Hpg). by simplify_eq.
  - destruct Hok as (_ & _ & _ & Hf). rewrite list.Forall_forall in Hf |- *.
    intros f Hfin. apply list_elem_of_fmap in Hfin as (r & -> & Hrin).
    destruct (Hr r Hrin) as (_ & page & Hlk & -> & _). apply Hf. by eapply list_elem_of_lookup_2.
  - unfold zlen. apply inj_le. rewrite <- (length_fmap fst frames), length_fmap, <- (length_fmap fst).
    apply NoDup_incl_length.
    + apply NoDup_ListNoDup. clear -Hn. assert (NoDup (ref_sort refs).*1) by (by rewrite ref_sort_perm).
      done.
    + intros p Hp. apply list_elem_of_In in Hp. apply list_elem_of_In.
      apply list_elem_of_fmap in Hp as (r & -> & Hrin).
      destruct (Hr r Hrin) as (_ & page & Hlk & _). apply list_elem_of_fmap. exists (r.1, page).
      split; [done|]. by eapply list_elem_of_lookup_2.
  - rewrite <- list_fmap_compose. apply list_fmap_ext. intros i r Hi.
    destruct (Hr r) as (Hj & page & Hlk & Hp & _); [by eapply list_elem_of_lookup_2|].
    cbn. rewrite Hp. rewrite <- (Z2Nat.id r.2) by done. by apply batch_record_take.
Qed.

(** The stored payload: the batch header of [cf] and its blocks. *)
Lemma header_copy (cf : list (Z * bytes)) :
  take 24 (payload_of frames) ++ put_u32_le (zlen cf) ++ take 4 (drop 28 (payload_of frames))
  = batch_header ps db (zlen cf).
Proof.
  unfold payload_of, batch_header. rewrite <- !app_assoc. at_field.
  rewrite (take_app_exact 4) by done.
  assert (forall r, take 24 (OTSARDB_WAL_BATCH_MAGIC ++ put_u32_le OTSARDB_WAL_BATCH_VERSION ++
    put_u32_le ps ++ put_u64_le db ++ r) = OTSARDB_WAL_BATCH_MAGIC ++
    put_u32_le OTSARDB_WAL_BATCH_VERSION ++ put_u32_le ps ++ put_u64_le db) as ->
    by (intros r; rewrite !app_assoc; by apply take_app_exact).
  by rewrite <- !app_assoc.
Qed.

Context (commit_id : bytes) (compress : bool).

(** A segment of format [version] holding [stored]. *)
Definition segment_bytes (version kind flags : Z) (stored : bytes) : bytes :=
  segment_header version kind (zlen commit_id) flags (zlen stored) ++
  otsardb_sha256 stored ++ commit_id ++ stored.

Lemma segment_header_fields v k n fl sz r :
  is_u32 v -> is_u32 k -> 0 <= n < 2 ^ 16 -> 0 <= fl < 2 ^ 16 -> is_u64 sz ->
  let data := segment_header v k n fl sz ++ r in
  take 8 data = OTSARDB_SEGMENT_MAGIC /\ get_u32_le (drop 8 data) = v /\
  get_u32_le (drop 12 data) = k /\ get_u16_le (drop 16 data) = n /\
  get_u16_le (drop 18 data) = fl /\ get_u64_le (drop 20 data) = sz /\ drop 28 data = r.
Proof.
  intros. subst data. unfold segment_header. rewrite <- !app_assoc.
  split_and!; [by apply take_app_exact|..]; at_field;
    auto using get_put_u16, get_put_u32, get_put_u64.
Qed.

Lemma zlen_segment_header v k n fl sz : zlen (segment_header v k n fl sz) = 28.
Proof. unfold segment_header. autorewrite with zlen. reflexivity. Qed.

Lemma segment_decode_bytes version kind flags stored :
  version = 2 \/ version = 3 -> 0 < kind <= UINT32_MAX ->
  flags = 0 \/ (version = 2 /\ flags = 1) ->
  0 < zlen commit_id <= 63 -> no_nul commit_id = true -> zlen stored <= SIZE_MAX - 200 ->
  otsardb_segment_decode (segment_bytes version kind flags stored)
  = Some (mkSegmentView version kind commit_id stored
            ((3 <=? version) || negb (Z.land flags 1 =? 0))
            (otsardb_sha256_hex (otsardb_sha256 stored))).
Proof.
  intros Hver Hk Hfl Hid Hnul Hsz.
  unfold segment_bytes.
  set (rest := otsardb_sha256 stored ++ commit_id ++ stored).
  pose proof (zlen_nonneg stored). unfold SIZE_MAX, UINT64_MAX in Hsz.
  destruct (segment_header_fields version kind (zlen commit_id) flags (zlen stored) rest)
    as (E0 & E8 & E12 & E16 & E18 & E20 & E28);
    [unfold is_u32, is_u64, UINT32_MAX, UINT64_MAX in *; lia..|].
  assert (length (otsardb_sha256 stored) = 32%nat) as Hsha by apply sha256_length.
  assert (drop 60 (segment_header version kind (zlen commit_id) flags (zlen stored) ++ rest)
          = commit_id ++ stored) as E60.
  { change 60%nat with (28 + 32)%nat. rewrite <- drop_drop, E28. by apply drop_app_exact. }
  unfold otsardb_segment_decode. rewrite E0, E8, E12, E16, E18, E20, E28, E60.
  rewrite bytes_eqb_refl. autorewrite with zlen. rewrite zlen_segment_header.
  unfold rest. autorewrite with zlen. replace (zlen (otsardb_sha256 stored)) with 32
    by (unfold zlen; lia).
  rewrite take_app_exact by done. rewrite take_zlen_app, drop_zlen_app by done.
  rewrite bytes_eqb_refl. unfold OTSARDB_SEGMENT_HEADER_SIZE, OTSARDB_SEGMENT_COMMIT_ID_MAX,
    SIZE_MAX, UINT64_MAX.
  rewrite cstr_no_nul by done.
  repeat match goal with |- context [?a <? ?b] => destruct (Z.ltb_spec a b); [lia|] end.
  destruct (Z.eqb_spec kind 0); [lia|]. destruct (Z.eqb_spec (zlen commit_id) 0); [lia|].
  replace (28 + (32 + (zlen commit_id + zlen stored)) =? 60 + zlen commit_id + zlen stored)
    with true by (symmetry; apply Z.eqb_eq; lia).
  destruct Hver as [-> | ->]; destruct Hfl as [-> |[? ->]]; done.
Qed.

Lemma segment_encode_v3_spec :
  0 < zlen commit_id <= 63 -> 32 + zlen frames * (8 + ps) <= 2 ^ 30 ->
  exists cf blocks offs,
    last_writers cf /\ Forall (frame_ok ps) cf /\ 0 < zlen cf <= zlen frames /\
    write_blocks (60 + zlen commit_id + 32) (rec_of <$> cf) (choices_of compress cf)
      = Some (blocks, offs) /\
    let seg := segment_bytes 3 1 0 (batch_header ps db (zlen cf) ++ blocks) in
    segment_encode_v3 commit_id (payload_of frames) compress
    = Some (seg, otsardb_sha256_hex_data seg, mkFrameInfo offs cf.*1).
Proof.
  intros Hid Hcap. destruct Hok as (Hv & Hdb & Hn & Hf).
  pose proof (valid_page_size_bounds _ Hv) as Hb.
  destruct (collect_refs_spec (length frames) 0 []) as (refs & Hcr & Hinv); [done| |].
  { split_and!; [constructor|by intros ?? ?%not_elem_of_nil|].
    intros p [? Hp]. change (pages_of (take 0 frames)) with (∅ : gmap Z bytes) in Hp.
    by rewrite lookup_empty in Hp. }
  destruct (refs_frames refs Hinv) as (cf & Hlw & Hcf & Hfst & Hle & Hfr).
  destruct (write_blocks_spec ps Hv compress cf (60 + zlen commit_id + 32) Hcf)
    as (blocks & offs & Hw & Hlen & _).
  pose proof (blocks_bytes_bound ps Hv compress cf Hcf) as Hbb.
  exists cf, blocks, offs. split_and!; try done.
  { apply last_writers_nonempty; [done|lia]. }
  cbv zeta. unfold segment_encode_v3.
  pose proof (wal_batch_decode_records ps db frames Hok) as Hdec. cbv zeta in Hdec.
  fold (payload_of frames) view_of in Hdec.
  rewrite Hdec by (apply batch_count_fits; [done|lia]). cbn [view_of wb_format_version wb_page_size
    wb_frame_count wb_data]. fold view_of.
  change (negb (1 =? OTSARDB_WAL_BATCH_VERSION)) with false. cbv iota.
  replace (Z.to_nat (zlen frames)) with (length frames) by (unfold zlen; lia). rewrite Hcr.
  unfold OTSARDB_WAL_BATCH_FRAME_HEADER_SIZE. rewrite Hfr. fold (choices_of compress cf).
  replace (zlen (ref_sort refs)) with (zlen cf)
    by (unfold zlen; by rewrite <- (length_fmap fst cf), Hfst, length_fmap).
  rewrite header_copy, <- Hfst.
  unfold OTSARDB_SEGMENT_HEADER_SIZE, OTSARDB_WAL_BATCH_HEADER_SIZE,
    OTSARDB_SEGMENT_BATCH_HEADER_COPY_SIZE, OTSARDB_SEGMENT_COMMIT_ID_MAX.
  rewrite Hw. unfold UINT32_MAX, INT_MAX, SIZE_MAX, UINT64_MAX.
  assert (zlen cf * (21 + ps) <= 2 ^ 40) by nia.
  repeat match goal with |- context [?a <? ?b] => destruct (Z.ltb_spec a b); [lia|] end.
  cbn [orb]. rewrite <- Hlen.
  replace (32 + zlen blocks) with (zlen (batch_header ps db (zlen cf) ++ blocks))
    by (by rewrite zlen_app, zlen_batch_header).
  change OTSARDB_SEGMENT_FORMAT_VERSION with 3. change OTSARDB_SEGMENT_WAL_FRAMES with 1.
  fold (segment_bytes 3 1 0 (batch_header ps db (zlen cf) ++ blocks)).
  replace (zlen (segment_bytes 3 1 0 (batch_header ps db (zlen cf) ++ blocks)))
    with (60 + zlen commit_id + zlen (batch_header ps db (zlen cf) ++ blocks)); [|symmetry].
  - by rewrite Z.eqb_refl.
  - unfold segment_bytes. rewrite !(zlen_app (segment_header _ _ _ _ _)), zlen_segment_header.
    rewrite !(zlen_app (otsardb_sha256 _)), !(zlen_app commit_id).
    unfold zlen at 1. rewrite sha256_length. lia.
Qed.
End V3.

(** ** A concrete compressor

    For the witnesses: it drops the trailing zeros of its input, and fails on
    an input of zeros only. *)

Definition strip_zeros (src : bytes) : bytes :=
  foldr (fun b acc => match acc with [] => if b =? 0 then [] else [b] | _ => b :: acc end) [] src.

#[refine] Instance zero_lz4 : Lz4 := {
  LZ4_compressBound n := n + n / 255 + 16;
  LZ4_compress_default src _ _ := strip_zeros src;
  LZ4_decompress_safe c _ cap := Some (c ++ replicate (Z.to_nat cap - length c) 0)
}.
Defined.

Lemma strip_zeros_pad src :
  (length (strip_zeros src) <= length src)%nat /\
  strip_zeros src ++ replicate (length src - length (strip_zeros src)) 0 = src.
Proof.
  induction src as [|b src [IHl IH]]; [done|]. cbn [strip_zeros foldr].
  fold (strip_zeros src). destruct (strip_zeros src) as [|c l] eqn:E.
  - cbn in IH. rewrite Nat.sub_0_r in IH. destruct (Z.eqb_spec b 0) as [->|]; cbn.
    + split; [lia|]. by rewrite IH.
    + split; [lia|]. by rewrite Nat.sub_0_r, IH.
  - cbn in *. split; [lia|]. by rewrite IH.
Qed.

#[export] Instance zero_lz4_laws : Lz4Laws (H := zero_lz4).
Proof.
  constructor. cbn. intros src _ _. f_equal. unfold zlen. rewrite Nat2Z.id.
  apply strip_zeros_pad.
Qed.

(** ** Round trips *)

Section RoundTrips.
Context `{HS : Sha256} `{HL : Lz4} `{!Lz4Laws}.

Lemma encode_with_frames_v3 commit_id payload compress r :
  0 < zlen commit_id -> segment_encode_v3 commit_id payload compress = Some r ->
  otsardb_segment_encode_with_frames OTSARDB_SEGMENT_WAL_FRAMES commit_id payload compress = Some r.
Proof.
  intros Hid Hr. unfold otsardb_segment_encode_with_frames.
  destruct (Z.eqb_spec (zlen commit_id) 0); [lia|]. cbn. by rewrite Hr.
Qed.

Lemma segment_decompress_v3_blocks ps db frames cf compress blocks offs offset :
  batch_ok ps db frames -> 32 + zlen frames * (8 + ps) <= 2 ^ 30 ->
  Forall (frame_ok ps) cf -> 0 < zlen cf <= zlen frames ->
  write_blocks offset (rec_of <$> cf) (choices_of compress cf) = Some (blocks, offs) ->
  segment_decompress_v3 (batch_header ps db (zlen cf) ++ blocks) = Some (payload_of ps db cf).
Proof.
  intros (Hv & Hdb & Hn & Hf) Hcap Hcf Hlen Hw.
  pose proof (valid_page_size_bounds _ Hv) as Hb.
  destruct (write_blocks_spec ps Hv compress cf offset Hcf)
    as (blocks' & offs' & Hw' & Hbl & _ & Hre & _). rewrite Hw in Hw'. simplify_eq.
  specialize (Hre (batch_header ps db (zlen cf)) []).
  rewrite app_nil_r, zlen_batch_header in Hre.
  destruct (batch_header_fields ps db (zlen cf) blocks') as (E0 & _ & E12 & _ & E24);
    [unfold is_u32, is_u64, UINT32_MAX in *; lia..|].
  unfold segment_decompress_v3. rewrite E0, E12, E24.
  change (str "OTSWAL01") with OTSARDB_WAL_BATCH_MAGIC. rewrite bytes_eqb_refl.
  unfold OTSARDB_SEGMENT_BATCH_HEADER_COPY_SIZE, OTSARDB_WAL_BATCH_PAGE_SIZE_MIN,
    OTSARDB_WAL_BATCH_PAGE_SIZE_MAX, OTSARDB_WAL_BATCH_HEADER_SIZE,
    OTSARDB_WAL_BATCH_FRAME_HEADER_SIZE, OTSARDB_SEGMENT_MAX_DECOMPRESSED.
  replace (Z.to_nat (zlen cf)) with (length cf) by (unfold zlen; lia).
  rewrite Hre, zlen_app, zlen_batch_header, take_app_exact by done.
  fold (payload_of ps db cf).
  assert (zlen (payload_of ps db cf) = 32 + zlen cf * (8 + ps)) as ->.
  { unfold payload_of. by rewrite zlen_app, zlen_batch_header, (zlen_batch_records ps). }
  pose proof (zlen_nonneg blocks'). unfold valid_page_size in Hv. prop_bools.
  rewrite !Z.eqb_refl. replace (Z.land ps (ps - 1) =? 0) with true by (symmetry; by apply Z.eqb_eq).
  destruct (Z.eqb_spec (zlen cf) 0); [lia|].
  assert (zlen cf <= (1024 * 1024 * 1024 - 32) / (8 + ps)) by (apply Z.div_le_lower_bound; nia).
  repeat match goal with |- context [?a <? ?b] => destruct (Z.ltb_spec a b); [lia|] end.
  cbn [orb negb]. unfold payload_of.
  rewrite (wal_batch_decode_records ps db cf); [done| |].
  - split_and!; try lia; [|done]. unfold valid_page_size. rewrite !andb_true_iff.
    split_and!; [apply Z.leb_le; lia..|by apply Z.eqb_eq].
  - apply batch_count_fits; lia.
Qed.

Lemma segment_v3_reads (ps db : Z) (frames : list (Z * bytes)) (commit_id : bytes)
    (compress : bool) :
  batch_ok ps db frames -> 32 + zlen frames * (8 + ps) <= OTSARDB_SEGMENT_MAX_DECOMPRESSED ->
  0 < zlen commit_id <= OTSARDB_SEGMENT_COMMIT_ID_MAX -> no_nul commit_id = true ->
  exists seg sha info view cf,
    otsardb_segment_encode_with_frames OTSARDB_SEGMENT_WAL_FRAMES commit_id
      (payload_of ps db frames) compress = Some (seg, sha, info) /\
    otsardb_segment_decode seg = Some view /\
    sv_commit_id view = commit_id /\ sv_kind view = OTSARDB_SEGMENT_WAL_FRAMES /\
    otsardb_segment_decompress view = Some (payload_of ps db cf) /\
    last_writers frames cf /\ fi_page_nos info = cf.*1.
Proof.
  intros Hok Hcap Hid Hnul. change OTSARDB_SEGMENT_MAX_DECOMPRESSED with (2 ^ 30) in Hcap.
  destruct (segment_encode_v3_spec ps db frames Hok commit_id compress Hid Hcap)
    as (cf & blocks & offs & Hlw & Hcf & Hlen & Hw & Henc).
  pose proof (segment_decompress_v3_blocks ps db frames cf compress blocks offs _
                Hok Hcap Hcf Hlen Hw) as Hdec.
  destruct Hok as (Hv & Hdb & Hn & Hf). pose proof (valid_page_size_bounds _ Hv) as Hb.
  eexists _, _, _, _, cf. split_and!.
  - apply encode_with_frames_v3; [lia|exact Henc].
  - apply segment_decode_bytes; try done; [auto|auto|].
    destruct (write_blocks_spec ps Hv compress cf (60 + zlen commit_id + 32) Hcf)
      as (? & ? & Hw' & Hbl & _). rewrite Hw in Hw'. simplify_eq.
    pose proof (blocks_bytes_bound ps Hv compress cf Hcf).
    rewrite zlen_app, zlen_batch_header, Hbl. unfold SIZE_MAX, UINT64_MAX. nia.
  - done.
  - done.
  - exact Hdec.
  - done.
  - done.
Qed.

(** C34. A version 3 segment loses nothing but superseded page images: for every
    well-formed batch within the decoder's 1 GiB limit, encoding succeeds, the
    bytes decode with the same commit id, and decompression rebuilds exactly the
    batch that holds the last image of each page, once per page, by increasing
    page number. *)
Theorem segment_v3_roundtrip (ps db : Z) (frames : list (Z * bytes)) (commit_id : bytes)
    (compress : bool) :
  batch_ok ps db frames -> 32 + zlen frames * (8 + ps) <= OTSARDB_SEGMENT_MAX_DECOMPRESSED ->
  0 < zlen commit_id <= OTSARDB_SEGMENT_COMMIT_ID_MAX -> no_nul commit_id = true ->
  exists seg sha info view cf,
    otsardb_segment_encode_with_frames OTSARDB_SEGMENT_WAL_FRAMES commit_id
      (payload_of ps db frames) compress = Some (seg, sha, info) /\
    otsardb_segment_decode seg = Some view /\
    sv_commit_id view = commit_id /\ sv_kind view = OTSARDB_SEGMENT_WAL_FRAMES /\
    otsardb_segment_decompress view = Some (payload_of ps db cf) /\
    last_writers frames cf /\ fi_page_nos info = cf.*1.
Proof. apply segment_v3_reads. Qed.

(** Ranged reads: entry [i] of the frame index the encoder returns (the one
    the commit manifest publishes) points at a block from which the frame
    decoder, reading the segment at that offset alone, returns the record of the
    listed page with its last image. *)
Theorem segment_frame_offsets (ps db : Z) (frames : list (Z * bytes)) (commit_id : bytes)
    (compress : bool) (seg sha : bytes) (info : otsardb_segment_frame_info) (i : nat) (n : Z) :
  batch_ok ps db frames -> 32 + zlen frames * (8 + ps) <= OTSARDB_SEGMENT_MAX_DECOMPRESSED ->
  0 < zlen commit_id <= OTSARDB_SEGMENT_COMMIT_ID_MAX ->
  otsardb_segment_encode_with_frames OTSARDB_SEGMENT_WAL_FRAMES commit_id
    (payload_of ps db frames) compress = Some (seg, sha, info) ->
  fi_page_nos info !! i = Some n ->
  exists off page next,
    fi_offsets info !! i = Some off /\ pages_of frames !! n = Some page /\
    otsardb_segment_frame_decode seg off = Some (batch_record n page, n, next).
Proof.
  intros Hok Hcap Hid Henc Hi. change OTSARDB_SEGMENT_MAX_DECOMPRESSED with (2 ^ 30) in Hcap.
  destruct (segment_encode_v3_spec ps db frames Hok commit_id compress Hid Hcap)
    as (cf & blocks & offs & Hlw & Hcf & Hlen & Hw & Henc3).
  apply encode_with_frames_v3 in Henc3; [|lia]. rewrite Henc3 in Henc. simplify_eq.
  cbn [fi_page_nos fi_offsets] in *. destruct Hok as (Hv & _).
  apply list_lookup_fmap_Some in Hi as ([n' page] & -> & Hi).
  destruct (write_blocks_spec ps Hv compress cf (60 + zlen commit_id + 32) Hcf)
    as (blocks' & offs' & Hw' & _ & Hno & _ & Hdec). rewrite Hw in Hw'. injection Hw' as <- <-.
  destruct (lookup_lt_is_Some_2 offs i) as [off Hoff];
    [rewrite Hno; by eapply lookup_lt_Some|].
  set (stored := batch_header ps db (zlen cf) ++ blocks).
  set (pre := segment_header 3 1 (zlen commit_id) 0 (zlen stored) ++ otsardb_sha256 stored ++
              commit_id ++ batch_header ps db (zlen cf)).
  destruct (Hdec pre [] i off (n', page)) as [next Hnext]; [|done|done|].
  { unfold pre. rewrite !zlen_app, zlen_segment_header, zlen_batch_header.
    unfold zlen at 1. rewrite sha256_length. lia. }
  exists off, page, next. split_and!; [done| |].
  - apply Hlw. by eapply list_elem_of_lookup_2.
  - rewrite app_nil_r in Hnext. unfold pre in Hnext. rewrite <- !app_assoc in Hnext. exact Hnext.
Qed.

(** The version 2 format: a payload of any kind comes back unchanged, from
    the stored bytes when the segment is not compressed and from the
    decompressor when it is. *)
Theorem segment_v2_roundtrip (kind : Z) (commit_id payload : bytes) (compress : bool) :
  0 < kind <= UINT32_MAX -> 0 < zlen commit_id <= OTSARDB_SEGMENT_COMMIT_ID_MAX ->
  no_nul commit_id = true -> 0 < zlen payload <= OTSARDB_SEGMENT_MAX_DECOMPRESSED ->
  exists seg sha view,
    otsardb_segment_encode kind commit_id payload compress = Some (seg, sha) /\
    otsardb_segment_decode seg = Some view /\
    sv_kind view = kind /\ sv_commit_id view = commit_id /\
    (if sv_compressed view then otsardb_segment_decompress view = Some payload
     else sv_payload view = payload).
Proof.
  intros Hk Hid Hnul Hp. unfold OTSARDB_SEGMENT_COMMIT_ID_MAX in Hid.
  unfold OTSARDB_SEGMENT_MAX_DECOMPRESSED in Hp.
  unfold otsardb_segment_encode. set (b := LZ4_compressBound (zlen payload)).
  set (c := LZ4_compress_default payload (zlen payload) b).
  destruct (Z.eqb_spec (zlen commit_id) 0); [lia|]. destruct (Z.eqb_spec kind 0); [lia|].
  cbn [orb]. unfold OTSARDB_SEGMENT_COMMIT_ID_MAX, OTSARDB_SEGMENT_HEADER_SIZE.
  destruct (Z.ltb_spec 63 (zlen commit_id)); [lia|].
  destruct (Z.ltb_spec (2 ^ 16 - 1) (zlen commit_id)); [lia|]. cbn [orb].
  match goal with |- context [let '(_, _) := ?m in _] =>
    assert (m = (payload, 0) \/
            (m = (put_u32_le (zlen payload) ++ c, 1) /\ 0 < zlen c /\ zlen c + 4 < zlen payload))
      as Hm end.
  { repeat case_match; auto. prop_bools. right. done. }
  destruct Hm as [->|(-> & Hc0 & Hcl)].
  - unfold SIZE_MAX, UINT64_MAX.
    repeat match goal with |- context [?a <? ?b] => destruct (Z.ltb_spec a b); [lia|] end.
    cbn [orb]. eexists _, _, _. split_and!; [done|
      apply (segment_decode_bytes commit_id 2 kind 0 payload); auto; unfold SIZE_MAX, UINT64_MAX;
      lia|done|done|done].
  - set (stored := put_u32_le (zlen payload) ++ c).
    assert (zlen stored = 4 + zlen c) as Hs by (unfold stored; by autorewrite with zlen).
    unfold SIZE_MAX, UINT64_MAX.
    repeat match goal with |- context [?a <? ?b] => destruct (Z.ltb_spec a b); [lia|] end.
    cbn [orb]. eexists _, _, _. split_and!; [done|
      apply (segment_decode_bytes commit_id 2 kind 1 stored); auto; unfold SIZE_MAX, UINT64_MAX;
      lia|done|done|].
    cbn [sv_compressed]. change ((3 <=? 2) || negb (Z.land 1 1 =? 0)) with true. cbv iota.
    unfold otsardb_segment_decompress.
    cbn [sv_format_version sv_compressed sv_payload]. change (3 <=? 2) with false. cbn [negb orb].
    change (negb (Z.land 1 1 =? 0)) with true. cbv iota. cbn [negb].
    rewrite Hs. unfold stored. rewrite get_put_u32 by (split; unfold UINT32_MAX; lia).
    change (drop 4 (put_u32_le (zlen payload) ++ c)) with c.
    destruct (Z.ltb_spec (4 + zlen c) 4); [lia|]. destruct (Z.eqb_spec (zlen payload) 0); [lia|].
    unfold OTSARDB_SEGMENT_MAX_DECOMPRESSED.
    destruct (Z.ltb_spec (1024 * 1024 * 1024) (zlen payload)); [lia|]. cbn [orb].
    replace (4 + zlen c - 4) with (zlen c) by lia.
    assert (to_int (u32 (zlen c)) = zlen c /\ to_int (zlen payload) = zlen payload) as [-> ->].
    { unfold u32. rewrite Z.mod_small by lia. unfold to_int.
      destruct (Z.leb_spec (2 ^ 31) (zlen c)), (Z.leb_spec (2 ^ 31) (zlen payload)); lia. }
    pose proof (lz4_roundtrip payload) as Hrt. cbv zeta in Hrt. fold b in Hrt. fold c in Hrt.
    rewrite Hrt, Z.eqb_refl; [done|unfold INT_MAX; lia|].
    intros E. apply (f_equal zlen) in E. rewrite zlen_nil in E. lia.
Qed.
End RoundTrips.

(** ** Witnesses: two frames of page 2 and one of page 1 *)

Definition demo_frames : list (Z * bytes) :=
  [(2, replicate 512 7); (1, 9 :: replicate 511 0); (2, replicate 512 8)].

Lemma segment_v3_roundtrip_witness :
  exists seg sha info view cf,
    otsardb_segment_encode_with_frames 1 (str "c1") (payload_of 512 2 demo_frames) true
      = Some (seg, sha, info) /\
    otsardb_segment_decode seg = Some view /\ sv_commit_id view = str "c1" /\
    sv_kind view = 1 /\
    otsardb_segment_decompress view = Some (payload_of 512 2 cf) /\
    last_writers demo_frames cf /\ fi_page_nos info = cf.*1.
Proof.
  apply (segment_v3_roundtrip (HL := zero_lz4) 512 2 demo_frames (str "c1") true).
  - apply batch_okb_ok. vm_compute. reflexivity.
  - vm_compute. discriminate.
  - vm_compute. split; [reflexivity|discriminate].
  - reflexivity.
Defined.

Lemma segment_frame_offsets_witness :
  exists seg sha info off page next,
    otsardb_segment_encode_with_frames 1 (str "c1") (payload_of 512 2 demo_frames) true
      = Some (seg, sha, info) /\
    fi_offsets info !! 1%nat = Some off /\ pages_of demo_frames !! 2 = Some page /\
    otsardb_segment_frame_decode seg off = Some (batch_record 2 page, 2, next).
Proof.
  assert (option_map (fun x => fi_page_nos x.2 !! 1%nat)
    (otsardb_segment_encode_with_frames 1 (str "c1") (payload_of 512 2 demo_frames) true)
    = Some (Some 2)) as Hn by (vm_compute; reflexivity).
  destruct (otsardb_segment_encode_with_frames 1 (str "c1") (payload_of 512 2 demo_frames) true)
    as [[[seg sha] info]|] eqn:E.
  - destruct (segment_frame_offsets (HL := zero_lz4) 512 2 demo_frames (str "c1") true seg sha info
                1 2) as (off & page & next & H).
    + apply batch_okb_ok. vm_compute. reflexivity.
    + vm_compute. discriminate.
    + vm_compute. split; [reflexivity|discriminate].
    + exact E.
    + cbn in Hn. injection Hn as Hn. exact Hn.
    + exists seg, sha, info, off, page, next. exact (conj eq_refl H).
  - vm_compute in E. discriminate.
Defined.

Lemma segment_v2_roundtrip_witness :
  exists seg sha view,
    otsardb_segment_encode 7 (str "c1") (1 :: replicate 200 0) true = Some (seg, sha) /\
    otsardb_segment_decode seg = Some view /\ sv_kind view = 7 /\ sv_commit_id view = str "c1" /\
    (if sv_compressed view then otsardb_segment_decompress view = Some (1 :: replicate 200 0)
     else sv_payload view = 1 :: replicate 200 0).
Proof.
  apply (segment_v2_roundtrip (HL := zero_lz4) 7 (str "c1") (1 :: replicate 200 0) true).
  - vm_compute. split; [reflexivity|discriminate].
  - vm_compute. split; [reflexivity|discriminate].
  - reflexivity.
  - vm_compute. split; [reflexivity|discriminate].
Defined.

(** ** What every successful encoding satisfies *)

Section Encodings.
Context `{HS : Sha256} `{HL : Lz4}.

Lemma write_blocks_offsets frames : forall offset choices out offs,
  0 <= offset -> length frames = length choices ->
  write_blocks offset frames choices = Some (out, offs) ->
  length offs = length frames /\ Forall (Z.le 0) offs.
Proof.
  induction frames as [|f frames IH]; intros offset [|c cs] out offs Ho Hl H; cbn in Hl, H;
    try done; [by simplify_eq|].
  destruct (write_block f c) as [block|]; [|done].
  destruct (write_blocks _ frames cs) as [[out' offs']|] eqn:E; [|done]. simplify_eq.
  pose proof (zlen_nonneg block). apply IH in E as [Hlen Hall]; [|lia|lia].
  split; [cbn; lia|by constructor].
Qed.

Lemma segment_encode_size kind commit_id payload compress seg sha :
  otsardb_segment_encode kind commit_id payload compress = Some (seg, sha) ->
  zlen seg <= SIZE_MAX /\ sha = otsardb_sha256_hex_data seg.
Proof.
  unfold otsardb_segment_encode. intros H. repeat (case_if_in H; [done|]).
  match type of H with context [let '(_, _) := ?m in _] => destruct m as [stored flags] end.
  case_if_in H; [done|]. match type of H with Some (?d, _) = _ => remember d as e eqn:He end.
  injection H as <- <-. split; [|done]. prop_bools. rewrite He.
  rewrite !zlen_app, zlen_segment_header. unfold zlen at 1. rewrite sha256_length.
  unfold OTSARDB_SEGMENT_HEADER_SIZE in *. lia.
Qed.

Lemma segment_encode_v3_size commit_id payload compress seg sha info :
  segment_encode_v3 commit_id payload compress = Some (seg, sha, info) ->
  zlen seg <= SIZE_MAX /\ sha = otsardb_sha256_hex_data seg /\
  length (fi_offsets info) = length (fi_page_nos info) /\ Forall (Z.le 0) (fi_offsets info).
Proof.
  unfold segment_encode_v3. intros H. destruct (otsardb_wal_batch_decode payload) as [batch|]; [|done].
  case_if_in H; [done|]. destruct (collect_refs _ _ _ _) as [refs|]; [|done].
  do 2 (case_if_in H; [done|]). prop_bools.
  match type of H with match ?m with _ => _ end = _ => destruct m as [[blocks offs]|] eqn:Ew end;
    [|done].
  match type of H with context [if _ then None else Some (?d, _, _)] =>
    remember d as e eqn:He end.
  case_if_in H; [done|]. injection H as <- <- <-. prop_bools.
  apply write_blocks_offsets in Ew as [Hlen Hall].
  - cbn [fi_offsets fi_page_nos]. rewrite Hlen, !length_fmap. split_and!; [lia|done|done|done].
  - pose proof (zlen_nonneg commit_id). unfold OTSARDB_SEGMENT_HEADER_SIZE,
      OTSARDB_WAL_BATCH_HEADER_SIZE. lia.
  - by rewrite !length_fmap.
Qed.

Lemma encode_with_frames_size kind commit_id payload compress seg sha info :
  otsardb_segment_encode_with_frames kind commit_id payload compress = Some (seg, sha, info) ->
  zlen seg <= SIZE_MAX /\ sha = otsardb_sha256_hex_data seg /\
  length (fi_offsets info) = length (fi_page_nos info) /\ Forall (Z.le 0) (fi_offsets info).
Proof.
  unfold otsardb_segment_encode_with_frames. intros H. case_if_in H; [done|].
  assert (match otsardb_segment_encode kind commit_id payload compress with
    | Some (d, h) => Some (d, h, no_frames) | None => None end = Some (seg, sha, info) ->
    zlen seg <= SIZE_MAX /\ sha = otsardb_sha256_hex_data seg /\
    length (fi_offsets info) = length (fi_page_nos info) /\ Forall (Z.le 0) (fi_offsets info)) as Hfb.
  { destruct (otsardb_segment_encode _ _ _ _) as [[d h]|] eqn:Ee; [|done]. intros [= <- <- <-].
    apply segment_encode_size in Ee as [? ?]. split_and!; done. }
  case_if_in H; [|by apply Hfb].
  destruct (segment_encode_v3 _ _ _) as [[[d h] i]|] eqn:Ee; [|by apply Hfb]. simplify_eq.
  by apply segment_encode_v3_size in Ee.
Qed.
End Encodings.
