(* ===== verification/Checksum.v ===== *)
(** * Database checksum (checksum.c)

    The rolling checksum of a database is the XOR over its pages of the
    CRC-64/ISO of the page number (8 bytes, big-endian) followed by the page.
    A commit updates it in place; recovery recomputes it from the file. *)

From S2P Require Import Prelude Codec.

Definition OTSARDB_CHECKSUM_MAX_PAGE : Z := 65536.
Definition OTSARDB_CHECKSUM_HEX_SIZE : nat := 16.

Definition crc64_bit (crc : Z) : Z :=
  Z.lxor (Z.shiftr crc 1) (if Z.odd crc then 0xD800000000000000 else 0).

Definition crc64_byte (crc b : Z) : Z := Nat.iter 8 crc64_bit (Z.lxor crc b).

(** [~crc] on 64 bits. *)
Definition crc64_iso (data : bytes) : Z :=
  UINT64_MAX - foldl crc64_byte 0xFFFFFFFFFFFFFFFF data.

Definition otsardb_checksum_accumulate (current page_no : Z) (page : bytes) : Z :=
  if OTSARDB_CHECKSUM_MAX_PAGE <? zlen page then current
  else Z.lxor current (crc64_iso (put_u64_be page_no ++ page)).

(** [pages] points at the page of index [i]. *)
Fixpoint checksum_pages (page_size : Z) (i : nat) (count : nat) (pages : bytes) (c : Z) : Z :=
  match count with
  | O => c
  | S count' =>
      checksum_pages page_size (S i) count' (drop (Z.to_nat page_size) pages)
        (otsardb_checksum_accumulate c (u32 (Z.of_nat i + 1)) (take (Z.to_nat page_size) pages))
  end.

Definition otsardb_checksum_compute (pages : bytes) (page_size count : Z) : Z :=
  checksum_pages page_size 0 (Z.to_nat count) pages 0.

(** A regular file is its contents; [fread] returns what is left of them. *)
Definition fread (file : bytes) (pos n : nat) : bytes := take n (drop pos file).

Fixpoint checksum_file_loop (file : bytes) (page_size : nat) (i : nat) (count : nat) (pos : nat)
    (c : Z) : Z :=
  match count with
  | O => c
  | S count' =>
      let buf := fread file pos page_size in
      let n := length buf in
      let page := buf ++ replicate (page_size - n) 0 in
      checksum_file_loop file page_size (S i) count' (pos + n)
        (otsardb_checksum_accumulate c (u32 (Z.of_nat i + 1)) page)
  end.

Definition otsardb_checksum_file (file : bytes) (page_size page_count : Z) : Z :=
  checksum_file_loop file (Z.to_nat page_size) 0 (Z.to_nat page_count) 0 0.

Definition hex_digits : bytes := str "0123456789abcdef".

(** [n] digits, filled from the last one. *)
Fixpoint checksum_hex_loop (n : nat) (checksum : Z) (out : bytes) : bytes :=
  match n with
  | O => out
  | S n' => checksum_hex_loop n' (Z.shiftr checksum 4)
              (nth (Z.to_nat (Z.land checksum 0xF)) hex_digits 0 :: out)
  end.

Definition otsardb_checksum_hex (checksum : Z) : bytes :=
  checksum_hex_loop OTSARDB_CHECKSUM_HEX_SIZE checksum [].

Definition hex_value (c : Z) : option Z :=
  if (48 <=? c) && (c <=? 57) then Some (c - 48)
  else if (97 <=? c) && (c <=? 102) then Some (c - 97 + 10)
  else if (65 <=? c) && (c <=? 70) then Some (c - 65 + 10)
  else None.

(** A C string: reading past its end reads the NUL, which is no digit. *)
Fixpoint checksum_parse_loop (n : nat) (hex : bytes) (v : Z) : option Z :=
  match n with
  | O => match hex with [] => Some v | c :: _ => if c =? 0 then Some v else None end
  | S n' =>
      match hex with
      | [] => None
      | c :: hex' =>
          match hex_value c with
          | None => None
          | Some d => checksum_parse_loop n' hex' (Z.lor (u64 (Z.shiftl v 4)) d)
          end
      end
  end.

Definition otsardb_checksum_parse (hex : bytes) : option Z :=
  checksum_parse_loop OTSARDB_CHECKSUM_HEX_SIZE hex 0.

(** The published check value. *)
Example crc64_check_value : crc64_iso (str "123456789") = 0xb90956c775a41001.
Proof. vm_compute. reflexivity. Qed.

(** ** The checksum as an XOR of page terms *)

Definition page_term (n : Z) (page : bytes) : Z := otsardb_checksum_accumulate 0 n page.

Lemma accumulate_term c n page :
  otsardb_checksum_accumulate c n page = Z.lxor c (page_term n page).
Proof.
  unfold page_term, otsardb_checksum_accumulate. destruct (_ <? _); [by rewrite Z.lxor_0_r|].
  by rewrite Z.lxor_0_l.
Qed.

Lemma accumulate_comm c n1 p1 n2 p2 :
  otsardb_checksum_accumulate (otsardb_checksum_accumulate c n1 p1) n2 p2
  = otsardb_checksum_accumulate (otsardb_checksum_accumulate c n2 p2) n1 p1.
Proof.
  rewrite !accumulate_term, !Z.lxor_assoc. f_equal. apply Z.lxor_comm.
Qed.

(** Accumulating a page twice removes it. *)
Lemma accumulate_cancel c n page :
  otsardb_checksum_accumulate (otsardb_checksum_accumulate c n page) n page = c.
Proof. by rewrite !accumulate_term, Z.lxor_assoc, Z.lxor_nilpotent, Z.lxor_0_r. Qed.

(** The terms of consecutive pages from index [i]. *)
Fixpoint pages_xor (i : nat) (pages : list bytes) : Z :=
  match pages with
  | [] => 0
  | p :: r => Z.lxor (page_term (u32 (Z.of_nat i + 1)) p) (pages_xor (S i) r)
  end.

Lemma checksum_pages_xor ps pages : Forall (fun p => zlen p = ps) pages ->
  forall i c, checksum_pages ps i (length pages) (concat pages) c = Z.lxor c (pages_xor i pages).
Proof.
  induction 1 as [|p pages Hp _ IH]; intros i c; cbn [checksum_pages length concat pages_xor].
  - by rewrite Z.lxor_0_r.
  - rewrite take_zlen_app, drop_zlen_app, IH by done.
    by rewrite accumulate_term, Z.lxor_assoc.
Qed.

Lemma pages_xor_insert pages k i old new :
  pages !! k = Some old ->
  pages_xor i (<[k := new]> pages)
  = Z.lxor (Z.lxor (pages_xor i pages) (page_term (u32 (Z.of_nat (i + k) + 1)) old))
           (page_term (u32 (Z.of_nat (i + k) + 1)) new).
Proof.
  revert k i. induction pages as [|p pages IH]; intros k i Hk; [done|].
  destruct k as [|k]; cbn in Hk.
  - simplify_eq. cbn. rewrite Nat.add_0_r.
    rewrite (Z.lxor_comm (page_term _ old)), (Z.lxor_assoc (pages_xor _ _)).
    by rewrite Z.lxor_nilpotent, Z.lxor_0_r, Z.lxor_comm.
  - change (<[S k := new]> (p :: pages)) with (p :: <[k := new]> pages). cbn [pages_xor].
    rewrite (IH k (S i) Hk). replace (S i + k)%nat with (i + S k)%nat by lia.
    by rewrite !Z.lxor_assoc.
Qed.

(** ** Bounds *)

Lemma crc64_bit_bound c : 0 <= c < 2 ^ 64 -> 0 <= crc64_bit c < 2 ^ 64.
Proof.
  intros Hc. unfold crc64_bit. pose proof (shiftr_bound 64 1 c ltac:(lia) Hc).
  apply lxor_bound; [lia|done|destruct (Z.odd c); lia].
Qed.

Lemma crc64_byte_bound c b : 0 <= c < 2 ^ 64 -> byte_ok b -> 0 <= crc64_byte c b < 2 ^ 64.
Proof.
  intros Hc Hb. unfold crc64_byte. apply Nat.iter_invariant; [apply crc64_bit_bound|].
  apply lxor_bound; [lia|done|unfold byte_ok in Hb; lia].
Qed.

Lemma crc64_bound data : bytes_ok data -> is_u64 (crc64_iso data).
Proof.
  intros Hd. unfold crc64_iso, is_u64, UINT64_MAX.
  enough (forall c, 0 <= c < 2 ^ 64 -> 0 <= foldl crc64_byte c data < 2 ^ 64) as Hb
    by (specialize (Hb 0xFFFFFFFFFFFFFFFF ltac:(lia)); lia).
  induction Hd as [|b data Hb _ IH]; intros c Hc; [done|]. cbn. apply IH. by apply crc64_byte_bound.
Qed.

Lemma put_be_ok n v : bytes_ok (put_be n v).
Proof.
  induction n as [|n IH]; [constructor|]. cbn [put_be]. constructor; [|done].
  rewrite land_255. apply Z.mod_pos_bound. lia.
Qed.

Lemma page_term_bound n page : bytes_ok page -> is_u64 (page_term n page).
Proof.
  intros Hp. unfold page_term, otsardb_checksum_accumulate.
  destruct (_ <? _); [done|]. rewrite Z.lxor_0_l. apply crc64_bound, bytes_ok_app.
  split; [apply put_be_ok|done].
Qed.

Lemma pages_xor_bound pages i : Forall bytes_ok pages -> is_u64 (pages_xor i pages).
Proof.
  intros H. revert i. induction H as [|p pages Hp _ IH]; intros i; [done|]. cbn [pages_xor].
  pose proof (page_term_bound (u32 (Z.of_nat i + 1)) p Hp). specialize (IH (S i)).
  unfold is_u64, UINT64_MAX in *.
  pose proof (lxor_bound 64 (page_term (u32 (Z.of_nat i + 1)) p) (pages_xor (S i) pages)). lia.
Qed.

(** ** Hex *)

Lemma hex_value_digit d : 0 <= d < 16 -> hex_value (nth (Z.to_nat d) hex_digits 0) = Some d.
Proof.
  intros Hd. assert (d = 0 \/ d = 1 \/ d = 2 \/ d = 3 \/ d = 4 \/ d = 5 \/ d = 6 \/ d = 7 \/
    d = 8 \/ d = 9 \/ d = 10 \/ d = 11 \/ d = 12 \/ d = 13 \/ d = 14 \/ d = 15) as Hc by lia.
  repeat (destruct Hc as [-> |Hc]; [vm_compute; reflexivity|]). by subst.
Qed.

Lemma checksum_hex_loop_app n v out : checksum_hex_loop n v out = checksum_hex_loop n v [] ++ out.
Proof.
  revert v out. induction n as [|n IH]; intros v out; [done|]. cbn [checksum_hex_loop].
  rewrite IH, (IH _ [_]), <- app_assoc. done.
Qed.

Lemma parse_loop_hex n m v acc rest :
  0 <= v < 16 ^ Z.of_nat n -> 0 <= acc -> (acc + 1) * 16 ^ Z.of_nat n <= 2 ^ 64 ->
  checksum_parse_loop (n + m) (checksum_hex_loop n v [] ++ rest) acc
  = checksum_parse_loop m rest (acc * 16 ^ Z.of_nat n + v).
Proof.
  revert v m rest. induction n as [|n IH]; intros v m rest Hv Hacc Hcap.
  - cbn in *. f_equal. lia.
  - rewrite Nat2Z.inj_succ, Z.pow_succ_r in * by lia.
    cbn [checksum_hex_loop]. rewrite checksum_hex_loop_app, <- app_assoc.
    replace (S n + m)%nat with (n + S m)%nat by lia.
    rewrite Z.shiftr_div_pow2 by lia. change (2 ^ 4) with 16.
    assert (0 <= v / 16 < 16 ^ Z.of_nat n) as Hq.
    { split; [apply Z.div_pos; lia|]. apply Z.div_lt_upper_bound; lia. }
    rewrite IH; [|done|done|nia].
    cbn [app checksum_parse_loop]. change 15 with (Z.ones 4). rewrite Z.land_ones by lia.
    change (2 ^ 4) with 16. pose proof (Z.mod_pos_bound v 16 ltac:(lia)).
    rewrite hex_value_digit by done. f_equal.
    set (a := acc * 16 ^ Z.of_nat n + v / 16).
    assert (0 <= a /\ a * 16 < 2 ^ 64) as [Ha1 Ha2] by (unfold a; nia).
    rewrite Z.shiftl_mul_pow2 by lia. change (2 ^ 4) with 16.
    unfold u64. rewrite (Z.mod_small (a * 16)) by lia.
    rewrite <- (Z.lxor_lor), <- Z.add_nocarry_lxor by (by apply land_nibble_shifted).
    unfold a. pose proof (Z.div_mod v 16 ltac:(lia)). nia.
Qed.

(** A checksum survives printing and parsing: every 64-bit value is read
    back from the sixteen digits printed for it. *)
Theorem checksum_hex_roundtrip (v : Z) :
  is_u64 v -> otsardb_checksum_parse (otsardb_checksum_hex v) = Some v.
Proof.
  unfold is_u64, UINT64_MAX. intros Hv. unfold otsardb_checksum_parse, otsardb_checksum_hex.
  rewrite <- (app_nil_r (checksum_hex_loop _ v [])).
  change OTSARDB_CHECKSUM_HEX_SIZE with (16 + 0)%nat at 1.
  rewrite parse_loop_hex; [done|unfold OTSARDB_CHECKSUM_HEX_SIZE; lia..].
Qed.

Lemma checksum_hex_roundtrip_witness :
  otsardb_checksum_parse (otsardb_checksum_hex 0xb90956c775a41001) = Some 0xb90956c775a41001.
Proof. apply checksum_hex_roundtrip. split; vm_compute; discriminate. Defined.

(** The rolling update is exact: the checksum of a database in which page
    [k + 1] was rewritten is the old checksum with the old image accumulated
    out and the new image accumulated in; no other page is read. *)
Theorem checksum_incremental_update (ps : Z) (pages : list bytes) (k : nat) (old new : bytes) :
  Forall (fun p => zlen p = ps) pages -> zlen new = ps -> pages !! k = Some old ->
  zlen pages <= UINT32_MAX ->
  otsardb_checksum_compute (concat (<[k := new]> pages)) ps (zlen pages)
  = otsardb_checksum_accumulate
      (otsardb_checksum_accumulate (otsardb_checksum_compute (concat pages) ps (zlen pages))
         (Z.of_nat k + 1) old)
      (Z.of_nat k + 1) new.
Proof.
  intros Hp Hnew Hk Hn. unfold otsardb_checksum_compute.
  replace (Z.to_nat (zlen pages)) with (length pages) by (unfold zlen; lia).
  rewrite checksum_pages_xor by done.
  rewrite <- (length_insert pages k new) at 1.
  rewrite checksum_pages_xor by (by apply Forall_insert).
  rewrite (pages_xor_insert _ _ _ old) by done. rewrite !accumulate_term, !Z.lxor_0_l. cbn.
  apply lookup_lt_Some in Hk. unfold u32, zlen, UINT32_MAX in *. by rewrite Z.mod_small by lia.
Qed.

Lemma checksum_incremental_update_witness :
  otsardb_checksum_compute (concat (<[1%nat := [7; 8]]> [[1; 2]; [3; 4]; [5; 6]])) 2 3
  = otsardb_checksum_accumulate
      (otsardb_checksum_accumulate
         (otsardb_checksum_compute (concat [[1; 2]; [3; 4]; [5; 6]]) 2 3) 2 [3; 4]) 2 [7; 8].
Proof.
  apply (checksum_incremental_update 2 [[1; 2]; [3; 4]; [5; 6]] 1 [3; 4] [7; 8]).
  - repeat constructor.
  - reflexivity.
  - reflexivity.
  - vm_compute. discriminate.
Defined.

(** The file padded with zeros to [n] bytes. *)
Definition zero_extend (file : bytes) (n : nat) : bytes := file ++ replicate (n - length file) 0.

Lemma checksum_file_loop_eq file ps count : forall i pos c,
  (pos <= length file)%nat ->
  checksum_file_loop file ps i count pos c
  = checksum_pages (Z.of_nat ps) i count
      (zero_extend (drop pos file) (count * ps)) c.
Proof.
  induction count as [|count IH]; intros i pos c Hpos; [done|].
  cbn [checksum_file_loop checksum_pages].
  unfold fread. rewrite length_take, length_drop. set (n := (ps `min` (length file - pos))%nat).
  rewrite Nat2Z.id, IH by (subst n; lia).
  assert (take ps (zero_extend (drop pos file) (S count * ps))
          = take ps (drop pos file) ++ replicate (ps - n) 0) as ->.
  { unfold zero_extend. rewrite take_app, length_drop. f_equal. rewrite take_replicate. f_equal.
    subst n. lia. }
  f_equal. unfold zero_extend. rewrite drop_app, drop_drop, !length_drop, drop_replicate.
  f_equal; [|f_equal; subst n; lia].
  destruct (Nat.le_ge_cases ps (length file - pos)); subst n; [f_equal; lia|].
  rewrite !drop_ge by lia. done.
Qed.

(** The recovery-time checksum of a database file equals the in-memory
    checksum of the same pages; a file shorter than [page_count] pages counts
    as zero-filled. *)
Theorem checksum_file_zero_fills (file : bytes) (page_size page_count : Z) :
  0 <= page_size -> 0 <= page_count ->
  otsardb_checksum_file file page_size page_count
  = otsardb_checksum_compute
      (zero_extend file (Z.to_nat page_count * Z.to_nat page_size)) page_size page_count.
Proof.
  intros Hps Hpc. unfold otsardb_checksum_file, otsardb_checksum_compute.
  rewrite checksum_file_loop_eq by lia. by rewrite drop_0, Z2Nat.id.
Qed.

Lemma checksum_file_zero_fills_witness :
  otsardb_checksum_file [1; 2; 3] 2 2 = otsardb_checksum_compute [1; 2; 3; 0] 2 2.
Proof. apply (checksum_file_zero_fills [1; 2; 3] 2 2); lia. Defined.
