(* ===== verification/CheckpointPage.v ===== *)
(** * Checkpoint page objects (checkpoint_page.c)

    A checkpoint page object holds page images: a 32-byte header and one
    variable-size record per page (page number, flags, stored size, bytes). *)

From S2P Require Import Prelude Codec.

Definition OTSARDB_CHECKPOINT_PAGE_FORMAT_VERSION : Z := 1.
Definition OTSARDB_CHECKPOINT_PAGE_FLAG_LZ4 : Z := 1.
Definition OTSARDB_CP_HEADER_SIZE : Z := 32.

(** Seven letters in an array of eight: the last byte is zero. *)
Definition OTSARDB_CP_MAGIC : bytes := str "ARKCP01" ++ [0].

(** [cp_data] points at the first record. *)
Record otsardb_checkpoint_page_view := mkCheckpointPageView {
  cp_format_version : Z;
  cp_page_size : Z;
  cp_database_size_pages : Z;
  cp_page_count : Z;
  cp_data : bytes;
  cp_size : Z
}.

Definition cp_header (page_size database_size_pages page_count : Z) : bytes :=
  OTSARDB_CP_MAGIC ++ put_u32_le OTSARDB_CHECKPOINT_PAGE_FORMAT_VERSION ++
  put_u32_le page_size ++ put_u64_le database_size_pages ++ put_u32_le page_count ++
  put_u32_le 0.

Definition cp_record (page_no stored_size : Z) (page : bytes) : bytes :=
  put_u32_le page_no ++ put_u32_le 0 ++ put_u32_le stored_size ++ page.

(** The record loop; [pages] is the cursor into the concatenated images. *)
Fixpoint cp_records (page_size : Z) (page_nos : list Z) (pages : bytes) : bytes :=
  match page_nos with
  | [] => []
  | n :: rest => cp_record n page_size (take (Z.to_nat page_size) pages) ++
                 cp_records page_size rest (drop (Z.to_nat page_size) pages)
  end.

(** [page_count] is the length of [page_nos]. *)
Definition otsardb_checkpoint_page_encode (page_size database_size_pages : Z)
    (page_nos : list Z) (pages : bytes) : option bytes :=
  let page_count := zlen page_nos in
  if (page_size =? 0) || (page_count =? 0) then None
  else if existsb (fun n => (n =? 0) || (database_size_pages <? n)) page_nos then None
  else
    let per_record := 12 + page_size in
    if SIZE_MAX / page_count <? per_record then None
    else if SIZE_MAX - per_record * page_count <? OTSARDB_CP_HEADER_SIZE then None
    else Some (cp_header page_size database_size_pages page_count ++
               cp_records page_size page_nos pages).

(** The validation loop: position, expected size and greatest page number. *)
Fixpoint cp_check_records (data : bytes) (size : Z) (count : nat) (pos expected_size max_page_no : Z)
  : option (Z * Z) :=
  match count with
  | O => Some (expected_size, max_page_no)
  | S count' =>
      if size <? pos + 12 then None
      else
        let p := drop (Z.to_nat pos) data in
        let page_no := get_u32_le p in
        let stored_size := get_u32_le (drop 8 p) in
        let max_page_no := if max_page_no <? page_no then page_no else max_page_no in
        if SIZE_MAX - 12 <? stored_size then None
        else if SIZE_MAX - 12 - stored_size <? expected_size then None
        else if size <? pos + 12 + stored_size then None
        else cp_check_records data size count' (pos + 12 + stored_size)
               (expected_size + (12 + stored_size)) max_page_no
  end.

Definition otsardb_checkpoint_page_decode (data : bytes) : option otsardb_checkpoint_page_view :=
  let size := zlen data in
  if size <? OTSARDB_CP_HEADER_SIZE then None
  else if negb (bytes_eqb (take 8 data) OTSARDB_CP_MAGIC) then None
  else
    let format_version := get_u32_le (drop 8 data) in
    if negb (format_version =? OTSARDB_CHECKPOINT_PAGE_FORMAT_VERSION) then None
    else
      let page_size := get_u32_le (drop 12 data) in
      if page_size =? 0 then None
      else
        let database_size_pages := get_u64_le (drop 16 data) in
        let page_count := get_u32_le (drop 24 data) in
        if page_count =? 0 then None
        else match cp_check_records data size (Z.to_nat page_count) OTSARDB_CP_HEADER_SIZE
                     OTSARDB_CP_HEADER_SIZE 0 with
             | None => None
             | Some (expected_size, max_page_no) =>
                 if negb (size =? expected_size) then None
                 else if (max_page_no =? 0) || (database_size_pages <? max_page_no) then None
                 else Some (mkCheckpointPageView format_version page_size database_size_pages
                              page_count (drop 32 data) size)
             end.

(** Walk to record [index]: page number, compressed flag, stored bytes. *)
Fixpoint cp_frame_walk (p : bytes) (index : nat) : Z * bool * bytes :=
  let stored_size := get_u32_le (drop 8 p) in
  match index with
  | O => (get_u32_le p,
          negb (Z.land (get_u32_le (drop 4 p)) OTSARDB_CHECKPOINT_PAGE_FLAG_LZ4 =? 0),
          take (Z.to_nat stored_size) (drop 12 p))
  | S index' => cp_frame_walk (drop (Z.to_nat (12 + stored_size)) p) index'
  end.

Definition otsardb_checkpoint_page_frame (view : otsardb_checkpoint_page_view) (index : Z)
  : option (Z * bool * bytes) :=
  if cp_page_count view <=? index then None
  else Some (cp_frame_walk (cp_data view) (Z.to_nat index)).

(** ** Correctness *)

(** Pages an encoder call may carry. *)
Definition cp_page_ok (ps db : Z) (f : Z * bytes) : Prop :=
  0 < f.1 <= UINT32_MAX /\ f.1 <= db /\ zlen f.2 = ps.

Definition cp_ok (ps db : Z) (pages : list (Z * bytes)) : Prop :=
  0 < ps <= UINT32_MAX - 12 /\ 0 < db <= UINT64_MAX /\ 0 < zlen pages <= 2 ^ 31 /\
  Forall (cp_page_ok ps db) pages.

Definition cp_rec (ps : Z) (f : Z * bytes) : bytes := cp_record f.1 ps f.2.
Definition cp_recs (ps : Z) (pages : list (Z * bytes)) : bytes := concat (cp_rec ps <$> pages).

Section CheckpointPage.
Context (ps db : Z) (Hps : 0 < ps <= UINT32_MAX - 12).

Lemma zlen_cp_rec f : cp_page_ok ps db f -> zlen (cp_rec ps f) = 12 + ps.
Proof. intros (_ & _ & H). unfold cp_rec, cp_record. autorewrite with zlen. lia. Qed.

Lemma zlen_cp_recs pages :
  Forall (cp_page_ok ps db) pages -> zlen (cp_recs ps pages) = zlen pages * (12 + ps).
Proof.
  induction 1 as [|f pages Hf _ IH]; [done|]. unfold cp_recs in *. cbn [fmap list_fmap concat].
  autorewrite with zlen. rewrite zlen_cp_rec, IH by done. lia.
Qed.

Lemma cp_records_concat pages :
  Forall (cp_page_ok ps db) pages ->
  cp_records ps pages.*1 (concat pages.*2) = cp_recs ps pages.
Proof.
  induction 1 as [|f pages Hf _ IH]; [done|]. cbn [fmap list_fmap concat cp_records].
  destruct Hf as (_ & _ & Hl). rewrite take_zlen_app, drop_zlen_app, IH by done. done.
Qed.

Lemma cp_rec_fields f r : cp_page_ok ps db f ->
  let p := cp_rec ps f ++ r in
  get_u32_le p = f.1 /\ get_u32_le (drop 4 p) = 0 /\ get_u32_le (drop 8 p) = ps /\
  drop 12 p = f.2 ++ r.
Proof.
  intros (Hn & _ & _) p. subst p. unfold cp_rec, cp_record. rewrite <- !app_assoc.
  unfold UINT32_MAX in *.
  split_and!; at_field; try apply get_put_u32; unfold is_u32, UINT32_MAX; try lia; done.
Qed.

Lemma cp_frame_walk_lookup pages i f :
  Forall (cp_page_ok ps db) pages -> pages !! i = Some f ->
  cp_frame_walk (cp_recs ps pages) i = (f.1, false, f.2).
Proof.
  intros H. revert i. induction H as [|g pages Hg _ IH]; intros i Hi; [done|].
  unfold cp_recs. cbn [fmap list_fmap concat]. fold (cp_recs ps pages).
  destruct (cp_rec_fields g (cp_recs ps pages) Hg) as (E0 & E4 & E8 & E12).
  destruct i as [|i]; cbn in Hi; unfold cp_frame_walk; fold cp_frame_walk; rewrite E8.
  - simplify_eq. rewrite E0, E4, E12. destruct Hg as (_ & _ & Hl).
    by rewrite take_zlen_app.
  - rewrite drop_zlen_app by (by apply zlen_cp_rec). by apply IH.
Qed.

Lemma cp_check_records_ok pages pre ex mx :
  Forall (cp_page_ok ps db) pages -> 0 <= ex -> 0 <= mx <= db ->
  zlen pre + zlen pages * (12 + ps) <= UINT64_MAX ->
  ex + zlen pages * (12 + ps) <= UINT64_MAX ->
  exists mx',
    cp_check_records (pre ++ cp_recs ps pages) (zlen pre + zlen pages * (12 + ps))
      (length pages) (zlen pre) ex mx = Some (ex + zlen pages * (12 + ps), mx') /\
    mx <= mx' <= db /\ (pages <> [] -> 0 < mx').
Proof.
  intros H. revert pre ex mx. induction H as [|f pages Hf Hall IH]; intros pre ex mx Hex Hmx Hc1 Hc2.
  - exists mx. change (zlen (@nil (Z * bytes))) with 0. rewrite Z.mul_0_l, !Z.add_0_r. cbn. split_and!; done || lia.
  - rewrite zlen_cons in *. cbn [length cp_check_records].
    unfold cp_recs. cbn [fmap list_fmap concat]. fold (cp_recs ps pages).
    rewrite drop_zlen_app by done.
    destruct (cp_rec_fields f (cp_recs ps pages) Hf) as (E0 & _ & E8 & _).
    rewrite E0, E8. destruct Hf as (Hn & Hdb & Hl). pose proof (zlen_nonneg pages).
    pose proof (zlen_nonneg pre). unfold UINT32_MAX, SIZE_MAX, UINT64_MAX in *.
    destruct (Z.ltb_spec (zlen pre + (1 + zlen pages) * (12 + ps)) (zlen pre + 12)); [nia|].
    destruct (Z.ltb_spec (2 ^ 64 - 1 - 12) ps); [lia|].
    destruct (Z.ltb_spec (2 ^ 64 - 1 - 12 - ps) ex); [nia|].
    destruct (Z.ltb_spec (zlen pre + (1 + zlen pages) * (12 + ps)) (zlen pre + 12 + ps)); [nia|].
    set (m := if mx <? f.1 then f.1 else mx).
    assert (mx <= m <= db /\ 0 < m) as [Hm1 Hm2]
      by (unfold m; destruct (Z.ltb_spec mx f.1); lia).
    destruct (IH (pre ++ cp_rec ps f) (ex + (12 + ps)) m) as (mx' & Hr & Hb & _); [lia|lia| | |].
    { rewrite zlen_app, zlen_cp_rec by done. nia. }
    { nia. }
    exists mx'. rewrite zlen_app, zlen_cp_rec, <- app_assoc in Hr by done.
    replace (zlen pre + 12 + ps) with (zlen pre + (12 + ps)) by lia.
    replace (zlen pre + (1 + zlen pages) * (12 + ps))
      with (zlen pre + (12 + ps) + zlen pages * (12 + ps)) by lia.
    rewrite Hr. split_and!; [f_equal; f_equal; lia|lia..].
Qed.

Lemma cp_header_fields n r : is_u64 db -> is_u32 n ->
  let data := cp_header ps db n ++ r in
  take 8 data = OTSARDB_CP_MAGIC /\ get_u32_le (drop 8 data) = 1 /\
  get_u32_le (drop 12 data) = ps /\ get_u64_le (drop 16 data) = db /\
  get_u32_le (drop 24 data) = n /\ drop 32 data = r.
Proof.
  intros Hdb Hn data. subst data. unfold cp_header. rewrite <- !app_assoc.
  split_and!; [by apply take_app_exact|..]; at_field; auto using get_put_u32, get_put_u64.
  apply get_put_u32. unfold is_u32, UINT32_MAX in *. lia.
Qed.

Lemma zlen_cp_header n : zlen (cp_header ps db n) = 32.
Proof. unfold cp_header. autorewrite with zlen. reflexivity. Qed.
End CheckpointPage.

(** The encoder's output, its size, and what the reader makes of it. *)
Lemma cp_encoded_reads (ps db : Z) (pages : list (Z * bytes)) :
  cp_ok ps db pages ->
  exists data view,
    otsardb_checkpoint_page_encode ps db pages.*1 (concat pages.*2) = Some data /\
    zlen data = OTSARDB_CP_HEADER_SIZE + zlen pages * (12 + ps) /\
    otsardb_checkpoint_page_decode data = Some view /\
    cp_page_size view = ps /\ cp_database_size_pages view = db /\
    cp_page_count view = zlen pages /\
    forall i f, pages !! i = Some f ->
      otsardb_checkpoint_page_frame view (Z.of_nat i) = Some (f.1, false, f.2).
Proof.
  intros (Hps & Hdb & Hn & Hall). unfold UINT32_MAX, UINT64_MAX in *.
  assert (zlen pages * (12 + ps) <= 2 ^ 63) by nia.
  destruct (cp_header_fields ps db Hps (zlen pages) (cp_recs ps pages))
    as (E0 & E8 & E12 & E16 & E24 & E32); [unfold is_u64, is_u32, UINT32_MAX, UINT64_MAX; lia..|].
  destruct (cp_check_records_ok ps db Hps pages (cp_header ps db (zlen pages)) 32 0 Hall)
    as (mx & Hck & Hmx & Hmx0); [lia|lia|rewrite zlen_cp_header; unfold UINT64_MAX; lia
      |unfold UINT64_MAX; lia|].
  rewrite zlen_cp_header in Hck.
  exists (cp_header ps db (zlen pages) ++ cp_recs ps pages), (mkCheckpointPageView 1 ps db
    (zlen pages) (cp_recs ps pages) (32 + zlen pages * (12 + ps))).
  split_and!; [|by rewrite zlen_app, zlen_cp_header, (zlen_cp_recs ps db)| |done|done|done|].
  - unfold otsardb_checkpoint_page_encode.
    replace (zlen pages.*1) with (zlen pages) by (unfold zlen; by rewrite length_fmap).
    destruct (Z.eqb_spec ps 0); [lia|]. destruct (Z.eqb_spec (zlen pages) 0); [lia|]. cbn [orb].
    replace (existsb _ pages.*1) with false.
    2:{ symmetry. apply not_true_is_false. intros (n' & Hin & Hb)%existsb_exists.
        apply list_elem_of_In, list_elem_of_fmap in Hin as (f & -> & Hin).
        rewrite list.Forall_forall in Hall. destruct (Hall f Hin) as (? & ? & _).
        apply orb_true_iff in Hb as [Hb|Hb]; prop_bools; lia. }
    rewrite (cp_records_concat ps db) by done.
    unfold SIZE_MAX, UINT64_MAX, OTSARDB_CP_HEADER_SIZE.
    destruct (Z.ltb_spec ((2 ^ 64 - 1) / zlen pages) (12 + ps)) as [Hlt|_].
    { exfalso. assert (12 + ps <= (2 ^ 64 - 1) / zlen pages); [apply Z.div_le_lower_bound; nia|lia]. }
    destruct (Z.ltb_spec (2 ^ 64 - 1 - (12 + ps) * zlen pages) 32); [nia|done].
  - unfold otsardb_checkpoint_page_decode. rewrite E0, E8, E12, E16, E24, E32.
    rewrite zlen_app, zlen_cp_header, (zlen_cp_recs ps db), bytes_eqb_refl by done.
    unfold OTSARDB_CP_HEADER_SIZE.
    replace (Z.to_nat (zlen pages)) with (length pages) by (unfold zlen; lia). rewrite Hck.
    destruct (Z.ltb_spec (32 + zlen pages * (12 + ps)) 32); [nia|].
    destruct (Z.eqb_spec ps 0); [lia|]. destruct (Z.eqb_spec (zlen pages) 0); [lia|].
    rewrite Z.eqb_refl. cbn [negb orb Z.eqb Pos.eqb OTSARDB_CHECKPOINT_PAGE_FORMAT_VERSION].
    destruct (Z.eqb_spec mx 0).
    { destruct pages; [done|]. specialize (Hmx0 ltac:(done)). lia. }
    destruct (Z.ltb_spec db mx); [lia|]. by rewrite Z.eqb_refl.
  - intros i f Hi. unfold otsardb_checkpoint_page_frame. cbn [cp_page_count cp_data].
    apply lookup_lt_Some in Hi as Hlt.
    destruct (Z.leb_spec (zlen pages) (Z.of_nat i)); [unfold zlen in *; lia|].
    rewrite Nat2Z.id. by rewrite (cp_frame_walk_lookup ps db Hps pages i f).
Qed.

(** Checkpoint pages survive their encoding: the encoder accepts every set
    of pages within bounds, the decoder accepts the bytes with the same page
    size, database size and count, and record [i] is page [i], uncompressed. *)
Theorem checkpoint_page_roundtrip (ps db : Z) (pages : list (Z * bytes)) :
  cp_ok ps db pages ->
  exists data view,
    otsardb_checkpoint_page_encode ps db pages.*1 (concat pages.*2) = Some data /\
    otsardb_checkpoint_page_decode data = Some view /\
    cp_page_size view = ps /\ cp_database_size_pages view = db /\
    cp_page_count view = zlen pages /\
    forall i f, pages !! i = Some f ->
      otsardb_checkpoint_page_frame view (Z.of_nat i) = Some (f.1, false, f.2).
Proof.
  intros Hok. destruct (cp_encoded_reads ps db pages Hok) as (data & view & He & _ & Hd & Hr).
  by exists data, view.
Qed.

Lemma checkpoint_page_roundtrip_witness :
  exists data view,
    otsardb_checkpoint_page_encode 4 9 [2; 9] (concat [[1; 2; 3; 4]; [5; 6; 7; 8]]) = Some data /\
    otsardb_checkpoint_page_decode data = Some view /\
    otsardb_checkpoint_page_frame view (Z.of_nat 1) = Some (9, false, [5; 6; 7; 8]).
Proof.
  destruct (checkpoint_page_roundtrip 4 9 [(2, [1; 2; 3; 4]); (9, [5; 6; 7; 8])])
    as (data & view & H1 & H2 & _ & _ & _ & H3).
  - unfold cp_ok, UINT32_MAX, UINT64_MAX, zlen. cbn [length].
    split_and!; [lia..|]. repeat constructor; vm_compute; done.
  - exists data, view. exact (conj H1 (conj H2 (H3 1%nat _ eq_refl))).
Defined.

(** The start of record [i]: the sum of the sizes of the records before it. *)
Fixpoint cp_offset (p : bytes) (i : nat) : Z :=
  match i with
  | O => 0
  | S i' => let d := 12 + get_u32_le (drop 8 p) in d + cp_offset (drop (Z.to_nat d) p) i'
  end.

Lemma cp_check_records_bounds data size count : forall pos ex mx ex' mx',
  bytes_ok data -> 0 <= pos ->
  cp_check_records data size count pos ex mx = Some (ex', mx') ->
  (forall i, (i < count)%nat ->
     0 <= cp_offset (drop (Z.to_nat pos) data) i /\
     pos + cp_offset (drop (Z.to_nat pos) data) (S i) <= size /\
     cp_offset (drop (Z.to_nat pos) data) i + 12
       <= cp_offset (drop (Z.to_nat pos) data) (S i)) /\
  ex' = ex + cp_offset (drop (Z.to_nat pos) data) count.
Proof.
  induction count as [|count IH]; intros pos ex mx ex' mx' Hd Hpos Hc; cbn [cp_check_records] in Hc.
  { simplify_eq. split; [lia|]. cbn. lia. }
  repeat (case_if_in Hc; [done|]). prop_bools.
  set (p := drop (Z.to_nat pos) data) in *. set (st := get_u32_le (drop 8 p)) in *.
  assert (0 <= st).
  { unfold st. apply get_u32_is. unfold bytes_ok, p. by do 2 apply Forall_drop. }
  apply IH in Hc as [Hin ->]; [|done|lia].
  assert (drop (Z.to_nat (pos + 12 + st)) data = drop (Z.to_nat (12 + st)) p) as Ed.
  { unfold p. rewrite drop_drop. f_equal. lia. }
  rewrite Ed in *. split.
  - intros [|i] Hi.
    + cbn. fold st. lia.
    + specialize (Hin i ltac:(lia)). cbn [cp_offset]. fold st.
      cbn [cp_offset] in Hin. lia.
  - cbn [cp_offset]. fold st. lia.
Qed.

(** Bounds of the checkpoint page reader: whatever bytes the decoder
    accepts, the walk to any record below the decoded count stays inside the
    buffer (header and stored bytes of the record included), and the last
    record ends exactly at the end of the buffer. *)
Theorem checkpoint_page_records_in_bounds (data : bytes) (view : otsardb_checkpoint_page_view)
    (i : nat) :
  bytes_ok data -> otsardb_checkpoint_page_decode data = Some view ->
  Z.of_nat i < cp_page_count view ->
  let off := cp_offset (cp_data view) in
  0 <= off i /\ off i + 12 <= off (S i) /\
  OTSARDB_CP_HEADER_SIZE + off (S i) <= zlen data /\
  OTSARDB_CP_HEADER_SIZE + off (Z.to_nat (cp_page_count view)) = zlen data.
Proof.
  intros Hd Hdec Hi. unfold otsardb_checkpoint_page_decode in Hdec.
  repeat (case_if_in Hdec; [done|]). case_match eqn:Hck; [|done]. case_match.
  repeat (case_if_in Hdec; [done|]). prop_bools. simplify_eq. cbn [cp_page_count cp_data] in *.
  apply cp_check_records_bounds in Hck as [Hin Hex]; [|done|done].
  change (Z.to_nat OTSARDB_CP_HEADER_SIZE) with 32%nat in *.
  specialize (Hin i ltac:(lia)). cbv zeta. lia.
Qed.

Definition sample_cp : bytes :=
  cp_header 4 9 2 ++ cp_record 2 4 [1; 2; 3; 4] ++ cp_record 9 4 [5; 6; 7; 8].

Lemma checkpoint_page_records_in_bounds_witness :
  OTSARDB_CP_HEADER_SIZE + cp_offset (drop 32 sample_cp) 2 <= zlen sample_cp.
Proof.
  apply (checkpoint_page_records_in_bounds sample_cp
           (mkCheckpointPageView 1 4 9 2 (drop 32 sample_cp) 64) 1).
  - vm_compute. repeat constructor; done.
  - vm_compute. reflexivity.
  - vm_compute. reflexivity.
Defined.
