(* ===== verification/SqliteWal.v ===== *)
(** * The SQLite WAL scanner (sqlite_wal.c)

    The scanner reads frames from the cursor on, checks their salts and the
    cumulative checksum, collects frame references, and hands each complete
    transaction to a callback; the cursor moves over commit frames only. *)

From S2P Require Import Prelude Codec WalBatch.

Definition OTSARDB_SQLITE_WAL_HEADER_SIZE : Z := 32.
Definition OTSARDB_SQLITE_WAL_FRAME_HEADER_SIZE : Z := 24.
Definition OTSARDB_SQLITE_WAL_MAGIC_LE : Z := 0x377f0682.
Definition OTSARDB_SQLITE_WAL_MAGIC_BE : Z := 0x377f0683.

Record otsardb_sqlite_wal_frame_ref := mkFrameRef { fr_page_no : Z; fr_frame_offset : Z }.

Record otsardb_sqlite_wal_header := mkWalHeader {
  wh_page_size : Z;
  wh_salt1 : Z;
  wh_salt2 : Z;
  wh_checksum0 : Z;
  wh_checksum1 : Z;
  wh_checksum_big_endian : bool
}.

Record otsardb_sqlite_wal_cursor := mkWalCursor {
  wc_header : otsardb_sqlite_wal_header;
  wc_frame_count : Z;
  wc_checksum0 : Z;
  wc_checksum1 : Z
}.

Record otsardb_sqlite_wal_scan_result := mkScanResult {
  sr_page_size : Z;
  sr_salt1 : Z;
  sr_salt2 : Z;
  sr_valid_frames : Z;
  sr_committed_frames : Z;
  sr_commit_count : Z;
  sr_bytes_read : Z
}.

Definition scan_result_zero : otsardb_sqlite_wal_scan_result := mkScanResult 0 0 0 0 0 0 0.

(** [read_at offset size] returns exactly [size] bytes or fails. *)
Definition otsardb_sqlite_wal_read_at : Type := Z -> Z -> option bytes.

(** The callback: page size, database size and frame references of one
    transaction; it may change its context, and fails with a non-zero value. *)
Definition otsardb_sqlite_wal_commit_callback (C : Type) : Type :=
  Z -> Z -> list otsardb_sqlite_wal_frame_ref -> C -> Z * C.

Definition read_checksum_word (p : bytes) (big_endian : bool) : Z :=
  if big_endian then read_u32_be p
  else Z.lor (Z.lor (Z.lor (nth 0 p 0) (Z.shiftl (nth 1 p 0) 8)) (Z.shiftl (nth 2 p 0) 16))
             (Z.shiftl (nth 3 p 0) 24).

(** [n] steps of 8 bytes. *)
Fixpoint checksum_steps (n : nat) (data : bytes) (big_endian : bool) (s : Z * Z) : Z * Z :=
  match n with
  | O => s
  | S n' =>
      let first := read_checksum_word data big_endian in
      let second := read_checksum_word (drop 4 data) big_endian in
      let s0 := u32 (s.1 + u32 (first + s.2)) in
      let s1 := u32 (s.2 + u32 (second + s0)) in
      checksum_steps n' (drop 8 data) big_endian (s0, s1)
  end.

(** [for (i = 0; i < size; i += 8)] *)
Definition checksum_bytes (data : bytes) (size : Z) (big_endian : bool) (s : Z * Z) : Z * Z :=
  checksum_steps (Z.to_nat ((size + 7) / 8)) data big_endian s.

Definition otsardb_sqlite_wal_read_header (read_at : otsardb_sqlite_wal_read_at) (wal_size : Z)
  : option otsardb_sqlite_wal_header :=
  if wal_size <? OTSARDB_SQLITE_WAL_HEADER_SIZE then None
  else match read_at 0 OTSARDB_SQLITE_WAL_HEADER_SIZE with
  | None => None
  | Some wal =>
      let magic := read_u32_be wal in
      if negb (magic =? OTSARDB_SQLITE_WAL_MAGIC_LE) && negb (magic =? OTSARDB_SQLITE_WAL_MAGIC_BE)
      then None
      else
        let checksum_big_endian := magic =? OTSARDB_SQLITE_WAL_MAGIC_BE in
        let page_size := read_u32_be (drop 8 wal) in
        if negb (valid_page_size page_size) then None
        else
          let '(checksum0, checksum1) := checksum_bytes wal 24 checksum_big_endian (0, 0) in
          if negb (checksum0 =? read_u32_be (drop 24 wal)) ||
             negb (checksum1 =? read_u32_be (drop 28 wal)) then None
          else Some (mkWalHeader page_size (read_u32_be (drop 16 wal)) (read_u32_be (drop 20 wal))
                       checksum0 checksum1 checksum_big_endian)
  end.

Definition otsardb_sqlite_wal_cursor_reset (header : otsardb_sqlite_wal_header)
  : otsardb_sqlite_wal_cursor :=
  mkWalCursor header 0 (wh_checksum0 header) (wh_checksum1 header).

(** The doubling loop; 64 doublings pass the overflow test from any start. *)
Fixpoint grow_capacity (fuel : nat) (next required : Z) : option Z :=
  match fuel with
  | O => None
  | S fuel' =>
      if next <? required then
        if SIZE_MAX / 2 <? next then None else grow_capacity fuel' (next * 2) required
      else Some next
  end.

(** The new capacity; a frame reference takes 16 bytes. *)
Definition ensure_frame_ref_capacity (capacity required : Z) : option Z :=
  if required <=? capacity then Some capacity
  else
    match grow_capacity 65 (if capacity =? 0 then 8 else capacity) required with
    | None => None
    | Some next => if SIZE_MAX / 16 <? next then None else Some next
    end.

(** Locals of the scan loop, the cursor and the callback's context. *)
Record scan_state (C : Type) := mkScanState {
  ss_cursor : otsardb_sqlite_wal_cursor;
  ss_ctx : C;
  ss_offset : Z;
  ss_refs : list otsardb_sqlite_wal_frame_ref;
  ss_capacity : Z;
  ss_checksum0 : Z;
  ss_checksum1 : Z;
  ss_absolute_frame_count : Z;
  ss_valid_frames : Z;
  ss_committed_frames : Z;
  ss_commit_count : Z;
  ss_bytes_read : Z
}.
Arguments mkScanState {C}.
Arguments ss_cursor {C}. Arguments ss_ctx {C}. Arguments ss_offset {C}. Arguments ss_refs {C}.
Arguments ss_capacity {C}. Arguments ss_checksum0 {C}. Arguments ss_checksum1 {C}.
Arguments ss_absolute_frame_count {C}. Arguments ss_valid_frames {C}.
Arguments ss_committed_frames {C}. Arguments ss_commit_count {C}. Arguments ss_bytes_read {C}.

(** One iteration: [return 0], [break], or the next state. *)
Inductive scan_step (C : Type) :=
| ScanFail (st : scan_state C)
| ScanBreak (st : scan_state C)
| ScanNext (st : scan_state C).
Arguments ScanFail {C}. Arguments ScanBreak {C}. Arguments ScanNext {C}.

Section Scan.
Context {C : Type}.
Context (read_at : otsardb_sqlite_wal_read_at) (wal_size : Z) (commit_limit : Z).
Context (callback : option (otsardb_sqlite_wal_commit_callback C)).

Definition frame_size (page_size : Z) : Z := OTSARDB_SQLITE_WAL_FRAME_HEADER_SIZE + page_size.

(** The checksum after a frame. *)
Definition frame_checksum (h : otsardb_sqlite_wal_header) (frame : bytes) (s : Z * Z) : Z * Z :=
  checksum_bytes (drop 24 frame) (wh_page_size h) (wh_checksum_big_endian h)
    (checksum_bytes frame 8 (wh_checksum_big_endian h) s).

Definition call_back (page_size database_size_pages : Z)
    (refs : list otsardb_sqlite_wal_frame_ref) (ctx : C) : Z * C :=
  match callback with
  | None => (0, ctx)
  | Some f => f page_size database_size_pages refs ctx
  end.

(** The body of the loop. *)
Definition scan_body (st : scan_state C) : scan_step C :=
  let cursor := ss_cursor st in
  let h := wc_header cursor in
  let fs := frame_size (wh_page_size h) in
  match read_at (ss_offset st) fs with
  | None => ScanFail st
  | Some frame =>
      let page_no := read_u32_be frame in
      let database_size_pages := read_u32_be (drop 4 frame) in
      let st1 := mkScanState cursor (ss_ctx st) (ss_offset st) (ss_refs st) (ss_capacity st)
                   (ss_checksum0 st) (ss_checksum1 st) (ss_absolute_frame_count st)
                   (ss_valid_frames st) (ss_committed_frames st) (ss_commit_count st)
                   (u64 (ss_bytes_read st + fs)) in
      if (page_no =? 0) || negb (read_u32_be (drop 8 frame) =? wh_salt1 h) ||
         negb (read_u32_be (drop 12 frame) =? wh_salt2 h) then ScanBreak st1
      else
        let '(c0, c1) := frame_checksum h frame (ss_checksum0 st, ss_checksum1 st) in
        if negb (c0 =? read_u32_be (drop 16 frame)) || negb (c1 =? read_u32_be (drop 20 frame))
        then ScanBreak st1
        else match ensure_frame_ref_capacity (ss_capacity st) (zlen (ss_refs st) + 1) with
        | None => ScanFail st1
        | Some capacity =>
            let refs := ss_refs st ++ [mkFrameRef page_no (ss_offset st)] in
            let absolute_frame_count := u32 (ss_absolute_frame_count st + 1) in
            let valid_frames := u32 (ss_valid_frames st + 1) in
            let offset := u64 (ss_offset st + fs) in
            if database_size_pages =? 0 then
              ScanNext (mkScanState cursor (ss_ctx st) offset refs capacity c0 c1
                          absolute_frame_count valid_frames (ss_committed_frames st)
                          (ss_commit_count st) (u64 (ss_bytes_read st + fs)))
            else
              let '(rc, ctx) := call_back (wh_page_size h) database_size_pages refs (ss_ctx st) in
              if negb (rc =? 0) then
                ScanFail (mkScanState cursor ctx offset refs capacity c0 c1
                            absolute_frame_count valid_frames (ss_committed_frames st)
                            (ss_commit_count st) (u64 (ss_bytes_read st + fs)))
              else
                let commit_count := u32 (ss_commit_count st + 1) in
                let st' := mkScanState (mkWalCursor h absolute_frame_count c0 c1) ctx offset []
                             capacity c0 c1 absolute_frame_count valid_frames
                             absolute_frame_count commit_count
                             (u64 (ss_bytes_read st + fs)) in
                if negb (commit_limit =? 0) && (commit_limit <=? commit_count) then ScanBreak st'
                else ScanNext st'
        end
  end.

(** [while (offset <= wal_size && wal_size - offset >= frame_size)] *)
Definition scan_guard (st : scan_state C) : bool :=
  (ss_offset st <=? wal_size) &&
  (frame_size (wh_page_size (wc_header (ss_cursor st))) <=? wal_size - ss_offset st).

(** The loop: whether it ended normally ([None]: out of fuel), and its state. *)
Fixpoint scan_loop (fuel : nat) (st : scan_state C) : option (bool * scan_state C) :=
  match fuel with
  | O => None
  | S fuel' =>
      if scan_guard st then
        match scan_body st with
        | ScanFail st' => Some (false, st')
        | ScanBreak st' => Some (true, st')
        | ScanNext st' => scan_loop fuel' st'
        end
      else Some (true, st)
  end.

Definition scan_start (cursor : otsardb_sqlite_wal_cursor) (ctx : C) : scan_state C :=
  mkScanState cursor ctx
    (OTSARDB_SQLITE_WAL_HEADER_SIZE + wc_frame_count cursor *
     frame_size (wh_page_size (wc_header cursor)))
    [] 0 (wc_checksum0 cursor) (wc_checksum1 cursor) (wc_frame_count cursor)
    0 (wc_frame_count cursor) 0 0.

(** Every iteration reads a whole frame, so the number of frames that fit after
    the start, plus one test of the guard, bounds the loop. *)
Definition scan_fuel (st : scan_state C) : nat :=
  S (Z.to_nat ((wal_size - ss_offset st) / frame_size (wh_page_size (wc_header (ss_cursor st))))).

(** Returns the status, the cursor, the callback's context and the result. *)
Definition otsardb_sqlite_wal_scan_reader (cursor : otsardb_sqlite_wal_cursor) (ctx : C)
  : bool * otsardb_sqlite_wal_cursor * C * otsardb_sqlite_wal_scan_result :=
  let h := wc_header cursor in
  let fail := (false, cursor, ctx, scan_result_zero) in
  if wh_page_size h =? 0 then fail
  else
    let fs := frame_size (wh_page_size h) in
    if (UINT64_MAX - OTSARDB_SQLITE_WAL_HEADER_SIZE) / fs <? wc_frame_count cursor then fail
    else
      let st := scan_start cursor ctx in
      if wal_size <? ss_offset st then fail
      else match scan_loop (scan_fuel st) st with
           | None => fail
           | Some (false, st') => (false, ss_cursor st', ss_ctx st', scan_result_zero)
           | Some (true, st') =>
               (true, ss_cursor st', ss_ctx st',
                mkScanResult (wh_page_size h) (wh_salt1 h) (wh_salt2 h) (ss_valid_frames st')
                  (ss_committed_frames st') (ss_commit_count st') (ss_bytes_read st'))
           end.
End Scan.

(** ** The in-memory scanner *)

Definition memory_read_at (data : bytes) : otsardb_sqlite_wal_read_at := fun offset size =>
  if (zlen data <? offset) || (zlen data - offset <? size) then None
  else Some (take (Z.to_nat size) (drop (Z.to_nat offset) data)).

Definition otsardb_sqlite_wal_scan {C} (wal : bytes)
    (callback : option (otsardb_sqlite_wal_commit_callback C)) (ctx : C)
  : bool * C * otsardb_sqlite_wal_scan_result :=
  let wal_size := zlen wal in
  if wal_size <? OTSARDB_SQLITE_WAL_HEADER_SIZE then (false, ctx, scan_result_zero)
  else match otsardb_sqlite_wal_read_header (memory_read_at wal) wal_size with
  | None => (false, ctx, scan_result_zero)
  | Some header =>
      match otsardb_sqlite_wal_scan_reader (memory_read_at wal) wal_size 0 callback
              (otsardb_sqlite_wal_cursor_reset header) ctx with
      | (false, _, ctx, _) => (false, ctx, scan_result_zero)
      | (true, _, ctx, scan) =>
          (true, ctx,
           mkScanResult (sr_page_size scan) (sr_salt1 scan) (sr_salt2 scan)
             (sr_valid_frames scan) (sr_committed_frames scan) (sr_commit_count scan)
             (u64 (sr_bytes_read scan + OTSARDB_SQLITE_WAL_HEADER_SIZE)))
      end
  end.
