(* ===== verification/SqliteWalTheory.v ===== *)
(** * The SQLite WAL scanner: theorems

    The scan terminates, delivers only whole valid transactions, and is
    incremental: scanning a file as it grows delivers what one scan of the
    final file delivers. *)

From S2P Require Import Prelude Codec WalBatch SqliteWal.

(** ** Capacity of the reference array *)

Lemma grow_capacity_ok fuel next required :
  0 < next <= 2 ^ 33 -> required <= 2 ^ 32 -> required <= next * 2 ^ Z.of_nat fuel ->
  exists cap, grow_capacity (S fuel) next required = Some cap /\ 0 < cap <= 2 ^ 33.
Proof.
  revert next. induction fuel as [|fuel IH]; intros next Hn Hr Hf; unfold grow_capacity;
    fold grow_capacity.
  - destruct (Z.ltb_spec next required); [cbn in Hf; lia|eauto].
  - destruct (Z.ltb_spec next required); [|eauto].
    assert ((SIZE_MAX / 2 <? next) = false) as ->
      by (apply Z.ltb_ge; change (SIZE_MAX / 2) with (2 ^ 63 - 1); lia).
    apply IH; [lia|done|]. rewrite Nat2Z.inj_succ, Z.pow_succ_r in Hf by lia. lia.
Qed.

Lemma ensure_capacity_ok cap required :
  0 <= cap <= 2 ^ 33 -> 0 <= required <= 2 ^ 32 ->
  exists cap', ensure_frame_ref_capacity cap required = Some cap' /\ 0 <= cap' <= 2 ^ 33.
Proof.
  intros Hc Hr. unfold ensure_frame_ref_capacity. destruct (Z.leb_spec required cap); [eauto|].
  destruct (grow_capacity_ok 64 (if cap =? 0 then 8 else cap) required) as (n & -> & Hn).
  - destruct (Z.eqb_spec cap 0); lia.
  - lia.
  - assert (1 <= (if cap =? 0 then 8 else cap)) by (destruct (Z.eqb_spec cap 0); lia). nia.
  - change (SIZE_MAX / 16) with (2 ^ 60 - 1). destruct (Z.ltb_spec (2 ^ 60 - 1) n); [lia|].
    exists n. split; [done|lia].
Qed.

(** ** Runs of the loop *)

Section Runs.
Context {C : Type} (read_at : otsardb_sqlite_wal_read_at).
Context (callback : option (otsardb_sqlite_wal_commit_callback C)).

(** The loop as a relation, for a file of [size] bytes and no commit limit. *)
Inductive runs (size : Z) : scan_state C -> bool * scan_state C -> Prop :=
| runs_end st : scan_guard size st = false -> runs size st (true, st)
| runs_fail st st' : scan_guard size st = true ->
    scan_body read_at 0 callback st = ScanFail st' -> runs size st (false, st')
| runs_break st st' : scan_guard size st = true ->
    scan_body read_at 0 callback st = ScanBreak st' -> runs size st (true, st')
| runs_next st st' r : scan_guard size st = true ->
    scan_body read_at 0 callback st = ScanNext st' -> runs size st' r -> runs size st r.

Lemma scan_loop_runs size fuel st r :
  scan_loop read_at size 0 callback fuel st = Some r -> runs size st r.
Proof.
  revert st. induction fuel as [|fuel IH]; intros st H; [done|]. cbn [scan_loop] in H.
  destruct (scan_guard size st) eqn:Hg; [|simplify_eq; by apply runs_end].
  destruct (scan_body _ _ _ st) eqn:Hb; simplify_eq.
  - by apply runs_fail.
  - by apply runs_break.
  - by eapply runs_next; [| |apply IH].
Qed.

Lemma runs_det size st r1 r2 : runs size st r1 -> runs size st r2 -> r1 = r2.
Proof.
  intros H1. revert r2. induction H1; intros r2 H2; inversion H2; simplify_eq; try congruence.
  apply IHruns. congruence.
Qed.

(** The parts of the state the scan depends on. *)
Definition same_core (a b : scan_state C) : Prop :=
  ss_cursor a = ss_cursor b /\ ss_ctx a = ss_ctx b /\ ss_offset a = ss_offset b /\
  ss_refs a = ss_refs b /\ ss_checksum0 a = ss_checksum0 b /\ ss_checksum1 a = ss_checksum1 b /\
  ss_absolute_frame_count a = ss_absolute_frame_count b.

(** The invariant of the loop on files of fewer than [2^32] frames. *)
Definition scan_inv (st : scan_state C) : Prop :=
  let fs := frame_size (wh_page_size (wc_header (ss_cursor st))) in
  24 < fs /\ 0 <= wc_frame_count (ss_cursor st) /\ 0 <= ss_capacity st <= 2 ^ 33 /\
  ss_absolute_frame_count st = wc_frame_count (ss_cursor st) + zlen (ss_refs st) /\
  ss_offset st = 32 + ss_absolute_frame_count st * fs.

Definition small_file (size : Z) (h : otsardb_sqlite_wal_header) : Prop :=
  size <= UINT64_MAX /\ size < 32 + 2 ^ 32 * frame_size (wh_page_size h).

Definition step_state (s : scan_step C) : scan_state C :=
  match s with ScanFail st | ScanBreak st | ScanNext st => st end.

(** The checks a frame passes: page number, salts, cumulative checksum. *)
Definition frame_valid (h : otsardb_sqlite_wal_header) (s : Z * Z) (frame : bytes) (s' : Z * Z)
  : Prop :=
  read_u32_be frame <> 0 /\ read_u32_be (drop 8 frame) = wh_salt1 h /\
  read_u32_be (drop 12 frame) = wh_salt2 h /\ frame_checksum h frame s = s' /\
  s' = (read_u32_be (drop 16 frame), read_u32_be (drop 20 frame)).

(** What an iteration does to the core of the state: nothing, on a read error
    or an invalid frame; otherwise it appends the reference, and on a commit
    frame calls back. *)
Inductive body_spec (st : scan_state C) : scan_step C -> Prop :=
| body_read_error : body_spec st (ScanFail st)
| body_invalid st' frame :
    same_core st st' -> scan_inv st' ->
    let h := wc_header (ss_cursor st) in
    read_at (ss_offset st) (frame_size (wh_page_size h)) = Some frame ->
    (forall s', ~ frame_valid h (ss_checksum0 st, ss_checksum1 st) frame s') ->
    body_spec st (ScanBreak st')
| body_frame st' frame c0 c1 :
    let h := wc_header (ss_cursor st) in
    let refs := ss_refs st ++ [mkFrameRef (read_u32_be frame) (ss_offset st)] in
    read_at (ss_offset st) (frame_size (wh_page_size h)) = Some frame ->
    frame_valid h (ss_checksum0 st, ss_checksum1 st) frame (c0, c1) ->
    read_u32_be (drop 4 frame) = 0 ->
    ss_cursor st' = ss_cursor st -> ss_ctx st' = ss_ctx st -> ss_refs st' = refs ->
    ss_checksum0 st' = c0 -> ss_checksum1 st' = c1 ->
    ss_offset st' = ss_offset st + frame_size (wh_page_size h) ->
    scan_inv st' -> body_spec st (ScanNext st')
| body_callback_error st' ctx rc :
    rc <> 0 -> ss_cursor st' = ss_cursor st -> ss_ctx st' = ctx -> body_spec st (ScanFail st')
| body_commit st' frame c0 c1 :
    let h := wc_header (ss_cursor st) in
    let refs := ss_refs st ++ [mkFrameRef (read_u32_be frame) (ss_offset st)] in
    read_at (ss_offset st) (frame_size (wh_page_size h)) = Some frame ->
    frame_valid h (ss_checksum0 st, ss_checksum1 st) frame (c0, c1) ->
    read_u32_be (drop 4 frame) <> 0 ->
    call_back callback (wh_page_size h) (read_u32_be (drop 4 frame)) refs (ss_ctx st)
      = (0, ss_ctx st') ->
    ss_cursor st' = mkWalCursor h (wc_frame_count (ss_cursor st) + zlen refs) c0 c1 ->
    ss_refs st' = [] -> ss_checksum0 st' = c0 -> ss_checksum1 st' = c1 ->
    ss_offset st' = ss_offset st + frame_size (wh_page_size h) ->
    scan_inv st' -> body_spec st (ScanNext st').

Lemma scan_body_spec size st :
  scan_inv st -> small_file size (wc_header (ss_cursor st)) -> scan_guard size st = true ->
  body_spec st (scan_body read_at 0 callback st).
Proof.
  intros (Hfs & Hfc & Hcap & Habs & Hoff) (Hs64 & Hs32) Hg.
  unfold scan_guard in Hg. prop_bools.
  set (h := wc_header (ss_cursor st)) in *. set (fs := frame_size (wh_page_size h)) in *.
  pose proof (zlen_nonneg (ss_refs st)) as Hrl.
  assert (ss_absolute_frame_count st + 1 < 2 ^ 32 + 1) by nia.
  assert (ss_absolute_frame_count st + 1 < 2 ^ 32) by nia.
  unfold scan_body. fold h. fold fs.
  destruct (read_at (ss_offset st) fs) as [frame|] eqn:Hread; [|constructor].
  destruct (_ || _) eqn:Hhd.
  { apply (body_invalid st _ frame); [by unfold same_core| |exact Hread|].
    - unfold scan_inv. cbn. fold h fs. done.
    - intros s' (Hn & Hs1 & Hs2 & _). fold h in Hs1, Hs2. rewrite Hs1, Hs2, !Z.eqb_refl, !orb_false_r in Hhd.
      by apply Z.eqb_eq in Hhd. }
  destruct (frame_checksum h frame _) as [c0 c1] eqn:Hck.
  destruct (negb (c0 =? _) || _) eqn:Hckb.
  { apply (body_invalid st _ frame); [by unfold same_core| |exact Hread|].
    - unfold scan_inv. cbn. fold h fs. done.
    - intros s' (_ & _ & _ & Hs1 & Hs2). fold h in Hs1. rewrite Hck in Hs1. subst s'. injection Hs2 as -> ->.
      by rewrite !Z.eqb_refl in Hckb. }
  destruct (ensure_capacity_ok (ss_capacity st) (zlen (ss_refs st) + 1)) as (cap & -> & Hcap');
    [done|lia|].
  assert (frame_valid h (ss_checksum0 st, ss_checksum1 st) frame (c0, c1)) as Hval
    by (unfold frame_valid; prop_bools; split_and!; congruence).
  prop_bools. unfold u32, u64, UINT64_MAX in *.
  rewrite (Z.mod_small (ss_absolute_frame_count st + 1)) by lia.
  rewrite (Z.mod_small (ss_offset st + fs)) by nia.
  destruct (Z.eqb_spec (read_u32_be (drop 4 frame)) 0) as [Hdb|Hdb].
  { eapply body_frame; cbn; try done. unfold scan_inv. cbn. fold h fs.
    autorewrite with zlen. split_and!; try lia. }
  destruct (call_back _ _ _ _ _) as [rc ctx] eqn:Hcb.
  destruct (Z.eqb_spec rc 0) as [->|Hrc]; cbn [negb andb Z.eqb].
  - eapply body_commit; cbn; try done.
    + fold h. f_equal. rewrite zlen_app. change (zlen [_]) with 1. lia.
    + unfold scan_inv. cbn. fold h fs. change (zlen (@nil otsardb_sqlite_wal_frame_ref)) with 0.
      split_and!; lia.
  - eapply body_callback_error; done.
Qed.

Definition step_rel (x y : scan_step C) : Prop :=
  match x, y with
  | ScanFail a, ScanFail b | ScanBreak a, ScanBreak b | ScanNext a, ScanNext b => same_core a b
  | _, _ => False
  end.

Lemma scan_body_core size a b :
  same_core a b -> scan_inv a -> scan_inv b -> small_file size (wc_header (ss_cursor a)) ->
  scan_guard size a = true ->
  step_rel (scan_body read_at 0 callback a) (scan_body read_at 0 callback b).
Proof.
  intros (Hc & Hx & Ho & Hr & H0 & H1 & Ha) (Hfs & Hfc & Hcap & Habs & Hoff)
    (_ & _ & Hcap2 & _) (Hs64 & Hs32) Hg.
  unfold scan_guard in Hg. prop_bools.
  assert (0 <= zlen (ss_refs a) + 1 <= 2 ^ 32) by (pose proof (zlen_nonneg (ss_refs a)); nia).
  destruct (ensure_capacity_ok (ss_capacity a) (zlen (ss_refs a) + 1)) as (ca & Ea & _); [done..|].
  destruct (ensure_capacity_ok (ss_capacity b) (zlen (ss_refs a) + 1)) as (cb & Eb & _); [done..|].
  unfold scan_body. rewrite <- Hc, <- Hx, <- Ho, <- Hr, <- H0, <- H1, <- Ha, Ea, Eb.
  repeat case_match; unfold step_rel, same_core; cbn; done.
Qed.

(** Related results: the same status, cursor and context. *)
Definition same_result (x y : bool * scan_state C) : Prop :=
  x.1 = y.1 /\ ss_cursor x.2 = ss_cursor y.2 /\ ss_ctx x.2 = ss_ctx y.2.

Lemma body_next_header size st st' :
  scan_inv st -> small_file size (wc_header (ss_cursor st)) -> scan_guard size st = true ->
  scan_body read_at 0 callback st = ScanNext st' ->
  wc_header (ss_cursor st') = wc_header (ss_cursor st) /\ scan_inv st' /\
  ss_offset st' = ss_offset st + frame_size (wh_page_size (wc_header (ss_cursor st))).
Proof.
  intros Hi Hs Hg Hb. pose proof (scan_body_spec size st Hi Hs Hg) as Hsp. rewrite Hb in Hsp.
  inversion Hsp; simplify_eq.
  - split_and!; [congruence|done|done].
  - split_and!; [|done|done].
    match goal with H : ss_cursor _ = _ |- _ => by rewrite H end.
Qed.

Lemma runs_core size a b r :
  same_core a b -> scan_inv a -> scan_inv b -> small_file size (wc_header (ss_cursor a)) ->
  runs size a r -> exists r', runs size b r' /\ same_result r r'.
Proof.
  intros Hab Ha Hb Hs Hr. revert b Hab Hb. induction Hr as [st Hg|st st' Hg He|st st' Hg He
    |st st' r Hg He Hr IH]; intros b Hab Hb.
  - exists (true, b). destruct Hab as (Hc & Hx & Ho & _). split.
    + apply runs_end. unfold scan_guard in *. by rewrite <- Ho, <- Hc.
    + done.
  - pose proof (scan_body_core size _ _ Hab Ha Hb Hs Hg) as Hrel. rewrite He in Hrel.
    destruct (scan_body _ _ _ b) eqn:Eb; try done. destruct Hab as (Hc & Hx & Ho & _).
    destruct Hrel as (Hc' & Hx' & _). eexists (false, _).
    split; [apply runs_fail; [unfold scan_guard in *; by rewrite <- Ho, <- Hc|exact Eb]|done].
  - pose proof (scan_body_core size _ _ Hab Ha Hb Hs Hg) as Hrel. rewrite He in Hrel.
    destruct (scan_body _ _ _ b) eqn:Eb; try done. destruct Hab as (Hc & Hx & Ho & _).
    destruct Hrel as (Hc' & Hx' & _). eexists (true, _).
    split; [apply runs_break; [unfold scan_guard in *; by rewrite <- Ho, <- Hc|exact Eb]|done].
  - pose proof (scan_body_core size _ _ Hab Ha Hb Hs Hg) as Hrel. rewrite He in Hrel.
    destruct (scan_body _ _ _ b) as [| |b'] eqn:Eb; try done.
    assert (scan_guard size b = true) as Hgb.
    { destruct Hab as (Hc & Hx & Ho & _). unfold scan_guard in *. by rewrite <- Ho, <- Hc. }
    assert (small_file size (wc_header (ss_cursor b))) as Hsb by (by destruct Hab as (<- & _)).
    destruct (body_next_header size st st') as (Eh & Hi' & _); [done..|].
    destruct (body_next_header size b b') as (_ & Hib' & _); [done..|].
    destruct (IH Hi' ltac:(by rewrite Eh) b' Hrel Hib') as (r' & Hr' & Hsr).
    exists r'. split; [by eapply runs_next|done].
Qed.

(** Restarting at the cursor re-reads the pending frames and goes on alike. *)
Definition restartable (size2 : Z) (st : scan_state C) : Prop :=
  forall r, runs size2 st r ->
    exists r', runs size2 (scan_start (ss_cursor st) (ss_ctx st)) r' /\ same_result r r'.

Lemma scan_start_core st : scan_inv st -> ss_refs st = [] ->
  ss_checksum0 st = wc_checksum0 (ss_cursor st) -> ss_checksum1 st = wc_checksum1 (ss_cursor st) ->
  same_core st (scan_start (ss_cursor st) (ss_ctx st)) /\
  scan_inv (scan_start (ss_cursor st) (ss_ctx st)).
Proof.
  intros (Hfs & Hfc & Hcap & Habs & Hoff) Hr H0 H1. rewrite Hr in Habs.
  change (zlen (@nil otsardb_sqlite_wal_frame_ref)) with 0 in Habs. rewrite Z.add_0_r in Habs.
  split.
  - unfold same_core, scan_start. cbn. rewrite Hoff, Habs. done.
  - unfold scan_inv, scan_start. cbn. split_and!; try done; try lia.
    change (zlen (@nil otsardb_sqlite_wal_frame_ref)) with 0. lia.
Qed.

(** A scan of [size1] bytes, then a scan of [size2 >= size1] bytes from the
    cursor it left, ends as the scan of [size2] bytes does. *)
Lemma runs_resume size1 size2 st r1 r2 :
  runs size1 st r1 -> r1.1 = true -> size1 <= size2 ->
  small_file size2 (wc_header (ss_cursor st)) -> scan_inv st ->
  restartable size2 st -> runs size2 st r2 ->
  exists r', runs size2 (scan_start (ss_cursor r1.2) (ss_ctx r1.2)) r' /\ same_result r2 r'.
Proof.
  intros H1 Htrue Hle Hs2. revert r2. induction H1 as [st Hg|st st' Hg He|st st' Hg He
    |st st' r Hg He Hr IH]; intros r2 Hinv Hre H2; try done.
  - by apply Hre.
  - assert (small_file size1 (wc_header (ss_cursor st))) as Hs1 by (unfold small_file in *; lia).
    pose proof (scan_body_spec size1 st Hinv Hs1 Hg) as Hsp. rewrite He in Hsp.
    inversion Hsp as [|? ? Hc| | |]; simplify_eq. destruct Hc as (Hc & Hx & _). cbn.
    rewrite <- Hc, <- Hx. by apply Hre.
  - assert (small_file size1 (wc_header (ss_cursor st))) as Hs1 by (unfold small_file in *; lia).
    assert (scan_guard size2 st = true) as Hg2.
    { unfold scan_guard in *. prop_bools. apply andb_true_intro. split; apply Z.leb_le; lia. }
    destruct (body_next_header size1 st st') as (Eh & Hi' & _); [done..|].
    assert (runs size2 st' r2) as H2'.
    { inversion H2; simplify_eq; congruence. }
    apply IH; [done|by rewrite Eh|done| |done].
    pose proof (scan_body_spec size1 st Hinv Hs1 Hg) as Hsp. rewrite He in Hsp.
    inversion Hsp; simplify_eq; intros r' Hr'.
    + match goal with H : ss_cursor st' = _, H' : ss_ctx st' = _ |- _ => rewrite H, H' end.
      apply Hre. by eapply runs_next.
    + destruct (scan_start_core st') as [Hcore Hinv']; [done|done|..].
      * match goal with H : ss_cursor st' = _ |- _ => by rewrite H end.
      * match goal with H : ss_cursor st' = _ |- _ => by rewrite H end.
      * apply (runs_core size2 st'); try done. by rewrite Eh.
Qed.

(** ** Termination *)

(** A step that goes on keeps the header and moves past the frame. *)
Lemma scan_body_next limit st st' :
  scan_body read_at limit callback st = ScanNext st' ->
  wc_header (ss_cursor st') = wc_header (ss_cursor st) /\
  ss_offset st' = u64 (ss_offset st + frame_size (wh_page_size (wc_header (ss_cursor st)))).
Proof. unfold scan_body. intros H. repeat case_match; simplify_eq; done. Qed.

Lemma scan_loop_total size limit fuel st :
  size <= UINT64_MAX -> 0 <= ss_offset st ->
  0 < wh_page_size (wc_header (ss_cursor st)) ->
  (size - ss_offset st) / frame_size (wh_page_size (wc_header (ss_cursor st))) < Z.of_nat fuel ->
  (0 < fuel)%nat ->
  is_Some (scan_loop read_at size limit callback fuel st).
Proof.
  intros Hs. revert st. induction fuel as [|fuel IH]; intros st Ho Hps Hf Hpos; [lia|].
  cbn [scan_loop]. destruct (scan_guard size st) eqn:Hg; [|eauto].
  destruct (scan_body _ _ _ st) as [st'|st'|st'] eqn:Hb; eauto.
  apply scan_body_next in Hb as [Eh Eo]. unfold scan_guard in Hg. prop_bools.
  unfold frame_size, OTSARDB_SQLITE_WAL_FRAME_HEADER_SIZE in *.
  set (ps := wh_page_size (wc_header (ss_cursor st))) in *.
  unfold u64, UINT64_MAX in *. rewrite Z.mod_small in Eo by lia.
  assert (1 <= (size - ss_offset st) / (24 + ps)) by (apply Z.div_le_lower_bound; lia).
  assert ((size - ss_offset st') / (24 + ps) = (size - ss_offset st) / (24 + ps) - 1) as Hd.
  { rewrite Eo. replace (size - (ss_offset st + (24 + ps)))
      with (size - ss_offset st + (-1) * (24 + ps)) by lia. rewrite Z.div_add by lia. lia. }
  apply IH; rewrite ?Eh; fold ps; rewrite ?Hd; lia.
Qed.
End Runs.

(** C37. The WAL scan terminates: on any file of at most [2^64 - 1] bytes, from
    any cursor the entry checks accept and for any reader, callback and commit
    limit, the loop ends within the number of frames that fit in the rest of
    the file. *)
Theorem wal_scan_terminates {C} (read_at : otsardb_sqlite_wal_read_at) (wal_size limit : Z)
    (callback : option (otsardb_sqlite_wal_commit_callback C))
    (cursor : otsardb_sqlite_wal_cursor) (ctx : C) :
  wal_size <= UINT64_MAX -> 0 < wh_page_size (wc_header cursor) -> 0 <= wc_frame_count cursor ->
  is_Some (scan_loop read_at wal_size limit callback
             (scan_fuel wal_size (scan_start cursor ctx)) (scan_start cursor ctx)).
Proof.
  intros Hs Hps Hfc. unfold scan_fuel. apply scan_loop_total; [done| |done| |lia].
  - unfold scan_start, frame_size, OTSARDB_SQLITE_WAL_FRAME_HEADER_SIZE,
      OTSARDB_SQLITE_WAL_HEADER_SIZE. cbn. nia.
  - rewrite Nat2Z.inj_succ. lia.
Qed.

Definition demo_wal_header : otsardb_sqlite_wal_header := mkWalHeader 512 1 2 3 4 false.

Lemma wal_scan_terminates_witness :
  is_Some (scan_loop (C := unit) (memory_read_at (replicate 1200 0)) 1200 0 None
    (scan_fuel 1200 (scan_start (otsardb_sqlite_wal_cursor_reset demo_wal_header) ()))
    (scan_start (otsardb_sqlite_wal_cursor_reset demo_wal_header) ())).
Proof.
  apply (wal_scan_terminates (memory_read_at (replicate 1200 0)) 1200 0 None
           (otsardb_sqlite_wal_cursor_reset demo_wal_header) ()).
  - vm_compute. discriminate.
  - reflexivity.
  - vm_compute. discriminate.
Defined.

(** ** Incremental scans *)

Section Reader.
Context {C : Type} (read_at : otsardb_sqlite_wal_read_at).
Context (callback : option (otsardb_sqlite_wal_commit_callback C)).

(** What the scanner's caller needs of a cursor and a file size. *)
Definition scan_ok (size : Z) (cursor : otsardb_sqlite_wal_cursor) : Prop :=
  0 < wh_page_size (wc_header cursor) /\ 0 <= wc_frame_count cursor /\
  small_file size (wc_header cursor) /\ ss_offset (scan_start cursor tt) <= size.

Lemma scan_start_inv size cursor (ctx : C) :
  scan_ok size cursor -> scan_inv (scan_start cursor ctx).
Proof.
  intros (Hps & Hfc & _). unfold scan_inv, scan_start, frame_size,
    OTSARDB_SQLITE_WAL_FRAME_HEADER_SIZE, OTSARDB_SQLITE_WAL_HEADER_SIZE. cbn.
  change (zlen (@nil otsardb_sqlite_wal_frame_ref)) with 0. lia.
Qed.

Lemma scan_reader_runs size cursor ctx :
  scan_ok size cursor ->
  exists b st, runs read_at callback size (scan_start cursor ctx) (b, st) /\
    exists res, otsardb_sqlite_wal_scan_reader read_at size 0 callback cursor ctx
                = (b, ss_cursor st, ss_ctx st, res).
Proof.
  intros Hok. pose proof Hok as (Hps & Hfc & (Hs & _) & Hoff).
  unfold otsardb_sqlite_wal_scan_reader.
  destruct (Z.eqb_spec (wh_page_size (wc_header cursor)) 0); [lia|].
  set (fs := frame_size (wh_page_size (wc_header cursor))).
  assert (0 < fs) by (unfold fs, frame_size, OTSARDB_SQLITE_WAL_FRAME_HEADER_SIZE; lia).
  unfold scan_start, OTSARDB_SQLITE_WAL_HEADER_SIZE in Hoff. cbn in Hoff. fold fs in Hoff.
  assert (wc_frame_count cursor <= (UINT64_MAX - OTSARDB_SQLITE_WAL_HEADER_SIZE) / fs).
  { apply Z.div_le_lower_bound; [lia|]. unfold OTSARDB_SQLITE_WAL_HEADER_SIZE. lia. }
  destruct (Z.ltb_spec ((UINT64_MAX - OTSARDB_SQLITE_WAL_HEADER_SIZE) / fs)
              (wc_frame_count cursor)); [lia|].
  cbn [ss_offset scan_start]. fold fs. unfold OTSARDB_SQLITE_WAL_HEADER_SIZE at 1.
  destruct (Z.ltb_spec size (32 + wc_frame_count cursor * fs)); [lia|].
  destruct (scan_loop_total read_at callback size 0 (scan_fuel size (scan_start cursor ctx))
              (scan_start cursor ctx)) as [[b st] Hl]; [done| |done| |unfold scan_fuel; lia|].
  { cbn. fold fs. unfold OTSARDB_SQLITE_WAL_HEADER_SIZE. nia. }
  { unfold scan_fuel. rewrite Nat2Z.inj_succ. lia. }
  rewrite Hl. apply scan_loop_runs in Hl. exists b, st. split; [done|]. destruct b; eauto.
Qed.

Lemma runs_cursor_ok size st r :
  runs read_at callback size st r -> scan_inv st -> small_file size (wc_header (ss_cursor st)) ->
  ss_offset st <= size ->
  wc_header (ss_cursor r.2) = wc_header (ss_cursor st) /\
  0 <= wc_frame_count (ss_cursor r.2) /\
  ss_offset (scan_start (ss_cursor r.2) tt) <= size.
Proof.
  intros Hr. induction Hr as [st Hg|st st' Hg He|st st' Hg He|st st' r Hg He Hr IH];
    intros Hinv Hs Ho;
    pose proof Hinv as (Hfs & Hfc & _ & Habs & Hoff);
    pose proof (zlen_nonneg (ss_refs st));
    assert (ss_offset (scan_start (ss_cursor st) tt) <= size) as Hst
      by (unfold scan_start, OTSARDB_SQLITE_WAL_HEADER_SIZE; cbn; nia).
  - done.
  - pose proof (scan_body_spec read_at callback size st Hinv Hs Hg) as Hsp. rewrite He in Hsp.
    inversion Hsp; simplify_eq; cbn [snd]; [done|].
    match goal with H : ss_cursor st' = _ |- _ => rewrite H end. done.
  - pose proof (scan_body_spec read_at callback size st Hinv Hs Hg) as Hsp. rewrite He in Hsp.
    inversion Hsp as [|? ? Hc| | |]; simplify_eq. destruct Hc as (Hc & _). cbn [snd]. rewrite <- Hc. done.
  - destruct (body_next_header read_at callback size st st') as (Eh & Hi' & Eo); [done..|].
    rewrite <- Eh. apply IH; [done|by rewrite Eh|]. rewrite Eo.
    unfold scan_guard in Hg. prop_bools. lia.
Qed.
End Reader.

(** C36. The scan is incremental: after a successful scan of a WAL of [size1]
    bytes, scanning the WAL when it has grown to [size2] bytes from the cursor
    left behind ends in the same status, the same cursor and the same callback
    context as one scan of the [size2] bytes from the original cursor. In
    particular an uncommitted tail is read again, no commit is skipped and none
    is delivered twice. *)
Theorem wal_scan_incremental {C} (read_at : otsardb_sqlite_wal_read_at)
    (callback : option (otsardb_sqlite_wal_commit_callback C)) (size1 size2 : Z)
    (cursor cursor1 cursor2 : otsardb_sqlite_wal_cursor) (ctx ctx1 ctx2 : C) (ok2 : bool)
    (res1 res2 : otsardb_sqlite_wal_scan_result) :
  scan_ok size1 cursor -> size1 <= size2 -> small_file size2 (wc_header cursor) ->
  otsardb_sqlite_wal_scan_reader read_at size1 0 callback cursor ctx = (true, cursor1, ctx1, res1) ->
  otsardb_sqlite_wal_scan_reader read_at size2 0 callback cursor ctx = (ok2, cursor2, ctx2, res2) ->
  exists res, otsardb_sqlite_wal_scan_reader read_at size2 0 callback cursor1 ctx1
              = (ok2, cursor2, ctx2, res).
Proof.
  intros Hok Hle Hs2 E1 E2.
  assert (scan_ok size2 cursor) as Hok2 by (unfold scan_ok in *; intuition lia).
  destruct (scan_reader_runs read_at callback size1 cursor ctx Hok) as (b1 & st1 & R1 & r1 & Q1).
  destruct (scan_reader_runs read_at callback size2 cursor ctx Hok2) as (b2 & st2 & R2 & r2 & Q2).
  rewrite E1 in Q1. rewrite E2 in Q2. simplify_eq.
  pose proof (scan_start_inv size2 cursor ctx Hok2) as Hinv.
  destruct (runs_resume read_at callback size1 size2 (scan_start cursor ctx) (true, st1) (b2, st2))
    as ([b' st'] & R' & Hsame); try done.
  { intros r Hr. exists r. done. }
  destruct (runs_cursor_ok read_at callback size1 (scan_start cursor ctx) (true, st1))
    as (Eh & Hfc & Hoff); [done|done|apply Hok|apply Hok|]. cbn in Eh, Hfc, Hoff.
  destruct (scan_reader_runs read_at callback size2 (ss_cursor st1) (ss_ctx st1))
    as (b & st & R & res & Q).
  { split_and!; [rewrite Eh; apply Hok|done|by rewrite Eh|cbn; lia]. }
  pose proof (runs_det read_at callback _ _ _ _ R R') as E. injection E as -> ->.
  destruct Hsame as (Hb & Hc & Hx). cbn in Hb, Hc, Hx. exists res. by rewrite Q, Hb, Hc, Hx.
Qed.

(** ** Delivered transactions *)

Section Chain.
Context (read_at : otsardb_sqlite_wal_read_at).

(** Consecutive valid frames from [offset], each with its database size (0 for
    a frame that does not commit), from checksum [s] to checksum [s']. *)
Inductive wal_chain (h : otsardb_sqlite_wal_header)
  : Z -> Z * Z -> list (otsardb_sqlite_wal_frame_ref * Z) -> Z * Z -> Prop :=
| chain_nil offset s : wal_chain h offset s [] s
| chain_snoc offset s frames s1 frame s2 :
    wal_chain h offset s frames s1 ->
    let at_ := offset + zlen frames * frame_size (wh_page_size h) in
    read_at at_ (frame_size (wh_page_size h)) = Some frame ->
    frame_valid h s1 frame s2 ->
    wal_chain h offset s
      (frames ++ [(mkFrameRef (read_u32_be frame) at_, read_u32_be (drop 4 frame))]) s2.

Lemma wal_chain_last h offset s frames x s2 :
  wal_chain h offset s (frames ++ [x]) s2 ->
  exists s1 frame, wal_chain h offset s frames s1 /\
    read_at (offset + zlen frames * frame_size (wh_page_size h)) (frame_size (wh_page_size h)) = Some frame /\
    frame_valid h s1 frame s2 /\
    x = (mkFrameRef (read_u32_be frame) (offset + zlen frames * frame_size (wh_page_size h)), read_u32_be (drop 4 frame)).
Proof.
  remember (frames ++ [x]) as all eqn:E. intros H. revert E.
  destruct H as [|offset s frames' s1 frame s2 Hc at_ Hr Hv]; intros E.
  - by apply app_cons_not_nil in E.
  - apply app_inj_tail in E as [<- <-]. by exists s1, frame.
Qed.

(** The frames determine the checksum, and the file determines the frames: of
    two chains from one place, one continues the other. *)
Lemma wal_chain_det h offset s frames s1 s2 :
  wal_chain h offset s frames s1 -> wal_chain h offset s frames s2 -> s1 = s2.
Proof.
  revert s1 s2. induction frames as [|x frames IH] using rev_ind; intros s1 s2 H1 H2.
  - inversion H1; simplify_eq; [|by destruct frames]. inversion H2; simplify_eq; [done|by destruct frames].
  - apply wal_chain_last in H1 as (t1 & f1 & C1 & R1 & (_ & _ & _ & V1 & _) & _).
    apply wal_chain_last in H2 as (t2 & f2 & C2 & R2 & (_ & _ & _ & V2 & _) & _).
    rewrite (IH _ _ C1 C2) in V1. rewrite R1 in R2. congruence.
Qed.

Lemma wal_chain_prefix h offset s frames rest s2 :
  wal_chain h offset s (frames ++ rest) s2 -> exists s1, wal_chain h offset s frames s1.
Proof.
  revert s2. induction rest as [|x rest IH] using rev_ind; intros s2 H; [rewrite app_nil_r in H; eauto|].
  rewrite app_assoc in H. apply wal_chain_last in H as (s1 & _ & H & _). eauto.
Qed.

Lemma wal_chain_comparable h offset s all s_all frames s1 :
  wal_chain h offset s all s_all -> wal_chain h offset s frames s1 ->
  zlen frames <= zlen all -> exists rest, all = frames ++ rest.
Proof.
  intros Hall. revert s1. induction frames as [|x frames IH] using rev_ind; intros s1 H Hle; [by exists all|].
  apply wal_chain_last in H as (t1 & f1 & C1 & R1 & V1 & ->). rewrite zlen_app in Hle. change (zlen [_]) with 1 in Hle.
  destruct (IH _ C1 ltac:(lia)) as [[|y rest] ->]; [rewrite zlen_app in Hle; change (zlen []) with 0 in Hle; lia|].
  exists rest. rewrite <- app_assoc. cbn. f_equal. f_equal.
  rewrite (cons_middle y frames rest), app_assoc in Hall. apply wal_chain_prefix in Hall as (t2 & Hall).
  apply wal_chain_last in Hall as (t3 & f3 & C3 & R3 & V3 & ->). rewrite R1 in R3. by injection R3 as <-.
Qed.

(** A delivered transaction: all frames but the last leave the size at 0. *)
Definition tx_frames (tx : Z * list otsardb_sqlite_wal_frame_ref)
  : list (otsardb_sqlite_wal_frame_ref * Z) :=
  zip tx.2 (replicate (length tx.2 - 1) 0 ++ [tx.1]).

Definition pending_frames (refs : list otsardb_sqlite_wal_frame_ref) :=
  (fun r => (r, 0)) <$> refs.

Lemma tx_frames_snoc db refs r :
  tx_frames (db, refs ++ [r]) = pending_frames refs ++ [(r, db)].
Proof.
  unfold tx_frames, pending_frames. cbn [fst snd]. rewrite length_app. cbn.
  replace (length refs + 1 - 1)%nat with (length refs) by lia.
  rewrite zip_with_app by (by rewrite length_replicate). cbn. f_equal.
  induction refs as [|x refs IH]; [done|]. cbn. by rewrite IH.
Qed.

Definition delivered (txs : list (Z * list otsardb_sqlite_wal_frame_ref)) :=
  concat (tx_frames <$> txs).

Lemma delivered_snoc txs db refs r :
  delivered (txs ++ [(db, refs ++ [r])]) = delivered txs ++ pending_frames refs ++ [(r, db)].
Proof.
  unfold delivered. rewrite fmap_app, concat_app. cbn [fmap list_fmap concat].
  by rewrite app_nil_r, tx_frames_snoc.
Qed.

Lemma zlen_fmap {A B} (f : A -> B) l : zlen (f <$> l) = zlen l.
Proof. unfold zlen. by rewrite length_fmap. Qed.
End Chain.

Section Delivered.
Context {C : Type} (read_at : otsardb_sqlite_wal_read_at).
Context (callback : option (otsardb_sqlite_wal_commit_callback C)).

(** The callback called on one transaction after the other, as long as it
    returns 0. *)
Fixpoint deliver (page_size : Z) (txs : list (Z * list otsardb_sqlite_wal_frame_ref)) (ctx : C) : option C :=
  match txs with
  | [] => Some ctx
  | (db, refs) :: rest =>
      let '(rc, ctx') := call_back callback page_size db refs ctx in
      if rc =? 0 then deliver page_size rest ctx' else None
  end.

Lemma deliver_snoc ps txs db refs ctx ctx1 ctx2 :
  deliver ps txs ctx = Some ctx1 -> call_back callback ps db refs ctx1 = (0, ctx2) ->
  deliver ps (txs ++ [(db, refs)]) ctx = Some ctx2.
Proof.
  revert ctx. induction txs as [|[db' refs'] txs IH]; intros ctx H Hc; cbn [deliver app] in *.
  - injection H as ->. by rewrite Hc.
  - destruct (call_back callback ps db' refs' ctx) as [rc ctx']. destruct (rc =? 0); [|done]. by apply IH.
Qed.

Context (start : Z) (s0 : Z * Z) (h : otsardb_sqlite_wal_header) (fc : Z) (ctx0 : C).

Definition delivered_inv (txs : list (Z * list otsardb_sqlite_wal_frame_ref)) (st : scan_state C) : Prop :=
  wc_header (ss_cursor st) = h /\
  ss_offset st = start + zlen (delivered txs ++ pending_frames (ss_refs st)) *
                         frame_size (wh_page_size h) /\
  wal_chain read_at h start s0 (delivered txs ++ pending_frames (ss_refs st))
    (ss_checksum0 st, ss_checksum1 st) /\
  wal_chain read_at h start s0 (delivered txs) (wc_checksum0 (ss_cursor st), wc_checksum1 (ss_cursor st)) /\
  wc_frame_count (ss_cursor st) = fc + zlen (delivered txs) /\
  Forall (fun tx => tx.1 <> 0 /\ tx.2 <> []) txs /\
  deliver (wh_page_size h) txs ctx0 = Some (ss_ctx st).

Lemma delivered_step size txs st st' :
  scan_inv st -> small_file size (wc_header (ss_cursor st)) -> scan_guard size st = true ->
  scan_body read_at 0 callback st = ScanNext st' ->
  delivered_inv txs st -> exists txs', delivered_inv txs' st'.
Proof.
  intros Hinv Hs Hg Hb (Hh & Ho & Hc & Hcc & Hf & Hall & Hdel).
  pose proof (scan_body_spec read_at callback size st Hinv Hs Hg) as Hsp.
  rewrite Hb in Hsp. inversion Hsp as [| |? frame c0 c1 h' refs Hr Hv Hdb E1 E2 E3 E4 E5 E6 _| |
    ? frame c0 c1 h' refs Hr Hv Hdb Hcb E1 E3 E4 E5 E6 _]; simplify_eq; unfold delivered_inv.
  - exists txs. subst h'. rewrite Hh in *. rewrite E1, E2, E3, E6, Hh. unfold pending_frames at 1 2. rewrite fmap_app.
    fold (pending_frames (ss_refs st)). cbn [fmap list_fmap]. rewrite app_assoc.
    split_and!; try done.
    + rewrite Ho. autorewrite with zlen. lia.
    + rewrite <- Hdb. rewrite Ho in Hr |- *. by apply chain_snoc with (ss_checksum0 st, ss_checksum1 st).
  - exists (txs ++ [(read_u32_be (drop 4 frame), refs)]). subst h'. rewrite Hh in *.
    rewrite E1, E3, E6. cbn [wc_header wc_checksum0 wc_checksum1 wc_frame_count].
    unfold pending_frames. cbn [fmap list_fmap].
    subst refs. rewrite app_nil_r, delivered_snoc, app_assoc.
    assert (wal_chain read_at h start s0
      ((delivered txs ++ pending_frames (ss_refs st)) ++
       [(mkFrameRef (read_u32_be frame) (ss_offset st), read_u32_be (drop 4 frame))])
      (ss_checksum0 st', ss_checksum1 st')) as Hch.
    { rewrite Ho in Hr |- *. by apply chain_snoc with (ss_checksum0 st, ss_checksum1 st). }
    split_and!; try done.
    + rewrite Ho. autorewrite with zlen. lia.
    + rewrite Hf. autorewrite with zlen. unfold pending_frames. rewrite zlen_fmap. lia.
    + apply Forall_app. split; [done|]. constructor; [|done]. cbn. split; [done|].
      by destruct (ss_refs st).
    + by eapply deliver_snoc.
Qed.

(** Where the scan stopped: the next frame does not fit or is not valid. *)
Definition stopped (size : Z) (st : scan_state C) : Prop :=
  let fs := frame_size (wh_page_size h) in
  size < ss_offset st + fs \/
  exists frame, read_at (ss_offset st) fs = Some frame /\
    forall s', ~ frame_valid h (ss_checksum0 st, ss_checksum1 st) frame s'.

Lemma delivered_runs size txs st r :
  runs read_at callback size st r -> scan_inv st ->
  small_file size (wc_header (ss_cursor st)) -> delivered_inv txs st -> r.1 = true ->
  exists txs', delivered_inv txs' r.2 /\ stopped size r.2.
Proof.
  intros Hr. revert txs. induction Hr as [st Hg|st st' Hg He|st st' Hg He|st st' r Hg He Hr IH];
    intros txs Hinv Hs Hd Ht; try done.
  - exists txs. split; [done|]. left. destruct Hd as [Hh _]. destruct Hinv as [Hfs _]. unfold scan_guard in Hg.
    rewrite Hh in Hg, Hfs. apply andb_false_iff in Hg as [Hg|Hg]; apply Z.leb_gt in Hg; cbn; lia.
  - pose proof (scan_body_spec read_at callback size st Hinv Hs Hg) as Hsp.
    rewrite He in Hsp. inversion Hsp as [|? frame Hc Hi h' Hrd Hinvalid| | |]; simplify_eq.
    destruct Hc as (Hc & Hx & Ho & Hr & H0 & H1 & _). exists txs. unfold delivered_inv, stopped in *. cbn [snd].
    rewrite <- Hc, <- Hx, <- Ho, <- Hr, <- H0, <- H1. split; [done|]. right. exists frame.
    destruct Hd as [Hh _]. subst h'. rewrite Hh in *. done.
  - destruct (body_next_header read_at callback size st st') as (Eh & Hi' & _); [done..|].
    destruct (delivered_step size txs st st' Hinv Hs Hg He Hd) as [txs' Hd'].
    eapply IH; [done|by rewrite Eh|exact Hd'|done].
Qed.

(** No chain of valid frames goes further than the scan. *)
Lemma stopped_maximal size txs st frames s' :
  delivered_inv txs st -> stopped size st ->
  wal_chain read_at h start s0 frames s' -> start + zlen frames * frame_size (wh_page_size h) <= size ->
  0 < frame_size (wh_page_size h) ->
  exists rest, delivered txs ++ pending_frames (ss_refs st) = frames ++ rest.
Proof.
  intros (Hh & Ho & Hc & _) Hst Hf Hfit Hfs. set (all := delivered txs ++ pending_frames (ss_refs st)) in *.
  destruct (Z.le_gt_cases (zlen frames) (zlen all)) as [Hle|Hgt]; [by eapply wal_chain_comparable|]. exfalso.
  destruct (wal_chain_comparable read_at h start s0 frames s' all (ss_checksum0 st, ss_checksum1 st) Hf Hc ltac:(lia))
    as [[|x rest] E]; [rewrite E, app_nil_r in Hgt; lia|].
  rewrite E in Hf. rewrite (cons_middle x all rest), app_assoc in Hf.
  apply wal_chain_prefix in Hf as (s2 & Hf). apply wal_chain_last in Hf as (s1 & frame & C1 & R1 & V1 & _).
  rewrite (wal_chain_det _ _ _ _ _ _ _ C1 Hc) in V1. rewrite <- Ho in R1.
  destruct Hst as [Hst|(frame' & R' & Hno)].
  - rewrite E, zlen_app, zlen_cons in Hfit. pose proof (zlen_nonneg rest). rewrite Ho in Hst. nia.
  - rewrite R1 in R'. injection R' as <-. by eapply Hno.
Qed.
End Delivered.

Lemma scan_delivers {C} (read_at : otsardb_sqlite_wal_read_at) (size : Z)
    (callback : option (otsardb_sqlite_wal_commit_callback C))
    (cursor cursor' : otsardb_sqlite_wal_cursor) (ctx ctx' : C) (res : otsardb_sqlite_wal_scan_result) :
  scan_ok size cursor ->
  otsardb_sqlite_wal_scan_reader read_at size 0 callback cursor ctx = (true, cursor', ctx', res) ->
  let h := wc_header cursor in
  let start := 32 + wc_frame_count cursor * frame_size (wh_page_size h) in
  exists txs st, ss_cursor st = cursor' /\ ss_ctx st = ctx' /\
    delivered_inv read_at callback start (wc_checksum0 cursor, wc_checksum1 cursor) h (wc_frame_count cursor) ctx txs st /\
    stopped read_at h size st.
Proof.
  intros Hok E h start.
  destruct (scan_reader_runs read_at callback size cursor ctx Hok) as (b & st & R & r & Q).
  rewrite E in Q. simplify_eq. pose proof (scan_start_inv size cursor ctx Hok) as Hinv.
  destruct (delivered_runs read_at callback start (wc_checksum0 cursor, wc_checksum1 cursor)
      h (wc_frame_count cursor) ctx size [] _ _ R Hinv) as (txs & Hd & Hs); [apply Hok| |done|by exists txs, st].
  unfold delivered_inv, delivered. cbn. change (zlen (@nil (otsardb_sqlite_wal_frame_ref * Z))) with 0.
  split_and!; try done; try apply chain_nil; unfold start, h, OTSARDB_SQLITE_WAL_HEADER_SIZE; lia.
Qed.

(** The callback that records what it is given. *)
Definition record_commit : otsardb_sqlite_wal_commit_callback
    (list (Z * list otsardb_sqlite_wal_frame_ref)) :=
  fun _ db refs ctx => (0, ctx ++ [(db, refs)]).

Lemma deliver_record ps txs acc : deliver (Some record_commit) ps txs acc = Some (acc ++ txs).
Proof.
  revert acc. induction txs as [|[db refs] txs IH]; intros acc; cbn; [by rewrite app_nil_r|].
  by rewrite IH, <- app_assoc.
Qed.


(** ** Witnesses: a WAL of four frames and two commits *)

Definition be32 (v : Z) : bytes := put_be 4 v.

(** Append a frame with the right salts and checksum. *)
Definition wal_append (h : otsardb_sqlite_wal_header) (w : bytes * (Z * Z))
    (page_no db : Z) (page : bytes) : bytes * (Z * Z) :=
  let head := be32 page_no ++ be32 db in
  let s := checksum_bytes page (wh_page_size h) (wh_checksum_big_endian h)
             (checksum_bytes head 8 (wh_checksum_big_endian h) w.2) in
  (w.1 ++ head ++ be32 (wh_salt1 h) ++ be32 (wh_salt2 h) ++ be32 s.1 ++ be32 s.2 ++ page, s).

Definition demo_wal : bytes :=
  let w0 := (replicate 32 0, (3, 4)) in
  let w1 := wal_append demo_wal_header w0 1 0 (replicate 512 11) in
  let w2 := wal_append demo_wal_header w1 2 2 (replicate 512 12) in
  let w3 := wal_append demo_wal_header w2 3 0 (replicate 512 13) in
  (wal_append demo_wal_header w3 4 4 (replicate 512 14)).1.

Definition demo_wal_cursor : otsardb_sqlite_wal_cursor :=
  otsardb_sqlite_wal_cursor_reset demo_wal_header.

(** The scan of the first [n] frames. *)
Definition demo_scan (n : Z) :=
  otsardb_sqlite_wal_scan_reader (memory_read_at demo_wal) (32 + n * 536) 0 (Some record_commit)
    demo_wal_cursor [].

(** Two of three frames are committed, then four of four. *)
Example demo_scan_commits :
  (wc_frame_count (demo_scan 3).1.1.2, zlen (demo_scan 3).1.2,
   wc_frame_count (demo_scan 4).1.1.2, zlen (demo_scan 4).1.2) = (2, 1, 4, 2).
Proof. vm_compute. reflexivity. Qed.

Lemma wal_scan_incremental_witness :
  exists res, otsardb_sqlite_wal_scan_reader (memory_read_at demo_wal) (32 + 4 * 536) 0
      (Some record_commit) (demo_scan 3).1.1.2 (demo_scan 3).1.2
    = (true, (demo_scan 4).1.1.2, (demo_scan 4).1.2, res).
Proof.
  apply (wal_scan_incremental (memory_read_at demo_wal) (Some record_commit)
           (32 + 3 * 536) (32 + 4 * 536) demo_wal_cursor (demo_scan 3).1.1.2 (demo_scan 4).1.1.2
           [] (demo_scan 3).1.2 (demo_scan 4).1.2 true (demo_scan 3).2 (demo_scan 4).2).
  - vm_compute. repeat split; discriminate.
  - lia.
  - vm_compute. repeat split; discriminate.
  - vm_compute. reflexivity.
  - vm_compute. reflexivity.
Defined.

