(* ===== verification/DbMetadata.v ===== *)
(** * Database metadata (db_metadata.c)

    [db.json] records the format, the page size and the identity of a database;
    it is written once, when the database is created. *)

From S2P Require Import Prelude CText JsonText ObjectStore Journal.

Definition OTSARDB_METADATA_KEY_MAX : Z := 255.
Definition OTSARDB_DATABASE_ID_MAX : Z := 63.

Record otsardb_db_metadata := mkMetadata {
  md_format_version : Z;
  md_page_size : Z;
  md_database_id : bytes
}.

Inductive otsardb_metadata_result :=
  | OTSARDB_METADATA_OK
  | OTSARDB_METADATA_NOT_FOUND
  | OTSARDB_METADATA_CONFLICT
  | OTSARDB_METADATA_INVALID
  | OTSARDB_METADATA_ERROR.

Definition build_key (root : bytes) (out_size : Z) : option bytes :=
  root_join root (str "db.json") out_size.

(** Unlike the journal's, this extractor refuses an empty string. *)
Definition extract_string_nonempty (json name : bytes) (out_size : Z) : option bytes :=
  match extract_string_raw 64 json name out_size with
  | Some [] => None
  | r => r
  end.

Definition otsardb_db_metadata_encode_json (m : otsardb_db_metadata) : option bytes :=
  if (md_format_version m =? 0) || (md_page_size m =? 0) || (zlen (md_database_id m) =? 0)
  then None
  else Some (str "{" ++ q "otsardb_format" ++ str ":" ++ dec (md_format_version m) ++
             str "," ++ q "database_id" ++ str ":" ++ quoted (md_database_id m) ++
             str "," ++ q "page_size" ++ str ":" ++ dec (md_page_size m) ++ str "}" ++ [10]).

Definition otsardb_db_metadata_decode_json (json : bytes) : option otsardb_db_metadata :=
  if zlen json =? 0 then None else
  let copy := cstr json in
  match extract_u64_raw 64 copy (str "otsardb_format"),
        extract_u64_raw 64 copy (str "page_size"),
        extract_string_nonempty copy (str "database_id") (OTSARDB_DATABASE_ID_MAX + 1) with
  | Some format, Some page_size, Some database_id =>
      if (format =? 0) || (UINT32_MAX <? format) || (page_size =? 0) || (UINT32_MAX <? page_size)
      then None
      else Some (mkMetadata format page_size database_id)
  | _, _, _ => None
  end.

Section Operations.
Context {S : Type} (store : otsardb_object_store S).

(** The write of [otsardb_db_metadata_create]. *)
Definition metadata_put (key json : bytes) (options : otsardb_store_put_options)
  : M S otsardb_metadata_result :=
  let! rc := otsardb_store_put store key json options in
  match rc with
  | inl OTSARDB_STORE_PRECONDITION_FAILED => return! OTSARDB_METADATA_CONFLICT
  | inl _ => return! OTSARDB_METADATA_ERROR
  | inr _ => return! OTSARDB_METADATA_OK
  end.

Definition otsardb_db_metadata_create (database_root : bytes) (metadata : otsardb_db_metadata)
  : M S otsardb_metadata_result :=
  match build_key database_root (OTSARDB_METADATA_KEY_MAX + 1) with
  | None => return! OTSARDB_METADATA_INVALID
  | Some key =>
      match otsardb_db_metadata_encode_json metadata with
      | None => return! OTSARDB_METADATA_INVALID
      | Some json =>
          if otsardb_store_supports store OTSARDB_STORE_CAP_CONDITIONAL_CREATE
          then metadata_put key json (mkPutOptions true None)
          else
            let! read_rc := otsardb_store_get store key in
            match read_rc with
            | inr _ => return! OTSARDB_METADATA_CONFLICT
            | inl OTSARDB_STORE_NOT_FOUND => metadata_put key json plain_put
            | inl _ => return! OTSARDB_METADATA_ERROR
            end
      end
  end.

Definition otsardb_db_metadata_read (database_root : bytes)
  : M S (otsardb_metadata_result * option otsardb_db_metadata) :=
  match build_key database_root (OTSARDB_METADATA_KEY_MAX + 1) with
  | None => return! (OTSARDB_METADATA_INVALID, None)
  | Some key =>
      let! rc := otsardb_store_get store key in
      match rc with
      | inl OTSARDB_STORE_NOT_FOUND => return! (OTSARDB_METADATA_NOT_FOUND, None)
      | inl _ => return! (OTSARDB_METADATA_ERROR, None)
      | inr object =>
          match otsardb_db_metadata_decode_json (so_data object) with
          | Some m => return! (OTSARDB_METADATA_OK, Some m)
          | None => return! (OTSARDB_METADATA_INVALID, None)
          end
      end
  end.
End Operations.

(** ** Correctness *)

Definition metadata_ok (m : otsardb_db_metadata) : Prop :=
  0 < md_format_version m <= UINT32_MAX /\ 0 < md_page_size m <= UINT32_MAX /\
  field_ok 64 (md_database_id m) = true /\ md_database_id m <> [].

Definition metadata_toks (m : otsardb_db_metadata) : list tok :=
  [TR (str "{"); TQ (str "otsardb_format"); TR (str ":"); TR (dec (md_format_version m));
   TR (str ","); TQ (str "database_id"); TR (str ":"); TQ (md_database_id m);
   TR (str ","); TQ (str "page_size"); TR (str ":"); TR (dec (md_page_size m));
   TR (str "}"); TR [10]].

#[export] Hint Unfold metadata_toks : toks.

Lemma metadata_encode_toks m : metadata_ok m ->
  otsardb_db_metadata_encode_json m = Some (text (metadata_toks m) []).
Proof.
  intros (Hf & Hp & Hi & Hne). unfold otsardb_db_metadata_encode_json.
  destruct (Z.eqb_spec (md_format_version m) 0); [lia|].
  destruct (Z.eqb_spec (md_page_size m) 0); [lia|].
  destruct (Z.eqb_spec (zlen (md_database_id m)) 0) as [E|]; [by apply zlen_0 in E|].
  cbn [orb]. f_equal. unfold metadata_toks, q, quoted. cbn [text].
  repeat (rewrite <- ?app_assoc, <- ?app_comm_cons; cbn [app]). by rewrite ?app_nil_r.
Qed.

Lemma metadata_decode_toks m : metadata_ok m ->
  otsardb_db_metadata_decode_json (text (metadata_toks m) []) = Some m.
Proof.
  intros (Hf & Hp & ? & Hne). split_fields.
  assert (is_u64 (md_format_version m)) by (apply u32_is_u64; unfold is_u32; lia).
  assert (is_u64 (md_page_size m)) by (apply u32_is_u64; unfold is_u32; lia).
  unfold otsardb_db_metadata_decode_json, extract_string_nonempty.
  assert ((zlen (text (metadata_toks m) []) =? 0) = false) as -> by apply zlen_eqb_0.
  rewrite cstr_no_nul by (apply text_no_nul; json_wf).
  assert (extract_u64_raw 64 (text (metadata_toks m) []) (str "otsardb_format")
    = Some (md_format_version m)) as -> by json_num.
  assert (extract_u64_raw 64 (text (metadata_toks m) []) (str "page_size")
    = Some (md_page_size m)) as -> by json_num.
  assert (extract_string_raw 64 (text (metadata_toks m) []) (str "database_id")
    (OTSARDB_DATABASE_ID_MAX + 1) = Some (md_database_id m)) as -> by json_str.
  destruct (Z.eqb_spec (md_format_version m) 0); [lia|].
  destruct (Z.ltb_spec UINT32_MAX (md_format_version m)); [lia|].
  destruct (Z.eqb_spec (md_page_size m) 0); [lia|].
  destruct (Z.ltb_spec UINT32_MAX (md_page_size m)); [lia|].
  destruct m as [f p i]. cbn in *. by destruct i.
Qed.

(** Database identity is written once. On a store with conditional
    creation, whatever other clients do, a creation either found no metadata
    and wrote it (its text decodes to the metadata given), or left the contents
    as they were; existing metadata is never replaced. *)
Theorem metadata_created_once {S} (store : otsardb_object_store S) view env
    (Hlaws : StoreLaws store view env) root m key s rc s' :
  build_key root (OTSARDB_METADATA_KEY_MAX + 1) = Some key -> metadata_ok m ->
  otsardb_store_supports store OTSARDB_STORE_CAP_CONDITIONAL_CREATE = true ->
  otsardb_db_metadata_create store root m s = (rc, s') ->
  exists w, env (view s) w /\
    (view s' = w \/
     (w !! key = None /\ exists ob, view s' = <[key := ob]> w /\
        otsardb_db_metadata_decode_json (so_data ob) = Some m)) /\
    (rc = OTSARDB_METADATA_OK -> w !! key = None /\ view s' <> w) /\
    (rc = OTSARDB_METADATA_CONFLICT -> is_Some (w !! key)).
Proof.
  intros Hk Hm Hcap. unfold otsardb_db_metadata_create.
  rewrite Hk, metadata_encode_toks, Hcap by done. unfold metadata_put, mbind_, mret_.
  set (json := text (metadata_toks m) []).
  destruct (otsardb_store_put store key json (mkPutOptions true None) s) as [r s1] eqn:E.
  destruct (put_law _ _ _ _ _ _ E) as (w & Hw & Hr).
  assert (forall et, precondition w key (mkPutOptions true None) = true ->
    stored w (view s1) key json et ->
    w !! key = None /\ view s1 <> w /\ exists ob, view s1 = <[key := ob]> w /\
      otsardb_db_metadata_decode_json (so_data ob) = Some m) as Hst.
  { intros et Hp (ob & Hd & _ & Hv). unfold precondition in Hp. cbn in Hp.
    rewrite andb_true_r, bool_decide_eq_true in Hp. split_and!; [done| |].
    - intros Hc. rewrite Hc in Hv. rewrite Hv, lookup_insert_eq in Hp. done.
    - exists ob. split; [done|]. rewrite Hd. by apply metadata_decode_toks. }
  intros H. exists w. destruct r as [e|et].
  - assert (rc <> OTSARDB_METADATA_OK /\ s' = s1 /\
      (rc = OTSARDB_METADATA_CONFLICT -> e = OTSARDB_STORE_PRECONDITION_FAILED)) as (Hne & -> & Hc)
      by (destruct e; by simplify_eq).
    split; [done|]. split_and!; [|done|].
    + destruct e; try (by left; apply Hr);
        (destruct Hr as [Hr|[Hp Hs]]; [by left|]; apply Hst in Hs as (? & ? & ?); auto).
    + intros ->. rewrite (Hc eq_refl) in Hr. destruct Hr as [Hp _].
      unfold precondition in Hp. cbn in Hp. rewrite andb_true_r in Hp.
      apply bool_decide_eq_false in Hp. by apply not_eq_None_Some.
  - simplify_eq. destruct Hr as [Hp Hs]. apply Hst in Hs as (? & ? & ?); [|done]. split_and!; auto; done.
Qed.

Definition sample_metadata : otsardb_db_metadata := mkMetadata 1 4096 (str "db-1").

Lemma sample_metadata_ok : metadata_ok sample_metadata.
Proof. unfold metadata_ok. vm_compute. split_and!; (done || discriminate). Defined.

Lemma metadata_created_once_witness :
  exists w : contents, quiet ∅ w /\ w !! str "db/db.json" = None.
Proof.
  destruct (metadata_created_once (mem_store CAPS_ALL) m_objects quiet (mem_store_laws CAPS_ALL)
    demo_root sample_metadata (str "db/db.json") mem_empty OTSARDB_METADATA_OK
    (snd (otsardb_db_metadata_create (mem_store CAPS_ALL) demo_root sample_metadata mem_empty)))
    as (w & Hw & _ & Hok & _).
  - vm_compute. reflexivity.
  - apply sample_metadata_ok.
  - vm_compute. reflexivity.
  - vm_compute. reflexivity.
  - exists w. split; [exact Hw|]. by apply Hok.
Defined.
