(* ===== verification/CommitManifest.v ===== *)
(** * Commit manifests (commit_manifest.c)

    A manifest describes one commit: its place in the chain (generation, parent
    commit and parent manifest digest), the database geometry after it, and the
    ordered list of its immutable segments, since version 4 with the sorted page
    set of each segment and the offset of each page's block. Lists own their
    length, so [page_count] is the length of [pages]; a NULL [frame_offsets] is
    [None]. Memory exhaustion is not modelled. *)

From S2P Require Import Prelude CText JsonText Sha256.

Definition OTSARDB_MANIFEST_ID_MAX : Z := 63.
Definition OTSARDB_MANIFEST_SHA256_HEX_SIZE : Z := 64.
Definition OTSARDB_COMMIT_MANIFEST_VERSION : Z := 4.
Definition OTSARDB_MANIFEST_MAX_SEGMENTS : Z := 128.
Definition OTSARDB_MANIFEST_SEGMENT_KEY_MAX : Z := 128.
Definition OTSARDB_MANIFEST_MAX_LIST_ENTRIES : Z := 1000000.

Record otsardb_manifest_segment_ref := mkSegmentRef {
  sg_key : bytes;
  sg_sha256 : bytes;
  sg_size : Z;
  sg_pages : list Z;
  sg_frame_offsets : option (list Z)
}.

Record otsardb_commit_manifest := mkManifest {
  cm_format_version : Z;
  cm_generation : Z;
  cm_parent_generation : Z;
  cm_page_size : Z;
  cm_database_size_pages : Z;
  cm_database_id : bytes;
  cm_commit_id : bytes;
  cm_parent_commit_id : bytes;
  cm_parent_manifest_sha256 : bytes;
  cm_segments : list otsardb_manifest_segment_ref;
  cm_post_apply_checksum : bytes
}.

Definition cm_segment_count (m : otsardb_commit_manifest) : Z := zlen (cm_segments m).
Definition sg_page_count (r : otsardb_manifest_segment_ref) : Z := zlen (sg_pages r).

(** ** Field extraction *)

Definition extract_u64 (json name : bytes) : option Z := extract_u64_checked 80 json name.

(** A missing optional field reads as the empty string. *)
Definition extract_string (json name : bytes) (out_size : Z) (allow_empty : bool) : option bytes :=
  if 80 <=? zlen (pattern name str_colon_quote) then None
  else match find_after json (pattern name str_colon_quote) with
  | None => if allow_empty then Some [] else None
  | Some p =>
      match split_at dq p with
      | None => None
      | Some (v, _) =>
          if (negb allow_empty && (zlen v =? 0)) || (out_size <=? zlen v) then None else Some v
      end
  end.

(** ** Validity *)

(** [parent_generation + 1u] wraps at 64 bits. *)
Definition manifest_parent_is_valid (m : otsardb_commit_manifest) : bool :=
  if cm_parent_generation m =? 0 then
    if negb (cm_generation m =? 1) || negb (zlen (cm_parent_commit_id m) =? 0) then false
    else if (2 <=? cm_format_version m) && negb (zlen (cm_parent_manifest_sha256 m) =? 0)
    then false else true
  else if negb (u64 (cm_parent_generation m + 1) =? cm_generation m) ||
          (zlen (cm_parent_commit_id m) =? 0) then false
  else if (2 <=? cm_format_version m) && negb (zlen (cm_parent_manifest_sha256 m) =? 64)
  then false else true.

(** The loop from index [i] on; [prev] is [pages[i - 1]] when [i > 0]. *)
Fixpoint pages_valid_from (prev : option Z) (pages : list Z) (database_size_pages : Z) : bool :=
  match pages with
  | [] => true
  | p :: r =>
      if p =? 0 then false
      else if database_size_pages <? p then false
      else if match prev with Some q => p <=? q | None => false end then false
      else pages_valid_from (Some p) r database_size_pages
  end.
Definition pages_list_valid (pages : list Z) (database_size_pages : Z) : bool :=
  pages_valid_from None pages database_size_pages.

Fixpoint offsets_valid_from (prev : option Z) (offsets : list Z) (segment_size : Z) : bool :=
  match offsets with
  | [] => true
  | o :: r =>
      if segment_size <=? o then false
      else if match prev with Some q => o <=? q | None => false end then false
      else offsets_valid_from (Some o) r segment_size
  end.
Definition frame_offsets_valid (offsets : list Z) (segment_size : Z) : bool :=
  offsets_valid_from None offsets segment_size.

Definition segment_ref_valid (m : otsardb_commit_manifest) (ref : otsardb_manifest_segment_ref)
  : bool :=
  if (zlen (sg_key ref) =? 0) ||
     negb (zlen (sg_sha256 ref) =? OTSARDB_MANIFEST_SHA256_HEX_SIZE) then false
  else if 4 <=? cm_format_version m then
    if (0 <? sg_page_count ref) && negb (pages_list_valid (sg_pages ref) (cm_database_size_pages m))
    then false
    else match sg_frame_offsets ref with
         | None => true
         | Some offsets =>
             negb (sg_page_count ref =? 0) &&
             frame_offsets_valid (take (length (sg_pages ref)) offsets) (sg_size ref)
         end
  else true.

Definition manifest_segments_valid (m : otsardb_commit_manifest) : bool :=
  if (cm_segment_count m =? 0) || (OTSARDB_MANIFEST_MAX_SEGMENTS <? cm_segment_count m)
  then false
  else forallb (segment_ref_valid m) (cm_segments m).

Definition format_allowed (format_version : Z) : bool :=
  (1 <=? format_version) && (format_version <=? OTSARDB_COMMIT_MANIFEST_VERSION).

(** ** Lists *)

(** [if ( *p == c) ++p]: the text after the character [c], when it is next. *)
Definition eat (c : Z) (p : bytes) : option bytes :=
  match p with
  | x :: r => if x =? c then Some r else None
  | [] => None
  end.

(** [p] is just after the opening bracket; the result is the values and the
    text after the closing bracket. Every iteration consumes a character, so
    the length of the text bounds the loop. *)
Fixpoint parse_u64_items (fuel : nat) (p : bytes) (count capacity : Z) : option (list Z * bytes) :=
  match fuel with
  | O => None
  | S fuel' =>
      let p1 := skip_while is_blank p in
      match eat 93 p1 with
      | Some p' => Some ([], p')
      | None =>
          match strtoull_checked p1 with
          | None => None
          | Some (value, rest) =>
              if (count =? capacity) && (OTSARDB_MANIFEST_MAX_LIST_ENTRIES <=? count) then None
              else
                let capacity' :=
                  if count =? capacity then
                    Z.min (if capacity =? 0 then 8 else capacity * 2)
                          OTSARDB_MANIFEST_MAX_LIST_ENTRIES
                  else capacity in
                let p2 := skip_while is_blank rest in
                match eat 93 p2, eat 44 p2 with
                | Some p', _ => Some ([value], p')
                | None, Some p' =>
                    match parse_u64_items fuel' p' (count + 1) capacity' with
                    | None => None
                    | Some (values, p'') => Some (value :: values, p'')
                    end
                | None, None => None
                end
          end
      end
  end.

Definition parse_u64_list (p : bytes) : option (list Z * bytes) :=
  parse_u64_items (S (length p)) p 0 0.

Definition parse_u32_list (p : bytes) : option (list Z * bytes) :=
  match parse_u64_list p with
  | None => None
  | Some (values, p') => if forallb (fun v => v <=? UINT32_MAX) values then Some (values, p') else None
  end.

(** ** Segment entries *)

(** [strncmp(p, marker, strlen(marker)) == 0], then skip it. *)
Definition expect (marker p : bytes) : option bytes :=
  if prefixb marker p then Some (drop (length marker) p) else None.

Definition KEY_MARKER : bytes := q "key" ++ str ":" ++ [dq].
Definition SHA_MARKER : bytes := str "," ++ q "sha256" ++ str ":" ++ [dq].
Definition SIZE_MARKER : bytes := str "," ++ q "size" ++ str ":".
Definition PAGES_MARKER : bytes := str "," ++ q "pages" ++ str ":[".
Definition OFFSETS_MARKER : bytes := str "," ++ q "frame_offsets" ++ str ":[".

(** The page set and the offsets of a version 4 entry. *)
Definition parse_page_set (database_size_pages size : Z) (p : bytes)
  : option (list Z * option (list Z) * bytes) :=
  match expect PAGES_MARKER p with
  | None => None
  | Some p =>
      match parse_u32_list p with
      | None => None
      | Some (pages, p) =>
          let offsets :=
            match expect OFFSETS_MARKER p with
            | None => Some (None, p)
            | Some p =>
                match parse_u64_list p with
                | None => None
                | Some (offsets, p) =>
                    if negb (zlen offsets =? zlen pages) then None
                    else if negb (frame_offsets_valid offsets size) then None
                    else Some (match offsets with [] => None | _ => Some offsets end, p)
                end
            end in
          match offsets with
          | None => None
          | Some (offsets, p) =>
              if negb (pages_list_valid pages database_size_pages) then None
              else Some (pages, offsets, p)
          end
      end
  end.

(** One entry, up to and including its closing brace. *)
Definition parse_segment_entry (format_version database_size_pages : Z) (p : bytes)
  : option (otsardb_manifest_segment_ref * bytes) :=
  match eat 123 (skip_while is_blank p) with
  | Some p =>
      match expect KEY_MARKER p with
      | None => None
      | Some p =>
          match split_at dq p with
          | None => None
          | Some (key, p) =>
              if (zlen key =? 0) || (OTSARDB_MANIFEST_SEGMENT_KEY_MAX + 1 <=? zlen key) then None
              else match expect SHA_MARKER p with
              | None => None
              | Some p =>
                  match split_at dq p with
                  | None => None
                  | Some (sha, p) =>
                      if negb (zlen sha =? OTSARDB_MANIFEST_SHA256_HEX_SIZE) then None
                      else match expect SIZE_MARKER p with
                      | None => None
                      | Some p =>
                          match strtoull_checked (skip_while is_blank p) with
                          | None => None
                          | Some (size, p) =>
                              let set :=
                                if 4 <=? format_version
                                then parse_page_set database_size_pages size p
                                else Some ([], None, p) in
                              match set with
                              | None => None
                              | Some (pages, offsets, p) =>
                                  match eat 125 (skip_while is_blank p) with
                                  | Some p => Some (mkSegmentRef key sha size pages offsets, p)
                                  | None => None
                                  end
                              end
                          end
                      end
                  end
              end
          end
      end
  | None => None
  end.

(** The loop; [fuel] is the number of entries that still fit the array. *)
Fixpoint parse_segments (fuel : nat) (format_version database_size_pages : Z) (p : bytes)
  : option (list otsardb_manifest_segment_ref) :=
  match fuel with
  | O => match eat 93 p with Some _ => Some [] | None => None end
  | S fuel' =>
      match parse_segment_entry format_version database_size_pages p with
      | None => None
      | Some (ref, p) =>
          let p := skip_while is_blank p in
          match eat 93 p, eat 44 p with
          | Some _, _ => Some [ref]
          | None, Some p =>
              match parse_segments fuel' format_version database_size_pages p with
              | None => None
              | Some refs => Some (ref :: refs)
              end
          | None, None => None
          end
      end
  end.

Definition extract_segments (json : bytes) (format_version database_size_pages : Z)
  : option (list otsardb_manifest_segment_ref) :=
  match find_after json (pattern (str "segments") (str ":[")) with
  | None => None
  | Some p => parse_segments (Z.to_nat OTSARDB_MANIFEST_MAX_SEGMENTS) format_version
                database_size_pages p
  end.

(** ** Encoder *)

Fixpoint comma_list (items : list bytes) : bytes :=
  match items with
  | [] => []
  | [x] => x
  | x :: r => x ++ str "," ++ comma_list r
  end.

(** [write_u32_array], [write_u64_array] *)
Definition write_array (values : list Z) : bytes :=
  str "[" ++ comma_list (dec <$> values) ++ str "]".

Definition segment_literal_write (ref : otsardb_manifest_segment_ref) (with_pages : bool) : bytes :=
  str "{" ++ q "key" ++ str ":" ++ quoted (sg_key ref) ++
  str "," ++ q "sha256" ++ str ":" ++ quoted (sg_sha256 ref) ++
  str "," ++ q "size" ++ str ":" ++ dec (sg_size ref) ++
  (if with_pages then
     str "," ++ q "pages" ++ str ":" ++ write_array (sg_pages ref) ++
     match sg_frame_offsets ref with
     | Some offsets =>
         if 0 <? sg_page_count ref then
           str "," ++ q "frame_offsets" ++ str ":" ++
           write_array (take (length (sg_pages ref)) offsets)
         else []
     | None => []
     end
   else []) ++ str "}".

(** The fields before the segments, common to versions 3 and 4. *)
Definition manifest_header_json (m : otsardb_commit_manifest) : bytes :=
  str "{" ++ q "otsardb_format" ++ str ":" ++ dec (cm_format_version m) ++
  str "," ++ q "database_id" ++ str ":" ++ quoted (cm_database_id m) ++
  str "," ++ q "generation" ++ str ":" ++ dec (cm_generation m) ++
  str "," ++ q "commit_id" ++ str ":" ++ quoted (cm_commit_id m) ++
  str "," ++ q "parent_generation" ++ str ":" ++ dec (cm_parent_generation m) ++
  str "," ++ q "parent_commit_id" ++ str ":" ++ quoted (cm_parent_commit_id m) ++
  str "," ++ q "parent_manifest_sha256" ++ str ":" ++ quoted (cm_parent_manifest_sha256 m) ++
  str "," ++ q "page_size" ++ str ":" ++ dec (cm_page_size m) ++
  str "," ++ q "database_size_pages" ++ str ":" ++ dec (cm_database_size_pages m) ++
  str "," ++ q "segments" ++ str ":[".

(** Versions 1 and 2: one flat segment reference. *)
Definition manifest_flat_json (m : otsardb_commit_manifest) (ref : otsardb_manifest_segment_ref)
  : bytes :=
  str "{" ++ q "otsardb_format" ++ str ":" ++ dec (cm_format_version m) ++
  str "," ++ q "database_id" ++ str ":" ++ quoted (cm_database_id m) ++
  str "," ++ q "generation" ++ str ":" ++ dec (cm_generation m) ++
  str "," ++ q "commit_id" ++ str ":" ++ quoted (cm_commit_id m) ++
  str "," ++ q "parent_generation" ++ str ":" ++ dec (cm_parent_generation m) ++
  str "," ++ q "parent_commit_id" ++ str ":" ++ quoted (cm_parent_commit_id m) ++
  (if cm_format_version m =? 1 then []
   else str "," ++ q "parent_manifest_sha256" ++ str ":" ++ quoted (cm_parent_manifest_sha256 m)) ++
  str "," ++ q "segment_key" ++ str ":" ++ quoted (sg_key ref) ++
  str "," ++ q "segment_sha256" ++ str ":" ++ quoted (sg_sha256 ref) ++
  str "," ++ q "segment_size" ++ str ":" ++ dec (sg_size ref) ++
  str "," ++ q "page_size" ++ str ":" ++ dec (cm_page_size m) ++
  str "," ++ q "database_size_pages" ++ str ":" ++ dec (cm_database_size_pages m) ++
  str "}" ++ [10].

(** The text; its size in bytes must be an [int]. *)
Definition manifest_json (m : otsardb_commit_manifest) : bytes :=
  if 3 <=? cm_format_version m then
    manifest_header_json m ++
    comma_list ((fun r => segment_literal_write r (4 <=? cm_format_version m)) <$> cm_segments m) ++
    (if zlen (cm_post_apply_checksum m) =? 0 then str "]}" ++ [10]
     else str "]," ++ q "post_apply_checksum" ++ str ":" ++ quoted (cm_post_apply_checksum m) ++
          str "}" ++ [10])
  else
    match cm_segments m with
    | ref :: _ => manifest_flat_json m ref
    | [] => []
    end.

Section Encode.
Context `{Sha256}.

(** The text and its digest. *)
Definition otsardb_commit_manifest_encode_json (m : otsardb_commit_manifest)
  : option (bytes * bytes) :=
  if negb (format_allowed (cm_format_version m)) || (cm_generation m =? 0) ||
     (zlen (cm_database_id m) =? 0) || (zlen (cm_commit_id m) =? 0) || (cm_page_size m =? 0) ||
     negb (manifest_parent_is_valid m) || negb (manifest_segments_valid m)
  then None
  else
    let json := manifest_json m in
    if INT_MAX <? zlen json then None
    else Some (json, otsardb_sha256_hex_data json).
End Encode.

(** ** Decoder *)

Definition is_hex_char (c : Z) : bool :=
  ((48 <=? c) && (c <=? 57)) || ((97 <=? c) && (c <=? 102)) || ((65 <=? c) && (c <=? 70)).

(** The parts that depend on the format: the parent digest, the segments and
    the checksum. [format] is the 64-bit value read, not yet range-checked. *)
Definition decode_versioned (copy : bytes) (format database_size_pages : Z)
  : option (bytes * list otsardb_manifest_segment_ref * bytes) :=
  if 3 <=? format then
    match extract_string copy (str "parent_manifest_sha256") (OTSARDB_MANIFEST_SHA256_HEX_SIZE + 1)
            true,
          extract_segments copy (u32 format) database_size_pages,
          extract_string copy (str "post_apply_checksum") 17 true with
    | Some parent_sha, Some segments, Some checksum => Some (parent_sha, segments, checksum)
    | _, _, _ => None
    end
  else if format =? 2 then
    match extract_string copy (str "parent_manifest_sha256") (OTSARDB_MANIFEST_SHA256_HEX_SIZE + 1)
            true with
    | Some parent_sha => Some (parent_sha, [], [])
    | None => None
    end
  else Some ([], [], []).

(** The flat segment of versions 1 and 2. *)
Definition decode_flat (copy : bytes) : option otsardb_manifest_segment_ref :=
  match extract_string copy (str "segment_key") (OTSARDB_MANIFEST_SEGMENT_KEY_MAX + 1) false,
        extract_string copy (str "segment_sha256") (OTSARDB_MANIFEST_SHA256_HEX_SIZE + 1) false,
        extract_u64 copy (str "segment_size") with
  | Some key, Some sha, Some size => Some (mkSegmentRef key sha size [] None)
  | _, _, _ => None
  end.

(** The checks after extraction. *)
Definition decode_checks (m : otsardb_commit_manifest) : bool :=
  negb (cm_segment_count m =? 0) &&
  (cm_segment_count m <=? OTSARDB_MANIFEST_MAX_SEGMENTS) &&
  forallb (fun r => negb (zlen (sg_key r) =? 0) &&
                    (zlen (sg_sha256 r) =? OTSARDB_MANIFEST_SHA256_HEX_SIZE)) (cm_segments m) &&
  ((zlen (cm_post_apply_checksum m) =? 0) ||
   ((zlen (cm_post_apply_checksum m) =? 16) && forallb is_hex_char (cm_post_apply_checksum m))) &&
  manifest_parent_is_valid m.

Definition otsardb_commit_manifest_decode_json (json : bytes) : option otsardb_commit_manifest :=
  let size := zlen json in
  if (size =? 0) || (size =? SIZE_MAX) then None else
  let copy := cstr json in
  match extract_u64 copy (str "otsardb_format"), extract_u64 copy (str "generation"),
        extract_u64 copy (str "parent_generation"), extract_u64 copy (str "page_size"),
        extract_u64 copy (str "database_size_pages"),
        extract_string copy (str "database_id") (OTSARDB_MANIFEST_ID_MAX + 1) false,
        extract_string copy (str "commit_id") (OTSARDB_MANIFEST_ID_MAX + 1) false,
        extract_string copy (str "parent_commit_id") (OTSARDB_MANIFEST_ID_MAX + 1) true with
  | Some format, Some generation, Some parent_generation, Some page_size,
    Some database_size_pages, Some database_id, Some commit_id, Some parent_commit_id =>
      match decode_versioned copy format database_size_pages with
      | None => None
      | Some (parent_sha, segments, checksum) =>
          if negb (format_allowed (u32 format)) || (page_size =? 0) || (UINT32_MAX <? page_size) ||
             (generation =? 0) then None
          else
            let with_segments (segments : list otsardb_manifest_segment_ref) :=
              let m := mkManifest (u32 format) generation parent_generation (u32 page_size)
                         database_size_pages database_id commit_id parent_commit_id parent_sha
                         segments checksum in
              if decode_checks m then Some m else None in
            if (format =? 1) || (format =? 2) then
              match decode_flat copy with
              | None => None
              | Some ref => with_segments [ref]
              end
            else with_segments segments
      end
  | _, _, _, _, _, _, _, _ => None
  end.
