(* ===== verification/CommitManifestTheory.v ===== *)
(** * Commit manifests: theorems

    Every manifest the encoder accepts is decoded back unchanged, in all four
    format versions; what the decoder accepts satisfies the chain and page set
    invariants the rest of the engine relies on. *)

From Stdlib Require Import Sorting.Sorted.
From S2P Require Import Prelude CText JsonText Sha256 Journal CommitManifest.

(** ** Extraction *)

Lemma extract_string_text ts tail name n s r allow_empty :
  name_ok name = true -> toks_wf ts = true -> zlen (pattern name str_colon_quote) < 80 ->
  tok_find name str_colon_quote ts tail = Some (s ++ dq :: r) ->
  noq s = true -> allow_empty = true \/ s <> [] -> zlen s < n ->
  extract_string (text ts tail) name n allow_empty = Some s.
Proof.
  intros Hn Hwf Hp Hf Hs Hae Hl. unfold extract_string.
  destruct (Z.leb_spec 80 (zlen (pattern name str_colon_quote))); [lia|].
  rewrite find_after_text, Hf, split_at_app by done.
  destruct (Z.leb_spec n (zlen s)); [lia|]. rewrite orb_false_r.
  destruct Hae as [->|Hne]; [done|]. destruct (Z.eqb_spec (zlen s) 0) as [E|]; [by apply zlen_0 in E|].
  by rewrite andb_false_r.
Qed.

Lemma extract_string_absent ts tail name n :
  name_ok name = true -> toks_wf ts = true -> zlen (pattern name str_colon_quote) < 80 ->
  tok_find name str_colon_quote ts tail = None ->
  extract_string (text ts tail) name n true = Some [].
Proof.
  intros Hn Hwf Hp Hf. unfold extract_string.
  destruct (Z.leb_spec 80 (zlen (pattern name str_colon_quote))); [lia|].
  by rewrite find_after_text, Hf.
Qed.

Lemma eat_cons c r : eat c (c :: r) = Some r.
Proof. cbn. by rewrite Z.eqb_refl. Qed.

Lemma eat_ne c x r : x <> c -> eat c (x :: r) = None.
Proof. intros H. cbn. by destruct (Z.eqb_spec x c). Qed.

Lemma eat_dec c v r : is_digit c = false -> is_u64 v -> eat c (dec v ++ r) = None.
Proof.
  intros Hc Hv. destruct (dec_head v Hv) as (d & ds & -> & Hd). apply eat_ne. congruence.
Qed.

Lemma expect_app m r : expect m (m ++ r) = Some r.
Proof. unfold expect. by rewrite prefixb_app, drop_app_length. Qed.

(** ** Lists *)

Lemma comma_list_cons x y l : comma_list (x :: y :: l) = x ++ str "," ++ comma_list (y :: l).
Proof. reflexivity. Qed.

Lemma parse_u64_items_ok vs : forall fuel count cap rest,
  Forall is_u64 vs -> (length vs < fuel)%nat ->
  count + zlen vs <= OTSARDB_MANIFEST_MAX_LIST_ENTRIES ->
  parse_u64_items fuel (comma_list (dec <$> vs) ++ 93 :: rest) count cap = Some (vs, rest).
Proof.
  induction vs as [|v vs IH]; intros fuel count cap rest Hall Hf Hc;
    (destruct fuel as [|fuel]; [cbn in Hf; lia|]).
  - reflexivity.
  - apply list.Forall_cons in Hall as [Hv Hall]. rewrite zlen_cons in Hc. pose proof (zlen_nonneg vs).
    assert ((OTSARDB_MANIFEST_MAX_LIST_ENTRIES <=? count) = false) as Hcap by (apply Z.leb_gt; lia).
    cbn [length] in Hf. destruct vs as [|w vs].
    + cbn [fmap list_fmap comma_list parse_u64_items]. rewrite blank_dec, eat_dec by done.
      rewrite strtoull_checked_dec, Hcap, andb_false_r by done. done.
    + cbn [fmap list_fmap]. rewrite comma_list_cons, <- !app_assoc. cbn [parse_u64_items].
      rewrite blank_dec, eat_dec by done.
      rewrite strtoull_checked_dec, Hcap, andb_false_r by done.
      change (str "," ++ ?x) with (44 :: x).
      change (skip_while is_blank (44 :: ?x)) with (44 :: x).
      rewrite eat_cons, eat_ne by done.
      change (dec w :: list_fmap _ _ dec vs) with (dec <$> (w :: vs)).
      rewrite IH; [done|done|cbn in *; lia|lia].
Qed.

Lemma parse_u64_list_ok vs rest :
  Forall is_u64 vs -> zlen vs <= OTSARDB_MANIFEST_MAX_LIST_ENTRIES ->
  parse_u64_list (comma_list (dec <$> vs) ++ 93 :: rest) = Some (vs, rest).
Proof.
  intros Hv Hl. unfold parse_u64_list. apply parse_u64_items_ok; [done| |lia].
  rewrite length_app. cbn. enough (length vs <= length (comma_list (dec <$> vs)) + 1)%nat by lia.
  clear Hl. induction Hv as [|v vs Hv Hall IH]; [cbn; lia|].
  destruct vs as [|w vs].
  - cbn. destruct (dec_head v Hv) as (d & ds & -> & _). cbn. lia.
  - cbn [fmap list_fmap] in *. rewrite comma_list_cons, !length_app. cbn [length] in *.
    change (length (str ",")) with 1%nat. lia.
Qed.

Lemma parse_u32_list_ok vs rest :
  Forall is_u32 vs -> zlen vs <= OTSARDB_MANIFEST_MAX_LIST_ENTRIES ->
  parse_u32_list (comma_list (dec <$> vs) ++ 93 :: rest) = Some (vs, rest).
Proof.
  intros Hv Hl. unfold parse_u32_list. rewrite parse_u64_list_ok; [|eapply list.Forall_impl; [exact Hv|exact u32_is_u64]|done].
  assert (forallb (fun v => v <=? UINT32_MAX) vs = true) as ->; [|done].
  apply forallb_forall. intros v Hin. apply list_elem_of_In in Hin.
  rewrite list.Forall_forall in Hv. apply Z.leb_le, Hv. done.
Qed.

(** ** Segment entries *)

(** A segment reference that fits its struct, with a page set when
    [with_pages]. *)
Definition ref_ok (with_pages : bool) (db : Z) (r : otsardb_manifest_segment_ref) : Prop :=
  field_ok 129 (sg_key r) = true /\ sg_key r <> [] /\
  field_ok 65 (sg_sha256 r) = true /\ zlen (sg_sha256 r) = 64 /\ is_u64 (sg_size r) /\
  if with_pages then
    Forall is_u32 (sg_pages r) /\ zlen (sg_pages r) <= OTSARDB_MANIFEST_MAX_LIST_ENTRIES /\
    pages_list_valid (sg_pages r) db = true /\
    match sg_frame_offsets r with
    | None => True
    | Some o => length o = length (sg_pages r) /\ o <> [] /\ Forall is_u64 o /\
                frame_offsets_valid o (sg_size r) = true
    end
  else sg_pages r = [] /\ sg_frame_offsets r = None.

(** The page set part of an entry. *)
Definition page_set_json (r : otsardb_manifest_segment_ref) : bytes :=
  str "," ++ q "pages" ++ str ":" ++ write_array (sg_pages r) ++
  match sg_frame_offsets r with
  | Some o => if 0 <? sg_page_count r
              then str "," ++ q "frame_offsets" ++ str ":" ++ write_array (take (length (sg_pages r)) o)
              else []
  | None => []
  end.

Lemma array_text name vs r :
  str "," ++ q name ++ str ":" ++ write_array vs ++ r
  = (str "," ++ q name ++ str ":[") ++ comma_list (dec <$> vs) ++ 93 :: r.
Proof. unfold write_array. rewrite <- !app_assoc. reflexivity. Qed.

Lemma parse_page_set_ok db r rest :
  ref_ok true db r ->
  parse_page_set db (sg_size r) (page_set_json r ++ str "}" ++ rest)
  = Some (sg_pages r, sg_frame_offsets r, str "}" ++ rest).
Proof.
  intros (_ & _ & _ & _ & Hsz & Hp & Hl & Hv & Ho). unfold parse_page_set, page_set_json.
  rewrite <- !app_assoc, array_text. fold PAGES_MARKER. rewrite expect_app.
  rewrite parse_u32_list_ok by done.
  destruct (sg_frame_offsets r) as [o|].
  - destruct Ho as (Hlen & Hne & Hu & Hov).
    assert ((0 <? sg_page_count r) = true) as ->.
    { apply Z.ltb_lt. unfold sg_page_count, zlen. rewrite <- Hlen. destruct o; [done|cbn; lia]. }
    rewrite <- Hlen, firstn_all, <- !app_assoc, array_text. fold OFFSETS_MARKER.
    rewrite expect_app, parse_u64_list_ok; [|done|unfold zlen in *; lia].
    assert ((zlen o =? zlen (sg_pages r)) = true) as -> by (apply Z.eqb_eq; unfold zlen; lia).
    rewrite Hov, Hv. cbn [negb]. by destruct o.
  - by rewrite Hv.
Qed.

Lemma segment_literal_split r wp rest :
  segment_literal_write r wp ++ rest
  = 123 :: KEY_MARKER ++ sg_key r ++ dq :: SHA_MARKER ++ sg_sha256 r ++ dq :: SIZE_MARKER ++
    dec (sg_size r) ++ (if wp then page_set_json r else []) ++ str "}" ++ rest.
Proof.
  unfold segment_literal_write, KEY_MARKER, SHA_MARKER, SIZE_MARKER, page_set_json, q, quoted.
  destruct wp; repeat (rewrite <- ?app_assoc, <- ?app_comm_cons; cbn [app]); done.
Qed.

Lemma parse_segment_entry_ok fv db r rest :
  ref_ok (4 <=? fv) db r ->
  parse_segment_entry fv db (segment_literal_write r (4 <=? fv) ++ rest) = Some (r, rest).
Proof.
  intros Hok. pose proof Hok as (Hk & Hkne & Hs & Hsl & Hsz & Hset).
  apply field_ok_split in Hk as (_ & Hkq & Hkl). apply field_ok_split in Hs as (_ & Hsq & _).
  rewrite segment_literal_split. unfold parse_segment_entry.
  change (skip_while is_blank (123 :: ?x)) with (123 :: x). rewrite eat_cons, expect_app.
  rewrite split_at_app by done.
  destruct (Z.eqb_spec (zlen (sg_key r)) 0) as [E|_]; [by apply zlen_0 in E|].
  destruct (Z.leb_spec (OTSARDB_MANIFEST_SEGMENT_KEY_MAX + 1) (zlen (sg_key r))) as [Hc|_];
    [unfold OTSARDB_MANIFEST_SEGMENT_KEY_MAX in Hc; lia|]. cbn [orb].
  rewrite expect_app, split_at_app, Hsl by done.
  change (negb (64 =? OTSARDB_MANIFEST_SHA256_HEX_SIZE)) with false. cbv iota.
  rewrite expect_app, blank_dec by done.
  rewrite strtoull_checked_dec; [|done|by destruct (4 <=? fv)].
  destruct (4 <=? fv) eqn:Ev.
  - rewrite parse_page_set_ok by done. by destruct r.
  - destruct Hset as [Hp Ho]. cbn. destruct r. cbn in *. by subst.
Qed.

Lemma parse_segments_ok fv db rs rest : forall fuel,
  Forall (ref_ok (4 <=? fv) db) rs -> rs <> [] -> (length rs <= fuel)%nat ->
  parse_segments fuel fv db
    (comma_list ((fun r => segment_literal_write r (4 <=? fv)) <$> rs) ++ 93 :: rest) = Some rs.
Proof.
  induction rs as [|r rs IH]; intros fuel Hall Hne Hf; [done|].
  apply list.Forall_cons in Hall as [Hr Hall]. cbn [length] in Hf.
  destruct fuel as [|fuel]; [lia|]. destruct rs as [|r2 rs].
  - cbn [fmap list_fmap comma_list parse_segments].
    rewrite parse_segment_entry_ok by done. done.
  - cbn [fmap list_fmap]. rewrite comma_list_cons, <- !app_assoc. cbn [parse_segments].
    rewrite parse_segment_entry_ok by done.
    change (skip_while is_blank (str "," ++ ?x)) with (44 :: x).
    cbv zeta. rewrite eat_cons, eat_ne by done.
    specialize (IH fuel Hall ltac:(done) ltac:(lia)). cbn [fmap list_fmap] in IH.
    by rewrite IH.
Qed.

(** ** Manifests as token streams *)

Definition seg_toks (wp : bool) (r : otsardb_manifest_segment_ref) : list tok :=
  [TR (str "{"); TQ (str "key"); TR (str ":"); TQ (sg_key r);
   TR (str ","); TQ (str "sha256"); TR (str ":"); TQ (sg_sha256 r);
   TR (str ","); TQ (str "size"); TR (str ":"); TR (dec (sg_size r))] ++
  (if wp then
     [TR (str ","); TQ (str "pages"); TR (str ":"); TR (write_array (sg_pages r))] ++
     match sg_frame_offsets r with
     | Some o => if 0 <? sg_page_count r then
                   [TR (str ","); TQ (str "frame_offsets"); TR (str ":");
                    TR (write_array (take (length (sg_pages r)) o))] else []
     | None => []
     end
   else []) ++ [TR (str "}")].

Fixpoint segs_toks (wp : bool) (rs : list otsardb_manifest_segment_ref) : list tok :=
  match rs with
  | [] => []
  | [r] => seg_toks wp r
  | r :: rs' => seg_toks wp r ++ TR (str ",") :: segs_toks wp rs'
  end.

Definition chain_toks (m : otsardb_commit_manifest) : list tok :=
  [TR (str "{"); TQ (str "otsardb_format"); TR (str ":"); TR (dec (cm_format_version m));
   TR (str ","); TQ (str "database_id"); TR (str ":"); TQ (cm_database_id m);
   TR (str ","); TQ (str "generation"); TR (str ":"); TR (dec (cm_generation m));
   TR (str ","); TQ (str "commit_id"); TR (str ":"); TQ (cm_commit_id m);
   TR (str ","); TQ (str "parent_generation"); TR (str ":"); TR (dec (cm_parent_generation m));
   TR (str ","); TQ (str "parent_commit_id"); TR (str ":"); TQ (cm_parent_commit_id m)].

Definition parent_sha_toks (m : otsardb_commit_manifest) : list tok :=
  [TR (str ","); TQ (str "parent_manifest_sha256"); TR (str ":"); TQ (cm_parent_manifest_sha256 m)].

Definition size_toks (m : otsardb_commit_manifest) : list tok :=
  [TR (str ","); TQ (str "page_size"); TR (str ":"); TR (dec (cm_page_size m));
   TR (str ","); TQ (str "database_size_pages"); TR (str ":"); TR (dec (cm_database_size_pages m))].

Definition checksum_toks (m : otsardb_commit_manifest) : list tok :=
  if zlen (cm_post_apply_checksum m) =? 0 then [TR (str "]")]
  else [TR (str "],"); TQ (str "post_apply_checksum"); TR (str ":");
        TQ (cm_post_apply_checksum m)].

(** Versions 3 and 4, with what a later step adds before the closing brace. *)
Definition manifest_toks (m : otsardb_commit_manifest) (extra : list tok) : list tok :=
  chain_toks m ++ parent_sha_toks m ++ size_toks m ++
  [TR (str ","); TQ (str "segments"); TR (str ":[")] ++
  segs_toks (4 <=? cm_format_version m) (cm_segments m) ++ checksum_toks m ++
  extra ++ [TR (str "}"); TR [10]].

(** Versions 1 and 2. *)
Definition flat_toks (m : otsardb_commit_manifest) (r : otsardb_manifest_segment_ref) : list tok :=
  chain_toks m ++ (if cm_format_version m =? 1 then [] else parent_sha_toks m) ++
  [TR (str ","); TQ (str "segment_key"); TR (str ":"); TQ (sg_key r);
   TR (str ","); TQ (str "segment_sha256"); TR (str ":"); TQ (sg_sha256 r);
   TR (str ","); TQ (str "segment_size"); TR (str ":"); TR (dec (sg_size r))] ++
  size_toks m ++ [TR (str "}"); TR [10]].

#[export] Hint Unfold chain_toks parent_sha_toks size_toks manifest_toks flat_toks seg_toks : toks.

Ltac app_norm := repeat (rewrite <- ?app_assoc, <- ?app_comm_cons; cbn [app]).

Lemma seg_toks_text wp r tail : text (seg_toks wp r) tail = segment_literal_write r wp ++ tail.
Proof.
  unfold seg_toks, segment_literal_write, q, quoted. rewrite !text_app.
  destruct wp; [destruct (sg_frame_offsets r); [destruct (0 <? sg_page_count r)|]|];
    cbn [app text]; app_norm; done.
Qed.

Lemma segs_toks_text wp rs tail :
  text (segs_toks wp rs) tail
  = comma_list ((fun r => segment_literal_write r wp) <$> rs) ++ tail.
Proof.
  induction rs as [|r rs IH]; [done|]. destruct rs as [|r2 rs]; [apply seg_toks_text|].
  change (segs_toks wp (r :: r2 :: rs)) with (seg_toks wp r ++ TR (str ",") :: segs_toks wp (r2 :: rs)).
  rewrite text_app. cbn [text]. rewrite IH, seg_toks_text. cbn [fmap list_fmap].
  rewrite comma_list_cons. by rewrite <- !app_assoc.
Qed.

Lemma manifest_json_toks m : 3 <= cm_format_version m ->
  manifest_json m = text (manifest_toks m []) [].
Proof.
  intros H. unfold manifest_json. destruct (Z.leb_spec 3 (cm_format_version m)); [|lia].
  unfold manifest_toks. rewrite !text_app. rewrite segs_toks_text.
  unfold chain_toks, parent_sha_toks, size_toks, manifest_header_json, checksum_toks, q, quoted.
  destruct (zlen (cm_post_apply_checksum m) =? 0); cbn [text]; app_norm; done.
Qed.

Lemma manifest_flat_toks m r : manifest_flat_json m r = text (flat_toks m r) [].
Proof.
  unfold flat_toks, manifest_flat_json, chain_toks, parent_sha_toks, size_toks, q, quoted.
  rewrite !text_app. destruct (cm_format_version m =? 1); cbn [text]; app_norm; done.
Qed.

(** ** Well-formed token streams *)

Lemma starts_sep_app a b : starts_sep a = true -> starts_sep (a ++ b) = true.
Proof. destruct a as [|[|[|]] a]; done. Qed.

Lemma toks_wf_app a b : toks_wf a = true -> toks_wf b = true -> toks_wf (a ++ b) = true.
Proof.
  intros Ha Hb. induction a as [|[s|s] a IH]; [done| |]; cbn [app toks_wf] in *; prop_bools.
  - rewrite IH, H, starts_sep_app by done. done.
  - rewrite IH, H by done. done.
Qed.

Definition toks_text_ok (ts : list tok) : bool :=
  toks_wf ts && forallb (fun t => no_nul (tok_str t)) ts.

Lemma toks_text_ok_app a b :
  toks_text_ok a = true -> toks_text_ok b = true -> toks_text_ok (a ++ b) = true.
Proof.
  unfold toks_text_ok. intros Ha Hb. prop_bools. apply andb_true_intro. split.
  - by apply toks_wf_app.
  - rewrite forallb_app. by apply andb_true_intro.
Qed.

Lemma comma_list_no_byte c items :
  c <> 44 -> Forall (fun i => no_byte c i = true) items -> no_byte c (comma_list items) = true.
Proof.
  intros Hc. induction 1 as [|x l Hx Hl IH]; [done|]. destruct l as [|y l]; [done|].
  rewrite comma_list_cons, !no_byte_app, Hx, IH.
  change (no_byte c (str ",")) with (negb (44 =? c) && true).
  destruct (Z.eqb_spec 44 c); [congruence|done].
Qed.

Lemma write_array_no_byte c vs :
  is_digit c = false -> c <> 44 -> c <> 91 -> c <> 93 -> Forall is_u64 vs ->
  no_byte c (write_array vs) = true.
Proof.
  intros Hd H44 H91 H93 Hv. unfold write_array. rewrite !no_byte_app, comma_list_no_byte; [|done|].
  - change (no_byte c (str "[")) with (negb (91 =? c) && true).
    change (no_byte c (str "]")) with (negb (93 =? c) && true).
    destruct (Z.eqb_spec 91 c), (Z.eqb_spec 93 c); try congruence. done.
  - apply Forall_fmap. eapply list.Forall_impl; [exact Hv|]. intros v Hu. cbn.
    apply digits_no_byte; [done|]. by apply dec_spec.
Qed.

Lemma seg_toks_ok wp db r : ref_ok wp db r -> toks_text_ok (seg_toks wp r) = true.
Proof.
  intros (Hk & _ & Hs & _ & Hsz & Hset). split_fields.
  assert (forall vs, Forall is_u64 vs -> noq (write_array vs) = true /\ no_nul (write_array vs) = true)
    as Hwa by (intros vs Hvs; split; (apply write_array_no_byte; [reflexivity|discriminate..|done])).
  unfold toks_text_ok. destruct wp.
  - destruct Hset as (Hp & _ & _ & Ho).
    destruct (Hwa (sg_pages r)) as [? ?]; [eapply list.Forall_impl; [exact Hp|exact u32_is_u64]|].
    destruct (sg_frame_offsets r) as [o|] eqn:Eo.
    + destruct Ho as (_ & _ & Hu & _).
      destruct (Hwa (take (length (sg_pages r)) o)) as [? ?]; [by apply Forall_take|].
      apply andb_true_intro. split; unfold seg_toks; rewrite Eo;
        destruct (0 <? sg_page_count r); json_wf.
    + apply andb_true_intro. split; unfold seg_toks; rewrite Eo; json_wf.
  - apply andb_true_intro. split; json_wf.
Qed.

Lemma segs_toks_ok wp db rs : Forall (ref_ok wp db) rs -> toks_text_ok (segs_toks wp rs) = true.
Proof.
  induction 1 as [|r rs Hr Hall IH]; [done|]. destruct rs as [|r2 rs]; [by eapply seg_toks_ok|].
  change (segs_toks wp (r :: r2 :: rs)) with (seg_toks wp r ++ [TR (str ",")] ++ segs_toks wp (r2 :: rs)).
  apply toks_text_ok_app; [by eapply seg_toks_ok|]. by apply toks_text_ok_app.
Qed.

(** Tokens that may follow the checksum: a separator first, and no field named
    like the checksum. *)
Definition extra_ok (extra : list tok) : Prop :=
  toks_text_ok extra = true /\ (extra = [] \/ starts_sep extra = true) /\
  forall ts tail, tok_find (str "post_apply_checksum") str_colon_quote (extra ++ ts) tail
    = tok_find (str "post_apply_checksum") str_colon_quote ts tail.

Lemma extra_nil : extra_ok [].
Proof. split_and!; [done|by left|done]. Qed.

Lemma extra_starts extra ts : extra_ok extra -> starts_sep ts = true -> starts_sep (extra ++ ts) = true.
Proof. intros (_ & [->|H] & _) Hs; [done|by apply starts_sep_app]. Qed.

(** The segments hold no field named like the checksum. *)
Lemma segs_toks_skip wp rs ts tail :
  tok_find (str "post_apply_checksum") str_colon_quote (segs_toks wp rs ++ ts) tail
  = tok_find (str "post_apply_checksum") str_colon_quote ts tail.
Proof.
  assert (forall r ts, tok_find (str "post_apply_checksum") str_colon_quote (seg_toks wp r ++ ts) tail
    = tok_find (str "post_apply_checksum") str_colon_quote ts tail) as Hseg.
  { intros r ts'. unfold seg_toks. rewrite <- !app_assoc.
    destruct wp; [destruct (sg_frame_offsets r); [destruct (0 <? sg_page_count r)|]|];
      json_find; done. }
  induction rs as [|r rs IH]; [done|]. destruct rs as [|r2 rs]; [apply Hseg|].
  change (segs_toks wp (r :: r2 :: rs)) with (seg_toks wp r ++ TR (str ",") :: segs_toks wp (r2 :: rs)).
  rewrite <- app_assoc, Hseg. cbn [app]. by rewrite tok_find_TR.
Qed.

(** ** Round trip *)

(** A manifest that fits its struct and uses what its version can express. *)
Definition manifest_ok (m : otsardb_commit_manifest) : Prop :=
  let v := cm_format_version m in
  format_allowed v = true /\
  0 < cm_generation m <= UINT64_MAX /\ is_u64 (cm_parent_generation m) /\
  0 < cm_page_size m <= UINT32_MAX /\ is_u64 (cm_database_size_pages m) /\
  field_ok 64 (cm_database_id m) = true /\ cm_database_id m <> [] /\
  field_ok 64 (cm_commit_id m) = true /\ cm_commit_id m <> [] /\
  field_ok 64 (cm_parent_commit_id m) = true /\
  field_ok 65 (cm_parent_manifest_sha256 m) = true /\
  field_ok 17 (cm_post_apply_checksum m) = true /\
  manifest_parent_is_valid m = true /\
  (cm_post_apply_checksum m = [] \/
   (zlen (cm_post_apply_checksum m) = 16 /\
    forallb is_hex_char (cm_post_apply_checksum m) = true)) /\
  0 < zlen (cm_segments m) <= 128 /\
  Forall (ref_ok (4 <=? v) (cm_database_size_pages m)) (cm_segments m) /\
  (v < 3 -> zlen (cm_segments m) = 1 /\ cm_post_apply_checksum m = []) /\
  (v = 1 -> cm_parent_manifest_sha256 m = []).

(** Read one field of a manifest's token list. *)
Ltac man_num Hwf := eapply extract_u64_checked_text;
  [reflexivity|exact Hwf|reflexivity|json_find; reflexivity|assumption|reflexivity].
Ltac man_str Hwf := eapply extract_string_text;
  [reflexivity|exact Hwf|reflexivity|json_find; reflexivity|assumption|by auto|assumption].

Lemma format_cases v : format_allowed v = true -> v = 1 \/ v = 2 \/ v = 3 \/ v = 4.
Proof. unfold format_allowed, OTSARDB_COMMIT_MANIFEST_VERSION. intros H. prop_bools. lia. Qed.

Lemma manifest_toks_ok m extra :
  manifest_ok m -> extra_ok extra -> toks_text_ok (manifest_toks m extra) = true.
Proof.
  intros (Hv & Hg & ? & Hps & ? & ? & _ & ? & _ & ? & ? & ? & _ & _ & _ & Hseg & _) He. split_fields.
  assert (is_u64 (cm_format_version m)).
  { apply format_cases in Hv. unfold is_u64, UINT64_MAX. lia. }
  assert (is_u64 (cm_generation m)) by (unfold is_u64; lia).
  assert (is_u64 (cm_page_size m)) by (apply u32_is_u64; unfold is_u32; lia).
  unfold manifest_toks. rewrite app_assoc, app_assoc, app_assoc.
  apply toks_text_ok_app; [|apply toks_text_ok_app; [by eapply segs_toks_ok|]].
  - apply andb_true_intro. split; json_wf.
  - assert (toks_text_ok (extra ++ [TR (str "}"); TR [10]]) = true) as Hend
      by (apply toks_text_ok_app; [apply He|done]).
    unfold checksum_toks. destruct (_ =? 0).
    + by apply (toks_text_ok_app [TR (str "]")]).
    + apply andb_prop in Hend as [Hw Hn]. unfold toks_text_ok. cbn [app toks_wf forallb tok_str].
      rewrite Hw, Hn, (extra_starts extra) by done.
      match goal with Hq : noq (cm_post_apply_checksum m) = true |- _ => rewrite Hq end.
      match goal with Hq : no_nul (cm_post_apply_checksum m) = true |- _ => rewrite Hq end. done.
Qed.

Lemma manifest_decode_checks m : manifest_ok m -> decode_checks m = true.
Proof.
  intros (_ & _ & _ & _ & _ & _ & _ & _ & _ & _ & _ & _ & Hpar & Hck & Hn & Hseg & _).
  unfold decode_checks, cm_segment_count, OTSARDB_MANIFEST_MAX_SEGMENTS. rewrite Hpar.
  destruct (Z.eqb_spec (zlen (cm_segments m)) 0); [lia|].
  destruct (Z.leb_spec (zlen (cm_segments m)) 128); [|lia].
  assert (forallb (fun r => negb (zlen (sg_key r) =? 0) &&
    (zlen (sg_sha256 r) =? OTSARDB_MANIFEST_SHA256_HEX_SIZE)) (cm_segments m) = true) as ->.
  { apply forallb_forall. intros r Hr%list_elem_of_In. rewrite list.Forall_forall in Hseg.
    destruct (Hseg r Hr) as (_ & Hne & _ & -> & _).
    destruct (Z.eqb_spec (zlen (sg_key r)) 0) as [E|]; [by apply zlen_0 in E|done]. }
  destruct Hck as [-> |[-> ->]]; done.
Qed.

(** The scalar fields, as every version's decoder reads them. *)
Definition scalars (T : bytes) (m : otsardb_commit_manifest) : Prop :=
  extract_u64 T (str "otsardb_format") = Some (cm_format_version m) /\
  extract_u64 T (str "generation") = Some (cm_generation m) /\
  extract_u64 T (str "parent_generation") = Some (cm_parent_generation m) /\
  extract_u64 T (str "page_size") = Some (cm_page_size m) /\
  extract_u64 T (str "database_size_pages") = Some (cm_database_size_pages m) /\
  extract_string T (str "database_id") (OTSARDB_MANIFEST_ID_MAX + 1) false
    = Some (cm_database_id m) /\
  extract_string T (str "commit_id") (OTSARDB_MANIFEST_ID_MAX + 1) false
    = Some (cm_commit_id m) /\
  extract_string T (str "parent_commit_id") (OTSARDB_MANIFEST_ID_MAX + 1) true
    = Some (cm_parent_commit_id m).

Lemma manifest_ok_u64 m : manifest_ok m ->
  is_u64 (cm_format_version m) /\ is_u64 (cm_generation m) /\ is_u64 (cm_page_size m) /\
  u32 (cm_format_version m) = cm_format_version m /\ u32 (cm_page_size m) = cm_page_size m.
Proof.
  intros (Hv & Hg & _ & Hps & _). apply format_cases in Hv.
  unfold is_u64, u32, UINT64_MAX, UINT32_MAX in *.
  split_and!; try lia; apply Z.mod_small; lia.
Qed.

(** Decoding a text whose fields are those of [m]. *)
Lemma decode_fields T m ref :
  manifest_ok m -> no_nul T = true -> zlen T <> 0 -> zlen T <> SIZE_MAX -> scalars T m ->
  (if 3 <=? cm_format_version m then
     decode_versioned T (cm_format_version m) (cm_database_size_pages m)
     = Some (cm_parent_manifest_sha256 m, cm_segments m, cm_post_apply_checksum m)
   else
     decode_versioned T (cm_format_version m) (cm_database_size_pages m)
     = Some (cm_parent_manifest_sha256 m, [], cm_post_apply_checksum m) /\
     decode_flat T = Some ref /\ cm_segments m = [ref]) ->
  otsardb_commit_manifest_decode_json T = Some m.
Proof.
  intros Hok Hnn H0 Hmax (E1 & E2 & E3 & E4 & E5 & E6 & E7 & E8) Hver.
  pose proof (manifest_decode_checks m Hok) as Hchk.
  destruct (manifest_ok_u64 m Hok) as (_ & _ & _ & Hu1 & Hu2).
  destruct Hok as (Hv & Hg & _ & Hps & _). unfold otsardb_commit_manifest_decode_json.
  destruct (Z.eqb_spec (zlen T) 0); [done|]. destruct (Z.eqb_spec (zlen T) SIZE_MAX); [done|].
  cbn [orb]. rewrite cstr_no_nul by done. rewrite E1, E2, E3, E4, E5, E6, E7, E8, Hu1, Hu2, Hv.
  destruct (Z.eqb_spec (cm_page_size m) 0); [lia|].
  destruct (Z.ltb_spec UINT32_MAX (cm_page_size m)); [lia|].
  destruct (Z.eqb_spec (cm_generation m) 0); [lia|]. cbn [negb orb].
  destruct (Z.leb_spec 3 (cm_format_version m)).
  - rewrite Hver. destruct (Z.eqb_spec (cm_format_version m) 1); [lia|].
    destruct (Z.eqb_spec (cm_format_version m) 2); [lia|]. cbn [orb].
    destruct m. cbn in *. by rewrite Hchk.
  - destruct Hver as (-> & -> & Es). apply format_cases in Hv.
    assert ((cm_format_version m =? 1) || (cm_format_version m =? 2) = true) as ->
      by (destruct (Z.eqb_spec (cm_format_version m) 1), (Z.eqb_spec (cm_format_version m) 2); done || lia).
    rewrite <- Es. destruct m. cbn in *. by rewrite Hchk.
Qed.

Section Texts.
Context (m : otsardb_commit_manifest) (Hok : manifest_ok m).
Context (extra : list tok) (He : extra_ok extra).

Lemma manifest_scalars_v3 : scalars (text (manifest_toks m extra) []) m.
Proof.
  pose proof (manifest_toks_ok m extra Hok He) as Hwf. apply andb_prop in Hwf as [Hwf _].
  destruct (manifest_ok_u64 m Hok) as (? & ? & ? & _).
  destruct Hok as (_ & _ & ? & _ & ? & ? & ? & ? & ? & ? & _). split_fields.
  split_and!; first [man_num Hwf | man_str Hwf].
Qed.

Lemma manifest_segments_v3 :
  extract_segments (text (manifest_toks m extra) []) (cm_format_version m) (cm_database_size_pages m)
  = Some (cm_segments m).
Proof.
  pose proof (manifest_toks_ok m extra Hok He) as Hwf. apply andb_prop in Hwf as [Hwf _].
  destruct Hok as (_ & _ & _ & _ & _ & _ & _ & _ & _ & _ & _ & _ & _ & _ & Hn & Hseg & _).
  unfold extract_segments. rewrite find_after_text by done.
  unfold manifest_toks. json_find. cbn [text]. change (drop _ (str ":[" ++ ?x)) with x.
  rewrite text_app, segs_toks_text.
  rewrite text_app.
  assert (exists rest, text (checksum_toks m) (text (extra ++ [TR (str "}"); TR [10]]) []) = 93 :: rest)
    as [rest ->] by (unfold checksum_toks; destruct (_ =? 0); by eexists).
  apply parse_segments_ok; [done|intros E; rewrite E in Hn; unfold zlen in Hn; cbn in Hn; lia|].
  unfold zlen in Hn. change (Z.to_nat OTSARDB_MANIFEST_MAX_SEGMENTS) with 128%nat. lia.
Qed.

Lemma manifest_checksum_v3 :
  extract_string (text (manifest_toks m extra) []) (str "post_apply_checksum") 17 true
  = Some (cm_post_apply_checksum m).
Proof.
  pose proof (manifest_toks_ok m extra Hok He) as Hwf. apply andb_prop in Hwf as [Hwf _].
  destruct Hok as (_ & _ & _ & _ & _ & _ & _ & _ & _ & _ & _ & Hf & _ & Hck & _). split_fields.
  destruct Hck as [Ec|[Ec _]].
  - rewrite Ec. apply extract_string_absent; [reflexivity|done|reflexivity|].
    unfold manifest_toks. json_find. rewrite segs_toks_skip. unfold checksum_toks. rewrite Ec.
    change (zlen [] =? 0) with true. cbv iota. cbn [app]. rewrite tok_find_TR, (proj2 (proj2 He)). done.
  - eapply extract_string_text; [reflexivity|exact Hwf|reflexivity| |done|by left|done].
    unfold manifest_toks. json_find. rewrite segs_toks_skip. unfold checksum_toks. rewrite Ec.
    change (16 =? 0) with false. cbv iota. json_find. reflexivity.
Qed.

Lemma manifest_versioned_v3 : 3 <= cm_format_version m ->
  decode_versioned (text (manifest_toks m extra) []) (cm_format_version m) (cm_database_size_pages m)
  = Some (cm_parent_manifest_sha256 m, cm_segments m, cm_post_apply_checksum m).
Proof.
  intros Hv. unfold decode_versioned. destruct (Z.leb_spec 3 (cm_format_version m)); [|lia].
  destruct (manifest_ok_u64 m Hok) as (_ & _ & _ & -> & _).
  rewrite manifest_segments_v3, manifest_checksum_v3.
  pose proof (manifest_toks_ok m extra Hok He) as Hwf. apply andb_prop in Hwf as [Hwf _].
  destruct Hok as (_ & _ & _ & _ & _ & _ & _ & _ & _ & _ & ? & _). split_fields.
  assert (extract_string (text (manifest_toks m extra) []) (str "parent_manifest_sha256")
    (OTSARDB_MANIFEST_SHA256_HEX_SIZE + 1) true = Some (cm_parent_manifest_sha256 m)) as ->
    by man_str Hwf.
  done.
Qed.

(** ** Versions 1 and 2 *)

Context (ref : otsardb_manifest_segment_ref) (Href : ref_ok false (cm_database_size_pages m) ref).

Lemma flat_toks_ok : toks_text_ok (flat_toks m ref) = true.
Proof.
  destruct (manifest_ok_u64 m Hok) as (? & ? & ? & _).
  destruct Hok as (_ & _ & ? & _ & ? & ? & ? & ? & ? & ? & ? & _).
  destruct Href as (? & _ & ? & _ & ? & _). split_fields.
  unfold flat_toks. destruct (cm_format_version m =? 1); apply andb_true_intro; split; json_wf.
Qed.

Lemma manifest_scalars_flat : scalars (text (flat_toks m ref) []) m.
Proof.
  pose proof flat_toks_ok as Hwf. apply andb_prop in Hwf as [Hwf _].
  destruct (manifest_ok_u64 m Hok) as (? & ? & ? & _).
  destruct Hok as (_ & _ & ? & _ & ? & ? & ? & ? & ? & ? & _). split_fields.
  unfold flat_toks in *. destruct (cm_format_version m =? 1);
    split_and!; first [man_num Hwf | man_str Hwf].
Qed.

Lemma manifest_flat_segment : decode_flat (text (flat_toks m ref) []) = Some ref.
Proof.
  pose proof flat_toks_ok as Hwf. apply andb_prop in Hwf as [Hwf _].
  destruct Href as (? & ? & ? & ? & ? & Hp & Ho). split_fields.
  assert (sg_sha256 ref <> []) by (intros E; rewrite E in *; done).
  unfold decode_flat, extract_u64. unfold flat_toks in *.
  destruct (cm_format_version m =? 1).
  all: erewrite extract_string_text; [|reflexivity|exact Hwf|reflexivity|json_find; reflexivity
    |assumption|by auto|assumption].
  all: erewrite extract_string_text; [|reflexivity|exact Hwf|reflexivity|json_find; reflexivity
    |assumption|by auto|assumption].
  all: erewrite extract_u64_checked_text; [|reflexivity|exact Hwf|reflexivity|json_find; reflexivity
    |assumption|reflexivity].
  all: destruct ref; cbn in *; by subst.
Qed.

Lemma manifest_versioned_flat : cm_format_version m < 3 ->
  decode_versioned (text (flat_toks m ref) []) (cm_format_version m) (cm_database_size_pages m)
  = Some (cm_parent_manifest_sha256 m, [], cm_post_apply_checksum m).
Proof.
  intros Hv. pose proof flat_toks_ok as Hwf. apply andb_prop in Hwf as [Hwf _].
  destruct Hok as (Hf & _ & _ & _ & _ & _ & _ & _ & _ & _ & ? & _ & _ & _ & _ & _ & Hc & Hp).
  destruct (Hc Hv) as [_ ->]. split_fields. unfold decode_versioned.
  destruct (Z.leb_spec 3 (cm_format_version m)); [lia|].
  destruct (Z.eqb_spec (cm_format_version m) 2) as [E2|].
  - unfold flat_toks in *. rewrite E2 in *. change (2 =? 1) with false in *. cbv iota in *.
    erewrite extract_string_text; [done|reflexivity|exact Hwf|reflexivity|json_find; reflexivity
      |assumption|by auto|assumption].
  - rewrite Hp; [done|]. apply format_cases in Hf. lia.
Qed.
End Texts.

Lemma ref_ok_valid m r :
  ref_ok (4 <=? cm_format_version m) (cm_database_size_pages m) r -> segment_ref_valid m r = true.
Proof.
  intros (_ & Hne & _ & Hl & _ & Hset). unfold segment_ref_valid. rewrite Hl.
  destruct (Z.eqb_spec (zlen (sg_key r)) 0) as [E|]; [by apply zlen_0 in E|].
  change (64 =? OTSARDB_MANIFEST_SHA256_HEX_SIZE) with true. cbn [negb orb].
  destruct (4 <=? cm_format_version m); [|done]. destruct Hset as (_ & _ & -> & Ho).
  rewrite andb_false_r. destruct (sg_frame_offsets r) as [o|]; [|done].
  destruct Ho as (Ho & Hone & _ & Hov). rewrite <- Ho, firstn_all, Hov, andb_true_r.
  unfold sg_page_count, zlen. rewrite <- Ho. by destruct o.
Qed.

Lemma manifest_encodes `{Sha256} m : manifest_ok m -> zlen (manifest_json m) <= INT_MAX ->
  otsardb_commit_manifest_encode_json m
  = Some (manifest_json m, otsardb_sha256_hex_data (manifest_json m)).
Proof.
  intros (Hv & Hg & _ & Hps & _ & _ & Hd & _ & Hc & _ & _ & _ & Hpar & _ & Hn & Hseg & _) Hsz.
  unfold otsardb_commit_manifest_encode_json. rewrite Hv, Hpar.
  destruct (Z.eqb_spec (cm_generation m) 0); [lia|].
  destruct (Z.eqb_spec (zlen (cm_database_id m)) 0) as [E|]; [by apply zlen_0 in E|].
  destruct (Z.eqb_spec (zlen (cm_commit_id m)) 0) as [E|]; [by apply zlen_0 in E|].
  destruct (Z.eqb_spec (cm_page_size m) 0); [lia|].
  assert (manifest_segments_valid m = true) as ->.
  { unfold manifest_segments_valid, cm_segment_count, OTSARDB_MANIFEST_MAX_SEGMENTS.
    destruct (Z.eqb_spec (zlen (cm_segments m)) 0); [lia|].
    destruct (Z.ltb_spec 128 (zlen (cm_segments m))); [lia|]. cbn [orb].
    apply forallb_forall. intros r Hr%list_elem_of_In. rewrite list.Forall_forall in Hseg.
    by apply ref_ok_valid, Hseg. }
  cbn [negb orb]. destruct (Z.ltb_spec INT_MAX (zlen (manifest_json m))); [lia|done].
Qed.

Lemma manifest_extra_decodes m extra : manifest_ok m -> extra_ok extra -> 3 <= cm_format_version m ->
  zlen (text (manifest_toks m extra) []) <= INT_MAX ->
  otsardb_commit_manifest_decode_json (text (manifest_toks m extra) []) = Some m.
Proof.
  intros Hok He Hv Hsz.
  pose proof (manifest_toks_ok m extra Hok He) as Hwf. apply andb_prop in Hwf as [_ Hnn].
  apply (decode_fields _ m (mkSegmentRef [] [] 0 [] None)); try done.
  - by apply text_no_nul.
  - intros E. rewrite E in Hsz. by vm_compute in Hsz.
  - by apply manifest_scalars_v3.
  - destruct (Z.leb_spec 3 (cm_format_version m)); [|lia]. by apply manifest_versioned_v3.
Qed.

Lemma manifest_decodes m : manifest_ok m -> zlen (manifest_json m) <= INT_MAX ->
  otsardb_commit_manifest_decode_json (manifest_json m) = Some m.
Proof.
  intros Hok Hsz.
  destruct (Z.leb_spec 3 (cm_format_version m)) as [Hv|Hv].
  - rewrite manifest_json_toks in * by done. apply manifest_extra_decodes; auto using extra_nil.
  - pose proof Hok as (_ & _ & _ & _ & _ & _ & _ & _ & _ & _ & _ & _ & _ & _ & _ & Hseg & Hone & _).
    destruct (Hone Hv) as [Hl _]. destruct (cm_segments m) as [|ref [|]] eqn:Es;
      [by vm_compute in Hl| |unfold zlen in Hl; cbn in Hl; lia].
    assert (ref_ok false (cm_database_size_pages m) ref) as Href.
    { apply list.Forall_cons in Hseg as [Hr _].
      by destruct (Z.leb_spec 4 (cm_format_version m)); [lia|]. }
    assert (manifest_json m = text (flat_toks m ref) []) as Ej.
    { unfold manifest_json. destruct (Z.leb_spec 3 (cm_format_version m)); [lia|].
      rewrite Es. apply manifest_flat_toks. }
    rewrite Ej in *. pose proof (flat_toks_ok m Hok ref Href) as Hwf. apply andb_prop in Hwf as [_ Hnn].
    apply (decode_fields _ m ref); try done.
    + by apply text_no_nul.
    + intros E. rewrite E in Hsz. by vm_compute in Hsz.
    + by apply manifest_scalars_flat.
    + destruct (Z.leb_spec 3 (cm_format_version m)); [lia|].
      split_and!; [by apply manifest_versioned_flat|by apply manifest_flat_segment|done].
Qed.

(** C32. Manifests survive their encoding, in every version of the format: a
    manifest within the bounds of its struct and of its version (and whose text
    an [int] can measure) is accepted by the encoder, with the digest of the
    text, and the decoder returns exactly that manifest: the chain fields, every
    segment reference in order, every page set and every frame offset. *)
Theorem manifest_json_roundtrip `{Sha256} (m : otsardb_commit_manifest) :
  manifest_ok m -> zlen (manifest_json m) <= INT_MAX ->
  exists json sha,
    otsardb_commit_manifest_encode_json m = Some (json, sha) /\
    sha = otsardb_sha256_hex_data json /\
    otsardb_commit_manifest_decode_json json = Some m.
Proof.
  intros Hok Hsz. exists (manifest_json m), (otsardb_sha256_hex_data (manifest_json m)).
  split_and!; [by apply manifest_encodes|done|by apply manifest_decodes].
Qed.

Definition sample_ref : otsardb_manifest_segment_ref :=
  mkSegmentRef (str "segments/sha256/ab/x.otsseg") (replicate 64 97) 900 [1; 3] (Some [94; 500]).

Definition sample_manifest : otsardb_commit_manifest :=
  mkManifest 4 2 1 512 3 (str "db-1") (str "c-2") (str "c-1") (replicate 64 98)
    [sample_ref; mkSegmentRef (str "segments/sha256/cd/y.otsseg") (replicate 64 99) 700 [] None]
    (str "b90956c775a41001").

Ltac closed_fact :=
  match goal with
  | |- _ = true => vm_compute; reflexivity
  | |- _ <> [] => discriminate
  | |- _ < _ => vm_compute; reflexivity
  | |- _ <= _ => vm_compute; discriminate
  | |- True => exact I
  | |- zlen _ = _ => vm_compute; reflexivity
  | |- length _ = _ => vm_compute; reflexivity
  | |- Forall _ _ => repeat constructor; vm_compute; discriminate
  end.

Lemma sample_manifest_ok : manifest_ok sample_manifest.
Proof.
  unfold manifest_ok, is_u64. split_and!; try closed_fact.
  - right. split; closed_fact.
  - intros Hlt. vm_compute in Hlt. discriminate.
  - intros E. vm_compute in E. discriminate.
Defined.

Lemma manifest_json_roundtrip_witness :
  exists json sha,
    otsardb_commit_manifest_encode_json sample_manifest = Some (json, sha) /\
    sha = otsardb_sha256_hex_data json /\
    otsardb_commit_manifest_decode_json json = Some sample_manifest.
Proof.
  apply (manifest_json_roundtrip sample_manifest).
  - apply sample_manifest_ok.
  - vm_compute. discriminate.
Defined.

(** ** What the decoder guarantees *)

Lemma span_spec f l a b : span f l = (a, b) -> forallb f a = true /\ l = a ++ b.
Proof.
  revert a b. induction l as [|c l IH]; intros a b H; cbn in H; [by simplify_eq|].
  destruct (f c) eqn:Ef; [|by simplify_eq]. destruct (span f l) as [a' b']. simplify_eq.
  destruct (IH a' b eq_refl) as [Ha ->]. cbn. by rewrite Ef.
Qed.

Lemma digits_value_nonneg ds : forallb is_digit ds = true -> 0 <= digits_value ds.
Proof.
  induction ds as [|d ds IH]; intros H; [done|]. cbn [forallb] in H. apply andb_prop in H as [Hd H].
  rewrite digits_value_cons. unfold is_digit in Hd. prop_bools. specialize (IH H).
  assert (0 <= 10 ^ zlen ds) by (apply Z.pow_nonneg; lia). nia.
Qed.

Lemma strtoull_u64 p v rest e : strtoull p = Some (v, rest, e) -> is_u64 v.
Proof.
  unfold strtoull.
  set (m := match skip_while is_space p with 45 :: t => _ | 43 :: t => _ | _ => _ end).
  destruct m as [neg p2].
  destruct (span is_digit p2) as [ds r] eqn:Es. apply span_spec in Es as [Hd _].
  apply digits_value_nonneg in Hd. intros H.
  destruct ds as [|d ds]; [done|]. unfold is_u64.
  destruct (Z.ltb_spec UINT64_MAX (digits_value (d :: ds))); simplify_eq;
    [vm_compute; split; discriminate|].
  destruct neg; [|lia]. unfold u64, UINT64_MAX. pose proof (Z.mod_pos_bound (- digits_value (d :: ds)) (2 ^ 64)). lia.
Qed.

Lemma strtoull_checked_u64 p v rest : strtoull_checked p = Some (v, rest) -> is_u64 v.
Proof.
  unfold strtoull_checked. intros H.
  assert (exists e, strtoull p = Some (v, rest, e)) as [e He].
  { destruct (strtoull p) as [[[v' r'] [|]]|]; repeat case_match; simplify_eq; eauto. }
  by eapply strtoull_u64.
Qed.

Lemma parse_u64_items_u64 fuel : forall p count cap vs rest,
  parse_u64_items fuel p count cap = Some (vs, rest) -> Forall is_u64 vs.
Proof.
  induction fuel as [|fuel IH]; intros p count cap vs rest H; [done|]. cbn [parse_u64_items] in H.
  destruct (eat 93 _); [by simplify_eq; constructor|].
  destruct (strtoull_checked _) as [[v r]|] eqn:Ev; [|done]. apply strtoull_checked_u64 in Ev.
  case_if_in H; [done|]. destruct (eat 93 (skip_while is_blank r)).
  { simplify_eq. apply list.Forall_singleton. done. }
  destruct (eat 44 _); [|done]. destruct (parse_u64_items fuel _ _ _) as [[vs' r']|] eqn:Ep; [|done].
  simplify_eq. constructor; [done|]. by eapply IH.
Qed.

Lemma extract_u64_is T name v : extract_u64 T name = Some v -> is_u64 v.
Proof.
  unfold extract_u64, extract_u64_checked. destruct (find_field _ _ _ _); [|done].
  destruct (strtoull_checked _) as [[v' r]|] eqn:E; [|done]. intros [= <-].
  by eapply strtoull_checked_u64.
Qed.

(** A version 4 page set: increasing page numbers of the database, with the
    increasing offsets of their blocks inside the segment. *)
Definition page_set_ok (db : Z) (r : otsardb_manifest_segment_ref) : Prop :=
  Forall (fun p => 0 < p <= db) (sg_pages r) /\ StronglySorted Z.lt (sg_pages r) /\
  match sg_frame_offsets r with
  | None => True
  | Some o => length o = length (sg_pages r) /\ Forall (fun x => x < sg_size r) o /\
              StronglySorted Z.lt o
  end.

Lemma pages_valid_from_spec db ps : forall prev,
  Forall is_u64 ps -> pages_valid_from prev ps db = true ->
  Forall (fun p => 0 < p <= db) ps /\ StronglySorted Z.lt ps /\
  match prev with Some a => Forall (Z.lt a) ps | None => True end.
Proof.
  induction ps as [|p ps IH]; intros prev Hu H.
  - split_and!; try constructor. by destruct prev.
  - apply list.Forall_cons in Hu as [Hp Hu]. cbn [pages_valid_from] in H.
    repeat (case_if_in H; [done|]). apply IH in H as (Hf & Hs & Hlt); [|done]. prop_bools.
    unfold is_u64 in Hp. split_and!.
    + constructor; [lia|done].
    + by constructor.
    + destruct prev as [a|]; [|done]. prop_bools. constructor; [lia|].
      eapply list.Forall_impl; [exact Hlt|]. cbn. lia.
Qed.

Lemma offsets_valid_from_spec size os : forall prev,
  offsets_valid_from prev os size = true ->
  Forall (fun o => o < size) os /\ StronglySorted Z.lt os /\
  match prev with Some a => Forall (Z.lt a) os | None => True end.
Proof.
  induction os as [|o os IH]; intros prev H.
  - split_and!; try constructor. by destruct prev.
  - cbn [offsets_valid_from] in H.
    repeat (case_if_in H; [done|]). apply IH in H as (Hf & Hs & Hlt). prop_bools.
    split_and!.
    + by constructor.
    + by constructor.
    + destruct prev as [a|]; [|done]. prop_bools. constructor; [lia|].
      eapply list.Forall_impl; [exact Hlt|]. cbn. lia.
Qed.

Lemma parse_page_set_sound db size p pages offsets rest r :
  parse_page_set db size p = Some (pages, offsets, rest) ->
  sg_size r = size -> sg_pages r = pages -> sg_frame_offsets r = offsets -> page_set_ok db r.
Proof.
  unfold parse_page_set, parse_u32_list, parse_u64_list. intros H Es Ep Eo.
  destruct (expect PAGES_MARKER p) as [p1|]; [|done].
  destruct (parse_u64_items _ p1 0 0) as [[ps p2]|] eqn:E1; [|done].
  apply parse_u64_items_u64 in E1. destruct (forallb _ ps); [|done].
  assert (pages_list_valid ps db = true /\ pages = ps /\
    match offsets with None => True | Some o => zlen o = zlen ps /\ frame_offsets_valid o size = true end)
    as (Hv & -> & Ho).
  { destruct (expect OFFSETS_MARKER p2) as [p3|].
    - destruct (parse_u64_items _ p3 0 0) as [[os p4]|]; [|done].
      repeat (case_if_in H; [done|]). destruct (pages_list_valid ps db); [|done]. cbn in H.
      simplify_eq. prop_bools. split_and!; try done. rewrite <- H0. by destruct os.
    - destruct (pages_list_valid ps db); [|done]. cbn in H. injection H as <- <- <-. done. }
  unfold page_set_ok. rewrite Es, Ep, Eo.
  apply (pages_valid_from_spec db ps None) in Hv as (Hf & Hs & _); [|done].
  split_and!; try done. destruct offsets as [o|]; [|done]. destruct Ho as [Hl Hov].
  apply (offsets_valid_from_spec size o None) in Hov as (? & ? & _). unfold zlen in Hl.
  split_and!; [lia|done|done].
Qed.

Lemma no_pages_ok db r : sg_pages r = [] -> sg_frame_offsets r = None -> page_set_ok db r.
Proof. unfold page_set_ok. intros -> ->. split_and!; constructor. Qed.

Lemma parse_segments_sound fuel fv db : forall p rs,
  parse_segments fuel fv db p = Some rs -> Forall (page_set_ok db) rs.
Proof.
  induction fuel as [|fuel IH]; intros p rs H; cbn [parse_segments] in H.
  { destruct (eat 93 p); [|done]. simplify_eq. constructor. }
  destruct (parse_segment_entry fv db p) as [[r p1]|] eqn:Er; [|done].
  assert (page_set_ok db r) as Hr.
  { unfold parse_segment_entry in Er. repeat (case_match; simplify_eq; try done).
    all: first [by eapply parse_page_set_sound | by apply no_pages_ok]. }
  destruct (eat 93 _); [simplify_eq; by apply list.Forall_singleton|]. destruct (eat 44 _); [|done].
  destruct (parse_segments fuel fv db _) as [rs'|] eqn:Ers; [|done]. simplify_eq.
  constructor; [done|]. by eapply IH.
Qed.

Lemma parent_link_sound m :
  manifest_parent_is_valid m = true -> is_u64 (cm_parent_generation m) -> cm_generation m <> 0 ->
  if cm_parent_generation m =? 0
  then cm_generation m = 1 /\ cm_parent_commit_id m = []
  else cm_generation m = cm_parent_generation m + 1 /\ cm_parent_commit_id m <> [] /\
       (2 <= cm_format_version m -> zlen (cm_parent_manifest_sha256 m) = 64).
Proof.
  intros Hpv Hpg Hg0. unfold manifest_parent_is_valid in Hpv.
  destruct (Z.eqb_spec (cm_parent_generation m) 0);
    repeat (case_if_in Hpv; [done|]); prop_bools.
  - split; [lia|by apply zlen_0].
  - match goal with Hx : u64 _ = cm_generation m |- _ => rename Hx into Hu end.
    unfold u64, is_u64, UINT64_MAX in *. split_and!.
    + destruct (Z.eq_dec (cm_parent_generation m + 1) (2 ^ 64)) as [Ew|];
        [rewrite Ew, Z.mod_same in Hu by lia; lia|]. rewrite Z.mod_small in Hu; lia.
    + intros Enil. by rewrite Enil in *.
    + intros Hv2. destruct (Z.leb_spec 2 (cm_format_version m)); [|lia]. cbn in *. prop_bools. done.
Qed.

Lemma decode_flat_pages T db ref : decode_flat T = Some ref -> page_set_ok db ref.
Proof. unfold decode_flat. intros H. repeat case_match; simplify_eq. by apply no_pages_ok. Qed.

Lemma decode_versioned_pages T z db psha segs cks :
  decode_versioned T z db = Some (psha, segs, cks) -> Forall (page_set_ok db) segs.
Proof.
  unfold decode_versioned. intros H. repeat (case_match; try done); simplify_eq; try constructor.
  all: match goal with Hx : extract_segments _ _ _ = Some _ |- _ =>
         unfold extract_segments in Hx; destruct (find_after _ _); [|done];
         by eapply parse_segments_sound in Hx end.
Qed.

Lemma manifest_decode_facts (json : bytes) (m : otsardb_commit_manifest) :
  otsardb_commit_manifest_decode_json json = Some m ->
  1 <= cm_format_version m <= 4 /\
  1 <= zlen (cm_segments m) <= 128 /\
  Forall (fun r => sg_key r <> [] /\ zlen (sg_sha256 r) = 64) (cm_segments m) /\
  (if cm_parent_generation m =? 0
   then cm_generation m = 1 /\ cm_parent_commit_id m = []
   else cm_generation m = cm_parent_generation m + 1 /\ cm_parent_commit_id m <> [] /\
        (2 <= cm_format_version m -> zlen (cm_parent_manifest_sha256 m) = 64)) /\
  Forall (page_set_ok (cm_database_size_pages m)) (cm_segments m).
Proof.
  unfold otsardb_commit_manifest_decode_json. intros H.
  case_if_in H; [done|]. set (T := cstr json) in *.
  destruct (extract_u64 T (str "otsardb_format")) as [z|]; [|done].
  destruct (extract_u64 T (str "generation")) as [z0|]; [|done].
  destruct (extract_u64 T (str "parent_generation")) as [pg|] eqn:Epg; [|done].
  apply extract_u64_is in Epg.
  destruct (extract_u64 T (str "page_size")) as [psz|]; [|done].
  destruct (extract_u64 T (str "database_size_pages")) as [db|]; [|done].
  do 3 (destruct (extract_string _ _ _ _) as [?|]; [|done]).
  rename H into H'. destruct (decode_versioned T z db) as [[[psha segs] cks]|] eqn:Ev; [|done].
  case_if_in H'; [done|].
  assert (decode_checks m = true /\ cm_format_version m = u32 z /\
    cm_generation m = z0 /\ cm_generation m <> 0 /\ is_u64 (cm_parent_generation m) /\
    Forall (page_set_ok (cm_database_size_pages m)) (cm_segments m))
    as (Hchk & Ef & Eg & Hg0 & Hpg & Hps).
  { prop_bools. destruct ((z =? 1) || (z =? 2)) eqn:E12.
    - destruct (decode_flat T) as [ref|] eqn:Efl; [|done]. case_if_in H'; [|done].
      injection H' as <-. cbn in *. split_and!; try done. apply list.Forall_singleton.
      by eapply decode_flat_pages.
    - case_if_in H'; [|done]. injection H' as <-. cbn in *. split_and!; try done.
      by eapply decode_versioned_pages. }
  unfold decode_checks, cm_segment_count, OTSARDB_MANIFEST_MAX_SEGMENTS in Hchk.
  prop_bools. unfold format_allowed, OTSARDB_COMMIT_MANIFEST_VERSION in *. prop_bools.
  pose proof (zlen_nonneg (cm_segments m)).
  split_and!; try lia; [..|done].
  - apply list.Forall_forall. intros r Hr%list_elem_of_In.
    match goal with Hx : forallb _ (cm_segments m) = true |- _ =>
      rewrite forallb_forall in Hx; specialize (Hx r Hr) end.
    prop_bools. split; [|done]. intros Enil. by rewrite Enil in *.
  - by apply parent_link_sound.
Qed.

(** C33. Whatever text the decoder accepts, the manifest it returns is usable:
    it has between 1 and 128 segments, each with a key and a full digest; its
    parent link is consistent (generation 1 has no parent, any other generation
    follows its parent's and, from version 2 on, carries the parent's digest);
    and every page set (empty below version 4) is strictly increasing within
    the database and its frame offsets are as many, strictly increasing and
    inside the segment. *)
Theorem manifest_decode_sound (json : bytes) (m : otsardb_commit_manifest) :
  otsardb_commit_manifest_decode_json json = Some m ->
  1 <= cm_format_version m <= 4 /\
  1 <= zlen (cm_segments m) <= 128 /\
  Forall (fun r => sg_key r <> [] /\ zlen (sg_sha256 r) = 64) (cm_segments m) /\
  (if cm_parent_generation m =? 0
   then cm_generation m = 1 /\ cm_parent_commit_id m = []
   else cm_generation m = cm_parent_generation m + 1 /\ cm_parent_commit_id m <> [] /\
        (2 <= cm_format_version m -> zlen (cm_parent_manifest_sha256 m) = 64)) /\
  Forall (page_set_ok (cm_database_size_pages m)) (cm_segments m).
Proof. apply manifest_decode_facts. Qed.

Lemma manifest_decode_sound_witness :
  Forall (page_set_ok 3) (cm_segments sample_manifest).
Proof.
  destruct (manifest_decode_sound (manifest_json sample_manifest) sample_manifest)
    as (_ & _ & _ & _ & H).
  - vm_compute. reflexivity.
  - exact H.
Defined.

(** ** Where the decoder is laxer than it means to be *)

(** A manifest text announcing format [2^32 + 1]. *)
Definition wrapped_format_json : bytes :=
  let m := mkManifest 4294967297 1 0 512 3 (str "db-1") (str "c-1") [] [] [] [] in
  manifest_header_json m ++
  segment_literal_write (mkSegmentRef (str "segments/x") (replicate 64 97) 900 [] None) false ++
  str "]}" ++ [10].

(** The range check of the format runs on its low 32 bits: a text that
    announces version [2^32 + 1] is accepted as a version 1 manifest. *)
Theorem manifest_format_truncated :
  extract_u64 wrapped_format_json (str "otsardb_format") = Some 4294967297 /\
  option_map cm_format_version (otsardb_commit_manifest_decode_json wrapped_format_json) = Some 1.
Proof. vm_compute. split; reflexivity. Qed.

(** The sign check looks at the first character after blanks and tabs, while
    [strtoull] also skips newlines: a negative number after a newline is read
    modulo [2^64]. *)
Theorem manifest_negative_accepted :
  extract_u64 (q "generation" ++ str ":" ++ [10] ++ str "-1,") (str "generation")
  = Some UINT64_MAX.
Proof. vm_compute. reflexivity. Qed.
