(* ===== verification/CommitPublish.v ===== *)
(** * Commit publication (commit_publish.c)

    A commit is published in three steps: every segment is uploaded as an
    immutable object, then the manifest, and only then HEAD is moved, by a
    conditional put or, for the single-writer strategy, unconditionally after
    checking the parent. This file also models the resolution of an ambiguous
    publication and the page-overlap classification of a lost race. The cipher
    of encrypted publications is an interface. *)

From S2P Require Import Prelude CText JsonText ObjectStore Journal Sha256 Codec WalBatch.
From S2P Require Import Segment CommitManifest.

Inductive otsardb_write_strategy :=
  | OTSARDB_WRITE_STRATEGY_DEFAULT
  | OTSARDB_WRITE_STRATEGY_CAS
  | OTSARDB_WRITE_STRATEGY_SINGLE_WRITER.

(** A NULL page set is [None]. *)
Record otsardb_segment_input := mkSegmentInput {
  si_payload : bytes;
  si_pages : option (list Z)
}.

(** The cipher interface: the ciphertext stream (with the IV drawn for segment
    [i]) and the authenticated envelope with its tag. *)
Record otsardb_cipher := mkCipher {
  cipher_encrypt_stream : Z -> bytes -> option (bytes * bytes);
  cipher_encrypt_with_aad : bytes -> bytes -> bytes -> option (bytes * bytes)
}.

(** NULL strings, payloads and arrays are [None]. *)
Record otsardb_commit_request := mkRequest {
  rq_database_root : bytes;
  rq_database_id : bytes;
  rq_commit_id : bytes;
  rq_parent_commit_id : option bytes;
  rq_parent_manifest_sha256 : option bytes;
  rq_parent_generation : Z;
  rq_page_size : Z;
  rq_database_size_pages : Z;
  rq_segment_payload : option bytes;
  rq_segments : option (list otsardb_segment_input);
  rq_segment_count : Z;
  rq_post_apply_checksum : option bytes;
  rq_expected_head_etag : option bytes;
  rq_create_head_if_missing : bool;
  rq_write_strategy : otsardb_write_strategy;
  rq_cipher : option otsardb_cipher
}.

Inductive otsardb_commit_state :=
  | OTSARDB_COMMIT_STATE_UNKNOWN
  | OTSARDB_COMMIT_STATE_COMMITTED
  | OTSARDB_COMMIT_STATE_NOT_COMMITTED
  | OTSARDB_COMMIT_STATE_SUPERSEDED.

Record otsardb_commit_result := mkCommitResult {
  cr_head : otsardb_head;
  cr_manifest : otsardb_commit_manifest;
  cr_head_etag : bytes
}.

Definition str_of (s : option bytes) : bytes := default [] s.

Definition effective_strategy (r : otsardb_commit_request) : otsardb_write_strategy :=
  match rq_write_strategy r with
  | OTSARDB_WRITE_STRATEGY_DEFAULT => OTSARDB_WRITE_STRATEGY_CAS
  | s => s
  end.

Definition valid_parent_request (r : otsardb_commit_request) : bool :=
  if rq_create_head_if_missing r then
    (rq_parent_generation r =? 0) && (zlen (str_of (rq_parent_commit_id r)) =? 0) &&
    (zlen (str_of (rq_parent_manifest_sha256 r)) =? 0)
  else
    (0 <? rq_parent_generation r) && negb (zlen (str_of (rq_parent_commit_id r)) =? 0) &&
    match rq_parent_manifest_sha256 r with
    | Some sha => zlen sha =? OTSARDB_MANIFEST_SHA256_HEX_SIZE
    | None => false
    end.

(** The inputs ([None]: the legacy single payload) and their count. *)
Definition resolve_segment_inputs (r : otsardb_commit_request)
  : option (option (list otsardb_segment_input) * Z) :=
  match rq_segments r, rq_segment_payload r with
  | Some _, Some _ => None
  | Some segs, None => Some (Some (take (Z.to_nat (rq_segment_count r)) segs), rq_segment_count r)
  | None, Some _ => if rq_segment_count r =? 0 then Some (None, 1) else None
  | None, None => None
  end.

Fixpoint page_input_valid_from (prev : option Z) (pages : list Z) : bool :=
  match pages with
  | [] => true
  | p :: rest =>
      if p =? 0 then false
      else if match prev with Some q => p <=? q | None => false end then false
      else page_input_valid_from (Some p) rest
  end.
Definition valid_page_input (pages : option (list Z)) : bool :=
  page_input_valid_from None (default [] pages).

(** ** Encryption of segments *)

Record otsardb_segment_enc_entry := mkEncEntry {
  ee_present : bool;
  ee_alg : bytes;
  ee_iv : bytes;
  ee_tag : bytes
}.
Definition no_enc_entry : otsardb_segment_enc_entry := mkEncEntry false [] [] [].

Definition OTSARDB_CIPHER_ALG_NAME : bytes := str "AES-256-GCM".

Definition segment_aad_build (absolute_key commit_id : bytes) : bytes :=
  absolute_key ++ [10] ++ commit_id.

(** [segments/sha256/%.2s/%s.otsseg] *)
Definition segment_suffix_of (key_hash : bytes) : bytes :=
  str "segments/sha256/" ++ take 2 key_hash ++ str "/" ++ key_hash ++ str ".otsseg".

(** [root_join] of an object suffix. *)
Definition object_key (root suffix : bytes) : option bytes :=
  if OTSARDB_KEY_MAX + 1 <=? zlen suffix then None
  else root_join root suffix (OTSARDB_KEY_MAX + 1).

Definition enc_entry_json_write (e : otsardb_segment_enc_entry) : bytes :=
  if negb (ee_present e) then str "{}"
  else str "{" ++ q "alg" ++ str ":" ++ quoted (ee_alg e) ++
       str "," ++ q "iv" ++ str ":" ++ quoted (otsardb_sha256_hex (ee_iv e)) ++
       str "," ++ q "tag" ++ str ":" ++ quoted (otsardb_sha256_hex (ee_tag e)) ++ str "}".

(** The text without its trailing newlines, and those newlines. *)
Fixpoint split_newlines (text : bytes) : bytes * bytes :=
  match text with
  | [] => ([], [])
  | c :: t =>
      let '(a, b) := split_newlines t in
      match a with
      | [] => if c =? 10 then ([], c :: b) else ([c], b)
      | _ => (c :: a, b)
      end
  end.

Section Publish.
Context `{HSha : Sha256} `{HLz4 : Lz4}.
Context {S : Type} (store : otsardb_object_store S).

(** The envelope, its entry and the hash its key is derived from. *)
Definition segment_encrypt_envelope (cipher : otsardb_cipher) (i : Z) (root commit_id data : bytes)
  : option (bytes * otsardb_segment_enc_entry * bytes) :=
  match cipher_encrypt_stream cipher i data with
  | None => None
  | Some (iv, stream) =>
      let key_hex := otsardb_sha256_hex_data (iv ++ stream) in
      match object_key root (segment_suffix_of key_hex) with
      | None => None
      | Some absolute_key =>
          match cipher_encrypt_with_aad cipher iv (segment_aad_build absolute_key commit_id) data with
          | None => None
          | Some (envelope, tag) =>
              Some (envelope, mkEncEntry true OTSARDB_CIPHER_ALG_NAME iv tag, key_hex)
          end
      end
  end.

(** The manifest text with the array spliced before its last brace. *)
Definition manifest_inject_segment_enc (json : bytes) (entries : list otsardb_segment_enc_entry)
  : option (bytes * bytes) :=
  let '(body, newlines) := split_newlines json in
  match last_byte body with
  | Some 125 =>
      let out := take (length body - 1) body ++ str "," ++ q "segment_enc" ++ str ":[" ++
                 comma_list (enc_entry_json_write <$> entries) ++ str "]" ++ str "}" ++ newlines in
      if INT_MAX <? zlen out then None else Some (out, otsardb_sha256_hex_data out)
  | _ => None
  end.

(** ** Immutable objects *)

Definition existing_object_matches (key data : bytes) : M S otsardb_journal_result :=
  let! rc := otsardb_store_get store key in
  match rc with
  | inl OTSARDB_STORE_NOT_FOUND => return! OTSARDB_JOURNAL_NOT_FOUND
  | inl _ => return! OTSARDB_JOURNAL_ERROR
  | inr existing => return! if bytes_eqb (so_data existing) data then OTSARDB_JOURNAL_OK
                            else OTSARDB_JOURNAL_CONFLICT
  end.

(** After a timeout: a missing object leaves the outcome ambiguous. *)
Definition resolve_timeout (key data : bytes) : M S otsardb_journal_result :=
  let! resolved := existing_object_matches key data in
  return! match resolved with
          | OTSARDB_JOURNAL_NOT_FOUND => OTSARDB_JOURNAL_AMBIGUOUS
          | r => r
          end.

Definition immutable_put (key data : bytes) : M S otsardb_journal_result :=
  if otsardb_store_supports store OTSARDB_STORE_CAP_CONDITIONAL_CREATE then
    let! rc := otsardb_store_put store key data (mkPutOptions true None) in
    match rc with
    | inr _ => return! OTSARDB_JOURNAL_OK
    | inl OTSARDB_STORE_PRECONDITION_FAILED => existing_object_matches key data
    | inl OTSARDB_STORE_TIMEOUT => resolve_timeout key data
    | inl OTSARDB_STORE_UNSUPPORTED => return! OTSARDB_JOURNAL_UNSUPPORTED
    | inl _ => return! OTSARDB_JOURNAL_ERROR
    end
  else
    let! existing := existing_object_matches key data in
    match existing with
    | OTSARDB_JOURNAL_NOT_FOUND =>
        let! rc := otsardb_store_put store key data plain_put in
        match rc with
        | inr _ => return! OTSARDB_JOURNAL_OK
        | inl OTSARDB_STORE_TIMEOUT => resolve_timeout key data
        | inl OTSARDB_STORE_UNSUPPORTED => return! OTSARDB_JOURNAL_UNSUPPORTED
        | inl _ => return! OTSARDB_JOURNAL_ERROR
        end
    | r => return! r
    end.

(** A step that goes on only with [OTSARDB_JOURNAL_OK]. *)
Definition require_ok (m : M S otsardb_journal_result) : M S (otsardb_journal_result + unit) :=
  let! rc := m in
  return! match rc with OTSARDB_JOURNAL_OK => inr tt | r => inl r end.

Definition fail_with {A} (rc : otsardb_journal_result) : M S (otsardb_journal_result + A) :=
  return! inl rc.

Definition validate_single_writer_parent (r : otsardb_commit_request) : M S otsardb_journal_result :=
  let! (rc, res) := otsardb_journal_read_head store (rq_database_root r) in
  if rq_create_head_if_missing r then
    return! match rc with
            | OTSARDB_JOURNAL_NOT_FOUND => OTSARDB_JOURNAL_OK
            | OTSARDB_JOURNAL_OK => OTSARDB_JOURNAL_CONFLICT
            | rc => rc
            end
  else
    match rc, res with
    | OTSARDB_JOURNAL_OK, Some (current, _) =>
        return! if negb (bytes_eqb (hd_database_id current) (rq_database_id r)) ||
                   negb (hd_generation current =? rq_parent_generation r) ||
                   negb (bytes_eqb (hd_commit_id current) (str_of (rq_parent_commit_id r))) ||
                   negb (bytes_eqb (hd_commit_sha256 current) (str_of (rq_parent_manifest_sha256 r)))
                then OTSARDB_JOURNAL_CONFLICT else OTSARDB_JOURNAL_OK
    | rc, _ => return! rc
    end.

(** ** Publication *)

(** The checks on the request alone; the result is the segment inputs. *)
Definition request_inputs (r : otsardb_commit_request)
  : option (option (list otsardb_segment_input) * Z) :=
  match resolve_segment_inputs r with
  | None => None
  | Some (inputs, count) =>
      if (zlen (rq_commit_id r) =? 0) || (rq_page_size r =? 0) ||
         (count =? 0) || (OTSARDB_MANIFEST_MAX_SEGMENTS <? count) ||
         (OTSARDB_COMMIT_ID_MAX <? zlen (rq_database_id r)) ||
         (OTSARDB_COMMIT_ID_MAX <? zlen (rq_commit_id r)) ||
         (OTSARDB_COMMIT_ID_MAX <? zlen (str_of (rq_parent_commit_id r))) ||
         negb (valid_parent_request r)
      then None
      else if forallb (fun i => valid_page_input (si_pages i)) (default [] inputs)
      then Some (inputs, count) else None
  end.

(** The strategy's preconditions. *)
Definition check_strategy (r : otsardb_commit_request) : M S (otsardb_journal_result + unit) :=
  match effective_strategy r with
  | OTSARDB_WRITE_STRATEGY_SINGLE_WRITER =>
      match rq_expected_head_etag r with
      | Some _ => fail_with OTSARDB_JOURNAL_INVALID
      | None => require_ok (validate_single_writer_parent r)
      end
  | _ =>
      if rq_create_head_if_missing r then
        if negb (otsardb_store_supports store OTSARDB_STORE_CAP_CONDITIONAL_CREATE)
        then fail_with OTSARDB_JOURNAL_UNSUPPORTED
        else match rq_expected_head_etag r with
             | Some _ => fail_with OTSARDB_JOURNAL_INVALID
             | None => return! inr tt
             end
      else
        if negb (otsardb_store_supports store OTSARDB_STORE_CAP_CONDITIONAL_UPDATE)
        then fail_with OTSARDB_JOURNAL_UNSUPPORTED
        else match rq_expected_head_etag r with
             | None => fail_with OTSARDB_JOURNAL_INVALID
             | Some _ => return! inr tt
             end
  end.

(** Encode (and encrypt) segment [i]: the object, its digest, the hash its key
    is derived from, its encryption entry and the frame index. *)
Definition prepare_segment (r : otsardb_commit_request) (cipher : option otsardb_cipher) (i : Z)
    (payload : bytes)
  : option (bytes * bytes * bytes * otsardb_segment_enc_entry * otsardb_segment_frame_info) :=
  match otsardb_segment_encode_with_frames OTSARDB_SEGMENT_WAL_FRAMES (rq_commit_id r) payload true with
  | None => None
  | Some (data, sha, frames) =>
      match cipher with
      | None => Some (data, sha, sha, no_enc_entry, frames)
      | Some c =>
          match segment_encrypt_envelope c i (rq_database_root r) (rq_commit_id r) data with
          | None => None
          | Some (envelope, entry, key_hex) =>
              Some (envelope, otsardb_sha256_hex_data envelope, key_hex, entry, frames)
          end
      end
  end.

(** Offsets are recorded for a plain segment whose blocks are exactly the
    requested pages. *)
Definition recorded_offsets (encrypted : bool) (pages : option (list Z))
    (frames : otsardb_segment_frame_info) : option (list Z) :=
  match pages with
  | Some p => if negb encrypted && bytes_eqb (fi_page_nos frames) p
              then match fi_offsets frames with [] => None | o => Some o end
              else None
  | None => None
  end.

Definition upload_segment (r : otsardb_commit_request) (cipher : option otsardb_cipher) (i : Z)
    (input : otsardb_segment_input)
  : M S (otsardb_journal_result + (otsardb_manifest_segment_ref * otsardb_segment_enc_entry)) :=
  match prepare_segment r cipher i (si_payload input) with
  | None => fail_with OTSARDB_JOURNAL_ERROR
  | Some (data, sha, key_hash, entry, frames) =>
      let suffix := segment_suffix_of key_hash in
      match object_key (rq_database_root r) suffix with
      | None => fail_with OTSARDB_JOURNAL_INVALID
      | Some key =>
          let? _ := require_ok (immutable_put key data) in
          if (zlen suffix =? 0) || (OTSARDB_MANIFEST_SEGMENT_KEY_MAX + 1 <=? zlen suffix)
          then fail_with OTSARDB_JOURNAL_INVALID
          else return! inr (mkSegmentRef suffix sha (zlen data) (default [] (si_pages input))
                              (recorded_offsets (ee_present entry) (si_pages input) frames), entry)
      end
  end.

Fixpoint upload_segments (r : otsardb_commit_request) (cipher : option otsardb_cipher) (i : Z)
    (inputs : list otsardb_segment_input)
  : M S (otsardb_journal_result + list (otsardb_manifest_segment_ref * otsardb_segment_enc_entry)) :=
  match inputs with
  | [] => return! inr []
  | input :: rest =>
      let? x := upload_segment r cipher i input in
      let? xs := upload_segments r cipher (i + 1) rest in
      return! inr (x :: xs)
  end.

Definition build_manifest (r : otsardb_commit_request) (refs : list otsardb_manifest_segment_ref)
  : otsardb_commit_manifest :=
  mkManifest OTSARDB_COMMIT_MANIFEST_VERSION (u64 (rq_parent_generation r + 1))
    (rq_parent_generation r) (rq_page_size r) (rq_database_size_pages r)
    (snprintf_s 64 (rq_database_id r)) (snprintf_s 64 (rq_commit_id r))
    (snprintf_s 64 (str_of (rq_parent_commit_id r)))
    (snprintf_s 65 (str_of (rq_parent_manifest_sha256 r)))
    refs (snprintf_s 17 (str_of (rq_post_apply_checksum r))).

Definition build_manifest_key (root commit_id : bytes) : option bytes :=
  object_key root (str "commits/" ++ commit_id ++ str ".json").

Definition build_head (r : otsardb_commit_request) (generation : Z) (manifest_key sha : bytes)
  : otsardb_head :=
  mkHead 1 generation (snprintf_s 64 (rq_database_id r)) (snprintf_s 64 (rq_commit_id r))
    (snprintf_s 1024 manifest_key) (snprintf_s 65 sha).

(** The result manifest does not carry the offsets. *)
Definition drop_offsets (m : otsardb_commit_manifest) : otsardb_commit_manifest :=
  mkManifest (cm_format_version m) (cm_generation m) (cm_parent_generation m) (cm_page_size m)
    (cm_database_size_pages m) (cm_database_id m) (cm_commit_id m) (cm_parent_commit_id m)
    (cm_parent_manifest_sha256 m)
    ((fun r => mkSegmentRef (sg_key r) (sg_sha256 r) (sg_size r) (sg_pages r) None)
       <$> cm_segments m)
    (cm_post_apply_checksum m).

(** The manifest text that is published, with its digest. *)
Definition manifest_text (m : otsardb_commit_manifest)
    (entries : list otsardb_segment_enc_entry) : option (bytes * bytes) :=
  match otsardb_commit_manifest_encode_json m with
  | None => None
  | Some (json, sha) =>
      if existsb ee_present entries then manifest_inject_segment_enc json entries
      else Some (json, sha)
  end.

Definition publish_head_step (r : otsardb_commit_request) (head : otsardb_head)
  : M S (otsardb_journal_result + option bytes) :=
  let! (rc, etag) :=
    match effective_strategy r with
    | OTSARDB_WRITE_STRATEGY_SINGLE_WRITER =>
        otsardb_journal_publish_head_unconditional store (rq_database_root r) head
    | _ => otsardb_journal_publish_head store (rq_database_root r) head
             (rq_expected_head_etag r) (rq_create_head_if_missing r)
    end in
  return! match rc with OTSARDB_JOURNAL_OK => inr etag | rc => inl rc end.

(** [thread_cipher] is the session's cipher of the calling thread. *)
Definition otsardb_publish_commit (thread_cipher : option otsardb_cipher)
    (r : otsardb_commit_request) : M S (otsardb_journal_result + otsardb_commit_result) :=
  match request_inputs r with
  | None => fail_with OTSARDB_JOURNAL_INVALID
  | Some (inputs, count) =>
      let? _ := check_strategy r in
      let cipher := match rq_cipher r with Some c => Some c | None => thread_cipher end in
      let inputs :=
        match inputs with
        | Some l => l
        | None => [mkSegmentInput (str_of (rq_segment_payload r)) None]
        end in
      let? uploaded := upload_segments r cipher 0 inputs in
      let manifest := build_manifest r (uploaded.*1) in
      match manifest_text manifest (uploaded.*2) with
      | None => fail_with OTSARDB_JOURNAL_ERROR
      | Some (json, sha) =>
          match build_manifest_key (rq_database_root r) (rq_commit_id r) with
          | None => fail_with OTSARDB_JOURNAL_INVALID
          | Some manifest_key =>
              let? _ := require_ok (immutable_put manifest_key json) in
              let head := build_head r (cm_generation manifest) manifest_key sha in
              let? etag := publish_head_step r head in
              return! inr (mkCommitResult head (drop_offsets manifest)
                             (snprintf_s 128 (str_of etag)))
          end
      end
  end.
End Publish.
