(* ===== verification/CommitPublishTheory.v ===== *)
(** * Commit publication: theorems

    Publication is crash-safe: over any lawful store with conditional creation,
    whatever fails and wherever the writer stops, HEAD never designates a
    manifest or a segment that is not stored with the recorded digest. *)

From Stdlib Require Import Sorting.Sorted.
From S2P Require Import Prelude CText JsonText ObjectStore Journal Sha256 Codec WalBatch.
From S2P Require Import Segment SegmentTheory CommitManifest CommitManifestTheory.
From S2P Require Import CommitPublish.

(** ** The invariant *)

Section Closed.
Context `{HSha : Sha256} (root : bytes).

Definition holds (v : contents) (key data : bytes) : Prop :=
  exists ob, v !! key = Some ob /\ so_data ob = data.

(** A segment reference is backed by an object with its digest and size. *)
Definition ref_backed (v : contents) (r : otsardb_manifest_segment_ref) : Prop :=
  exists key data, object_key root (sg_key r) = Some key /\ holds v key data /\
    otsardb_sha256_hex_data data = sg_sha256 r /\ zlen data = sg_size r.

(** A head is backed by its manifest, and the manifest by its segments. *)
Definition head_backed (v : contents) (h : otsardb_head) : Prop :=
  exists json m, holds v (hd_commit_key h) json /\
    otsardb_sha256_hex_data json = hd_commit_sha256 h /\
    otsardb_commit_manifest_decode_json json = Some m /\
    cm_generation m = hd_generation h /\ cm_commit_id m = hd_commit_id h /\
    cm_database_id m = hd_database_id h /\
    Forall (ref_backed v) (cm_segments m).

(** HEAD designates only what is stored. *)
Definition head_closed (v : contents) : Prop :=
  forall hk ob h, build_head_key root (OTSARDB_KEY_MAX + 1) = Some hk -> v !! hk = Some ob ->
    otsardb_head_decode_json (so_data ob) = Some h -> head_backed v h.

(** Keys of the immutable objects of the database. *)
Definition immutable_suffix (suffix : bytes) : bool :=
  prefixb (str "segments/") suffix || prefixb (str "commits/") suffix.
Definition immutable_key (k : bytes) : Prop :=
  exists suffix, immutable_suffix suffix = true /\ object_key root suffix = Some k.

(** What one client's operations, or those of its peers, may do. *)
Definition keeps (v w : contents) : Prop :=
  forall k data, immutable_key k -> holds v k data -> holds w k data.
Definition safe_step (v w : contents) : Prop :=
  keeps v w /\ (head_closed v -> head_closed w).

#[export] Instance safe_step_preorder : PreOrder safe_step.
Proof.
  split.
  - intros v. split; [by intros k d _ H|done].
  - intros u v w [K1 C1] [K2 C2]. split; [|by auto]. intros k d Hk H. by apply K2, K1.
Qed.

(** ** Inserting an immutable object *)

Lemma holds_insert v k k' ob data : v !! k = None -> holds v k' data -> holds (<[k := ob]> v) k' data.
Proof.
  intros Hn (o & Ho & Hd). exists o. split; [|done].
  rewrite lookup_insert_ne; [done|]. intros ->. congruence.
Qed.

Lemma head_backed_mono (v w : contents) h :
  (forall k data, holds v k data -> holds w k data) -> head_backed v h -> head_backed w h.
Proof.
  intros Hm (json & m & Hj & Hs & Hd & Hg & Hc & Hi & Hall). exists json, m.
  split_and!; auto. eapply list.Forall_impl; [exact Hall|].
  intros r (key & data & Hk & Hh & Hs' & Hl). exists key, data. auto.
Qed.

Lemma insert_fresh_safe v k ob :
  v !! k = None -> build_head_key root (OTSARDB_KEY_MAX + 1) <> Some k ->
  safe_step v (<[k := ob]> v).
Proof.
  intros Hn Hne. split.
  - intros k' data _. by apply holds_insert.
  - intros Hc hk ob' h Hk Hl Hd. rewrite lookup_insert_ne in Hl by congruence.
    eapply head_backed_mono; [|by eapply Hc]. intros k' data. by apply holds_insert.
Qed.
Lemma ref_backed_keeps v w ref :
  immutable_suffix (sg_key ref) = true -> keeps v w -> ref_backed v ref ->
  ref_backed w ref.
Proof.
  intros Hi Hk (key & data & Ek & Hh & Hs & Hl). exists key, data. split_and!; try done.
  apply Hk; [|done]. by exists (sg_key ref).
Qed.

End Closed.

(** ** Operations as safe steps *)

Section Safe.
Context `{HSha : Sha256} {S : Type} (store : otsardb_object_store S) (view : S -> contents)
        (env : contents -> contents -> Prop) (Hlaws : StoreLaws store view env).
Context (root : bytes).
Context (Henv : forall v w, env v w -> safe_step root v w).
Context (Hcreate : otsardb_store_supports store OTSARDB_STORE_CAP_CONDITIONAL_CREATE = true).

Definition safe {A} (m : M S A) : Prop :=
  forall s r s', m s = (r, s') -> safe_step root (view s) (view s').

Lemma safe_ret {A} (a : A) : safe (mret_ a).
Proof. intros s r s' [= <- <-]. reflexivity. Qed.

Lemma safe_bind {A B} (m : M S A) (k : A -> M S B) :
  safe m -> (forall a, safe (k a)) -> safe (mbind_ m k).
Proof.
  intros Hm Hk s r s' H. unfold mbind_ in H. destruct (m s) as [a s1] eqn:E.
  transitivity (view s1); [by eapply Hm|by eapply Hk].
Qed.

Lemma safe_bind_err {A B E} (m : M S (E + A)) (k : A -> M S (E + B)) :
  safe m -> (forall a, safe (k a)) -> safe (mbind_err m k).
Proof. intros Hm Hk. apply safe_bind; [done|]. intros [e|a]; [apply safe_ret|apply Hk]. Qed.

Lemma safe_get key : safe (otsardb_store_get store key).
Proof. intros s r s' H. apply Henv. by destruct (get_law _ _ _ _ H). Qed.

Lemma safe_create key data :
  build_head_key root (OTSARDB_KEY_MAX + 1) <> Some key ->
  safe (otsardb_store_put store key data (mkPutOptions true None)).
Proof.
  intros Hne s r s' H. destruct (put_law _ _ _ _ _ _ H) as (w & Hw & Hr).
  assert (forall et, precondition w key (mkPutOptions true None) = true ->
    stored w (view s') key data et -> safe_step root (view s) (view s')) as Hst.
  { intros et Hp (ob & _ & _ & ->). transitivity w; [by apply Henv|].
    unfold precondition in Hp. cbn in Hp. rewrite andb_true_r, bool_decide_eq_true in Hp.
    by apply insert_fresh_safe. }
  destruct r as [e|et]; [|destruct Hr; by eapply Hst].
  assert (view s' = w -> safe_step root (view s) (view s')) as He by (intros ->; by apply Henv).
  destruct e; try (destruct Hr as [Hr|[Hp Hs]]; [by apply He|by eapply Hst]);
    [by apply He, Hr|by apply He].
Qed.

Lemma safe_existing key data : safe (existing_object_matches store key data).
Proof.
  apply safe_bind; [apply safe_get|]. intros [[]|ob]; apply safe_ret.
Qed.

Lemma safe_immutable_put key data :
  build_head_key root (OTSARDB_KEY_MAX + 1) <> Some key -> safe (immutable_put store key data).
Proof.
  intros Hne. unfold immutable_put. rewrite Hcreate. apply safe_bind; [by apply safe_create|].
  intros [[]|et]; try apply safe_ret; [apply safe_existing|].
  apply safe_bind; [apply safe_existing|]. intros r. apply safe_ret.
Qed.

Lemma existing_ok key data s s' :
  existing_object_matches store key data s = (OTSARDB_JOURNAL_OK, s') -> holds (view s') key data.
Proof.
  unfold existing_object_matches, mbind_, mret_.
  destruct (otsardb_store_get store key s) as [r s1] eqn:E. destruct (get_law _ _ _ _ E) as [_ Hr].
  destruct r as [[]|ob]; intros H; try done.
  destruct (bytes_eqb (so_data ob) data) eqn:Eb; [|done]. simplify_eq.
  exists ob. by apply bytes_eqb_eq in Eb.
Qed.

(** An immutable put that reports success leaves the object stored. *)
Lemma immutable_put_ok key data s s' :
  immutable_put store key data s = (OTSARDB_JOURNAL_OK, s') -> holds (view s') key data.
Proof.
  unfold immutable_put. rewrite Hcreate. unfold resolve_timeout, mbind_, mret_.
  destruct (otsardb_store_put store key data _ s) as [r s1] eqn:E.
  destruct (put_law _ _ _ _ _ _ E) as (w & _ & Hr).
  destruct r as [[]|et]; intros H; try done.
  - by eapply existing_ok.
  - destruct (existing_object_matches store key data s1) as [r2 s2] eqn:E2.
    destruct r2; simplify_eq. by eapply existing_ok.
  - simplify_eq. destruct Hr as (_ & ob & Hd & _ & ->). exists ob. by rewrite lookup_insert_eq.
Qed.

Lemma require_ok_inr (m : M S otsardb_journal_result) s s' :
  require_ok m s = (inr tt, s') -> m s = (OTSARDB_JOURNAL_OK, s').
Proof.
  unfold require_ok, mbind_, mret_. destruct (m s) as [rc s1]. destruct rc; intros H; by simplify_eq.
Qed.

Lemma safe_require_ok (m : M S otsardb_journal_result) : safe m -> safe (require_ok m).
Proof. intros Hm. apply safe_bind; [done|]. intros rc. apply safe_ret. Qed.

Lemma safe_read_head : safe (otsardb_journal_read_head store root).
Proof.
  unfold otsardb_journal_read_head. destruct (build_head_key _ _); [|apply safe_ret].
  apply safe_bind; [apply safe_get|]. intros [[]|ob]; try apply safe_ret.
  repeat case_match; apply safe_ret.
Qed.
End Safe.

(** ** Keys *)

Lemma root_join_inj root a b n k :
  root_join root a n = Some k -> root_join root b n = Some k -> a = b.
Proof.
  unfold root_join. intros Ha Hb. repeat case_match; simplify_eq;
    repeat match goal with H : _ ++ _ = _ ++ _ |- _ => apply app_inv_head in H end; done.
Qed.

Lemma root_join_spec root suffix n k :
  root_join root suffix n = Some k ->
  0 < zlen k < n /\ exists sep, k = root ++ sep ++ suffix /\ (sep = [] \/ sep = str "/").
Proof.
  unfold root_join. intros H. case_if_in H; [|done]. injection H as <-. prop_bools.
  split; [lia|]. eexists. split; [done|]. destruct (last_byte root); [|by left].
  destruct (negb _); auto.
Qed.

Lemma object_key_join root suffix k :
  object_key root suffix = Some k -> root_join root suffix (OTSARDB_KEY_MAX + 1) = Some k.
Proof. unfold object_key. by destruct (_ <=? _). Qed.

Lemma immutable_not_head root suffix k :
  immutable_suffix suffix = true -> object_key root suffix = Some k ->
  build_head_key root (OTSARDB_KEY_MAX + 1) <> Some k.
Proof.
  intros Hi Hk Hh. apply object_key_join in Hk. unfold build_head_key in Hh.
  rewrite (root_join_inj _ _ _ _ _ Hk Hh) in Hi. done.
Qed.

(** ** Segments *)

(** A reference as [upload_segment] builds it for a plain segment. *)
Definition ref_built `{Sha256} (input : otsardb_segment_input) (r : otsardb_manifest_segment_ref)
  : Prop :=
  exists data, sg_sha256 r = otsardb_sha256_hex_data data /\
    sg_key r = segment_suffix_of (otsardb_sha256_hex_data data) /\
    sg_size r = zlen data /\ zlen data <= SIZE_MAX /\
    sg_pages r = default [] (si_pages input) /\
    match sg_frame_offsets r with
    | None => True
    | Some o => length o = length (sg_pages r) /\ o <> [] /\ Forall (Z.le 0) o
    end.

(** The object of a reference is the encoding of an input, for commit [cid]. *)
Definition segment_stored `{HSha : Sha256} `{HLz4 : Lz4} (root cid : bytes) (v : contents)
    (input : otsardb_segment_input) (r : otsardb_manifest_segment_ref) : Prop :=
  exists key data info, immutable_suffix (sg_key r) = true /\ object_key root (sg_key r) = Some key /\
    holds v key data /\
    otsardb_segment_encode_with_frames OTSARDB_SEGMENT_WAL_FRAMES cid (si_payload input) true
      = Some (data, sg_sha256 r, info) /\
    zlen data = sg_size r /\ sg_pages r = default [] (si_pages input).

Lemma segment_stored_keeps `{HSha : Sha256} `{HLz4 : Lz4} root cid v w input r :
  keeps root v w -> segment_stored root cid v input r -> segment_stored root cid w input r.
Proof.
  intros Hk (key & data & info & Hi & Hkey & Hh & ? & ? & ?). exists key, data, info.
  split_and!; try done. apply Hk; [by exists (sg_key r)|done].
Qed.

Section Upload.
Context `{HSha : Sha256} `{HLz4 : Lz4} {S : Type} (store : otsardb_object_store S)
        (view : S -> contents) (env : contents -> contents -> Prop)
        (Hlaws : StoreLaws store view env).
Context (r : otsardb_commit_request).
Abbreviation root := (rq_database_root r).
Context (Henv : forall v w, env v w -> safe_step root v w).
Context (Hcreate : otsardb_store_supports store OTSARDB_STORE_CAP_CONDITIONAL_CREATE = true).

Lemma segment_suffix_immutable h : immutable_suffix (segment_suffix_of h) = true.
Proof. reflexivity. Qed.

Lemma safe_upload_segment i input : safe view root (upload_segment store r None i input).
Proof.
  unfold upload_segment. destruct (prepare_segment _ _ _ _) as [[[[[data sha] kh] en] fr]|];
    [|apply safe_ret].
  destruct (object_key root (segment_suffix_of kh)) as [key|] eqn:Ek; [|apply safe_ret].
  apply safe_bind_err.
  - apply safe_require_ok, safe_immutable_put with env; try done.
    eapply immutable_not_head; [apply segment_suffix_immutable|exact Ek].
  - intros []. destruct (_ || _); apply safe_ret.
Qed.

Lemma recorded_offsets_spec pages fr :
  length (fi_offsets fr) = length (fi_page_nos fr) -> Forall (Z.le 0) (fi_offsets fr) ->
  match recorded_offsets false pages fr with
  | None => True
  | Some o => length o = length (default [] pages) /\ o <> [] /\ Forall (Z.le 0) o
  end.
Proof.
  intros Hl Hall. unfold recorded_offsets. destruct pages as [p|]; [|done]. cbn [negb andb].
  destruct (bytes_eqb (fi_page_nos fr) p) eqn:E; [|done]. apply bytes_eqb_eq in E. subst p.
  destruct (fi_offsets fr); [done|]. by split_and!.
Qed.

Lemma upload_segment_spec i input s ref en s' :
  upload_segment store r None i input s = (inr (ref, en), s') ->
  en = no_enc_entry /\ ref_backed root (view s') ref /\ ref_built input ref /\
  segment_stored root (rq_commit_id r) (view s') input ref.
Proof.
  unfold upload_segment, prepare_segment.
  destruct (otsardb_segment_encode_with_frames _ _ _ _) as [[[data sha] fr]|] eqn:Ee; [|done].
  destruct (encode_with_frames_size _ _ _ _ _ _ _ Ee) as (Hsz & -> & Hl & Hall).
  set (suffix := segment_suffix_of (otsardb_sha256_hex_data data)).
  destruct (object_key root suffix) as [key|] eqn:Ek; [|done].
  unfold mbind_err, mbind_ at 1. intros H.
  destruct (require_ok (immutable_put store key data) s) as [[rc|[]] s1] eqn:Er; [done|].
  apply require_ok_inr, (immutable_put_ok store view env Hlaws Hcreate) in Er.
  destruct (_ || _); [done|]. cbv [mret_] in H. simplify_eq. split_and!; [done| | |].
  - exists key, data. done.
  - exists data. split_and!; try done. cbn. by apply recorded_offsets_spec.
  - by exists key, data, fr.
Qed.

Lemma upload_segments_spec inputs : forall i s refs s',
  upload_segments store r None i inputs s = (inr refs, s') ->
  safe_step root (view s) (view s') /\ existsb ee_present (refs.*2) = false /\
  Forall (ref_backed root (view s')) (refs.*1) /\ Forall2 ref_built inputs (refs.*1) /\
  Forall2 (segment_stored root (rq_commit_id r) (view s')) inputs (refs.*1).
Proof.
  induction inputs as [|input inputs IH]; intros i s refs s' H; cbn [upload_segments] in H.
  - cbv [mret_] in H. simplify_eq. split_and!; [reflexivity|done|..]; constructor.
  - unfold mbind_err, mbind_, mret_ in H.
    destruct (upload_segment store r None i input s) as [[rc|[ref en]] s1] eqn:E1; [done|].
    destruct (upload_segments store r None (i + 1) inputs s1) as [[rc|rs] s2] eqn:E2; [done|].
    simplify_eq. pose proof (safe_upload_segment i input _ _ _ E1) as Hsafe.
    apply upload_segment_spec in E1 as (-> & Hb & Hbu & Hst). apply IH in E2 as (Hs2 & Hen & Hall & Hbs & Hsts).
    split_and!.
    + by transitivity (view s1).
    + done.
    + cbn. constructor; [|done]. apply ref_backed_keeps with (view s1); [|apply Hs2|done].
      destruct Hbu as (d & _ & -> & _). apply segment_suffix_immutable.
    + by constructor.
    + cbn. constructor; [|done]. eapply segment_stored_keeps; [apply Hs2|done].
Qed.

Lemma safe_upload_segments inputs : forall i, safe view root (upload_segments store r None i inputs).
Proof.
  induction inputs as [|input inputs IH]; intros i; cbn [upload_segments]; [apply safe_ret|].
  apply safe_bind_err; [apply safe_upload_segment|]. intros x.
  apply safe_bind_err; [apply IH|]. intros xs. apply safe_ret.
Qed.
End Upload.

(** ** The published manifest and head *)

Definition text_ok (s : bytes) : bool := no_nul s && noq s.

(** What a caller passes: C strings without quotes, values of their C types,
    a checksum of 16 hex digits or none, page sets within the format's cap. *)
Definition request_ok (r : otsardb_commit_request) : Prop :=
  text_ok (rq_database_root r) = true /\ text_ok (rq_database_id r) = true /\
  text_ok (rq_commit_id r) = true /\ text_ok (str_of (rq_parent_commit_id r)) = true /\
  text_ok (str_of (rq_parent_manifest_sha256 r)) = true /\
  is_u64 (rq_parent_generation r) /\ is_u32 (rq_page_size r) /\
  is_u64 (rq_database_size_pages r) /\
  (str_of (rq_post_apply_checksum r) = [] \/
   (zlen (str_of (rq_post_apply_checksum r)) = 16 /\
    forallb is_hex_char (str_of (rq_post_apply_checksum r)) = true)) /\
  Forall (fun i => Forall is_u32 (default [] (si_pages i)) /\
                   zlen (default [] (si_pages i)) <= OTSARDB_MANIFEST_MAX_LIST_ENTRIES)
         (default [] (rq_segments r)).

Lemma snprintf_s_fits cap s : zlen s < cap -> snprintf_s cap s = s.
Proof. intros H. unfold snprintf_s, zlen in *. apply take_ge. lia. Qed.

Lemma text_field_ok cap s : text_ok s = true -> zlen s < cap -> field_ok cap s = true.
Proof.
  unfold text_ok, field_ok. intros -> Hl. destruct (Z.ltb_spec (zlen s) cap); [done|lia].
Qed.

Lemma range_no_byte c s : ~ (48 <= c <= 102) -> Forall (fun x => 48 <= x <= 102) s ->
  no_byte c s = true.
Proof.
  intros Hc. induction 1 as [|x s Hx _ IH]; [done|]. rewrite no_byte_cons, IH.
  destruct (Z.eqb_spec x c); [subst; done|done].
Qed.

Lemma hex_text_ok `{Sha256} data : text_ok (otsardb_sha256_hex_data data) = true.
Proof.
  unfold text_ok, no_nul, noq, otsardb_sha256_hex_data.
  rewrite !range_no_byte; [done|unfold dq; lia|apply sha256_hex_range|lia|apply sha256_hex_range].
Qed.

Lemma hex_chars_text_ok s : forallb is_hex_char s = true -> text_ok s = true.
Proof.
  intros H. unfold text_ok, no_nul, noq. induction s as [|c s IH]; [done|].
  cbn [forallb] in H. apply andb_prop in H as [Hc H]. specialize (IH H).
  apply andb_prop in IH as [I1 I2]. rewrite !no_byte_cons, I1, I2.
  unfold dq. destruct (Z.eqb_spec c 0) as [->|]; [done|]. destruct (Z.eqb_spec c 34) as [->|]; done.
Qed.

Lemma text_ok_app a b : text_ok (a ++ b) = text_ok a && text_ok b.
Proof.
  unfold text_ok. rewrite no_nul_app, noq_app.
  destruct (no_nul a), (noq a), (no_nul b), (noq b); done.
Qed.

Lemma text_ok_take n s : text_ok s = true -> text_ok (take n s) = true.
Proof. intros H. rewrite <- (take_drop n s), text_ok_app in H. apply andb_prop in H as [H _]. done. Qed.

Lemma segment_suffix_ok `{Sha256} data :
  field_ok 129 (segment_suffix_of (otsardb_sha256_hex_data data)) = true.
Proof.
  pose proof (zlen_sha256_hex_data data) as Hl. apply text_field_ok.
  - unfold segment_suffix_of. rewrite !text_ok_app, hex_text_ok.
    rewrite text_ok_take by apply hex_text_ok. done.
  - unfold segment_suffix_of. rewrite !zlen_app, Hl.
    assert (zlen (take 2 (otsardb_sha256_hex_data data)) = 2) as ->
      by (unfold zlen in *; rewrite length_take; lia).
    reflexivity.
Qed.

Section Built.
Context `{HSha : Sha256} (r : otsardb_commit_request) (Hr : request_ok r).
Context (inputs : option (list otsardb_segment_input)) (count : Z).
Context (Hin : request_inputs r = Some (inputs, count)).

Lemma request_lengths :
  zlen (rq_database_id r) < 64 /\ 0 < zlen (rq_commit_id r) < 64 /\
  zlen (str_of (rq_parent_commit_id r)) < 64 /\
  zlen (str_of (rq_parent_manifest_sha256 r)) < 65 /\
  zlen (str_of (rq_post_apply_checksum r)) < 17.
Proof.
  unfold request_inputs in Hin. destruct (resolve_segment_inputs r) as [[i c]|]; [|done].
  case_if_in Hin; [done|]. prop_bools. unfold OTSARDB_COMMIT_ID_MAX in *.
  pose proof (zlen_nonneg (rq_commit_id r)). pose proof (zlen_nonneg (str_of (rq_parent_manifest_sha256 r))).
  destruct Hr as (_ & _ & _ & _ & _ & _ & _ & _ & Hck & _).
  match goal with H : valid_parent_request r = true |- _ => unfold valid_parent_request in H; rename H into Hv end.
  split_and!; try lia.
  - destruct (rq_create_head_if_missing r); prop_bools; [lia|].
    destruct (rq_parent_manifest_sha256 r); prop_bools; [|done]. cbn.
    unfold OTSARDB_MANIFEST_SHA256_HEX_SIZE in *. lia.
  - destruct Hck as [->|[-> _]]; done.
Qed.

Lemma build_manifest_fields refs :
  build_manifest r refs
  = mkManifest 4 (u64 (rq_parent_generation r + 1)) (rq_parent_generation r) (rq_page_size r)
      (rq_database_size_pages r) (rq_database_id r) (rq_commit_id r)
      (str_of (rq_parent_commit_id r)) (str_of (rq_parent_manifest_sha256 r)) refs
      (str_of (rq_post_apply_checksum r)).
Proof.
  destruct request_lengths as (? & ? & ? & ? & ?). unfold build_manifest.
  by rewrite !snprintf_s_fits by lia.
Qed.

Lemma built_ref_ok input ref m :
  ref_built input ref ->
  Forall is_u32 (default [] (si_pages input)) ->
  zlen (default [] (si_pages input)) <= OTSARDB_MANIFEST_MAX_LIST_ENTRIES ->
  cm_format_version m = 4 -> segment_ref_valid m ref = true ->
  ref_ok true (cm_database_size_pages m) ref.
Proof.
  intros (data & Es & Ek & Esz & Hsz & Ep & Ho) Hu Hc Hv Hval.
  unfold segment_ref_valid in Hval. rewrite Hv in Hval. repeat (case_if_in Hval; [done|]).
  change (4 <=? 4) with true in Hval. cbv iota in Hval.
  destruct ((0 <? sg_page_count ref) && _) eqn:Hpv; [done|].
  unfold ref_ok. rewrite Es, Ek, Esz, <- Ep in *.
  assert (pages_list_valid (sg_pages ref) (cm_database_size_pages m) = true) as Hpl.
  { apply andb_false_iff in Hpv as [Hpv|Hpv]; [|by prop_bools].
    unfold sg_page_count, zlen in Hpv. destruct (sg_pages ref); [done|]. done. }
  split_and!; try done.
  - apply segment_suffix_ok.
  - apply text_field_ok; [apply hex_text_ok|]. rewrite zlen_sha256_hex_data. lia.
  - apply zlen_sha256_hex_data.
  - split; [apply zlen_nonneg|exact Hsz].
  - destruct (sg_frame_offsets ref) as [o|]; [|done]. destruct Ho as (Hl & Hne & H0).
    prop_bools. rewrite <- Hl, firstn_all in *.
    destruct (offsets_valid_from_spec (zlen data) o None) as (Hlt & _ & _); [done|].
    split_and!; try done. rewrite list.Forall_forall in *. intros x Hx.
    specialize (H0 x Hx). specialize (Hlt x Hx). unfold is_u64, SIZE_MAX in *. lia.
Qed.

(** The inputs the publication works on. *)
Definition effective_inputs : list otsardb_segment_input :=
  match inputs with
  | Some l => l
  | None => [mkSegmentInput (str_of (rq_segment_payload r)) None]
  end.

Lemma effective_inputs_ok :
  Forall (fun i => Forall is_u32 (default [] (si_pages i)) /\
                   zlen (default [] (si_pages i)) <= OTSARDB_MANIFEST_MAX_LIST_ENTRIES)
    effective_inputs.
Proof.
  destruct Hr as (_ & _ & _ & _ & _ & _ & _ & _ & _ & Hall). unfold effective_inputs.
  unfold request_inputs, resolve_segment_inputs in Hin.
  destruct inputs as [l|]; [|constructor; [|constructor]; cbn; split; [constructor|done]].
  destruct (rq_segments r) as [segs|] eqn:Esg.
  - cbn in Hall. destruct (rq_segment_payload r); [done|].
    repeat case_match; simplify_eq. by apply Forall_take.
  - exfalso. clear Hall. repeat case_match; simplify_eq.
Qed.

(** A manifest the encoder accepts is one the decoder returns. *)
Lemma built_manifest_ok refs json sha :
  Forall2 ref_built effective_inputs refs ->
  otsardb_commit_manifest_encode_json (build_manifest r refs) = Some (json, sha) ->
  manifest_ok (build_manifest r refs) /\ json = manifest_json (build_manifest r refs) /\
  sha = otsardb_sha256_hex_data json /\ zlen json <= INT_MAX.
Proof.
  intros Hb He. rewrite build_manifest_fields in *. set (m := mkManifest _ _ _ _ _ _ _ _ _ _ _) in *.
  unfold otsardb_commit_manifest_encode_json in He.
  case_if_in He; [done|]. destruct (Z.ltb_spec INT_MAX (zlen (manifest_json m))); [done|].
  injection He as <- <-. split_and!; try done. prop_bools.
  destruct request_lengths as (? & ? & ? & ? & ?). pose proof effective_inputs_ok as Hpo.
  destruct Hr as (_ & ? & ? & ? & ? & Hpg & Hps & Hdb & Hck & _).
  match goal with H : manifest_segments_valid m = true |- _ => rename H into Hsv end.
  unfold manifest_segments_valid, cm_segment_count, OTSARDB_MANIFEST_MAX_SEGMENTS in Hsv.
  case_if_in Hsv; [done|]. prop_bools. cbn [cm_segments m] in *. pose proof (zlen_nonneg refs).
  assert (0 <= u64 (rq_parent_generation r + 1) <= UINT64_MAX) as Hgb.
  { unfold u64, UINT64_MAX. pose proof (Z.mod_pos_bound (rq_parent_generation r + 1) (2 ^ 64)). lia. }
  assert (text_ok (str_of (rq_post_apply_checksum r)) = true) as Hct
    by (destruct Hck as [->|[_ Hx]]; [done|by apply hex_chars_text_ok]).
  unfold manifest_ok. subst m. cbn in *. unfold is_u32 in *.
  split_and!; try done; try lia; try (apply text_field_ok; [done|lia]).
  - intros En. by rewrite En in *.
  - intros En. rewrite En, zlen_nil in *. lia.
  - apply list.Forall_forall. intros ref Href.
    apply list_elem_of_lookup in Href as [k Hk].
    destruct (Forall2_lookup_r _ _ _ _ _ Hb Hk) as (input & Hi & Hbi).
    rewrite list.Forall_forall in Hpo. destruct (Hpo input) as [? ?];
      [by eapply list_elem_of_lookup_2|].
    rewrite forallb_forall in Hsv. eapply (built_ref_ok input ref (mkManifest 4 _ _ _ _ _ _ _ _ _ _));
      try done. apply Hsv. apply list_elem_of_In. by eapply list_elem_of_lookup_2.
Qed.

Lemma built_head_ok generation key json :
  build_manifest_key (rq_database_root r) (rq_commit_id r) = Some key ->
  is_u64 generation ->
  let h := build_head r generation key (otsardb_sha256_hex_data json) in
  head_ok h /\ hd_generation h = generation /\ hd_commit_key h = key /\
  hd_commit_sha256 h = otsardb_sha256_hex_data json /\ hd_commit_id h = rq_commit_id r /\
  hd_database_id h = rq_database_id r.
Proof.
  intros Hk Hg. destruct request_lengths as (? & ? & _).
  destruct Hr as (Hroot & ? & Hc & _). unfold build_head. cbv zeta.
  unfold build_manifest_key in Hk. apply object_key_join, root_join_spec in Hk.
  destruct Hk as (Hkl & sep & Hk & Hsep). unfold OTSARDB_KEY_MAX in *. pose proof (zlen_sha256_hex_data json).
  rewrite !snprintf_s_fits by lia. split_and!; try done.
  unfold head_ok. cbn [hd_format_version hd_generation hd_database_id hd_commit_id hd_commit_key
    hd_commit_sha256]. split_and!; try done; try (apply text_field_ok; [done|lia]).
  - apply text_field_ok; [|lia]. rewrite Hk, !text_ok_app, Hroot, Hc. by destruct Hsep as [-> | ->].
  - apply text_field_ok; [apply hex_text_ok|lia].
Qed.
End Built.

(** ** Moving HEAD *)

(** The conditions the head is written under. *)
Definition head_options (r : otsardb_commit_request) : otsardb_store_put_options :=
  match effective_strategy r with
  | OTSARDB_WRITE_STRATEGY_SINGLE_WRITER => plain_put
  | _ => if rq_create_head_if_missing r then mkPutOptions true None
         else mkPutOptions false (rq_expected_head_etag r)
  end.

Section Durable.
Context `{HSha : Sha256} {S : Type} (store : otsardb_object_store S)
        (view : S -> contents) (env : contents -> contents -> Prop)
        (Hlaws : StoreLaws store view env).
Context (root : bytes) (Henv : forall v w, env v w -> safe_step root v w).

(** A head whose manifest and segments are immutable objects that are stored. *)
Definition head_durable (v : contents) (h : otsardb_head) : Prop :=
  exists json m, immutable_key root (hd_commit_key h) /\ holds v (hd_commit_key h) json /\
    otsardb_sha256_hex_data json = hd_commit_sha256 h /\
    otsardb_commit_manifest_decode_json json = Some m /\
    cm_generation m = hd_generation h /\ cm_commit_id m = hd_commit_id h /\
    cm_database_id m = hd_database_id h /\
    Forall (fun ref => immutable_suffix (sg_key ref) = true /\ ref_backed root v ref) (cm_segments m).

Lemma head_durable_keeps v w h : keeps root v w -> head_durable v h -> head_durable w h.
Proof.
  intros Hk (json & m & Hi & Hh & Hs & Hd & Hg & Hc & Hdb & Hall). exists json, m.
  split_and!; auto. eapply list.Forall_impl; [exact Hall|]. intros ref [Hsi Hb].
  split; [done|]. by eapply ref_backed_keeps.
Qed.

Lemma head_durable_backed v h : head_durable v h -> head_backed root v h.
Proof.
  intros (json & m & _ & Hh & Hs & Hd & Hg & Hc & Hdb & Hall). exists json, m.
  split_and!; auto. eapply list.Forall_impl; [exact Hall|]. by intros ref [_ ?].
Qed.

Lemma insert_head_keeps v hk ob :
  build_head_key root (OTSARDB_KEY_MAX + 1) = Some hk -> keeps root v (<[hk := ob]> v).
Proof.
  intros Hk k data (suffix & Hi & Ho) (o & Hl & Hd). exists o. split; [|done].
  rewrite lookup_insert_ne; [done|]. intros ->. by eapply immutable_not_head.
Qed.

Lemma insert_head_safe v hk ob h :
  build_head_key root (OTSARDB_KEY_MAX + 1) = Some hk -> head_ok h ->
  so_data ob = otsardb_head_encode_json h -> head_durable v h ->
  safe_step root v (<[hk := ob]> v).
Proof.
  intros Hk Hh Hd Hb. split; [by apply insert_head_keeps|].
  intros _ hk' ob' h' Hk' Hl Hd'. simplify_eq. rewrite lookup_insert_eq in Hl. simplify_eq.
  rewrite Hd, head_encode_toks, head_decode_toks in Hd' by done. simplify_eq.
  eapply head_durable_backed, head_durable_keeps; [by apply insert_head_keeps|done].
Qed.

Lemma publish_head_json_safe h o s rc etag s' :
  head_ok h -> head_durable (view s) h ->
  publish_head_json store root h o s = ((rc, etag), s') -> safe_step root (view s) (view s').
Proof.
  intros Hh Hb H. destruct (build_head_key root (OTSARDB_KEY_MAX + 1)) as [hk|] eqn:Ek.
  2:{ unfold publish_head_json in H. rewrite Ek in H. cbv [mret_] in H. by simplify_eq. }
  apply (publish_head_json_outcome store view env _ _ _ hk) in H; [|done].
  destruct H as (w & Hw & Hr). apply Henv in Hw. transitivity w; [done|].
  assert (forall et, stored w (view s') hk (otsardb_head_encode_json h) et ->
    safe_step root w (view s')) as Hst.
  { intros et (ob & Hd & _ & ->). eapply insert_head_safe; try done.
    eapply head_durable_keeps; [apply Hw|done]. }
  assert (view s' = w -> safe_step root w (view s')) as Heq by (intros ->; reflexivity).
  destruct rc; try (by apply Heq); try (destruct Hr as [Hr|[_ Hr]]; eauto; done);
    destruct Hr as [_ Hr]; eauto.
Qed.

End Durable.

Section MoveHead.
Context `{HSha : Sha256} `{HLz4 : Lz4} {S : Type} (store : otsardb_object_store S)
        (view : S -> contents) (env : contents -> contents -> Prop)
        (Hlaws : StoreLaws store view env).
Context (r : otsardb_commit_request).
Abbreviation root := (rq_database_root r).
Context (Henv : forall v w, env v w -> safe_step root v w).

Lemma publish_head_step_json head s res s' :
  publish_head_step store r head s = (res, s') ->
  (s' = s /\ res = inl OTSARDB_JOURNAL_INVALID) \/
  exists rc etag, publish_head_json store root head (head_options r) s = ((rc, etag), s') /\
    res = match rc with OTSARDB_JOURNAL_OK => inr etag | rc => inl rc end.
Proof.
  unfold publish_head_step, head_options, otsardb_journal_publish_head,
    otsardb_journal_publish_head_unconditional, mbind_.
  intros H. destruct (effective_strategy r);
    try (destruct (negb (rq_create_head_if_missing r) && _);
         [left; cbv [mret_] in H; by simplify_eq|]);
    right; destruct (rq_create_head_if_missing r);
    destruct (publish_head_json store root head _ s) as [[rc etag] s1];
    cbv [mret_] in H; simplify_eq; eauto.
Qed.

Lemma safe_check_strategy : safe view root (check_strategy store r).
Proof.
  unfold check_strategy, fail_with.
  destruct (effective_strategy r); repeat case_match; try apply safe_ret.
  apply safe_require_ok. unfold validate_single_writer_parent.
  apply safe_bind; [by apply safe_read_head with env|]. intros [rc res].
  repeat case_match; apply safe_ret.
Qed.
End MoveHead.

(** ** The publication *)

Section Publication.
Context `{HSha : Sha256} `{HLz4 : Lz4} {S : Type} (store : otsardb_object_store S)
        (view : S -> contents) (env : contents -> contents -> Prop)
        (Hlaws : StoreLaws store view env).
Context (r : otsardb_commit_request) (Hr : request_ok r) (Hplain : rq_cipher r = None).
Abbreviation root := (rq_database_root r).
Context (Henv : forall v w, env v w -> safe_step root v w).
Context (Hcreate : otsardb_store_supports store OTSARDB_STORE_CAP_CONDITIONAL_CREATE = true).

Lemma commits_suffix_immutable id : immutable_suffix (str "commits/" ++ id ++ str ".json") = true.
Proof. reflexivity. Qed.

Lemma plain_manifest_text m (entries : list otsardb_segment_enc_entry) :
  existsb ee_present entries = false ->
  manifest_text m entries = otsardb_commit_manifest_encode_json m.
Proof.
  intros He. unfold manifest_text. destruct (otsardb_commit_manifest_encode_json m) as [[j h]|];
    [by rewrite He|done].
Qed.

(** Once the segments and the manifest are stored, the head is durable. *)
Lemma built_head_durable inputs count refs json sha key v :
  request_inputs r = Some (inputs, count) ->
  Forall2 ref_built (effective_inputs r inputs) refs -> Forall (ref_backed root v) refs ->
  otsardb_commit_manifest_encode_json (build_manifest r refs) = Some (json, sha) ->
  build_manifest_key root (rq_commit_id r) = Some key -> holds v key json ->
  let h := build_head r (cm_generation (build_manifest r refs)) key sha in
  head_ok h /\ head_durable root v h /\ hd_commit_key h = key /\
  otsardb_commit_manifest_decode_json json = Some (build_manifest r refs).
Proof.
  intros Hin Hb Hback He Hk Hh.
  destruct (built_manifest_ok r Hr inputs count Hin refs json sha Hb He) as (Hm & -> & -> & Hsz).
  pose proof (manifest_decodes _ Hm Hsz) as Hdec.
  assert (is_u64 (cm_generation (build_manifest r refs))) as Hg.
  { unfold build_manifest, is_u64, u64, UINT64_MAX. cbn [cm_generation].
    pose proof (Z.mod_pos_bound (rq_parent_generation r + 1) (2 ^ 64)). lia. }
  destruct (built_head_ok r Hr inputs count Hin _ _ (manifest_json (build_manifest r refs)) Hk Hg)
    as (Hok & Eg & Ek & Es & Ec & Ed).
  cbv zeta. split_and!; try done. exists (manifest_json (build_manifest r refs)), (build_manifest r refs).
  rewrite Eg, Ek, Es, Ec, Ed. pose proof (build_manifest_fields r Hr inputs count Hin refs) as Hf.
  split_and!; [| | | | |rewrite Hf; done|rewrite Hf; done|]; try done.
  - exists (str "commits/" ++ rq_commit_id r ++ str ".json"). split; [apply commits_suffix_immutable|done].
  - unfold build_manifest. cbn [cm_segments]. apply list.Forall_and. split; [|done].
    apply list.Forall_forall. intros ref Hrf. apply list_elem_of_lookup in Hrf as [k Hlk].
    destruct (Forall2_lookup_r _ _ _ _ _ Hb Hlk) as (input & _ & d & _ & -> & _).
    apply segment_suffix_immutable.
Qed.

(** What a successful publication did. *)
Definition published (s s' : S) (cr : otsardb_commit_result) : Prop :=
  exists refs w hk etag json,
    build_head_key root (OTSARDB_KEY_MAX + 1) = Some hk /\
    precondition w hk (head_options r) = true /\
    stored w (view s') hk (otsardb_head_encode_json (cr_head cr)) etag /\
    safe_step root (view s) w /\ head_durable root w (cr_head cr) /\
    holds w (hd_commit_key (cr_head cr)) json /\
    otsardb_commit_manifest_decode_json json = Some (build_manifest r refs) /\
    Forall (ref_backed root w) refs /\
    length refs = length (default [mkSegmentInput (str_of (rq_segment_payload r)) None]
                            (take (Z.to_nat (rq_segment_count r)) <$> rq_segments r)) /\
    head_ok (cr_head cr) /\ hd_commit_id (cr_head cr) = rq_commit_id r /\
    Forall2 (segment_stored root (rq_commit_id r) w) (default [mkSegmentInput (str_of (rq_segment_payload r)) None]
                            (take (Z.to_nat (rq_segment_count r)) <$> rq_segments r)) refs.

Lemma refs_backed_keeps inputs refs v w :
  Forall2 ref_built inputs refs -> keeps root v w -> Forall (ref_backed root v) refs ->
  Forall (ref_backed root w) refs.
Proof.
  intros Hb Hk Hv. apply list.Forall_forall. intros ref Hrf.
  destruct (list_elem_of_lookup_1 _ _ Hrf) as [k Hlk].
  destruct (Forall2_lookup_r _ _ _ _ _ Hb Hlk) as (input & _ & d & _ & Esk & _).
  rewrite list.Forall_forall in Hv. eapply ref_backed_keeps; [|exact Hk|by apply Hv].
  rewrite Esk. apply segment_suffix_immutable.
Qed.

(** From the stored manifest to HEAD. *)
Lemma publish_tail_run inputs count refs json sha key s s3 res s' :
  request_inputs r = Some (inputs, count) ->
  Forall2 ref_built (effective_inputs r inputs) refs -> Forall (ref_backed root (view s3)) refs ->
  otsardb_commit_manifest_encode_json (build_manifest r refs) = Some (json, sha) ->
  build_manifest_key root (rq_commit_id r) = Some key -> holds (view s3) key json ->
  safe_step root (view s) (view s3) ->
  Forall2 (segment_stored root (rq_commit_id r) (view s3)) (effective_inputs r inputs) refs ->
  mbind_err (publish_head_step store r (build_head r (cm_generation (build_manifest r refs)) key sha))
    (fun etag => mret_ (inr (mkCommitResult
        (build_head r (cm_generation (build_manifest r refs)) key sha)
        (drop_offsets (build_manifest r refs)) (snprintf_s 128 (str_of etag))))) s3 = (res, s') ->
  safe_step root (view s) (view s') /\ forall cr, res = inr cr -> published s s' cr.
Proof.
  intros Ein Hb Hback3 Ee Ek Hj Hs03 Hsts.
  destruct (built_head_durable inputs count refs json sha key (view s3) Ein Hb Hback3 Ee Ek Hj)
    as (Hho & Hdur & Hck & Hdec).
  set (h := build_head r _ key sha) in *. unfold mbind_err, mbind_, mret_.
  destruct (publish_head_step store r h s3) as [x s4] eqn:E4.
  apply publish_head_step_json in E4 as [[-> ->]|(rc & etag & Ej & ->)]; [intros H; by simplify_eq|].
  intros H. assert (s' = s4) as -> by (destruct rc; by simplify_eq).
  pose proof (publish_head_json_safe store view env Hlaws root Henv h _ _ _ _ _ Hho Hdur Ej) as Hs4.
  split; [by transitivity (view s3)|]. intros cr ->.
  destruct rc; simplify_eq. unfold published. cbn [cr_head].
  destruct (build_head_key root (OTSARDB_KEY_MAX + 1)) as [hk|] eqn:Ehk.
  2:{ unfold publish_head_json in Ej. rewrite Ehk in Ej. cbv [mret_] in Ej. by simplify_eq. }
  apply (publish_head_json_outcome store view env _ _ _ hk) in Ej; [|done].
  destruct Ej as (w & Hw & Hp & Hst). apply Henv in Hw.
  assert (effective_inputs r inputs = default [mkSegmentInput (str_of (rq_segment_payload r)) None]
            (take (Z.to_nat (rq_segment_count r)) <$> rq_segments r)) as Eeff.
  { unfold effective_inputs. unfold request_inputs, resolve_segment_inputs in Ein. clear -Ein.
    repeat case_match; simplify_eq; done. }
  exists refs, w, hk, etag, json. split_and!; try done.
  - by transitivity (view s3).
  - eapply head_durable_keeps; [apply Hw|done].
  - rewrite Hck. apply Hw; [|done]. eexists. split; [|exact Ek]. apply commits_suffix_immutable.
  - eapply refs_backed_keeps; [exact Hb|apply Hw|done].
  - by rewrite <- (Forall2_length Hb), Eeff.
  - destruct Hdur as (json' & m & _ & Hj' & _ & Hd & _ & Hci & _). rewrite Hck in Hj'.
    destruct Hj as (ob & Hl & Eob), Hj' as (ob' & Hl' & Eob'). rewrite Hl in Hl'. apply (inj Some) in Hl'.
    rewrite <- Eob', <- Hl', Eob, Hdec in Hd. apply (inj Some) in Hd. rewrite <- Hci, <- Hd, (build_manifest_fields r Hr inputs count Ein). done.
  - rewrite <- Eeff. eapply list.Forall2_impl; [exact Hsts|]. intros input ref. apply segment_stored_keeps, Hw.
Qed.

(** One run of the publication. *)
Lemma publish_commit_run s res s' :
  otsardb_publish_commit store None r s = (res, s') ->
  safe_step root (view s) (view s') /\ forall cr, res = inr cr -> published s s' cr.
Proof.
  unfold otsardb_publish_commit. destruct (request_inputs r) as [[inputs count]|] eqn:Ein.
  2:{ intros H. cbv [fail_with mret_] in H. simplify_eq. split; [reflexivity|done]. }
  rewrite Hplain. fold (effective_inputs r inputs). unfold mbind_err at 1 2 3, mbind_ at 1 2 3.
  destruct (check_strategy store r s) as [[rc|[]] s1] eqn:E1;
    apply (safe_check_strategy store view env Hlaws r Henv) in E1.
  { intros H. cbv [mret_] in H. simplify_eq. by split. }
  destruct (upload_segments store r None 0 (effective_inputs r inputs) s1) as [[rc|up] s2] eqn:E2.
  { apply (safe_upload_segments store view env Hlaws r Henv Hcreate) in E2.
    intros H. cbv [mret_] in H. simplify_eq. split; [by transitivity (view s1)|done]. }
  apply (upload_segments_spec store view env Hlaws r Henv Hcreate) in E2 as (Hs2 & Hen & Hback & Hb & Hsts).
  assert (safe_step root (view s) (view s2)) as Hs02 by (by transitivity (view s1)).
  rewrite (plain_manifest_text _ _ Hen).
  destruct (otsardb_commit_manifest_encode_json _) as [[json sha]|] eqn:Ee;
    [|intros H; cbv [fail_with mret_] in H; by simplify_eq].
  destruct (build_manifest_key root (rq_commit_id r)) as [key|] eqn:Ek;
    [|intros H; cbv [fail_with mret_] in H; by simplify_eq].
  destruct (require_ok (immutable_put store key json) s2) as [x s3] eqn:E3.
  assert (safe_step root (view s2) (view s3)) as Hs3.
  { eapply (safe_require_ok view root _ (safe_immutable_put store view env Hlaws root Henv Hcreate key json _)).
    exact E3. Unshelve. eapply immutable_not_head; [apply commits_suffix_immutable|exact Ek]. }
  assert (safe_step root (view s) (view s3)) as Hs03 by (by transitivity (view s2)).
  destruct x as [rc|[]]; [intros H; cbv [mret_] in H; by simplify_eq|].
  apply require_ok_inr, (immutable_put_ok store view env Hlaws Hcreate) in E3.
  eapply publish_tail_run; try done; [eapply refs_backed_keeps; [exact Hb|apply Hs3|done]|].
  eapply list.Forall2_impl; [exact Hsts|]. intros input ref. apply segment_stored_keeps, Hs3.
Qed.

(** A store whose puts never time out leaves no outcome ambiguous. *)
Definition never_times_out : Prop :=
  forall key data o s e s', otsardb_store_put store key data o s = (inl e, s') -> e <> OTSARDB_STORE_TIMEOUT.

Lemma immutable_put_decided key data s rc s' : never_times_out ->
  immutable_put store key data s = (rc, s') -> rc <> OTSARDB_JOURNAL_AMBIGUOUS.
Proof.
  intros Ht. unfold immutable_put. rewrite Hcreate. unfold mbind_ at 1.
  destruct (otsardb_store_put store key data _ s) as [[e|et] s1] eqn:E; [|unfold mret_; intros H; by simplify_eq].
  pose proof (Ht _ _ _ _ _ _ E) as He. unfold existing_object_matches, mbind_, mret_. intros H.
  destruct e; try done; repeat case_match; by simplify_eq.
Qed.

Lemma read_head_decided s rc res s' : otsardb_journal_read_head store root s = ((rc, res), s') ->
  rc <> OTSARDB_JOURNAL_AMBIGUOUS.
Proof. unfold otsardb_journal_read_head, mbind_, mret_. intros H. repeat case_match; by simplify_eq. Qed.

Lemma check_strategy_decided s rc s' : check_strategy store r s = (inl rc, s') -> rc <> OTSARDB_JOURNAL_AMBIGUOUS.
Proof.
  unfold check_strategy, fail_with, require_ok, validate_single_writer_parent, mbind_, mret_. intros H.
  repeat case_match; simplify_eq; try done;
    match goal with Hx : otsardb_journal_read_head _ _ _ = _ |- _ => by apply read_head_decided in Hx end.
Qed.

Lemma upload_segments_decided inputs : never_times_out -> forall i s rc s',
  upload_segments store r None i inputs s = (inl rc, s') -> rc <> OTSARDB_JOURNAL_AMBIGUOUS.
Proof.
  intros Ht. induction inputs as [|input inputs IH]; intros i s rc s'; cbn [upload_segments]; [done|].
  unfold mbind_err at 1, mbind_ at 1. destruct (upload_segment store r None i input s) as [[rc1|x] s1] eqn:E.
  - intros H. unfold mret_ in H. simplify_eq. unfold upload_segment, fail_with, mbind_err, mbind_, mret_ in E.
    destruct (prepare_segment _ _ _ _) as [[[[[data sha] kh] en] fr]|]; [|by simplify_eq].
    destruct (object_key _ _) as [key|]; [|by simplify_eq]. unfold require_ok, mbind_, mret_ in E.
    destruct (immutable_put store key data s) as [rc2 s2] eqn:E2. apply immutable_put_decided in E2; [|done].
    destruct rc2; try (by simplify_eq); destruct (_ || _); by simplify_eq.
  - unfold mbind_err, mbind_, mret_. destruct (upload_segments store r None (i + 1) inputs s1) as [[rc1|xs] s2] eqn:E2; [|done].
    intros H. simplify_eq. by apply IH in E2.
Qed.

Lemma publish_commit_decided s rc s' : never_times_out ->
  otsardb_publish_commit store None r s = (inl rc, s') -> rc <> OTSARDB_JOURNAL_AMBIGUOUS.
Proof.
  intros Ht. unfold otsardb_publish_commit. rewrite Hplain. destruct (request_inputs r) as [[inputs count]|];
    [|intros H; unfold fail_with, mret_ in H; by simplify_eq].
  unfold mbind_err, mbind_, mret_, fail_with.
  destruct (check_strategy store r s) as [[rc1|[]] s1] eqn:E1; [intros H; simplify_eq; by apply check_strategy_decided in E1|].
  destruct (upload_segments store r None 0 _ s1) as [[rc1|up] s2] eqn:E2;
    [intros H; simplify_eq; by apply upload_segments_decided in E2|].
  destruct (manifest_text _ _) as [[json sha]|]; [|intros H; unfold mret_ in H; by simplify_eq].
  destruct (build_manifest_key _ _) as [key|]; [|intros H; unfold mret_ in H; by simplify_eq].
  destruct (require_ok (immutable_put store key json) s2) as [[rc1|[]] s3] eqn:E3.
  { intros H. simplify_eq. unfold require_ok, mbind_, mret_ in E3.
    destruct (immutable_put store key json s2) as [rc2 s4] eqn:E4. apply immutable_put_decided in E4; [|done].
    destruct rc2; by simplify_eq. }
  destruct (publish_head_step store r _ s3) as [[rc1|et] s4] eqn:E4; [|done]. intros H. simplify_eq.
  apply publish_head_step_json in E4 as [[_ [= ->]]|(rc1 & et & Ej & Er)]; [done|].
  assert (rc1 <> OTSARDB_JOURNAL_AMBIGUOUS) as Hne.
  { unfold publish_head_json, mbind_, mret_ in Ej. destruct (build_head_key root _) as [hk|]; [|by simplify_eq].
    destruct (otsardb_store_put store hk _ _ s3) as [[e|et'] s5] eqn:Ep; [|by simplify_eq].
    pose proof (Ht _ _ _ _ _ _ Ep). destruct e; by simplify_eq. }
  destruct rc1; by simplify_eq.
Qed.
End Publication.

(** C1. Publication is crash-safe. Over any lawful store with conditional
    creation, with peers that themselves preserve the invariant, a plaintext
    publication preserves, whatever its result code and whatever fault strikes
    any of its operations: HEAD designates a stored manifest with the recorded
    digest, whose segments are all stored with their digests and sizes; and no
    immutable object is lost or altered. *)
Theorem publish_commit_crash_safe `{Sha256} `{Lz4} {S} (store : otsardb_object_store S) view env
    (Hlaws : StoreLaws store view env) r s res s' :
  (forall v w, env v w -> safe_step (rq_database_root r) v w) ->
  otsardb_store_supports store OTSARDB_STORE_CAP_CONDITIONAL_CREATE = true ->
  request_ok r -> rq_cipher r = None ->
  otsardb_publish_commit store None r s = (res, s') ->
  (head_closed (rq_database_root r) (view s) -> head_closed (rq_database_root r) (view s')) /\
  (forall k data, immutable_key (rq_database_root r) k ->
     holds (view s) k data -> holds (view s') k data).
Proof.
  intros Henv Hc Hr Hp Hrun.
  destruct (publish_commit_run store view env Hlaws r Hr Hp Henv Hc s res s' Hrun) as [[Hk Hh] _].
  done.
Qed.

(** C2. A publication that reports success moved HEAD atomically: there is a
    moment [w] at which the strategy's precondition on HEAD held (the expected
    etag, or no HEAD for a first commit), every segment reference of the new
    manifest was stored, the manifest under [commits/] decodes to the requested
    commit (generation one above the parent, the parent's identity and digest),
    and the next state is [w] with exactly HEAD replaced by the new record,
    which a reader decodes to the head returned to the caller. *)
Theorem publish_commit_linearizes `{Sha256} `{Lz4} {S} (store : otsardb_object_store S) view env
    (Hlaws : StoreLaws store view env) r s cr s' :
  (forall v w, env v w -> safe_step (rq_database_root r) v w) ->
  otsardb_store_supports store OTSARDB_STORE_CAP_CONDITIONAL_CREATE = true ->
  request_ok r -> rq_cipher r = None ->
  otsardb_publish_commit store None r s = (inr cr, s') ->
  exists refs w hk ob json,
    build_head_key (rq_database_root r) (OTSARDB_KEY_MAX + 1) = Some hk /\
    precondition w hk (head_options r) = true /\
    view s' = <[hk := ob]> w /\ so_data ob = otsardb_head_encode_json (cr_head cr) /\
    head_backed (rq_database_root r) w (cr_head cr) /\
    holds w (hd_commit_key (cr_head cr)) json /\
    otsardb_commit_manifest_decode_json json = Some (build_manifest r refs) /\
    Forall (ref_backed (rq_database_root r) w) refs /\
    length refs = length (default [mkSegmentInput (str_of (rq_segment_payload r)) None]
                            (take (Z.to_nat (rq_segment_count r)) <$> rq_segments r)) /\
    otsardb_head_decode_json (so_data ob) = Some (cr_head cr) /\ hd_commit_id (cr_head cr) = rq_commit_id r.
Proof.
  intros Henv Hc Hr Hp Hrun.
  destruct (publish_commit_run store view env Hlaws r Hr Hp Henv Hc s _ s' Hrun) as [_ Hpub].
  destruct (Hpub cr eq_refl)
    as (refs & w & hk & etag & json & Hk & Hpre & (ob & Hd & _ & Hv) & _ & Hdur & Hj & Hdec & Hb & Hl & Hok & Hci & _).
  exists refs, w, hk, ob, json. split_and!; try done; [by apply head_durable_backed|].
  by rewrite Hd, head_encode_toks, head_decode_toks.
Qed.

Definition first_request : otsardb_commit_request :=
  mkRequest demo_root (str "db-1") (str "c-1") None None 0 512 3 None
    (Some [mkSegmentInput sample_batch (Some [2])]) 1 None None true
    OTSARDB_WRITE_STRATEGY_DEFAULT None.

Lemma first_request_ok : request_ok first_request.
Proof.
  unfold request_ok, is_u64, is_u32. split_and!; try done; try (by left).
  constructor; [|constructor]. split; [|done].
  constructor; [|constructor]. split; done.
Qed.

(** The write of HEAD takes effect but reports a timeout. *)
Definition timeout_store : mem :=
  mkMem ∅ 0 0 [F_none; F_none; F_after OTSARDB_STORE_TIMEOUT].

Lemma quiet_safe root : forall v w : contents, quiet v w -> safe_step (HSha := pure_sha256) root v w.
Proof. intros v w ->. reflexivity. Qed.

Lemma publish_commit_crash_safe_witness :
  let run := otsardb_publish_commit (HLz4 := zero_lz4) (mem_store CAPS_ALL) None first_request
               timeout_store in
  fst run = inl OTSARDB_JOURNAL_AMBIGUOUS /\ size (m_objects (snd run)) = 3%nat /\
  head_closed demo_root (m_objects (snd run)).
Proof.
  set (run := otsardb_publish_commit _ _ _ _).
  assert (fst run = inl OTSARDB_JOURNAL_AMBIGUOUS) as E by (vm_compute; reflexivity).
  split_and!; [exact E|vm_compute; reflexivity|].
  apply (publish_commit_crash_safe (mem_store CAPS_ALL) m_objects quiet (mem_store_laws CAPS_ALL)
           first_request timeout_store (fst run) (snd run)).
  - apply quiet_safe.
  - reflexivity.
  - apply first_request_ok.
  - reflexivity.
  - apply (surjective_pairing run).
  - intros hk ob h _ Hl. cbn [timeout_store m_objects] in Hl. by rewrite lookup_empty in Hl.
Defined.

Lemma publish_commit_linearizes_witness :
  let run := otsardb_publish_commit (HLz4 := zero_lz4) (mem_store CAPS_ALL) None first_request
               mem_empty in
  exists cr ob w, fst run = inr cr /\ hd_generation (cr_head cr) = 1 /\
    m_objects (snd run) = <[str "db/HEAD.json" := ob]> w /\
    w !! str "db/HEAD.json" = None /\ head_backed demo_root w (cr_head cr).
Proof.
  set (run := otsardb_publish_commit _ _ _ _).
  destruct (fst run) as [e|cr] eqn:E; [by vm_compute in E|].
  assert (hd_generation (cr_head cr) = 1) as Hg by (vm_compute in E; by simplify_eq).
  destruct (publish_commit_linearizes (H := pure_sha256) (H0 := zero_lz4) (mem_store CAPS_ALL) m_objects quiet
    (mem_store_laws CAPS_ALL)
    first_request mem_empty cr (snd run)) as (refs & w & hk & ob & json & Hk & Hp & Hv & _ & Hb & _).
  - apply quiet_safe.
  - reflexivity.
  - apply first_request_ok.
  - reflexivity.
  - rewrite <- E. apply (surjective_pairing run).
  - change (Some (str "db/HEAD.json") = Some hk) in Hk. injection Hk as <-.
    exists cr, ob, w. split_and!; [exact E|exact Hg|exact Hv| |exact Hb].
    change (bool_decide (w !! str "db/HEAD.json" = None) && true = true) in Hp.
    by rewrite andb_true_r, bool_decide_eq_true in Hp.
Defined.
