(* ===== verification/CommitResolve.v ===== *)
(** * Resolution of a publication (commit_publish.c)

    When a publication ended ambiguously or lost its race, the writer walks the
    committed chain from HEAD down to its parent generation, authenticating
    every manifest by the digest its child (or HEAD) records, to learn whether
    its commit is on the chain and, if not, whether the commits that overtook
    it touch its pages. *)

From S2P Require Import Prelude CText JsonText ObjectStore Journal Sha256 CommitManifest Codec.
From S2P Require Import WalBatch Segment CommitPublish.

Definition OTSARDB_RECOVERY_MAX_COMMITS : Z := 1000000.
Definition OTSARDB_CHECKPOINT_SHA256_HEX_SIZE : Z := 64.

Definition extract_u64_field (json name : bytes) : option Z := extract_u64_checked 80 json name.
Definition extract_string_field (json name : bytes) (out_size : Z) : option bytes :=
  extract_string_raw 80 json name out_size.

(** The position of the walk: generation, commit, manifest key and digest. *)
Record walk_pos := mkPos {
  wp_generation : Z;
  wp_commit_id : bytes;
  wp_key : bytes;
  wp_sha : bytes
}.

Definition head_pos (h : otsardb_head) : walk_pos :=
  mkPos (hd_generation h) (hd_commit_id h) (hd_commit_key h) (hd_commit_sha256 h).

(** The digest the parent must have: none is known below version 2. *)
Definition parent_sha (m : otsardb_commit_manifest) : bytes :=
  if 2 <=? cm_format_version m then cm_parent_manifest_sha256 m else [].

Definition request_has_page_info (inputs : option (list otsardb_segment_input)) : bool :=
  match inputs with
  | None => false
  | Some l => forallb (fun i => match si_pages i with Some _ => true | None => false end) l
  end.

(** The merge: both lists shrink, so their lengths bound it. *)
Fixpoint any_intersect (fuel : nat) (a b : list Z) : bool :=
  match fuel with
  | O => false
  | S fuel' =>
      match a, b with
      | x :: a', y :: b' =>
          if x <? y then any_intersect fuel' a' b
          else if y <? x then any_intersect fuel' a b'
          else true
      | _, _ => false
      end
  end.
Definition sorted_u32_any_intersect (a b : list Z) : bool :=
  any_intersect (length a + length b) a b.

Definition request_overlaps_manifest (inputs : list otsardb_segment_input)
    (m : otsardb_commit_manifest) : bool :=
  existsb (fun ref =>
    (sg_page_count ref =? 0) ||
    existsb (fun i => sorted_u32_any_intersect (default [] (si_pages i)) (sg_pages ref)) inputs)
    (cm_segments m).

Section Resolve.
Context `{HSha : Sha256} {S : Type} (store : otsardb_object_store S).

(** What the memory after an object's bytes holds: the field scanners of
    [resolve_covered_generation] run on the bytes in place. *)
Context (after_object : bytes -> bytes).

Definition read_manifest (key expected_sha256 : bytes)
  : M S (otsardb_journal_result * option otsardb_commit_manifest) :=
  let! rc := otsardb_store_get store key in
  match rc with
  | inl OTSARDB_STORE_NOT_FOUND => return! (OTSARDB_JOURNAL_NOT_FOUND, None)
  | inl _ => return! (OTSARDB_JOURNAL_ERROR, None)
  | inr object =>
      if (zlen expected_sha256 =? 0) ||
         bytes_eqb (otsardb_sha256_hex_data (so_data object)) expected_sha256
      then match otsardb_commit_manifest_decode_json (so_data object) with
           | Some m => return! (OTSARDB_JOURNAL_OK, Some m)
           | None => return! (OTSARDB_JOURNAL_INVALID, None)
           end
      else return! (OTSARDB_JOURNAL_INVALID, None)
  end.

(** The fields of the checkpoint pointer: generation, digest and key. *)
Definition covered_pointer (object : otsardb_store_object) : option (Z * bytes * bytes) :=
  let text := cstr (so_data object ++ after_object (so_data object)) in
  match extract_u64_field text (str "covered_generation"),
        extract_string_field text (str "checkpoint_sha256") (OTSARDB_CHECKPOINT_SHA256_HEX_SIZE + 1),
        extract_string_field text (str "checkpoint_key") (OTSARDB_KEY_MAX + 1) with
  | Some covered, Some sha, Some key =>
      if zlen sha =? OTSARDB_CHECKPOINT_SHA256_HEX_SIZE then Some (covered, sha, key) else None
  | _, _, _ => None
  end.

Definition resolve_covered_generation (root : bytes) (head_generation : Z) : M S (option Z) :=
  match root_join root (str "CHECKPOINT.json") (OTSARDB_KEY_MAX + 1) with
  | None => return! None
  | Some ptr_key =>
      let! rc := otsardb_store_get store ptr_key in
      match rc with
      | inl _ => return! None
      | inr ptr =>
          match covered_pointer ptr with
          | None => return! None
          | Some (covered, cp_sha, cp_key) =>
              if (covered =? 0) || (head_generation <? covered) then return! None
              else
                let! rc := otsardb_store_get store cp_key in
                match rc with
                | inl _ => return! None
                | inr cp =>
                    let text := cstr (so_data cp ++ after_object (so_data cp)) in
                    return!
                      if bytes_eqb (otsardb_sha256_hex_data (so_data cp)) cp_sha &&
                         bool_decide (extract_u64_field text (str "covered_generation")
                                      = Some covered)
                      then Some covered else None
                end
          end
      end
  end.

(** A missing manifest below HEAD: definitive only under a valid checkpoint. *)
Definition resolve_missing (root : bytes) (head_generation current_generation : Z)
  : M S (otsardb_journal_result * otsardb_commit_state) :=
  if current_generation <? head_generation then
    let! covered := resolve_covered_generation root head_generation in
    match covered with
    | Some c => if current_generation <? c
                then return! (OTSARDB_JOURNAL_OK, OTSARDB_COMMIT_STATE_SUPERSEDED)
                else return! (OTSARDB_JOURNAL_NOT_FOUND, OTSARDB_COMMIT_STATE_UNKNOWN)
    | None => return! (OTSARDB_JOURNAL_NOT_FOUND, OTSARDB_COMMIT_STATE_UNKNOWN)
    end
  else return! (OTSARDB_JOURNAL_NOT_FOUND, OTSARDB_COMMIT_STATE_UNKNOWN).

Definition superseded : M S (otsardb_journal_result * otsardb_commit_state) :=
  return! (OTSARDB_JOURNAL_OK, OTSARDB_COMMIT_STATE_SUPERSEDED).
Definition walk_error (rc : otsardb_journal_result)
  : M S (otsardb_journal_result * otsardb_commit_state) :=
  return! (rc, OTSARDB_COMMIT_STATE_UNKNOWN).

(** The walk; [fuel] is the number of manifests it may still read, one less
    than the cap, which the counter reaches first. *)
Fixpoint resolve_walk (fuel : nat) (root commit_id : bytes) (parent_generation head_generation : Z)
    (pos : walk_pos) : M S (otsardb_journal_result * otsardb_commit_state) :=
  if wp_generation pos <=? parent_generation then superseded
  else match fuel with
  | O => walk_error OTSARDB_JOURNAL_INVALID
  | Datatypes.S fuel' =>
      if bytes_eqb (wp_commit_id pos) commit_id
      then return! (OTSARDB_JOURNAL_OK, OTSARDB_COMMIT_STATE_COMMITTED)
      else
        let! (rc, res) := read_manifest (wp_key pos) (wp_sha pos) in
        match rc, res with
        | OTSARDB_JOURNAL_NOT_FOUND, _ =>
            resolve_missing root head_generation (wp_generation pos)
        | OTSARDB_JOURNAL_OK, Some m =>
            if negb (cm_generation m =? wp_generation pos) ||
               negb (bytes_eqb (cm_commit_id m) (wp_commit_id pos))
            then walk_error OTSARDB_JOURNAL_INVALID
            else if cm_parent_generation m <? parent_generation then superseded
            else if cm_parent_generation m =? parent_generation then
              return! (OTSARDB_JOURNAL_OK,
                       if bytes_eqb (cm_parent_commit_id m) commit_id
                       then OTSARDB_COMMIT_STATE_COMMITTED else OTSARDB_COMMIT_STATE_SUPERSEDED)
            else if zlen (cm_parent_commit_id m) =? 0 then superseded
            else match build_manifest_key root (cm_parent_commit_id m) with
                 | None => walk_error OTSARDB_JOURNAL_INVALID
                 | Some key =>
                     resolve_walk fuel' root commit_id parent_generation head_generation
                       (mkPos (cm_parent_generation m) (cm_parent_commit_id m) key (parent_sha m))
                 end
        | rc, _ => walk_error rc
        end
  end.

Definition walk_fuel : nat := Z.to_nat (OTSARDB_RECOVERY_MAX_COMMITS - 1).

Definition otsardb_resolve_commit (root commit_id : bytes) (parent_generation : Z)
  : M S (otsardb_journal_result * otsardb_commit_state) :=
  if zlen commit_id =? 0 then walk_error OTSARDB_JOURNAL_INVALID
  else
    let! (rc, res) := otsardb_journal_read_head store root in
    match rc, res with
    | OTSARDB_JOURNAL_NOT_FOUND, _ =>
        return! (OTSARDB_JOURNAL_OK, OTSARDB_COMMIT_STATE_NOT_COMMITTED)
    | OTSARDB_JOURNAL_OK, Some (head, _) =>
        if bytes_eqb (hd_commit_id head) commit_id
        then return! (OTSARDB_JOURNAL_OK, OTSARDB_COMMIT_STATE_COMMITTED)
        else if hd_generation head <=? parent_generation
        then return! (OTSARDB_JOURNAL_OK, OTSARDB_COMMIT_STATE_NOT_COMMITTED)
        else resolve_walk walk_fuel root commit_id parent_generation (hd_generation head)
               (head_pos head)
    | rc, _ => walk_error rc
    end.

(** ** Conflict detection *)

(** The same walk, collecting the overlap with [inputs] ([None]: unknown). *)
Fixpoint conflict_walk (fuel : nat) (root commit_id : bytes)
    (parent_generation head_generation : Z) (inputs : option (list otsardb_segment_input))
    (pos : walk_pos) (overlap : bool)
  : M S (otsardb_journal_result * otsardb_commit_state * bool) :=
  if wp_generation pos <=? parent_generation
  then return! (OTSARDB_JOURNAL_OK, OTSARDB_COMMIT_STATE_SUPERSEDED, overlap)
  else match fuel with
  | O => return! (OTSARDB_JOURNAL_INVALID, OTSARDB_COMMIT_STATE_UNKNOWN, overlap)
  | Datatypes.S fuel' =>
      if bytes_eqb (wp_commit_id pos) commit_id
      then return! (OTSARDB_JOURNAL_OK, OTSARDB_COMMIT_STATE_COMMITTED, false)
      else
        let! (rc, res) := read_manifest (wp_key pos) (wp_sha pos) in
        match rc, res with
        | OTSARDB_JOURNAL_NOT_FOUND, _ =>
            let! (rc', state) := resolve_missing root head_generation (wp_generation pos) in
            return! (rc', state, overlap)
        | OTSARDB_JOURNAL_OK, Some m =>
            if negb (cm_generation m =? wp_generation pos) ||
               negb (bytes_eqb (cm_commit_id m) (wp_commit_id pos))
            then return! (OTSARDB_JOURNAL_INVALID, OTSARDB_COMMIT_STATE_UNKNOWN, overlap)
            else
              let overlap :=
                match inputs with
                | Some l => overlap || request_overlaps_manifest l m
                | None => overlap
                end in
              if cm_parent_generation m <? parent_generation
              then return! (OTSARDB_JOURNAL_OK, OTSARDB_COMMIT_STATE_SUPERSEDED, overlap)
              else if cm_parent_generation m =? parent_generation then
                return! (OTSARDB_JOURNAL_OK,
                         if bytes_eqb (cm_parent_commit_id m) commit_id
                         then OTSARDB_COMMIT_STATE_COMMITTED else OTSARDB_COMMIT_STATE_SUPERSEDED,
                         overlap)
              else if zlen (cm_parent_commit_id m) =? 0
              then return! (OTSARDB_JOURNAL_OK, OTSARDB_COMMIT_STATE_SUPERSEDED, overlap)
              else match build_manifest_key root (cm_parent_commit_id m) with
                   | None => return! (OTSARDB_JOURNAL_INVALID, OTSARDB_COMMIT_STATE_UNKNOWN, overlap)
                   | Some key =>
                       conflict_walk fuel' root commit_id parent_generation head_generation inputs
                         (mkPos (cm_parent_generation m) (cm_parent_commit_id m) key (parent_sha m))
                         overlap
                   end
        | rc, _ => return! (rc, OTSARDB_COMMIT_STATE_UNKNOWN, overlap)
        end
  end.

Definition otsardb_publish_commit_detect_conflict (root : bytes) (r : otsardb_commit_request)
  : M S (otsardb_journal_result * otsardb_commit_state * bool) :=
  let invalid := return! (OTSARDB_JOURNAL_INVALID, OTSARDB_COMMIT_STATE_UNKNOWN, false) in
  if (zlen root =? 0) || (zlen (rq_commit_id r) =? 0) || negb (valid_parent_request r) then invalid
  else match resolve_segment_inputs r with
  | None => invalid
  | Some (inputs, count) =>
      if negb (forallb (fun i => valid_page_input (si_pages i)) (default [] inputs)) then invalid
      else
        let known := request_has_page_info inputs in
        let overlap := negb known in
        let! (rc, res) := otsardb_journal_read_head store root in
        match rc, res with
        | OTSARDB_JOURNAL_NOT_FOUND, _ =>
            return! (OTSARDB_JOURNAL_OK, OTSARDB_COMMIT_STATE_NOT_COMMITTED, overlap)
        | OTSARDB_JOURNAL_OK, Some (head, _) =>
            if bytes_eqb (hd_commit_id head) (rq_commit_id r)
            then return! (OTSARDB_JOURNAL_OK, OTSARDB_COMMIT_STATE_COMMITTED, false)
            else if hd_generation head <=? rq_parent_generation r
            then return! (OTSARDB_JOURNAL_OK, OTSARDB_COMMIT_STATE_NOT_COMMITTED, overlap)
            else conflict_walk walk_fuel root (rq_commit_id r) (rq_parent_generation r)
                   (hd_generation head) (if known then inputs else None) (head_pos head) overlap
        | rc, _ => return! (rc, OTSARDB_COMMIT_STATE_UNKNOWN, overlap)
        end
  end.
End Resolve.
