(* ===== verification/CommitResolveTheory.v ===== *)
(** * Resolution and conflict detection: theorems

    The walks of [otsardb_resolve_commit] and
    [otsardb_publish_commit_detect_conflict] see the store at several moments,
    with other clients writing in between. Their verdicts are stated over what
    was stored at some moment of the call ([seen]): every manifest they rely on
    is authenticated by the digest its child or HEAD records, and a verdict of
    disjointness covers every generation between the parent and HEAD. *)

From Stdlib Require Import Sorting.Sorted.
From S2P Require Import Prelude CText JsonText ObjectStore Journal Sha256 Codec WalBatch.
From S2P Require Import Segment SegmentTheory CommitManifest CommitManifestTheory.
From S2P Require Import CommitPublish CommitPublishTheory CommitResolve.

(** ** The merge of two page sets *)

Lemma any_intersect_spec fuel : forall a b,
  StronglySorted Z.lt a -> StronglySorted Z.lt b -> (length a + length b <= fuel)%nat ->
  any_intersect fuel a b = true <-> exists p, p ∈ a /\ p ∈ b.
Proof.
  induction fuel as [|fuel IH]; intros a b Ha Hb Hf; cbn [any_intersect].
  { destruct a; cbn in Hf; [|lia]. split; [done|]. intros (p & Hp & _). set_solver. }
  destruct a as [|x a]; [split; [done|]; intros (p & Hp & _); set_solver|].
  destruct b as [|y b]; [split; [done|]; intros (p & _ & Hp); set_solver|].
  inversion Ha as [|? ? Ha' Hxa]; inversion Hb as [|? ? Hb' Hyb]; subst. cbn in Hf.
  rewrite Forall_forall in Hxa, Hyb. setoid_rewrite <- list_elem_of_In in Hxa.
  setoid_rewrite <- list_elem_of_In in Hyb.
  destruct (Z.ltb_spec x y); [|destruct (Z.ltb_spec y x)].
  - rewrite IH by (try done; cbn; lia). split; intros (p & Hp & Hq); exists p; [set_solver|].
    split; [|done]. apply elem_of_cons in Hp as [->|]; [exfalso|done].
    apply elem_of_cons in Hq as [->|Hq]; [lia|]. specialize (Hyb _ Hq). lia.
  - rewrite IH by (try done; cbn; lia). split; intros (p & Hp & Hq); exists p; [set_solver|].
    split; [done|]. apply elem_of_cons in Hq as [->|]; [exfalso|done].
    apply elem_of_cons in Hp as [->|Hp]; [lia|]. specialize (Hxa _ Hp). lia.
  - assert (x = y) as -> by lia. split; [|done]. intros _. exists y. set_solver.
Qed.

Lemma page_input_sorted ps : forall prev,
  page_input_valid_from prev ps = true ->
  StronglySorted Z.lt ps /\ match prev with Some a => Forall (Z.lt a) ps | None => True end.
Proof.
  induction ps as [|p ps IH]; intros prev H; cbn [page_input_valid_from] in H.
  - split; [constructor|]. destruct prev; constructor.
  - repeat (case_if_in H; [done|]). destruct (IH _ H) as [Hs Hlt]. split; [by constructor|].
    destruct prev as [a|]; [|done]. prop_bools. constructor; [done|].
    eapply list.Forall_impl; [exact Hlt|]. cbn. lia.
Qed.

(** The pages of the request and of a manifest are known and have no page in
    common. *)
Definition disjoint_pages (inputs : list otsardb_segment_input) (m : otsardb_commit_manifest) : Prop :=
  forall ref, ref ∈ cm_segments m -> sg_pages ref <> [] /\
    forall i p, i ∈ inputs -> p ∈ default [] (si_pages i) -> p ∈ sg_pages ref -> False.

Lemma not_overlapping inputs m :
  Forall (fun i => StronglySorted Z.lt (default [] (si_pages i))) inputs ->
  Forall (fun ref => StronglySorted Z.lt (sg_pages ref)) (cm_segments m) ->
  request_overlaps_manifest inputs m = false -> disjoint_pages inputs m.
Proof.
  rewrite !list.Forall_forall. intros Hi Hm H ref Href.
  unfold request_overlaps_manifest in H.
  assert (forall A (f : A -> bool) l x, existsb f l = false -> x ∈ l -> f x = false) as Hex.
  { intros A f l x Hl Hx. apply not_true_iff_false. intros Hfx.
    apply not_true_iff_false in Hl. apply Hl, existsb_exists. exists x. by rewrite <- list_elem_of_In. }
  specialize (Hex _ _ _ _ H Href) as Hr. cbn in Hr. prop_bools. split.
  - intros E. unfold sg_page_count in *. rewrite E in *. done.
  - intros i p Hin Hp Hq. specialize (Hex _ _ _ _ H1 Hin). cbn in Hex.
    apply not_true_iff_false in Hex. apply Hex, any_intersect_spec; eauto.
Qed.

(** ** The authenticated chain *)

Section Chain.
Context `{HSha : Sha256} (env : contents -> contents -> Prop) {Hpre : PreOrder env}.
Context (after_object : bytes -> bytes) (root : bytes).

(** [k] held [ob] (or nothing) at a moment between [v] and [v']. *)
Definition seen (v v' : contents) (k : bytes) (ob : option otsardb_store_object) : Prop :=
  exists w, env v w /\ env w v' /\ w !! k = ob.

Definition widens (v v' u u' : contents) : Prop := env u v /\ env v' u'.

Lemma seen_widen v v' u u' k ob : widens v v' u u' -> seen v v' k ob -> seen u u' k ob.
Proof. intros [H1 H2] (w & Hw & Hw' & Hl). exists w. split_and!; [by etrans|by etrans|done]. Qed.

(** The manifest a position designates, authenticated. *)
Definition manifest_at (v v' : contents) (pos : walk_pos) (m : otsardb_commit_manifest) : Prop :=
  exists ob, seen v v' (wp_key pos) (Some ob) /\
    (wp_sha pos = [] \/ otsardb_sha256_hex_data (so_data ob) = wp_sha pos) /\
    otsardb_commit_manifest_decode_json (so_data ob) = Some m /\
    cm_generation m = wp_generation pos /\ cm_commit_id m = wp_commit_id pos.

Definition parent_pos (m : otsardb_commit_manifest) (key : bytes) : walk_pos :=
  mkPos (cm_parent_generation m) (cm_parent_commit_id m) key (parent_sha m).

(** A checkpoint, authenticated by its pointer, covers [generation]. *)
Definition checkpoint_covers (v v' : contents) (head_generation generation : Z) : Prop :=
  exists ptr_key ptr cp covered cp_sha cp_key,
    root_join root (str "CHECKPOINT.json") (OTSARDB_KEY_MAX + 1) = Some ptr_key /\
    seen v v' ptr_key (Some ptr) /\
    covered_pointer after_object ptr = Some (covered, cp_sha, cp_key) /\
    seen v v' cp_key (Some cp) /\ otsardb_sha256_hex_data (so_data cp) = cp_sha /\
    generation < covered <= head_generation.

(** The manifests from a position down to the parent generation; [true] when
    the walk stopped at a missing manifest under a checkpoint. *)
Inductive chain_path (v v' : contents) (head_generation parent : Z)
  : walk_pos -> list otsardb_commit_manifest -> bool -> Prop :=
  | path_below pos : wp_generation pos <= parent ->
      chain_path v v' head_generation parent pos [] false
  | path_swept pos : parent < wp_generation pos < head_generation -> seen v v' (wp_key pos) None ->
      checkpoint_covers v v' head_generation (wp_generation pos) ->
      chain_path v v' head_generation parent pos [] true
  | path_last pos m : parent < wp_generation pos -> manifest_at v v' pos m ->
      cm_parent_generation m <= parent \/ cm_parent_commit_id m = [] ->
      chain_path v v' head_generation parent pos [m] false
  | path_step pos m key ms b : parent < wp_generation pos -> manifest_at v v' pos m ->
      parent < cm_parent_generation m ->
      build_manifest_key root (cm_parent_commit_id m) = Some key ->
      chain_path v v' head_generation parent (parent_pos m key) ms b ->
      chain_path v v' head_generation parent pos (m :: ms) b.

(** A commit on the chain from a position. *)
Inductive on_chain (v v' : contents) (id : bytes) : walk_pos -> Prop :=
  | on_here pos : wp_commit_id pos = id -> on_chain v v' id pos
  | on_parent pos m : manifest_at v v' pos m -> cm_parent_commit_id m = id -> on_chain v v' id pos
  | on_step pos m key : manifest_at v v' pos m ->
      build_manifest_key root (cm_parent_commit_id m) = Some key ->
      on_chain v v' id (parent_pos m key) -> on_chain v v' id pos.

Lemma manifest_at_widen v v' u u' pos m :
  widens v v' u u' -> manifest_at v v' pos m -> manifest_at u u' pos m.
Proof. intros Hw (ob & Hs & H). exists ob. split; [by eapply seen_widen|done]. Qed.

Lemma checkpoint_covers_widen v v' u u' hg g :
  widens v v' u u' -> checkpoint_covers v v' hg g -> checkpoint_covers u u' hg g.
Proof.
  intros Hw (pk & ptr & cp & c & sha & key & H1 & H2 & H3 & H4 & H5 & H6 & H7).
  exists pk, ptr, cp, c, sha, key. split_and!; try done; try (by eapply seen_widen); lia.
Qed.

Lemma chain_path_widen v v' u u' hg parent pos ms b :
  widens v v' u u' -> chain_path v v' hg parent pos ms b -> chain_path u u' hg parent pos ms b.
Proof.
  intros Hw. induction 1.
  - by constructor.
  - apply path_swept; [done|by eapply seen_widen|by eapply checkpoint_covers_widen].
  - eapply path_last; [done|by eapply manifest_at_widen|done].
  - eapply path_step; try done. by eapply manifest_at_widen.
Qed.

Lemma on_chain_widen v v' u u' id pos :
  widens v v' u u' -> on_chain v v' id pos -> on_chain u u' id pos.
Proof.
  intros Hw. induction 1.
  - by apply on_here.
  - eapply on_parent; [by eapply manifest_at_widen|done].
  - eapply on_step; [by eapply manifest_at_widen|done|done].
Qed.

Lemma manifest_at_parent v v' pos m : manifest_at v v' pos m ->
  if cm_parent_generation m =? 0
  then wp_generation pos = 1 /\ cm_parent_commit_id m = []
  else wp_generation pos = cm_parent_generation m + 1 /\ cm_parent_commit_id m <> [].
Proof.
  intros (ob & _ & _ & Hd & <- & _). apply manifest_decode_facts in Hd as (_ & _ & _ & Hd & _).
  case_match; naive_solver.
Qed.

(** A path that was not cut short visits every generation above the parent. *)
Lemma chain_path_generations v v' hg parent pos ms :
  0 <= parent -> chain_path v v' hg parent pos ms false ->
  cm_generation <$> ms
  = (fun i => wp_generation pos - Z.of_nat i) <$> seq 0 (Z.to_nat (wp_generation pos - parent)).
Proof.
  intros Hp H. remember false as b eqn:Eb. induction H; try done.
  - replace (Z.to_nat (wp_generation pos - parent)) with 0%nat by lia. done.
  - pose proof (manifest_at_parent _ _ _ _ H0) as Hl. destruct H0 as (_ & _ & _ & _ & Hg & _).
    assert (wp_generation pos = parent + 1) as E.
    { destruct (Z.eqb_spec (cm_parent_generation m) 0); naive_solver lia. }
    replace (Z.to_nat (wp_generation pos - parent)) with 1%nat by lia. cbn. f_equal. lia.
  - pose proof (manifest_at_parent _ _ _ _ H0) as Hl. destruct H0 as (_ & _ & _ & _ & Hg & _).
    assert (wp_generation pos = cm_parent_generation m + 1) as E.
    { destruct (Z.eqb_spec (cm_parent_generation m) 0); naive_solver lia. }
    replace (Z.to_nat (wp_generation pos - parent))
      with (S (Z.to_nat (cm_parent_generation m - parent))) by lia.
    cbn [seq fmap list_fmap]. f_equal; [lia|]. rewrite IHchain_path by done. cbn [wp_generation parent_pos].
    rewrite <- seq_shift, <- list_fmap_compose. apply list_fmap_ext. intros i x _. cbn. lia.
Qed.
End Chain.

(** ** The walks *)

Section Walks.
Context `{HSha : Sha256} {S : Type} (store : otsardb_object_store S) (view : S -> contents)
        (env : contents -> contents -> Prop) {Hpre : PreOrder env}
        (Hlaws : StoreLaws store view env).
Context (after_object : bytes -> bytes) (root : bytes).

Lemma read_manifest_spec key sha s rc res s' :
  read_manifest store key sha s = ((rc, res), s') ->
  env (view s) (view s') /\
  match rc with
  | OTSARDB_JOURNAL_OK => exists ob m, res = Some m /\ view s' !! key = Some ob /\
      (sha = [] \/ otsardb_sha256_hex_data (so_data ob) = sha) /\
      otsardb_commit_manifest_decode_json (so_data ob) = Some m
  | OTSARDB_JOURNAL_NOT_FOUND => view s' !! key = None
  | _ => True
  end.
Proof.
  unfold read_manifest, mbind_, mret_. destruct (otsardb_store_get store key s) as [r s1] eqn:E.
  destruct (get_law _ _ _ _ E) as [He Hr]. intros H.
  destruct r as [[]|ob]; try (simplify_eq; done).
  destruct (_ || _) eqn:Es; [|by simplify_eq].
  destruct (otsardb_commit_manifest_decode_json (so_data ob)) as [m|] eqn:Ed; simplify_eq; [|done].
  split; [done|]. exists ob, m. split_and!; try done.
  apply orb_true_iff in Es as [Es|Es]; prop_bools; [left; by apply zlen_0|right; by apply bytes_eqb_eq].
Qed.

Lemma covered_spec hg s res s' :
  resolve_covered_generation store after_object root hg s = (res, s') ->
  env (view s) (view s') /\
  forall c, res = Some c ->
    forall g, g < c -> checkpoint_covers env after_object root (view s) (view s') hg g.
Proof.
  unfold resolve_covered_generation, mbind_, mret_. intros H.
  destruct (root_join _ _ _) as [pk|] eqn:Epk; [|by simplify_eq].
  destruct (otsardb_store_get store pk s) as [r s1] eqn:E1. destruct (get_law _ _ _ _ E1) as [He Hr].
  destruct r as [|ptr]; [by simplify_eq|].
  destruct (covered_pointer after_object ptr) as [[[c sha] key]|] eqn:Ec; [|by simplify_eq].
  destruct (_ || _) eqn:Eb; [by simplify_eq|]. prop_bools.
  destruct (otsardb_store_get store key s1) as [r2 s2] eqn:E2. destruct (get_law _ _ _ _ E2) as [He2 Hr2].
  assert (s' = s2) as -> by (destruct r2; by simplify_eq). split; [by etrans|]. intros c' -> g Hg.
  destruct r2 as [|cp]; [done|]. destruct (_ && _) eqn:Ea; simplify_eq. prop_bools.
  match goal with Hx : bytes_eqb _ _ = true |- _ => apply bytes_eqb_eq in Hx end.
  exists pk, ptr, cp, c', sha, key. split_and!; try done.
  - by exists (view s1).
  - exists (view s2). split_and!; [by etrans|done|done].
Qed.

Lemma resolve_missing_spec hg g s rc st s' :
  resolve_missing store after_object root hg g s = ((rc, st), s') ->
  env (view s) (view s') /\
  st <> OTSARDB_COMMIT_STATE_COMMITTED /\ st <> OTSARDB_COMMIT_STATE_NOT_COMMITTED /\
  (st = OTSARDB_COMMIT_STATE_SUPERSEDED -> g < hg /\
     checkpoint_covers env after_object root (view s) (view s') hg g).
Proof.
  unfold resolve_missing, mbind_, mret_. intros H.
  destruct (Z.ltb_spec g hg); [|by simplify_eq].
  destruct (resolve_covered_generation store after_object root hg s) as [res s1] eqn:E.
  apply covered_spec in E as [He Hc].
  destruct res as [c|]; [|by simplify_eq]. destruct (Z.ltb_spec g c); simplify_eq; [|done].
  split_and!; try done. intros _. split; [done|]. by eapply Hc.
Qed.

(** What a verdict of the walk from [pos] means. *)
Definition verdict (id : bytes) (parent hg : Z) (inputs : option (list otsardb_segment_input))
    (pos : walk_pos) (v v' : contents) (overlap0 : bool) (st : otsardb_commit_state) (overlap : bool)
  : Prop :=
  match st with
  | OTSARDB_COMMIT_STATE_COMMITTED => on_chain env root v v' id pos
  | OTSARDB_COMMIT_STATE_SUPERSEDED =>
      exists ms b, chain_path env after_object root v v' hg parent pos ms b /\
        Forall (fun m => cm_commit_id m <> id) ms /\
        (overlap = false -> overlap0 = false /\
           forall l, inputs = Some l -> Forall (fun m => request_overlaps_manifest l m = false) ms)
  | OTSARDB_COMMIT_STATE_NOT_COMMITTED => False
  | OTSARDB_COMMIT_STATE_UNKNOWN => True
  end.

Lemma verdict_step id parent hg inputs pos m key u v v' ov0 ov st ov' :
  env u v -> env v v' -> manifest_at env u v pos m -> wp_commit_id pos <> id ->
  parent < wp_generation pos -> parent < cm_parent_generation m ->
  build_manifest_key root (cm_parent_commit_id m) = Some key ->
  ov = match inputs with Some l => ov0 || request_overlaps_manifest l m | None => ov0 end ->
  verdict id parent hg inputs (parent_pos m key) v v' ov st ov' ->
  verdict id parent hg inputs pos u v' ov0 st ov'.
Proof.
  intros He He' Hm Hid Hp Hpm Hk Hov. pose proof Hm as (_ & _ & _ & _ & _ & Hmi).
  assert (widens env v v' u v') as Hw by (split; [done|reflexivity]).
  assert (manifest_at env u v' pos m) as Hm'
    by (eapply manifest_at_widen; [done| |exact Hm]; split; [reflexivity|done]).
  destruct st; cbn [verdict]; try done.
  - intros H. eapply on_step; [exact Hm'|exact Hk|]. by eapply on_chain_widen.
  - intros (ms & b & Hc & Hall & Ho). exists (m :: ms), b. split_and!.
    + eapply path_step; try done. by eapply chain_path_widen.
    + constructor; [congruence|done].
    + intros E. destruct (Ho E) as [E0 Hl]. subst ov.
      split; [destruct inputs; prop_bools; done|]. intros l El. subst inputs. prop_bools.
      constructor; [done|]. by apply Hl.
Qed.

(** The last manifest of the walk. *)
Lemma verdict_last id parent hg inputs pos m v v' ov0 ov :
  manifest_at env v v' pos m -> wp_commit_id pos <> id -> parent < wp_generation pos ->
  cm_parent_generation m <= parent \/ cm_parent_commit_id m = [] ->
  ov = match inputs with Some l => ov0 || request_overlaps_manifest l m | None => ov0 end ->
  verdict id parent hg inputs pos v v' ov0 OTSARDB_COMMIT_STATE_SUPERSEDED ov.
Proof.
  intros Hm Hid Hp Hl Hov. pose proof Hm as (_ & _ & _ & _ & _ & Hmi). exists [m], false. split_and!.
  - by eapply path_last.
  - constructor; [congruence|constructor].
  - intros E. subst ov. split; [destruct inputs; prop_bools; done|].
    intros l ->. prop_bools. by constructor.
Qed.

Lemma conflict_walk_spec id parent hg inputs fuel : forall pos ov s rc st ov' s',
  conflict_walk store after_object fuel root id parent hg inputs pos ov s = ((rc, st, ov'), s') ->
  env (view s) (view s') /\ verdict id parent hg inputs pos (view s) (view s') ov st ov'.
Proof.
  induction fuel as [|fuel IH]; intros pos ov s rc st ov' s' H; cbn [conflict_walk] in H;
    unfold mbind_, mret_ in H.
  all: destruct (Z.leb_spec (wp_generation pos) parent); [simplify_eq; split; [done|];
         exists [], false; split_and!; [by constructor|constructor|by auto]|].
  { simplify_eq. done. }
  destruct (bytes_eqb (wp_commit_id pos) id) eqn:Eid.
  { apply bytes_eqb_eq in Eid. simplify_eq. split; [done|]. by apply on_here. }
  apply bytes_eqb_neq in Eid.
  destruct (read_manifest store (wp_key pos) (wp_sha pos) s) as [[rc1 res1] s1] eqn:Er.
  apply read_manifest_spec in Er as [He Hr].
  destruct rc1; try (simplify_eq; done).
  - destruct Hr as (ob & m & -> & Hl & Hsha & Hd).
    destruct (_ || _) eqn:Eb; [by simplify_eq|]. prop_bools.
    match goal with Hx : bytes_eqb _ _ = true |- _ => apply bytes_eqb_eq in Hx end.
    assert (manifest_at env (view s) (view s1) pos m) as Hm
      by (exists ob; split_and!; try done; by exists (view s1)).
    set (ov1 := match inputs with Some l => _ | None => _ end) in H.
    destruct (Z.ltb_spec (cm_parent_generation m) parent).
    { simplify_eq. split; [done|]. eapply verdict_last; try done. left. lia. }
    destruct (Z.eqb_spec (cm_parent_generation m) parent).
    { simplify_eq. split; [done|]. destruct (bytes_eqb (cm_parent_commit_id m) id) eqn:Epi.
      - apply bytes_eqb_eq in Epi. by eapply on_parent.
      - eapply verdict_last; try done. left. lia. }
    destruct (zlen (cm_parent_commit_id m) =? 0) eqn:Ez.
    { simplify_eq. prop_bools. split; [done|]. eapply verdict_last; try done. right. by apply zlen_0. }
    destruct (build_manifest_key root (cm_parent_commit_id m)) as [key|] eqn:Ek; [|by simplify_eq].
    apply IH in H as [He' Hv]. split; [by etrans|]. by eapply verdict_step; try done; lia.
  - destruct (resolve_missing store after_object root hg (wp_generation pos) s1) as [[rc2 st2] s2] eqn:Em.
    apply resolve_missing_spec in Em as (He2 & Hnc & Hnn & Hsup). simplify_eq. split; [by etrans|].
    destruct st; try done. destruct (Hsup eq_refl) as [Hg Hc]. exists [], true. split_and!.
    + apply path_swept; [done| |].
      * by exists (view s1).
      * eapply checkpoint_covers_widen; [done| |exact Hc]. by split.
    + constructor.
    + intros ->. split; [done|]. intros l _. constructor.
Qed.

(** Resolution is the same walk without the overlap. *)
Lemma resolve_walk_conflict id parent hg inputs fuel : forall pos ov s,
  resolve_walk store after_object fuel root id parent hg pos s
  = let '((rc, st, _), s') :=
      conflict_walk store after_object fuel root id parent hg inputs pos ov s in ((rc, st), s').
Proof.
  induction fuel as [|fuel IH]; intros pos ov s; cbn [resolve_walk conflict_walk];
    unfold superseded, walk_error, mbind_, mret_; destruct (wp_generation pos <=? parent); try done.
  destruct (bytes_eqb (wp_commit_id pos) id); [done|].
  destruct (read_manifest store (wp_key pos) (wp_sha pos) s) as [[[] [m|]] s1]; try done.
  all: try (destruct (resolve_missing _ _ _ _ _ s1) as [[rc2 st2] s2]; done).
  destruct (_ || _); [done|]. destruct (_ <? _); [done|]. destruct (_ =? parent); [done|].
  destruct (_ =? 0); [done|]. destruct (build_manifest_key _ _); [|done]. apply IH.
Qed.
End Walks.

(** ** Verdicts *)

Section Verdicts.
Context `{HSha : Sha256} {S : Type} (store : otsardb_object_store S) (view : S -> contents)
        (env : contents -> contents -> Prop) {Hpre : PreOrder env}
        (Hlaws : StoreLaws store view env).
Context (after_object : bytes -> bytes) (root : bytes).

(** HEAD held a record that decodes to [h]. *)
Definition head_seen (v v' : contents) (h : otsardb_head) : Prop :=
  exists hk ob, build_head_key root (OTSARDB_KEY_MAX + 1) = Some hk /\
    seen env v v' hk (Some ob) /\ otsardb_head_decode_json (so_data ob) = Some h.
Definition head_absent (v v' : contents) : Prop :=
  exists hk, build_head_key root (OTSARDB_KEY_MAX + 1) = Some hk /\ seen env v v' hk None.

Lemma read_head_seen s rc res s' :
  otsardb_journal_read_head store root s = ((rc, res), s') ->
  env (view s) (view s') /\
  match rc with
  | OTSARDB_JOURNAL_OK => exists h e, res = Some (h, e) /\ head_seen (view s) (view s') h
  | OTSARDB_JOURNAL_NOT_FOUND => head_absent (view s) (view s')
  | _ => True
  end.
Proof.
  intros H. destruct (build_head_key root (OTSARDB_KEY_MAX + 1)) as [hk|] eqn:Ek.
  2:{ unfold otsardb_journal_read_head in H. rewrite Ek in H. cbv [mret_] in H. by simplify_eq. }
  apply (read_head_outcome store view env _ hk) in H; [|done]. destruct H as [He Hr]. split; [done|].
  destruct rc; try done.
  - destruct Hr as (ob & h & e & -> & Hl & Hd & _). exists h, e. split; [done|].
    exists hk, ob. split_and!; try done. by exists (view s').
  - exists hk. split; [done|]. by exists (view s').
Qed.

(** What the caller may conclude from a state. *)
Definition state_means (id : bytes) (parent : Z) (inputs : option (list otsardb_segment_input))
    (v v' : contents) (overlap0 : bool) (st : otsardb_commit_state) (overlap : bool) : Prop :=
  match st with
  | OTSARDB_COMMIT_STATE_UNKNOWN => True
  | OTSARDB_COMMIT_STATE_NOT_COMMITTED =>
      head_absent v v' \/
      exists h, head_seen v v' h /\ hd_commit_id h <> id /\ hd_generation h <= parent
  | OTSARDB_COMMIT_STATE_COMMITTED =>
      exists h, head_seen v v' h /\ on_chain env root v v' id (head_pos h)
  | OTSARDB_COMMIT_STATE_SUPERSEDED =>
      exists h, head_seen v v' h /\ parent < hd_generation h /\
        verdict env after_object root id parent (hd_generation h) inputs (head_pos h) v v'
          overlap0 OTSARDB_COMMIT_STATE_SUPERSEDED overlap
  end.

Lemma verdict_widen id parent hg inputs pos v v' u u' ov0 st ov :
  widens env v v' u u' -> verdict env after_object root id parent hg inputs pos v v' ov0 st ov ->
  verdict env after_object root id parent hg inputs pos u u' ov0 st ov.
Proof.
  intros Hw. destruct st; cbn [verdict]; try done.
  - by apply on_chain_widen.
  - intros (ms & b & Hc & H). exists ms, b. split; [by eapply chain_path_widen|done].
Qed.

Lemma head_seen_widen v v' u u' h : widens env v v' u u' -> head_seen v v' h -> head_seen u u' h.
Proof. intros Hw (hk & ob & Hk & Hs & Hd). exists hk, ob. split_and!; try done. by eapply seen_widen. Qed.

(** The body both operations share, from the read of HEAD on. *)
Definition classify (id : bytes) (parent : Z) (inputs : option (list otsardb_segment_input))
    (overlap : bool) : M S (otsardb_journal_result * otsardb_commit_state * bool) :=
  let! (rc, res) := otsardb_journal_read_head store root in
  match rc, res with
  | OTSARDB_JOURNAL_NOT_FOUND, _ =>
      return! (OTSARDB_JOURNAL_OK, OTSARDB_COMMIT_STATE_NOT_COMMITTED, overlap)
  | OTSARDB_JOURNAL_OK, Some (head, _) =>
      if bytes_eqb (hd_commit_id head) id
      then return! (OTSARDB_JOURNAL_OK, OTSARDB_COMMIT_STATE_COMMITTED, false)
      else if hd_generation head <=? parent
      then return! (OTSARDB_JOURNAL_OK, OTSARDB_COMMIT_STATE_NOT_COMMITTED, overlap)
      else conflict_walk store after_object walk_fuel root id parent (hd_generation head) inputs
             (head_pos head) overlap
  | rc, _ => return! (rc, OTSARDB_COMMIT_STATE_UNKNOWN, overlap)
  end.

Lemma classify_sound id parent inputs ov s rc st ov' s' :
  classify id parent inputs ov s = ((rc, st, ov'), s') ->
  env (view s) (view s') /\ state_means id parent inputs (view s) (view s') ov st ov'.
Proof.
  unfold classify, mbind_, mret_. intros H.
  destruct (otsardb_journal_read_head store root s) as [[rc1 res] s1] eqn:E.
  apply read_head_seen in E as [He Hr].
  destruct rc1; try (simplify_eq; done); [|simplify_eq; split; [done|by left]].
  destruct Hr as (h & e & -> & Hh).
  destruct (bytes_eqb (hd_commit_id h) id) eqn:Eid.
  { apply bytes_eqb_eq in Eid. simplify_eq. split; [done|]. exists h. split; [done|]. by apply on_here. }
  apply bytes_eqb_neq in Eid. destruct (Z.leb_spec (hd_generation h) parent).
  { simplify_eq. split; [done|]. right. by exists h. }
  apply (conflict_walk_spec store view env Hlaws) in H as [He2 Hv]. split; [by etrans|].
  assert (head_seen (view s) (view s') h) as Hh' by (eapply head_seen_widen; [|exact Hh]; by split).
  apply (verdict_widen _ _ _ _ _ _ _ (view s) (view s')) in Hv; [|by split].
  destruct st; try done; by exists h.
Qed.

Lemma resolve_classify id parent inputs ov s : (zlen id =? 0) = false ->
  otsardb_resolve_commit store after_object root id parent s
  = let '((rc, st, _), s') := classify id parent inputs ov s in ((rc, st), s').
Proof.
  intros Hid. unfold otsardb_resolve_commit, classify, walk_error, mbind_, mret_. rewrite Hid.
  destruct (otsardb_journal_read_head store root s) as [[[] [[h e]|]] s1]; try done.
  destruct (bytes_eqb _ _); [done|]. destruct (_ <=? _); [done|]. apply resolve_walk_conflict.
Qed.

Lemma detect_classify r s inputs count :
  (zlen root =? 0) = false -> (zlen (rq_commit_id r) =? 0) = false ->
  valid_parent_request r = true -> resolve_segment_inputs r = Some (inputs, count) ->
  forallb (fun i => valid_page_input (si_pages i)) (default [] inputs) = true ->
  otsardb_publish_commit_detect_conflict store after_object root r s
  = classify (rq_commit_id r) (rq_parent_generation r)
      (if request_has_page_info inputs then inputs else None) (negb (request_has_page_info inputs)) s.
Proof.
  intros H1 H2 H3 H4 H5. unfold otsardb_publish_commit_detect_conflict. rewrite H1, H2, H3, H4, H5.
  reflexivity.
Qed.

Lemma swept_or_all id parent h inputs v v' ov0 ov :
  0 <= parent ->
  verdict env after_object root id parent (hd_generation h) inputs (head_pos h) v v' ov0
    OTSARDB_COMMIT_STATE_SUPERSEDED ov ->
  exists ms swept, chain_path env after_object root v v' (hd_generation h) parent (head_pos h) ms swept /\
    Forall (fun m => cm_commit_id m <> id) ms /\
    (swept = false -> cm_generation <$> ms
       = (fun i => hd_generation h - Z.of_nat i) <$> seq 0 (Z.to_nat (hd_generation h - parent))) /\
    (ov = false -> ov0 = false /\
       forall l, inputs = Some l -> Forall (fun m => request_overlaps_manifest l m = false) ms).
Proof.
  intros Hp (ms & b & Hc & Hall & Ho). exists ms, b. split_and!; try done. intros ->.
  by apply (chain_path_generations env after_object root) in Hc.
Qed.

Lemma chain_path_manifests v v' hg parent pos ms b :
  chain_path env after_object root v v' hg parent pos ms b ->
  Forall (fun m => exists pos, manifest_at env v v' pos m) ms.
Proof. induction 1; repeat constructor; eauto. Qed.
End Verdicts.

(** The merge of two strictly increasing page lists decides whether they
    have a page in common. *)
Theorem sorted_u32_any_intersect_correct (a b : list Z) :
  StronglySorted Z.lt a -> StronglySorted Z.lt b ->
  sorted_u32_any_intersect a b = true <-> exists p, p ∈ a /\ p ∈ b.
Proof. intros Ha Hb. by apply any_intersect_spec. Qed.

Lemma sorted_u32_any_intersect_correct_witness : exists p, p ∈ [2; 5; 9] /\ p ∈ [1; 5; 7; 8].
Proof.
  apply (sorted_u32_any_intersect_correct [2; 5; 9] [1; 5; 7; 8]).
  - repeat constructor.
  - repeat constructor.
  - vm_compute. reflexivity.
Defined.

(** C3. The verdict of a resolution, with other clients acting during the call:
    COMMITTED means that the commit is on the chain of authenticated manifests
    from HEAD; NOT_COMMITTED that HEAD was absent or had not passed the parent
    generation; SUPERSEDED that HEAD is above the parent and that no manifest
    of the authenticated chain down to the parent is the commit's, where the
    chain has every generation between the parent and HEAD unless it was cut at
    a missing manifest below the generation an authenticated checkpoint
    covers. *)
Theorem resolve_commit_sound `{HSha : Sha256} {S} (store : otsardb_object_store S) view env
    (Hpre : PreOrder env) (Hlaws : StoreLaws store view env) after_object root id parent s rc st s' :
  zlen id <> 0 -> 0 <= parent ->
  otsardb_resolve_commit store after_object root id parent s = ((rc, st), s') ->
  match st with
  | OTSARDB_COMMIT_STATE_UNKNOWN => True
  | OTSARDB_COMMIT_STATE_NOT_COMMITTED =>
      head_absent env root (view s) (view s') \/
      exists h, head_seen env root (view s) (view s') h /\ hd_commit_id h <> id /\
        hd_generation h <= parent
  | OTSARDB_COMMIT_STATE_COMMITTED =>
      exists h, head_seen env root (view s) (view s') h /\
        on_chain env root (view s) (view s') id (head_pos h)
  | OTSARDB_COMMIT_STATE_SUPERSEDED =>
      exists h ms swept, head_seen env root (view s) (view s') h /\ parent < hd_generation h /\
        chain_path env after_object root (view s) (view s') (hd_generation h) parent (head_pos h)
          ms swept /\
        Forall (fun m => cm_commit_id m <> id) ms /\
        (swept = false -> cm_generation <$> ms
           = (fun i => hd_generation h - Z.of_nat i) <$> seq 0 (Z.to_nat (hd_generation h - parent)))
  end.
Proof.
  intros Hid Hp H. rewrite (resolve_classify store after_object root id parent None false) in H
    by (by apply Z.eqb_neq).
  destruct (classify store after_object root id parent None false s) as [[[rc1 st1] ov] s1] eqn:E.
  simplify_eq. apply (classify_sound store view env Hlaws) in E as [_ E].
  destruct st; try exact E. destruct E as (h & Hh & Hg & Hv).
  destruct (swept_or_all _ _ _ _ _ _ _ _ _ _ _ Hp Hv) as (ms & b & Hc & Hall & Hgen & _).
  by exists h, ms, b.
Qed.

(** Conflict detection classifies a request exactly as resolution
    classifies its commit: same reads, same result code, same state. *)
Theorem detect_conflict_agrees_with_resolve `{HSha : Sha256} {S} (store : otsardb_object_store S)
    after_object root r inputs count s :
  zlen root <> 0 -> zlen (rq_commit_id r) <> 0 -> valid_parent_request r = true ->
  resolve_segment_inputs r = Some (inputs, count) ->
  forallb (fun i => valid_page_input (si_pages i)) (default [] inputs) = true ->
  otsardb_resolve_commit store after_object root (rq_commit_id r) (rq_parent_generation r) s
  = let '((rc, st, _), s') := otsardb_publish_commit_detect_conflict store after_object root r s in
    ((rc, st), s').
Proof.
  intros Hr Hid Hv Hin Hpg. apply Z.eqb_neq in Hr, Hid.
  rewrite (detect_classify store after_object root r s inputs count) by done.
  by apply resolve_classify.
Qed.

(** C4. A verdict of disjointness is right wherever the chain could be read:
    when detection reports SUPERSEDED without overlap, the request declares
    the pages of every segment, HEAD is above the parent, and every manifest
    of the authenticated chain declares its pages and shares none with the
    request; unless the walk was cut at a missing manifest under a checkpoint,
    these are the manifests of every generation between the parent and HEAD. *)
Theorem detect_conflict_disjoint `{HSha : Sha256} {S} (store : otsardb_object_store S) view env
    (Hpre : PreOrder env) (Hlaws : StoreLaws store view env) after_object root r s rc s' :
  0 <= rq_parent_generation r ->
  otsardb_publish_commit_detect_conflict store after_object root r s
    = ((rc, OTSARDB_COMMIT_STATE_SUPERSEDED, false), s') ->
  exists h segs ms swept, head_seen env root (view s) (view s') h /\
    rq_parent_generation r < hd_generation h /\ rq_segments r = Some segs /\
    let inputs := take (Z.to_nat (rq_segment_count r)) segs in
    Forall (fun i => is_Some (si_pages i)) inputs /\
    chain_path env after_object root (view s) (view s') (hd_generation h) (rq_parent_generation r)
      (head_pos h) ms swept /\
    Forall (disjoint_pages inputs) ms /\
    (swept = false -> cm_generation <$> ms
       = (fun i => hd_generation h - Z.of_nat i)
         <$> seq 0 (Z.to_nat (hd_generation h - rq_parent_generation r))).
Proof.
  intros Hp H. pose proof H as H'. unfold otsardb_publish_commit_detect_conflict in H'.
  destruct (_ || _) eqn:Eg; [done|]. destruct (resolve_segment_inputs r) as [[inputs count]|] eqn:Ei; [|done].
  destruct (forallb _ _) eqn:Ef; [clear H'|done]. prop_bools.
  rewrite (detect_classify store after_object root r s inputs count) in H
    by (try done; by apply Z.eqb_neq).
  apply (classify_sound store view env Hlaws) in H as (_ & h & Hh & Hg & Hv).
  destruct (swept_or_all _ _ _ _ _ _ _ _ _ _ _ Hp Hv) as (ms & b & Hc & _ & Hgen & Ho).
  destruct (Ho eq_refl) as [Eov Hov]. prop_bools. rewrite Eov in Hov.
  destruct inputs as [l|]; [|done]. specialize (Hov l eq_refl). cbn in Ef, Eov.
  assert (exists segs, rq_segments r = Some segs /\ l = take (Z.to_nat (rq_segment_count r)) segs)
    as (segs & Es & ->).
  { unfold resolve_segment_inputs in Ei. destruct (rq_segments r), (rq_segment_payload r);
      try (destruct (_ =? 0)); simplify_eq; eauto. }
  exists h, segs, ms, b. split_and!; try done. cbv zeta. rewrite forallb_forall in Eov, Ef.
  split_and!; try done.
  - apply list.Forall_forall. intros i Hi%list_elem_of_In. specialize (Eov i Hi).
    destruct (si_pages i); [eauto|done].
  - apply chain_path_manifests in Hc. rewrite list.Forall_forall in Hc, Hov |- *.
    intros m Hm. destruct (Hc m Hm) as (pos & ob & _ & _ & Hd & _).
    apply manifest_decode_facts in Hd as (_ & _ & _ & _ & Hps).
    apply not_overlapping; [| |by apply Hov].
    + apply list.Forall_forall. intros i Hi%list_elem_of_In. by apply page_input_sorted with None, Ef.
    + eapply list.Forall_impl; [exact Hps|]. by intros ref (_ & ? & _).
Qed.

(** ** A database with three commits *)

Module Sample.
Definition ref (pages : list Z) : otsardb_manifest_segment_ref :=
  mkSegmentRef (str "segments/s") (replicate 64 97) 600 pages None.
Definition manifest (gen : Z) (id parent_id parent_sha : bytes) (pages : list Z) : bytes :=
  manifest_json (mkManifest 4 gen (gen - 1) 512 9 (str "db-1") id parent_id parent_sha [ref pages] []).
Definition digest (text : bytes) : bytes := otsardb_sha256_hex_data text.

Definition m1 : bytes := Eval vm_compute in manifest 1 (str "c-1") [] [] [1].
Definition m2 : bytes := Eval vm_compute in manifest 2 (str "c-2") (str "c-1") (digest m1) [2].
Definition m3 : bytes := Eval vm_compute in manifest 3 (str "c-3") (str "c-2") (digest m2) [3].
Definition head : otsardb_head := Eval vm_compute in
  mkHead 1 3 (str "db-1") (str "c-3") (str "db/commits/c-3.json") (digest m3).
Definition checkpoint : bytes := str "{" ++ q "covered_generation" ++ str ":3}".
Definition pointer : bytes := Eval vm_compute in
  str "{" ++ q "covered_generation" ++ str ":3," ++ q "checkpoint_sha256" ++ str ":" ++
  quoted (digest checkpoint) ++ str "," ++ q "checkpoint_key" ++ str ":" ++
  q "db/checkpoints/cp.json" ++ str "}".

Definition object (data : bytes) : otsardb_store_object := mkObject data (Some (str "e")) 0.
Definition full : contents :=
  <[str "db/HEAD.json" := object (otsardb_head_encode_json head)]>
  (<[str "db/CHECKPOINT.json" := object pointer]>
  (<[str "db/checkpoints/cp.json" := object checkpoint]>
  (<[str "db/commits/c-1.json" := object m1]>
  (<[str "db/commits/c-2.json" := object m2]>
  (<[str "db/commits/c-3.json" := object m3]> ∅))))).
(** The sweep removes manifests below the covered generation. *)
Definition swept : contents := delete (str "db/commits/c-2.json") full.

Definition request (pages : list Z) : otsardb_commit_request :=
  mkRequest demo_root (str "db-1") (str "c-x") (Some (str "c-1")) (Some (digest m1)) 1 512 9 None
    (Some [mkSegmentInput sample_batch (Some pages)]) 1 None (Some (str "e")) false
    OTSARDB_WRITE_STRATEGY_DEFAULT None.

Definition nothing_after (_ : bytes) : bytes := [].
Definition resolve (v : contents) (id : string) (parent : Z) :=
  fst (otsardb_resolve_commit (mem_store CAPS_ALL) nothing_after demo_root (str id) parent
         (mkMem v 0 0 [])).
Definition detect (v : contents) (pages : list Z) :=
  fst (otsardb_publish_commit_detect_conflict (mem_store CAPS_ALL) nothing_after demo_root
         (request pages) (mkMem v 0 0 [])).
End Sample.

Lemma resolve_commit_sound_witness :
  Sample.resolve Sample.full "c-2" 1 = (OTSARDB_JOURNAL_OK, OTSARDB_COMMIT_STATE_COMMITTED) /\
  exists s' h, head_seen quiet demo_root Sample.full (m_objects s') h /\
    on_chain quiet demo_root Sample.full (m_objects s') (str "c-2") (head_pos h).
Proof.
  set (run := otsardb_resolve_commit (mem_store CAPS_ALL) Sample.nothing_after demo_root (str "c-2") 1
                (mkMem Sample.full 0 0 [])).
  assert (fst run = (OTSARDB_JOURNAL_OK, OTSARDB_COMMIT_STATE_COMMITTED)) as E
    by (vm_compute; reflexivity).
  split; [exact E|]. exists (snd run).
  apply (resolve_commit_sound (mem_store CAPS_ALL) m_objects quiet _ (mem_store_laws CAPS_ALL)
    Sample.nothing_after demo_root (str "c-2") 1 (mkMem Sample.full 0 0 []) OTSARDB_JOURNAL_OK
    OTSARDB_COMMIT_STATE_COMMITTED (snd run)).
  - vm_compute. discriminate.
  - lia.
  - rewrite <- E. apply (surjective_pairing run).
Defined.

Lemma detect_conflict_disjoint_witness :
  Sample.detect Sample.full [5; 7]
    = (OTSARDB_JOURNAL_OK, OTSARDB_COMMIT_STATE_SUPERSEDED, false) /\
  exists s' h ms swept, head_seen quiet demo_root Sample.full (m_objects s') h /\
    Forall (disjoint_pages [mkSegmentInput sample_batch (Some [5; 7])]) ms /\
    (swept = false -> cm_generation <$> ms
       = (fun i => hd_generation h - Z.of_nat i) <$> seq 0 (Z.to_nat (hd_generation h - 1))).
Proof.
  set (run := otsardb_publish_commit_detect_conflict (mem_store CAPS_ALL) Sample.nothing_after
                demo_root (Sample.request [5; 7]) (mkMem Sample.full 0 0 [])).
  assert (fst run = (OTSARDB_JOURNAL_OK, OTSARDB_COMMIT_STATE_SUPERSEDED, false)) as E
    by (vm_compute; reflexivity).
  split; [exact E|]. exists (snd run).
  destruct (detect_conflict_disjoint (mem_store CAPS_ALL) m_objects quiet _ (mem_store_laws CAPS_ALL)
    Sample.nothing_after demo_root (Sample.request [5; 7]) (mkMem Sample.full 0 0 [])
    OTSARDB_JOURNAL_OK (snd run)) as (h & segs & ms & b & Hh & _ & Hs & _ & _ & Hd & Hg).
  - cbn. lia.
  - rewrite <- E. apply (surjective_pairing run).
  - injection Hs as <-. exists h, ms, b. split_and!; [exact Hh|exact Hd|exact Hg].
Defined.

Lemma detect_conflict_agrees_with_resolve_witness :
  Sample.resolve Sample.full "c-x" 1 = fst (Sample.detect Sample.full [2]).
Proof.
  unfold Sample.resolve, Sample.detect.
  pose proof (detect_conflict_agrees_with_resolve (mem_store CAPS_ALL) Sample.nothing_after demo_root
    (Sample.request [2]) (Some [mkSegmentInput sample_batch (Some [2])]) 1
    (mkMem Sample.full 0 0 [])) as H.
  cbn [rq_commit_id rq_parent_generation Sample.request] in H. rewrite H; clear H.
  - by destruct (otsardb_publish_commit_detect_conflict _ _ _ _ _) as [[[rc st] ov] s'].
  - vm_compute. discriminate.
  - vm_compute. discriminate.
  - vm_compute. reflexivity.
  - vm_compute. reflexivity.
  - vm_compute. reflexivity.
Defined.

(** The sweep of old manifests changes the verdict on a conflict. A request
    that writes page 2 on top of generation 1 overlaps commit [c-2], which
    detection reports while its manifest is there; once the manifest is swept
    under a checkpoint, the same call on the same history reports SUPERSEDED
    without overlap. *)
Theorem detect_conflict_swept_overlap_lost :
  Sample.detect Sample.full [2]
    = (OTSARDB_JOURNAL_OK, OTSARDB_COMMIT_STATE_SUPERSEDED, true) /\
  Sample.detect Sample.swept [2]
    = (OTSARDB_JOURNAL_OK, OTSARDB_COMMIT_STATE_SUPERSEDED, false).
Proof. split; vm_compute; reflexivity. Qed.

(** A commit that is on the chain resolves COMMITTED; once a manifest above
    it is swept under a checkpoint, it resolves SUPERSEDED. *)
Theorem resolve_commit_swept_forgotten :
  Sample.resolve Sample.full "c-1" 0 = (OTSARDB_JOURNAL_OK, OTSARDB_COMMIT_STATE_COMMITTED) /\
  Sample.resolve Sample.swept "c-1" 0 = (OTSARDB_JOURNAL_OK, OTSARDB_COMMIT_STATE_SUPERSEDED).
Proof. split; vm_compute; reflexivity. Qed.
