(* ===== verification/Lease.v ===== *)
(** * The writer lease (ha/lease.c)

    One process publishes commits for a database: the holder of
    [<root>/lease.json], an object with an owner and a generation. It is
    created, adopted, taken over and renewed by conditional puts; a competitor
    takes over only a lease whose Last-Modified has expired on its own clock.
    The mutex of the C struct guards single fields: a renewal is a snapshot, a
    store round trip and a commit. *)

From S2P Require Import Prelude CText JsonText ObjectStore.

Definition OTSARDB_LEASE_TTL_DEFAULT_SECS : Z := 30.
Definition OTSARDB_LEASE_SKEW_MARGIN_SECS : Z := 5.
Definition OTSARDB_LEASE_OWNER_MAX : Z := 63.
Definition OTSARDB_LEASE_ADDRESS_MAX : Z := 255.
Definition OTSARDB_LEASE_KEY_MAX : Z := 1024.
Definition OTSARDB_LEASE_JSON_MAX : Z := 512.

(** [OTSARDB_LEASE_CLAIMED], [_HELD] and [_ERROR]. *)
Inductive claim_state := OTSARDB_LEASE_CLAIMED | OTSARDB_LEASE_HELD | OTSARDB_LEASE_ERROR.

(** The result of a renewal: 0, 1 and 2. *)
Inductive renew_result := RENEWED | RENEW_LOST | RENEW_ERROR.

Record otsardb_lease := mkLease {
  ls_key : bytes;
  ls_owner : bytes;
  ls_address : bytes;
  ls_generation : Z;
  ls_etag : bytes;
  ls_ttl_secs : Z;
  ls_claimed_at : Z;
  ls_lost : bool
}.

(** A [uint64_t] as an [int64_t]. *)
Definition i64 (v : Z) : Z := if 2 ^ 63 <=? v then v - 2 ^ 64 else v.

Definition age_is_expired (age_secs ttl_secs : Z) : bool :=
  let window := i64 ttl_secs - OTSARDB_LEASE_SKEW_MARGIN_SECS in
  (if window <? 0 then 0 else window) <=? age_secs.

Definition otsardb_lease_age_is_expired (ttl_secs age_secs : Z) : bool :=
  age_is_expired age_secs ttl_secs.

(** The age of something stamped at [then_], never negative. *)
Definition age_of (now then_ : Z) : Z := if now - then_ <? 0 then 0 else now - then_.

(** ** The lease object *)

(** The text, cut to the buffer: [snprintf] reports the full length, so a cut
    text is not detected. *)
Definition encode_lease_json (owner : bytes) (generation : Z) (address : option bytes) : bytes :=
  let addr := default [] address in
  snprintf_s OTSARDB_LEASE_JSON_MAX
    (str "{" ++ q "owner" ++ str ":" ++ quoted owner ++ str "," ++ q "generation" ++ str ":" ++
     dec generation ++
     (if zlen addr =? 0 then [] else str "," ++ q "address" ++ str ":" ++ quoted addr) ++ str "}").

(** [json] is the text up to the first NUL at or after the object's [size]
    bytes; the value must close inside the object. *)
Definition parse_lease_string_field (json : bytes) (size : Z) (key : bytes) (out_cap : Z)
  : option bytes :=
  match find_after json key with
  | None => None
  | Some p =>
      match split_at dq p with
      | None => None
      | Some (_, value_start) =>
          match split_at dq value_start with
          | None => None
          | Some (value, rest) =>
              let value_close := zlen json - zlen rest - 1 in
              if (size <=? value_close) || (out_cap <=? zlen value) then None else Some value
          end
      end
  end.

Definition is_gap (c : Z) : bool :=
  (c =? 58) || (c =? 32) || (c =? 9) || (c =? 13) || (c =? 10).
Definition is_white (c : Z) : bool := (c =? 32) || (c =? 9) || (c =? 13) || (c =? 10).

Definition parse_lease_generation (json : bytes) : option Z :=
  match find_after json (q "generation") with
  | None => None
  | Some p =>
      match strtoull (skip_while is_gap p) with
      | None => None
      | Some (v, rest, _) =>
          match skip_while is_white rest with
          | [] | 125 :: _ | 44 :: _ => Some v
          | _ => None
          end
      end
  end.

(** Owner, generation and address (empty when absent or malformed). *)
Definition parse_lease_json (json : bytes) (size : Z) : option (bytes * Z * bytes) :=
  match parse_lease_string_field json size (q "owner") (OTSARDB_LEASE_OWNER_MAX + 1) with
  | None | Some [] => None
  | Some owner =>
      match parse_lease_generation json with
      | None => None
      | Some generation =>
          Some (owner, generation,
                default [] (parse_lease_string_field json size (q "address")
                              (OTSARDB_LEASE_ADDRESS_MAX + 1)))
      end
  end.

(** No quote and no backslash. *)
Definition json_safe (s : bytes) : bool := no_byte dq s && no_byte 92 s.
Definition lease_address_valid (address : option bytes) : bool := json_safe (default [] address).

Definition lease_set (lease : otsardb_lease) (owner : bytes) (generation : Z)
    (address etag : option bytes) (now : Z) : otsardb_lease :=
  mkLease (ls_key lease) (snprintf_s (OTSARDB_LEASE_OWNER_MAX + 1) owner)
    (snprintf_s (OTSARDB_LEASE_ADDRESS_MAX + 1)
       (if lease_address_valid address then default [] address else []))
    generation (snprintf_s 128 (default [] etag)) (ls_ttl_secs lease) now false.

(** ** Operations *)

Record claim_outcome := mkClaim {
  co_lease : option otsardb_lease;
  co_epoch : Z;
  co_state : claim_state;
  co_holder : bytes;
  co_address : bytes
}.

Section Operations.
Context {S : Type} (store : otsardb_object_store S).
(** The local clock, and what the memory after an object's bytes holds. *)
Context (clock_now : S -> Z) (after_object : bytes -> bytes).

Definition read_clock : M S Z := fun s => (clock_now s, s).

(** A failed claim; [holder] and [addr] are what the last read returned. *)
Definition not_claimed (state : claim_state) (holder addr : bytes) : M S claim_outcome :=
  return! mkClaim None 0 state holder addr.

(** The put that ends an attempt, with what to do when it lost a race. *)
Definition claim_put (lease : otsardb_lease) (instance_id : bytes) (address : option bytes)
    (generation : Z) (options : otsardb_store_put_options) (holder addr : bytes)
    (retry : M S claim_outcome) : M S claim_outcome :=
  let! rc := otsardb_store_put store (ls_key lease)
               (encode_lease_json instance_id generation address) options in
  match rc with
  | inr etag =>
      let! now := read_clock in
      return! mkClaim (Some (lease_set lease instance_id generation address etag now)) generation
                OTSARDB_LEASE_CLAIMED holder addr
  | inl OTSARDB_STORE_PRECONDITION_FAILED => retry
  | inl _ => not_claimed OTSARDB_LEASE_ERROR holder addr
  end.

Definition object_text (object : otsardb_store_object) : bytes :=
  cstr (so_data object ++ after_object (so_data object)).

(** The remaining attempts; a run of lost races ends HELD. *)
Fixpoint claim_loop (attempts : nat) (lease : otsardb_lease) (instance_id : bytes)
    (address : option bytes) (holder_cap address_cap : Z) (holder addr : bytes)
  : M S claim_outcome :=
  match attempts with
  | O => not_claimed OTSARDB_LEASE_HELD holder addr
  | Datatypes.S attempts' =>
      let! rc := otsardb_store_get store (ls_key lease) in
      match rc with
      | inl OTSARDB_STORE_NOT_FOUND =>
          claim_put lease instance_id address 1 (mkPutOptions true None) holder addr
            (claim_loop attempts' lease instance_id address holder_cap address_cap holder addr)
      | inl _ => not_claimed OTSARDB_LEASE_ERROR holder addr
      | inr object =>
          match parse_lease_json (object_text object) (zlen (so_data object)) with
          | None => not_claimed OTSARDB_LEASE_ERROR holder addr
          | Some (current_owner, generation, current_address) =>
              let holder := snprintf_s holder_cap current_owner in
              let addr := snprintf_s address_cap current_address in
              let retry := claim_loop attempts' lease instance_id address holder_cap address_cap
                             holder addr in
              let match_etag := mkPutOptions false (so_etag object) in
              if bytes_eqb current_owner instance_id
              then claim_put lease instance_id address generation match_etag holder addr retry
              else
                let! now := read_clock in
                if (0 <? so_last_modified_secs object) &&
                   age_is_expired (age_of now (so_last_modified_secs object)) (ls_ttl_secs lease)
                then claim_put lease instance_id address (u64 (generation + 1)) match_etag
                       holder addr retry
                else not_claimed OTSARDB_LEASE_HELD holder addr
          end
      end
  end.

Definition new_lease (database_root : bytes) (ttl_secs : Z) : otsardb_lease :=
  mkLease (snprintf_s (OTSARDB_LEASE_KEY_MAX + 1) (database_root ++ str "/lease.json")) [] [] 0 []
    (if ttl_secs =? 0 then OTSARDB_LEASE_TTL_DEFAULT_SECS else ttl_secs) 0 false.

Definition otsardb_lease_claim (database_root instance_id : bytes) (address : option bytes)
    (ttl_secs holder_cap address_cap : Z) : M S claim_outcome :=
  if (zlen database_root =? 0) || (zlen instance_id =? 0) ||
     (OTSARDB_LEASE_KEY_MAX <=? zlen database_root)
  then not_claimed OTSARDB_LEASE_ERROR [] []
  else if negb (json_safe instance_id) || negb (lease_address_valid address)
  then not_claimed OTSARDB_LEASE_ERROR [] []
  else claim_loop 3 (new_lease database_root ttl_secs) instance_id address holder_cap address_cap
         [] [].

(** The commit of a renewal on the lease as it is by then. *)
Definition renew_commit (lease : otsardb_lease) (rc : store_error + option bytes) (now : Z)
  : renew_result * otsardb_lease :=
  match rc with
  | inr etag =>
      (RENEWED,
       if ls_lost lease then lease
       else mkLease (ls_key lease) (ls_owner lease) (ls_address lease) (ls_generation lease)
              (snprintf_s 128 (default [] etag)) (ls_ttl_secs lease) now false)
  | inl OTSARDB_STORE_PRECONDITION_FAILED =>
      (RENEW_LOST,
       mkLease (ls_key lease) (ls_owner lease) (ls_address lease) (ls_generation lease)
         (ls_etag lease) (ls_ttl_secs lease) (ls_claimed_at lease) true)
  | inl _ => (RENEW_ERROR, lease)
  end.

Definition otsardb_lease_renew (lease : otsardb_lease) : M S (renew_result * otsardb_lease) :=
  if ls_lost lease then return! (RENEW_LOST, lease)
  else
    let! rc := otsardb_store_put store (ls_key lease)
                 (encode_lease_json (ls_owner lease) (ls_generation lease) (Some (ls_address lease)))
                 (mkPutOptions false (Some (ls_etag lease))) in
    let! now := read_clock in
    return! renew_commit lease rc now.

Definition otsardb_lease_is_live (lease : otsardb_lease) : M S bool :=
  if ls_lost lease then return! false
  else
    let! now := read_clock in
    return! negb (age_is_expired (age_of now (ls_claimed_at lease)) (ls_ttl_secs lease)).

(** [None] is the return value 0. *)
Definition otsardb_lease_address (lease : otsardb_lease) (out_cap : Z) : option bytes :=
  if out_cap =? 0 then None
  else match snprintf_s out_cap (ls_address lease) with
       | [] => None
       | a => Some a
       end.

Definition otsardb_lease_release (lease : otsardb_lease) : M S otsardb_lease :=
  let! live := otsardb_lease_is_live lease in
  if negb live then return! lease
  else
    let! _ := otsardb_store_delete store (ls_key lease) in
    return! mkLease (ls_key lease) (ls_owner lease) (ls_address lease) (ls_generation lease)
              (ls_etag lease) (ls_ttl_secs lease) (ls_claimed_at lease) true.
End Operations.

(** ** The text of a lease *)

Definition lease_toks (owner : bytes) (generation : Z) (addr : bytes) : list tok :=
  [TR (str "{"); TQ (str "owner"); TR (str ":"); TQ owner; TR (str ","); TQ (str "generation");
   TR (str ":"); TR (dec generation)] ++
  (if zlen addr =? 0 then [] else [TR (str ","); TQ (str "address"); TR (str ":"); TQ addr]) ++
  [TR (str "}")].

(** Owners and addresses that survive the text. *)
Definition owner_ok (owner : bytes) : bool :=
  no_nul owner && noq owner && negb (zlen owner =? 0) && (zlen owner <? 64) &&
  negb (bytes_eqb owner (str "generation")) && negb (bytes_eqb owner (str "address")).
Definition address_ok (addr : bytes) : bool := no_nul addr && noq addr && (zlen addr <? 256).

Lemma length_dec_fuel fuel : forall n acc,
  (length (dec_fuel fuel n acc) <= fuel + length acc)%nat.
Proof.
  induction fuel as [|fuel IH]; intros n acc; cbn [dec_fuel]; [lia|].
  destruct (n / 10 =? 0); [cbn; lia|]. specialize (IH (n / 10) ((48 + n mod 10) :: acc)).
  cbn [length] in IH. lia.
Qed.

Lemma zlen_dec n : zlen (dec n) <= 20.
Proof. unfold zlen, dec. pose proof (length_dec_fuel 20 n []). cbn [length] in H. lia. Qed.

Lemma owner_ok_spec owner : owner_ok owner = true ->
  no_nul owner = true /\ noq owner = true /\ 0 < zlen owner < 64 /\
  bytes_eqb owner (str "generation") = false /\ bytes_eqb owner (str "address") = false.
Proof.
  unfold owner_ok. intros H. prop_bools. pose proof (zlen_nonneg owner). split_and!; try done; lia.
Qed.

Section LeaseText.
Context (owner : bytes) (generation : Z) (addr : bytes).
Context (Ho : owner_ok owner = true) (Ha : address_ok addr = true) (Hg : is_u64 generation).

Lemma lease_toks_ok :
  toks_wf (lease_toks owner generation addr) = true /\
  no_nul (text (lease_toks owner generation addr) []) = true.
Proof.
  apply owner_ok_spec in Ho as (? & ? & _ & _). unfold address_ok in Ha. prop_bools.
  unfold lease_toks. destruct (zlen addr =? 0).
  - split; [json_wf|apply text_no_nul; json_wf].
  - split; [json_wf|apply text_no_nul; json_wf].
Qed.

Lemma encode_lease_toks :
  encode_lease_json owner generation (Some addr) = text (lease_toks owner generation addr) [].
Proof.
  pose proof (owner_ok_spec _ Ho) as (_ & _ & Hol & _). unfold address_ok in Ha. prop_bools.
  unfold encode_lease_json. change (default [] (Some addr)) with addr. cbv zeta. set (t := str "{" ++ _).
  assert (t = text (lease_toks owner generation addr) []) as <-.
  { unfold t, lease_toks, q, quoted. destruct (zlen addr =? 0); cbn [text app];
      repeat (rewrite <- ?app_assoc, <- ?app_comm_cons; cbn [app]); by rewrite ?app_nil_r. }
  unfold snprintf_s. apply take_ge.
  assert (zlen t <= 460); [|unfold zlen, OTSARDB_LEASE_JSON_MAX in *; lia].
  pose proof (zlen_dec generation). unfold t. destruct (zlen addr =? 0);
    unfold q, quoted; repeat rewrite ?zlen_app, ?zlen_cons, ?zlen_nil;
    change (zlen (str "{")) with 1; change (zlen (str "owner")) with 5; change (zlen (str ":")) with 1;
    change (zlen (str ",")) with 1; change (zlen (str "generation")) with 10;
    change (zlen (str "address")) with 7; change (zlen (str "}")) with 1;
    rewrite ?(@zlen_nil Z); lia.
Qed.

Lemma find_key_text n tail ts :
  name_ok n = true -> toks_wf ts = true -> find_after (text ts tail) (quoted n) = tok_find n [] ts tail.
Proof. intros ??. rewrite <- find_after_text by done. unfold pattern. by rewrite app_nil_r. Qed.

Lemma tok_find_other n s r tail : bytes_eqb s n = false -> tok_find n [] (TQ s :: r) tail = tok_find n [] r tail.
Proof. intros E. cbn [tok_find]. by rewrite E, andb_false_r. Qed.
Lemma tok_find_this n r tail : tok_find n [] (TQ n :: r) tail = Some (text r tail).
Proof. cbn [tok_find]. by rewrite bytes_eqb_refl. Qed.

Lemma cstr_app a b : no_nul a = true -> cstr (a ++ b) = a ++ cstr b.
Proof.
  induction a as [|c a IH]; [done|]. unfold no_nul. rewrite no_byte_cons. intros H. prop_bools.
  cbn. destruct (Z.eqb_spec c 0); [done|]. by rewrite IH.
Qed.

Lemma zlen_text ts tail : zlen (text ts tail) = zlen (text ts []) + zlen tail.
Proof. by rewrite text_tail, zlen_app. Qed.

Lemma field_hit json size n cap v r :
  find_after json (q n) = Some (str ":" ++ dq :: v ++ dq :: r) -> noq v = true -> zlen v < cap ->
  zlen json - zlen r - 1 < size -> parse_lease_string_field json size (q n) cap = Some v.
Proof.
  intros Hf Hq Hl Hs. unfold parse_lease_string_field. rewrite Hf.
  rewrite (split_at_app dq (str ":")) by done. rewrite split_at_app by done.
  destruct (Z.leb_spec size (zlen json - zlen r - 1)); [lia|].
  by destruct (Z.leb_spec cap (zlen v)); [lia|].
Qed.

Lemma find_after_shorter hay pat p : find_after hay pat = Some p -> zlen p <= zlen hay.
Proof.
  unfold find_after. destruct (strstr hay pat) as [r|] eqn:E; [|done]. intros [= <-].
  assert (length r <= length hay)%nat.
  { revert E. induction hay as [|c hay IH]; cbn [strstr]; destruct (prefixb _ _); intros E; simplify_eq;
      [done|done|]. specialize (IH E). cbn. lia. }
  unfold zlen. rewrite length_drop. lia.
Qed.

Lemma split_at_shorter c l a b : split_at c l = Some (a, b) -> zlen l = zlen a + 1 + zlen b.
Proof.
  revert a b. induction l as [|x l IH]; intros a b; cbn [split_at]; [done|].
  destruct (x =? c); [intros [= <- <-]; rewrite zlen_cons; done|].
  destruct (split_at c l) as [[a' b']|]; [|done]. intros [= <- <-].
  rewrite !zlen_cons, (IH a' b') by done. lia.
Qed.

(** A field found only after the object is not read. *)
Lemma field_beyond json size n cap tail :
  zlen json = size + zlen tail -> find_after json (q n) = find_after tail (q n) ->
  parse_lease_string_field json size (q n) cap = None.
Proof.
  intros Hl Hf. unfold parse_lease_string_field. rewrite Hf.
  destruct (find_after tail (q n)) as [p|] eqn:Ep; [|done]. apply find_after_shorter in Ep.
  destruct (split_at dq p) as [[a b]|] eqn:E1; [|done]. apply split_at_shorter in E1.
  destruct (split_at dq b) as [[v r]|] eqn:E2; [|done]. apply split_at_shorter in E2.
  pose proof (zlen_nonneg a). pose proof (zlen_nonneg v).
  by destruct (Z.leb_spec size (zlen json - zlen r - 1)); [|lia].
Qed.

Lemma lease_generation_text tail :
  parse_lease_generation (text (lease_toks owner generation addr) tail) = Some generation.
Proof.
  destruct lease_toks_ok as [Hwf _]. pose proof (owner_ok_spec _ Ho) as (_ & _ & _ & Hn & _).
  unfold parse_lease_generation, q. rewrite find_key_text by done.
  unfold lease_toks. cbn [app]. rewrite tok_find_TR, tok_find_other, tok_find_TR by done.
  rewrite tok_find_other, tok_find_TR, tok_find_this by done. cbn [text].
  set (r := text _ tail). change (str ":" ++ dec generation ++ r) with (58 :: dec generation ++ r).
  assert (skip_while is_gap (58 :: dec generation ++ r) = dec generation ++ r) as ->.
  { change (skip_while is_gap (58 :: dec generation ++ r)) with (skip_while is_gap (dec generation ++ r)).
    destruct (dec_head generation Hg) as (d & ds & -> & Hd). apply skip_while_stop.
    unfold is_digit in Hd. unfold is_gap. prop_bools.
    cbn [app]. apply negb_true_iff. repeat apply orb_false_intro; apply Z.eqb_neq; lia. }
  assert (exists c r', r = c :: r' /\ (c = 125 \/ c = 44)) as (c & r' & -> & Hc).
  { unfold r. destruct (zlen addr =? 0); cbn [app text]; [exists 125|exists 44]; eauto. }
  rewrite strtoull_dec by (try done; destruct Hc; by subst). by destruct Hc; subst.
Qed.

Lemma lease_address_text tail :
  let json := text (lease_toks owner generation addr) tail in
  default [] (parse_lease_string_field json (zlen json - zlen tail) (q "address")
                (OTSARDB_LEASE_ADDRESS_MAX + 1)) = addr.
Proof.
  destruct lease_toks_ok as [Hwf _]. pose proof (owner_ok_spec _ Ho) as (_ & _ & _ & _ & Hna).
  cbv zeta. pose proof Ha as Ha'. unfold address_ok in Ha'. prop_bools.
  destruct (Z.eqb_spec (zlen addr) 0) as [E0|E0].
  - rewrite (field_beyond _ _ "address" _ tail); [cbn; symmetry; by apply zlen_0|lia|].
    unfold q. rewrite find_key_text by done. unfold lease_toks. rewrite E0. cbn [app Z.eqb].
    rewrite tok_find_TR, tok_find_other, tok_find_TR by done.
    rewrite tok_find_other, tok_find_TR, tok_find_other by done. rewrite !tok_find_TR.
    cbn [tok_find]. unfold pattern. by rewrite app_nil_r.
  - rewrite (field_hit _ _ "address" _ addr (text [TR (str "}")] tail)); try done.
    + unfold q. rewrite find_key_text by done. unfold lease_toks.
      destruct (Z.eqb_spec (zlen addr) 0); [lia|]. cbn [app].
      rewrite tok_find_TR, tok_find_other, tok_find_TR by done.
      rewrite tok_find_other, tok_find_TR, tok_find_other by done.
      rewrite !tok_find_TR, tok_find_this by done. done.
    + rewrite (zlen_text [TR (str "}")]). pose proof (zlen_nonneg (text [TR (str "}")] [])). lia.
Qed.

Lemma parse_lease_text tail :
  let json := text (lease_toks owner generation addr) tail in
  parse_lease_json json (zlen json - zlen tail) = Some (owner, generation, addr).
Proof.
  destruct lease_toks_ok as [Hwf _]. pose proof (owner_ok_spec _ Ho) as (_ & Hoq & Hol & _ & _).
  cbv zeta. unfold parse_lease_json.
  rewrite (field_hit _ _ "owner" _ owner (text (drop 4 (lease_toks owner generation addr)) tail)).
  - rewrite lease_generation_text, lease_address_text. clear -Hol.
    destruct owner; [change (zlen (@nil Z)) with 0 in Hol; lia|done].
  - unfold q. rewrite find_key_text by done. unfold lease_toks. cbn [app].
    rewrite tok_find_TR, tok_find_this by done. done.
  - done.
  - unfold OTSARDB_LEASE_OWNER_MAX. lia.
  - rewrite (zlen_text (drop 4 _)).
    pose proof (zlen_nonneg (text (drop 4 (lease_toks owner generation addr)) [])). lia.
Qed.
End LeaseText.
