(* ===== verification/S3Target.v ===== *)
(** * The logical S3 target (s3_target.c)

    A target names a bucket and a database root; both are normalized before any
    object key is built from them. The file also derives the identity of the
    database and shows what the normalization gives the key builders of the
    other modules. *)

From S2P Require Import Prelude CText ObjectStore Journal Sha256 Lease.

Definition OTSARDB_S3_BUCKET_MAX : Z := 255.

Record otsardb_s3_target := mkTarget {
  tg_bucket : bytes;
  tg_database_root : bytes
}.

(** A question mark or a hash sign. *)
Definition has_forbidden_uri_suffix (value : bytes) : bool :=
  existsb (fun c => (c =? 63) || (c =? 35)) value.

(** The trailing slashes are dropped. *)
Fixpoint trim_slashes (s : bytes) : bytes :=
  match s with
  | [] => []
  | c :: t => match trim_slashes t with
              | [] => if c =? 47 then [] else [c]
              | t' => c :: t'
              end
  end.

Definition strip_scheme (value : bytes) : option bytes :=
  if prefixb (str "s3://") value then Some (drop 5 value)
  else if prefixb (str "otsardb+s3://") value then Some (drop 13 value)
  else None.

(** Bucket and root, after the scheme. *)
Definition parse_location (cursor : bytes) : option otsardb_s3_target :=
  match split_at 47 cursor with
  | None | Some ([], _) => None
  | Some (bucket, rest) =>
      if (OTSARDB_S3_BUCKET_MAX <? zlen bucket) || has_forbidden_uri_suffix bucket then None
      else
        let root := trim_slashes (skip_while (fun c => c =? 47) rest) in
        if (zlen root =? 0) || (OTSARDB_KEY_MAX <? zlen root) || has_forbidden_uri_suffix root
        then None else Some (mkTarget bucket root)
  end.

Definition otsardb_s3_target_parse (value : bytes) : option otsardb_s3_target :=
  match strip_scheme value with
  | None => None
  | Some cursor => parse_location cursor
  end.

(** [s3://bucket/root], the text whose digest is the identity. *)
Definition target_identity (t : otsardb_s3_target) : bytes :=
  str "s3://" ++ tg_bucket t ++ str "/" ++ tg_database_root t.

Definition otsardb_s3_target_database_id `{Sha256} (t : otsardb_s3_target) : option bytes :=
  if (zlen (tg_bucket t) =? 0) || (zlen (tg_database_root t) =? 0) ||
     (OTSARDB_S3_BUCKET_MAX <? zlen (tg_bucket t)) || (OTSARDB_KEY_MAX <? zlen (tg_database_root t))
  then None
  else Some (str "db-" ++ take 48 (otsardb_sha256_hex_data (target_identity t))).

(** ** Normal targets *)

Definition no_slash (s : bytes) : bool := no_byte 47 s.
Definition ends_clean (s : bytes) : bool := match last_byte s with Some c => negb (c =? 47) | None => false end.
Definition starts_clean (s : bytes) : bool := match s with c :: _ => negb (c =? 47) | [] => false end.

(** What a parsed target satisfies. *)
Definition target_ok (t : otsardb_s3_target) : Prop :=
  no_slash (tg_bucket t) = true /\ 0 < zlen (tg_bucket t) <= OTSARDB_S3_BUCKET_MAX /\
  has_forbidden_uri_suffix (tg_bucket t) = false /\
  starts_clean (tg_database_root t) = true /\ ends_clean (tg_database_root t) = true /\
  0 < zlen (tg_database_root t) <= OTSARDB_KEY_MAX /\ has_forbidden_uri_suffix (tg_database_root t) = false.

Lemma trim_slashes_ends s : trim_slashes s <> [] -> ends_clean (trim_slashes s) = true.
Proof.
  induction s as [|c s IH]; [done|]. cbn [trim_slashes]. destruct (trim_slashes s) as [|d t] eqn:E.
  - destruct (Z.eqb_spec c 47); [done|]. intros _. unfold ends_clean. cbn. by apply Z.eqb_neq in n as ->.
  - intros _. unfold ends_clean in *. cbn [last_byte] in *. by apply IH.
Qed.

Lemma trim_slashes_head s : starts_clean s = true -> starts_clean (trim_slashes s) = true.
Proof.
  destruct s as [|c s]; [done|]. cbn [trim_slashes starts_clean]. intros H.
  destruct (trim_slashes s); [|done]. destruct (c =? 47) eqn:E; [done|]. cbn. by rewrite E.
Qed.

Lemma skip_slashes_head s : skip_while (fun c => c =? 47) s <> [] ->
  starts_clean (skip_while (fun c => c =? 47) s) = true.
Proof.
  induction s as [|c s IH]; [done|]. cbn [skip_while]. destruct (c =? 47) eqn:E; [done|].
  intros _. cbn. by rewrite E.
Qed.

Lemma trim_slashes_id s : ends_clean s = true -> trim_slashes s = s.
Proof.
  induction s as [|c s IH]; [done|]. cbn [trim_slashes]. unfold ends_clean in *. destruct s as [|d s].
  - cbn. by destruct (c =? 47).
  - cbn [last_byte]. intros H. rewrite IH by done. done.
Qed.

Lemma skip_slashes_id s : starts_clean s = true -> skip_while (fun c => c =? 47) s = s.
Proof. destruct s as [|c s]; [done|]. cbn. by destruct (c =? 47). Qed.

Lemma parsed_target_ok value t : otsardb_s3_target_parse value = Some t -> target_ok t.
Proof.
  unfold otsardb_s3_target_parse, parse_location. intros H. destruct (strip_scheme value) as [cursor|]; [|done].
  destruct (split_at 47 cursor) as [[[|b bucket] rest]|] eqn:Es; [done| |done].
  apply split_at_Some in Es as [_ Hb]. case_if_in H; [done|]. prop_bools.
  cbv zeta in H. set (root := trim_slashes _) in H. case_if_in H; [done|]. prop_bools. simplify_eq.
  assert (root <> []) as Hr by (intros E; rewrite E in *; by vm_compute in *).
  pose proof (zlen_nonneg root). unfold target_ok. cbn [tg_bucket tg_database_root].
  assert (0 < zlen (b :: bucket)) by (rewrite zlen_cons; pose proof (zlen_nonneg bucket); lia).
  split_and!; try done; try lia.
  - apply trim_slashes_head, skip_slashes_head. intros E. apply Hr. unfold root. by rewrite E.
  - by apply trim_slashes_ends.
Qed.

Lemma parse_location_ok t : target_ok t ->
  parse_location (tg_bucket t ++ str "/" ++ tg_database_root t) = Some t.
Proof.
  destruct t as [bucket root]. intros (Hb & Hbl & Hbf & Hs & He & Hrl & Hrf). cbn [tg_bucket tg_database_root] in *.
  unfold parse_location. change (str "/" ++ root) with (47 :: root). rewrite split_at_app by done.
  destruct bucket as [|b bucket]; [by destruct Hbl|]. rewrite Hbf.
  destruct (Z.ltb_spec OTSARDB_S3_BUCKET_MAX (zlen (b :: bucket))); [lia|]. cbn [orb]. cbv zeta.
  rewrite skip_slashes_id, trim_slashes_id, Hrf by done.
  destruct (Z.eqb_spec (zlen root) 0); [lia|]. destruct (Z.ltb_spec OTSARDB_KEY_MAX (zlen root)); [lia|]. done.
Qed.

(** Parsing is a normalization: the parsed targets are exactly the normal ones,
    and a normal target, printed with either scheme, parses to itself. *)
Theorem s3_target_normalizes (t : otsardb_s3_target) :
  ((exists value, otsardb_s3_target_parse value = Some t) <-> target_ok t) /\
  (target_ok t -> otsardb_s3_target_parse (target_identity t) = Some t /\
                  otsardb_s3_target_parse (str "otsardb+" ++ target_identity t) = Some t).
Proof.
  assert (target_ok t -> otsardb_s3_target_parse (target_identity t) = Some t /\
                  otsardb_s3_target_parse (str "otsardb+" ++ target_identity t) = Some t) as Hp.
  { intros H. split; by apply parse_location_ok. }
  split; [|done]. split.
  - intros [value H]. by eapply parsed_target_ok.
  - intros H. exists (target_identity t). by apply Hp.
Qed.

(** The key builders of the modules (a joined suffix, or the root followed by a
    slash and the suffix) agree on every root that was parsed, and the
    identity derived from it fits the identifiers of commits. *)
Theorem s3_target_keys_agree `{Sha256} (value suffix : bytes) (t : otsardb_s3_target) (ttl : Z) :
  otsardb_s3_target_parse value = Some t ->
  zlen (tg_database_root t) + 1 + zlen suffix <= OTSARDB_KEY_MAX ->
  root_join (tg_database_root t) suffix (OTSARDB_KEY_MAX + 1) = Some (tg_database_root t ++ str "/" ++ suffix) /\
  (suffix = str "lease.json" ->
   root_join (tg_database_root t) suffix (OTSARDB_KEY_MAX + 1) = Some (ls_key (new_lease (tg_database_root t) ttl))) /\
  exists id, otsardb_s3_target_database_id t = Some id /\ zlen id = 51.
Proof.
  intros Hp Hl. destruct (parsed_target_ok _ _ Hp) as (Hb & Hbl & Hbf & Hs & He & Hrl & Hrf).
  assert (root_join (tg_database_root t) suffix (OTSARDB_KEY_MAX + 1)
            = Some (tg_database_root t ++ str "/" ++ suffix)) as Hj.
  { unfold root_join. unfold ends_clean in He. destruct (last_byte _) as [c|]; [|done]. rewrite He.
    assert (zlen (tg_database_root t ++ str "/" ++ suffix) = zlen (tg_database_root t) + 1 + zlen suffix) as ->.
    { rewrite !zlen_app. change (zlen (str "/")) with 1. lia. }
    pose proof (zlen_nonneg suffix).
    destruct (Z.ltb_spec 0 (zlen (tg_database_root t) + 1 + zlen suffix)); [|lia].
    destruct (Z.ltb_spec (zlen (tg_database_root t) + 1 + zlen suffix) (OTSARDB_KEY_MAX + 1)); [done|lia]. }
  split_and!; [done| |].
  - intros ->. rewrite Hj. unfold new_lease. cbn [ls_key]. f_equal. unfold snprintf_s.
    change (str "/" ++ str "lease.json") with (str "/lease.json") in *.
    rewrite take_ge; [done|]. unfold OTSARDB_KEY_MAX, OTSARDB_LEASE_KEY_MAX, zlen in *. rewrite length_app.
    change (length (str "/lease.json")) with 11%nat. change (length (str "lease.json")) with 10%nat in Hl. lia.
  - unfold otsardb_s3_target_database_id.
    destruct (Z.eqb_spec (zlen (tg_bucket t)) 0); [lia|].
    destruct (Z.eqb_spec (zlen (tg_database_root t)) 0); [lia|].
    destruct (Z.ltb_spec OTSARDB_S3_BUCKET_MAX (zlen (tg_bucket t))); [lia|].
    destruct (Z.ltb_spec OTSARDB_KEY_MAX (zlen (tg_database_root t))); [lia|].
    eexists. split; [done|]. pose proof (zlen_sha256_hex_data (target_identity t)) as Hz.
    rewrite zlen_app. change (zlen (str "db-")) with 3. unfold zlen in *. rewrite length_take. lia.
Qed.

Definition sample_target : otsardb_s3_target := mkTarget (str "bucket") (str "tenant/db").

Lemma s3_target_keys_agree_witness :
  root_join (tg_database_root sample_target) (str "lease.json") (OTSARDB_KEY_MAX + 1)
    = Some (ls_key (new_lease (tg_database_root sample_target) 30)).
Proof.
  destruct (s3_target_keys_agree (H := pure_sha256) (str "otsardb+s3://bucket//tenant/db/") (str "lease.json")
    sample_target 30) as (_ & H & _).
  - vm_compute. reflexivity.
  - vm_compute. discriminate.
  - apply H. reflexivity.
Defined.
