(* ===== verification/CapabilityProbe.v ===== *)
(** * The capability probe (capability_probe.c)

    Before a destination is used, a scratch object is written, read back, read
    by range, overwritten under conditions that must fail and that must hold,
    and streamed; the capabilities reported are those the store was seen to
    have. *)

From S2P Require Import Prelude CText ObjectStore.

Definition OTSARDB_PROBE_MAX_ATTEMPTS : nat := 3.

Record otsardb_store_probe_report := mkProbeReport {
  pr_capabilities : Z;
  pr_s3_core_ok : bool;
  pr_s3_cas_ok : bool
}.

Definition probe_rc_transient (e : store_error) : bool :=
  match e with
  | OTSARDB_STORE_ERROR | OTSARDB_STORE_TIMEOUT | OTSARDB_STORE_UNSUPPORTED => true
  | _ => false
  end.

(** [store->capabilities = capabilities] *)
Definition set_capabilities {S} (capabilities : Z) (store : otsardb_object_store S) : otsardb_object_store S :=
  mkStore (ops_get store) (ops_get_range store) (ops_put store) (ops_put_stream store)
    (ops_delete_object store) (ops_list store) capabilities.

Definition probe_base : bytes := str "otsardb-s3-probe-0123456789".
Definition probe_next : bytes := str "otsardb-s3-probe-next".
Definition probe_bad : bytes := str "otsardb-s3-probe-bad".
Definition probe_stale_etag : bytes := str "otsardb-stale-etag-that-must-not-match".
Definition probe_parts : list bytes := [str "otsardb-multipart-probe-"; str "0123456789abcdef"].

Definition core_required : Z :=
  Z.lor (Z.lor OTSARDB_STORE_CAP_ETAG OTSARDB_STORE_CAP_RANGE_GET) OTSARDB_STORE_CAP_READ_AFTER_WRITE.
Definition cas_required : Z := Z.lor OTSARDB_STORE_CAP_CONDITIONAL_CREATE OTSARDB_STORE_CAP_CONDITIONAL_UPDATE.

(** A bit when the test holds. *)
Definition bit_if (b : bool) (bit : Z) : Z := if b then bit else 0.

Definition etag_present (etag : option bytes) : bool :=
  match etag with None | Some [] => false | Some _ => true end.

Section Probe.
Context {S : Type} (store : otsardb_object_store S).

(** [PROBE_RETRY] with the attempts that remain after a transient failure. *)
Fixpoint probe_attempts {A} (more : nat) (attempt : M S (store_error + A)) : M S (store_error + A) :=
  let! r := attempt in
  match r, more with
  | inl e, Datatypes.S more' =>
      if probe_rc_transient e then probe_attempts more' attempt else return! inl e
  | _, _ => return! r
  end.

Definition PROBE_RETRY {A} (attempt : M S (store_error + A)) : M S (store_error + A) :=
  probe_attempts (OTSARDB_PROBE_MAX_ATTEMPTS - 1) attempt.

(** The scratch object is written and read back. *)
Definition probe_core (key : bytes) : M S (store_error + Z) :=
  let? _ := PROBE_RETRY (otsardb_store_put store key probe_base plain_put) in
  let? current := PROBE_RETRY (otsardb_store_get store key) in
  if negb (bytes_eqb (so_data current) probe_base) then return! inl OTSARDB_STORE_ERROR
  else
    let! range := PROBE_RETRY (otsardb_store_get_range store key 8 8) in
    let ranged := match range with inr r => bytes_eqb (so_data r) (str "s3-probe") | inl _ => false end in
    return! inr (Z.lor (Z.lor OTSARDB_STORE_CAP_READ_AFTER_WRITE
                          (bit_if (etag_present (so_etag current)) OTSARDB_STORE_CAP_ETAG))
                  (bit_if ranged OTSARDB_STORE_CAP_RANGE_GET)).

(** A creation of the object, which exists, must be refused; when it was not,
    the object is written again. *)
Definition probe_create (key : bytes) : M S (store_error + Z) :=
  let! rc := PROBE_RETRY (otsardb_store_put store key probe_bad (mkPutOptions true None)) in
  match rc with
  | inl OTSARDB_STORE_PRECONDITION_FAILED => return! inr OTSARDB_STORE_CAP_CONDITIONAL_CREATE
  | inl _ => return! inr 0
  | inr _ =>
      let? _ := PROBE_RETRY (otsardb_store_put store key probe_base plain_put) in
      return! inr 0
  end.

(** An update with a wrong etag must be refused, one with the right etag not. *)
Definition probe_update (key : bytes) : M S (store_error + Z) :=
  let? current := PROBE_RETRY (otsardb_store_get store key) in
  if negb (etag_present (so_etag current)) then return! inr 0
  else
    let! rc := PROBE_RETRY (otsardb_store_put store key probe_bad (mkPutOptions false (Some probe_stale_etag))) in
    match rc with
    | inl OTSARDB_STORE_PRECONDITION_FAILED =>
        let! rc := PROBE_RETRY (otsardb_store_put store key probe_next (mkPutOptions false (so_etag current))) in
        return! inr (match rc with inr _ => OTSARDB_STORE_CAP_CONDITIONAL_UPDATE | inl _ => 0 end)
    | _ => return! inr 0
    end.

(** A streamed put of two parts must give the whole object and an etag. *)
Definition probe_multipart (key : bytes) : M S Z :=
  let! rc := PROBE_RETRY (otsardb_store_put_stream store key probe_parts (zlen (concat probe_parts)) plain_put) in
  match rc with
  | inl _ => return! 0
  | inr etag =>
      let! object := PROBE_RETRY (otsardb_store_get store key) in
      return! (match object with
               | inr ob => bit_if (bytes_eqb (so_data ob) (concat probe_parts) && etag_present etag)
                             OTSARDB_STORE_CAP_MULTIPART
               | inl _ => 0
               end)
  end.

(** The report, and the store with the capabilities found. *)
Definition otsardb_store_probe_capabilities (probe_key : bytes)
  : M S (store_error + (otsardb_store_probe_report * otsardb_object_store S)) :=
  if zlen probe_key =? 0 then return! inl OTSARDB_STORE_ERROR
  else
    let? core := probe_core probe_key in
    let? create := probe_create probe_key in
    let? update := probe_update probe_key in
    let! multipart := probe_multipart probe_key in
    let capabilities := Z.lor (Z.lor (Z.lor core create) update) multipart in
    let core_ok := Z.land capabilities core_required =? core_required in
    return! inr (mkProbeReport capabilities core_ok
                   (core_ok && (Z.land capabilities cas_required =? cas_required)),
                 set_capabilities capabilities store).
End Probe.

(** ** The probe of the reference store *)

(** A call whose failures leave the state is the same when it is retried. *)
Lemma retry_settled {S A} (attempt : M S (store_error + A)) s r s' :
  attempt s = (r, s') -> (forall e, r = inl e -> s' = s) -> PROBE_RETRY attempt s = (r, s').
Proof.
  intros H He. unfold PROBE_RETRY. induction (OTSARDB_PROBE_MAX_ATTEMPTS - 1)%nat as [|n IH];
    cbn [probe_attempts]; unfold mbind_, mret_; rewrite H; [by destruct r|].
  destruct r as [e|a]; [|done]. destruct (probe_rc_transient e); [|done]. specialize (He e eq_refl). subst s'. exact IH.
Qed.

Section Reference.
Context (caps : Z) (key : bytes).
Abbreviation store := (mem_store caps).

(** The store supports a conditional write. *)
Definition has (cap : Z) : bool := Z.land caps cap =? cap.

(** The scratch object holds [data]; the other objects are those of [v]. *)
Definition scratch (v : contents) (data : bytes) (s : mem) : Prop :=
  m_faults s = [] /\ exists n, m_objects s = <[key := mkObject data (Some (make_etag n)) (m_now s)]> v.

Lemma probe_writes v data s o : scratch v data s \/ (m_faults s = [] /\ m_objects s = v) ->
  forall data', precondition (m_objects s) key o = true ->
  (if_none_match o = true -> has OTSARDB_STORE_CAP_CONDITIONAL_CREATE = true) ->
  (is_Some (if_match_etag o) -> has OTSARDB_STORE_CAP_CONDITIONAL_UPDATE = true) ->
  exists n s', otsardb_store_put store key data' o s = (inr (Some (make_etag n)), s') /\ scratch v data' s'.
Proof.
  intros Hs data' Hp Hc Hu. assert (m_faults s = []) as Hf by (destruct Hs as [[? _]|[? _]]; done).
  cbn. unfold mem_put, mem_pop. rewrite Hf. unfold mem_perform_put. fold (has OTSARDB_STORE_CAP_CONDITIONAL_CREATE).
  fold (has OTSARDB_STORE_CAP_CONDITIONAL_UPDATE). rewrite Hp. destruct (if_none_match o); [rewrite Hc by done|]; cbn [andb negb];
  (case_bool_decide; [rewrite Hu by done|]; cbn [andb negb]; eexists _, _; (split; [done|]); (split; [done|]);
   exists (m_next_version s + 1); cbn; destruct Hs as [(_ & n & ->)|[_ ->]]; by rewrite ?insert_insert_eq).
Qed.

Lemma probe_reads v data s : scratch v data s ->
  exists n, otsardb_store_get store key s = (inr (mkObject data (Some (make_etag n)) (m_now s)), s) /\
            m_objects s = <[key := mkObject data (Some (make_etag n)) (m_now s)]> v.
Proof.
  intros (Hf & n & Ho). exists n. split; [|done]. cbn. unfold mem_get, mem_pop. by rewrite Hf, Ho, lookup_insert_eq.
Qed.

(** A write the store does not support, or refuses, changes nothing. *)
Lemma probe_refused s data o e : m_faults s = [] ->
  fst (mem_perform_put caps key data o s) = inl e -> otsardb_store_put store key data o s = (inl e, s).
Proof.
  intros Hf H. cbn. unfold mem_put, mem_pop. rewrite Hf. revert H. unfold mem_perform_put.
  repeat case_match; cbn; intros [= <-]; done.
Qed.

(** The conditional write of the probe that must be refused. *)
Lemma probe_guarded v data s o cap : scratch v data s -> precondition (m_objects s) key o = false ->
  (cap = OTSARDB_STORE_CAP_CONDITIONAL_CREATE /\ if_none_match o = true /\ if_match_etag o = None) \/
  (cap = OTSARDB_STORE_CAP_CONDITIONAL_UPDATE /\ if_none_match o = false /\ is_Some (if_match_etag o)) ->
  PROBE_RETRY (otsardb_store_put store key probe_bad o) s =
    (inl (if has cap then OTSARDB_STORE_PRECONDITION_FAILED else OTSARDB_STORE_UNSUPPORTED), s).
Proof.
  intros [Hf _] Hp Ho. apply retry_settled; [|done]. apply probe_refused; [done|]. unfold mem_perform_put.
  fold (has OTSARDB_STORE_CAP_CONDITIONAL_CREATE). fold (has OTSARDB_STORE_CAP_CONDITIONAL_UPDATE). rewrite Hp.
  destruct Ho as [(-> & -> & ->)|(-> & -> & Hi)].
  - rewrite bool_decide_eq_false_2 by (by intros [? ?]). cbn [andb]. by destruct (has _).
  - rewrite bool_decide_eq_true_2 by done. cbn [andb]. by destruct (has _).
Qed.

Lemma retry_writes v data s o data' : scratch v data s \/ (m_faults s = [] /\ m_objects s = v) ->
  precondition (m_objects s) key o = true -> if_none_match o = false ->
  (is_Some (if_match_etag o) -> has OTSARDB_STORE_CAP_CONDITIONAL_UPDATE = true) ->
  exists n s', PROBE_RETRY (otsardb_store_put store key data' o) s = (inr (Some (make_etag n)), s') /\ scratch v data' s'.
Proof.
  intros Hs Hp Hn Hu. destruct (probe_writes v data s o Hs data' Hp) as (n & s' & H & Hs'); [by rewrite Hn|done|].
  exists n, s'. split; [|done]. by apply retry_settled.
Qed.

Lemma retry_reads v data s : scratch v data s ->
  exists n, PROBE_RETRY (otsardb_store_get store key) s = (inr (mkObject data (Some (make_etag n)) (m_now s)), s) /\
            m_objects s = <[key := mkObject data (Some (make_etag n)) (m_now s)]> v.
Proof. intros Hs. destruct (probe_reads v data s Hs) as (n & H & Ho). exists n. split; [|done]. by apply retry_settled. Qed.

Lemma core_probed v s : m_faults s = [] -> m_objects s = v ->
  exists s', probe_core store key s = (inr core_required, s') /\ scratch v probe_base s'.
Proof.
  intros Hf Hv. unfold probe_core, mbind_err.
  destruct (retry_writes v [] s plain_put probe_base) as (n & s1 & H1 & Hs1); [by right|by rewrite Hv|done|by intros [? ?]|].
  unfold mbind_ at 1. rewrite H1. destruct (retry_reads v _ s1 Hs1) as (n' & H2 & Ho). unfold mbind_ at 1. rewrite H2.
  cbn [so_data so_etag]. rewrite (proj2 (bytes_eqb_eq _ _) eq_refl). cbn [negb]. exists s1. split; [|done].
  unfold mbind_. rewrite (retry_settled _ s1 (inr (mkObject (str "s3-probe") (Some (make_etag n')) (m_now s1))) s1); [done| |done].
  cbn. unfold mem_get_range, mem_pop. destruct Hs1 as [-> _]. by rewrite Ho, lookup_insert_eq.
Qed.

Lemma create_probed v s : scratch v probe_base s ->
  probe_create store key s =
    (inr (bit_if (has OTSARDB_STORE_CAP_CONDITIONAL_CREATE) OTSARDB_STORE_CAP_CONDITIONAL_CREATE), s).
Proof.
  intros Hs. unfold probe_create, mbind_. rewrite (probe_guarded v probe_base s _ OTSARDB_STORE_CAP_CONDITIONAL_CREATE Hs).
  - by destruct (has _).
  - destruct Hs as (_ & n & ->). unfold precondition. cbn. rewrite bool_decide_eq_false_2; [done|].
    by rewrite lookup_insert_eq.
  - by left.
Qed.

Lemma update_probed v s : scratch v probe_base s ->
  exists data s', probe_update store key s =
    (inr (bit_if (has OTSARDB_STORE_CAP_CONDITIONAL_UPDATE) OTSARDB_STORE_CAP_CONDITIONAL_UPDATE), s') /\ scratch v data s'.
Proof.
  intros Hs. destruct (retry_reads v _ s Hs) as (n & H & Ho). unfold probe_update, mbind_err. unfold mbind_ at 1. rewrite H.
  cbn [so_etag]. change (etag_present (Some (make_etag n))) with true. cbn [negb]. unfold mbind_ at 1.
  rewrite (probe_guarded v probe_base s _ OTSARDB_STORE_CAP_CONDITIONAL_UPDATE Hs).
  2:{ rewrite Ho. unfold precondition. cbn [if_none_match if_match_etag negb orb andb]. rewrite lookup_insert_eq.
      apply bool_decide_eq_false_2. discriminate. }
  2:{ right. split_and!; [done..|]. by eexists. }
  destruct (has OTSARDB_STORE_CAP_CONDITIONAL_UPDATE) eqn:Eh; [|by exists probe_base, s].
  destruct (retry_writes v probe_base s (mkPutOptions false (Some (make_etag n))) probe_next) as (n' & s1 & H1 & Hs1);
    [by left| |done|by intros _; exact Eh|].
  - rewrite Ho. unfold precondition. cbn [if_none_match if_match_etag negb orb andb]. rewrite lookup_insert_eq.
    by apply bool_decide_eq_true_2.
  - exists probe_next, s1. split; [|done]. unfold mbind_. by rewrite H1.
Qed.

Lemma multipart_probed v data s : scratch v data s ->
  exists s', probe_multipart store key s = (OTSARDB_STORE_CAP_MULTIPART, s') /\ scratch v (concat probe_parts) s'.
Proof.
  intros Hs. unfold probe_multipart.
  assert (otsardb_store_put_stream store key probe_parts (zlen (concat probe_parts)) plain_put s =
          otsardb_store_put store key (concat probe_parts) plain_put s) as Estream by reflexivity.
  destruct (probe_writes v data s plain_put (or_introl Hs) (concat probe_parts)) as (n & s1 & H1 & Hs1);
    [done|done|by intros [? ?]|].
  unfold mbind_ at 1. rewrite (retry_settled _ s (inr (Some (make_etag n))) s1); [|by rewrite Estream|done].
  destruct (retry_reads v _ s1 Hs1) as (n' & H2 & _). unfold mbind_, mret_. rewrite H2. exists s1. by split.
Qed.

(** The probe is exact. Over the reference store, without faults, the report
    has the conditional capabilities the store really has (not the ones it
    declares), and its core capabilities; S3_CAS is granted exactly to a store
    with both conditions; and no object but the scratch one is touched. *)
Theorem probe_exact s : key <> [] -> m_faults s = [] ->
  let cas := Z.lor (bit_if (has OTSARDB_STORE_CAP_CONDITIONAL_CREATE) OTSARDB_STORE_CAP_CONDITIONAL_CREATE)
                   (bit_if (has OTSARDB_STORE_CAP_CONDITIONAL_UPDATE) OTSARDB_STORE_CAP_CONDITIONAL_UPDATE) in
  let found := Z.lor (Z.lor core_required OTSARDB_STORE_CAP_MULTIPART) cas in
  exists s', otsardb_store_probe_capabilities store key s =
      (inr (mkProbeReport found true (has OTSARDB_STORE_CAP_CONDITIONAL_CREATE && has OTSARDB_STORE_CAP_CONDITIONAL_UPDATE),
            set_capabilities found store), s') /\
    forall k, k <> key -> m_objects s' !! k = m_objects s !! k.
Proof.
  intros Hk Hf cas found. destruct (core_probed (m_objects s) s Hf eq_refl) as (s1 & H1 & Hs1).
  pose proof (create_probed _ s1 Hs1) as H2. destruct (update_probed _ s1 Hs1) as (data & s2 & H3 & Hs2).
  destruct (multipart_probed _ _ s2 Hs2) as (s3 & H4 & (_ & n & Ho)). exists s3. split.
  - unfold otsardb_store_probe_capabilities. destruct key as [|c key']; [done|]. rewrite zlen_eqb_0.
    unfold mbind_err, mbind_, mret_. rewrite H1, H2, H3, H4. unfold found, cas. by destruct (has _), (has _).
  - intros k Hne. by rewrite Ho, lookup_insert_ne.
Qed.
End Reference.

(** The reference store with everything, and one without conditions. *)
Lemma probe_exact_witness : exists s,
  otsardb_store_probe_capabilities (mem_store CAPS_CORE) (str "probe") mem_empty =
    (inr (mkProbeReport 39 true false, set_capabilities 39 (mem_store CAPS_CORE)), s) /\
  m_objects s !! str "other" = None.
Proof.
  destruct (probe_exact CAPS_CORE (str "probe") mem_empty) as (s & H & Hk); [done|done|].
  exists s. split; [exact H|]. rewrite (Hk (str "other")) by done. apply lookup_empty.
Defined.
