(* ===== verification/LeaseTheory.v ===== *)
(** * The writer lease: theorems

    Every claim, takeover and renewal that succeeds replaced the lease object
    under its precondition; a takeover waited for the expiry of the object it
    replaces; a holder whose etag is no longer the object's can never renew. *)

From S2P Require Import Prelude CText JsonText ObjectStore Lease.

(** The text of a lease is read back exactly, whatever bytes follow the
    object in memory: the parser runs on memory that is not terminated at the
    end of the object, and still returns the owner, the generation and the
    address (or none) that were written. *)
Theorem lease_json_roundtrip (owner addr junk : bytes) (generation : Z) :
  owner_ok owner = true -> address_ok addr = true -> is_u64 generation ->
  let data := encode_lease_json owner generation (Some addr) in
  parse_lease_json (cstr (data ++ junk)) (zlen data) = Some (owner, generation, addr).
Proof.
  intros Ho Ha Hg. cbv zeta. rewrite encode_lease_toks by done.
  destruct (lease_toks_ok owner generation addr Ho Ha Hg) as [_ Hn].
  rewrite cstr_app by done. rewrite <- text_tail.
  pose proof (parse_lease_text owner generation addr Ho Ha Hg (cstr junk)) as H. cbv zeta in H.
  rewrite zlen_text in H. by replace (zlen (text (lease_toks owner generation addr) []) +
    zlen (cstr junk) - zlen (cstr junk)) with (zlen (text (lease_toks owner generation addr) [])) in H by lia.
Qed.

Lemma lease_json_roundtrip_witness :
  parse_lease_json (cstr (encode_lease_json (str "node-a") 7 (Some []) ++ q "address" ++ str ":" ++ q "x"))
    (zlen (encode_lease_json (str "node-a") 7 (Some []))) = Some (str "node-a", 7, []).
Proof.
  apply (lease_json_roundtrip (str "node-a") [] (q "address" ++ str ":" ++ q "x") 7).
  - reflexivity.
  - reflexivity.
  - vm_compute. split; discriminate.
Defined.

Section Contracts.
Context {S : Type} (store : otsardb_object_store S) (view : S -> contents)
        (env : contents -> contents -> Prop) {Hpre : PreOrder env}
        (Hlaws : StoreLaws store view env).
Context (clock_now : S -> Z) (after_object : bytes -> bytes).

(** Why a claim at [generation] was allowed, the object being replaced at [w]. *)
Inductive claim_reason (key instance_id : bytes) (ttl generation : Z) (w : contents) : Prop :=
  | claim_fresh : generation = 1 -> w !! key = None -> claim_reason key instance_id ttl generation w
  | claim_adopted ob addr :
      parse_lease_json (object_text after_object ob) (zlen (so_data ob))
        = Some (instance_id, generation, addr) ->
      precondition w key (mkPutOptions false (so_etag ob)) = true ->
      claim_reason key instance_id ttl generation w
  | claim_expired ob owner old addr s :
      parse_lease_json (object_text after_object ob) (zlen (so_data ob)) = Some (owner, old, addr) ->
      owner <> instance_id -> generation = u64 (old + 1) ->
      0 < so_last_modified_secs ob ->
      age_is_expired (age_of (clock_now s) (so_last_modified_secs ob)) ttl = true ->
      precondition w key (mkPutOptions false (so_etag ob)) = true ->
      claim_reason key instance_id ttl generation w.

(** What a claim did. *)
Definition claim_spec (key instance_id : bytes) (address : option bytes) (ttl : Z) (v v' : contents)
    (out : claim_outcome) : Prop :=
  match co_lease out with
  | Some lease =>
      co_state out = OTSARDB_LEASE_CLAIMED /\ ls_key lease = key /\ ls_ttl_secs lease = ttl /\
      ls_lost lease = false /\ ls_generation lease = co_epoch out /\
      exists w etag, env v w /\ claim_reason key instance_id ttl (co_epoch out) w /\
        ls_etag lease = snprintf_s 128 (default [] etag) /\
        stored w v' key (encode_lease_json instance_id (co_epoch out) address) etag
  | None =>
      co_state out <> OTSARDB_LEASE_CLAIMED /\ co_epoch out = 0 /\
      (co_state out = OTSARDB_LEASE_HELD -> env v v')
  end.

Lemma claim_spec_env key id address ttl u v v' out :
  env u v -> claim_spec key id address ttl v v' out -> claim_spec key id address ttl u v' out.
Proof.
  intros He. unfold claim_spec. destruct (co_lease out).
  - intros (? & ? & ? & ? & ? & w & etag & Hw & H). split_and!; try done. exists w, etag.
    split; [by etrans|done].
  - intros (? & ? & H). split_and!; try done. intros Hh. etrans; [done|by apply H].
Qed.

Lemma claim_put_spec lease id address generation o holder addr retry s out s' :
  (forall w, precondition w (ls_key lease) o = true ->
     claim_reason (ls_key lease) id (ls_ttl_secs lease) generation w) ->
  (forall t out t', retry t = (out, t') ->
     claim_spec (ls_key lease) id address (ls_ttl_secs lease) (view t) (view t') out) ->
  claim_put store clock_now lease id address generation o holder addr retry s = (out, s') ->
  claim_spec (ls_key lease) id address (ls_ttl_secs lease) (view s) (view s') out.
Proof.
  intros Hreason Hretry. unfold claim_put, not_claimed, read_clock, mbind_, mret_.
  destruct (otsardb_store_put store (ls_key lease) _ o s) as [r s1] eqn:E.
  destruct (put_law _ _ _ _ _ _ E) as (w & Hw & Hr). intros H.
  destruct r as [e|etag].
  - destruct e; try (simplify_eq; done). destruct Hr as [_ Hv].
    eapply claim_spec_env; [|by eapply Hretry]. by rewrite Hv.
  - simplify_eq. unfold claim_spec. cbn. split_and!; try done. exists w, etag.
    destruct Hr as [Hp Hs]. split_and!; try done. by apply Hreason.
Qed.

Lemma claim_loop_spec attempts : forall lease id address hc ac holder addr s out s',
  claim_loop store clock_now after_object attempts lease id address hc ac holder addr s = (out, s') ->
  claim_spec (ls_key lease) id address (ls_ttl_secs lease) (view s) (view s') out.
Proof.
  induction attempts as [|n IH]; intros lease id address hc ac holder addr s out s' H;
    cbn [claim_loop] in H.
  { unfold not_claimed, mret_ in H. simplify_eq. done. }
  unfold mbind_ at 1 in H.
  destruct (otsardb_store_get store (ls_key lease) s) as [r s1] eqn:E.
  destruct (get_law _ _ _ _ E) as [He Hr]. eapply claim_spec_env; [exact He|]. clear E He.
  destruct r as [e|ob].
  - destruct e; try (unfold not_claimed, mret_ in H; simplify_eq; done).
    eapply claim_put_spec; [| |exact H]; [|intros; by eapply IH].
    intros w Hw. apply claim_fresh; [done|]. unfold precondition in Hw. cbn in Hw.
    by rewrite andb_true_r, bool_decide_eq_true in Hw.
  - destruct (parse_lease_json _ _) as [[[owner gen] ad]|] eqn:Ep;
      [|unfold not_claimed, mret_ in H; simplify_eq; done].
    destruct (bytes_eqb owner id) eqn:Eo.
    { apply bytes_eqb_eq in Eo. subst owner.
      eapply claim_put_spec; [| |exact H]; [|intros; by eapply IH].
      intros w Hw. by eapply claim_adopted. }
    apply bytes_eqb_neq in Eo. unfold mbind_, read_clock in H.
    destruct (_ && _) eqn:Ex; [|unfold not_claimed, mret_ in H; simplify_eq; done]. prop_bools.
    eapply claim_put_spec; [| |exact H]; [|intros; by eapply IH].
    intros w Hw. by eapply claim_expired.
Qed.

Lemma claim_run root id address ttl hc ac s out s' :
  otsardb_lease_claim store clock_now after_object root id address ttl hc ac s = (out, s') ->
  claim_spec (ls_key (new_lease root ttl)) id address (ls_ttl_secs (new_lease root ttl))
    (view s) (view s') out.
Proof.
  unfold otsardb_lease_claim, not_claimed, mret_. intros H.
  repeat (case_if_in H; [simplify_eq; done|]). by eapply claim_loop_spec.
Qed.

Lemma renew_run lease s rr lease' s' :
  ls_lost lease = false -> otsardb_lease_renew store clock_now lease s = ((rr, lease'), s') ->
  exists w, env (view s) w /\
    match rr with
    | RENEWED => precondition w (ls_key lease) (mkPutOptions false (Some (ls_etag lease))) = true /\
        exists etag, ls_etag lease' = snprintf_s 128 (default [] etag) /\
        stored w (view s') (ls_key lease)
          (encode_lease_json (ls_owner lease) (ls_generation lease) (Some (ls_address lease))) etag /\
        ls_generation lease' = ls_generation lease /\ ls_lost lease' = false
    | RENEW_LOST =>
        precondition w (ls_key lease) (mkPutOptions false (Some (ls_etag lease))) = false /\
        view s' = w /\ ls_lost lease' = true
    | RENEW_ERROR => lease' = lease /\
        (view s' = w \/
         precondition w (ls_key lease) (mkPutOptions false (Some (ls_etag lease))) = true)
    end.
Proof.
  intros Hl. unfold otsardb_lease_renew, read_clock, mbind_, mret_. rewrite Hl.
  destruct (otsardb_store_put store (ls_key lease) _ _ s) as [r s1] eqn:E.
  destruct (put_law _ _ _ _ _ _ E) as (w & Hw & Hr). intros H. exists w. split; [done|].
  unfold renew_commit in H. destruct r as [e|etag].
  - destruct e; simplify_eq; cbn; naive_solver.
  - rewrite Hl in H. simplify_eq. destruct Hr as [Hp Hs]. split; [done|]. exists etag. by split_and!.
Qed.
End Contracts.

(** A successful claim replaced the lease object at one moment, for one of
    three reasons: there was none and the claim is generation 1; the object was
    the claimant's own and its generation is kept; or it was another owner's,
    whose Last-Modified is known and has expired on the claimant's clock, and
    the generation is one higher. In the last two cases the put was conditional
    on the etag that was read. A claim that fails as HELD changed nothing. *)
Theorem lease_claim_justified {S} (store : otsardb_object_store S) view env
    (Hpre : PreOrder env) (Hlaws : StoreLaws store view env) clock_now after_object
    root id address ttl hc ac s out s' :
  otsardb_lease_claim store clock_now after_object root id address ttl hc ac s = (out, s') ->
  let key := ls_key (new_lease root ttl) in
  let ttl' := ls_ttl_secs (new_lease root ttl) in
  match co_lease out with
  | Some lease =>
      co_state out = OTSARDB_LEASE_CLAIMED /\ ls_generation lease = co_epoch out /\
      ls_lost lease = false /\
      exists w ob, env (view s) w /\
        claim_reason clock_now after_object key id ttl' (co_epoch out) w /\
        view s' = <[key := ob]> w /\
        so_data ob = encode_lease_json id (co_epoch out) address
  | None =>
      co_state out <> OTSARDB_LEASE_CLAIMED /\
      (co_state out = OTSARDB_LEASE_HELD -> env (view s) (view s'))
  end.
Proof.
  intros H. apply (claim_run store view env Hlaws) in H. cbv zeta. unfold claim_spec in H.
  destruct (co_lease out).
  - destruct H as (? & _ & _ & ? & ? & w & etag & Hw & Hr & _ & ob & Hd & _ & Hv).
    split_and!; try done. by exists w, ob.
  - by destruct H as (? & _ & ?).
Qed.

(** C31. The generation fence: once a claim has succeeded with an etag, a lease
    that carries another etag cannot be renewed any more. Its renewal reports
    the loss, which marks it lost for good, or a store error; it is never
    reported renewed and the lease object stays the claimant's. *)
Theorem lease_takeover_fences {S} (store : otsardb_object_store S) view
    (Hlaws : StoreLaws store view quiet) clock clock' after_object
    root id address ttl hc ac s out s' b a rr a' s'' :
  otsardb_lease_claim store clock after_object root id address ttl hc ac s = (out, s') ->
  co_lease out = Some b -> ls_etag b <> [] -> zlen (ls_etag b) < 127 ->
  ls_key a = ls_key b -> ls_etag a <> ls_etag b -> ls_lost a = false ->
  otsardb_lease_renew store clock' a s' = ((rr, a'), s'') ->
  rr <> RENEWED /\ view s'' = view s' /\ (rr = RENEW_LOST -> ls_lost a' = true).
Proof.
  intros Hc Hb Hne Hlen Hk He Hl Hr. apply (claim_run store view quiet Hlaws) in Hc.
  unfold claim_spec in Hc. rewrite Hb in Hc.
  destruct Hc as (_ & Hkb & _ & _ & _ & w & etag & _ & _ & Het & ob & _ & Hoe & Hv).
  assert (so_etag ob = Some (ls_etag b)) as Hob.
  { apply Hoe. destruct etag as [e|]; [|by rewrite Het in Hne; destruct Hne].
    change (default [] (Some e)) with e in Het. f_equal. rewrite Het.
    unfold snprintf_s. symmetry. apply take_ge. rewrite Het in Hlen.
    unfold snprintf_s, zlen in *. rewrite length_take in Hlen. lia. }
  assert (precondition (view s') (ls_key a) (mkPutOptions false (Some (ls_etag a))) = false) as Hp.
  { unfold precondition. cbn. rewrite Hk, Hkb, Hv, lookup_insert_eq, Hob.
    apply bool_decide_eq_false. congruence. }
  apply (renew_run store view quiet Hlaws) in Hr as (w' & <- & Hr); [|done].
  destruct rr.
  - destruct Hr as [Hr _]. congruence.
  - by destruct Hr as (_ & -> & ?).
  - destruct Hr as [_ [->|Hr]]; [done|congruence].
Qed.

Lemma expired_later now now' lm claimed ttl d :
  age_is_expired (age_of now lm) ttl = true -> claimed <= lm + d -> now + d <= now' ->
  age_is_expired (age_of now' claimed) ttl = true.
Proof.
  unfold age_is_expired, age_of. intros H Hc Hn. prop_bools. apply Z.leb_le.
  repeat case_match; prop_bools; lia.
Qed.

(** A takeover waits for the holder: when a claim replaced another owner's
    object, stamped [lm], at time [t] of the claimant's clock, then a holder
    with the same TTL that anchored its lease no later than [lm + d] does not
    believe itself live at any reading from [t + d] on. So with clocks that
    agree, two owners are live together for less than the delay between the
    store's stamp and the holder's anchor. *)
Theorem lease_takeover_waits {S} (store : otsardb_object_store S) view env
    (Hpre : PreOrder env) (Hlaws : StoreLaws store view env) clock_now after_object
    root id address ttl hc ac s out s' :
  otsardb_lease_claim store clock_now after_object root id address ttl hc ac s = (out, s') ->
  is_Some (co_lease out) ->
  (exists w, env (view s) w /\ w !! ls_key (new_lease root ttl) = None) \/
  (exists ob addr, parse_lease_json (object_text after_object ob) (zlen (so_data ob))
                   = Some (id, co_epoch out, addr)) \/
  exists ob owner old addr t,
    parse_lease_json (object_text after_object ob) (zlen (so_data ob)) = Some (owner, old, addr) /\
    owner <> id /\ co_epoch out = u64 (old + 1) /\ 0 < so_last_modified_secs ob /\
    forall clock a d (s2 : S),
      ls_ttl_secs a = ls_ttl_secs (new_lease root ttl) ->
      ls_claimed_at a <= so_last_modified_secs ob + d -> t + d <= clock s2 ->
      fst (otsardb_lease_is_live clock a s2) = false.
Proof.
  intros H [b Hb]. apply (claim_run store view env Hlaws) in H. unfold claim_spec in H.
  rewrite Hb in H. destruct H as (_ & _ & _ & _ & _ & w & etag & Hw & Hreason & _).
  destruct Hreason as [_ Hn|ob addr Hp _|ob owner old addr t Hp Ho Hg Hlm Hx _].
  - left. by exists w.
  - right. left. by exists ob, addr.
  - right. right. exists ob, owner, old, addr, (clock_now t). split_and!; try done.
    intros clock a d s2 Ht Hc Hn. unfold otsardb_lease_is_live, read_clock, mbind_, mret_.
    destruct (ls_lost a); [done|]. cbn. rewrite Ht.
    by rewrite (expired_later _ _ _ _ _ d Hx Hc Hn).
Qed.

(** ** Two nodes *)

Module Nodes.
Definition no_junk (_ : bytes) : bytes := [].
Definition at_time (now : Z) (s : mem) : mem := mkMem (m_objects s) (m_next_version s) now (m_faults s).
Definition claim (clock : mem -> Z) (id : string) (s : mem) : claim_outcome * mem :=
  otsardb_lease_claim (mem_store CAPS_ALL) clock no_junk (str "db") (str id) None 30 64 256 s.

(** Node [a] claims at time 100; node [b] claims at time 140. *)
Definition run_a := claim m_now "a" (at_time 100 mem_empty).
Definition lease_a := default (new_lease [] 0) (co_lease (fst run_a)).
Definition run_b := claim m_now "b" (at_time 140 (snd run_a)).
Definition lease_b := default (new_lease [] 0) (co_lease (fst run_b)).
(** Node [c], whose clock is five seconds ahead, claims at time 120. *)
Definition run_c := claim (fun s => m_now s + 5) "c" (at_time 120 (snd run_a)).
End Nodes.

Lemma lease_claim_justified_witness :
  exists w ob, quiet (m_objects (snd Nodes.run_a)) w /\
    claim_reason m_now Nodes.no_junk (str "db/lease.json") (str "b") 30 2 w /\
    m_objects (snd Nodes.run_b) = <[str "db/lease.json" := ob]> w /\
    so_data ob = encode_lease_json (str "b") 2 None.
Proof.
  pose proof (lease_claim_justified (mem_store CAPS_ALL) m_objects quiet _ (mem_store_laws CAPS_ALL)
    m_now Nodes.no_junk (str "db") (str "b") None 30 64 256 (Nodes.at_time 140 (snd Nodes.run_a))
    (fst Nodes.run_b) (snd Nodes.run_b) (surjective_pairing _)) as H.
  cbv zeta in H.
  assert (co_lease (fst Nodes.run_b) = Some Nodes.lease_b) as E by (vm_compute; reflexivity).
  assert (co_epoch (fst Nodes.run_b) = 2) as E2 by (vm_compute; reflexivity).
  rewrite E, E2 in H. destruct H as (_ & _ & _ & w & ob & Hw & Hr & Hv & Hd).
  exists w, ob. split_and!; [exact Hw|exact Hr|exact Hv|exact Hd].
Defined.

Lemma lease_takeover_fences_witness :
  fst (fst (otsardb_lease_renew (mem_store CAPS_ALL) m_now Nodes.lease_a (snd Nodes.run_b)))
    <> RENEWED.
Proof.
  pose (r := otsardb_lease_renew (mem_store CAPS_ALL) m_now Nodes.lease_a (snd Nodes.run_b)).
  apply (lease_takeover_fences (mem_store CAPS_ALL) m_objects (mem_store_laws CAPS_ALL) m_now m_now
    Nodes.no_junk (str "db") (str "b") None 30 64 256 (Nodes.at_time 140 (snd Nodes.run_a))
    (fst Nodes.run_b) (snd Nodes.run_b) Nodes.lease_b Nodes.lease_a
    (fst (fst r)) (snd (fst r)) (snd r)).
  - exact (surjective_pairing Nodes.run_b).
  - vm_compute. reflexivity.
  - vm_compute. discriminate.
  - vm_compute. reflexivity.
  - vm_compute. reflexivity.
  - vm_compute. discriminate.
  - vm_compute. reflexivity.
  - unfold r. by destruct (otsardb_lease_renew _ _ _ _) as [[]].
Defined.

Lemma lease_takeover_waits_witness :
  is_Some (co_lease (fst Nodes.run_b)) /\
  ((exists w, quiet (m_objects (snd Nodes.run_a)) w /\ w !! str "db/lease.json" = None) \/
   (exists ob addr, parse_lease_json (object_text Nodes.no_junk ob) (zlen (so_data ob))
                    = Some (str "b", 2, addr)) \/
   exists ob owner old addr (t : Z),
     parse_lease_json (object_text Nodes.no_junk ob) (zlen (so_data ob)) = Some (owner, old, addr) /\
     owner <> str "b").
Proof.
  assert (is_Some (co_lease (fst Nodes.run_b))) as Hs by (vm_compute; by eexists).
  split; [exact Hs|].
  assert (co_epoch (fst Nodes.run_b) = 2) as E2 by (vm_compute; reflexivity).
  destruct (lease_takeover_waits (mem_store CAPS_ALL) m_objects quiet _ (mem_store_laws CAPS_ALL)
    m_now Nodes.no_junk (str "db") (str "b") None 30 64 256 (Nodes.at_time 140 (snd Nodes.run_a))
    (fst Nodes.run_b) (snd Nodes.run_b) (surjective_pairing _) Hs)
    as [Hw|[Hw|(ob & owner & old & addr & t & Hp & Hn & _)]].
  - left. exact Hw.
  - right. left. rewrite E2 in Hw. exact Hw.
  - right. right. by exists ob, owner, old, addr, t.
Defined.

(** A release deletes the lease object unconditionally while the releaser
    believes itself live. With a competitor whose clock is five seconds ahead,
    within the skew margin, the competitor takes over first and the release
    destroys its lease: the object is gone although generation 2 is held. *)
Theorem lease_release_destroys_takeover :
  co_state (fst Nodes.run_c) = OTSARDB_LEASE_CLAIMED /\ co_epoch (fst Nodes.run_c) = 2 /\
  is_Some (m_objects (snd Nodes.run_c) !! str "db/lease.json") /\
  m_objects (snd (otsardb_lease_release (mem_store CAPS_ALL) m_now Nodes.lease_a
                    (snd Nodes.run_c))) !! str "db/lease.json" = None.
Proof. split_and!; [..|vm_compute; by eexists|]; vm_compute; reflexivity. Qed.

(** An instance id of 64 characters is accepted by a claim, but the object
    it leaves cannot be parsed: every later claim, its own included, fails. *)
Theorem lease_long_owner_unreadable :
  let id := String.string_of_list_ascii (replicate 64 (Ascii.ascii_of_nat 97)) in
  let '(out, s) := Nodes.claim m_now id (Nodes.at_time 100 mem_empty) in
  co_state out = OTSARDB_LEASE_CLAIMED /\
  co_state (fst (Nodes.claim m_now id s)) = OTSARDB_LEASE_ERROR /\
  co_state (fst (Nodes.claim m_now "b" (Nodes.at_time 1000 s))) = OTSARDB_LEASE_ERROR.
Proof. vm_compute. split_and!; reflexivity. Qed.
