(* ===== verification/CheckpointManifest.v ===== *)
(** * Checkpoint manifests and the checkpoint pointer (checkpoint_manifest.c)

    A checkpoint is a set of page-group objects listed in a manifest; the
    mutable object CHECKPOINT.json points at the current manifest by key and
    digest. *)

From S2P Require Import Prelude CText JsonText ObjectStore Journal Sha256.
From S2P Require Import CommitManifest CommitManifestTheory.

Definition OTSARDB_CHECKPOINT_MANIFEST_FORMAT_VERSION : Z := 1.
Definition OTSARDB_CHECKPOINT_PAGE_GROUP_KEY_MAX : Z := 128.
Definition OTSARDB_CHECKPOINT_MAX_PAGE_GROUPS : Z := 128.
Definition OTSARDB_CHECKPOINT_ID_MAX : Z := 63.
Definition CHECKPOINT_SHA256_HEX_SIZE : Z := 64.
Definition OTSARDB_CHECKPOINT_PAGE_HEADER_SIZE : Z := 32.
Definition OTSARDB_CHECKPOINT_PAGE_RECORD_HEADER_SIZE : Z := 12.

Record otsardb_checkpoint_page_group_ref := mkGroupRef {
  pg_key : bytes;
  pg_sha256 : bytes;
  pg_size : Z
}.

(** [page_group_count] is the length of the list. *)
Record otsardb_checkpoint_manifest := mkCheckpoint {
  ck_format_version : Z;
  ck_covered_generation : Z;
  ck_page_size : Z;
  ck_database_size_pages : Z;
  ck_database_id : bytes;
  ck_base_commit_id : bytes;
  ck_base_manifest_sha256 : bytes;
  ck_page_groups : list otsardb_checkpoint_page_group_ref
}.

Record otsardb_checkpoint_pointer := mkPointer {
  pt_covered_generation : Z;
  pt_checkpoint_sha256 : bytes;
  pt_checkpoint_key : bytes;
  pt_database_id : bytes
}.

Inductive otsardb_checkpoint_ptr_result :=
  | OTSARDB_CHECKPOINT_PTR_OK
  | OTSARDB_CHECKPOINT_PTR_NOT_FOUND
  | OTSARDB_CHECKPOINT_PTR_ERROR.

Definition page_group_size_valid (size page_size : Z) : bool :=
  let record_size := OTSARDB_CHECKPOINT_PAGE_RECORD_HEADER_SIZE + page_size in
  if size <? OTSARDB_CHECKPOINT_PAGE_HEADER_SIZE + record_size then false
  else (size - OTSARDB_CHECKPOINT_PAGE_HEADER_SIZE) mod record_size =? 0.

(** ** Text *)

Definition ck_extract_u64 (json name : bytes) : option Z := extract_u64_raw 80 json name.
Definition ck_extract_string (json name : bytes) (out_size : Z) (allow_empty : bool) : option bytes :=
  match extract_string_raw 80 json name out_size with
  | Some [] => if allow_empty then Some [] else None
  | r => r
  end.

(** One entry, up to and including its closing brace. *)
Definition parse_group_entry (p : bytes) : option (otsardb_checkpoint_page_group_ref * bytes) :=
  match eat 123 (skip_while is_blank p) with
  | None => None
  | Some p =>
      match expect KEY_MARKER p with
      | None => None
      | Some p =>
          match split_at dq p with
          | None => None
          | Some (key, p) =>
              if (zlen key =? 0) || (OTSARDB_CHECKPOINT_PAGE_GROUP_KEY_MAX + 1 <=? zlen key) then None
              else match expect SHA_MARKER p with
              | None => None
              | Some p =>
                  match split_at dq p with
                  | None => None
                  | Some (sha, p) =>
                      if negb (zlen sha =? CHECKPOINT_SHA256_HEX_SIZE) then None
                      else match expect SIZE_MARKER p with
                      | None => None
                      | Some p =>
                          match strtoull (skip_while is_blank p) with
                          | None => None
                          | Some (size, p, _) =>
                              match eat 125 (skip_while is_blank p) with
                              | Some p => Some (mkGroupRef key sha size, p)
                              | None => None
                              end
                          end
                      end
                  end
              end
          end
      end
  end.

(** The loop; [fuel] is the number of entries that still fit the array. *)
Fixpoint parse_groups (fuel : nat) (p : bytes) : option (list otsardb_checkpoint_page_group_ref) :=
  match fuel with
  | O => match eat 93 p with Some _ => Some [] | None => None end
  | S fuel' =>
      match parse_group_entry p with
      | None => None
      | Some (ref, p) =>
          let p := skip_while is_blank p in
          match eat 93 p, eat 44 p with
          | Some _, _ => Some [ref]
          | None, Some p =>
              match parse_groups fuel' p with
              | None => None
              | Some refs => Some (ref :: refs)
              end
          | None, None => None
          end
      end
  end.

Definition extract_page_groups (json : bytes) : option (list otsardb_checkpoint_page_group_ref) :=
  match find_after json (pattern (str "page_groups") (str ":[")) with
  | None => None
  | Some p => parse_groups (Z.to_nat OTSARDB_CHECKPOINT_MAX_PAGE_GROUPS) p
  end.

Definition group_literal (ref : otsardb_checkpoint_page_group_ref) : bytes :=
  str "{" ++ q "key" ++ str ":" ++ quoted (pg_key ref) ++
  str "," ++ q "sha256" ++ str ":" ++ quoted (pg_sha256 ref) ++
  str "," ++ q "size" ++ str ":" ++ dec (pg_size ref) ++ str "}".

Definition checkpoint_json (m : otsardb_checkpoint_manifest) : bytes :=
  str "{" ++ q "otsardb_checkpoint_format" ++ str ":" ++ dec (ck_format_version m) ++
  str "," ++ q "database_id" ++ str ":" ++ quoted (ck_database_id m) ++
  str "," ++ q "covered_generation" ++ str ":" ++ dec (ck_covered_generation m) ++
  str "," ++ q "base_commit_id" ++ str ":" ++ quoted (ck_base_commit_id m) ++
  str "," ++ q "base_manifest_sha256" ++ str ":" ++ quoted (ck_base_manifest_sha256 m) ++
  str "," ++ q "page_size" ++ str ":" ++ dec (ck_page_size m) ++
  str "," ++ q "database_size_pages" ++ str ":" ++ dec (ck_database_size_pages m) ++
  str "," ++ q "page_groups" ++ str ":[" ++
  comma_list (group_literal <$> ck_page_groups m) ++ str "]}" ++ [10].

Definition otsardb_checkpoint_manifest_encode `{Sha256} (m : otsardb_checkpoint_manifest)
  : option (bytes * bytes) :=
  if negb (ck_format_version m =? OTSARDB_CHECKPOINT_MANIFEST_FORMAT_VERSION) ||
     (zlen (ck_database_id m) =? 0) || (zlen (ck_base_commit_id m) =? 0) ||
     (ck_page_size m =? 0) || (zlen (ck_page_groups m) =? 0) ||
     (OTSARDB_CHECKPOINT_MAX_PAGE_GROUPS <? zlen (ck_page_groups m))
  then None
  else if negb (forallb (fun ref => negb (zlen (pg_key ref) =? 0) &&
                   (zlen (pg_sha256 ref) =? CHECKPOINT_SHA256_HEX_SIZE) &&
                   page_group_size_valid (pg_size ref) (ck_page_size m)) (ck_page_groups m))
  then None
  else let json := checkpoint_json m in
       if INT_MAX <? zlen json then None else Some (json, otsardb_sha256_hex_data json).

Definition otsardb_checkpoint_manifest_decode (json : bytes) : option otsardb_checkpoint_manifest :=
  if zlen json =? 0 then None else
  let copy := cstr json in
  match ck_extract_u64 copy (str "otsardb_checkpoint_format"),
        ck_extract_u64 copy (str "covered_generation"),
        ck_extract_u64 copy (str "page_size"), ck_extract_u64 copy (str "database_size_pages"),
        ck_extract_string copy (str "database_id") (OTSARDB_CHECKPOINT_ID_MAX + 1) false,
        ck_extract_string copy (str "base_commit_id") (OTSARDB_CHECKPOINT_ID_MAX + 1) false,
        ck_extract_string copy (str "base_manifest_sha256") (CHECKPOINT_SHA256_HEX_SIZE + 1) true,
        extract_page_groups copy with
  | Some format, Some covered, Some page_size, Some pages, Some db, Some base, Some sha, Some groups =>
      if negb (format =? OTSARDB_CHECKPOINT_MANIFEST_FORMAT_VERSION) ||
         (page_size =? 0) || (UINT32_MAX <? page_size) || (covered =? 0)
      then None
      else if forallb (fun ref => page_group_size_valid (pg_size ref) page_size) groups
      then Some (mkCheckpoint format covered page_size pages db base sha groups)
      else None
  | _, _, _, _, _, _, _, _ => None
  end.

(** ** The pointer *)

Definition build_checkpoint_key (root : bytes) (out_size : Z) : option bytes :=
  root_join root (str "CHECKPOINT.json") out_size.

Definition otsardb_checkpoint_ptr_encode (ptr : otsardb_checkpoint_pointer) : bytes :=
  str "{" ++ q "otsardb_checkpoint_format" ++ str ":1," ++
  q "database_id" ++ str ":" ++ quoted (pt_database_id ptr) ++
  str "," ++ q "covered_generation" ++ str ":" ++ dec (pt_covered_generation ptr) ++
  str "," ++ q "checkpoint_sha256" ++ str ":" ++ quoted (pt_checkpoint_sha256 ptr) ++
  str "," ++ q "checkpoint_key" ++ str ":" ++ quoted (pt_checkpoint_key ptr) ++ str "}" ++ [10].

Definition otsardb_checkpoint_ptr_decode (json : bytes) : option otsardb_checkpoint_pointer :=
  if zlen json =? 0 then None else
  let copy := cstr json in
  match ck_extract_u64 copy (str "otsardb_checkpoint_format"),
        ck_extract_u64 copy (str "covered_generation"),
        ck_extract_string copy (str "database_id") (OTSARDB_CHECKPOINT_ID_MAX + 1) false,
        ck_extract_string copy (str "checkpoint_sha256") (CHECKPOINT_SHA256_HEX_SIZE + 1) false,
        ck_extract_string copy (str "checkpoint_key") 1024 false with
  | Some format, Some covered, Some db, Some sha, Some key =>
      if (format =? 0) || (UINT32_MAX <? format) then None
      else Some (mkPointer covered sha key db)
  | _, _, _, _, _ => None
  end.

Section Pointer.
Context {S : Type} (store : otsardb_object_store S).

Definition otsardb_checkpoint_ptr_read (database_root : bytes)
  : M S (otsardb_checkpoint_ptr_result * option (otsardb_checkpoint_pointer * bytes)) :=
  match build_checkpoint_key database_root (OTSARDB_KEY_MAX + 1) with
  | None => return! (OTSARDB_CHECKPOINT_PTR_ERROR, None)
  | Some key =>
      let! rc := otsardb_store_get store key in
      match rc with
      | inl OTSARDB_STORE_NOT_FOUND => return! (OTSARDB_CHECKPOINT_PTR_NOT_FOUND, None)
      | inl _ => return! (OTSARDB_CHECKPOINT_PTR_ERROR, None)
      | inr object =>
          match otsardb_checkpoint_ptr_decode (so_data object), so_etag object with
          | Some ptr, Some (c :: e) => return! (OTSARDB_CHECKPOINT_PTR_OK, Some (ptr, c :: e))
          | _, _ => return! (OTSARDB_CHECKPOINT_PTR_ERROR, None)
          end
      end
  end.

(** A put that fails with any other code than these four counts as done. *)
Definition otsardb_checkpoint_ptr_publish (database_root : bytes) (ptr : otsardb_checkpoint_pointer)
    (expected_etag : option bytes) (create_if_missing : bool)
  : M S (otsardb_journal_result * option bytes) :=
  if negb create_if_missing && bool_decide (expected_etag = None)
  then return! (OTSARDB_JOURNAL_INVALID, None)
  else match build_checkpoint_key database_root (OTSARDB_KEY_MAX + 1) with
  | None => return! (OTSARDB_JOURNAL_INVALID, None)
  | Some key =>
      let! rc := otsardb_store_put store key (otsardb_checkpoint_ptr_encode ptr)
                   (mkPutOptions create_if_missing
                      (if create_if_missing then None else expected_etag)) in
      match rc with
      | inl OTSARDB_STORE_PRECONDITION_FAILED => return! (OTSARDB_JOURNAL_CONFLICT, None)
      | inl OTSARDB_STORE_TIMEOUT => return! (OTSARDB_JOURNAL_AMBIGUOUS, None)
      | inl OTSARDB_STORE_UNSUPPORTED => return! (OTSARDB_JOURNAL_UNSUPPORTED, None)
      | inl OTSARDB_STORE_ERROR => return! (OTSARDB_JOURNAL_ERROR, None)
      | inl _ => return! (OTSARDB_JOURNAL_OK, None)
      | inr etag => return! (OTSARDB_JOURNAL_OK, etag)
      end
  end.
End Pointer.
