(* ===== verification/CheckpointManifestTheory.v ===== *)
(** * Checkpoint manifests and pointer: theorems *)

From S2P Require Import Prelude CText JsonText ObjectStore Journal Sha256.
From S2P Require Import CommitManifest CommitManifestTheory CheckpointManifest.

(** ** Token streams *)

(** A page group prints like a version 3 segment reference. *)
Definition group_ref (g : otsardb_checkpoint_page_group_ref) : otsardb_manifest_segment_ref :=
  mkSegmentRef (pg_key g) (pg_sha256 g) (pg_size g) [] None.

Lemma group_literal_segment g : group_literal g = segment_literal_write (group_ref g) false.
Proof. reflexivity. Qed.

Definition group_ok (page_size : Z) (g : otsardb_checkpoint_page_group_ref) : Prop :=
  field_ok 129 (pg_key g) = true /\ pg_key g <> [] /\
  field_ok 65 (pg_sha256 g) = true /\ zlen (pg_sha256 g) = 64 /\ is_u64 (pg_size g) /\
  page_group_size_valid (pg_size g) page_size = true.

Definition checkpoint_ok (m : otsardb_checkpoint_manifest) : Prop :=
  ck_format_version m = 1 /\ 0 < ck_covered_generation m <= UINT64_MAX /\
  0 < ck_page_size m <= UINT32_MAX /\ is_u64 (ck_database_size_pages m) /\
  field_ok 64 (ck_database_id m) = true /\ ck_database_id m <> [] /\
  field_ok 64 (ck_base_commit_id m) = true /\ ck_base_commit_id m <> [] /\
  field_ok 65 (ck_base_manifest_sha256 m) = true /\
  0 < zlen (ck_page_groups m) <= 128 /\ Forall (group_ok (ck_page_size m)) (ck_page_groups m).

Definition checkpoint_head_toks (m : otsardb_checkpoint_manifest) : list tok :=
  [TR (str "{"); TQ (str "otsardb_checkpoint_format"); TR (str ":"); TR (dec (ck_format_version m));
   TR (str ","); TQ (str "database_id"); TR (str ":"); TQ (ck_database_id m);
   TR (str ","); TQ (str "covered_generation"); TR (str ":"); TR (dec (ck_covered_generation m));
   TR (str ","); TQ (str "base_commit_id"); TR (str ":"); TQ (ck_base_commit_id m);
   TR (str ","); TQ (str "base_manifest_sha256"); TR (str ":"); TQ (ck_base_manifest_sha256 m);
   TR (str ","); TQ (str "page_size"); TR (str ":"); TR (dec (ck_page_size m));
   TR (str ","); TQ (str "database_size_pages"); TR (str ":"); TR (dec (ck_database_size_pages m));
   TR (str ","); TQ (str "page_groups"); TR (str ":[")].

Definition checkpoint_toks (m : otsardb_checkpoint_manifest) : list tok :=
  checkpoint_head_toks m ++ segs_toks false (group_ref <$> ck_page_groups m) ++
  [TR (str "]}"); TR [10]].
#[export] Hint Unfold checkpoint_toks checkpoint_head_toks : toks.

Lemma checkpoint_json_toks m : checkpoint_json m = text (checkpoint_toks m) [].
Proof.
  unfold checkpoint_toks. rewrite !text_app, segs_toks_text.
  unfold checkpoint_json, checkpoint_head_toks, q, quoted. cbn [text].
  rewrite <- list_fmap_compose. app_norm. by rewrite ?app_nil_r.
Qed.

Lemma group_ref_ok ps g : group_ok ps g -> ref_ok false 0 (group_ref g).
Proof. intros (? & ? & ? & ? & ? & _). unfold ref_ok. cbn. by split_and!. Qed.

Lemma checkpoint_toks_ok m : checkpoint_ok m -> toks_text_ok (checkpoint_toks m) = true.
Proof.
  intros (Hf & Hg & Hp & ? & ? & _ & ? & _ & ? & _ & Hall). split_fields.
  assert (is_u64 (ck_format_version m)) by (rewrite Hf; done).
  assert (is_u64 (ck_covered_generation m)) by (unfold is_u64; lia).
  assert (is_u64 (ck_page_size m)) by (apply u32_is_u64; unfold is_u32; lia).
  unfold checkpoint_toks. apply toks_text_ok_app; [|apply toks_text_ok_app].
  - apply andb_true_intro. split; json_wf.
  - apply segs_toks_ok with 0. apply Forall_fmap. eapply list.Forall_impl; [exact Hall|].
    intros g. apply group_ref_ok.
  - done.
Qed.

(** ** Reading the fields *)

Lemma ck_extract_string_text ts tail name n s r allow_empty :
  name_ok name = true -> toks_wf ts = true -> zlen (pattern name str_colon_quote) < 80 ->
  tok_find name str_colon_quote ts tail = Some (s ++ dq :: r) ->
  noq s = true -> allow_empty = true \/ s <> [] -> zlen s < n ->
  ck_extract_string (text ts tail) name n allow_empty = Some s.
Proof.
  intros Hn Hwf Hp Hf Hs Hae Hl. unfold ck_extract_string.
  rewrite (extract_string_raw_text 80 ts tail name n s r) by done.
  destruct s; [|done]. by destruct Hae as [->|].
Qed.

Ltac ck_num Hwf := eapply extract_u64_raw_text;
  [reflexivity|exact Hwf|reflexivity|json_find; reflexivity|assumption|reflexivity].
Ltac ck_str Hwf := eapply ck_extract_string_text;
  [reflexivity|exact Hwf|reflexivity|json_find; reflexivity|assumption|by auto|assumption].

Lemma parse_group_entry_ok ps g rest :
  group_ok ps g -> parse_group_entry (group_literal g ++ rest) = Some (g, rest).
Proof.
  intros (Hk & Hkne & Hs & Hsl & Hsz & _).
  apply field_ok_split in Hk as (_ & Hkq & Hkl). apply field_ok_split in Hs as (_ & Hsq & _).
  rewrite group_literal_segment, segment_literal_split. unfold parse_group_entry.
  cbn [group_ref sg_key sg_sha256 sg_size app].
  change (skip_while is_blank (123 :: ?x)) with (123 :: x). rewrite eat_cons, expect_app.
  rewrite split_at_app by done.
  destruct (Z.eqb_spec (zlen (pg_key g)) 0) as [E|_]; [by apply zlen_0 in E|].
  destruct (Z.leb_spec (OTSARDB_CHECKPOINT_PAGE_GROUP_KEY_MAX + 1) (zlen (pg_key g))) as [Hc|_];
    [unfold OTSARDB_CHECKPOINT_PAGE_GROUP_KEY_MAX in Hc; lia|]. cbn [orb].
  rewrite expect_app, split_at_app, Hsl by done.
  change (negb (64 =? CHECKPOINT_SHA256_HEX_SIZE)) with false. cbv iota.
  rewrite expect_app, blank_dec, strtoull_dec by done. cbn. by destruct g.
Qed.

Lemma parse_groups_ok ps gs rest : forall fuel,
  Forall (group_ok ps) gs -> gs <> [] -> (length gs <= fuel)%nat ->
  parse_groups fuel (comma_list (group_literal <$> gs) ++ 93 :: rest) = Some gs.
Proof.
  induction gs as [|g gs IH]; intros fuel Hall Hne Hf; [done|].
  apply list.Forall_cons in Hall as [Hg Hall]. cbn [length] in Hf.
  destruct fuel as [|fuel]; [lia|]. destruct gs as [|g2 gs].
  - cbn [fmap list_fmap comma_list parse_groups]. by rewrite (parse_group_entry_ok ps).
  - cbn [fmap list_fmap]. rewrite comma_list_cons, <- !app_assoc. cbn [parse_groups].
    rewrite (parse_group_entry_ok ps) by done.
    change (skip_while is_blank (str "," ++ ?x)) with (44 :: x).
    cbv zeta. rewrite eat_cons, eat_ne by done.
    specialize (IH fuel Hall ltac:(done) ltac:(lia)). cbn [fmap list_fmap] in IH. by rewrite IH.
Qed.

Lemma checkpoint_groups m : checkpoint_ok m ->
  extract_page_groups (text (checkpoint_toks m) []) = Some (ck_page_groups m).
Proof.
  intros Hok. pose proof (checkpoint_toks_ok m Hok) as Hwf. apply andb_prop in Hwf as [Hwf _].
  destruct Hok as (_ & _ & _ & _ & _ & _ & _ & _ & _ & Hn & Hall).
  unfold extract_page_groups. rewrite find_after_text by done.
  assert (tok_find (str "page_groups") (str ":[") (checkpoint_toks m) []
    = Some (comma_list (group_literal <$> ck_page_groups m) ++ 93 :: str "}" ++ [10])) as ->.
  { unfold checkpoint_toks, checkpoint_head_toks. json_find. cbn [text].
    rewrite text_app, segs_toks_text, <- list_fmap_compose. done. }
  apply parse_groups_ok with (ck_page_size m); [done| |].
  - intros E. rewrite E in Hn. change (0 < 0 <= 128) in Hn. lia.
  - unfold zlen, OTSARDB_CHECKPOINT_MAX_PAGE_GROUPS in *. lia.
Qed.

Lemma checkpoint_decodes m : checkpoint_ok m ->
  otsardb_checkpoint_manifest_decode (checkpoint_json m) = Some m.
Proof.
  intros Hok. rewrite checkpoint_json_toks. pose proof (checkpoint_groups m Hok) as Hgr.
  pose proof (checkpoint_toks_ok m Hok) as Hwf. apply andb_prop in Hwf as [Hwf Hnn].
  apply text_no_nul in Hnn. destruct Hok as (Hf & Hg & Hp & ? & ? & ? & ? & ? & ? & Hn & Hall).
  split_fields. assert (is_u64 (ck_format_version m)) by (rewrite Hf; done).
  assert (is_u64 (ck_covered_generation m)) by (unfold is_u64; lia).
  assert (is_u64 (ck_page_size m)) by (apply u32_is_u64; unfold is_u32; lia).
  unfold otsardb_checkpoint_manifest_decode.
  assert ((zlen (text (checkpoint_toks m) []) =? 0) = false) as -> by apply zlen_eqb_0.
  rewrite cstr_no_nul by done. rewrite Hgr. unfold checkpoint_toks, checkpoint_head_toks in *.
  set (T := text _ []) in *.
  assert (ck_extract_u64 T (str "otsardb_checkpoint_format") = Some (ck_format_version m)) as -> by ck_num Hwf.
  assert (ck_extract_u64 T (str "covered_generation") = Some (ck_covered_generation m)) as -> by ck_num Hwf.
  assert (ck_extract_u64 T (str "page_size") = Some (ck_page_size m)) as -> by ck_num Hwf.
  assert (ck_extract_u64 T (str "database_size_pages") = Some (ck_database_size_pages m)) as -> by ck_num Hwf.
  assert (ck_extract_string T (str "database_id") (OTSARDB_CHECKPOINT_ID_MAX + 1) false = Some (ck_database_id m)) as -> by ck_str Hwf.
  assert (ck_extract_string T (str "base_commit_id") (OTSARDB_CHECKPOINT_ID_MAX + 1) false = Some (ck_base_commit_id m)) as -> by ck_str Hwf.
  assert (ck_extract_string T (str "base_manifest_sha256") (CHECKPOINT_SHA256_HEX_SIZE + 1) true = Some (ck_base_manifest_sha256 m)) as -> by ck_str Hwf.
  rewrite Hf. destruct (Z.eqb_spec (ck_page_size m) 0); [lia|].
  destruct (Z.ltb_spec UINT32_MAX (ck_page_size m)); [lia|].
  destruct (Z.eqb_spec (ck_covered_generation m) 0); [lia|]. cbn [orb negb Z.eqb].
  assert (forallb (fun ref => page_group_size_valid (pg_size ref) (ck_page_size m)) (ck_page_groups m)
    = true) as ->.
  { apply forallb_forall. intros g Hin%list_elem_of_In. rewrite list.Forall_forall in Hall.
    by destruct (Hall g Hin) as (_ & _ & _ & _ & _ & ?). }
  destruct m. cbn in *. by subst.
Qed.

Lemma checkpoint_encodes `{Sha256} m : checkpoint_ok m -> zlen (checkpoint_json m) <= INT_MAX ->
  otsardb_checkpoint_manifest_encode m
  = Some (checkpoint_json m, otsardb_sha256_hex_data (checkpoint_json m)).
Proof.
  intros (Hf & Hg & Hp & ? & ? & Hd & ? & Hb & ? & Hn & Hall) Hsz.
  unfold otsardb_checkpoint_manifest_encode. rewrite Hf. cbn [Z.eqb negb orb].
  destruct (Z.eqb_spec (zlen (ck_database_id m)) 0) as [E|]; [by apply zlen_0 in E|].
  destruct (Z.eqb_spec (zlen (ck_base_commit_id m)) 0) as [E|]; [by apply zlen_0 in E|].
  destruct (Z.eqb_spec (ck_page_size m) 0); [lia|].
  destruct (Z.eqb_spec (zlen (ck_page_groups m)) 0); [lia|].
  destruct (Z.ltb_spec OTSARDB_CHECKPOINT_MAX_PAGE_GROUPS (zlen (ck_page_groups m)));
    [unfold OTSARDB_CHECKPOINT_MAX_PAGE_GROUPS in *; lia|]. cbn.
  assert (forallb (fun ref => negb (zlen (pg_key ref) =? 0) &&
    (zlen (pg_sha256 ref) =? CHECKPOINT_SHA256_HEX_SIZE) &&
    page_group_size_valid (pg_size ref) (ck_page_size m)) (ck_page_groups m) = true) as ->.
  { apply forallb_forall. intros g Hin%list_elem_of_In. rewrite list.Forall_forall in Hall.
    destruct (Hall g Hin) as (_ & Hne & _ & -> & _ & ->).
    destruct (Z.eqb_spec (zlen (pg_key g)) 0) as [E|]; [by apply zlen_0 in E|done]. }
  cbn. by destruct (Z.ltb_spec INT_MAX (zlen (checkpoint_json m))); [lia|].
Qed.

(** A checkpoint manifest that fits its struct is accepted by the encoder
    and read back exactly from the text it prints. *)
Theorem checkpoint_manifest_roundtrip `{Sha256} (m : otsardb_checkpoint_manifest) :
  checkpoint_ok m -> zlen (checkpoint_json m) <= INT_MAX ->
  exists json sha, otsardb_checkpoint_manifest_encode m = Some (json, sha) /\
    sha = otsardb_sha256_hex_data json /\ otsardb_checkpoint_manifest_decode json = Some m.
Proof.
  intros Hok Hsz. exists (checkpoint_json m), (otsardb_sha256_hex_data (checkpoint_json m)).
  split_and!; [by apply checkpoint_encodes|done|by apply checkpoint_decodes].
Qed.

Definition sample_checkpoint : otsardb_checkpoint_manifest :=
  mkCheckpoint 1 3 512 9 (str "db-1") (str "c-3") (replicate 64 98)
    [mkGroupRef (str "checkpoints/g0") (replicate 64 97) 556;
     mkGroupRef (str "checkpoints/g1") (replicate 64 99) 1080].

Lemma sample_checkpoint_ok : checkpoint_ok sample_checkpoint.
Proof.
  unfold checkpoint_ok, is_u64. split_and!; try done.
  repeat constructor; try done; vm_compute; discriminate.
Qed.

Lemma checkpoint_manifest_roundtrip_witness :
  exists json sha, otsardb_checkpoint_manifest_encode sample_checkpoint = Some (json, sha) /\
    sha = otsardb_sha256_hex_data json /\
    otsardb_checkpoint_manifest_decode json = Some sample_checkpoint.
Proof.
  apply (checkpoint_manifest_roundtrip sample_checkpoint).
  - apply sample_checkpoint_ok.
  - vm_compute. discriminate.
Defined.

(** ** The pointer *)

Definition pointer_ok (p : otsardb_checkpoint_pointer) : Prop :=
  is_u64 (pt_covered_generation p) /\
  field_ok 64 (pt_database_id p) = true /\ pt_database_id p <> [] /\
  field_ok 65 (pt_checkpoint_sha256 p) = true /\ pt_checkpoint_sha256 p <> [] /\
  field_ok 1024 (pt_checkpoint_key p) = true /\ pt_checkpoint_key p <> [].

Definition pointer_toks (p : otsardb_checkpoint_pointer) : list tok :=
  [TR (str "{"); TQ (str "otsardb_checkpoint_format"); TR (str ":"); TR (dec 1);
   TR (str ","); TQ (str "database_id"); TR (str ":"); TQ (pt_database_id p);
   TR (str ","); TQ (str "covered_generation"); TR (str ":"); TR (dec (pt_covered_generation p));
   TR (str ","); TQ (str "checkpoint_sha256"); TR (str ":"); TQ (pt_checkpoint_sha256 p);
   TR (str ","); TQ (str "checkpoint_key"); TR (str ":"); TQ (pt_checkpoint_key p);
   TR (str "}"); TR [10]].
#[export] Hint Unfold pointer_toks : toks.

Lemma pointer_decodes p : pointer_ok p ->
  otsardb_checkpoint_ptr_decode (otsardb_checkpoint_ptr_encode p) = Some p.
Proof.
  intros (? & ? & ? & ? & ? & ? & ?). split_fields.
  assert (otsardb_checkpoint_ptr_encode p = text (pointer_toks p) []) as ->.
  { unfold otsardb_checkpoint_ptr_encode, pointer_toks, q, quoted. cbn [text]. app_norm. done. }
  assert (is_u64 1) by done. assert (toks_wf (pointer_toks p) = true) as Hwf by json_wf.
  unfold otsardb_checkpoint_ptr_decode.
  assert ((zlen (text (pointer_toks p) []) =? 0) = false) as -> by apply zlen_eqb_0.
  rewrite cstr_no_nul by (apply text_no_nul; json_wf). set (T := text _ []).
  assert (ck_extract_u64 T (str "otsardb_checkpoint_format") = Some 1) as -> by ck_num Hwf.
  assert (ck_extract_u64 T (str "covered_generation") = Some (pt_covered_generation p)) as -> by ck_num Hwf.
  assert (ck_extract_string T (str "database_id") (OTSARDB_CHECKPOINT_ID_MAX + 1) false
    = Some (pt_database_id p)) as -> by ck_str Hwf.
  assert (ck_extract_string T (str "checkpoint_sha256") (CHECKPOINT_SHA256_HEX_SIZE + 1) false
    = Some (pt_checkpoint_sha256 p)) as -> by ck_str Hwf.
  assert (ck_extract_string T (str "checkpoint_key") 1024 false = Some (pt_checkpoint_key p)) as -> by ck_str Hwf.
  by destruct p.
Qed.

(** Publishing the checkpoint pointer and reading it back when nobody else
    writes: after a publication that returned an etag, a read returns exactly
    that pointer and etag, or fails; it never reports the pointer missing. *)
Theorem checkpoint_pointer_publish_read {S} (store : otsardb_object_store S) view
    (Hlaws : StoreLaws store view quiet) root p expected create c e s s' rc res s'' :
  pointer_ok p ->
  otsardb_checkpoint_ptr_publish store root p expected create s
    = ((OTSARDB_JOURNAL_OK, Some (c :: e)), s') ->
  otsardb_checkpoint_ptr_read store root s' = ((rc, res), s'') ->
  (rc = OTSARDB_CHECKPOINT_PTR_OK /\ res = Some (p, c :: e)) \/
  (rc = OTSARDB_CHECKPOINT_PTR_ERROR /\ res = None).
Proof.
  intros Hp Hw Hr. unfold otsardb_checkpoint_ptr_publish, otsardb_checkpoint_ptr_read, mbind_, mret_ in *.
  destruct (_ && _); [done|]. destruct (build_checkpoint_key root _) as [key|]; [|done].
  destruct (otsardb_store_put store key _ _ s) as [r s1] eqn:E1.
  destruct (put_law _ _ _ _ _ _ E1) as (w & _ & Hput). destruct r as [[]|et]; simplify_eq.
  destruct Hput as (_ & ob & Hd & He & Hv).
  destruct (otsardb_store_get store key s') as [r s2] eqn:E2.
  destruct (get_law _ _ _ _ E2) as (Hq & Hget). rewrite <- Hq, Hv in Hget.
  destruct r as [[]|ob2]; simplify_eq; auto; rewrite lookup_insert_eq in Hget; simplify_eq.
  rewrite Hd, pointer_decodes, (He _ eq_refl) in Hr by done. simplify_eq. auto.
Qed.

Definition sample_pointer : otsardb_checkpoint_pointer :=
  mkPointer 3 (replicate 64 97) (str "db/checkpoints/cp.json") (str "db-1").

Lemma checkpoint_pointer_publish_read_witness :
  let s' := snd (otsardb_checkpoint_ptr_publish (mem_store CAPS_ALL) demo_root sample_pointer None
                   true mem_empty) in
  fst (otsardb_checkpoint_ptr_read (mem_store CAPS_ALL) demo_root s')
    = (OTSARDB_CHECKPOINT_PTR_OK, Some (sample_pointer, str "v1")).
Proof.
  pose (w := otsardb_checkpoint_ptr_publish (mem_store CAPS_ALL) demo_root sample_pointer None true
               mem_empty).
  pose (r := otsardb_checkpoint_ptr_read (mem_store CAPS_ALL) demo_root (snd w)).
  destruct (checkpoint_pointer_publish_read (mem_store CAPS_ALL) m_objects (mem_store_laws CAPS_ALL)
    demo_root sample_pointer None true 118 [49] mem_empty (snd w) (fst (fst r)) (snd (fst r)) (snd r))
    as [[H1 H2]|[H1 H2]].
  - unfold pointer_ok, is_u64. by split_and!.
  - vm_compute. reflexivity.
  - vm_compute. reflexivity.
  - change (fst r = (OTSARDB_CHECKPOINT_PTR_OK, Some (sample_pointer, str "v1"))).
    rewrite (surjective_pairing (fst r)), H1, H2. reflexivity.
  - exfalso. vm_compute in H1. discriminate.
Defined.

(** A store whose every put is answered 404. *)
Definition missing_bucket : otsardb_object_store unit :=
  mkStore None None (Some (fun _ _ _ => mret_ (inl OTSARDB_STORE_NOT_FOUND))) None None None CAPS_ALL.

(** The publication of the checkpoint pointer reports success when the put
    was answered NOT_FOUND and nothing was written; the publication of HEAD,
    on the same store, reports an error. *)
Theorem checkpoint_pointer_false_success :
  fst (otsardb_checkpoint_ptr_publish missing_bucket demo_root sample_pointer None true tt)
    = (OTSARDB_JOURNAL_OK, None) /\
  fst (otsardb_journal_publish_head missing_bucket demo_root sample_head None true tt)
    = (OTSARDB_JOURNAL_ERROR, None).
Proof. split; vm_compute; reflexivity. Qed.
