(* ===== verification/Gc.v ===== *)
(** * Garbage collection of superseded history (gc.c)

    After a checkpoint is published, the commit manifests strictly below its
    covered generation and their segments are unreachable: the sweep verifies
    the checkpoint, then walks the parent chain below the checkpoint's base
    manifest and deletes what it finds. *)

From S2P Require Import Prelude CText JsonText ObjectStore Journal Sha256.
From S2P Require Import CommitManifest CommitManifestTheory CheckpointManifest.

(** A NULL [options] is the record of zeros; a NULL owner is [None]. *)
Record otsardb_gc_options := mkGcOptions {
  gc_keep_secs : Z;
  gc_owner_expected : option bytes
}.
Definition gc_defaults : otsardb_gc_options := mkGcOptions 0 None.

(** [memmem]: [needle] (not empty) occurs in [haystack]. *)
Definition mem_contains (haystack needle : bytes) : bool :=
  if (zlen needle =? 0) || (zlen haystack <? zlen needle) then false
  else match strstr haystack needle with Some _ => true | None => false end.

(** [<root>/commits/<id>.json], the id being cut to the key buffer. *)
Definition gc_commit_key (root id : bytes) : option bytes :=
  match root_join root (str "commits/") (OTSARDB_KEY_MAX + 1) with
  | None => None
  | Some base =>
      Some (base ++ snprintf_s (OTSARDB_KEY_MAX + 1 - zlen base) (id ++ str ".json"))
  end.

(** From version 3 on a segment key is relative to the root. *)
Definition gc_segment_key (root : bytes) (m : otsardb_commit_manifest)
    (ref : otsardb_manifest_segment_ref) : option bytes :=
  if 3 <=? cm_format_version m then root_join root (sg_key ref) (OTSARDB_KEY_MAX + 1)
  else Some (sg_key ref).

Section Sweep.
Context `{HSha : Sha256} {S : Type} (store : otsardb_object_store S) (clock_now : S -> Z).

(** Delete and count. *)
Definition gc_delete (key : bytes) (deleted : Z) : M S Z :=
  let! rc := otsardb_store_delete store key in
  return! match rc with None => deleted + 1 | Some _ => deleted end.

Fixpoint gc_delete_segments (root : bytes) (m : otsardb_commit_manifest)
    (refs : list otsardb_manifest_segment_ref) (deleted : Z) : M S Z :=
  match refs with
  | [] => return! deleted
  | ref :: rest =>
      match gc_segment_key root m ref with
      | None => gc_delete_segments root m rest deleted
      | Some key =>
          let! deleted := gc_delete key deleted in
          gc_delete_segments root m rest deleted
      end
  end.

(** The walk; [None] when [fuel] runs out, which the code does not bound. *)
Fixpoint gc_walk (fuel : nat) (root : bytes) (gen : Z) (current_id : bytes) (deleted : Z)
  : M S (option Z) :=
  if gen <=? 0 then return! Some deleted
  else match fuel with
  | O => return! None
  | Datatypes.S fuel' =>
      match gc_commit_key root current_id with
      | None => return! Some deleted
      | Some current_key =>
          let! rc := otsardb_store_get store current_key in
          match rc with
          | inl _ => return! Some deleted
          | inr obj =>
              match otsardb_commit_manifest_decode_json (so_data obj) with
              | None => return! Some deleted
              | Some m =>
                  let! deleted := gc_delete_segments root m (cm_segments m) deleted in
                  let! deleted := gc_delete current_key deleted in
                  if negb (cm_parent_generation m =? 0)
                  then gc_walk fuel' root (cm_parent_generation m)
                         (snprintf_s (OTSARDB_COMMIT_ID_MAX + 1) (cm_parent_commit_id m)) deleted
                  else return! Some deleted
              end
          end
      end
  end.

(** The checkpoint survived the retention window: [None] goes on. *)
Definition gc_retention (root : bytes) (keep_secs : Z) : M S (option Z) :=
  if 0 <? keep_secs then
    match root_join root (str "CHECKPOINT.json") (OTSARDB_KEY_MAX + 1) with
    | None => return! Some (-1)
    | Some ptr_key =>
        let! rc := otsardb_store_get store ptr_key in
        match rc with
        | inl _ => return! Some (-1)
        | inr ptr_obj =>
            let modified := so_last_modified_secs ptr_obj in
            if modified <=? 0 then return! Some 0
            else fun s => (if u64 (clock_now s) <? u64 (u64 modified + keep_secs)
                           then Some 0 else None, s)
        end
    end
  else return! None.

(** The verified base manifest of the checkpoint. *)
Definition gc_base (root : bytes) (cp : otsardb_checkpoint_pointer)
  : M S (option otsardb_commit_manifest) :=
  let! rc := otsardb_store_get store (pt_checkpoint_key cp) in
  match rc with
  | inl _ => return! None
  | inr cp_obj =>
      if bytes_eqb (otsardb_sha256_hex_data (so_data cp_obj)) (pt_checkpoint_sha256 cp) then
        match otsardb_checkpoint_manifest_decode (so_data cp_obj) with
        | None => return! None
        | Some cp_manifest =>
            match gc_commit_key root (ck_base_commit_id cp_manifest) with
            | None => return! None
            | Some base_key =>
                let! rc := otsardb_store_get store base_key in
                match rc with
                | inl _ => return! None
                | inr base_obj =>
                    match otsardb_commit_manifest_decode_json (so_data base_obj) with
                    | Some base =>
                        return! if cm_generation base =? pt_covered_generation cp
                                then Some base else None
                    | None => return! None
                    end
                end
            end
        end
      else return! None
  end.

(** The closing session's own lease. *)
Definition gc_lease (root : bytes) (owner_expected : option bytes) (deleted : Z) : M S Z :=
  match owner_expected with
  | None | Some [] => return! deleted
  | Some owner =>
      match root_join root (str "lease.json") (OTSARDB_KEY_MAX + 1) with
      | None => return! deleted
      | Some lease_key =>
          let! rc := otsardb_store_get store lease_key in
          match rc with
          | inl _ => return! deleted
          | inr lease_obj =>
              if mem_contains (so_data lease_obj) (q "owner" ++ str ":" ++ quoted owner)
              then gc_delete lease_key deleted else return! deleted
          end
      end
  end.

Definition otsardb_gc_sweep (fuel : nat) (root : bytes) (options : otsardb_gc_options)
  : M S (option Z) :=
  let! (rc, res) := otsardb_checkpoint_ptr_read store root in
  match rc, res with
  | OTSARDB_CHECKPOINT_PTR_OK, Some (cp, _) =>
      let! stop := gc_retention root (gc_keep_secs options) in
      match stop with
      | Some n => return! Some n
      | None =>
          let! base := gc_base root cp in
          match base with
          | None => return! Some (-1)
          | Some base =>
              let! walked := gc_walk fuel root (cm_parent_generation base)
                               (snprintf_s (OTSARDB_COMMIT_ID_MAX + 1) (cm_parent_commit_id base)) 0 in
              match walked with
              | None => return! None
              | Some deleted =>
                  let! deleted := gc_lease root (gc_owner_expected options) deleted in
                  return! Some deleted
              end
          end
      end
  | _, _ => return! Some (-1)
  end.
End Sweep.
