(* ===== verification/GcTheory.v ===== *)
(** * Garbage collection: theorems

    The sweep only deletes, and only the manifests of the parent chain below the
    checkpoint's verified base, their segments and the session's own lease; it
    ends on a chain whose generations are consistent. *)

From S2P Require Import Prelude CText JsonText ObjectStore Journal Sha256.
From S2P Require Import CommitManifest CommitManifestTheory CheckpointManifest.
From S2P Require Import CheckpointManifestTheory Lease Gc.

(** ** What a sweep may delete *)

Section Sweeps.
Context (root : bytes).

(** The manifest stored for a commit. *)
Definition commit_at (v : contents) (id : bytes) (key : bytes) (m : otsardb_commit_manifest) : Prop :=
  gc_commit_key root id = Some key /\
  exists ob, v !! key = Some ob /\ otsardb_commit_manifest_decode_json (so_data ob) = Some m.

Definition parent_id (m : otsardb_commit_manifest) : bytes :=
  snprintf_s (OTSARDB_COMMIT_ID_MAX + 1) (cm_parent_commit_id m).

(** [k] belongs to the parent chain that starts at commit [id]. *)
Inductive sweeps (v : contents) : bytes -> bytes -> Prop :=
  | sweeps_manifest id key m : commit_at v id key m -> sweeps v id key
  | sweeps_segment id key m ref k : commit_at v id key m -> ref ∈ cm_segments m ->
      gc_segment_key root m ref = Some k -> sweeps v id k
  | sweeps_parent id key m k : commit_at v id key m -> cm_parent_generation m <> 0 ->
      sweeps v (parent_id m) k -> sweeps v id k.

Definition shrinks (D : bytes -> Prop) (v v' : contents) : Prop :=
  forall k, v' !! k = v !! k \/ (v' !! k = None /\ D k).

Lemma shrinks_refl D v : shrinks D v v.
Proof. intros k. by left. Qed.

Lemma shrinks_trans (D : bytes -> Prop) u v w : shrinks D u v -> shrinks D v w -> shrinks D u w.
Proof.
  intros H1 H2 k. destruct (H2 k) as [E2|[E2 Hd]]; [|by right].
  destruct (H1 k) as [E1|[E1 Hd]]; [left; congruence|right; split; [congruence|done]].
Qed.

Lemma shrinks_impl (D E : bytes -> Prop) v w : (forall k, D k -> E k) -> shrinks D v w -> shrinks E v w.
Proof. intros Hi H k. destruct (H k) as [?|[? ?]]; [by left|right; auto]. Qed.

Lemma shrinks_lookup D v w k ob : shrinks D v w -> w !! k = Some ob -> v !! k = Some ob.
Proof. intros H Hl. destruct (H k) as [E|[E _]]; congruence. Qed.

Lemma commit_at_shrinks D v w id key m : shrinks D v w -> commit_at w id key m -> commit_at v id key m.
Proof.
  intros Hs [Hk (ob & Hl & Hd)]. split; [done|]. exists ob. split; [by eapply shrinks_lookup|done].
Qed.

Lemma sweeps_shrinks D v w id k : shrinks D v w -> sweeps w id k -> sweeps v id k.
Proof.
  intros Hs. induction 1.
  - eapply sweeps_manifest. by eapply commit_at_shrinks.
  - eapply sweeps_segment; [by eapply commit_at_shrinks|done|done].
  - eapply sweeps_parent; [by eapply commit_at_shrinks|done|done].
Qed.
End Sweeps.

(** ** The walk *)

Section Walk.
Context `{HSha : Sha256} {S : Type} (store : otsardb_object_store S) (view : S -> contents)
        (Hlaws : StoreLaws store view quiet).
Context (root : bytes).

Lemma gc_delete_shrinks key n s r s' :
  gc_delete store key n s = (r, s') -> shrinks (fun k => k = key) (view s) (view s').
Proof.
  unfold gc_delete, mbind_, mret_. destruct (otsardb_store_delete store key s) as [rc s1] eqn:E.
  destruct (delete_law _ _ _ _ E) as (w & <- & Hw). intros [= _ <-].
  destruct Hw as [->| ->]; [apply shrinks_refl|]. intros k.
  destruct (decide (k = key)) as [->|]; [right; by rewrite lookup_delete_eq|].
  left. by rewrite lookup_delete_ne.
Qed.

Lemma gc_delete_segments_shrinks m refs : forall n s r s',
  gc_delete_segments store root m refs n s = (r, s') ->
  shrinks (fun k => exists ref, ref ∈ refs /\ gc_segment_key root m ref = Some k) (view s) (view s').
Proof.
  induction refs as [|ref refs IH]; intros n s r s' H; cbn [gc_delete_segments] in H.
  { cbv [mret_] in H. simplify_eq. apply shrinks_refl. }
  destruct (gc_segment_key root m ref) as [key|] eqn:Ek.
  - unfold mbind_ in H. destruct (gc_delete store key n s) as [n1 s1] eqn:E1.
    apply gc_delete_shrinks in E1. apply IH in H. eapply shrinks_trans.
    + eapply shrinks_impl; [|exact E1]. intros k ->. exists ref. split; [set_solver|done].
    + eapply shrinks_impl; [|exact H]. intros k (ref' & Hin & Hk). exists ref'. set_solver.
  - apply IH in H. eapply shrinks_impl; [|exact H]. intros k (ref' & Hin & Hk). exists ref'. set_solver.
Qed.

Lemma gc_walk_shrinks fuel : forall gen id n s r s',
  gc_walk store fuel root gen id n s = (r, s') ->
  shrinks (sweeps root (view s) id) (view s) (view s').
Proof.
  induction fuel as [|fuel IH]; intros gen id n s r s' H; cbn [gc_walk] in H;
    (destruct (gen <=? 0); [cbv [mret_] in H; simplify_eq; apply shrinks_refl|]).
  { cbv [mret_] in H. simplify_eq. apply shrinks_refl. }
  destruct (gc_commit_key root id) as [key|] eqn:Ek;
    [|cbv [mret_] in H; simplify_eq; apply shrinks_refl].
  unfold mbind_ in H. destruct (otsardb_store_get store key s) as [rc s1] eqn:E1.
  destruct (get_law _ _ _ _ E1) as [Hq Hg]. rewrite Hq in *.
  destruct rc as [e|obj]; [cbv [mret_] in H; simplify_eq; apply shrinks_refl|].
  destruct (otsardb_commit_manifest_decode_json (so_data obj)) as [m|] eqn:Ed;
    [|cbv [mret_] in H; simplify_eq; apply shrinks_refl].
  assert (commit_at root (view s1) id key m) as Hat by (split; [done|by exists obj]).
  destruct (gc_delete_segments store root m (cm_segments m) n s1) as [n2 s2] eqn:E2.
  destruct (gc_delete store key n2 s2) as [n3 s3] eqn:E3.
  apply gc_delete_segments_shrinks in E2. apply gc_delete_shrinks in E3.
  assert (shrinks (sweeps root (view s1) id) (view s1) (view s3)) as H13.
  { eapply shrinks_trans; eapply shrinks_impl; [|exact E2| |exact E3].
    - intros k (ref & Hin & Hk). by eapply sweeps_segment.
    - intros k ->. by eapply sweeps_manifest. }
  destruct (negb (cm_parent_generation m =? 0)) eqn:Ep;
    [|cbv [mret_] in H; simplify_eq; exact H13].
  prop_bools. apply IH in H. eapply shrinks_trans; [exact H13|]. eapply shrinks_impl; [|exact H].
  intros k Hk. eapply sweeps_parent; [exact Hat|done|]. by eapply sweeps_shrinks.
Qed.

(** Generations that go down one by one along the parent links. *)
Definition links_ok (v : contents) : Prop :=
  forall id key m key' m', commit_at root v id key m -> cm_parent_generation m <> 0 ->
    commit_at root v (parent_id m) key' m' -> cm_generation m' = cm_parent_generation m.

Lemma links_ok_shrinks D v w : shrinks D v w -> links_ok v -> links_ok w.
Proof.
  intros Hs Hl id key m key' m' H1 Hp H2. eapply Hl; [by eapply commit_at_shrinks|done|].
  by eapply commit_at_shrinks.
Qed.

Lemma gc_walk_total fuel : forall gen id n s,
  links_ok (view s) -> gen <= Z.of_nat fuel ->
  (forall key m, commit_at root (view s) id key m -> cm_generation m = gen) ->
  is_Some (fst (gc_walk store fuel root gen id n s)).
Proof.
  induction fuel as [|fuel IH]; intros gen id n s Hl Hf Hgen; cbn [gc_walk];
    (destruct (Z.leb_spec gen 0); [by eexists|]); [lia|].
  destruct (gc_commit_key root id) as [key|] eqn:Ek; [|by eexists]. unfold mbind_.
  destruct (otsardb_store_get store key s) as [rc s1] eqn:E1.
  destruct (get_law _ _ _ _ E1) as [Hq Hg]. rewrite Hq in *.
  destruct rc as [e|obj]; [by eexists|].
  destruct (otsardb_commit_manifest_decode_json (so_data obj)) as [m|] eqn:Ed; [|by eexists].
  assert (commit_at root (view s1) id key m) as Hat by (split; [done|by exists obj]).
  destruct (gc_delete_segments store root m (cm_segments m) n s1) as [n2 s2] eqn:E2.
  destruct (gc_delete store key n2 s2) as [n3 s3] eqn:E3.
  apply gc_delete_segments_shrinks in E2. apply gc_delete_shrinks in E3.
  assert (shrinks (fun _ => True) (view s1) (view s3)) as H13
    by (eapply shrinks_trans; eapply shrinks_impl; [|exact E2| |exact E3]; done).
  destruct (negb (cm_parent_generation m =? 0)) eqn:Ep; [|by eexists]. prop_bools.
  apply manifest_decode_facts in Ed as (_ & _ & _ & Hpar & _).
  destruct (Z.eqb_spec (cm_parent_generation m) 0); [done|]. destruct Hpar as [Hpar _].
  specialize (Hgen key m Hat). apply IH.
  - by eapply links_ok_shrinks.
  - lia.
  - intros key' m' Hat'. eapply Hl; [exact Hat|done|]. by eapply commit_at_shrinks.
Qed.
End Walk.

(** ** The sweep *)

Section Sweep.
Context `{HSha : Sha256} {S : Type} (store : otsardb_object_store S) (view : S -> contents)
        (Hlaws : StoreLaws store view quiet).
Context (clock_now : S -> Z) (root : bytes).

(** The checkpoint that justifies a sweep, with its base manifest. *)
Definition verified_base (v : contents) (base : otsardb_commit_manifest) : Prop :=
  exists ptr_key ptr_ob cp cp_ob cpm base_key,
    build_checkpoint_key root (OTSARDB_KEY_MAX + 1) = Some ptr_key /\
    v !! ptr_key = Some ptr_ob /\ otsardb_checkpoint_ptr_decode (so_data ptr_ob) = Some cp /\
    v !! pt_checkpoint_key cp = Some cp_ob /\
    otsardb_sha256_hex_data (so_data cp_ob) = pt_checkpoint_sha256 cp /\
    otsardb_checkpoint_manifest_decode (so_data cp_ob) = Some cpm /\
    commit_at root v (ck_base_commit_id cpm) base_key base /\
    cm_generation base = pt_covered_generation cp.

(** The lease of the session that sweeps. *)
Definition own_lease (v : contents) (owner : option bytes) (k : bytes) : Prop :=
  exists o ob, owner = Some o /\ root_join root (str "lease.json") (OTSARDB_KEY_MAX + 1) = Some k /\
    v !! k = Some ob /\ mem_contains (so_data ob) (q "owner" ++ str ":" ++ quoted o) = true.

(** The pointer is older than the retention window. *)
Definition retained (v : contents) (keep now : Z) : Prop :=
  keep <= 0 \/ exists ptr_key ob, build_checkpoint_key root (OTSARDB_KEY_MAX + 1) = Some ptr_key /\
    v !! ptr_key = Some ob /\ 0 < so_last_modified_secs ob /\
    u64 (u64 (so_last_modified_secs ob) + keep) <= u64 now.

(** What the clock shows when the sweep looks at it: after the pointer has been
    read, and its object fetched once more for its modification time. *)
Definition retention_time (s : S) : Z :=
  match build_checkpoint_key root (OTSARDB_KEY_MAX + 1) with
  | Some key => clock_now (snd (otsardb_store_get store key (snd (otsardb_checkpoint_ptr_read store root s))))
  | None => clock_now s
  end.

Lemma get_quiet key s r s' : otsardb_store_get store key s = (r, s') ->
  view s' = view s /\ match r with inr ob => view s !! key = Some ob | inl _ => True end.
Proof. intros H. destruct (get_law _ _ _ _ H) as [<- Hr]. split; [done|]. by destruct r as [[]|]. Qed.

Lemma gc_retention_spec keep s r s' :
  gc_retention store clock_now root keep s = (r, s') ->
  view s' = view s /\
  (r = None -> forall key, build_checkpoint_key root (OTSARDB_KEY_MAX + 1) = Some key ->
     retained (view s) keep (clock_now (snd (otsardb_store_get store key s)))).
Proof.
  unfold gc_retention, retained, build_checkpoint_key, mbind_, mret_. intros H.
  destruct (Z.ltb_spec 0 keep); [|simplify_eq; split; [done|]; intros _ key _; by left].
  destruct (root_join _ _ _) as [key|] eqn:Ek; [|by simplify_eq].
  destruct (otsardb_store_get store key s) as [rc s1] eqn:E. pose proof E as Eget.
  apply get_quiet in E as [Hq Hg].
  destruct rc as [|ob]; [by simplify_eq|].
  destruct (Z.leb_spec (so_last_modified_secs ob) 0); [by simplify_eq|].
  destruct (Z.ltb_spec (u64 (clock_now s1)) (u64 (u64 (so_last_modified_secs ob) + keep)));
    simplify_eq; (split; [done|]); [done|]. intros _ key' [= <-]. rewrite Eget. right. by exists key, ob.
Qed.

Lemma gc_base_spec cp s r s' :
  gc_base store root cp s = (r, s') -> view s' = view s /\
  forall ptr_key ptr_ob base, r = Some base ->
    build_checkpoint_key root (OTSARDB_KEY_MAX + 1) = Some ptr_key -> view s !! ptr_key = Some ptr_ob ->
    otsardb_checkpoint_ptr_decode (so_data ptr_ob) = Some cp -> verified_base (view s) base.
Proof.
  unfold gc_base, mbind_, mret_. intros H.
  destruct (otsardb_store_get store (pt_checkpoint_key cp) s) as [rc s1] eqn:E1.
  apply get_quiet in E1 as [Hq1 Hg1]. destruct rc as [|cp_ob]; [by simplify_eq|].
  destruct (bytes_eqb _ _) eqn:Eh; [|by simplify_eq]. apply bytes_eqb_eq in Eh.
  destruct (otsardb_checkpoint_manifest_decode (so_data cp_ob)) as [cpm|] eqn:Ed; [|by simplify_eq].
  destruct (gc_commit_key root (ck_base_commit_id cpm)) as [key|] eqn:Ek; [|by simplify_eq].
  destruct (otsardb_store_get store key s1) as [rc2 s2] eqn:E2.
  apply get_quiet in E2 as [Hq2 Hg2]. destruct rc2 as [|bob]; [by simplify_eq; rewrite Hq2|].
  destruct (otsardb_commit_manifest_decode_json (so_data bob)) as [base|] eqn:Eb;
    simplify_eq; (split; [congruence|]); [|done].
  intros pk po base' Hb Hk Hp Hc. destruct (Z.eqb_spec (cm_generation base) (pt_covered_generation cp));
    simplify_eq. exists pk, po, cp, cp_ob, cpm, key. split_and!; try done.
  split; [done|]. exists bob. split; [congruence|done].
Qed.

Lemma gc_lease_shrinks owner n s r s' :
  gc_lease store root owner n s = (r, s') -> shrinks (own_lease (view s) owner) (view s) (view s').
Proof.
  unfold gc_lease, mbind_, mret_. intros H. destruct owner as [[|c o]|];
    try (simplify_eq; apply shrinks_refl).
  destruct (root_join _ _ _) as [key|] eqn:Ek; [|simplify_eq; apply shrinks_refl].
  destruct (otsardb_store_get store key s) as [rc s1] eqn:E. apply get_quiet in E as [Hq Hg].
  destruct rc as [|ob]; [simplify_eq; rewrite Hq; apply shrinks_refl|].
  destruct (mem_contains _ _) eqn:Em; [|simplify_eq; rewrite Hq; apply shrinks_refl].
  apply (gc_delete_shrinks store view Hlaws) in H. rewrite Hq in H.
  eapply shrinks_impl; [|exact H]. intros k ->. by exists (c :: o), ob.
Qed.

Lemma ptr_read_spec s rc res s' :
  otsardb_checkpoint_ptr_read store root s = ((rc, res), s') ->
  view s' = view s /\ forall cp e, rc = OTSARDB_CHECKPOINT_PTR_OK -> res = Some (cp, e) ->
    exists key ob, build_checkpoint_key root (OTSARDB_KEY_MAX + 1) = Some key /\
      view s !! key = Some ob /\ otsardb_checkpoint_ptr_decode (so_data ob) = Some cp.
Proof.
  unfold otsardb_checkpoint_ptr_read, mbind_, mret_. intros H.
  destruct (build_checkpoint_key root _) as [key|] eqn:Ek; [|by simplify_eq].
  destruct (otsardb_store_get store key s) as [r s1] eqn:E. apply get_quiet in E as [Hq Hg].
  destruct r as [[]|ob]; try (by simplify_eq).
  destruct (otsardb_checkpoint_ptr_decode (so_data ob)) as [cp|] eqn:Ed;
    [destruct (so_etag ob) as [[|c e]|]|]; simplify_eq; (split; [done|]); try done.
  intros cp' e' _ [= <- <-]. by exists key, ob.
Qed.

Lemma gc_sweep_run fuel options s r s' :
  otsardb_gc_sweep store clock_now fuel root options s = (r, s') ->
  view s' = view s \/
  exists base, verified_base (view s) base /\
    retained (view s) (gc_keep_secs options) (retention_time s) /\
    shrinks (fun k => sweeps root (view s) (parent_id base) k \/
                      own_lease (view s) (gc_owner_expected options) k) (view s) (view s').
Proof.
  unfold otsardb_gc_sweep, mbind_, mret_. intros H.
  destruct (otsardb_checkpoint_ptr_read store root s) as [[rc res] s1] eqn:E1. pose proof E1 as Eptr.
  apply ptr_read_spec in E1 as [Hq1 Hp]. destruct rc; try (simplify_eq; by left).
  destruct res as [[cp e]|]; [|simplify_eq; by left].
  destruct (Hp cp e eq_refl eq_refl) as (pk & po & Hpk & Hpo & Hpd). clear Hp.
  destruct (gc_retention store clock_now root (gc_keep_secs options) s1) as [stop s2] eqn:E2.
  apply gc_retention_spec in E2 as [Hq2 Hret]. destruct stop as [n|]; [simplify_eq; left; congruence|].
  specialize (Hret eq_refl pk Hpk).
  destruct (gc_base store root cp s2) as [base s3] eqn:E3. apply gc_base_spec in E3 as [Hq3 Hb].
  destruct base as [base|]; [|simplify_eq; left; congruence].
  assert (view s3 = view s) as Hq by congruence. rewrite Hq1 in Hret. rewrite Hq2, Hq1 in Hb.
  specialize (Hb pk po base eq_refl Hpk Hpo Hpd). right. exists base. split_and!; [done| |].
  { unfold retention_time. by rewrite Hpk, Eptr. }
  destruct (gc_walk store fuel root _ _ 0 s3) as [w s4] eqn:E4.
  apply (gc_walk_shrinks store view Hlaws) in E4. rewrite Hq in E4. fold (parent_id base) in E4.
  destruct w as [n|]; [|simplify_eq; eapply shrinks_impl; [|exact E4]; by left].
  destruct (gc_lease store root (gc_owner_expected options) n s4) as [n5 s5] eqn:E5.
  apply gc_lease_shrinks in E5. simplify_eq. eapply shrinks_trans; eapply shrinks_impl;
    [|exact E4| |exact E5]; [by left|]. intros k (o & ob & Ho & Hk & Hl & Hm). right.
  exists o, ob. split_and!; try done. by eapply shrinks_lookup.
Qed.

Lemma gc_sweep_total fuel options s :
  links_ok root (view s) ->
  (forall id key m, commit_at root (view s) id key m -> cm_generation m <= Z.of_nat fuel) ->
  is_Some (fst (otsardb_gc_sweep store clock_now fuel root options s)).
Proof.
  intros Hl Hf. unfold otsardb_gc_sweep, mbind_, mret_.
  destruct (otsardb_checkpoint_ptr_read store root s) as [[rc res] s1] eqn:E1.
  apply ptr_read_spec in E1 as [Hq1 Hp]. destruct rc; try (by eexists).
  destruct res as [[cp e]|]; [|by eexists].
  destruct (Hp cp e eq_refl eq_refl) as (pk & po & Hpk & Hpo & Hpd). clear Hp.
  destruct (gc_retention store clock_now root (gc_keep_secs options) s1) as [stop s2] eqn:E2.
  apply gc_retention_spec in E2 as [Hq2 _]. destruct stop; [by eexists|].
  destruct (gc_base store root cp s2) as [base s3] eqn:E3. apply gc_base_spec in E3 as [Hq3 Hb].
  destruct base as [base|]; [|by eexists]. rewrite Hq2, Hq1 in Hb.
  destruct (Hb pk po base eq_refl Hpk Hpo Hpd)
    as (? & ? & ? & ? & cpm & bk & _ & _ & _ & _ & _ & _ & Hat & _).
  assert (view s3 = view s) as Hq by congruence.
  assert (is_Some (fst (gc_walk store fuel root (cm_parent_generation base) (parent_id base) 0 s3)))
    as [n Hn].
  { specialize (Hf _ _ _ Hat) as Hgen. pose proof Hat as (_ & bob & _ & Hd).
    apply manifest_decode_facts in Hd as (_ & _ & _ & Hpar & _).
    destruct (Z.eqb_spec (cm_parent_generation base) 0) as [E0|E0].
    - destruct fuel; cbn [gc_walk]; rewrite E0; by eexists.
    - destruct Hpar as [Hpar _]. apply (gc_walk_total store view Hlaws); rewrite ?Hq; [done|lia|].
      intros key' m' Hat'. by eapply Hl. }
  unfold parent_id in Hn. destruct (gc_walk store fuel root _ _ 0 s3) as [w s4]. cbn in Hn. subst w.
  destruct (gc_lease store root _ n s4). by eexists.
Qed.
End Sweep.

(** C30. What a sweep deletes, whatever its result and wherever a fault stops
    it: nothing at all, or else a checkpoint pointer, the manifest it
    authenticates and a base manifest of the covered generation were all found,
    the pointer's modification time plus the retention window (added as the code
    adds them, in 64 bits) had passed on the clock the sweep read, right after it
    fetched the pointer, and every object that is gone is a manifest of the parent chain below the base, one of its segments,
    or the lease that names the given owner. Every other object is unchanged. *)
Theorem gc_sweep_deletes_only_superseded `{HSha : Sha256} {S} (store : otsardb_object_store S) view
    (Hlaws : StoreLaws store view quiet) clock_now fuel root options s r s' :
  otsardb_gc_sweep store clock_now fuel root options s = (r, s') ->
  view s' = view s \/
  exists base, verified_base root (view s) base /\
    retained root (view s) (gc_keep_secs options) (retention_time store clock_now root s) /\
    forall k, view s' !! k = view s !! k \/
      (view s' !! k = None /\
       (sweeps root (view s) (parent_id base) k \/
        own_lease root (view s) (gc_owner_expected options) k)).
Proof. apply gc_sweep_run. done. Qed.

(** The sweep ends on every store whose manifests have consistent parent
    links, deletions failing or not: as many steps as the highest generation
    are enough. *)
Theorem gc_sweep_terminates `{HSha : Sha256} {S} (store : otsardb_object_store S) view
    (Hlaws : StoreLaws store view quiet) clock_now fuel root options s :
  links_ok root (view s) ->
  (forall id key m, commit_at root (view s) id key m -> cm_generation m <= Z.of_nat fuel) ->
  is_Some (fst (otsardb_gc_sweep store clock_now fuel root options s)).
Proof. by apply gc_sweep_total. Qed.

(** ** A database with a checkpoint *)

(** Deciding the hypotheses on a finite store. *)
Definition link_okb (root : bytes) (v : contents) (ob : otsardb_store_object) : bool :=
  match otsardb_commit_manifest_decode_json (so_data ob) with
  | None => true
  | Some m =>
      if cm_parent_generation m =? 0 then true
      else match gc_commit_key root (parent_id m) with
           | None => true
           | Some key =>
               match v !! key with
               | None => true
               | Some ob' =>
                   match otsardb_commit_manifest_decode_json (so_data ob') with
                   | None => true
                   | Some m' => cm_generation m' =? cm_parent_generation m
                   end
               end
           end
  end.

Lemma links_okb_sound root v :
  forallb (fun kv => link_okb root v kv.2) (map_to_list v) = true -> links_ok root v.
Proof.
  intros H id key m key' m' (_ & ob & Hl & Hd) Hp (Hk' & ob' & Hl' & Hd').
  rewrite forallb_forall in H. specialize (H (key, ob)).
  unfold link_okb in H. cbn in H. rewrite Hd, Hk', Hl', Hd' in H.
  destruct (Z.eqb_spec (cm_parent_generation m) 0); [done|]. apply Z.eqb_eq, H.
  by apply list_elem_of_In, elem_of_map_to_list.
Qed.

Lemma generations_bounded root v b :
  forallb (fun kv => match otsardb_commit_manifest_decode_json (so_data kv.2) with
                     | Some m => cm_generation m <=? b
                     | None => true
                     end) (map_to_list v) = true ->
  forall id key m, commit_at root v id key m -> cm_generation m <= b.
Proof.
  intros H id key m (_ & ob & Hl & Hd). rewrite forallb_forall in H. specialize (H (key, ob)).
  cbn in H. rewrite Hd in H. apply Z.leb_le, H. by apply list_elem_of_In, elem_of_map_to_list.
Qed.

Module GcSample.
Definition object (data : bytes) : otsardb_store_object := mkObject data (Some (str "e")) 100.
Definition manifest (gen : Z) (id : string) (parent parent_sha : bytes) : bytes :=
  manifest_json (mkManifest 4 gen (gen - 1) 512 9 (str "db-1") (str id) parent parent_sha
    [mkSegmentRef (str "segments/" ++ str id) (replicate 64 97) 600 [1] None] []).
Definition m1 : bytes := Eval vm_compute in manifest 1 "c-1" [] [].
Definition m2 : bytes := Eval vm_compute in manifest 2 "c-2" (str "c-1") (replicate 64 49).
Definition m3 : bytes := Eval vm_compute in manifest 3 "c-3" (str "c-2") (replicate 64 50).
Definition checkpoint : bytes := Eval vm_compute in checkpoint_json sample_checkpoint.
Definition pointer : bytes := Eval vm_compute in
  otsardb_checkpoint_ptr_encode
    (mkPointer 3 (otsardb_sha256_hex_data checkpoint) (str "db/checkpoints/cp.json") (str "db-1")).
Definition base_contents : contents :=
  <[str "db/CHECKPOINT.json" := object pointer]>
  (<[str "db/checkpoints/cp.json" := object checkpoint]>
  (<[str "db/commits/c-3.json" := object m3]> (<[str "db/segments/c-3" := object []]> ∅))).
Definition history : contents :=
  <[str "db/commits/c-1.json" := object m1]> (<[str "db/commits/c-2.json" := object m2]>
  (<[str "db/segments/c-1" := object []]> (<[str "db/segments/c-2" := object []]> base_contents))).
Definition sweep (v : contents) : option Z * mem :=
  otsardb_gc_sweep (mem_store CAPS_ALL) m_now 3 demo_root gc_defaults (mkMem v 0 200 []).
(** The objects date from second 100 and the sweep runs in second 200. *)
Definition keeping (keep_secs : Z) : otsardb_gc_options := mkGcOptions keep_secs None.
Definition sweep_keeping (keep_secs : Z) : option Z * mem :=
  otsardb_gc_sweep (mem_store CAPS_ALL) m_now 3 demo_root (keeping keep_secs) (mkMem history 0 200 []).

(** A manifest that names itself as its parent, in a store without deletion. *)
Definition looping : contents :=
  <[str "db/commits/c-2.json" := object (manifest 2 "c-2" (str "c-2") (replicate 64 49))]> base_contents.
Definition no_delete : otsardb_object_store mem :=
  mkStore (Some mem_get) None None None None None CAPS_ALL.
End GcSample.

Lemma gc_sweep_deletes_only_superseded_witness :
  fst (GcSample.sweep_keeping 100) = Some 4 /\
  exists base, verified_base demo_root GcSample.history base /\
    retained demo_root GcSample.history 100
      (retention_time (mem_store CAPS_ALL) m_now demo_root (mkMem GcSample.history 0 200 [])) /\
    forall k, m_objects (snd (GcSample.sweep_keeping 100)) !! k = GcSample.history !! k \/
      (m_objects (snd (GcSample.sweep_keeping 100)) !! k = None /\
       (sweeps demo_root GcSample.history (parent_id base) k \/
        own_lease demo_root GcSample.history None k)).
Proof.
  split; [vm_compute; reflexivity|].
  destruct (gc_sweep_deletes_only_superseded (mem_store CAPS_ALL) m_objects (mem_store_laws CAPS_ALL)
    m_now 3 demo_root (GcSample.keeping 100) (mkMem GcSample.history 0 200 [])
    (fst (GcSample.sweep_keeping 100)) (snd (GcSample.sweep_keeping 100))
    (surjective_pairing _)) as [H|(base & Hb & Hr & Hk)].
  - exfalso. apply (f_equal (fun v => v !! str "db/commits/c-2.json")) in H.
    vm_compute in H. discriminate.
  - exists base. split; [exact Hb|]. split; [exact Hr|exact Hk].
Defined.

(** One second of retention more, and the same sweep deletes nothing. *)
Example gc_sweep_waits_for_retention :
  fst (GcSample.sweep_keeping 101) = Some 0 /\
  m_objects (snd (GcSample.sweep_keeping 101)) = GcSample.history.
Proof. split; vm_compute; reflexivity. Qed.

Lemma gc_sweep_terminates_witness : is_Some (fst (GcSample.sweep GcSample.history)).
Proof.
  apply (gc_sweep_terminates (mem_store CAPS_ALL) m_objects (mem_store_laws CAPS_ALL) m_now 3
    demo_root gc_defaults (mkMem GcSample.history 0 200 [])).
  - apply links_okb_sound. vm_compute. reflexivity.
  - apply generations_bounded. vm_compute. reflexivity.
Defined.

(** With no checkpoint there is nothing to sweep, and the sweep reports an error. *)
Theorem gc_no_checkpoint_is_error : fst (GcSample.sweep ∅) = Some (-1).
Proof. vm_compute. reflexivity. Qed.

Lemma looping_walk f : forall gen n, 0 < gen ->
  let s := mkMem GcSample.looping 0 200 [] in
  fst (gc_walk GcSample.no_delete f demo_root gen (str "c-2") n s) = None.
Proof.
  set (s := mkMem GcSample.looping 0 200 []). cbv zeta.
  induction f as [|f IH]; intros gen n Hg; cbn [gc_walk]; (destruct (Z.leb_spec gen 0); [lia|]);
    [done|].
  change (gc_commit_key demo_root (str "c-2")) with (Some (str "db/commits/c-2.json")). cbv iota beta.
  set (ob := GcSample.object (GcSample.manifest 2 "c-2" (str "c-2") (replicate 64 49))).
  assert (otsardb_store_get GcSample.no_delete (str "db/commits/c-2.json") s = (inr ob, s)) as Eg
    by (vm_compute; reflexivity).
  set (m := mkManifest 4 2 1 512 9 (str "db-1") (str "c-2") (str "c-2") (replicate 64 49)
    [mkSegmentRef (str "segments/" ++ str "c-2") (replicate 64 97) 600 [1] None] []).
  assert (otsardb_commit_manifest_decode_json (so_data ob) = Some m) as Ed
    by (vm_compute; reflexivity).
  unfold mbind_. rewrite Eg, Ed.
  assert (gc_delete_segments GcSample.no_delete demo_root m (cm_segments m) n s = (n, s)) as ->
    by reflexivity.
  assert (gc_delete GcSample.no_delete (str "db/commits/c-2.json") n s = (n, s)) as -> by reflexivity.
  change (snprintf_s (OTSARDB_COMMIT_ID_MAX + 1) (cm_parent_commit_id m)) with (str "c-2").
  change (cm_parent_generation m) with 1. cbn [negb Z.eqb]. apply IH. lia.
Qed.

(** Nothing but the deletions stops the walk on inconsistent links: with a
    manifest that names itself as its parent, in a store that refuses to
    delete, the sweep does not end, however many steps it is given. *)
Theorem gc_sweep_can_loop (fuel : nat) :
  fst (otsardb_gc_sweep GcSample.no_delete m_now fuel demo_root gc_defaults
         (mkMem GcSample.looping 0 200 [])) = None.
Proof.
  set (s := mkMem GcSample.looping 0 200 []).
  set (cp := mkPointer 3 (otsardb_sha256_hex_data GcSample.checkpoint) (str "db/checkpoints/cp.json")
    (str "db-1")).
  set (base := mkManifest 4 3 2 512 9 (str "db-1") (str "c-3") (str "c-2") (replicate 64 50)
    [mkSegmentRef (str "segments/" ++ str "c-3") (replicate 64 97) 600 [1] None] []).
  assert (otsardb_checkpoint_ptr_read GcSample.no_delete demo_root s
    = ((OTSARDB_CHECKPOINT_PTR_OK, Some (cp, str "e")), s)) as E1 by (vm_compute; reflexivity).
  assert (gc_base GcSample.no_delete demo_root cp s = (Some base, s)) as E2
    by (vm_compute; reflexivity).
  unfold otsardb_gc_sweep, mbind_, mret_. rewrite E1.
  change (gc_retention GcSample.no_delete m_now demo_root (gc_keep_secs gc_defaults) s)
    with (@None Z, s). cbv iota beta. rewrite E2.
  change (snprintf_s (OTSARDB_COMMIT_ID_MAX + 1) (cm_parent_commit_id base)) with (str "c-2").
  change (cm_parent_generation base) with 2. pose proof (looping_walk fuel 2 0 ltac:(lia)) as Hwalk. cbv zeta in Hwalk. fold s in Hwalk.
  destruct (gc_walk _ _ _ _ _ _ _) as [w s4]. cbn in Hwalk. by subst w.
Qed.
