(* ===== verification/CheckpointBuild.v ===== *)
(** * Building a checkpoint (checkpoint_build.c)

    A checkpoint restores the database image, cuts it into page groups that are
    uploaded under their digests, then publishes the checkpoint manifest and,
    last, the pointer. The restore is an argument: it yields the bytes of the
    image file. The file is then opened and read through a stream whose calls may
    fail: whether it opens and the outcome of each call are arguments too. *)

From S2P Require Import Prelude CText JsonText ObjectStore Journal Sha256 Codec.
From S2P Require Import CommitManifest DbMetadata CheckpointPage CheckpointManifest.

Definition CHECKPOINT_MAX_PAGES_PER_GROUP : Z := 4096.

(** Why a build ends without success; the array of page groups has 128
    entries, and writing past it is undefined. *)
Inductive build_error := BUILD_FAILED | BUILD_OUT_OF_BOUNDS.

(** ** The stream of the image

    The bytes, the position, and the outcomes of the calls to come: [Some n] is
    an error, after [n] bytes in the case of a read. No call left means no error. *)
Record image_file := mkImage {
  im_data : bytes;
  im_pos : Z;
  im_calls : list (option Z)
}.

Definition image_call (f : image_file) : option Z * image_file :=
  match im_calls f with
  | [] => (None, f)
  | c :: rest => (c, mkImage (im_data f) (im_pos f) rest)
  end.

(** [otsardb_fseek], whose result is not looked at. *)
Definition image_seek (offset : Z) (f : image_file) : image_file :=
  match image_call f with
  | (None, f) => mkImage (im_data f) offset (im_calls f)
  | (Some _, f) => f
  end.

(** [fread]: fewer bytes than asked at the end of the file or on an error; the
    position moves over those that were read. *)
Definition image_read (size : Z) (f : image_file) : bytes * image_file :=
  let '(outcome, f) := image_call f in
  let rest := drop (Z.to_nat (im_pos f)) (im_data f) in
  let got := match outcome with
             | None => take (Z.to_nat size) rest
             | Some n => take (Z.to_nat (Z.min n (size - 1))) rest
             end in
  (got, mkImage (im_data f) (im_pos f + zlen got) (im_calls f)).

(** The loop: a short read leaves a page of zeros. *)
Fixpoint read_pages (page_size start_page : Z) (i : Z) (count : nat) (f : image_file)
  : list (Z * bytes) * image_file :=
  match count with
  | O => ([], f)
  | Datatypes.S count' =>
      let '(got, f) := image_read page_size f in
      let page := if zlen got =? page_size then got else replicate (Z.to_nat page_size) 0 in
      let '(pages, f) := read_pages page_size start_page (i + 1) count' f in
      ((u32 (start_page + i + 1), page) :: pages, f)
  end.

(** The page numbers and the pages of a chunk. *)
Definition read_db_pages (page_size start_page count : Z) (f : image_file) : list (Z * bytes) * image_file :=
  let base := u64 (start_page * page_size) in
  read_pages page_size start_page 0 (Z.to_nat count) (image_seek base f).

(** [checkpoints/%s/page-%u.otscp] *)
Definition group_suffix (sha : bytes) (group_idx : Z) : bytes :=
  str "checkpoints/" ++ sha ++ str "/page-" ++ dec group_idx ++ str ".otscp".

Definition checkpoint_suffix (sha : bytes) : bytes := str "checkpoints/" ++ sha ++ str ".json".

Section Build.
Context `{HSha : Sha256} {S : Type} (store : otsardb_object_store S).

Definition build_fail {A} : M S (build_error + A) := return! inl BUILD_FAILED.

Definition put_plain (key data : bytes) : M S (build_error + unit) :=
  let! rc := otsardb_store_put store key data plain_put in
  return! match rc with inr _ => inr tt | inl _ => inl BUILD_FAILED end.

Definition upload_group (root : bytes) (file : image_file)
    (page_size database_size_pages cursor chunk group_idx : Z)
  : M S (build_error + (otsardb_checkpoint_page_group_ref * image_file)) :=
  let '(pages, file) := read_db_pages page_size cursor chunk file in
  match otsardb_checkpoint_page_encode page_size database_size_pages pages.*1 (concat pages.*2) with
  | None => build_fail
  | Some group_data =>
      let group_sha256 := otsardb_sha256_hex_data group_data in
      let suffix := group_suffix group_sha256 group_idx in
      if OTSARDB_CHECKPOINT_PAGE_GROUP_KEY_MAX + 1 <=? zlen suffix then build_fail
      else match root_join root suffix (OTSARDB_KEY_MAX + 1) with
      | None => build_fail
      | Some key =>
          let? _ := put_plain key group_data in
          if OTSARDB_CHECKPOINT_MAX_PAGE_GROUPS <=? group_idx
          then return! inl BUILD_OUT_OF_BOUNDS
          else return! inr (mkGroupRef suffix group_sha256 (zlen group_data), file)
      end
  end.

(** The loop over the remaining pages; one more group than fit is enough. *)
Fixpoint upload_groups (fuel : nat) (root : bytes) (file : image_file)
    (page_size database_size_pages cursor remaining group_idx : Z)
  : M S (build_error + list otsardb_checkpoint_page_group_ref) :=
  if remaining <=? 0 then return! inr []
  else match fuel with
  | O => build_fail
  | Datatypes.S fuel' =>
      let chunk := if CHECKPOINT_MAX_PAGES_PER_GROUP <? remaining
                   then CHECKPOINT_MAX_PAGES_PER_GROUP else remaining in
      let? (ref, file) := upload_group root file page_size database_size_pages cursor chunk group_idx in
      let? refs := upload_groups fuel' root file page_size database_size_pages (cursor + chunk)
                     (remaining - chunk) (group_idx + 1) in
      return! inr (ref :: refs)
  end.

(** 128 groups fit; the 129th goes out of bounds. *)
Definition group_fuel : nat := 129.

Definition read_head_manifest (root : bytes)
  : M S (build_error + (otsardb_head * otsardb_commit_manifest)) :=
  let! (rc, res) := otsardb_journal_read_head store root in
  match rc, res with
  | OTSARDB_JOURNAL_OK, Some (head, _) =>
      let! rc := otsardb_store_get store (hd_commit_key head) in
      match rc with
      | inl _ => build_fail
      | inr object =>
          match otsardb_commit_manifest_decode_json (so_data object) with
          | None => build_fail
          | Some m => return! inr (head, m)
          end
      end
  | _, _ => build_fail
  end.

Definition build_checkpoint (head : otsardb_head) (page_size database_size_pages : Z)
    (groups : list otsardb_checkpoint_page_group_ref) : otsardb_checkpoint_manifest :=
  mkCheckpoint OTSARDB_CHECKPOINT_MANIFEST_FORMAT_VERSION (hd_generation head) page_size
    database_size_pages (snprintf_s 64 (hd_database_id head)) (snprintf_s 64 (hd_commit_id head))
    (snprintf_s 65 (hd_commit_sha256 head)) groups.

(** The manifest as an immutable object, then the pointer. *)
Definition publish_checkpoint (root : bytes) (m : otsardb_checkpoint_manifest)
  : M S (build_error + unit) :=
  match otsardb_checkpoint_manifest_encode m with
  | None => build_fail
  | Some (json, sha) =>
      let suffix := checkpoint_suffix sha in
      if OTSARDB_KEY_MAX + 1 <=? zlen suffix then build_fail
      else match root_join root suffix (OTSARDB_KEY_MAX + 1) with
      | None => build_fail
      | Some manifest_key =>
          let? _ := put_plain manifest_key json in
          let ptr := mkPointer (ck_covered_generation m) (snprintf_s 65 sha)
                       (snprintf_s 1024 manifest_key) (snprintf_s 64 (ck_database_id m)) in
          match root_join root (str "CHECKPOINT.json") (OTSARDB_KEY_MAX + 1) with
          | None => build_fail
          | Some ptr_key => put_plain ptr_key (otsardb_checkpoint_ptr_encode ptr)
          end
      end
  end.

(** [opens]: the image can be opened; [calls]: the outcomes of the calls on it. *)
Definition otsardb_checkpoint_build (restore : M S (option bytes)) (opens : bool) (calls : list (option Z))
    (root : bytes) : M S (build_error + unit) :=
  let! image := restore in
  match image with
  | None => build_fail
  | Some file =>
      let! (rc, metadata) := otsardb_db_metadata_read store root in
      match rc, metadata with
      | OTSARDB_METADATA_OK, Some metadata =>
          let? (head, head_manifest) := read_head_manifest root in
          let page_size := md_page_size metadata in
          let database_size_pages := cm_database_size_pages head_manifest in
          if database_size_pages =? 0 then build_fail
          else if negb opens then build_fail
          else
            let? groups := upload_groups group_fuel root (mkImage file 0 calls) page_size database_size_pages 0
                             database_size_pages 0 in
            publish_checkpoint root (build_checkpoint head page_size database_size_pages groups)
      | _, _ => build_fail
      end
  end.
End Build.
