(* ===== verification/CheckpointBuildTheory.v ===== *)
(** * Building a checkpoint: theorems

    A build that succeeds leaves a checkpoint from which every page of the
    image is read back; a database of more pages than 128 groups hold drives
    the build out of its array. *)

From S2P Require Import Prelude CText JsonText ObjectStore Journal Sha256 Codec.
From S2P Require Import CommitManifest CommitManifestTheory DbMetadata CommitPublish CommitPublishTheory.
From S2P Require Import CheckpointPage CheckpointManifest CheckpointManifestTheory CheckpointBuild.

(** ** What the readers of HEAD guarantee *)

Lemma strstr_suffix hay pat r : strstr hay pat = Some r -> exists a, hay = a ++ r.
Proof.
  revert r. induction hay as [|c hay IH]; intros r; cbn; destruct (prefixb _ _); intros H; simplify_eq.
  - by exists [].
  - by exists [].
  - destruct (IH _ H) as [a ->]. by exists (c :: a).
Qed.

Lemma find_after_no_nul hay pat r :
  no_nul hay = true -> find_after hay pat = Some r -> no_nul r = true.
Proof.
  unfold find_after. intros Hn H. destruct (strstr hay pat) as [t|] eqn:E; [|done]. simplify_eq.
  apply strstr_suffix in E as [a ->]. rewrite no_nul_app in Hn. apply andb_prop in Hn as [_ Hn].
  rewrite <- (take_drop (length pat) t), no_nul_app in Hn. by apply andb_prop in Hn as [_ Hn].
Qed.

Lemma extract_string_raw_ok cap json name n s :
  no_nul json = true -> extract_string_raw cap json name n = Some s -> field_ok n s = true.
Proof.
  unfold extract_string_raw, find_field, quoted_value. intros Hn H. case_if_in H; [done|].
  destruct (find_after _ _) as [p|] eqn:Ef; [|done]. apply find_after_no_nul in Ef; [|done].
  destruct (split_at dq p) as [[v r]|] eqn:Es; [|done]. case_if_in H; [done|]. simplify_eq.
  apply split_at_Some in Es as [-> Hq]. rewrite no_nul_app in Ef. apply andb_prop in Ef as [Ef _].
  unfold field_ok, noq. rewrite Ef, Hq. prop_bools. by apply Z.ltb_lt.
Qed.

Lemma extract_u64_raw_is cap json name v : extract_u64_raw cap json name = Some v -> is_u64 v.
Proof.
  unfold extract_u64_raw. destruct (find_field _ _ _ _); [|done].
  destruct (strtoull _) as [[[? ?] ?]|] eqn:E; [|done]. intros [= <-]. by eapply strtoull_u64.
Qed.

Lemma head_decode_ok json h : otsardb_head_decode_json json = Some h -> head_ok h.
Proof.
  unfold otsardb_head_decode_json. destruct (_ =? 0); [done|]. set (copy := cstr json).
  assert (no_nul copy = true) as Hn by apply cstr_is_no_nul. intros H.
  repeat (case_match; [|done]). case_if_in H; [done|]. simplify_eq. prop_bools.
  assert (is_u64 z) as [? ?] by (eapply extract_u64_raw_is; eauto).
  unfold head_ok. cbn. split_and!; try lia;
    first [by eapply extract_u64_raw_is | by eapply extract_string_raw_ok].
Qed.

(** ** Keys *)

Lemma dec_inj a b : is_u64 a -> is_u64 b -> dec a = dec b -> a = b.
Proof.
  intros Ha Hb E. destruct (dec_spec a Ha) as (_ & _ & <-). destruct (dec_spec b Hb) as (_ & _ & <-).
  by rewrite E.
Qed.

Lemma group_suffix_inj sha sha' i j : zlen sha = 64 -> zlen sha' = 64 -> is_u64 i -> is_u64 j ->
  group_suffix sha i = group_suffix sha' j -> i = j.
Proof.
  unfold group_suffix. intros H1 H2 Hi Hj E. apply app_inv_head in E.
  apply app_inj_1 in E as [_ E]; [|unfold zlen in *; lia]. apply app_inv_head, app_inv_tail in E.
  by apply dec_inj.
Qed.

Lemma group_not_manifest sha sha' i : zlen sha = 64 -> zlen sha' = 64 ->
  group_suffix sha i <> checkpoint_suffix sha'.
Proof.
  unfold group_suffix, checkpoint_suffix. intros H1 H2 E. apply app_inv_head in E.
  by apply app_inj_1 in E as [_ E]; [|unfold zlen in *; lia].
Qed.

(** ** The pages of the image *)

(** What a checkpoint should hold: pages [first .. first + n - 1], page [k] being
    bytes [(k - 1) * ps .. k * ps) of the image, or zeros when the image ends
    before it does. *)
Definition image_pages (file : bytes) (ps first n : Z) : list (Z * bytes) :=
  (fun k => (k, if k * ps <=? zlen file then take (Z.to_nat ps) (drop (Z.to_nat ((k - 1) * ps)) file)
                else replicate (Z.to_nat ps) 0)) <$> seqZ first n.

Lemma image_pages_app file ps first a b : 0 <= a -> 0 <= b ->
  image_pages file ps first a ++ image_pages file ps (first + a) b = image_pages file ps first (a + b).
Proof. intros Ha Hb. unfold image_pages. by rewrite <- fmap_app, <- seqZ_app. Qed.

(** Whatever the calls on the file do, a chunk has its pages, numbered and of
    the page size. *)
Lemma read_pages_shape ps start count : 0 <= ps -> forall i f pages f',
  read_pages ps start i count f = (pages, f') ->
  zlen pages = Z.of_nat count /\ im_data f' = im_data f /\
  Forall (fun p => 0 <= p.1 <= UINT32_MAX /\ zlen p.2 = ps) pages /\
  (forall k p, pages !! k = Some p -> p.1 = u32 (start + i + Z.of_nat k + 1)).
Proof.
  intros Hps. induction count as [|count IH]; intros i f pages f' H; cbn [read_pages] in H.
  { injection H as <- <-. split_and!; [done|done|constructor|done]. }
  destruct (image_read ps f) as [got f1] eqn:Er.
  assert (im_data f1 = im_data f) as E1.
  { unfold image_read, image_call in Er. destruct (im_calls f) as [|[|] ?]; by injection Er as _ <-. }
  destruct (read_pages ps start (i + 1) count f1) as [rest f2] eqn:Ep. apply IH in Ep as (Hl & E2 & Hall & Hno).
  injection H as <- <-. split_and!.
  - rewrite zlen_cons. lia.
  - congruence.
  - constructor; [|done]. cbn. split; [unfold u32, UINT32_MAX; pose proof (Z.mod_pos_bound (start + i + 1) (2 ^ 32)); lia|].
    destruct (Z.eqb_spec (zlen got) ps); [done|]. unfold zlen. rewrite length_replicate. lia.
  - intros [|k] p Hp; cbn in Hp; [injection Hp as <-; cbn; f_equal; lia|]. rewrite (Hno k p Hp). f_equal. lia.
Qed.

(** The calls all succeed. *)
Definition no_errors (f : image_file) : Prop := Forall (fun c => c = None) (im_calls f).

Lemma image_call_ok f : no_errors f -> exists g, image_call f = (None, g) /\ no_errors g /\
  im_data g = im_data f /\ im_pos g = im_pos f.
Proof.
  unfold image_call, no_errors. intros H. destruct (im_calls f) as [|c rest] eqn:E; [exists f; by rewrite E|].
  apply list.Forall_cons in H as [-> H]. eexists. split; [done|]. done.
Qed.

(** The position is that of the next page, or past the end of the file, which
    ends before that page does. *)
Definition reads_from (ps k : Z) (f : image_file) : Prop :=
  0 <= im_pos f /\
  (im_pos f = (k - 1) * ps \/ (zlen (im_data f) <= im_pos f /\ zlen (im_data f) < k * ps)).

Lemma image_read_ok ps k f : 0 < ps -> 1 <= k -> no_errors f -> reads_from ps k f ->
  exists got g, image_read ps f = (got, g) /\ no_errors g /\ im_data g = im_data f /\ reads_from ps (k + 1) g /\
    (if zlen got =? ps then got else replicate (Z.to_nat ps) 0)
    = (if k * ps <=? zlen (im_data f) then take (Z.to_nat ps) (drop (Z.to_nat ((k - 1) * ps)) (im_data f))
       else replicate (Z.to_nat ps) 0).
Proof.
  intros Hps Hk Hf (Hpos & Hat). destruct (image_call_ok f Hf) as (g & Ec & Hg & Ed & Ep).
  unfold image_read. rewrite Ec. cbv zeta. rewrite Ed, Ep. set (data := im_data f) in *.
  set (got := take (Z.to_nat ps) (drop (Z.to_nat (im_pos f)) data)).
  assert (zlen got = Z.min ps (Z.max 0 (zlen data - im_pos f))) as Hl
    by (unfold got, zlen; rewrite length_take, length_drop; lia).
  eexists got, _. split; [done|]. split_and!; [done|done| |].
  - unfold reads_from. cbn. fold data. rewrite Hl. split; [lia|]. destruct Hat as [->|[Ha Hb]]; [|right; nia].
    destruct (Z.le_gt_cases (k * ps) (zlen data)); [left|right]; nia.
  - rewrite Hl. destruct (Z.leb_spec (k * ps) (zlen data)).
    + destruct Hat as [Hat|[? ?]]; [|lia]. destruct (Z.eqb_spec (Z.min ps (Z.max 0 (zlen data - im_pos f))) ps); [|nia].
      unfold got. by rewrite Hat.
    + destruct (Z.eqb_spec (Z.min ps (Z.max 0 (zlen data - im_pos f))) ps); [|done].
      destruct Hat as [Hat|[? ?]]; nia.
Qed.

Lemma read_pages_ok ps start count : 0 < ps -> 0 <= start -> forall i f,
  0 <= i -> start + i + Z.of_nat count <= UINT32_MAX -> no_errors f -> reads_from ps (start + i + 1) f ->
  exists g, read_pages ps start i count f = (image_pages (im_data f) ps (start + i + 1) (Z.of_nat count), g) /\
    no_errors g /\ im_data g = im_data f.
Proof.
  intros Hps Hs. induction count as [|count IH]; intros i f Hi Hb Hf Hr; cbn [read_pages].
  { exists f. done. }
  destruct (image_read_ok ps (start + i + 1) f Hps ltac:(lia) Hf Hr) as (got & g & -> & Hg & Ed & Hr' & ->).
  destruct (IH (i + 1) g) as (g' & -> & Hg' & Ed'); [lia|lia|done|by replace (start + (i + 1) + 1) with (start + i + 1 + 1) by lia|].
  exists g'. split_and!; [|done|congruence]. f_equal. rewrite Ed. unfold image_pages.
  rewrite (seqZ_cons (start + i + 1)) by lia. cbn [fmap list_fmap]. f_equal.
  - unfold u32. rewrite Z.mod_small by (unfold UINT32_MAX in *; lia). done.
  - f_equal. f_equal; lia.
Qed.

(** Without errors a chunk is the pages of the image. *)
Lemma read_db_pages_ok ps cursor chunk f :
  0 < ps <= UINT32_MAX -> 0 <= cursor -> 0 <= chunk -> cursor + chunk <= UINT32_MAX -> no_errors f ->
  exists g, read_db_pages ps cursor chunk f = (image_pages (im_data f) ps (cursor + 1) chunk, g) /\
    no_errors g /\ im_data g = im_data f.
Proof.
  intros Hps Hc Hn Hb Hf. unfold read_db_pages, image_seek.
  destruct (image_call_ok f Hf) as (g & -> & Hg & Ed & Ep). unfold u64. rewrite Z.mod_small by (unfold UINT32_MAX in *; nia).
  set (f1 := mkImage (im_data g) (cursor * ps) (im_calls g)).
  destruct (read_pages_ok ps cursor (Z.to_nat chunk) ltac:(lia) Hc 0 f1) as (g' & E & Hg' & Ed'); [lia|lia|done| |].
  - unfold reads_from, f1. cbn. split; [nia|left; f_equal; lia].
  - exists g'. cbn in E, Ed'. rewrite E, Ed'. rewrite Ed, Z.add_0_r, Z2Nat.id by lia. done.
Qed.

Lemma read_db_pages_shape ps cursor chunk f pages f' :
  0 <= ps -> 0 <= cursor -> 0 <= chunk -> cursor + chunk <= UINT32_MAX ->
  read_db_pages ps cursor chunk f = (pages, f') ->
  zlen pages = chunk /\ im_data f' = im_data f /\
  Forall (fun p => cursor < p.1 <= cursor + chunk /\ zlen p.2 = ps) pages.
Proof.
  intros Hps Hc Hn Hb H. unfold read_db_pages in H. apply read_pages_shape in H as (Hl & Ed & Hall & Hno); [|done].
  split_and!; [lia| |].
  - rewrite Ed. unfold image_seek, image_call. by destruct (im_calls f) as [|[|] ?].
  - apply Forall_lookup. intros k p Hk. rewrite Forall_lookup in Hall. destruct (Hall k p Hk) as [_ Hp].
    split; [|done]. rewrite (Hno k p Hk). apply lookup_lt_Some in Hk. unfold zlen in Hl. unfold u32.
    rewrite Z.mod_small by (unfold UINT32_MAX in *; lia). lia.
Qed.

Lemma chunk_ok ps db cursor chunk pages :
  0 < ps <= UINT32_MAX - 12 -> 0 <= cursor -> 0 < chunk <= CHECKPOINT_MAX_PAGES_PER_GROUP ->
  cursor + chunk <= db -> cursor + chunk <= UINT32_MAX -> db <= UINT64_MAX ->
  zlen pages = chunk -> Forall (fun p => cursor < p.1 <= cursor + chunk /\ zlen p.2 = ps) pages ->
  cp_ok ps db pages.
Proof.
  unfold CHECKPOINT_MAX_PAGES_PER_GROUP. intros Hps Hc Hn Hle Hb Hdb Hl Hall. unfold cp_ok. rewrite Hl.
  split_and!; try lia. eapply list.Forall_impl; [exact Hall|]. intros p [Hp1 Hp2]. unfold cp_page_ok. lia.
Qed.

(** ** Uploading *)

Section Upload.
Context `{HSha : Sha256} {S : Type} (store : otsardb_object_store S) (view : S -> contents)
        (Hlaws : StoreLaws store view quiet).
Context (root : bytes) (ps db : Z).
Context (Hps : 0 < ps <= UINT32_MAX - 12) (Hdb : db <= UINT64_MAX).

(** The object of a group is stored, matches its reference and reads as
    [pages]. *)
Definition group_stored (v : contents) (ref : otsardb_checkpoint_page_group_ref)
    (pages : list (Z * bytes)) : Prop :=
  exists key data pv, root_join root (pg_key ref) (OTSARDB_KEY_MAX + 1) = Some key /\
    holds v key data /\ otsardb_sha256_hex_data data = pg_sha256 ref /\ zlen data = pg_size ref /\
    otsardb_checkpoint_page_decode data = Some pv /\ cp_page_size pv = ps /\
    cp_page_count pv = zlen pages /\
    forall i f, pages !! i = Some f ->
      otsardb_checkpoint_page_frame pv (Z.of_nat i) = Some (f.1, false, f.2).

(** Only keys of groups from [idx] on differ. *)
Definition groups_frame (idx : Z) (v w : contents) : Prop :=
  forall k, (forall sha j, zlen sha = 64 -> idx <= j < 128 ->
               root_join root (group_suffix sha j) (OTSARDB_KEY_MAX + 1) <> Some k) ->
  w !! k = v !! k.

Lemma put_plain_ok key data s s' : put_plain store key data s = (inr tt, s') ->
  exists ob, so_data ob = data /\ view s' = <[key := ob]> (view s).
Proof.
  unfold put_plain, mbind_, mret_. destruct (otsardb_store_put store key data plain_put s) as [r s1] eqn:E.
  destruct (put_law _ _ _ _ _ _ E) as (w & <- & Hput). destruct r; [done|]. intros [= <-].
  destruct Hput as (_ & ob & ? & _ & ?). by exists ob.
Qed.

Lemma suffix_is_group_ok data idx :
  0 <= idx < 128 -> zlen (group_suffix (otsardb_sha256_hex_data data) idx) <= 128 ->
  page_group_size_valid (zlen data) ps = true -> is_u64 (zlen data) ->
  group_ok ps (mkGroupRef (group_suffix (otsardb_sha256_hex_data data) idx)
                 (otsardb_sha256_hex_data data) (zlen data)).
Proof.
  intros Hi Hl Hv Hu. pose proof (zlen_sha256_hex_data data) as Hs. unfold group_ok. cbn.
  assert (is_u64 idx) by (unfold is_u64, UINT64_MAX; lia).
  split_and!; try done.
  - apply text_field_ok; [|lia]. unfold group_suffix. rewrite !text_ok_app, hex_text_ok.
    unfold text_ok. by rewrite dec_noq, dec_no_nul.
  - apply text_field_ok; [apply hex_text_ok|lia].
Qed.

Lemma group_size_valid n : 0 < n -> page_group_size_valid (32 + n * (12 + ps)) ps = true.
Proof.
  intros Hn. unfold page_group_size_valid, OTSARDB_CHECKPOINT_PAGE_RECORD_HEADER_SIZE,
    OTSARDB_CHECKPOINT_PAGE_HEADER_SIZE.
  destruct (Z.ltb_spec (32 + n * (12 + ps)) (32 + (12 + ps))); [nia|].
  replace (32 + n * (12 + ps) - 32) with (n * (12 + ps)) by lia. rewrite Z.mod_mul by lia. done.
Qed.

Lemma upload_group_ok file cursor chunk idx s ref file' s' :
  upload_group store root file ps db cursor chunk idx s = (inr (ref, file'), s') -> no_errors file ->
  cursor = CHECKPOINT_MAX_PAGES_PER_GROUP * idx -> 0 <= idx ->
  0 < chunk <= CHECKPOINT_MAX_PAGES_PER_GROUP -> cursor + chunk <= db ->
  idx < 128 /\ groups_frame idx (view s) (view s') /\ group_ok ps ref /\
  (exists sha, zlen sha = 64 /\ pg_key ref = group_suffix sha idx) /\
  group_stored (view s') ref (image_pages (im_data file) ps (cursor + 1) chunk) /\
  no_errors file' /\ im_data file' = im_data file.
Proof.
  intros H Hne Hc Hi Hn Hle. unfold upload_group in H.
  destruct (read_db_pages ps cursor chunk file) as [pages file1] eqn:Er.
  destruct (otsardb_checkpoint_page_encode ps db pages.*1 (concat pages.*2)) as [data|] eqn:Ee; [|done].
  case_if_in H; [done|]. set (suffix := group_suffix _ idx) in *.
  destruct (root_join root suffix _) as [key|] eqn:Ek; [|done].
  unfold mbind_err, mbind_, mret_ in H. destruct (put_plain store key data s) as [[e|[]] s1] eqn:Ep; [done|].
  case_if_in H; [done|]. simplify_eq. prop_bools.
  unfold OTSARDB_CHECKPOINT_MAX_PAGE_GROUPS, OTSARDB_CHECKPOINT_PAGE_GROUP_KEY_MAX,
    CHECKPOINT_MAX_PAGES_PER_GROUP in *.
  destruct (read_db_pages_shape ps (4096 * idx) chunk file pages file') as (Hlen & _ & Hshape);
    [unfold UINT32_MAX in *; lia..|done|].
  destruct (read_db_pages_ok ps (4096 * idx) chunk file) as (g & Er' & Hg & Ed); [unfold UINT32_MAX in *; lia..|done|].
  rewrite Er in Er'. injection Er' as Epages <-.
  destruct (cp_encoded_reads ps db pages) as (data' & pv & He & Hsz & Hd & Hp & _ & Hcnt & Hf).
  { apply (chunk_ok ps db (4096 * idx) chunk); unfold CHECKPOINT_MAX_PAGES_PER_GROUP, UINT32_MAX in *; try lia; done. }
  rewrite Ee in He. simplify_eq. rewrite Hlen in Hsz.
  apply put_plain_ok in Ep as (ob & Hob & Hv). pose proof (zlen_sha256_hex_data data') as Hs.
  split_and!; [lia| | | | |done|done].
  - intros k Hk. rewrite Hv, lookup_insert_ne; [done|]. intros ->.
    by apply (Hk (otsardb_sha256_hex_data data') idx Hs ltac:(lia)).
  - apply suffix_is_group_ok; [lia|unfold suffix in *; lia| |]; rewrite Hsz; unfold OTSARDB_CP_HEADER_SIZE.
    + apply group_size_valid. lia.
    + unfold is_u64, UINT64_MAX, UINT32_MAX in *. nia.
  - by exists (otsardb_sha256_hex_data data').
  - exists key, data', pv. cbn. split_and!; try done. exists ob. split; [|done]. by rewrite Hv, lookup_insert_eq.
Qed.

Lemma holds_lookup v w k data : w !! k = v !! k -> holds v k data -> holds w k data.
Proof. intros E (ob & Hl & Hd). exists ob. by rewrite E. Qed.

Lemma group_stored_keep v w ref pages :
  (forall k, root_join root (pg_key ref) (OTSARDB_KEY_MAX + 1) = Some k -> w !! k = v !! k) ->
  group_stored v ref pages -> group_stored w ref pages.
Proof.
  intros Hk (key & data & pv & Hj & Hh & Hr). exists key, data, pv. split_and!; try apply Hr; [done|].
  eapply holds_lookup; [|done]. by apply Hk.
Qed.

Lemma group_frame_next idx sha v w k : zlen sha = 64 -> 0 <= idx < 128 ->
  groups_frame (idx + 1) v w ->
  root_join root (group_suffix sha idx) (OTSARDB_KEY_MAX + 1) = Some k -> w !! k = v !! k.
Proof.
  intros Hs Hi Hf Hk. apply Hf. intros sha' j Hs' Hj Hk'.
  pose proof (root_join_inj _ _ _ _ _ Hk Hk') as E. apply group_suffix_inj in E; unfold is_u64, UINT64_MAX; try done; lia.
Qed.

Definition group_keyed (ref : otsardb_checkpoint_page_group_ref) : Prop :=
  exists sha j, zlen sha = 64 /\ 0 <= j < 128 /\ pg_key ref = group_suffix sha j.

Lemma upload_groups_ok fuel : forall file cursor remaining idx s refs s',
  upload_groups store fuel root file ps db cursor remaining idx s = (inr refs, s') -> no_errors file ->
  cursor = CHECKPOINT_MAX_PAGES_PER_GROUP * idx -> 0 <= idx -> 0 <= remaining -> cursor + remaining = db ->
  groups_frame idx (view s) (view s') /\ Forall (group_ok ps) refs /\ Forall group_keyed refs /\
  (refs = [] \/ idx + zlen refs <= 128) /\
  exists chunks, Forall2 (group_stored (view s')) refs chunks /\
    concat chunks = image_pages (im_data file) ps (cursor + 1) remaining.
Proof.
  induction fuel as [|fuel IH]; intros file cursor remaining idx s refs s' H Hne Hc Hi Hr He;
    cbn [upload_groups] in H;
    destruct (Z.leb_spec remaining 0) as [Hz|Hz]; try done.
  1,2: unfold mret_ in H; injection H as <- <-; split_and!; auto; [by intros k _|]; exists [];
       split; [constructor|]; by replace remaining with 0 by lia.
  set (chunk := if _ <? remaining then _ else _) in H.
  assert (0 < chunk <= CHECKPOINT_MAX_PAGES_PER_GROUP /\ chunk <= remaining /\
          (chunk = CHECKPOINT_MAX_PAGES_PER_GROUP \/ chunk = remaining)) as (Hn & Hle & Hor).
  { unfold chunk. destruct (Z.ltb_spec CHECKPOINT_MAX_PAGES_PER_GROUP remaining);
      unfold CHECKPOINT_MAX_PAGES_PER_GROUP in *; lia. }
  unfold mbind_err, mbind_, mret_ in H.
  destruct (upload_group store root file ps db cursor chunk idx s) as [[e|[ref file1]] s1] eqn:Eu; [done|].
  destruct (upload_groups store fuel root file1 ps db _ _ _ s1) as [[e|refs'] s2] eqn:Eg; [done|].
  injection H as <- <-.
  apply upload_group_ok in Eu as (Hi' & Hf1 & Hok & (sha & Hs & Hkey) & Hst & Hne1 & Ed1); try lia; [|done].
  assert (remaining - chunk = 0 \/ chunk = CHECKPOINT_MAX_PAGES_PER_GROUP) as [Hlast|Hfull] by lia.
  - rewrite Hlast in Eg. destruct fuel; cbn [upload_groups] in Eg;
      change (0 <=? 0) with true in Eg; unfold mret_ in Eg; injection Eg as <- <-.
    all: split_and!; [done|by constructor|repeat constructor; exists sha, idx; split_and!; auto; lia
      |right; rewrite zlen_cons, zlen_nil; lia|].
    all: exists [image_pages (im_data file) ps (cursor + 1) chunk]; split;
      [repeat constructor; done|cbn; rewrite app_nil_r; f_equal; lia].
  - apply IH in Eg as (Hf2 & Hoks & Hkeys & Hlen & chunks & Hall & Hcat); try lia; [|done].
    split_and!.
    + intros k Hk. rewrite Hf2, Hf1; [done|done|]. intros sha' j ? ?. apply Hk; [done|lia].
    + by constructor.
    + constructor; [exists sha, idx; split_and!; auto; lia|done].
    + right. rewrite zlen_cons. destruct Hlen as [->|]; [rewrite zlen_nil; lia|lia].
    + exists (image_pages (im_data file) ps (cursor + 1) chunk :: chunks).
      split; [constructor; [|done]|].
      * eapply group_stored_keep; [|exact Hst]. intros k Hk. rewrite Hkey in Hk.
        by eapply group_frame_next; [..|exact Hk].
      * cbn. rewrite Hcat, Ed1. replace (cursor + chunk + 1) with (cursor + 1 + chunk) by lia.
        rewrite image_pages_app by lia. f_equal. lia.
Qed.
End Upload.

(** ** The whole build *)

Lemma manifest_size_is_u64 json m :
  otsardb_commit_manifest_decode_json json = Some m -> is_u64 (cm_database_size_pages m).
Proof.
  unfold otsardb_commit_manifest_decode_json. intros H. case_if_in H; [done|]. set (T := cstr json) in *.
  do 4 (destruct (extract_u64 T _) as [?|]; [|done]).
  destruct (extract_u64 T (str "database_size_pages")) as [db|] eqn:Edb; [|done].
  do 3 (destruct (extract_string _ _ _ _) as [?|]; [|done]).
  rename H into H'. destruct (decode_versioned T _ db) as [[[psha segs] cks]|]; [|done].
  case_if_in H'; [done|]. assert (cm_database_size_pages m = db) as ->; [|by eapply extract_u64_is].
  case_if_in H'; [destruct (decode_flat T); [|done]|]; (case_if_in H'; [|done]); by injection H' as <-.
Qed.

Lemma checkpoint_encode_inv `{Sha256} m json sha :
  otsardb_checkpoint_manifest_encode m = Some (json, sha) ->
  json = checkpoint_json m /\ sha = otsardb_sha256_hex_data json /\
  ck_database_id m <> [] /\ ck_base_commit_id m <> [] /\ 0 < zlen (ck_page_groups m) <= 128.
Proof.
  unfold otsardb_checkpoint_manifest_encode, OTSARDB_CHECKPOINT_MAX_PAGE_GROUPS. intros E.
  repeat (case_if_in E; [done|]). simplify_eq. prop_bools. pose proof (zlen_nonneg (ck_page_groups m)).
  split_and!; try done; try lia; intros En; by rewrite En in *.
Qed.

Section Build.
Context `{HSha : Sha256} {S : Type} (store : otsardb_object_store S) (view : S -> contents)
        (Hlaws : StoreLaws store view quiet).
Context (root : bytes) (Hroot : text_ok root = true).

Lemma read_head_manifest_ok s h m s' : read_head_manifest store root s = (inr (h, m), s') ->
  head_ok h /\ is_u64 (cm_database_size_pages m) /\ view s' = view s.
Proof.
  unfold read_head_manifest, mbind_, mret_.
  destruct (otsardb_journal_read_head store root s) as [[rc res] s1] eqn:Er.
  destruct (build_head_key root (OTSARDB_KEY_MAX + 1)) as [hk|] eqn:Ek.
  2:{ unfold otsardb_journal_read_head in Er. rewrite Ek in Er. unfold mret_ in Er. by simplify_eq. }
  destruct (read_head_outcome store view quiet _ _ _ _ _ _ Ek Er) as [Hv Hr].
  destruct rc; try done. destruct Hr as (ob & h' & e & Hres & _ & Hd & _). rewrite Hres.
  destruct (otsardb_store_get store (hd_commit_key h') s1) as [[er|ob'] s2] eqn:Eg; [done|].
  destruct (get_law _ _ _ _ Eg) as (Hv' & _).
  destruct (otsardb_commit_manifest_decode_json (so_data ob')) as [m'|] eqn:Em; [|done].
  intros H. simplify_eq. split_and!; [by eapply head_decode_ok|by eapply manifest_size_is_u64|by rewrite <- Hv'].
Qed.

Lemma pointer_of_ok m sha key :
  text_ok key = true -> 0 < zlen key < 1024 -> zlen sha = 64 -> text_ok sha = true ->
  is_u64 (ck_covered_generation m) -> field_ok 64 (ck_database_id m) = true -> ck_database_id m <> [] ->
  snprintf_s 65 sha = sha /\ snprintf_s 1024 key = key /\
  snprintf_s 64 (ck_database_id m) = ck_database_id m /\
  pointer_ok (mkPointer (ck_covered_generation m) sha key (ck_database_id m)).
Proof.
  intros Hk Hkl Hs Hst Hg Hd Hne. pose proof (field_ok_split _ _ Hd) as (_ & _ & Hdl).
  rewrite !snprintf_s_fits by lia. unfold pointer_ok. cbn. split_and!; try done.
  - apply text_field_ok; [done|lia].
  - intros ->. by rewrite zlen_nil in Hs.
  - apply text_field_ok; [done|lia].
  - intros ->. change (0 < 0 < 1024) in Hkl. lia.
Qed.

Lemma publish_checkpoint_ok m s s' :
  publish_checkpoint store root m s = (inr tt, s') ->
  is_u64 (ck_covered_generation m) -> field_ok 64 (ck_database_id m) = true ->
  ck_database_id m <> [] /\ ck_base_commit_id m <> [] /\ 0 < zlen (ck_page_groups m) <= 128 /\
  exists sha mk pk ob1 ob2 ptr,
    sha = otsardb_sha256_hex_data (checkpoint_json m) /\ pointer_ok ptr /\
    ptr = mkPointer (ck_covered_generation m) sha mk (ck_database_id m) /\
    root_join root (checkpoint_suffix sha) (OTSARDB_KEY_MAX + 1) = Some mk /\
    root_join root (str "CHECKPOINT.json") (OTSARDB_KEY_MAX + 1) = Some pk /\
    so_data ob1 = checkpoint_json m /\ so_data ob2 = otsardb_checkpoint_ptr_encode ptr /\
    view s' = <[pk := ob2]> (<[mk := ob1]> (view s)).
Proof.
  unfold publish_checkpoint. intros H Hg Hd.
  destruct (otsardb_checkpoint_manifest_encode m) as [[json sha]|] eqn:Ee; [|done].
  apply checkpoint_encode_inv in Ee as (-> & -> & Hne & Hbne & Hn).
  set (json := checkpoint_json m) in *. set (sha := otsardb_sha256_hex_data json) in *.
  case_if_in H; [done|]. destruct (root_join root (checkpoint_suffix sha) _) as [mk|] eqn:Emk; [|done].
  unfold mbind_err, mbind_, mret_ in H. destruct (put_plain store mk json s) as [[|[]] s1] eqn:E1; [done|].
  destruct (root_join root (str "CHECKPOINT.json") _) as [pk|] eqn:Epk; [|done].
  apply put_plain_ok with (view := view) in H as (ob2 & H2 & Hv2); [|done].
  apply put_plain_ok with (view := view) in E1 as (ob1 & H1 & Hv1); [|done].
  destruct (root_join_spec _ _ _ _ Emk) as (Hl & sep & Hmk & Hsep).
  assert (text_ok mk = true) as Htk.
  { rewrite Hmk, !text_ok_app, Hroot. unfold checkpoint_suffix, sha. rewrite !text_ok_app, hex_text_ok.
    by destruct Hsep as [->| ->]. }
  destruct (pointer_of_ok m sha mk Htk Hl (zlen_sha256_hex_data json) (hex_text_ok json) Hg Hd Hne)
    as (E1 & E2 & E3 & Hp).
  split_and!; [done..|lia|lia|]. rewrite E1, E2, E3 in H2.
  exists sha, mk, pk, ob1, ob2, (mkPointer (ck_covered_generation m) sha mk (ck_database_id m)).
  split_and!; try done. by rewrite Hv2, Hv1.
Qed.
End Build.

Section Restorable.
Context `{HSha : Sha256} {S : Type} (store : otsardb_object_store S) (view : S -> contents)
        (Hlaws : StoreLaws store view quiet).
Context (root : bytes) (Hroot : text_ok root = true).

(** The pointer, the manifest and the groups of a checkpoint of [pages],
    covering [generation]. *)
Definition checkpoint_complete (v : contents) (ps generation db : Z) (pages : list (Z * bytes)) : Prop :=
  exists pk ptr json m chunks,
    build_checkpoint_key root (OTSARDB_KEY_MAX + 1) = Some pk /\
    holds v pk (otsardb_checkpoint_ptr_encode ptr) /\
    otsardb_checkpoint_ptr_decode (otsardb_checkpoint_ptr_encode ptr) = Some ptr /\
    pt_covered_generation ptr = generation /\
    holds v (pt_checkpoint_key ptr) json /\
    otsardb_sha256_hex_data json = pt_checkpoint_sha256 ptr /\
    otsardb_checkpoint_manifest_decode json = Some m /\
    ck_covered_generation m = generation /\ ck_page_size m = ps /\ ck_database_size_pages m = db /\
    Forall2 (group_stored root ps v) (ck_page_groups m) chunks /\ concat chunks = pages.

Lemma built_checkpoint_ok h ps db groups :
  head_ok h -> 0 < hd_generation h -> 0 < ps <= UINT32_MAX - 12 -> is_u64 db ->
  Forall (group_ok ps) groups ->
  let m := build_checkpoint h ps db groups in
  ck_database_id m <> [] -> ck_base_commit_id m <> [] -> 0 < zlen (ck_page_groups m) <= 128 ->
  checkpoint_ok m /\ is_u64 (ck_covered_generation m) /\ field_ok 64 (ck_database_id m) = true.
Proof.
  intros (_ & Hg & Hd & Hc & _ & Hs) Hg0 Hps Hdb Hall m. subst m. unfold build_checkpoint, checkpoint_ok.
  cbn. pose proof (field_ok_split _ _ Hd) as (_ & _ & ?). pose proof (field_ok_split _ _ Hc) as (_ & _ & ?).
  pose proof (field_ok_split _ _ Hs) as (_ & _ & ?). rewrite !snprintf_s_fits by done.
  intros. unfold is_u64, UINT32_MAX in *. split_and!; done || lia.
Qed.

Lemma groups_under_publish v mk pk ob1 ob2 ps refs chunks sha :
  zlen sha = 64 -> root_join root (checkpoint_suffix sha) (OTSARDB_KEY_MAX + 1) = Some mk ->
  root_join root (str "CHECKPOINT.json") (OTSARDB_KEY_MAX + 1) = Some pk ->
  Forall group_keyed refs -> Forall2 (group_stored root ps v) refs chunks ->
  Forall2 (group_stored root ps (<[pk := ob2]> (<[mk := ob1]> v))) refs chunks.
Proof.
  intros Hs Hmk Hpk Hkeys Hall. induction Hall as [|ref pages refs chunks Hst _ IH]; [constructor|].
  apply list.Forall_cons in Hkeys as [(sha' & j & Hs' & Hj & Hkey) Hkeys].
  constructor; [|by apply IH]. eapply group_stored_keep; [|exact Hst].
  intros k Hk. rewrite Hkey in Hk. rewrite !lookup_insert_ne; [done| |]; intros ->.
  - pose proof (root_join_inj _ _ _ _ _ Hk Hmk) as E. by eapply group_not_manifest in E.
  - pose proof (root_join_inj _ _ _ _ _ Hk Hpk) as E. done.
Qed.

Lemma build_tail file h ps db s1 s2 s3 groups : no_errors file ->
  head_ok h -> 0 < hd_generation h -> 0 < ps <= UINT32_MAX - 12 -> is_u64 db ->
  upload_groups store group_fuel root file ps db 0 db 0 s1 = (inr groups, s2) ->
  publish_checkpoint store root (build_checkpoint h ps db groups) s2 = (inr tt, s3) ->
  checkpoint_complete (view s3) ps (hd_generation h) db (image_pages (im_data file) ps 1 db).
Proof.
  intros Hne0 Hh Hg Hps [Hdb0 Hdb] Hup Hpub.
  destruct (upload_groups_ok store view Hlaws root ps db Hps Hdb _ _ _ _ _ _ _ _ Hup Hne0)
    as (_ & Hoks & Hkeys & _ & chunks & Hall & Hcat); try done.
  assert (is_u64 (hd_generation h) /\ field_ok 64 (snprintf_s 64 (hd_database_id h)) = true) as [Hg' Hd'].
  { destruct Hh as (_ & ? & Hd & _). split; [done|]. pose proof (field_ok_split _ _ Hd) as (_ & _ & ?).
    by rewrite snprintf_s_fits. }
  destruct (publish_checkpoint_ok store view Hlaws root Hroot _ _ _ Hpub Hg' Hd')
    as (Hne & Hbne & Hn & sha & mk & pk & ob1 & ob2 & ptr & Hsha & Hp & Hptr & Hmk & Hpk & H1 & H2 & Hv).
  destruct (built_checkpoint_ok h ps db groups) as (Hok & _); try done.
  assert (zlen sha = 64) as Hs by (rewrite Hsha; apply zlen_sha256_hex_data).
  assert (mk <> pk) as Hmp.
  { intros E. rewrite E in Hmk. by pose proof (root_join_inj _ _ _ _ _ Hmk Hpk). }
  exists pk, ptr, (checkpoint_json (build_checkpoint h ps db groups)), (build_checkpoint h ps db groups), chunks.
  rewrite Hv. split_and!; try done.
  - exists ob2. by rewrite lookup_insert_eq.
  - by apply pointer_decodes.
  - by rewrite Hptr.
  - rewrite Hptr. exists ob1. cbn. by rewrite lookup_insert_ne, lookup_insert_eq.
  - by rewrite Hptr.
  - by apply checkpoint_decodes.
  - by eapply groups_under_publish.
Qed.

Lemma build_run restore opens calls s s' :
  otsardb_checkpoint_build store restore opens calls root s = (inr tt, s') ->
  exists f s0 md s1 h hm s2 groups s3, restore s = (Some f, s0) /\
    otsardb_db_metadata_read store root s0 = ((OTSARDB_METADATA_OK, Some md), s1) /\
    read_head_manifest store root s1 = (inr (h, hm), s2) /\
    upload_groups store group_fuel root (mkImage f 0 calls) (md_page_size md) (cm_database_size_pages hm) 0
      (cm_database_size_pages hm) 0 s2 = (inr groups, s3) /\
    publish_checkpoint store root
      (build_checkpoint h (md_page_size md) (cm_database_size_pages hm) groups) s3 = (inr tt, s').
Proof.
  unfold otsardb_checkpoint_build, mbind_err, mbind_, mret_. destruct (restore s) as [[f|] s0]; [|done].
  destruct (otsardb_db_metadata_read store root s0) as [[rc md] s1] eqn:Emd.
  destruct rc, md as [md|]; try done.
  destruct (read_head_manifest store root s1) as [[|[h hm]] s2] eqn:Eh; [done|].
  destruct (_ =? 0); [done|]. destruct (negb opens); [done|].
  destruct (upload_groups _ _ _ _ _ _ _ _ _ s2) as [[|groups] s3] eqn:Eu; [done|]. intros H.
  by exists f, s0, md, s1, h, hm, s2, groups, s3.
Qed.
End Restorable.

(** C29. A checkpoint build that reports success, when nobody else writes and no
    call on the image file failed, leaves a complete checkpoint of the restored
    image: the pointer decodes and names the stored checkpoint manifest by key and
    digest; the manifest decodes with the page size of the metadata, the size of
    the head's manifest and the generation of HEAD; and its page groups, each
    stored with the recorded digest and size, hold exactly the pages 1 .. n of the
    image, in order, page k being bytes (k-1)*ps .. k*ps of the file (a page that
    the file does not reach to the end of is a page of zeros). *)
Theorem checkpoint_build_restorable `{HSha : Sha256} {S} (store : otsardb_object_store S) view
    (Hlaws : StoreLaws store view quiet) (restore : M S (option bytes)) opens calls (root file : bytes)
    s s0 md s1 h hm s2 s' :
  text_ok root = true -> restore s = (Some file, s0) -> Forall (fun c => c = None) calls ->
  otsardb_db_metadata_read store root s0 = ((OTSARDB_METADATA_OK, Some md), s1) ->
  read_head_manifest store root s1 = (inr (h, hm), s2) ->
  0 < md_page_size md <= UINT32_MAX - 12 -> 0 < hd_generation h ->
  otsardb_checkpoint_build store restore opens calls root s = (inr tt, s') ->
  checkpoint_complete root (view s') (md_page_size md) (hd_generation h) (cm_database_size_pages hm)
    (image_pages file (md_page_size md) 1 (cm_database_size_pages hm)).
Proof.
  intros Hroot Hres Hcalls Hmd Hh Hps Hg Hb.
  destruct (build_run store root restore opens calls s s' Hb)
    as (f & s0' & md' & s1' & h' & hm' & s2' & groups & s3 & E1 & E2 & E3 & Eu & Ep).
  rewrite Hres in E1. injection E1 as <- <-. rewrite Hmd in E2. injection E2 as <- <-.
  rewrite Hh in E3. injection E3 as <- <- <-.
  destruct (read_head_manifest_ok store view Hlaws root s1 h hm s2 Hh) as (Hok & Hdb & _).
  by apply (build_tail store view Hlaws root Hroot (mkImage file 0 calls) h _ _ s2 s3 s' groups).
Qed.

(** ** Too many groups *)

Section Overflow.
Context `{HSha : Sha256} {S : Type} (store : otsardb_object_store S).
Context (Hput : forall key data s, exists e s', otsardb_store_put store key data plain_put s = (inr e, s')).
Context (root : bytes) (Hroot : zlen root <= 900).
Context (ps db : Z) (Hps : 0 < ps <= 65536) (Hdb : 524288 < db <= UINT32_MAX).

Lemma root_join_short suffix : 0 < zlen suffix <= 120 -> exists k, root_join root suffix (OTSARDB_KEY_MAX + 1) = Some k.
Proof.
  intros Hs. pose proof (zlen_nonneg root). unfold root_join, OTSARDB_KEY_MAX.
  match goal with |- context [root ++ (if ?b then _ else _) ++ _] =>
    assert (0 <= zlen (if b then str "/" else []) <= 1) by (by destruct b) end.
  rewrite !zlen_app. eexists.
  match goal with |- (if ?b then _ else _) = _ => assert (b = true) as -> end; [|done].
  apply andb_true_intro. split; apply Z.ltb_lt; lia.
Qed.

Lemma zlen_dec_fuel fuel : forall n acc, zlen (dec_fuel fuel n acc) <= Z.of_nat fuel + zlen acc.
Proof.
  induction fuel as [|fuel IH]; intros n acc; cbn [dec_fuel]; [lia|].
  case_match; [rewrite zlen_cons; lia|]. etrans; [apply IH|]. rewrite zlen_cons. lia.
Qed.

Lemma upload_group_total file cursor chunk idx s :
  cursor = CHECKPOINT_MAX_PAGES_PER_GROUP * idx -> 0 <= idx -> 0 < chunk <= CHECKPOINT_MAX_PAGES_PER_GROUP ->
  cursor + chunk <= db ->
  exists ref s', upload_group store root file ps db cursor chunk idx s
    = (if OTSARDB_CHECKPOINT_MAX_PAGE_GROUPS <=? idx then inl BUILD_OUT_OF_BOUNDS else inr ref, s').
Proof.
  intros Hc Hi Hn Hle. unfold upload_group. destruct (read_db_pages ps cursor chunk file) as [pages file'] eqn:Er.
  apply read_db_pages_shape in Er as (Hlen & _ & Hshape); [|unfold CHECKPOINT_MAX_PAGES_PER_GROUP in *; lia..].
  destruct (cp_encoded_reads ps db pages) as (data & _ & He & _).
  { apply (chunk_ok ps db cursor chunk); unfold CHECKPOINT_MAX_PAGES_PER_GROUP, UINT32_MAX, UINT64_MAX in *; try lia; done. }
  rewrite He. set (sha := otsardb_sha256_hex_data data).
  assert (0 < zlen (group_suffix sha idx) <= 120) as Hs.
  { unfold group_suffix, sha, dec. rewrite !zlen_app, zlen_sha256_hex_data.
    pose proof (zlen_dec_fuel 20 idx []). pose proof (zlen_nonneg (dec_fuel 20 idx [])).
    rewrite zlen_nil in *. change (zlen (str "checkpoints/")) with 12. change (zlen (str "/page-")) with 6.
    change (zlen (str ".otscp")) with 6. lia. }
  destruct (Z.leb_spec (OTSARDB_CHECKPOINT_PAGE_GROUP_KEY_MAX + 1) (zlen (group_suffix sha idx))) as [Hx|_];
    [unfold OTSARDB_CHECKPOINT_PAGE_GROUP_KEY_MAX in Hx; lia|].
  destruct (root_join_short _ Hs) as [key ->]. unfold mbind_err, put_plain, mbind_, mret_.
  destruct (Hput key data s) as (e & s' & ->). eexists (_, _), s'. by destruct (_ <=? idx).
Qed.

Lemma upload_groups_overflow fuel : forall file idx s,
  0 <= idx <= 128 -> 128 - idx < Z.of_nat fuel ->
  fst (upload_groups store fuel root file ps db (CHECKPOINT_MAX_PAGES_PER_GROUP * idx)
         (db - CHECKPOINT_MAX_PAGES_PER_GROUP * idx) idx s) = inl BUILD_OUT_OF_BOUNDS.
Proof.
  induction fuel as [|fuel IH]; intros file idx s Hi Hf; [lia|]. cbn [upload_groups].
  pose proof (eq_refl : CHECKPOINT_MAX_PAGES_PER_GROUP = 4096) as E4.
  destruct (Z.leb_spec (db - CHECKPOINT_MAX_PAGES_PER_GROUP * idx) 0); [lia|].
  set (chunk := if _ <? _ then _ else _).
  assert (0 < chunk <= CHECKPOINT_MAX_PAGES_PER_GROUP /\
          CHECKPOINT_MAX_PAGES_PER_GROUP * idx + chunk <= db /\ (idx < 128 -> chunk = CHECKPOINT_MAX_PAGES_PER_GROUP))
    as (Hn & Hle & Hfull).
  { unfold chunk. destruct (Z.ltb_spec CHECKPOINT_MAX_PAGES_PER_GROUP (db - CHECKPOINT_MAX_PAGES_PER_GROUP * idx)); lia. }
  unfold mbind_err, mbind_, mret_.
  destruct (upload_group_total file _ _ _ s eq_refl (proj1 Hi) Hn Hle) as ([ref file'] & s' & ->).
  destruct (Z.leb_spec OTSARDB_CHECKPOINT_MAX_PAGE_GROUPS idx) as [Hge|Hlt]; [done|].
  unfold OTSARDB_CHECKPOINT_MAX_PAGE_GROUPS in Hlt. rewrite Hfull by lia.
  specialize (IH file' (idx + 1) s' ltac:(lia) ltac:(lia)).
  replace (CHECKPOINT_MAX_PAGES_PER_GROUP * (idx + 1))
    with (CHECKPOINT_MAX_PAGES_PER_GROUP * idx + CHECKPOINT_MAX_PAGES_PER_GROUP) in IH by lia.
  replace (db - CHECKPOINT_MAX_PAGES_PER_GROUP * idx - CHECKPOINT_MAX_PAGES_PER_GROUP)
    with (db - (CHECKPOINT_MAX_PAGES_PER_GROUP * idx + CHECKPOINT_MAX_PAGES_PER_GROUP)) by lia.
  destruct (upload_groups _ _ _ _ _ _ _ _ _ s') as [[e|refs] s2]; [done|by cbn in IH].
Qed.
End Overflow.

(** The array of page groups has 128 entries and the loop that fills it has
    no bound of its own: on a store that accepts every put, checkpointing a
    database of more than 524,288 pages writes past the end of the array. *)
Theorem checkpoint_build_group_overflow `{HSha : Sha256} {S} (store : otsardb_object_store S)
    (restore : M S (option bytes)) calls (root file : bytes) s s0 md s1 h hm s2 :
  (forall key data s, exists e s', otsardb_store_put store key data plain_put s = (inr e, s')) ->
  zlen root <= 900 -> restore s = (Some file, s0) ->
  otsardb_db_metadata_read store root s0 = ((OTSARDB_METADATA_OK, Some md), s1) ->
  read_head_manifest store root s1 = (inr (h, hm), s2) ->
  0 < md_page_size md <= 65536 -> 524288 < cm_database_size_pages hm <= UINT32_MAX ->
  fst (otsardb_checkpoint_build store restore true calls root s) = inl BUILD_OUT_OF_BOUNDS.
Proof.
  intros Hput Hroot Hres Hmd Hh Hps Hdb. unfold otsardb_checkpoint_build, mbind_err, mbind_, mret_.
  rewrite Hres, Hmd, Hh. destruct (Z.eqb_spec (cm_database_size_pages hm) 0); [lia|]. cbn [negb].
  pose proof (upload_groups_overflow store Hput root Hroot _ _ Hps Hdb group_fuel (mkImage file 0 calls) 0 s2
    ltac:(lia) ltac:(unfold group_fuel; lia)) as Hu.
  rewrite Z.mul_0_r, Z.sub_0_r in Hu.
  destruct (upload_groups _ _ _ _ _ _ _ _ _ s2) as [[e|refs] s3]; cbn in Hu |- *; by simplify_eq.
Qed.

(** ** Sample databases *)

Module BuildSample.
Definition parsed (db : Z) : otsardb_commit_manifest :=
  mkManifest 4 1 0 4 db (str "db-1") (str "c-1") [] []
    [mkSegmentRef (str "segments/s") (replicate 64 97) 600 [1] None] [].
Definition manifest (db : Z) : bytes := manifest_json (parsed db).
Definition head (db : Z) : otsardb_head :=
  mkHead 1 1 (str "db-1") (str "c-1") (str "db/commits/c-1.json")
    (otsardb_sha256_hex_data (manifest db)).
Definition metadata : otsardb_db_metadata := mkMetadata 1 4 (str "db-1").
Definition object (data : bytes) : otsardb_store_object := mkObject data (Some (str "e")) 0.
Definition objects (db : Z) : contents :=
  <[str "db/db.json" := object (default [] (otsardb_db_metadata_encode_json metadata))]>
  (<[str "db/HEAD.json" := object (otsardb_head_encode_json (head db))]>
  (<[str "db/commits/c-1.json" := object (manifest db)]> ∅)).
Definition start : mem := mkMem (objects 2) 0 0 [].
Definition image : bytes := [1; 2; 3; 4; 5; 6].

(** A store with fixed contents whose puts always succeed. *)
Definition sink (v : contents) : otsardb_object_store unit :=
  mkStore (Some (fun key => mret_ (match v !! key with Some ob => inr ob
                                   | None => inl OTSARDB_STORE_NOT_FOUND end)))
    None (Some (fun _ _ _ => mret_ (inr None))) None None None CAPS_ALL.
End BuildSample.

Lemma checkpoint_build_restorable_witness :
  checkpoint_complete demo_root
    (m_objects (snd (otsardb_checkpoint_build (mem_store CAPS_ALL) (mret_ (Some BuildSample.image))
                       true [None] demo_root BuildSample.start))) 4 1 2 [(1, [1; 2; 3; 4]); (2, [0; 0; 0; 0])].
Proof.
  apply (checkpoint_build_restorable (mem_store CAPS_ALL) m_objects (mem_store_laws CAPS_ALL)
    (mret_ (Some BuildSample.image)) true [None] demo_root BuildSample.image BuildSample.start BuildSample.start
    BuildSample.metadata BuildSample.start (BuildSample.head 2) (BuildSample.parsed 2)
    BuildSample.start).
  - reflexivity.
  - reflexivity.
  - repeat constructor.
  - vm_compute. reflexivity.
  - vm_compute. reflexivity.
  - vm_compute. split; [reflexivity|discriminate].
  - reflexivity.
  - apply run_fst. vm_compute. reflexivity.
Defined.

Lemma checkpoint_build_group_overflow_witness :
  fst (otsardb_checkpoint_build (BuildSample.sink (BuildSample.objects 600000))
         (mret_ (Some BuildSample.image)) true [] demo_root tt) = inl BUILD_OUT_OF_BOUNDS.
Proof.
  apply (checkpoint_build_group_overflow (BuildSample.sink (BuildSample.objects 600000))
    (mret_ (Some BuildSample.image)) [] demo_root BuildSample.image tt tt BuildSample.metadata tt
    (BuildSample.head 600000) (BuildSample.parsed 600000) tt).
  - intros key data []. exists None, tt. reflexivity.
  - vm_compute. discriminate.
  - reflexivity.
  - vm_compute. reflexivity.
  - vm_compute. reflexivity.
  - vm_compute. split; [reflexivity|discriminate].
  - vm_compute. split; [reflexivity|discriminate].
Defined.

(** ** Errors of the image file *)

(** An error while the image is read is taken for the end of the file, and the
    stream is not put back in place: the build still succeeds and publishes a
    checkpoint whose first page is zeros and whose second page starts in the
    middle of the first. A failed [fseek] is not noticed either. *)
Theorem checkpoint_build_hides_read_error :
  (exists s', otsardb_checkpoint_build (mem_store CAPS_ALL) (mret_ (Some [1; 2; 3; 4; 5; 6; 7; 8])) true
                [None; Some 2] demo_root BuildSample.start = (inr tt, s')) /\
  fst (read_db_pages 4 0 2 (mkImage [1; 2; 3; 4; 5; 6; 7; 8] 0 [None; Some 2])) = [(1, [0; 0; 0; 0]); (2, [3; 4; 5; 6])] /\
  fst (read_db_pages 4 1 1 (mkImage [1; 2; 3; 4; 5; 6; 7; 8] 0 [Some 0])) = [(2, [1; 2; 3; 4])].
Proof. split_and!; [|vm_compute; reflexivity..]. eexists. apply run_fst. vm_compute. reflexivity. Qed.
