(* ===== verification/AesGcm.v ===== *)
(** * AES-256-GCM in portable C (aes_gcm_pure.c)

    The key schedule, the block cipher, GHASH on a pair of 64-bit halves, the
    counter mode and the authenticated encryption of the WebAssembly build.
    Decryption accepts exactly the pairs that encryption produces. *)

From S2P Require Import Prelude Codec.

Definition SBOX : list Z := concat [
  [0x63; 0x7c; 0x77; 0x7b; 0xf2; 0x6b; 0x6f; 0xc5];
  [0x30; 0x01; 0x67; 0x2b; 0xfe; 0xd7; 0xab; 0x76];
  [0xca; 0x82; 0xc9; 0x7d; 0xfa; 0x59; 0x47; 0xf0];
  [0xad; 0xd4; 0xa2; 0xaf; 0x9c; 0xa4; 0x72; 0xc0];
  [0xb7; 0xfd; 0x93; 0x26; 0x36; 0x3f; 0xf7; 0xcc];
  [0x34; 0xa5; 0xe5; 0xf1; 0x71; 0xd8; 0x31; 0x15];
  [0x04; 0xc7; 0x23; 0xc3; 0x18; 0x96; 0x05; 0x9a];
  [0x07; 0x12; 0x80; 0xe2; 0xeb; 0x27; 0xb2; 0x75];
  [0x09; 0x83; 0x2c; 0x1a; 0x1b; 0x6e; 0x5a; 0xa0];
  [0x52; 0x3b; 0xd6; 0xb3; 0x29; 0xe3; 0x2f; 0x84];
  [0x53; 0xd1; 0x00; 0xed; 0x20; 0xfc; 0xb1; 0x5b];
  [0x6a; 0xcb; 0xbe; 0x39; 0x4a; 0x4c; 0x58; 0xcf];
  [0xd0; 0xef; 0xaa; 0xfb; 0x43; 0x4d; 0x33; 0x85];
  [0x45; 0xf9; 0x02; 0x7f; 0x50; 0x3c; 0x9f; 0xa8];
  [0x51; 0xa3; 0x40; 0x8f; 0x92; 0x9d; 0x38; 0xf5];
  [0xbc; 0xb6; 0xda; 0x21; 0x10; 0xff; 0xf3; 0xd2];
  [0xcd; 0x0c; 0x13; 0xec; 0x5f; 0x97; 0x44; 0x17];
  [0xc4; 0xa7; 0x7e; 0x3d; 0x64; 0x5d; 0x19; 0x73];
  [0x60; 0x81; 0x4f; 0xdc; 0x22; 0x2a; 0x90; 0x88];
  [0x46; 0xee; 0xb8; 0x14; 0xde; 0x5e; 0x0b; 0xdb];
  [0xe0; 0x32; 0x3a; 0x0a; 0x49; 0x06; 0x24; 0x5c];
  [0xc2; 0xd3; 0xac; 0x62; 0x91; 0x95; 0xe4; 0x79];
  [0xe7; 0xc8; 0x37; 0x6d; 0x8d; 0xd5; 0x4e; 0xa9];
  [0x6c; 0x56; 0xf4; 0xea; 0x65; 0x7a; 0xae; 0x08];
  [0xba; 0x78; 0x25; 0x2e; 0x1c; 0xa6; 0xb4; 0xc6];
  [0xe8; 0xdd; 0x74; 0x1f; 0x4b; 0xbd; 0x8b; 0x8a];
  [0x70; 0x3e; 0xb5; 0x66; 0x48; 0x03; 0xf6; 0x0e];
  [0x61; 0x35; 0x57; 0xb9; 0x86; 0xc1; 0x1d; 0x9e];
  [0xe1; 0xf8; 0x98; 0x11; 0x69; 0xd9; 0x8e; 0x94];
  [0x9b; 0x1e; 0x87; 0xe9; 0xce; 0x55; 0x28; 0xdf];
  [0x8c; 0xa1; 0x89; 0x0d; 0xbf; 0xe6; 0x42; 0x68];
  [0x41; 0x99; 0x2d; 0x0f; 0xb0; 0x54; 0xbb; 0x16]].

Definition sbox (x : Z) : Z := nth (Z.to_nat x) SBOX 0.

Definition xtime (x : Z) : Z := Z.land (Z.lxor (Z.shiftl x 1) (Z.land (Z.shiftr x 7) 1 * 0x1b)) 255.

(** The word that is xored into word [i], before the xor. *)
Definition schedule_word (i : nat) (rcon : Z) (tmp : bytes) : bytes :=
  let at_ k := nth k tmp 0 in
  if (i mod 8 =? 0)%nat
  then [Z.lxor (sbox (at_ 1%nat)) rcon; sbox (at_ 2%nat); sbox (at_ 3%nat); sbox (at_ 0%nat)]
  else if (i mod 8 =? 4)%nat then sbox <$> tmp else tmp.

Definition xor_bytes (a b : bytes) : bytes := zip_with Z.lxor a b.

(** One word of the schedule: the round keys so far and the round constant. *)
Definition expand_step (st : bytes * Z) (i : nat) : bytes * Z :=
  let '(rk, rcon) := st in
  let tmp := schedule_word i rcon (take 4 (drop ((i - 1) * 4) rk)) in
  (rk ++ xor_bytes (take 4 (drop ((i - 8) * 4) rk)) tmp,
   if (i mod 8 =? 0)%nat then xtime rcon else rcon).

Definition aes256_expand_key (key : bytes) : bytes :=
  fst (foldl expand_step (key, 1) (seq 8 52)).

(** SubBytes and ShiftRows, by columns. *)
Definition sub_shift (s : bytes) : bytes :=
  let at_ k := sbox (nth (k mod 16) s 0) in
  c ← [0%nat; 1%nat; 2%nat; 3%nat];
  [at_ (c * 4)%nat; at_ (c * 4 + 5)%nat; at_ (c * 4 + 10)%nat; at_ (c * 4 + 15)%nat].

Definition mix_column (a0 a1 a2 a3 : Z) : bytes :=
  let xor4 p q r s := Z.lxor (Z.lxor (Z.lxor p q) r) s in
  [xor4 (xtime a0) (Z.lxor (xtime a1) a1) a2 a3;
   xor4 a0 (xtime a1) (Z.lxor (xtime a2) a2) a3;
   xor4 a0 a1 (xtime a2) (Z.lxor (xtime a3) a3);
   xor4 (Z.lxor (xtime a0) a0) a1 a2 (xtime a3)].

Definition mix_columns (t : bytes) : bytes :=
  let at_ k := nth k t 0 in
  c ← [0%nat; 4%nat; 8%nat; 12%nat];
  mix_column (at_ c) (at_ (c + 1)%nat) (at_ (c + 2)%nat) (at_ (c + 3)%nat).

Definition round_key (rk : bytes) (round : nat) : bytes := take 16 (drop (round * 16) rk).

Definition aes_round (rk s : bytes) (round : nat) : bytes :=
  xor_bytes (mix_columns (sub_shift s)) (round_key rk round).

Definition aes256_encrypt_block (rk inp : bytes) : bytes :=
  let s := foldl (aes_round rk) (xor_bytes inp (round_key rk 0)) (seq 1 13) in
  xor_bytes (sub_shift s) (round_key rk 14).

(** ** GHASH *)

Definition load_be64 (p : bytes) : Z :=
  foldl (fun v b => Z.lor (u64 (Z.shiftl v 8)) b) 0 (take 8 p).
Definition store_be64 (v : Z) : bytes := put_u64_be v.

Record u128 := mk128 { u_hi : Z; u_lo : Z }.

Definition xor128 (a b : u128) : u128 :=
  mk128 (Z.lxor (u_hi a) (u_hi b)) (Z.lxor (u_lo a) (u_lo b)).
Definition bit128 (y : u128) (i : Z) : Z :=
  Z.land (if 64 <=? i then Z.shiftr (u_hi y) (i - 64) else Z.shiftr (u_lo y) i) 1.

(** [X = X >> 1] with reduction. *)
Definition shift128 (x : u128) : u128 :=
  let lsb := Z.land (u_lo x) 1 in
  let lo := Z.lor (Z.shiftr (u_lo x) 1) (u64 (Z.shiftl (u_hi x) 63)) in
  let hi := Z.shiftr (u_hi x) 1 in
  mk128 (if lsb =? 0 then hi else Z.lxor hi 0xe100000000000000) lo.

(** The loop over the bits [n-1 .. 0] of [y]. *)
Fixpoint gf_loop (n : nat) (y x z : u128) : u128 :=
  match n with
  | O => z
  | S i => gf_loop i y (shift128 x) (if bit128 y (Z.of_nat i) =? 0 then z else xor128 z x)
  end.

Definition gf_mult (x y : u128) : u128 := gf_loop 128 y x (mk128 0 0).

Definition load128 (block : bytes) : u128 := mk128 (load_be64 block) (load_be64 (drop 8 block)).
Definition pad16 (block : bytes) : bytes := block ++ replicate (16 - length block) 0.

(** The block loop; every round takes at least one byte. *)
Fixpoint ghash_blocks (fuel : nat) (h128 y : u128) (data : bytes) : u128 :=
  match fuel with
  | O => y
  | S fuel' =>
      match data with
      | [] => y
      | _ => ghash_blocks fuel' h128 (gf_mult (xor128 y (load128 (pad16 (take 16 data)))) h128)
               (drop 16 data)
      end
  end.

Definition ghash (h aad ct : bytes) : bytes :=
  let h128 := load128 h in
  let y := ghash_blocks (length aad) h128 (mk128 0 0) aad in
  let y := ghash_blocks (length ct) h128 y ct in
  let lenb := store_be64 (u64 (zlen aad * 8)) ++ store_be64 (u64 (zlen ct * 8)) in
  let y := gf_mult (xor128 y (load128 lenb)) h128 in
  store_be64 (u_hi y) ++ store_be64 (u_lo y).

(** ** Counter mode *)

Definition ctrok (iv : bytes) (counter : Z) : bytes :=
  take 12 iv ++ [Z.land (Z.shiftr counter 24) 255; Z.land (Z.shiftr counter 16) 255;
                 Z.land (Z.shiftr counter 8) 255; Z.land counter 255].

(** Both directions run this loop; [counter] is a [uint32_t]. *)
Fixpoint ctr_loop (fuel : nat) (rk iv : bytes) (counter : Z) (data : bytes) : bytes :=
  match fuel with
  | O => []
  | S fuel' =>
      match data with
      | [] => []
      | _ => xor_bytes (take 16 data) (aes256_encrypt_block rk (ctrok iv counter)) ++
             ctr_loop fuel' rk iv (u32 (counter + 1)) (drop 16 data)
      end
  end.

(** The tag of a ciphertext. *)
Definition gcm_tag (rk iv aad ct : bytes) : bytes :=
  let h := aes256_encrypt_block rk (replicate 16 0) in
  let ej0 := aes256_encrypt_block rk (ctrok iv 1) in
  xor_bytes (ghash h aad ct) ej0.

Definition otsardb_aes_gcm_pure_encrypt (key iv aad plaintext : bytes) : bytes * bytes :=
  let rk := aes256_expand_key key in
  let ct := ctr_loop (length plaintext) rk iv 2 plaintext in
  (ct, gcm_tag rk iv aad ct).

Definition otsardb_aes_gcm_pure_decrypt (key iv aad ct tag : bytes) : option bytes :=
  let rk := aes256_expand_key key in
  let expect_tag := gcm_tag rk iv aad ct in
  let tag_ok := forallb (fun p => p.1 =? p.2) (combine expect_tag tag) in
  if negb tag_ok then None else Some (ctr_loop (length ct) rk iv 2 ct).

(** ** Lengths *)

Lemma length_xor_bytes a b : length (xor_bytes a b) = (length a `min` length b)%nat.
Proof. unfold xor_bytes. apply length_zip_with. Qed.

Lemma length_sub_shift s : length (sub_shift s) = 16%nat.
Proof. reflexivity. Qed.

Lemma length_schedule_word i rcon tmp : length tmp = 4%nat -> length (schedule_word i rcon tmp) = 4%nat.
Proof. intros H. unfold schedule_word. repeat case_match; [done|by rewrite length_fmap|done]. Qed.

Lemma expand_step_length rk rcon i :
  length rk = (4 * i)%nat -> (8 <= i)%nat -> length (fst (expand_step (rk, rcon) i)) = (4 * S i)%nat.
Proof.
  intros Hl Hi. cbn. rewrite length_app, length_xor_bytes, length_schedule_word;
    rewrite !length_take, !length_drop; lia.
Qed.

Lemma expand_steps_length n : forall i rk rcon,
  length rk = (4 * i)%nat -> (8 <= i)%nat ->
  length (fst (foldl expand_step (rk, rcon) (seq i n))) = (4 * (i + n))%nat.
Proof.
  induction n as [|n IH]; intros i rk rcon Hl Hi; cbn [seq foldl]; [cbn; lia|].
  pose proof (expand_step_length rk rcon i Hl Hi) as Hs.
  destruct (expand_step (rk, rcon) i) as [rk' rcon']. rewrite IH; cbn in Hs; lia.
Qed.

Lemma length_expand_key key : length key = 32%nat -> length (aes256_expand_key key) = 240%nat.
Proof. intros H. unfold aes256_expand_key. by rewrite (expand_steps_length 52 8). Qed.

Lemma length_encrypt_block rk inp :
  length rk = 240%nat -> length (aes256_encrypt_block rk inp) = 16%nat.
Proof.
  intros H. unfold aes256_encrypt_block, round_key.
  rewrite length_xor_bytes, length_sub_shift, length_take, length_drop. lia.
Qed.

Lemma length_ghash h aad ct : length (ghash h aad ct) = 16%nat.
Proof. reflexivity. Qed.

Lemma length_gcm_tag rk iv aad ct : length rk = 240%nat -> length (gcm_tag rk iv aad ct) = 16%nat.
Proof. intros H. unfold gcm_tag. by rewrite length_xor_bytes, length_ghash, length_encrypt_block. Qed.

(** ** Counter mode is an involution *)

Lemma xor_bytes_twice a k : (length a <= length k)%nat -> xor_bytes (xor_bytes a k) k = a.
Proof.
  revert k. induction a as [|x a IH]; intros [|y k] H; cbn in *; [done..|lia|].
  unfold xor_bytes in IH. rewrite IH by lia. by rewrite Z.lxor_assoc, Z.lxor_nilpotent, Z.lxor_0_r.
Qed.

Lemma ctr_loop_length rk iv : length rk = 240%nat -> forall fuel counter data,
  (length data <= fuel)%nat -> length (ctr_loop fuel rk iv counter data) = length data.
Proof.
  intros Hrk. induction fuel as [|fuel IH]; intros counter data Hf; [by destruct data; [|cbn in Hf; lia]|].
  cbn [ctr_loop]. destruct data as [|b data]; [done|]. set (d := b :: data) in *.
  rewrite length_app, length_xor_bytes, length_encrypt_block, length_take, IH by
    (try rewrite length_drop; unfold d in *; cbn in *; lia || done).
  rewrite length_drop. lia.
Qed.

Lemma ctr_loop_nil fuel rk iv counter : ctr_loop fuel rk iv counter [] = [].
Proof. by destruct fuel. Qed.

Lemma ctr_loop_step fuel rk iv counter data : data <> [] ->
  ctr_loop (S fuel) rk iv counter data
  = xor_bytes (take 16 data) (aes256_encrypt_block rk (ctrok iv counter)) ++
    ctr_loop fuel rk iv (u32 (counter + 1)) (drop 16 data).
Proof. by destruct data. Qed.

Lemma ctr_loop_twice rk iv : length rk = 240%nat -> forall fuel counter data,
  (length data <= fuel)%nat ->
  ctr_loop fuel rk iv counter (ctr_loop fuel rk iv counter data) = data.
Proof.
  intros Hrk. induction fuel as [|fuel IH]; intros counter data Hf; [by destruct data; [|cbn in Hf; lia]|].
  destruct (decide (data = [])) as [->|Hne]; [by rewrite !ctr_loop_nil|].
  rewrite (ctr_loop_step fuel rk iv counter data) by done.
  set (ks := aes256_encrypt_block rk (ctrok iv counter)).
  assert (length ks = 16%nat) as Hks by (by apply length_encrypt_block).
  assert (0 < length data)%nat by (destruct data; cbn; [done|lia]).
  set (blk := xor_bytes (take 16 data) ks). set (rest := ctr_loop fuel rk iv _ _).
  assert (length blk = (16 `min` length data)%nat) as Hb
    by (unfold blk; rewrite length_xor_bytes, length_take; lia).
  assert (length rest = (length data - 16)%nat) as Hr
    by (unfold rest; rewrite ctr_loop_length; rewrite ?length_drop; lia || done).
  assert (take 16 (blk ++ rest) = blk /\ drop 16 (blk ++ rest) = rest) as [Et Ed].
  { destruct (decide (16 <= length data)%nat).
    - rewrite take_app_exact, drop_app_exact by lia. done.
    - assert (rest = []) as -> by (apply nil_length_inv; lia). rewrite app_nil_r.
      rewrite take_ge, drop_ge by lia. done. }
  rewrite ctr_loop_step by (intros E; apply (f_equal length) in E; rewrite length_app in E; cbn in E; lia).
  rewrite Et, Ed. unfold blk. fold ks. rewrite xor_bytes_twice by (rewrite length_take; lia).
  unfold rest. rewrite IH by (rewrite length_drop; lia). apply take_drop.
Qed.

Lemma combine_eqb a b : length a = length b ->
  forallb (fun p => p.1 =? p.2) (combine a b) = true <-> a = b.
Proof.
  revert b. induction a as [|x a IH]; intros [|y b] H; cbn in *; try done.
  rewrite andb_true_iff, Z.eqb_eq, IH by lia. split; [by intros [-> ->]|by intros [= -> ->]].
Qed.

Lemma gcm_decrypt_exactly (key iv aad ct tag plaintext : bytes) :
  length key = 32%nat -> length tag = 16%nat ->
  otsardb_aes_gcm_pure_decrypt key iv aad ct tag = Some plaintext <->
  otsardb_aes_gcm_pure_encrypt key iv aad plaintext = (ct, tag).
Proof.
  intros Hk Ht. unfold otsardb_aes_gcm_pure_decrypt, otsardb_aes_gcm_pure_encrypt.
  pose proof (length_expand_key key Hk) as Hrk.
  revert Hrk. generalize (aes256_expand_key key) as rk. intros rk Hrk.
  assert (forallb (fun p => p.1 =? p.2) (combine (gcm_tag rk iv aad ct) tag) = true <->
          gcm_tag rk iv aad ct = tag) as Heq by (apply combine_eqb; rewrite length_gcm_tag; congruence).
  rewrite pair_equal_spec. split.
  - case_match eqn:E; [done|]. apply negb_false_iff, Heq in E. intros [= <-].
    rewrite ctr_loop_length, ctr_loop_twice by (assumption || lia). split; [reflexivity|exact E].
  - intros [Hct Hg]. rewrite Hct in Hg. apply Heq in Hg. rewrite Hg. cbn [negb].
    rewrite <- Hct, ctr_loop_length, ctr_loop_twice by (assumption || lia). reflexivity.
Qed.

(** C38. Authenticated decryption is the inverse of encryption and nothing more:
    under a 32-byte key, a ciphertext with a 16-byte tag decrypts to a
    plaintext exactly when encrypting that plaintext under the same key, IV and
    associated data gives this ciphertext and this tag. So every other tag,
    ciphertext, IV or associated data is refused unless it is what encryption
    itself would produce. *)
Theorem gcm_decrypt_iff_encrypt (key iv aad ct tag plaintext : bytes) :
  length key = 32%nat -> length tag = 16%nat ->
  otsardb_aes_gcm_pure_decrypt key iv aad ct tag = Some plaintext <->
  otsardb_aes_gcm_pure_encrypt key iv aad plaintext = (ct, tag).
Proof. apply gcm_decrypt_exactly. Qed.

(** ** The field multiplication on one 128-bit number *)

Definition half_ok (x : u128) : Prop := 0 <= u_hi x < 2 ^ 64 /\ 0 <= u_lo x < 2 ^ 64.
Definition join128 (x : u128) : Z := Z.lor (Z.shiftl (u_hi x) 64) (u_lo x).

(** Multiplication by X in the reflected representation of the field of 2^128
    elements modulo X^128 + X^7 + X^2 + X + 1. *)
Definition gf_shift (v : Z) : Z :=
  if Z.testbit v 0 then Z.lxor (Z.shiftr v 1) (Z.shiftl 0xe1 120) else Z.shiftr v 1.

(** The sum of [v * X^k] over the bits of [y], the most significant first. *)
Fixpoint gf_sum (n : nat) (y v : Z) : Z :=
  match n with
  | O => 0
  | S i => Z.lxor (if Z.testbit y (Z.of_nat i) then v else 0) (gf_sum i y (gf_shift v))
  end.

Lemma testbit_high a n i : 0 <= a < 2 ^ n -> 0 <= n <= i -> Z.testbit a i = false.
Proof.
  intros [Ha Hb] Hi. destruct (Z.eq_dec a 0) as [->|]; [apply Z.bits_0|].
  apply Z.bits_above_log2; [done|]. apply Z.log2_lt_pow2; [lia|].
  eapply Z.lt_le_trans; [exact Hb|]. apply Z.pow_le_mono_r; lia.
Qed.

Lemma join128_testbit x i : half_ok x -> 0 <= i ->
  Z.testbit (join128 x) i = if 64 <=? i then Z.testbit (u_hi x) (i - 64) else Z.testbit (u_lo x) i.
Proof.
  intros [Hh Hl] Hi. unfold join128. rewrite Z.lor_spec, Z.shiftl_spec by done.
  destruct (Z.leb_spec 64 i).
  - rewrite (testbit_high (u_lo x) 64) by (try done; lia). apply orb_false_r.
  - by rewrite (Z.testbit_neg_r _ (i - 64)) by lia.
Qed.

Lemma land_1_testbit a : (Z.land a 1 =? 0) = negb (Z.testbit a 0).
Proof.
  change 1 with (Z.ones 1). rewrite Z.land_ones, Z.bit0_odd, Zmod_odd by done. by destruct (Z.odd a).
Qed.

Lemma bit128_testbit y i : half_ok y -> 0 <= i -> (bit128 y i =? 0) = negb (Z.testbit (join128 y) i).
Proof.
  intros Hy Hi. unfold bit128. rewrite land_1_testbit, join128_testbit by done. f_equal.
  destruct (Z.leb_spec 64 i); rewrite Z.shiftr_spec by lia; done.
Qed.

Lemma join128_xor a b : join128 (xor128 a b) = Z.lxor (join128 a) (join128 b) \/ ~ (half_ok a /\ half_ok b).
Proof.
  destruct (decide (0 <= u_hi a < 2 ^ 64 /\ 0 <= u_lo a < 2 ^ 64 /\
                    0 <= u_hi b < 2 ^ 64 /\ 0 <= u_lo b < 2 ^ 64)) as [(?&?&?&?)|Hn];
    [left|right; unfold half_ok; tauto].
  assert (half_ok (xor128 a b)) by (split; cbn; apply lxor_bound; done).
  apply Z.bits_inj'. intros i Hi. rewrite Z.lxor_spec, !join128_testbit by done.
  cbn. by destruct (_ <=? _); rewrite Z.lxor_spec.
Qed.

Lemma shift128_ok x : half_ok x -> half_ok (shift128 x) /\ join128 (shift128 x) = gf_shift (join128 x).
Proof.
  intros Hx. pose proof Hx as [[Hh0 Hh] [Hl0 Hl]].
  assert (half_ok (shift128 x)) as Hs.
  { unfold shift128. assert (0 <= Z.shiftr (u_hi x) 1 < 2 ^ 64) by (apply shiftr_bound; done).
    split; cbn.
    - case_match; [done|]. apply lxor_bound; done.
    - assert (0 <= u64 (Z.shiftl (u_hi x) 63) < 2 ^ 64) by (unfold u64; apply Z.mod_pos_bound; lia).
      assert (0 <= Z.shiftr (u_lo x) 1 < 2 ^ 64) by (apply shiftr_bound; done).
      apply lor_bound; done. }
  split; [done|]. apply Z.bits_inj'. intros i Hi. rewrite join128_testbit by done.
  assert (Z.testbit (gf_shift (join128 x)) i
    = xorb (Z.testbit (join128 x) (i + 1)) (Z.testbit (u_lo x) 0 && Z.testbit 0xe100000000000000 (i - 64))) as ->.
  { unfold gf_shift. rewrite join128_testbit by done. cbn [Z.leb]. change (64 <=? 0) with false. cbv iota.
    replace (Z.shiftl 0xe1 120) with (Z.shiftl 0xe100000000000000 64) by reflexivity.
    destruct (Z.testbit (u_lo x) 0).
    - rewrite Z.lxor_spec, Z.shiftr_spec, Z.shiftl_spec by lia. done.
    - rewrite Z.shiftr_spec by lia. cbn. by rewrite xorb_false_r. }
  rewrite join128_testbit by (done || lia). unfold shift128. cbn [u_hi u_lo]. rewrite land_1_testbit.
  destruct (Z.leb_spec 64 i).
  - destruct (Z.leb_spec 64 (i + 1)); [|lia]. replace (i + 1 - 64) with (i - 64 + 1) by lia.
    destruct (Z.testbit (u_lo x) 0); cbn [negb andb].
    + rewrite Z.lxor_spec, Z.shiftr_spec by lia. done.
    + rewrite Z.shiftr_spec by lia. by rewrite xorb_false_r.
  - rewrite (Z.testbit_neg_r _ (i - 64)) by lia. rewrite andb_false_r, xorb_false_r.
    rewrite Z.lor_spec, Z.shiftr_spec by lia. unfold u64. rewrite Z.mod_pow2_bits_low, Z.shiftl_spec by lia.
    destruct (Z.leb_spec 64 (i + 1)).
    + replace i with 63 by lia. rewrite (testbit_high (u_lo x) 64) by lia. done.
    + rewrite (Z.testbit_neg_r _ (i - 63)) by lia. apply orb_false_r.
Qed.

Lemma gf_loop_sum n : forall y x z, half_ok y -> half_ok x -> half_ok z ->
  half_ok (gf_loop n y x z) /\
  join128 (gf_loop n y x z) = Z.lxor (join128 z) (gf_sum n (join128 y) (join128 x)).
Proof.
  induction n as [|n IH]; intros y x z Hy Hx Hz; cbn [gf_loop gf_sum]; [by rewrite Z.lxor_0_r|].
  destruct (shift128_ok x Hx) as [Hs Es]. rewrite bit128_testbit by (done || lia).
  assert (half_ok (xor128 z x)) as Hzx by (destruct Hz, Hx; split; cbn; apply lxor_bound; done).
  destruct (join128_xor z x) as [Ex|]; [|tauto].
  destruct (Z.testbit (join128 y) (Z.of_nat n)); cbn [negb].
  - destruct (IH y (shift128 x) (xor128 z x) Hy Hs Hzx) as [? ->]. split; [done|].
    by rewrite Ex, Es, Z.lxor_assoc.
  - destruct (IH y (shift128 x) z Hy Hs Hz) as [? ->]. split; [done|]. by rewrite Es, Z.lxor_0_l.
Qed.

(** The multiplication of GHASH on two 64-bit halves is the multiplication
    of the field of 2^128 elements on whole blocks: the sum, over the bits of
    [y] from the most significant one, of [x] shifted and reduced. *)
Theorem gf_mult_field (x y : u128) :
  half_ok x -> half_ok y -> join128 (gf_mult x y) = gf_sum 128 (join128 y) (join128 x).
Proof. intros Hx Hy. unfold gf_mult. by destruct (gf_loop_sum 128 y x (mk128 0 0)) as [_ ->]. Qed.

Lemma gf_mult_field_witness :
  join128 (gf_mult (mk128 (2 ^ 63) 0) (mk128 5 7)) = gf_sum 128 (join128 (mk128 5 7)) (2 ^ 127).
Proof. apply (gf_mult_field (mk128 (2 ^ 63) 0) (mk128 5 7)); unfold half_ok; cbn; lia. Defined.

(** The GCM test vector with associated data for a 256-bit key, as bytes. *)
Module Vector.
Definition key : bytes := put_be 16 0xfeffe9928665731c6d6a8f9467308308 ++
                          put_be 16 0xfeffe9928665731c6d6a8f9467308308.
Definition iv : bytes := put_be 12 0xcafebabefacedbaddecaf888.
Definition aad : bytes := put_be 20 0xfeedfacedeadbeeffeedfacedeadbeefabaddad2.
Definition plaintext : bytes :=
  put_be 32 0xd9313225f88406e5a55909c5aff5269a86a7a9531534f7da2e4c303d8a318a72 ++
  put_be 28 0x1c3c0c95956809532fcf0e2449a6b525b16aedf5aa0de657ba637b39.
Definition ciphertext : bytes :=
  put_be 32 0x522dc1f099567d07f47f37a32a84427d643a8cdcbfe5c0c97598a2bd2555d1aa ++
  put_be 28 0x8cb08e48590dbb3da7b08b1056828838c5f61e6393ba7a0abcc9f662.
Definition tag : bytes := put_be 16 0x76fc6ece0f4e1768cddf8853bb2d551b.
End Vector.

Example gcm_test_vector :
  otsardb_aes_gcm_pure_encrypt Vector.key Vector.iv Vector.aad Vector.plaintext
  = (Vector.ciphertext, Vector.tag).
Proof. vm_compute. reflexivity. Qed.

Lemma gcm_decrypt_iff_encrypt_witness :
  otsardb_aes_gcm_pure_decrypt Vector.key Vector.iv Vector.aad Vector.ciphertext Vector.tag
  = Some Vector.plaintext.
Proof.
  apply (gcm_decrypt_iff_encrypt Vector.key Vector.iv Vector.aad Vector.ciphertext Vector.tag
           Vector.plaintext).
  - reflexivity.
  - reflexivity.
  - vm_compute. reflexivity.
Defined.
