(* ===== verification/Cipher.v ===== *)
(** * Segment encryption (cipher.c)

    Keys, the [iv][ciphertext][tag] envelope and the [segment_enc] array of a
    manifest. The authenticated cipher itself is an interface: OpenSSL provides
    it in the native build, aes_gcm_pure.c in the WebAssembly build, and the
    latter is shown to satisfy it. *)

From S2P Require Import Prelude CText JsonText Journal Sha256 CommitManifest CommitPublish AesGcm.

Definition OTSARDB_CIPHER_KEY_BYTES : Z := 32.
Definition OTSARDB_CIPHER_KEY_HEX_LEN : Z := 64.
Definition OTSARDB_CIPHER_IV_BYTES : Z := 12.
Definition OTSARDB_CIPHER_TAG_BYTES : Z := 16.
Definition OTSARDB_CIPHER_OVERHEAD : Z := OTSARDB_CIPHER_IV_BYTES + OTSARDB_CIPHER_TAG_BYTES.
Definition OTSARDB_SEGMENT_ENC_MAX : Z := 128.

(** AES-256-GCM: key, IV, associated data, text. *)
Class Aead := {
  aead_encrypt : bytes -> bytes -> bytes -> bytes -> bytes * bytes;
  aead_decrypt : bytes -> bytes -> bytes -> bytes -> bytes -> option bytes;
  aead_iff : forall key iv aad ct tag plaintext, length key = 32%nat -> length tag = 16%nat ->
    aead_decrypt key iv aad ct tag = Some plaintext <-> aead_encrypt key iv aad plaintext = (ct, tag);
  aead_lengths : forall key iv aad plaintext, length key = 32%nat ->
    length (fst (aead_encrypt key iv aad plaintext)) = length plaintext /\
    length (snd (aead_encrypt key iv aad plaintext)) = 16%nat;
  aead_stream : forall key iv aad aad' plaintext,
    fst (aead_encrypt key iv aad plaintext) = fst (aead_encrypt key iv aad' plaintext)
}.

Definition hex_nibble (c : Z) : option Z :=
  if (48 <=? c) && (c <=? 57) then Some (c - 48)
  else if (97 <=? c) && (c <=? 102) then Some (c - 97 + 10)
  else if (65 <=? c) && (c <=? 70) then Some (c - 65 + 10)
  else None.

Definition otsardb_cipher_valid_hex_key (s : bytes) : bool :=
  (zlen s =? OTSARDB_CIPHER_KEY_HEX_LEN) &&
  forallb (fun c => bool_decide (is_Some (hex_nibble c))) s.

(** Two characters per byte; [None] at a character that is not a digit. *)
Fixpoint hex_bytes (text : bytes) : option bytes :=
  match text with
  | [] => Some []
  | hi :: lo :: rest =>
      match hex_nibble hi, hex_nibble lo with
      | Some h, Some l =>
          match hex_bytes rest with
          | Some bs => Some (Z.lor (Z.shiftl h 4) l :: bs)
          | None => None
          end
      | _, _ => None
      end
  | _ => None
  end.

Definition otsardb_cipher_create_from_hex (hex : bytes) : option bytes :=
  if negb (otsardb_cipher_valid_hex_key hex) then None else hex_bytes hex.

(** ** Envelopes *)

Section Envelope.
Context `{HA : Aead} (key : bytes).

(** [iv] is the fresh random IV. *)
Definition otsardb_cipher_encrypt_stream (iv plaintext : bytes) : option (bytes * bytes) :=
  if INT_MAX <? zlen plaintext then None
  else Some (iv, fst (aead_encrypt key iv [] plaintext)).

Definition otsardb_cipher_encrypt_with_aad (iv aad plaintext : bytes) : option (bytes * bytes) :=
  if (INT_MAX <? zlen plaintext) || (INT_MAX <? zlen aad) ||
     (SIZE_MAX - OTSARDB_CIPHER_OVERHEAD <? zlen plaintext)
  then None
  else let '(ct, tag) := aead_encrypt key iv aad plaintext in Some (iv ++ ct ++ tag, tag).

Definition otsardb_cipher_decrypt (data aad : bytes) : option bytes :=
  let size := zlen data in
  if size <? OTSARDB_CIPHER_OVERHEAD then None
  else if (INT_MAX <? size - OTSARDB_CIPHER_OVERHEAD) || (INT_MAX <? zlen aad) then None
  else
    let iv := take 12 data in
    let ciphertext_size := size - OTSARDB_CIPHER_OVERHEAD in
    let ciphertext := take (Z.to_nat ciphertext_size) (drop 12 data) in
    let tag := drop (Z.to_nat (12 + ciphertext_size)) data in
    aead_decrypt key iv aad ciphertext tag.

(** The cipher a publication uses: the IVs drawn by the random generator. *)
Definition session_cipher (random : Z -> bytes) : otsardb_cipher :=
  mkCipher (fun i plaintext => otsardb_cipher_encrypt_stream (random i) plaintext)
           otsardb_cipher_encrypt_with_aad.
End Envelope.

(** ** The [segment_enc] array *)

Definition is_json_space (c : Z) : bool := (c =? 32) || (c =? 9) || (c =? 10) || (c =? 13).

Definition enc_parse_hex (text : bytes) (out_len : Z) : option bytes :=
  if negb (zlen text =? out_len * 2) then None else hex_bytes text.

Definition ALG_MARKER : bytes := q "alg" ++ str ":" ++ [dq].
Definition IV_MARKER : bytes := str "," ++ q "iv" ++ str ":" ++ [dq].
Definition TAG_MARKER : bytes := str "," ++ q "tag" ++ str ":" ++ [dq].

(** After the opening brace of an encrypted entry. *)
Definition enc_parse_body (p : bytes) : option (otsardb_segment_enc_entry * bytes) :=
  match expect ALG_MARKER p with
  | None => None
  | Some p =>
      match split_at dq p with
      | None => None
      | Some (alg, p) =>
          if negb (bytes_eqb alg OTSARDB_CIPHER_ALG_NAME) then None
          else match expect IV_MARKER p with
          | None => None
          | Some p =>
              match split_at dq p with
              | None => None
              | Some (iv_hex, p) =>
                  match enc_parse_hex iv_hex OTSARDB_CIPHER_IV_BYTES, expect TAG_MARKER p with
                  | Some iv, Some p =>
                      match split_at dq p with
                      | None => None
                      | Some (tag_hex, p) =>
                          match enc_parse_hex tag_hex OTSARDB_CIPHER_TAG_BYTES,
                                eat 125 (skip_while is_json_space p) with
                          | Some tag, Some p => Some (mkEncEntry true alg iv tag, p)
                          | _, _ => None
                          end
                      end
                  | _, _ => None
                  end
              end
          end
      end
  end.

Definition enc_parse_entry (p : bytes) : option (otsardb_segment_enc_entry * bytes) :=
  match eat 123 (skip_while is_json_space p) with
  | None => None
  | Some p =>
      let p := skip_while is_json_space p in
      match eat 125 p with
      | Some p => Some (no_enc_entry, p)
      | None => enc_parse_body p
      end
  end.

(** The loop; [fuel] is the number of entries that still fit the array. When
    none fits any more the loop has consumed a comma, and only a bracket right
    after it is accepted. *)
Fixpoint enc_parse_entries (fuel : nat) (p : bytes) : option (list otsardb_segment_enc_entry) :=
  match fuel with
  | O => match eat 93 p with Some _ => Some [] | None => None end
  | S fuel' =>
      match enc_parse_entry p with
      | None => None
      | Some (e, p) =>
          let p := skip_while is_json_space p in
          match eat 93 p, eat 44 p with
          | Some _, _ => Some [e]
          | None, Some p =>
              match enc_parse_entries fuel' p with
              | Some es => Some (e :: es)
              | None => None
              end
          | None, None => None
          end
      end
  end.

(** [Some None]: no array (a plaintext manifest). *)
Definition otsardb_segment_enc_parse_json (json : bytes)
  : option (option (list otsardb_segment_enc_entry)) :=
  if zlen json =? 0 then None
  else match find_after (cstr json) (pattern (str "segment_enc") (str ":[")) with
  | None => Some None
  | Some p =>
      match enc_parse_entries (Z.to_nat OTSARDB_SEGMENT_ENC_MAX) p with
      | Some es => Some (Some es)
      | None => None
      end
  end.
