(* ===== verification/CipherTheory.v ===== *)
(** * Segment encryption: theorems

    Envelopes decrypt exactly when encryption produced them; the portable
    implementation satisfies the interface; and a manifest that carries a
    [segment_enc] array still decodes to itself, with the array read back. *)

From S2P Require Import Prelude CText JsonText ObjectStore Journal Sha256 CommitManifest.
From S2P Require Import CommitManifestTheory CommitPublish AesGcm Cipher.

(** ** The portable implementation *)

Lemma pure_gcm_iff key iv aad ct tag plaintext : length key = 32%nat -> length tag = 16%nat ->
  otsardb_aes_gcm_pure_decrypt key iv aad ct tag = Some plaintext <->
  otsardb_aes_gcm_pure_encrypt key iv aad plaintext = (ct, tag).
Proof. apply gcm_decrypt_exactly. Qed.

Lemma pure_gcm_lengths key iv aad plaintext : length key = 32%nat ->
  length (fst (otsardb_aes_gcm_pure_encrypt key iv aad plaintext)) = length plaintext /\
  length (snd (otsardb_aes_gcm_pure_encrypt key iv aad plaintext)) = 16%nat.
Proof.
  intros Hk. unfold otsardb_aes_gcm_pure_encrypt. cbn [fst snd].
  pose proof (length_expand_key key Hk) as Hrk. revert Hrk. generalize (aes256_expand_key key) as rk.
  intros rk Hrk. split; [apply ctr_loop_length; [assumption|lia]|by apply length_gcm_tag].
Qed.

Lemma pure_gcm_stream key iv aad aad' plaintext :
  fst (otsardb_aes_gcm_pure_encrypt key iv aad plaintext)
  = fst (otsardb_aes_gcm_pure_encrypt key iv aad' plaintext).
Proof. unfold otsardb_aes_gcm_pure_encrypt. cbn [fst]. reflexivity. Qed.

#[export] Instance pure_aead : Aead := {
  aead_encrypt := otsardb_aes_gcm_pure_encrypt;
  aead_decrypt := otsardb_aes_gcm_pure_decrypt;
  aead_iff := pure_gcm_iff;
  aead_lengths := pure_gcm_lengths;
  aead_stream := pure_gcm_stream
}.

(** ** Envelopes *)

Section Envelope.
Context `{HA : Aead} (key : bytes) (Hkey : length key = 32%nat).

Lemma envelope_parts (iv ct tag : bytes) : length iv = 12%nat -> length tag = 16%nat ->
  let data := iv ++ ct ++ tag in
  zlen data - OTSARDB_CIPHER_OVERHEAD = zlen ct /\ take 12 data = iv /\
  take (Z.to_nat (zlen ct)) (drop 12 data) = ct /\ drop (Z.to_nat (12 + zlen ct)) data = tag.
Proof.
  intros Hi Ht data. subst data. unfold OTSARDB_CIPHER_OVERHEAD, OTSARDB_CIPHER_IV_BYTES,
    OTSARDB_CIPHER_TAG_BYTES. rewrite !zlen_app. split_and!.
  - unfold zlen. lia.
  - by apply take_app_exact.
  - rewrite drop_app_exact by done. by apply take_zlen_app.
  - rewrite app_assoc. apply drop_zlen_app. rewrite zlen_app. unfold zlen. lia.
Qed.

Lemma envelope_split (data : bytes) : OTSARDB_CIPHER_OVERHEAD <= zlen data ->
  let n := zlen data - OTSARDB_CIPHER_OVERHEAD in
  let ct := take (Z.to_nat n) (drop 12 data) in
  let tag := drop (Z.to_nat (12 + n)) data in
  data = take 12 data ++ ct ++ tag /\ length (take 12 data) = 12%nat /\ zlen ct = n /\ length tag = 16%nat.
Proof.
  unfold OTSARDB_CIPHER_OVERHEAD, OTSARDB_CIPHER_IV_BYTES, OTSARDB_CIPHER_TAG_BYTES, zlen.
  intros Hl. cbv zeta. split_and!.
  - replace (Z.to_nat (12 + (Z.of_nat (length data) - (12 + 16))))
      with (12 + Z.to_nat (Z.of_nat (length data) - (12 + 16)))%nat by lia.
    rewrite <- drop_drop. by rewrite !take_drop.
  - rewrite length_take. lia.
  - rewrite length_take, length_drop. lia.
  - rewrite length_drop. lia.
Qed.

Lemma decrypt_iff_envelope (data aad plaintext : bytes) :
  otsardb_cipher_decrypt key data aad = Some plaintext <->
  exists iv tag, length iv = 12%nat /\
    otsardb_cipher_encrypt_with_aad key iv aad plaintext = Some (data, tag).
Proof.
  unfold otsardb_cipher_decrypt, otsardb_cipher_encrypt_with_aad. split.
  - intros H. case_if_in H; [done|]. case_if_in H; [done|]. prop_bools.
    destruct (envelope_split data ltac:(lia)) as (Ed & Hi & Hc & Ht).
    set (ct := take _ (drop 12 data)) in *. set (tag := drop (Z.to_nat _) data) in *.
    apply aead_iff in H; [|done|done].
    pose proof (proj1 (aead_lengths key (take 12 data) aad plaintext Hkey)) as Hlen. rewrite H in Hlen.
    exists (take 12 data), tag. split; [done|].
    assert (zlen plaintext = zlen ct) as Ep by (unfold zlen; cbn in Hlen; lia).
    rewrite Ep, Hc. unfold OTSARDB_CIPHER_OVERHEAD, OTSARDB_CIPHER_IV_BYTES, OTSARDB_CIPHER_TAG_BYTES in *.
    match goal with |- (if ?b then _ else _) = _ => assert (b = false) as -> end.
    { unfold SIZE_MAX, UINT64_MAX, INT_MAX in *. repeat (apply orb_false_intro); apply Z.ltb_ge; lia. }
    rewrite H. by rewrite <- Ed.
  - intros (iv & tag & Hi & He). case_if_in He; [done|].
    destruct (aead_encrypt key iv aad plaintext) as [ct tag'] eqn:Ea.
    destruct (aead_lengths key iv aad plaintext Hkey) as [Hlc Hlt]. rewrite Ea in Hlc, Hlt. cbn in Hlc, Hlt.
    injection He as <- <-. destruct (envelope_parts iv ct tag' Hi Hlt) as (E1 & E2 & E3 & E4).
    prop_bools. rewrite E1, E2, E3, E4.
    assert (zlen ct = zlen plaintext) as Ep by (unfold zlen; lia).
    destruct (Z.ltb_spec (zlen (iv ++ ct ++ tag')) OTSARDB_CIPHER_OVERHEAD);
      [pose proof (zlen_nonneg ct); lia|].
    destruct (Z.ltb_spec INT_MAX (zlen ct)); [lia|]. destruct (Z.ltb_spec INT_MAX (zlen aad)); [lia|]. cbn.
    by apply aead_iff.
Qed.
End Envelope.

(** Sealed segments open exactly when they were sealed: under a 32-byte key
    an envelope decrypts to a plaintext, with given associated data (the object
    key and the commit id), if and only if encrypting that plaintext with some
    12-byte IV and that associated data produced this very envelope. In
    particular an envelope moved to another key or commit, truncated or changed
    is refused. *)
Theorem cipher_opens_only_sealed `{HA : Aead} (key data aad plaintext : bytes) :
  length key = 32%nat ->
  otsardb_cipher_decrypt key data aad = Some plaintext <->
  exists iv tag, length iv = 12%nat /\
    otsardb_cipher_encrypt_with_aad key iv aad plaintext = Some (data, tag).
Proof. intros Hk. by apply decrypt_iff_envelope. Qed.

Lemma cipher_opens_only_sealed_witness :
  otsardb_cipher_decrypt Vector.key (Vector.iv ++ Vector.ciphertext ++ Vector.tag) Vector.aad
  = Some Vector.plaintext.
Proof.
  apply (cipher_opens_only_sealed Vector.key (Vector.iv ++ Vector.ciphertext ++ Vector.tag) Vector.aad
           Vector.plaintext).
  - reflexivity.
  - exists Vector.iv, Vector.tag. split; [reflexivity|]. vm_compute. reflexivity.
Defined.

(** The stream a publication hashes into the object key is the ciphertext that
    the authenticated pass stores. *)
Lemma stream_is_ciphertext `{HA : Aead} key iv aad plaintext iv' stream envelope tag :
  otsardb_cipher_encrypt_stream key iv plaintext = Some (iv', stream) ->
  otsardb_cipher_encrypt_with_aad key iv aad plaintext = Some (envelope, tag) ->
  envelope = iv' ++ stream ++ tag.
Proof.
  unfold otsardb_cipher_encrypt_stream, otsardb_cipher_encrypt_with_aad. intros H1 H2.
  case_if_in H1; [done|]. case_if_in H2; [done|]. injection H1 as <- <-.
  rewrite (aead_stream key iv [] aad). destruct (aead_encrypt key iv aad plaintext). by injection H2 as <- <-.
Qed.

(** ** Hexadecimal *)

Lemma hex_nibble_digit n : 0 <= n < 16 -> hex_nibble (hex_digit n) = Some n.
Proof.
  intros H. assert (Forall (fun n => hex_nibble (hex_digit n) = Some n)
    [0; 1; 2; 3; 4; 5; 6; 7; 8; 9; 10; 11; 12; 13; 14; 15]) as Hf by (repeat constructor).
  rewrite list.Forall_forall in Hf. apply Hf. rewrite !elem_of_cons, elem_of_nil. lia.
Qed.

Lemma nibbles_byte b : byte_ok b -> 0 <= Z.land (Z.shiftr b 4) 15 < 16 /\ 0 <= Z.land b 15 < 16 /\
  Z.lor (Z.shiftl (Z.land (Z.shiftr b 4) 15) 4) (Z.land b 15) = b.
Proof.
  intros Hb. change 15 with (Z.ones 4). rewrite !Z.land_ones, Z.shiftr_div_pow2 by lia.
  unfold byte_ok in Hb. change (2 ^ 4) with 16. split_and!; try (apply Z.mod_pos_bound; lia).
  rewrite Z.shiftl_mul_pow2 by lia. change (2 ^ 4) with 16.
  rewrite (Z.mod_small (b / 16)) by (split; [apply Z.div_pos|apply Z.div_lt_upper_bound]; lia).
  assert (Z.land (b / 16 * 16) (b mod 16) = 0) as E
    by (apply Codec.land_nibble_shifted, Z.mod_pos_bound; lia).
  pose proof (Z.add_lor_land (b / 16 * 16) (b mod 16)).
  pose proof (Z.div_mod b 16). lia.
Qed.

Lemma hex_bytes_hex bs : bytes_ok bs -> hex_bytes (otsardb_sha256_hex bs) = Some bs.
Proof.
  unfold otsardb_sha256_hex. induction 1 as [|b bs Hb _ IH]; [done|].
  destruct (nibbles_byte b Hb) as (H1 & H2 & H3).
  cbn [fmap list_fmap concat app hex_bytes]. rewrite !hex_nibble_digit, IH, H3 by done. done.
Qed.

Lemma enc_hex bs n : bytes_ok bs -> zlen bs = n -> enc_parse_hex (otsardb_sha256_hex bs) n = Some bs.
Proof.
  intros Hb <-. unfold enc_parse_hex, zlen. rewrite length_sha256_hex.
  destruct (Z.eqb_spec (Z.of_nat (2 * length bs)) (Z.of_nat (length bs) * 2)); [|lia].
  by apply hex_bytes_hex.
Qed.

Lemma hex_no_byte c bs : ~ (48 <= c <= 102) -> no_byte c (otsardb_sha256_hex bs) = true.
Proof.
  intros Hc. pose proof (sha256_hex_range bs) as H. induction H as [|x s Hx _ IH]; [done|].
  rewrite no_byte_cons, IH. destruct (Z.eqb_spec x c); [subst; done|done].
Qed.

(** ** Entries *)

Definition entry_ok (e : otsardb_segment_enc_entry) : Prop :=
  e = no_enc_entry \/
  (ee_present e = true /\ ee_alg e = OTSARDB_CIPHER_ALG_NAME /\
   bytes_ok (ee_iv e) /\ zlen (ee_iv e) = 12 /\ bytes_ok (ee_tag e) /\ zlen (ee_tag e) = 16).

Definition entry_toks (e : otsardb_segment_enc_entry) : list tok :=
  if ee_present e then
    [TR (str "{"); TQ (str "alg"); TR (str ":"); TQ (ee_alg e);
     TR (str ","); TQ (str "iv"); TR (str ":"); TQ (otsardb_sha256_hex (ee_iv e));
     TR (str ","); TQ (str "tag"); TR (str ":"); TQ (otsardb_sha256_hex (ee_tag e)); TR (str "}")]
  else [TR (str "{}")].

Fixpoint entries_toks (es : list otsardb_segment_enc_entry) : list tok :=
  match es with
  | [] => []
  | [e] => entry_toks e
  | e :: es' => entry_toks e ++ TR (str ",") :: entries_toks es'
  end.

Definition enc_toks (es : list otsardb_segment_enc_entry) : list tok :=
  [TR (str ","); TQ (str "segment_enc"); TR (str ":[")] ++ entries_toks es ++ [TR (str "]")].

Lemma entry_toks_text e tail : text (entry_toks e) tail = enc_entry_json_write e ++ tail.
Proof.
  unfold entry_toks, enc_entry_json_write, q, quoted.
  destruct (ee_present e); cbn [negb text]; app_norm; done.
Qed.

Lemma entries_toks_text es tail :
  text (entries_toks es) tail = comma_list (enc_entry_json_write <$> es) ++ tail.
Proof.
  induction es as [|e es IH]; [done|]. destruct es as [|e2 es]; [apply entry_toks_text|].
  change (entries_toks (e :: e2 :: es)) with (entry_toks e ++ TR (str ",") :: entries_toks (e2 :: es)).
  rewrite text_app. cbn [text]. rewrite IH, entry_toks_text. cbn [fmap list_fmap].
  rewrite comma_list_cons. by rewrite <- !app_assoc.
Qed.

Lemma entry_toks_ok e : entry_ok e -> toks_text_ok (entry_toks e) = true.
Proof.
  intros [->|(Hp & Ha & _)]; [done|]. unfold entry_toks. rewrite Hp, Ha.
  assert (forall bs, noq (otsardb_sha256_hex bs) = true) by (intros; apply hex_no_byte; unfold dq; lia).
  assert (forall bs, no_nul (otsardb_sha256_hex bs) = true) by (intros; apply hex_no_byte; lia).
  apply andb_true_intro. split; cbn [toks_wf forallb tok_str]; json_wf; auto.
Qed.

Lemma entries_toks_ok es : Forall entry_ok es -> toks_text_ok (entries_toks es) = true.
Proof.
  induction 1 as [|e es He Hall IH]; [done|]. destruct es as [|e2 es]; [by apply entry_toks_ok|].
  change (entries_toks (e :: e2 :: es)) with (entry_toks e ++ [TR (str ",")] ++ entries_toks (e2 :: es)).
  apply toks_text_ok_app; [by apply entry_toks_ok|]. by apply toks_text_ok_app.
Qed.

Lemma entries_toks_skip es ts tail :
  tok_find (str "post_apply_checksum") str_colon_quote (entries_toks es ++ ts) tail
  = tok_find (str "post_apply_checksum") str_colon_quote ts tail.
Proof.
  assert (forall e ts, tok_find (str "post_apply_checksum") str_colon_quote (entry_toks e ++ ts) tail
    = tok_find (str "post_apply_checksum") str_colon_quote ts tail) as He.
  { intros e ts'. unfold entry_toks. destruct (ee_present e); json_find; done. }
  induction es as [|e es IH]; [done|]. destruct es as [|e2 es]; [apply He|].
  change (entries_toks (e :: e2 :: es)) with (entry_toks e ++ TR (str ",") :: entries_toks (e2 :: es)).
  rewrite <- app_assoc, He. cbn [app]. by rewrite tok_find_TR.
Qed.

Lemma enc_toks_extra es : Forall entry_ok es -> extra_ok (enc_toks es).
Proof.
  intros Hall. split_and!.
  - unfold enc_toks. apply toks_text_ok_app; [done|]. apply toks_text_ok_app; [by apply entries_toks_ok|done].
  - by right.
  - intros ts tail. unfold enc_toks. rewrite <- !app_assoc. cbn [app]. json_find.
    rewrite entries_toks_skip. cbn [app]. by rewrite tok_find_TR.
Qed.

Lemma enc_parse_entry_ok e rest : entry_ok e -> enc_parse_entry (enc_entry_json_write e ++ rest) = Some (e, rest).
Proof.
  intros [->|(Hp & Ha & Hi & Hil & Ht & Htl)]; [done|].
  assert (noq (otsardb_sha256_hex (ee_iv e)) = true) as Hq1 by (apply hex_no_byte; unfold dq; lia).
  assert (noq (otsardb_sha256_hex (ee_tag e)) = true) as Hq2 by (apply hex_no_byte; unfold dq; lia).
  assert (enc_entry_json_write e ++ rest = 123 :: ALG_MARKER ++ OTSARDB_CIPHER_ALG_NAME ++ dq ::
    IV_MARKER ++ otsardb_sha256_hex (ee_iv e) ++ dq :: TAG_MARKER ++ otsardb_sha256_hex (ee_tag e) ++
    dq :: 125 :: rest) as ->.
  { unfold enc_entry_json_write, ALG_MARKER, IV_MARKER, TAG_MARKER, q, quoted. rewrite Hp, Ha.
    cbn [negb]. app_norm. done. }
  unfold enc_parse_entry. change (skip_while is_json_space (123 :: ?x)) with (123 :: x). rewrite eat_cons.
  change (skip_while is_json_space (ALG_MARKER ++ ?x)) with (ALG_MARKER ++ x).
  change (eat 125 (ALG_MARKER ++ ?x)) with (@None bytes). cbv zeta iota. unfold enc_parse_body.
  rewrite expect_app, split_at_app, bytes_eqb_refl by done. cbn [negb].
  rewrite expect_app, split_at_app by done. rewrite enc_hex by done.
  rewrite expect_app, split_at_app by done. rewrite enc_hex by done.
  change (skip_while is_json_space (125 :: rest)) with (125 :: rest). rewrite eat_cons.
  destruct e. cbn in *. by subst.
Qed.

Lemma enc_parse_entries_ok es rest : forall fuel,
  Forall entry_ok es -> es <> [] -> (length es <= fuel)%nat ->
  enc_parse_entries fuel (comma_list (enc_entry_json_write <$> es) ++ 93 :: rest) = Some es.
Proof.
  induction es as [|e es IH]; intros fuel Hall Hne Hf; [done|].
  apply list.Forall_cons in Hall as [He Hall]. cbn [length] in Hf. destruct fuel as [|fuel]; [lia|].
  destruct es as [|e2 es].
  - cbn [fmap list_fmap comma_list enc_parse_entries]. by rewrite enc_parse_entry_ok.
  - cbn [fmap list_fmap]. rewrite comma_list_cons, <- !app_assoc. cbn [enc_parse_entries].
    rewrite enc_parse_entry_ok by done.
    change (skip_while is_json_space (str "," ++ ?x)) with (44 :: x).
    cbv zeta. rewrite eat_cons, eat_ne by done.
    specialize (IH fuel Hall ltac:(done) ltac:(lia)). cbn [fmap list_fmap] in IH. by rewrite IH.
Qed.

(** ** The manifest with its array *)

Lemma split_newlines_brace a : split_newlines (a ++ [125; 10]) = (a ++ [125], [10]).
Proof.
  induction a as [|c a IH]; [done|]. cbn [app split_newlines]. rewrite IH. by destruct a.
Qed.

Lemma last_byte_snoc a c : last_byte (a ++ [c]) = Some c.
Proof. induction a as [|x a IH]; [done|]. cbn [app last_byte]. rewrite IH. by destruct a. Qed.

(** The tokens before the closing brace. *)
Definition open_toks (m : otsardb_commit_manifest) : list tok :=
  chain_toks m ++ parent_sha_toks m ++ size_toks m ++
  [TR (str ","); TQ (str "segments"); TR (str ":[")] ++
  segs_toks (4 <=? cm_format_version m) (cm_segments m) ++ checksum_toks m.

Lemma open_text m extra :
  text (manifest_toks m extra) [] = text (open_toks m) [] ++ text extra [] ++ [125; 10].
Proof.
  assert (manifest_toks m extra = open_toks m ++ extra ++ [TR (str "}"); TR [10]]) as ->.
  { unfold manifest_toks, open_toks. by rewrite <- !app_assoc. }
  rewrite !text_app, (text_tail (open_toks m)), (text_tail extra). done.
Qed.

Lemma inject_text `{Sha256} m es out sha : 3 <= cm_format_version m ->
  manifest_inject_segment_enc (manifest_json m) es = Some (out, sha) ->
  out = text (manifest_toks m (enc_toks es)) [] /\ sha = otsardb_sha256_hex_data out /\ zlen out <= INT_MAX.
Proof.
  intros Hv. unfold manifest_inject_segment_enc. rewrite manifest_json_toks, open_text by done.
  cbn [text app]. rewrite split_newlines_brace, last_byte_snoc. cbv iota.
  rewrite length_app, Nat.add_sub, take_app_length. intros Hi. case_if_in Hi; [done|].
  apply (inj Some), pair_equal_spec in Hi as [<- <-]. prop_bools. split_and!; [|reflexivity|assumption].
  rewrite open_text. f_equal. unfold enc_toks, q, quoted.
  rewrite text_app, text_app, entries_toks_text. cbn [text]. app_norm. done.
Qed.

Lemma segs_toks_skip_enc wp rs ts tail :
  tok_find (str "segment_enc") (str ":[") (segs_toks wp rs ++ ts) tail
  = tok_find (str "segment_enc") (str ":[") ts tail.
Proof.
  assert (forall r ts, tok_find (str "segment_enc") (str ":[") (seg_toks wp r ++ ts) tail
    = tok_find (str "segment_enc") (str ":[") ts tail) as Hseg.
  { intros r ts'. unfold seg_toks. rewrite <- !app_assoc.
    destruct wp; [destruct (sg_frame_offsets r); [destruct (0 <? sg_page_count r)|]|];
      json_find; done. }
  induction rs as [|r rs IH]; [done|]. destruct rs as [|r2 rs]; [apply Hseg|].
  change (segs_toks wp (r :: r2 :: rs)) with (seg_toks wp r ++ TR (str ",") :: segs_toks wp (r2 :: rs)).
  rewrite <- app_assoc, Hseg. cbn [app]. by rewrite tok_find_TR.
Qed.

Lemma enc_array_read m es : manifest_ok m -> Forall entry_ok es -> 0 < zlen es <= 128 ->
  otsardb_segment_enc_parse_json (text (manifest_toks m (enc_toks es)) []) = Some (Some es).
Proof.
  intros Hok Hall Hn. pose proof (manifest_toks_ok m _ Hok (enc_toks_extra es Hall)) as Hwf.
  apply andb_prop in Hwf as [Hwf Hnn]. apply text_no_nul in Hnn.
  unfold otsardb_segment_enc_parse_json.
  assert ((zlen (text (manifest_toks m (enc_toks es)) []) =? 0) = false) as -> by apply zlen_eqb_0.
  rewrite cstr_no_nul, find_after_text by done. unfold manifest_toks. json_find.
  rewrite segs_toks_skip_enc.
  assert (tok_find (str "segment_enc") (str ":[") (checksum_toks m ++ enc_toks es ++ [TR (str "}"); TR [10]]) []
    = Some (comma_list (enc_entry_json_write <$> es) ++ 93 :: str "}" ++ [10])) as ->.
  { unfold checksum_toks, enc_toks. rewrite <- !app_assoc.
    destruct (_ =? 0); cbn [app]; json_find; cbn [text]; rewrite text_app, entries_toks_text; done. }
  rewrite enc_parse_entries_ok; [done|done| |].
  - intros ->. change (0 < 0 <= 128) in Hn. lia.
  - unfold zlen, OTSARDB_SEGMENT_ENC_MAX in *. lia.
Qed.

(** The encryption array does not disturb the manifest and is read back: for
    a well-formed manifest of format 3 or 4 and one to 128 entries (plain or
    sealed with a 12-byte IV and a 16-byte tag), the text with the array
    spliced in decodes to the same manifest, and its array parses to the same
    entries. *)
Theorem segment_enc_roundtrip `{Sha256} (m : otsardb_commit_manifest)
    (es : list otsardb_segment_enc_entry) (out sha : bytes) :
  manifest_ok m -> 3 <= cm_format_version m -> Forall entry_ok es -> 0 < zlen es <= 128 ->
  manifest_inject_segment_enc (manifest_json m) es = Some (out, sha) ->
  otsardb_commit_manifest_decode_json out = Some m /\
  otsardb_segment_enc_parse_json out = Some (Some es).
Proof.
  intros Hok Hv Hall Hn Hi. apply inject_text in Hi as (-> & _ & Hsz); [|done]. split.
  - apply manifest_extra_decodes; auto using enc_toks_extra.
  - by apply enc_array_read.
Qed.

Definition sample_entries : list otsardb_segment_enc_entry :=
  [mkEncEntry true OTSARDB_CIPHER_ALG_NAME (replicate 12 171) (replicate 16 7); no_enc_entry].

Lemma segment_enc_roundtrip_witness :
  let r := manifest_inject_segment_enc (HSha := pure_sha256) (manifest_json sample_manifest) sample_entries in
  otsardb_commit_manifest_decode_json (default ([], []) r).1 = Some sample_manifest /\
  otsardb_segment_enc_parse_json (default ([], []) r).1 = Some (Some sample_entries).
Proof.
  intros r. apply (segment_enc_roundtrip sample_manifest sample_entries _ (default ([], []) r).2).
  - exact sample_manifest_ok.
  - vm_compute. discriminate.
  - apply list.Forall_cons. split; [right|apply list.Forall_cons; split; [left; reflexivity|constructor]].
    split_and!; try reflexivity; repeat constructor; vm_compute; discriminate.
  - vm_compute. split; [reflexivity|discriminate].
  - vm_compute. reflexivity.
Defined.
