(* ===== verification/LocalFile.v ===== *)
(** * Local files

    The part of the C library's files that recovery and the replica use. A file
    is its bytes; every call may fail, following a script of faults, and a
    failing write may have written a part of its data. *)

From S2P Require Import Prelude.

(** [IO_short n]: the call fails; a write has stored its first [n] bytes. *)
Inductive io_fault := IO_ok | IO_short (n : nat).

Record local := mkLocal {
  l_files : gmap bytes bytes;
  l_faults : list io_fault
}.

Definition no_files : local := mkLocal ∅ [].

Definition io_pop : M local io_fault := fun l =>
  match l_faults l with
  | [] => (IO_ok, l)
  | f :: r => (f, mkLocal (l_files l) r)
  end.

(** A call without effect on the bytes ([fflush], [fsync], [fclose], [fseeko]). *)
Definition io_call : M local bool :=
  let! f := io_pop in
  return! match f with IO_ok => true | IO_short _ => false end.

Definition set_file (path data : bytes) : M local unit := fun l =>
  (tt, mkLocal (<[path := data]> (l_files l)) (l_faults l)).

Definition file_of (path : bytes) : M local (option bytes) := fun l => (l_files l !! path, l).

(** [data] at [offset]; the gap after the end of the file reads as zeros. *)
Definition write_at (file : bytes) (offset : Z) (data : bytes) : bytes :=
  let n := Z.to_nat offset in
  take n (file ++ replicate (n - length file) 0) ++ data ++ drop (n + length data) file.

Definition resize (file : bytes) (size : Z) : bytes :=
  let n := Z.to_nat size in take n (file ++ replicate (n - length file) 0).

(** [fopen(path, "rb")]: the bytes of an existing file. *)
Definition fopen_read (path : bytes) : M local (option bytes) :=
  let! ok := io_call in
  let! file := file_of path in
  return! if ok then file else None.

(** [fopen(path, "wb")] and [fopen(path, "w+b")]: an empty file. *)
Definition fopen_write (path : bytes) : M local bool :=
  let! ok := io_call in
  if ok then (let! _ := set_file path [] in return! true) else return! false.

(** [fopen(path, "r+b")], and [fopen(path, "w+b")] when that fails. *)
Definition fopen_update (path : bytes) : M local bool :=
  let! ok := io_call in
  let! file := file_of path in
  if ok && bool_decide (is_Some file) then return! true else fopen_write path.

(** [fseeko] and [fwrite]. *)
Definition fwrite_at (path : bytes) (offset : Z) (data : bytes) : M local bool :=
  let! seek := io_call in
  if negb seek then return! false else
  let! f := io_pop in
  let! file := file_of path in
  match f with
  | IO_ok => let! _ := set_file path (write_at (default [] file) offset data) in return! true
  | IO_short n => let! _ := set_file path (write_at (default [] file) offset (take n data)) in return! false
  end.

Definition ftruncate (path : bytes) (size : Z) : M local bool :=
  let! ok := io_call in
  if negb ok then return! false else
  let! file := file_of path in
  let! _ := set_file path (resize (default [] file) size) in
  return! true.

Definition drop_file (path : bytes) : M local unit := fun l =>
  (tt, mkLocal (delete path (l_files l)) (l_faults l)).

(** [remove(path)]; the callers never look at its result. *)
Definition remove (path : bytes) : M local unit :=
  let! ok := io_call in
  if ok then drop_file path else return! tt.

(** ** Calls on a pair of states *)

Definition on_store {S A} (m : M S A) : M (S * local) A := fun st =>
  let '(a, s') := m (fst st) in (a, (s', snd st)).
Definition on_files {S A} (m : M local A) : M (S * local) A := fun st =>
  let '(a, l') := m (snd st) in (a, (fst st, l')).

(** ** What a call may do to the files *)

(** No call touches another path. *)
Definition only_path {A} (path : bytes) (m : M local A) : Prop :=
  forall l p, p <> path -> l_files (snd (m l)) !! p = l_files l !! p.

Lemma only_ret {A} path (a : A) : only_path path (mret_ a).
Proof. by intros l p _. Qed.

Lemma only_bind {A B} path (m : M local A) (k : A -> M local B) :
  only_path path m -> (forall a, only_path path (k a)) -> only_path path (mbind_ m k).
Proof.
  intros Hm Hk l p Hp. unfold mbind_. specialize (Hm l p Hp). destruct (m l) as [a l'].
  rewrite (Hk a l' p Hp). done.
Qed.

Lemma only_pop path : only_path path io_pop.
Proof. intros l p _. unfold io_pop. by destruct (l_faults l). Qed.

Lemma only_file_of path q : only_path path (file_of q).
Proof. by intros l p _. Qed.

Lemma only_set path data : only_path path (set_file path data).
Proof. intros l p Hp. cbn. by rewrite lookup_insert_ne. Qed.

Lemma only_drop path : only_path path (drop_file path).
Proof. intros l p Hp. cbn. by rewrite lookup_delete_ne. Qed.

Create HintDb files.
#[export] Hint Resolve only_ret only_pop only_file_of only_set only_drop : files.

Ltac only_tac :=
  repeat first [solve [eauto 2 with files] | apply only_bind; intros | case_match].

Lemma only_call path : only_path path io_call.
Proof. unfold io_call. only_tac. Qed.
#[export] Hint Resolve only_call : files.

Lemma only_remove path : only_path path (remove path).
Proof. unfold remove. only_tac. Qed.
#[export] Hint Resolve only_remove : files.

Lemma only_open_write path : only_path path (fopen_write path).
Proof. unfold fopen_write. only_tac. Qed.
#[export] Hint Resolve only_open_write : files.

Lemma only_open_update path : only_path path (fopen_update path).
Proof. unfold fopen_update. only_tac. Qed.

Lemma only_open_read path q : only_path path (fopen_read q).
Proof. unfold fopen_read. only_tac. Qed.

Lemma only_write path offset data : only_path path (fwrite_at path offset data).
Proof. unfold fwrite_at. only_tac. Qed.

Lemma only_truncate path size : only_path path (ftruncate path size).
Proof. unfold ftruncate. only_tac. Qed.
#[export] Hint Resolve only_open_update only_open_read only_write only_truncate : files.
