(* ===== verification/Recovery.v ===== *)
(** * Recovery (recovery.c)

    The database file is rebuilt from the store: the manifest chain is walked
    from HEAD and authenticated link by link, and the WAL batches of its
    segments are applied, oldest first, either to an empty file, to the pages of
    a checkpoint that is bound to the chain, or to a cached image. *)

From S2P Require Import Prelude CText JsonText ObjectStore Journal Codec WalBatch Sha256 Segment.
From S2P Require Import Checksum CheckpointPage DbMetadata CommitManifest CommitPublish.
From S2P Require Import CheckpointManifest Cipher LocalFile.

Definition OTSARDB_RECOVERY_MAX_COMMITS : Z := 1000000.
Definition INT64_MAX : Z := 2 ^ 63 - 1.

Abbreviation enc_set := (option (list otsardb_segment_enc_entry)).

(** The byte offset of a page; [page_no - 1] wraps for page 0. *)
Definition page_offset (page_no page_size : Z) : Z := u64 (u64 (page_no - 1) * page_size).

(** Write one page of a file that is open. *)
Definition write_page (path : bytes) (page_no page_size : Z) (page : bytes) : M local bool :=
  let offset := page_offset page_no page_size in
  if INT64_MAX <? offset then return! false else fwrite_at path offset page.

(** ** WAL batches *)

(** The frame loop, from frame [i] on. *)
Fixpoint apply_frames (count : nat) (i : Z) (batch : otsardb_wal_batch_view) (path : bytes) : M local bool :=
  match count with
  | O => return! true
  | Datatypes.S count' =>
      match otsardb_wal_batch_frame batch i with
      | None => return! false
      | Some (page_no, page) =>
          let! ok := write_page path page_no (wb_page_size batch) page in
          if ok then apply_frames count' (i + 1) batch path else return! false
      end
  end.

Definition otsardb_recovery_apply_wal_batch_file (batch_data path : bytes) : M local bool :=
  match otsardb_wal_batch_decode batch_data with
  | None => return! false
  | Some batch =>
      let! opened := fopen_update path in
      if negb opened then return! false else
      let! ok := apply_frames (Z.to_nat (wb_frame_count batch)) 0 batch path in
      if negb ok then return! false else
      let! ok := io_call in                                   (* fflush *)
      if negb ok then return! false else
      let final_size := u64 (wb_database_size_pages batch * wb_page_size batch) in
      if INT64_MAX <? final_size then return! false else
      let! ok := ftruncate path final_size in
      if negb ok then return! false else
      let! ok := io_call in                                   (* fsync *)
      if negb ok then return! false else
      io_call                                                 (* fclose *)
  end.

(** ** The expected link of the chain *)

Record chain_pos := mkChainPos {
  cp_generation : Z;
  cp_id : bytes;
  cp_key : bytes;
  cp_sha : bytes
}.

Definition head_pos (head : otsardb_head) : chain_pos :=
  mkChainPos (hd_generation head) (snprintf_s 64 (hd_commit_id head))
    (snprintf_s 1024 (hd_commit_key head)) (snprintf_s 65 (hd_commit_sha256 head)).

(** The checks on a manifest read at [pos], after its digest. *)
Definition link_ok (metadata : otsardb_db_metadata) (pos : chain_pos) (m : otsardb_commit_manifest) : bool :=
  (cm_generation m =? cp_generation pos) &&
  bytes_eqb (cm_database_id m) (md_database_id metadata) &&
  bytes_eqb (cm_commit_id m) (cp_id pos) &&
  (cm_page_size m =? md_page_size metadata) &&
  (u64 (cm_parent_generation m + 1) =? cm_generation m).

(** The chain ends here: a first commit without parent fields. *)
Definition genesis_ok (m : otsardb_commit_manifest) : bool :=
  (zlen (cm_parent_commit_id m) =? 0) &&
  ((cm_format_version m <? 2) || (zlen (cm_parent_manifest_sha256 m) =? 0)).

(** The link to the parent; [None] ends the walk with a failure. *)
Definition parent_link (root : bytes) (m : otsardb_commit_manifest) : option chain_pos :=
  if zlen (cm_parent_commit_id m) =? 0 then None
  else
    let id := snprintf_s 64 (cm_parent_commit_id m) in
    match build_manifest_key root id with
    | None => None
    | Some key =>
        if 2 <=? cm_format_version m then
          if negb (zlen (cm_parent_manifest_sha256 m) =? OTSARDB_MANIFEST_SHA256_HEX_SIZE) then None
          else Some (mkChainPos (cm_parent_generation m) id key (snprintf_s 65 (cm_parent_manifest_sha256 m)))
        else Some (mkChainPos (cm_parent_generation m) id key [])
    end.

Section Recovery.
Context `{HSha : Sha256} `{HLz4 : Lz4} `{HA : Aead}.
Context {S : Type} (store : otsardb_object_store S).

Abbreviation St := (S * local)%type.

Definition read_manifest_object (key expected_sha256 : bytes)
  : M S (option (otsardb_commit_manifest * enc_set)) :=
  let! rc := otsardb_store_get store key in
  match rc with
  | inl _ => return! None
  | inr object =>
      let actual := otsardb_sha256_hex_data (so_data object) in
      if negb ((zlen expected_sha256 =? 0) || bytes_eqb actual expected_sha256) then return! None
      else match otsardb_commit_manifest_decode_json (so_data object),
                 otsardb_segment_enc_parse_json (so_data object) with
      | Some m, Some enc => return! Some (m, enc)
      | _, _ => return! None
      end
  end.

(** [cipher] is the key of the session, if there is one. *)
Definition decrypt_segment_envelope (cipher : option bytes) (absolute_key commit_id envelope : bytes)
  : option bytes :=
  match cipher with
  | None => None
  | Some key => otsardb_cipher_decrypt key envelope (segment_aad_build absolute_key commit_id)
  end.

(** The batch of a stored segment, authenticated by its reference. *)
Definition segment_batch (cipher : option bytes) (m : otsardb_commit_manifest)
    (ref : otsardb_manifest_segment_ref) (entry : option otsardb_segment_enc_entry)
    (object_key data : bytes) : option bytes :=
  if negb ((zlen data =? sg_size ref) && bytes_eqb (otsardb_sha256_hex_data data) (sg_sha256 ref))
  then None
  else
    let encrypted := match entry with Some e => ee_present e | None => false end in
    let plain := if encrypted
                 then decrypt_segment_envelope cipher object_key (cm_commit_id m) data
                 else Some data in
    match plain with
    | None => None
    | Some plain =>
        match otsardb_segment_decode plain with
        | None => None
        | Some segment =>
            if negb ((sv_kind segment =? OTSARDB_SEGMENT_WAL_FRAMES) &&
                     bytes_eqb (sv_commit_id segment) (cm_commit_id m)) then None
            else if sv_compressed segment then otsardb_segment_decompress segment
            else Some (sv_payload segment)
        end
    end.

(** A reference of format 3 or later is relative to the root. *)
Definition segment_object_key (root : bytes) (m : otsardb_commit_manifest)
    (ref : otsardb_manifest_segment_ref) : option bytes :=
  if 3 <=? cm_format_version m then root_join root (sg_key ref) (OTSARDB_KEY_MAX + 1)
  else Some (sg_key ref).

(** The loop over the references, from segment [i] on. *)
Fixpoint apply_segment_refs (root : bytes) (m : otsardb_commit_manifest) (enc : enc_set)
    (cipher : option bytes) (path : bytes) (i : nat) (refs : list otsardb_manifest_segment_ref)
  : M St bool :=
  match refs with
  | [] => return! true
  | ref :: rest =>
      match segment_object_key root m ref with
      | None => return! false
      | Some key =>
          let! rc := on_store (otsardb_store_get store key) in
          match rc with
          | inl _ => return! false
          | inr object =>
              let entry := match enc with Some es => es !! i | None => None end in
              match segment_batch cipher m ref entry key (so_data object) with
              | None => return! false
              | Some batch =>
                  let! ok := on_files (otsardb_recovery_apply_wal_batch_file batch path) in
                  if ok then apply_segment_refs root m enc cipher path (Datatypes.S i) rest
                  else return! false
              end
          end
      end
  end.

Definition apply_manifest_segments (root : bytes) (m : otsardb_commit_manifest) (enc : enc_set)
    (cipher : option bytes) (path : bytes) : M St bool :=
  apply_segment_refs root m enc cipher path 0 (cm_segments m).

(** ** The chain *)

(** The loop of the walk. [visitor] is called on every authenticated manifest,
    with its key and the digest it was checked against. The result is the keys,
    newest first. Each round lowers the generation, so the generation of the
    start is enough fuel. *)
Fixpoint chain_loop {T} (read : bytes -> bytes -> M T (option (otsardb_commit_manifest * enc_set)))
    (visitor : chain_pos -> otsardb_commit_manifest -> enc_set -> M T bool)
    (fuel : nat) (root : bytes) (metadata : otsardb_db_metadata) (stop_generation : Z)
    (key_count : Z) (pos : chain_pos) : M T (option (list bytes)) :=
  if cp_generation pos <=? 0 then return! Some []
  else if OTSARDB_RECOVERY_MAX_COMMITS <=? key_count then return! None
  else match fuel with
  | O => return! None
  | Datatypes.S fuel' =>
      let! r := read (cp_key pos) (cp_sha pos) in
      match r with
      | None => return! None
      | Some (m, enc) =>
          if negb (link_ok metadata pos m) then return! None else
          let! seen := visitor pos m enc in
          if negb seen then return! None
          else if negb (stop_generation =? 0) && (cm_generation m =? stop_generation)
          then return! Some [cp_key pos]
          else if cm_parent_generation m =? 0
          then return! (if genesis_ok m then Some [cp_key pos] else None)
          else match parent_link root m with
          | None => return! None
          | Some next =>
              let! rest := chain_loop read visitor fuel' root metadata stop_generation
                             (key_count + 1) next in
              return! match rest with Some keys => Some (cp_key pos :: keys) | None => None end
          end
      end
  end.

Definition collect_chain_keys (root : bytes) (metadata : otsardb_db_metadata) (head : otsardb_head)
    (stop_generation : Z) : M S (option (list bytes)) :=
  chain_loop read_manifest_object (fun _ _ _ => return! true) (Z.to_nat (hd_generation head))
    root metadata stop_generation 0 (head_pos head).

(** The segments of the manifests, oldest first ([keys] is newest first). *)
Fixpoint apply_keys_in_order (root : bytes) (keys : list bytes) (cipher : option bytes) (path : bytes)
  : M St bool :=
  match keys with
  | [] => return! true
  | key :: rest =>
      let! r := on_store (read_manifest_object key []) in
      match r with
      | None => return! false
      | Some (m, enc) =>
          let! ok := apply_manifest_segments root m enc cipher path in
          if ok then apply_keys_in_order root rest cipher path else return! false
      end
  end.

Definition apply_manifest_keys (root : bytes) (keys : list bytes) (cipher : option bytes) (path : bytes)
  : M St bool :=
  apply_keys_in_order root (reverse keys) cipher path.

(** The oldest manifest, read again, has no parent. *)
Definition genesis_check (keys : list bytes) : M S bool :=
  match reverse keys with
  | [] => return! false
  | key :: _ =>
      let! r := read_manifest_object key [] in
      return! match r with Some (m, _) => cm_parent_generation m =? 0 | None => false end
  end.

Definition walk_manifest_chain (root : bytes) (metadata : otsardb_db_metadata) (head : otsardb_head)
    (path : bytes) (apply_segments : bool) (stop_generation : Z) (cipher : option bytes) : M St bool :=
  let! r := on_store (collect_chain_keys root metadata head stop_generation) in
  match r with
  | None => return! false
  | Some keys =>
      let! ok := if (stop_generation =? 0) && ((zlen keys =? 0) || apply_segments)
                 then on_store (genesis_check keys) else return! true in
      if ok && apply_segments then apply_manifest_keys root keys cipher path else return! ok
  end.

(** The walk of the other components, with their visitor. *)
Definition otsardb_recovery_walk_chain
    (visitor : chain_pos -> otsardb_commit_manifest -> enc_set -> M S bool)
    (root : bytes) (metadata : otsardb_db_metadata) (head : otsardb_head) (stop_generation : Z) : M S bool :=
  let! r := chain_loop read_manifest_object visitor (Z.to_nat (hd_generation head)) root metadata
              stop_generation 0 (head_pos head) in
  match r with
  | None => return! false
  | Some keys => if stop_generation =? 0 then genesis_check keys else return! true
  end.

(** ** Checkpoints *)

(** The record loop of a page group, from record [j] on. *)
Fixpoint apply_group_records (count : nat) (j : Z) (pv : otsardb_checkpoint_page_view) (path : bytes)
  : M local bool :=
  match count with
  | O => return! true
  | Datatypes.S count' =>
      match otsardb_checkpoint_page_frame pv j with
      | None => return! false
      | Some (page_no, compressed, page) =>
          if compressed || negb (zlen page =? cp_page_size pv) then return! false else
          let! ok := write_page path page_no (cp_page_size pv) page in
          if ok then apply_group_records count' (j + 1) pv path else return! false
      end
  end.

Definition apply_page_group (pv : otsardb_checkpoint_page_view) (path : bytes) : M local bool :=
  let! opened := fopen_update path in
  if negb opened then return! false
  else apply_group_records (Z.to_nat (cp_page_count pv)) 0 pv path.

Fixpoint apply_page_groups (root : bytes) (groups : list otsardb_checkpoint_page_group_ref) (path : bytes)
  : M St bool :=
  match groups with
  | [] => return! true
  | ref :: rest =>
      match root_join root (pg_key ref) (OTSARDB_KEY_MAX + 1) with
      | None => return! false
      | Some key =>
          let! rc := on_store (otsardb_store_get store key) in
          match rc with
          | inl _ => return! false
          | inr object =>
              let data := so_data object in
              if negb (bytes_eqb (otsardb_sha256_hex_data data) (pg_sha256 ref) && (zlen data =? pg_size ref))
              then return! false
              else match otsardb_checkpoint_page_decode data with
              | None => return! false
              | Some pv =>
                  let! ok := on_files (apply_page_group pv path) in
                  if ok then apply_page_groups root rest path else return! false
              end
          end
      end
  end.

Definition otsardb_recovery_apply_checkpoint_pages (root : bytes) (cp : otsardb_checkpoint_manifest)
    (path : bytes) : M St bool :=
  apply_page_groups root (ck_page_groups cp) path.

Definition file_size_u64 (path : bytes) : M local (option Z) :=
  let! file := fopen_read path in
  match file with
  | None => return! None
  | Some file => let! ok := io_call in return! if ok then Some (zlen file) else None
  end.

Definition validate_file_against_manifest_checksum (path : bytes) (page_size database_size_pages : Z)
    (expected_hex : bytes) : M local bool :=
  if zlen expected_hex =? 0 then return! true
  else match otsardb_checksum_parse expected_hex with
  | None => return! false
  | Some expected =>
      let! file := fopen_read path in
      match file with
      | None => return! false
      | Some file => return! otsardb_checksum_file file page_size database_size_pages =? expected
      end
  end.

Definition validate_head_checksum (head : otsardb_head) (path : bytes) : M St bool :=
  let! rc := on_store (otsardb_store_get store (hd_commit_key head)) in
  match rc with
  | inl _ => return! false
  | inr object =>
      if negb (bytes_eqb (otsardb_sha256_hex_data (so_data object)) (hd_commit_sha256 head))
      then return! false
      else match otsardb_commit_manifest_decode_json (so_data object) with
      | None => return! false
      | Some m =>
          on_files (validate_file_against_manifest_checksum path (cm_page_size m)
                      (cm_database_size_pages m) (cm_post_apply_checksum m))
      end
  end.

(** The identity of a checkpoint against the metadata and HEAD. *)
Definition checkpoint_identity_ok (metadata : otsardb_db_metadata) (head : otsardb_head)
    (cp : otsardb_checkpoint_manifest) : bool :=
  (0 <? ck_covered_generation cp) && (ck_covered_generation cp <=? hd_generation head) &&
  bytes_eqb (ck_database_id cp) (md_database_id metadata) &&
  (ck_page_size cp =? md_page_size metadata) && (0 <? ck_database_size_pages cp) &&
  negb (zlen (ck_base_commit_id cp) =? 0) && negb (zlen (ck_base_manifest_sha256 cp) =? 0).

(** The chain down to the covered generation, whose manifest must be the base
    of the checkpoint: the keys and that manifest. *)
Definition bind_checkpoint (root : bytes) (metadata : otsardb_db_metadata) (head : otsardb_head)
    (cp : otsardb_checkpoint_manifest) : M S (option (list bytes * otsardb_commit_manifest)) :=
  let! r := collect_chain_keys root metadata head (ck_covered_generation cp) in
  match r with
  | None => return! None
  | Some keys =>
      match reverse keys with
      | [] => return! None
      | key :: _ =>
          let! r := read_manifest_object key [] in
          match r with
          | None => return! None
          | Some (covered, _) =>
              if negb ((cm_generation covered =? ck_covered_generation cp) &&
                       bytes_eqb (cm_commit_id covered) (ck_base_commit_id cp)) then return! None
              else
                let! rc := otsardb_store_get store key in
                match rc with
                | inl _ => return! None
                | inr object =>
                    return! if bytes_eqb (otsardb_sha256_hex_data (so_data object))
                                 (ck_base_manifest_sha256 cp)
                            then Some (keys, covered) else None
                end
          end
      end
  end.

(** An image has the size and, when there is one, the checksum of a manifest. *)
Definition image_matches (path : bytes) (m : otsardb_commit_manifest) : M local bool :=
  let! size := file_size_u64 path in
  if negb (bool_decide (size = Some (u64 (cm_database_size_pages m * cm_page_size m)))) then return! false
  else validate_file_against_manifest_checksum path (cm_page_size m) (cm_database_size_pages m)
         (cm_post_apply_checksum m).

(** The pages of a bound checkpoint, checked against its base, then the newer
    generations; without a checksum the covered generation is applied again. *)
Definition apply_checkpoint_image (root : bytes) (head : otsardb_head) (cp : otsardb_checkpoint_manifest)
    (keys : list bytes) (covered : otsardb_commit_manifest) (path : bytes) (cipher : option bytes) : M St bool :=
  let! ok := otsardb_recovery_apply_checkpoint_pages root cp path in
  if negb ok then return! false else
  let! ok := on_files (image_matches path covered) in
  if negb ok then return! false else
  let apply := if zlen (cm_post_apply_checksum covered) =? 0 then keys
               else take (length keys - 1) keys in
  let! ok := apply_manifest_keys root apply cipher path in
  if ok then validate_head_checksum head path else return! false.

(** The path of the pointer. *)
Definition restore_from_pointer (root : bytes) (metadata : otsardb_db_metadata) (head : otsardb_head)
    (path : bytes) (cipher : option bytes) : M St bool :=
  let! (rc, r) := on_store (otsardb_checkpoint_ptr_read store root) in
  match rc, r with
  | OTSARDB_CHECKPOINT_PTR_OK, Some (ptr, _) =>
      if negb ((0 <? pt_covered_generation ptr) && (pt_covered_generation ptr <=? hd_generation head) &&
               negb (zlen (pt_checkpoint_key ptr) =? 0) &&
               bytes_eqb (pt_database_id ptr) (md_database_id metadata))
      then return! false
      else
        let! rc := on_store (otsardb_store_get store (pt_checkpoint_key ptr)) in
        match rc with
        | inl _ => return! false
        | inr object =>
            if negb (bytes_eqb (otsardb_sha256_hex_data (so_data object)) (pt_checkpoint_sha256 ptr))
            then return! false
            else match otsardb_checkpoint_manifest_decode (so_data object) with
            | None => return! false
            | Some cp =>
                if negb ((ck_covered_generation cp =? pt_covered_generation ptr) &&
                         checkpoint_identity_ok metadata head cp)
                then return! false
                else
                  let! bound := on_store (bind_checkpoint root metadata head cp) in
                  match bound with
                  | None => return! false
                  | Some (keys, covered) =>
                      let! _ := on_files (remove path) in
                      let! ok := apply_checkpoint_image root head cp keys covered path cipher in
                      if ok then return! true
                      else (let! _ := on_files (remove path) in return! false)
                  end
            end
        end
  | _, _ => return! false
  end.

(** ** Checkpoints without their pointer *)

Definition is_hex (c : Z) : bool :=
  ((48 <=? c) && (c <=? 57)) || ((97 <=? c) && (c <=? 102)) || ((65 <=? c) && (c <=? 70)).

(** 64 hexadecimal digits and [.json]. *)
Definition cp_manifest_list_key_valid (key : bytes) : bool :=
  (zlen key =? 64 + 5) && bytes_eqb (drop 64 key) (str ".json") && forallb is_hex (take 64 key).

(** The candidate replaces [best] when it is bound and covers more. *)
Definition cp_discovery_evaluate_one (root : bytes) (metadata : otsardb_db_metadata) (head : otsardb_head)
    (best : option otsardb_checkpoint_manifest) (logical_key : bytes)
  : M S (option otsardb_checkpoint_manifest) :=
  let suffix := str "checkpoints/" ++ logical_key in
  if 256 <=? zlen suffix then return! best
  else match root_join root suffix (OTSARDB_KEY_MAX + 1) with
  | None => return! best
  | Some key =>
      let! rc := otsardb_store_get store key in
      match rc with
      | inl _ => return! best
      | inr object =>
          if negb (bytes_eqb (take 64 (otsardb_sha256_hex_data (so_data object))) (take 64 logical_key))
          then return! best
          else match otsardb_checkpoint_manifest_decode (so_data object) with
          | None => return! best
          | Some cp =>
              if negb (checkpoint_identity_ok metadata head cp) then return! best
              else
                let! bound := bind_checkpoint root metadata head cp in
                return! match bound, best with
                        | None, _ => best
                        | Some _, None => Some cp
                        | Some _, Some b =>
                            if ck_covered_generation b <? ck_covered_generation cp then Some cp else best
                        end
          end
      end
  end.

Fixpoint cp_discovery_evaluate (root : bytes) (metadata : otsardb_db_metadata) (head : otsardb_head)
    (best : option otsardb_checkpoint_manifest) (keys : list bytes)
  : M S (option otsardb_checkpoint_manifest) :=
  match keys with
  | [] => return! best
  | key :: rest =>
      let! best := cp_discovery_evaluate_one root metadata head best key in
      cp_discovery_evaluate root metadata head best rest
  end.

Definition recovery_apply_discovered_checkpoint (root : bytes) (metadata : otsardb_db_metadata)
    (head : otsardb_head) (cp : otsardb_checkpoint_manifest) (path : bytes) (cipher : option bytes)
  : M St bool :=
  let! r := on_store (collect_chain_keys root metadata head (ck_covered_generation cp)) in
  match r with
  | None => return! false
  | Some keys =>
      match reverse keys with
      | [] => return! false
      | key :: _ =>
          let! covered := on_store (read_manifest_object key []) in
          let! _ := on_files (remove path) in
          let! ok := match covered with
                     | None => return! false
                     | Some (covered, _) => apply_checkpoint_image root head cp keys covered path cipher
                     end in
          if ok then return! true else (let! _ := on_files (remove path) in return! false)
      end
  end.

Definition restore_from_discovered_checkpoint (root : bytes) (metadata : otsardb_db_metadata)
    (head : otsardb_head) (path : bytes) (cipher : option bytes) : M St bool :=
  match root_join root (str "checkpoints/") (OTSARDB_KEY_MAX + 1) with
  | None => return! false
  | Some prefix =>
      let! rc := on_store (otsardb_store_list store prefix) in
      match rc with
      | inl _ => return! false
      | inr listed =>
          let keys := filter (fun k => Is_true (cp_manifest_list_key_valid k)) listed in
          let! best := on_store (cp_discovery_evaluate root metadata head None keys) in
          match best with
          | None => return! false
          | Some cp => recovery_apply_discovered_checkpoint root metadata head cp path cipher
          end
      end
  end.

(** ** Restoring *)

(** Metadata and HEAD, with the checks both entry points make. *)
Definition read_database (root : bytes) : M S (option (otsardb_db_metadata * otsardb_head)) :=
  let! (rc, metadata) := otsardb_db_metadata_read store root in
  match rc, metadata with
  | OTSARDB_METADATA_OK, Some metadata =>
      let! (rc, r) := otsardb_journal_read_head store root in
      match rc, r with
      | OTSARDB_JOURNAL_OK, Some (head, _) =>
          if negb (bytes_eqb (hd_database_id head) (md_database_id metadata)) ||
             (hd_generation head =? 0) || (OTSARDB_RECOVERY_MAX_COMMITS <? hd_generation head) ||
             negb (zlen (hd_commit_sha256 head) =? OTSARDB_MANIFEST_SHA256_HEX_SIZE)
          then return! None
          else return! Some (metadata, head)
      | _, _ => return! None
      end
  | _, _ => return! None
  end.

(** The whole chain: walked once, then walked and applied to an empty file. *)
Definition restore_from_chain (root : bytes) (metadata : otsardb_db_metadata) (head : otsardb_head)
    (path : bytes) (cipher : option bytes) : M St bool :=
  let! ok := walk_manifest_chain root metadata head path false 0 cipher in
  if negb ok then return! false else
  let! _ := on_files (remove path) in
  let! ok := walk_manifest_chain root metadata head path true 0 cipher in
  let! ok := if ok then validate_head_checksum head path else return! false in
  if ok then return! true else (let! _ := on_files (remove path) in return! false).

Definition otsardb_recovery_restore_store_ex (root path : bytes) (cipher : option bytes) : M St bool :=
  if zlen root =? 0 then return! false else
  let! r := on_store (read_database root) in
  match r with
  | None => return! false
  | Some (metadata, head) =>
      let! done := restore_from_pointer root metadata head path cipher in
      if done then return! true else
      let! done := restore_from_discovered_checkpoint root metadata head path cipher in
      if done then return! true else
      restore_from_chain root metadata head path cipher
  end.

(** [thread_cipher] is the session cipher of the calling thread. *)
Definition otsardb_recovery_restore_store (thread_cipher : option bytes) (root path : bytes) : M St bool :=
  otsardb_recovery_restore_store_ex root path thread_cipher.

(** The copy loop; a fault leaves a prefix of the source. *)
Definition copy_file_bytes (src dst : bytes) : M local bool :=
  let! file := fopen_read src in
  match file with
  | None => return! false
  | Some data =>
      let! opened := fopen_write dst in
      if negb opened then return! false else
      let! written := fwrite_at dst 0 data in
      let! read_ok := io_call in                              (* ferror *)
      let! flushed := io_call in                              (* fflush *)
      return! written && read_ok && flushed
  end.

(** The base of the delta is the manifest its image was saved under. *)
Definition base_image_ok (key base_manifest_sha256 : bytes) (base_generation : Z) (base_image_path : bytes)
  : M St bool :=
  let! r := on_store (read_manifest_object key base_manifest_sha256) in
  match r with
  | None => return! false
  | Some (m, _) =>
      if negb (cm_generation m =? base_generation) then return! false
      else on_files (image_matches base_image_path m)
  end.

Definition delta_temp_path (base_image_path : bytes) : bytes := base_image_path ++ str ".deltatmp".

(** Returns the head on success. *)
Definition otsardb_recovery_materialize_delta_ex (root base_image_path : bytes) (base_generation : Z)
    (base_manifest_sha256 path : bytes) (cipher : option bytes) : M St (option otsardb_head) :=
  if (zlen root =? 0) || (zlen base_image_path =? 0) || (zlen path =? 0) || (base_generation =? 0) ||
     negb (zlen base_manifest_sha256 =? OTSARDB_MANIFEST_SHA256_HEX_SIZE) ||
     bytes_eqb base_image_path path
  then return! None
  else
    let! r := on_store (read_database root) in
    match r with
    | None => return! None
    | Some (metadata, head) =>
        if hd_generation head <=? base_generation then return! None else
        let! r := on_store (collect_chain_keys root metadata head base_generation) in
        match r with
        | None => return! None
        | Some keys =>
            match reverse keys with
            | [] => return! None
            | key :: _ =>
                let! ok := base_image_ok key base_manifest_sha256 base_generation base_image_path in
                if negb ok then return! None else
                let temp := delta_temp_path base_image_path in
                let! ok := on_files (copy_file_bytes base_image_path temp) in
                let! ok := if ok then apply_manifest_keys root (take (length keys - 1) keys) cipher temp
                           else return! false in
                let! ok := if ok then validate_head_checksum head temp else return! false in
                if negb ok then (let! _ := on_files (remove temp) in return! None) else
                let! _ := on_files (remove path) in
                let! ok := on_files (copy_file_bytes temp path) in
                let! _ := on_files (remove temp) in
                return! if ok then Some head else None
            end
        end
    end.

Definition otsardb_recovery_materialize_delta (thread_cipher : option bytes) (root base_image_path : bytes)
    (base_generation : Z) (base_manifest_sha256 path : bytes) : M St (option otsardb_head) :=
  otsardb_recovery_materialize_delta_ex root base_image_path base_generation base_manifest_sha256 path
    thread_cipher.
End Recovery.
