(* ===== verification/RecoveryTheory.v ===== *)
(** * Recovery: theorems

    A restore that succeeds leaves the image that the authenticated manifest
    chain denotes. The image is defined by pure functions of the contents of
    the store; the theorems relate the code, with its store calls, its files
    and its three sources (chain, checkpoint, cached image), to them. *)

From S2P Require Import Prelude CText JsonText ObjectStore Journal Codec WalBatch Sha256 Segment.
From S2P Require Import Checksum CheckpointPage DbMetadata CommitManifest CommitPublish.
From S2P Require Import CheckpointManifest Cipher LocalFile Recovery.

(** ** Images *)

(** The frames of a batch written over a file. *)
Fixpoint frames_image (count : nat) (i : Z) (batch : otsardb_wal_batch_view) (file : bytes) : option bytes :=
  match count with
  | O => Some file
  | Datatypes.S count' =>
      match otsardb_wal_batch_frame batch i with
      | None => None
      | Some (page_no, page) =>
          let offset := page_offset page_no (wb_page_size batch) in
          if INT64_MAX <? offset then None
          else frames_image count' (i + 1) batch (write_at file offset page)
      end
  end.

Definition batch_image (data file : bytes) : option bytes :=
  match otsardb_wal_batch_decode data with
  | None => None
  | Some batch =>
      match frames_image (Z.to_nat (wb_frame_count batch)) 0 batch file with
      | None => None
      | Some file =>
          let size := u64 (wb_database_size_pages batch * wb_page_size batch) in
          if INT64_MAX <? size then None else Some (resize file size)
      end
  end.

Section Images.
Context `{HSha : Sha256} `{HLz4 : Lz4} `{HA : Aead} (v : contents) (root : bytes) (cipher : option bytes).

Definition manifest_in (key sha : bytes) : option (otsardb_commit_manifest * enc_set) :=
  match v !! key with
  | None => None
  | Some object =>
      if negb ((zlen sha =? 0) || bytes_eqb (otsardb_sha256_hex_data (so_data object)) sha) then None
      else match otsardb_commit_manifest_decode_json (so_data object),
                 otsardb_segment_enc_parse_json (so_data object) with
      | Some m, Some enc => Some (m, enc)
      | _, _ => None
      end
  end.

(** The segments of a manifest applied to a file. *)
Fixpoint refs_image (m : otsardb_commit_manifest) (enc : enc_set) (i : nat)
    (refs : list otsardb_manifest_segment_ref) (file : bytes) : option bytes :=
  match refs with
  | [] => Some file
  | ref :: rest =>
      match segment_object_key root m ref with
      | None => None
      | Some key =>
          match v !! key with
          | None => None
          | Some object =>
              match segment_batch cipher m ref (match enc with Some es => es !! i | None => None end) key
                      (so_data object) with
              | None => None
              | Some batch =>
                  match batch_image batch file with
                  | None => None
                  | Some file => refs_image m enc (Datatypes.S i) rest file
                  end
              end
          end
      end
  end.

(** The manifests of [keys], oldest first, applied to a file. *)
Fixpoint keys_image (keys : list bytes) (file : bytes) : option bytes :=
  match keys with
  | [] => Some file
  | key :: rest =>
      match manifest_in key [] with
      | None => None
      | Some (m, enc) =>
          match refs_image m enc 0 (cm_segments m) file with
          | None => None
          | Some file => keys_image rest file
          end
      end
  end.

(** The authenticated chain below [pos], newest first. *)
Fixpoint chain_in (metadata : otsardb_db_metadata) (fuel : nat) (stop count : Z) (pos : chain_pos)
  : option (list bytes) :=
  if cp_generation pos <=? 0 then Some []
  else if OTSARDB_RECOVERY_MAX_COMMITS <=? count then None
  else match fuel with
  | O => None
  | Datatypes.S fuel' =>
      match manifest_in (cp_key pos) (cp_sha pos) with
      | None => None
      | Some (m, _) =>
          if negb (link_ok metadata pos m) then None
          else if negb (stop =? 0) && (cm_generation m =? stop) then Some [cp_key pos]
          else if cm_parent_generation m =? 0 then (if genesis_ok m then Some [cp_key pos] else None)
          else match parent_link root m with
          | None => None
          | Some next =>
              match chain_in metadata fuel' stop (count + 1) next with
              | Some keys => Some (cp_key pos :: keys)
              | None => None
              end
          end
      end
  end.

Definition head_chain (metadata : otsardb_db_metadata) (head : otsardb_head) (stop : Z) : option (list bytes) :=
  chain_in metadata (Z.to_nat (hd_generation head)) stop 0 (head_pos head).

(** The records of a page group, and the groups of a checkpoint. *)
Fixpoint records_image (count : nat) (j : Z) (pv : otsardb_checkpoint_page_view) (file : bytes) : option bytes :=
  match count with
  | O => Some file
  | Datatypes.S count' =>
      match otsardb_checkpoint_page_frame pv j with
      | None => None
      | Some (page_no, compressed, page) =>
          if compressed || negb (zlen page =? cp_page_size pv) then None else
          let offset := page_offset page_no (cp_page_size pv) in
          if INT64_MAX <? offset then None
          else records_image count' (j + 1) pv (write_at file offset page)
      end
  end.

Fixpoint groups_image (groups : list otsardb_checkpoint_page_group_ref) (file : bytes) : option bytes :=
  match groups with
  | [] => Some file
  | ref :: rest =>
      match root_join root (pg_key ref) (OTSARDB_KEY_MAX + 1) with
      | None => None
      | Some key =>
          match v !! key with
          | None => None
          | Some object =>
              if negb (bytes_eqb (otsardb_sha256_hex_data (so_data object)) (pg_sha256 ref) &&
                       (zlen (so_data object) =? pg_size ref)) then None
              else match otsardb_checkpoint_page_decode (so_data object) with
              | None => None
              | Some pv =>
                  match records_image (Z.to_nat (cp_page_count pv)) 0 pv file with
                  | None => None
                  | Some file => groups_image rest file
                  end
              end
          end
      end
  end.

Lemma keys_image_app a b file :
  keys_image (a ++ b) file = match keys_image a file with Some f => keys_image b f | None => None end.
Proof.
  revert file. induction a as [|key a IH]; intros file; cbn; [done|].
  destruct (manifest_in key []) as [[m enc]|]; [|done]. destruct (refs_image m enc 0 _ file); [apply IH|done].
Qed.
End Images.

(** A file has the checksum a manifest carries. *)
Definition checksum_ok (file : bytes) (m : otsardb_commit_manifest) : Prop :=
  cm_post_apply_checksum m = [] \/
  otsardb_checksum_parse (cm_post_apply_checksum m)
    = Some (otsardb_checksum_file file (cm_page_size m) (cm_database_size_pages m)).

(** ... and so has the manifest that HEAD designates by key and digest. *)
Definition head_checksum_ok `{Sha256} (v : contents) (head : otsardb_head) (file : bytes) : Prop :=
  exists ob m, v !! hd_commit_key head = Some ob /\
    otsardb_sha256_hex_data (so_data ob) = hd_commit_sha256 head /\
    otsardb_commit_manifest_decode_json (so_data ob) = Some m /\ checksum_ok file m.

(** ** Files without faults *)

Definition sound_io (l : local) : Prop := l_faults l = [].
Definition file_at (l : local) (path : bytes) : bytes := default [] (l_files l !! path).
Definition with_file (l : local) (path data : bytes) : local := mkLocal (<[path := data]> (l_files l)) [].

Lemma file_at_with l path data : file_at (with_file l path data) path = data.
Proof. unfold file_at, with_file. cbn. by rewrite lookup_insert_eq. Qed.

Lemma with_file_twice l path a b : with_file (with_file l path a) path b = with_file l path b.
Proof. unfold with_file. cbn. by rewrite insert_insert_eq. Qed.

Lemma sound_call l : sound_io l -> io_call l = (true, l).
Proof. destruct l as [files faults]. unfold sound_io. cbn. by intros ->. Qed.

Lemma sound_write l path offset data : sound_io l ->
  fwrite_at path offset data l = (true, with_file l path (write_at (file_at l path) offset data)).
Proof. destruct l as [files faults]. unfold sound_io. cbn. by intros ->. Qed.

Lemma sound_truncate l path size : sound_io l ->
  ftruncate path size l = (true, with_file l path (resize (file_at l path) size)).
Proof. destruct l as [files faults]. unfold sound_io. cbn. by intros ->. Qed.

Lemma sound_open_update l path : sound_io l ->
  fopen_update path l = (true, with_file l path (file_at l path)).
Proof.
  destruct l as [files faults]. unfold sound_io, fopen_update, fopen_write, with_file, file_at, mbind_, mret_.
  cbn. intros ->. cbn. destruct (files !! path) as [f|] eqn:E; cbn; [|done]. by rewrite insert_id.
Qed.

Lemma sound_write_page l path page_no ps page : sound_io l ->
  write_page path page_no ps page l
  = if INT64_MAX <? page_offset page_no ps then (false, l)
    else (true, with_file l path (write_at (file_at l path) (page_offset page_no ps) page)).
Proof. intros H. unfold write_page. case_match; [done|by apply sound_write]. Qed.

Lemma sound_with l path data : sound_io (with_file l path data).
Proof. done. Qed.
#[export] Hint Resolve sound_with : otsar.

(** A run on sound files that returns true writes the image of [image]. *)
Definition writes_image (m : M local bool) (path : bytes) (image : bytes -> option bytes) : Prop :=
  forall l l', sound_io l -> m l = (true, l') ->
    exists f, image (file_at l path) = Some f /\ l' = with_file l path f.

Lemma apply_frames_image count : forall i batch path l l',
  sound_io l -> l = with_file l path (file_at l path) ->
  apply_frames count i batch path l = (true, l') ->
  exists f, frames_image count i batch (file_at l path) = Some f /\ l' = with_file l path f.
Proof.
  induction count as [|count IH]; intros i batch path l l' Hs Hl H; cbn [apply_frames frames_image] in *.
  { unfold mret_ in H. injection H as <-. by exists (file_at l path). }
  destruct (otsardb_wal_batch_frame batch i) as [[page_no page]|]; [|done].
  unfold mbind_ in H. rewrite sound_write_page in H by done.
  destruct (INT64_MAX <? page_offset page_no (wb_page_size batch)); [done|].
  apply IH in H as (f & Hf & ->); [|done|by rewrite file_at_with, with_file_twice].
  rewrite file_at_with in Hf. exists f. split; [done|apply with_file_twice].
Qed.

Lemma apply_batch_writes data path :
  writes_image (otsardb_recovery_apply_wal_batch_file data path) path (batch_image data).
Proof.
  intros l l' Hs H. unfold otsardb_recovery_apply_wal_batch_file, batch_image in *.
  destruct (otsardb_wal_batch_decode data) as [batch|]; [|done]. unfold mbind_ in H.
  rewrite sound_open_update in H by done. cbn [negb] in H.
  destruct (apply_frames _ 0 batch path _) as [[] l1] eqn:Ea; [|done]. cbn [negb] in H.
  apply apply_frames_image in Ea as (f & Hf & ->); [|done|by rewrite file_at_with, with_file_twice].
  rewrite file_at_with in Hf. rewrite with_file_twice in H. rewrite Hf.
  rewrite sound_call in H by done. cbn [negb] in H.
  destruct (INT64_MAX <? u64 _); [done|]. rewrite sound_truncate, with_file_twice, file_at_with in H by done.
  cbn [negb] in H. rewrite !sound_call in H by done. cbn [negb] in H. injection H as <-. eauto.
Qed.

Lemma apply_records_image count : forall j pv path l l',
  sound_io l -> l = with_file l path (file_at l path) ->
  apply_group_records count j pv path l = (true, l') ->
  exists f, records_image count j pv (file_at l path) = Some f /\ l' = with_file l path f.
Proof.
  induction count as [|count IH]; intros j pv path l l' Hs Hl H; cbn [apply_group_records records_image] in *.
  { unfold mret_ in H. injection H as <-. by exists (file_at l path). }
  destruct (otsardb_checkpoint_page_frame pv j) as [[[page_no compressed] page]|]; [|done].
  destruct (_ || _); [done|]. unfold mbind_ in H. rewrite sound_write_page in H by done.
  destruct (INT64_MAX <? page_offset page_no (cp_page_size pv)); [done|].
  apply IH in H as (f & Hf & ->); [|done|by rewrite file_at_with, with_file_twice].
  rewrite file_at_with in Hf. exists f. split; [done|apply with_file_twice].
Qed.

Lemma apply_group_writes pv path :
  writes_image (apply_page_group pv path) path (records_image (Z.to_nat (cp_page_count pv)) 0 pv).
Proof.
  intros l l' Hs H. unfold apply_page_group, mbind_ in H. rewrite sound_open_update in H by done.
  cbn [negb] in H. apply apply_records_image in H as (f & Hf & ->); [|done|by rewrite file_at_with, with_file_twice].
  rewrite file_at_with in Hf. exists f. split; [done|apply with_file_twice].
Qed.

(** Only [path] changed, and it holds [f]. *)
Definition wrote (path : bytes) (l l' : local) (f : bytes) : Prop :=
  sound_io l' /\ file_at l' path = f /\ forall p, p <> path -> l_files l' !! p = l_files l !! p.

Lemma wrote_refl path l : sound_io l -> wrote path l l (file_at l path).
Proof. by intros H. Qed.

Lemma wrote_with path l f : wrote path l (with_file l path f) f.
Proof.
  split_and!; [done|apply file_at_with|]. intros p Hp. unfold with_file. cbn. by rewrite lookup_insert_ne.
Qed.

Lemma wrote_trans path l1 l2 l3 f g : wrote path l1 l2 f -> wrote path l2 l3 g -> wrote path l1 l3 g.
Proof. intros (_ & _ & H1) (? & ? & H2). split_and!; try done. intros p Hp. by rewrite H2, H1. Qed.

Lemma sound_remove path l : sound_io l -> remove path l = (tt, mkLocal (delete path (l_files l)) []).
Proof. destruct l as [files faults]. unfold sound_io. cbn. by intros ->. Qed.

Create HintDb recovery.

(** ** What a run may touch *)

(** Sound files stay sound, and no other path changes. *)
Definition calm {A} (m : M local A) : Prop := forall l, sound_io l -> sound_io (snd (m l)).

Lemma calm_ret {A} (a : A) : calm (mret_ a).
Proof. by intros l. Qed.

Lemma calm_bind {A B} (m : M local A) (k : A -> M local B) : calm m -> (forall a, calm (k a)) -> calm (mbind_ m k).
Proof. intros Hm Hk l Hl. unfold mbind_. specialize (Hm l Hl). destruct (m l) as [a l']. by apply Hk. Qed.

Lemma calm_pop : calm io_pop.
Proof. intros l Hl. unfold io_pop. by rewrite Hl. Qed.

Lemma calm_file_of path : calm (file_of path).
Proof. by intros l. Qed.

Lemma calm_set path data : calm (set_file path data).
Proof. by intros l. Qed.

Lemma calm_drop path : calm (drop_file path).
Proof. by intros l. Qed.

Definition confined {S A} (path : bytes) (m : M (S * local) A) : Prop :=
  forall st r st', m st = (r, st') ->
    (sound_io (snd st) -> sound_io (snd st')) /\
    forall p, p <> path -> l_files (snd st') !! p = l_files (snd st) !! p.

Lemma confined_ret {S A} path (a : A) : confined (S := S) path (mret_ a).
Proof. intros st r st' H. by injection H as _ <-. Qed.

Lemma confined_bind {S A B} path (m : M (S * local) A) (k : A -> M (S * local) B) :
  confined path m -> (forall a, confined path (k a)) -> confined path (mbind_ m k).
Proof.
  intros Hm Hk st r st' H. unfold mbind_ in H. destruct (m st) as [a st1] eqn:E.
  apply Hm in E as [Hs1 Ho1]. apply Hk in H as [Hs2 Ho2]. split; [auto|].
  intros p Hp. by rewrite Ho2, Ho1.
Qed.

Lemma confined_on_store {S A} path (m : M S A) : confined path (on_store m).
Proof. intros [s l] r st' H. unfold on_store in H. cbn in H. destruct (m s). by injection H as _ <-. Qed.

Lemma confined_on_files {S A} path (m : M local A) :
  calm m -> only_path path m -> confined (S := S) path (on_files m).
Proof.
  intros Hc Ho [s l] r st' H. unfold on_files in H. cbn in H. specialize (Hc l). specialize (Ho l).
  destruct (m l). by injection H as _ <-.
Qed.

#[export] Hint Resolve calm_ret calm_pop calm_file_of calm_set calm_drop : files.
#[export] Hint Resolve confined_ret confined_on_store : recovery.

Ltac calm_tac := repeat first [solve [eauto 2 with files] | apply calm_bind; intros | case_match].

Lemma calm_call : calm io_call.
Proof. unfold io_call. calm_tac. Qed.
#[export] Hint Resolve calm_call : files.

Lemma calm_remove path : calm (remove path).
Proof. unfold remove. calm_tac. Qed.
#[export] Hint Resolve calm_remove : files.

Lemma calm_open_write path : calm (fopen_write path).
Proof. unfold fopen_write. calm_tac. Qed.
#[export] Hint Resolve calm_open_write : files.

Lemma calm_open_update path : calm (fopen_update path).
Proof. unfold fopen_update. calm_tac. Qed.

Lemma calm_open_read path : calm (fopen_read path).
Proof. unfold fopen_read. calm_tac. Qed.

Lemma calm_write path offset data : calm (fwrite_at path offset data).
Proof. unfold fwrite_at. calm_tac. Qed.

Lemma calm_truncate path size : calm (ftruncate path size).
Proof. unfold ftruncate. calm_tac. Qed.
#[export] Hint Resolve calm_open_update calm_open_read calm_write calm_truncate : files.

Ltac confined_tac :=
  repeat first
    [ solve [eauto 3 with recovery] | apply confined_bind; intros
    | apply confined_on_files; [calm_tac|only_tac] | case_match ].

Lemma frames_confined count : forall i batch path,
  calm (apply_frames count i batch path) /\ only_path path (apply_frames count i batch path).
Proof.
  induction count as [|count IH]; intros i batch path; cbn [apply_frames];
    (split; [calm_tac|only_tac]); unfold write_page; calm_tac; only_tac; apply IH.
Qed.

Lemma batch_calm data path : calm (otsardb_recovery_apply_wal_batch_file data path).
Proof. unfold otsardb_recovery_apply_wal_batch_file. calm_tac. apply frames_confined. Qed.

Lemma batch_only data path : only_path path (otsardb_recovery_apply_wal_batch_file data path).
Proof. unfold otsardb_recovery_apply_wal_batch_file. only_tac. apply frames_confined. Qed.

Lemma records_confined count : forall j pv path,
  calm (apply_group_records count j pv path) /\ only_path path (apply_group_records count j pv path).
Proof.
  induction count as [|count IH]; intros j pv path; cbn [apply_group_records];
    (split; [calm_tac|only_tac]); unfold write_page; calm_tac; only_tac; apply IH.
Qed.

Lemma group_calm pv path : calm (apply_page_group pv path).
Proof. unfold apply_page_group. calm_tac. apply records_confined. Qed.

Lemma group_only pv path : only_path path (apply_page_group pv path).
Proof. unfold apply_page_group. only_tac. apply records_confined. Qed.
#[export] Hint Resolve batch_calm batch_only group_calm group_only : files.

Lemma matches_calm path m : calm (image_matches path m).
Proof. unfold image_matches, file_size_u64, validate_file_against_manifest_checksum. calm_tac. Qed.

Lemma matches_only path q m : only_path path (image_matches q m).
Proof. unfold image_matches, file_size_u64, validate_file_against_manifest_checksum. only_tac. Qed.

Lemma validate_calm path ps db hex : calm (validate_file_against_manifest_checksum path ps db hex).
Proof. unfold validate_file_against_manifest_checksum. calm_tac. Qed.

Lemma validate_only path q ps db hex : only_path path (validate_file_against_manifest_checksum q ps db hex).
Proof. unfold validate_file_against_manifest_checksum. only_tac. Qed.
#[export] Hint Resolve matches_calm matches_only validate_calm validate_only : files.

Section Confined.
Context `{HSha : Sha256} `{HLz4 : Lz4} `{HA : Aead} {S : Type} (store : otsardb_object_store S).

Lemma confined_refs root m enc cipher path refs : forall i,
  confined path (apply_segment_refs store root m enc cipher path i refs).
Proof. induction refs as [|ref refs IH]; intros i; cbn [apply_segment_refs]; confined_tac. Qed.

Lemma confined_keys root cipher path keys : confined path (apply_keys_in_order store root keys cipher path).
Proof.
  induction keys as [|key keys IH]; cbn [apply_keys_in_order]; confined_tac. apply confined_refs.
Qed.

Lemma confined_groups root path groups : confined path (apply_page_groups store root groups path).
Proof. induction groups as [|ref groups IH]; cbn [apply_page_groups]; confined_tac. Qed.

Lemma confined_manifest_keys root keys cipher path : confined path (apply_manifest_keys store root keys cipher path).
Proof. apply confined_keys. Qed.
Hint Resolve confined_groups confined_manifest_keys : recovery.

Lemma confined_walk root md head path apply stop cipher :
  confined path (walk_manifest_chain store root md head path apply stop cipher).
Proof. unfold walk_manifest_chain. confined_tac. Qed.
Hint Resolve confined_walk : recovery.

Lemma confined_pages root cp path : confined path (otsardb_recovery_apply_checkpoint_pages store root cp path).
Proof. unfold otsardb_recovery_apply_checkpoint_pages. confined_tac. Qed.
Hint Resolve confined_pages : recovery.

Lemma confined_validate head path : confined path (validate_head_checksum store head path).
Proof. unfold validate_head_checksum. confined_tac. Qed.
Hint Resolve confined_validate : recovery.

Lemma confined_image root head cp keys covered path cipher :
  confined path (apply_checkpoint_image store root head cp keys covered path cipher).
Proof. unfold apply_checkpoint_image. confined_tac. Qed.
Hint Resolve confined_image : recovery.

Lemma confined_pointer root md head path cipher :
  confined path (restore_from_pointer store root md head path cipher).
Proof. unfold restore_from_pointer. confined_tac. Qed.

Lemma confined_discovered root md head path cipher :
  confined path (restore_from_discovered_checkpoint store root md head path cipher).
Proof. unfold restore_from_discovered_checkpoint, recovery_apply_discovered_checkpoint. confined_tac. Qed.

Lemma confined_chain root md head path cipher :
  confined path (restore_from_chain store root md head path cipher).
Proof. unfold restore_from_chain. confined_tac. Qed.
Hint Resolve confined_pointer confined_discovered confined_chain : recovery.

Lemma confined_restore root path cipher :
  confined path (otsardb_recovery_restore_store_ex store root path cipher).
Proof. unfold otsardb_recovery_restore_store_ex. confined_tac. Qed.
End Confined.

Section Quiet.
Context `{HSha : Sha256} `{HLz4 : Lz4} `{HA : Aead}.
Context {S : Type} (store : otsardb_object_store S) (view : S -> contents)
        (Hlaws : StoreLaws store view quiet).

Lemma get_in key s r s' : otsardb_store_get store key s = (r, s') ->
  view s' = view s /\ forall ob, r = inr ob -> view s !! key = Some ob.
Proof.
  intros H. destruct (get_law _ _ _ _ H) as (E & Hr). split; [done|]. rewrite E. by intros ob ->.
Qed.

Lemma read_manifest_in key sha s r s' : read_manifest_object store key sha s = (r, s') ->
  view s' = view s /\ forall x, r = Some x -> manifest_in (view s) key sha = Some x.
Proof.
  unfold read_manifest_object, manifest_in, mbind_, mret_.
  destruct (otsardb_store_get store key s) as [[e|ob] s1] eqn:E; apply get_in in E as [Hv Hob]; intros H.
  { injection H as <- <-. split; [done|]. by intros x [=]. }
  rewrite (Hob ob eq_refl). destruct (negb _); [by injection H as <- <-|].
  destruct (otsardb_commit_manifest_decode_json (so_data ob)); [|by injection H as <- <-].
  destruct (otsardb_segment_enc_parse_json (so_data ob)); by injection H as <- <-.
Qed.

Lemma chain_loop_in root metadata stop fuel : forall count pos s r s',
  chain_loop (read_manifest_object store) (fun _ _ _ => mret_ true) fuel root metadata stop count pos s
    = (r, s') ->
  view s' = view s /\ forall keys, r = Some keys ->
    chain_in (view s) root metadata fuel stop count pos = Some keys.
Proof.
  induction fuel as [|fuel IH]; intros count pos s r s' H; cbn [chain_loop chain_in] in *;
    (destruct (cp_generation pos <=? 0); [by injection H as <- <-|]);
    (destruct (OTSARDB_RECOVERY_MAX_COMMITS <=? count); [by injection H as <- <-|]);
    [by injection H as <- <-|].
  unfold mbind_ in H. destruct (read_manifest_object store _ _ s) as [x s1] eqn:Er.
  apply read_manifest_in in Er as [Hv Hx]. destruct x as [[m enc]|]; [|by injection H as <- <-].
  rewrite (Hx _ eq_refl). destruct (negb (link_ok metadata pos m)); [by injection H as <- <-|].
  cbn [mret_ negb] in H. unfold mret_ in H.
  destruct (negb (stop =? 0) && (cm_generation m =? stop)); [by injection H as <- <-|].
  destruct (cm_parent_generation m =? 0); [by injection H as <- <-|].
  destruct (parent_link root m) as [next|]; [|by injection H as <- <-].
  destruct (chain_loop _ _ fuel _ _ _ _ next s1) as [rest s2] eqn:Ec.
  apply IH in Ec as [Hv2 Hk]. injection H as <- <-. rewrite Hv2. split; [done|].
  intros keys Hkeys. destruct rest as [ks|]; [|done]. injection Hkeys as <-.
  rewrite <- Hv, (Hk ks eq_refl). done.
Qed.

Lemma collect_in root metadata head stop s r s' :
  collect_chain_keys store root metadata head stop s = (r, s') ->
  view s' = view s /\ forall keys, r = Some keys -> head_chain (view s) root metadata head stop = Some keys.
Proof. apply chain_loop_in. Qed.

(** What a step of the replay does when it returns true on sound files. *)
Definition replays (v : contents) (path : bytes) (image : bytes -> option bytes) (m : M (S * local) bool) : Prop :=
  forall s l s' l', sound_io l -> view s = v -> m (s, l) = (true, (s', l')) ->
    view s' = v /\ exists f, image (file_at l path) = Some f /\ wrote path l l' f.

Lemma apply_refs_replays v root m enc cipher path refs : forall i,
  replays v path (refs_image v root cipher m enc i refs)
    (apply_segment_refs store root m enc cipher path i refs).
Proof.
  induction refs as [|ref refs IH]; intros i s l s' l' Hs Hv H; cbn [apply_segment_refs refs_image] in *.
  { unfold mret_ in H. injection H as <- <-. split; [done|]. eauto using wrote_refl. }
  destruct (segment_object_key root m ref) as [key|]; [|done]. unfold mbind_, on_store in H. cbn [fst snd] in H.
  destruct (otsardb_store_get store key s) as [rc s1] eqn:Eg. apply get_in in Eg as [Hv1 Hob].
  rewrite Hv in Hv1, Hob.
  destruct rc as [e|ob]; [done|]. rewrite (Hob ob eq_refl).
  destruct (segment_batch _ _ _ _ _ _) as [batch|]; [|done]. unfold on_files in H. cbn [fst snd] in H.
  destruct (otsardb_recovery_apply_wal_batch_file batch path l) as [ok l1] eqn:Ea. destruct ok; [|done].
  destruct (apply_batch_writes batch path l l1 Hs Ea) as (f & Hf & ->). rewrite Hf.
  apply IH in H as (Hv2 & g & Hg & Hw); [|done|done]. rewrite file_at_with in Hg.
  split; [done|]. exists g. split; [done|]. eapply wrote_trans; [apply wrote_with|exact Hw].
Qed.

Lemma apply_keys_replays v root cipher path keys :
  replays v path (keys_image v root cipher keys) (apply_keys_in_order store root keys cipher path).
Proof.
  induction keys as [|key keys IH]; intros s l s' l' Hs Hv H; cbn [apply_keys_in_order keys_image] in *.
  { unfold mret_ in H. injection H as <- <-. split; [done|]. eauto using wrote_refl. }
  unfold mbind_, on_store in H. cbn [fst snd] in H.
  destruct (read_manifest_object store key [] s) as [r s1] eqn:Er. apply read_manifest_in in Er as [Hv1 Hx].
  rewrite Hv in Hv1, Hx.
  destruct r as [[m enc]|]; [|done]. rewrite (Hx _ eq_refl).
  destruct (apply_manifest_segments store root m enc cipher path (s1, l)) as [ok [s2 l2]] eqn:Ea.
  destruct ok; [|done]. apply (apply_refs_replays v) in Ea as (Hv2 & f & Hf & Hw); [|done|done].
  rewrite Hf. apply IH in H as (Hv3 & g & Hg & Hw2); [|apply Hw|done].
  rewrite (proj1 (proj2 Hw)) in Hg. split; [done|]. exists g. split; [done|].
  eapply wrote_trans; [exact Hw|exact Hw2].
Qed.

Lemma apply_groups_replays v root path groups :
  replays v path (groups_image v root groups) (apply_page_groups store root groups path).
Proof.
  induction groups as [|ref groups IH]; intros s l s' l' Hs Hv H; cbn [apply_page_groups groups_image] in *.
  { unfold mret_ in H. injection H as <- <-. split; [done|]. eauto using wrote_refl. }
  destruct (root_join root (pg_key ref) _) as [key|]; [|done]. unfold mbind_, on_store in H. cbn [fst snd] in H.
  destruct (otsardb_store_get store key s) as [rc s1] eqn:Eg. apply get_in in Eg as [Hv1 Hob].
  rewrite Hv in Hv1, Hob.
  destruct rc as [e|ob]; [done|]. rewrite (Hob ob eq_refl). destruct (negb _); [done|].
  destruct (otsardb_checkpoint_page_decode (so_data ob)) as [pv|]; [|done].
  unfold on_files in H. cbn [fst snd] in H.
  destruct (apply_page_group pv path l) as [ok l1] eqn:Ea. destruct ok; [|done].
  destruct (apply_group_writes pv path l l1 Hs Ea) as (f & Hf & ->). rewrite Hf.
  apply IH in H as (Hv2 & g & Hg & Hw); [|done|done]. rewrite file_at_with in Hg.
  split; [done|]. exists g. split; [done|]. eapply wrote_trans; [apply wrote_with|exact Hw].
Qed.

(** ** Nothing writes to the store *)

Definition reads {A} (m : M S A) : Prop := forall s r s', m s = (r, s') -> view s' = view s.
Definition keeps_store {A} (m : M (S * local) A) : Prop :=
  forall st r st', m st = (r, st') -> view (fst st') = view (fst st).

Lemma reads_ret {A} (a : A) : reads (mret_ a).
Proof. intros s r s' H. by injection H as <- <-. Qed.

Lemma reads_bind {A B} (m : M S A) (k : A -> M S B) : reads m -> (forall a, reads (k a)) -> reads (mbind_ m k).
Proof.
  intros Hm Hk s r s' H. unfold mbind_ in H. destruct (m s) as [a s1] eqn:E.
  rewrite (Hk _ _ _ _ H). by eapply Hm.
Qed.

Lemma reads_get key : reads (otsardb_store_get store key).
Proof. intros s r s' H. by apply get_in in H as [? _]. Qed.

Lemma keeps_ret {A} (a : A) : keeps_store (mret_ a).
Proof. intros s r s' H. by injection H as <- <-. Qed.

Lemma keeps_bind {A B} (m : M (S * local) A) (k : A -> M (S * local) B) :
  keeps_store m -> (forall a, keeps_store (k a)) -> keeps_store (mbind_ m k).
Proof.
  intros Hm Hk s r s' H. unfold mbind_ in H. destruct (m s) as [a s1] eqn:E.
  rewrite (Hk _ _ _ _ H). by eapply Hm.
Qed.

Lemma keeps_on_store {A} (m : M S A) : reads m -> keeps_store (on_store m).
Proof.
  intros Hm [s l] r st' H. unfold on_store in H. cbn in H. destruct (m s) as [a s1] eqn:E.
  injection H as <- <-. by eapply Hm.
Qed.

Lemma keeps_on_files {A} (m : M local A) : keeps_store (on_files (S := S) m).
Proof.
  intros [s l] r st' H. unfold on_files in H. cbn in H. destruct (m l). by injection H as <- <-.
Qed.

Hint Resolve reads_ret reads_get keeps_ret keeps_on_store keeps_on_files : recovery.

Ltac reads_tac :=
  repeat first [solve [eauto 3 with recovery] | apply reads_bind; intros | case_match].
Ltac keeps_tac :=
  repeat first [solve [eauto 3 with recovery] | apply keeps_bind; intros | apply keeps_on_store | case_match].

Lemma reads_manifest key sha : reads (read_manifest_object store key sha).
Proof. unfold read_manifest_object. reads_tac. Qed.
Hint Resolve reads_manifest : recovery.

Lemma reads_collect root metadata head stop : reads (collect_chain_keys store root metadata head stop).
Proof. intros s r s' H. by apply collect_in in H as [? _]. Qed.
Hint Resolve reads_collect : recovery.

Lemma reads_bind_checkpoint root metadata head cp : reads (bind_checkpoint store root metadata head cp).
Proof. unfold bind_checkpoint. reads_tac. Qed.
Hint Resolve reads_bind_checkpoint : recovery.

Lemma keeps_refs root m enc cipher path refs : forall i,
  keeps_store (apply_segment_refs store root m enc cipher path i refs).
Proof. induction refs as [|ref refs IH]; intros i; cbn [apply_segment_refs]; keeps_tac. Qed.

Lemma keeps_keys root cipher path keys : keeps_store (apply_keys_in_order store root keys cipher path).
Proof.
  induction keys as [|key keys IH]; cbn [apply_keys_in_order]; keeps_tac. apply keeps_refs.
Qed.
Hint Resolve keeps_keys : recovery.

Lemma keeps_groups root path groups : keeps_store (apply_page_groups store root groups path).
Proof. induction groups as [|ref groups IH]; cbn [apply_page_groups]; keeps_tac. Qed.
Hint Resolve keeps_groups : recovery.

Lemma keeps_validate head path : keeps_store (validate_head_checksum store head path).
Proof. unfold validate_head_checksum. keeps_tac. Qed.
Hint Resolve keeps_validate : recovery.

Lemma reads_genesis keys : reads (genesis_check store keys).
Proof. unfold genesis_check. reads_tac. Qed.
Hint Resolve reads_genesis : recovery.

Lemma keeps_walk root metadata head path apply stop cipher :
  keeps_store (walk_manifest_chain store root metadata head path apply stop cipher).
Proof. unfold walk_manifest_chain, apply_manifest_keys. keeps_tac. Qed.
Hint Resolve keeps_walk : recovery.

Lemma keeps_checkpoint_image root head cp keys covered path cipher :
  keeps_store (apply_checkpoint_image store root head cp keys covered path cipher).
Proof.
  unfold apply_checkpoint_image, otsardb_recovery_apply_checkpoint_pages, apply_manifest_keys. keeps_tac.
Qed.
Hint Resolve keeps_checkpoint_image : recovery.

Lemma reads_metadata root : reads (otsardb_db_metadata_read store root).
Proof. unfold otsardb_db_metadata_read. reads_tac. Qed.
Lemma reads_head root : reads (otsardb_journal_read_head store root).
Proof. unfold otsardb_journal_read_head. reads_tac. Qed.
Lemma reads_pointer root : reads (otsardb_checkpoint_ptr_read store root).
Proof. unfold otsardb_checkpoint_ptr_read. reads_tac. Qed.
Hint Resolve reads_metadata reads_head reads_pointer : recovery.

Lemma reads_database root : reads (read_database store root).
Proof. unfold read_database. reads_tac. Qed.
Hint Resolve reads_database : recovery.

Lemma keeps_from_pointer root metadata head path cipher :
  keeps_store (restore_from_pointer store root metadata head path cipher).
Proof. unfold restore_from_pointer. keeps_tac. Qed.

(** ** Validation, whatever faults strike *)

Lemma read_file_ok path l f l' : fopen_read path l = (Some f, l') ->
  l_files l' = l_files l /\ file_at l path = f.
Proof.
  unfold fopen_read, io_call, io_pop, file_of, mbind_, mret_. destruct l as [files [|[] faults]]; cbn;
    intros H; try done; injection H as H <-; split; try done; unfold file_at; cbn; by rewrite H.
Qed.

Lemma call_files l b l' : io_call l = (b, l') -> l_files l' = l_files l.
Proof.
  unfold io_call, io_pop, mbind_, mret_. destruct l as [files [|[] faults]]; cbn; intros H; by injection H as _ <-.
Qed.

Lemma validate_file_ok path ps db hex l l' :
  validate_file_against_manifest_checksum path ps db hex l = (true, l') ->
  l_files l' = l_files l /\
  (hex = [] \/ otsardb_checksum_parse hex = Some (otsardb_checksum_file (file_at l path) ps db)).
Proof.
  unfold validate_file_against_manifest_checksum, mbind_, mret_.
  destruct (Z.eqb_spec (zlen hex) 0) as [E|]; [intros H; injection H as <-; split; [done|]; left; by apply zlen_0|].
  destruct (otsardb_checksum_parse hex) as [x|]; [|done].
  destruct (fopen_read path l) as [[f|] l1] eqn:Er; [|done]. apply read_file_ok in Er as [Hf ->].
  intros H. injection H as He <-. split; [done|]. right. prop_bools. by subst.
Qed.

Lemma validate_head_ok head path s l s' l' :
  validate_head_checksum store head path (s, l) = (true, (s', l')) ->
  l_files l' = l_files l /\ head_checksum_ok (view s) head (file_at l path).
Proof.
  unfold validate_head_checksum, mbind_, on_store, on_files, mret_. cbn [fst snd].
  destruct (otsardb_store_get store (hd_commit_key head) s) as [[e|ob] s1] eqn:Eg; [done|].
  apply get_in in Eg as [Hv Hob]. specialize (Hob ob eq_refl).
  destruct (bytes_eqb _ _) eqn:Es; [|done]. apply bytes_eqb_eq in Es. cbn [negb].
  destruct (otsardb_commit_manifest_decode_json (so_data ob)) as [m|] eqn:Em; [|done]. cbn [fst snd].
  destruct (validate_file_against_manifest_checksum path _ _ _ l) as [ok l1] eqn:Ef.
  intros H. injection H as -> <- <-. apply validate_file_ok in Ef as [Hf Hc].
  split; [done|]. exists ob, m. by split_and!.
Qed.

Lemma image_matches_ok path m l l' : image_matches path m l = (true, l') ->
  l_files l' = l_files l /\ zlen (file_at l path) = u64 (cm_database_size_pages m * cm_page_size m) /\
  checksum_ok (file_at l path) m.
Proof.
  unfold image_matches, file_size_u64, mbind_, mret_.
  destruct (fopen_read path l) as [[f|] l1] eqn:Er; [|done]. apply read_file_ok in Er as [Hf <-].
  destruct (io_call l1) as [b l2] eqn:Ec. apply call_files in Ec.
  case_bool_decide as Hd; [|done]. cbn [negb]. intros H. apply validate_file_ok in H as [Hf2 Hc].
  destruct b; [|done]. injection Hd as Hd.
  assert (file_at l2 path = file_at l path) as E by (unfold file_at; by rewrite Ec, Hf).
  rewrite E in Hc. split_and!; [by rewrite Hf2, Ec, Hf|done|exact Hc].
Qed.

Lemma sound_open_read path l : sound_io l -> fopen_read path l = (l_files l !! path, l).
Proof. destruct l as [files faults]. unfold sound_io. cbn. by intros ->. Qed.

Lemma sound_image_matches path m l : sound_io l -> snd (image_matches path m l) = l.
Proof.
  intros Hs. unfold image_matches, file_size_u64, validate_file_against_manifest_checksum, mbind_, mret_.
  rewrite sound_open_read by done. destruct (l_files l !! path); [rewrite sound_call by done|];
    repeat case_match; rewrite ?sound_open_read in * by done; simplify_eq; done.
Qed.

Lemma files_at l l' path : l_files l' = l_files l -> file_at l' path = file_at l path.
Proof. unfold file_at. by intros ->. Qed.

(** ** The three sources *)

(** The image of the whole chain. *)
Definition chain_restores (v : contents) (root : bytes) (md : otsardb_db_metadata) (head : otsardb_head)
    (cipher : option bytes) (f : bytes) : Prop :=
  exists keys, head_chain v root md head 0 = Some keys /\ keys_image v root cipher (reverse keys) [] = Some f.

(** The checkpoint is bound to the chain: the authenticated manifest of its
    covered generation is its base, by commit id and digest. *)
Definition checkpoint_bound (v : contents) (root : bytes) (md : otsardb_db_metadata) (head : otsardb_head)
    (cp : otsardb_checkpoint_manifest) (keys : list bytes) (covered : otsardb_commit_manifest) : Prop :=
  head_chain v root md head (ck_covered_generation cp) = Some keys /\
  exists key rest enc ob, reverse keys = key :: rest /\ manifest_in v key [] = Some (covered, enc) /\
    cm_generation covered = ck_covered_generation cp /\ cm_commit_id covered = ck_base_commit_id cp /\
    v !! key = Some ob /\ otsardb_sha256_hex_data (so_data ob) = ck_base_manifest_sha256 cp.

(** The pages of a stored, bound checkpoint that match its base, then the newer
    generations (and the covered one again when it carries no checksum). *)
Definition checkpoint_restores (v : contents) (root : bytes) (md : otsardb_db_metadata) (head : otsardb_head)
    (cipher : option bytes) (f : bytes) : Prop :=
  exists cp_key cp_ob cp keys covered base,
    v !! cp_key = Some cp_ob /\ otsardb_checkpoint_manifest_decode (so_data cp_ob) = Some cp /\
    checkpoint_identity_ok md head cp = true /\ checkpoint_bound v root md head cp keys covered /\
    groups_image v root (ck_page_groups cp) [] = Some base /\
    zlen base = u64 (cm_database_size_pages covered * cm_page_size covered) /\ checksum_ok base covered /\
    keys_image v root cipher
      (reverse (if zlen (cm_post_apply_checksum covered) =? 0 then keys else take (length keys - 1) keys)) base
      = Some f.

Lemma bind_checkpoint_ok root md head cp s keys covered s' :
  bind_checkpoint store root md head cp s = (Some (keys, covered), s') ->
  view s' = view s /\ checkpoint_bound (view s) root md head cp keys covered.
Proof.
  intros H. split; [by eapply reads_bind_checkpoint|]. revert H. unfold bind_checkpoint, mbind_, mret_.
  destruct (collect_chain_keys store root md head _ s) as [[ks|] s1] eqn:Ec; [|done].
  apply collect_in in Ec as [Hv1 Hk]. specialize (Hk ks eq_refl).
  destruct (reverse ks) as [|key rest] eqn:Erev; [done|].
  destruct (read_manifest_object store key [] s1) as [[[m enc]|] s2] eqn:Er; [|done].
  apply read_manifest_in in Er as [Hv2 Hm]. specialize (Hm _ eq_refl).
  destruct (_ && _) eqn:Eb; [|done]. cbn [negb].
  destruct (otsardb_store_get store key s2) as [[e|ob] s3] eqn:Eg; [done|].
  apply get_in in Eg as [Hv3 Hob]. specialize (Hob ob eq_refl).
  intros H. destruct (bytes_eqb (otsardb_sha256_hex_data _) _) eqn:Es; [|done]. injection H as <- <- <-.
  apply andb_prop in Eb as [Eg Ei]. apply Z.eqb_eq in Eg. apply bytes_eqb_eq in Es, Ei. rewrite Hv1 in Hm. rewrite Hv2, Hv1 in Hob.
  split; [done|]. exists key, rest, enc, ob. by split_and!.
Qed.

(** On sound files, the checkpoint sequence from an absent file. *)
Lemma apply_checkpoint_image_ok root head cp keys covered path cipher s l s' l' :
  sound_io l -> file_at l path = [] ->
  apply_checkpoint_image store root head cp keys covered path cipher (s, l) = (true, (s', l')) ->
  exists base f, groups_image (view s) root (ck_page_groups cp) [] = Some base /\
    zlen base = u64 (cm_database_size_pages covered * cm_page_size covered) /\ checksum_ok base covered /\
    keys_image (view s) root cipher
      (reverse (if zlen (cm_post_apply_checksum covered) =? 0 then keys else take (length keys - 1) keys)) base
      = Some f /\
    head_checksum_ok (view s) head f /\ file_at l' path = f /\
    forall p, p <> path -> l_files l' !! p = l_files l !! p.
Proof.
  intros Hs He. unfold apply_checkpoint_image, otsardb_recovery_apply_checkpoint_pages, mbind_, mret_.
  destruct (apply_page_groups store root (ck_page_groups cp) path (s, l)) as [[] [s1 l1]] eqn:Eg; [|done].
  apply (apply_groups_replays (view s)) in Eg as (Hv1 & base & Hb & Hw1); [|done|done]. rewrite He in Hb.
  cbn [negb]. unfold on_files at 1. cbn [fst snd].
  destruct (image_matches path covered l1) as [[] l2] eqn:Ei; [|done]. destruct Hw1 as (Hs1 & Hfile1 & Hothers1).
  pose proof (sound_image_matches path covered l1 Hs1) as El. rewrite Ei in El. cbn [snd] in El. subst l2.
  apply image_matches_ok in Ei as (_ & Hz & Hc). rewrite Hfile1 in Hz, Hc. cbn [negb].
  set (ks := if zlen (cm_post_apply_checksum covered) =? 0 then keys else _).
  destruct (apply_manifest_keys store root ks cipher path (s1, l1)) as [[] [s3 l3]] eqn:Ea; [|done].
  apply (apply_keys_replays (view s)) in Ea as (Hv3 & f & Hf & (Hs3 & Hfile3 & Hothers3)); [|done|done].
  rewrite Hfile1 in Hf. intros H. apply validate_head_ok in H as [Hf4 Hhc]. rewrite Hfile3, Hv3 in Hhc.
  exists base, f. split_and!; try done.
  - by rewrite (files_at l3).
  - intros p Hp. by rewrite Hf4, Hothers3, Hothers1.
Qed.

End Quiet.
