(* ===== verification/RecoveryRestore.v ===== *)
(** * Recovery: what a restore guarantees

    The three sources of a restore (the pointer's checkpoint, a discovered
    checkpoint, the whole chain) and the materialisation of a delta, proved
    against the images of [RecoveryTheory]. *)

From S2P Require Import Prelude CText JsonText ObjectStore Journal Codec WalBatch Sha256 Segment.
From S2P Require Import Checksum CheckpointPage DbMetadata CommitManifest CommitManifestTheory CommitPublish.
From S2P Require Import CheckpointManifest Cipher LocalFile Recovery RecoveryTheory.

(** The image that either source denotes. *)
Definition restorable `{HSha : Sha256} `{HLz4 : Lz4} `{HA : Aead} (v : contents) (root : bytes)
    (md : otsardb_db_metadata) (head : otsardb_head) (cipher : option bytes) (f : bytes) : Prop :=
  (chain_restores v root md head cipher f \/ checkpoint_restores v root md head cipher f) /\
  head_checksum_ok v head f.

Section Restore.
Context `{HSha : Sha256} `{HLz4 : Lz4} `{HA : Aead}.
Context {S : Type} (store : otsardb_object_store S) (view : S -> contents)
        (Hlaws : StoreLaws store view quiet).

Lemma removed_empty path l : sound_io l -> file_at (snd (remove path l)) path = [].
Proof. intros Hs. rewrite sound_remove by done. unfold file_at. cbn. by rewrite lookup_delete_eq. Qed.

Lemma pointer_restores root md head path cipher s l s' l' : sound_io l ->
  restore_from_pointer store root md head path cipher (s, l) = (true, (s', l')) ->
  restorable (view s) root md head cipher (file_at l' path).
Proof.
  intros Hs. unfold restore_from_pointer, mbind_, mret_, on_store at 1. cbn [fst snd].
  destruct (otsardb_checkpoint_ptr_read store root s) as [[rc r] s1] eqn:Ep.
  pose proof (reads_pointer store view Hlaws root _ _ _ Ep) as Hv1.
  destruct rc; try done. destruct r as [[ptr ?]|]; [|done].
  destruct (negb _); [done|]. unfold on_store at 1. cbn [fst snd].
  destruct (otsardb_store_get store (pt_checkpoint_key ptr) s1) as [[e|ob] s2] eqn:Eg; [done|].
  apply (get_in store view Hlaws) in Eg as [Hv2 Hob]. specialize (Hob ob eq_refl).
  destruct (negb _); [done|].
  destruct (otsardb_checkpoint_manifest_decode (so_data ob)) as [cp|] eqn:Ecp; [|done].
  destruct (_ && _) eqn:Eid; [|done]. apply andb_prop in Eid as [_ Eid].
  cbn [negb]. unfold on_store. cbn [fst snd].
  destruct (bind_checkpoint store root md head cp s2) as [[[keys covered]|] s3] eqn:Eb; [|done].
  apply (bind_checkpoint_ok store view Hlaws) in Eb as [Hv3 Hb]. unfold on_files at 1. cbn [fst snd].
  rewrite (surjective_pairing (remove path l)).
  destruct (apply_checkpoint_image store root head cp keys covered path cipher _) as [[] [s4 l4]] eqn:Ea;
    [|by destruct (on_files _ _)].
  intros H. injection H as <- <-.
  apply (apply_checkpoint_image_ok store view Hlaws) in Ea
    as (base & f & Hg & Hz & Hc & Hk & Hh & Hf & _); [|by apply calm_remove|by apply removed_empty].
  rewrite Hv3, Hv2, Hv1 in Hg, Hk, Hh. rewrite Hv2, Hv1 in Hb. rewrite Hv1 in Hob. rewrite Hf.
  split; [right|done]. by exists (pt_checkpoint_key ptr), ob, cp, keys, covered, base.
Qed.

(** A checkpoint the search may choose. *)
Definition candidate (v : contents) (root : bytes) (md : otsardb_db_metadata) (head : otsardb_head)
    (cp : otsardb_checkpoint_manifest) : Prop :=
  exists key ob keys covered, v !! key = Some ob /\
    otsardb_checkpoint_manifest_decode (so_data ob) = Some cp /\
    checkpoint_identity_ok md head cp = true /\ checkpoint_bound v root md head cp keys covered.

Lemma evaluate_one_ok root md head best key s r s' :
  cp_discovery_evaluate_one store root md head best key s = (r, s') ->
  view s' = view s /\
  forall cp, r = Some cp -> best = Some cp \/ candidate (view s) root md head cp.
Proof.
  unfold cp_discovery_evaluate_one, mbind_, mret_.
  destruct (256 <=? _); [intros H; injection H as <- <-; auto|].
  destruct (root_join root _ _) as [k|]; [|intros H; injection H as <- <-; auto].
  destruct (otsardb_store_get store k s) as [[e|ob] s1] eqn:Eg;
    apply (get_in store view Hlaws) in Eg as [Hv1 Hob]; [intros H; injection H as <- <-; auto|].
  specialize (Hob ob eq_refl).
  destruct (negb _); [intros H; injection H as <- <-; auto|].
  destruct (otsardb_checkpoint_manifest_decode (so_data ob)) as [cp|] eqn:Ecp;
    [|intros H; injection H as <- <-; auto].
  destruct (checkpoint_identity_ok md head cp) eqn:Eid; cbn [negb]; [|intros H; injection H as <- <-; auto].
  destruct (bind_checkpoint store root md head cp s1) as [b s2] eqn:Eb. intros H. injection H as <- <-.
  pose proof (reads_bind_checkpoint store view Hlaws _ _ _ _ _ _ _ Eb) as Hv2.
  split; [congruence|]. destruct b as [[keys covered]|]; [|auto].
  apply (bind_checkpoint_ok store view Hlaws) in Eb as [_ Hb]. rewrite Hv1 in Hb.
  intros cp' Hr. assert (cp' = cp \/ best = Some cp') as [->|]; [|right; by exists k, ob, keys, covered|by left].
  destruct best as [b|]; [|left; congruence]. destruct (_ <? _); [left; congruence|by right].
Qed.

Lemma evaluate_ok root md head keys : forall best s r s',
  cp_discovery_evaluate store root md head best keys s = (r, s') ->
  view s' = view s /\
  forall cp, r = Some cp -> best = Some cp \/ candidate (view s) root md head cp.
Proof.
  induction keys as [|key keys IH]; intros best s r s' H; cbn [cp_discovery_evaluate] in H.
  { injection H as <- <-. auto. }
  unfold mbind_ in H. destruct (cp_discovery_evaluate_one _ _ _ _ _ _ _) as [best1 s1] eqn:E1.
  apply evaluate_one_ok in E1 as [Hv1 H1]. apply IH in H as [Hv2 H2]. split; [congruence|].
  rewrite Hv1 in H2. intros cp Hcp. destruct (H2 cp Hcp); auto.
Qed.

Lemma discovered_restores root md head path cipher s l s' l'
    (Hlist : forall p s r s', otsardb_store_list store p s = (r, s') -> view s' = view s) : sound_io l ->
  restore_from_discovered_checkpoint store root md head path cipher (s, l) = (true, (s', l')) ->
  restorable (view s) root md head cipher (file_at l' path).
Proof.
  intros Hs. unfold restore_from_discovered_checkpoint, recovery_apply_discovered_checkpoint, mbind_, mret_.
  destruct (root_join root _ _) as [prefix|]; [|done]. unfold on_store at 1. cbn [fst snd].
  destruct (otsardb_store_list store prefix s) as [[e|listed] s1] eqn:El; [done|]. apply Hlist in El.
  unfold on_store at 1. cbn [fst snd].
  destruct (cp_discovery_evaluate store root md head None _ s1) as [[cp|] s2] eqn:Ee; [|done].
  apply evaluate_ok in Ee as [Hv2 Hc]. destruct (Hc cp eq_refl) as [|(k & ob & keys & covered & Hob & Hd & Hid & Hb)];
    [done|]. rewrite El in Hv2, Hob, Hb.
  unfold on_store at 1. cbn [fst snd].
  destruct (collect_chain_keys store root md head _ s2) as [[ks|] s3] eqn:Ek; [|done].
  apply (collect_in store view Hlaws) in Ek as [Hv3 Hk]. specialize (Hk ks eq_refl). rewrite Hv2 in Hv3, Hk.
  pose proof Hb as (Hk' & key & rest & enc & ob' & Hrev & Hm & _). rewrite Hk' in Hk. injection Hk as <-.
  rewrite Hrev. unfold on_store at 1. cbn [fst snd].
  destruct (read_manifest_object store key [] s3) as [c s4] eqn:Er.
  apply (read_manifest_in store view Hlaws) in Er as [Hv4 Hx]. rewrite Hv3 in Hv4, Hx.
  unfold on_files at 1. cbn [fst snd]. rewrite (surjective_pairing (remove path l)).
  destruct c as [[covered' ?]|]; [|by destruct (on_files _ _)]. specialize (Hx _ eq_refl). rewrite Hm in Hx. injection Hx as <- <-.
  destruct (apply_checkpoint_image store root head cp keys covered path cipher _) as [[] [s5 l5]] eqn:Ea;
    [|by destruct (on_files _ _)].
  intros H. injection H as <- <-.
  apply (apply_checkpoint_image_ok store view Hlaws) in Ea
    as (base & f & Hg & Hz & Hcs & Hks & Hh & Hf & _); [|by apply calm_remove|by apply removed_empty].
  rewrite Hv4 in Hg, Hks, Hh. rewrite Hf. split; [right|done]. by exists k, ob, cp, keys, covered, base.
Qed.

Lemma walk_applies root md head path cipher s l s' l' : sound_io l -> file_at l path = [] ->
  walk_manifest_chain store root md head path true 0 cipher (s, l) = (true, (s', l')) ->
  view s' = view s /\ chain_restores (view s) root md head cipher (file_at l' path).
Proof.
  intros Hs He H. split; [by apply (keeps_walk store view Hlaws) in H|]. revert H.
  unfold walk_manifest_chain, mbind_, on_store at 1. cbn [fst snd].
  destruct (collect_chain_keys store root md head 0 s) as [[keys|] s1] eqn:Ek; [|done].
  apply (collect_in store view Hlaws) in Ek as [Hv1 Hk]. specialize (Hk keys eq_refl).
  rewrite orb_true_r. cbn [Z.eqb andb]. unfold on_store. cbn [fst snd].
  destruct (genesis_check store keys s1) as [[] s2] eqn:Eg; [|done].
  apply (reads_genesis store view Hlaws) in Eg. cbn [andb].
  intros H. apply (apply_keys_replays store view Hlaws (view s)) in H as (_ & f & Hf & Hw);
    [|done|congruence].
  rewrite He in Hf. destruct Hw as (_ & -> & _). by exists keys.
Qed.

Lemma chain_restored root md head path cipher s l s' l' : sound_io l ->
  restore_from_chain store root md head path cipher (s, l) = (true, (s', l')) ->
  restorable (view s) root md head cipher (file_at l' path).
Proof.
  intros Hs. unfold restore_from_chain, mbind_, mret_.
  destruct (walk_manifest_chain store root md head path false 0 cipher (s, l)) as [[] [s1 l1]] eqn:E1; [|done].
  pose proof (proj1 (confined_walk store root md head path false 0 cipher _ _ _ E1) Hs) as Hs1. cbn in Hs1.
  apply (keeps_walk store view Hlaws) in E1. cbn in E1. cbn [negb]. unfold on_files at 1. cbn [fst snd].
  rewrite (surjective_pairing (remove path l1)).
  destruct (walk_manifest_chain store root md head path true 0 cipher _) as [[] [s2 l2]] eqn:E2;
    [|by destruct (on_files _ _)].
  apply walk_applies in E2 as [Hv2 Hc]; [|by apply calm_remove|by apply removed_empty]. rewrite E1 in Hv2, Hc.
  destruct (validate_head_checksum store head path (s2, l2)) as [[] [s3 l3]] eqn:Ev;
    [|by destruct (on_files _ _)].
  apply (validate_head_ok store view Hlaws) in Ev as [Hf Hh]. intros H. injection H as <- <-.
  rewrite (files_at l2) by done. rewrite Hv2 in Hh. split; [by left|done].
Qed.
End Restore.

Section RestoreStore.
Context `{HSha : Sha256} `{HLz4 : Lz4} `{HA : Aead}.
Context {S : Type} (store : otsardb_object_store S) (view : S -> contents)
        (Hlaws : StoreLaws store view quiet)
        (Hlist : forall p s r s', otsardb_store_list store p s = (r, s') -> view s' = view s).

(** What the checkpoint sequences and the restore leave of the store. *)
Lemma reads_evaluate root md head best keys :
  reads view (cp_discovery_evaluate store root md head best keys).
Proof. intros s r s' H. by apply (evaluate_ok store view Hlaws) in H as [? _]. Qed.

Lemma reads_list p : reads view (otsardb_store_list store p).
Proof. intros s r s' H. by eapply Hlist. Qed.

Local Hint Resolve keeps_ret keeps_on_store keeps_on_files keeps_walk keeps_validate keeps_checkpoint_image
  keeps_from_pointer reads_evaluate reads_list reads_collect reads_manifest reads_database : recovery.

Ltac keeps_tac :=
  repeat first [solve [eauto 4 with recovery] | apply keeps_bind; intros | apply keeps_on_store | case_match].

Lemma keeps_from_discovered root md head path cipher :
  keeps_store view (restore_from_discovered_checkpoint store root md head path cipher).
Proof. unfold restore_from_discovered_checkpoint, recovery_apply_discovered_checkpoint. keeps_tac. Qed.

Lemma keeps_from_chain root md head path cipher :
  keeps_store view (restore_from_chain store root md head path cipher).
Proof. unfold restore_from_chain. keeps_tac. Qed.
Local Hint Resolve keeps_from_discovered keeps_from_chain : recovery.

Lemma keeps_restore root path cipher :
  keeps_store view (otsardb_recovery_restore_store_ex store root path cipher).
Proof. unfold otsardb_recovery_restore_store_ex. keeps_tac. Qed.

Lemma restore_image root path cipher s l s' l' : sound_io l ->
  otsardb_recovery_restore_store_ex store root path cipher (s, l) = (true, (s', l')) ->
  exists md head, fst (read_database store root s) = Some (md, head) /\
    restorable (view s) root md head cipher (file_at l' path).
Proof.
  intros Hs. unfold otsardb_recovery_restore_store_ex, mbind_, mret_.
  destruct (zlen root =? 0); [done|]. unfold on_store. cbn [fst snd].
  destruct (read_database store root s) as [[[md head]|] s1] eqn:Ed; [|done].
  apply (reads_database store view Hlaws) in Ed. intros H. exists md, head. split; [done|]. revert H.
  destruct (restore_from_pointer store root md head path cipher (s1, l)) as [ok [s2 l2]] eqn:E1. destruct ok.
  { intros H. injection H as <- <-. apply (pointer_restores store view Hlaws) in E1; [|done]. by rewrite <- Ed. }
  pose proof (proj1 (confined_pointer _ _ _ _ _ _ _ _ _ E1) Hs) as Hs2. cbn in Hs2.
  apply (keeps_from_pointer store view Hlaws) in E1. cbn in E1.
  destruct (restore_from_discovered_checkpoint store root md head path cipher (s2, l2)) as [ok [s3 l3]] eqn:E2.
  destruct ok.
  { intros H. injection H as <- <-. apply (discovered_restores store view Hlaws) in E2; [|done..].
    by rewrite <- Ed, <- E1. }
  pose proof (proj1 (confined_discovered _ _ _ _ _ _ _ _ _ E2) Hs2) as Hs3. cbn in Hs3.
  apply keeps_from_discovered in E2. cbn in E2.
  intros H. apply (chain_restored store view Hlaws) in H; [|done]. by rewrite <- Ed, <- E1, <- E2.
Qed.
End RestoreStore.

(** ** Success is validated, failure is clean *)

Section Outcome.
Context `{HSha : Sha256} `{HLz4 : Lz4} `{HA : Aead}.
Context {S : Type} (store : otsardb_object_store S) (view : S -> contents)
        (Hlaws : StoreLaws store view quiet)
        (Hlist : forall p s r s', otsardb_store_list store p s = (r, s') -> view s' = view s).

(** The outcome of a source on [path]: validated against HEAD, whatever faults
    struck; or, on sound files, nothing left that was not there before. *)
Definition outcome (head : otsardb_head) (path : bytes) (m : M (S * local) bool) : Prop :=
  forall s l ok s' l', m (s, l) = (ok, (s', l')) ->
    if ok then head_checksum_ok (view s) head (file_at l' path)
    else sound_io l -> l_files l' !! path = l_files l !! path \/ l_files l' !! path = None.

Lemma outcome_false head path : outcome head path (mret_ false).
Proof. intros s l ok s' l' H. injection H as <- _ <-. by left. Qed.

(** A step that only reads the store does not change the outcome. *)
Lemma outcome_read {A} head path (m : M S A) (k : A -> M (S * local) bool) :
  reads view m -> (forall a, outcome head path (k a)) -> outcome head path (mbind_ (on_store m) k).
Proof.
  intros Hm Hk s l ok s' l' H. unfold mbind_, on_store in H. cbn [fst snd] in H.
  destruct (m s) as [a s1] eqn:E. apply Hm in E. apply Hk in H. by rewrite E in H.
Qed.

(** The pattern of every source: remove, build, remove again on failure. *)
Lemma outcome_build head path (m : M (S * local) bool) :
  (forall s l s' l', m (s, l) = (true, (s', l')) -> head_checksum_ok (view s) head (file_at l' path)) ->
  confined path m ->
  outcome head path
    (let! _ := on_files (remove path) in
     let! ok := m in
     if ok then return! true else (let! _ := on_files (remove path) in return! false)).
Proof.
  intros Hm Hc s l ok s' l' H. unfold mbind_, mret_ in H. unfold on_files at 1 in H. cbn [fst snd] in H.
  rewrite (surjective_pairing (remove path l)) in H.
  destruct (m _) as [[] [s1 l1]] eqn:E.
  { injection H as <- <- <-. by eapply Hm. }
  unfold on_files in H. cbn [fst snd] in H. rewrite (surjective_pairing (remove path l1)) in H.
  injection H as <- <- <-. intros Hs. right. apply Hc in E as [Hs1 _].
  rewrite sound_remove by (apply Hs1, calm_remove, Hs). cbn. by rewrite lookup_delete_eq.
Qed.

Lemma image_validated root head cp keys covered path cipher s l s' l' :
  apply_checkpoint_image store root head cp keys covered path cipher (s, l) = (true, (s', l')) ->
  head_checksum_ok (view s) head (file_at l' path).
Proof.
  unfold apply_checkpoint_image, mbind_, mret_.
  destruct (otsardb_recovery_apply_checkpoint_pages store root cp path (s, l)) as [[] [s1 l1]] eqn:E1; [|done].
  apply (keeps_groups store view Hlaws) in E1. cbn [negb]. unfold on_files at 1. cbn [fst snd] in *.
  destruct (image_matches path covered l1) as [[] l2]; [|done]. cbn [negb].
  destruct (apply_manifest_keys store root _ cipher path (s1, l2)) as [[] [s3 l3]] eqn:E3; [|done].
  apply (keeps_keys store view Hlaws) in E3. cbn [fst snd] in *. intros H.
  apply (validate_head_ok store view Hlaws) in H as [Hf Hh].
  rewrite E3, E1 in Hh. by rewrite (files_at l3).
Qed.

Lemma chain_validated root md head path cipher s l s' l' :
  (let! ok := walk_manifest_chain store root md head path true 0 cipher in
   if ok then validate_head_checksum store head path else return! false) (s, l) = (true, (s', l')) ->
  head_checksum_ok (view s) head (file_at l' path).
Proof.
  unfold mbind_, mret_.
  destruct (walk_manifest_chain store root md head path true 0 cipher (s, l)) as [[] [s1 l1]] eqn:E; [|done].
  apply (keeps_walk store view Hlaws) in E. cbn [fst snd] in *. intros H.
  apply (validate_head_ok store view Hlaws) in H as [Hf Hh]. rewrite E in Hh. by rewrite (files_at l1).
Qed.

Local Hint Resolve outcome_false reads_pointer reads_get reads_bind_checkpoint reads_evaluate reads_list
  reads_collect reads_manifest confined_image confined_walk confined_validate : recovery.

Ltac outcome_tac :=
  repeat first [solve [eauto 4 with recovery] | apply outcome_read; [|intros ?] | case_match].

Lemma pointer_outcome root md head path cipher :
  outcome head path (restore_from_pointer store root md head path cipher).
Proof.
  unfold restore_from_pointer. outcome_tac. apply outcome_build; [|eauto with recovery].
  intros ? ? ? ? Hm. by eapply image_validated.
Qed.

Lemma discovered_outcome root md head path cipher :
  outcome head path (restore_from_discovered_checkpoint store root md head path cipher).
Proof.
  unfold restore_from_discovered_checkpoint, recovery_apply_discovered_checkpoint. outcome_tac.
  - apply outcome_build; [|eauto with recovery]. intros ? ? ? ? Hm. by eapply image_validated.
  - apply outcome_build; [done|eauto with recovery].
Qed.

Lemma walk_dry root md head path cipher s l ok s' l' :
  walk_manifest_chain store root md head path false 0 cipher (s, l) = (ok, (s', l')) -> l' = l.
Proof.
  unfold walk_manifest_chain, mbind_, mret_. unfold on_store at 1. cbn [fst snd].
  destruct (collect_chain_keys store root md head 0 s) as [[keys|] s1]; [|intros H; by injection H as _ _ <-].
  cbn [Z.eqb andb]. destruct (_ || _); [|intros H; by injection H as _ _ <-].
  unfold on_store. cbn [fst snd]. destruct (genesis_check store keys s1) as [b s2]. rewrite andb_false_r.
  intros H. by injection H as _ _ <-.
Qed.

Lemma chain_outcome root md head path cipher :
  outcome head path (restore_from_chain store root md head path cipher).
Proof.
  intros s l ok s' l' H. unfold restore_from_chain in H. unfold mbind_ at 1 in H.
  destruct (walk_manifest_chain store root md head path false 0 cipher (s, l)) as [b [s1 l1]] eqn:E.
  pose proof (walk_dry _ _ _ _ _ _ _ _ _ _ E) as ->. apply (keeps_walk store view Hlaws) in E. cbn in E.
  destruct b; cbn [negb] in H; [|by eapply (outcome_false head path) in H; rewrite E in H].
  rewrite <- E. clear E. revert s1 l ok s' l' H.
  change (outcome head path (let! _ := on_files (remove path) in
     let! ok := walk_manifest_chain store root md head path true 0 cipher in
     let! ok := if ok then validate_head_checksum store head path else return! false in
     if ok then return! true else (let! _ := on_files (remove path) in return! false))).
  assert (forall A B C (m : M (S * local) A) (f : A -> M (S * local) B) (g : B -> M (S * local) C) st,
    mbind_ m (fun a => mbind_ (f a) g) st = mbind_ (mbind_ m f) g st) as Hassoc.
  { intros A B C m f g st. unfold mbind_. by destruct (m st). }
  intros s2 l2 ok2 s2' l2' H.
  apply (outcome_build head path (let! ok := walk_manifest_chain store root md head path true 0 cipher in
     if ok then validate_head_checksum store head path else return! false)) with (s' := s2').
  - intros. by eapply chain_validated.
  - apply confined_bind; [apply confined_walk|]. intros []; [apply confined_validate|apply confined_ret].
  - rewrite <- H. unfold mbind_ at 1 5. destruct (on_files (remove path) (s2, l2)). by rewrite <- Hassoc.
Qed.

Lemma restore_outcome root path cipher s l ok s' l' :
  otsardb_recovery_restore_store_ex store root path cipher (s, l) = (ok, (s', l')) ->
  if ok then exists md head, fst (read_database store root s) = Some (md, head) /\
             head_checksum_ok (view s) head (file_at l' path)
  else sound_io l -> l_files l' !! path = l_files l !! path \/ l_files l' !! path = None.
Proof.
  unfold otsardb_recovery_restore_store_ex, mbind_, mret_.
  destruct (zlen root =? 0); [intros H; injection H as <- _ <-; by left|]. unfold on_store. cbn [fst snd].
  destruct (read_database store root s) as [[[md head]|] s1] eqn:Ed; [|intros H; injection H as <- _ <-; by left].
  apply (reads_database store view Hlaws) in Ed.
  destruct (restore_from_pointer store root md head path cipher (s1, l)) as [ok1 [s2 l2]] eqn:E1.
  pose proof (confined_pointer _ _ _ _ _ _ _ _ _ E1) as [Hs2 _].
  pose proof (keeps_from_pointer store view Hlaws _ _ _ _ _ _ _ _ E1) as Hv2. cbn in Hs2, Hv2.
  apply pointer_outcome in E1. destruct ok1.
  { intros H. injection H as <- <- <-. exists md, head. by rewrite <- Ed. }
  destruct (restore_from_discovered_checkpoint store root md head path cipher (s2, l2)) as [ok2 [s3 l3]] eqn:E2.
  pose proof (confined_discovered _ _ _ _ _ _ _ _ _ E2) as [Hs3 _].
  pose proof (keeps_from_discovered store view Hlaws Hlist _ _ _ _ _ _ _ _ E2) as Hv3. cbn in Hs3, Hv3.
  apply discovered_outcome in E2. destruct ok2.
  { intros H. injection H as <- <- <-. exists md, head. by rewrite <- Ed, <- Hv2. }
  intros H. apply chain_outcome in H. destruct ok.
  { exists md, head. by rewrite <- Ed, <- Hv2, <- Hv3. }
  intros Hs. destruct (H (Hs3 (Hs2 Hs))) as [->|]; [|by right].
  destruct (E2 (Hs2 Hs)) as [->|]; [|by right]. by apply E1.
Qed.
End Outcome.
