(* ===== verification/RecoveryChain.v ===== *)
(** * Recovery: the chain, availability and deltas

    The generations of the chain decrease by one, so its walk terminates and a
    walk that stops early is a prefix of the whole chain; an intact chain is
    always restored; a delta over the image of an older generation gives the
    image of the whole chain. *)

From S2P Require Import Prelude CText JsonText ObjectStore Journal Codec WalBatch Sha256 Segment.
From S2P Require Import Checksum CheckpointPage DbMetadata CommitManifest CommitManifestTheory CommitPublish.
From S2P Require Import CheckpointManifest CheckpointBuildTheory Cipher LocalFile Recovery RecoveryTheory RecoveryRestore.

(** ** Generations *)

Lemma manifest_parent_generation data m md pos :
  otsardb_commit_manifest_decode_json data = Some m -> link_ok md pos m = true ->
  cm_generation m = cp_generation pos /\ cm_parent_generation m = cp_generation pos - 1.
Proof.
  intros Hd Hl. apply manifest_decode_facts in Hd as (_ & _ & _ & Hp & _).
  unfold link_ok in Hl. prop_bools. destruct (Z.eqb_spec (cm_parent_generation m) 0); lia.
Qed.

Lemma parent_link_generation root m next : parent_link root m = Some next ->
  cp_generation next = cm_parent_generation m.
Proof. unfold parent_link. intros H. repeat case_match; by simplify_eq. Qed.

Section Generations.
Context `{HSha : Sha256} (v : contents) (root : bytes) (md : otsardb_db_metadata).

Lemma manifest_in_decodes key sha m enc : manifest_in v key sha = Some (m, enc) ->
  exists data, otsardb_commit_manifest_decode_json data = Some m.
Proof.
  unfold manifest_in. intros H. destruct (v !! key) as [ob|]; [|done]. destruct (negb _); [done|].
  destruct (otsardb_commit_manifest_decode_json (so_data ob)) eqn:E; [|done].
  destruct (otsardb_segment_enc_parse_json (so_data ob)); [|done]. injection H as <- <-. eauto.
Qed.

Lemma manifest_in_any key sha x : manifest_in v key sha = Some x -> manifest_in v key [] = Some x.
Proof. unfold manifest_in. destruct (v !! key) as [ob|]; [|done]. by destruct (negb _). Qed.

(** One round of the walk. *)
Lemma chain_round fuel stop count pos keys :
  0 < cp_generation pos -> chain_in v root md (Datatypes.S fuel) stop count pos = Some keys ->
  exists m enc, manifest_in v (cp_key pos) (cp_sha pos) = Some (m, enc) /\ link_ok md pos m = true /\
    cm_generation m = cp_generation pos /\ cm_parent_generation m = cp_generation pos - 1 /\
    if negb (stop =? 0) && (cp_generation pos =? stop) then keys = [cp_key pos]
    else if cp_generation pos =? 1 then keys = [cp_key pos] /\ genesis_ok m = true
    else exists next rest, parent_link root m = Some next /\ cp_generation next = cp_generation pos - 1 /\
      chain_in v root md fuel stop (count + 1) next = Some rest /\ keys = cp_key pos :: rest.
Proof.
  intros Hg H. cbn [chain_in] in H. destruct (Z.leb_spec (cp_generation pos) 0); [lia|].
  destruct (OTSARDB_RECOVERY_MAX_COMMITS <=? count); [done|].
  destruct (manifest_in v (cp_key pos) (cp_sha pos)) as [[m enc]|] eqn:Em; [|done].
  destruct (link_ok md pos m) eqn:El; [|done]. cbn [negb] in H.
  destruct (manifest_in_decodes _ _ _ _ Em) as [data Hd].
  destruct (manifest_parent_generation _ _ _ _ Hd El) as (E1 & E2).
  exists m, enc. split_and!; try done. rewrite E1 in H.
  destruct (negb (stop =? 0) && (cp_generation pos =? stop)); [by injection H as <-|]. rewrite E2 in H.
  replace (cp_generation pos - 1 =? 0) with (cp_generation pos =? 1) in H
    by (destruct (Z.eqb_spec (cp_generation pos) 1), (Z.eqb_spec (cp_generation pos - 1) 0); lia).
  destruct (cp_generation pos =? 1); [destruct (genesis_ok m); by simplify_eq|].
  destruct (parent_link root m) as [next|] eqn:Ep; [|done].
  destruct (chain_in v root md fuel stop (count + 1) next) as [rest|] eqn:Ec; [|done].
  injection H as <-. exists next, rest. apply parent_link_generation in Ep as Eg. by rewrite Eg, E2.
Qed.

(** The chain has one key per generation. *)
Lemma chain_length fuel : forall count pos keys, 0 <= cp_generation pos ->
  chain_in v root md fuel 0 count pos = Some keys -> zlen keys = cp_generation pos.
Proof.
  induction fuel as [|fuel IH]; intros count pos keys Hg H.
  { cbn [chain_in] in H. destruct (Z.leb_spec (cp_generation pos) 0).
    - injection H as <-. change (zlen (@nil bytes)) with 0. lia.
    - by destruct (_ <=? _). }
  destruct (Z.eq_dec (cp_generation pos) 0) as [E|].
  { cbn [chain_in] in H. rewrite E in *. cbn in H. by injection H as <-. }
  apply chain_round in H as (m & enc & _ & _ & _ & _ & H); [|lia]. cbn [Z.eqb negb andb] in H.
  destruct (Z.eqb_spec (cp_generation pos) 1) as [E|]; [destruct H as [-> _]; by rewrite E|].
  destruct H as (next & rest & _ & En & Hc & ->). apply IH in Hc; [|lia].
  unfold zlen in *. cbn [length]. lia.
Qed.

(** A walk that stops at [stop] is a prefix of the walk of the whole chain. *)
Lemma chain_prefix fuel stop : forall count pos keys, 0 < stop <= cp_generation pos ->
  chain_in v root md fuel 0 count pos = Some keys ->
  chain_in v root md fuel stop count pos = Some (take (Z.to_nat (cp_generation pos - stop + 1)) keys).
Proof.
  induction fuel as [|fuel IH]; intros count pos keys Hg H.
  { cbn [chain_in] in H. destruct (Z.leb_spec (cp_generation pos) 0); [lia|by destruct (_ <=? _)]. }
  pose proof H as H'. apply chain_round in H' as (m & enc & Em & El & E1 & E2 & Hk); [|lia].
  cbn [chain_in] in H |- *. destruct (Z.leb_spec (cp_generation pos) 0); [lia|].
  destruct (OTSARDB_RECOVERY_MAX_COMMITS <=? count); [done|]. rewrite Em, El, E1 in *. cbn [negb Z.eqb andb] in *.
  destruct (Z.eqb_spec stop 0); [lia|]. cbn [negb andb].
  destruct (Z.eqb_spec (cp_generation pos) stop) as [E|].
  { rewrite E, Z.sub_diag. change (Z.to_nat (0 + 1)) with 1%nat.
    destruct (Z.eqb_spec (cp_generation pos) 1) as [E'|]; [by destruct Hk as [-> _]|].
    by destruct Hk as (next & rest & _ & _ & _ & ->). }
  destruct (Z.eqb_spec (cp_generation pos) 1) as [E'|]; [lia|].
  destruct Hk as (next & rest & Hn & En & Hc & ->). rewrite E2.
  destruct (Z.eqb_spec (cp_generation pos - 1) 0); [lia|]. rewrite Hn.
  rewrite (IH (count + 1) next rest) by (done || lia).
  replace (Z.to_nat (cp_generation pos - stop + 1)) with (Datatypes.S (Z.to_nat (cp_generation next - stop + 1)))
    by lia. done.
Qed.

(** The walk of the whole chain ends at a manifest without parent. *)
Lemma chain_genesis fuel : forall count pos keys, 0 < cp_generation pos ->
  chain_in v root md fuel 0 count pos = Some keys ->
  exists key rest m enc, reverse keys = key :: rest /\ manifest_in v key [] = Some (m, enc) /\
    cm_parent_generation m = 0.
Proof.
  induction fuel as [|fuel IH]; intros count pos keys Hg H.
  { cbn [chain_in] in H. destruct (Z.leb_spec (cp_generation pos) 0); [lia|by destruct (_ <=? _)]. }
  apply chain_round in H as (m & enc & Em & El & E1 & E2 & H); [|lia]. cbn [Z.eqb negb andb] in H.
  destruct (Z.eqb_spec (cp_generation pos) 1) as [E|].
  { destruct H as [-> _]. exists (cp_key pos), [], m, enc. split_and!; [done|by eapply manifest_in_any|lia]. }
  destruct H as (next & rest & _ & En & Hc & ->). apply IH in Hc as (key & r & m' & enc' & Hr & Hm & Hp); [|lia].
  exists key, (r ++ [cp_key pos]), m', enc'. by rewrite reverse_cons, Hr.
Qed.
End Generations.

(** The code's loop never runs out of fuel: any more changes nothing. *)
Lemma chain_loop_enough `{HSha : Sha256} {S} (store : otsardb_object_store S) visitor root md stop fuel extra :
  forall count pos s, cp_generation pos <= Z.of_nat fuel ->
  chain_loop (read_manifest_object store) visitor (fuel + extra) root md stop count pos s
  = chain_loop (read_manifest_object store) visitor fuel root md stop count pos s.
Proof.
  induction fuel as [|fuel IH]; intros count pos s Hg.
  { destruct extra; [done|]. cbn [chain_loop Nat.add]. destruct (Z.leb_spec (cp_generation pos) 0); [done|lia]. }
  cbn [chain_loop Nat.add]. destruct (Z.leb_spec (cp_generation pos) 0); [done|].
  destruct (OTSARDB_RECOVERY_MAX_COMMITS <=? count); [done|]. unfold mbind_.
  destruct (read_manifest_object store (cp_key pos) (cp_sha pos) s) as [[[m enc]|] s1] eqn:Er; [|done].
  destruct (link_ok md pos m) eqn:El; [|done]. cbn [negb].
  destruct (visitor pos m enc s1) as [[] s2]; [|done]. cbn [negb].
  destruct (_ && _); [done|]. destruct (cm_parent_generation m =? 0); [done|].
  destruct (parent_link root m) as [next|] eqn:Ep; [|done].
  rewrite IH; [done|]. apply parent_link_generation in Ep as ->.
  assert (exists data, otsardb_commit_manifest_decode_json data = Some m) as [data Hd].
  { revert Er. unfold read_manifest_object, mbind_, mret_. destruct (otsardb_store_get store _ s) as [[e|ob] ?]; [done|].
    destruct (negb _); [done|]. destruct (otsardb_commit_manifest_decode_json (so_data ob)) eqn:E; [|done].
    destruct (otsardb_segment_enc_parse_json (so_data ob)); [|done]. intros H'. injection H' as <- _ _. eauto. }
  destruct (manifest_parent_generation _ _ _ _ Hd El) as (_ & ->). lia.
Qed.

(** ** Availability *)

(** [m] writes [f] at [path], and the file exists if it did or if [some]. *)
Definition creates (path : bytes) (l l' : local) (f : bytes) (some : Prop) : Prop :=
  wrote path l l' f /\ (some \/ is_Some (l_files l !! path) -> is_Some (l_files l' !! path)).

Lemma creates_with path l f P : creates path l (with_file l path f) f P.
Proof. split; [apply wrote_with|]. intros _. cbn. rewrite lookup_insert_eq. eauto. Qed.

Lemma creates_refl path l : sound_io l -> creates path l l (file_at l path) False.
Proof. intros Hs. split; [by apply wrote_refl|]. by intros [[]|]. Qed.

Lemma creates_trans path l1 l2 l3 f g (P Q R : Prop) : (R -> P \/ Q) ->
  creates path l1 l2 f P -> creates path l2 l3 g Q -> creates path l1 l3 g R.
Proof.
  intros HR [Hw1 He1] [Hw2 He2]. split; [by eapply wrote_trans|]. intros [Hr|]; [|tauto].
  destruct (HR Hr); tauto.
Qed.

Lemma frames_run count : forall i batch path l f,
  sound_io l -> l = with_file l path (file_at l path) ->
  frames_image count i batch (file_at l path) = Some f ->
  apply_frames count i batch path l = (true, with_file l path f).
Proof.
  induction count as [|count IH]; intros i batch path l f Hs Hl H; cbn [apply_frames frames_image] in *.
  { injection H as <-. unfold mret_. by rewrite <- Hl. }
  destruct (otsardb_wal_batch_frame batch i) as [[page_no page]|]; [|done].
  unfold mbind_. rewrite sound_write_page by done.
  destruct (INT64_MAX <? page_offset page_no (wb_page_size batch)); [done|].
  rewrite (IH _ _ _ _ f); [by rewrite with_file_twice|done|by rewrite file_at_with, with_file_twice|].
  by rewrite file_at_with.
Qed.

Lemma batch_run data path l f : sound_io l -> batch_image data (file_at l path) = Some f ->
  otsardb_recovery_apply_wal_batch_file data path l = (true, with_file l path f).
Proof.
  intros Hs H. unfold otsardb_recovery_apply_wal_batch_file, batch_image in *.
  destruct (otsardb_wal_batch_decode data) as [batch|]; [|done]. unfold mbind_.
  rewrite sound_open_update by done. cbn [negb].
  destruct (frames_image _ 0 batch (file_at l path)) as [g|] eqn:Ef; [|done].
  rewrite (frames_run _ _ _ _ _ g); [|done|by rewrite file_at_with, with_file_twice|by rewrite file_at_with].
  cbn [negb]. rewrite with_file_twice, sound_call by done. cbn [negb].
  destruct (INT64_MAX <? u64 _); [done|]. injection H as <-.
  rewrite sound_truncate, with_file_twice, file_at_with by done. cbn [negb]. by rewrite !sound_call.
Qed.

Lemma database_generation `{HSha : Sha256} {S} (store : otsardb_object_store S) root s md head :
  fst (read_database store root s) = Some (md, head) -> 0 < hd_generation head.
Proof.
  unfold read_database, mbind_, mret_. destruct (otsardb_db_metadata_read store root s) as [[rc mo] s1].
  destruct rc; try done. destruct mo as [m|]; [|done].
  destruct (otsardb_journal_read_head store root s1) as [[rc r] s2] eqn:Er.
  destruct rc; try done. destruct r as [[h e]|]; [|done].
  destruct (_ || _) eqn:E; [done|]. cbn [fst]. intros H. injection H as <- <-.
  assert (exists data, otsardb_head_decode_json data = Some h) as [data Hd].
  { revert Er. unfold otsardb_journal_read_head, mbind_, mret_. clear. intros H.
    repeat (case_match; try done); simplify_eq; eauto. }
  apply head_decode_ok in Hd as (_ & Hg & _). prop_bools. unfold is_u64 in Hg. lia.
Qed.

(** A store that answers: a stored object is returned. *)
Definition answers {S} (store : otsardb_object_store S) (view : S -> contents) : Prop :=
  forall key s ob, view s !! key = Some ob -> fst (otsardb_store_get store key s) = inr ob.

Section Available.
Context `{HSha : Sha256} `{HLz4 : Lz4} `{HA : Aead}.
Context {S : Type} (store : otsardb_object_store S) (view : S -> contents)
        (Hlaws : StoreLaws store view quiet) (Hans : answers store view).

Lemma get_run key s ob : view s !! key = Some ob ->
  exists s', otsardb_store_get store key s = (inr ob, s') /\ view s' = view s.
Proof.
  intros H. pose proof (Hans key s ob H) as Hf. destruct (otsardb_store_get store key s) as [r s'] eqn:E.
  cbn in Hf. subst r. exists s'. split; [done|]. by apply (get_in store view Hlaws) in E as [? _].
Qed.

Lemma manifest_run key sha s x : manifest_in (view s) key sha = Some x ->
  exists s', read_manifest_object store key sha s = (Some x, s') /\ view s' = view s.
Proof.
  unfold manifest_in, read_manifest_object, mbind_, mret_. intros H.
  destruct (view s !! key) as [ob|] eqn:E; [|done]. apply get_run in E as (s1 & -> & Hv).
  exists s1. split; [|done]. destruct (negb _); [done|].
  destruct (otsardb_commit_manifest_decode_json (so_data ob)); [|done].
  destruct (otsardb_segment_enc_parse_json (so_data ob)); [|done]. by injection H as <-.
Qed.

Lemma chain_run root md stop fuel : forall count pos s keys,
  chain_in (view s) root md fuel stop count pos = Some keys ->
  exists s', chain_loop (read_manifest_object store) (fun _ _ _ => mret_ true) fuel root md stop count pos s
             = (Some keys, s') /\ view s' = view s.
Proof.
  induction fuel as [|fuel IH]; intros count pos s keys H; cbn [chain_loop chain_in] in *;
    (destruct (cp_generation pos <=? 0); [injection H as <-; by exists s|]);
    (destruct (OTSARDB_RECOVERY_MAX_COMMITS <=? count); [done|]); [done|].
  destruct (manifest_in (view s) (cp_key pos) (cp_sha pos)) as [[m enc]|] eqn:Em; [|done].
  apply manifest_run in Em as (s1 & Er & Hv1). unfold mbind_. rewrite Er.
  destruct (negb (link_ok md pos m)); [done|]. cbn [mret_ negb]. unfold mret_.
  destruct (negb (stop =? 0) && (cm_generation m =? stop)); [injection H as <-; by exists s1|].
  destruct (cm_parent_generation m =? 0).
  { destruct (genesis_ok m); [|done]. injection H as <-. by exists s1. }
  destruct (parent_link root m) as [next|]; [|done].
  destruct (chain_in (view s) root md fuel stop (count + 1) next) as [rest|] eqn:Ec; [|done].
  rewrite <- Hv1 in Ec. apply IH in Ec as (s2 & Ec & Hv2). unfold mret_ in Ec. rewrite Ec. injection H as <-. exists s2.
  split; [done|congruence].
Qed.

Lemma refs_run root m enc cipher path refs : forall i s l f, sound_io l ->
  refs_image (view s) root cipher m enc i refs (file_at l path) = Some f ->
  exists s' l', apply_segment_refs store root m enc cipher path i refs (s, l) = (true, (s', l')) /\
    view s' = view s /\ creates path l l' f (refs <> []).
Proof.
  induction refs as [|ref refs IH]; intros i s l f Hs H; cbn [apply_segment_refs refs_image] in *.
  { injection H as <-. exists s, l. split_and!; [done|done|]. by eapply creates_trans; try apply creates_refl. }
  destruct (segment_object_key root m ref) as [key|]; [|done].
  destruct (view s !! key) as [ob|] eqn:Eo; [|done]. unfold mbind_, on_store. cbn [fst snd].
  apply get_run in Eo as (s1 & -> & Hv1).
  destruct (segment_batch _ _ _ _ _ _) as [batch|]; [|done].
  destruct (batch_image batch (file_at l path)) as [g|] eqn:Eb; [|done].
  apply batch_run in Eb; [|done]. unfold on_files. cbn [fst snd]. rewrite Eb.
  destruct (IH (Datatypes.S i) s1 (with_file l path g) f) as (s2 & l2 & -> & Hv2 & Hc);
    [done|by rewrite Hv1, file_at_with|].
  exists s2, l2. split_and!; [done|congruence|]. eapply creates_trans; [|apply (creates_with _ _ _ True)|exact Hc]. tauto.
Qed.

Lemma manifest_in_segments key sha s m enc : manifest_in (view s) key sha = Some (m, enc) -> cm_segments m <> [].
Proof.
  intros H. apply manifest_in_decodes in H as [data Hd]. apply manifest_decode_facts in Hd as (_ & Hz & _).
  intros E. rewrite E in Hz. change (zlen (@nil otsardb_manifest_segment_ref)) with 0 in Hz. lia.
Qed.

Lemma keys_run root cipher path keys : forall s l f, sound_io l ->
  keys_image (view s) root cipher keys (file_at l path) = Some f ->
  exists s' l', apply_keys_in_order store root keys cipher path (s, l) = (true, (s', l')) /\
    view s' = view s /\ creates path l l' f (keys <> []).
Proof.
  induction keys as [|key keys IH]; intros s l f Hs H; cbn [apply_keys_in_order keys_image] in *.
  { injection H as <-. exists s, l. split_and!; [done|done|]. by eapply creates_trans; try apply creates_refl. }
  destruct (manifest_in (view s) key []) as [[m enc]|] eqn:Em; [|done].
  pose proof (manifest_in_segments _ _ _ _ _ Em) as Hne.
  apply manifest_run in Em as (s1 & Er & Hv1). unfold mbind_, on_store. cbn [fst snd]. rewrite Er.
  destruct (refs_image (view s) root cipher m enc 0 (cm_segments m) (file_at l path)) as [g|] eqn:Eg; [|done].
  rewrite <- Hv1 in Eg. apply refs_run in Eg as (s2 & l2 & Ea & Hv2 & Hc2); [|done].
  unfold apply_manifest_segments. rewrite Ea.
  destruct Hc2 as [(Hs2 & Hf2 & Ho2) He2].
  destruct (IH s2 l2 f) as (s3 & l3 & -> & Hv3 & Hc3); [done|by rewrite Hv2, Hv1, Hf2|].
  exists s3, l3. split_and!; [done|congruence|].
  apply (creates_trans path l l2 l3 g f (cm_segments m <> []) (keys <> [])); [auto|done|done].
Qed.

Lemma validate_run head path s l : sound_io l -> is_Some (l_files l !! path) ->
  head_checksum_ok (view s) head (file_at l path) ->
  exists s' l', validate_head_checksum store head path (s, l) = (true, (s', l')).
Proof.
  intros Hs [g Hg] (ob & m & Ho & Hsha & Hd & Hc). unfold validate_head_checksum, mbind_, on_store, on_files, mret_.
  cbn [fst snd]. apply get_run in Ho as (s1 & -> & _). apply bytes_eqb_eq in Hsha. rewrite Hsha, Hd. cbn [negb fst snd].
  unfold validate_file_against_manifest_checksum, mbind_, mret_.
  destruct Hc as [->|Hp]; [eauto|]. destruct (zlen (cm_post_apply_checksum m) =? 0); [eauto|].
  rewrite Hp, sound_open_read, Hg by done. unfold file_at. rewrite Hg. cbn [default].
  rewrite Z.eqb_refl. eauto.
Qed.

Lemma genesis_run root md head keys s : 0 < hd_generation head ->
  head_chain (view s) root md head 0 = Some keys ->
  keys <> [] /\ exists s', genesis_check store keys s = (true, s') /\ view s' = view s.
Proof.
  intros Hg Hk. apply chain_genesis in Hk as (key & rest & m & enc & Hrev & Hm & Hp); [|done].
  split; [intros ->; done|]. unfold genesis_check. rewrite Hrev. unfold mbind_, mret_.
  apply manifest_run in Hm as (s2 & -> & Hv2). exists s2. by rewrite Hp.
Qed.

(** The walk without the segments, then the one with them. *)
Lemma walk_dry_run root md head path cipher s l keys : 0 < hd_generation head ->
  head_chain (view s) root md head 0 = Some keys ->
  exists s', walk_manifest_chain store root md head path false 0 cipher (s, l) = (true, (s', l)) /\
    view s' = view s.
Proof.
  intros Hg Hk. unfold walk_manifest_chain, mbind_, on_store at 1. cbn [fst snd].
  pose proof Hk as Hk'. apply chain_run in Hk' as (s1 & Ec & Hv1). unfold collect_chain_keys. rewrite Ec.
  rewrite <- Hv1 in Hk. destruct (genesis_run _ _ _ _ _ Hg Hk) as (_ & s2 & Eg & Hv2).
  rewrite orb_false_r. cbn [Z.eqb andb].
  destruct (zlen keys =? 0); unfold on_store, mret_; cbn [fst snd]; rewrite ?Eg, andb_false_r; eauto.
  exists s2. split; [done|congruence].
Qed.

Lemma walk_run root md head path cipher s l keys f : sound_io l -> 0 < hd_generation head ->
  head_chain (view s) root md head 0 = Some keys ->
  keys_image (view s) root cipher (reverse keys) (file_at l path) = Some f ->
  exists s' l', walk_manifest_chain store root md head path true 0 cipher (s, l) = (true, (s', l')) /\
    view s' = view s /\ creates path l l' f True.
Proof.
  intros Hs Hg Hk Hf. unfold walk_manifest_chain, mbind_, on_store at 1. cbn [fst snd].
  pose proof Hk as Hk'. apply chain_run in Hk' as (s1 & Ec & Hv1). unfold collect_chain_keys. rewrite Ec.
  rewrite <- Hv1 in Hk. destruct (genesis_run _ _ _ _ _ Hg Hk) as (Hne & s2 & Eg & Hv2).
  rewrite orb_true_r. cbn [Z.eqb andb]. unfold on_store. cbn [fst snd]. rewrite Eg. cbn [andb].
  unfold apply_manifest_keys. rewrite <- Hv1, <- Hv2 in Hf. apply keys_run in Hf as (s3 & l3 & -> & Hv3 & Hw & He); [|done].
  exists s3, l3. split_and!; [done|congruence|]. split; [done|]. intros _. apply He. left.
  intros E. apply Hne. by rewrite <- (reverse_involutive keys), E.
Qed.

Lemma chain_available root md head path cipher s l f : sound_io l -> 0 < hd_generation head ->
  chain_restores (view s) root md head cipher f -> head_checksum_ok (view s) head f ->
  fst (restore_from_chain store root md head path cipher (s, l)) = true.
Proof.
  intros Hs Hg (keys & Hk & Hf) Hh. unfold restore_from_chain, mbind_, mret_.
  destruct (walk_dry_run root md head path cipher s l keys Hg Hk) as (s1 & -> & Hv1).
  cbn [negb]. unfold on_files at 1. cbn [fst snd]. rewrite (surjective_pairing (remove path l)).
  pose proof (calm_remove path l Hs) as Hs1. pose proof (removed_empty path l Hs) as He.
  destruct (walk_run root md head path cipher s1 (snd (remove path l)) keys f) as (s2 & l2 & -> & Hv2 & Hw & Hx);
    [done|done|by rewrite Hv1|by rewrite Hv1, He|].
  destruct Hw as (Hs2 & Hf2 & _).
  destruct (validate_run head path s2 l2) as (s3 & l3 & ->); [done|by apply Hx; left|by rewrite Hv2, Hv1, Hf2|].
  done.
Qed.

Lemma restore_available
    (Hlist : forall p s r s', otsardb_store_list store p s = (r, s') -> view s' = view s)
    root path cipher s l md head f :
  sound_io l -> root <> [] -> fst (read_database store root s) = Some (md, head) ->
  chain_restores (view s) root md head cipher f -> head_checksum_ok (view s) head f ->
  fst (otsardb_recovery_restore_store_ex store root path cipher (s, l)) = true.
Proof.
  intros Hs Hr Hd Hc Hh. pose proof (database_generation store _ _ _ _ Hd) as Hg.
  unfold otsardb_recovery_restore_store_ex, mbind_, mret_.
  destruct (Z.eqb_spec (zlen root) 0) as [E|]; [by apply zlen_0 in E|].
  unfold on_store. cbn [fst snd]. destruct (read_database store root s) as [r s1] eqn:Ed. cbn in Hd. subst r.
  apply (reads_database store view Hlaws) in Ed.
  destruct (restore_from_pointer store root md head path cipher (s1, l)) as [[] [s2 l2]] eqn:E1; [done|].
  pose proof (proj1 (confined_pointer _ _ _ _ _ _ _ _ _ E1) Hs) as Hs2. cbn in Hs2.
  apply (keeps_from_pointer store view Hlaws) in E1. cbn in E1.
  destruct (restore_from_discovered_checkpoint store root md head path cipher (s2, l2)) as [[] [s3 l3]] eqn:E2; [done|].
  pose proof (proj1 (confined_discovered _ _ _ _ _ _ _ _ _ E2) Hs2) as Hs3. cbn in Hs3.
  apply (keeps_from_discovered store view Hlaws Hlist) in E2. cbn in E2.
  apply chain_available with f; [done|done|..]; by rewrite E2, E1, Ed.
Qed.
End Available.

(** ** Deltas *)

Lemma delta_temp_ne base : delta_temp_path base <> base.
Proof.
  unfold delta_temp_path. intros E. apply (f_equal length) in E. rewrite length_app in E.
  change (length (str ".deltatmp")) with 9%nat in E. lia.
Qed.

Lemma write_at_fresh data : write_at [] 0 data = data.
Proof. unfold write_at. cbn. by rewrite drop_nil, app_nil_r. Qed.

Lemma copy_ok src dst l l' : sound_io l -> src <> dst -> copy_file_bytes src dst l = (true, l') ->
  exists d, l_files l !! src = Some d /\ l' = with_file l dst d.
Proof.
  intros Hs Hne. unfold copy_file_bytes, fopen_write, mbind_, mret_.
  rewrite sound_open_read by done. destruct (l_files l !! src) as [d|]; [|done].
  rewrite sound_call by done. cbn [set_file negb]. rewrite sound_write by (destruct l; done).
  rewrite !sound_call by done. intros H. injection H as <-. exists d. split; [done|].
  unfold with_file, file_at. cbn. rewrite lookup_insert_eq, insert_insert_eq. cbn. by rewrite write_at_fresh.
Qed.

Lemma take_before_last {A} (n : nat) (l : list A) : (n < length l)%nat ->
  take (length (take (n + 1) l) - 1) (take (n + 1) l) = take n l.
Proof. intros H. rewrite length_take, take_take. f_equal. lia. Qed.

Section Delta.
Context `{HSha : Sha256} `{HLz4 : Lz4} `{HA : Aead}.
Context {S : Type} (store : otsardb_object_store S) (view : S -> contents)
        (Hlaws : StoreLaws store view quiet).

(** The manifest at the end of a walk is the one the base was saved under. *)
Definition delta_base (v : contents) (keys : list bytes) (sha : bytes) (generation : Z) (base : bytes) : Prop :=
  exists key rest m enc, reverse keys = key :: rest /\ manifest_in v key sha = Some (m, enc) /\
    cm_generation m = generation /\ zlen base = u64 (cm_database_size_pages m * cm_page_size m) /\
    checksum_ok base m.

Lemma base_image_holds key sha generation path s l s' l' : sound_io l ->
  base_image_ok store key sha generation path (s, l) = (true, (s', l')) ->
  view s' = view s /\ l' = l /\
  exists m enc, manifest_in (view s) key sha = Some (m, enc) /\ cm_generation m = generation /\
    zlen (file_at l path) = u64 (cm_database_size_pages m * cm_page_size m) /\ checksum_ok (file_at l path) m.
Proof.
  intros Hs. unfold base_image_ok, mbind_, mret_, on_store, on_files. cbn [fst snd].
  destruct (read_manifest_object store key sha s) as [[[m enc]|] s1] eqn:Er; [|done].
  apply (read_manifest_in store view Hlaws) in Er as [Hv Hm]. specialize (Hm _ eq_refl).
  destruct (Z.eqb_spec (cm_generation m) generation) as [Eg|]; [|done]. cbn [negb fst snd].
  pose proof (sound_image_matches path m l Hs) as El.
  destruct (image_matches path m l) as [b l2] eqn:Ei. cbn in El. subst l2. intros H. injection H as -> <- <-.
  apply image_matches_ok in Ei as (_ & Hz & Hc). split_and!; [done|done|]. by exists m, enc.
Qed.

(** The last part of a delta: publish the validated temporary image. *)
Lemma delta_publish temp path l ok (l2 l3 : local) : sound_io l -> temp <> path ->
  remove path l = (tt, l2) -> copy_file_bytes temp path l2 = (ok, l3) -> ok = true ->
  exists d, l_files l !! temp = Some d /\
    l_files (snd (remove temp l3)) = delete temp (<[path := d]> (l_files l)).
Proof.
  intros Hs Hne Hr Hc ->. rewrite sound_remove in Hr by done. injection Hr as <-.
  apply copy_ok in Hc as (d & Hd & ->); [|done|done]. cbn in Hd. rewrite lookup_delete_ne in Hd by done.
  exists d. split; [done|]. rewrite sound_remove by done. cbn. by rewrite insert_delete_eq.
Qed.

Lemma delta_image root base_path generation sha path cipher s l head s' l' : sound_io l ->
  otsardb_recovery_materialize_delta_ex store root base_path generation sha path cipher (s, l)
    = (Some head, (s', l')) ->
  exists md keys f,
    fst (read_database store root s) = Some (md, head) /\ generation < hd_generation head /\ generation <> 0 /\
    head_chain (view s) root md head generation = Some keys /\
    delta_base (view s) keys sha generation (file_at l base_path) /\
    keys_image (view s) root cipher (reverse (take (length keys - 1) keys)) (file_at l base_path) = Some f /\
    head_checksum_ok (view s) head f /\ l_files l' !! path = Some f /\
    forall p, p <> path -> p <> delta_temp_path base_path -> l_files l' !! p = l_files l !! p.
Proof.
  intros Hs. unfold otsardb_recovery_materialize_delta_ex. destruct (_ || _) eqn:Eg; [done|].
  assert (generation <> 0) as Hgen by (prop_bools; done). clear Eg.
  unfold mbind_, mret_. unfold on_store at 1. cbn [fst snd].
  destruct (read_database store root s) as [[[md h]|] s1] eqn:Ed; [|done].
  apply (reads_database store view Hlaws) in Ed. destruct (Z.leb_spec (hd_generation h) generation); [done|].
  unfold on_store at 1. cbn [fst snd].
  destruct (collect_chain_keys store root md h generation s1) as [[keys|] s2] eqn:Ek; [|done].
  apply (collect_in store view Hlaws) in Ek as [Hv2 Hk]. specialize (Hk keys eq_refl). rewrite Ed in Hv2, Hk.
  destruct (reverse keys) as [|key rest] eqn:Erev; [done|].
  destruct (base_image_ok store key sha generation base_path (s2, l)) as [[] [s3 l3]] eqn:Eb; [|done]. cbn [negb].
  apply base_image_holds in Eb as (Hv3 & -> & m & enc & Hm & Hgm & Hz & Hc); [|done]. rewrite Hv2 in Hv3, Hm.
  set (temp := delta_temp_path base_path). unfold on_files at 1. cbn [fst snd].
  destruct (copy_file_bytes base_path temp l) as [ok4 l4] eqn:Ec. destruct ok4.
  2: { cbn [negb]. by destruct (on_files _ _). }
  apply copy_ok in Ec as (base & Hbase & ->); [|done|intros E; by apply (delta_temp_ne base_path)].
  assert (file_at l base_path = base) as Efile by (unfold file_at; by rewrite Hbase).
  destruct (apply_manifest_keys store root _ cipher temp (s3, _)) as [ok5 [s5 l5]] eqn:Ea. destruct ok5.
  2: { cbn [negb]. by destruct (on_files _ _). }
  apply (apply_keys_replays store view Hlaws (view s)) in Ea as (Hv5 & f & Hf & (Hs5 & Hf5 & Ho5)); [|done|done].
  rewrite file_at_with in Hf.
  destruct (validate_head_checksum store h temp (s5, l5)) as [ok6 [s6 l6]] eqn:Ev. destruct ok6.
  2: { cbn [negb]. by destruct (on_files _ _). }
  pose proof (proj1 (confined_validate _ _ _ _ _ _ Ev) Hs5) as Hs6. cbn in Hs6.
  apply (validate_head_ok store view Hlaws) in Ev as [Hf6 Hh]. rewrite Hv5, Hf5 in Hh.
  cbn [negb]. unfold on_files at 1. cbn [fst snd]. destruct (remove path l6) as [[] l7] eqn:E7.
  unfold on_files at 1. cbn [fst snd]. destruct (copy_file_bytes temp path l7) as [ok8 l8] eqn:E8.
  unfold on_files at 1. cbn [fst snd]. destruct (remove temp l8) as [[] l9] eqn:E9.
  destruct ok8; [|done]. intros H'. injection H' as -> <- <-.
  destruct (decide (temp = path)) as [Et|Hne].
  { exfalso. rewrite sound_remove in E7 by done. injection E7 as <-. revert E8. clear -Et.
    unfold copy_file_bytes, mbind_, mret_. rewrite sound_open_read by done. cbn. rewrite Et, lookup_delete_eq. done. }
  destruct (delta_publish temp path l6 true l7 l8) as (d & Hd & Hfiles); [done..|].
  rewrite E9 in Hfiles. cbn in Hfiles. rewrite Hf6 in Hd, Hfiles.
  assert (d = f) as -> by (unfold file_at in Hf5; by rewrite Hd in Hf5).
  exists md, keys, f. rewrite Efile. split_and!; try done.
  - exists key, rest, m, enc. by rewrite <- Efile.
  - rewrite Hfiles, lookup_delete_ne, lookup_insert_eq by done. done.
  - intros p Hp Hpt. rewrite Hfiles, lookup_delete_ne, lookup_insert_ne, Ho5 by done. cbn.
    by rewrite lookup_insert_ne.
Qed.

(** Newer generations over the image of the older ones are the whole chain. *)
Lemma delta_is_chain v root md head cipher generation keys all base f :
  0 < generation < hd_generation head ->
  head_chain v root md head generation = Some keys -> head_chain v root md head 0 = Some all ->
  keys_image v root cipher (reverse (drop (Z.to_nat (hd_generation head - generation)) all)) [] = Some base ->
  keys_image v root cipher (reverse (take (length keys - 1) keys)) base = Some f ->
  chain_restores v root md head cipher f.
Proof.
  intros Hg Hk Hall Hb Hf. exists all. split; [done|].
  assert (zlen all = hd_generation head) as Hlen by (apply chain_length in Hall; cbn in *; lia).
  apply (chain_prefix _ _ _ _ generation) in Hall; [|cbn; lia]. unfold head_chain in Hk. rewrite Hall in Hk.
  injection Hk as <-. cbn [head_pos cp_generation] in Hf.
  replace (Z.to_nat (hd_generation head - generation + 1))
    with (Z.to_nat (hd_generation head - generation) + 1)%nat in Hf by lia.
  rewrite take_before_last in Hf by (unfold zlen in Hlen; lia).
  rewrite <- (take_drop (Z.to_nat (hd_generation head - generation)) all) at 1.
  rewrite reverse_app, keys_image_app, Hb. done.
Qed.
End Delta.
