(* ===== verification/RecoveryProps.v ===== *)
(** * Recovery: the promises

    What [recovery.c] promises its callers, and a database of two commits on
    which the promises are evaluated. *)

From S2P Require Import Prelude CText JsonText ObjectStore Journal Codec WalBatch Sha256 Segment SegmentTheory.
From S2P Require Import Checksum CheckpointPage DbMetadata CommitManifest CommitManifestTheory CommitPublish.
From S2P Require Import CheckpointManifest CheckpointBuildTheory Cipher CipherTheory LocalFile.
From S2P Require Import Recovery RecoveryTheory RecoveryRestore RecoveryChain.

Section Promises.
Context `{HSha : Sha256} `{HLz4 : Lz4} `{HA : Aead}.
Context {S : Type} (store : otsardb_object_store S) (view : S -> contents).

(** C5. A restore that succeeds, on a store nobody else writes and files
    without faults, leaves exactly an image the store denotes: the batches of
    the whole authenticated chain on an empty file, or the pages of a
    checkpoint bound to that chain followed by the newer generations; the image
    has the checksum of the manifest HEAD designates, no other file changed and
    nothing was written to the store. *)
Theorem recovery_restore_refines_chain (Hlaws : StoreLaws store view quiet)
    (Hlist : forall p s r s', otsardb_store_list store p s = (r, s') -> view s' = view s)
    root path cipher s l s' l' :
  sound_io l ->
  otsardb_recovery_restore_store_ex store root path cipher (s, l) = (true, (s', l')) ->
  (exists md head, fst (read_database store root s) = Some (md, head) /\
    restorable (view s) root md head cipher (file_at l' path)) /\
  view s' = view s /\ forall p, p <> path -> l_files l' !! p = l_files l !! p.
Proof.
  intros Hs H. split_and!; [by eapply restore_image|by apply (keeps_restore store view Hlaws Hlist) in H|].
  by apply confined_restore in H as [_ ?].
Qed.

(** C7. Whatever faults the files have, a restore that reports success has
    checked the final file against the checksum of the manifest HEAD
    designates; one that fails on sound files leaves the old file or none; and
    either way no other file is touched. *)
Theorem recovery_restore_validated (Hlaws : StoreLaws store view quiet)
    (Hlist : forall p s r s', otsardb_store_list store p s = (r, s') -> view s' = view s)
    root path cipher s l ok s' l' :
  otsardb_recovery_restore_store_ex store root path cipher (s, l) = (ok, (s', l')) ->
  (if ok then exists md head, fst (read_database store root s) = Some (md, head) /\
              head_checksum_ok (view s) head (file_at l' path)
   else sound_io l -> l_files l' !! path = l_files l !! path \/ l_files l' !! path = None) /\
  forall p, p <> path -> l_files l' !! p = l_files l !! p.
Proof.
  intros H. split; [by eapply restore_outcome|]. by apply confined_restore in H as [_ ?].
Qed.

(** C6. An intact chain is always restored: when the store answers, the files
    have no faults and the whole chain denotes an image with HEAD's checksum,
    the restore returns success, whatever checkpoints (missing, damaged or
    foreign) the store holds. *)
Theorem recovery_restore_available (Hlaws : StoreLaws store view quiet) (Hans : answers store view)
    (Hlist : forall p s r s', otsardb_store_list store p s = (r, s') -> view s' = view s)
    root path cipher s l md head f :
  sound_io l -> root <> [] -> fst (read_database store root s) = Some (md, head) ->
  chain_restores (view s) root md head cipher f -> head_checksum_ok (view s) head f ->
  fst (otsardb_recovery_restore_store_ex store root path cipher (s, l)) = true.
Proof. by apply restore_available. Qed.

(** C8. A delta is equivalent to the whole replay: when the base image is the
    one the chain denotes at the base generation, the file a successful
    [materialize_delta] writes is the image of the whole chain, with HEAD's
    checksum; the base image is not modified. *)
Theorem recovery_delta_equals_chain (Hlaws : StoreLaws store view quiet)
    root base_path generation sha path cipher s l head s' l' :
  sound_io l -> 0 < generation -> base_path <> path ->
  otsardb_recovery_materialize_delta_ex store root base_path generation sha path cipher (s, l)
    = (Some head, (s', l')) ->
  exists md f, fst (read_database store root s) = Some (md, head) /\ l_files l' !! path = Some f /\
    head_checksum_ok (view s) head f /\ l_files l' !! base_path = l_files l !! base_path /\
    forall all, head_chain (view s) root md head 0 = Some all ->
      keys_image (view s) root cipher (reverse (drop (Z.to_nat (hd_generation head - generation)) all)) []
        = Some (file_at l base_path) ->
      chain_restores (view s) root md head cipher f.
Proof.
  intros Hs Hg Hne H. apply (delta_image store view Hlaws) in H
    as (md & keys & f & Hd & Hlt & _ & Hk & _ & Hf & Hh & Hp & Ho); [|done].
  exists md, f. split_and!; try done.
  - apply Ho; [done|]. intros E. by apply (delta_temp_ne base_path).
  - intros all Hall Hb. by eapply delta_is_chain.
Qed.

(** The walk of the chain terminates: every authenticated link lowers the
    generation by one, so the generation of its start bounds the rounds, and
    more fuel never changes the result, for any store and any visitor. *)
Theorem recovery_walk_terminates visitor root md stop count pos (extra : nat) s :
  chain_loop (read_manifest_object store) visitor (Z.to_nat (cp_generation pos) + extra) root md stop count pos s
  = chain_loop (read_manifest_object store) visitor (Z.to_nat (cp_generation pos)) root md stop count pos s.
Proof. apply chain_loop_enough. lia. Qed.
End Promises.

(** ** A database with two commits *)

Module RecoverySample.
(** A cheap digest: the theorems hold for every [Sha256]. *)
Definition sum_digest (data : bytes) : bytes :=
  put_u64_le (foldl (fun acc b => u64 (acc * 257 + b + 1)) 0 data) ++ replicate 24 0.

Lemma sum_digest_length data : length (sum_digest data) = 32%nat.
Proof. reflexivity. Qed.

Lemma sum_digest_ok data : bytes_ok (sum_digest data).
Proof.
  unfold sum_digest, bytes_ok. apply list.Forall_app. split; [apply put_le_ok|].
  apply list.Forall_replicate. split; lia.
Qed.

Instance sum_sha256 : Sha256 := {
  otsardb_sha256 := sum_digest; sha256_length := sum_digest_length; sha256_ok := sum_digest_ok
}.

Definition page (b : Z) : bytes := replicate 512 b.
Definition batch (db page_no b : Z) : bytes := default [] (otsardb_wal_batch_encode 512 db [page_no] (page b)).
Definition segment (id : string) (payload : bytes) : bytes :=
  default [] (fst <$> otsardb_segment_encode (H := sum_sha256) (H0 := zero_lz4) 1 (str id) payload false).
Definition digest (data : bytes) : bytes := otsardb_sha256_hex_data data.
Definition ref (key : string) (data : bytes) (pages : list Z) : otsardb_manifest_segment_ref :=
  mkSegmentRef (str key) (digest data) (zlen data) pages None.

Definition s1 : bytes := Eval vm_compute in segment "c-1" (batch 1 1 65).
Definition s2 : bytes := Eval vm_compute in segment "c-2" (batch 2 2 66).
Definition image1 : bytes := page 65.
Definition image2 : bytes := page 65 ++ page 66.
Definition checksum (image : bytes) (pages : Z) : bytes :=
  otsardb_checksum_hex (otsardb_checksum_file image 512 pages).

(** With or without the optional checksums. *)
Definition sum (c : bool) (image : bytes) (pages : Z) : bytes := if c then checksum image pages else [].
Definition manifest1 (c : bool) : bytes :=
  manifest_json (mkManifest 4 1 0 512 1 (str "db-1") (str "c-1") [] [] [ref "segments/s1" s1 [1]]
                   (sum c image1 1)).
Definition manifest2 (c : bool) (m1 : bytes) : bytes :=
  manifest_json (mkManifest 4 2 1 512 2 (str "db-1") (str "c-2") (str "c-1") (digest m1)
                   [ref "segments/s2" s2 [2]] (sum c image2 2)).
Definition head_at (m2 : bytes) : otsardb_head :=
  mkHead 1 2 (str "db-1") (str "c-2") (str "db/commits/c-2.json") (digest m2).
Definition metadata : otsardb_db_metadata := mkMetadata 1 512 (str "db-1").

Definition m1 : bytes := Eval vm_compute in manifest1 true.
Definition m2 : bytes := Eval vm_compute in manifest2 true m1.
Definition head : otsardb_head := Eval vm_compute in head_at m2.
Definition bare1 : bytes := Eval vm_compute in manifest1 false.
Definition bare2 : bytes := Eval vm_compute in manifest2 false bare1.
Definition bare_head : otsardb_head := Eval vm_compute in head_at bare2.

Definition object (data : bytes) : otsardb_store_object := mkObject data (Some (str "e")) 0.
Definition database (m1 m2 : bytes) (head : otsardb_head) : contents :=
  <[str "db/db.json" := object (default [] (otsardb_db_metadata_encode_json metadata))]>
  (<[str "db/HEAD.json" := object (otsardb_head_encode_json head)]>
  (<[str "db/commits/c-1.json" := object m1]>
  (<[str "db/commits/c-2.json" := object m2]>
  (<[str "db/segments/s1" := object s1]>
  (<[str "db/segments/s2" := object s2]> ∅))))).
Definition objects : contents := database m1 m2 head.
Definition bare : contents := database bare1 bare2 bare_head.

(** A read-only store. *)
Definition shelf : otsardb_object_store contents :=
  mkStore (Some (fun key v => (match v !! key with Some ob => inr ob | None => inl OTSARDB_STORE_NOT_FOUND end, v)))
    None None None None (Some (fun _ v => (inr [], v))) 0.

Lemma shelf_laws : StoreLaws shelf id quiet.
Proof.
  split.
  - intros key s r s' H. cbn in H. injection H as <- <-. split; [done|]. unfold id. by destruct (s !! key).
  - intros key data o s r s' H. cbn in H. injection H as <- <-. by exists s.
  - intros key s r s' H. cbn in H. injection H as <- <-. exists s. auto.
Qed.

Lemma shelf_answers : answers shelf id.
Proof. intros key s ob H. cbn in H |- *. by rewrite H. Qed.

Lemma shelf_list p s r s' : otsardb_store_list shelf p s = (r, s') -> id s' = id s.
Proof. intros H. cbn in H. by injection H as _ <-. Qed.

Definition path : bytes := str "x.db".
Abbreviation restore v l :=
  (otsardb_recovery_restore_store_ex (HSha := sum_sha256) (HLz4 := zero_lz4) shelf (str "db") path None (v, l)).

(** The image of the first commit, and the delta over it. *)
Definition cached : local := mkLocal {[str "base" := image1]} [].
Abbreviation delta :=
  (otsardb_recovery_materialize_delta_ex (HSha := sum_sha256) (HLz4 := zero_lz4) shelf (str "db") (str "base") 1 (digest m1) path None
    (objects, cached)).

(** The first batch is applied; then opening the existing file fails once. *)
Definition reopen_fails : local := mkLocal ∅ (replicate 9 IO_ok ++ [IO_short 0]).
End RecoverySample.
#[local] Existing Instance RecoverySample.sum_sha256.

(** Both sides evaluate to the same value; the proof term does not hold it. *)
Ltac vm_equal := match goal with |- _ = ?b => vm_cast_no_check (eq_refl b) end.

Lemma run_pair {S A} (m : A * (S * local)) a : fst m = a -> m = (a, (fst (snd m), snd (snd m))).
Proof. destruct m as [? []]. cbn. by intros ->. Qed.

Lemma sample_sound : sound_io no_files.
Proof. done. Qed.

Lemma recovery_restore_refines_chain_witness :
  exists md head, fst (read_database RecoverySample.shelf (str "db") RecoverySample.objects) = Some (md, head) /\
    restorable (HSha := RecoverySample.sum_sha256) (HLz4 := zero_lz4) RecoverySample.objects (str "db") md head None
      (file_at (snd (snd (RecoverySample.restore RecoverySample.objects no_files))) RecoverySample.path).
Proof.
  destruct (recovery_restore_refines_chain (HSha := RecoverySample.sum_sha256) (HLz4 := zero_lz4) RecoverySample.shelf id RecoverySample.shelf_laws
    RecoverySample.shelf_list (str "db") RecoverySample.path None RecoverySample.objects no_files
    (fst (snd (RecoverySample.restore RecoverySample.objects no_files)))
    (snd (snd (RecoverySample.restore RecoverySample.objects no_files)))) as [H _].
  - exact sample_sound.
  - apply run_pair. vm_compute. reflexivity.
  - unfold id in H. exact H.
Defined.

Lemma recovery_restore_validated_witness :
  exists md head, fst (read_database RecoverySample.shelf (str "db") RecoverySample.objects) = Some (md, head) /\
    head_checksum_ok RecoverySample.objects head
      (file_at (snd (snd (RecoverySample.restore RecoverySample.objects no_files))) RecoverySample.path).
Proof.
  destruct (recovery_restore_validated (HSha := RecoverySample.sum_sha256) (HLz4 := zero_lz4) RecoverySample.shelf id RecoverySample.shelf_laws
    RecoverySample.shelf_list (str "db") RecoverySample.path None RecoverySample.objects no_files true
    (fst (snd (RecoverySample.restore RecoverySample.objects no_files)))
    (snd (snd (RecoverySample.restore RecoverySample.objects no_files)))) as [H _].
  - apply run_pair. vm_compute. reflexivity.
  - unfold id in H. exact H.
Defined.

Lemma recovery_restore_available_witness :
  fst (RecoverySample.restore RecoverySample.objects no_files) = true.
Proof.
  apply (recovery_restore_available (HSha := RecoverySample.sum_sha256) (HLz4 := zero_lz4) RecoverySample.shelf id RecoverySample.shelf_laws
    RecoverySample.shelf_answers RecoverySample.shelf_list (str "db") RecoverySample.path None
    RecoverySample.objects no_files RecoverySample.metadata RecoverySample.head RecoverySample.image2).
  - exact sample_sound.
  - discriminate.
  - vm_compute. reflexivity.
  - exists [str "db/commits/c-2.json"; str "db/commits/c-1.json"]. split; vm_compute; reflexivity.
  - eexists _, _. split_and!; [vm_compute; reflexivity..|]. right. vm_compute. reflexivity.
Defined.

Lemma recovery_delta_equals_chain_witness :
  exists md f, fst (read_database RecoverySample.shelf (str "db") RecoverySample.objects)
               = Some (md, RecoverySample.head) /\
    l_files (snd (snd RecoverySample.delta)) !! RecoverySample.path = Some f.
Proof.
  destruct (recovery_delta_equals_chain (HSha := RecoverySample.sum_sha256) (HLz4 := zero_lz4) RecoverySample.shelf id RecoverySample.shelf_laws
    (str "db") (str "base") 1 (RecoverySample.digest RecoverySample.m1) RecoverySample.path None
    RecoverySample.objects RecoverySample.cached RecoverySample.head
    (fst (snd RecoverySample.delta)) (snd (snd RecoverySample.delta))) as (md & f & Hd & Hf & _).
  - reflexivity.
  - reflexivity.
  - discriminate.
  - apply run_pair. vm_compute. reflexivity.
  - exists md, f. split; [exact Hd|exact Hf].
Defined.

(** Without the optional checksum a transient failure is not detected: when
    [fopen] in mode r+b fails once on the file the first batch was applied to,
    the file is reopened in mode w+b, which empties it, and the restore still
    reports success with the first page lost; without the failure the file is
    the image of the chain. *)
Theorem recovery_reopen_loses_pages :
  fst (RecoverySample.restore RecoverySample.bare RecoverySample.reopen_fails) = true /\
  file_at (snd (snd (RecoverySample.restore RecoverySample.bare RecoverySample.reopen_fails))) RecoverySample.path
    = replicate 512 0 ++ RecoverySample.page 66 /\
  file_at (snd (snd (RecoverySample.restore RecoverySample.bare no_files))) RecoverySample.path
    = RecoverySample.image2.
Proof. split_and!; vm_compute; reflexivity. Qed.
