(* ===== verification/WalPublisher.v ===== *)
(** * The WAL publisher (wal_publisher.c)

    The state machine between SQLite and the store: every sync reads the
    write-ahead log from the publisher's cursor on and publishes each complete
    transaction as a commit on top of the cached HEAD, with a rolling checksum
    of the database, a generation fence, a lease fence and bounded retries. The
    replica destinations are an interface; sleeping between attempts and the
    byte counters are not modelled. *)

From stdpp Require Import sorting.
From S2P Require Import Prelude CText ObjectStore Journal Codec WalBatch Sha256 Segment.
From S2P Require Import Checksum SqliteWal DbMetadata CommitManifest CommitPublish CommitResolve.

(** ** Result codes of SQLite *)

Definition SQLITE_OK : Z := 0.
Definition SQLITE_BUSY : Z := 5.
Definition SQLITE_NOMEM : Z := 7.
Definition SQLITE_CORRUPT : Z := 11.
Definition SQLITE_NOTFOUND : Z := 12.
Definition SQLITE_TOOBIG : Z := 18.
Definition SQLITE_MISMATCH : Z := 20.
Definition SQLITE_MISUSE : Z := 21.
Definition SQLITE_IOERR_READ : Z := 266.
Definition SQLITE_IOERR_WRITE : Z := 778.
Definition SQLITE_BUSY_SNAPSHOT : Z := 517.
(** The division by zero of the chunk count stops the process. *)
Definition TRAP : Z := -1.

Definition OTSARDB_WAL_PUBLISHER_DEFAULT_SEGMENT_PAYLOAD_LIMIT : Z := 16 * 1024 * 1024.

(** ** The publisher *)

(** The cached HEAD. *)
Record head_cache := mkHeadCache {
  hc_loaded : bool;
  hc_generation : Z;
  hc_commit_id : bytes;
  hc_manifest_sha256 : bytes;
  hc_etag : bytes
}.

(** The local execution image: the generation it was materialised at, and the
    proof that its untouched pages are those of the parent. *)
Record image_anchor := mkAnchor {
  ia_generation_known : bool;
  ia_generation : Z;
  ia_verified : bool;
  ia_verify_page_size : Z;
  ia_verify_page_count : Z
}.

(** The rolling checksum and the contribution of each page touched. *)
Record rolling_sum := mkSum {
  rs_known : bool;
  rs_checksum : Z;
  rs_contribs : list (Z * Z)
}.

Record wal_position := mkWal {
  wl_generation_known : bool;
  wl_salt1 : Z;
  wl_salt2 : Z;
  wl_published_commit_count : Z;
  wl_cursor_ready : bool;
  wl_cursor : otsardb_sqlite_wal_cursor
}.

(** [wp_replica]: the handle of the replica is open. *)
Record otsardb_wal_publisher := mkPublisher {
  wp_strategy : otsardb_write_strategy;
  wp_database_root : bytes;
  wp_database_id : bytes;
  wp_segment_payload_limit : Z;
  wp_metadata_ready : bool;
  wp_head : head_cache;
  wp_image : image_anchor;
  wp_sum : rolling_sum;
  wp_wal : wal_position;
  wp_extended_conflict : bool;
  wp_replica : bool;
  wp_dual_pending : bool;
  wp_dual_commit_id : bytes
}.

Definition no_head : head_cache := mkHeadCache false 0 [] [] [].
Definition no_anchor : image_anchor := mkAnchor false 0 false 0 0.
Definition no_sum : rolling_sum := mkSum false 0 [].
Definition no_cursor : otsardb_sqlite_wal_cursor := mkWalCursor (mkWalHeader 0 0 0 0 0 false) 0 0 0.
Definition no_wal : wal_position := mkWal false 0 0 0 false no_cursor.

Definition set_metadata_ready (b : bool) (p : otsardb_wal_publisher) : otsardb_wal_publisher :=
  mkPublisher (wp_strategy p) (wp_database_root p) (wp_database_id p) (wp_segment_payload_limit p)
    b (wp_head p) (wp_image p) (wp_sum p) (wp_wal p) (wp_extended_conflict p) (wp_replica p)
    (wp_dual_pending p) (wp_dual_commit_id p).
Definition set_limit (n : Z) (p : otsardb_wal_publisher) : otsardb_wal_publisher :=
  mkPublisher (wp_strategy p) (wp_database_root p) (wp_database_id p) n
    (wp_metadata_ready p) (wp_head p) (wp_image p) (wp_sum p) (wp_wal p) (wp_extended_conflict p)
    (wp_replica p) (wp_dual_pending p) (wp_dual_commit_id p).
Definition set_head (h : head_cache) (p : otsardb_wal_publisher) : otsardb_wal_publisher :=
  mkPublisher (wp_strategy p) (wp_database_root p) (wp_database_id p) (wp_segment_payload_limit p)
    (wp_metadata_ready p) h (wp_image p) (wp_sum p) (wp_wal p) (wp_extended_conflict p) (wp_replica p)
    (wp_dual_pending p) (wp_dual_commit_id p).
Definition set_image (i : image_anchor) (p : otsardb_wal_publisher) : otsardb_wal_publisher :=
  mkPublisher (wp_strategy p) (wp_database_root p) (wp_database_id p) (wp_segment_payload_limit p)
    (wp_metadata_ready p) (wp_head p) i (wp_sum p) (wp_wal p) (wp_extended_conflict p) (wp_replica p)
    (wp_dual_pending p) (wp_dual_commit_id p).
Definition set_sum (s : rolling_sum) (p : otsardb_wal_publisher) : otsardb_wal_publisher :=
  mkPublisher (wp_strategy p) (wp_database_root p) (wp_database_id p) (wp_segment_payload_limit p)
    (wp_metadata_ready p) (wp_head p) (wp_image p) s (wp_wal p) (wp_extended_conflict p) (wp_replica p)
    (wp_dual_pending p) (wp_dual_commit_id p).
Definition set_wal (w : wal_position) (p : otsardb_wal_publisher) : otsardb_wal_publisher :=
  mkPublisher (wp_strategy p) (wp_database_root p) (wp_database_id p) (wp_segment_payload_limit p)
    (wp_metadata_ready p) (wp_head p) (wp_image p) (wp_sum p) w (wp_extended_conflict p) (wp_replica p)
    (wp_dual_pending p) (wp_dual_commit_id p).
Definition set_conflict (b : bool) (p : otsardb_wal_publisher) : otsardb_wal_publisher :=
  mkPublisher (wp_strategy p) (wp_database_root p) (wp_database_id p) (wp_segment_payload_limit p)
    (wp_metadata_ready p) (wp_head p) (wp_image p) (wp_sum p) (wp_wal p) b (wp_replica p)
    (wp_dual_pending p) (wp_dual_commit_id p).
Definition set_replica (b : bool) (p : otsardb_wal_publisher) : otsardb_wal_publisher :=
  mkPublisher (wp_strategy p) (wp_database_root p) (wp_database_id p) (wp_segment_payload_limit p)
    (wp_metadata_ready p) (wp_head p) (wp_image p) (wp_sum p) (wp_wal p) (wp_extended_conflict p) b
    (wp_dual_pending p) (wp_dual_commit_id p).
Definition set_dual (b : bool) (id : bytes) (p : otsardb_wal_publisher) : otsardb_wal_publisher :=
  mkPublisher (wp_strategy p) (wp_database_root p) (wp_database_id p) (wp_segment_payload_limit p)
    (wp_metadata_ready p) (wp_head p) (wp_image p) (wp_sum p) (wp_wal p) (wp_extended_conflict p)
    (wp_replica p) b id.

Definition set_published (n : Z) (p : otsardb_wal_publisher) : otsardb_wal_publisher :=
  let w := wp_wal p in
  set_wal (mkWal (wl_generation_known w) (wl_salt1 w) (wl_salt2 w) n (wl_cursor_ready w) (wl_cursor w)) p.
Definition set_cursor (c : otsardb_sqlite_wal_cursor) (p : otsardb_wal_publisher) : otsardb_wal_publisher :=
  let w := wp_wal p in
  set_wal (mkWal (wl_generation_known w) (wl_salt1 w) (wl_salt2 w) (wl_published_commit_count w)
             (wl_cursor_ready w) c) p.
Definition set_verified (b : bool) (p : otsardb_wal_publisher) : otsardb_wal_publisher :=
  let i := wp_image p in
  set_image (mkAnchor (ia_generation_known i) (ia_generation i) b (ia_verify_page_size i)
               (ia_verify_page_count i)) p.
(** The generation of the image moves only when it is known. *)
Definition move_image (generation : Z) (p : otsardb_wal_publisher) : otsardb_wal_publisher :=
  let i := wp_image p in
  if ia_generation_known i
  then set_image (mkAnchor true generation (ia_verified i) (ia_verify_page_size i) (ia_verify_page_count i)) p
  else p.
Definition set_base (known : bool) (checksum page_size page_count : Z) (p : otsardb_wal_publisher)
  : otsardb_wal_publisher :=
  let i := wp_image p in
  set_sum (mkSum known checksum (rs_contribs (wp_sum p)))
    (set_image (mkAnchor (ia_generation_known i) (ia_generation i) (ia_verified i) page_size page_count) p).

(** ** The page map *)

Fixpoint page_map_get (contribs : list (Z * Z)) (page_no : Z) : option Z :=
  match contribs with
  | [] => None
  | (n, c) :: rest => if n =? page_no then Some c else page_map_get rest page_no
  end.

Fixpoint page_map_set (contribs : list (Z * Z)) (page_no contrib : Z) : list (Z * Z) :=
  match contribs with
  | [] => [(page_no, contrib)]
  | (n, c) :: rest => if n =? page_no then (n, contrib) :: rest else (n, c) :: page_map_set rest page_no contrib
  end.

Definition page_map_clear (p : otsardb_wal_publisher) : otsardb_wal_publisher :=
  set_sum (mkSum (rs_known (wp_sum p)) (rs_checksum (wp_sum p)) []) p.

(** The contribution of the old page in the local file; [None] when it cannot
    be read. *)
Definition old_page_contrib (db_read_at : option otsardb_sqlite_wal_read_at) (page_no page_size : Z)
  : option Z :=
  match db_read_at with
  | None => None
  | Some read =>
      let offset := u64 (u64 (page_no - 1) * page_size) in
      if 2 ^ 63 - 1 <? offset then None
      else match read offset page_size with
           | None => None
           | Some page => Some (otsardb_checksum_accumulate 0 page_no page)
           end
  end.

(** ** Commit identities *)

(** [%08x] of a 32-bit value. *)
Definition hex8 (v : Z) : bytes := checksum_hex_loop 8 v [].

(** [w%08x%08x-%08x] *)
Definition wal_commit_id (salt1 salt2 commit_index : Z) : bytes :=
  str "w" ++ hex8 salt1 ++ hex8 salt2 ++ str "-" ++ hex8 commit_index.

(** At most [n] hexadecimal digits. *)
Fixpoint span_hex (n : nat) (p : bytes) : list Z * bytes :=
  match n, p with
  | Datatypes.S n', c :: t =>
      match hex_value c with
      | Some d => let '(ds, rest) := span_hex n' t in (d :: ds, rest)
      | None => ([], p)
      end
  | _, _ => ([], p)
  end.

Definition hex_number (ds : list Z) : Z := foldl (fun acc d => acc * 16 + d) 0 ds.

(** A sign, and what it leaves of the 8 characters. *)
Definition scan_sign (p : bytes) : bool * nat * bytes :=
  match p with
  | c :: t => if c =? 45 then (true, 7%nat, t) else if c =? 43 then (false, 7%nat, t) else (false, 8%nat, p)
  | [] => (false, 8%nat, p)
  end.

(** A prefix [0x]. *)
Definition scan_prefix (width : nat) (p : bytes) : nat * bytes :=
  match p with
  | c :: x :: t => if (c =? 48) && ((x =? 120) || (x =? 88)) then ((width - 2)%nat, t) else (width, p)
  | _ => (width, p)
  end.

(** [%8x] of [sscanf]: spaces, then at most 8 characters: a sign, a prefix
    [0x] and digits. *)
Definition scan_hex8 (p : bytes) : option (Z * bytes) :=
  let '(neg, width, p) := scan_sign (skip_while is_space p) in
  let '(width, p) := scan_prefix width p in
  match span_hex width p with
  | ([], _) => None
  | (ds, rest) => Some (u32 (if neg : bool then - hex_number ds else hex_number ds), rest)
  end.

Definition scan_literal (c : Z) (p : bytes) : option bytes :=
  match p with
  | x :: t => if x =? c then Some t else None
  | [] => None
  end.

(** The commit index of the cached HEAD, when it is a commit of this WAL. *)
Definition current_wal_head_commit_index (p : otsardb_wal_publisher) : Z :=
  let w := wp_wal p in
  if negb (wl_generation_known w) then 0
  else match scan_literal 119 (hc_commit_id (wp_head p)) with
  | None => 0
  | Some t =>
      match scan_hex8 t with
      | None => 0
      | Some (salt1, t) =>
          match scan_hex8 t with
          | None => 0
          | Some (salt2, t) =>
              match scan_literal 45 t with
              | None => 0
              | Some t =>
                  match scan_hex8 t with
                  | Some (index, []) =>
                      if (salt1 =? wl_salt1 w) && (salt2 =? wl_salt2 w) then index else 0
                  | _ => 0
                  end
              end
          end
      end
  end.

(** ** Settings from the environment *)

(** [strtol] over the whole string, saturated; [None] on garbage. *)
Definition strtol_all (text : bytes) : option Z :=
  let p := skip_while is_space text in
  let '(neg, p) := match p with
                   | 45 :: t => (true, t)
                   | 43 :: t => (false, t)
                   | _ => (false, p)
                   end in
  match span is_digit p with
  | ([], _) | (_, _ :: _) => None
  | (ds, []) =>
      let v := if neg : bool then - digits_value ds else digits_value ds in
      Some (Z.max (- 2 ^ 63) (Z.min (2 ^ 63 - 1) v))
  end.

(** [getenv] gives [None] when the variable is not set. *)
Definition publish_retries_limit (value : option bytes) : Z :=
  match value with
  | None | Some [] => 3
  | Some v => match strtol_all v with
              | None => 3
              | Some n => if n <? 1 then 1 else if 10 <? n then 10 else n
              end
  end.

Definition publish_retry_base_ms (value : option bytes) : Z :=
  match value with
  | None | Some [] => 250
  | Some v => match strtol_all v with
              | None => 250
              | Some n => if n <? 0 then 0 else if 60000 <? n then 60000 else n
              end
  end.

Definition parallel_segments_limit (value : option bytes) : Z :=
  match value with
  | None | Some [] => 2
  | Some v => match strtol_all v with
              | None => 2
              | Some n => if n <? 0 then 2 else if n =? 0 then 0 else if 8 <? n then 8 else n
              end
  end.

(** What the process reads from its environment. *)
Record environment := mkEnvironment {
  env_publish_retries : option bytes;
  env_parallel_segments : option bytes
}.

Definition publish_rc_retryable (rc : otsardb_journal_result) : bool :=
  match rc with
  | OTSARDB_JOURNAL_ERROR | OTSARDB_JOURNAL_AMBIGUOUS => true
  | _ => false
  end.

Definition journal_result_to_sqlite (rc : otsardb_journal_result) : Z :=
  match rc with
  | OTSARDB_JOURNAL_OK => SQLITE_OK
  | OTSARDB_JOURNAL_CONFLICT => SQLITE_BUSY
  | OTSARDB_JOURNAL_INVALID => SQLITE_CORRUPT
  | OTSARDB_JOURNAL_NOT_FOUND => SQLITE_NOTFOUND
  | _ => SQLITE_IOERR_WRITE
  end.

(** The cycle: an attempt that succeeds gives a value; on the last failure the
    result of the first attempt is reported. *)
Fixpoint retry_loop {S A} (attempts : nat) (first_rc : option otsardb_journal_result)
    (attempt : M S (option A * otsardb_journal_result)) : M S (option A * otsardb_journal_result) :=
  match attempts with
  | O => return! (None, default OTSARDB_JOURNAL_ERROR first_rc)
  | Datatypes.S attempts' =>
      let! (r, rc) := attempt in
      match r with
      | Some a => return! (Some a, rc)
      | None => if publish_rc_retryable rc
                then retry_loop attempts' (Some (default rc first_rc)) attempt
                else return! (None, rc)
      end
  end.

Definition publish_retry_cycle {S A} (e : environment)
    (attempt : M S (option A * otsardb_journal_result)) : M S (option A * otsardb_journal_result) :=
  retry_loop (Z.to_nat (publish_retries_limit (env_publish_retries e))) None attempt.

(** ** Chunks of a transaction *)

(** [qsort] and the loop that drops repeated page numbers. *)
Fixpoint drop_repeats (pages : list Z) : list Z :=
  match pages with
  | a :: (b :: _) as rest => if a =? b then drop_repeats rest else a :: drop_repeats rest
  | _ => pages
  end.
Definition page_set (pages : list Z) : list Z := drop_repeats (merge_sort Z.le pages).

Definition frame_page (read_at : otsardb_sqlite_wal_read_at) (page_size : Z)
    (ref : otsardb_sqlite_wal_frame_ref) : option bytes :=
  if UINT64_MAX - OTSARDB_SQLITE_WAL_FRAME_HEADER_SIZE <? fr_frame_offset ref then None
  else read_at (fr_frame_offset ref + OTSARDB_SQLITE_WAL_FRAME_HEADER_SIZE) page_size.

(** One segment input, or the SQLite code of the failure. *)
Definition chunk_input (read_at : otsardb_sqlite_wal_read_at) (page_size database_size_pages : Z)
    (frames : list otsardb_sqlite_wal_frame_ref) : Z + otsardb_segment_input :=
  match mapM (frame_page read_at page_size) frames with
  | None => inl SQLITE_IOERR_READ
  | Some pages =>
      let nos := fr_page_no <$> frames in
      match otsardb_wal_batch_encode page_size database_size_pages nos (concat pages) with
      | None => inl SQLITE_NOMEM
      | Some batch => inr (mkSegmentInput batch (Some (page_set nos)))
      end
  end.

Fixpoint chunk_inputs (read_at : otsardb_sqlite_wal_read_at) (page_size database_size_pages : Z)
    (frames_per_chunk : nat) (count : nat) (frames : list otsardb_sqlite_wal_frame_ref)
  : Z + list otsardb_segment_input :=
  match count with
  | O => inr []
  | Datatypes.S count' =>
      match chunk_input read_at page_size database_size_pages (take frames_per_chunk frames) with
      | inl rc => inl rc
      | inr input =>
          match chunk_inputs read_at page_size database_size_pages frames_per_chunk count'
                  (drop frames_per_chunk frames) with
          | inl rc => inl rc
          | inr inputs => inr (input :: inputs)
          end
      end
  end.

Definition frames_per_chunk (limit page_size : Z) : Z :=
  let n := if 0 <? limit then limit / (OTSARDB_WAL_BATCH_FRAME_HEADER_SIZE + page_size) else 0 in
  if n =? 0 then 1 else n.

(** The inputs of a commit; the counts are 32-bit. *)
Definition commit_inputs (read_at : otsardb_sqlite_wal_read_at) (limit page_size database_size_pages : Z)
    (frames : list otsardb_sqlite_wal_frame_ref) : Z + list otsardb_segment_input :=
  let per_chunk := u32 (frames_per_chunk limit page_size) in
  if per_chunk =? 0 then inl TRAP
  else
    let chunk_count := u32 (u32 (zlen frames + per_chunk) - 1) / per_chunk in
    if OTSARDB_MANIFEST_MAX_SEGMENTS <? chunk_count then inl SQLITE_TOOBIG
    else chunk_inputs read_at page_size database_size_pages (Z.to_nat per_chunk) (Z.to_nat chunk_count) frames.

(** ** The rolling checksum *)

(** Where a sync is: the index of the commit, the code to return, and the
    checksum carried from commit to commit. *)
Record publish_scan_context := mkScanContext {
  sc_publisher : otsardb_wal_publisher;
  sc_commit_index : Z;
  sc_sqlite_rc : Z;
  sc_checksum : Z;
  sc_checksum_valid : bool
}.

(** The state of the loop over the frames: all pages were read, a needed old
    page was not available, the checksum, the page map. *)
Record roll := mkRoll { rl_ok : bool; rl_blocked : bool; rl_checksum : Z; rl_contribs : list (Z * Z) }.

Definition roll_frame (db_read_at : option otsardb_sqlite_wal_read_at) (p : otsardb_wal_publisher)
    (page_size page_no : Z) (page : bytes) (st : roll) : roll :=
  let new_contrib := otsardb_checksum_accumulate 0 page_no page in
  let '(blocked, checksum) :=
    match page_map_get (rl_contribs st) page_no with
    | Some old => (rl_blocked st, Z.lxor (rl_checksum st) old)
    | None =>
        if (0 <? hc_generation (wp_head p)) && (page_no <=? ia_verify_page_count (wp_image p)) then
          match (if ia_verified (wp_image p) then old_page_contrib db_read_at page_no page_size else None) with
          | Some old => (rl_blocked st, Z.lxor (rl_checksum st) old)
          | None => (true, rl_checksum st)
          end
        else (rl_blocked st, rl_checksum st)
    end in
  mkRoll true blocked (Z.lxor checksum new_contrib) (page_map_set (rl_contribs st) page_no new_contrib).

Fixpoint roll_frames (read_at : otsardb_sqlite_wal_read_at) (db_read_at : option otsardb_sqlite_wal_read_at)
    (p : otsardb_wal_publisher) (page_size : Z) (frames : list otsardb_sqlite_wal_frame_ref) (st : roll) : roll :=
  match frames with
  | [] => st
  | ref :: rest =>
      match read_at (u64 (fr_frame_offset ref + OTSARDB_SQLITE_WAL_FRAME_HEADER_SIZE)) page_size with
      | None => mkRoll false (rl_blocked st) (rl_checksum st) (rl_contribs st)
      | Some page =>
          roll_frames read_at db_read_at p page_size rest
            (roll_frame db_read_at p page_size (fr_page_no ref) page st)
      end
  end.

(** The base a commit starts from. *)
Definition roll_start (c : publish_scan_context) : Z :=
  let p := sc_publisher c in
  if rs_known (wp_sum p) && sc_checksum_valid c then rs_checksum (wp_sum p)
  else if hc_generation (wp_head p) =? 0 then 0 else sc_checksum c.

(** The checksum of a commit ([None]: it is published without), and the context
    with the page map and, when the commit is blocked, without its base. *)
Definition roll_commit (read_at : otsardb_sqlite_wal_read_at) (db_read_at : option otsardb_sqlite_wal_read_at)
    (page_size : Z) (frames : list otsardb_sqlite_wal_frame_ref) (c : publish_scan_context)
  : option bytes * publish_scan_context :=
  let p := sc_publisher c in
  let sum := wp_sum p in
  let start := roll_start c in
  if negb (rs_known sum || (hc_generation (wp_head p) =? 0))
  then (None, mkScanContext p (sc_commit_index c) (sc_sqlite_rc c) start (sc_checksum_valid c))
  else
    let r := roll_frames read_at db_read_at p page_size frames (mkRoll true false start (rs_contribs sum)) in
    if rl_blocked r
    then (None, mkScanContext (set_sum (mkSum false 0 (rl_contribs r)) p) (sc_commit_index c)
                  (sc_sqlite_rc c) (rl_checksum r) false)
    else (if rl_ok r then Some (otsardb_checksum_hex (rl_checksum r)) else None,
          mkScanContext (set_sum (mkSum (rs_known sum) (rs_checksum sum) (rl_contribs r)) p)
            (sc_commit_index c) (sc_sqlite_rc c) (rl_checksum r) (sc_checksum_valid c)).

(** ** The replica destinations

    What the publisher calls of replica.c; [None] is success. *)
Record replica_ops (S : Type) := mkReplicaOps {
  rp_configured : bool;
  rp_open : bytes -> bytes -> M S bool;
  rp_replicate : otsardb_commit_request -> bytes -> bytes -> bytes -> bytes -> M S (option otsardb_journal_result);
  rp_mark_aborted : bytes -> bytes -> Z -> Z -> bytes -> bytes -> M S unit;
  rp_promote : bytes -> M S (option otsardb_journal_result)
}.
Arguments mkReplicaOps {S}. Arguments rp_configured {S}. Arguments rp_open {S}.
Arguments rp_replicate {S}. Arguments rp_mark_aborted {S}. Arguments rp_promote {S}.

#[export] Instance write_strategy_eq_dec : EqDecision otsardb_write_strategy.
Proof. solve_decision. Defined.

(** How a commit came to be durable. *)
Inductive publish_ack :=
  | Published (result : otsardb_commit_result)
  | IdentityResolved.

Section Publisher.
Context `{HSha : Sha256} `{HLz4 : Lz4}.
Context {S : Type} (store : otsardb_object_store S) (replica : replica_ops S) (env : environment).
Context (after_object : bytes -> bytes) (thread_cipher : option otsardb_cipher).
(** The lease fence: the liveness of the lease, as a callback. *)
Context (lease_fence : option (M S bool)).

Abbreviation pub := otsardb_wal_publisher.

Definition choose_strategy (requested : otsardb_write_strategy) : otsardb_write_strategy :=
  match requested with
  | OTSARDB_WRITE_STRATEGY_DEFAULT =>
      if otsardb_store_supports store OTSARDB_STORE_CAP_CONDITIONAL_CREATE &&
         otsardb_store_supports store OTSARDB_STORE_CAP_CONDITIONAL_UPDATE
      then OTSARDB_WRITE_STRATEGY_CAS else OTSARDB_WRITE_STRATEGY_SINGLE_WRITER
  | s => s
  end.

(** ** The cached HEAD *)

Definition cache_head (head : otsardb_head) (etag : bytes) : head_cache :=
  mkHeadCache true (hd_generation head) (snprintf_s 64 (hd_commit_id head))
    (snprintf_s 65 (hd_commit_sha256 head)) (snprintf_s 128 etag).

(** The manifest of HEAD gives the base of the rolling checksum; when it cannot
    be had, the refresh fails only if there was a base before. *)
Definition rebase_checksum (prev_known : bool) (head : otsardb_head) (p : pub) : M S (Z * pub) :=
  let failed := (if prev_known then SQLITE_IOERR_READ else SQLITE_OK, p) in
  let key := wp_database_root p ++ str "/commits/" ++ hd_commit_id head ++ str ".json" in
  if OTSARDB_KEY_MAX + 1 <=? zlen key then return! failed
  else
    let! rc := otsardb_store_get store key in
    match rc with
    | inl _ => return! failed
    | inr object =>
        match otsardb_commit_manifest_decode_json (so_data object) with
        | None => return! failed
        | Some m =>
            if zlen (cm_post_apply_checksum m) =? 0 then return! (SQLITE_OK, p)
            else match otsardb_checksum_parse (cm_post_apply_checksum m) with
            | Some checksum =>
                return! (SQLITE_OK, set_base true checksum (cm_page_size m) (cm_database_size_pages m) p)
            | None => return! failed
            end
        end
    end.

Definition refresh_head (p : pub) : M S (Z * pub) :=
  let! (rc, r) := otsardb_journal_read_head store (wp_database_root p) in
  match rc, r with
  | OTSARDB_JOURNAL_NOT_FOUND, _ => return! (SQLITE_OK, set_head (mkHeadCache true 0 [] [] []) p)
  | OTSARDB_JOURNAL_OK, Some (head, etag) =>
      if negb (bytes_eqb (hd_database_id head) (wp_database_id p)) ||
         negb (zlen (hd_commit_sha256 head) =? OTSARDB_MANIFEST_SHA256_HEX_SIZE)
      then return! (SQLITE_MISMATCH, p)
      else
        let cache := wp_head p in
        let chain_changed := hc_loaded cache &&
          (negb (hc_generation cache =? hd_generation head) || negb (bytes_eqb (hc_commit_id cache) (hd_commit_id head))) in
        let prev := wp_sum p in
        let prev_image := wp_image p in
        let our_pending_retry := wp_dual_pending p && negb (zlen (hd_commit_id head) =? 0) &&
                                 bytes_eqb (wp_dual_commit_id p) (hd_commit_id head) in
        let p1 := if our_pending_retry
                  then set_head (mkHeadCache true (hc_generation cache) (hc_commit_id cache)
                                   (hc_manifest_sha256 cache) (hc_etag cache)) p
                  else set_head (cache_head head etag) p in
        let p2 := if chain_changed && negb our_pending_retry
                  then set_verified false (page_map_clear p1) else p1 in
        let p3 := set_base false 0 0 0 p2 in
        if hd_generation head <=? 0 then return! (SQLITE_OK, p3)
        else if hc_loaded cache && negb chain_changed && rs_known prev
        then return! (SQLITE_OK, set_base true (rs_checksum prev) (ia_verify_page_size prev_image)
                                   (ia_verify_page_count prev_image) p3)
        else rebase_checksum (rs_known prev) head p3
  | _, _ => return! (SQLITE_IOERR_READ, p)
  end.

Definition ensure_metadata (p : pub) (page_size : Z) : M S (Z * pub) :=
  if wp_metadata_ready p then return! (SQLITE_OK, p)
  else
    let! rc := otsardb_db_metadata_create store (wp_database_root p)
                 (mkMetadata 1 page_size (snprintf_s 64 (wp_database_id p))) in
    match rc with
    | OTSARDB_METADATA_OK => return! (SQLITE_OK, set_metadata_ready true p)
    | OTSARDB_METADATA_CONFLICT =>
        let! (rc, existing) := otsardb_db_metadata_read store (wp_database_root p) in
        match rc, existing with
        | OTSARDB_METADATA_OK, Some existing =>
            if (md_page_size existing =? page_size) &&
               bytes_eqb (md_database_id existing) (wp_database_id p)
            then return! (SQLITE_OK, set_metadata_ready true p) else return! (SQLITE_MISMATCH, p)
        | _, _ => return! (SQLITE_MISMATCH, p)
        end
    | _ => return! (SQLITE_IOERR_WRITE, p)
    end.

(** ** Uploading the segments ahead *)

Definition preupload_existing_matches (key data : bytes) : M S otsardb_journal_result :=
  let! rc := otsardb_store_get store key in
  return! match rc with
          | inl OTSARDB_STORE_NOT_FOUND => OTSARDB_JOURNAL_NOT_FOUND
          | inl _ => OTSARDB_JOURNAL_ERROR
          | inr existing => if bytes_eqb (so_data existing) data then OTSARDB_JOURNAL_OK
                            else OTSARDB_JOURNAL_CONFLICT
          end.

Definition preupload_timeout (key data : bytes) : M S otsardb_journal_result :=
  let! resolved := preupload_existing_matches key data in
  return! match resolved with
          | OTSARDB_JOURNAL_NOT_FOUND => OTSARDB_JOURNAL_AMBIGUOUS
          | r => r
          end.

(** The pull source is the whole buffer. *)
Definition preupload_immutable_put_stream (key data : bytes) : M S otsardb_journal_result :=
  if otsardb_store_supports store OTSARDB_STORE_CAP_CONDITIONAL_CREATE then
    let! rc := otsardb_store_put_stream store key [data] (zlen data) (mkPutOptions true None) in
    match rc with
    | inr _ => return! OTSARDB_JOURNAL_OK
    | inl OTSARDB_STORE_PRECONDITION_FAILED => preupload_existing_matches key data
    | inl OTSARDB_STORE_TIMEOUT => preupload_timeout key data
    | inl OTSARDB_STORE_UNSUPPORTED => return! OTSARDB_JOURNAL_UNSUPPORTED
    | inl _ => return! OTSARDB_JOURNAL_ERROR
    end
  else
    let! existing := preupload_existing_matches key data in
    match existing with
    | OTSARDB_JOURNAL_NOT_FOUND =>
        let! rc := otsardb_store_put_stream store key [data] (zlen data) plain_put in
        match rc with
        | inr _ => return! OTSARDB_JOURNAL_OK
        | inl OTSARDB_STORE_TIMEOUT => preupload_timeout key data
        | inl OTSARDB_STORE_UNSUPPORTED => return! OTSARDB_JOURNAL_UNSUPPORTED
        | inl _ => return! OTSARDB_JOURNAL_ERROR
        end
    | r => return! r
    end.

Definition preupload_attempt_once (key data : bytes) : M S (option unit * otsardb_journal_result) :=
  let! rc := preupload_immutable_put_stream key data in
  return! (match rc with OTSARDB_JOURNAL_OK => Some tt | _ => None end, rc).

Definition preupload_job_run (root commit_id batch : bytes) : M S otsardb_journal_result :=
  match otsardb_segment_encode_with_frames OTSARDB_SEGMENT_WAL_FRAMES commit_id batch true with
  | None => return! OTSARDB_JOURNAL_ERROR
  | Some (data, sha, _) =>
      match object_key root (segment_suffix_of sha) with
      | None => return! OTSARDB_JOURNAL_INVALID
      | Some key =>
          let! (r, rc) := publish_retry_cycle env (preupload_attempt_once key data) in
          return! match r with Some _ => OTSARDB_JOURNAL_OK | None => rc end
      end
  end.

(** The jobs of one wave all run; the code of the first failure. *)
Fixpoint preupload_wave (root commit_id : bytes) (jobs : list otsardb_segment_input)
  : M S otsardb_journal_result :=
  match jobs with
  | [] => return! OTSARDB_JOURNAL_OK
  | job :: rest =>
      let! rc := preupload_job_run root commit_id (si_payload job) in
      let! rc' := preupload_wave root commit_id rest in
      return! match rc with OTSARDB_JOURNAL_OK => rc' | _ => rc end
  end.

Fixpoint preupload_waves (fuel : nat) (root commit_id : bytes) (parallel : nat)
    (jobs : list otsardb_segment_input) : M S otsardb_journal_result :=
  match jobs, fuel with
  | [], _ | _, O => return! OTSARDB_JOURNAL_OK
  | _, Datatypes.S fuel' =>
      let! rc := preupload_wave root commit_id (take parallel jobs) in
      match rc with
      | OTSARDB_JOURNAL_OK => preupload_waves fuel' root commit_id parallel (drop parallel jobs)
      | _ => return! rc
      end
  end.

(** A wave takes at least one job, so their number bounds the waves. *)
Definition wal_publisher_preupload_segments (p : pub) (commit_id : bytes)
    (inputs : list otsardb_segment_input) (parallel : Z) : M S otsardb_journal_result :=
  preupload_waves (length inputs) (wp_database_root p) commit_id (Z.to_nat parallel) inputs.

(** ** One commit *)

(** The parent fields borrow the publisher's buffers. *)
Definition commit_request (p : pub) (page_size database_size_pages : Z) (commit_id : bytes)
    (inputs : list otsardb_segment_input) (checksum : option bytes) : otsardb_commit_request :=
  let h := wp_head p in
  let genesis := hc_generation h =? 0 in
  mkRequest (wp_database_root p) (wp_database_id p) commit_id
    (if genesis then None else Some (hc_commit_id h))
    (if genesis then None else Some (hc_manifest_sha256 h))
    (hc_generation h) page_size database_size_pages None (Some inputs) (zlen inputs) checksum
    (match wp_strategy p with
     | OTSARDB_WRITE_STRATEGY_CAS => if genesis then None else Some (hc_etag h)
     | _ => None
     end) genesis (wp_strategy p) None.

(** What the request reads once the buffers have changed. *)
Definition request_through (p : pub) (r : otsardb_commit_request) : otsardb_commit_request :=
  let h := wp_head p in
  mkRequest (rq_database_root r) (rq_database_id r) (rq_commit_id r)
    (match rq_parent_commit_id r with None => None | Some _ => Some (hc_commit_id h) end)
    (match rq_parent_manifest_sha256 r with None => None | Some _ => Some (hc_manifest_sha256 h) end)
    (rq_parent_generation r) (rq_page_size r) (rq_database_size_pages r) (rq_segment_payload r)
    (rq_segments r) (rq_segment_count r) (rq_post_apply_checksum r)
    (match rq_expected_head_etag r with None => None | Some _ => Some (hc_etag h) end)
    (rq_create_head_if_missing r) (rq_write_strategy r) (rq_cipher r).

Definition publish_attempt_once (r : otsardb_commit_request)
  : M S (option publish_ack * otsardb_journal_result) :=
  let! published := otsardb_publish_commit store thread_cipher r in
  match published with
  | inr result => return! (Some (Published result), OTSARDB_JOURNAL_OK)
  | inl OTSARDB_JOURNAL_AMBIGUOUS =>
      let! (rc, state) := otsardb_resolve_commit store after_object (rq_database_root r) (rq_commit_id r)
                            (rq_parent_generation r) in
      return! (match rc, state with
               | OTSARDB_JOURNAL_OK, OTSARDB_COMMIT_STATE_COMMITTED => Some IdentityResolved
               | _, _ => None
               end, OTSARDB_JOURNAL_AMBIGUOUS)
  | inl rc => return! (None, rc)
  end.

Definition wal_publisher_run_replica_phase (p : pub) (r : otsardb_commit_request)
    (parent_commit_id parent_sha256 : bytes) : M S (option otsardb_journal_result * pub) :=
  let! opened := if wp_replica p then return! true
                 else rp_open replica (wp_database_root p) (wp_database_id p) in
  if negb opened then return! (Some OTSARDB_JOURNAL_ERROR, p)
  else
    let p := set_replica true p in
    let! rc := rp_replicate replica r parent_commit_id parent_sha256 (hc_manifest_sha256 (wp_head p))
                 (hc_etag (wp_head p)) in
    return! (rc, p).

Definition wal_publisher_rollback_after_replica_failure (p : pub) (commit_id : bytes) (parent : head_cache)
    (parent_published : Z) : pub :=
  move_image (hc_generation parent)
    (set_dual true (snprintf_s 64 commit_id)
      (set_published parent_published
        (set_head (mkHeadCache true (hc_generation parent) (hc_commit_id parent)
                     (hc_manifest_sha256 parent) (hc_etag parent)) p))).

(** The segments of the manifest are those this attempt encodes. *)
Fixpoint segments_match (commit_id : bytes) (refs : list otsardb_manifest_segment_ref)
    (inputs : list otsardb_segment_input) : bool :=
  match refs, inputs with
  | ref :: refs', input :: inputs' =>
      match otsardb_segment_encode_with_frames OTSARDB_SEGMENT_WAL_FRAMES commit_id (si_payload input) true with
      | None => false
      | Some (data, sha, _) =>
          bytes_eqb (sg_sha256 ref) sha && (sg_size ref =? zlen data) &&
          match sg_pages ref, si_pages input with
          | [], _ | _, None => true
          | pages, Some wanted => bool_decide (pages = wanted)
          end && segments_match commit_id refs' inputs'
      end
  | [], [] => true
  | _, _ => false
  end.

Definition wal_publisher_primary_matches_request (p : pub) (r : otsardb_commit_request)
    (page_size database_size_pages : Z) (checksum : option bytes) (parent_commit_id parent_sha256 : bytes)
  : M S bool :=
  match root_join (wp_database_root p) (str "commits/" ++ rq_commit_id r ++ str ".json") (OTSARDB_KEY_MAX + 1) with
  | None => return! false
  | Some key =>
      let! rc := otsardb_store_get store key in
      match rc with
      | inl _ => return! false
      | inr object =>
          match otsardb_commit_manifest_decode_json (so_data object) with
          | None => return! false
          | Some m =>
              return!
                (cm_generation m =? u64 (rq_parent_generation r + 1)) &&
                bytes_eqb (cm_commit_id m) (rq_commit_id r) &&
                (cm_page_size m =? page_size) && (cm_database_size_pages m =? database_size_pages) &&
                (if rq_parent_generation r =? 0
                 then (cm_parent_generation m =? 0) && (zlen (cm_parent_commit_id m) =? 0)
                 else (cm_parent_generation m =? rq_parent_generation r) &&
                      bytes_eqb (cm_parent_commit_id m) parent_commit_id &&
                      bytes_eqb (cm_parent_manifest_sha256 m) parent_sha256) &&
                bytes_eqb (cm_post_apply_checksum m) (default [] checksum) &&
                (cm_segment_count m =? rq_segment_count r) &&
                segments_match (rq_commit_id r) (cm_segments m) (default [] (rq_segments r))
          end
      end
  end.

Definition fail_commit (rc : Z) (c : publish_scan_context) : Z * publish_scan_context :=
  (1, mkScanContext (sc_publisher c) (sc_commit_index c) rc (sc_checksum c) (sc_checksum_valid c)).
Definition with_publisher (p : pub) (c : publish_scan_context) : publish_scan_context :=
  mkScanContext p (sc_commit_index c) (sc_sqlite_rc c) (sc_checksum c) (sc_checksum_valid c).

(** The replica phase after the primary, and its failure. *)
Definition replica_step (r : otsardb_commit_request) (parent : head_cache) (parent_published : Z) (p : pub)
  : M S (option otsardb_journal_result * pub) :=
  let! (rc, p) := wal_publisher_run_replica_phase p r (hc_commit_id parent) (hc_manifest_sha256 parent) in
  match rc with
  | None => return! (None, p)
  | Some rc =>
      let! _ := rp_mark_aborted replica (wp_database_root p) (rq_commit_id r) (u64 (rq_parent_generation r + 1))
                  (rq_parent_generation r) (hc_manifest_sha256 (wp_head p)) (hc_etag (wp_head p)) in
      return! (Some rc, wal_publisher_rollback_after_replica_failure p (rq_commit_id r) parent parent_published)
  end.

Definition replica_wanted (p : pub) : bool := wp_replica p || rp_configured replica.

(** The commit is on the primary: the new cached state, or the code of the
    refresh that failed. *)
Definition adopt_published (ack : publish_ack) (checksum : option bytes) (c : publish_scan_context)
  : M S (Z * pub) :=
  let p := sc_publisher c in
  match ack with
  | IdentityResolved =>
      let! (rc, p) := refresh_head p in
      return! (rc, if rc =? SQLITE_OK then set_published (sc_commit_index c) p else p)
  | Published result =>
      let head := cr_head result in
      let p := move_image (hd_generation head) p in
      let p := match checksum with
               | Some _ => set_sum (mkSum true (sc_checksum c) (rs_contribs (wp_sum p))) p
               | None => p
               end in
      return! (SQLITE_OK, set_published (sc_commit_index c) (set_head (cache_head head (cr_head_etag result)) p))
  end.

(** HEAD is this very commit, left by an attempt whose replica phase failed:
    [Some] ends the commit; [None] goes on to the classification. *)
Definition dual_retry (r : otsardb_commit_request) (page_size database_size_pages : Z)
    (checksum : option bytes) (parent : head_cache) (parent_published : Z) (c : publish_scan_context)
  : M S (option (Z * publish_scan_context) * publish_scan_context) :=
  let p := sc_publisher c in
  if negb (replica_wanted p) then return! (None, c)
  else
    let! (rc, res) := otsardb_journal_read_head store (wp_database_root p) in
    match rc, res with
    | OTSARDB_JOURNAL_OK, Some (head, etag) =>
        if negb (bytes_eqb (hd_commit_id head) (rq_commit_id r) &&
                 (hd_generation head =? u64 (rq_parent_generation r + 1)))
        then return! (None, c)
        else
          let p := set_head (cache_head head etag) p in
          let! same := wal_publisher_primary_matches_request p r page_size database_size_pages checksum
                         (hc_commit_id parent) (hc_manifest_sha256 parent) in
          if same then
            let! (rc, p) := replica_step r parent parent_published p in
            match rc with
            | Some rc => return! (Some (fail_commit (journal_result_to_sqlite rc) (with_publisher p c)), c)
            | None =>
                return! (Some (0, with_publisher (set_dual false [] (set_published (sc_commit_index c) p)) c), c)
            end
          else return! (None, with_publisher (set_dual false [] p) c)
    | _, _ => return! (None, c)
    end.

(** The conflict is classified by the pages of the chain. *)
Definition classify_conflict (r : otsardb_commit_request) (c : publish_scan_context)
  : M S (Z * publish_scan_context) :=
  let p := sc_publisher c in
  let! (rc, state, overlap) := otsardb_publish_commit_detect_conflict store after_object (wp_database_root p)
                                 (request_through p r) in
  match rc with
  | OTSARDB_JOURNAL_OK =>
      if overlap : bool
      then return! fail_commit SQLITE_BUSY_SNAPSHOT (with_publisher (set_conflict true p) c)
      else return! fail_commit SQLITE_BUSY c
  | rc => return! fail_commit (journal_result_to_sqlite rc) c
  end.

(** The store part of a commit: the attempts, and what follows each outcome. *)
Definition publish_request (r : otsardb_commit_request) (page_size database_size_pages : Z)
    (checksum : option bytes) (c : publish_scan_context) : M S (Z * publish_scan_context) :=
  let parent := wp_head (sc_publisher c) in
  let parent_published := wl_published_commit_count (wp_wal (sc_publisher c)) in
  let! (acked, rc) := publish_retry_cycle env (publish_attempt_once r) in
  match acked with
  | Some ack =>
      let! (rc, p) := adopt_published ack checksum c in
      if negb (rc =? SQLITE_OK) then return! fail_commit rc (with_publisher p c)
      else
        let! (rc, p) := if replica_wanted p then replica_step r parent parent_published p
                        else return! (None, p) in
        match rc with
        | Some rc => return! fail_commit (journal_result_to_sqlite rc) (with_publisher p c)
        | None =>
            let p := if wp_dual_pending p && bytes_eqb (wp_dual_commit_id p) (rq_commit_id r)
                     then set_dual false [] p else p in
            return! (0, with_publisher p c)
        end
  | None =>
      match rc with
      | OTSARDB_JOURNAL_AMBIGUOUS =>
          let! (rc, state) := otsardb_resolve_commit store after_object (wp_database_root (sc_publisher c))
                                (rq_commit_id r) (rq_parent_generation r) in
          match rc, state with
          | OTSARDB_JOURNAL_OK, OTSARDB_COMMIT_STATE_COMMITTED =>
              let! (rc, p) := refresh_head (sc_publisher c) in
              if negb (rc =? SQLITE_OK) then return! fail_commit rc (with_publisher p c)
              else return! (0, with_publisher (set_published (sc_commit_index c) p) c)
          | _, _ => return! fail_commit SQLITE_IOERR_WRITE c
          end
      | OTSARDB_JOURNAL_CONFLICT =>
          let! (ended, c) := dual_retry r page_size database_size_pages checksum parent parent_published c in
          match ended with
          | Some result => return! result
          | None => classify_conflict r c
          end
      | rc => return! fail_commit (journal_result_to_sqlite rc) c
      end
  end.

(** The callback of the scan: 0 lets the cursor move over the transaction. *)
Definition publish_one_commit (read_at : otsardb_sqlite_wal_read_at)
    (db_read_at : option otsardb_sqlite_wal_read_at) (page_size database_size_pages : Z)
    (frames : list otsardb_sqlite_wal_frame_ref) (c : publish_scan_context) : M S (Z * publish_scan_context) :=
  let c := mkScanContext (sc_publisher c) (u32 (sc_commit_index c + 1)) (sc_sqlite_rc c) (sc_checksum c)
             (sc_checksum_valid c) in
  let! (rc, p) := ensure_metadata (sc_publisher c) page_size in
  let c := with_publisher p c in
  if negb (rc =? SQLITE_OK) then return! fail_commit rc c
  else match commit_inputs read_at (wp_segment_payload_limit p) page_size database_size_pages frames with
  | inl rc => return! fail_commit rc c
  | inr inputs =>
      let commit_id := wal_commit_id (wl_salt1 (wp_wal p)) (wl_salt2 (wp_wal p)) (sc_commit_index c) in
      let! live := match lease_fence with None => return! true | Some fence => fence end in
      if negb live then return! fail_commit SQLITE_BUSY c
      else
        let parallel := parallel_segments_limit (env_parallel_segments env) in
        let! pre := if (2 <=? zlen inputs) && otsardb_store_supports store OTSARDB_STORE_CAP_MULTIPART &&
                       bool_decide (is_Some (ops_put_stream store)) && (0 <? parallel)
                    then wal_publisher_preupload_segments p commit_id inputs parallel
                    else return! OTSARDB_JOURNAL_OK in
        match pre with
        | OTSARDB_JOURNAL_OK =>
            let '(checksum, c) := roll_commit read_at db_read_at page_size frames c in
            publish_request (commit_request p page_size database_size_pages commit_id inputs checksum)
              page_size database_size_pages checksum c
        | rc => return! fail_commit (journal_result_to_sqlite rc) c
        end
  end.

(** ** A sync *)

Definition local_image_proof_current (p : pub) : bool :=
  ia_generation_known (wp_image p) && (ia_generation (wp_image p) <=? hc_generation (wp_head p)).

Definition reset_wal_generation (p : pub) (header : otsardb_sqlite_wal_header) : pub :=
  set_verified false
    (set_dual false []
      (page_map_clear
        (set_wal (mkWal true (wh_salt1 header) (wh_salt2 header) 0 true
                    (otsardb_sqlite_wal_cursor_reset header)) p))).

(** The cursor moves over the commits HEAD already holds. *)
Definition rebuild_cursor_from_head (p : pub) (read_at : otsardb_sqlite_wal_read_at) (wal_size : Z)
    (target_commit_count : Z) : Z * pub :=
  if target_commit_count =? 0 then (SQLITE_OK, p)
  else
    let '(ok, cursor, _, result) :=
      otsardb_sqlite_wal_scan_reader read_at wal_size target_commit_count None (wl_cursor (wp_wal p)) tt in
    let p := set_cursor cursor p in
    if negb ok then (SQLITE_IOERR_READ, p)
    else if negb (sr_commit_count result =? target_commit_count) then (SQLITE_CORRUPT, p)
    else (SQLITE_OK, set_published target_commit_count p).

Definition otsardb_wal_publisher_init (database_root database_id : bytes) (strategy : otsardb_write_strategy)
  : option pub :=
  if (zlen database_root =? 0) || (zlen database_id =? 0) || (OTSARDB_KEY_MAX <? zlen database_root) ||
     (OTSARDB_COMMIT_ID_MAX <? zlen database_id) then None
  else
    let effective := choose_strategy strategy in
    match effective with
    | OTSARDB_WRITE_STRATEGY_DEFAULT => None
    | _ =>
        if bool_decide (effective = OTSARDB_WRITE_STRATEGY_CAS) &&
           negb (otsardb_store_supports store OTSARDB_STORE_CAP_CONDITIONAL_CREATE &&
                 otsardb_store_supports store OTSARDB_STORE_CAP_CONDITIONAL_UPDATE)
        then None
        else Some (mkPublisher effective database_root database_id
                     OTSARDB_WAL_PUBLISHER_DEFAULT_SEGMENT_PAYLOAD_LIMIT false no_head no_anchor no_sum
                     no_wal false false false [])
    end.

Definition otsardb_wal_publisher_set_segment_payload_limit (limit_bytes : Z) (p : pub) : pub :=
  set_limit (if limit_bytes =? 0 then OTSARDB_WAL_PUBLISHER_DEFAULT_SEGMENT_PAYLOAD_LIMIT else limit_bytes) p.

Definition otsardb_wal_publisher_set_local_image_generation (generation : Z) (p : pub) : pub :=
  let i := wp_image p in
  set_image (mkAnchor true generation (ia_verified i) (ia_verify_page_size i) (ia_verify_page_count i)) p.

(** Promotion: the replica is opened if needed, then takes over. *)
Definition otsardb_wal_publisher_promote (local_db_path : bytes) (p : pub)
  : M S (option otsardb_journal_result * pub) :=
  if zlen local_db_path =? 0 then return! (Some OTSARDB_JOURNAL_INVALID, p)
  else
    let! opened := if wp_replica p then return! true
                   else rp_open replica (wp_database_root p) (wp_database_id p) in
    if negb opened then return! (Some OTSARDB_JOURNAL_ERROR, p)
    else
      let! rc := rp_promote replica local_db_path in
      return! (rc, set_replica true p).

Definition otsardb_wal_publisher_destroy (p : pub) : pub := page_map_clear (set_replica false p).

(** The callback runs on the context and the store. *)
Definition sync_callback (read_at : otsardb_sqlite_wal_read_at) (db_read_at : option otsardb_sqlite_wal_read_at)
  : otsardb_sqlite_wal_commit_callback (publish_scan_context * S) := fun page_size db frames cs =>
  let '((rc, c), s) := publish_one_commit read_at db_read_at page_size db frames (fst cs) (snd cs) in
  (rc, (c, s)).

Definition scan_context (p : pub) : publish_scan_context :=
  mkScanContext p (wl_published_commit_count (wp_wal p)) SQLITE_OK
    (if rs_known (wp_sum p) then rs_checksum (wp_sum p) else 0) (rs_known (wp_sum p)).

(** The part of a sync that publishes, once the position is right. *)
Definition sync_publish (wal_size : Z) (read_at : otsardb_sqlite_wal_read_at)
    (db_read_at : option otsardb_sqlite_wal_read_at) (p : pub) : M S (Z * pub) := fun s =>
  let p := if rs_known (wp_sum p) && negb (ia_verified (wp_image p)) && local_image_proof_current p
           then set_verified true p else p in
  let '(ok, cursor, (c, s), _) :=
    otsardb_sqlite_wal_scan_reader read_at wal_size 0 (Some (sync_callback read_at db_read_at))
      (wl_cursor (wp_wal p)) (scan_context p, s) in
  let p := set_cursor cursor (sc_publisher c) in
  ((if ok : bool then sc_sqlite_rc c
    else if sc_sqlite_rc c =? SQLITE_OK then SQLITE_IOERR_READ else sc_sqlite_rc c, p), s).

Definition otsardb_wal_publisher_sync_reader (wal_size : Z) (read_at : otsardb_sqlite_wal_read_at)
    (db_read_at : option otsardb_sqlite_wal_read_at) (p : pub) : M S (Z * pub) :=
  let p := set_conflict false p in
  if wal_size =? 0 then return! (SQLITE_OK, set_wal no_wal p)
  else match otsardb_sqlite_wal_read_header read_at wal_size with
  | None => return! (SQLITE_IOERR_READ, p)
  | Some header =>
      let w := wp_wal p in
      let new_generation := negb (wl_generation_known w) || negb (wl_salt1 w =? wh_salt1 header) ||
                            negb (wl_salt2 w =? wh_salt2 header) || negb (wl_cursor_ready w) in
      let! (rc, p) := refresh_head p in
      if negb (rc =? SQLITE_OK) then return! (rc, p)
      else if ia_generation_known (wp_image p) && (ia_generation (wp_image p) <? hc_generation (wp_head p))
      then return! (SQLITE_BUSY, p)
      else
        let cursor_end := u64 (32 + wc_frame_count (wl_cursor (wp_wal p)) * (24 + wh_page_size header)) in
        let new_generation := new_generation || (wal_size <? cursor_end) in
        if new_generation then
          let p := reset_wal_generation p header in
          let '(rc, p) := rebuild_cursor_from_head p read_at wal_size (current_wal_head_commit_index p) in
          if negb (rc =? SQLITE_OK) then return! (rc, p)
          else sync_publish wal_size read_at db_read_at p
        else sync_publish wal_size read_at db_read_at p
  end.

Definition otsardb_wal_publisher_sync (wal : bytes) (p : pub) : M S (Z * pub) :=
  otsardb_wal_publisher_sync_reader (zlen wal) (memory_read_at wal) None p.

Definition otsardb_wal_publisher_refresh_head (p : pub) : M S (Z * pub) := refresh_head p.
End Publisher.

Definition otsardb_wal_publisher_rc_retryable (rc : otsardb_journal_result) : bool := publish_rc_retryable rc.
Definition otsardb_wal_publisher_retry_cycle {S A} (e : environment)
    (attempt : M S (option A * otsardb_journal_result)) : M S (option A * otsardb_journal_result) :=
  publish_retry_cycle e attempt.
