(* ===== verification/WalPublisherTheory.v ===== *)
(** * The WAL publisher: theorems

    Commit identities, the retry cycle and the rolling checksum, which is
    compared with the checksum of the image the commits denote. *)

From stdpp Require Import sorting.
From S2P Require Import Prelude CText ObjectStore Journal Codec WalBatch Sha256 Segment.
From S2P Require Import Checksum SqliteWal DbMetadata CommitManifest CommitPublish CommitResolve WalPublisher.

(** ** Commit identities *)

Lemma hex_digit_char d : 0 <= d < 16 ->
  hex_value (nth (Z.to_nat d) hex_digits 0) = Some d /\ 48 <= nth (Z.to_nat d) hex_digits 0 <= 102.
Proof.
  intros Hd. split; [by apply hex_value_digit|].
  assert (d = 0 \/ d = 1 \/ d = 2 \/ d = 3 \/ d = 4 \/ d = 5 \/ d = 6 \/ d = 7 \/
    d = 8 \/ d = 9 \/ d = 10 \/ d = 11 \/ d = 12 \/ d = 13 \/ d = 14 \/ d = 15) as Hc by lia.
  repeat (destruct Hc as [-> |Hc]; [vm_compute; split; discriminate|]). subst. vm_compute. split; discriminate.
Qed.

Lemma land_15 v : Z.land v 15 = v mod 16.
Proof. change 15 with (Z.ones 4). by rewrite Z.land_ones by lia. Qed.

(** The digits of the printed number, most significant first. *)
Fixpoint nibbles (n : nat) (v : Z) (acc : list Z) : list Z :=
  match n with
  | O => acc
  | Datatypes.S n' => nibbles n' (v / 16) (v mod 16 :: acc)
  end.

Lemma hex_loop_nibbles n : forall v out digits,
  out = (fun d => nth (Z.to_nat d) hex_digits 0) <$> digits ->
  checksum_hex_loop n v out = (fun d => nth (Z.to_nat d) hex_digits 0) <$> nibbles n v digits.
Proof.
  induction n as [|n IH]; intros v out digits ->; [done|]. cbn [checksum_hex_loop nibbles].
  rewrite (Z.shiftr_div_pow2 v 4) by lia. change (2 ^ 4) with 16. apply IH. by rewrite land_15.
Qed.

Lemma nibbles_range n : forall v acc, Forall (fun d => 0 <= d < 16) acc ->
  Forall (fun d => 0 <= d < 16) (nibbles n v acc).
Proof.
  induction n as [|n IH]; intros v acc H; [done|]. cbn. apply IH. constructor; [|done].
  apply Z.mod_pos_bound. lia.
Qed.

Lemma length_nibbles n : forall v acc, length (nibbles n v acc) = (n + length acc)%nat.
Proof. induction n as [|n IH]; intros v acc; [done|]. cbn. rewrite IH. cbn. lia. Qed.

Lemma hex_number_app a b :
  hex_number (a ++ b) = foldl (fun acc d => acc * 16 + d) (hex_number a) b.
Proof. unfold hex_number. by rewrite foldl_app. Qed.

Lemma foldl_hex_shift ds : forall acc,
  foldl (fun acc d => acc * 16 + d) acc ds = acc * 16 ^ Z.of_nat (length ds) + hex_number ds.
Proof.
  induction ds as [|d ds IH]; intros acc; unfold hex_number; cbn [foldl length]; [lia|].
  rewrite IH, (IH (0 * 16 + d)), Nat2Z.inj_succ, Z.pow_succ_r by lia. unfold hex_number. lia.
Qed.

Lemma nibbles_value n : forall v acc, 0 <= v < 16 ^ Z.of_nat n ->
  hex_number (nibbles n v acc) = v * 16 ^ Z.of_nat (length acc) + hex_number acc.
Proof.
  induction n as [|n IH]; intros v acc Hv.
  { change (16 ^ Z.of_nat 0) with 1 in Hv. cbn [nibbles]. assert (v = 0) as -> by lia. lia. }
  rewrite Nat2Z.inj_succ, Z.pow_succ_r in Hv by lia. cbn [nibbles].
  rewrite IH by (split; [apply Z.div_pos; lia|apply Z.div_lt_upper_bound; lia]).
  cbn [length]. rewrite Nat2Z.inj_succ, Z.pow_succ_r by lia. unfold hex_number at 1. cbn [foldl].
  rewrite foldl_hex_shift. pose proof (Z.div_mod v 16 ltac:(lia)). nia.
Qed.

Lemma span_hex_digits ds : forall rest, Forall (fun d => 0 <= d < 16) ds ->
  span_hex (length ds) (((fun d => nth (Z.to_nat d) hex_digits 0) <$> ds) ++ rest) = (ds, rest).
Proof.
  induction ds as [|d ds IH]; intros rest H; [done|]. inversion H; subst.
  cbn [length fmap list_fmap app span_hex]. destruct (hex_digit_char d) as [-> _]; [done|].
  by rewrite IH.
Qed.

Lemma scan_hex8_print v rest : is_u32 v -> scan_hex8 (hex8 v ++ rest) = Some (v, rest).
Proof.
  intros Hv. unfold hex8. rewrite (hex_loop_nibbles 8 v [] []) by done.
  pose proof (nibbles_range 8 v [] ltac:(constructor)) as Hr.
  pose proof (nibbles_value 8 v [] ltac:(unfold is_u32, UINT32_MAX in Hv; cbn; lia)) as Hval.
  pose proof (span_hex_digits (nibbles 8 v []) rest Hr) as Hspan.
  pose proof (length_nibbles 8 v []) as Hlen. cbn [length] in Hlen. rewrite Hlen in Hspan. cbn [Nat.add] in Hspan.
  assert (hex_number (nibbles 8 v []) = v) as Hn by (rewrite Hval; cbn; unfold hex_number; cbn; lia).
  remember (nibbles 8 v []) as ds eqn:E. clear E Hval.
  destruct ds as [|d0 [|d1 ds]]; [done|done|].
  rewrite list.Forall_cons in Hr. destruct Hr as [H0 Hr].
  rewrite list.Forall_cons in Hr. destruct Hr as [H1 _].
  destruct (hex_digit_char d0 H0) as [_ C0]. destruct (hex_digit_char d1 H1) as [V1 _].
  cbn [fmap list_fmap app] in Hspan |- *.
  set (c0 := nth (Z.to_nat d0) hex_digits 0) in *. set (c1 := nth (Z.to_nat d1) hex_digits 0) in *.
  assert ((c1 =? 120) || (c1 =? 88) = false) as Hx.
  { destruct (Z.eqb_spec c1 120) as [E|]; [rewrite E in V1; vm_compute in V1; discriminate|].
    destruct (Z.eqb_spec c1 88) as [E|]; [rewrite E in V1; vm_compute in V1; discriminate|done]. }
  unfold scan_hex8. cbn [skip_while]. unfold is_space.
  destruct (Z.eqb_spec c0 32); [lia|]. destruct (Z.leb_spec c0 13); [lia|]. rewrite andb_false_r. cbn [orb].
  unfold scan_sign. destruct (Z.eqb_spec c0 45); [lia|]. destruct (Z.eqb_spec c0 43); [lia|].
  unfold scan_prefix. rewrite Hx, andb_false_r, Hspan, Hn. unfold u32.
  by rewrite Z.mod_small by (unfold is_u32, UINT32_MAX in Hv; lia).
Qed.

(** ** The rolling checksum

    An image is a finite map from page numbers to pages. *)

Abbreviation image := (gmap Z bytes).

Definition image_sum (img : image) : Z := map_fold (fun n page acc => Z.lxor acc (page_term n page)) 0 img.
Definition contrib (img : image) (n : Z) : Z := match img !! n with Some page => page_term n page | None => 0 end.

(** The frames of a transaction, in order. *)
Fixpoint write_pages (frames : list (Z * bytes)) (img : image) : image :=
  match frames with
  | [] => img
  | (n, page) :: rest => write_pages rest (<[n := page]> img)
  end.

Lemma lxor_swap a b c : Z.lxor (Z.lxor a b) c = Z.lxor (Z.lxor a c) b.
Proof. by rewrite !Z.lxor_assoc, (Z.lxor_comm b). Qed.

Lemma lxor_cancel a b : Z.lxor (Z.lxor a b) b = a.
Proof. by rewrite Z.lxor_assoc, Z.lxor_nilpotent, Z.lxor_0_r. Qed.

Lemma image_sum_fresh img n page : img !! n = None ->
  image_sum (<[n := page]> img) = Z.lxor (image_sum img) (page_term n page).
Proof.
  intros H. unfold image_sum. rewrite map_fold_insert_L; [done| |done].
  intros j1 j2 z1 z2 y _ _ _. apply lxor_swap.
Qed.

(** Writing a page takes its old contribution out and its new one in. *)
Lemma image_sum_insert img n page :
  image_sum (<[n := page]> img) = Z.lxor (Z.lxor (image_sum img) (contrib img n)) (page_term n page).
Proof.
  unfold contrib. destruct (img !! n) as [old|] eqn:E; [|by rewrite image_sum_fresh, Z.lxor_0_r].
  rewrite <- insert_delete_eq, image_sum_fresh by apply lookup_delete_eq.
  rewrite <- (insert_delete_id img n old E) at 2. rewrite image_sum_fresh by apply lookup_delete_eq.
  by rewrite lxor_cancel.
Qed.

Lemma contrib_insert img n page m :
  contrib (<[n := page]> img) m = if decide (n = m) then page_term n page else contrib img m.
Proof.
  unfold contrib. destruct (decide (n = m)) as [->|]; [by rewrite lookup_insert_eq|by rewrite lookup_insert_ne].
Qed.

Lemma page_map_get_set contribs n c m :
  page_map_get (page_map_set contribs n c) m = if decide (n = m) then Some c else page_map_get contribs m.
Proof.
  induction contribs as [|[k d] contribs IH]; cbn [page_map_set page_map_get].
  { destruct (Z.eqb_spec n m), (decide (n = m)); done. }
  destruct (Z.eqb_spec k n) as [->|]; cbn [page_map_get].
  - destruct (Z.eqb_spec n m), (decide (n = m)); done.
  - rewrite IH. destruct (Z.eqb_spec k m) as [->|]; [|done]. by destruct (decide (n = m)).
Qed.

Section Roll.
Context (read_at : otsardb_sqlite_wal_read_at) (db_read_at : option otsardb_sqlite_wal_read_at)
        (p : otsardb_wal_publisher) (page_size : Z).

(** The page map holds contributions of the image; a page it does not hold is
    outside the parent, or its old value in the local file is the image's. *)
Definition map_tracks (contribs : list (Z * Z)) (img : image) : Prop :=
  (forall n c, page_map_get contribs n = Some c -> c = contrib img n) /\
  (forall n, 0 < n -> page_map_get contribs n = None ->
     if (0 <? hc_generation (wp_head p)) && (n <=? ia_verify_page_count (wp_image p))
     then forall d, ia_verified (wp_image p) = true -> old_page_contrib db_read_at n page_size = Some d ->
          d = contrib img n
     else contrib img n = 0).

Definition roll_tracks (st : roll) (img : image) : Prop :=
  (rl_blocked st = false -> rl_checksum st = image_sum img) /\ map_tracks (rl_contribs st) img.

Lemma roll_frame_tracks n page st img : 0 < n -> roll_tracks st img ->
  roll_tracks (roll_frame db_read_at p page_size n page st) (<[n := page]> img) /\
  rl_ok (roll_frame db_read_at p page_size n page st) = true /\
  (rl_blocked (roll_frame db_read_at p page_size n page st) = false -> rl_blocked st = false).
Proof.
  intros Hn (Hsum & Hmap & Hout). unfold roll_frame. fold (page_term n page).
  set (res := match page_map_get _ n with Some _ => _ | None => _ end).
  assert ((fst res = false -> rl_blocked st = false /\ snd res = Z.lxor (rl_checksum st) (contrib img n))) as Hres.
  { subst res. destruct (page_map_get (rl_contribs st) n) as [old|] eqn:E.
    { intros Hb. split; [done|]. cbn. by rewrite (Hmap _ _ E). }
    specialize (Hout n Hn E). destruct (_ && _).
    - destruct (ia_verified (wp_image p)); [|done].
      destruct (old_page_contrib db_read_at n page_size) as [d|]; [|done].
      intros Hb. split; [done|]. cbn. by rewrite (Hout d eq_refl eq_refl).
    - intros Hb. split; [done|]. cbn. by rewrite Hout, Z.lxor_0_r. }
  destruct res as [blocked checksum]. cbn [fst snd] in Hres.
  split; [|split; [done|]; intros Hb; by apply Hres in Hb as [? _]].
  split; [|split].
  - cbn. intros Hb. destruct (Hres Hb) as [Hst ->]. by rewrite image_sum_insert, (Hsum Hst).
  - cbn. intros m c. rewrite page_map_get_set, contrib_insert. destruct (decide (n = m)); [congruence|auto].
  - cbn. intros m Hpos. rewrite page_map_get_set, contrib_insert. destruct (decide (n = m)); [done|]. intros Hm.
    specialize (Hout m Hpos Hm). by destruct (_ && _).
Qed.

Definition frame_reads (frames : list otsardb_sqlite_wal_frame_ref) : option (list bytes) :=
  mapM (fun ref => read_at (u64 (fr_frame_offset ref + OTSARDB_SQLITE_WAL_FRAME_HEADER_SIZE)) page_size) frames.

Lemma roll_frames_tracks frames : Forall (fun ref => 0 < fr_page_no ref) frames ->
  forall st img, roll_tracks st img -> rl_ok st = true ->
  let r := roll_frames read_at db_read_at p page_size frames st in
  rl_ok r = true -> rl_blocked r = false ->
  rl_blocked st = false /\ exists pages, frame_reads frames = Some pages /\
    roll_tracks r (write_pages (zip (fr_page_no <$> frames) pages) img).
Proof.
  induction 1 as [|ref frames Hn Hf IH]; intros st img Ht Hok; cbn [roll_frames]; cbv zeta.
  { intros _ Hb. split; [done|]. by exists []. }
  destruct (read_at _ page_size) as [page|] eqn:Er; [|done]. intros Hr Hb.
  destruct (roll_frame_tracks (fr_page_no ref) page st img Hn Ht) as (Ht' & Hok' & Hmono).
  destruct (IH _ _ Ht' Hok' Hr Hb) as (Hb' & pages & Hreads & Htr). split; [by apply Hmono|].
  exists (page :: pages). split; [|done]. unfold frame_reads in *. cbn. by rewrite Er, Hreads.
Qed.
End Roll.

(** ** The image as a file *)

(** Page [n] of a list of pages, from 1 on. *)
Definition image_of (pages : list bytes) : image := map_seqZ 1 pages.

Lemma image_sum_pages pages : forall i, Z.of_nat (i + length pages) <= UINT32_MAX ->
  image_sum (map_seqZ (Z.of_nat i + 1) pages) = pages_xor i pages.
Proof.
  unfold UINT32_MAX. induction pages as [|page pages IH]; intros i Hi; [done|]. cbn [length] in Hi.
  rewrite map_seqZ_cons. cbn [pages_xor]. rewrite image_sum_fresh.
  - replace (Z.succ (Z.of_nat i + 1)) with (Z.of_nat (Datatypes.S i) + 1) by lia.
    rewrite IH by lia. rewrite Z.lxor_comm. f_equal. f_equal. unfold u32. rewrite Z.mod_small; lia.
  - apply lookup_map_seqZ_None. lia.
Qed.

Lemma checksum_file_image pages ps : 0 <= ps -> Forall (fun page => zlen page = ps) pages ->
  zlen pages <= UINT32_MAX ->
  otsardb_checksum_file (concat pages) ps (zlen pages) = image_sum (image_of pages).
Proof.
  intros Hps Hall Hn. unfold otsardb_checksum_file, image_of. rewrite checksum_file_loop_eq by lia.
  rewrite drop_0, Z2Nat.id by done.
  assert (zero_extend (concat pages) (Z.to_nat (zlen pages) * Z.to_nat ps) = concat pages) as ->.
  { unfold zero_extend. assert (length (concat pages) = (length pages * Z.to_nat ps)%nat) as ->.
    { clear Hn. induction Hall as [|page pages Hp _ IH]; [done|]. cbn [concat]. rewrite length_app, IH.
      cbn [length]. unfold zlen in Hp. lia. }
    unfold zlen. rewrite Nat2Z.id, Nat.sub_diag. apply app_nil_r. }
  unfold zlen at 1. rewrite Nat2Z.id, checksum_pages_xor, Z.lxor_0_l by done.
  change 1 with (Z.of_nat 0 + 1). rewrite image_sum_pages; [done|]. unfold zlen in Hn. lia.
Qed.

(** ** The checksum of a commit *)

Lemma roll_commit_tracks read_at db_read_at ps frames c hex c' img :
  roll_commit read_at db_read_at ps frames c = (Some hex, c') -> Forall (fun ref => 0 < fr_page_no ref) frames ->
  roll_start c = image_sum img ->
  map_tracks db_read_at (sc_publisher c) ps (rs_contribs (wp_sum (sc_publisher c))) img ->
  exists pages, frame_reads read_at ps frames = Some pages /\
    let img' := write_pages (zip (fr_page_no <$> frames) pages) img in
    hex = otsardb_checksum_hex (image_sum img') /\ sc_checksum c' = image_sum img' /\
    map_tracks db_read_at (sc_publisher c) ps (rs_contribs (wp_sum (sc_publisher c'))) img'.
Proof.
  intros H Hf Hstart Hmap. unfold roll_commit in H. destruct (negb _); [done|].
  set (r := roll_frames _ _ _ _ _ _) in H.
  destruct (rl_blocked r) eqn:Eb; [done|]. destruct (rl_ok r) eqn:Eo; [|done].
  apply pair_equal_spec in H as [H1 <-]. apply (inj Some) in H1. subst hex.
  destruct (roll_frames_tracks read_at db_read_at (sc_publisher c) ps frames Hf
    (mkRoll true false (roll_start c) (rs_contribs (wp_sum (sc_publisher c)))) img)
    as (_ & pages & Hreads & Hsum & Hm); [by split|done|exact Eo|exact Eb|].
  exists pages. split; [done|]. cbv zeta. fold r in Hsum, Hm. by rewrite Hsum.
Qed.

(** The pages of a database of [db] pages after frames were written over [old];
    a page that was neither there nor written is empty. *)
Definition new_pages (old : list bytes) (frames : list (Z * bytes)) (db : Z) : list bytes :=
  (fun n => default [] (write_pages frames (image_of old) !! n)) <$> seqZ 1 db.

Lemma write_pages_lookup frames : forall img n page, write_pages frames img !! n = Some page ->
  (n, page) ∈ frames \/ img !! n = Some page.
Proof.
  induction frames as [|[m q] frames IH]; intros img n page H; [by right|]. cbn [write_pages] in H.
  apply IH in H as [H|H]; [left; by right|]. destruct (decide (m = n)) as [->|Hne].
  - rewrite lookup_insert_eq in H. apply (inj Some) in H as ->. left. by left.
  - rewrite lookup_insert_ne in H by done. by right.
Qed.

Lemma write_pages_some frames : forall img n, n ∈ frames.*1 \/ is_Some (img !! n) ->
  is_Some (write_pages frames img !! n).
Proof.
  induction frames as [|[m q] frames IH]; intros img n H; cbn [write_pages]; [destruct H as [H|]; [set_solver|done]|].
  apply IH. destruct (decide (m = n)) as [->|Hne]; [right; by rewrite lookup_insert_eq|].
  rewrite lookup_insert_ne by done. cbn [fmap list_fmap fst] in H. rewrite elem_of_cons in H. naive_solver.
Qed.

Lemma image_of_lookup pages n : 1 <= n -> image_of pages !! n = pages !! Z.to_nat (n - 1).
Proof. intros H. unfold image_of. rewrite lookup_map_seqZ. by rewrite option_guard_True. Qed.

Lemma image_of_bounds pages n page : image_of pages !! n = Some page -> 1 <= n <= zlen pages /\ page ∈ pages.
Proof.
  intros H. apply lookup_map_seqZ_Some in H as [Hn H]. split; [|by eapply list_elem_of_lookup_2].
  apply lookup_lt_Some in H. unfold zlen. lia.
Qed.

(** A commit that does not shrink the database and writes every page it adds. *)
Definition grows (old : list bytes) (numbers : list Z) (db : Z) : Prop :=
  zlen old <= db /\ Forall (fun n => 0 < n <= db) numbers /\ forall n, zlen old < n <= db -> n ∈ numbers.

Section NewPages.
Context (old : list bytes) (frames : list (Z * bytes)) (db : Z) (Hgrow : grows old frames.*1 db).

Lemma grown_lookup n page : write_pages frames (image_of old) !! n = Some page -> 1 <= n <= db.
Proof.
  destruct Hgrow as (Hdb & Hf & _). intros [H|H]%write_pages_lookup.
  - rewrite list.Forall_forall in Hf. specialize (Hf n). assert (n ∈ frames.*1) as Hin; [|specialize (Hf Hin); cbn in Hf; lia].
    apply list_elem_of_fmap. by exists (n, page).
  - apply image_of_bounds in H as [H _]. lia.
Qed.

Lemma grown_complete n : 1 <= n <= db -> is_Some (write_pages frames (image_of old) !! n).
Proof.
  destruct Hgrow as (Hdb & _ & Hnew). intros Hn. apply write_pages_some.
  destruct (Z.le_gt_cases n (zlen old)) as [Hle|]; [right|left; apply Hnew; lia].
  rewrite image_of_lookup by lia. apply lookup_lt_is_Some. unfold zlen in Hle. lia.
Qed.

Lemma zlen_new_pages : 0 <= db -> zlen (new_pages old frames db) = db.
Proof. intros H. unfold new_pages, zlen. rewrite length_fmap, length_seqZ. lia. Qed.

Lemma new_pages_image : 0 <= db -> image_of (new_pages old frames db) = write_pages frames (image_of old).
Proof.
  intros Hdb. apply map_eq. intros n. destruct (write_pages frames (image_of old) !! n) as [page|] eqn:E.
  - pose proof (grown_lookup n page E) as Hn. rewrite image_of_lookup by lia.
    unfold new_pages. rewrite list_lookup_fmap, lookup_seqZ_lt by lia. cbn.
    replace (1 + Z.of_nat (Z.to_nat (n - 1))) with n by lia. by rewrite E.
  - apply lookup_map_seqZ_None. destruct (Z.le_gt_cases n 0) as [|Hn]; [left; lia|right].
    pose proof (zlen_new_pages Hdb). unfold zlen in *. destruct (Z.le_gt_cases n db) as [Hle|]; [|lia].
    destruct (grown_complete n) as [page Hp]; [lia|congruence].
Qed.

Lemma new_pages_all (P : bytes -> Prop) : Forall P old -> Forall P frames.*2 -> Forall P (new_pages old frames db).
Proof.
  intros Ho Hf. apply list.Forall_forall. intros page Hin. apply list_elem_of_fmap in Hin as (n & -> & Hn).
  apply elem_of_seqZ in Hn. destruct (grown_complete n) as [page E]; [lia|]. rewrite E. cbn.
  rewrite list.Forall_forall in Ho, Hf. apply write_pages_lookup in E as [E|E].
  - apply Hf, list_elem_of_fmap. by exists (n, page).
  - apply image_of_bounds in E as [_ E]. by apply Ho.
Qed.
End NewPages.

Lemma concat_page ps (pages : list bytes) : Forall (fun page => zlen page = ps) pages -> forall k page,
  pages !! k = Some page -> take (Z.to_nat ps) (drop (k * Z.to_nat ps) (concat pages)) = page.
Proof.
  induction 1 as [|q pages Hq Hall IH]; intros k page Hk; [done|]. unfold zlen in Hq. cbn [concat].
  destruct k as [|k]; cbn [Nat.mul] in *.
  - apply (inj Some) in Hk as ->. rewrite drop_0, take_app_length'; [done|lia].
  - rewrite <- drop_drop, drop_app_length' by lia. by apply IH.
Qed.

(** The page map of a publisher that has just verified its local file holds no
    contribution; the file gives the old pages. *)
Lemma verified_tracks p ps old : 0 < ps -> Forall (fun page => zlen page = ps) old ->
  0 < hc_generation (wp_head p) -> ia_verify_page_count (wp_image p) = zlen old -> zlen old * ps < 2 ^ 63 ->
  map_tracks (Some (memory_read_at (concat old))) p ps [] (image_of old).
Proof.
  intros Hps Hall Hgen Hcount Hsz. split; [done|]. intros n Hn _.
  destruct (Z.ltb_spec 0 (hc_generation (wp_head p))); [|lia]. rewrite Hcount. cbn [andb].
  destruct (Z.leb_spec n (zlen old)) as [Hle|Hgt].
  - intros d _ Hd. unfold old_page_contrib in Hd.
    destruct (lookup_lt_is_Some_2 old (Z.to_nat (n - 1))) as [page Hp]; [unfold zlen in Hle; lia|].
    assert (u64 (u64 (n - 1) * ps) = (n - 1) * ps) as Eo.
    { unfold u64. rewrite (Z.mod_small (n - 1)) by nia. apply Z.mod_small. nia. }
    rewrite Eo in Hd. case_if_in Hd; [done|]. unfold memory_read_at in Hd. case_if_in Hd; [done|].
    apply (inj Some) in Hd as <-. unfold contrib. rewrite image_of_lookup by lia. rewrite Hp. unfold page_term.
    f_equal. replace (Z.to_nat ((n - 1) * ps)) with (Z.to_nat (n - 1) * Z.to_nat ps)%nat by nia.
    by apply concat_page.
  - unfold contrib. rewrite image_of_lookup by lia. rewrite lookup_ge_None_2; [done|]. unfold zlen in Hgt. lia.
Qed.

(** A publisher without a history. *)
Definition genesis_publisher : otsardb_wal_publisher :=
  mkPublisher OTSARDB_WRITE_STRATEGY_CAS (str "db") (str "db-1") OTSARDB_WAL_PUBLISHER_DEFAULT_SEGMENT_PAYLOAD_LIMIT
    false no_head no_anchor no_sum no_wal false false false [].

(** A writer that restarts in the middle of a WAL finds its place: the
    index parsed from the identity of HEAD is the one the publisher printed,
    for every salt and index, when HEAD is a commit of this WAL. *)
Theorem wal_publisher_resume_roundtrip (p : otsardb_wal_publisher) (index : Z) :
  is_u32 (wl_salt1 (wp_wal p)) -> is_u32 (wl_salt2 (wp_wal p)) -> is_u32 index ->
  wl_generation_known (wp_wal p) = true ->
  hc_commit_id (wp_head p) = wal_commit_id (wl_salt1 (wp_wal p)) (wl_salt2 (wp_wal p)) index ->
  current_wal_head_commit_index p = index.
Proof.
  intros H1 H2 Hi Hk Hid. unfold current_wal_head_commit_index. rewrite Hk, Hid. unfold wal_commit_id.
  change (str "w") with [119]. change (str "-") with [45]. cbn [negb app scan_literal Z.eqb Pos.eqb].
  rewrite (scan_hex8_print _ _ H1), (scan_hex8_print _ _ H2). cbn [app scan_literal Z.eqb Pos.eqb].
  rewrite <- (app_nil_r (hex8 index)), (scan_hex8_print _ _ Hi), !Z.eqb_refl. done.
Qed.

Definition resumed_publisher : otsardb_wal_publisher :=
  set_wal (mkWal true 0xdeadbeef 7 0 true no_cursor)
    (set_head (mkHeadCache true 9 (str "wdeadbeef00000007-0000002a") [] []) genesis_publisher).

Lemma wal_publisher_resume_roundtrip_witness : current_wal_head_commit_index resumed_publisher = 42.
Proof.
  apply (wal_publisher_resume_roundtrip resumed_publisher 42); try (split; vm_compute; discriminate);
    vm_compute; reflexivity.
Defined.

(** ** The retry cycle *)

(** What each attempt of a run returned. *)
Inductive attempts_run {S A} (attempt : M S (option A * otsardb_journal_result))
  : S -> list otsardb_journal_result -> S -> Prop :=
  | attempts_none s : attempts_run attempt s [] s
  | attempts_more s rc s1 rcs s2 : attempt s = ((None, rc), s1) -> publish_rc_retryable rc = true ->
      attempts_run attempt s1 rcs s2 -> attempts_run attempt s (rc :: rcs) s2.

Lemma retry_loop_run {S A} (attempt : M S (option A * otsardb_journal_result)) n : forall first s r rc s',
  retry_loop n first attempt s = ((r, rc), s') ->
  exists rcs s1, attempts_run attempt s rcs s1 /\ (length rcs <= n)%nat /\
    match r with
    | Some a => attempt s1 = ((Some a, rc), s')
    | None =>
        (attempt s1 = ((None, rc), s') /\ publish_rc_retryable rc = false) \/
        (s1 = s' /\ length rcs = n /\
         rc = default OTSARDB_JOURNAL_ERROR (match first with Some f => Some f | None => head rcs end))
    end.
Proof.
  induction n as [|n IH]; intros first s r rc s' H; cbn [retry_loop] in H.
  { unfold mret_ in H. injection H as <- <- <-. exists [], s. split_and!; [constructor|done|].
    right. split_and!; [done|done|]. by destruct first. }
  unfold mbind_ in H. destruct (attempt s) as [[[a|] rc1] s1] eqn:E.
  { unfold mret_ in H. injection H as <- <- <-. exists [], s. split_and!; [constructor|cbn; lia|done]. }
  destruct (publish_rc_retryable rc1) eqn:Er.
  - apply IH in H as (rcs & s2 & Hrun & Hlen & Hr). exists (rc1 :: rcs), s2.
    split_and!; [by econstructor|cbn; lia|]. destruct r as [a|]; [done|].
    destruct Hr as [Hr|(-> & Hl & ->)]; [by left|]. right. split_and!; [done|cbn; lia|]. by destruct first.
  - unfold mret_ in H. injection H as <- <- <-. exists [], s. split_and!; [constructor|cbn; lia|by left].
Qed.

Lemma retries_bounded v : 1 <= publish_retries_limit v <= 10.
Proof.
  unfold publish_retries_limit. destruct v as [[|c v]|]; [lia| |lia].
  destruct (strtol_all (c :: v)) as [n|]; [|lia]. repeat case_match; lia.
Qed.

(** The retry cycle is bounded and honest: after at most 10 attempts it
    reports success only for an attempt that succeeded, all attempts before it
    having failed with a transport error; it reports a definitive failure
    at once, and otherwise, the attempts used up, the result of the first. *)
Theorem publish_retry_cycle_bounded {S A} (e : environment)
    (attempt : M S (option A * otsardb_journal_result)) s r rc s' :
  publish_retry_cycle e attempt s = ((r, rc), s') ->
  exists rcs s1, attempts_run attempt s rcs s1 /\ zlen rcs <= 10 /\
    match r with
    | Some a => attempt s1 = ((Some a, rc), s')
    | None => (attempt s1 = ((None, rc), s') /\ publish_rc_retryable rc = false) \/
              (s1 = s' /\ zlen rcs = publish_retries_limit (env_publish_retries e) /\ head rcs = Some rc)
    end.
Proof.
  intros H. apply retry_loop_run in H as (rcs & s1 & Hrun & Hlen & Hr).
  pose proof (retries_bounded (env_publish_retries e)) as Hb.
  exists rcs, s1. split_and!; [done|unfold zlen; lia|]. destruct r as [a|]; [done|].
  destruct Hr as [Hr|(Hs & Hl & ->)]; [by left|]. right. split_and!; [done|unfold zlen; lia|].
  destruct rcs as [|rc0 rcs]; cbn in Hl |- *; [lia|done].
Qed.

Lemma publish_retry_cycle_bounded_witness :
  let attempt : M nat (option unit * otsardb_journal_result) := fun n =>
    match n with
    | O => ((Some tt, OTSARDB_JOURNAL_OK), O)
    | Datatypes.S n' => ((None, OTSARDB_JOURNAL_ERROR), n')
    end in
  exists rcs s1, attempts_run attempt 2%nat rcs s1 /\ zlen rcs <= 10 /\
    attempt s1 = ((Some tt, OTSARDB_JOURNAL_OK), O).
Proof.
  exact (publish_retry_cycle_bounded (mkEnvironment None None)
    (fun n => match n with
              | O => ((Some tt, OTSARDB_JOURNAL_OK), O)
              | Datatypes.S n' => ((None, OTSARDB_JOURNAL_ERROR), n')
              end) 2%nat (Some tt) OTSARDB_JOURNAL_OK O eq_refl).
Defined.
