(* ===== verification/WalPublisherSafety.v ===== *)
(** * The WAL publisher: safety of a sync

    A whole sync is a safe step of the store, and what it acknowledges is on the
    chain of HEAD. Computations are specified by [ensures]: the store moves by a
    safe step and the result satisfies a postcondition. *)

From stdpp Require Import sorting.
From S2P Require Import Prelude CText ObjectStore Journal Codec WalBatch Sha256 Segment SegmentTheory.
From S2P Require Import Checksum SqliteWal SqliteWalTheory DbMetadata CommitManifest CommitManifestTheory.
From S2P Require Import CommitPublish CommitPublishTheory CommitResolve CommitResolveTheory CheckpointBuildTheory.
From S2P Require Import WalPublisher WalPublisherTheory.

(** ** The scan and its callback *)

Definition reads_bytes (read_at : otsardb_sqlite_wal_read_at) : Prop :=
  forall offset size data, read_at offset size = Some data -> bytes_ok data.

(** A read gives exactly what was asked for. *)
Definition reads_exactly (read_at : otsardb_sqlite_wal_read_at) : Prop :=
  forall offset size data, 0 <= offset -> 0 <= size -> read_at offset size = Some data -> zlen data = size.

Section ScanInvariant.
Context {C : Type} (read_at : otsardb_sqlite_wal_read_at) (Hread : reads_bytes read_at).
Context (callback : option (otsardb_sqlite_wal_commit_callback C)) (page_size : Z).
(** [Before] holds between the transactions, [After] whenever the scan ends. *)
Context (Before After : C -> Prop) (Hend : forall ctx, Before ctx -> After ctx).
Context (Hcall : forall db refs ctx, is_u32 db -> Forall (fun ref => is_u32 (fr_page_no ref)) refs ->
  Before ctx -> After (snd (call_back callback page_size db refs ctx)) /\
  (fst (call_back callback page_size db refs ctx) = 0 -> Before (snd (call_back callback page_size db refs ctx)))).

Definition scan_good (st : scan_state C) : Prop :=
  wh_page_size (wc_header (ss_cursor st)) = page_size /\
  Forall (fun ref => is_u32 (fr_page_no ref)) (ss_refs st) /\ Before (ss_ctx st).

Lemma scan_body_good limit st : scan_good st ->
  match scan_body read_at limit callback st with
  | ScanFail st' | ScanBreak st' => After (ss_ctx st') /\ wc_header (ss_cursor st') = wc_header (ss_cursor st)
  | ScanNext st' => scan_good st' /\ wc_header (ss_cursor st') = wc_header (ss_cursor st)
  end.
Proof.
  intros (Hps & Hrefs & Hb). unfold scan_body. rewrite Hps. destruct (read_at _ _) as [frame|] eqn:Er; [|auto].
  pose proof (Hread _ _ _ Er) as Hok. destruct (_ || _ || _); [cbn; auto|].
  destruct (frame_checksum _ _ _) as [c0 c1]. destruct (_ || _); [cbn; auto|].
  destruct (ensure_frame_ref_capacity _ _) as [capacity|]; [|cbn; auto].
  assert (Forall (fun ref => is_u32 (fr_page_no ref))
            (ss_refs st ++ [mkFrameRef (read_u32_be frame) (ss_offset st)])) as Hr'.
  { apply list.Forall_app. split; [done|]. constructor; [|done]. cbn. by apply read_u32_be_is. }
  destruct (_ =? 0); [by split|].
  assert (is_u32 (read_u32_be (drop 4 frame))) as Hdb by (apply read_u32_be_is, Forall_drop, Hok).
  destruct (Hcall _ _ _ Hdb Hr' Hb) as [Ha Hn].
  destruct (call_back _ _ _ _ _) as [rc ctx]. cbn [fst snd] in *.
  destruct (Z.eqb_spec rc 0) as [->|]; [|cbn; auto]. cbn [negb]. specialize (Hn eq_refl).
  destruct (_ && _); [cbn; auto|]. split; [|done]. by split_and!.
Qed.

Lemma scan_loop_good size limit fuel : forall st ok st', scan_good st ->
  scan_loop read_at size limit callback fuel st = Some (ok, st') ->
  After (ss_ctx st') /\ wc_header (ss_cursor st') = wc_header (ss_cursor st).
Proof.
  induction fuel as [|fuel IH]; intros st ok st' Hg H; [done|]. cbn [scan_loop] in H.
  destruct (scan_guard size st); [|simplify_eq; split; [apply Hend, Hg|done]].
  pose proof (scan_body_good limit st Hg) as Hs.
  destruct (scan_body _ _ _ st) as [st1|st1|st1]; [by simplify_eq..|].
  destruct Hs as [Hg1 E1]. destruct (IH _ _ _ Hg1 H) as [Ha E]. split; [done|congruence].
Qed.

Lemma scan_reader_good size limit cursor ctx ok cursor' ctx' res :
  wh_page_size (wc_header cursor) = page_size -> Before ctx ->
  otsardb_sqlite_wal_scan_reader read_at size limit callback cursor ctx = (ok, cursor', ctx', res) ->
  After ctx' /\ wc_header cursor' = wc_header cursor.
Proof.
  intros Hps Hb H. assert (scan_good (scan_start cursor ctx)) as Hg by (by split_and!). clear Hps.
  unfold otsardb_sqlite_wal_scan_reader in H. repeat (case_if_in H; [simplify_eq; auto|]).
  destruct (scan_loop _ _ _ _ _ _) as [[[] st]|] eqn:El; simplify_eq; [| |auto];
    by apply scan_loop_good in El.
Qed.
End ScanInvariant.

(** ** Two callbacks that both succeed *)

Section ScanSimulation.
Context {C D : Type} (read_at : otsardb_sqlite_wal_read_at) (Hread : reads_bytes read_at).
Context (f : otsardb_sqlite_wal_commit_callback C) (g : otsardb_sqlite_wal_commit_callback D) (page_size : Z).
Context (R : C -> D -> Prop).
Context (Hcalls : forall db refs c d, is_u32 db -> Forall (fun ref => is_u32 (fr_page_no ref)) refs -> R c d ->
  fst (f page_size db refs c) = 0 ->
  fst (g page_size db refs d) = 0 /\ R (snd (f page_size db refs c)) (snd (g page_size db refs d))).

(** The same position, with the other context. *)
Definition with_ctx {A B} (st : scan_state A) (b : B) : scan_state B :=
  mkScanState (ss_cursor st) b (ss_offset st) (ss_refs st) (ss_capacity st) (ss_checksum0 st) (ss_checksum1 st)
    (ss_absolute_frame_count st) (ss_valid_frames st) (ss_committed_frames st) (ss_commit_count st)
    (ss_bytes_read st).

Definition linked (st : scan_state C) (d : D) : Prop :=
  wh_page_size (wc_header (ss_cursor st)) = page_size /\
  Forall (fun ref => is_u32 (fr_page_no ref)) (ss_refs st) /\ R (ss_ctx st) d.

Lemma scan_body_linked limit st d : linked st d ->
  match scan_body read_at limit (Some f) st with
  | ScanFail _ => True
  | ScanBreak st' => exists d', scan_body read_at limit (Some g) (with_ctx st d) = ScanBreak (with_ctx st' d') /\
                     R (ss_ctx st') d'
  | ScanNext st' => exists d', scan_body read_at limit (Some g) (with_ctx st d) = ScanNext (with_ctx st' d') /\
                    linked st' d'
  end.
Proof.
  intros (Hps & Hrefs & Hr). unfold scan_body. cbn [with_ctx ss_cursor ss_offset ss_refs ss_capacity ss_checksum0
    ss_checksum1 ss_absolute_frame_count ss_valid_frames ss_committed_frames ss_commit_count ss_bytes_read ss_ctx].
  rewrite Hps. destruct (read_at _ _) as [frame|] eqn:Er; [|done]. pose proof (Hread _ _ _ Er) as Hok.
  destruct (_ || _ || _); [by exists d|].
  destruct (frame_checksum _ _ _) as [c0 c1]. destruct (_ || _); [by exists d|].
  destruct (ensure_frame_ref_capacity _ _) as [capacity|]; [|done].
  assert (Forall (fun ref => is_u32 (fr_page_no ref))
            (ss_refs st ++ [mkFrameRef (read_u32_be frame) (ss_offset st)])) as Hr'.
  { apply list.Forall_app. split; [done|]. constructor; [|done]. cbn. by apply read_u32_be_is. }
  destruct (_ =? 0); [by exists d|].
  assert (is_u32 (read_u32_be (drop 4 frame))) as Hdb by (apply read_u32_be_is, Forall_drop, Hok).
  unfold call_back. pose proof (Hcalls _ _ _ _ Hdb Hr' Hr) as Hc.
  destruct (f _ _ _ _) as [rc ctx]. cbn [fst snd] in *.
  destruct (Z.eqb_spec rc 0) as [->|]; cbn [negb]; [|done]. destruct (Hc eq_refl) as [Hg HR].
  destruct (g _ _ _ _) as [rc' d']. cbn [fst snd] in *. subst rc'. cbn [Z.eqb negb].
  destruct (_ && _); exists d'; by split_and!.
Qed.

Lemma scan_loop_linked size limit fuel : forall st d st', linked st d ->
  scan_loop read_at size limit (Some f) fuel st = Some (true, st') ->
  exists d', scan_loop read_at size limit (Some g) fuel (with_ctx st d) = Some (true, with_ctx st' d') /\
    R (ss_ctx st') d'.
Proof.
  induction fuel as [|fuel IH]; intros st d st' Hl H; [done|]. cbn [scan_loop] in *.
  change (scan_guard size (with_ctx st d)) with (scan_guard size st).
  destruct (scan_guard size st); [|simplify_eq; exists d; split; [done|apply Hl]].
  pose proof (scan_body_linked limit st d Hl) as Hs.
  destruct (scan_body read_at limit (Some f) st) as [st1|st1|st1]; [done| |];
    destruct Hs as (d1 & -> & H1); [simplify_eq; eauto|by apply IH].
Qed.

Lemma scan_reader_linked size limit cursor c d cursor' c' res :
  wh_page_size (wc_header cursor) = page_size -> R c d ->
  otsardb_sqlite_wal_scan_reader read_at size limit (Some f) cursor c = (true, cursor', c', res) ->
  exists d', otsardb_sqlite_wal_scan_reader read_at size limit (Some g) cursor d = (true, cursor', d', res) /\
    R c' d'.
Proof.
  intros Hps Hr H. assert (linked (scan_start cursor c) d) as Hl by (by split_and!). clear Hps.
  unfold otsardb_sqlite_wal_scan_reader in *. destruct (_ =? 0); [done|]. destruct (_ <? wc_frame_count _); [done|].
  change (ss_offset (scan_start cursor d)) with (ss_offset (scan_start cursor c)).
  destruct (size <? _); [done|].
  change (scan_fuel size (scan_start cursor d)) with (scan_fuel size (scan_start cursor c)).
  destruct (scan_loop _ _ _ _ _ _) as [[[] st]|] eqn:El; [|done..].
  destruct (scan_loop_linked _ _ _ _ _ _ Hl El) as (d' & E' & HR).
  change (with_ctx (scan_start cursor c) d) with (scan_start cursor d) in E'. rewrite E'. simplify_eq. eauto.
Qed.
End ScanSimulation.

(** ** Hexadecimal text *)

Lemma hex_loop_chars n v : forallb is_hex_char (checksum_hex_loop n v []) = true.
Proof.
  rewrite (hex_loop_nibbles n v [] []) by done. apply forallb_forall. intros c Hc.
  apply list_elem_of_In, list_elem_of_fmap in Hc as (d & -> & Hd).
  pose proof (nibbles_range n v [] ltac:(constructor)) as Hr. rewrite list.Forall_forall in Hr.
  specialize (Hr d Hd). assert (d = 0 \/ d = 1 \/ d = 2 \/ d = 3 \/ d = 4 \/ d = 5 \/ d = 6 \/ d = 7 \/
    d = 8 \/ d = 9 \/ d = 10 \/ d = 11 \/ d = 12 \/ d = 13 \/ d = 14 \/ d = 15) as Hx by lia.
  repeat (destruct Hx as [-> |Hx]; [reflexivity|]). by subst.
Qed.

Lemma zlen_hex_loop n v : zlen (checksum_hex_loop n v []) = Z.of_nat n.
Proof.
  rewrite (hex_loop_nibbles n v [] []) by done. unfold zlen. rewrite length_fmap, length_nibbles. cbn. lia.
Qed.

Lemma wal_commit_id_ok salt1 salt2 index :
  text_ok (wal_commit_id salt1 salt2 index) = true /\ wal_commit_id salt1 salt2 index <> [].
Proof.
  split; [|done]. unfold wal_commit_id, hex8.
  rewrite !text_ok_app. by rewrite !(hex_chars_text_ok (checksum_hex_loop _ _ _)) by apply hex_loop_chars.
Qed.

(** ** The inputs of a commit *)

Lemma drop_repeats_sub pages : forall n, n ∈ drop_repeats pages -> n ∈ pages.
Proof.
  induction pages as [|a pages IH]; intros n; [done|]. cbn [drop_repeats].
  destruct pages as [|b pages]; [done|]. destruct (a =? b); set_solver.
Qed.

Lemma drop_repeats_length pages : (length (drop_repeats pages) <= length pages)%nat.
Proof.
  induction pages as [|a pages IH]; [done|]. cbn [drop_repeats].
  destruct pages as [|b pages]; [done|]. destruct (a =? b); cbn [length] in *; lia.
Qed.

Definition input_ok (cap : Z) (i : otsardb_segment_input) : Prop :=
  Forall is_u32 (default [] (si_pages i)) /\ zlen (default [] (si_pages i)) <= cap.

Lemma page_set_ok pages : Forall is_u32 pages -> Forall is_u32 (page_set pages).
Proof.
  rewrite !list.Forall_forall. intros H n Hn. apply H. apply drop_repeats_sub in Hn.
  by rewrite (merge_sort_Permutation Z.le pages) in Hn.
Qed.

Lemma zlen_page_set pages : zlen (page_set pages) <= zlen pages.
Proof.
  unfold page_set, zlen. rewrite <- (Permutation_length (merge_sort_Permutation Z.le pages)).
  pose proof (drop_repeats_length (merge_sort Z.le pages)). lia.
Qed.

Lemma chunk_inputs_ok read_at ps db n count : forall frames inputs,
  Forall (fun ref => is_u32 (fr_page_no ref)) frames ->
  chunk_inputs read_at ps db n count frames = inr inputs -> Forall (input_ok (Z.of_nat n)) inputs.
Proof.
  induction count as [|count IH]; intros frames inputs Hf H; cbn [chunk_inputs] in H.
  { by simplify_eq. }
  destruct (chunk_input _ _ _ _) as [rc|input] eqn:Ec; [done|].
  destruct (chunk_inputs _ _ _ _ _ _) as [rc|rest] eqn:Er; [done|]. simplify_eq.
  constructor; [|eapply IH; [|exact Er]; by apply Forall_drop].
  unfold chunk_input in Ec. destruct (mapM _ _) as [pages|]; [|done].
  destruct (otsardb_wal_batch_encode _ _ _ _) as [batch|]; [|done]. simplify_eq. split; cbn [si_pages default].
  - apply page_set_ok, list.Forall_fmap. by apply Forall_take.
  - etrans; [apply zlen_page_set|]. unfold zlen. rewrite length_fmap, length_take. lia.
Qed.

Lemma per_chunk_bound limit ps : 0 <= limit <= 520000000 -> 512 <= ps ->
  u32 (frames_per_chunk limit ps) <= OTSARDB_MANIFEST_MAX_LIST_ENTRIES.
Proof.
  intros Hl Hps. unfold frames_per_chunk, OTSARDB_MANIFEST_MAX_LIST_ENTRIES, OTSARDB_WAL_BATCH_FRAME_HEADER_SIZE.
  assert (0 <= limit / (8 + ps) <= 1000000) as Hd.
  { split; [apply Z.div_pos; lia|]. apply Z.div_le_upper_bound; nia. }
  unfold u32. destruct (0 <? limit); cbv zeta; [|done].
  destruct (_ =? 0); [done|]. rewrite Z.mod_small; lia.
Qed.

Lemma commit_inputs_ok read_at limit ps db frames inputs :
  0 <= limit <= 520000000 -> 512 <= ps -> Forall (fun ref => is_u32 (fr_page_no ref)) frames ->
  commit_inputs read_at limit ps db frames = inr inputs ->
  Forall (input_ok OTSARDB_MANIFEST_MAX_LIST_ENTRIES) inputs.
Proof.
  intros Hl Hps Hf H. pose proof (per_chunk_bound limit ps Hl Hps) as Hb. unfold commit_inputs in H.
  case_if_in H; [done|]. case_if_in H; [done|]. apply chunk_inputs_ok in H; [|done].
  eapply list.Forall_impl; [exact H|]. intros i [? ?]. split; [done|].
  unfold OTSARDB_MANIFEST_MAX_LIST_ENTRIES in *. lia.
Qed.

(** ** The frames of a commit *)

(** The page set is the sorted set of the page numbers. *)
Lemma drop_repeats_sorted pages : StronglySorted Z.le pages ->
  StronglySorted Z.lt (drop_repeats pages) /\ forall n, n ∈ drop_repeats pages <-> n ∈ pages.
Proof.
  induction 1 as [|a pages Hs IH Ha]; [by split; [constructor|]|]. cbn [drop_repeats].
  destruct pages as [|b pages]; [split; [repeat constructor|done]|]. destruct IH as [IH1 IH2].
  destruct (Z.eqb_spec a b) as [->|Hne].
  - split; [done|]. intros n. rewrite IH2. set_solver.
  - split; [|intros n; rewrite !elem_of_cons, IH2, elem_of_cons; done].
    constructor; [done|]. apply list.Forall_forall. intros n Hn%IH2. rewrite list.Forall_forall in Ha.
    pose proof (Ha b ltac:(by left)). apply elem_of_cons in Hn as [->|Hn]; [lia|].
    apply Sorted.StronglySorted_inv in Hs as [_ Hb]. rewrite list.Forall_forall in Hb. specialize (Hb n Hn). lia.
Qed.

Lemma page_set_sorted pages : StronglySorted Z.lt (page_set pages) /\ forall n, n ∈ page_set pages <-> n ∈ pages.
Proof.
  unfold page_set. destruct (drop_repeats_sorted (merge_sort Z.le pages)) as [H1 H2];
    [apply StronglySorted_merge_sort; typeclasses eauto|].
  split; [done|]. intros n. by rewrite H2, (merge_sort_Permutation Z.le pages).
Qed.

Lemma sorted_lt_unique (a b : list Z) : StronglySorted Z.lt a -> StronglySorted Z.lt b ->
  (forall n, n ∈ a <-> n ∈ b) -> a = b.
Proof.
  intros Ha. revert b. induction Ha as [|x a Ha IH Hx]; intros b Hb Hab.
  { destruct b as [|y b]; [done|]. specialize (Hab y). set_solver. }
  rewrite list.Forall_forall in Hx. destruct Hb as [|y b Hb Hy]; [specialize (Hab x); set_solver|].
  rewrite list.Forall_forall in Hy.
  assert (x = y) as ->.
  { pose proof (proj1 (Hab x) ltac:(by left)) as Hxb. pose proof (proj2 (Hab y) ltac:(by left)) as Hya.
    apply elem_of_cons in Hxb as [?|Hxb]; [done|]. apply elem_of_cons in Hya as [?|Hya]; [done|].
    specialize (Hx y Hya). specialize (Hy x Hxb). lia. }
  f_equal. apply IH; [done|]. intros n. specialize (Hab n). rewrite !elem_of_cons in Hab.
  split; intros Hn; [destruct (proj1 Hab (or_intror Hn)) as [->|]|destruct (proj2 Hab (or_intror Hn)) as [->|]]; try done;
    [specialize (Hx y Hn)|specialize (Hy y Hn)]; lia.
Qed.

Lemma pages_of_dom frames n : n ∈ frames.*1 <-> is_Some (pages_of frames !! n).
Proof.
  induction frames as [|f frames IH] using rev_ind.
  { cbn. rewrite lookup_empty. split; [set_solver|by intros [? ?]]. }
  rewrite pages_of_snoc, fmap_app, elem_of_app, IH. cbn. rewrite list_elem_of_singleton.
  destruct (decide (n = f.1)) as [->|]; [rewrite lookup_insert_eq; naive_solver|].
  rewrite lookup_insert_ne by done. naive_solver.
Qed.

(** A frame of the WAL: its page number and its page, after the frame header. *)
Definition frame_holds (read_at : otsardb_sqlite_wal_read_at) (ps : Z) (ref : otsardb_sqlite_wal_frame_ref)
    (f : Z * bytes) : Prop :=
  f.1 = fr_page_no ref /\ read_at (fr_frame_offset ref + OTSARDB_SQLITE_WAL_FRAME_HEADER_SIZE) ps = Some f.2.

Definition input_holds (ps db : Z) (n : nat) (input : otsardb_segment_input) (chunk : list (Z * bytes)) : Prop :=
  otsardb_wal_batch_encode ps db chunk.*1 (concat chunk.*2) = Some (si_payload input) /\
  si_pages input = Some (page_set chunk.*1) /\ (length chunk <= n)%nat.

Lemma frame_pages_hold read_at ps refs : forall pages, mapM (frame_page read_at ps) refs = Some pages ->
  exists chunk, chunk.*1 = fr_page_no <$> refs /\ chunk.*2 = pages /\ Forall2 (frame_holds read_at ps) refs chunk.
Proof.
  induction refs as [|ref refs IH]; intros pages H; cbn in H; [apply (inj Some) in H as <-; exists []; split_and!; [done|done|constructor]|].
  destruct (frame_page read_at ps ref) as [page|] eqn:Ep; [|done]. cbn in H.
  destruct (mapM (frame_page read_at ps) refs) as [rest|] eqn:Er; [|done]. cbn in H. apply (inj Some) in H as <-.
  destruct (IH _ eq_refl) as (chunk & E1 & E2 & Hall). exists ((fr_page_no ref, page) :: chunk).
  split_and!; [cbn; by rewrite E1|cbn; by rewrite E2|]. constructor; [|done]. split; [done|].
  unfold frame_page in Ep. by destruct (_ <? _).
Qed.

Lemma chunk_inputs_hold read_at ps db n count : forall refs inputs,
  chunk_inputs read_at ps db n count refs = inr inputs -> (length refs <= n * count)%nat ->
  exists chunks, Forall2 (frame_holds read_at ps) refs (concat chunks) /\
    Forall2 (input_holds ps db n) inputs chunks.
Proof.
  induction count as [|count IH]; intros refs inputs H Hl; cbn [chunk_inputs] in H.
  { simplify_eq. exists []. split; [|constructor]. destruct refs; [constructor|cbn in Hl; lia]. }
  destruct (chunk_input _ _ _ _) as [rc|input] eqn:Ec; [done|].
  destruct (chunk_inputs _ _ _ _ _ _) as [rc|rest] eqn:Er; [done|]. simplify_eq.
  destruct (IH _ _ Er) as (chunks & Hf & Hin); [rewrite length_drop; lia|].
  unfold chunk_input in Ec. destruct (mapM _ _) as [pages|] eqn:Em; [|done].
  apply frame_pages_hold in Em as (chunk & E1 & E2 & Hchunk).
  destruct (otsardb_wal_batch_encode _ _ _ _) as [batch|] eqn:Ee; [|done]. simplify_eq.
  exists (chunk :: chunks). split.
  - rewrite <- (take_drop n refs). cbn [concat]. by apply Forall2_app.
  - constructor; [|done]. unfold input_holds. cbn [si_payload si_pages]. rewrite E1. split_and!; [done|done|].
    rewrite <- (Forall2_length Hchunk), length_take. lia.
Qed.

(** Offsets are unsigned and the counts are 32-bit: the largest transactions are
    left out. *)
Definition countable (refs : list otsardb_sqlite_wal_frame_ref) : Prop :=
  zlen refs <= UINT32_MAX - OTSARDB_MANIFEST_MAX_LIST_ENTRIES /\ Forall (fun ref => 0 <= fr_frame_offset ref) refs.

Lemma commit_inputs_hold read_at limit ps db refs inputs :
  0 <= limit <= 520000000 -> 512 <= ps <= 65536 -> countable refs ->
  commit_inputs read_at limit ps db refs = inr inputs ->
  exists n chunks, 32 + Z.of_nat n * (8 + ps) <= OTSARDB_SEGMENT_MAX_DECOMPRESSED /\
    Forall2 (frame_holds read_at ps) refs (concat chunks) /\ Forall2 (input_holds ps db n) inputs chunks.
Proof.
  intros Hl Hps Hc H. pose proof (per_chunk_bound limit ps Hl ltac:(lia)) as Hb.
  change OTSARDB_SEGMENT_MAX_DECOMPRESSED with (2 ^ 30). unfold commit_inputs in H.
  set (per := u32 (frames_per_chunk limit ps)) in *. destruct (Z.eqb_spec per 0) as [|Hper]; [done|].
  assert (0 < per) as Hpos by (pose proof (Z.mod_pos_bound (frames_per_chunk limit ps) (2 ^ 32)); unfold per, u32 in *; lia).
  case_if_in H; [done|]. pose proof (zlen_nonneg refs). destruct Hc as [Hc _].
  unfold OTSARDB_MANIFEST_MAX_LIST_ENTRIES, UINT32_MAX in *.
  assert (u32 (u32 (zlen refs + per) - 1) = zlen refs + per - 1) as Eu.
  { unfold u32. rewrite (Z.mod_small (zlen refs + per)) by lia. apply Z.mod_small. lia. }
  rewrite Eu in H. apply chunk_inputs_hold in H as (chunks & Hf & Hin).
  2:{ pose proof (Z.div_mod (zlen refs + per - 1) per ltac:(lia)). pose proof (Z.mod_pos_bound (zlen refs + per - 1) per Hpos).
      assert (0 <= (zlen refs + per - 1) / per) by (apply Z.div_pos; lia). unfold zlen in *. nia. }
  exists (Z.to_nat per), chunks.
  assert (per * (8 + ps) <= 520000000 \/ per = 1) as Hs; [|split_and!; [destruct Hs; lia|done|done]].
  unfold per, frames_per_chunk, OTSARDB_WAL_BATCH_FRAME_HEADER_SIZE.
  assert (0 <= limit / (8 + ps) <= 1000000) by (split; [apply Z.div_pos; lia|apply Z.div_le_upper_bound; nia]).
  destruct (0 <? limit); cbv zeta; [|by right]. destruct (Z.eqb_spec (limit / (8 + ps)) 0); [by right|].
  left. unfold u32. rewrite Z.mod_small by lia. pose proof (Z.mul_div_le limit (8 + ps)). lia.
Qed.

(** A batch the encoder accepts is the payload of its frames. *)
Lemma batch_encode_ok ps db chunk payload :
  is_u32 db -> zlen chunk <= UINT32_MAX -> Forall (fun f => is_u32 f.1 /\ zlen f.2 = ps) chunk ->
  otsardb_wal_batch_encode ps db chunk.*1 (concat chunk.*2) = Some payload ->
  batch_ok ps db chunk /\ payload = payload_of ps db chunk.
Proof.
  intros Hdb Hn Hall H. pose proof H as H0. unfold otsardb_wal_batch_encode in H.
  assert (zlen chunk.*1 = zlen chunk) as E by (unfold zlen; by rewrite length_fmap). rewrite E in H.
  case_if_in H; [done|]. prop_bools. case_if_in H; [done|].
  destruct (encode_frames ps chunk.*1 (concat chunk.*2)) as [recs|] eqn:Ef; [|done].
  assert (Forall (fun f => f.1 <> 0) chunk) as Hnz.
  { clear -Ef. revert recs Ef. generalize (concat chunk.*2). induction chunk as [|f chunk IH]; intros pages recs Ef; [done|].
    cbn [fmap list_fmap encode_frames] in Ef. destruct (Z.eqb_spec f.1 0); [done|].
    destruct (encode_frames ps chunk.*1 _) as [out|] eqn:Eo; [|done]. constructor; [done|]. by eapply IH. }
  assert (batch_ok ps db chunk) as Hok.
  { pose proof (zlen_nonneg chunk). unfold is_u32, UINT32_MAX, UINT64_MAX in *.
    split_and!; try done; try lia; [unfold UINT64_MAX; lia|].
    apply list.Forall_forall. intros f Hf. rewrite list.Forall_forall in Hall, Hnz. specialize (Hall f Hf). specialize (Hnz f Hf).
    unfold frame_ok, UINT32_MAX. lia. }
  split; [done|]. pose proof Hok as (Hv & _).
  pose proof (batch_count_fits ps (zlen chunk) (valid_page_size_bounds _ Hv) Hn) as Hcount.
  rewrite (wal_batch_encode_records ps db chunk Hok Hcount) in H0.
  by injection H0 as <-.
Qed.

(** The object of a reference reads as [chunk]: it decodes, for the commit, to
    the batch of the last images of the chunk's pages, and the manifest lists
    those pages. *)
Definition segment_holds `{HSha : Sha256} `{HLz4 : Lz4} (root : bytes) (v : contents) (ps db : Z) (cid : bytes)
    (ref : otsardb_manifest_segment_ref) (chunk : list (Z * bytes)) : Prop :=
  exists key data sv cf, immutable_suffix (sg_key ref) = true /\ object_key root (sg_key ref) = Some key /\ holds v key data /\
    otsardb_sha256_hex_data data = sg_sha256 ref /\ zlen data = sg_size ref /\
    otsardb_segment_decode data = Some sv /\ sv_commit_id sv = cid /\ sv_kind sv = OTSARDB_SEGMENT_WAL_FRAMES /\
    otsardb_segment_decompress sv = Some (payload_of ps db cf) /\ last_writers chunk cf /\ sg_pages ref = cf.*1.

Lemma stored_holds `{HSha : Sha256} `{HLz4 : Lz4} `{!Lz4Laws} root v ps db cid n input ref chunk :
  segment_stored root cid v input ref -> input_holds ps db n input chunk ->
  is_u32 db -> 32 + Z.of_nat n * (8 + ps) <= OTSARDB_SEGMENT_MAX_DECOMPRESSED -> 512 <= ps <= 65536 ->
  Forall (fun f => is_u32 f.1 /\ zlen f.2 = ps) chunk ->
  0 < zlen cid <= OTSARDB_SEGMENT_COMMIT_ID_MAX -> no_nul cid = true ->
  segment_holds root v ps db cid ref chunk.
Proof.
  intros (key & data & info & Hi & Hk & Hh & He & Hsz & Hp) (Hb & Hsi & Hlen) Hdb Hcap Hps Hall Hid Hnul.
  change OTSARDB_SEGMENT_MAX_DECOMPRESSED with (2 ^ 30) in Hcap.
  apply batch_encode_ok in Hb as [Hok Hpay]; [|done|unfold zlen, UINT32_MAX; nia|done].
  destruct (segment_v3_reads ps db chunk cid true Hok) as (seg & sha & info' & sv & cf & He' & Hd & Hc & Hkind & Hdec & Hlw & _);
    [change OTSARDB_SEGMENT_MAX_DECOMPRESSED with (2 ^ 30); unfold zlen; nia|done|done|].
  rewrite <- Hpay, He in He'. injection He' as <- <- <-.
  exists key, data, sv, cf. destruct (encode_with_frames_size _ _ _ _ _ _ _ He) as (_ & Hsha & _).
  split_and!; try done. rewrite Hp, Hsi. cbn [default]. destruct (page_set_sorted chunk.*1) as [Hs1 Hs2].
  destruct Hlw as [Hc1 Hc2]. apply sorted_lt_unique; [done|done|].
  intros x. rewrite Hs2, pages_of_dom, list_elem_of_fmap. split.
  - intros [page Hpg]. exists (x, page). split; [done|by apply Hc2].
  - intros ([m page] & -> & Hm). exists page. by apply Hc2.
Qed.

Lemma stored_all `{HSha : Sha256} `{HLz4 : Lz4} `{!Lz4Laws} root v ps db cid n inputs refs chunks :
  Forall2 (segment_stored root cid v) inputs refs -> Forall2 (input_holds ps db n) inputs chunks ->
  is_u32 db -> 32 + Z.of_nat n * (8 + ps) <= OTSARDB_SEGMENT_MAX_DECOMPRESSED -> 512 <= ps <= 65536 ->
  Forall (Forall (fun f => is_u32 f.1 /\ zlen f.2 = ps)) chunks ->
  0 < zlen cid <= OTSARDB_SEGMENT_COMMIT_ID_MAX -> no_nul cid = true ->
  Forall2 (segment_holds root v ps db cid) refs chunks.
Proof.
  intros Hst. revert chunks. induction Hst as [|input ref inputs refs Hs Hst IH]; intros chunks Hin Hdb Hn Hps Hall Hid Hnul;
    inversion Hin as [|? chunk ? chunks' Hi Hin']; subst; [constructor|].
  apply list.Forall_cons in Hall as [H1 H2]. constructor; [by eapply stored_holds|by apply IH].
Qed.

Lemma segment_holds_keeps `{HSha : Sha256} `{HLz4 : Lz4} root v w ps db cid ref chunk :
  keeps root v w -> segment_holds root v ps db cid ref chunk -> segment_holds root w ps db cid ref chunk.
Proof.
  intros Hk (key & data & sv & cf & Hi & Hkey & Hh & Hr). exists key, data, sv, cf.
  split; [done|]. split; [done|]. split; [|exact Hr]. apply Hk; [by exists (sg_key ref)|done].
Qed.

Section Safety.
Context `{HSha : Sha256} `{HLz4 : Lz4}.
Context {S : Type} (store : otsardb_object_store S) (view : S -> contents)
        (env : contents -> contents -> Prop).
Context (Hlaws : StoreLaws store view env) (Hstream : StreamLaw store view env).
Context (root id : bytes) (Henv : forall v w, env v w -> safe_step root v w).
Context (Hcreate : otsardb_store_supports store OTSARDB_STORE_CAP_CONDITIONAL_CREATE = true).
Context (Hroot : text_ok root = true) (Hid : text_ok id = true).
Context (replica : replica_ops S) (Hreplica : rp_configured replica = false).
Context (e : environment) (after_object : bytes -> bytes) (lease_fence : option (M S bool)).
Context (Hfence : forall fence, lease_fence = Some fence -> safe view root fence).

(** The store moves by a safe step and the result satisfies [Q]. *)
Definition ensures {A} (m : M S A) (Q : A -> contents -> contents -> Prop) : Prop :=
  forall s r s', m s = (r, s') -> safe_step root (view s) (view s') /\ Q r (view s) (view s').

Lemma ensures_ret {A} (a : A) (Q : A -> contents -> contents -> Prop) :
  (forall v, Q a v v) -> ensures (mret_ a) Q.
Proof. intros H s r s' E. unfold mret_ in E. simplify_eq. split; [reflexivity|apply H]. Qed.

Lemma ensures_bind {A B} (m : M S A) (k : A -> M S B) P Q :
  ensures m P ->
  (forall a v w, safe_step root v w -> P a v w -> ensures (k a) (fun b w0 w' => w0 = w -> Q b v w')) ->
  ensures (mbind_ m k) Q.
Proof.
  intros Hm Hk s r s' H. unfold mbind_ in H. destruct (m s) as [a s1] eqn:E.
  destruct (Hm _ _ _ E) as [H1 HP]. destruct (Hk a _ _ H1 HP _ _ _ H) as [H2 HQ].
  split; [by etrans|by apply HQ].
Qed.

Lemma ensures_weaken {A} (m : M S A) (P Q : A -> contents -> contents -> Prop) :
  ensures m P -> (forall a v w, safe_step root v w -> P a v w -> Q a v w) -> ensures m Q.
Proof. intros Hm Hi s r s' H. destruct (Hm _ _ _ H). auto. Qed.

Lemma safe_ensures {A} (m : M S A) : safe view root m -> ensures m (fun _ _ _ => True).
Proof. intros H s r s' E. split; [by eapply H|done]. Qed.

Lemma ensures_safe {A} (m : M S A) Q : ensures m Q -> safe view root m.
Proof. intros H s r s' E. by destruct (H _ _ _ E). Qed.

Lemma safe_laws : StoreLaws store view (safe_step root).
Proof. by eapply store_laws_weaken. Qed.

(** HEAD was seen with the commit on its chain. *)
Definition committed (cid : bytes) (v v' : contents) : Prop :=
  exists h, head_seen (safe_step root) root v v' h /\
    on_chain (safe_step root) root v v' cid (head_pos h).

Lemma committed_widen cid u v v' u' :
  safe_step root u v -> safe_step root v' u' -> committed cid v v' -> committed cid u u'.
Proof.
  intros H1 H2 (h & Hh & Hc). exists h. assert (widens (safe_step root) v v' u u') as Hw by done.
  split; [by apply (head_seen_widen _ _ v v')|by apply (on_chain_widen _ _ v v')].
Qed.

(** HEAD was seen at a commit whose manifest and segments, which are those of the
    request, are stored from then on. *)
Definition recorded (r : otsardb_commit_request) (v v' : contents) : Prop :=
  exists h json m, head_seen (safe_step root) root v v' h /\ hd_commit_id h = rq_commit_id r /\
    immutable_key root (hd_commit_key h) /\ holds v' (hd_commit_key h) json /\
    otsardb_sha256_hex_data json = hd_commit_sha256 h /\ otsardb_commit_manifest_decode_json json = Some m /\
    cm_commit_id m = rq_commit_id r /\ cm_page_size m = rq_page_size r /\
    cm_database_size_pages m = rq_database_size_pages r /\
    Forall2 (segment_stored root (rq_commit_id r) v') (default [] (rq_segments r)) (cm_segments m).

Lemma recorded_widen r u v v' u' :
  safe_step root u v -> safe_step root v' u' -> recorded r v v' -> recorded r u u'.
Proof.
  intros H1 H2 (h & json & m & Hh & Hc & Hi & Hj & Hs & Hd & E1 & E2 & E3 & Hall). exists h, json, m.
  assert (widens (safe_step root) v v' u u') as Hw by done. split_and!; try done.
  - by apply (head_seen_widen _ _ v v').
  - by apply H2.
  - eapply list.Forall2_impl; [exact Hall|]. intros input ref. apply segment_stored_keeps, H2.
Qed.

(** What an acknowledged request is: on the chain; with its contents, when no put
    can time out. *)
Definition durable (r : otsardb_commit_request) (v v' : contents) : Prop :=
  committed (rq_commit_id r) v v' /\ (never_times_out store -> recorded r v v').

Lemma durable_widen r u v v' u' :
  safe_step root u v -> safe_step root v' u' -> durable r v v' -> durable r u u'.
Proof. intros H1 H2 [Hc Hr]. split; [by eapply committed_widen|]. intros Ht. by eapply recorded_widen; [..|apply Hr]. Qed.

(** ** The state of the publisher *)

Definition cache_ok (h : head_cache) : Prop :=
  text_ok (hc_commit_id h) = true /\ text_ok (hc_manifest_sha256 h) = true /\ is_u64 (hc_generation h).

(** The invariant: the names are those given at the start, no replica is open,
    a chunk has at most as many frames as a manifest lists pages, the cached
    HEAD is a head a manifest can name, and the cursor is of a WAL. *)
Definition pub_ok (p : otsardb_wal_publisher) : Prop :=
  wp_database_root p = root /\ wp_database_id p = id /\ wp_replica p = false /\
  0 <= wp_segment_payload_limit p <= 520000000 /\ cache_ok (wp_head p) /\
  (wh_page_size (wc_header (wl_cursor (wp_wal p))) = 0 \/
   512 <= wh_page_size (wc_header (wl_cursor (wp_wal p))) <= 65536).

(** What the operations on HEAD leave alone. *)
Definition same_wal (p p' : otsardb_wal_publisher) : Prop := wp_wal p' = wp_wal p.

Lemma cache_head_ok h etag : head_ok h -> cache_ok (cache_head h etag).
Proof.
  intros (_ & Hg & _ & Hc & _ & Hs). unfold cache_ok, cache_head. cbn.
  unfold field_ok in *. apply andb_prop in Hc as [Hc _], Hs as [Hs _].
  split_and!; [by apply text_ok_take..|done].
Qed.

Lemma read_head_ensures : ensures (otsardb_journal_read_head store root) (fun '(rc, res) v v' =>
  match rc, res with
  | OTSARDB_JOURNAL_OK, Some (h, _) => head_ok h /\ head_seen (safe_step root) root v v' h
  | _, _ => True
  end).
Proof.
  intros s [rc res] s' H. pose proof (read_head_seen store view _ safe_laws root _ _ _ _ H) as [He Hr].
  split; [done|]. destruct rc; try done. destruct Hr as (h & et & -> & Hh). split; [|done].
  destruct Hh as (hk & ob & _ & _ & Hd). by eapply head_decode_ok.
Qed.

Lemma get_ensures key : ensures (otsardb_store_get store key) (fun _ _ _ => True).
Proof. apply safe_ensures. by eapply safe_get. Qed.

(** Setters that keep the invariant. *)
Lemma pub_ok_set_head h p : cache_ok h -> pub_ok p -> pub_ok (set_head h p).
Proof. unfold pub_ok. cbn. tauto. Qed.
Lemma pub_ok_same p p' : wp_database_root p' = wp_database_root p -> wp_database_id p' = wp_database_id p ->
  wp_replica p' = wp_replica p -> wp_segment_payload_limit p' = wp_segment_payload_limit p ->
  wp_head p' = wp_head p -> wc_header (wl_cursor (wp_wal p')) = wc_header (wl_cursor (wp_wal p)) ->
  pub_ok p -> pub_ok p'.
Proof. unfold pub_ok. by intros -> -> -> -> -> ->. Qed.

Lemma rebase_ok prev head p : pub_ok p ->
  ensures (rebase_checksum store prev head p) (fun r _ _ => pub_ok (snd r) /\ same_wal p (snd r)).
Proof.
  intros Hp. unfold rebase_checksum. destruct (_ <=? _); [by apply ensures_ret|].
  eapply ensures_bind; [apply get_ensures|]. intros [err|ob] v w _ _; [by apply ensures_ret|].
  destruct (otsardb_commit_manifest_decode_json _) as [m|]; [|by apply ensures_ret].
  destruct (_ =? 0); [by apply ensures_ret|].
  destruct (otsardb_checksum_parse _); [|by apply ensures_ret].
  apply ensures_ret. intros _ _. split; [|done]. by apply (pub_ok_same p).
Qed.

Lemma refresh_head_ok p : pub_ok p ->
  ensures (refresh_head store p) (fun r _ _ => pub_ok (snd r) /\ same_wal p (snd r)).
Proof.
  intros Hp. unfold refresh_head. assert (wp_database_root p = root) as -> by apply Hp.
  eapply ensures_bind; [apply read_head_ensures|]. intros [rc res] v w _ Hr.
  destruct rc; try (by apply ensures_ret).
  2:{ apply ensures_ret. intros _ _. split; [|done]. apply pub_ok_set_head; [|done]. split_and!; try done. }
  destruct res as [[head etag]|]; [|by apply ensures_ret]. destruct Hr as [Hh _].
  destruct (_ || _); [by apply ensures_ret|]. cbv zeta.
  match goal with |- context [rebase_checksum _ _ _ ?x] => set (p3 := x) end.
  assert (pub_ok p3 /\ same_wal p p3) as [Hp3 Hw3].
  { subst p3. match goal with |- context [if ?b then set_head ?h ?x else ?y] =>
      assert (pub_ok (if b then set_head h x else y) /\ same_wal p (if b then set_head h x else y))
        as [Hb1 Hb2] end.
    - destruct (_ && _ && _); (split; [|done]); apply pub_ok_set_head; try done; [apply Hp|].
      by apply cache_head_ok.
    - revert Hb1 Hb2. generalize (if wp_dual_pending p && negb (zlen (hd_commit_id head) =? 0) &&
          bytes_eqb (wp_dual_commit_id p) (hd_commit_id head) then
          set_head {| hc_loaded := true; hc_generation := hc_generation (wp_head p);
            hc_commit_id := hc_commit_id (wp_head p); hc_manifest_sha256 := hc_manifest_sha256 (wp_head p);
            hc_etag := hc_etag (wp_head p) |} p else set_head (cache_head head etag) p).
      intros p1 Hb1 Hb2. split; [|by destruct (_ && _)]. destruct (_ && _); by apply (pub_ok_same p1). }
  clearbody p3. destruct (_ <=? 0); [by apply ensures_ret|].
  destruct (_ && _ && _); [apply ensures_ret; intros _ _; split; [by apply (pub_ok_same p3)|done]|].
  eapply ensures_weaken; [by apply rebase_ok|]. cbn. intros [rc p'] _ _ _ [Hp' Hw'] _.
  split; [done|]. unfold same_wal in *. congruence.
Qed.

Lemma rebase_head prev head p s rc p' s' :
  rebase_checksum store prev head p s = ((rc, p'), s') -> wp_head p' = wp_head p.
Proof.
  unfold rebase_checksum, mbind_, mret_. intros H.
  destruct (_ <=? _); [by simplify_eq|]. destruct (otsardb_store_get _ _ _) as [[err|ob] s1]; [by simplify_eq|].
  repeat case_match; by simplify_eq.
Qed.

(** The HEAD a refresh caches is one the store had, or none. *)
Lemma refresh_head_seen p s rc p' s' : pub_ok p -> wp_dual_pending p = false ->
  refresh_head store p s = ((rc, p'), s') -> rc = SQLITE_OK ->
  hc_commit_id (wp_head p') = [] \/
  exists h etag, head_seen (safe_step root) root (view s) (view s') h /\ wp_head p' = cache_head h etag.
Proof.
  intros Hp Hd H. unfold refresh_head in H. assert (wp_database_root p = root) as Hr by apply Hp. rewrite Hr in H. unfold mbind_ in H.
  destruct (otsardb_journal_read_head store root s) as [[rc1 res] s1] eqn:E. apply read_head_ensures in E as [_ Hseen].
  destruct rc1; try (unfold mret_ in H; by simplify_eq).
  2:{ unfold mret_ in H. simplify_eq. by left. }
  destruct res as [[h etag]|]; [|unfold mret_ in H; by simplify_eq]. destruct Hseen as [_ Hseen].
  destruct (_ || _); [unfold mret_ in H; by simplify_eq|]. rewrite Hd in H. cbn [andb negb] in H. cbv zeta in H.
  match type of H with context [rebase_checksum _ _ _ ?x] => set (p3 := x) in H end.
  assert (wp_head p3 = cache_head h etag) as H3 by (subst p3; by destruct (_ && _)).
  clearbody p3. intros _. right. exists h, etag.
  destruct (_ <=? 0); [unfold mret_ in H; by simplify_eq|].
  destruct (_ && _ && _); [unfold mret_ in H; by simplify_eq|].
  assert (safe view root (rebase_checksum store (rs_known (wp_sum p)) h p3)) as Hsafe.
  { unfold rebase_checksum. destruct (_ <=? _); [apply safe_ret|].
    apply safe_bind; [by eapply safe_get|]. intros [err|ob]; [apply safe_ret|].
    repeat (case_match; try apply safe_ret). }
  pose proof (Hsafe _ _ _ H) as Hs. apply rebase_head in H. split; [|congruence].
  by apply (head_seen_widen _ _ (view s) (view s1)).
Qed.

(** ** Metadata and segments *)

Lemma metadata_key_not_head key :
  build_key root (OTSARDB_METADATA_KEY_MAX + 1) = Some key ->
  build_head_key root (OTSARDB_KEY_MAX + 1) <> Some key.
Proof.
  unfold build_key, build_head_key, root_join. intros H1 H2. repeat case_match; simplify_eq;
    repeat match goal with H : _ ++ _ = _ ++ _ |- _ => apply app_inv_head in H end; done.
Qed.

Lemma ensure_metadata_ok page_size p : pub_ok p ->
  ensures (ensure_metadata store p page_size) (fun r _ _ => pub_ok (snd r) /\ same_wal p (snd r)).
Proof.
  intros Hp. assert (pub_ok (set_metadata_ready true p)) by (by apply (pub_ok_same p)).
  unfold ensure_metadata. destruct (wp_metadata_ready p); [by apply ensures_ret|].
  assert (wp_database_root p = root) as -> by apply Hp. eapply ensures_bind.
  { apply safe_ensures. unfold otsardb_db_metadata_create.
    destruct (build_key root _) as [key|] eqn:Ek; [|apply safe_ret].
    destruct (otsardb_db_metadata_encode_json _) as [json|]; [|apply safe_ret]. rewrite Hcreate.
    apply safe_bind; [eapply safe_create; [exact Hlaws|exact Henv|by apply metadata_key_not_head]|].
    intros [[]|et]; apply safe_ret. }
  intros rc v w _ _. destruct rc; try (by apply ensures_ret).
  eapply ensures_bind.
  { apply safe_ensures. unfold otsardb_db_metadata_read.
    destruct (build_key root _) as [key|]; [|apply safe_ret].
    apply safe_bind; [by eapply safe_get|]. intros [[]|ob]; try apply safe_ret.
    destruct (otsardb_db_metadata_decode_json _); apply safe_ret. }
  intros [rc existing] v' w' _ _. destruct rc; try (by apply ensures_ret).
  destruct existing as [m|]; [|by apply ensures_ret]. destruct (_ && _); by apply ensures_ret.
Qed.

Lemma safe_stream key data : build_head_key root (OTSARDB_KEY_MAX + 1) <> Some key ->
  safe view root (otsardb_store_put_stream store key [data] (zlen data) (mkPutOptions true None)).
Proof.
  intros Hne s r s' H. destruct (stream_put_law _ _ _ _ _ _ H) as (w & Hw & [->|(et & Hp & ob & _ & _ & ->)]);
    [by apply Henv|]. transitivity w; [by apply Henv|].
  unfold precondition in Hp. cbn in Hp. rewrite andb_true_r, bool_decide_eq_true in Hp.
  by apply insert_fresh_safe.
Qed.

Lemma safe_preupload_existing key data : safe view root (preupload_existing_matches store key data).
Proof. apply safe_bind; [by eapply safe_get|]. intros rc. apply safe_ret. Qed.

Lemma safe_preupload_put key data : build_head_key root (OTSARDB_KEY_MAX + 1) <> Some key ->
  safe view root (preupload_immutable_put_stream store key data).
Proof.
  intros Hne. unfold preupload_immutable_put_stream. rewrite Hcreate.
  apply safe_bind; [by apply safe_stream|].
  intros [[]|et]; try apply safe_ret; [apply safe_preupload_existing|].
  apply safe_bind; [apply safe_preupload_existing|]. intros r. apply safe_ret.
Qed.

(** The cycle is as safe as its attempts, and its success is that of one; so is
    an ambiguous result, for which [N] holds. *)
Lemma retry_ensures {A} (attempt : M S (option A * otsardb_journal_result)) (Q : A -> contents -> contents -> Prop)
    (N : Prop) :
  (forall a u v w, safe_step root u v -> Q a v w -> Q a u w) ->
  ensures attempt (fun r v w => (forall a, fst r = Some a -> Q a v w) /\ (snd r = OTSARDB_JOURNAL_AMBIGUOUS -> N)) ->
  ensures (publish_retry_cycle e attempt)
    (fun r v w => (forall a, fst r = Some a -> Q a v w) /\ (snd r = OTSARDB_JOURNAL_AMBIGUOUS -> N)).
Proof.
  intros Hmono Ha. unfold publish_retry_cycle. generalize (Z.to_nat (publish_retries_limit (env_publish_retries e))).
  intros n. assert (forall first, (first = Some OTSARDB_JOURNAL_AMBIGUOUS -> N) ->
    ensures (retry_loop n first attempt)
      (fun r v w => (forall a, fst r = Some a -> Q a v w) /\ (snd r = OTSARDB_JOURNAL_AMBIGUOUS -> N))) as Hn;
    [|by apply Hn].
  induction n as [|n IH]; intros first Hf; cbn [retry_loop].
  { apply ensures_ret. intros v. cbn. split; [done|]. destruct first; cbn; [intros ->; by apply Hf|done]. }
  eapply ensures_bind; [exact Ha|]. intros [[a|] rc] v w Hvw [HQ HN]; cbn [fst snd] in *.
  { apply ensures_ret. cbn in *. intros w' ->. auto. }
  destruct (publish_rc_retryable rc); [|by apply ensures_ret].
  eapply ensures_weaken; [apply IH|].
  - destruct first; cbn; [intros [= ->]; by apply Hf|intros [= ->]; by apply HN].
  - cbn. intros [r rc'] v' w' _ [Hr Hn'] ->. split; [|done]. intros a Ea. eauto.
Qed.

Lemma safe_preupload_job commit_id batch : safe view root (preupload_job_run store e root commit_id batch).
Proof.
  unfold preupload_job_run. destruct (otsardb_segment_encode_with_frames _ _ _ _) as [[[data sha] fr]|] eqn:Ee;
    [|apply safe_ret].
  destruct (object_key root _) as [key|] eqn:Ek; [|apply safe_ret].
  apply safe_bind; [|intros [r rc]; apply safe_ret].
  eapply ensures_safe, (retry_ensures _ (fun _ _ _ => True) True); [done|].
  eapply ensures_weaken; [apply safe_ensures|done]. unfold preupload_attempt_once.
  apply safe_bind; [|intros rc; apply safe_ret]. apply safe_preupload_put.
  eapply immutable_not_head; [apply segment_suffix_immutable|exact Ek].
Qed.

Lemma safe_preupload p commit_id inputs parallel : wp_database_root p = root ->
  safe view root (wal_publisher_preupload_segments store e p commit_id inputs parallel).
Proof.
  intros Hp. unfold wal_publisher_preupload_segments. rewrite Hp.
  assert (forall jobs, safe view root (preupload_wave store e root commit_id jobs)) as Hwave.
  { induction jobs as [|job jobs IH]; cbn [preupload_wave]; [apply safe_ret|].
    apply safe_bind; [apply safe_preupload_job|]. intros rc. apply safe_bind; [done|]. intros rc'. apply safe_ret. }
  generalize (length inputs) as n. intros n. revert inputs. induction n as [|n IH]; intros jobs;
    destruct jobs as [|job jobs]; cbn [preupload_waves]; try apply safe_ret.
  apply safe_bind; [apply Hwave|]. intros []; try apply safe_ret. apply IH.
Qed.

(** ** One commit *)

Definition checksum_ok (checksum : option bytes) : Prop :=
  forall hex, checksum = Some hex -> exists v, hex = otsardb_checksum_hex v.

Lemma roll_commit_hex read_at db_read_at ps frames c : checksum_ok (fst (roll_commit read_at db_read_at ps frames c)).
Proof.
  unfold roll_commit. intros hex H. repeat case_match; cbn [fst] in H; try done; apply (inj Some) in H; eauto.
Qed.

Lemma commit_request_ok p ps db cid inputs checksum :
  pub_ok p -> text_ok cid = true -> 0 <= ps <= 65536 -> is_u32 db -> checksum_ok checksum ->
  Forall (input_ok OTSARDB_MANIFEST_MAX_LIST_ENTRIES) inputs ->
  request_ok (commit_request p ps db cid inputs checksum).
Proof.
  intros (Er & Ei & _ & _ & (Hc & Hs & Hg) & _) Hcid Hps Hdb Hck Hin. unfold request_ok, commit_request. cbn.
  rewrite Er, Ei. unfold is_u32, is_u64, UINT32_MAX, UINT64_MAX in *.
  split_and!; try done; try lia; try (destruct (_ =? 0); done).
  destruct checksum as [hex|]; [right|by left]. destruct (Hck hex eq_refl) as [x ->].
  unfold otsardb_checksum_hex. cbn [str_of]. split; [apply (zlen_hex_loop 16)|apply hex_loop_chars].
Qed.

Definition acked (r : otsardb_commit_request) (a : publish_ack) (v w : contents) : Prop :=
  durable r v w /\
  match a with Published cr => head_ok (cr_head cr) | IdentityResolved => True end.

Lemma published_committed r s s' cr : rq_database_root r = root ->
  safe_step root (view s) (view s') -> published view r s s' cr ->
  committed (rq_commit_id r) (view s) (view s').
Proof.
  intros Er Hs (refs & w & hk & et & json & Hk & _ & (ob & Hd & _ & Hv) & _ & _ & _ & _ & _ & _ & Hok & Hci & _).
  exists (cr_head cr). rewrite Er in Hk. split; [|by apply on_here].
  exists hk, ob. split_and!; [done| |by rewrite Hd, head_encode_toks, head_decode_toks].
  exists (view s'). split_and!; [done|reflexivity|]. rewrite Hv. apply lookup_insert_eq.
Qed.

(** The request carries its segments as inputs. *)
Definition rq_listed (r : otsardb_commit_request) : Prop :=
  exists inputs, rq_segments r = Some inputs /\ rq_segment_count r = zlen inputs.

Lemma published_recorded r s s' cr : rq_database_root r = root -> rq_listed r ->
  safe_step root (view s) (view s') -> published view r s s' cr -> recorded r (view s) (view s').
Proof.
  intros Er (inputs & Ei & En) Hs (refs & w & hk & et & json & Hk & _ & (ob & Hd & _ & Hv) & _ & Hdur & Hj & Hdec & _ & _ & Hok & Hci & Hall).
  rewrite Er in *. destruct Hdur as (json' & m & Hi & Hj' & Hsha & Hdec' & _ & Hcm & _).
  assert (json' = json) as ->.
  { destruct Hj as (o1 & L1 & <-), Hj' as (o2 & L2 & <-). rewrite L1 in L2. by simplify_eq. }
  rewrite Hdec in Hdec'. apply (inj Some) in Hdec' as <-.
  assert (keeps root w (view s')) as Hkeep by (rewrite Hv; by apply insert_head_keeps).
  exists (cr_head cr), json, (build_manifest r refs). split_and!; try done.
  - exists hk, ob. split_and!; [done| |by rewrite Hd, head_encode_toks, head_decode_toks].
    exists (view s'). split_and!; [done|reflexivity|]. rewrite Hv. apply lookup_insert_eq.
  - by apply Hkeep.
  - congruence.
  - rewrite Ei, En in Hall. cbn in Hall. unfold zlen in Hall. rewrite Nat2Z.id, firstn_all in Hall.
    rewrite Ei. cbn. eapply list.Forall2_impl; [exact Hall|]. intros input ref. by apply segment_stored_keeps.
Qed.

Lemma resolve_ensures cid parent : cid <> [] ->
  ensures (otsardb_resolve_commit store after_object root cid parent) (fun '(rc, st) v w =>
    st = OTSARDB_COMMIT_STATE_COMMITTED -> committed cid v w).
Proof.
  intros Hne s [rc st] s' H. rewrite (resolve_classify store after_object root cid parent None false) in H.
  2:{ destruct cid; [done|]. unfold zlen. cbn. apply Z.eqb_neq. lia. }
  destruct (classify store after_object root cid parent None false s) as [[[rc1 st1] ov] s1] eqn:E.
  simplify_eq. apply (classify_sound store view _ safe_laws) in E as [He Hm]. split; [done|]. by intros ->.
Qed.

Lemma attempt_ok r : rq_database_root r = root -> request_ok r -> rq_cipher r = None -> rq_commit_id r <> [] ->
  rq_listed r ->
  ensures (publish_attempt_once store after_object None r) (fun x v w =>
    (forall a, fst x = Some a -> acked r a v w) /\ (snd x = OTSARDB_JOURNAL_AMBIGUOUS -> ~ never_times_out store)).
Proof.
  intros Er Hr Hc Hne Hli. unfold publish_attempt_once. eapply ensures_bind with (P := fun res v w =>
    (forall cr, res = inr cr -> acked r (Published cr) v w) /\
    (res = inl OTSARDB_JOURNAL_AMBIGUOUS -> ~ never_times_out store)).
  { intros s res s' H. pose proof H as Hrun. apply (publish_commit_run store view env Hlaws r Hr Hc) in H as [Hs Hp];
      [|by rewrite Er|done]. rewrite Er in Hs. split; [done|]. split.
    - intros cr ->. specialize (Hp cr eq_refl).
      split; [split; [by apply (published_committed r s s' cr)|intros _; by apply (published_recorded r s s' cr)]|].
      destruct Hp as (?&?&?&?&?&?&?&?&?&?&?&?&?&?&?&_). done.
    - intros -> Ht. by apply (publish_commit_decided store r Hc Hcreate) in Hrun. }
  intros [rc|cr] v w Hs [HP HN].
  2:{ apply ensures_ret. cbn. intros w' ->. split; [|done]. intros a [= <-]. by apply HP. }
  destruct rc; try (by apply ensures_ret). rewrite Er.
  eapply ensures_bind; [by apply resolve_ensures|]. intros [rc st] v' w' Hs' Hst.
  apply ensures_ret. cbn. intros w0 -> ->. split; [|intros _; by apply HN].
  intros a Ha. destruct rc; try done. destruct st; try done. simplify_eq.
  split; [|done]. split; [|intros Ht; by destruct (HN eq_refl)].
  eapply committed_widen; [exact Hs|reflexivity|by apply Hst].
Qed.

(** The count of published commits, and what a commit leaves of the WAL. *)
Abbreviation count p := (wl_published_commit_count (wp_wal p)).
Definition wal_kept (p p' : otsardb_wal_publisher) : Prop :=
  wl_salt1 (wp_wal p') = wl_salt1 (wp_wal p) /\ wl_salt2 (wp_wal p') = wl_salt2 (wp_wal p) /\
  wl_cursor (wp_wal p') = wl_cursor (wp_wal p).

Lemma same_wal_kept p p' : same_wal p p' -> wal_kept p p' /\ count p' = count p.
Proof. unfold same_wal, wal_kept. by intros ->. Qed.

Lemma pub_ok_set_published n p : pub_ok p -> pub_ok (set_published n p).
Proof. by apply pub_ok_same. Qed.

Lemma adopt_ok ack checksum c v w r : pub_ok (sc_publisher c) -> acked r ack v w ->
  ensures (adopt_published store ack checksum c) (fun x _ _ =>
    pub_ok (snd x) /\ wal_kept (sc_publisher c) (snd x) /\
    count (snd x) = if fst x =? SQLITE_OK then sc_commit_index c else count (sc_publisher c)).
Proof.
  intros Hp [_ Ha]. unfold adopt_published. destruct ack as [cr|].
  - apply ensures_ret. intros _. cbn [fst snd].
    set (p1 := move_image _ _). set (p2 := match checksum with Some _ => _ | None => _ end).
    assert (pub_ok p1 /\ same_wal (sc_publisher c) p1) as [Hp1 Hw1].
    { subst p1. unfold move_image. destruct (ia_generation_known _); [|done].
      split; [by apply (pub_ok_same (sc_publisher c))|done]. }
    assert (pub_ok p2 /\ same_wal (sc_publisher c) p2) as [Hp2 Hw2].
    { subst p2. destruct checksum; [|done]. split; [by apply (pub_ok_same p1)|done]. }
    split_and!; [|unfold wal_kept, same_wal in *; cbn; by rewrite Hw2|done].
    apply pub_ok_set_published, pub_ok_set_head; [by apply cache_head_ok|done].
  - eapply ensures_bind; [by apply refresh_head_ok|]. intros [rc p] v' w' _ [Hp' Hw]. cbn [snd] in *.
    apply same_wal_kept in Hw as [Hk Hn]. apply ensures_ret. intros v0 _. cbn [fst snd].
    destruct (rc =? SQLITE_OK); [|done]. split_and!; [by apply pub_ok_set_published|done|done].
Qed.

(** The outcome of a commit: acknowledged, counted and on the chain, or failed
    and not counted. *)
Definition commit_post (D : contents -> contents -> Prop) (c : publish_scan_context) (x : Z * publish_scan_context)
    (v w : contents) : Prop :=
  pub_ok (sc_publisher (snd x)) /\ wal_kept (sc_publisher c) (sc_publisher (snd x)) /\
  sc_commit_index (snd x) = sc_commit_index c /\
  if fst x =? 0 then count (sc_publisher (snd x)) = sc_commit_index c /\ D v w
  else count (sc_publisher (snd x)) = count (sc_publisher c).

Lemma commit_failed D c rc c' v w : pub_ok (sc_publisher c') -> wal_kept (sc_publisher c) (sc_publisher c') ->
  sc_commit_index c' = sc_commit_index c -> count (sc_publisher c') = count (sc_publisher c) ->
  commit_post D c (fail_commit rc c') v w.
Proof. by intros. Qed.

Definition widening (D : contents -> contents -> Prop) : Prop :=
  forall u v v' u', safe_step root u v -> safe_step root v' u' -> D v v' -> D u u'.

Lemma commit_post_widen D c x u v v' u' : widening D -> safe_step root u v -> safe_step root v' u' ->
  commit_post D c x v v' -> commit_post D c x u u'.
Proof.
  intros HD H1 H2 (? & ? & ? & H). split_and!; try done. destruct (fst x =? 0); [|done].
  destruct H. split; [done|by eapply HD].
Qed.

Lemma detect_ensures r : ensures (otsardb_publish_commit_detect_conflict store after_object root r) (fun _ _ _ => True).
Proof.
  intros s [[rc st] ov] s' H. split; [|done].
  assert (forall x : otsardb_journal_result * otsardb_commit_state * bool,
    mret_ x s = (rc, st, ov, s') -> safe_step root (view s) (view s')) as Hret.
  { intros x E. unfold mret_ in E. simplify_eq. reflexivity. }
  destruct (zlen root =? 0) eqn:E1; [unfold otsardb_publish_commit_detect_conflict in H; rewrite E1 in H; exact (Hret _ H)|].
  destruct (zlen (rq_commit_id r) =? 0) eqn:E2;
    [unfold otsardb_publish_commit_detect_conflict in H; rewrite E1, E2 in H; exact (Hret _ H)|].
  destruct (valid_parent_request r) eqn:E3;
    [|unfold otsardb_publish_commit_detect_conflict in H; rewrite E1, E2, E3 in H; exact (Hret _ H)].
  destruct (resolve_segment_inputs r) as [[inputs n]|] eqn:E4;
    [|unfold otsardb_publish_commit_detect_conflict in H; rewrite E1, E2, E3, E4 in H; exact (Hret _ H)].
  destruct (forallb (fun i => valid_page_input (si_pages i)) (default [] inputs)) eqn:E5;
    [|unfold otsardb_publish_commit_detect_conflict in H; rewrite E1, E2, E3, E4, E5 in H; exact (Hret _ H)].
  rewrite (detect_classify store after_object root r s inputs n) in H by done.
  by apply (classify_sound store view _ safe_laws) in H as [He _].
Qed.

Lemma classify_conflict_ok r D c : pub_ok (sc_publisher c) ->
  ensures (classify_conflict store after_object r c) (commit_post D c).
Proof.
  intros Hp. unfold classify_conflict. assert (wp_database_root (sc_publisher c) = root) as -> by apply Hp.
  eapply ensures_bind; [apply detect_ensures|]. intros [[rc st] ov] v w _ _.
  destruct rc; try (apply ensures_ret; intros; by apply commit_failed).
  destruct ov; apply ensures_ret; intros; by apply commit_failed.
Qed.

Lemma no_replica p : pub_ok p -> replica_wanted replica p = false.
Proof. intros (_ & _ & E & _). unfold replica_wanted. by rewrite E, Hreplica. Qed.

Lemma finish_ok (r : otsardb_commit_request) (D : contents -> contents -> Prop) c p rc v w : pub_ok p -> wal_kept (sc_publisher c) p -> D v w ->
  count p = (if rc =? SQLITE_OK then sc_commit_index c else count (sc_publisher c)) -> (rc =? SQLITE_OK) = true ->
  commit_post D c (0, with_publisher (if wp_dual_pending p && bytes_eqb (wp_dual_commit_id p) (rq_commit_id r)
                                        then set_dual false [] p else p) c) v w.
Proof.
  intros Hp Hk Hc Hn E. rewrite E in Hn. split_and!; [|by destruct (_ && _)|done|].
  - cbn. destruct (_ && _); [by apply (pub_ok_same p)|done].
  - cbn. split; [|done]. by destruct (_ && _).
Qed.

Lemma publish_request_ok r ps db checksum c : pub_ok (sc_publisher c) ->
  rq_database_root r = root -> request_ok r -> rq_cipher r = None -> rq_commit_id r <> [] -> rq_listed r ->
  ensures (publish_request store replica e after_object None r ps db checksum c) (commit_post (durable r) c).
Proof.
  intros Hp Er Hr Hc Hne Hli. unfold publish_request. pose proof (durable_widen r : widening (durable r)) as HD.
  eapply ensures_bind.
  { apply retry_ensures with (Q := acked r) (N := ~ never_times_out store); [|by apply attempt_ok].
    intros a u v w Hs [Hcm Ha]. split; [|done]. by eapply HD. }
  intros [[ack|] rc] v w Hs [Hack HN]; cbn [fst snd] in Hack, HN.
  - specialize (Hack ack eq_refl). eapply ensures_bind; [by eapply adopt_ok|].
    intros [rc' p] v' w' Hs' (Hp' & Hk & Hn). cbn [fst snd] in *.
    destruct (rc' =? SQLITE_OK) eqn:E; cbn [negb].
    2:{ apply ensures_ret. intros w0 -> ->. by apply commit_failed. }
    rewrite (no_replica p Hp'). apply ensures_ret. intros w0 -> ->.
    apply (finish_ok r _ c p rc'); try done; [|by rewrite E].
    destruct Hack as [Hcm _]. eapply HD; [reflexivity|exact Hs'|exact Hcm].
  - destruct rc; try (apply ensures_ret; intros; by apply commit_failed).
    + assert (replica_wanted replica (sc_publisher c) = false) as En by (by apply no_replica).
      unfold dual_retry. rewrite En. cbn [negb]. unfold mbind_ at 1, mret_ at 1. cbv beta iota.
      eapply ensures_weaken; [by apply (classify_conflict_ok r (durable r))|].
      intros x v' w' Hs' Hx ->. eapply commit_post_widen; [exact HD|exact Hs|reflexivity|exact Hx].
    + assert (wp_database_root (sc_publisher c) = root) as -> by apply Hp.
      eapply ensures_bind; [by apply resolve_ensures|]. intros [rc st] v' w' Hs' Hst.
      destruct rc; try (apply ensures_ret; intros; by apply commit_failed).
      destruct st; try (apply ensures_ret; intros; by apply commit_failed).
      eapply ensures_bind; [by apply refresh_head_ok|]. intros [rc p] v2 w2 Hs2 [Hp' Hw]. cbn [snd] in *.
      apply same_wal_kept in Hw as [Hk Hn]. destruct (rc =? SQLITE_OK); cbn [negb].
      * apply ensures_ret. intros w0 -> -> ->. split_and!; [by apply pub_ok_set_published|done|done|].
        cbn. split; [done|]. split; [|intros Ht; by destruct (HN eq_refl)].
        eapply committed_widen; [exact Hs|exact Hs2|by apply Hst].
      * apply ensures_ret. intros w0 -> -> ->. by apply commit_failed.
Qed.

(** HEAD was seen at a commit that holds a transaction of the WAL: its manifest
    has the page size and the database size of the transaction, and its segments
    decode to the transaction's frames, cut into chunks; all of it is stored from
    then on. *)
Definition committed_tx (read_at : otsardb_sqlite_wal_read_at) (cid : bytes) (ps : Z)
    (tx : Z * list otsardb_sqlite_wal_frame_ref) (v v' : contents) : Prop :=
  exists h json m chunks, head_seen (safe_step root) root v v' h /\ hd_commit_id h = cid /\
    immutable_key root (hd_commit_key h) /\ holds v' (hd_commit_key h) json /\
    otsardb_sha256_hex_data json = hd_commit_sha256 h /\ otsardb_commit_manifest_decode_json json = Some m /\
    cm_commit_id m = cid /\ cm_page_size m = ps /\ cm_database_size_pages m = tx.1 /\
    Forall2 (frame_holds read_at ps) tx.2 (concat chunks) /\
    Forall2 (segment_holds root v' ps tx.1 cid) (cm_segments m) chunks.

Definition tx_durable (read_at : otsardb_sqlite_wal_read_at) (cid : bytes) (ps : Z)
    (tx : Z * list otsardb_sqlite_wal_frame_ref) (v v' : contents) : Prop :=
  committed cid v v' /\
  (Lz4Laws -> never_times_out store -> reads_exactly read_at -> countable tx.2 -> committed_tx read_at cid ps tx v v').

Lemma tx_durable_widen read_at cid ps tx : widening (tx_durable read_at cid ps tx).
Proof.
  intros u v v' u' H1 H2 [Hc Ht]. split; [by eapply committed_widen|]. intros Hl Hn Hr Hk.
  destruct (Ht Hl Hn Hr Hk) as (h & json & m & chunks & Hh & E0 & Hi & Hj & E1 & E2 & E3 & E4 & E5 & Hf & Hs).
  assert (widens (safe_step root) v v' u u') as Hw by done. exists h, json, m, chunks. split_and!; try done.
  - by apply (head_seen_widen _ _ v v').
  - by apply H2.
  - eapply list.Forall2_impl; [exact Hs|]. intros ref chunk. apply segment_holds_keeps, H2.
Qed.

Lemma durable_tx read_at p ps db cid refs inputs checksum v w :
  pub_ok p -> 512 <= ps <= 65536 -> is_u32 db -> Forall (fun ref => is_u32 (fr_page_no ref)) refs ->
  0 < zlen cid <= OTSARDB_SEGMENT_COMMIT_ID_MAX -> no_nul cid = true ->
  commit_inputs read_at (wp_segment_payload_limit p) ps db refs = inr inputs ->
  durable (commit_request p ps db cid inputs checksum) v w -> tx_durable read_at cid ps (db, refs) v w.
Proof.
  intros Hp Hps Hdb Hrefs Hlen Hnul Hin [Hc Hd]. split; [exact Hc|]. intros Hlz Ht Hread Hcount.
  destruct (Hd Ht) as (h & json & m & Hh & E0 & Hi & Hj & E1 & E2 & E3 & E4 & E5 & Hs).
  destruct (commit_inputs_hold read_at _ ps db refs inputs ltac:(apply Hp) Hps Hcount Hin) as (n & chunks & Hn & Hf & Hch).
  exists h, json, m, chunks. split_and!; try done.
  apply (stored_all _ _ _ _ _ n inputs); try done. apply Forall_concat, list.Forall_forall. intros f Hfin.
  apply list_elem_of_lookup in Hfin as [k Hk]. destruct (Forall2_lookup_r _ _ _ _ _ Hf Hk) as (ref & Hrk & Ef & Hrd).
  rewrite Ef. rewrite list.Forall_forall in Hrefs. split; [apply Hrefs; by eapply list_elem_of_lookup_2|].
  destruct Hcount as [_ Hoff]. rewrite list.Forall_forall in Hoff.
  specialize (Hoff ref ltac:(by eapply list_elem_of_lookup_2)). cbn in Hoff.
  eapply Hread; [|lia|exact Hrd]. change OTSARDB_SQLITE_WAL_FRAME_HEADER_SIZE with 24. lia.
Qed.

Abbreviation one_commit := (publish_one_commit store replica e after_object None lease_fence).

(** The identity of the next commit of a sync. *)
Definition next_id (c : publish_scan_context) : bytes :=
  wal_commit_id (wl_salt1 (wp_wal (sc_publisher c))) (wl_salt2 (wp_wal (sc_publisher c)))
    (u32 (sc_commit_index c + 1)).

Definition bump (c : publish_scan_context) : publish_scan_context :=
  mkScanContext (sc_publisher c) (u32 (sc_commit_index c + 1)) (sc_sqlite_rc c) (sc_checksum c) (sc_checksum_valid c).

Lemma roll_commit_ctx read_at db_read_at ps frames c : pub_ok (sc_publisher c) ->
  let c' := snd (roll_commit read_at db_read_at ps frames c) in
  pub_ok (sc_publisher c') /\ same_wal (sc_publisher c) (sc_publisher c') /\
  sc_commit_index c' = sc_commit_index c.
Proof.
  intros Hp. unfold roll_commit. destruct (negb _); [done|]. destruct (rl_blocked _); cbn;
    (split_and!; [by apply (pub_ok_same (sc_publisher c))|done|done]).
Qed.

(** A postcondition may be read from an equivalent context. *)
Lemma commit_post_from D c c' x v w : wal_kept (sc_publisher c) (sc_publisher c') ->
  count (sc_publisher c') = count (sc_publisher c) -> sc_commit_index c' = sc_commit_index c ->
  commit_post D c' x v w -> commit_post D c x v w.
Proof.
  intros (K1 & K2 & K3) Hn Hi (Hp & (J1 & J2 & J3) & Hx & H). rewrite Hi, Hn in *.
  split_and!; [done| |done|done]. split_and!; congruence.
Qed.

Lemma publish_one_commit_ok read_at db_read_at ps db frames c :
  pub_ok (sc_publisher c) -> 512 <= ps <= 65536 -> is_u32 db ->
  Forall (fun ref => is_u32 (fr_page_no ref)) frames ->
  ensures (one_commit read_at db_read_at ps db frames c) (commit_post (tx_durable read_at (next_id c) ps (db, frames)) (bump c)).
Proof.
  set (D := tx_durable read_at (next_id c) ps (db, frames)).
  assert (widening D) as HD by apply tx_durable_widen.
  intros Hp Hps Hdb Hf. unfold publish_one_commit. fold (bump c).
  eapply ensures_bind; [apply (ensure_metadata_ok ps (sc_publisher (bump c))), Hp|].
  intros [rc p] v w Hs [Hp1 Hw1]. cbn [snd] in *. pose proof (same_wal_kept _ _ Hw1) as [Hk1 Hn1].
  assert (forall rc v w, commit_post D (bump c) (fail_commit rc (with_publisher p (bump c))) v w) as Hfail
    by (intros; by apply commit_failed).
  destruct (rc =? SQLITE_OK); cbn [negb]; [|by apply ensures_ret].
  destruct (commit_inputs _ _ _ _ _) as [rc1|inputs] eqn:Ein; [by apply ensures_ret|]. pose proof Ein as Ein0.
  apply commit_inputs_ok in Ein; [|apply Hp1|lia|done].
  cbv zeta. eapply ensures_bind with (P := fun _ _ _ => True).
  { destruct lease_fence as [fence|]; [apply safe_ensures; by apply Hfence|by apply ensures_ret]. }
  intros live v1 w1 Hs1 _. destruct live; [cbn [negb]|by apply ensures_ret].
  eapply ensures_bind with (P := fun _ _ _ => True).
  { destruct (_ && _ && _ && _); [|by apply ensures_ret]. apply safe_ensures, safe_preupload, Hp1. }
  intros pre v2 w2 Hs2 _. destruct pre; try (by apply ensures_ret).
  pose proof (roll_commit_hex read_at db_read_at ps frames (with_publisher p (bump c))) as Hhex.
  pose proof (roll_commit_ctx read_at db_read_at ps frames (with_publisher p (bump c)) Hp1) as Hroll.
  destruct (roll_commit _ _ _ _ _) as [checksum c3]. cbn [fst snd] in *. destruct Hroll as (Hp3 & Hw3 & Hi3).
  apply same_wal_kept in Hw3 as [Hk3 Hn3].
  assert (wal_commit_id (wl_salt1 (wp_wal p)) (wl_salt2 (wp_wal p)) (sc_commit_index (with_publisher p (bump c)))
          = next_id c) as -> by (unfold next_id, same_wal in *; by rewrite Hw1).
  destruct (wal_commit_id_ok (wl_salt1 (wp_wal (sc_publisher c))) (wl_salt2 (wp_wal (sc_publisher c)))
    (u32 (sc_commit_index c + 1))) as [Hcid Hne].
  eapply ensures_weaken.
  { eapply publish_request_ok; [exact Hp3|apply Hp1| |done|exact Hne|by exists inputs].
    apply commit_request_ok; try done; [lia]. }
  intros x v3 w3 Hs3 Hx -> -> ->.
  apply (commit_post_from D (bump c) c3).
  - unfold wal_kept in *. cbn in *. intuition congruence.
  - cbn in *. congruence.
  - done.
  - eapply commit_post_widen; [exact HD|by do 2 (etrans; [eassumption|])|reflexivity|].
    destruct Hx as (? & ? & ? & Hx). split_and!; try done. destruct (fst x =? 0); [|done].
    destruct Hx as [? Hx]. split; [done|]. eapply durable_tx; [exact Hp1|done|done|done| |by destruct (andb_prop _ _ Hcid)|exact Ein0|exact Hx].
    unfold next_id, wal_commit_id, hex8. rewrite !zlen_app, !zlen_hex_loop. vm_compute. split; [reflexivity|discriminate].
Qed.

(** ** A sync *)

Section Sync.
Context (wal_size : Z) (read_at : otsardb_sqlite_wal_read_at) (db_read_at : option otsardb_sqlite_wal_read_at).
Context (Hread : reads_bytes read_at).

(** Between the transactions of a sync of [p] that started in [v]. *)
Definition sync_inv (p : otsardb_wal_publisher) (v : contents) (cs : publish_scan_context * S) : Prop :=
  pub_ok (sc_publisher (fst cs)) /\ wal_kept p (sc_publisher (fst cs)) /\ safe_step root v (view (snd cs)) /\
  0 <= count (sc_publisher (fst cs)).

(** The identity of transaction [i] of the WAL of [p]. *)
Definition tx_id (p : otsardb_wal_publisher) (i : Z) : bytes :=
  wal_commit_id (wl_salt1 (wp_wal p)) (wl_salt2 (wp_wal p)) i.

Lemma callback_ok p v page_size db refs cs :
  512 <= page_size <= 65536 -> is_u32 db -> Forall (fun ref => is_u32 (fr_page_no ref)) refs ->
  sync_inv p v cs -> sc_commit_index (fst cs) = count (sc_publisher (fst cs)) ->
  let x := sync_callback store replica e after_object None lease_fence read_at db_read_at page_size db refs cs in
  sync_inv p v (snd x) /\ safe_step root (view (snd cs)) (view (snd (snd x))) /\
  (fst x = 0 -> sc_commit_index (fst (snd x)) = count (sc_publisher (fst (snd x))) /\
                count (sc_publisher (fst (snd x))) = u32 (count (sc_publisher (fst cs)) + 1) /\
                tx_durable read_at (tx_id p (count (sc_publisher (fst (snd x))))) page_size (db, refs)
                  v (view (snd (snd x)))).
Proof.
  intros Hps Hdb Hrefs (Hp & Hk & Hs & Hpos) Hi. destruct cs as [c s]. cbn [fst snd] in *.
  unfold sync_callback. cbn [fst snd].
  destruct (one_commit read_at db_read_at page_size db refs c s) as [[rc c'] s'] eqn:E.
  apply (publish_one_commit_ok read_at db_read_at page_size db refs c Hp Hps Hdb Hrefs) in E
    as (Hs' & Hp' & Hk' & Hi' & H). cbn [fst snd bump sc_commit_index sc_publisher] in *.
  assert (safe_step root v (view s')) as Hvs by (by etrans).
  assert (wal_kept p (sc_publisher c')) as Hkk by (unfold wal_kept in *; intuition congruence).
  unfold sync_inv. cbn [fst snd]. destruct (Z.eqb_spec rc 0) as [->|Hrc].
  - destruct H as [Hn Hcm]. rewrite Hn. split_and!; try done; [apply Z.mod_pos_bound; lia|]. intros _.
    rewrite Hi', Hi. split_and!; [done|done|]. unfold tx_id. destruct Hk as (K1 & K2 & _). rewrite <- K1, <- K2, <- Hi.
    eapply tx_durable_widen; [exact Hs|reflexivity|exact Hcm].
  - split_and!; try done. by rewrite H.
Qed.

Lemma sync_publish_ok p : pub_ok p -> 0 <= count p ->
  ensures (sync_publish store replica e after_object None lease_fence wal_size read_at db_read_at p)
    (fun x _ _ => pub_ok (snd x)).
Proof.
  intros Hp Hn. unfold sync_publish. set (p1 := if _ && _ && _ then _ else p).
  assert (pub_ok p1 /\ same_wal p p1) as [Hp1 Hw1].
  { subst p1. destruct (_ && _ && _); [|done]. split; [by apply (pub_ok_same p)|done]. }
  clearbody p1. pose proof (same_wal_kept _ _ Hw1) as [Hk1 Hn1]. intros s [rc p'] s' H.
  destruct (otsardb_sqlite_wal_scan_reader _ _ _ _ _ _) as [[[ok cursor] [c s1]] res] eqn:Escan.
  assert (sync_inv p (view s) (scan_context p1, s)) as H0.
  { unfold sync_inv. cbn [fst snd scan_context sc_publisher]. rewrite Hn1. split_and!; [done|done|reflexivity|done]. }
  assert (sync_inv p (view s) (c, s1) /\ wc_header cursor = wc_header (wl_cursor (wp_wal p1))) as [Hinv Hh].
  { destruct (Z.eq_dec (wh_page_size (wc_header (wl_cursor (wp_wal p1)))) 0) as [E0|Hne].
    - unfold otsardb_sqlite_wal_scan_reader in Escan. rewrite E0 in Escan. cbn in Escan. by simplify_eq.
    - assert (512 <= wh_page_size (wc_header (wl_cursor (wp_wal p1))) <= 65536) as Hps.
      { destruct Hp1 as (_ & _ & _ & _ & _ & [?|?]); [done|lia]. }
      eapply (scan_reader_good read_at Hread _ _
        (fun cs => sync_inv p (view s) cs /\ sc_commit_index (fst cs) = count (sc_publisher (fst cs)))
        (sync_inv p (view s))) in Escan; [exact Escan|by intros ? [? _]| |reflexivity|by split].
      intros db refs cs Hdb Hrefs [Hi Hc].
      destruct (callback_ok p (view s) _ db refs cs Hps Hdb Hrefs Hi Hc) as (Ha & _ & Hb).
      split; [done|]. intros E0. split; [done|by apply Hb]. }
  destruct Hinv as (Hpc & Hkc & Hsc & _). cbn [fst snd] in *. simplify_eq. split; [done|].
  destruct Hp1 as (_ & _ & _ & _ & _ & Hcur). unfold pub_ok in *. cbn. rewrite Hh. tauto.
Qed.

(** The transactions of a sync of [p], each durable under its identity. *)
Definition txs_durable (p : otsardb_wal_publisher) (ps base : Z)
    (txs : list (Z * list otsardb_sqlite_wal_frame_ref)) (v v' : contents) : Prop :=
  forall i tx, txs !! i = Some tx ->
    tx_durable read_at (tx_id p (base + Z.of_nat i + 1)) ps tx v v'.

(** The sync against the scan that records the transactions. *)
Lemma sync_publish_all p s p' s' : pub_ok p -> 0 <= count p ->
  sync_publish store replica e after_object None lease_fence wal_size read_at db_read_at p s
    = ((SQLITE_OK, p'), s') ->
  exists txs res, otsardb_sqlite_wal_scan_reader read_at wal_size 0 (Some record_commit) (wl_cursor (wp_wal p)) []
      = (true, wl_cursor (wp_wal p'), txs, res) /\
    (count p + zlen txs <= UINT32_MAX -> count p' = count p + zlen txs /\
       txs_durable p (wh_page_size (wc_header (wl_cursor (wp_wal p)))) (count p) txs (view s) (view s')).
Proof.
  intros Hp Hn. unfold sync_publish. set (p1 := if _ && _ && _ then _ else p).
  assert (pub_ok p1 /\ same_wal p p1) as [Hp1 Hw1].
  { subst p1. destruct (_ && _ && _); [|done]. split; [by apply (pub_ok_same p)|done]. }
  clearbody p1. pose proof (same_wal_kept _ _ Hw1) as [Hk1 Hn1]. intros H. unfold txs_durable, tx_id.
  rewrite <- Hn1, <- Hw1 in *. fold (tx_id p1).
  destruct (otsardb_sqlite_wal_scan_reader _ _ _ _ _ _) as [[[ok cursor] [c s1]] res] eqn:Escan.
  destruct ok; [|exfalso; apply (f_equal (fun x => fst (fst x))) in H; cbn [fst] in H;
    destruct (Z.eqb_spec (sc_sqlite_rc c) SQLITE_OK); [discriminate|done]].
  destruct (Z.eq_dec (wh_page_size (wc_header (wl_cursor (wp_wal p1)))) 0) as [E0|Hne].
  { unfold otsardb_sqlite_wal_scan_reader in Escan. by rewrite E0 in Escan. }
  set (ps := wh_page_size (wc_header (wl_cursor (wp_wal p1)))) in *.
  assert (512 <= ps <= 65536) as Hps.
  { destruct Hp1 as (_ & _ & _ & _ & _ & [?|?]); [done|lia]. }
  eapply (scan_reader_linked read_at Hread _ record_commit ps
    (fun cs txs => sync_inv p1 (view s) cs /\ sc_commit_index (fst cs) = count (sc_publisher (fst cs)) /\
       (count p1 + zlen txs <= UINT32_MAX -> count (sc_publisher (fst cs)) = count p1 + zlen txs /\
          txs_durable p1 ps (count p1) txs (view s) (view (snd cs))))
    ) with (d := []) in Escan as (txs & Hrec & Hinv & _ & Hcount); [| |reflexivity|].
  - simplify_eq. exists txs, res. done.
  - intros db refs cs txs Hdb Hrefs (Hi & Hidx & Hcnt) H0. split; [done|].
    destruct (callback_ok p1 (view s) _ db refs cs Hps Hdb Hrefs Hi Hidx) as (Ha & Hstep & Hb).
    destruct (Hb H0) as (Hx & Hy & Hd). split_and!; [done|done|]. cbn [record_commit snd]. rewrite zlen_app.
    change (zlen [(db, refs)]) with 1. unfold UINT32_MAX in *. intros Hle.
    destruct (Hcnt ltac:(lia)) as [Ec Hall]. pose proof (zlen_nonneg txs).
    assert (u32 (count (sc_publisher (fst cs)) + 1) = count p1 + (zlen txs + 1)) as Eu
      by (unfold u32; rewrite Ec, Z.mod_small; lia).
    rewrite Hy, Eu in Hd |- *. split; [done|]. intros i tx Hlk. apply lookup_app_Some in Hlk as [Hlk|[Hge Hlk]].
    + eapply tx_durable_widen; [reflexivity|exact Hstep|by apply Hall].
    + apply list_lookup_singleton_Some in Hlk as [Hz <-].
      assert (Z.of_nat i = zlen txs) as Ei by (unfold zlen; lia). rewrite Ei.
      replace (count p1 + zlen txs + 1) with (count p1 + (zlen txs + 1)) by lia. exact Hd.
  - split_and!; [|done|].
    + unfold sync_inv. cbn [fst snd scan_context sc_publisher]. split_and!; [done|done|reflexivity|lia].
    + intros _. split; [unfold zlen; cbn; lia|]. intros i tx Hlk. by rewrite lookup_nil in Hlk.
Qed.

Lemma reset_ok p header : pub_ok p -> 512 <= wh_page_size header <= 65536 -> pub_ok (reset_wal_generation p header).
Proof. unfold pub_ok. cbn. tauto. Qed.

Lemma rebuild_ok p target : pub_ok p -> 0 <= target -> 0 <= count p ->
  let x := rebuild_cursor_from_head p read_at wal_size target in pub_ok (snd x) /\ 0 <= count (snd x).
Proof.
  intros Hp Ht Hn. unfold rebuild_cursor_from_head. destruct (target =? 0); [done|].
  destruct (otsardb_sqlite_wal_scan_reader _ _ _ _ _ _) as [[[ok cursor] ctx] res] eqn:Escan.
  assert (pub_ok (set_cursor cursor p)) as Hc.
  { destruct (scan_reader_good read_at Hread None (wh_page_size (wc_header (wl_cursor (wp_wal p))))
      (fun _ => True) (fun _ => True) (fun _ _ => I) (fun _ _ _ _ _ _ => conj I (fun _ => I)) _ _ _ _ _ _ _ _
      eq_refl I Escan) as [_ Eh].
    apply (pub_ok_same p); try done. }
  destruct ok; [|done]. cbn [negb]. destruct (_ =? target); [|done]. cbn [negb snd]. split; [|done].
  by apply pub_ok_set_published.
Qed.

Lemma head_index_pos p : 0 <= current_wal_head_commit_index p.
Proof.
  assert (forall t v t', scan_hex8 t = Some (v, t') -> 0 <= v) as Hv.
  { unfold scan_hex8. intros t v t' H. repeat case_match; simplify_eq; apply Z.mod_pos_bound; lia. }
  unfold current_wal_head_commit_index. repeat case_match; try lia; by eapply Hv.
Qed.

Lemma sync_reader_ok p : pub_ok p -> 0 <= count p ->
  ensures (otsardb_wal_publisher_sync_reader store replica e after_object None lease_fence wal_size read_at
             db_read_at p) (fun x _ _ => pub_ok (snd x)).
Proof.
  intros Hp Hn. unfold otsardb_wal_publisher_sync_reader. cbv zeta. set (p0 := set_conflict false p).
  assert (pub_ok p0) as Hp0 by (by apply (pub_ok_same p)). assert (count p0 = count p) as En by done.
  clearbody p0. destruct (wal_size =? 0).
  { apply ensures_ret. intros _. cbn. unfold pub_ok in *. cbn. tauto. }
  destruct (otsardb_sqlite_wal_read_header read_at wal_size) as [header|] eqn:Eh; [|by apply ensures_ret].
  assert (512 <= wh_page_size header <= 65536) as Hps.
  { unfold otsardb_sqlite_wal_read_header in Eh. repeat case_match; simplify_eq. cbn.
    unfold valid_page_size in *. prop_bools. lia. }
  eapply ensures_bind; [by apply refresh_head_ok|]. intros [rc p1] v w _ [Hp1 Hw1]. cbn [snd] in *.
  apply same_wal_kept in Hw1 as [_ Hn1]. destruct (rc =? SQLITE_OK); cbn [negb]; [|by apply ensures_ret].
  destruct (_ && _); [by apply ensures_ret|].
  assert (forall p2, pub_ok p2 -> 0 <= count p2 ->
    ensures (sync_publish store replica e after_object None lease_fence wal_size read_at db_read_at p2)
      (fun x w0 _ => w0 = w -> pub_ok (snd x))) as Hpub.
  { intros p2 Hp2 Hn2. eapply ensures_weaken; [by apply sync_publish_ok|]. by intros x ? ? _ ? _. }
  destruct (_ || _); [|apply Hpub; [done|lia]].
  destruct (rebuild_ok (reset_wal_generation p1 header)
    (current_wal_head_commit_index (reset_wal_generation p1 header))) as [Hr Hnr];
    [by apply reset_ok|apply head_index_pos|done|].
  destruct (rebuild_cursor_from_head _ _ _ _) as [rc2 p2]. cbn [snd] in *.
  destruct (rc2 =? SQLITE_OK); cbn [negb]; [by apply Hpub|by apply ensures_ret].
Qed.
(** The WAL is the one of the last sync, and has not been cut below the cursor. *)
Definition resumes (p : otsardb_wal_publisher) (header : otsardb_sqlite_wal_header) : bool :=
  wl_generation_known (wp_wal p) && (wl_salt1 (wp_wal p) =? wh_salt1 header) &&
  (wl_salt2 (wp_wal p) =? wh_salt2 header) && wl_cursor_ready (wp_wal p) &&
  negb (wal_size <? u64 (32 + wc_frame_count (wl_cursor (wp_wal p)) * (24 + wh_page_size header))).

(** Where a sync of a WAL with this header starts, and after how many of its
    transactions: where the last sync of the same WAL stopped; of a new WAL, at
    the first transaction, or after as many of them as the identity of a HEAD
    that was there when the sync began counts. *)
Inductive sync_start (p : otsardb_wal_publisher) (header : otsardb_sqlite_wal_header) (v v1 : contents)
    : otsardb_sqlite_wal_cursor -> Z -> Prop :=
  | start_kept : resumes p header = true ->
      sync_start p header v v1 (wl_cursor (wp_wal p)) (count p)
  | start_first : resumes p header = false ->
      sync_start p header v v1 (otsardb_sqlite_wal_cursor_reset header) 0
  | start_after h etag cursor n res : resumes p header = false ->
      head_seen (safe_step root) root v v1 h ->
      current_wal_head_commit_index (set_head (cache_head h etag) (reset_wal_generation p header)) = n ->
      otsardb_sqlite_wal_scan_reader read_at wal_size n None (otsardb_sqlite_wal_cursor_reset header) tt
        = (true, cursor, tt, res) -> sr_commit_count res = n ->
      sync_start p header v v1 cursor n.

Lemma sync_start_kept p header v v1 cursor n : resumes p header = true -> sync_start p header v v1 cursor n ->
  cursor = wl_cursor (wp_wal p) /\ n = count p.
Proof. intros Hr []; congruence || done. Qed.

Lemma head_index_of p q : hc_commit_id (wp_head p) = hc_commit_id (wp_head q) -> wp_wal p = wp_wal q ->
  current_wal_head_commit_index p = current_wal_head_commit_index q.
Proof. unfold current_wal_head_commit_index. by intros -> ->. Qed.

Lemma rebuild_start p p1 header rc p2 v v1 : resumes p header = false -> same_wal p p1 ->
  hc_commit_id (wp_head p1) = [] \/
    (exists h etag, head_seen (safe_step root) root v v1 h /\ wp_head p1 = cache_head h etag) ->
  rebuild_cursor_from_head (reset_wal_generation p1 header) read_at wal_size
    (current_wal_head_commit_index (reset_wal_generation p1 header)) = (rc, p2) -> rc = SQLITE_OK ->
  sync_start p header v v1 (wl_cursor (wp_wal p2)) (count p2) /\
  wl_salt1 (wp_wal p2) = wh_salt1 header /\ wl_salt2 (wp_wal p2) = wh_salt2 header.
Proof.
  intros Hres Hw Hh H ->. remember (current_wal_head_commit_index (reset_wal_generation p1 header)) as n eqn:En.
  unfold rebuild_cursor_from_head in H. destruct (Z.eqb_spec n 0) as [|Hn].
  { simplify_eq. split; [by apply start_first|done]. }
  destruct Hh as [E|(h & etag & Hh & E)].
  { exfalso. apply Hn. rewrite En. unfold current_wal_head_commit_index. cbn. by rewrite E. }
  destruct (otsardb_sqlite_wal_scan_reader _ _ _ _ _ _) as [[[[] cursor] []] res] eqn:Es; [|by simplify_eq].
  cbn [negb] in H. destruct (Z.eqb_spec (sr_commit_count res) n) as [Ec|]; [|by simplify_eq].
  cbn [negb] in H. injection H as <-. split; [|done]. cbn.
  apply (start_after p header v v1 h etag cursor n res); [done|done| |done|done].
  rewrite En. apply head_index_of; [cbn; by rewrite E|reflexivity].
Qed.

(** The transactions of the WAL from the start of the sync on are all durable,
    under their identities. *)
Definition sync_acked (p : otsardb_wal_publisher) (header : otsardb_sqlite_wal_header) (v v1 v' : contents)
    (p' : otsardb_wal_publisher) : Prop :=
  exists cursor n txs res, sync_start p header v v1 cursor n /\
    otsardb_sqlite_wal_scan_reader read_at wal_size 0 (Some record_commit) cursor []
      = (true, wl_cursor (wp_wal p'), txs, res) /\
    (n + zlen txs <= UINT32_MAX -> count p' = n + zlen txs /\
      forall i tx, txs !! i = Some tx ->
        tx_durable read_at (wal_commit_id (wh_salt1 header) (wh_salt2 header) (n + Z.of_nat i + 1))
          (wh_page_size (wc_header cursor)) tx v1 v').

Lemma sync_publish_acked p p2 header v s1 p' s' : pub_ok p2 -> 0 <= count p2 ->
  sync_start p header v (view s1) (wl_cursor (wp_wal p2)) (count p2) ->
  wl_salt1 (wp_wal p2) = wh_salt1 header -> wl_salt2 (wp_wal p2) = wh_salt2 header ->
  sync_publish store replica e after_object None lease_fence wal_size read_at db_read_at p2 s1
    = ((SQLITE_OK, p'), s') ->
  safe_step root (view s1) (view s') /\ sync_acked p header v (view s1) (view s') p'.
Proof.
  intros Hp2 Hn2 Hst E1 E2 H. pose proof (sync_publish_ok _ Hp2 Hn2 _ _ _ H) as [Hs' _]. split; [done|].
  apply sync_publish_all in H as (txs & res & Hrec & Hall); [|done..].
  exists (wl_cursor (wp_wal p2)), (count p2), txs, res. split; [done|]. split; [done|]. intros Hle.
  destruct (Hall Hle) as [Hc Htx]. split; [done|]. intros i tx Hi. rewrite <- E1, <- E2. by apply Htx.
Qed.

Lemma sync_reader_acked p s p' s' : pub_ok p -> 0 <= count p -> wp_dual_pending p = false -> wal_size <> 0 ->
  otsardb_wal_publisher_sync_reader store replica e after_object None lease_fence wal_size read_at db_read_at p s
    = ((SQLITE_OK, p'), s') ->
  exists header v1, otsardb_sqlite_wal_read_header read_at wal_size = Some header /\
    safe_step root (view s) v1 /\ safe_step root v1 (view s') /\ sync_acked p header (view s) v1 (view s') p'.
Proof.
  intros Hp Hn Hd Hsz H. unfold otsardb_wal_publisher_sync_reader in H. cbv zeta in H.
  destruct (Z.eqb_spec wal_size 0); [done|].
  destruct (otsardb_sqlite_wal_read_header read_at wal_size) as [header|] eqn:Eh; [|unfold mret_ in H; by simplify_eq].
  unfold mbind_ in H. destruct (refresh_head store (set_conflict false p) s) as [[rc p1] s1] eqn:E.
  exists header, (view s1). split; [done|].
  assert (pub_ok (set_conflict false p)) as Hp0 by (by apply (pub_ok_same p)).
  pose proof (refresh_head_seen _ _ _ _ _ Hp0 Hd E) as Hh. apply refresh_head_ok in E as (Hs & Hp1 & Hw1); [|done].
  cbn [snd] in *. change (same_wal p p1) in Hw1. pose proof (same_wal_kept _ _ Hw1) as [(K1 & K2 & K3) Hn1].
  split; [done|]. destruct (Z.eqb_spec rc SQLITE_OK) as [->|]; cbn [negb] in H; [|unfold mret_ in H; by simplify_eq].
  destruct (_ && _); [unfold mret_ in H; by simplify_eq|].
  assert (512 <= wh_page_size header <= 65536) as Hps.
  { clear H. unfold otsardb_sqlite_wal_read_header in Eh. repeat case_match; simplify_eq. cbn.
    unfold valid_page_size in *. prop_bools. lia. }
  match type of H with (if ?b then _ else _) _ = _ => assert (b = negb (resumes p header)) as Eb end.
  { unfold resumes. rewrite !negb_andb, negb_involutive, K3. reflexivity. }
  rewrite Eb in H. clear Eb. destruct (resumes p header) eqn:Er; cbn [negb] in H.
  - pose proof Er as Er'. unfold resumes in Er'. prop_bools.
    eapply sync_publish_acked; [exact Hp1|lia| |congruence|congruence|exact H].
    rewrite K3, Hn1. by apply start_kept.
  - destruct (rebuild_ok (reset_wal_generation p1 header)
      (current_wal_head_commit_index (reset_wal_generation p1 header))) as [Hr Hnr];
      [by apply reset_ok|apply head_index_pos|done|].
    destruct (rebuild_cursor_from_head _ _ _ _) as [rc2 p2] eqn:Eb. cbn [snd] in *.
    destruct (Z.eqb_spec rc2 SQLITE_OK) as [->|]; cbn [negb] in H; [|unfold mret_ in H; by simplify_eq].
    destruct (rebuild_start p p1 header _ _ _ _ Er Hw1 (Hh eq_refl) Eb eq_refl) as (Hst & E1 & E2).
    by eapply sync_publish_acked.
Qed.
End Sync.
End Safety.
