(* ===== verification/WalPublisherProps.v ===== *)
(** * The WAL publisher: the promises

    What a sync promises, with the database of a short WAL on which the promises
    are evaluated, and runs that show where the rolling checksum goes wrong. *)

From stdpp Require Import sorting.
From S2P Require Import Prelude CText ObjectStore Journal Codec WalBatch Sha256 Segment SegmentTheory.
From S2P Require Import Checksum SqliteWal SqliteWalTheory DbMetadata CommitManifest CommitManifestTheory.
From S2P Require Import CommitPublish CommitPublishTheory CommitResolve CommitResolveTheory CheckpointBuildTheory.
From S2P Require Import Cipher CipherTheory LocalFile Recovery RecoveryTheory RecoveryProps.
From S2P Require Import WalPublisher WalPublisherTheory WalPublisherSafety.

Section Promises.
Context `{HSha : Sha256} `{HLz4 : Lz4}.
Context {S : Type} (store : otsardb_object_store S) (view : S -> contents)
        (env : contents -> contents -> Prop).
Context (replica : replica_ops S) (e : environment) (after_object : bytes -> bytes)
        (lease_fence : option (M S bool)).

(** C13. A sync is safe whatever happens to it. Over any lawful store with
    conditional creation, with peers and a lease callback that are safe
    themselves, no replica, any WAL, any fault and any result code: the
    invariant of the publisher holds again, HEAD still designates a stored
    manifest with its segments, and no immutable object is lost or altered. *)
Theorem wal_publisher_sync_safe (Hlaws : StoreLaws store view env) (Hstream : StreamLaw store view env)
    (root id : bytes) (wal_size : Z) (read_at : otsardb_sqlite_wal_read_at)
    (db_read_at : option otsardb_sqlite_wal_read_at) (p : otsardb_wal_publisher) s rc p' s' :
  (forall v w, env v w -> safe_step root v w) ->
  otsardb_store_supports store OTSARDB_STORE_CAP_CONDITIONAL_CREATE = true ->
  text_ok root = true -> text_ok id = true -> rp_configured replica = false ->
  (forall fence, lease_fence = Some fence -> safe view root fence) ->
  reads_bytes read_at -> pub_ok root id p -> 0 <= wl_published_commit_count (wp_wal p) ->
  otsardb_wal_publisher_sync_reader store replica e after_object None lease_fence wal_size read_at db_read_at p s
    = ((rc, p'), s') ->
  pub_ok root id p' /\
  (head_closed root (view s) -> head_closed root (view s')) /\
  (forall k data, immutable_key root k -> holds (view s) k data -> holds (view s') k data).
Proof.
  intros Henv Hc Hroot Hid Hrep Hf Hread Hp Hn H.
  destruct (sync_reader_ok store view env Hlaws Hstream root id Henv Hc Hroot Hid replica Hrep e after_object
    lease_fence Hf wal_size read_at db_read_at Hread p Hp Hn s _ s' H) as [[Hk Hh] Hp'].
  done.
Qed.

(** C14. What a sync acknowledges is durable. When a sync of a WAL that is not
    empty reports success (no replica, no cipher, lawful store, safe peers), it
    has passed over every transaction of the WAL (those the scan alone delivers)
    from its start on, the start being where the last sync of this WAL stopped,
    the first transaction, or after as many transactions as the identity of a
    HEAD that was there when the sync began counts; and unless the 32-bit count
    of commits wraps, each of them is counted and is on the chain of a HEAD seen
    during the sync, under its own identity. If moreover no put times out, LZ4
    inverts its compression, a read of the WAL gives as many bytes as it asks
    for and the frames of the transaction can be counted in 32 bits (their offsets
    are unsigned), that commit
    holds the transaction: its manifest has the page size and the database size,
    and its segments, stored from then on, decode to exactly the frames of the
    transaction, in order, cut into chunks ([committed_tx]). *)
Theorem wal_publisher_acks_durable (Hlaws : StoreLaws store view env) (Hstream : StreamLaw store view env)
    (root id : bytes) (wal_size : Z) (read_at : otsardb_sqlite_wal_read_at)
    (db_read_at : option otsardb_sqlite_wal_read_at) (p : otsardb_wal_publisher) s p' s' :
  (forall v w, env v w -> safe_step root v w) ->
  otsardb_store_supports store OTSARDB_STORE_CAP_CONDITIONAL_CREATE = true ->
  text_ok root = true -> text_ok id = true -> rp_configured replica = false ->
  (forall fence, lease_fence = Some fence -> safe view root fence) ->
  reads_bytes read_at -> pub_ok root id p -> 0 <= wl_published_commit_count (wp_wal p) ->
  wp_dual_pending p = false -> wal_size <> 0 ->
  otsardb_wal_publisher_sync_reader store replica e after_object None lease_fence wal_size read_at db_read_at p s
    = ((SQLITE_OK, p'), s') ->
  exists header v1 cursor n txs res,
    otsardb_sqlite_wal_read_header read_at wal_size = Some header /\
    safe_step root (view s) v1 /\ safe_step root v1 (view s') /\
    sync_start root wal_size read_at p header (view s) v1 cursor n /\
    otsardb_sqlite_wal_scan_reader read_at wal_size 0 (Some record_commit) cursor []
      = (true, wl_cursor (wp_wal p'), txs, res) /\
    (n + zlen txs <= UINT32_MAX ->
     wl_published_commit_count (wp_wal p') = n + zlen txs /\
     forall i tx, txs !! i = Some tx ->
       let cid := wal_commit_id (wh_salt1 header) (wh_salt2 header) (n + Z.of_nat i + 1) in
       committed root cid v1 (view s') /\
       (Lz4Laws -> never_times_out store -> reads_exactly read_at -> countable tx.2 ->
        committed_tx root read_at cid (wh_page_size (wc_header cursor)) tx v1 (view s'))).
Proof.
  intros Henv Hc Hroot Hid Hrep Hf Hread Hp Hn Hd Hsz H.
  destruct (sync_reader_acked store view env Hlaws Hstream root id Henv Hc Hroot Hid replica Hrep e after_object
    lease_fence Hf wal_size read_at db_read_at Hread p s p' s' Hp Hn Hd Hsz H)
    as (header & v1 & Eh & H1 & H2 & cursor & n & txs & res & Hst & Hrec & Hall).
  by exists header, v1, cursor, n, txs, res.
Qed.
End Promises.

(** ** Reading a WAL in memory *)

Lemma sample_reads w : bytes_ok w -> reads_bytes (memory_read_at w).
Proof.
  intros Hw offset size data H. unfold memory_read_at in H. case_if_in H; [done|]. simplify_eq.
  by apply Forall_take, Forall_drop.
Qed.

Lemma memory_reads_exactly w : reads_exactly (memory_read_at w).
Proof.
  intros offset size data Ho Hs H. unfold memory_read_at in H. case_if_in H; [done|]. simplify_eq. prop_bools.
  unfold zlen in *. rewrite length_take, length_drop. lia.
Qed.

(** ** The checksum of a commit *)

Lemma frame_reads_pages read_at ps frames pages : 0 <= ps -> reads_exactly read_at -> reads_bytes read_at ->
  frame_reads read_at ps frames = Some pages ->
  length pages = length frames /\ Forall (fun page => bytes_ok page /\ zlen page = ps) pages.
Proof.
  intros Hps Hex Hby H. apply mapM_Some_1 in H. split; [symmetry; by eapply Forall2_length|].
  apply list.Forall_forall. intros page Hin. apply list_elem_of_lookup in Hin as [k Hk].
  destruct (Forall2_lookup_r _ _ _ _ _ H Hk) as (ref & _ & Hr). split; [by eapply Hby|].
  eapply Hex; [|done|exact Hr]. apply Z.mod_pos_bound. lia.
Qed.

Lemma image_sum_u64 pages : zlen pages <= UINT32_MAX -> Forall bytes_ok pages -> is_u64 (image_sum (image_of pages)).
Proof.
  intros Hn Hok. unfold image_of. change 1 with (Z.of_nat 0 + 1). rewrite image_sum_pages by (unfold zlen in Hn; lia).
  by apply pages_xor_bound.
Qed.

(** C15. The rolling checksum is exact for a commit that does not shrink the
    database. Let the base be the checksum recovery computes for the file of the
    parent's pages [old], let the page map hold contributions of that image, and
    let the old pages the local file gives be its pages; let the commit keep or
    grow the database to [db] pages, writing every page it adds and none beyond.
    Then a checksum the publisher attaches to the commit is the one recovery
    computes from the commit's manifest, with its own page size and database
    size, for the file of the [db] pages after the frames; and base and page map
    are right for the next commit. (For a commit that shrinks the database
    [wal_publisher_shrink_corrupts] shows that it is not.) *)
Theorem wal_publisher_checksum_exact (read_at : otsardb_sqlite_wal_read_at)
    (db_read_at : option otsardb_sqlite_wal_read_at) (ps db : Z) (frames : list otsardb_sqlite_wal_frame_ref)
    (c c' : publish_scan_context) (hex cid : bytes) (inputs : list otsardb_segment_input)
    (refs : list otsardb_manifest_segment_ref) (old : list bytes) :
  roll_commit read_at db_read_at ps frames c = (Some hex, c') ->
  roll_start c = otsardb_checksum_file (concat old) ps (zlen old) ->
  map_tracks db_read_at (sc_publisher c) ps (rs_contribs (wp_sum (sc_publisher c))) (image_of old) ->
  0 <= ps -> Forall (fun page => bytes_ok page /\ zlen page = ps) old -> reads_exactly read_at -> reads_bytes read_at ->
  grows old (fr_page_no <$> frames) db -> db <= UINT32_MAX ->
  exists pages, frame_reads read_at ps frames = Some pages /\
    let new := new_pages old (zip (fr_page_no <$> frames) pages) db in
    zlen new = db /\ Forall (fun page => zlen page = ps) new /\
    RecoveryTheory.checksum_ok (concat new)
      (build_manifest (commit_request (sc_publisher c) ps db cid inputs (Some hex)) refs) /\
    hex <> [] /\ sc_checksum c' = otsardb_checksum_file (concat new) ps db /\
    map_tracks db_read_at (sc_publisher c) ps (rs_contribs (wp_sum (sc_publisher c'))) (image_of new).
Proof.
  intros H Hstart Hmap Hps Hold Hex Hby Hgrow Hdb. pose proof Hgrow as (Hle & Hpos & _). pose proof (zlen_nonneg old).
  assert (Forall (fun page => zlen page = ps) old) as Hsz by (eapply list.Forall_impl; [exact Hold|]; by intros ? []).
  rewrite checksum_file_image in Hstart by (done || lia).
  destruct (roll_commit_tracks _ _ _ _ _ _ _ (image_of old) H) as (pages & Hr & Hhex & Hsum & Hm); [|done|done|].
  { rewrite list.Forall_fmap in Hpos. eapply list.Forall_impl; [exact Hpos|]. intros ref [? _]. done. }
  exists pages. split; [done|]. apply frame_reads_pages in Hr as [Hlen Hpages]; [|done..].
  set (fs := zip (fr_page_no <$> frames) pages) in *. intros new.
  assert (fs.*1 = fr_page_no <$> frames) as E1 by (apply fst_zip; rewrite length_fmap; lia).
  assert (fs.*2 = pages) as E2 by (apply snd_zip; rewrite length_fmap; lia).
  rewrite <- E1 in Hgrow. assert (zlen new = db) as Hn by (apply zlen_new_pages; lia).
  assert (Forall (fun page => bytes_ok page /\ zlen page = ps) new) as Hnew
    by (apply new_pages_all; [done|done|by rewrite E2]).
  assert (Forall (fun page => zlen page = ps) new) as Hnsz by (eapply list.Forall_impl; [exact Hnew|]; by intros ? []).
  assert (Forall bytes_ok new) as Hnb by (eapply list.Forall_impl; [exact Hnew|]; by intros ? []).
  assert (write_pages fs (image_of old) = image_of new) as Eimg by (symmetry; apply new_pages_image; [done|lia]).
  rewrite Eimg in Hhex, Hsum, Hm. assert (otsardb_checksum_file (concat new) ps db = image_sum (image_of new)) as Ef.
  { rewrite <- Hn. apply checksum_file_image; [done|done|lia]. }
  assert (otsardb_checksum_parse hex = Some (image_sum (image_of new))) as Hparse.
  { rewrite Hhex. apply checksum_hex_roundtrip, image_sum_u64; [lia|done]. }
  split_and!; try done; [| |congruence].
  - right. cbn [build_manifest commit_request cm_post_apply_checksum cm_page_size cm_database_size_pages
      rq_post_apply_checksum rq_page_size rq_database_size_pages str_of]. rewrite Ef, <- Hparse. f_equal.
    unfold snprintf_s. apply take_ge. rewrite Hhex. pose proof (zlen_hex_loop 16 (image_sum (image_of new))) as Hz.
    unfold otsardb_checksum_hex, OTSARDB_CHECKSUM_HEX_SIZE. unfold zlen in Hz. lia.
  - intros ->. done.
Qed.

(** A parent of two pages at generation 1, which the local file holds and the
    publisher has verified; the commit rewrites page 1 and adds page 3. *)
Module RollSample.
Definition old : list bytes := [replicate 512 65; replicate 512 66].
Definition publisher : otsardb_wal_publisher :=
  set_base true (otsardb_checksum_file (concat old) 512 2) 512 2
    (set_verified true (set_head (mkHeadCache true 1 (str "c1") [] (str "e1")) genesis_publisher)).
Definition context : publish_scan_context := scan_context publisher.
Definition local_file : option otsardb_sqlite_wal_read_at := Some (memory_read_at (concat old)).
Definition wal : bytes := replicate 56 0 ++ replicate 512 67 ++ replicate 24 0 ++ replicate 512 68.
Definition frames : list otsardb_sqlite_wal_frame_ref := [mkFrameRef 1 32; mkFrameRef 3 (32 + 536)].
Abbreviation roll := (roll_commit (memory_read_at wal) local_file 512 frames context).
End RollSample.

Lemma roll_sample_pages (l : list bytes) : l = RollSample.old \/ l = [RollSample.wal] -> Forall bytes_ok l.
Proof.
  assert (forall w, forallb (fun b => (0 <=? b) && (b <? 256)) w = true -> bytes_ok w) as Hb.
  { intros w Hw. apply list.Forall_forall. intros x Hx. apply list_elem_of_In in Hx.
    rewrite forallb_forall in Hw. specialize (Hw x Hx). prop_bools. split; lia. }
  intros [->| ->]; repeat (constructor; [apply Hb; vm_compute; reflexivity|]); constructor.
Qed.

Lemma wal_publisher_checksum_exact_witness :
  RecoveryTheory.checksum_ok (replicate 512 67 ++ replicate 512 66 ++ replicate 512 68)
    (build_manifest (commit_request RollSample.publisher 512 3 (str "c2") [] (fst RollSample.roll)) []).
Proof.
  destruct (wal_publisher_checksum_exact (memory_read_at RollSample.wal) RollSample.local_file 512 3
    RollSample.frames RollSample.context (snd RollSample.roll) (default [] (fst RollSample.roll)) (str "c2") [] []
    RollSample.old) as (pages & Hr & H).
  - vm_compute. reflexivity.
  - vm_compute. reflexivity.
  - apply verified_tracks; [lia|repeat (constructor; [reflexivity|]); constructor|reflexivity..].
  - lia.
  - pose proof (roll_sample_pages RollSample.old (or_introl eq_refl)) as Hok.
    inversion Hok as [|? ? H1 Hok']; subst. inversion Hok' as [|? ? H2 _]; subst.
    constructor; [by split|]. constructor; [by split|]. constructor.
  - apply memory_reads_exactly.
  - apply sample_reads. pose proof (roll_sample_pages [RollSample.wal] (or_intror eq_refl)) as Hok.
    by inversion Hok.
  - split; [vm_compute; discriminate|]. split; [repeat (constructor; [vm_compute; split; [reflexivity|discriminate]|]); constructor|].
    intros n Hn. assert (n = 3) as -> by (unfold zlen in Hn; cbn in Hn; lia). vm_compute. right. left.
  - vm_compute. discriminate.
  - vm_compute in Hr. apply (inj Some) in Hr. subst pages. destruct H as (_ & _ & H & _).
    exact H.
Defined.

(** ** The fences *)

Section Fences.
Context `{HSha : Sha256} `{HLz4 : Lz4}.
Context {S : Type} (store : otsardb_object_store S) (view : S -> contents) (Hlaws : StoreLaws store view quiet).
Context (replica : replica_ops S) (e : environment) (after_object : bytes -> bytes).

(** A run that writes nothing, or only under one key. *)
Definition reads_only {A} (m : M S A) : Prop := forall s r s', m s = (r, s') -> view s' = view s.
Definition writes_only {A} (key : bytes) (m : M S A) : Prop :=
  forall s r s', m s = (r, s') -> forall k, k <> key -> view s' !! k = view s !! k.

Lemma only_reads_get key : reads_only (otsardb_store_get store key).
Proof. intros s r s' H. by destruct (get_law _ _ _ _ H). Qed.

Lemma only_reads_ret {A} (a : A) : reads_only (mret_ a).
Proof. intros s r s' H. unfold mret_ in H. by simplify_eq. Qed.

Lemma only_reads_bind {A B} (m : M S A) (k : A -> M S B) :
  reads_only m -> (forall a, reads_only (k a)) -> reads_only (mbind_ m k).
Proof.
  intros Hm Hk s r s' H. unfold mbind_ in H. destruct (m s) as [a s1] eqn:E.
  rewrite (Hk _ _ _ _ H). by eapply Hm.
Qed.

Lemma reads_rebase prev head p : reads_only (rebase_checksum store prev head p).
Proof.
  unfold rebase_checksum. destruct (_ <=? _); [apply only_reads_ret|]. apply only_reads_bind; [apply only_reads_get|].
  intros [err|ob]; [apply only_reads_ret|]. repeat (case_match; try apply only_reads_ret).
Qed.

Lemma rebase_keeps prev head p s rc p' s' : rebase_checksum store prev head p s = ((rc, p'), s') ->
  wp_head p' = wp_head p /\ ia_generation_known (wp_image p') = ia_generation_known (wp_image p) /\
  ia_generation (wp_image p') = ia_generation (wp_image p).
Proof.
  unfold rebase_checksum, mbind_, mret_. intros H.
  destruct (_ <=? _); [by simplify_eq|]. destruct (otsardb_store_get _ _ _) as [[err|ob] s1]; [by simplify_eq|].
  repeat case_match; by simplify_eq.
Qed.

(** The generation of HEAD a refresh adopts. *)
Lemma refresh_adopts p s rc p' s' hk ob h :
  build_head_key (wp_database_root p) (OTSARDB_KEY_MAX + 1) = Some hk ->
  view s !! hk = Some ob -> otsardb_head_decode_json (so_data ob) = Some h -> wp_dual_pending p = false ->
  refresh_head store p s = ((rc, p'), s') ->
  view s' = view s /\
  (rc = SQLITE_OK -> hc_generation (wp_head p') = hd_generation h /\
     ia_generation_known (wp_image p') = ia_generation_known (wp_image p) /\
     ia_generation (wp_image p') = ia_generation (wp_image p)).
Proof.
  intros Hk Hl Hd Hdual H. unfold refresh_head, mbind_ in H.
  destruct (otsardb_journal_read_head store (wp_database_root p) s) as [[rc1 res] s1] eqn:E.
  unfold otsardb_journal_read_head, mbind_, mret_ in E. rewrite Hk in E.
  destruct (otsardb_store_get store hk s) as [g s2] eqn:Eg. destruct (get_law _ _ _ _ Eg) as [Ev Hg].
  assert (s1 = s2) as -> by (repeat case_match; by simplify_eq).
  assert (rc1 <> OTSARDB_JOURNAL_NOT_FOUND) as Hnf.
  { intros ->. destruct g as [[]|ob']; try (repeat case_match; simplify_eq; done). by rewrite <- Ev, Hl in Hg. }
  assert (forall h' et, res = Some (h', et) -> h' = h) as Hres.
  { intros h' et ->. destruct g as [[]|ob']; try done. rewrite <- Ev, Hl in Hg. simplify_eq.
    rewrite Hd in E. repeat case_match; by simplify_eq. }
  destruct rc1; try done; try (unfold mret_ in H; simplify_eq; by rewrite Ev).
  destruct res as [[h' et]|]; [|unfold mret_ in H; simplify_eq; by rewrite Ev].
  specialize (Hres _ _ eq_refl) as ->.
  destruct (_ || _); [unfold mret_ in H; simplify_eq; by rewrite Ev|]. rewrite Hdual in H. cbn [andb negb] in H.
  rewrite andb_true_r in H. cbv zeta in H.
  match type of H with context [rebase_checksum _ _ _ ?x] => set (p3 := x) in H end.
  assert (hc_generation (wp_head p3) = hd_generation h /\
     ia_generation_known (wp_image p3) = ia_generation_known (wp_image p) /\
     ia_generation (wp_image p3) = ia_generation (wp_image p)) as H3.
  { subst p3. by destruct (_ && _). }
  clearbody p3. destruct (_ <=? 0); [unfold mret_ in H; simplify_eq; by rewrite Ev|].
  destruct (_ && _ && _); [unfold mret_ in H; simplify_eq; rewrite Ev; by split|].
  pose proof (reads_rebase _ _ _ _ _ _ H) as Hv. apply rebase_keeps in H as (E1 & E2 & E3).
  split; [congruence|]. intros _. rewrite E1, E2, E3. done.
Qed.

(** C16. The generation fence: when HEAD is newer than the image the local
    transactions were executed on, a sync of a WAL that is not empty fails, and
    nothing is written to the store. *)
Theorem wal_publisher_generation_fence lease_fence (p : otsardb_wal_publisher) (wal_size : Z)
    (read_at : otsardb_sqlite_wal_read_at) (db_read_at : option otsardb_sqlite_wal_read_at) s rc p' s' hk ob h :
  build_head_key (wp_database_root p) (OTSARDB_KEY_MAX + 1) = Some hk ->
  view s !! hk = Some ob -> otsardb_head_decode_json (so_data ob) = Some h -> wp_dual_pending p = false ->
  ia_generation_known (wp_image p) = true -> ia_generation (wp_image p) < hd_generation h -> wal_size <> 0 ->
  otsardb_wal_publisher_sync_reader store replica e after_object None lease_fence wal_size read_at db_read_at p s
    = ((rc, p'), s') ->
  rc <> SQLITE_OK /\ view s' = view s.
Proof.
  intros Hk Hl Hd Hdual Hknown Hlt Hsize H. unfold otsardb_wal_publisher_sync_reader in H. cbv zeta in H.
  destruct (Z.eqb_spec wal_size 0); [done|].
  destruct (otsardb_sqlite_wal_read_header read_at wal_size) as [header|]; [|unfold mret_ in H; by simplify_eq].
  unfold mbind_ in H. destruct (refresh_head store (set_conflict false p) s) as [[rc1 p1] s1] eqn:E.
  apply (refresh_adopts (set_conflict false p) s rc1 p1 s1 hk ob h) in E as [Ev Hok]; try done.
  destruct (Z.eqb_spec rc1 SQLITE_OK) as [->|Hne]; cbn [negb] in H; [|unfold mret_ in H; by simplify_eq].
  destruct (Hok eq_refl) as (E1 & E2 & E3). cbn in E2, E3. rewrite E1, E2, E3, Hknown in H.
  destruct (Z.ltb_spec (ia_generation (wp_image p)) (hd_generation h)); [|lia]. cbn [andb] in H.
  unfold mret_ in H. simplify_eq. done.
Qed.

Lemma reads_refresh p : reads_only (refresh_head store p).
Proof.
  unfold refresh_head. apply only_reads_bind.
  { unfold otsardb_journal_read_head. destruct (build_head_key _ _); [|apply only_reads_ret].
    apply only_reads_bind; [apply only_reads_get|]. intros [[]|ob]; repeat (case_match; try apply only_reads_ret); apply only_reads_ret. }
  intros [rc res]. destruct rc; try apply only_reads_ret. destruct res as [[h et]|]; [|apply only_reads_ret].
  destruct (_ || _); [apply only_reads_ret|]. cbv zeta. destruct (_ <=? 0); [apply only_reads_ret|].
  destruct (_ && _ && _); [apply only_reads_ret|apply reads_rebase].
Qed.

Lemma refresh_root p s rc p' s' :
  refresh_head store p s = ((rc, p'), s') -> wp_database_root p' = wp_database_root p.
Proof.
  unfold refresh_head, mbind_, mret_. intros H.
  destruct (otsardb_journal_read_head _ _ _) as [[[] [[h et]|]] s1]; try by simplify_eq.
  destruct (_ || _); [by simplify_eq|]. cbv zeta in H.
  match type of H with context [rebase_checksum _ _ _ ?x] => set (p3 := x) in H end.
  assert (wp_database_root p3 = wp_database_root p) as H3.
  { subst p3. by repeat destruct (_ && _). }
  clearbody p3. destruct (_ <=? 0); [by simplify_eq|]. destruct (_ && _ && _); [by simplify_eq|].
  unfold rebase_checksum, mbind_, mret_ in H. destruct (_ <=? _); [by simplify_eq|].
  destruct (otsardb_store_get _ _ _) as [[err|ob] s2]; [by simplify_eq|]. repeat case_match; by simplify_eq.
Qed.

Lemma reads_writes {A} key (m : M S A) : reads_only m -> writes_only key m.
Proof. intros H s r s' E k _. by rewrite (H _ _ _ E). Qed.

Lemma writes_bind {A B} key (m : M S A) (k : A -> M S B) :
  writes_only key m -> (forall a, writes_only key (k a)) -> writes_only key (mbind_ m k).
Proof.
  intros Hm Hk s r s' H q Hq. unfold mbind_ in H. destruct (m s) as [a s1] eqn:E.
  rewrite (Hk _ _ _ _ H q Hq). by eapply Hm.
Qed.

Lemma writes_put key data o : writes_only key (otsardb_store_put store key data o).
Proof.
  intros s r s' H k Hk. destruct (put_law _ _ _ _ _ _ H) as (w & -> & Hr).
  assert (forall et, stored w (view s') key data et -> view s' !! k = w !! k) as Hst.
  { intros et (ob & _ & _ & ->). by rewrite lookup_insert_ne. }
  destruct r as [[]|et]; first [by rewrite Hr|by destruct Hr as [_ ->]|destruct Hr as [_ Hr]; by eapply Hst|
    destruct Hr as [->|[_ Hr]]; [done|by eapply Hst]].
Qed.

Lemma writes_metadata p page_size key : build_key (wp_database_root p) (OTSARDB_METADATA_KEY_MAX + 1) = Some key ->
  writes_only key (ensure_metadata store p page_size).
Proof.
  intros Hk. unfold ensure_metadata. destruct (wp_metadata_ready p); [apply reads_writes, only_reads_ret|].
  assert (forall json o, writes_only key (metadata_put store key json o)) as Hput.
  { intros json o. unfold metadata_put. apply writes_bind; [apply writes_put|].
    intros [[]|et]; apply reads_writes, only_reads_ret. }
  apply writes_bind.
  { unfold otsardb_db_metadata_create. rewrite Hk.
    destruct (otsardb_db_metadata_encode_json _); [|apply reads_writes, only_reads_ret].
    destruct (otsardb_store_supports _ _); [apply Hput|]. apply writes_bind; [apply reads_writes, only_reads_get|].
    intros [[]|ob]; try apply Hput; apply reads_writes, only_reads_ret. }
  intros rc. destruct rc; try apply reads_writes, only_reads_ret. apply reads_writes, only_reads_bind.
  { unfold otsardb_db_metadata_read. rewrite Hk. apply only_reads_bind; [apply only_reads_get|].
    intros [[]|ob]; try apply only_reads_ret. destruct (otsardb_db_metadata_decode_json _); apply only_reads_ret. }
  intros [rc' res]. repeat (case_match; try apply only_reads_ret); apply only_reads_ret.
Qed.

Section Lease.
Context (fence : M S bool) (Hdead : forall s, fst (fence s) = false) (Hreads : reads_only fence).
Context (read_at : otsardb_sqlite_wal_read_at) (db_read_at : option otsardb_sqlite_wal_read_at).

(** Without the lease a commit stops at the fence. *)
Lemma one_commit_fenced key page_size db frames c s rc c' s' :
  build_key (wp_database_root (sc_publisher c)) (OTSARDB_METADATA_KEY_MAX + 1) = Some key ->
  publish_one_commit store replica e after_object None (Some fence) read_at db_read_at page_size db frames c s
    = ((rc, c'), s') ->
  rc <> 0 /\ forall k, k <> key -> view s' !! k = view s !! k.
Proof.
  intros Hk H. unfold publish_one_commit, mbind_ at 1 in H.
  destruct (ensure_metadata store _ page_size s) as [[rc1 p1] s1] eqn:E1.
  apply (writes_metadata _ _ _ Hk) in E1.
  destruct (rc1 =? SQLITE_OK); cbn [negb] in H; [|unfold mret_, fail_commit in H; by simplify_eq].
  destruct (commit_inputs _ _ _ _ _) as [rc2|inputs]; [unfold mret_, fail_commit in H; by simplify_eq|].
  cbv zeta in H. unfold mbind_ at 1 in H. destruct (fence s1) as [live s2] eqn:Ef.
  pose proof (Hdead s1) as Hd. rewrite Ef in Hd. cbn in Hd. subst live. cbn [negb] in H.
  unfold mret_, fail_commit in H. simplify_eq. split; [done|]. intros k Hne. rewrite (Hreads _ _ _ Ef). by apply E1.
Qed.

Lemma sync_publish_fenced key wal_size p s rc p' s' : reads_bytes read_at ->
  build_key (wp_database_root p) (OTSARDB_METADATA_KEY_MAX + 1) = Some key ->
  sync_publish store replica e after_object None (Some fence) wal_size read_at db_read_at p s = ((rc, p'), s') ->
  forall k, k <> key -> view s' !! k = view s !! k.
Proof.
  intros Hread Hk H. unfold sync_publish in H. set (p1 := if _ && _ && _ then _ else p) in H.
  assert (wp_database_root p1 = wp_database_root p) as Hroot by (subst p1; by destruct (_ && _ && _)).
  clearbody p1. rewrite <- Hroot in Hk.
  destruct (otsardb_sqlite_wal_scan_reader _ _ _ _ _ _) as [[[ok cursor] [c s1]] res] eqn:Escan.
  simplify_eq.
  eapply (scan_reader_good read_at Hread _ (wh_page_size (wc_header (wl_cursor (wp_wal p1))))
    (fun cs => wp_database_root (sc_publisher (fst cs)) = wp_database_root p1 /\
               forall k, k <> key -> view (snd cs) !! k = view s !! k)
    (fun cs => forall k, k <> key -> view (snd cs) !! k = view s !! k)) in Escan as [Ha _];
    [exact Ha|by intros ? [_ ?]| |reflexivity|by split].
  intros db refs [c0 s0] _ _ [Hr Hv]. cbn [fst snd] in *. unfold call_back, sync_callback. cbn [fst snd].
  destruct (publish_one_commit _ _ _ _ _ _ _ _ _ _ _ _ _) as [[rc0 c1] s2] eqn:E.
  apply (one_commit_fenced key) in E as [Hne Hw]; [|by rewrite Hr]. cbn [fst snd].
  split; [|done]. intros k Hkk. rewrite Hw by done. by apply Hv.
Qed.
End Lease.

(** C17. The lease fence: a writer whose lease is not live publishes nothing. A
    sync that runs while the fence answers no leaves every object as it was,
    except perhaps the database record [db.json]. *)
Theorem wal_publisher_lease_fence fence (p : otsardb_wal_publisher) (wal_size : Z)
    (read_at : otsardb_sqlite_wal_read_at) (db_read_at : option otsardb_sqlite_wal_read_at) s rc p' s' key :
  (forall s, fst (fence s) = false) -> reads_only fence -> reads_bytes read_at ->
  build_key (wp_database_root p) (OTSARDB_METADATA_KEY_MAX + 1) = Some key ->
  otsardb_wal_publisher_sync_reader store replica e after_object None (Some fence) wal_size read_at db_read_at p s
    = ((rc, p'), s') ->
  forall k, k <> key -> view s' !! k = view s !! k.
Proof.
  intros Hdead Hreads Hread Hk H. unfold otsardb_wal_publisher_sync_reader in H. cbv zeta in H.
  destruct (wal_size =? 0); [unfold mret_ in H; by simplify_eq|].
  destruct (otsardb_sqlite_wal_read_header read_at wal_size) as [header|]; [|unfold mret_ in H; by simplify_eq].
  unfold mbind_ in H. destruct (refresh_head store (set_conflict false p) s) as [[rc1 p1] s1] eqn:E.
  pose proof (refresh_root _ _ _ _ _ E) as Hroot. apply reads_refresh in E. rewrite <- E. clear E.
  destruct (rc1 =? SQLITE_OK); cbn [negb] in H; [|unfold mret_ in H; by simplify_eq].
  destruct (_ && _); [unfold mret_ in H; by simplify_eq|].
  destruct (_ || _); [|by eapply sync_publish_fenced; [exact Hdead|exact Hreads|exact Hread| |exact H]; rewrite Hroot].
  destruct (rebuild_cursor_from_head _ _ _ _) as [rc2 p2] eqn:Er.
  assert (wp_database_root p2 = wp_database_root p1) as Hroot2.
  { unfold rebuild_cursor_from_head in Er. repeat case_match; by simplify_eq. }
  destruct (rc2 =? SQLITE_OK); cbn [negb] in H; [|unfold mret_ in H; by simplify_eq].
  eapply sync_publish_fenced; [exact Hdead|exact Hreads|exact Hread| |exact H]. by rewrite Hroot2, Hroot.
Qed.
End Fences.

(** ** A database written by a WAL *)

Module PublisherSample.
(** The header of a WAL with pages of 512 bytes and salts 1 and 2. *)
Definition wal_head : bytes :=
  let h := be32 OTSARDB_SQLITE_WAL_MAGIC_LE ++ be32 3007000 ++ be32 512 ++ be32 0 ++ be32 1 ++ be32 2 in
  let s := checksum_bytes h 24 false (0, 0) in h ++ be32 s.1 ++ be32 s.2.
Definition header : otsardb_sqlite_wal_header :=
  Eval vm_compute in default demo_wal_header (otsardb_sqlite_wal_read_header (memory_read_at wal_head) 32).
(** Frames: the page, the size of the database at a commit, the byte it is filled with. *)
Definition wal (frames : list (Z * Z * Z)) : bytes :=
  fst (foldl (fun w '(n, db, b) => wal_append header w n db (RecoverySample.page b))
         (wal_head, (wh_checksum0 header, wh_checksum1 header)) frames).
Definition one : bytes := Eval vm_compute in wal [(1, 1, 65)].
Definition shrinking : bytes := Eval vm_compute in wal [(1, 0, 65); (2, 2, 66); (1, 1, 67)].

Definition no_replica : replica_ops mem :=
  mkReplicaOps false (fun _ _ s => (false, s)) (fun _ _ _ _ _ s => (Some OTSARDB_JOURNAL_ERROR, s))
    (fun _ _ _ _ _ _ s => (tt, s)) (fun _ s => (Some OTSARDB_JOURNAL_ERROR, s)).
Definition one_try : environment := mkEnvironment (Some (str "1")) None.
Definition lease_lost : M mem bool := fun s => (false, s).

Abbreviation store := (mem_store CAPS_ALL).
Abbreviation sync fence w p s :=
  (otsardb_wal_publisher_sync_reader (HSha := RecoverySample.sum_sha256) (HLz4 := zero_lz4) store no_replica
     one_try (fun x => x) None fence (zlen w) (memory_read_at w) None p s).
Abbreviation restore s :=
  (otsardb_recovery_restore_store_ex (HSha := RecoverySample.sum_sha256) (HLz4 := zero_lz4) store (str "db")
     (str "x.db") None (s, no_files)).

(** The store fails the upload of the segment once. *)
Definition failing : mem := mkMem ∅ 0 0 [F_none; F_none; F_fail OTSARDB_STORE_ERROR].
(** The states after the syncs. *)
Definition good : Z * otsardb_wal_publisher * mem := Eval vm_compute in sync None one genesis_publisher mem_empty.
Definition failed : Z * otsardb_wal_publisher * mem := Eval vm_compute in sync None one genesis_publisher failing.
Definition again : Z * otsardb_wal_publisher * mem :=
  Eval vm_compute in sync None one (snd (fst failed)) (snd failed).
Definition shrunk : Z * otsardb_wal_publisher * mem :=
  Eval vm_compute in sync None shrinking genesis_publisher mem_empty.
End PublisherSample.

(** ** The promises on the sample *)

Lemma sample_one_ok : bytes_ok PublisherSample.one.
Proof.
  apply list.Forall_forall. intros x Hx. apply list_elem_of_In in Hx.
  assert (forallb (fun b => (0 <=? b) && (b <? 256)) PublisherSample.one = true) as H by (vm_compute; reflexivity).
  rewrite forallb_forall in H. specialize (H x Hx). prop_bools. split; lia.
Qed.

Lemma sample_quiet root : forall v w : contents, quiet v w -> safe_step (HSha := RecoverySample.sum_sha256) root v w.
Proof. intros v w ->. reflexivity. Qed.

Lemma sample_fence root : forall fence, @None (M mem bool) = Some fence ->
  safe (HSha := RecoverySample.sum_sha256) m_objects root fence.
Proof. done. Qed.

Lemma genesis_ok : pub_ok (str "db") (str "db-1") genesis_publisher.
Proof. unfold pub_ok. repeat split; try reflexivity; try (vm_compute; discriminate). by left. Qed.

Lemma wal_publisher_sync_safe_witness :
  pub_ok (str "db") (str "db-1") (snd (fst PublisherSample.failed)) /\
  head_closed (HSha := RecoverySample.sum_sha256) (str "db") (m_objects (snd PublisherSample.failed)).
Proof.
  destruct (wal_publisher_sync_safe (HSha := RecoverySample.sum_sha256) (HLz4 := zero_lz4) PublisherSample.store
    m_objects quiet PublisherSample.no_replica PublisherSample.one_try (fun x => x) None
    (mem_store_laws CAPS_ALL) (mem_stream_law CAPS_ALL) (str "db") (str "db-1") (zlen PublisherSample.one)
    (memory_read_at PublisherSample.one) None genesis_publisher PublisherSample.failing
    (fst (fst PublisherSample.failed)) (snd (fst PublisherSample.failed)) (snd PublisherSample.failed))
    as (Hp & Hh & _).
  - apply sample_quiet.
  - reflexivity.
  - reflexivity.
  - reflexivity.
  - reflexivity.
  - apply sample_fence.
  - apply sample_reads, sample_one_ok.
  - apply genesis_ok.
  - vm_compute. discriminate.
  - vm_equal.
  - split; [exact Hp|]. apply Hh. intros hk ob h _ Hl. cbn [m_objects PublisherSample.failing] in Hl.
    rewrite lookup_empty in Hl. discriminate.
Defined.

(** Stores whose operations never fail. *)
Module CalmSample.
Definition calm {A} (m : M mem A) : M mem A := fun s => m (mkMem (m_objects s) (m_next_version s) (m_now s) []).
Definition store : otsardb_object_store mem :=
  mkStore (Some (fun k => calm (mem_get k))) (Some (fun k o n => calm (mem_get_range k o n)))
    (Some (fun k d o => calm (mem_put CAPS_ALL k d o))) (Some (fun k l n o => calm (mem_put_stream CAPS_ALL k l n o)))
    (Some (fun k => calm (mem_delete k))) (Some (fun p => calm (mem_list p))) CAPS_ALL.

#[export] Instance store_laws : StoreLaws store m_objects quiet.
Proof.
  split.
  - intros key s r s' H. exact (get_law (StoreLaws := mem_store_laws CAPS_ALL) key _ r s' H).
  - intros key data o s r s' H. exact (put_law (StoreLaws := mem_store_laws CAPS_ALL) key data o _ r s' H).
  - intros key s r s' H. exact (delete_law (StoreLaws := mem_store_laws CAPS_ALL) key _ r s' H).
Qed.

#[export] Instance stream_laws : StreamLaw store m_objects quiet.
Proof.
  split. intros key source o s r s' H. exact (stream_law (StreamLaw := mem_stream_law CAPS_ALL) key source o _ r s' H).
Qed.

Lemma no_timeout : never_times_out store.
Proof.
  intros key data o s e s' H. cbn in H. unfold calm, mem_put, mem_pop, mem_perform_put, mem_write in H.
  cbn in H. repeat case_match; by simplify_eq.
Qed.

(** A writer has published page 1; its WAL then grows by a transaction that
    rewrites page 1 and appends pages 2 and 3. *)
Definition grown : bytes := Eval vm_compute in PublisherSample.wal [(1, 1, 65); (2, 0, 66); (1, 0, 67); (3, 3, 68)].
Abbreviation sync w p s :=
  (otsardb_wal_publisher_sync_reader (HSha := RecoverySample.sum_sha256) (HLz4 := zero_lz4) store
     PublisherSample.no_replica PublisherSample.one_try (fun x => x) None None (zlen w) (memory_read_at w) None p s).
Definition first : Z * otsardb_wal_publisher * mem :=
  Eval vm_compute in sync PublisherSample.one genesis_publisher mem_empty.
Definition second : Z * otsardb_wal_publisher * mem :=
  Eval vm_compute in sync grown (snd (fst first)) (snd first).
Definition tx : Z * list otsardb_sqlite_wal_frame_ref :=
  (3, [mkFrameRef 2 (32 + 536); mkFrameRef 1 (32 + 2 * 536); mkFrameRef 3 (32 + 3 * 536)]).
End CalmSample.

Lemma sample_grown_ok : bytes_ok CalmSample.grown.
Proof.
  apply list.Forall_forall. intros x Hx. apply list_elem_of_In in Hx.
  assert (forallb (fun b => (0 <=? b) && (b <? 256)) CalmSample.grown = true) as H by (vm_compute; reflexivity).
  rewrite forallb_forall in H. specialize (H x Hx). prop_bools. split; lia.
Qed.

Lemma calm_first_ok : pub_ok (str "db") (str "db-1") (snd (fst CalmSample.first)).
Proof.
  unfold pub_ok, cache_ok. repeat split; try (vm_compute; reflexivity); try (vm_compute; discriminate).
  right. split; vm_compute; discriminate.
Qed.

Lemma wal_publisher_acks_durable_witness :
  exists v1, committed_tx (HSha := RecoverySample.sum_sha256) (HLz4 := zero_lz4) (str "db")
    (memory_read_at CalmSample.grown) (wal_commit_id 1 2 2) 512 CalmSample.tx v1 (m_objects (snd CalmSample.second)).
Proof.
  destruct (wal_publisher_acks_durable (HSha := RecoverySample.sum_sha256) (HLz4 := zero_lz4) CalmSample.store
    m_objects quiet PublisherSample.no_replica PublisherSample.one_try (fun x => x) None
    CalmSample.store_laws CalmSample.stream_laws (str "db") (str "db-1") (zlen CalmSample.grown)
    (memory_read_at CalmSample.grown) None (snd (fst CalmSample.first)) (snd CalmSample.first)
    (snd (fst CalmSample.second)) (snd CalmSample.second))
    as (header & v1 & cursor & n & txs & res & Hh & _ & _ & Hst & Hrec & Hall).
  - apply sample_quiet.
  - reflexivity.
  - reflexivity.
  - reflexivity.
  - reflexivity.
  - apply sample_fence.
  - apply sample_reads, sample_grown_ok.
  - apply calm_first_ok.
  - vm_compute. discriminate.
  - reflexivity.
  - vm_compute. discriminate.
  - vm_equal.
  - exists v1.
    assert (header = PublisherSample.header) as ->
      by (apply (inj Some); rewrite <- Hh; vm_compute; reflexivity).
    assert (resumes (zlen CalmSample.grown) (snd (fst CalmSample.first)) PublisherSample.header = true) as Hres
      by (vm_compute; reflexivity).
    destruct (sync_start_kept _ _ _ _ _ _ _ _ _ Hres Hst) as [-> ->].
    assert (txs = [CalmSample.tx]) as ->.
    { apply (f_equal (fun x => snd (fst x))) in Hrec. cbn [fst snd] in Hrec. rewrite <- Hrec. vm_compute. reflexivity. }
    destruct (Hall ltac:(vm_compute; discriminate)) as [_ Htx]. destruct (Htx 0%nat CalmSample.tx eq_refl) as [_ Hc].
    apply Hc; [apply zero_lz4_laws|apply CalmSample.no_timeout|apply memory_reads_exactly|].
    split; [vm_compute; discriminate|]. repeat (constructor; [vm_compute; discriminate|]). constructor.
Defined.

(** HEAD is at generation 1, the local image at generation 0. *)
Definition stale_publisher : otsardb_wal_publisher :=
  otsardb_wal_publisher_set_local_image_generation 0 genesis_publisher.
Definition sample_head : otsardb_store_object :=
  Eval vm_compute in default (mkObject [] None 0) (m_objects (snd PublisherSample.good) !! str "db/HEAD.json").
Definition sample_head_record : otsardb_head :=
  Eval vm_compute in default (mkHead 0 0 [] [] [] []) (otsardb_head_decode_json (so_data sample_head)).
Abbreviation stale_run := (PublisherSample.sync None PublisherSample.one stale_publisher (snd PublisherSample.good)).

Lemma wal_publisher_generation_fence_witness :
  fst (fst stale_run) <> SQLITE_OK /\ m_objects (snd stale_run) = m_objects (snd PublisherSample.good).
Proof.
  apply (wal_publisher_generation_fence (HSha := RecoverySample.sum_sha256) (HLz4 := zero_lz4) PublisherSample.store
    m_objects (mem_store_laws CAPS_ALL) PublisherSample.no_replica PublisherSample.one_try (fun x => x) None
    stale_publisher (zlen PublisherSample.one) (memory_read_at PublisherSample.one) None
    (snd PublisherSample.good) (fst (fst stale_run)) (snd (fst stale_run)) (snd stale_run)
    (str "db/HEAD.json") sample_head sample_head_record).
  - reflexivity.
  - vm_compute. reflexivity.
  - vm_compute. reflexivity.
  - reflexivity.
  - reflexivity.
  - reflexivity.
  - vm_compute. discriminate.
  - rewrite <- (surjective_pairing (fst stale_run)). apply surjective_pairing.
Defined.

Abbreviation lease_run :=
  (PublisherSample.sync (Some PublisherSample.lease_lost) PublisherSample.one genesis_publisher mem_empty).

Lemma wal_publisher_lease_fence_witness :
  m_objects (snd lease_run) !! str "db/HEAD.json" = None.
Proof.
  rewrite <- (lookup_empty (M := gmap bytes) (A := otsardb_store_object) (str "db/HEAD.json")).
  apply (wal_publisher_lease_fence (HSha := RecoverySample.sum_sha256) (HLz4 := zero_lz4) PublisherSample.store
    m_objects (mem_store_laws CAPS_ALL) PublisherSample.no_replica PublisherSample.one_try (fun x => x)
    PublisherSample.lease_lost genesis_publisher (zlen PublisherSample.one)
    (memory_read_at PublisherSample.one) None mem_empty (fst (fst lease_run)) (snd (fst lease_run))
    (snd lease_run) (str "db/db.json")).
  - reflexivity.
  - intros s r s' H. unfold PublisherSample.lease_lost in H. by injection H as <- <-.
  - apply sample_reads, sample_one_ok.
  - reflexivity.
  - rewrite <- (surjective_pairing (fst lease_run)). apply surjective_pairing.
  - vm_compute. discriminate.
Defined.

(** A failed sync leaves the page map ahead of the store: when the upload of
    a first commit fails and the next sync of the same WAL succeeds, the
    published checksum takes out page contributions that were never published,
    and the database cannot be restored; without the failure it can. *)
Theorem wal_publisher_failed_sync_corrupts :
  exists p1 s1 p2 s2 p3 s3,
    PublisherSample.sync None PublisherSample.one genesis_publisher PublisherSample.failing
      = ((SQLITE_IOERR_WRITE, p1), s1) /\
    PublisherSample.sync None PublisherSample.one p1 s1 = ((SQLITE_OK, p2), s2) /\
    fst (PublisherSample.restore s2) = false /\
    PublisherSample.sync None PublisherSample.one genesis_publisher mem_empty = ((SQLITE_OK, p3), s3) /\
    fst (PublisherSample.restore s3) = true.
Proof.
  exists (snd (fst PublisherSample.failed)), (snd PublisherSample.failed),
    (snd (fst PublisherSample.again)), (snd PublisherSample.again),
    (snd (fst PublisherSample.good)), (snd PublisherSample.good).
  split_and!; vm_equal.
Qed.

(** A transaction that shrinks the database corrupts the checksum: the
    contributions of the pages beyond the new size are never taken out, so the
    sync succeeds and the database cannot be restored. *)
Theorem wal_publisher_shrink_corrupts :
  exists p s, PublisherSample.sync None PublisherSample.shrinking genesis_publisher mem_empty
      = ((SQLITE_OK, p), s) /\
    fst (PublisherSample.restore s) = false.
Proof.
  exists (snd (fst PublisherSample.shrunk)), (snd PublisherSample.shrunk). split; vm_equal.
Qed.
