(* ===== verification/WalPublisherRetry.v ===== *)
(** * The WAL publisher: the explicit retry (wal_publisher.c)

    [otsardb_wal_publisher_retry_publish]: after a conflict on disjoint pages the
    local image is materialised at the new HEAD and the frames of the failed
    commit are published again on top of it, under a fresh commit identity. *)

From stdpp Require Import sorting.
From S2P Require Import Prelude CText ObjectStore Journal Codec WalBatch Sha256 Segment.
From S2P Require Import Checksum SqliteWal DbMetadata CommitManifest CommitPublish CommitResolve Cipher.
From S2P Require Import LocalFile Recovery WalPublisher.
From S2P Require Import CommitPublishTheory CommitResolveTheory RecoveryTheory RecoveryRestore WalPublisherSafety.
From S2P Require Import WalPublisherTheory WalPublisherProps CipherTheory RecoveryProps SegmentTheory SqliteWalTheory.

(** A read at an offset of an open file; a read past its end is short. *)
Definition retry_file_read_at (file : bytes) : otsardb_sqlite_wal_read_at := fun offset size =>
  if 2 ^ 63 - 1 <? offset then None else memory_read_at file offset size.

Definition retry_build_page_set (frames : list otsardb_sqlite_wal_frame_ref) : list Z :=
  page_set (fr_page_no <$> frames).

Section Retry.
Context `{HSha : Sha256} `{HLz4 : Lz4} `{HA : Aead}.
Context {S : Type} (store : otsardb_object_store S) (replica : replica_ops S) (env : environment).
Context (after_object : bytes -> bytes) (thread_cipher : option otsardb_cipher) (thread_key : option bytes).
Context (lease_fence : option (M S bool)).

(** Whether the commits since the parent touch our pages; [None] when the chain
    cannot be classified. *)
Definition retry_conflict_check (p : otsardb_wal_publisher) (parent_generation : Z)
    (parent_commit_id parent_manifest_sha256 : bytes) (our_pages : list Z) : M S (option bool) :=
  let genesis := parent_generation =? 0 in
  let request :=
    mkRequest (wp_database_root p) (wp_database_id p)
      (match parent_commit_id with [] => str "otsardb-retry-check" | id => id end)
      (if genesis then None else Some parent_commit_id)
      (if genesis then None else Some parent_manifest_sha256)
      parent_generation 0 0 None (Some [mkSegmentInput [] (Some our_pages)]) 1 None None genesis
      OTSARDB_WRITE_STRATEGY_DEFAULT None in
  let! (rc, state, overlap) :=
    otsardb_publish_commit_detect_conflict store after_object (wp_database_root p) request in
  return! match rc with OTSARDB_JOURNAL_OK => Some overlap | _ => None end.

(** The publication of the frames again; the index is one above the index the
    failed attempt used. *)
Definition republish (page_size database_size_pages : Z) (frames : list otsardb_sqlite_wal_frame_ref)
    (wal db : bytes) (p : otsardb_wal_publisher) : M S (Z * otsardb_wal_publisher) :=
  let ctx := mkScanContext p (u32 (wl_published_commit_count (wp_wal p) + 1)) SQLITE_OK
               (if rs_known (wp_sum p) then rs_checksum (wp_sum p) else 0) (rs_known (wp_sum p)) in
  let! (rc, c) := publish_one_commit store replica env after_object thread_cipher lease_fence
                    (retry_file_read_at wal) (Some (retry_file_read_at db)) page_size database_size_pages
                    frames ctx in
  return! (if (rc =? 0) && (sc_sqlite_rc c =? SQLITE_OK) then 1
           else if sc_sqlite_rc c =? SQLITE_BUSY_SNAPSHOT then -1 else -2, sc_publisher c).

(** Returns 1 (published), 0 (HEAD unchanged), -1 (overlap) or -2. *)
Definition otsardb_wal_publisher_retry_publish (local_db_path : bytes) (page_size database_size_pages : Z)
    (frames : list otsardb_sqlite_wal_frame_ref) (p : otsardb_wal_publisher)
  : M (S * local) (Z * otsardb_wal_publisher) :=
  if (zlen (wp_database_root p) =? 0) || (zlen local_db_path =? 0) || (page_size =? 0) ||
     (database_size_pages =? 0) || (zlen frames =? 0)
  then return! (-2, p)
  else
    let attempt := wp_head p in
    let! (rc, p) := on_store (refresh_head store p) in
    if negb (rc =? SQLITE_OK) then return! (-2, p)
    else if (hc_generation (wp_head p) =? hc_generation attempt) &&
            bytes_eqb (hc_commit_id (wp_head p)) (hc_commit_id attempt)
    then return! (0, p)
    else
      let! checked := on_store (retry_conflict_check p (hc_generation attempt) (hc_commit_id attempt)
                                  (hc_manifest_sha256 attempt) (retry_build_page_set frames)) in
      match checked with
      | None => return! (-2, p)
      | Some true => return! (-1, p)
      | Some false =>
          let! restored := otsardb_recovery_restore_store store thread_key (wp_database_root p) local_db_path in
          if negb restored then return! (-2, p)
          else
            let p := page_map_clear (set_verified true p) in
            let wal_path := local_db_path ++ str "-wal" in
            if OTSARDB_KEY_MAX + 1 <=? zlen wal_path then return! (-2, p)
            else
              let! wal := on_files (fopen_read wal_path) in
              match wal with
              | None => return! (-2, p)
              | Some wal =>
                  let! db := on_files (fopen_read local_db_path) in
                  match db with
                  | None => return! (-2, p)
                  | Some db => on_store (republish page_size database_size_pages frames wal db p)
                  end
              end
      end.
End Retry.

(** ** What the retry promises *)

Section Outcomes.
Context `{HSha : Sha256} `{HLz4 : Lz4} `{HA : Aead}.
Context {S : Type} (store : otsardb_object_store S) (view : S -> contents).
Context (Hlaws : StoreLaws store view quiet) (Hstream : StreamLaw store view quiet).
Context (Hlist : forall p s r s', otsardb_store_list store p s = (r, s') -> view s' = view s).
Context (root id : bytes).
Context (Hcreate : otsardb_store_supports store OTSARDB_STORE_CAP_CONDITIONAL_CREATE = true).
Context (Hroot : text_ok root = true) (Hid : text_ok id = true).
Context (replica : replica_ops S) (Hreplica : rp_configured replica = false).
Context (e : environment) (after_object : bytes -> bytes) (thread_key : option bytes)
        (lease_fence : option (M S bool)).
Context (Hfence : forall fence, lease_fence = Some fence -> safe view root fence).

Lemma quiet_steps : forall v w : contents, quiet v w -> safe_step root v w.
Proof. intros v w ->. reflexivity. Qed.

(** The identity of the second attempt. *)
Definition retry_id (p : otsardb_wal_publisher) : bytes :=
  wal_commit_id (wl_salt1 (wp_wal p)) (wl_salt2 (wp_wal p))
    (u32 (u32 (wl_published_commit_count (wp_wal p) + 1) + 1)).

Lemma republish_ok ps db frames wal file p s r p' s' :
  pub_ok root id p -> 512 <= ps <= 65536 -> is_u32 db -> Forall (fun ref => is_u32 (fr_page_no ref)) frames ->
  republish store replica e after_object None lease_fence ps db frames wal file p s = ((r, p'), s') ->
  safe_step root (view s) (view s') /\ pub_ok root id p' /\ r <> 0 /\
  (r = 1 -> committed root (retry_id p) (view s) (view s')).
Proof.
  intros Hp Hps Hdb Hf H. unfold republish, mbind_, mret_ in H.
  destruct (publish_one_commit _ _ _ _ _ _ _ _ _ _ _ _ _) as [[rc c] s1] eqn:E.
  apply (publish_one_commit_ok store view quiet Hlaws Hstream root id quiet_steps Hcreate Hroot Hid replica Hreplica
    e after_object lease_fence Hfence) in E as (Hs & Hp' & _ & _ & Hc); [|done..].
  cbn [fst snd] in *. simplify_eq. split; [done|]. split; [done|].
  destruct (Z.eqb_spec rc 0) as [->|]; cbn [andb].
  - destruct Hc as [_ [Hc _]]. destruct (_ =? SQLITE_OK); [split; [done|]; intros _; exact Hc|].
    by destruct (_ =? SQLITE_BUSY_SNAPSHOT).
  - by destruct (_ =? SQLITE_BUSY_SNAPSHOT).
Qed.

Lemma open_read_files path l r l' : fopen_read path l = (r, l') -> l_files l' = l_files l.
Proof.
  unfold fopen_read, io_call, io_pop, file_of, mbind_, mret_. destruct (l_faults l) as [|[]]; intros H; by simplify_eq.
Qed.

Lemma reads_conflict_check p gen pid sha pages :
  reads_only view (retry_conflict_check store after_object p gen pid sha pages).
Proof.
  intros s r s' H. unfold retry_conflict_check, mbind_, mret_ in H.
  destruct (otsardb_publish_commit_detect_conflict _ _ _ _ _) as [[[rc st] ov] s1] eqn:E. simplify_eq.
  unfold otsardb_publish_commit_detect_conflict in E. unfold mret_ in E.
  destruct (_ || _ || _); [by simplify_eq|].
  destruct (resolve_segment_inputs _) as [[inputs n]|]; [|by simplify_eq].
  destruct (negb _); [by simplify_eq|].
  fold (mret_ (S := S) (A := otsardb_journal_result * otsardb_commit_state * bool)) in E.
  by apply (classify_sound store view quiet Hlaws after_object (wp_database_root p)) in E as [<- _].
Qed.

(** An early return. *)
Lemma retry_stopped path (p p1 p' : otsardb_wal_publisher) s (l : local) (s1 s' : S) (l1 l' : local) (r0 r : Z) :
  mret_ (r0, p1) (s1, l1) = ((r, p'), (s', l')) ->
  pub_ok root id p1 -> view s1 = view s -> (forall f, f <> path -> l_files l1 !! f = l_files l !! f) ->
  (r0 = 0 -> l1 = l) -> r0 <> 1 ->
  safe_step root (view s) (view s') /\ pub_ok root id p' /\
  (forall f, f <> path -> l_files l' !! f = l_files l !! f) /\
  (r = 0 -> view s' = view s /\ l' = l) /\
  (r = 1 -> committed root (retry_id p) (view s) (view s')).
Proof.
  unfold mret_. intros H Hp Hv Hf H0 H1. injection H as <- <- <- <-. rewrite Hv.
  split; [reflexivity|]. split; [done|]. split; [done|]. split; [auto|]. intros E. by destruct H1.
Qed.

(** The explicit retry keeps its promises: it is a safe step of the store
    that touches no local file but the database; when it reports that HEAD did
    not move nothing changed; and when it reports success HEAD was seen with
    the fresh commit on its chain. *)
Theorem wal_publisher_retry_outcomes (path : bytes) (ps db : Z) (frames : list otsardb_sqlite_wal_frame_ref)
    (p p' : otsardb_wal_publisher) s l r s' l' :
  pub_ok root id p -> 512 <= ps <= 65536 -> is_u32 db -> Forall (fun ref => is_u32 (fr_page_no ref)) frames ->
  otsardb_wal_publisher_retry_publish store replica e after_object None thread_key lease_fence path ps db frames p
    (s, l) = ((r, p'), (s', l')) ->
  safe_step root (view s) (view s') /\ pub_ok root id p' /\
  (forall f, f <> path -> l_files l' !! f = l_files l !! f) /\
  (r = 0 -> view s' = view s /\ l' = l) /\
  (r = 1 -> committed root (retry_id p) (view s) (view s')).
Proof.
  intros Hp Hps Hdb Hf H. unfold otsardb_wal_publisher_retry_publish in H.
  destruct (_ || _); [by eapply retry_stopped|].
  unfold mbind_ at 1, on_store at 1 in H. cbn [fst snd] in H.
  destruct (refresh_head store p s) as [[rc p1] s1] eqn:E1.
  pose proof (reads_refresh store view Hlaws p _ _ _ E1) as Hv1.
  apply (refresh_head_ok store view quiet Hlaws root id quiet_steps after_object p Hp) in E1 as (_ & Hp1 & Hw1).
  cbn [snd] in *.
  assert (retry_id p1 = retry_id p) as Hrid by (unfold retry_id, same_wal in *; by rewrite Hw1).
  destruct (rc =? SQLITE_OK); cbn [negb] in H; [|by eapply retry_stopped].
  destruct (_ && _); [by eapply retry_stopped|].
  unfold mbind_ at 1, on_store at 1 in H. cbn [fst snd] in H.
  destruct (retry_conflict_check _ _ _ _ _ _ _ s1) as [checked s2] eqn:E2.
  apply reads_conflict_check in E2. rewrite Hv1 in E2.
  destruct checked as [[]|]; [by eapply retry_stopped| |by eapply retry_stopped].
  unfold mbind_ at 1 in H. unfold otsardb_recovery_restore_store in H.
  destruct (otsardb_recovery_restore_store_ex _ _ _ _ _) as [ok [s3 l3]] eqn:E3.
  pose proof (keeps_restore store view Hlaws Hlist _ _ _ _ _ _ E3) as Hv3. cbn [fst] in Hv3. rewrite E2 in Hv3.
  pose proof (confined_restore _ _ _ _ _ _ _ E3) as [_ Hl3]. cbn [snd] in Hl3.
  destruct ok; cbn [negb] in H; [|by eapply retry_stopped].
  set (p2 := page_map_clear (set_verified true p1)) in H.
  assert (pub_ok root id p2) as Hp2 by (by apply (pub_ok_same root id p1)).
  assert (retry_id p2 = retry_id p) as Hrid2 by exact Hrid. clearbody p2.
  destruct (_ <=? _); [by eapply retry_stopped|].
  unfold mbind_ at 1, on_files at 1 in H. cbn [fst snd] in H.
  destruct (fopen_read _ l3) as [wal l4] eqn:E4. apply open_read_files in E4. rewrite <- E4 in Hl3.
  destruct wal as [wal|]; [|by eapply retry_stopped].
  unfold mbind_ at 1, on_files at 1 in H. cbn [fst snd] in H.
  destruct (fopen_read _ l4) as [file l5] eqn:E5. apply open_read_files in E5. rewrite <- E5 in Hl3.
  destruct file as [file|]; [|by eapply retry_stopped].
  unfold on_store in H. cbn [fst snd] in H.
  destruct (republish _ _ _ _ _ _ _ _ _ _ _ p2 s3) as [[r6 p6] s6] eqn:E6. injection H as <- <- <- <-.
  apply republish_ok in E6 as (Hs & Hp6 & Hr0 & Hr1); [|done..]. rewrite Hv3, Hrid2 in *.
  split; [done|]. split; [done|]. split; [done|]. by split.
Qed.
End Outcomes.

(** ** A lost race *)

Module RetrySample.
(** A writer has published pages 1 and 2 and has page 2 again in its WAL; a peer
    with a WAL of its own then publishes pages 1 and 3. *)
Definition base_wal : bytes := Eval vm_compute in PublisherSample.wal [(1, 0, 65); (2, 2, 66)].
Definition grown_wal : bytes := Eval vm_compute in PublisherSample.wal [(1, 0, 65); (2, 2, 66); (2, 2, 70)].
Definition peer_head : bytes :=
  let h := be32 OTSARDB_SQLITE_WAL_MAGIC_LE ++ be32 3007000 ++ be32 512 ++ be32 0 ++ be32 3 ++ be32 4 in
  let s := checksum_bytes h 24 false (0, 0) in h ++ be32 s.1 ++ be32 s.2.
Definition peer_header : otsardb_sqlite_wal_header :=
  Eval vm_compute in default demo_wal_header (otsardb_sqlite_wal_read_header (memory_read_at peer_head) 32).
Definition peer_wal (frames : list (Z * Z * Z)) : bytes :=
  fst (foldl (fun w '(n, db, b) => wal_append peer_header w n db (RecoverySample.page b))
         (peer_head, (wh_checksum0 peer_header, wh_checksum1 peer_header)) frames).
Definition growing_wal : bytes := Eval vm_compute in peer_wal [(3, 3, 68)].
Definition local_read : option otsardb_sqlite_wal_read_at :=
  Some (memory_read_at (RecoverySample.page 65 ++ RecoverySample.page 66)).

Definition writer : Z * otsardb_wal_publisher * mem :=
  Eval vm_compute in PublisherSample.sync None base_wal genesis_publisher mem_empty.
Definition peer : Z * otsardb_wal_publisher * mem :=
  Eval vm_compute in PublisherSample.sync None growing_wal genesis_publisher (snd writer).
Definition files : local :=
  mkLocal {[str "x.db" := RecoverySample.page 65 ++ RecoverySample.page 66; str "x.db-wal" := grown_wal]} [].
Abbreviation retry :=
  (otsardb_wal_publisher_retry_publish (HSha := RecoverySample.sum_sha256) (HLz4 := zero_lz4)
     PublisherSample.store PublisherSample.no_replica PublisherSample.one_try (fun x => x) None None None
     (str "x.db") 512 2 [mkFrameRef 2 (32 + 2 * 536)] (snd (fst writer)) (snd peer, files)).
Definition retried : Z * otsardb_wal_publisher * (mem * local) := Eval vm_compute in retry.
End RetrySample.

(** The explicit retry breaks a database that a peer has grown: the peer's
    commit appends page 3, the retry of an update of page 2 reports success with
    the size of the old parent, and the database, which could be restored
    before, cannot be restored any more; a writer that restarts on the same WAL
    finds more commits in HEAD's identity than in the WAL and stops with
    SQLITE_CORRUPT. *)
Theorem wal_publisher_retry_corrupts :
  fst (PublisherSample.restore (snd RetrySample.peer)) = true /\
  RetrySample.retry = RetrySample.retried /\ fst (fst RetrySample.retried) = 1 /\
  fst (PublisherSample.restore (fst (snd RetrySample.retried))) = false /\
  fst (fst (PublisherSample.sync None RetrySample.grown_wal genesis_publisher (fst (snd RetrySample.retried))))
    = SQLITE_CORRUPT.
Proof. split_and!; vm_equal. Qed.

Lemma retry_list p (s : mem) r s' :
  otsardb_store_list PublisherSample.store p s = (r, s') -> m_objects s' = m_objects s.
Proof. intros H. cbn in H. unfold mem_list, mret_ in H. repeat case_match; simplify_eq; done. Qed.

Lemma retry_writer_ok : pub_ok (str "db") (str "db-1") (snd (fst RetrySample.writer)).
Proof.
  unfold pub_ok, cache_ok. repeat split; try (vm_compute; reflexivity); try (vm_compute; discriminate).
  right. split; vm_compute; discriminate.
Qed.

Lemma wal_publisher_retry_outcomes_witness :
  committed (HSha := RecoverySample.sum_sha256) (str "db") (retry_id (snd (fst RetrySample.writer)))
    (m_objects (snd RetrySample.peer)) (m_objects (fst (snd RetrySample.retried))).
Proof.
  destruct (wal_publisher_retry_outcomes (HSha := RecoverySample.sum_sha256) (HLz4 := zero_lz4)
    PublisherSample.store m_objects (mem_store_laws CAPS_ALL) (mem_stream_law CAPS_ALL) retry_list
    (str "db") (str "db-1") eq_refl eq_refl eq_refl PublisherSample.no_replica eq_refl PublisherSample.one_try
    (fun x => x) None None (sample_fence (str "db")) (str "x.db") 512 2 [mkFrameRef 2 (32 + 2 * 536)]
    (snd (fst RetrySample.writer)) (snd (fst RetrySample.retried)) (snd RetrySample.peer) RetrySample.files
    (fst (fst RetrySample.retried)) (fst (snd RetrySample.retried)) (snd (snd RetrySample.retried)))
    as (_ & _ & _ & _ & H).
  - exact retry_writer_ok.
  - lia.
  - split; vm_compute; discriminate.
  - constructor; [split; vm_compute; discriminate|constructor].
  - vm_equal.
  - apply H. reflexivity.
Defined.

(** A store that answers for HEAD and fails for the manifest. *)
Definition flaky (s : mem) : mem :=
  mkMem (m_objects s) (m_next_version s) (m_now s) [F_none; F_fail OTSARDB_STORE_ERROR].

Definition refreshed : Z * otsardb_wal_publisher * mem :=
  Eval vm_compute in refresh_head PublisherSample.store (snd (fst RetrySample.writer)) (flaky (snd RetrySample.peer)).
Definition degraded : Z * otsardb_wal_publisher * mem :=
  Eval vm_compute in refresh_head PublisherSample.store (snd (fst refreshed)) (flaky (snd refreshed)).

(** The rolling checksum can be dropped silently after all: when HEAD has
    moved and its manifest cannot be fetched, a refresh fails the sync as it
    should but has already forgotten that the chain carried a checksum, so a
    second such refresh reports success without one. *)
Theorem wal_publisher_refresh_degrades :
  exists p1 s1 p2 s2,
    rs_known (wp_sum (snd (fst RetrySample.writer))) = true /\
    refresh_head PublisherSample.store (snd (fst RetrySample.writer)) (flaky (snd RetrySample.peer))
      = ((SQLITE_IOERR_READ, p1), s1) /\
    refresh_head PublisherSample.store p1 (flaky s1) = ((SQLITE_OK, p2), s2) /\
    rs_known (wp_sum p2) = false /\ hc_generation (wp_head p2) = 2.
Proof.
  exists (snd (fst refreshed)), (snd refreshed), (snd (fst degraded)), (snd degraded). split_and!; vm_equal.
Qed.
