(* ===== verification/Triples.v ===== *)
(** * Specifications of computations by triples

    [triple R P m Q]: run from a state that satisfies [P], the computation [m]
    moves the state by the preorder [R] (what every client of the system may
    do) and its result and final state satisfy [Q]. Facts that [R] preserves
    are [stable] and can be framed. *)

From S2P Require Import Prelude ObjectStore Journal WalPublisher.

Section Triples.
Context {S : Type} (R : S -> S -> Prop) {HR : PreOrder R}.

Definition triple {A} (P : S -> Prop) (m : M S A) (Q : A -> S -> Prop) : Prop :=
  forall s r s', P s -> m s = (r, s') -> R s s' /\ Q r s'.

Definition stable (F : S -> Prop) : Prop := forall s s', R s s' -> F s -> F s'.

(** A postcondition of successful results only. *)
Definition on_ok {E A} (Q : A -> S -> Prop) (r : E + A) (s : S) : Prop :=
  match r with inl _ => True | inr a => Q a s end.

Lemma triple_ret {A} (a : A) (P : S -> Prop) (Q : A -> S -> Prop) :
  (forall s, P s -> Q a s) -> triple P (mret_ a) Q.
Proof. intros H s r s' HP [= <- <-]. split; [reflexivity|auto]. Qed.

Lemma triple_fail {E A} (err : E) P (Q : A -> S -> Prop) : triple P (mret_ (inl err)) (on_ok Q).
Proof. by apply triple_ret. Qed.

Lemma triple_bind {A B} P (m : M S A) Q (k : A -> M S B) Q' :
  triple P m Q -> (forall a, triple (Q a) (k a) Q') -> triple P (mbind_ m k) Q'.
Proof.
  intros Hm Hk s r s' HP H. unfold mbind_ in H. destruct (m s) as [a s1] eqn:E.
  destruct (Hm _ _ _ HP E) as [H1 HQ]. destruct (Hk a _ _ _ HQ H) as [H2 HQ']. split; [by etrans|done].
Qed.

Lemma triple_bind_err {E A B} P (m : M S (E + A)) Q (k : A -> M S (E + B)) Q' :
  triple P m (on_ok Q) -> (forall a, triple (Q a) (k a) (on_ok Q')) -> triple P (mbind_err m k) (on_ok Q').
Proof.
  intros Hm Hk. apply triple_bind with (on_ok Q); [done|]. intros [err|a]; [apply triple_fail|apply Hk].
Qed.

Lemma triple_weaken {A} (P P' : S -> Prop) (m : M S A) (Q Q' : A -> S -> Prop) :
  triple P m Q -> (forall s, P' s -> P s) -> (forall a s, Q a s -> Q' a s) -> triple P' m Q'.
Proof. intros H HP HQ s r s' Hs Hm. destruct (H _ _ _ (HP _ Hs) Hm). auto. Qed.

(** A stable fact goes along. *)
Lemma triple_frame {A} (F P : S -> Prop) (m : M S A) Q :
  stable F -> triple P m Q -> triple (fun s => P s /\ F s) m (fun r s => Q r s /\ F s).
Proof. intros Hf H s r s' [HP HF] Hm. destruct (H _ _ _ HP Hm) as [HR' HQ]. split; [done|]. eauto. Qed.

Lemma triple_frame_ok {E A} (F P : S -> Prop) (m : M S (E + A)) (Q : A -> S -> Prop) :
  stable F -> triple P m (on_ok Q) ->
  triple (fun s => P s /\ F s) m (on_ok (fun r s => Q r s /\ F s)).
Proof.
  intros Hf H s r s' [HP HF] Hm. destruct (H _ _ _ HP Hm) as [HR' HQ]. split; [done|].
  destruct r; [done|]. cbn in *. eauto.
Qed.

Lemma stable_and F G : stable F -> stable G -> stable (fun s => F s /\ G s).
Proof. intros Hf Hg s s' H [? ?]. eauto. Qed.

Lemma stable_pure (F : Prop) : stable (fun _ => F).
Proof. by intros s s' _. Qed.

(** Where the computation has come from. *)
Lemma stable_since s0 : stable (R s0).
Proof. intros s s' H Hs. by etrans. Qed.

(** The retry cycle: every attempt starts where the precondition holds. *)
Lemma triple_retry {A} (e : environment) (attempt : M S (option A * otsardb_journal_result)) P (Q : A -> S -> Prop) :
  stable P -> triple P attempt (fun r s => forall a, fst r = Some a -> Q a s) ->
  triple P (publish_retry_cycle e attempt) (fun r s => forall a, fst r = Some a -> Q a s).
Proof.
  intros HP Ha. unfold publish_retry_cycle.
  generalize (Z.to_nat (publish_retries_limit (env_publish_retries e))), (@None otsardb_journal_result).
  intros n. induction n as [|n IH]; intros first; cbn [retry_loop]; [by apply triple_ret|].
  apply triple_bind with (fun r s => (forall a, fst r = Some a -> Q a s) /\ P s).
  - eapply triple_weaken; [exact (triple_frame P P attempt _ HP Ha)|by intros s H|done].
  - intros [[a|] rc].
    + apply triple_ret. cbn. by intros s [H _].
    + cbn. destruct (publish_rc_retryable rc); [|by apply triple_ret].
      eapply triple_weaken; [apply IH| |done]. by intros s [_ H].
Qed.
End Triples.
