(* ===== verification/Replica.v ===== *)
(** * Replica destinations: ledgers, epochs, replication (replica.c)

    A commit that is durable on the primary is copied to every destination and
    recorded, on the primary and there, by a ledger object that goes from
    PREPARED to COMMITTED (or ABORTED); the sync is acknowledged when a quorum
    confirms. Each destination has an epoch record that a promotion raises by
    compare-and-swap and that fences the sessions of the old primary. The
    stores are tables of operations over one state [S]. *)

From S2P Require Import Prelude CText JsonText ObjectStore Journal Codec WalBatch Sha256 Segment.
From S2P Require Import DbMetadata CommitManifest CommitPublish Lease Cipher LocalFile Recovery CapabilityProbe WalPublisher.

Definition OTSARDB_REPLICA_MAX_DESTINATIONS : Z := 3.
Definition OTSARDB_REPLICA_EPOCH_OWNER_MAX : Z := 63.
Definition OTSARDB_REPLICA_STATE_MAX : Z := 16.
Definition OTSARDB_REPLICA_RECONCILE_MAX_COMMITS : nat := 64.

Definition OTSARDB_REPLICA_STATE_PREPARED : bytes := str "PREPARED".
Definition OTSARDB_REPLICA_STATE_COMMITTED : bytes := str "COMMITTED".
Definition OTSARDB_REPLICA_STATE_ABORTED : bytes := str "ABORTED".

Record otsardb_replica_ledger := mkLedger {
  lg_commit_id : bytes;
  lg_generation : Z;
  lg_parent_generation : Z;
  lg_manifest_sha256 : bytes;
  lg_state : bytes;
  lg_primary_etag : bytes;
  lg_replica_etag : bytes;
  lg_model : bytes;
  lg_destination : bytes;
  lg_written_at_utc : bytes
}.

Record otsardb_replica_epoch_view := mkEpochView {
  ev_exists : bool;
  ev_epoch : Z;
  ev_generation : Z;
  ev_owner : bytes;
  ev_etag : bytes
}.

Record otsardb_replica_destination (S : Type) := mkDestination {
  rd_store : otsardb_object_store S;
  rd_strategy : otsardb_write_strategy;
  rd_store_borrowed : bool;
  rd_epoch_created : bool;
  rd_epoch : Z;
  rd_epoch_etag : bytes;
  rd_epoch_known : bool
}.
Arguments mkDestination {S}. Arguments rd_store {S}. Arguments rd_strategy {S}. Arguments rd_store_borrowed {S}.
Arguments rd_epoch_created {S}. Arguments rd_epoch {S}. Arguments rd_epoch_etag {S}. Arguments rd_epoch_known {S}.

Record otsardb_replica (S : Type) := mkReplica {
  rr_destinations : list (otsardb_replica_destination S);
  rr_database_root : bytes;
  rr_database_id : bytes;
  rr_primary_epoch_created : bool;
  rr_promoted_index : Z
}.
Arguments mkReplica {S}. Arguments rr_destinations {S}. Arguments rr_database_root {S}.
Arguments rr_database_id {S}. Arguments rr_primary_epoch_created {S}. Arguments rr_promoted_index {S}.

Definition set_epoch_record {S} (created : bool) (epoch : Z) (etag : bytes) (known : bool)
    (d : otsardb_replica_destination S) : otsardb_replica_destination S :=
  mkDestination (rd_store d) (rd_strategy d) (rd_store_borrowed d) created epoch etag known.

Definition set_destinations {S} (ds : list (otsardb_replica_destination S)) (r : otsardb_replica S)
  : otsardb_replica S :=
  mkReplica ds (rr_database_root r) (rr_database_id r) (rr_primary_epoch_created r) (rr_promoted_index r).

(** ** The environment *)

Section Environment.
Context (getenv : bytes -> option bytes).

Definition env_nonempty (name : bytes) : option bytes :=
  match getenv name with
  | None | Some [] => None
  | Some value => Some value
  end.

Definition replica_env_prefixes : list bytes :=
  [str "OTSARDB_S3_REPLICA"; str "OTSARDB_S3_REPLICA2"; str "OTSARDB_S3_REPLICA3"].

Definition replica_env_value (var_set : Z) (suffix : bytes) (name_buf_size : Z) : option bytes :=
  if (var_set <? 0) || (OTSARDB_REPLICA_MAX_DESTINATIONS <=? var_set) then None
  else match replica_env_prefixes !! Z.to_nat var_set with
  | None => None
  | Some prefix =>
      let name := prefix ++ str "_" ++ suffix in
      if name_buf_size <=? zlen name then None else env_nonempty name
  end.

Definition replica_var_set_configured (var_set : Z) : bool :=
  existsb (fun suffix => bool_decide (is_Some (replica_env_value var_set suffix 64)))
    [str "ENDPOINT"; str "REGION"; str "ACCESS_KEY"; str "SECRET_KEY"; str "BUCKET"].

Definition otsardb_replica_configured : bool := existsb replica_var_set_configured [0; 1; 2].

(** A flag is set by a whole number other than 0. *)
Definition env_flag (name : bytes) : bool :=
  match getenv name with
  | None | Some [] => false
  | Some value => match strtol_all value with Some n => negb (n =? 0) | None => false end
  end.

Definition otsardb_replica_promote_requested : bool := env_flag (str "OTSARDB_S3_PROMOTE").
Definition otsardb_replica_read_requested : bool := env_flag (str "OTSARDB_S3_READ_FROM_REPLICA").

Definition otsardb_replica_quorum_requested : Z :=
  match getenv (str "OTSARDB_S3_QUORUM") with
  | None | Some [] => 0
  | Some value =>
      match strtol_all value with
      | None => 0
      | Some n => if n <=? 0 then 0 else if INT_MAX <=? n then 0 else n
      end
  end.

(** The primary and the destinations are [m] stores. *)
Definition otsardb_replica_quorum {S} (r : otsardb_replica S) : Z :=
  let m := zlen (rr_destinations r) + 1 in
  let requested := otsardb_replica_quorum_requested in
  if requested <=? 0 then m else if m <=? requested then m else requested.

Definition otsardb_replica_destination_count {S} (r : otsardb_replica S) : Z := zlen (rr_destinations r).

Definition replica_lease_ttl_env : Z :=
  match getenv (str "OTSARDB_LEASE_TTL") with
  | None | Some [] => OTSARDB_LEASE_TTL_DEFAULT_SECS
  | Some value =>
      match strtol_all value with
      | None => OTSARDB_LEASE_TTL_DEFAULT_SECS
      | Some n => if n <=? 0 then OTSARDB_LEASE_TTL_DEFAULT_SECS else n
      end
  end.

(** What the retry cycle reads. *)
Definition process_environment : environment :=
  mkEnvironment (getenv (str "OTSARDB_PUBLISH_RETRIES")) (getenv (str "OTSARDB_S3_PARALLEL_SEGMENTS")).
End Environment.

(** ** Texts *)

(** [gmtime]: year, month and day of a day number since 1970. *)
Definition civil_of_days (days : Z) : Z * Z * Z :=
  let z := days + 719468 in
  let era := z / 146097 in
  let doe := z mod 146097 in
  let yoe := (doe - doe / 1460 + doe / 36524 - doe / 146096) / 365 in
  let doy := doe - (365 * yoe + yoe / 4 - yoe / 100) in
  let mp := (5 * doy + 2) / 153 in
  let m := if mp <? 10 then mp + 3 else mp - 9 in
  (yoe + era * 400 + (if m <=? 2 then 1 else 0), m, doy - (153 * mp + 2) / 5 + 1).

(** The last [n] decimal digits, with leading zeros. *)
Fixpoint padded (n : nat) (v : Z) : bytes :=
  match n with
  | O => []
  | Datatypes.S n' => padded n' (v / 10) ++ [48 + v mod 10]
  end.

(** [strftime] with [%Y-%m-%dT%H:%M:%SZ], for years of four digits. *)
Definition utc_text (now : Z) : bytes :=
  let '(y, m, d) := civil_of_days (now / 86400) in
  let secs := now mod 86400 in
  padded 4 y ++ str "-" ++ padded 2 m ++ str "-" ++ padded 2 d ++ str "T" ++
  padded 2 (secs / 3600) ++ str ":" ++ padded 2 (secs / 60 mod 60) ++ str ":" ++ padded 2 (secs mod 60) ++ str "Z".

Definition json_extract_u64 (json name : bytes) : option Z := extract_u64_raw 64 json name.

(** An empty string is refused. *)
Definition json_extract_string (json name : bytes) (out_size : Z) : option bytes :=
  match extract_string_raw 64 json name out_size with
  | Some [] => None
  | r => r
  end.

Definition ledger_encode (l : otsardb_replica_ledger) : bytes :=
  str "{" ++ q "commit_id" ++ str ":" ++ quoted (lg_commit_id l) ++
  str "," ++ q "generation" ++ str ":" ++ dec (lg_generation l) ++
  str "," ++ q "parent_generation" ++ str ":" ++ dec (lg_parent_generation l) ++
  str "," ++ q "manifest_sha256" ++ str ":" ++ quoted (lg_manifest_sha256 l) ++
  str "," ++ q "state" ++ str ":" ++ quoted (lg_state l) ++
  str "," ++ q "primary_etag" ++ str ":" ++ quoted (lg_primary_etag l) ++
  str "," ++ q "replica_etag" ++ str ":" ++ quoted (lg_replica_etag l) ++
  str "," ++ q "model" ++ str ":" ++ quoted (lg_model l) ++
  str "," ++ q "destination" ++ str ":" ++ quoted (lg_destination l) ++
  str "," ++ q "written_at_utc" ++ str ":" ++ quoted (lg_written_at_utc l) ++ str "}" ++ [10].

(** Only the identity, the generation and the state are read back. *)
Definition ledger_decode (json : bytes) : option otsardb_replica_ledger :=
  if zlen json =? 0 then None
  else
    let copy := cstr json in
    match json_extract_string copy (str "commit_id") (OTSARDB_COMMIT_ID_MAX + 1),
          json_extract_u64 copy (str "generation"),
          json_extract_string copy (str "state") OTSARDB_REPLICA_STATE_MAX with
    | Some commit_id, Some generation, Some state =>
        Some (mkLedger commit_id generation 0 [] state [] [] [] [] [])
    | _, _, _ => None
    end.

(** The text fits [out_size] bytes with its NUL. *)
Definition fits (out_size : Z) (text : bytes) : option bytes :=
  if (0 <? zlen text) && (zlen text <? out_size) then Some text else None.

Definition epoch_text (epoch : Z) (owner : bytes) (generation : Z) (note stamp : bytes) : bytes :=
  str "{" ++ q "epoch" ++ str ":" ++ dec epoch ++ str "," ++ q "owner" ++ str ":" ++ quoted owner ++
  str "," ++ q "generation" ++ str ":" ++ dec generation ++ str "," ++ q "model" ++ str ":" ++ q "B" ++
  str "," ++ q "note" ++ str ":" ++ quoted note ++
  str "," ++ q "written_at_utc" ++ str ":" ++ quoted stamp ++ str "}" ++ [10].

Definition epoch_encode (owner : bytes) (generation : Z) (stamp : bytes) : option bytes :=
  fits 512 (epoch_text 1 owner generation
              (str "v0 creation-only record; promotion/roll-forward deferred (0072)") stamp).

Definition epoch_encode_promoted (epoch : Z) (owner : bytes) (generation : Z) (stamp : bytes) : option bytes :=
  fits 512 (epoch_text epoch owner generation
              (str "promoted to primary (0077); the old primary was offline per the operator contract") stamp).

(** The keys. *)
Definition epoch_key (root : bytes) : option bytes :=
  root_join root (str "replica/epoch.json") (OTSARDB_KEY_MAX + 1).
Definition ledger_key (root commit_id : bytes) : option bytes :=
  object_key root (str "replica/" ++ commit_id ++ str ".json").

(** A reference that starts with the root is taken to be a whole key. *)
Definition segment_full_key (root ref_key : bytes) : option bytes :=
  if prefixb root ref_key then fits (OTSARDB_KEY_MAX + 1) ref_key
  else root_join root ref_key (OTSARDB_KEY_MAX + 1).

(** The commit to replicate, durable on the primary. *)
Record replicated_commit := mkReplicated {
  ct_commit_id : bytes;
  ct_generation : Z;
  ct_parent_generation : Z;
  ct_parent_commit_id : bytes;
  ct_parent_manifest_sha256 : bytes;
  ct_manifest_sha256 : bytes;
  ct_primary_head_etag : bytes;
  ct_segments : list otsardb_segment_input
}.

Record replica_gap_commit := mkGap {
  gp_commit_id : bytes;
  gp_manifest_sha256 : bytes;
  gp_generation : Z
}.

Definition ledger_of (commit_id : bytes) (generation parent_generation : Z) (sha256 state primary_etag replica_etag
    model destination stamp : bytes) : otsardb_replica_ledger :=
  mkLedger (snprintf_s 64 commit_id) generation parent_generation (snprintf_s 65 sha256) (snprintf_s 16 state)
    (snprintf_s 128 primary_etag) (snprintf_s 128 replica_etag) (snprintf_s 8 model) (snprintf_s 16 destination)
    (snprintf_s 32 stamp).

Definition destination_head (database_id commit_id : bytes) (generation : Z) (manifest_key sha256 : bytes)
  : otsardb_head :=
  mkHead 1 generation (snprintf_s 64 database_id) (snprintf_s 64 commit_id) (snprintf_s 1024 manifest_key)
    (snprintf_s 65 sha256).

Definition store_to_journal (e : store_error) : otsardb_journal_result :=
  match e with
  | OTSARDB_STORE_TIMEOUT => OTSARDB_JOURNAL_AMBIGUOUS
  | OTSARDB_STORE_UNSUPPORTED => OTSARDB_JOURNAL_UNSUPPORTED
  | _ => OTSARDB_JOURNAL_ERROR
  end.

(** The result of a read of the primary that must succeed. *)
Definition source_rc (e : store_error) : otsardb_journal_result :=
  match e with
  | OTSARDB_STORE_NOT_FOUND => OTSARDB_JOURNAL_NOT_FOUND
  | _ => OTSARDB_JOURNAL_ERROR
  end.

Definition nonempty_etag (etag : option bytes) : option bytes :=
  match etag with Some (c :: e) => Some (c :: e) | _ => None end.

Section OneStore.
Context {S : Type} (clock_now : S -> Z) (store : otsardb_object_store S).

Definition utc_now : M S bytes := let! now := read_clock clock_now in return! utc_text now.

(** [None]: the object could not be read. *)
Definition object_matches (key data : bytes) : M S (option bool) :=
  let! rc := otsardb_store_get store key in
  return! match rc with
          | inl OTSARDB_STORE_NOT_FOUND => Some false
          | inl _ => None
          | inr existing => Some (bytes_eqb (so_data existing) data)
          end.

(** After a refused or lost put; [otherwise] when the object differs. *)
Definition resolve_put (key data : bytes) (otherwise : otsardb_journal_result) : M S otsardb_journal_result :=
  let! matches := object_matches key data in
  return! match matches with
          | None => OTSARDB_JOURNAL_ERROR
          | Some true => OTSARDB_JOURNAL_OK
          | Some false => otherwise
          end.

Definition replicate_object (key data : bytes) : M S otsardb_journal_result :=
  if otsardb_store_supports store OTSARDB_STORE_CAP_CONDITIONAL_CREATE then
    let! rc := otsardb_store_put store key data (mkPutOptions true None) in
    match rc with
    | inr _ => return! OTSARDB_JOURNAL_OK
    | inl OTSARDB_STORE_PRECONDITION_FAILED => resolve_put key data OTSARDB_JOURNAL_CONFLICT
    | inl OTSARDB_STORE_TIMEOUT => resolve_put key data OTSARDB_JOURNAL_AMBIGUOUS
    | inl OTSARDB_STORE_UNSUPPORTED => return! OTSARDB_JOURNAL_UNSUPPORTED
    | inl _ => return! OTSARDB_JOURNAL_ERROR
    end
  else
    let! matches := object_matches key data in
    match matches with
    | Some true => return! OTSARDB_JOURNAL_OK
    | None => return! OTSARDB_JOURNAL_ERROR
    | Some false =>
        let! rc := otsardb_store_put store key data plain_put in
        match rc with
        | inr _ => return! OTSARDB_JOURNAL_OK
        | inl OTSARDB_STORE_TIMEOUT => resolve_put key data OTSARDB_JOURNAL_AMBIGUOUS
        | inl OTSARDB_STORE_UNSUPPORTED => return! OTSARDB_JOURNAL_UNSUPPORTED
        | inl _ => return! OTSARDB_JOURNAL_ERROR
        end
    end.

(** ** The ledger *)

(** After a timeout: the record is there with the identity and the state. *)
Definition ledger_resolve (key commit_id state : bytes) : M S otsardb_journal_result :=
  let! after := otsardb_store_get store key in
  return! match after with
          | inr ob =>
              match ledger_decode (so_data ob) with
              | Some l => if bytes_eqb (lg_commit_id l) commit_id && bytes_eqb (lg_state l) state
                          then OTSARDB_JOURNAL_OK else OTSARDB_JOURNAL_AMBIGUOUS
              | None => OTSARDB_JOURNAL_AMBIGUOUS
              end
          | inl OTSARDB_STORE_NOT_FOUND => OTSARDB_JOURNAL_AMBIGUOUS
          | inl _ => OTSARDB_JOURNAL_ERROR
          end.

(** The put of an attempt; a lost race goes to [retry]. *)
Definition ledger_put (key json commit_id state : bytes) (options : otsardb_store_put_options)
    (retry : M S (otsardb_journal_result * option bytes)) : M S (otsardb_journal_result * option bytes) :=
  let! rc := otsardb_store_put store key json options in
  match rc with
  | inr etag => return! (OTSARDB_JOURNAL_OK, etag)
  | inl OTSARDB_STORE_PRECONDITION_FAILED => retry
  | inl OTSARDB_STORE_TIMEOUT =>
      let! resolved := ledger_resolve key commit_id state in return! (resolved, None)
  | inl e => return! (store_to_journal e, None)
  end.

Fixpoint ledger_attempts (attempts : nat) (key json commit_id state : bytes)
  : M S (otsardb_journal_result * option bytes) :=
  match attempts with
  | O => return! (OTSARDB_JOURNAL_ERROR, None)
  | Datatypes.S attempts' =>
      let retry := ledger_attempts attempts' key json commit_id state in
      let! existing := otsardb_store_get store key in
      match existing with
      | inr ob =>
          match ledger_decode (so_data ob) with
          | None => return! (OTSARDB_JOURNAL_CONFLICT, None)
          | Some current =>
              if negb (bytes_eqb (lg_commit_id current) commit_id) then return! (OTSARDB_JOURNAL_CONFLICT, None)
              else if bytes_eqb (lg_state current) state ||
                      bytes_eqb (lg_state current) OTSARDB_REPLICA_STATE_COMMITTED
              then return! (OTSARDB_JOURNAL_OK, nonempty_etag (so_etag ob))
              else
                ledger_put key json commit_id state
                  (mkPutOptions false
                     (if otsardb_store_supports store OTSARDB_STORE_CAP_CONDITIONAL_UPDATE
                      then nonempty_etag (so_etag ob) else None)) retry
          end
      | inl OTSARDB_STORE_NOT_FOUND =>
          ledger_put key json commit_id state
            (mkPutOptions (otsardb_store_supports store OTSARDB_STORE_CAP_CONDITIONAL_CREATE) None) retry
      | inl e => return! (store_to_journal e, None)
      end
  end.

Definition ledger_write_cas (key json commit_id state : bytes) : M S (otsardb_journal_result * option bytes) :=
  ledger_attempts 3 key json commit_id state.

(** ** The epoch record *)

Definition no_epoch : otsardb_replica_epoch_view := mkEpochView false 0 0 [] [].

Definition otsardb_replica_epoch_read (database_root : bytes)
  : M S (otsardb_journal_result + otsardb_replica_epoch_view) :=
  match epoch_key database_root with
  | None => return! inl OTSARDB_JOURNAL_INVALID
  | Some key =>
      let! rc := otsardb_store_get store key in
      match rc with
      | inl OTSARDB_STORE_NOT_FOUND => return! inr no_epoch
      | inl e => return! inl (store_to_journal e)
      | inr ob =>
          let copy := cstr (so_data ob) in
          match json_extract_u64 copy (str "epoch") with
          | None => return! inl OTSARDB_JOURNAL_INVALID
          | Some epoch =>
              return! inr (mkEpochView true epoch (default 0 (json_extract_u64 copy (str "generation")))
                             (default [] (json_extract_string copy (str "owner") (OTSARDB_REPLICA_EPOCH_OWNER_MAX + 1)))
                             (snprintf_s 128 (default [] (so_etag ob))))
          end
      end
  end.

Definition epoch_raise_attempt (key json : bytes) (current : otsardb_replica_epoch_view)
  : M S otsardb_journal_result :=
  if ev_exists current && (zlen (ev_etag current) =? 0) then return! OTSARDB_JOURNAL_ERROR
  else
    let options := if ev_exists current then mkPutOptions false (Some (ev_etag current))
                   else mkPutOptions (otsardb_store_supports store OTSARDB_STORE_CAP_CONDITIONAL_CREATE) None in
    let! rc := otsardb_store_put store key json options in
    return! match rc with
            | inr _ => OTSARDB_JOURNAL_OK
            | inl OTSARDB_STORE_PRECONDITION_FAILED => OTSARDB_JOURNAL_CONFLICT
            | inl e => store_to_journal e
            end.

Definition raised_epoch (view : otsardb_replica_epoch_view) : Z :=
  if ev_exists view then u64 (ev_epoch view + 1) else 1.

(** One attempt against a view: the new epoch, or the result. *)
Definition epoch_raise_from (key owner : bytes) (view : otsardb_replica_epoch_view)
  : M S (otsardb_journal_result + Z) :=
  let! stamp := utc_now in
  match epoch_encode_promoted (raised_epoch view) owner (ev_generation view) stamp with
  | None => return! inl OTSARDB_JOURNAL_INVALID
  | Some json =>
      let! rc := epoch_raise_attempt key json view in
      return! match rc with OTSARDB_JOURNAL_OK => inr (raised_epoch view) | rc => inl rc end
  end.

(** The self-read raise: a lost race reads again. *)
Fixpoint epoch_raise_loop (attempts : nat) (database_root key owner : bytes) : M S (otsardb_journal_result + Z) :=
  match attempts with
  | O => return! inl OTSARDB_JOURNAL_CONFLICT
  | Datatypes.S attempts' =>
      let? view := otsardb_replica_epoch_read database_root in
      let! raised := epoch_raise_from key owner view in
      match raised with
      | inr epoch => return! inr epoch
      | inl OTSARDB_JOURNAL_CONFLICT => epoch_raise_loop attempts' database_root key owner
      | inl OTSARDB_JOURNAL_AMBIGUOUS =>
          let! after := otsardb_replica_epoch_read database_root in
          return! match after with
                  | inr after => if ev_exists after && (ev_epoch after =? raised_epoch view)
                                 then inr (ev_epoch after) else inl OTSARDB_JOURNAL_AMBIGUOUS
                  | inl rc => inl rc
                  end
      | inl rc => return! inl rc
      end
  end.

Definition otsardb_replica_epoch_raise (database_root owner : bytes) (current : option otsardb_replica_epoch_view)
  : M S (otsardb_journal_result + Z) :=
  if (zlen owner =? 0) || negb (noq owner) then return! inl OTSARDB_JOURNAL_INVALID
  else match epoch_key database_root with
  | None => return! inl OTSARDB_JOURNAL_INVALID
  | Some key =>
      match current with
      | Some view => epoch_raise_from key owner view
      | None => epoch_raise_loop 3 database_root key owner
      end
  end.

(** After a timeout nothing is adopted. *)
Definition epoch_create_timeout (key : bytes) : M S otsardb_journal_result :=
  let! after := otsardb_store_get store key in
  return! match after with
          | inr _ | inl OTSARDB_STORE_NOT_FOUND => OTSARDB_JOURNAL_AMBIGUOUS
          | inl _ => OTSARDB_JOURNAL_ERROR
          end.

(** The epoch and the etag of the record; [None]: the recursion has not ended
    within the fuel. *)
Fixpoint epoch_create_or_adopt (fuel : nat) (root database_id : bytes) (generation : Z)
  : M S (option (otsardb_journal_result + Z * bytes)) :=
  match fuel, epoch_key root with
  | O, _ => return! None
  | _, None => return! Some (inl OTSARDB_JOURNAL_INVALID)
  | Datatypes.S fuel', Some key =>
      let! rc := otsardb_store_get store key in
      match rc with
      | inr ob =>
          let copy := cstr (so_data ob) in
          return! Some (match json_extract_u64 copy (str "epoch"), json_extract_u64 copy (str "generation") with
                        | Some epoch, Some _ => inr (epoch, snprintf_s 128 (default [] (so_etag ob)))
                        | _, _ => inl OTSARDB_JOURNAL_INVALID
                        end)
      | inl OTSARDB_STORE_NOT_FOUND =>
          let! stamp := utc_now in
          match epoch_encode database_id generation stamp with
          | None => return! Some (inl OTSARDB_JOURNAL_INVALID)
          | Some json =>
              let create := otsardb_store_supports store OTSARDB_STORE_CAP_CONDITIONAL_CREATE in
              let! rc := otsardb_store_put store key json (mkPutOptions create None) in
              match rc with
              | inr etag => return! Some (inr (1, if create then snprintf_s 128 (default [] etag) else []))
              | inl OTSARDB_STORE_PRECONDITION_FAILED =>
                  if create then epoch_create_or_adopt fuel' root database_id generation
                  else return! Some (inl OTSARDB_JOURNAL_ERROR)
              | inl OTSARDB_STORE_TIMEOUT => let! rc := epoch_create_timeout key in return! Some (inl rc)
              | inl e => return! Some (inl (store_to_journal e))
              end
          end
      | inl e => return! Some (inl (store_to_journal e))
      end
  end.

(** ** Retried calls *)

Context (e : environment).

Definition retried {A} (attempt : M S (option A * otsardb_journal_result)) : M S (otsardb_journal_result + A) :=
  let! (r, rc) := otsardb_wal_publisher_retry_cycle e attempt in
  return! match r with Some a => inr a | None => inl rc end.

(** The value of an attempt whose result is [OTSARDB_JOURNAL_OK]. *)
Definition when_ok {A} (rc : otsardb_journal_result) (a : A) : option A :=
  match rc with OTSARDB_JOURNAL_OK => Some a | _ => None end.

Definition replica_put_attempt_once (key data : bytes) : M S (option unit * otsardb_journal_result) :=
  let! rc := replicate_object key data in return! (when_ok rc tt, rc).
Definition replica_retried_put (key data : bytes) : M S (otsardb_journal_result + unit) :=
  retried (replica_put_attempt_once key data).

Definition replica_ledger_attempt_once (key json commit_id state : bytes)
  : M S (option (option bytes) * otsardb_journal_result) :=
  let! (rc, etag) := ledger_write_cas key json commit_id state in return! (when_ok rc etag, rc).
Definition replica_retried_ledger (key json commit_id state : bytes)
  : M S (otsardb_journal_result + option bytes) :=
  retried (replica_ledger_attempt_once key json commit_id state).

(** A missing HEAD is an answer: [None]. *)
Definition replica_head_read_attempt_once (root : bytes)
  : M S (option (option (otsardb_head * bytes)) * otsardb_journal_result) :=
  let! (rc, res) := otsardb_journal_read_head store root in
  return! (match rc with OTSARDB_JOURNAL_OK | OTSARDB_JOURNAL_NOT_FOUND => Some res | _ => None end, rc).
Definition replica_retried_head_read (root : bytes)
  : M S (otsardb_journal_result + option (otsardb_head * bytes)) :=
  retried (replica_head_read_attempt_once root).

Definition replica_head_publish_attempt_once (root : bytes) (head : otsardb_head) (expected_etag : option bytes)
    (create_if_missing : bool) : M S (option (option bytes) * otsardb_journal_result) :=
  let! (rc, etag) := otsardb_journal_publish_head store root head expected_etag create_if_missing in
  return! (when_ok rc etag, rc).
Definition replica_retried_head_publish (root : bytes) (head : otsardb_head) (expected_etag : option bytes)
    (create_if_missing : bool) : M S (otsardb_journal_result + option bytes) :=
  retried (replica_head_publish_attempt_once root head expected_etag create_if_missing).
End OneStore.

(** ** Replication to one destination *)

Section TwoStores.
Context `{HSha : Sha256} `{HLz4 : Lz4}.
Context {S : Type} (clock_now : S -> Z) (e : environment).
Context (primary dest : otsardb_object_store S).

Definition replica_copy_metadata_if_absent (root : bytes) : M S (otsardb_journal_result + unit) :=
  match root_join root (str "db.json") (OTSARDB_KEY_MAX + 1) with
  | None => return! inl OTSARDB_JOURNAL_INVALID
  | Some key =>
      let! rc := otsardb_store_get dest key in
      match rc with
      | inr _ => return! inr tt
      | inl OTSARDB_STORE_NOT_FOUND =>
          let! source := otsardb_store_get primary key in
          match source with
          | inr ob => replica_retried_put dest e key (so_data ob)
          | inl OTSARDB_STORE_NOT_FOUND => return! inr tt
          | inl _ => return! inl OTSARDB_JOURNAL_ERROR
          end
      | inl _ => return! inl OTSARDB_JOURNAL_ERROR
      end
  end.

(** The ledger of one step on the primary, then on the destination. *)
Definition write_ledgers (key commit_id : bytes) (state : bytes) (ledger : bytes -> bytes -> otsardb_replica_ledger)
  : M S (otsardb_journal_result + unit) :=
  let! stamp := utc_now clock_now in
  let? _ := replica_retried_ledger primary e key (ledger_encode (ledger (str "primary") stamp)) commit_id state in
  let! stamp := utc_now clock_now in
  let? _ := replica_retried_ledger dest e key (ledger_encode (ledger (str "replica") stamp)) commit_id state in
  return! inr tt.

(** *** A destination that lags *)

(** The commits above the destination's HEAD, newest first; [cap] of them at
    most. *)
Fixpoint gap_walk (cap : nat) (root walk_id walk_sha : bytes) (walk_gen : Z) (head : otsardb_head)
  : M S (otsardb_journal_result + list replica_gap_commit) :=
  if negb (hd_generation head <? walk_gen) then
    return! if (walk_gen =? hd_generation head) && bytes_eqb walk_id (hd_commit_id head)
            then inr [] else inl OTSARDB_JOURNAL_CONFLICT
  else match cap with
  | O => return! inl OTSARDB_JOURNAL_CONFLICT
  | Datatypes.S cap' =>
      match fits (OTSARDB_KEY_MAX + 1) (root ++ str "/commits/" ++ walk_id ++ str ".json") with
      | None => return! inl OTSARDB_JOURNAL_INVALID
      | Some key =>
          let! rc := otsardb_store_get primary key in
          match rc with
          | inl err => return! inl (source_rc err)
          | inr ob =>
              if negb (bytes_eqb (otsardb_sha256_hex_data (so_data ob)) walk_sha)
              then return! inl OTSARDB_JOURNAL_INVALID
              else match otsardb_commit_manifest_decode_json (so_data ob) with
              | None => return! inl OTSARDB_JOURNAL_INVALID
              | Some m =>
                  if negb (cm_generation m =? walk_gen) || negb (u64 (cm_parent_generation m + 1) =? walk_gen)
                  then return! inl OTSARDB_JOURNAL_INVALID
                  else
                    let? rest := gap_walk cap' root (cm_parent_commit_id m) (cm_parent_manifest_sha256 m)
                                   (cm_parent_generation m) head in
                    return! inr (mkGap walk_id walk_sha walk_gen :: rest)
              end
          end
      end
  end.

Definition replica_collect_gap (root parent_commit_id parent_manifest_sha256 : bytes) (parent_generation : Z)
    (head : otsardb_head) : M S (otsardb_journal_result + list replica_gap_commit) :=
  if (zlen parent_commit_id =? 0) || (zlen (hd_commit_id head) =? 0) || (parent_generation =? 0)
  then return! inl OTSARDB_JOURNAL_INVALID
  else gap_walk OTSARDB_REPLICA_RECONCILE_MAX_COMMITS root (snprintf_s 64 parent_commit_id)
         (snprintf_s 65 parent_manifest_sha256) parent_generation head.

(** The segments of a manifest, copied one by one. *)
Fixpoint copy_segments (root : bytes) (refs : list otsardb_manifest_segment_ref)
  : M S (otsardb_journal_result + unit) :=
  match refs with
  | [] => return! inr tt
  | ref :: refs' =>
      match segment_full_key root (sg_key ref) with
      | None => return! inl OTSARDB_JOURNAL_INVALID
      | Some key =>
          let! rc := otsardb_store_get primary key in
          match rc with
          | inl err => return! inl (source_rc err)
          | inr seg =>
              if negb (bytes_eqb (otsardb_sha256_hex_data (so_data seg)) (sg_sha256 ref) &&
                       (zlen (so_data seg) =? sg_size ref))
              then return! inl OTSARDB_JOURNAL_INVALID
              else
                let? _ := replica_retried_put dest e key (so_data seg) in
                copy_segments root refs'
          end
      end
  end.

(** The manifest object of the primary with the expected digest. *)
Definition read_source_manifest (key sha256 : bytes) : M S (otsardb_journal_result + bytes) :=
  let! rc := otsardb_store_get primary key in
  return! match rc with
          | inl err => inl (source_rc err)
          | inr ob => if bytes_eqb (otsardb_sha256_hex_data (so_data ob)) sha256 then inr (so_data ob)
                      else inl OTSARDB_JOURNAL_INVALID
          end.

(** PREPARED on both stores, HEAD of the destination, COMMITTED on both; the
    result is the new etag. *)
Definition select_commit (root database_id model commit_id : bytes) (generation parent_generation : Z)
    (manifest_key sha256 primary_etag replica_etag : bytes) (expected_etag : option bytes) (create : bool)
  : M S (otsardb_journal_result + option bytes) :=
  match ledger_key root commit_id with
  | None => return! inl OTSARDB_JOURNAL_INVALID
  | Some key =>
      let record state etag :=
        ledger_of commit_id generation parent_generation sha256 state primary_etag etag model in
      let? _ := write_ledgers key commit_id OTSARDB_REPLICA_STATE_PREPARED
                  (record OTSARDB_REPLICA_STATE_PREPARED replica_etag) in
      let? new_etag := replica_retried_head_publish dest e root
                         (destination_head database_id commit_id generation manifest_key sha256)
                         expected_etag create in
      let? _ := write_ledgers key commit_id OTSARDB_REPLICA_STATE_COMMITTED
                  (record OTSARDB_REPLICA_STATE_COMMITTED (default [] new_etag)) in
      return! inr new_etag
  end.

Definition replica_replay_gap_commit (root database_id model : bytes) (c : replica_gap_commit)
    (replica_head_etag primary_head_etag : bytes) : M S (otsardb_journal_result + option bytes) :=
  let? _ := replica_copy_metadata_if_absent root in
  match build_manifest_key root (gp_commit_id c) with
  | None => return! inl OTSARDB_JOURNAL_INVALID
  | Some manifest_key =>
      let? json := read_source_manifest manifest_key (gp_manifest_sha256 c) in
      match otsardb_commit_manifest_decode_json json with
      | None => return! inl OTSARDB_JOURNAL_INVALID
      | Some m =>
          let? _ := copy_segments root (cm_segments m) in
          let? _ := replica_retried_put dest e manifest_key json in
          select_commit root database_id model (gp_commit_id c) (gp_generation c) (u64 (gp_generation c - 1))
            manifest_key (gp_manifest_sha256 c) primary_head_etag replica_head_etag (Some replica_head_etag) false
      end
  end.

(** The commits in the order given, each on the etag the one before left. *)
Fixpoint replay_gap (root database_id model : bytes) (commits : list replica_gap_commit)
    (current_etag primary_head_etag : bytes) : M S (otsardb_journal_result + unit) :=
  match commits with
  | [] => return! inr tt
  | c :: rest =>
      let? new_etag := replica_replay_gap_commit root database_id model c current_etag primary_head_etag in
      replay_gap root database_id model rest (default [] new_etag) primary_head_etag
  end.

Definition replica_reconcile_gap (root database_id model : bytes) (head : otsardb_head) (head_etag : bytes)
    (ct : replicated_commit) : M S (otsardb_journal_result + unit) :=
  let? gap := replica_collect_gap root (ct_parent_commit_id ct) (ct_parent_manifest_sha256 ct)
                (ct_parent_generation ct) head in
  replay_gap root database_id model (reverse gap) head_etag (ct_primary_head_etag ct).

(** *** The phase *)

Definition head_is_self (ct : replicated_commit) (head : otsardb_head) : bool :=
  bytes_eqb (hd_commit_id head) (ct_commit_id ct).
Definition head_is_parent (ct : replicated_commit) (head : otsardb_head) : bool :=
  negb (zlen (ct_parent_commit_id ct) =? 0) && (hd_generation head =? ct_parent_generation ct) &&
  bytes_eqb (hd_commit_id head) (ct_parent_commit_id ct).

(** The etag HEAD of the destination is to be replaced at; [None] creates it. *)
Definition classify_destination (root database_id model : bytes) (ct : replicated_commit)
  : M S (otsardb_journal_result + option bytes) :=
  let? res := replica_retried_head_read dest e root in
  match res with
  | None => return! if negb (ct_parent_generation ct =? 0) then inl OTSARDB_JOURNAL_CONFLICT else inr None
  | Some (head, etag) =>
      if head_is_self ct head || head_is_parent ct head then return! inr (Some etag)
      else
        let? _ := replica_reconcile_gap root database_id model head etag ct in
        let? again := replica_retried_head_read dest e root in
        return! match again with
                | None => inl OTSARDB_JOURNAL_NOT_FOUND
                | Some (head, etag) =>
                    if head_is_self ct head || head_is_parent ct head then inr (Some etag)
                    else inl OTSARDB_JOURNAL_CONFLICT
                end
  end.

(** The segments, encoded as the publication encodes them. *)
Fixpoint replicate_segments (root commit_id : bytes) (inputs : list otsardb_segment_input)
  : M S (otsardb_journal_result + unit) :=
  match inputs with
  | [] => return! inr tt
  | input :: inputs' =>
      match otsardb_segment_encode_with_frames OTSARDB_SEGMENT_WAL_FRAMES commit_id (si_payload input) true with
      | None => return! inl OTSARDB_JOURNAL_ERROR
      | Some (data, sha, _) =>
          match object_key root (segment_suffix_of sha) with
          | None => return! inl OTSARDB_JOURNAL_INVALID
          | Some key =>
              let? _ := replica_retried_put dest e key data in
              replicate_segments root commit_id inputs'
          end
      end
  end.

(** Everything after the fence. *)
Definition replicate_through (root database_id model : bytes) (ct : replicated_commit)
  : M S (otsardb_journal_result + unit) :=
  let? expected := classify_destination root database_id model ct in
  let? _ := replica_copy_metadata_if_absent root in
  let? _ := replicate_segments root (ct_commit_id ct) (ct_segments ct) in
  match build_manifest_key root (ct_commit_id ct) with
  | None => return! inl OTSARDB_JOURNAL_INVALID
  | Some manifest_key =>
      let? json := read_source_manifest manifest_key (ct_manifest_sha256 ct) in
      let? _ := replica_retried_put dest e manifest_key json in
      let? _ := select_commit root database_id model (ct_commit_id ct) (ct_generation ct) (ct_parent_generation ct)
                  manifest_key (ct_manifest_sha256 ct) (ct_primary_head_etag ct) (default [] expected) expected
                  (bool_decide (expected = None)) in
      return! inr tt
  end.
End TwoStores.

(** ** The handle *)

Section Handle.
Context `{HSha : Sha256} `{HLz4 : Lz4} `{HA : Aead}.
Context {S : Type} (clock_now : S -> Z) (getenv : bytes -> option bytes).
Abbreviation env := (process_environment getenv).
Abbreviation destination := (otsardb_replica_destination S).

(** The fence: the record must carry the epoch this session adopted. *)
Definition replica_epoch_verify (d : destination) (database_root : bytes)
  : M S ((otsardb_journal_result + unit) * destination) :=
  let! read := otsardb_replica_epoch_read (rd_store d) database_root in
  return! match read with
          | inl OTSARDB_JOURNAL_NOT_FOUND => (inl OTSARDB_JOURNAL_CONFLICT, d)
          | inl rc => (inl rc, d)
          | inr view =>
              if negb (ev_exists view) || negb (rd_epoch_known d) || negb (ev_epoch view =? rd_epoch d)
              then (inl OTSARDB_JOURNAL_CONFLICT, d)
              else (inr tt, if zlen (ev_etag view) =? 0 then d
                            else set_epoch_record (rd_epoch_created d) (rd_epoch d) (ev_etag view)
                                   (rd_epoch_known d) d)
          end.

Definition replica_replicate_destination (primary : otsardb_object_store S) (root database_id model : bytes)
    (ct : replicated_commit) (d : destination) : M S ((otsardb_journal_result + unit) * destination) :=
  let! (verified, d) := replica_epoch_verify d root in
  match verified with
  | inl rc => return! (inl rc, d)
  | inr _ =>
      let! r := replicate_through clock_now env primary (rd_store d) root database_id model ct in
      return! (r, d)
  end.

Definition replica_ensure_primary_committed (primary : otsardb_object_store S) (root : bytes)
    (ct : replicated_commit) : M S (otsardb_journal_result + unit) :=
  let! stamp := utc_now clock_now in
  match ledger_key root (ct_commit_id ct) with
  | None => return! inl OTSARDB_JOURNAL_INVALID
  | Some key =>
      let? _ := replica_retried_ledger primary env key
                  (ledger_encode (ledger_of (ct_commit_id ct) (ct_generation ct) (ct_parent_generation ct)
                     (ct_manifest_sha256 ct) OTSARDB_REPLICA_STATE_COMMITTED (ct_primary_head_etag ct) []
                     (str "C") (str "primary") stamp))
                  (ct_commit_id ct) OTSARDB_REPLICA_STATE_COMMITTED in
      return! inr tt
  end.

(** The destinations in order: how many succeeded and the first transport
    failure; a definitive failure ends the loop. *)
Fixpoint replicate_destinations (primary : otsardb_object_store S) (root database_id model : bytes)
    (ct : replicated_commit) (ds : list destination) (succeeded : Z) (first : option otsardb_journal_result)
  : M S ((otsardb_journal_result + Z * option otsardb_journal_result) * list destination) :=
  match ds with
  | [] => return! (inr (succeeded, first), [])
  | d :: rest =>
      let! (r, d) := replica_replicate_destination primary root database_id model ct d in
      match r with
      | inl rc =>
          if otsardb_wal_publisher_rc_retryable rc then
            let! (out, rest) := replicate_destinations primary root database_id model ct rest succeeded
                                  (Some (default rc first)) in
            return! (out, d :: rest)
          else return! (inl rc, d :: rest)
      | inr _ =>
          let! (out, rest) := replicate_destinations primary root database_id model ct rest (succeeded + 1) first in
          return! (out, d :: rest)
      end
  end.

Definition replication_model (r : otsardb_replica S) : bytes :=
  if 1 <? zlen (rr_destinations r) then str "C" else str "B".

Definition otsardb_replica_replicate_commit (primary : otsardb_object_store S) (root : bytes)
    (ct : replicated_commit) (r : otsardb_replica S)
  : M S ((otsardb_journal_result + unit) * otsardb_replica S) :=
  match rr_destinations r with
  | [] => return! (inl OTSARDB_JOURNAL_ERROR, r)
  | ds =>
      let! (out, ds) := replicate_destinations primary root (rr_database_id r) (replication_model r) ct ds 0 None in
      let r := set_destinations ds r in
      match out with
      | inl rc => return! (inl rc, r)
      | inr (succeeded, first) =>
          if otsardb_replica_quorum getenv r <=? 1 + succeeded then
            if succeeded =? 0 then
              let! primary_ok := replica_ensure_primary_committed primary root ct in
              return! (primary_ok, r)
            else return! (inr tt, r)
          else return! (inl (default OTSARDB_JOURNAL_ERROR first), r)
      end
  end.

(** Best effort: the result is ignored. *)
Definition otsardb_replica_mark_aborted (primary : otsardb_object_store S) (root : bytes) (ct : replicated_commit)
  : M S unit :=
  let! stamp := utc_now clock_now in
  match ledger_key root (ct_commit_id ct) with
  | None => return! tt
  | Some key =>
      let! _ := ledger_write_cas primary key
                  (ledger_encode (ledger_of (ct_commit_id ct) (ct_generation ct) (ct_parent_generation ct)
                     (ct_manifest_sha256 ct) OTSARDB_REPLICA_STATE_ABORTED (ct_primary_head_etag ct) []
                     (str "B") (str "primary") stamp))
                  (ct_commit_id ct) OTSARDB_REPLICA_STATE_ABORTED in
      return! tt
  end.

Definition otsardb_replica_epoch (r : otsardb_replica S) : Z :=
  let index := if (0 <=? rr_promoted_index r) && (rr_promoted_index r <? zlen (rr_destinations r))
               then Z.to_nat (rr_promoted_index r) else 0%nat in
  match rr_destinations r !! index with
  | Some d => rd_epoch d
  | None => 0
  end.

(** *** Opening *)

Definition replica_destination_append (store : otsardb_object_store S) (strategy : otsardb_write_strategy)
    (borrowed : bool) (r : otsardb_replica S) : otsardb_replica S :=
  set_destinations (rr_destinations r ++ [mkDestination store strategy borrowed false 0 [] false]) r.

Definition replica_destination_pop (r : otsardb_replica S) : otsardb_replica S :=
  set_destinations (take (length (rr_destinations r) - 1) (rr_destinations r)) r.

(** The epoch records of the destinations that have none yet. *)
Fixpoint bootstrap_destinations (fuel : nat) (root database_id : bytes) (generation : Z) (ds : list destination)
  : M S (option (bool * list destination)) :=
  match ds with
  | [] => return! Some (true, [])
  | d :: rest =>
      let go d :=
        let! r := bootstrap_destinations fuel root database_id generation rest in
        return! match r with None => None | Some (ok, rest) => Some (ok, d :: rest) end in
      if rd_epoch_created d then go d
      else
        let! r := epoch_create_or_adopt clock_now (rd_store d) fuel root database_id generation in
        match r with
        | None => return! None
        | Some (inl _) => return! Some (false, d :: rest)
        | Some (inr (epoch, etag)) => go (set_epoch_record true epoch etag true d)
        end
  end.

Definition replica_bootstrap_epoch (fuel : nat) (primary : otsardb_object_store S) (generation : Z)
    (r : otsardb_replica S) : M S (option (bool * otsardb_replica S)) :=
  let! created := if rr_primary_epoch_created r then return! Some (inr (0, []))
                  else epoch_create_or_adopt clock_now primary fuel (rr_database_root r) (rr_database_id r)
                         generation in
  match created with
  | None => return! None
  | Some (inl _) => return! Some (false, r)
  | Some (inr _) =>
      let! ds := bootstrap_destinations fuel (rr_database_root r) (rr_database_id r) generation
                   (rr_destinations r) in
      return! match ds with
              | None => None
              | Some (ok, ds) => Some (ok, mkReplica ds (rr_database_root r) (rr_database_id r) true
                                             (rr_promoted_index r))
              end
  end.

(** The handle of a publisher; [None] is no handle. *)
Definition otsardb_replica_attach (fuel : nat) (primary : otsardb_object_store S) (root database_id : bytes)
    (generation : Z) (store : otsardb_object_store S) (strategy : otsardb_write_strategy) (borrowed : bool)
    (handle : option (otsardb_replica S)) : M S (option (bool * option (otsardb_replica S))) :=
  let r := default (mkReplica [] (snprintf_s 1024 root) (snprintf_s 64 database_id) false (-1)) handle in
  let! booted := replica_bootstrap_epoch fuel primary generation (replica_destination_append store strategy borrowed r) in
  return! match booted with
          | None => None
          | Some (true, r) => Some (true, Some r)
          | Some (false, r) =>
              let r := replica_destination_pop r in
              Some (false, match rr_destinations r with [] => None | _ => Some r end)
          end.

(** What the S3 adapter is asked to create; the adapter is a parameter. *)
Record otsardb_s3_config := mkS3Config {
  s3_endpoint : bytes;
  s3_region : bytes;
  s3_bucket : bytes;
  s3_access_key : option bytes;
  s3_secret_key : option bytes;
  s3_prefix : option bytes;
  s3_use_https : bool
}.
Context (otsardb_s3_store_create : otsardb_s3_config -> option (otsardb_object_store S)) (pid : Z).

Definition replica_store_create_from_env (var_set : Z) (database_id : bytes)
  : M S (option (otsardb_object_store S * otsardb_store_probe_report * otsardb_write_strategy)) :=
  let value suffix := replica_env_value getenv var_set suffix 64 in
  match value (str "ENDPOINT"), value (str "BUCKET") with
  | Some endpoint, Some bucket =>
      match otsardb_s3_store_create
              (mkS3Config endpoint (default (str "us-east-1") (value (str "REGION"))) bucket
                 (value (str "ACCESS_KEY")) (value (str "SECRET_KEY"))
                 (env_nonempty getenv (str "OTSARDB_S3_PREFIX")) true) with
      | None => return! None
      | Some store =>
          match fits (OTSARDB_KEY_MAX + 1) (str "__otsardb_probe/" ++ database_id ++ str "/replica" ++ dec var_set ++
                                            str "/p" ++ dec pid) with
          | None => return! None
          | Some key =>
              let! probed := otsardb_store_probe_capabilities store key in
              return! match probed with
                      | inl _ => None
                      | inr (report, store) =>
                          if negb (pr_s3_core_ok report) then None
                          else Some (store, report,
                                 if pr_s3_cas_ok report then OTSARDB_WRITE_STRATEGY_CAS
                                 else OTSARDB_WRITE_STRATEGY_SINGLE_WRITER)
                      end
          end
      end
  | _, _ => return! None
  end.

Definition otsardb_replica_open_reader_at (destination_index : Z) (database_id : bytes)
  : M S (option (otsardb_object_store S * otsardb_store_probe_report)) :=
  if (destination_index <? 0) || (OTSARDB_REPLICA_MAX_DESTINATIONS <=? destination_index) ||
     negb (replica_var_set_configured getenv destination_index)
  then return! None
  else
    let! r := replica_store_create_from_env destination_index database_id in
    return! option_map fst r.

Definition otsardb_replica_open_reader (database_id : bytes)
  : M S (option (otsardb_object_store S * otsardb_store_probe_report)) :=
  otsardb_replica_open_reader_at 0 database_id.

(** The configured sets, in order. *)
Fixpoint open_destinations (sets : list Z) (database_id : bytes) (r : otsardb_replica S)
  : M S (option (otsardb_replica S)) :=
  match sets with
  | [] => return! Some r
  | set :: rest =>
      if negb (replica_var_set_configured getenv set) then open_destinations rest database_id r
      else
        let! created := replica_store_create_from_env set database_id in
        match created with
        | None => return! None
        | Some (store, _, strategy) =>
            open_destinations rest database_id (replica_destination_append store strategy false r)
        end
  end.

Definition otsardb_replica_open (fuel : nat) (primary : otsardb_object_store S) (root database_id : bytes)
  : M S (option (option (otsardb_replica S))) :=
  if negb (replica_var_set_configured getenv 0) then return! Some None
  else
    let! opened := open_destinations [0; 1; 2] database_id
                     (mkReplica [] (snprintf_s 1024 root) (snprintf_s 64 database_id) false (-1)) in
    match opened with
    | None => return! Some None
    | Some r =>
        let! booted := replica_bootstrap_epoch fuel primary 0 r in
        return! match booted with
                | None => None
                | Some (ok, r) => Some (if ok : bool then Some r else None)
                end
    end.

(** The other destinations of a promoted session. *)
Fixpoint attach_env_others (fuel : nat) (sets : list Z) (exclude_index : Z) (primary : otsardb_object_store S)
    (root database_id : bytes) (generation : Z) (handle : option (otsardb_replica S))
  : M S (option (bool * option (otsardb_replica S))) :=
  match sets with
  | [] => return! Some (true, handle)
  | set :: rest =>
      if (set =? exclude_index) || negb (replica_var_set_configured getenv set)
      then attach_env_others fuel rest exclude_index primary root database_id generation handle
      else
        let! created := replica_store_create_from_env set database_id in
        match created with
        | None => return! Some (false, handle)
        | Some (store, _, strategy) =>
            let! attached := otsardb_replica_attach fuel primary root database_id generation store strategy false
                               handle in
            match attached with
            | None => return! None
            | Some (false, handle) => return! Some (false, handle)
            | Some (true, handle) =>
                attach_env_others fuel rest exclude_index primary root database_id generation handle
            end
        end
  end.

Definition otsardb_replica_attach_env_others (fuel : nat) (exclude_index : Z) (primary : otsardb_object_store S)
    (root database_id : bytes) (generation : Z) (handle : option (otsardb_replica S))
  : M S (option (bool * option (otsardb_replica S))) :=
  attach_env_others fuel [0; 1; 2] exclude_index primary root database_id generation handle.

(** *** Promotion *)

Definition replica_old_primary_releasable (store : otsardb_object_store S) (root : bytes) (ttl_secs : Z) : M S bool :=
  match root_join root (str "lease.json") (OTSARDB_KEY_MAX + 1) with
  | None => return! false
  | Some key =>
      let! rc := otsardb_store_get store key in
      match rc with
      | inl OTSARDB_STORE_NOT_FOUND => return! true
      | inl _ => return! false
      | inr ob =>
          if 0 <? so_last_modified_secs ob then
            let! now := read_clock clock_now in
            return! otsardb_lease_age_is_expired ttl_secs (age_of now (so_last_modified_secs ob))
          else return! false
      end
  end.

(** The keys the listing callback keeps; [None] beyond its bound. *)
Definition replica_safe_scan (keys : list bytes) : option (list bytes) :=
  let kept := filter (fun k => Is_true (negb (zlen k =? 0) && negb (bytes_eqb k (str "epoch.json")))) keys in
  if 1000000 <? zlen kept then None else Some kept.

Definition committed_ledger (ob : otsardb_store_object) : option otsardb_replica_ledger :=
  match ledger_decode (so_data ob) with
  | Some l => if bytes_eqb (lg_state l) OTSARDB_REPLICA_STATE_COMMITTED then Some l else None
  | None => None
  end.

(** The newest COMMITTED generation of the listed ledgers. *)
Fixpoint newest_committed (store : otsardb_object_store S) (root : bytes) (keys : list bytes) (safe : Z)
  : M S (otsardb_journal_result + Z) :=
  match keys with
  | [] => return! inr safe
  | k :: rest =>
      match fits (OTSARDB_KEY_MAX + 1) (root ++ str "/replica/" ++ k) with
      | None => return! inl OTSARDB_JOURNAL_ERROR
      | Some key =>
          let! rc := otsardb_store_get store key in
          match rc with
          | inl OTSARDB_STORE_NOT_FOUND => newest_committed store root rest safe
          | inl _ => return! inl OTSARDB_JOURNAL_ERROR
          | inr ob =>
              newest_committed store root rest
                (match committed_ledger ob with
                 | Some l => if safe <? lg_generation l then lg_generation l else safe
                 | None => safe
                 end)
          end
      end
  end.

(** Without listing: HEAD, when its ledger is COMMITTED. *)
Definition safe_from_head (store : otsardb_object_store S) (root : bytes) : M S (otsardb_journal_result + Z) :=
  let! (rc, res) := otsardb_journal_read_head store root in
  match rc, res with
  | OTSARDB_JOURNAL_OK, Some (head, _) =>
      match fits (OTSARDB_KEY_MAX + 1) (root ++ str "/replica/" ++ hd_commit_id head ++ str ".json") with
      | None => return! inl OTSARDB_JOURNAL_INVALID
      | Some key =>
          let! got := otsardb_store_get store key in
          return! inr (match got with
                       | inr ob => match committed_ledger ob with Some _ => hd_generation head | None => 0 end
                       | inl _ => 0
                       end)
      end
  | OTSARDB_JOURNAL_NOT_FOUND, _ => return! inr 0
  | rc, _ => return! inl rc
  end.

Definition destination_safe_last_commit (store : otsardb_object_store S) (root : bytes)
  : M S (otsardb_journal_result + Z) :=
  match fits (OTSARDB_KEY_MAX + 1) (root ++ str "/replica/") with
  | None => return! inl OTSARDB_JOURNAL_INVALID
  | Some prefix =>
      let! listed := otsardb_store_list store prefix in
      match listed with
      | inl OTSARDB_STORE_UNSUPPORTED => safe_from_head store root
      | inl _ => return! inl OTSARDB_JOURNAL_ERROR
      | inr keys =>
          match replica_safe_scan keys with
          | None => return! inl OTSARDB_JOURNAL_ERROR
          | Some keys => newest_committed store root keys 0
          end
      end
  end.

Definition destination_head_generation (store : otsardb_object_store S) (root : bytes)
  : M S (otsardb_journal_result + Z) :=
  let! (rc, res) := otsardb_journal_read_head store root in
  return! match rc, res with
          | OTSARDB_JOURNAL_OK, Some (head, _) => inr (hd_generation head)
          | OTSARDB_JOURNAL_NOT_FOUND, _ => inr 0
          | rc, _ => inl rc
          end.

(** The destination whose HEAD is its newest COMMITTED commit, the newest of
    them; [best] is the choice so far, with its generation. *)
Fixpoint promotion_pick (root : bytes) (i : nat) (ds : list destination) (best : option (nat * Z))
  : M S (otsardb_journal_result + option (nat * Z)) :=
  match ds with
  | [] => return! inr best
  | d :: rest =>
      let? safe := destination_safe_last_commit (rd_store d) root in
      let? head_gen := destination_head_generation (rd_store d) root in
      promotion_pick root (Datatypes.S i) rest
        (if (safe =? 0) || negb (head_gen =? safe) then best
         else if match best with None => 0 | Some (_, b) => b end <? safe then Some (i, safe) else best)
  end.

(** The restore runs on the store and the local files. *)
Definition otsardb_replica_promote (thread_cipher : option bytes) (old_primary : otsardb_object_store S)
    (local_db_path : bytes) (lease_ttl_secs : Z) (r : otsardb_replica S)
  : M (S * local) ((otsardb_journal_result + unit) * otsardb_replica S) :=
  if zlen local_db_path =? 0 then return! (inl OTSARDB_JOURNAL_INVALID, r)
  else
    let root := rr_database_root r in
    let ttl := if lease_ttl_secs =? 0 then replica_lease_ttl_env getenv else lease_ttl_secs in
    let! free := on_store (replica_old_primary_releasable old_primary root ttl) in
    if negb free then return! (inl OTSARDB_JOURNAL_CONFLICT, r)
    else
      let! pick := on_store (promotion_pick root 0 (rr_destinations r) None) in
      match pick with
      | inl rc => return! (inl rc, r)
      | inr None => return! (inl OTSARDB_JOURNAL_CONFLICT, r)
      | inr (Some (best, _)) =>
          match rr_destinations r !! best with
          | None => return! (inl OTSARDB_JOURNAL_ERROR, r)
          | Some d =>
              let r := mkReplica (rr_destinations r) root (rr_database_id r) (rr_primary_epoch_created r)
                         (Z.of_nat best) in
              let! raised := on_store (otsardb_replica_epoch_raise clock_now (rd_store d) root (rr_database_id r) None) in
              match raised with
              | inl rc => return! (inl rc, r)
              | inr epoch =>
                  let! view := on_store (otsardb_replica_epoch_read (rd_store d) root) in
                  let etag := match view with
                              | inr v => if zlen (ev_etag v) =? 0 then rd_epoch_etag d else ev_etag v
                              | inl _ => rd_epoch_etag d
                              end in
                  let r := set_destinations
                             (<[best := set_epoch_record (rd_epoch_created d) epoch etag true d]>
                                (rr_destinations r)) r in
                  let! restored := otsardb_recovery_restore_store (rd_store d) thread_cipher root local_db_path in
                  return! (if restored then inr tt else inl OTSARDB_JOURNAL_ERROR, r)
              end
          end
      end.
End Handle.
