(* ===== verification/ReplicaTheory.v ===== *)
(** * Replicas: records, the cluster of stores, the ledger

    The texts of the ledgers and epoch records are read back; a cluster is a
    family of stores over one state, each lawful and seen by the others as a
    peer; the ledger of a commit never leaves COMMITTED. *)

From S2P Require Import Prelude CText JsonText ObjectStore Journal Codec Sha256 Segment CommitManifest.
From S2P Require Import CommitPublish CommitPublishTheory Lease WalPublisher Triples Replica.

(** ** Texts *)

Lemma cstr_text ts tail :
  forallb (fun t => no_nul (tok_str t)) ts = true -> cstr (text ts tail) = text ts (cstr tail).
Proof. intros H. rewrite text_tail, cstr_app, <- text_tail by (by apply text_no_nul). done. Qed.

Lemma json_extract_string_text ts tail name n s r :
  name_ok name = true -> toks_wf ts = true -> zlen (pattern name str_colon_quote) < 64 ->
  tok_find name str_colon_quote ts tail = Some (s ++ dq :: r) ->
  noq s = true -> 0 < zlen s < n -> json_extract_string (text ts tail) name n = Some s.
Proof.
  intros ???? Hq Hs. unfold json_extract_string. rewrite (extract_string_raw_text 64 ts tail name n s r) by (done || lia).
  destruct s; [by destruct Hs|done].
Qed.

(** The fields of a ledger that are read back come before the etags, so that an
    etag may hold any character. *)
Definition ledger_toks (l : otsardb_replica_ledger) : list tok :=
  [TR (str "{"); TQ (str "commit_id"); TR (str ":"); TQ (lg_commit_id l);
   TR (str ","); TQ (str "generation"); TR (str ":"); TR (dec (lg_generation l));
   TR (str ","); TQ (str "parent_generation"); TR (str ":"); TR (dec (lg_parent_generation l));
   TR (str ","); TQ (str "manifest_sha256"); TR (str ":"); TQ (lg_manifest_sha256 l);
   TR (str ","); TQ (str "state"); TR (str ":"); TQ (lg_state l); TR (str ",")].

Definition ledger_tail (l : otsardb_replica_ledger) : bytes :=
  q "primary_etag" ++ str ":" ++ quoted (lg_primary_etag l) ++
  str "," ++ q "replica_etag" ++ str ":" ++ quoted (lg_replica_etag l) ++
  str "," ++ q "model" ++ str ":" ++ quoted (lg_model l) ++
  str "," ++ q "destination" ++ str ":" ++ quoted (lg_destination l) ++
  str "," ++ q "written_at_utc" ++ str ":" ++ quoted (lg_written_at_utc l) ++ str "}" ++ [10].

#[export] Hint Unfold ledger_toks : toks.

Lemma ledger_encode_toks l : ledger_encode l = text (ledger_toks l) (ledger_tail l).
Proof.
  unfold ledger_encode, ledger_toks, ledger_tail, q, quoted. cbn [text].
  repeat (rewrite <- ?app_assoc, <- ?app_comm_cons; cbn [app]). done.
Qed.

Definition ledger_ok (l : otsardb_replica_ledger) : Prop :=
  text_ok (lg_commit_id l) = true /\ 0 < zlen (lg_commit_id l) < 64 /\ is_u64 (lg_generation l) /\
  is_u64 (lg_parent_generation l) /\ text_ok (lg_manifest_sha256 l) = true /\
  text_ok (lg_state l) = true /\ 0 < zlen (lg_state l) < 16.

Ltac json_num64 := eapply extract_u64_raw_text;
  [reflexivity|json_wf|reflexivity|json_find; reflexivity|auto using u32_is_u64|reflexivity].
Ltac json_str64 := eapply json_extract_string_text;
  [reflexivity|json_wf|reflexivity|json_find; reflexivity|assumption|assumption].

(** What decoding gives of an encoded ledger. *)
Definition ledger_key_fields (l : otsardb_replica_ledger) : otsardb_replica_ledger :=
  mkLedger (lg_commit_id l) (lg_generation l) 0 [] (lg_state l) [] [] [] [] [].

Lemma ledger_decodes l : ledger_ok l -> ledger_decode (ledger_encode l) = Some (ledger_key_fields l).
Proof.
  intros (Hc & Hcl & Hg & Hp & Hs & Hst & Hsl). unfold text_ok in *. prop_bools.
  rewrite ledger_encode_toks. unfold ledger_decode.
  assert ((zlen (text (ledger_toks l) (ledger_tail l)) =? 0) = false) as -> by apply zlen_eqb_0.
  rewrite cstr_text by json_wf. set (tail := cstr (ledger_tail l)).
  unfold json_extract_u64. change (OTSARDB_COMMIT_ID_MAX + 1) with 64. unfold OTSARDB_REPLICA_STATE_MAX.
  assert (json_extract_string (text (ledger_toks l) tail) (str "commit_id") 64 = Some (lg_commit_id l)) as ->
    by json_str64.
  assert (extract_u64_raw 64 (text (ledger_toks l) tail) (str "generation") = Some (lg_generation l)) as -> by json_num64.
  assert (json_extract_string (text (ledger_toks l) tail) (str "state") 16 = Some (lg_state l)) as -> by json_str64.
  done.
Qed.

(** The epoch record. *)
Definition epoch_toks (epoch : Z) (owner : bytes) (generation : Z) : list tok :=
  [TR (str "{"); TQ (str "epoch"); TR (str ":"); TR (dec epoch);
   TR (str ","); TQ (str "owner"); TR (str ":"); TQ owner;
   TR (str ","); TQ (str "generation"); TR (str ":"); TR (dec generation); TR (str ",")].
Definition epoch_tail (note stamp : bytes) : bytes :=
  q "model" ++ str ":" ++ q "B" ++ str "," ++ q "note" ++ str ":" ++ quoted note ++
  str "," ++ q "written_at_utc" ++ str ":" ++ quoted stamp ++ str "}" ++ [10].
#[export] Hint Unfold epoch_toks : toks.

Lemma epoch_text_toks epoch owner generation note stamp :
  epoch_text epoch owner generation note stamp = text (epoch_toks epoch owner generation) (epoch_tail note stamp).
Proof.
  unfold epoch_text, epoch_toks, epoch_tail, q, quoted. cbn [text].
  repeat (rewrite <- ?app_assoc, <- ?app_comm_cons; cbn [app]). done.
Qed.

(** The epoch an object records, as the readers parse it. *)
Definition recorded_epoch (data : bytes) : option Z := json_extract_u64 (cstr data) (str "epoch").

Lemma epoch_text_reads epoch owner generation note stamp :
  is_u64 epoch -> is_u64 generation -> text_ok owner = true ->
  recorded_epoch (epoch_text epoch owner generation note stamp) = Some epoch /\
  json_extract_u64 (cstr (epoch_text epoch owner generation note stamp)) (str "generation") = Some generation.
Proof.
  intros He Hg Ho. unfold text_ok in Ho. prop_bools. unfold recorded_epoch, json_extract_u64.
  rewrite epoch_text_toks, cstr_text by json_wf. split; json_num64.
Qed.

(** ** Keys *)

Lemma ledger_key_join root cid k :
  ledger_key root cid = Some k -> root_join root (str "replica/" ++ cid ++ str ".json") (OTSARDB_KEY_MAX + 1) = Some k.
Proof. apply object_key_join. Qed.

Lemma ledger_key_not_head root cid k :
  ledger_key root cid = Some k -> build_head_key root (OTSARDB_KEY_MAX + 1) <> Some k.
Proof.
  intros H Hh. apply ledger_key_join in H. unfold build_head_key in Hh.
  pose proof (root_join_inj _ _ _ _ _ H Hh) as E. discriminate E.
Qed.

Lemma ledger_key_not_immutable root cid k : ledger_key root cid = Some k -> ~ immutable_key root k.
Proof.
  intros H (suffix & Hi & Ho). apply ledger_key_join in H. apply object_key_join in Ho.
  rewrite <- (root_join_inj _ _ _ _ _ H Ho) in Hi. discriminate Hi.
Qed.

Lemma ledger_key_inj root cid cid' k : ledger_key root cid = Some k -> ledger_key root cid' = Some k -> cid = cid'.
Proof.
  intros H H'. apply ledger_key_join in H, H'. pose proof (root_join_inj _ _ _ _ _ H H') as E.
  apply app_inv_head in E. by apply app_inv_tail in E.
Qed.

(** ** A cluster of stores *)

(** Store 0 is the primary; [env x] is what the peers of store [x] may do, the
    operations on the other stores of the cluster included. *)
Class Cluster {S} (stores : nat -> otsardb_object_store S) (views : nat -> S -> contents)
    (env : nat -> contents -> contents -> Prop) : Prop := {
  cluster_laws : forall x, StoreLaws (stores x) (views x) (env x);
  cluster_get : forall x y key s r s', x <> y -> otsardb_store_get (stores x) key s = (r, s') ->
    env y (views y s) (views y s');
  cluster_put : forall x y key data o s r s', x <> y -> otsardb_store_put (stores x) key data o s = (r, s') ->
    env y (views y s) (views y s')
}.

(** What every client does to a store, by the number of the store. *)
Section Runs.
Context {S : Type} (stores : nat -> otsardb_object_store S) (views : nat -> S -> contents)
        (env : nat -> contents -> contents -> Prop) {Hcluster : Cluster stores views env}.
Context (step : nat -> contents -> contents -> Prop) {Hstep : forall x, PreOrder (step x)}.
Context (Henv : forall x v w, env x v w -> step x v w).

Definition moves (s s' : S) : Prop := forall x, step x (views x s) (views x s').

#[export] Instance moves_preorder : PreOrder moves.
Proof. split; [by intros s x|]. intros a b c H1 H2 x. transitivity (views x b); [apply H1|apply H2]. Qed.

Lemma cluster_get_run x key s r s' : otsardb_store_get (stores x) key s = (r, s') ->
  moves s s' /\ env x (views x s) (views x s') /\
  match r with
  | inr ob => views x s' !! key = Some ob
  | inl OTSARDB_STORE_NOT_FOUND => views x s' !! key = None
  | inl _ => True
  end.
Proof.
  intros H. destruct (get_law (StoreLaws := cluster_laws x) _ _ _ _ H) as [He Hr]. split_and!; [|done..].
  intros y. apply Henv. destruct (decide (x = y)) as [<-|]; [done|]. by eapply cluster_get.
Qed.

(** A put moves the cluster when the insertion is a step. *)
Lemma put_run x key data o s r s' : otsardb_store_put (stores x) key data o s = (r, s') ->
  (forall w ob, env x (views x s) w -> precondition w key o = true -> so_data ob = data ->
    step x w (<[key := ob]> w)) ->
  moves s s' /\ exists w, env x (views x s) w /\
    match r with
    | inr etag => precondition w key o = true /\ stored w (views x s') key data etag
    | inl OTSARDB_STORE_PRECONDITION_FAILED => precondition w key o = false /\ views x s' = w
    | inl OTSARDB_STORE_UNSUPPORTED => views x s' = w
    | inl _ => views x s' = w \/ (precondition w key o = true /\ stored w (views x s') key data None)
    end.
Proof.
  intros H Hins. destruct (put_law (StoreLaws := cluster_laws x) _ _ _ _ _ _ H) as (w & Hw & Hr).
  split; [|by exists w]. intros y. destruct (decide (x = y)) as [<-|Hne].
  2:{ apply Henv. by eapply cluster_put. }
  assert (views x s' = w -> step x (views x s) (views x s')) as Heq by (intros ->; by apply Henv).
  assert (forall etag, precondition w key o = true -> stored w (views x s') key data etag ->
    step x (views x s) (views x s')) as Hst.
  { intros etag Hp (ob & Hd & _ & ->). transitivity w; [by apply Henv|]. by apply Hins. }
  destruct r as [[]|etag]; try (by apply Heq); try (by apply Heq, Hr);
    try (destruct Hr as [Hr|[Hp Hr]]; [by apply Heq|by eapply Hst]). destruct Hr. by eapply Hst.
Qed.

(** An insertion that is refused unless the key is free, or that a step allows
    for every content. *)
Lemma get_triple x key P : stable moves P ->
  triple moves P (otsardb_store_get (stores x) key) (fun r s => P s /\
    match r with
    | inr ob => views x s !! key = Some ob
    | inl OTSARDB_STORE_NOT_FOUND => views x s !! key = None
    | inl _ => True
    end).
Proof. intros HP s r s' Hs H. apply cluster_get_run in H as (Hm & _ & Hr). split_and!; eauto. Qed.
End Runs.

(** ** Ledgers *)

(** The record under [key] says that the commit is COMMITTED. *)
Definition committed_at (v : contents) (key cid : bytes) : Prop :=
  exists ob l, v !! key = Some ob /\ ledger_decode (so_data ob) = Some l /\ lg_commit_id l = cid /\
    lg_state l = OTSARDB_REPLICA_STATE_COMMITTED.

(** The record under [key] is that of the commit, in [state] or COMMITTED. *)
Definition recorded_at (v : contents) (key cid state : bytes) : Prop :=
  exists ob l, v !! key = Some ob /\ ledger_decode (so_data ob) = Some l /\ lg_commit_id l = cid /\
    (lg_state l = state \/ lg_state l = OTSARDB_REPLICA_STATE_COMMITTED).

Definition ledgers_kept (root : bytes) (v w : contents) : Prop :=
  forall cid key, ledger_key root cid = Some key -> committed_at v key cid -> committed_at w key cid.

(** An object with the same etag, or with none, is the same object. *)
Definition faithful (v w : contents) : Prop :=
  forall k ob ob', v !! k = Some ob -> w !! k = Some ob' ->
    so_etag ob' = so_etag ob \/ nonempty_etag (so_etag ob) = None -> so_data ob' = so_data ob.

#[export] Instance ledgers_kept_preorder root : PreOrder (ledgers_kept root).
Proof. split; [by intros v cid key|]. intros a b c H1 H2 cid key Hk H. eauto. Qed.

Lemma committed_other v k ob key cid : k <> key -> committed_at v key cid -> committed_at (<[k := ob]> v) key cid.
Proof. intros Hne (o & l & Hl & H). exists o, l. by rewrite lookup_insert_ne. Qed.

Lemma ledgers_kept_insert root v k ob :
  (forall cid, ledger_key root cid = Some k -> ~ committed_at v k cid) -> ledgers_kept root v (<[k := ob]> v).
Proof.
  intros Hn cid key Hk Hc. destruct (decide (k = key)) as [->|Hne]; [by destruct (Hn cid)|].
  by apply committed_other.
Qed.

Lemma ledgers_kept_fresh root v k ob : v !! k = None -> ledgers_kept root v (<[k := ob]> v).
Proof. intros H. apply ledgers_kept_insert. intros cid _ (o & l & Hl & _). congruence. Qed.

Section Ledger.
Context {S : Type} (stores : nat -> otsardb_object_store S) (views : nat -> S -> contents)
        (env : nat -> contents -> contents -> Prop) {Hcluster : Cluster stores views env}.
Context (step : nat -> contents -> contents -> Prop) {Hstep : forall x, PreOrder (step x)}.
Context (Henv : forall x v w, env x v w -> step x v w) (Hfaith : forall x v w, env x v w -> faithful v w).
Context (root : bytes).
(** A ledger may be written over anything but a COMMITTED record. *)
Context (Hledger : forall x v key cid ob, ledger_key root cid = Some key -> (forall c, ~ committed_at v key c) ->
  step x v (<[key := ob]> v)).
Context (x : nat).
Context (Hcreate : otsardb_store_supports (stores x) OTSARDB_STORE_CAP_CONDITIONAL_CREATE = true).
Context (Hupdate : otsardb_store_supports (stores x) OTSARDB_STORE_CAP_CONDITIONAL_UPDATE = true).

Abbreviation moves := (moves views step).

Lemma ledger_resolve_ok key cid state : triple moves (fun _ => True) (ledger_resolve (stores x) key cid state)
  (fun r s => r = OTSARDB_JOURNAL_OK -> recorded_at (views x s) key cid state).
Proof.
  unfold ledger_resolve. eapply triple_bind; [apply _|by eapply get_triple|].
  intros r. apply triple_ret; [apply _|]. intros s [_ Hr].
  destruct r as [[]|ob]; try done. destruct (ledger_decode _) as [l|] eqn:El; [|done].
  destruct (bytes_eqb (lg_commit_id l) cid) eqn:Ec, (bytes_eqb (lg_state l) state) eqn:Es; try done.
  apply bytes_eqb_eq in Ec, Es. intros _. exists ob, l. auto.
Qed.

(** The put of an attempt, when the conditions hold only over a record that may
    be replaced. *)
Lemma ledger_put_ok key json cid c l state o retry P :
  ledger_key root c = Some key -> ledger_decode json = Some l -> lg_commit_id l = cid -> lg_state l = state ->
  (forall s w, P s -> env x (views x s) w -> precondition w key o = true -> forall c, ~ committed_at w key c) ->
  triple moves (fun _ => True) retry
    (fun r s => fst r = OTSARDB_JOURNAL_OK -> recorded_at (views x s) key cid state) ->
  triple moves P (ledger_put (stores x) key json cid state o retry)
    (fun r s => fst r = OTSARDB_JOURNAL_OK -> recorded_at (views x s) key cid state).
Proof.
  intros Hk Hj Hc Hst Hpre Hretry. unfold ledger_put.
  apply triple_bind with (fun r s => match r with
    | inr _ => recorded_at (views x s) key cid state | inl _ => True end); [apply _| |].
  { intros s r s' HP H. destruct (put_run stores views env step Henv x _ _ _ _ _ _ H) as (Hm & w & Hw & Hr).
    - intros w ob Hw Hp _. eapply Hledger; [exact Hk|]. eapply Hpre; eauto.
    - split; [exact Hm|]. destruct r as [e|etag]; [done|]. destruct Hr as (_ & ob & Hd & _ & ->).
      exists ob, l. rewrite lookup_insert_eq, Hd. auto. }
  intros [[]|etag]; try (apply triple_ret; [apply _|by cbn]).
  - eapply triple_weaken; [exact Hretry|done|done].
  - eapply triple_bind; [apply _| |].
    + eapply triple_weaken; [apply (ledger_resolve_ok key cid state)|done|]. intros a s H. exact H.
    + intros r. apply triple_ret; [apply _|]. by cbn.
Qed.

(** An attempt that reports success has seen or written the record. *)
Lemma ledger_attempts_ok n key json cid c l state :
  ledger_key root c = Some key -> ledger_decode json = Some l -> lg_commit_id l = cid -> lg_state l = state ->
  triple moves (fun _ => True) (ledger_attempts (stores x) n key json cid state)
    (fun r s => fst r = OTSARDB_JOURNAL_OK -> recorded_at (views x s) key cid state).
Proof.
  intros Hk Hj Hc Hst. induction n as [|n IH]; cbn [ledger_attempts]; [by apply triple_ret; [apply _|]|].
  eapply triple_bind; [apply _|by eapply get_triple|].
  intros r. destruct r as [err|ob].
  { destruct err; try (apply triple_ret; [apply _|by cbn]).
    rewrite Hcreate. eapply triple_weaken; [eapply (ledger_put_ok _ _ _ _ _ _ _ _ (fun _ => True)); try done| |done]; [|done].
    intros s w _ Hw Hp c' (ob & l' & Hl & _). unfold precondition in Hp. cbn in Hp.
    rewrite andb_true_r, bool_decide_eq_true in Hp. congruence. }
  destruct (ledger_decode (so_data ob)) as [cur|] eqn:Ed; [|apply triple_ret; [apply _|by cbn]].
  destruct (bytes_eqb (lg_commit_id cur) cid) eqn:Ec; cbn [negb]; [|apply triple_ret; [apply _|by cbn]].
  apply bytes_eqb_eq in Ec.
  destruct (bytes_eqb (lg_state cur) state) eqn:Es; [|destruct (bytes_eqb (lg_state cur) OTSARDB_REPLICA_STATE_COMMITTED) eqn:Es'];
    cbn [orb].
  - apply bytes_eqb_eq in Es. apply triple_ret; [apply _|]. intros s [_ Hl] _. exists ob, cur. auto.
  - apply bytes_eqb_eq in Es'. apply triple_ret; [apply _|]. intros s [_ Hl] _. exists ob, cur. auto.
  - rewrite Hupdate. eapply ledger_put_ok; try done.
    intros s w [_ Hl] Hw Hp c' (ob' & l' & Hl' & Hd' & _ & Hs'). apply bytes_eqb_neq in Es'. apply Es'.
    unfold precondition in Hp. cbn in Hp. rewrite Hl' in Hp.
    assert (so_data ob' = so_data ob) as E; [|rewrite E, Ed in Hd'; by injection Hd' as <-].
    eapply (Hfaith x); [exact Hw|exact Hl|exact Hl'|].
    destruct (nonempty_etag (so_etag ob)) as [et|] eqn:En; [|by right]. left.
    rewrite bool_decide_eq_true in Hp. rewrite Hp.
    unfold nonempty_etag in En. by destruct (so_etag ob) as [[]|]; simplify_eq.
Qed.

Lemma retried_triple {A} (e : environment) (attempt : M S (option A * otsardb_journal_result)) P (Q : A -> S -> Prop) :
  stable moves P -> triple moves P attempt (fun r s => forall a, fst r = Some a -> Q a s) ->
  triple moves P (retried e attempt) (on_ok Q).
Proof.
  intros HP Ha. unfold retried. eapply triple_bind; [apply _|by eapply triple_retry; [apply _|..]|].
  intros [[a|] rc]; apply triple_ret; try apply _; cbn; auto.
Qed.

(** The retried write of a ledger. *)
Lemma retried_ledger_ok e key json cid c l state :
  ledger_key root c = Some key -> ledger_decode json = Some l -> lg_commit_id l = cid -> lg_state l = state ->
  triple moves (fun _ => True) (replica_retried_ledger (stores x) e key json cid state)
    (on_ok (fun _ s => recorded_at (views x s) key cid state)).
Proof.
  intros Hk Hj Hc Hst. apply retried_triple; [done|]. unfold replica_ledger_attempt_once, ledger_write_cas.
  eapply triple_bind; [apply _|by eapply ledger_attempts_ok|]. intros [rc etag]. apply triple_ret; [apply _|].
  cbn. intros s H a Ha. apply H. by destruct rc.
Qed.
End Ledger.

(** ** A cluster of reference stores *)

Module MemCluster.
Abbreviation state := (gmap nat mem).
Definition at_store (x : nat) (s : state) : mem := default mem_empty (s !! x).

(** An operation of one store. *)
Definition lift {A} (x : nat) (m : M mem A) : M state A :=
  fun s => let '(r, m') := m (at_store x s) in (r, <[x := m']> s).

Definition store (caps : Z) (x : nat) : otsardb_object_store state :=
  mkStore (Some (fun key => lift x (mem_get key))) (Some (fun key o l => lift x (mem_get_range key o l)))
    (Some (fun key data o => lift x (mem_put caps key data o)))
    (Some (fun key source n o => lift x (mem_put_stream caps key source n o)))
    (Some (fun key => lift x (mem_delete key))) (Some (fun prefix => lift x (mem_list prefix))) caps.

Definition view (x : nat) (s : state) : contents := m_objects (at_store x s).

Lemma lift_run {A} x (m : M mem A) s r s' : lift x m s = (r, s') ->
  m (at_store x s) = (r, at_store x s') /\ forall y, y <> x -> at_store y s' = at_store y s.
Proof.
  unfold lift, at_store. destruct (m _) as [r1 m1]. intros [= <- <-]. rewrite lookup_insert_eq.
  split; [done|]. intros y Hy. by rewrite lookup_insert_ne.
Qed.

#[export] Instance cluster caps : Cluster (store caps) view (fun _ => quiet).
Proof.
  split.
  - intros x. split; intros; match goal with H : _ = (_, _) |- _ => apply lift_run in H as [H _] end.
    + exact (get_law (store := mem_store caps) (view := m_objects) (env := quiet) _ _ _ _ H).
    + exact (put_law (store := mem_store caps) (view := m_objects) (env := quiet) _ _ _ _ _ _ H).
    + exact (delete_law (store := mem_store caps) (view := m_objects) (env := quiet) _ _ _ _ H).
  - intros x y key s r s' Hne H. apply lift_run in H as [_ H]. unfold view. by rewrite H.
  - intros x y key data o s r s' Hne H. apply lift_run in H as [_ H]. unfold view. by rewrite H.
Qed.
End MemCluster.
