(* ===== verification/ReplicaSafety.v ===== *)
(** * Replicas: safety of the replication

    Every step of the replication keeps, on the primary and on every
    destination, what is durable: immutable objects, the objects HEAD
    designates, COMMITTED ledgers. A destination that confirms holds the
    commit. *)

From S2P Require Import Prelude CText JsonText ObjectStore Journal Codec WalBatch Sha256 Segment SegmentTheory.
From S2P Require Import CommitManifest CommitPublish CommitPublishTheory Lease CheckpointBuildTheory WalPublisher.
From S2P Require Import Triples Replica ReplicaTheory.

(** ** What is kept *)

Section Steps.
Context `{HSha : Sha256} (root id : bytes).

(** HEAD designates immutable objects that are stored. *)
Definition head_sound (v : contents) : Prop :=
  forall hk ob h, build_head_key root (OTSARDB_KEY_MAX + 1) = Some hk -> v !! hk = Some ob ->
    otsardb_head_decode_json (so_data ob) = Some h -> head_durable root v h.

Definition copy_step (v w : contents) : Prop :=
  keeps root v w /\ (head_sound v -> head_sound w) /\ ledgers_kept root v w.

Definition commit_name_ok (cid : bytes) : Prop := text_ok cid = true /\ 0 < zlen cid < 64.

(** The manifests of the primary are those of plain publications. *)
Definition sources_ok (v : contents) : Prop :=
  forall cid key json m, build_manifest_key root cid = Some key -> holds v key json ->
    otsardb_commit_manifest_decode_json json = Some m ->
    commit_name_ok cid /\ is_u64 (cm_generation m) /\ cm_commit_id m = cid /\ cm_database_id m = id /\
    Forall (fun ref => exists h, sg_key ref = segment_suffix_of h) (cm_segments m).

Definition source_step (v w : contents) : Prop := copy_step v w /\ (sources_ok v -> sources_ok w).

(** The primary is number 0. *)
Definition cluster_step (x : nat) : contents -> contents -> Prop :=
  match x with O => source_step | Datatypes.S _ => copy_step end.

#[export] Instance copy_step_preorder : PreOrder copy_step.
Proof.
  split.
  - intros v. split_and!; [by intros k d _ H|done|reflexivity].
  - intros u v w (K1 & H1 & L1) (K2 & H2 & L2). split_and!; [|by auto|by etrans]. intros k d Hk H. by apply K2, K1.
Qed.

#[export] Instance source_step_preorder : PreOrder source_step.
Proof.
  split; [intros v; split; [reflexivity|done]|].
  intros u v w [C1 S1] [C2 S2]. split; [by etrans|auto].
Qed.

#[export] Instance cluster_step_preorder x : PreOrder (cluster_step x).
Proof. destruct x; apply _. Qed.

Lemma cluster_copy x v w : cluster_step x v w -> copy_step v w.
Proof. destruct x; [by intros [? _]|done]. Qed.

(** HEAD is what it was: it stays sound. *)
Lemma head_sound_same v w : keeps root v w ->
  (forall hk, build_head_key root (OTSARDB_KEY_MAX + 1) = Some hk -> w !! hk = v !! hk) ->
  head_sound v -> head_sound w.
Proof.
  intros Hk Hs Hv hk ob h Eh Hl Hd. rewrite (Hs _ Eh) in Hl. eapply head_durable_keeps; [exact Hk|].
  by eapply Hv.
Qed.

Lemma insert_keeps v k ob : ~ immutable_key root k -> keeps root v (<[k := ob]> v).
Proof.
  intros Hn k' data Hi (o & Hl & Hd). exists o. split; [|done]. rewrite lookup_insert_ne; [done|]. by intros ->.
Qed.

Lemma insert_fresh_copy v k ob :
  v !! k = None -> build_head_key root (OTSARDB_KEY_MAX + 1) <> Some k -> copy_step v (<[k := ob]> v).
Proof.
  intros Hn Hne. assert (keeps root v (<[k := ob]> v)) as Hk by (intros k' data _; by apply holds_insert).
  split_and!; [done| |by apply ledgers_kept_fresh].
  apply head_sound_same; [done|]. intros hk Eh. apply lookup_insert_ne. congruence.
Qed.

Lemma insert_ledger_copy v key cid ob :
  ledger_key root cid = Some key -> (forall c, ~ committed_at v key c) -> copy_step v (<[key := ob]> v).
Proof.
  intros Hk Hn. assert (keeps root v (<[key := ob]> v)) as Hkp.
  { by eapply insert_keeps, ledger_key_not_immutable. }
  split_and!; [done| |by apply ledgers_kept_insert].
  apply head_sound_same; [done|]. intros hk Eh. apply lookup_insert_ne. intros <-.
  by eapply ledger_key_not_head.
Qed.

Lemma manifest_key_immutable cid key : build_manifest_key root cid = Some key -> immutable_key root key.
Proof. intros H. eexists. split; [|exact H]. reflexivity. Qed.

Lemma insert_ledger_step x v key cid ob :
  ledger_key root cid = Some key -> (forall c, ~ committed_at v key c) -> cluster_step x v (<[key := ob]> v).
Proof.
  intros Hk Hn. assert (copy_step v (<[key := ob]> v)) as Hc by (by eapply insert_ledger_copy).
  destruct x; [|done]. split; [done|]. intros Hs c k json m Ek (o & Hl & Hd) Hdec.
  apply (Hs c k json m Ek); [|done]. exists o. split; [|done]. rewrite lookup_insert_ne in Hl; [done|].
  intros <-. eapply ledger_key_not_immutable; [exact Hk|by eapply manifest_key_immutable].
Qed.

Lemma insert_head_copy v hk ob h :
  build_head_key root (OTSARDB_KEY_MAX + 1) = Some hk -> head_ok h ->
  so_data ob = otsardb_head_encode_json h -> head_durable root v h -> copy_step v (<[hk := ob]> v).
Proof.
  intros Hk Hh Hd Hb. pose proof (insert_head_keeps root v hk ob Hk) as Hkp. split_and!; [done| |].
  - intros _ hk' ob' h' Hk' Hl Hd'. simplify_eq. rewrite lookup_insert_eq in Hl. simplify_eq.
    rewrite Hd, head_encode_toks, head_decode_toks in Hd' by done. simplify_eq. by eapply head_durable_keeps.
  - apply ledgers_kept_insert. intros cid Hl. by apply ledger_key_not_head in Hl.
Qed.
End Steps.

(** ** Operations on one destination *)

Section Destination.
Context `{HSha : Sha256} `{HLz4 : Lz4}.
Context {S : Type} (stores : nat -> otsardb_object_store S) (views : nat -> S -> contents)
        (env : nat -> contents -> contents -> Prop) {Hcluster : Cluster stores views env}.
Context (root id : bytes).
Context (Henv : forall x v w, env x v w -> cluster_step root id x v w) (Hfaith : forall x v w, env x v w -> faithful v w).
Context (Hcreate : forall x, otsardb_store_supports (stores x) OTSARDB_STORE_CAP_CONDITIONAL_CREATE = true).
Context (Hupdate : forall x, otsardb_store_supports (stores x) OTSARDB_STORE_CAP_CONDITIONAL_UPDATE = true).
Context (clock_now : S -> Z) (e : environment).
(** The names: text, an identity that fits, a root that ends with no slash and
    begins no segment key. *)
Context (Hroot : text_ok root = true) (Hid : text_ok id = true) (Hidl : zlen id < 64).
Context (Hslash : last_byte root <> None /\ last_byte root <> Some 47).
Context (Hclear : forall h, prefixb root (segment_suffix_of h) = false).
Context (i : nat).
Abbreviation x := (Datatypes.S i).
Abbreviation R := (moves views (cluster_step root id)).
Abbreviation primary := (stores 0).
Abbreviation dest := (stores x).

Lemma moves_keeps y s s' : R s s' -> keeps root (views y s) (views y s').
Proof. intros H. apply (cluster_copy root id y _ _ (H y)). Qed.

Lemma stable_holds y k d : immutable_key root k -> stable R (fun s => holds (views y s) k d).
Proof. intros Hi s s' H Hh. by eapply moves_keeps. Qed.

Lemma stable_committed y key cid : ledger_key root cid = Some key -> stable R (fun s => committed_at (views y s) key cid).
Proof. intros Hk s s' H Hc. by eapply (cluster_copy root id y _ _ (H y)). Qed.

Lemma stable_durable y h : stable R (fun s => head_durable root (views y s) h).
Proof. intros s s' H Hd. eapply head_durable_keeps; [by apply moves_keeps|done]. Qed.

Lemma stable_sources : stable R (fun s => sources_ok root id (views 0 s)).
Proof. intros s s' H Hs. by apply (H 0%nat). Qed.

Lemma get_any y key P : stable R P -> triple R P (otsardb_store_get (stores y) key) (fun r s => P s /\
    match r with
    | inr ob => views y s !! key = Some ob
    | inl OTSARDB_STORE_NOT_FOUND => views y s !! key = None
    | inl _ => True
    end).
Proof. intros HP. by eapply get_triple. Qed.

(** *** Immutable objects *)

Lemma resolve_put_ok key data otherwise : otherwise <> OTSARDB_JOURNAL_OK ->
  triple R (fun _ => True) (resolve_put dest key data otherwise)
    (fun rc s => rc = OTSARDB_JOURNAL_OK -> holds (views x s) key data).
Proof.
  intros Hne. unfold resolve_put, object_matches. eapply triple_bind; [apply _| |].
  - apply triple_bind with (fun r s => match r with inr ob => views x s !! key = Some ob | inl _ => True end);
      [apply _| |].
    + eapply triple_weaken; [by apply (get_any x key (fun _ => True))|done|]. intros [err|ob] s [_ H]; [done|exact H].
    + intros r. apply triple_ret; [apply _|]. intros s H.
      instantiate (1 := fun m s => m = Some true -> holds (views x s) key data). cbn beta.
      destruct r as [[]|ob]; try done. intros [= Hb]. exists ob. by apply bytes_eqb_eq in Hb.
  - intros m. apply triple_ret; [apply _|]. intros s H. destruct m as [[]|]; try done. intros _. by apply H.
Qed.

Lemma replicate_object_ok key data : build_head_key root (OTSARDB_KEY_MAX + 1) <> Some key ->
  triple R (fun _ => True) (replicate_object dest key data)
    (fun rc s => rc = OTSARDB_JOURNAL_OK -> holds (views x s) key data).
Proof.
  intros Hne. unfold replicate_object. rewrite Hcreate.
  apply triple_bind with (fun r s => match r with inr _ => holds (views x s) key data | inl _ => True end); [apply _| |].
  { intros s r s' _ H. destruct (put_run stores views env (cluster_step root id) Henv x _ _ _ _ _ _ H) as (Hm & w & _ & Hr).
    - intros w ob _ Hp _. apply insert_fresh_copy; [|done]. unfold precondition in Hp. cbn in Hp.
      by rewrite andb_true_r, bool_decide_eq_true in Hp.
    - split; [done|]. destruct r as [err|etag]; [done|]. destruct Hr as (_ & ob & Hd & _ & ->).
      exists ob. by rewrite lookup_insert_eq. }
  intros [[]|etag]; try (apply triple_ret; [apply _|done]);
    (eapply triple_weaken; [by apply resolve_put_ok|done|done]).
Qed.

Lemma retried_put_ok key data : build_head_key root (OTSARDB_KEY_MAX + 1) <> Some key ->
  triple R (fun _ => True) (replica_retried_put dest e key data) (on_ok (fun _ s => holds (views x s) key data)).
Proof.
  intros Hne. apply retried_triple; [apply _|done|]. unfold replica_put_attempt_once.
  eapply triple_bind; [apply _|by apply replicate_object_ok|]. intros rc. apply triple_ret; [apply _|].
  cbn. intros s H a Ha. apply H. by destruct rc.
Qed.

Lemma copy_metadata_ok :
  triple R (fun _ => True) (replica_copy_metadata_if_absent e primary dest root) (on_ok (fun _ _ => True)).
Proof.
  unfold replica_copy_metadata_if_absent. destruct (root_join _ _ _) as [key|] eqn:Ek; [|by apply triple_fail; apply _].
  assert (build_head_key root (OTSARDB_KEY_MAX + 1) <> Some key) as Hne.
  { intros Hh. pose proof (root_join_inj _ _ _ _ _ Ek Hh) as E. discriminate E. }
  eapply triple_bind; [apply _|by apply (get_any x key (fun _ => True))|].
  intros [[]|ob]; try (by apply triple_ret; [apply _|]).
  eapply triple_bind; [apply _|by eapply triple_weaken; [apply (get_any 0 key (fun _ => True))|..]|].
  intros [[]|ob]; try (by apply triple_ret; [apply _|]).
  eapply triple_weaken; [by apply retried_put_ok|done|by intros []].
Qed.

(** *** Ledgers *)

Lemma recorded_committed v key cid : recorded_at v key cid OTSARDB_REPLICA_STATE_COMMITTED -> committed_at v key cid.
Proof. intros (ob & l & ? & ? & ? & [?|?]); by exists ob, l. Qed.

Lemma retried_ledger y key cid state l :
  ledger_key root cid = Some key -> ledger_ok l -> lg_commit_id l = cid -> lg_state l = state ->
  triple R (fun _ => True) (replica_retried_ledger (stores y) e key (ledger_encode l) cid state)
    (on_ok (fun _ s => state = OTSARDB_REPLICA_STATE_COMMITTED -> committed_at (views y s) key cid)).
Proof.
  intros Hk Hl Hc Hs. eapply triple_weaken.
  - eapply (retried_ledger_ok stores views env (cluster_step root id) Henv Hfaith root); [|by apply Hcreate|by apply Hupdate|exact Hk|by apply ledger_decodes|exact Hc|exact Hs].
    intros. by eapply insert_ledger_step.
  - done.
  - intros [rc|et] s H; [done|]. cbn in *. intros ->. by apply recorded_committed.
Qed.

(** The ledgers of a step, on the primary and on the destination. *)
Lemma write_ledgers_ok key cid state ledger :
  ledger_key root cid = Some key ->
  (forall d stamp, ledger_ok (ledger d stamp) /\ lg_commit_id (ledger d stamp) = cid /\ lg_state (ledger d stamp) = state) ->
  triple R (fun _ => True) (write_ledgers clock_now e primary dest key cid state ledger)
    (on_ok (fun _ s => state = OTSARDB_REPLICA_STATE_COMMITTED ->
                       committed_at (views 0 s) key cid /\ committed_at (views x s) key cid)).
Proof.
  intros Hk Hl. unfold write_ledgers, utc_now, read_clock.
  assert (forall A (k : bytes -> M S A) P Q, (forall stamp, triple R P (k stamp) Q) ->
    triple R P (mbind_ (mbind_ (fun s => (clock_now s, s)) (fun now => mret_ (utc_text now))) k) Q) as Hclock.
  { intros A k P Q H s r s' HP Hr. unfold mbind_, mret_ in Hr. by eapply H. }
  apply Hclock. intros stamp. destruct (Hl (str "primary") stamp) as (L1 & L2 & L3).
  eapply triple_bind_err; [apply _|by apply retried_ledger|]. intros et. cbn beta.
  apply Hclock. intros stamp'. destruct (Hl (str "replica") stamp') as (L1' & L2' & L3').
  eapply triple_bind_err; [apply _| |].
  - eapply triple_weaken; [eapply (triple_frame_ok R (fun s => state = OTSARDB_REPLICA_STATE_COMMITTED -> committed_at (views 0 s) key cid));
      [|by apply (retried_ledger x)]| |].
    + intros s s' H Hc E. eapply stable_committed; eauto.
    + cbn beta. intros s H. split; [done|exact H].
    + intros a s H. exact H.
  - intros et'. apply triple_ret; [apply _|]. cbn. intros s [H1 H2] E. auto.
Qed.

(** *** Selecting the commit on the destination *)

Lemma ledger_of_ok cid generation parent sha state petag retag model d stamp :
  commit_name_ok cid -> is_u64 generation -> is_u64 parent -> text_ok sha = true ->
  state = OTSARDB_REPLICA_STATE_PREPARED \/ state = OTSARDB_REPLICA_STATE_COMMITTED \/
  state = OTSARDB_REPLICA_STATE_ABORTED ->
  let l := ledger_of cid generation parent sha state petag retag model d stamp in
  ledger_ok l /\ lg_commit_id l = cid /\ lg_state l = state.
Proof.
  intros [Hc Hcl] Hg Hp Hs Hst. cbv zeta. unfold ledger_ok, ledger_of. cbn [lg_commit_id lg_generation
    lg_parent_generation lg_manifest_sha256 lg_state]. rewrite (snprintf_s_fits 64 cid) by lia.
  assert (text_ok (snprintf_s 65 sha) = true) by (by apply text_ok_take).
  destruct Hst as [-> |[-> | ->]]; (split_and!; try done; try lia).
Qed.

Lemma destination_head_ok cid generation key sha :
  commit_name_ok cid -> is_u64 generation -> build_manifest_key root cid = Some key ->
  text_ok sha = true -> zlen sha = 64 ->
  head_ok (destination_head id cid generation key sha) /\
  destination_head id cid generation key sha = mkHead 1 generation id cid key sha.
Proof.
  intros [Hc Hcl] Hg Hk Hs Hsl. apply object_key_join, root_join_spec in Hk as (Hkl & sep & Ek & Hsep).
  assert (text_ok key = true) as Hkt.
  { rewrite Ek, !text_ok_app, Hroot, Hc. destruct Hsep as [-> | ->]; reflexivity. }
  unfold OTSARDB_KEY_MAX in Hkl. unfold destination_head.
  rewrite !snprintf_s_fits by lia. split; [|done]. unfold head_ok. cbn.
  split_and!; try (by apply text_field_ok; [|lia]); try apply Hg; by vm_compute.
Qed.

(** HEAD of the destination was this one, since [s0]. *)
Definition head_shown (s0 s : S) (h : otsardb_head) : Prop :=
  exists s1 hk ob, R s0 s1 /\ R s1 s /\ build_head_key root (OTSARDB_KEY_MAX + 1) = Some hk /\
    views x s1 !! hk = Some ob /\ otsardb_head_decode_json (so_data ob) = Some h.

Lemma stable_shown s0 h : stable R (fun s => head_shown s0 s h).
Proof.
  intros s s' H (s1 & hk & ob & H1 & H2 & H3). exists s1, hk, ob. split_and!; try apply H3; [done|].
  by transitivity s.
Qed.

Lemma head_publish_ok s0 h expected create : head_ok h ->
  triple R (fun s => R s0 s /\ head_durable root (views x s) h)
    (replica_retried_head_publish dest e root h expected create)
    (on_ok (fun _ s => head_shown s0 s h)).
Proof.
  intros Hh. apply retried_triple; [apply _|apply stable_and; [apply stable_since; apply _|apply stable_durable]|].
  unfold replica_head_publish_attempt_once. apply triple_bind with
    (fun '(rc, _) s => rc = OTSARDB_JOURNAL_OK -> head_shown s0 s h); [apply _| |].
  2:{ intros [rc etag]. apply triple_ret; [apply _|]. cbn. intros s H a Ha. apply H. by destruct rc. }
  intros s [rc etag] s' [H0 Hd] H. unfold otsardb_journal_publish_head in H.
  destruct (negb create && _); [unfold mret_ in H; by simplify_eq|]. unfold publish_head_json in H.
  destruct (build_head_key root (OTSARDB_KEY_MAX + 1)) as [hk|] eqn:Ek; [|unfold mret_ in H; by simplify_eq].
  unfold mbind_, mret_ in H. destruct (otsardb_store_put dest hk _ _ s) as [r s1] eqn:E.
  destruct (put_run stores views env (cluster_step root id) Henv x _ _ _ _ _ _ E) as (Hm & w & Hw & Hr).
  { intros w ob Hw _ Hdata. apply (insert_head_copy root w hk ob h); [done..|].
    eapply head_durable_keeps; [|exact Hd]. apply (cluster_copy root id x), Henv, Hw. }
  assert (s' = s1) as -> by (destruct r as [[]|et]; by simplify_eq). split; [done|].
  intros ->. destruct r as [[]|et]; simplify_eq. destruct Hr as (_ & ob & Hdata & _ & Hv).
  exists s1, hk, ob. split_and!; [by etrans|done|done| |].
  - rewrite Hv. apply lookup_insert_eq.
  - by rewrite Hdata, head_encode_toks, head_decode_toks.
Qed.

(** What a destination holds of a commit that it confirms. *)
Definition confirmed (s0 s : S) (cid : bytes) (h : otsardb_head) : Prop :=
  hd_commit_id h = cid /\ head_shown s0 s h /\ head_durable root (views x s) h /\
  exists key, ledger_key root cid = Some key /\ committed_at (views 0 s) key cid /\ committed_at (views x s) key cid.

Lemma select_commit_ok s0 model cid generation parent key sha petag retag expected create :
  commit_name_ok cid -> is_u64 generation -> is_u64 parent -> build_manifest_key root cid = Some key ->
  text_ok sha = true -> zlen sha = 64 ->
  triple R (fun s => R s0 s /\ head_durable root (views x s) (mkHead 1 generation id cid key sha))
    (select_commit clock_now e primary dest root id model cid generation parent key sha petag retag expected create)
    (on_ok (fun _ s => confirmed s0 s cid (mkHead 1 generation id cid key sha))).
Proof.
  intros Hc Hg Hp Hk Hs Hsl. unfold select_commit. destruct (ledger_key root cid) as [lk|] eqn:El;
    [|by apply triple_fail; apply _].
  destruct (destination_head_ok cid generation key sha Hc Hg Hk Hs Hsl) as [Hok Eh]. rewrite Eh in Hok.
  set (h := mkHead 1 generation id cid key sha) in *.
  assert (forall state d stamp et, state = OTSARDB_REPLICA_STATE_PREPARED \/ state = OTSARDB_REPLICA_STATE_COMMITTED ->
    ledger_ok (ledger_of cid generation parent sha state petag et model d stamp) /\
    lg_commit_id (ledger_of cid generation parent sha state petag et model d stamp) = cid /\
    lg_state (ledger_of cid generation parent sha state petag et model d stamp) = state) as Hl.
  { intros state d stamp et Hst. apply ledger_of_ok; tauto. }
  set (F := fun s => R s0 s /\ head_durable root (views x s) h).
  assert (stable R F) as HF by (apply stable_and; [apply stable_since; apply _|apply stable_durable]).
  set (G := fun s => F s /\ head_shown s0 s h).
  assert (stable R G) as HG by (apply stable_and; [done|apply stable_shown]).
  eapply triple_bind_err with (fun _ s => F s); [apply _| |].
  { eapply triple_weaken; [eapply (triple_frame_ok R F); [exact HF|eapply (write_ledgers_ok lk cid); [done|]]| |].
    - intros d stamp. by apply Hl; left.
    - cbn. intros s H. split; [done|exact H].
    - intros [rc|u] s H; [done|]. apply H. }
  intros []. eapply triple_bind_err with (fun _ s => G s); [apply _| |].
  { rewrite Eh. eapply triple_weaken; [eapply (triple_frame_ok R F); [exact HF|apply (head_publish_ok s0 h expected create Hok)]| |].
    - cbn. intros s H. split; exact H.
    - intros [rc|u] s H; [done|]. split; apply H. }
  intros new_etag. eapply triple_bind_err with (fun _ s => G s /\ committed_at (views 0 s) lk cid /\ committed_at (views x s) lk cid);
    [apply _| |].
  { eapply triple_weaken; [eapply (triple_frame_ok R G); [exact HG|eapply (write_ledgers_ok lk cid); [done|]]| |].
    - intros d stamp. by apply Hl; right.
    - cbn. intros s H. split; [done|exact H].
    - intros [rc|u] s H; [done|]. destruct H as [H1 H2]. split; [done|by apply H1]. }
  intros []. apply triple_ret; [apply _|]. cbn. intros s [[[H1 H2] H3] [H4 H5]].
  split_and!; [done..|]. exists lk. by split_and!.
Qed.

(** *** Copying a commit of the primary *)

(** A step that needs nothing of the state, with a fact that is kept. *)
Lemma triple_with {E A} (F : S -> Prop) (m : M S (E + A)) (Q : A -> S -> Prop) :
  stable R F -> triple R (fun _ => True) m (on_ok Q) -> triple R F m (on_ok (fun a s => F s /\ Q a s)).
Proof.
  intros HF H. eapply triple_weaken; [exact (triple_frame_ok R F _ m Q HF H)|by intros s|].
  intros [err|a] s Hq; [done|]. destruct Hq. by split.
Qed.

Lemma object_key_of_join suffix key :
  root_join root suffix (OTSARDB_KEY_MAX + 1) = Some key -> object_key root suffix = Some key.
Proof.
  intros H. unfold object_key. pose proof (root_join_spec _ _ _ _ H) as (Hl & sep & -> & _).
  rewrite !zlen_app in Hl. pose proof (zlen_nonneg root). pose proof (zlen_nonneg sep).
  destruct (Z.leb_spec (OTSARDB_KEY_MAX + 1) (zlen suffix)); [lia|done].
Qed.

Lemma segment_key_not_head h key : object_key root (segment_suffix_of h) = Some key ->
  immutable_key root key /\ build_head_key root (OTSARDB_KEY_MAX + 1) <> Some key.
Proof.
  intros H. split; [by exists (segment_suffix_of h)|]. by eapply immutable_not_head; [apply segment_suffix_immutable|].
Qed.

Definition segments_held (s : S) (refs : list otsardb_manifest_segment_ref) : Prop :=
  Forall (fun ref => immutable_suffix (sg_key ref) = true /\ ref_backed root (views x s) ref) refs.

Lemma stable_segments refs : stable R (fun s => segments_held s refs).
Proof.
  intros s s' H Hall. eapply list.Forall_impl; [exact Hall|]. intros ref [Hi Hb]. split; [done|].
  eapply ref_backed_keeps; [done|by apply moves_keeps|done].
Qed.

Lemma copy_segments_ok refs : forall P, stable R P ->
  Forall (fun ref => exists h, sg_key ref = segment_suffix_of h) refs ->
  triple R P (copy_segments e primary dest root refs) (on_ok (fun _ s => P s /\ segments_held s refs)).
Proof.
  induction refs as [|ref refs IH]; intros P HP Hrefs; cbn [copy_segments].
  { apply triple_ret; [apply _|]. intros s H. split; [done|constructor]. }
  inversion_clear Hrefs as [|? ? [h Hh] Hrest]. unfold segment_full_key. rewrite Hh, Hclear.
  destruct (root_join root (segment_suffix_of h) _) as [key|] eqn:Ek; [|by apply triple_fail; apply _].
  apply object_key_of_join in Ek. pose proof (segment_key_not_head _ _ Ek) as [Hi Hne].
  eapply triple_bind; [apply _|by apply (get_any 0 key P)|]. intros [err|seg]; [by apply triple_fail; apply _|].
  destruct (bytes_eqb (otsardb_sha256_hex_data (so_data seg)) (sg_sha256 ref)) eqn:Es; [|by apply triple_fail; apply _].
  destruct (Z.eqb_spec (zlen (so_data seg)) (sg_size ref)) as [El|]; [|by apply triple_fail; apply _].
  cbn [andb negb]. apply bytes_eqb_eq in Es.
  set (F := fun s => P s /\ segments_held s [ref]).
  assert (stable R F) as HF by (apply stable_and; [done|apply stable_segments]).
  apply triple_bind_err with (fun _ s => F s); [apply _| |].
  - eapply triple_weaken; [apply (triple_with P _ _ HP (retried_put_ok key (so_data seg) Hne))|by intros s [? _]|].
    intros [rc|u] s H; [done|]. destruct H as [HPs Hh']. split; [done|]. constructor; [|constructor].
    split; [by rewrite Hh|]. exists key, (so_data seg). rewrite Hh. by split_and!.
  - intros _. eapply triple_weaken; [by apply (IH F HF)|done|].
    intros [rc|u] s H; [done|]. destruct H as [[HPs H1] H2]. split; [done|].
    by apply (list.Forall_app _ [ref] refs).
Qed.

Lemma read_source_ok key sha P : stable R P ->
  triple R P (read_source_manifest primary key sha)
    (on_ok (fun json s => P s /\ holds (views 0 s) key json /\ otsardb_sha256_hex_data json = sha)).
Proof.
  intros HP. unfold read_source_manifest. eapply triple_bind; [apply _|by apply (get_any 0 key P)|].
  intros [err|ob]; apply triple_ret; try apply _; [done|]. intros s [HPs Hl].
  destruct (bytes_eqb _ sha) eqn:Es; [|done]. apply bytes_eqb_eq in Es. cbn. split_and!; [done| |done]. by exists ob.
Qed.

Lemma holds_unique v k d d' : holds v k d -> holds v k d' -> d = d'.
Proof. intros (ob & Hl & <-) (ob' & Hl' & <-). congruence. Qed.

Definition gap_ok (s : S) (c : replica_gap_commit) : Prop :=
  exists key json m, build_manifest_key root (gp_commit_id c) = Some key /\ holds (views 0 s) key json /\
    otsardb_sha256_hex_data json = gp_manifest_sha256 c /\
    otsardb_commit_manifest_decode_json json = Some m /\ cm_generation m = gp_generation c.

Lemma stable_gap c : stable R (fun s => gap_ok s c).
Proof.
  intros s s' H (key & json & m & Hk & Hh & Hr). exists key, json, m. split_and!; try apply Hr; [done|].
  by eapply stable_holds; [eapply manifest_key_immutable|..].
Qed.

(** A manifest of the primary, its segments and a HEAD that designates them. *)
Lemma copied_head_durable s cid key json m :
  sources_ok root id (views 0 s) -> build_manifest_key root cid = Some key -> holds (views 0 s) key json ->
  otsardb_commit_manifest_decode_json json = Some m -> segments_held s (cm_segments m) ->
  holds (views x s) key json ->
  head_durable root (views x s) (mkHead 1 (cm_generation m) id cid key (otsardb_sha256_hex_data json)).
Proof.
  intros Hs Hk Hh Hd Hseg Hx. destruct (Hs cid key json m Hk Hh Hd) as (_ & _ & Hc & Hi & _).
  exists json, m. cbn. split_and!; try done. by eapply manifest_key_immutable.
Qed.

Lemma manifest_key_not_head cid key : build_manifest_key root cid = Some key ->
  build_head_key root (OTSARDB_KEY_MAX + 1) <> Some key.
Proof. intros H. by eapply immutable_not_head; [apply commits_suffix_immutable|]. Qed.

Lemma replay_commit_ok model c retag petag P : stable R P ->
  triple R (fun s => (P s /\ sources_ok root id (views 0 s)) /\ gap_ok s c)
    (replica_replay_gap_commit clock_now e primary dest root id model c retag petag)
    (on_ok (fun _ s => P s /\ sources_ok root id (views 0 s))).
Proof.
  intros HP. set (F := fun s => (P s /\ sources_ok root id (views 0 s)) /\ gap_ok s c).
  assert (stable R F) as HF by (apply stable_and; [apply stable_and; [done|apply stable_sources]|apply stable_gap]).
  unfold replica_replay_gap_commit. apply triple_bind_err with (fun _ s => F s); [apply _| |].
  { eapply triple_weaken; [apply (triple_with F _ _ HF copy_metadata_ok)|done|]. intros [rc|u] s H; [done|apply H]. }
  intros _. destruct (build_manifest_key root (gp_commit_id c)) as [key|] eqn:Ek; [|by apply triple_fail; apply _].
  pose proof (manifest_key_immutable root _ _ Ek) as Hi. pose proof (manifest_key_not_head _ _ Ek) as Hne.
  eapply triple_bind_err; [apply _|by apply (read_source_ok key (gp_manifest_sha256 c) F)|]. intros json.
  destruct (otsardb_commit_manifest_decode_json json) as [m|] eqn:Ed; [|by apply triple_fail; apply _].
  set (F1 := fun s => F s /\ holds (views 0 s) key json /\ otsardb_sha256_hex_data json = gp_manifest_sha256 c).
  assert (stable R F1) as HF1.
  { apply stable_and; [done|]. apply stable_and; [by apply stable_holds|apply stable_pure]. }
  (* facts that follow *)
  assert (forall s, F1 s -> commit_name_ok (gp_commit_id c) /\ is_u64 (gp_generation c) /\
    cm_generation m = gp_generation c /\ Forall (fun ref => exists h, sg_key ref = segment_suffix_of h) (cm_segments m)) as Hfacts.
  { intros s (((_ & Hs) & (key' & json' & m' & Hk' & Hh' & _ & Hd' & Hg)) & Hh & _).
    rewrite Ek in Hk'. injection Hk' as <-. pose proof (holds_unique _ _ _ _ Hh Hh') as <-.
    rewrite Ed in Hd'. injection Hd' as <-. destruct (Hs _ _ _ _ Ek Hh Ed) as (H1 & H2 & _ & _ & H3).
    by rewrite <- Hg. }
  intros s r s' HF1s H.
  destruct (Hfacts s HF1s) as (Hname & Hgen & Hgm & Hrefs). revert s r s' HF1s H.
  change (triple R F1 (mbind_err (copy_segments e primary dest root (cm_segments m)) (fun _ =>
    mbind_err (replica_retried_put dest e key json) (fun _ =>
    select_commit clock_now e primary dest root id model (gp_commit_id c) (gp_generation c) (u64 (gp_generation c - 1))
      key (gp_manifest_sha256 c) petag retag (Some retag) false)))
    (on_ok (fun _ s => P s /\ sources_ok root id (views 0 s)))).
  eapply triple_bind_err; [apply _|by apply (copy_segments_ok (cm_segments m) F1)|]. intros []. cbn beta.
  set (F2 := fun s => F1 s /\ segments_held s (cm_segments m)).
  assert (stable R F2) as HF2 by (apply stable_and; [done|apply stable_segments]).
  eapply triple_bind_err; [apply _|apply (triple_with F2 _ _ HF2 (retried_put_ok key json Hne))|]. intros []. cbn beta.
  set (F3 := fun s => F2 s /\ holds (views x s) key json).
  assert (stable R F3) as HF3 by (apply stable_and; [done|by apply stable_holds]).
  intros s r s' HF3s H.
  assert (text_ok (gp_manifest_sha256 c) = true /\ zlen (gp_manifest_sha256 c) = 64) as [Hst Hsl].
  { destruct HF3s as (((_ & _ & <-) & _) & _). split; [apply hex_text_ok|apply zlen_sha256_hex_data]. }
  destruct (select_commit_ok s model (gp_commit_id c) (gp_generation c) (u64 (gp_generation c - 1)) key
    (gp_manifest_sha256 c) petag retag (Some retag) false Hname Hgen) with s r s' as [Hm _]; try done.
  - unfold is_u64, u64, UINT64_MAX. pose proof (Z.mod_pos_bound (gp_generation c - 1) (2 ^ 64)). lia.
  - split; [reflexivity|]. destruct HF3s as (((((HPs & Hs) & Hgap) & Hh & Hsha) & Hseg) & Hx).
    rewrite <- Hgm, <- Hsha. by eapply copied_head_durable.
  - split; [done|]. destruct r; [done|]. cbn. pose proof (HF3 _ _ Hm HF3s) as (((((HPs & Hs) & _) & _) & _) & _). done.
Qed.

(** *** A destination that lags *)

Lemma slash_join suffix key : fits (OTSARDB_KEY_MAX + 1) (root ++ str "/" ++ suffix) = Some key ->
  object_key root suffix = Some key.
Proof.
  intros H. apply object_key_of_join. unfold fits in H. unfold root_join.
  destruct Hslash as [Hn Hs]. destruct (last_byte root) as [c|]; [|done].
  destruct (Z.eqb_spec c 47) as [->|]; [done|]. exact H.
Qed.

Lemma gap_walk_ok cap : forall walk_id walk_sha walk_gen head P, stable R P ->
  (forall s, P s -> sources_ok root id (views 0 s)) ->
  triple R P (gap_walk primary cap root walk_id walk_sha walk_gen head)
    (on_ok (fun gap s => P s /\ Forall (gap_ok s) gap)).
Proof.
  assert (forall walk_id walk_gen head P, triple R P
    (mret_ (if (walk_gen =? hd_generation head) && bytes_eqb walk_id (hd_commit_id head)
            then inr [] else inl OTSARDB_JOURNAL_CONFLICT))
    (on_ok (fun gap s => P s /\ Forall (gap_ok s) gap))) as Hend.
  { intros. apply triple_ret; [apply _|]. intros s HP. destruct (_ && _); [|done]. split; [done|constructor]. }
  induction cap as [|cap IH]; intros walk_id walk_sha walk_gen head P HP Hsrc; cbn [gap_walk];
    (destruct (negb _); [apply Hend|]); [by apply triple_fail; apply _|].
  destruct (fits _ _) as [key|] eqn:Ef; [|by apply triple_fail; apply _].
  assert (build_manifest_key root walk_id = Some key) as Ek by (by apply slash_join).
  eapply triple_bind; [apply _|by apply (get_any 0 key P)|]. intros [err|ob]; [by apply triple_fail; apply _|].
  destruct (bytes_eqb _ walk_sha) eqn:Es; cbn [negb]; [|by apply triple_fail; apply _]. apply bytes_eqb_eq in Es.
  destruct (otsardb_commit_manifest_decode_json (so_data ob)) as [m|] eqn:Ed; [|by apply triple_fail; apply _].
  destruct (Z.eqb_spec (cm_generation m) walk_gen) as [Eg|]; cbn [negb orb]; [|by apply triple_fail; apply _].
  destruct (negb _); [by apply triple_fail; apply _|].
  set (c := mkGap walk_id walk_sha walk_gen). set (F := fun s => P s /\ gap_ok s c).
  assert (stable R F) as HF by (apply stable_and; [done|apply stable_gap]).
  eapply triple_bind_err; [apply _| |].
  - eapply triple_weaken; [apply (IH (cm_parent_commit_id m) (cm_parent_manifest_sha256 m) (cm_parent_generation m) head F HF)| |].
    + intros s [HPs _]. by apply Hsrc.
    + intros s [HPs Hl]. split; [done|]. exists key, (so_data ob), m. split_and!; try done. by exists ob.
    + intros a s H. exact H.
  - intros rest. apply triple_ret; [apply _|]. cbn. intros s [[HPs Hc] Hrest]. split; [done|]. by constructor.
Qed.

Lemma replay_gap_ok model commits : forall retag petag P, stable R P ->
  triple R (fun s => (P s /\ sources_ok root id (views 0 s)) /\ Forall (gap_ok s) commits)
    (replay_gap clock_now e primary dest root id model commits retag petag)
    (on_ok (fun _ s => P s /\ sources_ok root id (views 0 s))).
Proof.
  induction commits as [|c commits IH]; intros retag petag P HP; cbn [replay_gap].
  { apply triple_ret; [apply _|]. by intros s [H _]. }
  set (G := fun s => P s /\ Forall (gap_ok s) commits).
  assert (stable R G) as HG.
  { intros s s' H [HPs Hall]. split; [eauto|]. eapply list.Forall_impl; [exact Hall|]. intros c'. by apply stable_gap. }
  eapply triple_bind_err; [apply _| |].
  - eapply triple_weaken; [apply (replay_commit_ok model c retag petag G HG)| |].
    + intros s [[HPs Hs] Hall]. inversion_clear Hall. unfold G. tauto.
    + intros a s H. exact H.
  - intros et. eapply triple_weaken; [apply (IH (default [] et) petag P HP)| |done].
    cbn. intros s [[HPs Hall] Hs]. tauto.
Qed.

Definition sourced (P : S -> Prop) (s : S) : Prop := P s /\ sources_ok root id (views 0 s).
Lemma stable_sourced P : stable R P -> stable R (sourced P).
Proof. intros HP. apply stable_and; [done|apply stable_sources]. Qed.

Lemma reconcile_ok model head etag ct P : stable R P ->
  triple R (sourced P) (replica_reconcile_gap clock_now e primary dest root id model head etag ct)
    (on_ok (fun _ s => sourced P s)).
Proof.
  intros HP. pose proof (stable_sourced P HP) as HS. unfold replica_reconcile_gap, replica_collect_gap.
  apply triple_bind_err with (fun gap s => sourced P s /\ Forall (gap_ok s) gap); [apply _| |].
  - destruct (_ || _); [by apply triple_fail; apply _|]. apply gap_walk_ok; [done|]. by intros s [_ H].
  - intros gap. eapply triple_weaken; [by apply (replay_gap_ok model (reverse gap) etag (ct_primary_head_etag ct) P)| |done].
    intros s [Hs Hall]. split; [done|]. by apply Forall_reverse.
Qed.

Lemma head_read_ok P : stable R P ->
  triple R P (replica_retried_head_read dest e root) (on_ok (fun _ s => P s)).
Proof.
  intros HP. apply retried_triple; [apply _|done|]. unfold replica_head_read_attempt_once, otsardb_journal_read_head.
  eapply triple_bind with (fun _ s => P s); [apply _| |].
  - destruct (build_head_key _ _) as [key|]; [|by apply triple_ret; [apply _|]].
    eapply triple_bind; [apply _|by apply (get_any x key P)|].
    intros [[]|ob]; try (apply triple_ret; [apply _|by intros s [? _]]).
    destruct (otsardb_head_decode_json _); [destruct (so_etag ob) as [[]|]|];
      (apply triple_ret; [apply _|by intros s [? _]]).
  - intros [rc res]. by apply triple_ret; [apply _|].
Qed.

Lemma classify_ok model ct P : stable R P ->
  triple R (sourced P) (classify_destination clock_now e primary dest root id model ct) (on_ok (fun _ s => sourced P s)).
Proof.
  intros HP. pose proof (stable_sourced P HP) as HS. unfold classify_destination.
  eapply triple_bind_err; [apply _|by apply (head_read_ok (sourced P))|]. intros [[head etag]|]; cbn beta iota.
  2:{ apply triple_ret; [apply _|]. intros s H. by destruct (negb _). }
  destruct (_ || _); [by apply triple_ret; [apply _|]|].
  eapply triple_bind_err; [apply _|by apply reconcile_ok|]. intros [].
  eapply triple_bind_err; [apply _|by apply (head_read_ok (sourced P))|]. intros [[head' etag']|];
    apply triple_ret; try apply _; [|done]. cbn. intros s H. by destruct (_ || _).
Qed.

(** *** The phase *)

(** The reference a plain publication makes for an input. *)
Definition ref_encodes (cid : bytes) (input : otsardb_segment_input) (ref : otsardb_manifest_segment_ref) : Prop :=
  exists data sha fr, otsardb_segment_encode_with_frames OTSARDB_SEGMENT_WAL_FRAMES cid (si_payload input) true
      = Some (data, sha, fr) /\
    sg_key ref = segment_suffix_of sha /\ sg_sha256 ref = sha /\ sg_size ref = zlen data.

(** The commit is on the primary, with the segments that are handed over. *)
Definition ct_source (s : S) (ct : replicated_commit) : Prop :=
  exists key json m, build_manifest_key root (ct_commit_id ct) = Some key /\ holds (views 0 s) key json /\
    otsardb_sha256_hex_data json = ct_manifest_sha256 ct /\
    otsardb_commit_manifest_decode_json json = Some m /\ cm_generation m = ct_generation ct /\
    Forall2 (ref_encodes (ct_commit_id ct)) (ct_segments ct) (cm_segments m).

Lemma stable_source ct : stable R (fun s => ct_source s ct).
Proof.
  intros s s' H (key & json & m & Hk & Hh & Hr). exists key, json, m. split_and!; try apply Hr; [done|].
  by eapply stable_holds; [eapply manifest_key_immutable|..].
Qed.

Definition inputs_held (cid : bytes) (inputs : list otsardb_segment_input) (s : S) : Prop :=
  Forall (fun input => exists data sha fr key,
    otsardb_segment_encode_with_frames OTSARDB_SEGMENT_WAL_FRAMES cid (si_payload input) true = Some (data, sha, fr) /\
    object_key root (segment_suffix_of sha) = Some key /\ holds (views x s) key data) inputs.

Lemma stable_inputs cid inputs : stable R (inputs_held cid inputs).
Proof.
  intros s s' H Hall. eapply list.Forall_impl; [exact Hall|].
  intros input (data & sha & fr & key & He & Hk & Hh). exists data, sha, fr, key. split_and!; [done..|].
  eapply stable_holds; [by eapply segment_key_not_head|exact H|done].
Qed.

Lemma replicate_segments_ok cid inputs : forall P, stable R P ->
  triple R P (replicate_segments e dest root cid inputs) (on_ok (fun _ s => P s /\ inputs_held cid inputs s)).
Proof.
  induction inputs as [|input inputs IH]; intros P HP; cbn [replicate_segments].
  { apply triple_ret; [apply _|]. intros s H. split; [done|constructor]. }
  destruct (otsardb_segment_encode_with_frames _ _ _ _) as [[[data sha] fr]|] eqn:Ee; [|by apply triple_fail; apply _].
  destruct (object_key root _) as [key|] eqn:Ek; [|by apply triple_fail; apply _].
  pose proof (segment_key_not_head _ _ Ek) as [Hi Hne].
  set (F := fun s => P s /\ holds (views x s) key data).
  assert (stable R F) as HF by (apply stable_and; [done|by apply stable_holds]).
  eapply triple_bind_err; [apply _|apply (triple_with P _ _ HP (retried_put_ok key data Hne))|]. intros [].
  eapply triple_weaken; [apply (IH F HF)|done|]. intros [rc|u] s H; [done|]. destruct H as [[HPs Hh] Hr].
  split; [done|]. constructor; [|done]. by exists data, sha, fr, key.
Qed.

Lemma inputs_segments cid inputs refs s :
  Forall2 (ref_encodes cid) inputs refs -> inputs_held cid inputs s -> segments_held s refs.
Proof.
  induction 1 as [|input ref inputs refs (data & sha & fr & He & Hk & Hs & Hz) _ IH]; intros Hi; [constructor|].
  inversion_clear Hi as [|? ? (data' & sha' & fr' & key & He' & Hk' & Hh) Hrest]. rewrite He in He'. simplify_eq.
  constructor; [|by apply IH]. destruct (encode_with_frames_size _ _ _ _ _ _ _ He) as (_ & Hsha & _).
  rewrite Hk. split; [done|]. exists key, data'. rewrite Hk. by split_and!.
Qed.

Definition replicated (s0 s : S) (ct : replicated_commit) : Prop :=
  exists key, build_manifest_key root (ct_commit_id ct) = Some key /\
    confirmed s0 s (ct_commit_id ct)
      (mkHead 1 (ct_generation ct) id (ct_commit_id ct) key (ct_manifest_sha256 ct)).

Lemma stable_replicated s0 ct : stable R (fun s => replicated s0 s ct).
Proof.
  intros s s' H (key & Hk & Hc & Hsh & Hd & lk & Hlk & H0 & Hx). exists key. split; [done|].
  split_and!; [done|by eapply stable_shown|by eapply stable_durable|]. exists lk.
  split_and!; [done|by eapply stable_committed..].
Qed.

Lemma replicate_through_ok s0 model ct : is_u64 (ct_parent_generation ct) ->
  triple R (fun s => R s0 s /\ sources_ok root id (views 0 s) /\ ct_source s ct)
    (replicate_through clock_now e primary dest root id model ct)
    (on_ok (fun _ s => replicated s0 s ct)).
Proof.
  intros Hpg. set (P := fun s => R s0 s /\ ct_source s ct).
  assert (stable R P) as HP by (apply stable_and; [apply stable_since; apply _|apply stable_source]).
  pose proof (stable_sourced P HP) as HS. unfold replicate_through.
  apply (triple_weaken R (sourced P) _ _ (on_ok (fun _ s => replicated s0 s ct))); [|unfold sourced, P; tauto|done].
  eapply triple_bind_err; [apply _|by apply classify_ok|]. intros expected. cbn beta.
  eapply triple_bind_err; [apply _|apply (triple_with (sourced P) _ _ HS copy_metadata_ok)|]. intros []. cbn beta.
  apply triple_bind_err with (fun _ s => sourced P s /\ inputs_held (ct_commit_id ct) (ct_segments ct) s); [apply _| |].
  { eapply triple_weaken; [by apply (replicate_segments_ok _ _ (sourced P))|by intros s [? _]|done]. }
  intros _. destruct (build_manifest_key root (ct_commit_id ct)) as [key|] eqn:Ek; [|by apply triple_fail; apply _].
  pose proof (manifest_key_immutable root _ _ Ek) as Hi. pose proof (manifest_key_not_head _ _ Ek) as Hne.
  set (F := fun s => sourced P s /\ inputs_held (ct_commit_id ct) (ct_segments ct) s).
  assert (stable R F) as HF by (apply stable_and; [done|apply stable_inputs]).
  eapply triple_bind_err; [apply _|by apply (read_source_ok key (ct_manifest_sha256 ct) F)|]. intros json. cbn beta.
  set (F1 := fun s => F s /\ holds (views 0 s) key json /\ otsardb_sha256_hex_data json = ct_manifest_sha256 ct).
  assert (stable R F1) as HF1.
  { apply stable_and; [done|]. apply stable_and; [by apply stable_holds|apply stable_pure]. }
  eapply triple_bind_err; [apply _|apply (triple_with F1 _ _ HF1 (retried_put_ok key json Hne))|]. intros []. cbn beta.
  apply triple_bind_err with (fun _ s => replicated s0 s ct); [apply _| |intros _; by apply triple_ret; [apply _|]].
  intros s r s' (((((Hs0 & Hct) & Hs) & Hin) & Hh & Hsha) & Hx) H.
  destruct Hct as (key' & json' & m & Hk' & Hh' & _ & Hd & Hg & Href). rewrite Ek in Hk'. injection Hk' as <-.
  pose proof (holds_unique _ _ _ _ Hh Hh') as <-. destruct (Hs _ _ _ _ Ek Hh Hd) as (Hname & Hgu & _).
  rewrite Hg in Hgu.
  destruct (select_commit_ok s0 model (ct_commit_id ct) (ct_generation ct) (ct_parent_generation ct) key
    (ct_manifest_sha256 ct) (ct_primary_head_etag ct) (default [] expected) expected (bool_decide (expected = None))
    Hname Hgu Hpg Ek) with s r s' as [Hm Hr]; try done.
  - rewrite <- Hsha. apply hex_text_ok.
  - rewrite <- Hsha. apply zlen_sha256_hex_data.
  - split; [done|]. rewrite <- Hg, <- Hsha. eapply copied_head_durable; try done. by eapply inputs_segments.
  - split; [done|]. destruct r; [done|]. cbn in *. by exists key.
Qed.

(** The fence reads the epoch record only. *)
Lemma epoch_verify_ok (d : otsardb_replica_destination S) P : rd_store d = dest -> stable R P ->
  triple R P (replica_epoch_verify d root) (fun r s => P s /\ rd_store (snd r) = dest).
Proof.
  intros Hd HP. unfold replica_epoch_verify, otsardb_replica_epoch_read. rewrite Hd.
  eapply triple_bind with (fun _ s => P s); [apply _| |].
  - destruct (epoch_key root) as [key|]; [|by apply triple_ret; [apply _|]].
    eapply triple_bind; [apply _|by apply (get_any x key P)|].
    intros [[]|ob]; try (apply triple_ret; [apply _|by intros s [? _]]).
    destruct (json_extract_u64 _ _); (apply triple_ret; [apply _|by intros s [? _]]).
  - intros r. apply triple_ret; [apply _|]. intros s H. split; [done|].
    destruct r as [[]|v]; try done. destruct (_ || _); [done|]. by destruct (_ =? 0).
Qed.
End Destination.
