(* ===== verification/ReplicaProps.v ===== *)
(** * Replicas: theorems

    The quorum of a commit, the fence of a promoted destination, the epoch,
    the gap of a lagging destination, promotion; with a cluster of reference
    stores as the witness. *)

From S2P Require Import Prelude CText JsonText ObjectStore Journal Codec WalBatch Sha256 Segment SegmentTheory.
From S2P Require Import CommitManifest CommitManifestTheory CommitPublish CommitPublishTheory Lease Cipher.
From S2P Require Import LocalFile Recovery RecoveryProps CapabilityProbe WalPublisher Triples Replica ReplicaTheory ReplicaSafety.

(** ** The quorum *)

Section Quorum.
Context `{HSha : Sha256} `{HLz4 : Lz4}.
Context {S : Type} (stores : nat -> otsardb_object_store S) (views : nat -> S -> contents)
        (env : nat -> contents -> contents -> Prop) {Hcluster : Cluster stores views env}.
Context (root id : bytes).
Context (Henv : forall x v w, env x v w -> cluster_step root id x v w) (Hfaith : forall x v w, env x v w -> faithful v w).
Context (Hcreate : forall x, otsardb_store_supports (stores x) OTSARDB_STORE_CAP_CONDITIONAL_CREATE = true).
Context (Hupdate : forall x, otsardb_store_supports (stores x) OTSARDB_STORE_CAP_CONDITIONAL_UPDATE = true).
Context (clock_now : S -> Z) (getenv : bytes -> option bytes).
Context (Hroot : text_ok root = true) (Hid : text_ok id = true) (Hidl : zlen id < 64).
Context (Hslash : last_byte root <> None /\ last_byte root <> Some 47).
Context (Hclear : forall h, prefixb root (segment_suffix_of h) = false).
Abbreviation R := (moves views (cluster_step root id)).
Abbreviation replicated_on i := (replicated views root id i).

(** Destination [j] of the list is store [k + j + 1]. *)
Definition placed (k : nat) (ds : list (otsardb_replica_destination S)) : Prop :=
  forall j d, ds !! j = Some d -> rd_store d = stores (Datatypes.S (k + j)).

Lemma placed_cons k d ds : placed k (d :: ds) -> rd_store d = stores (Datatypes.S k) /\ placed (Datatypes.S k) ds.
Proof.
  intros H. split; [rewrite <- (Nat.add_0_r k); by apply (H 0%nat)|].
  intros j d' Hj. replace (Datatypes.S k + j)%nat with (k + Datatypes.S j)%nat by lia. by apply (H (Datatypes.S j)).
Qed.

(** The destinations that have confirmed, [n] of them. *)
Definition confirmations (s0 s : S) (ct : replicated_commit) (bound : nat) (n : Z) : Prop :=
  exists ok : list nat, NoDup ok /\ zlen ok = n /\
    Forall (fun i => (i < bound)%nat /\ replicated_on i s0 s ct) ok.

Lemma stable_confirmations s0 ct bound n : stable R (fun s => confirmations s0 s ct bound n).
Proof.
  intros s s' H (ok & Hd & Hn & Hall). exists ok. split_and!; [done..|]. eapply list.Forall_impl; [exact Hall|].
  intros i [Hi Hr]. split; [done|]. by eapply stable_replicated.
Qed.

Lemma confirmations_widen s0 s ct b b' n : (b <= b')%nat -> confirmations s0 s ct b n -> confirmations s0 s ct b' n.
Proof.
  intros Hb (ok & Hd & Hn & Hall). exists ok. split_and!; [done..|]. eapply list.Forall_impl; [exact Hall|].
  intros i [Hi Hr]. split; [lia|done].
Qed.

Lemma replicate_destination_ok i d s0 model ct : rd_store d = stores (Datatypes.S i) -> is_u64 (ct_parent_generation ct) ->
  triple R (fun s => R s0 s /\ sources_ok root id (views 0 s) /\ ct_source views root s ct)
    (replica_replicate_destination clock_now getenv (stores 0) root id model ct d)
    (fun r s => (fst r = inr tt -> replicated_on i s0 s ct) /\ rd_store (snd r) = stores (Datatypes.S i)).
Proof.
  intros Hd Hp. unfold replica_replicate_destination.
  eapply triple_bind; [apply _| |].
  - eapply (epoch_verify_ok stores views env root id Henv i d); [done|].
    apply stable_and; [apply stable_since; apply _|]. apply stable_and; [apply stable_sources|apply stable_source].
  - intros [v d']. cbn [snd]. destruct v as [rc|[]]; [by apply triple_ret; [apply _|intros s [_ ?]]|].
    intros s r s' [HPs Hd'] H. unfold mbind_, mret_ in H. rewrite Hd' in H.
    destruct (replicate_through _ _ _ _ _ _ _ _ s) as [r1 s1] eqn:E. simplify_eq.
    destruct (replicate_through_ok stores views env root id Henv Hfaith Hcreate Hupdate clock_now
      (process_environment getenv) Hroot Hid Hidl Hslash Hclear i s0 model ct Hp _ _ _ HPs E) as [Hm Hr].
    split; [done|]. cbn. split; [|done]. by intros ->.
Qed.

Lemma replicate_destinations_ok s0 model ct : is_u64 (ct_parent_generation ct) ->
  forall ds k n first, placed k ds ->
  triple R (fun s => (R s0 s /\ sources_ok root id (views 0 s) /\ ct_source views root s ct) /\
                     confirmations s0 s ct k n)
    (replicate_destinations clock_now getenv (stores 0) root id model ct ds n first)
    (fun r s => length (snd r) = length ds /\
       match fst r with inl _ => True | inr (n, _) => confirmations s0 s ct (k + length ds) n end).
Proof.
  intros Hp ds. set (P := fun s => R s0 s /\ sources_ok root id (views 0 s) /\ ct_source views root s ct).
  assert (stable R P) as HP.
  { apply stable_and; [apply stable_since; apply _|]. apply stable_and; [apply stable_sources|apply stable_source]. }
  induction ds as [|d ds IH]; intros k n first Hpl; cbn [replicate_destinations].
  { apply triple_ret; [apply _|]. cbn. rewrite Nat.add_0_r. by intros s [_ H]. }
  destruct (placed_cons _ _ _ Hpl) as [Hd Hpl'].
  apply triple_bind with (fun r s => (P s /\ confirmations s0 s ct k n) /\ (fst r = inr tt -> replicated_on k s0 s ct));
    [apply _| |].
  { eapply triple_weaken; [eapply (triple_frame R (fun s => P s /\ confirmations s0 s ct k n));
      [|by apply (replicate_destination_ok k d s0 model ct)]| |].
    - apply stable_and; [done|apply stable_confirmations].
    - cbn beta. intros s [H1 H2]. split; [exact H1|]. by split.
    - cbn beta. intros r s [[H1 _] H2]. by split. }
  intros [[rc|[]] d']; cbn [fst].
  - destruct (otsardb_wal_publisher_rc_retryable rc); [|by apply triple_ret; [apply _|]].
    eapply triple_bind; [apply _| |].
    + eapply triple_weaken; [apply (IH (Datatypes.S k) n (Some (default rc first)) Hpl')| |].
      * intros s [[HPs Hc] _]. split; [done|]. eapply confirmations_widen; [|exact Hc]. lia.
      * intros a s H. exact H.
    + intros [out rest]. apply triple_ret; [apply _|]. cbn. rewrite Nat.add_succ_r. intros s [Hl H]. by rewrite Hl.
  - eapply triple_bind; [apply _| |].
    + eapply triple_weaken; [apply (IH (Datatypes.S k) (n + 1) first Hpl')| |].
      * intros s [[HPs (ok & Hnd & Hn & Hall)] Hr]. split; [done|]. exists (k :: ok).
        split_and!; [|rewrite zlen_cons; lia|].
        -- constructor; [|done]. intros Hin. rewrite list.Forall_forall in Hall. destruct (Hall _ Hin). lia.
        -- constructor; [split; [lia|by apply Hr]|]. eapply list.Forall_impl; [exact Hall|].
           intros i [Hi Hri]. split; [lia|done].
      * intros a s H. exact H.
    + intros [out rest]. apply triple_ret; [apply _|]. cbn. rewrite Nat.add_succ_r. intros s [Hl H]. by rewrite Hl.
Qed.

Lemma ensure_primary_ok ct : commit_name_ok (ct_commit_id ct) -> is_u64 (ct_generation ct) ->
  is_u64 (ct_parent_generation ct) -> text_ok (ct_manifest_sha256 ct) = true ->
  triple R (fun _ => True) (replica_ensure_primary_committed clock_now getenv (stores 0) root ct)
    (on_ok (fun _ s => exists key, ledger_key root (ct_commit_id ct) = Some key /\
                                   committed_at (views 0 s) key (ct_commit_id ct))).
Proof.
  intros Hc Hg Hp Hs. unfold replica_ensure_primary_committed.
  intros s0 r0 s0' _ H. unfold utc_now, read_clock, mbind_ at 1 2, mret_ at 1 in H. revert H.
  generalize (utc_text (clock_now s0)). intros stamp H. revert s0 r0 s0' H.
  assert (triple R (fun _ => True) (match ledger_key root (ct_commit_id ct) with
    | None => mret_ (inl OTSARDB_JOURNAL_INVALID)
    | Some key =>
        mbind_err (replica_retried_ledger (stores 0) (process_environment getenv) key
          (ledger_encode (ledger_of (ct_commit_id ct) (ct_generation ct) (ct_parent_generation ct)
             (ct_manifest_sha256 ct) OTSARDB_REPLICA_STATE_COMMITTED (ct_primary_head_etag ct) []
             (str "C") (str "primary") stamp))
          (ct_commit_id ct) OTSARDB_REPLICA_STATE_COMMITTED) (fun _ => mret_ (inr tt))
    end) (on_ok (fun _ s => exists key, ledger_key root (ct_commit_id ct) = Some key /\
                                   committed_at (views 0 s) key (ct_commit_id ct)))) as Ht;
    [|intros s0 r0 s0' H; by apply (Ht s0 r0 s0')].
  destruct (ledger_key root (ct_commit_id ct)) as [key|] eqn:Ek; [|by apply triple_fail; apply _].
  edestruct (ledger_of_ok (ct_commit_id ct) (ct_generation ct) (ct_parent_generation ct) (ct_manifest_sha256 ct)
    OTSARDB_REPLICA_STATE_COMMITTED (ct_primary_head_etag ct) [] (str "C") (str "primary") stamp) as (L1 & L2 & L3);
    [done..|by right; left|].
  eapply triple_bind_err; [apply _|by eapply (retried_ledger stores views env root id Henv Hfaith Hcreate Hupdate)|].
  intros et. apply triple_ret; [apply _|]. cbn. intros s H. exists key. split; [done|]. by apply H.
Qed.

(** What the names of the commit satisfy, given its source. *)
Lemma source_facts s ct : sources_ok root id (views 0 s) -> ct_source views root s ct ->
  commit_name_ok (ct_commit_id ct) /\ is_u64 (ct_generation ct) /\ text_ok (ct_manifest_sha256 ct) = true.
Proof.
  intros Hs (key & json & m & Hk & Hh & Hsha & Hd & Hg & _). destruct (Hs _ _ _ _ Hk Hh Hd) as (Hn & Hu & _).
  rewrite <- Hg, <- Hsha. split_and!; [done..|]. apply hex_text_ok.
Qed.

(** C25. A quorum is what it says. Over a cluster of lawful stores whose peers
    keep what is durable, whatever the result and the faults of any store: no
    immutable object, no COMMITTED ledger and nothing HEAD designates is lost
    on the primary or on a destination. When the replication of a commit is
    acknowledged, at least a quorum of the stores, the primary included, holds
    it: each destination counted had its HEAD at the commit, with the manifest
    and every segment stored, and carries a COMMITTED ledger; so does the
    primary. *)
Theorem replica_commit_quorum (r r' : otsardb_replica S) (ct : replicated_commit) s rc s' :
  rr_database_id r = id -> placed 0 (rr_destinations r) -> is_u64 (ct_parent_generation ct) ->
  sources_ok root id (views 0 s) -> ct_source views root s ct ->
  otsardb_replica_replicate_commit clock_now getenv (stores 0) root ct r s = ((rc, r'), s') ->
  R s s' /\
  (rc = inr tt -> exists ok : list nat, NoDup ok /\ otsardb_replica_quorum getenv r <= 1 + zlen ok /\
     Forall (fun i => (i < length (rr_destinations r))%nat /\ replicated_on i s s' ct) ok /\
     exists key, ledger_key root (ct_commit_id ct) = Some key /\ committed_at (views 0 s') key (ct_commit_id ct)).
Proof.
  intros Hrid Hpl Hp Hs Hct H. unfold otsardb_replica_replicate_commit in H. rewrite Hrid in H.
  destruct (rr_destinations r) as [|d0 ds0] eqn:Eds; [unfold mret_ in H; simplify_eq; split; [reflexivity|done]|].
  rewrite <- Eds in *. unfold mbind_ at 1 in H.
  destruct (replicate_destinations _ _ _ _ _ _ _ _ _ _ s) as [[out ds] s1] eqn:E.
  destruct (replicate_destinations_ok s (replication_model r) ct Hp (rr_destinations r) 0 0 None Hpl s (out, ds) s1) as [Hm [Hlen Hc]];
    [split; [by split_and!|]; exists []; split_and!; [constructor|done|constructor]|done|].
  cbn [fst snd] in Hc, Hlen. destruct out as [rc1|[n first]]; [unfold mret_ in H; by simplify_eq|].
  assert (otsardb_replica_quorum getenv (set_destinations ds r) = otsardb_replica_quorum getenv r) as Eq.
  { unfold otsardb_replica_quorum, set_destinations, zlen. cbn [rr_destinations]. by rewrite Hlen. }
  rewrite Eq in H. destruct (Z.leb_spec (otsardb_replica_quorum getenv r) (1 + n)) as [Hq|];
    [|unfold mret_ in H; by simplify_eq].
  destruct Hc as (ok & Hnd & Hn & Hall). destruct (Z.eqb_spec n 0) as [-> |Hn0].
  - unfold mbind_, mret_ in H. destruct (replica_ensure_primary_committed _ _ _ _ _ s1) as [pr s2] eqn:Ep.
    injection H as <- <- <-. destruct (source_facts s ct Hs Hct) as (Hname & Hg & Hsha).
    destruct (ensure_primary_ok ct Hname Hg Hp Hsha _ _ _ I Ep) as [Hm2 Hpost].
    split; [by etrans|]. intros ->. exists ok. split_and!; [done|lia| |exact Hpost].
    eapply list.Forall_impl; [exact Hall|]. intros i [Hi Hr]. split; [lia|]. by eapply stable_replicated.
  - unfold mret_ in H. injection H as <- <- <-. split; [done|]. intros _. exists ok. split_and!; [done|lia|done|].
    destruct ok as [|i ok]; [done|]. inversion_clear Hall as [|? ? [Hi Hr] _].
    destruct Hr as (key & _ & _ & _ & _ & lk & Hlk & Hc0 & _). by exists lk.
Qed.
End Quorum.

(** ** A cluster of three stores *)

Module ReplicaSample.
Abbreviation store := (MemCluster.store CAPS_ALL).
Abbreviation sum_sha256 := RecoverySample.sum_sha256.
Definition root : bytes := str "db".
Definition id : bytes := str "db-1".
Definition input : otsardb_segment_input := mkSegmentInput (RecoverySample.batch 1 1 65) None.
Definition segment : bytes * bytes :=
  Eval vm_compute in match otsardb_segment_encode_with_frames (H := sum_sha256) (H0 := zero_lz4)
                             OTSARDB_SEGMENT_WAL_FRAMES (str "c-1") (si_payload input) true with
                     | Some (data, sha, _) => (data, sha)
                     | None => ([], [])
                     end.
Definition manifest : otsardb_commit_manifest :=
  mkManifest 4 1 0 512 1 id (str "c-1") [] []
    [mkSegmentRef (segment_suffix_of (snd segment)) (snd segment) (zlen (fst segment)) [1] None] [].
Definition json : bytes := Eval vm_compute in manifest_json manifest.
Definition commit : replicated_commit :=
  mkReplicated (str "c-1") 1 0 [] [] (RecoverySample.digest json) (str "v1") [input].

(** The commit is on the primary; the destinations have their epoch records. *)
Definition epoch_object (epoch : Z) : otsardb_store_object :=
  mkObject (epoch_text epoch id 0 (str "note") (str "now")) (Some (str "e")) 0.
Definition with_epoch (epoch : Z) (v : contents) : mem := mkMem (<[str "db/replica/epoch.json" := epoch_object epoch]> v) 0 0 [].
Definition primary : mem := mkMem {[str "db/commits/c-1.json" := RecoverySample.object json]} 0 0 [].
Definition destination (x : nat) (epoch : Z) : otsardb_replica_destination MemCluster.state :=
  mkDestination (store x) OTSARDB_WRITE_STRATEGY_CAS true true epoch (str "e") true.
Definition handle (epochs : list Z) : otsardb_replica MemCluster.state :=
  mkReplica (imap (fun i epoch => destination (Datatypes.S i) epoch) epochs) root id true (-1).
Definition state (ms : list mem) : MemCluster.state := list_to_map (imap pair ms).
Definition no_variable (name : bytes) : option bytes := None.

Abbreviation replicate getenv r s :=
  (otsardb_replica_replicate_commit (HSha := sum_sha256) (HLz4 := zero_lz4) (fun _ => 0) getenv (store 0) root commit r s).

(** Two of three stores are enough; the second destination does not answer. *)
Definition two (name : bytes) : option bytes :=
  if bytes_eqb name (str "OTSARDB_S3_QUORUM") then Some (str "2") else None.
Definition one_down : MemCluster.state :=
  state [primary; with_epoch 1 ∅;
         mkMem (m_objects (with_epoch 1 ∅)) 0 0 [F_fail OTSARDB_STORE_TIMEOUT]].

Lemma quiet_cluster x v w : quiet v w -> cluster_step (HSha := sum_sha256) root id x v w.
Proof. intros ->. reflexivity. Qed.

Lemma quiet_faithful v w : quiet v w -> faithful v w.
Proof. intros -> k ob ob' H H' _. congruence. Qed.

Lemma primary_manifest cid key j :
  build_manifest_key root cid = Some key -> holds (m_objects primary) key j -> cid = str "c-1" /\ j = json.
Proof.
  intros Hk (ob & Hl & Hd). cbn [primary m_objects] in Hl. apply lookup_singleton_Some in Hl as [<- <-]. split; [|by rewrite <- Hd].
  assert (build_manifest_key root (str "c-1") = Some (str "db/commits/c-1.json")) as Hk1 by (by vm_compute).
  apply object_key_join in Hk, Hk1. pose proof (root_join_inj _ _ _ _ _ Hk Hk1) as E.
  apply app_inv_head in E. by apply app_inv_tail in E.
Qed.

Lemma json_decodes : otsardb_commit_manifest_decode_json json = Some manifest.
Proof. by vm_compute. Qed.

Lemma primary_sources : sources_ok root id (m_objects primary).
Proof.
  intros cid key j m Hk Hh Hd. destruct (primary_manifest cid key j Hk Hh) as [-> ->].
  rewrite json_decodes in Hd. injection Hd as <-.
  split; [by vm_compute|]. split; [by vm_compute|]. split; [done|]. split; [done|].
  constructor; [|constructor]. by eexists.
Qed.

Lemma primary_source (ms : list mem) :
  ct_source (HSha := sum_sha256) (HLz4 := zero_lz4) MemCluster.view root (state (primary :: ms)) commit.
Proof.
  assert (MemCluster.view 0 (state (primary :: ms)) = m_objects primary) as E.
  { unfold MemCluster.view, MemCluster.at_store, state. cbn [imap list_to_map foldr fst snd]. by rewrite lookup_insert_eq. }
  exists (str "db/commits/c-1.json"), json, manifest. rewrite E.
  split; [by vm_compute|]. split; [exists (RecoverySample.object json); split; [apply lookup_singleton_eq|done]|].
  split; [done|]. split; [exact json_decodes|]. split; [done|]. constructor; [|constructor].
  exists (fst segment), (snd segment). eexists. split; [by vm_compute|]. done.
Qed.
End ReplicaSample.

Import ReplicaSample.

Lemma replica_commit_quorum_witness : exists r' s',
  replicate two (handle [1; 1]) one_down = ((inr tt, r'), s') /\
  exists ok : list nat, NoDup ok /\ 2 <= 1 + zlen ok /\
    Forall (fun i => (i < 2)%nat /\ replicated (HSha := sum_sha256) MemCluster.view root id i one_down s' commit) ok.
Proof.
  destruct (replicate two (handle [1; 1]) one_down) as [[rc r'] s'] eqn:E. exists r', s'.
  assert (rc = inr tt) as ->.
  { change rc with (fst (fst (rc, r', s'))). rewrite <- E. vm_equal. }
  split; [done|].
  destruct (replica_commit_quorum (HSha := sum_sha256) (HLz4 := zero_lz4) store MemCluster.view (fun _ => quiet)
    (Hcluster := MemCluster.cluster CAPS_ALL) root id quiet_cluster (fun _ => quiet_faithful) (fun _ => eq_refl) (fun _ => eq_refl) (fun _ => 0) two
    eq_refl eq_refl eq_refl ltac:(by split) (fun _ => eq_refl) (handle [1; 1]) r' commit one_down (inr tt) s') as [_ H].
  - done.
  - intros [|[|j]] d Hd; [by injection Hd as <-|by injection Hd as <-|done].
  - by split.
  - exact primary_sources.
  - apply primary_source.
  - exact E.
  - destruct (H eq_refl) as (ok & H1 & H2 & H3 & _). exists ok. split; [done|]. split; [exact H2|exact H3].
Defined.
