(* ===== verification/ReplicaFence.v ===== *)
(** * Replicas: the epoch fence

    What a session may still write on a destination after a promotion: the
    stores a run leaves alone, the fence of a session whose epoch is not the
    recorded one, the epoch record under concurrent raises. *)

From S2P Require Import Prelude CText JsonText ObjectStore Journal Codec WalBatch Sha256 Segment SegmentTheory.
From S2P Require Import CommitManifest CommitManifestTheory CommitPublish CommitPublishTheory Lease CheckpointBuildTheory Cipher.
From S2P Require Import LocalFile Recovery RecoveryProps CapabilityProbe WalPublisher Triples Replica ReplicaTheory ReplicaSafety ReplicaProps.

Create HintDb spares.

(** ** The stores a run leaves alone *)

Section Spares.
Context `{HSha : Sha256} `{HLz4 : Lz4}.
Context {S : Type} (stores : nat -> otsardb_object_store S) (views : nat -> S -> contents)
        {Hcluster : Cluster stores views (fun _ => quiet)}.
Context (clock_now : S -> Z) (getenv : bytes -> option bytes) (e : environment) (root id model : bytes) (y : nat).

(** Nothing changes on store [y]. *)
Definition spares {A} (m : M S A) : Prop := forall s r s', m s = (r, s') -> views y s' = views y s.

Lemma spares_ret {A} (a : A) : spares (mret_ a).
Proof. intros s r s' [= _ <-]. done. Qed.

Lemma spares_bind {A B} (m : M S A) (k : A -> M S B) : spares m -> (forall a, spares (k a)) -> spares (mbind_ m k).
Proof.
  intros Hm Hk s r s' H. unfold mbind_ in H. destruct (m s) as [a s1] eqn:E.
  rewrite (Hk _ _ _ _ H). by eapply Hm.
Qed.

Lemma spares_bind_err {E A B} (m : M S (E + A)) (k : A -> M S (E + B)) :
  spares m -> (forall a, spares (k a)) -> spares (mbind_err m k).
Proof. intros Hm Hk. apply spares_bind; [done|]. intros [err|a]; [apply spares_ret|apply Hk]. Qed.

Lemma spares_get x key : spares (otsardb_store_get (stores x) key).
Proof.
  intros s r s' H. destruct (decide (x = y)) as [->|Hne]; [|symmetry; exact (cluster_get x y key s r s' Hne H)].
  symmetry. by destruct (get_law (StoreLaws := cluster_laws y) _ _ _ _ H).
Qed.

Lemma spares_put x key data o : x <> y -> spares (otsardb_store_put (stores x) key data o).
Proof. intros Hne s r s' H. symmetry. exact (cluster_put x y key data o s r s' Hne H). Qed.

Lemma spares_clock : spares (utc_now clock_now).
Proof. apply spares_bind; [by intros s r s' [= _ <-]|]. intros now. apply spares_ret. Qed.

Lemma spares_retried {A} (attempt : M S (option A * otsardb_journal_result)) : spares attempt -> spares (retried e attempt).
Proof.
  intros Ha. apply spares_bind; [|intros [[a|] rc]; apply spares_ret].
  unfold otsardb_wal_publisher_retry_cycle, publish_retry_cycle.
  generalize (Z.to_nat (publish_retries_limit (env_publish_retries e))), (@None otsardb_journal_result).
  intros n. induction n as [|n IH]; intros first; cbn [retry_loop]; [apply spares_ret|].
  apply spares_bind; [done|]. intros [[a|] rc]; [apply spares_ret|]. by destruct (publish_rc_retryable rc); [|apply spares_ret].
Qed.

(** Programs built from these. *)
Ltac spares_step :=
  match goal with
  | |- spares (mret_ _) => apply spares_ret
  | |- spares (mbind_ _ _) => apply spares_bind; [|intros ?]
  | |- spares (mbind_err _ _) => apply spares_bind_err; [|intros ?]
  | |- spares (otsardb_store_get _ _) => apply spares_get
  | |- spares (otsardb_store_put _ _ _ _) => apply spares_put; assumption
  | |- spares (utc_now _) => apply spares_clock
  | |- spares (retried _ _) => apply spares_retried
  | H : forall _, _ |- spares _ => apply H
  | |- spares _ => solve [eauto with spares]
  | |- spares (match ?x with _ => _ end) => destruct x
  end.
Ltac spares_go := intros; cbv beta zeta; repeat spares_step.

Lemma spares_replicate_object x key data : x <> y -> spares (replicate_object (stores x) key data).
Proof. intros Hx. unfold replicate_object, resolve_put, object_matches. spares_go. Qed.

Lemma spares_ledger_attempts x n key json cid state : x <> y -> spares (ledger_attempts (stores x) n key json cid state).
Proof.
  intros Hx. induction n as [|n IH]; cbn [ledger_attempts]; [apply spares_ret|].
  unfold ledger_put, ledger_resolve. spares_go.
Qed.

Lemma spares_retried_put x key data : x <> y -> spares (replica_retried_put (stores x) e key data).
Proof.
  intros Hx. apply spares_retried. unfold replica_put_attempt_once. apply spares_bind; [by apply spares_replicate_object|].
  spares_go.
Qed.

Lemma spares_retried_ledger x key json cid state : x <> y -> spares (replica_retried_ledger (stores x) e key json cid state).
Proof.
  intros Hx. apply spares_retried. unfold replica_ledger_attempt_once, ledger_write_cas.
  apply spares_bind; [by apply spares_ledger_attempts|]. spares_go.
Qed.

Lemma spares_read_head x : spares (otsardb_journal_read_head (stores x) root).
Proof. unfold otsardb_journal_read_head. spares_go. Qed.

Lemma spares_retried_read x : spares (replica_retried_head_read (stores x) e root).
Proof.
  apply spares_retried. unfold replica_head_read_attempt_once. apply spares_bind; [apply spares_read_head|]. spares_go.
Qed.

Lemma spares_retried_publish x h expected create : x <> y ->
  spares (replica_retried_head_publish (stores x) e root h expected create).
Proof.
  intros Hx. apply spares_retried. unfold replica_head_publish_attempt_once, otsardb_journal_publish_head, publish_head_json.
  spares_go.
Qed.

#[local] Hint Resolve spares_retried_put spares_retried_ledger spares_retried_read spares_retried_publish : spares.

(** The primary and the destination [x] are the only stores written. *)
Context (Hy : 0%nat <> y).

Lemma spares_copy_metadata x : x <> y -> spares (replica_copy_metadata_if_absent e (stores 0) (stores x) root).
Proof. intros Hx. unfold replica_copy_metadata_if_absent. spares_go. Qed.

Lemma spares_select x cid g pg key sha petag retag expected create : x <> y ->
  spares (select_commit clock_now e (stores 0) (stores x) root id model cid g pg key sha petag retag expected create).
Proof. intros Hx. unfold select_commit, write_ledgers. spares_go. Qed.

Lemma spares_read_source key sha : spares (read_source_manifest (stores 0) key sha).
Proof. unfold read_source_manifest. spares_go. Qed.

Lemma spares_copy_segments x refs : x <> y -> spares (copy_segments e (stores 0) (stores x) root refs).
Proof. intros Hx. induction refs; cbn [copy_segments]; spares_go. Qed.

Lemma spares_gap_walk cap : forall wid wsha wgen head, spares (gap_walk (stores 0) cap root wid wsha wgen head).
Proof. induction cap as [|cap IH]; intros; cbn [gap_walk]; spares_go. Qed.

#[local] Hint Resolve spares_copy_metadata spares_select spares_read_source spares_copy_segments spares_gap_walk : spares.

Lemma spares_replay x cs : x <> y -> forall cur petag,
  spares (replay_gap clock_now e (stores 0) (stores x) root id model cs cur petag).
Proof.
  intros Hx. induction cs as [|c cs IH]; intros cur petag; cbn [replay_gap]; [apply spares_ret|].
  unfold replica_replay_gap_commit. spares_go.
Qed.

#[local] Hint Resolve spares_replay : spares.

Lemma spares_classify x ct : x <> y -> spares (classify_destination clock_now e (stores 0) (stores x) root id model ct).
Proof. intros Hx. unfold classify_destination, replica_reconcile_gap, replica_collect_gap. spares_go. Qed.

Lemma spares_segments x cid inputs : x <> y -> spares (replicate_segments e (stores x) root cid inputs).
Proof. intros Hx. induction inputs as [|input inputs IH]; cbn [replicate_segments]; spares_go. Qed.

#[local] Hint Resolve spares_classify spares_segments : spares.

Lemma spares_through x ct : x <> y -> spares (replicate_through clock_now e (stores 0) (stores x) root id model ct).
Proof. intros Hx. unfold replicate_through. spares_go. Qed.

Lemma spares_epoch_read x : spares (otsardb_replica_epoch_read (stores x) root).
Proof. unfold otsardb_replica_epoch_read. spares_go. Qed.
End Spares.

(** ** A session whose epoch is not the recorded one *)

(** The epoch recorded on a store. *)
Definition epoch_at (root : bytes) (v : contents) (epoch : Z) : Prop :=
  exists key ob, epoch_key root = Some key /\ v !! key = Some ob /\ recorded_epoch (so_data ob) = Some epoch.

Section Fence.
Context `{HSha : Sha256} `{HLz4 : Lz4}.
Context {S : Type} (stores : nat -> otsardb_object_store S) (views : nat -> S -> contents)
        {Hcluster : Cluster stores views (fun _ => quiet)}.
Context (clock_now : S -> Z) (getenv : bytes -> option bytes) (root id model : bytes).

Lemma epoch_verify_spares x y (d : otsardb_replica_destination S) s r s' :
  rd_store d = stores x -> replica_epoch_verify d root s = (r, s') ->
  views y s' = views y s /\ rd_store (snd r) = stores x.
Proof.
  intros Hd H. unfold replica_epoch_verify in H. rewrite Hd in H. unfold mbind_, mret_ in H.
  destruct (otsardb_replica_epoch_read (stores x) root s) as [v s1] eqn:E. apply (spares_epoch_read stores views root y) in E.
  rewrite <- E. destruct v as [[]|v]; try by simplify_eq. destruct (_ || _); [by simplify_eq|].
  destruct (_ =? 0); by simplify_eq.
Qed.

(** The fence refuses, whatever the store answers. *)
Lemma epoch_verify_fences x (d : otsardb_replica_destination S) s r s' epoch :
  rd_store d = stores x -> epoch_at root (views x s) epoch -> epoch <> rd_epoch d ->
  replica_epoch_verify d root s = (r, s') -> exists rc, fst r = inl rc.
Proof.
  intros Hd (key & ob & Hk & Hl & He) Hne H. unfold replica_epoch_verify, otsardb_replica_epoch_read in H.
  rewrite Hk, Hd in H. unfold mbind_, mret_ in H. destruct (otsardb_store_get (stores x) key s) as [g s1] eqn:E.
  destruct (get_law (StoreLaws := cluster_laws x) _ _ _ _ E) as [Ev Hg]. rewrite <- Ev in Hg.
  destruct g as [[]|ob']; try (simplify_eq; by eexists).
  rewrite Hl in Hg. injection Hg as <-. unfold recorded_epoch in He. rewrite He in H. cbn [ev_exists ev_epoch negb orb] in H.
  destruct (rd_epoch_known d); cbn [negb orb] in H; [|simplify_eq; by eexists].
  destruct (Z.eqb_spec epoch (rd_epoch d)); [done|]. simplify_eq. by eexists.
Qed.

Lemma destination_spares x y ct (d : otsardb_replica_destination S) s r s' :
  0%nat <> y -> x <> y -> rd_store d = stores x ->
  replica_replicate_destination clock_now getenv (stores 0) root id model ct d s = (r, s') -> views y s' = views y s.
Proof.
  intros Hy Hx Hd H. unfold replica_replicate_destination, mbind_, mret_ in H.
  destruct (replica_epoch_verify d root s) as [[v d'] s1] eqn:E.
  destruct (epoch_verify_spares x y d s _ s1 Hd E) as [Ev Hd']. cbn [snd] in Hd'.
  destruct v as [rc|[]]; [by simplify_eq|]. rewrite Hd' in H.
  destruct (replicate_through _ _ _ _ _ _ _ _ s1) as [r2 s2] eqn:E2.
  apply (spares_through stores views) with (y := y) in E2; [|done..]. simplify_eq. by rewrite E2.
Qed.

Lemma destinations_spare y ct : 0%nat <> y -> forall ds k n first s r s',
  (y <= k)%nat \/ (k + length ds < y)%nat -> placed stores k ds ->
  replicate_destinations clock_now getenv (stores 0) root id model ct ds n first s = (r, s') ->
  views y s' = views y s /\ match fst r with inl _ => True | inr (n', _) => n' <= n + zlen ds end.
Proof.
  intros Hy. induction ds as [|d ds IH]; intros k n first s r s' Hk Hpl H; cbn [replicate_destinations] in H.
  { unfold mret_ in H. simplify_eq. cbn. rewrite zlen_nil. split; [done|lia]. }
  cbn [length] in Hk. unfold mbind_ at 1 in H.
  destruct (replica_replicate_destination _ _ _ _ _ _ _ d s) as [[r1 d1] s1] eqn:E.
  destruct (placed_cons stores _ _ _ Hpl) as [Hd Hpl'].
  apply (destination_spares (Datatypes.S k) y) in E; [|lia..|done]. rewrite zlen_cons.
  destruct r1 as [rc|[]]; [destruct (otsardb_wal_publisher_rc_retryable rc); [|unfold mret_ in H; by simplify_eq]|];
    unfold mbind_, mret_ in H; destruct (replicate_destinations _ _ _ _ _ _ _ _ _ _ s1) as [[out rest] s2] eqn:E2;
    (apply (IH (Datatypes.S k)) in E2 as [E2 Hn]; [|lia|done]; simplify_eq; cbn [fst] in Hn |- *; rewrite E2;
     split; [done|]; destruct out as [|[]]; [done|lia]).
Qed.

(** One destination of the list is fenced: it is spared and is not counted. *)
Lemma destinations_fenced y ct epoch d : 0%nat <> y -> epoch <> rd_epoch d -> forall ds k n first s r s',
  (k < y)%nat -> ds !! (y - Datatypes.S k)%nat = Some d -> placed stores k ds -> epoch_at root (views y s) epoch ->
  replicate_destinations clock_now getenv (stores 0) root id model ct ds n first s = (r, s') ->
  views y s' = views y s /\ match fst r with inl _ => True | inr (n', _) => n' < n + zlen ds end.
Proof.
  intros Hy Hne. induction ds as [|d0 ds IH]; intros k n first s r s' Hk Hd Hpl Hat H; [done|].
  cbn [replicate_destinations] in H. unfold mbind_ at 1 in H.
  destruct (replica_replicate_destination _ _ _ _ _ _ _ d0 s) as [[r1 d1] s1] eqn:E. rewrite zlen_cons.
  destruct (placed_cons stores _ _ _ Hpl) as [Hd0 Hpl'].
  destruct (decide (y = Datatypes.S k)) as [->|Hne'].
  - rewrite Nat.sub_diag in Hd. injection Hd as ->. unfold replica_replicate_destination, mbind_ at 1 in E.
    destruct (replica_epoch_verify d root s) as [[v d'] s0] eqn:Ev.
    destruct (epoch_verify_spares (Datatypes.S k) (Datatypes.S k) d s _ s0 Hd0 Ev) as [Ev' _].
    destruct (epoch_verify_fences (Datatypes.S k) d s _ s0 epoch Hd0 Hat Hne Ev) as [rc Hv]. cbn [fst] in Hv. subst v.
    unfold mret_ in E. injection E as <- <- <-.
    destruct (otsardb_wal_publisher_rc_retryable rc); [|unfold mret_ in H; by simplify_eq].
    unfold mbind_, mret_ in H. destruct (replicate_destinations _ _ _ _ _ _ _ _ _ _ s0) as [[out rest] s2] eqn:E2.
    apply (destinations_spare (Datatypes.S k) ct Hy ds (Datatypes.S k)) in E2 as [E2 Hn]; [|lia|done]. simplify_eq.
    cbn [fst] in Hn |- *. rewrite E2. split; [done|]. destruct out as [|[]]; [done|lia].
  - apply (destination_spares (Datatypes.S k) y) in E; [|lia..|done].
    assert (ds !! (y - Datatypes.S (Datatypes.S k))%nat = Some d) as Hd'.
    { rewrite <- Hd. by replace (y - Datatypes.S k)%nat with (Datatypes.S (y - Datatypes.S (Datatypes.S k)))%nat by lia. }
    destruct r1 as [rc|[]]; [destruct (otsardb_wal_publisher_rc_retryable rc); [|unfold mret_ in H; by simplify_eq]|];
      unfold mbind_, mret_ in H; destruct (replicate_destinations _ _ _ _ _ _ _ _ _ _ s1) as [[out rest] s2] eqn:E2;
      (apply (IH (Datatypes.S k)) in E2 as [E2 Hn]; [|lia|done|done|by rewrite E]; simplify_eq; cbn [fst] in Hn |- *;
       rewrite E2; split; [done|]; destruct out as [|[]]; [done|lia]).
Qed.

Lemma spares_ensure_primary y ct : 0%nat <> y ->
  spares views y (replica_ensure_primary_committed clock_now getenv (stores 0) root ct).
Proof.
  intros Hy. unfold replica_ensure_primary_committed. apply spares_bind; [apply spares_clock|]. intros stamp.
  destruct (ledger_key _ _); [|apply spares_ret]. apply spares_bind_err; [|intros ?; apply spares_ret].
  by eapply spares_retried_ledger.
Qed.

Lemma replicate_destinations_length ct : forall ds n first s out ds' s',
  replicate_destinations clock_now getenv (stores 0) root id model ct ds n first s = ((out, ds'), s') ->
  length ds' = length ds.
Proof.
  induction ds as [|d ds IH]; intros n first s out ds' s' H; cbn [replicate_destinations] in H;
    [unfold mret_ in H; by simplify_eq|].
  unfold mbind_ at 1 in H. destruct (replica_replicate_destination _ _ _ _ _ _ _ d s) as [[[rc|[]] d1] s1];
    [destruct (otsardb_wal_publisher_rc_retryable rc); [|unfold mret_ in H; by simplify_eq]|];
    unfold mbind_, mret_ in H; destruct (replicate_destinations _ _ _ _ _ _ _ _ _ _ s1) as [[out1 rest] s2] eqn:E2;
    apply IH in E2; simplify_eq; cbn; by rewrite E2.
Qed.

End Fence.

Section FencedCommit.
Context `{HSha : Sha256} `{HLz4 : Lz4}.
Context {S : Type} (stores : nat -> otsardb_object_store S) (views : nat -> S -> contents)
        {Hcluster : Cluster stores views (fun _ => quiet)}.
Context (clock_now : S -> Z) (getenv : bytes -> option bytes) (root : bytes).

(** C26. The epoch fence. A session whose epoch for a destination is not the one
    recorded there (a promotion has raised it) writes nothing on that
    destination when it replicates a commit, whatever the other stores do; and
    the destination is not counted: the commit is acknowledged only if the
    quorum is reached without it, never when all the stores are required. *)
Theorem replica_epoch_fence (r r' : otsardb_replica S) (i : nat) (d : otsardb_replica_destination S)
    (ct : replicated_commit) (epoch : Z) s rc s' :
  placed stores 0 (rr_destinations r) -> rr_destinations r !! i = Some d ->
  epoch_at root (views (Datatypes.S i) s) epoch -> epoch <> rd_epoch d ->
  otsardb_replica_replicate_commit clock_now getenv (stores 0) root ct r s = ((rc, r'), s') ->
  views (Datatypes.S i) s' = views (Datatypes.S i) s /\
  (rc = inr tt -> otsardb_replica_quorum getenv r <= zlen (rr_destinations r)).
Proof.
  intros Hpl Hd Hat Hne H. unfold otsardb_replica_replicate_commit in H.
  destruct (rr_destinations r) as [|d0 ds0] eqn:Eds; [done|]. rewrite <- Eds in *. unfold mbind_ at 1 in H.
  destruct (replicate_destinations _ _ _ _ _ _ _ _ _ _ s) as [[out ds] s1] eqn:E.
  assert (otsardb_replica_quorum getenv (set_destinations ds r) = otsardb_replica_quorum getenv r) as Eq.
  { unfold otsardb_replica_quorum, set_destinations, zlen. cbn [rr_destinations].
    by rewrite (replicate_destinations_length stores clock_now getenv _ _ _ _ _ _ _ _ _ _ _ E). }
  destruct (destinations_fenced stores views clock_now getenv root (rr_database_id r) (replication_model r)
    (Datatypes.S i) ct epoch d ltac:(done) Hne (rr_destinations r) 0 0 None s (out, ds) s1) as [E' Hn];
    [lia|by rewrite Nat.sub_succ, Nat.sub_0_r|done..|]. clear E.
  destruct out as [rc1|[n first]]; [unfold mret_ in H; by simplify_eq|]. cbn [fst] in Hn.
  rewrite Eq in H. destruct (Z.leb_spec (otsardb_replica_quorum getenv r) (1 + n)) as [Hq|];
    [|unfold mret_ in H; by simplify_eq].
  destruct (n =? 0); [|unfold mret_ in H; simplify_eq; split; [done|lia]].
  unfold mbind_, mret_ in H. destruct (replica_ensure_primary_committed _ _ _ _ _ s1) as [pr s2] eqn:Ep.
  assert (views (Datatypes.S i) s2 = views (Datatypes.S i) s1) as Ep'.
  { by eapply (spares_ensure_primary stores views clock_now getenv root (Datatypes.S i) ct). }
  simplify_eq. rewrite Ep'. split; [done|lia].
Qed.
End FencedCommit.

(** ** Raising the epoch *)

(** The recorded epoch never goes back. *)
Definition epochs_up (root : bytes) (v w : contents) : Prop :=
  forall e, epoch_at root v e -> exists e', epoch_at root w e' /\ e <= e'.

(** The etag fits the buffers of the code; the epoch is not the last one. *)
Definition epoch_inv (root : bytes) (v : contents) : Prop :=
  forall key ob, epoch_key root = Some key -> v !! key = Some ob ->
    zlen (default [] (so_etag ob)) < 128 /\
    forall e, recorded_epoch (so_data ob) = Some e -> e < UINT64_MAX.

#[export] Instance epochs_up_preorder root : PreOrder (epochs_up root).
Proof.
  split; [intros v e H; exists e; split; [done|lia]|]. intros u v w H1 H2 e He.
  destruct (H1 _ He) as (e1 & He1 & ?). destruct (H2 _ He1) as (e2 & He2 & ?). exists e2. split; [done|lia].
Qed.

Lemma epoch_at_unique root v e e' : epoch_at root v e -> epoch_at root v e' -> e = e'.
Proof. intros (k & ob & ? & ? & ?) (k' & ob' & ? & ? & ?). congruence. Qed.

Lemma epoch_up_insert root key v ob e :
  epoch_key root = Some key -> recorded_epoch (so_data ob) = Some e -> (forall e0, epoch_at root v e0 -> e0 <= e) ->
  epochs_up root v (<[key := ob]> v) /\ epoch_at root (<[key := ob]> v) e.
Proof.
  intros Hk He Hle. assert (epoch_at root (<[key := ob]> v) e) as Hat.
  { exists key, ob. by rewrite lookup_insert_eq. }
  split; [|done]. intros e0 He0. exists e. split; [done|]. by apply Hle.
Qed.

Section Raise.
Context {S : Type} (store : otsardb_object_store S) (view : S -> contents) (env : contents -> contents -> Prop).
Context (Hlaws : StoreLaws store view env) (clock_now : S -> Z) (root : bytes).
Context (Hup : forall v w, env v w -> epochs_up root v w).
Context (Hinv : forall v w, env v w -> epoch_inv root v -> epoch_inv root w).
Context (Hfaith : forall v w, env v w -> faithful v w).
Context (Hcreate : otsardb_store_supports store OTSARDB_STORE_CAP_CONDITIONAL_CREATE = true).

(** What a view says of the contents it was read from. *)
Definition read_from (v : contents) (key : bytes) (vw : otsardb_replica_epoch_view) : Prop :=
  is_u64 (ev_generation vw) /\
  if ev_exists vw then exists ob, v !! key = Some ob /\ recorded_epoch (so_data ob) = Some (ev_epoch vw) /\
                                  ev_etag vw = snprintf_s 128 (default [] (so_etag ob))
  else v !! key = None.

Lemma epoch_read_run key s r s' : epoch_key root = Some key -> otsardb_replica_epoch_read store root s = (r, s') ->
  env (view s) (view s') /\ match r with inr vw => read_from (view s') key vw | inl _ => True end.
Proof.
  intros Hk H. unfold otsardb_replica_epoch_read, mbind_, mret_ in H. rewrite Hk in H.
  destruct (otsardb_store_get store key s) as [g s1] eqn:E. destruct (get_law _ _ _ _ E) as [He Hg].
  assert (s' = s1) as -> by (repeat case_match; by simplify_eq). split; [done|].
  destruct g as [[]|ob]; simplify_eq; try done.
  destruct (json_extract_u64 (cstr (so_data ob)) (str "epoch")) as [n|] eqn:En; simplify_eq; [|done].
  split; cbn [ev_generation ev_exists].
  - destruct (json_extract_u64 (cstr (so_data ob)) (str "generation")) as [g|] eqn:Eg; [|done].
    cbn. by eapply extract_u64_raw_is.
  - by exists ob.
Qed.

Lemma read_epoch_at v key vw : epoch_key root = Some key -> read_from v key vw ->
  forall e, epoch_at root v e <-> ev_exists vw = true /\ e = ev_epoch vw.
Proof.
  intros Hk [_ Hr] e. split.
  - intros (k & ob & Hk' & Hl & He). simplify_eq. destruct (ev_exists vw); [|congruence].
    destruct Hr as (ob' & Hl' & He' & _). split; [done|congruence].
  - intros [Ee ->]. rewrite Ee in Hr. destruct Hr as (ob & Hl & He & _). by exists key, ob.
Qed.

Lemma raised_epoch_u64 v key vw : epoch_key root = Some key -> read_from v key vw -> epoch_inv root v ->
  is_u64 (raised_epoch vw) /\ forall e, epoch_at root v e -> e < raised_epoch vw.
Proof.
  intros Hk Hr Hi. pose proof (read_epoch_at v key vw Hk Hr) as Hat. unfold raised_epoch. destruct (ev_exists vw) eqn:Ee.
  - destruct Hr as [_ Hr]. rewrite Ee in Hr. destruct Hr as (ob & Hl & He & _).
    assert (is_u64 (ev_epoch vw)) as Hu by (by eapply extract_u64_raw_is).
    pose proof (proj2 (Hi _ _ Hk Hl) _ He) as Hlt. unfold is_u64, UINT64_MAX in *.
    unfold u64. rewrite Z.mod_small by lia. split; [lia|]. intros e [_ ->]%Hat. lia.
  - split; [done|]. by intros e [? _]%Hat.
Qed.

(** One attempt against a view that has just been read. *)
Lemma raise_from_run key owner vw s r s' : epoch_key root = Some key -> text_ok owner = true ->
  read_from (view s) key vw -> epoch_inv root (view s) ->
  epoch_raise_from clock_now store key owner vw s = (r, s') ->
  epochs_up root (view s) (view s') /\
  match r with
  | inr n => n = raised_epoch vw /\ epoch_at root (view s') n
  | inl OTSARDB_JOURNAL_CONFLICT => epoch_inv root (view s')
  | inl _ => True
  end.
Proof.
  intros Hk Hown Hr Hi H. destruct (raised_epoch_u64 _ _ _ Hk Hr Hi) as [Hru Hlt].
  unfold epoch_raise_from, utc_now, read_clock in H. unfold mbind_ at 1 2, mret_ at 1 in H.
  unfold epoch_encode_promoted, fits in H. destruct (_ && _); [|unfold mret_ in H; simplify_eq; split; [reflexivity|done]].
  destruct (epoch_text_reads (raised_epoch vw) owner (ev_generation vw)
    (str "promoted to primary (0077); the old primary was offline per the operator contract")
    (utc_text (clock_now s)) Hru (proj1 Hr) Hown) as [Hrec _].
  set (json := epoch_text _ _ _ _ _) in *. unfold epoch_raise_attempt in H. unfold mbind_ at 1 in H.
  destruct (ev_exists vw && _) eqn:Ez; [unfold mret_ in H; simplify_eq; split; [reflexivity|done]|].
  unfold mbind_, mret_ in H. set (o := if ev_exists vw then _ else _) in H.
  destruct (otsardb_store_put store key json o s) as [p s1] eqn:E. assert (s' = s1) as -> by (destruct p as [[]|]; by simplify_eq).
  destruct (put_law _ _ _ _ _ _ E) as (w & Hw & Hp).
  assert (precondition w key o = true -> forall e0, epoch_at root w e0 -> e0 <= raised_epoch vw) as Hle.
  { intros Hpre e0 He0. destruct Hr as [Hg Hr]. destruct (ev_exists vw) eqn:Ee.
    - destruct Hr as (ob & Hl & He & Het). destruct He0 as (k & ob' & Hk' & Hl' & He'). simplify_eq.
      assert (so_data ob' = so_data ob) as Hd; [|rewrite Hd, He in He'; simplify_eq; apply Z.lt_le_incl, Hlt; by exists key, ob].
      eapply (Hfaith _ _ Hw); [exact Hl|exact Hl'|]. left. unfold precondition, o in Hpre. cbn in Hpre.
      rewrite Hl', bool_decide_eq_true in Hpre. rewrite Hpre, Het.
      rewrite snprintf_s_fits by (destruct (Hi _ _ Hk Hl); lia). rewrite Het in Ez.
      destruct (so_etag ob) as [et|]; [done|]. by cbn in Ez.
    - unfold precondition, o in Hpre. rewrite Hcreate in Hpre. cbn in Hpre. rewrite andb_true_r, bool_decide_eq_true in Hpre.
      destruct He0 as (k & ob' & Hk' & Hl' & _). congruence. }
  assert (forall et, precondition w key o = true -> stored w (view s1) key json et ->
    epochs_up root (view s) (view s1) /\ epoch_at root (view s1) (raised_epoch vw)) as Hst.
  { intros et Hpre (ob & Hd & _ & ->). destruct (epoch_up_insert root key w ob (raised_epoch vw)) as [Hu Hat]; [done| |by apply Hle|].
    - by rewrite Hd.
    - split; [|done]. etrans; [by apply Hup|done]. }
  destruct p as [[]|et]; simplify_eq;
    try (destruct Hp as [->|[Hpre Hp]]; [by split; [apply Hup|]|split; [by eapply Hst|done]]).
  - destruct Hp as [_ ->]. split; [by apply Hup|]. by eapply Hinv.
  - by split; [apply Hup|].
  - destruct Hp as [Hpre Hp]. destruct (Hst _ Hpre Hp). by split_and!.
Qed.

Lemma raise_loop_run key owner : epoch_key root = Some key -> text_ok owner = true -> forall n s r s',
  epoch_inv root (view s) -> epoch_raise_loop clock_now store n root key owner s = (r, s') ->
  epochs_up root (view s) (view s') /\
  match r with
  | inr n => epoch_at root (view s') n /\ forall e, epoch_at root (view s) e -> e < n
  | inl _ => True
  end.
Proof.
  intros Hk Hown n. induction n as [|n IH]; intros s r s' Hi H; cbn [epoch_raise_loop] in H.
  { unfold mret_ in H. simplify_eq. split; [reflexivity|done]. }
  unfold mbind_err, mbind_ at 1 in H. destruct (otsardb_replica_epoch_read store root s) as [vw s1] eqn:E1.
  destruct (epoch_read_run key _ _ _ Hk E1) as [He1 Hr]. pose proof (Hup _ _ He1) as Hu1. pose proof (Hinv _ _ He1 Hi) as Hi1.
  destruct vw as [rc|vw]; [unfold mret_ in H; by simplify_eq|]. unfold mbind_ at 1 in H.
  destruct (epoch_raise_from clock_now store key owner vw s1) as [raised s2] eqn:E2.
  destruct (raise_from_run key owner vw _ _ _ Hk Hown Hr Hi1 E2) as [Hu2 Hraise].
  assert (epochs_up root (view s) (view s2)) as Hu12 by (by etrans).
  assert (forall e, epoch_at root (view s) e -> e < raised_epoch vw) as Hlt.
  { intros e (e1 & Hat & Hle)%Hu1. apply (raised_epoch_u64 _ _ _ Hk Hr Hi1) in Hat. lia. }
  destruct raised as [[]|n']; try (unfold mret_ in H; by simplify_eq).
  - destruct (IH _ _ _ Hraise H) as [Hu3 Hres]. split; [by etrans|]. destruct r as [|n']; [done|].
    destruct Hres as [Hat Hlt']. split; [done|]. intros e (e1 & He & Hle)%Hu12. apply Hlt' in He. lia.
  - unfold mbind_, mret_ in H. destruct (otsardb_replica_epoch_read store root s2) as [after s3] eqn:E3.
    destruct (epoch_read_run key _ _ _ Hk E3) as [He3 Hr3]. simplify_eq.
    assert (epochs_up root (view s) (view s')) as Hu3 by (etrans; [done|by apply Hup]). split; [done|].
    destruct after as [|after]; [done|]. destruct (ev_exists after) eqn:Ee; [|done]. cbn [andb].
    destruct (Z.eqb_spec (ev_epoch after) (raised_epoch vw)) as [Eq|]; [|done].
    split; [|by rewrite Eq]. by apply (read_epoch_at _ _ _ Hk Hr3).
  - unfold mret_ in H. destruct Hraise as [-> Hat]. by simplify_eq.
Qed.

(** The epoch only rises. Whatever the faults of the store, with peers that
    only raise the epoch themselves: a promotion's raise never takes the
    recorded epoch back; when it succeeds, the epoch it returns is recorded and
    is above the one before, so that a session that adopted the old epoch is
    fenced. *)
Theorem replica_epoch_raise_monotone (owner : bytes) s r s' :
  text_ok owner = true -> epoch_inv root (view s) ->
  otsardb_replica_epoch_raise clock_now store root owner None s = (r, s') ->
  epochs_up root (view s) (view s') /\
  match r with
  | inr n => epoch_at root (view s') n /\ forall e, epoch_at root (view s) e -> e < n
  | inl _ => True
  end.
Proof.
  intros Hown Hi H. unfold otsardb_replica_epoch_raise in H.
  destruct (_ || _); [unfold mret_ in H; simplify_eq; split; [reflexivity|done]|].
  destruct (epoch_key root) as [key|] eqn:Hk; [|unfold mret_ in H; simplify_eq; split; [reflexivity|done]].
  by eapply raise_loop_run.
Qed.

(** The record is not deleted. *)
Context (Hkeep : forall v w key, env v w -> epoch_key root = Some key -> is_Some (v !! key) -> is_Some (w !! key)).

Lemma adopt_existing fuel id generation key s r s' : epoch_key root = Some key -> is_Some (view s !! key) ->
  epoch_create_or_adopt clock_now store (Datatypes.S fuel) root id generation s = (r, s') ->
  epochs_up root (view s) (view s') /\
  exists out, r = Some out /\ match out with inr (n, _) => epoch_at root (view s') n | inl _ => True end.
Proof.
  intros Hk Hs H. cbn [epoch_create_or_adopt] in H. rewrite Hk in H. unfold mbind_, mret_ in H.
  destruct (otsardb_store_get store key s) as [g s1] eqn:E. destruct (get_law _ _ _ _ E) as [He Hg].
  pose proof (Hkeep _ _ _ He Hk Hs) as [ob0 Hob].
  destruct g as [err|ob].
  - destruct err; try (simplify_eq; split; [by apply Hup|by eexists]). congruence.
  - clear Hob ob0. simplify_eq. split; [by apply Hup|]. eexists. split; [done|].
    destruct (json_extract_u64 (cstr (so_data ob)) (str "epoch")) as [n|] eqn:En; [|done].
    destruct (json_extract_u64 _ (str "generation")); [|done]. by exists key, ob.
Qed.

(** The epoch a session starts with. Over a store with conditional
    creation whose record is not deleted, the adoption of the epoch record ends
    after one retry at most, never changes an epoch that is recorded, and the
    epoch it returns is recorded. *)
Theorem replica_epoch_adopted fuel (id : bytes) (generation : Z) s r s' :
  text_ok id = true -> is_u64 generation ->
  epoch_create_or_adopt clock_now store (Datatypes.S (Datatypes.S fuel)) root id generation s = (r, s') ->
  epochs_up root (view s) (view s') /\
  exists out, r = Some out /\ match out with inr (n, _) => epoch_at root (view s') n | inl _ => True end.
Proof.
  intros Hid Hgen H. pose proof (adopt_existing fuel id generation) as Hadopt.
  remember (Datatypes.S fuel) as fuel1 eqn:Efuel. cbn [epoch_create_or_adopt] in H.
  destruct (epoch_key root) as [key|] eqn:Hk; [|unfold mret_ in H; simplify_eq; split; [reflexivity|by eexists]].
  unfold mbind_ at 1 in H. destruct (otsardb_store_get store key s) as [g s1] eqn:E. destruct (get_law _ _ _ _ E) as [He Hg].
  pose proof (Hup _ _ He) as Hu. destruct g as [err|ob].
  2:{ unfold mret_ in H. simplify_eq. split; [done|]. eexists. split; [done|].
      destruct (json_extract_u64 (cstr (so_data ob)) (str "epoch")) as [n|] eqn:En; [|done].
      destruct (json_extract_u64 _ (str "generation")); [|done]. by exists key, ob. }
  destruct err; try (unfold mret_ in H; simplify_eq; split; [done|by eexists]).
  unfold utc_now, read_clock in H. unfold mbind_ at 1 2, mret_ at 1 in H. unfold epoch_encode, fits in H.
  destruct (_ && _); [|unfold mret_ in H; simplify_eq; split; [done|by eexists]]. rewrite Hcreate in H.
  match type of H with context [epoch_text 1 id generation ?n ?t] =>
    destruct (epoch_text_reads 1 id generation n t ltac:(done) Hgen Hid) as [Hrec _]; set (json := epoch_text 1 id generation n t) in * end.
  unfold mbind_ at 1 in H. destruct (otsardb_store_put store key json _ s1) as [p s2] eqn:Ep.
  destruct (put_law _ _ _ _ _ _ Ep) as (w & Hw & Hp). pose proof (Hup _ _ Hw) as Huw.
  assert (forall et, precondition w key (mkPutOptions true None) = true -> stored w (view s2) key json et ->
    epochs_up root (view s) (view s2) /\ epoch_at root (view s2) 1) as Hst.
  { intros et Hpre (ob & Hd & _ & ->). unfold precondition in Hpre. cbn in Hpre.
    rewrite andb_true_r, bool_decide_eq_true in Hpre.
    destruct (epoch_up_insert root key w ob 1) as [Hu1 Hat]; [done|by rewrite Hd|..|split; [by do 2 (etrans; [done|])|done]].
    intros e0 (k & ob' & Hk' & Hl & _). congruence. }
  assert (view s2 = w -> epochs_up root (view s) (view s2)) as Hsame by (intros ->; by etrans).
  destruct p as [err|et].
  2:{ destruct Hp as [Hpre Hp]. destruct (Hst _ Hpre Hp) as [Hu2 Hat]. unfold mret_ in H. simplify_eq.
      split; [done|]. by eexists. }
  assert (epochs_up root (view s) (view s2)) as Hu2.
  { destruct err; try (by apply Hsame); try (by apply Hsame, Hp); destruct Hp as [?|[Hpre Hp]]; try (by apply Hsame); by eapply Hst. }
  destruct err; try (unfold mret_ in H; simplify_eq; split; [done|by eexists]).
  - destruct Hp as [Hpre Hp]. subst fuel1. apply (Hadopt key) in H as [Hu3 Hout]; [|done|].
    + split; [by etrans|done].
    + rewrite Hp. unfold precondition in Hpre. cbn in Hpre. rewrite andb_true_r, bool_decide_eq_false in Hpre.
      by apply not_eq_None_Some.
  - unfold epoch_create_timeout, mbind_, mret_ in H. destruct (otsardb_store_get store key s2) as [g s3] eqn:E3.
    destruct (get_law _ _ _ _ E3) as [He3 _]. simplify_eq. split; [etrans; [done|by apply Hup]|]. eexists. split; [done|].
    by destruct g as [[]|].
Qed.
End Raise.

(** ** Runs *)

Lemma view_second a b ms : MemCluster.view 1 (ReplicaSample.state (a :: b :: ms)) = m_objects b.
Proof.
  unfold MemCluster.view, MemCluster.at_store, ReplicaSample.state. cbn [imap list_to_map foldr fst snd].
  by rewrite lookup_insert_ne, lookup_insert_eq.
Qed.

(** The epoch record of a sample. *)
Lemma sample_epoch_inv epoch v : is_u64 epoch -> epoch < UINT64_MAX ->
  epoch_inv ReplicaSample.root (m_objects (ReplicaSample.with_epoch epoch v)).
Proof.
  intros Hu He key ob Hk Hl. assert (key = str "db/replica/epoch.json") as ->.
  { assert (epoch_key ReplicaSample.root = Some (str "db/replica/epoch.json")) as E by (by vm_compute). congruence. }
  cbn [ReplicaSample.with_epoch m_objects] in Hl. rewrite lookup_insert_eq in Hl. injection Hl as <-.
  split; [by vm_compute|]. intros e He'. unfold ReplicaSample.epoch_object in He'. cbn [so_data] in He'.
  destruct (epoch_text_reads epoch ReplicaSample.id 0 (str "note") (str "now") Hu ltac:(done) ltac:(done)) as [Hr _].
  rewrite Hr in He'. by injection He' as <-.
Qed.


Lemma sample_epoch_at epoch v : is_u64 epoch ->
  epoch_at ReplicaSample.root (m_objects (ReplicaSample.with_epoch epoch v)) epoch.
Proof.
  intros Hu. exists (str "db/replica/epoch.json"), (ReplicaSample.epoch_object epoch).
  split; [by vm_compute|]. split; [cbn [ReplicaSample.with_epoch m_objects]; apply lookup_insert_eq|].
  apply (epoch_text_reads epoch ReplicaSample.id 0 (str "note") (str "now")); done.
Qed.

Module FenceSample.
(** The destination was promoted: its record says 2. *)
Definition promoted : MemCluster.state := ReplicaSample.state [ReplicaSample.primary; ReplicaSample.with_epoch 2 ∅].
Definition record : mem := ReplicaSample.with_epoch 1 ∅.

(** A store on which peers act: the first of [peers] before the next operation. *)
Definition shared : Type := mem * list (mem -> mem).
Definition after_peer {A} (m : M mem A) : M shared A := fun '(s, peers) =>
  let '(r, s') := m (match peers with p :: _ => p s | [] => s end) in (r, (s', tail peers)).
Definition store : otsardb_object_store shared :=
  mkStore (Some (fun key => after_peer (mem_get key))) (Some (fun key o l => after_peer (mem_get_range key o l)))
    (Some (fun key data o => after_peer (mem_put CAPS_ALL key data o)))
    (Some (fun key source n o => after_peer (mem_put_stream CAPS_ALL key source n o)))
    (Some (fun key => after_peer (mem_delete key))) (Some (fun prefix => after_peer (mem_list prefix))) CAPS_ALL.

(** Two promotions of the same destination. *)
Definition second (s : mem) : (otsardb_journal_result + Z) * mem :=
  otsardb_replica_epoch_raise (fun _ => 0) (mem_store CAPS_ALL) ReplicaSample.root (str "second") None s.
Definition first (s : shared) : (otsardb_journal_result + Z) * shared :=
  otsardb_replica_epoch_raise (fun _ => 0) store ReplicaSample.root (str "first") None s.
Definition idle (s : mem) : mem := s.
Definition promotes (s : mem) : mem := snd (second s).
Definition owner_of (s : mem) : option bytes :=
  match m_objects s !! str "db/replica/epoch.json" with
  | Some ob => json_extract_string (cstr (so_data ob)) (str "owner") 64
  | None => None
  end.
End FenceSample.

Lemma replica_epoch_fence_witness :
  let run := ReplicaSample.replicate ReplicaSample.no_variable (ReplicaSample.handle [1]) FenceSample.promoted in
  MemCluster.view 1 (snd run) = MemCluster.view 1 FenceSample.promoted.
Proof.
  cbv zeta. destruct (ReplicaSample.replicate ReplicaSample.no_variable (ReplicaSample.handle [1]) FenceSample.promoted)
    as [[rc r'] s'] eqn:E. cbn [snd].
  destruct (replica_epoch_fence (HSha := RecoverySample.sum_sha256) (HLz4 := zero_lz4) (MemCluster.store CAPS_ALL) MemCluster.view
    (Hcluster := MemCluster.cluster CAPS_ALL) (fun _ => 0) ReplicaSample.no_variable ReplicaSample.root
    (ReplicaSample.handle [1]) r' 0 (ReplicaSample.destination 1 1) ReplicaSample.commit 2 FenceSample.promoted rc s') as [H _].
  - intros [|j] d Hd; [by injection Hd as <-|done].
  - reflexivity.
  - unfold FenceSample.promoted. rewrite view_second. apply sample_epoch_at. by split.
  - done.
  - exact E.
  - exact H.
Defined.

Lemma replica_epoch_raise_monotone_witness : exists s',
  FenceSample.second FenceSample.record = (inr 2, s') /\ epoch_at ReplicaSample.root (m_objects s') 2.
Proof.
  destruct (FenceSample.second FenceSample.record) as [r s'] eqn:E. exists s'.
  assert (r = inr 2) as ->.
  { change r with (fst (r, s')). rewrite <- E. vm_equal. }
  split; [done|].
  destruct (replica_epoch_raise_monotone (mem_store CAPS_ALL) m_objects quiet (mem_store_laws CAPS_ALL) (fun _ => 0)
    ReplicaSample.root ltac:(by intros ? ? ->) ltac:(by intros ? ? ->) ReplicaSample.quiet_faithful eq_refl
    (str "second") FenceSample.record (inr 2) s') as [_ [H _]].
  - done.
  - apply sample_epoch_inv; [split|]; by vm_compute.
  - exact E.
  - exact H.
Defined.

Lemma replica_epoch_adopted_witness :
  let run := epoch_create_or_adopt (fun _ => 0) (mem_store CAPS_ALL) 2 ReplicaSample.root ReplicaSample.id 0 mem_empty in
  exists out, fst run = Some out.
Proof.
  cbv zeta. destruct (epoch_create_or_adopt (fun _ => 0) (mem_store CAPS_ALL) 2 ReplicaSample.root ReplicaSample.id 0 mem_empty)
    as [r s'] eqn:E.
  destruct (replica_epoch_adopted (mem_store CAPS_ALL) m_objects quiet (mem_store_laws CAPS_ALL) (fun _ => 0)
    ReplicaSample.root ltac:(by intros ? ? ->) eq_refl ltac:(by intros ? ? ? ->) 0 ReplicaSample.id 0 mem_empty r s')
    as [_ (out & H & _)].
  - done.
  - by split.
  - exact E.
  - exists out. exact H.
Defined.

(** Two promotions can both win. When the first promoter's raise is lost in
    a timeout and the second one raises the epoch meanwhile, both return the
    same epoch: the first takes the second's record for its own. When the first
    loses the race instead, it reads again and wins too, one epoch further. *)
Theorem replica_two_promoters :
  (let s := mkMem (m_objects FenceSample.record) 0 0 [F_none; F_fail OTSARDB_STORE_TIMEOUT] in
   let run := FenceSample.first (s, [FenceSample.idle; FenceSample.idle; FenceSample.promotes]) in
   fst run = inr 2 /\ fst (FenceSample.second FenceSample.record) = inr 2 /\
   FenceSample.owner_of (fst (snd run)) = Some (str "second")) /\
  (let run := FenceSample.first (FenceSample.record, [FenceSample.idle; FenceSample.promotes]) in
   fst run = inr 3 /\ fst (FenceSample.second FenceSample.record) = inr 2).
Proof. cbv zeta. split; split_and!; vm_equal. Qed.
