(* ===== verification/ReplicaGap.v ===== *)
(** * Replicas: the gap of a destination that lags

    The commits that a destination misses, as a relation on the contents of the
    primary, and the equivalence of the walk with it. *)

From S2P Require Import Prelude CText JsonText ObjectStore Journal Codec WalBatch Sha256 Segment SegmentTheory.
From S2P Require Import CommitManifest CommitManifestTheory CommitPublish CommitPublishTheory Lease Cipher.
From S2P Require Import LocalFile Recovery RecoveryChain RecoveryProps CapabilityProbe WalPublisher Replica ReplicaTheory ReplicaProps.

Section Gap.
Context `{HSha : Sha256}.
Context {S : Type} (primary : otsardb_object_store S) (view : S -> contents) (Hlaws : StoreLaws primary view quiet).
Context (root : bytes) (head : otsardb_head).

(** The commits above the destination's HEAD, newest first: the manifest of each
    is on the primary with the digest its successor names. *)
Inductive gap_chain (v : contents) : bytes -> bytes -> Z -> list replica_gap_commit -> Prop :=
| gap_end sha : gap_chain v (hd_commit_id head) sha (hd_generation head) []
| gap_next id sha generation key ob m rest :
    hd_generation head < generation -> is_u64 generation ->
    fits (OTSARDB_KEY_MAX + 1) (root ++ str "/commits/" ++ id ++ str ".json") = Some key ->
    v !! key = Some ob -> otsardb_sha256_hex_data (so_data ob) = sha ->
    otsardb_commit_manifest_decode_json (so_data ob) = Some m -> cm_generation m = generation ->
    gap_chain v (cm_parent_commit_id m) (cm_parent_manifest_sha256 m) (cm_parent_generation m) rest ->
    gap_chain v id sha generation (mkGap id sha generation :: rest).

Lemma decode_follows json m : otsardb_commit_manifest_decode_json json = Some m ->
  cm_generation m = cm_parent_generation m + 1.
Proof.
  intros H. apply manifest_decode_facts in H as (_ & _ & _ & Hp & _).
  destruct (Z.eqb_spec (cm_parent_generation m) 0) as [E|]; destruct Hp; lia.
Qed.

(** A chain spans the generations, one by one. *)
Lemma gap_chain_span v id sha generation gap : gap_chain v id sha generation gap ->
  generation = hd_generation head + zlen gap /\
  map gp_generation (reverse gap) = seqZ (hd_generation head + 1) (zlen gap).
Proof.
  induction 1 as [sha|id sha generation key ob m rest Hlt Hu Hk Hl Hs Hd Hg _ [IH1 IH2]].
  - rewrite zlen_nil. split; [lia|done].
  - apply decode_follows in Hd. rewrite zlen_cons, reverse_cons, map_app, IH2. cbn [map gp_generation].
    split; [lia|]. replace (1 + zlen rest) with (zlen rest + 1) by lia.
    rewrite seqZ_app by (pose proof (zlen_nonneg rest); lia). f_equal.
    rewrite seqZ_cons by lia. f_equal. lia.
Qed.

Lemma gap_end_sound v cap id sha generation (s : S) gap s' :
  mret_ (if (generation =? hd_generation head) && bytes_eqb id (hd_commit_id head)
         then inr [] else inl OTSARDB_JOURNAL_CONFLICT) s = (inr gap, s') ->
  (length gap <= cap)%nat /\ gap_chain v id sha generation gap.
Proof.
  unfold mret_. destruct (Z.eqb_spec generation (hd_generation head)) as [->|]; [|done].
  destruct (bytes_eqb id (hd_commit_id head)) eqn:Eid; [|done]. apply bytes_eqb_eq in Eid as ->.
  cbn. intros [= <- _]. split; [cbn; lia|constructor].
Qed.

Lemma gap_walk_sound cap : forall id sha generation s gap s',
  gap_walk primary cap root id sha generation head s = (inr gap, s') ->
  (length gap <= cap)%nat /\ gap_chain (view s) id sha generation gap.
Proof.
  induction cap as [|cap IH]; intros id sha generation s gap s' H; cbn [gap_walk] in H;
    (destruct (Z.ltb_spec (hd_generation head) generation) as [Hlt|Hge]; cbn [negb] in H; [|by eapply gap_end_sound]); [done|].
  destruct (fits _ _) as [key|] eqn:Ek; [|done]. unfold mbind_ at 1 in H.
  destruct (otsardb_store_get primary key s) as [[err|ob] s1] eqn:E; [done|].
  destruct (get_law _ _ _ _ E) as [Ev Hl]. rewrite <- Ev in Hl.
  destruct (bytes_eqb _ sha) eqn:Es; [|done]. apply bytes_eqb_eq in Es. cbn [negb] in H.
  destruct (otsardb_commit_manifest_decode_json (so_data ob)) as [m|] eqn:Ed; [|done].
  destruct (Z.eqb_spec (cm_generation m) generation) as [Eg|]; [|done].
  destruct (Z.eqb_spec (u64 (cm_parent_generation m + 1)) generation) as [Eu|]; [|done]. cbn [negb orb] in H.
  unfold mbind_err, mbind_ at 1 in H. destruct (gap_walk _ _ _ _ _ _ _ s1) as [[|rest] s2] eqn:Ew; [done|].
  unfold mret_ in H. injection H as <- <-. apply IH in Ew as [Hlen Hc]. rewrite <- Ev in Hc. split; [cbn; lia|].
  assert (is_u64 (u64 (cm_parent_generation m + 1))) as Hu.
  { unfold is_u64, u64, UINT64_MAX. pose proof (Z.mod_pos_bound (cm_parent_generation m + 1) (2 ^ 64) eq_refl). lia. }
  rewrite Eu in Hu. by eapply gap_next.
Qed.

Lemma gap_walk_complete (Hans : answers primary view) v id sha generation gap : gap_chain v id sha generation gap ->
  forall cap s, view s = v -> (length gap <= cap)%nat ->
  fst (gap_walk primary cap root id sha generation head s) = inr gap.
Proof.
  induction 1 as [sha|id sha generation key ob m rest Hlt Hu Hk Hl Hs Hd Hg _ IH]; intros cap s Hv Hc.
  - destruct cap; cbn [gap_walk]; rewrite Z.ltb_irrefl, Z.eqb_refl; cbn [negb andb];
      by rewrite (proj2 (bytes_eqb_eq _ _) eq_refl).
  - cbn [length] in Hc. destruct cap as [|cap]; [lia|]. cbn [gap_walk].
    destruct (Z.ltb_spec (hd_generation head) generation); [|lia]. cbn [negb]. rewrite Hk. unfold mbind_ at 1.
    rewrite <- Hv in Hl. pose proof (Hans _ _ _ Hl) as Hget.
    destruct (otsardb_store_get primary key s) as [g s1] eqn:E. cbn [fst] in Hget. subst g.
    destruct (get_law _ _ _ _ E) as [Ev _]. rewrite Hs, (proj2 (bytes_eqb_eq _ _) eq_refl). cbn [negb]. rewrite Hd.
    pose proof (decode_follows _ _ Hd) as Hf. rewrite <- Hf, Hg, Z.eqb_refl. unfold u64, is_u64 in *.
    rewrite Z.mod_small, Z.eqb_refl by (unfold UINT64_MAX in *; lia). cbn [negb orb].
    unfold mbind_err, mbind_ at 1. specialize (IH cap s1 ltac:(congruence) ltac:(lia)).
    destruct (gap_walk _ _ _ _ _ _ _ s1) as [r s2]. cbn [fst] in IH. by subst r.
Qed.

(** C27. The gap is exact. Whatever the store answers, the commits collected for a
    destination that lags are a chain from the parent of the new commit to the
    destination's HEAD: each manifest is on the primary with the digest its
    successor names, the generations are consecutive from HEAD's on, and there
    are 64 at most. Conversely, over a store that answers, a chain of at most 64
    commits is collected, whole and in order. *)
Theorem replica_gap_exact (parent_id parent_sha : bytes) (parent_generation : Z) gap s :
  0 < zlen parent_id < 64 -> zlen parent_sha = 64 -> parent_generation <> 0 -> hd_commit_id head <> [] ->
  (fst (replica_collect_gap primary root parent_id parent_sha parent_generation head s) = inr gap ->
     gap_chain (view s) parent_id parent_sha parent_generation gap /\ zlen gap <= 64 /\
     map gp_generation (reverse gap) = seqZ (hd_generation head + 1) (parent_generation - hd_generation head)) /\
  (answers primary view -> gap_chain (view s) parent_id parent_sha parent_generation gap -> zlen gap <= 64 ->
     fst (replica_collect_gap primary root parent_id parent_sha parent_generation head s) = inr gap).
Proof.
  intros Hid Hsha Hgen Hhead. unfold replica_collect_gap.
  destruct (Z.eqb_spec (zlen parent_id) 0); [lia|]. destruct (Z.eqb_spec parent_generation 0); [done|].
  destruct (Z.eqb_spec (zlen (hd_commit_id head)) 0) as [E|]; [by apply zlen_0 in E|]. cbn [orb].
  rewrite !snprintf_s_fits by lia. unfold OTSARDB_REPLICA_RECONCILE_MAX_COMMITS. split.
  - destruct (gap_walk _ _ _ _ _ _ _ s) as [r s'] eqn:E. cbn [fst]. intros ->.
    apply gap_walk_sound in E as [Hlen Hc]. destruct (gap_chain_span _ _ _ _ _ Hc) as [-> Hs].
    split_and!; [done|unfold zlen; lia|]. rewrite Hs. f_equal. lia.
  - intros Hans Hc Hlen. eapply gap_walk_complete; [done..|]. unfold zlen in Hlen. lia.
Qed.
End Gap.

(** The destination has the first commit of the sample; the second is missing. *)
Definition lagging : otsardb_head := mkHead 1 1 (str "db-1") (str "c-1") (str "db/commits/c-1.json") [].

Lemma replica_gap_exact_witness :
  let gap := [mkGap (str "c-2") (RecoverySample.digest RecoverySample.m2) 2] in
  gap_chain (HSha := RecoverySample.sum_sha256) (str "db") lagging RecoverySample.objects (str "c-2")
    (RecoverySample.digest RecoverySample.m2) 2 gap /\ zlen gap <= 64.
Proof.
  intros gap.
  destruct (replica_gap_exact (HSha := RecoverySample.sum_sha256) RecoverySample.shelf id RecoverySample.shelf_laws
    (str "db") lagging (str "c-2") (RecoverySample.digest RecoverySample.m2) 2 gap RecoverySample.objects) as [H _].
  - by split.
  - by vm_compute.
  - done.
  - done.
  - destruct H as (H1 & H2 & _); [vm_equal|]. split; [exact H1|exact H2].
Defined.
