(* ===== verification/ReplicaPromote.v ===== *)
(** * Replicas: promotion

    Which destination a promotion chooses, what its success means, and the runs
    in which the choice and the epoch do not protect an acknowledged commit. *)

From S2P Require Import Prelude CText JsonText ObjectStore Journal Codec WalBatch Sha256 Segment SegmentTheory.
From S2P Require Import DbMetadata CommitManifest CommitPublish CommitPublishTheory Lease CheckpointBuildTheory Cipher CipherTheory.
From S2P Require Import LocalFile Recovery RecoveryTheory RecoveryRestore RecoveryProps CapabilityProbe WalPublisher WalPublisherProps Triples.
From S2P Require Import Replica ReplicaTheory ReplicaSafety ReplicaProps ReplicaFence.

(** The stores list what they hold under a prefix. *)
Class Listing {S} (stores : nat -> otsardb_object_store S) (views : nat -> S -> contents) : Prop := {
  listing_law : forall x p s r s', otsardb_store_list (stores x) p s = (r, s') ->
    (forall y, views y s' = views y s) /\
    match r with
    | inr keys => forall k, k ∈ keys <-> is_Some (views x s !! (p ++ k))
    | inl err => err <> OTSARDB_STORE_UNSUPPORTED
    end
}.

(** ** The newest COMMITTED commit of a store *)

Section Newest.
Context {S : Type} (stores : nat -> otsardb_object_store S) (views : nat -> S -> contents)
        {Hcluster : Cluster stores views (fun _ => quiet)} {Hlisting : Listing stores views}.
Context (root : bytes).

(** The ledger under [root/replica/k] is COMMITTED at generation [g]. *)
Definition ledger_entry (v : contents) (k : bytes) (g : Z) : Prop :=
  exists ob l, v !! (root ++ str "/replica/" ++ k) = Some ob /\ committed_ledger ob = Some l /\ lg_generation l = g.

Definition ledger_name (k : bytes) : bool := negb (zlen k =? 0) && negb (bytes_eqb k (str "epoch.json")).

(** [g] is the newest COMMITTED generation; 0 when there is none. *)
Definition newest_of (v : contents) (g : Z) : Prop :=
  0 <= g /\ (forall k g', ledger_name k = true -> ledger_entry v k g' -> g' <= g) /\
  (0 < g -> exists k, ledger_name k = true /\ ledger_entry v k g).

Definition head_generation_is (v : contents) (g : Z) : Prop :=
  exists hk ob h, build_head_key root (OTSARDB_KEY_MAX + 1) = Some hk /\ v !! hk = Some ob /\
    otsardb_head_decode_json (so_data ob) = Some h /\ hd_generation h = g.

(** A destination that may be promoted, with its generation. *)
Definition promotable (v : contents) (g : Z) : Prop := 0 < g /\ newest_of v g /\ head_generation_is v g.

Lemma newest_run x keys : forall safe s g s',
  newest_committed (stores x) root keys safe s = (inr g, s') ->
  safe <= g /\ (forall k g', k ∈ keys -> ledger_entry (views x s) k g' -> g' <= g) /\
  (g = safe \/ exists k, k ∈ keys /\ ledger_entry (views x s) k g).
Proof.
  induction keys as [|k keys IH]; intros safe s g s' H; cbn [newest_committed] in H.
  { unfold mret_ in H. simplify_eq. split_and!; [lia|by intros k g' []%not_elem_of_nil|by left]. }
  unfold fits in H. destruct (_ && _); [|done]. unfold mbind_ in H.
  destruct (otsardb_store_get (stores x) _ s) as [r s1] eqn:E.
  destruct (get_law (StoreLaws := cluster_laws x) _ _ _ _ E) as [Ev Hr].
  assert (forall safe', safe <= safe' -> newest_committed (stores x) root keys safe' s1 = (inr g, s') ->
    (forall g', ledger_entry (views x s) k g' -> g' <= safe') ->
    (safe' = safe \/ ledger_entry (views x s) k safe') ->
    safe <= g /\ (forall k0 g', k0 ∈ k :: keys -> ledger_entry (views x s) k0 g' -> g' <= g) /\
    (g = safe \/ exists k0, k0 ∈ k :: keys /\ ledger_entry (views x s) k0 g)) as Hstep.
  { intros safe' Hle H' Hk Hs. apply IH in H' as (H1 & H2 & H3). rewrite <- Ev in *. split_and!; [lia| |].
    - intros k0 g' [->|Hin]%elem_of_cons He; [apply Hk in He; lia|by eapply H2].
    - destruct H3 as [->|(k0 & Hin & He)].
      + destruct Hs as [->|Hs]; [by left|]. right. exists k. split; [apply list_elem_of_here|done].
      + right. exists k0. split; [by apply list_elem_of_further|done]. }
  destruct r as [[]|ob]; try done.
  - apply (Hstep safe); [lia|done| |by left]. intros g' (ob & l & Hl & _). rewrite Ev in Hl. congruence.
  - rewrite <- Ev in Hr. refine (Hstep _ _ H _ _).
    + destruct (committed_ledger ob) as [l|]; [|lia]. destruct (Z.ltb_spec safe (lg_generation l)); lia.
    + intros g' (ob' & l' & Hl & Hc & <-). rewrite Hl in Hr. injection Hr as ->. rewrite Hc.
      destruct (Z.ltb_spec safe (lg_generation l')); lia.
    + destruct (committed_ledger ob) as [l|] eqn:Ec; [|by left].
      destruct (Z.ltb_spec safe (lg_generation l)); [right|by left]. by exists ob, l.
Qed.

Lemma newest_spares x y keys : forall safe, spares views y (newest_committed (stores x) root keys safe).
Proof.
  induction keys as [|k keys IH]; intros safe; cbn [newest_committed]; [apply spares_ret|].
  destruct (fits _ _); [|apply spares_ret]. apply spares_bind; [by eapply spares_get|].
  intros [[]|ob]; try apply spares_ret; apply IH.
Qed.

Lemma safe_last_run x s g s' : destination_safe_last_commit (stores x) root s = (inr g, s') ->
  newest_of (views x s) g /\ forall y, views y s' = views y s.
Proof.
  unfold destination_safe_last_commit, fits. destruct (_ && _); [|done]. unfold mbind_.
  destruct (otsardb_store_list (stores x) _ s) as [r s1] eqn:E.
  destruct (listing_law _ _ _ _ _ E) as [Ev Hr]. destruct r as [err|keys]; [by destruct err|].
  unfold replica_safe_scan. set (kept := filter _ keys). destruct (1000000 <? zlen kept); [done|]. intros H.
  assert (forall k, k ∈ kept <-> ledger_name k = true /\ is_Some (views x s !! (root ++ str "/replica/" ++ k))) as Hkept.
  { intros k. subst kept. rewrite list_elem_of_filter, Hr, <- (app_assoc root). unfold ledger_name.
    by rewrite Is_true_true. }
  pose proof (newest_run x kept _ _ _ _ H) as (H1 & H2 & H3). rewrite Ev in H2, H3.
  split; [|intros y; rewrite (newest_spares x y kept _ _ _ _ H); apply Ev].
  split_and!; [done| |].
  - intros k g' Hk He. apply (H2 k); [|done]. apply Hkept. split; [done|].
    destruct He as (ob & l & Hl & _). rewrite Hl. by eexists.
  - intros Hg. destruct H3 as [->|(k & Hin & He)]; [lia|]. exists k. split; [|done]. by apply Hkept.
Qed.

Lemma head_generation_run x s g s' : destination_head_generation (stores x) root s = (inr g, s') ->
  head_generation_is (views x s) g \/
    (g = 0 /\ forall hk, build_head_key root (OTSARDB_KEY_MAX + 1) = Some hk -> views x s !! hk = None).
Proof.
  unfold destination_head_generation, mbind_, mret_.
  destruct (otsardb_journal_read_head (stores x) root s) as [[rc res] s1] eqn:E. intros H.
  assert (s' = s1) as -> by (repeat case_match; by simplify_eq).
  unfold otsardb_journal_read_head, mbind_, mret_ in E.
  destruct (build_head_key _ _) as [hk|] eqn:Ek; [|destruct rc; by simplify_eq].
  destruct (otsardb_store_get (stores x) hk s) as [r s2] eqn:Eg.
  destruct (get_law (StoreLaws := cluster_laws x) _ _ _ _ Eg) as [Ev Hr]. rewrite <- Ev in Hr.
  destruct r as [[]|ob]; simplify_eq; [right; split; [done|by intros ? [= <-]]|]. left.
  destruct (otsardb_head_decode_json (so_data ob)) as [h'|] eqn:Ed; [|by simplify_eq].
  exists hk, ob, h'. split_and!; try done. by destruct (so_etag ob) as [[]|]; simplify_eq.
Qed.

Lemma head_generation_spares x y : spares views y (destination_head_generation (stores x) root).
Proof.
  apply spares_bind; [by eapply spares_read_head|]. intros [[] [[h et]|]]; apply spares_ret.
Qed.

Lemma newest_unique v g g' : newest_of v g -> newest_of v g' -> g = g'.
Proof.
  assert (forall a b, newest_of v a -> newest_of v b -> a <= b) as Hle.
  { intros a b (Ha & _ & Ha3) (Hb & Hb2 & _). destruct (decide (0 < a)) as [Hlt|]; [|lia].
    destruct (Ha3 Hlt) as (k & Hk & He). by eapply Hb2. }
  intros H H'. pose proof (Hle _ _ H H'). pose proof (Hle _ _ H' H). lia.
Qed.

Lemma promotable_reads v g safe hg : newest_of v safe ->
  head_generation_is v hg \/ (hg = 0 /\ forall hk, build_head_key root (OTSARDB_KEY_MAX + 1) = Some hk -> v !! hk = None) ->
  promotable v g <-> g = safe /\ hg = safe /\ 0 < safe.
Proof.
  intros Hn Hh. split.
  - intros (Hg & Hng & (hk & ob & h & Hk & Hl & Hd & Hhg)). pose proof (newest_unique _ _ _ Hng Hn) as ->.
    split_and!; [done| |done]. destruct Hh as [(hk' & ob' & h' & Hk' & Hl' & Hd' & Hhg')|[_ Hnone]].
    + congruence.
    + rewrite (Hnone _ Hk) in Hl. done.
  - intros (-> & -> & Hg). split_and!; [done|done|]. destruct Hh as [|[-> _]]; [done|lia].
Qed.

(** The choice. *)
Lemma pick_run ds : forall k best s out s', placed stores k ds ->
  promotion_pick root k ds best s = (inr out, s') ->
  (forall y, views y s' = views y s) /\
  (out = best \/ exists j g, out = Some ((k + j)%nat, g) /\ (j < length ds)%nat /\ promotable (views (Datatypes.S (k + j)) s) g) /\
  (forall b g, best = Some (b, g) -> exists b' g', out = Some (b', g') /\ g <= g') /\
  (forall j g, (j < length ds)%nat -> promotable (views (Datatypes.S (k + j)) s) g ->
     exists b' g', out = Some (b', g') /\ g <= g').
Proof.
  induction ds as [|d ds IH]; intros k best s out s' Hpl H; cbn [promotion_pick] in H.
  { unfold mret_ in H. simplify_eq. split_and!; [done|by left| |cbn; lia]. intros b g ->. exists b, g. split; [done|lia]. }
  destruct (placed_cons stores _ _ _ Hpl) as [Hd Hpl']. rewrite Hd in H. unfold mbind_err, mbind_ at 1 in H.
  destruct (destination_safe_last_commit _ root s) as [[|safe] s1] eqn:E1; [done|]. unfold mbind_ at 1 in H.
  destruct (destination_head_generation _ root s1) as [[|hg] s2] eqn:E2; [done|].
  apply safe_last_run in E1 as [Hn Ev1]. pose proof (head_generation_run _ _ _ _ E2) as Hh. rewrite Ev1 in Hh.
  assert (forall y, views y s2 = views y s) as Ev.
  { intros y. by rewrite (head_generation_spares (Datatypes.S k) y _ _ _ E2), Ev1. }
  pose proof (fun g => promotable_reads _ g _ _ Hn Hh) as Hthis.
  set (best1 := if _ || _ then best else _) in H.
  assert ((best1 = best /\ forall g, promotable (views (Datatypes.S k) s) g -> exists b g', best = Some (b, g') /\ g <= g') \/
          (best1 = Some (k, safe) /\ promotable (views (Datatypes.S k) s) safe /\ forall b g, best = Some (b, g) -> g < safe)) as Hb.
  { subst best1. destruct Hn as [Hn0 _]. destruct (Z.eqb_spec safe 0) as [->|Hne]; cbn [orb].
    { left. split; [done|]. intros g (_ & _ & ?)%Hthis. lia. }
    destruct (Z.eqb_spec hg safe) as [->|Hne']; cbn [negb].
    2:{ left. split; [done|]. by intros g (_ & ? & _)%Hthis. }
    assert (promotable (views (Datatypes.S k) s) safe) as Hpr by (apply Hthis; split_and!; [done..|lia]).
    destruct best as [[b0 g0]|]; cbn [fst snd].
    - destruct (Z.ltb_spec g0 safe); [right|left]; (split; [done|]).
      + split; [done|]. intros b g [= -> ->]. done.
      + intros g (-> & _ & _)%Hthis. by exists b0, g0.
    - destruct (Z.ltb_spec 0 safe); [|lia]. right. by split_and!. }
  clearbody best1. apply (IH (Datatypes.S k)) in H as (Ev3 & Hout & Hmono & Hmax); [|done].
  assert (forall j, (k + Datatypes.S j = Datatypes.S k + j)%nat) as Hidx by (intros; lia).
  split_and!.
  - intros y. by rewrite Ev3.
  - destruct Hout as [->|(j & g & -> & Hj & Hp)].
    + destruct Hb as [[-> _]|(-> & Hp & _)]; [by left|]. right. exists 0%nat, safe. rewrite Nat.add_0_r. cbn. by split_and!; [|lia|].
    + right. exists (Datatypes.S j), g. rewrite Hidx. rewrite <- Ev. cbn [length]. by split_and!; [|lia|].
  - intros b g Hbest. destruct Hb as [[-> _]|(-> & _ & Hlt)]; [by eapply Hmono|].
    destruct (Hmono _ _ eq_refl) as (b' & g' & -> & ?). apply Hlt in Hbest. exists b', g'. split; [done|lia].
  - intros [|j] g Hj Hp.
    + rewrite Nat.add_0_r in Hp. destruct Hb as [[-> Hcov]|(-> & _ & _)].
      * destruct (Hcov _ Hp) as (b & g1 & E & ?). destruct (Hmono _ _ E) as (b' & g' & -> & ?). exists b', g'. split; [done|lia].
      * apply Hthis in Hp as (-> & _ & _). by apply (Hmono k safe).
    + rewrite Hidx, <- Ev in Hp. cbn [length] in Hj. apply (Hmax j g); [lia|done].
Qed.
End Newest.

(** ** What a promotion means *)

Section Promotion.
Context `{HSha : Sha256} `{HLz4 : Lz4} `{HA : Aead}.
Context {S : Type} (stores : nat -> otsardb_object_store S) (views : nat -> S -> contents)
        {Hcluster : Cluster stores views (fun _ => quiet)} {Hlisting : Listing stores views}.
Context (Hcreate : forall x, otsardb_store_supports (stores x) OTSARDB_STORE_CAP_CONDITIONAL_CREATE = true).
Context (clock_now : S -> Z) (getenv : bytes -> option bytes).

(** The raise writes the epoch record and nothing else. *)
Lemma raise_writes x root key owner : epoch_key root = Some key -> forall n,
  writes_only (views x) key (epoch_raise_loop clock_now (stores x) n root key owner).
Proof.
  intros Hk. assert (StoreLaws (stores x) (views x) quiet) as Hlaws by exact (cluster_laws (env := fun _ => quiet) x).
  assert (writes_only (views x) key (otsardb_replica_epoch_read (stores x) root)) as Hread.
  { apply reads_writes. intros s r s' H. by eapply spares_epoch_read. }
  assert (forall A (a : A), writes_only (views x) key (mret_ (S := S) a)) as Hret.
  { intros A a. apply reads_writes, only_reads_ret. }
  intros n. induction n as [|n IH]; cbn [epoch_raise_loop]; [apply Hret|].
  apply writes_bind; [done|]. intros [rc|vw]; [apply Hret|]. apply writes_bind.
  - unfold epoch_raise_from. apply writes_bind; [apply reads_writes; intros s r s' H; by eapply (spares_clock views clock_now x)|].
    intros stamp. destruct (epoch_encode_promoted _ _ _ _) as [json|]; [|apply Hret]. apply writes_bind; [|intros rc; apply Hret].
    unfold epoch_raise_attempt. destruct (_ && _); [apply Hret|]. apply writes_bind; [by apply writes_put|intros ?; apply Hret].
  - intros [[]|epoch]; try apply Hret; [done|]. apply writes_bind; [done|intros ?; apply Hret].
Qed.

Lemma raise_spares x y root key owner : x <> y -> forall n,
  spares views y (epoch_raise_loop clock_now (stores x) n root key owner).
Proof.
  intros Hx n. induction n as [|n IH]; cbn [epoch_raise_loop]; [apply spares_ret|].
  apply spares_bind_err; [by eapply spares_epoch_read|]. intros vw. apply spares_bind.
  - unfold epoch_raise_from, epoch_raise_attempt. apply spares_bind; [apply spares_clock|]. intros stamp.
    destruct (epoch_encode_promoted _ _ _ _) as [json|]; [|apply spares_ret]. apply spares_bind; [|intros rc; apply spares_ret].
    destruct (_ && _); [apply spares_ret|]. apply spares_bind; [by eapply spares_put|intros ?; apply spares_ret].
  - intros [[]|epoch]; try apply spares_ret; [done|]. apply spares_bind; [by eapply spares_epoch_read|intros ?; apply spares_ret].
Qed.

(** The lease of the old primary is absent or has expired. *)
Definition lease_over (root : bytes) (ttl : Z) (s : S) : Prop :=
  forall key ob, root_join root (str "lease.json") (OTSARDB_KEY_MAX + 1) = Some key -> views 0 s !! key = Some ob ->
    0 < so_last_modified_secs ob /\ exists g s1, otsardb_store_get (stores 0) key s = (g, s1) /\
      otsardb_lease_age_is_expired ttl (age_of (clock_now s1) (so_last_modified_secs ob)) = true.

Lemma releasable_run root ttl s s' : replica_old_primary_releasable clock_now (stores 0) root ttl s = (true, s') ->
  lease_over root ttl s /\ forall y, views y s' = views y s.
Proof.
  unfold replica_old_primary_releasable, lease_over. destruct (root_join root _ _) as [key|]; [|done].
  unfold mbind_ at 1. destruct (otsardb_store_get (stores 0) key s) as [g s1] eqn:E. intros H.
  assert (forall y, views y s1 = views y s) as Ev by (intros y; by eapply spares_get).
  destruct (get_law (StoreLaws := cluster_laws 0%nat) _ _ _ _ E) as [_ Hg]. rewrite Ev in Hg.
  destruct g as [[]|ob]; try (unfold mret_ in H; by simplify_eq).
  - unfold mret_ in H. simplify_eq. split; [|done]. intros k ob [= <-] Hl. congruence.
  - destruct (Z.ltb_spec 0 (so_last_modified_secs ob)); [|unfold mret_ in H; by simplify_eq].
    unfold read_clock, mbind_, mret_ in H. injection H as Hexp <-. split; [|done].
    intros k ob' [= <-] Hl. rewrite Hl in Hg. injection Hg as ->. split; [done|]. by exists (inr ob), s1.
Qed.

Lemma read_database_head x root s md head : fst (read_database (stores x) root s) = Some (md, head) ->
  head_generation_is root (views x s) (hd_generation head).
Proof.
  unfold read_database, mbind_, mret_. destruct (otsardb_db_metadata_read (stores x) root s) as [[rc m] s1] eqn:E.
  assert (StoreLaws (stores x) (views x) quiet) as Hlaws by exact (cluster_laws (env := fun _ => quiet) x).
  pose proof (reads_metadata (stores x) (views x) Hlaws root _ _ _ E) as Ev.
  destruct rc; try done. destruct m as [m|]; [|done].
  destruct (otsardb_journal_read_head (stores x) root s1) as [[rc r] s2] eqn:E2.
  destruct rc; try done. destruct r as [[h et]|]; [|done]. destruct (_ || _); [done|]. cbn. intros [= <- <-].
  unfold otsardb_journal_read_head, mbind_, mret_ in E2. destruct (build_head_key _ _) as [hk|] eqn:Ek; [|done].
  destruct (otsardb_store_get (stores x) hk s1) as [g s3] eqn:Eg. destruct (get_law _ _ _ _ Eg) as [Ev' Hg].
  rewrite <- Ev', Ev in Hg. destruct g as [[]|ob]; try done.
  destruct (otsardb_head_decode_json (so_data ob)) as [h'|] eqn:Ed; [|done].
  exists hk, ob, h'. split_and!; try done. by destruct (so_etag ob) as [[]|]; simplify_eq.
Qed.

Lemma head_generation_unique root v g g' : head_generation_is root v g -> head_generation_is root v g' -> g = g'.
Proof. intros (k & ob & h & ? & ? & ? & ?) (k' & ob' & h' & ? & ? & ? & ?). congruence. Qed.

(** The raise of a promotion that succeeds. *)
Lemma raise_run x root owner s n s' : text_ok owner = true -> epoch_inv root (views x s) ->
  otsardb_replica_epoch_raise clock_now (stores x) root owner None s = (inr n, s') ->
  epoch_at root (views x s') n /\ (forall e, epoch_at root (views x s) e -> e < n) /\
  exists key, epoch_key root = Some key /\ forall k, k <> key -> views x s' !! k = views x s !! k.
Proof.
  intros Hown Hi H. unfold otsardb_replica_epoch_raise in H. destruct (_ || _); [done|].
  destruct (epoch_key root) as [key|] eqn:Hk; [|done].
  destruct (raise_loop_run (stores x) (views x) quiet (cluster_laws (env := fun _ => quiet) _)
    clock_now root ltac:(by intros ? ? ->) ltac:(by intros ? ? ->) ltac:(by intros v ? -> k o o' ? ? _; congruence) (Hcreate _)
    key owner Hk Hown 3 s (inr n) s' Hi H) as [_ [Hat Hlt]].
  split_and!; [done..|]. exists key. split; [done|]. exact (raise_writes x root key _ Hk 3 _ _ _ H).
Qed.

(** C28. What a promotion means. Over stores that list what they hold, whatever
    their faults, when a promotion succeeds: the old primary's lease is absent
    or has expired; the destination chosen has its HEAD at its newest COMMITTED
    ledger, and no destination that could be promoted has a newer one; the
    epoch recorded there has risen above the one before, and is the handle's;
    the local file is the image that the commits of that HEAD denote. *)
Theorem replica_promotion_sound (thread_cipher : option bytes) (path : bytes) (ttl : Z) (r r' : otsardb_replica S)
    s l s' l' :
  ttl <> 0 -> placed stores 0 (rr_destinations r) -> text_ok (rr_database_id r) = true ->
  (forall i, (i < length (rr_destinations r))%nat -> epoch_inv (rr_database_root r) (views (Datatypes.S i) s)) -> sound_io l ->
  otsardb_replica_promote clock_now getenv thread_cipher (stores 0) path ttl r (s, l) = ((inr tt, r'), (s', l')) ->
  lease_over (rr_database_root r) ttl s /\
  exists i g n,
    rr_promoted_index r' = Z.of_nat i /\ (i < length (rr_destinations r))%nat /\
    promotable (rr_database_root r) (views (Datatypes.S i) s) g /\
    (forall j g', (j < length (rr_destinations r))%nat ->
       promotable (rr_database_root r) (views (Datatypes.S j) s) g' -> g' <= g) /\
    epoch_at (rr_database_root r) (views (Datatypes.S i) s') n /\
    (forall e, epoch_at (rr_database_root r) (views (Datatypes.S i) s) e -> e < n) /\
    rd_epoch <$> rr_destinations r' !! i = Some n /\
    exists md head, restorable (views (Datatypes.S i) s') (rr_database_root r) md head thread_cipher (file_at l' path) /\
      hd_generation head = g.
Proof.
  intros Httl Hpl Hid Hinv Hio H. unfold otsardb_replica_promote in H. set (root := rr_database_root r) in *.
  destruct (zlen path =? 0); [done|]. destruct (Z.eqb_spec ttl 0) as [|_]; [done|].
  unfold mbind_ at 1, on_store at 1 in H. cbn [fst snd] in H.
  destruct (replica_old_primary_releasable clock_now (stores 0) root ttl s) as [[] s1] eqn:E1; [|done].
  apply releasable_run in E1 as [Hlease Ev1]. split; [done|]. cbn [negb] in H.
  unfold mbind_ at 1, on_store at 1 in H. cbn [fst snd] in H.
  destruct (promotion_pick root 0 (rr_destinations r) None s1) as [[|[[best g]|]] s2] eqn:E2; [done| |done].
  apply (pick_run stores views) in E2 as (Ev2 & Hout & _ & Hmax); [|done].
  destruct Hout as [|(i & g0 & [= -> <-] & Hi & Hp)]; [done|]. cbn [Nat.add] in *. rewrite Ev1 in Hp.
  destruct (lookup_lt_is_Some_2 _ _ Hi) as [d Hd]. rewrite Hd in H. cbv zeta in H.
  rewrite (Hpl i d Hd) in H. cbn [Nat.add rr_database_id] in H. unfold mbind_ at 1, on_store at 1 in H. cbn [fst snd] in H.
  destruct (otsardb_replica_epoch_raise clock_now (stores (Datatypes.S i)) root (rr_database_id r) None s2)
    as [[|n] s3] eqn:E3; [done|].
  assert (views (Datatypes.S i) s2 = views (Datatypes.S i) s) as Ev by (by rewrite Ev2, Ev1).
  apply raise_run in E3 as (Hat & Hlt & ek & Hk & Hw); [|done|rewrite Ev; by apply Hinv].
  unfold mbind_ at 1, on_store at 1 in H. cbn [fst snd] in H.
  destruct (otsardb_replica_epoch_read (stores (Datatypes.S i)) root s3) as [vw s4] eqn:E4.
  apply (spares_epoch_read stores views root (Datatypes.S i)) in E4.
  unfold mbind_, mret_ in H. unfold otsardb_recovery_restore_store in H.
  destruct (otsardb_recovery_restore_store_ex _ root path thread_cipher (s4, l)) as [ok [s5 l5]] eqn:E5.
  destruct ok; [|done]. injection H as <- <- <-.
  assert (forall p s r s', otsardb_store_list (stores (Datatypes.S i)) p s = (r, s') ->
    views (Datatypes.S i) s' = views (Datatypes.S i) s) as Hlist.
  { intros p t q t' Hl. by apply listing_law in Hl as [Hl _]. }
  pose proof (keeps_restore _ _ (cluster_laws (env := fun _ => quiet) (Datatypes.S i)) Hlist root path thread_cipher _ _ _ E5) as Ev5.
  destruct (restore_image _ _ (cluster_laws (env := fun _ => quiet) (Datatypes.S i)) Hlist root path thread_cipher
    s4 l s5 l5 Hio E5) as (md & head & Hdb & Hrest). cbn [fst] in Ev5.
  exists i, g, n. split_and!.
  - done.
  - done.
  - done.
  - intros j g' Hj Hpj. rewrite <- Ev1 in Hpj. destruct (Hmax j g' Hj Hpj) as (b & g1 & [= <- <-] & ?). done.
  - by rewrite Ev5, E4.
  - intros e He. apply Hlt. by rewrite Ev.
  - cbn. rewrite list_lookup_insert_eq by done. done.
  - exists md, head. split; [by rewrite Ev5|]. eapply head_generation_unique; [by eapply read_database_head|].
    rewrite E4. destruct Hp as (_ & _ & (hk & ob & h & Hhk & Hl & Hd1 & Hd2)). exists hk, ob, h. split_and!; try done.
    rewrite Hw, Ev; [done|]. intros ->. pose proof (root_join_inj _ _ _ _ _ Hhk Hk) as Ex. discriminate Ex.
Qed.
End Promotion.

(** ** Runs *)

#[export] Instance mem_listing caps : Listing (MemCluster.store caps) MemCluster.view.
Proof.
  split. intros x p s r s' H. apply MemCluster.lift_run in H as [H Hy]. unfold mem_list in H. injection H as <- Hx.
  split.
  - intros y. unfold MemCluster.view. destruct (decide (y = x)) as [->|Hne]; [by rewrite <- Hx|by rewrite Hy].
  - intros k. unfold MemCluster.view. set (v := m_objects (MemCluster.at_store x s)). rewrite list_elem_of_fmap. split.
    + intros (key & -> & Hin). apply list_elem_of_filter in Hin as [Hp Hin]. apply list_elem_of_fmap in Hin as ([k0 ob] & -> & Hin).
      apply elem_of_map_to_list in Hin. cbn in *. apply Is_true_true, prefixb_spec in Hp as [rest ->].
      rewrite drop_app_length. by exists ob.
    + intros [ob Hl]. exists (p ++ k). rewrite drop_app_length. split; [done|]. apply list_elem_of_filter. split.
      * apply Is_true_true, prefixb_spec. by eexists.
      * apply list_elem_of_fmap. exists (p ++ k, ob). split; [done|]. by apply elem_of_map_to_list.
Qed.

Module PromoteSample.
Abbreviation store := (MemCluster.store CAPS_ALL).
Abbreviation root := ReplicaSample.root.
Definition committed (cid : string) (generation : Z) : otsardb_store_object :=
  RecoverySample.object (ledger_encode (ledger_of (str cid) generation (generation - 1) [] OTSARDB_REPLICA_STATE_COMMITTED
    [] [] (str "C") (str "replica") (str "now"))).
(** Both commits, the second COMMITTED. *)
Definition complete : mem :=
  ReplicaSample.with_epoch 1 (<[str "db/replica/c-2.json" := committed "c-2" 2]> RecoverySample.objects).
(** The third commit COMMITTED too, and HEAD at a fourth. *)
Definition ahead : mem :=
  ReplicaSample.with_epoch 1 (<[str "db/replica/c-3.json" := committed "c-3" 3]>
    (<[str "db/HEAD.json" := RecoverySample.object (otsardb_head_encode_json
         (mkHead 1 4 (str "db-1") (str "c-4") (str "db/commits/c-4.json") (replicate 64 48)))]> ∅)).
Abbreviation promote r s :=
  (otsardb_replica_promote (HSha := RecoverySample.sum_sha256) (HLz4 := zero_lz4) (fun _ => 100) ReplicaSample.no_variable None (store 0)
     RecoverySample.path 30 r (s, no_files)).
Definition one : MemCluster.state := ReplicaSample.state [mem_empty; complete].
Definition both : MemCluster.state := ReplicaSample.state [mem_empty; complete; ahead].
End PromoteSample.

Lemma complete_epoch_inv : epoch_inv ReplicaSample.root (m_objects PromoteSample.complete).
Proof. apply sample_epoch_inv; [split|]; by vm_compute. Qed.

Lemma replica_promotion_sound_witness : exists r' s' l',
  PromoteSample.promote (ReplicaSample.handle [1]) PromoteSample.one = ((inr tt, r'), (s', l')) /\
  exists i g n, rr_promoted_index r' = Z.of_nat i /\
    promotable ReplicaSample.root (MemCluster.view (Datatypes.S i) PromoteSample.one) g /\
    epoch_at ReplicaSample.root (MemCluster.view (Datatypes.S i) s') n.
Proof.
  destruct (PromoteSample.promote (ReplicaSample.handle [1]) PromoteSample.one) as [[rc r'] [s' l']] eqn:E. exists r', s', l'.
  assert (rc = inr tt) as ->.
  { change rc with (fst (fst (rc, r', (s', l')))). rewrite <- E. vm_equal. }
  split; [done|].
  destruct (replica_promotion_sound (HSha := RecoverySample.sum_sha256) (HLz4 := zero_lz4) PromoteSample.store MemCluster.view
    (Hcluster := MemCluster.cluster CAPS_ALL) (fun _ => eq_refl) (fun _ => 100) ReplicaSample.no_variable None RecoverySample.path
    30 (ReplicaSample.handle [1]) r' PromoteSample.one no_files s' l') as [_ (i & g & n & H1 & _ & H2 & _ & H3 & _)].
  - done.
  - intros [|j] d Hd; [by injection Hd as <-|done].
  - done.
  - intros [|i] Hi; [|cbn in Hi; lia]. unfold PromoteSample.one. rewrite view_second.
    exact complete_epoch_inv.
  - done.
  - exact E.
  - exists i, g, n. split; [exact H1|]. split; [exact H2|exact H3].
Defined.

(** The choice is not the newest: a destination whose HEAD is past its
    newest COMMITTED ledger is passed over even when that ledger is newer than
    the ones of the destination chosen. Here commit c-3, COMMITTED on the second
    destination, is lost by a promotion that succeeds at generation 2. *)
Theorem replica_promotion_passes_over : exists r' s' l',
  PromoteSample.promote (ReplicaSample.handle [1; 1]) PromoteSample.both = ((inr tt, r'), (s', l')) /\
  rr_promoted_index r' = 0 /\
  committed_at (MemCluster.view 2 PromoteSample.both) (str "db/replica/c-3.json") (str "c-3") /\
  file_at l' RecoverySample.path = RecoverySample.image2.
Proof.
  destruct (PromoteSample.promote (ReplicaSample.handle [1; 1]) PromoteSample.both) as [[rc r'] [s' l']] eqn:E.
  exists r', s', l'. assert (rc = inr tt) as ->.
  { change rc with (fst (fst (rc, r', (s', l')))). rewrite <- E. vm_equal. }
  split; [done|]. split; [|split].
  - change r' with (snd (fst (inr tt : otsardb_journal_result + unit, r', (s', l')))). rewrite <- E. vm_equal.
  - exists (PromoteSample.committed "c-3" 3), (mkLedger (str "c-3") 3 0 [] OTSARDB_REPLICA_STATE_COMMITTED [] [] [] [] []).
    split; [vm_equal|]. split; [vm_equal|]. split; reflexivity.
  - change l' with (snd (snd (inr tt : otsardb_journal_result + unit, r', (s', l')))). rewrite <- E. vm_equal.
Qed.
