(* ===== verification/LazyCache.v ===== *)
(** * The RAM page cache of lazy hydration (lazy_hydration.c)

    A tier of verified pages with strict LRU eviction under a byte budget. The
    entries are one array of slots; a slot is on the free list or on the LRU list
    and on the chain of its bucket. All links are slot numbers, counted from 1
    with 0 for none, and the free list runs through the links of the chains. *)

From S2P Require Import Prelude CText WalPublisher.

Definition LAZY_RAM_CACHE_DEFAULT_MB : Z := 64.
Definition LAZY_RAM_CACHE_MAX_MB : Z := 65536.
Definition LAZY_RAM_CACHE_POOL_MAX : Z := 4194304.

Record lazy_cache_entry := mkEntry {
  ce_page_no : Z;
  ce_data : option bytes;
  ce_hash_next : nat;
  ce_lru_prev : nat;
  ce_lru_next : nat
}.

(** [rc_entries] and [rc_hash] are empty for a tier that is not initialised. *)
Record lazy_ram_cache := mkCache {
  rc_entries : list lazy_cache_entry;
  rc_hash : list nat;
  rc_budget_bytes : Z;
  rc_used_bytes : Z;
  rc_lru_head : nat;
  rc_lru_tail : nat;
  rc_free_head : nat;
  rc_count : Z
}.

Definition zero_entry : lazy_cache_entry := mkEntry 0 None 0 0 0.
Definition zero_cache : lazy_ram_cache := mkCache [] [] 0 0 0 0 0 0.

(** ** Assignments *)

Definition set_page (p : Z) (d : option bytes) (e : lazy_cache_entry) : lazy_cache_entry :=
  mkEntry p d (ce_hash_next e) (ce_lru_prev e) (ce_lru_next e).
Definition set_hash_next (n : nat) (e : lazy_cache_entry) : lazy_cache_entry :=
  mkEntry (ce_page_no e) (ce_data e) n (ce_lru_prev e) (ce_lru_next e).
Definition set_lru_prev (n : nat) (e : lazy_cache_entry) : lazy_cache_entry :=
  mkEntry (ce_page_no e) (ce_data e) (ce_hash_next e) n (ce_lru_next e).
Definition set_lru_next (n : nat) (e : lazy_cache_entry) : lazy_cache_entry :=
  mkEntry (ce_page_no e) (ce_data e) (ce_hash_next e) (ce_lru_prev e) n.

Definition with_entries (f : list lazy_cache_entry -> list lazy_cache_entry) (c : lazy_ram_cache) : lazy_ram_cache :=
  mkCache (f (rc_entries c)) (rc_hash c) (rc_budget_bytes c) (rc_used_bytes c)
    (rc_lru_head c) (rc_lru_tail c) (rc_free_head c) (rc_count c).
Definition with_hash (f : list nat -> list nat) (c : lazy_ram_cache) : lazy_ram_cache :=
  mkCache (rc_entries c) (f (rc_hash c)) (rc_budget_bytes c) (rc_used_bytes c)
    (rc_lru_head c) (rc_lru_tail c) (rc_free_head c) (rc_count c).
Definition with_lru_head (n : nat) (c : lazy_ram_cache) : lazy_ram_cache :=
  mkCache (rc_entries c) (rc_hash c) (rc_budget_bytes c) (rc_used_bytes c)
    n (rc_lru_tail c) (rc_free_head c) (rc_count c).
Definition with_lru_tail (n : nat) (c : lazy_ram_cache) : lazy_ram_cache :=
  mkCache (rc_entries c) (rc_hash c) (rc_budget_bytes c) (rc_used_bytes c)
    (rc_lru_head c) n (rc_free_head c) (rc_count c).
Definition with_free_head (n : nat) (c : lazy_ram_cache) : lazy_ram_cache :=
  mkCache (rc_entries c) (rc_hash c) (rc_budget_bytes c) (rc_used_bytes c)
    (rc_lru_head c) (rc_lru_tail c) n (rc_count c).
Definition with_usage (used count : Z) (c : lazy_ram_cache) : lazy_ram_cache :=
  mkCache (rc_entries c) (rc_hash c) (rc_budget_bytes c) used
    (rc_lru_head c) (rc_lru_tail c) (rc_free_head c) count.

(** [c->entries[slot - 1]], read and changed in place. *)
Definition entry (c : lazy_ram_cache) (slot : nat) : lazy_cache_entry :=
  default zero_entry (rc_entries c !! pred slot).
Definition on_entry (slot : nat) (f : lazy_cache_entry -> lazy_cache_entry) : lazy_ram_cache -> lazy_ram_cache :=
  with_entries (alter f (pred slot)).

(** ** The environment *)

Definition lazy_ram_cache_mb (getenv : bytes -> option bytes) : Z :=
  match getenv (str "OTSARDB_S3_RAM_CACHE_MB") with
  | None | Some [] => LAZY_RAM_CACHE_DEFAULT_MB
  | Some value =>
      match strtol_all value with
      | None => LAZY_RAM_CACHE_DEFAULT_MB
      | Some n =>
          if n <? 0 then LAZY_RAM_CACHE_DEFAULT_MB
          else if n =? 0 then 0
          else if LAZY_RAM_CACHE_MAX_MB <? n then LAZY_RAM_CACHE_MAX_MB else n
      end
  end.

(** ** Buckets *)

Definition lazy_cache_hash (buckets : nat) (page_no : Z) : nat :=
  Z.to_nat (Z.land (u32 (Z.shiftr (u64 (page_no * 2654435761)) 32)) (u32 (Z.of_nat buckets - 1))).

Definition bucket_of (c : lazy_ram_cache) (page_no : Z) : nat := lazy_cache_hash (length (rc_hash c)) page_no.

(** Doubled until there are two buckets per slot, at most 2^23. *)
Fixpoint grow_buckets (fuel : nat) (buckets pool : Z) : Z :=
  match fuel with
  | O => buckets
  | S fuel' =>
      if (buckets <? pool * 2) && (buckets <=? Z.shiftl 1 22)
      then grow_buckets fuel' (Z.shiftl buckets 1) pool else buckets
  end.

Definition free_entry (pool i : nat) : lazy_cache_entry :=
  mkEntry 0 None (if (S i <? pool)%nat then S (S i) else 0) 0 0.

Definition lazy_cache_init (getenv : bytes -> option bytes) (page_size : Z) (c : lazy_ram_cache) : lazy_ram_cache :=
  if negb (zlen (rc_entries c) =? 0) then c
  else
    let mb := lazy_ram_cache_mb getenv in
    if (mb =? 0) || (page_size =? 0) then c
    else
      let budget := mb * 1024 * 1024 in
      let want := budget / page_size + 1 in
      let pool := Z.to_nat (if LAZY_RAM_CACHE_POOL_MAX <? want then LAZY_RAM_CACHE_POOL_MAX else want) in
      let buckets := grow_buckets 24 1 (Z.of_nat pool) in
      mkCache (free_entry pool <$> seq 0 pool) (replicate (Z.to_nat buckets) 0%nat) budget
        (rc_used_bytes c) (rc_lru_head c) (rc_lru_tail c) 1 (rc_count c).

Definition lazy_cache_clear (c : lazy_ram_cache) : lazy_ram_cache := zero_cache.

(** ** Walks along a chain *)

(** The loop over a chain that starts at [cur], reached through the link of
    [prev] (0 for the head of the bucket): the first slot that passes the test,
    with the slot before it. A chain has no more slots than the pool. *)
Fixpoint find_link (fuel : nat) (c : lazy_ram_cache) (test : nat -> bool) (prev cur : nat) : option (nat * nat) :=
  match fuel, cur with
  | O, _ | _, O => None
  | S fuel', _ =>
      if test cur then Some (prev, cur) else find_link fuel' c test cur (ce_hash_next (entry c cur))
  end.

Definition find_in_bucket (c : lazy_ram_cache) (test : nat -> bool) (page_no : Z) : option (nat * nat) :=
  find_link (length (rc_entries c)) c test 0 (default 0%nat (rc_hash c !! bucket_of c page_no)).

Definition has_page (c : lazy_ram_cache) (page_no : Z) (slot : nat) : bool := ce_page_no (entry c slot) =? page_no.

(** [*link = v], where [link] is the link of [prev] or the head of the bucket. *)
Definition set_link (bucket prev v : nat) (c : lazy_ram_cache) : lazy_ram_cache :=
  if (prev =? 0)%nat then with_hash (<[bucket := v]>) c else on_entry prev (set_hash_next v) c.

(** ** The LRU list *)

Definition lru_detach (slot : nat) (c : lazy_ram_cache) : lazy_ram_cache :=
  let e := entry c slot in
  let c := if (ce_lru_prev e =? 0)%nat then with_lru_head (ce_lru_next e) c
           else on_entry (ce_lru_prev e) (set_lru_next (ce_lru_next e)) c in
  if (ce_lru_next e =? 0)%nat then with_lru_tail (ce_lru_prev e) c
  else on_entry (ce_lru_next e) (set_lru_prev (ce_lru_prev e)) c.

Definition lru_push_front (slot : nat) (c : lazy_ram_cache) : lazy_ram_cache :=
  let c := on_entry slot (fun e => set_lru_next (rc_lru_head c) (set_lru_prev 0 e)) c in
  let c := if (rc_lru_head c =? 0)%nat then c else on_entry (rc_lru_head c) (set_lru_prev slot) c in
  let c := with_lru_head slot c in
  if (rc_lru_tail c =? 0)%nat then with_lru_tail slot c else c.

(** ** The operations *)

(** The slot is emptied and pushed on the free list. *)
Definition recycle (page_size : Z) (slot : nat) (c : lazy_ram_cache) : lazy_ram_cache :=
  let c := on_entry slot (fun e => mkEntry 0 None (rc_free_head c) 0 0) c in
  let c := with_free_head slot c in
  with_usage (if page_size <=? rc_used_bytes c then rc_used_bytes c - page_size else 0)
    (u32 (rc_count c - 1)) c.

Definition lazy_cache_evict_lru (page_size : Z) (c : lazy_ram_cache) : nat * lazy_ram_cache :=
  let slot := rc_lru_tail c in
  if (slot =? 0)%nat then (0%nat, c)
  else
    let e := entry c slot in
    let c := with_lru_tail (ce_lru_prev e) c in
    let c := if (rc_lru_tail c =? 0)%nat then with_lru_head 0 c
             else on_entry (rc_lru_tail c) (set_lru_next 0) c in
    let bucket := bucket_of c (ce_page_no e) in
    let c := match find_in_bucket c (Nat.eqb slot) (ce_page_no e) with
             | Some (prev, _) => set_link bucket prev (ce_hash_next (entry c slot)) c
             | None => c
             end in
    (slot, recycle page_size slot c).

(** The tier is off without a budget. *)
Definition cache_off (c : lazy_ram_cache) : bool := (rc_budget_bytes c =? 0) || (zlen (rc_hash c) =? 0).

(** A hit moves the entry to the front. *)
Definition lazy_cache_lookup (page_no : Z) (c : lazy_ram_cache) : option bytes * lazy_ram_cache :=
  if cache_off c then (None, c)
  else match find_in_bucket c (has_page c page_no) page_no with
       | None => (None, c)
       | Some (_, slot) =>
           (ce_data (entry c slot),
            if (rc_lru_head c =? slot)%nat then c else lru_push_front slot (lru_detach slot c))
       end.

Definition lazy_cache_contains (page_no : Z) (c : lazy_ram_cache) : bool :=
  if cache_off c then false
  else match find_in_bucket c (has_page c page_no) page_no with Some _ => true | None => false end.

(** The loop that makes room; it ends with the tier empty, so [fuel] is the
    number of entries. *)
Fixpoint make_room (fuel : nat) (page_size : Z) (c : lazy_ram_cache) : lazy_ram_cache :=
  match fuel with
  | O => c
  | S fuel' =>
      if (0 <? rc_count c) && (rc_budget_bytes c <? u64 (rc_used_bytes c + page_size))
      then make_room fuel' page_size (snd (lazy_cache_evict_lru page_size c)) else c
  end.

(** The first free slot takes the page and goes on the chain of its bucket. *)
Definition link_entry (page_no : Z) (data : bytes) (c : lazy_ram_cache) : lazy_ram_cache :=
  let slot := rc_free_head c in
  let bucket := bucket_of c page_no in
  let c := with_free_head (ce_hash_next (entry c slot)) c in
  let c := on_entry slot (fun e => set_hash_next (default 0%nat (rc_hash c !! bucket)) (set_page page_no (Some data) e)) c in
  with_hash (<[bucket := slot]>) c.

Definition insert_entry (page_size page_no : Z) (data : bytes) (c : lazy_ram_cache) : lazy_ram_cache :=
  let slot := rc_free_head c in
  let c := lru_push_front slot (link_entry page_no data c) in
  with_usage (u64 (rc_used_bytes c + page_size)) (u32 (rc_count c + 1)) c.

Definition lazy_cache_store (page_size page_no : Z) (data : bytes) (c : lazy_ram_cache) : lazy_ram_cache :=
  if cache_off c || (page_no =? 0) then c
  else
    let data := take (Z.to_nat page_size) data in
    match find_in_bucket c (has_page c page_no) page_no with
    | Some (_, slot) => snd (lazy_cache_lookup page_no (on_entry slot (set_page page_no (Some data)) c))
    | None =>
        let c := make_room (length (rc_entries c)) page_size c in
        let c := if (rc_free_head c =? 0)%nat && negb (rc_lru_tail c =? 0)%nat
                 then snd (lazy_cache_evict_lru page_size c) else c in
        if (rc_free_head c =? 0)%nat then c else insert_entry page_size page_no data c
    end.

Definition lazy_cache_remove (page_size page_no : Z) (c : lazy_ram_cache) : lazy_ram_cache :=
  if cache_off c || (page_no =? 0) then c
  else match find_in_bucket c (has_page c page_no) page_no with
       | None => c
       | Some (prev, slot) =>
           let c := set_link (bucket_of c page_no) prev (ce_hash_next (entry c slot)) c in
           recycle page_size slot (lru_detach slot c)
       end.
