(* ===== verification/LazyCacheTheory.v ===== *)
(** * The RAM page cache refines an LRU list

    The slot array with its three kinds of links is abstracted to the list of its
    pages, the most recently used first; every operation of the cache is the
    operation of the same name on that list. *)

From S2P Require Import Prelude CText WalPublisher LazyCache.

(** ** Chains through an array of links *)

Definition first0 (l : list nat) : nat := default 0%nat (head l).
Definition last0 (l : list nat) : nat := default 0%nat (list.last l).

(** From [s] on, the links are the slots of [l], in order. *)
Fixpoint chain (next : list nat) (s : nat) (l : list nat) : Prop :=
  match l with
  | [] => s = 0%nat
  | x :: l' => s = x /\ x <> 0%nat /\ exists n, next !! pred x = Some n /\ chain next n l'
  end.

Lemma chain_first next s l : chain next s l -> s = first0 l.
Proof. destruct l; [done|]. by intros [-> _]. Qed.

Lemma chain_nonzero next s l x : chain next s l -> x ∈ l -> x <> 0%nat.
Proof.
  revert s. induction l as [|y l IH]; intros s; [by rewrite elem_of_nil|].
  intros (-> & Hy & n & _ & Hl) [->|Hx]%elem_of_cons; [done|]. by apply (IH n).
Qed.

Lemma pred_inj (x y : nat) : x <> 0%nat -> y <> 0%nat -> pred x = pred y -> x = y.
Proof. lia. Qed.

Lemma chain_frame next s l x v :
  chain next s l -> x ∉ l -> x <> 0%nat -> chain (<[pred x := v]> next) s l.
Proof.
  intros H Hx Hx0. revert s H Hx. induction l as [|y l IH]; intros s; [done|].
  intros (-> & Hy & n & Hn & Hl) [Hxy Hxl]%not_elem_of_cons. split; [done|]. split; [done|].
  exists n. split; [|by apply IH]. rewrite list_lookup_insert_ne; [done|]. intros E. by apply Hxy, pred_inj.
Qed.

Lemma chain_next next s l1 x l2 : chain next s (l1 ++ x :: l2) -> next !! pred x = Some (first0 l2).
Proof.
  revert s. induction l1 as [|y l1 IH]; intros s; cbn [app chain].
  - intros (_ & _ & n & Hn & Hl). by rewrite <- (chain_first next n l2).
  - intros (_ & _ & n & _ & Hl). by apply (IH n).
Qed.

Lemma chain_bound next s l x : chain next s l -> x ∈ l -> (pred x < length next)%nat.
Proof.
  intros H (l1 & l2 & ->)%list_elem_of_split. apply chain_next in H. by apply lookup_lt_Some in H.
Qed.

Lemma chain_push next s l x :
  chain next s l -> x ∉ l -> x <> 0%nat -> (pred x < length next)%nat -> chain (<[pred x := s]> next) x (x :: l).
Proof.
  intros H Hx Hx0 Hlt. split; [done|]. split; [done|]. exists s. split; [by apply list_lookup_insert_eq|].
  by apply chain_frame.
Qed.

(** A slot is added at the end: the links of the list read backwards. *)
Lemma chain_snoc next s l x :
  chain next s l -> x ∉ l -> x <> 0%nat -> (pred x < length next)%nat -> NoDup l ->
  let next' := <[pred x := 0%nat]> next in
  if decide (l = []) then chain next' x [x]
  else chain (<[pred (last0 l) := x]> next') s (l ++ [x]).
Proof.
  intros H Hx Hx0 Hlt Hnd next'.
  assert (Hone : chain next' x [x]).
  { split; [done|]. split; [done|]. exists 0%nat. split; [by apply list_lookup_insert_eq|done]. }
  case_decide as Hl; [done|]. revert s H Hx Hl. induction l as [|y l IH]; intros s H Hx Hl; [done|].
  destruct H as (-> & Hy & n & Hn & Hc). apply not_elem_of_cons in Hx as [Hxy Hxl].
  apply list.NoDup_cons in Hnd as [Hyl Hnd]. split; [done|]. split; [done|]. destruct l as [|z l].
  - exists x. cbn [last0 list.last default app]. split.
    + apply list_lookup_insert_eq. unfold next'. rewrite length_insert. by apply lookup_lt_Some in Hn.
    + apply chain_frame; [done| |done]. by rewrite list_elem_of_singleton.
  - exists n. change (last0 (y :: z :: l)) with (last0 (z :: l)).
    assert (Hlast : last0 (z :: l) ∈ z :: l).
    { unfold last0. destruct (list.last (z :: l)) as [w|] eqn:E; [by apply last_Some_elem_of in E|].
      by apply last_None in E. }
    split; [|apply IH; done]. unfold next'.
    rewrite !list_lookup_insert_ne; [done| |].
    + intros E. by apply Hxy, pred_inj.
    + intros E. apply pred_inj in E; [by subst|by apply (chain_nonzero next n (z :: l))|done].
Qed.

(** A slot is taken out: the link of the slot before it now skips it. *)
Lemma chain_unlink next s l1 x l2 :
  chain next s (l1 ++ x :: l2) -> NoDup (l1 ++ x :: l2) ->
  if (last0 l1 =? 0)%nat then chain next (first0 l2) (l1 ++ l2)
  else chain (<[pred (last0 l1) := first0 l2]> next) s (l1 ++ l2).
Proof.
  revert s. induction l1 as [|y l1 IH]; intros s H Hnd.
  { cbn. destruct H as (_ & _ & n & _ & Hl). by rewrite <- (chain_first _ _ _ Hl). }
  destruct H as (-> & Hy & n & Hn & Hc). apply list.NoDup_cons in Hnd as [Hyl Hnd]. destruct l1 as [|z l1].
  - change (last0 [y]) with y. cbn [app]. destruct (Nat.eqb_spec y 0) as [|_]; [done|].
    split; [done|]. split; [done|]. exists (first0 l2). split.
    + apply list_lookup_insert_eq. by apply lookup_lt_Some in Hn.
    + destruct Hc as (_ & _ & n' & _ & Hl). rewrite <- (chain_first _ _ _ Hl).
      apply chain_frame; [done| |done]. intros Hin. apply Hyl. cbn. by right.
  - specialize (IH n Hc Hnd). change (last0 (y :: z :: l1)) with (last0 (z :: l1)).
    assert (Hlast : last0 (z :: l1) ∈ z :: l1).
    { unfold last0. destruct (list.last (z :: l1)) as [w|] eqn:E; [by apply last_Some_elem_of in E|].
      by apply last_None in E. }
    assert (Hlast0 : last0 (z :: l1) <> 0%nat).
    { apply (chain_nonzero next n (z :: l1 ++ x :: l2) _ Hc). rewrite app_comm_cons, elem_of_app. by left. }
    destruct (Nat.eqb_spec (last0 (z :: l1)) 0) as [|_]; [done|].
    split; [done|]. split; [done|]. exists n. split; [|done].
    rewrite list_lookup_insert_ne; [done|]. intros E. apply pred_inj in E; [|done..].
    apply Hyl. rewrite app_comm_cons, elem_of_app. left. by rewrite <- E.
Qed.

(** ** The fields of the entries as arrays *)

Definition pgs (c : lazy_ram_cache) : list Z := ce_page_no <$> rc_entries c.
Definition das (c : lazy_ram_cache) : list (option bytes) := ce_data <$> rc_entries c.
Definition hns (c : lazy_ram_cache) : list nat := ce_hash_next <$> rc_entries c.
Definition lps (c : lazy_ram_cache) : list nat := ce_lru_prev <$> rc_entries c.
Definition lns (c : lazy_ram_cache) : list nat := ce_lru_next <$> rc_entries c.

Lemma fmap_alter_set {B} (g : lazy_cache_entry -> B) f v (i : nat) (es : list lazy_cache_entry) :
  (forall e, g (f e) = v) -> g <$> alter f i es = <[i := v]> (g <$> es).
Proof.
  intros H. revert i. induction es as [|e es IH]; intros [|i]; [done|done| |].
  - cbn. by rewrite H.
  - cbn. f_equal. apply IH.
Qed.

Lemma fmap_alter_keep {B} (g : lazy_cache_entry -> B) f (i : nat) (es : list lazy_cache_entry) :
  (forall e, g (f e) = g e) -> g <$> alter f i es = g <$> es.
Proof.
  intros H. revert i. induction es as [|e es IH]; intros [|i]; [done|done| |].
  - cbn. by rewrite H.
  - cbn. f_equal. apply IH.
Qed.

Lemma entry_field {B} (g : lazy_cache_entry -> B) c s v :
  (g <$> rc_entries c) !! pred s = Some v -> g (entry c s) = v.
Proof.
  rewrite list_lookup_fmap, fmap_Some. intros (e & He & ->). unfold entry. by rewrite He.
Qed.

(** Reduces the fields of an updated cache to updates of its arrays. *)
Ltac fields :=
  unfold pgs, das, hns, lps, lns, on_entry, with_entries, with_hash, with_lru_head, with_lru_tail,
    with_free_head, with_usage in *; cbn [rc_entries rc_hash rc_budget_bytes rc_used_bytes rc_lru_head
    rc_lru_tail rc_free_head rc_count] in *;
  repeat match goal with
    | |- context [?g <$> alter ?f ?i ?es] =>
        first [rewrite (fmap_alter_keep g f i es) by done
              | let v := eval cbn [set_page set_hash_next set_lru_prev set_lru_next ce_page_no ce_data ce_hash_next
                                   ce_lru_prev ce_lru_next] in (g (f zero_entry)) in
                rewrite (fmap_alter_set g f v i es) by done]
    end.

Lemma last0_elem l : l <> [] -> last0 l ∈ l.
Proof.
  intros H. unfold last0. destruct (list.last l) as [x|] eqn:E; [by apply last_Some_elem_of|]. by apply last_None in E.
Qed.

Lemma last0_reverse l : last0 (reverse l) = first0 l.
Proof. unfold last0, first0. by rewrite last_reverse. Qed.
Lemma first0_reverse l : first0 (reverse l) = last0 l.
Proof. unfold last0, first0. by rewrite head_reverse. Qed.

Lemma nodup_mid {A} (l1 : list A) x l2 : NoDup (l1 ++ x :: l2) -> (x ∉ l1 ++ l2) /\ NoDup (l1 ++ l2).
Proof. rewrite <- Permutation_middle. apply list.NoDup_cons. Qed.

Lemma elem_of_mid {A} (l1 : list A) x l2 y : (y ∈ l1 ++ x :: l2) <-> y = x \/ (y ∈ l1 ++ l2).
Proof. rewrite <- Permutation_middle. apply elem_of_cons. Qed.

(** ** The LRU list *)

Definition lru_ok (c : lazy_ram_cache) (ls : list nat) : Prop :=
  chain (lns c) (rc_lru_head c) ls /\ chain (lps c) (rc_lru_tail c) (reverse ls) /\ NoDup ls.

(** Nothing but the LRU list has changed. *)
Definition lru_only (c c' : lazy_ram_cache) : Prop :=
  (pgs c', das c', hns c', rc_hash c') = (pgs c, das c, hns c, rc_hash c) /\
  (rc_budget_bytes c', rc_used_bytes c', rc_free_head c', rc_count c')
  = (rc_budget_bytes c, rc_used_bytes c, rc_free_head c, rc_count c).

Lemma lru_neighbours c l1 s l2 :
  lru_ok c (l1 ++ s :: l2) -> ce_lru_prev (entry c s) = last0 l1 /\ ce_lru_next (entry c s) = first0 l2.
Proof.
  intros (Hf & Hb & _). rewrite reverse_app, reverse_cons, <- app_assoc in Hb.
  split; apply entry_field; [|by eapply chain_next].
  apply chain_next in Hb. by rewrite first0_reverse in Hb.
Qed.

Lemma lru_detach_fields s c :
  lru_only c (lru_detach s c) /\
  let p := ce_lru_prev (entry c s) in let n := ce_lru_next (entry c s) in
  lns (lru_detach s c) = (if (p =? 0)%nat then lns c else <[pred p := n]> (lns c)) /\
  rc_lru_head (lru_detach s c) = (if (p =? 0)%nat then n else rc_lru_head c) /\
  lps (lru_detach s c) = (if (n =? 0)%nat then lps c else <[pred n := p]> (lps c)) /\
  rc_lru_tail (lru_detach s c) = (if (n =? 0)%nat then p else rc_lru_tail c).
Proof. unfold lru_only, lru_detach. do 2 destruct (Nat.eqb _ 0); fields; done. Qed.

Lemma lru_detach_ok c l1 s l2 : lru_ok c (l1 ++ s :: l2) -> lru_ok (lru_detach s c) (l1 ++ l2).
Proof.
  intros H. destruct (lru_neighbours c l1 s l2 H) as [Hp Hn].
  destruct (lru_detach_fields s c) as (_ & E1 & E2 & E3 & E4). unfold lru_ok. rewrite E1, E2, E3, E4, Hp, Hn.
  destruct H as (Hf & Hb & Hnd). assert (Hnd' := Hnd). rewrite <- reverse_Permutation in Hnd'.
  rewrite reverse_app, reverse_cons, <- app_assoc in Hb, Hnd'.
  apply (chain_unlink _ _ _ _ _ Hf) in Hnd as Hf'. apply (chain_unlink _ _ _ _ _ Hb) in Hnd' as Hb'.
  rewrite last0_reverse, first0_reverse in Hb'. rewrite reverse_app.
  split; [by destruct (last0 l1 =? 0)%nat|]. split; [by destruct (first0 l2 =? 0)%nat|].
  by apply (nodup_mid _ s).
Qed.

Lemma lru_push_fields s c :
  lru_only c (lru_push_front s c) /\
  let h := rc_lru_head c in
  lns (lru_push_front s c) = <[pred s := h]> (lns c) /\ rc_lru_head (lru_push_front s c) = s /\
  lps (lru_push_front s c)
  = (if (h =? 0)%nat then <[pred s := 0%nat]> (lps c) else <[pred h := s]> (<[pred s := 0%nat]> (lps c))) /\
  rc_lru_tail (lru_push_front s c) = (if (rc_lru_tail c =? 0)%nat then s else rc_lru_tail c).
Proof.
  unfold lru_only, lru_push_front. fields. destruct (Nat.eqb (rc_lru_head c) 0); fields;
    destruct (Nat.eqb (rc_lru_tail c) 0); fields; done.
Qed.

Lemma lru_push_ok c s ls :
  lru_ok c ls -> s ∉ ls -> s <> 0%nat -> (pred s < length (rc_entries c))%nat -> lru_ok (lru_push_front s c) (s :: ls).
Proof.
  intros (Hf & Hb & Hnd) Hs Hs0 Hlt. destruct (lru_push_fields s c) as (_ & E1 & E2 & E3 & E4).
  unfold lru_ok. rewrite E1, E2, E3, E4, reverse_cons.
  split; [apply chain_push; [done..|unfold lns; by rewrite length_fmap]|].
  split; [|by apply list.NoDup_cons].
  assert (Hlen : (pred s < length (lps c))%nat) by (unfold lps; by rewrite length_fmap).
  assert (Hs' : s ∉ reverse ls) by (by rewrite elem_of_reverse).
  pose proof (chain_snoc _ _ _ _ Hb Hs' Hs0 Hlen ltac:(by rewrite reverse_Permutation)) as H. cbn zeta in H.
  pose proof (chain_first _ _ _ Hf) as Hh. pose proof (chain_first _ _ _ Hb) as Ht. rewrite first0_reverse in Ht.
  destruct ls as [|x ls].
  - rewrite Hh, Ht. exact H.
  - destruct (decide _) as [Hr|_]; [by apply (f_equal length) in Hr; rewrite length_reverse in Hr|].
    rewrite last0_reverse, <- Hh in H. destruct (Nat.eqb_spec (rc_lru_head c) 0) as [E|_].
    { destruct Hf as (? & ? & _). by subst. }
    destruct (Nat.eqb_spec (rc_lru_tail c) 0) as [E|_]; [|exact H].
    exfalso. eapply (chain_nonzero _ _ _ _ Hf); [|rewrite <- E, Ht; reflexivity]. by apply last0_elem.
Qed.

(** ** The chains of the buckets *)

Definition buckets_ok (c : lazy_ram_cache) (hs : list (list nat)) : Prop :=
  Forall2 (chain (hns c)) (rc_hash c) hs.

(** Nothing but the chains has changed. *)
Definition hash_only (c c' : lazy_ram_cache) : Prop :=
  (pgs c', das c', lps c', lns c', length (rc_hash c')) = (pgs c, das c, lps c, lns c, length (rc_hash c)) /\
  (rc_budget_bytes c', rc_used_bytes c', rc_lru_head c', rc_lru_tail c', rc_free_head c', rc_count c')
  = (rc_budget_bytes c, rc_used_bytes c, rc_lru_head c, rc_lru_tail c, rc_free_head c, rc_count c).

(** The walk finds the first slot of the chain that passes the test. *)
Lemma find_link_spec fuel c test prev cur hl :
  chain (hns c) cur hl -> (length hl <= fuel)%nat ->
  match find_link fuel c test prev cur with
  | Some (p, s) => exists h1 h2, hl = h1 ++ s :: h2 /\ test s = true /\ p = default prev (list.last h1) /\
                                 Forall (fun x => test x = false) h1
  | None => Forall (fun x => test x = false) hl
  end.
Proof.
  revert fuel prev cur. induction hl as [|x hl IH]; intros [|fuel] prev cur H Hlen;
    [apply Forall_nil_2| |cbn in Hlen; lia|].
  { cbn in H. subst. apply Forall_nil_2. }
  destruct H as (-> & Hx & n & Hn & Hc). cbn [find_link]. destruct x as [|x]; [done|].
  destruct (test (S x)) eqn:Et; [by exists [], hl|].
  rewrite (entry_field ce_hash_next c (S x) n Hn). cbn [length] in Hlen.
  specialize (IH fuel (S x) n Hc ltac:(lia)). destruct (find_link fuel c test (S x) n) as [[p s]|]; [|by constructor].
  destruct IH as (h1 & h2 & -> & Hs & -> & Hall). exists (S x :: h1), h2.
  split; [done|]. split; [done|]. split; [|by constructor]. rewrite last_cons. by destruct (list.last h1).
Qed.

Lemma default_last h1 : default 0%nat (list.last h1) = last0 h1.
Proof. done. Qed.

Lemma set_link_fields b p n c :
  hash_only c (set_link b p n c) /\
  hns (set_link b p n c) = (if (p =? 0)%nat then hns c else <[pred p := n]> (hns c)) /\
  rc_hash (set_link b p n c) = (if (p =? 0)%nat then <[b := n]> (rc_hash c) else rc_hash c).
Proof.
  unfold hash_only, set_link. destruct (p =? 0)%nat; fields; [|done]. by rewrite length_insert.
Qed.

Lemma chain_frame_last next s l h n :
  chain next s l -> (forall x, x ∈ h -> x ∉ l) -> (last0 h <> 0%nat -> chain (<[pred (last0 h) := n]> next) s l).
Proof.
  intros Hc Hd H0. apply chain_frame; [done| |done]. apply Hd, last0_elem. by intros ->.
Qed.

Lemma unbucket_ok c hs b h1 s h2 :
  buckets_ok c hs -> hs !! b = Some (h1 ++ s :: h2) -> NoDup (h1 ++ s :: h2) ->
  (forall b' hl x, b' <> b -> hs !! b' = Some hl -> x ∈ h1 -> x ∉ hl) ->
  buckets_ok (set_link b (last0 h1) (first0 h2) c) (<[b := h1 ++ h2]> hs).
Proof.
  unfold buckets_ok. intros H Hb Hnd Hd. destruct (set_link_fields b (last0 h1) (first0 h2) c) as (_ & -> & ->).
  rewrite Forall2_lookup in H. pose proof (H b) as Hs. rewrite Hb in Hs. inversion Hs as [s0 hl Hc Hs0 Ehl|]. subst hl.
  pose proof (chain_unlink _ _ _ _ _ Hc Hnd) as Hu.
  assert (Hlt : (b < length (rc_hash c))%nat) by (by apply (lookup_lt_Some _ _ s0)).
  assert (Hlt' : (b < length hs)%nat) by (by apply lookup_lt_Some in Hb).
  apply Forall2_lookup. intros i. specialize (H i). destruct (decide (i = b)) as [->|Hi].
  - rewrite list_lookup_insert_eq by done. destruct (last0 h1 =? 0)%nat.
    + rewrite list_lookup_insert_eq by done. by constructor.
    + rewrite <- Hs0. by constructor.
  - rewrite (list_lookup_insert_ne hs) by done. destruct (Nat.eqb_spec (last0 h1) 0) as [_|Hl].
    + by rewrite list_lookup_insert_ne.
    + destruct (rc_hash c !! i) as [si|], (hs !! i) as [hi|] eqn:Ehi; inversion H; subst; constructor.
      apply chain_frame_last; [done| |done]. intros x. by apply (Hd i hi x).
Qed.

(** A chain of free slots is not touched. *)
Lemma set_link_free c b h n s fl :
  chain (hns c) s fl -> (forall x, x ∈ h -> x ∉ fl) -> chain (hns (set_link b (last0 h) n c)) s fl.
Proof.
  intros H Hd. destruct (set_link_fields b (last0 h) n c) as (_ & -> & _).
  destruct (Nat.eqb_spec (last0 h) 0); [done|]. by apply chain_frame_last.
Qed.

Lemma bucket_lt k n p : (0 <= k <= 32) -> Z.of_nat n = 2 ^ k -> (lazy_cache_hash n p < n)%nat.
Proof.
  intros Hk Hn. unfold lazy_cache_hash. rewrite Hn. apply Nat2Z.inj_lt.
  assert (Hp : 2 ^ k <= 2 ^ 32) by (apply Z.pow_le_mono_r; lia).
  assert (H0 : 0 < 2 ^ k) by (apply Z.pow_pos_nonneg; lia).
  unfold u32 at 2. rewrite (Z.mod_small (2 ^ k - 1)) by lia.
  rewrite Z.sub_1_r, <- Z.ones_equiv, Z.land_ones by lia.
  pose proof (Z.mod_pos_bound (u32 (Z.shiftr (u64 (p * 2654435761)) 32)) (2 ^ k) H0). lia.
Qed.

(** ** The shape of the slots *)

(** [ls] are the slots of the LRU list, [bs] those on the chains [hs] of the
    buckets, [fl] the free ones. Between the steps of an operation [ls] and [bs]
    may differ. *)
Record shape (c : lazy_ram_cache) (ls : list nat) (bs : nat -> Prop) (fl : list nat) (hs : list (list nat)) : Prop := {
  sh_lru : lru_ok c ls;
  sh_buckets : buckets_ok c hs;
  sh_nodup : forall b hl, hs !! b = Some hl -> NoDup hl;
  sh_member : forall b hl x, hs !! b = Some hl ->
    (x ∈ hl <-> bs x /\ exists p, pgs c !! pred x = Some p /\ bucket_of c p = b);
  sh_free : chain (hns c) (rc_free_head c) fl;
  sh_free_nodup : NoDup fl;
  sh_free_lru : forall x, x ∈ fl -> x ∉ ls;
  sh_free_bs : forall x, x ∈ fl -> ~ bs x;
  sh_bs_nonzero : forall x, bs x -> x <> 0%nat;
  sh_pow : exists k, 0 <= k <= 32 /\ Z.of_nat (length (rc_hash c)) = 2 ^ k
}.

Lemma shape_frame_lru c c' ls ls' bs fl hs :
  shape c ls bs fl hs -> lru_only c c' -> lru_ok c' ls' -> (forall x, x ∈ fl -> x ∉ ls') -> shape c' ls' bs fl hs.
Proof.
  intros [H1 H2 H3 H4 H5 H6 H7 H8 H8' H9] [E1 E2] Hl Hf. injection E1 as Ep Ed Eh Ehash. injection E2 as _ _ Ef _.
  split; try done; unfold buckets_ok, bucket_of in *; rewrite ?Ep, ?Eh, ?Ehash, ?Ef; done.
Qed.

Lemma shape_detach c l1 s l2 bs fl hs :
  shape c (l1 ++ s :: l2) bs fl hs -> shape (lru_detach s c) (l1 ++ l2) bs fl hs.
Proof.
  intros H. eapply shape_frame_lru; [done|apply lru_detach_fields|apply lru_detach_ok, H|].
  intros x Hx Hin. apply (sh_free_lru _ _ _ _ _ H x Hx), elem_of_mid. by right.
Qed.

Lemma shape_push c s ls bs fl hs :
  shape c ls bs fl hs -> s ∉ ls -> s ∉ fl -> s <> 0%nat -> (pred s < length (rc_entries c))%nat ->
  shape (lru_push_front s c) (s :: ls) bs fl hs.
Proof.
  intros H Hs Hf H0 Hlt. eapply shape_frame_lru; [done|apply lru_push_fields|apply lru_push_ok; [apply H|done..]|].
  intros x Hx [->|Hin]%elem_of_cons; [done|]. by apply (sh_free_lru _ _ _ _ _ H x Hx).
Qed.

(** A slot of a bucket leaves its chain. *)
Lemma shape_unbucket c ls bs fl hs b h1 s h2 :
  shape c ls bs fl hs -> hs !! b = Some (h1 ++ s :: h2) ->
  shape (set_link b (last0 h1) (first0 h2) c) ls (fun x => bs x /\ x <> s) fl (<[b := h1 ++ h2]> hs).
Proof.
  intros [H1 H2 H3 H4 H5 H6 H7 H8 H8' H9] Hb.
  destruct (set_link_fields b (last0 h1) (first0 h2) c) as ([E1 E2] & Eh & Ehash).
  injection E1 as Ep Ed Elp Eln Elen. injection E2 as _ _ Elh Elt Ef _.
  assert (Hmem : forall x, x ∈ h1 -> bs x /\ exists p, pgs c !! pred x = Some p /\ bucket_of c p = b).
  { intros x Hx. apply (H4 b _ x Hb), elem_of_app. by left. }
  assert (Hlt := lookup_lt_Some _ _ _ Hb).
  split.
  - unfold lru_ok in *. by rewrite Elp, Eln, Elh, Elt.
  - apply (unbucket_ok c hs b h1 s h2); [done..|by eapply H3|]. intros b' hl x Hne Hb' Hx Hin.
    apply (H4 b' hl x Hb') in Hin as (_ & p & Hp & E). destruct (Hmem x Hx) as (_ & p' & Hp' & E'). congruence.
  - intros b' hl Hb'. apply list_lookup_insert_Some in Hb' as [(-> & <- & _)|[_ Hb']]; [|by eapply H3].
    apply (nodup_mid h1 s h2). by eapply H3.
  - intros b' hl x Hb'. unfold bucket_of in *. rewrite Ep, Elen.
    apply list_lookup_insert_Some in Hb' as [(-> & <- & _)|[Hne Hb']].
    + pose proof (nodup_mid _ _ _ (H3 _ _ Hb)) as [Hs _]. specialize (H4 _ _ x Hb). rewrite elem_of_mid in H4.
      destruct H4 as [Hto Hfrom]. split.
      * intros Hx. destruct (Hto (or_intror Hx)) as [Hbs Hp]. split; [|done]. split; [done|]. by intros ->.
      * intros [[Hbs Hne] Hp]. by destruct (Hfrom (conj Hbs Hp)).
    + rewrite (H4 b' hl x Hb'). split; [|by intros [[? _] ?]]. intros (Hx & p & Hp & E). split; [|by exists p].
      split; [done|]. intros ->. destruct (proj1 (H4 _ _ s Hb)) as (_ & p' & Hp' & E'); [apply elem_of_mid; by left|].
      congruence.
  - rewrite Ef. apply set_link_free; [done|]. intros x Hx Hin. apply (H8 x Hin). by apply Hmem.
  - done.
  - done.
  - intros x Hx [Hbs _]. by apply (H8 x Hx).
  - intros x [Hx _]. by apply H8'.
  - by rewrite Elen.
Qed.

Lemma lru_frame c c' ls s a b :
  lru_ok c ls -> s ∉ ls -> s <> 0%nat ->
  lns c' = <[pred s := a]> (lns c) -> lps c' = <[pred s := b]> (lps c) ->
  rc_lru_head c' = rc_lru_head c -> rc_lru_tail c' = rc_lru_tail c -> lru_ok c' ls.
Proof.
  intros (Hf & Hb & Hnd) Hs H0 En Ep Eh Et. unfold lru_ok. rewrite En, Ep, Eh, Et.
  split; [by apply chain_frame|]. split; [|done]. apply chain_frame; [done| |done]. by rewrite elem_of_reverse.
Qed.

Lemma recycle_fields ps s c :
  pgs (recycle ps s c) = <[pred s := 0]> (pgs c) /\ das (recycle ps s c) = <[pred s := None]> (das c) /\
  hns (recycle ps s c) = <[pred s := rc_free_head c]> (hns c) /\
  lps (recycle ps s c) = <[pred s := 0%nat]> (lps c) /\ lns (recycle ps s c) = <[pred s := 0%nat]> (lns c) /\
  rc_hash (recycle ps s c) = rc_hash c /\ rc_lru_head (recycle ps s c) = rc_lru_head c /\
  rc_lru_tail (recycle ps s c) = rc_lru_tail c /\ rc_free_head (recycle ps s c) = s.
Proof. unfold recycle. fields. done. Qed.

Lemma shape_recycle ps c s ls bs fl hs :
  shape c ls bs fl hs -> s ∉ ls -> ~ bs s -> s ∉ fl -> s <> 0%nat -> (pred s < length (rc_entries c))%nat ->
  shape (recycle ps s c) ls bs (s :: fl) hs.
Proof.
  intros [H1 H2 H3 H4 H5 H6 H7 H8 H8' H9] Hls Hbs Hfl H0 Hlt.
  destruct (recycle_fields ps s c) as (Ep & Ed & Eh & Elp & Eln & Ehash & Elh & Elt & Ef). split.
  - by eapply lru_frame.
  - unfold buckets_ok. rewrite Ehash, Eh. apply Forall2_lookup. intros b. unfold buckets_ok in H2.
    rewrite Forall2_lookup in H2. specialize (H2 b).
    destruct (rc_hash c !! b) as [s0|], (hs !! b) as [hl|] eqn:Eb; inversion H2; subst; constructor.
    apply chain_frame; [done| |done]. intros Hin. by apply (H4 b hl s Eb) in Hin as [? _].
  - done.
  - intros b hl x Hb. unfold bucket_of. rewrite Ehash, Ep, (H4 b hl x Hb). fold (bucket_of c).
    split; intros (Hx & p & Hp & E); (split; [done|]); exists p; (split; [|done]).
    + rewrite list_lookup_insert_ne; [done|]. intros E'. apply pred_inj in E'; [by subst|done|by apply H8'].
    + rewrite list_lookup_insert_ne in Hp; [done|]. intros E'. apply pred_inj in E'; [by subst|done|by apply H8'].
  - rewrite Eh, Ef. apply chain_push; [done..|]. unfold hns. by rewrite length_fmap.
  - by apply list.NoDup_cons.
  - intros x [->|Hx]%elem_of_cons; [done|]. by apply H7.
  - intros x [->|Hx]%elem_of_cons; [done|]. by apply H8.
  - done.
  - by rewrite Ehash.
Qed.

Lemma link_entry_fields p d c :
  let s := rc_free_head c in
  pgs (link_entry p d c) = <[pred s := p]> (pgs c) /\ das (link_entry p d c) = <[pred s := Some d]> (das c) /\
  hns (link_entry p d c) = <[pred s := default 0%nat (rc_hash c !! bucket_of c p)]> (hns c) /\
  rc_hash (link_entry p d c) = <[bucket_of c p := s]> (rc_hash c) /\
  rc_free_head (link_entry p d c) = ce_hash_next (entry c s) /\
  lps (link_entry p d c) = lps c /\ lns (link_entry p d c) = lns c /\
  rc_lru_head (link_entry p d c) = rc_lru_head c /\ rc_lru_tail (link_entry p d c) = rc_lru_tail c.
Proof. unfold link_entry. fields. done. Qed.

(** The first free slot goes on the chain of the bucket of its new page. *)
Lemma shape_link p d c ls bs s fl hs hl :
  shape c ls bs (s :: fl) hs -> hs !! bucket_of c p = Some hl -> s <> 0%nat -> (pred s < length (rc_entries c))%nat ->
  shape (link_entry p d c) ls (fun x => bs x \/ x = s) fl (<[bucket_of c p := s :: hl]> hs).
Proof.
  intros [H1 H2 H3 H4 H5 H6 H7 H8 H8' H9] Hb H0 Hlt.
  destruct (link_entry_fields p d c) as (Ep & Ed & Eh & Ehash & Ef & Elp & Eln & Elh & Elt).
  assert (Es : rc_free_head c = s) by (by destruct H5). rewrite Es in *.
  apply list.NoDup_cons in H6 as [Hs Hfl].
  assert (Hsb : ~ bs s) by (apply H8; by left).
  assert (Hnot : forall b' hl', hs !! b' = Some hl' -> s ∉ hl').
  { intros b' hl' Hb' Hin. by apply (H4 b' hl' s Hb') in Hin as [? _]. }
  assert (Hlen : (pred s < length (hns c))%nat) by (unfold hns; by rewrite length_fmap).
  unfold buckets_ok in H2. assert (Hlt2 := lookup_lt_Some _ _ _ Hb). assert (Hl2 := Forall2_length H2).
  destruct (Forall2_lookup_r _ _ _ _ _ H2 Hb) as (h0 & Hh0 & Hc). rewrite Forall2_lookup in H2. split.
  - unfold lru_ok. by rewrite Elp, Eln, Elh, Elt.
  - unfold buckets_ok. rewrite Ehash, Eh. apply Forall2_lookup. intros b. pose proof (H2 b) as Hbb.
    destruct (decide (b = bucket_of c p)) as [->|Hne].
    + rewrite !list_lookup_insert_eq by lia. constructor. rewrite Hh0. cbn [default].
      apply chain_push; [done|by eapply Hnot|done..].
    + rewrite !list_lookup_insert_ne by done.
      destruct (hs !! b) as [hl'|] eqn:Eb; inversion Hbb as [h1 ? Hc1|]; constructor.
      apply chain_frame; [done|by eapply Hnot|done].
  - intros b hl' Hb'. apply list_lookup_insert_Some in Hb' as [(<- & <- & _)|[_ Hb']]; [|by eapply H3].
    apply list.NoDup_cons. split; [by eapply Hnot|by eapply H3].
  - intros b hl' x Hb'. unfold bucket_of at 1. rewrite Ehash, length_insert, Ep.
    assert (Hin : forall y, bs y -> (<[pred s:=p]> (pgs c)) !! pred y = pgs c !! pred y).
    { intros y Hy. apply list_lookup_insert_ne. intros E. apply pred_inj in E; [by subst|done|by apply H8']. }
    assert (Hself : (<[pred s:=p]> (pgs c)) !! pred s = Some p).
    { apply list_lookup_insert_eq. unfold pgs. by rewrite length_fmap. }
    apply list_lookup_insert_Some in Hb' as [(<- & <- & _)|[Hne Hb']].
    + rewrite elem_of_cons, (H4 _ _ x Hb). split.
      * intros [->|[Hx Hp]]; [split; [by right|by exists p]|]. split; [by left|]. by rewrite Hin.
      * intros [[Hx| ->] Hp]; [|by left]. right. rewrite Hin in Hp by done. done.
    + rewrite (H4 _ _ x Hb'). split.
      * intros [Hx Hp]. split; [by left|]. by rewrite Hin.
      * intros [[Hx| ->] Hp]; [by rewrite Hin in Hp|]. destruct Hp as (p' & Hp' & E). rewrite Hself in Hp'. injection Hp' as <-. by destruct Hne.
  - destruct H5 as (_ & _ & n & Hn & Hcf). rewrite Ef, Eh, (entry_field ce_hash_next c s n Hn).
    apply chain_frame; done.
  - done.
  - intros x Hx. apply H7. by right.
  - intros x Hx [Hbx| ->]; [|done]. apply (H8 x); [by right|done].
  - intros x [Hx| ->]; [by apply H8'|done].
  - rewrite Ehash, length_insert. done.
Qed.

(** ** The abstract cache *)

(** The pages and their bytes, the most recently used first. *)
Abbreviation lru := (list (Z * bytes)).

Fixpoint lru_get (p : Z) (l : lru) : option bytes :=
  match l with
  | [] => None
  | (q, d) :: r => if q =? p then Some d else lru_get p r
  end.

Fixpoint lru_del (p : Z) (l : lru) : lru :=
  match l with
  | [] => []
  | (q, d) :: r => if q =? p then lru_del p r else (q, d) :: lru_del p r
  end.

Definition lru_lookup (p : Z) (l : lru) : option bytes * lru :=
  match lru_get p l with
  | Some d => (Some d, (p, d) :: lru_del p l)
  | None => (None, l)
  end.

(** The pages that leave room for one more, under the budget and in the pool. *)
Definition lru_keep (ps budget : Z) (pool : nat) : nat :=
  Nat.min (Z.to_nat (budget / ps - 1)) (pred pool).

Definition lru_store (ps budget : Z) (pool : nat) (p : Z) (d : bytes) (l : lru) : lru :=
  if p =? 0 then l
  else match lru_get p l with
       | Some _ => (p, d) :: lru_del p l
       | None => (p, d) :: take (lru_keep ps budget pool) l
       end.

Definition lru_remove (p : Z) (l : lru) : lru := if p =? 0 then l else lru_del p l.

Lemma lru_get_None p l : lru_get p l = None <-> p ∉ l.*1.
Proof.
  induction l as [|[q d] l IH]; cbn [lru_get]; [by split; [intros _ ?%elem_of_nil|]|].
  rewrite fmap_cons, not_elem_of_cons. destruct (Z.eqb_spec q p) as [->|Hne]; cbn [fst]; [naive_solver|]. rewrite IH. naive_solver.
Qed.

Lemma lru_del_notin p l : p ∉ l.*1 -> lru_del p l = l.
Proof.
  induction l as [|[q d] l IH]; [done|]. rewrite fmap_cons, not_elem_of_cons. intros [Hne Hl]. cbn [lru_del].
  destruct (Z.eqb_spec q p) as [->|]; [done|]. by rewrite IH.
Qed.

Lemma lru_split p d k1 k2 :
  NoDup ((k1 ++ (p, d) :: k2).*1) ->
  lru_get p (k1 ++ (p, d) :: k2) = Some d /\ lru_del p (k1 ++ (p, d) :: k2) = k1 ++ k2.
Proof.
  rewrite fmap_app, fmap_cons. intros [Hp _]%nodup_mid. rewrite <- fmap_app in Hp. cbn [fst] in Hp.
  induction k1 as [|[q e] k1 IH]; cbn [app lru_get lru_del].
  - rewrite Z.eqb_refl. by rewrite lru_del_notin.
  - cbn [app] in Hp. rewrite fmap_cons, not_elem_of_cons in Hp. destruct Hp as [Hne Hp].
    destruct (Z.eqb_spec q p) as [->|]; [done|]. destruct (IH Hp) as [-> ->]. done.
Qed.
