(* ===== verification/LazyCacheRefine.v ===== *)
(** * The operations of the RAM page cache on the LRU list

    The representation relation is preserved by every operation, and from the
    initialised tier any sequence of operations gives the answers of the LRU
    list. *)

From S2P Require Import Prelude CText WalPublisher LazyCache LazyCacheTheory.

(** ** The representation *)

Definition holds (c : lazy_ram_cache) (ls : list nat) (l : lru) : Prop :=
  Forall2 (fun s kv => pgs c !! pred s = Some kv.1 /\ das c !! pred s = Some (Some kv.2)) ls l.

Lemma shape_ext c ls bs bs' fl hs : (forall x, bs x <-> bs' x) -> shape c ls bs fl hs -> shape c ls bs' fl hs.
Proof.
  intros Hb [H1 H2 H3 H4 H5 H6 H7 H8 H8' H9]. split; try done; setoid_rewrite <- Hb; done.
Qed.

Lemma slot_chain_length next s l : chain next s l -> NoDup l -> (length l <= length next)%nat.
Proof.
  intros Hc Hnd. rewrite <- (length_fmap pred l), <- (length_seq (length next) 0).
  apply submseteq_length, NoDup_submseteq.
  - apply NoDup_fmap_2_strong; [|done]. intros x y Hx Hy. apply pred_inj; by eapply chain_nonzero.
  - intros i. rewrite list_elem_of_fmap. intros (x & -> & Hx). apply elem_of_seq. apply (chain_bound _ _ _ _ Hc) in Hx. lia.
Qed.

(** The walk along the bucket of [p]. *)
Lemma find_in_bucket_spec c ls bs fl hs test p :
  shape c ls bs fl hs ->
  exists hl, hs !! bucket_of c p = Some hl /\
  match find_in_bucket c test p with
  | Some (prev, s) => exists h1 h2, hl = h1 ++ s :: h2 /\ test s = true /\ prev = last0 h1
  | None => Forall (fun x => test x = false) hl
  end.
Proof.
  intros H. destruct (sh_pow _ _ _ _ _ H) as (k & Hk & Hpow). pose proof (bucket_lt k _ p Hk Hpow) as Hlt.
  fold (bucket_of c p) in Hlt. apply lookup_lt_is_Some_2 in Hlt as [s0 Hs0].
  destruct (Forall2_lookup_l _ _ _ _ _ (sh_buckets _ _ _ _ _ H) Hs0) as (hl & Hhl & Hc).
  exists hl. split; [done|]. unfold find_in_bucket. rewrite Hs0. change (default 0%nat (Some s0)) with s0.
  assert (Hlen : (length hl <= length (rc_entries c))%nat).
  { apply slot_chain_length in Hc; [|by apply (sh_nodup _ _ _ _ _ H _ _ Hhl)]. unfold hns in Hc. by rewrite length_fmap in Hc. }
  pose proof (find_link_spec _ c test 0 s0 hl Hc Hlen) as Hf.
  destruct (find_link _ c test 0 s0) as [[prev s]|]; [|done]. destruct Hf as (h1 & h2 & -> & Ht & -> & _).
  by exists h1, h2.
Qed.

(** The walk for a page. *)
Lemma find_page c l ls fl hs p :
  shape c ls (fun x => x ∈ ls) fl hs -> holds c ls l ->
  match find_in_bucket c (has_page c p) p with
  | Some (prev, s) => exists h1 h2 l1 l2 k1 k2 d,
      hs !! bucket_of c p = Some (h1 ++ s :: h2) /\ prev = last0 h1 /\
      ls = l1 ++ s :: l2 /\ l = k1 ++ (p, d) :: k2 /\ holds c l1 k1 /\ holds c l2 k2 /\ ce_data (entry c s) = Some d
  | None => p ∉ l.*1
  end.
Proof.
  intros H Hh. destruct (find_in_bucket_spec _ _ _ _ _ (has_page c p) p H) as (hl & Hhl & Hf).
  destruct (find_in_bucket _ _ _) as [[prev s]|].
  - destruct Hf as (h1 & h2 & -> & Ht & ->).
    assert (Hs : s ∈ ls) by (apply (sh_member _ _ _ _ _ H _ _ s Hhl), elem_of_mid; by left).
    apply list_elem_of_split in Hs as (l1 & l2 & ->).
    apply Forall2_app_inv_l in Hh as (k1 & k' & Hh1 & Hh2 & ->).
    apply Forall2_cons_inv_l in Hh2 as ([q d] & k2 & [Hq Hd] & Hh2 & ->).
    unfold has_page in Ht. rewrite (entry_field ce_page_no c s q Hq), Z.eqb_eq in Ht. subst q.
    exists h1, h2, l1, l2, k1, k2, d. by rewrite (entry_field ce_data c s _ Hd).
  - rewrite list_elem_of_fmap. intros ([q d] & -> & Hin). apply list_elem_of_lookup in Hin as [i Hi].
    destruct (Forall2_lookup_r _ _ _ _ _ Hh Hi) as (s & Hs & Hq & _). cbn [fst] in *.
    assert (Hin : s ∈ hl).
    { apply (sh_member _ _ _ _ _ H _ _ s Hhl). split; [by eapply list_elem_of_lookup_2|by exists q]. }
    rewrite list.Forall_forall in Hf. specialize (Hf s Hin). unfold has_page in Hf.
    by rewrite (entry_field ce_page_no c s q Hq), Z.eqb_refl in Hf.
Qed.

Lemma entries_length c c' : pgs c' = pgs c -> length (rc_entries c') = length (rc_entries c).
Proof. intros E. apply (f_equal length) in E. unfold pgs in E. by rewrite !length_fmap in E. Qed.

Lemma holds_frame c c' ls l s a b :
  holds c ls l -> s ∉ ls -> s <> 0%nat -> (forall x, x ∈ ls -> x <> 0%nat) ->
  pgs c' = <[pred s := a]> (pgs c) -> das c' = <[pred s := b]> (das c) -> holds c' ls l.
Proof.
  intros H Hs H0 Hn Ep Ed. unfold holds. rewrite Ep, Ed. apply Forall2_lookup. unfold holds in H.
  rewrite Forall2_lookup in H. intros i. specialize (H i).
  destruct (ls !! i) as [x|] eqn:Ex, (l !! i) as [kv|]; inversion H as [? ? [Hp Hd]|]; subst; constructor.
  assert (Hx : x ∈ ls) by (by eapply list_elem_of_lookup_2).
  rewrite !list_lookup_insert_ne by (intros E; apply pred_inj in E; [by subst|done|by apply Hn]). done.
Qed.

Section Operations.
Context (ps budget : Z) (pool : nat).
Context (Hps : 0 < ps < 2 ^ 32) (Hbudget : 0 < budget < 2 ^ 63) (Hpool : (0 < pool)%nat) (Hmax : Z.of_nat pool <= LAZY_RAM_CACHE_POOL_MAX).

Record rep (c : lazy_ram_cache) (l : lru) (ls fl : list nat) (hs : list (list nat)) : Prop := {
  rp_shape : shape c ls (fun x => x ∈ ls) fl hs;
  rp_holds : holds c ls l;
  rp_pool : (length ls + length fl = pool)%nat;
  rp_entries : length (rc_entries c) = pool;
  rp_keys : NoDup l.*1;
  rp_nonzero : 0 ∉ l.*1;
  rp_count : rc_count c = zlen l;
  rp_used : rc_used_bytes c = zlen l * ps;
  rp_budget : rc_budget_bytes c = budget
}.

Definition Rep (c : lazy_ram_cache) (l : lru) : Prop := exists ls fl hs, rep c l ls fl hs.

Lemma rep_on c l ls fl hs : rep c l ls fl hs -> cache_off c = false.
Proof.
  intros H. unfold cache_off. rewrite (rp_budget _ _ _ _ _ H). destruct (sh_pow _ _ _ _ _ (rp_shape _ _ _ _ _ H)) as (k & Hk & Hp).
  unfold zlen. rewrite Hp. pose proof (Z.pow_pos_nonneg 2 k ltac:(lia) ltac:(lia)).
  apply orb_false_iff. rewrite !Z.eqb_neq. lia.
Qed.

Lemma rep_length c l ls fl hs : rep c l ls fl hs -> length l = length ls.
Proof. intros H. symmetry. exact (Forall2_length (rp_holds _ _ _ _ _ H)). Qed.

(** [c'] agrees with [c] on everything but the links. *)
Definition same_pages (c c' : lazy_ram_cache) : Prop :=
  pgs c' = pgs c /\ das c' = das c /\ rc_count c' = rc_count c /\ rc_used_bytes c' = rc_used_bytes c /\
  rc_budget_bytes c' = rc_budget_bytes c.

Lemma same_pages_trans c1 c2 c3 : same_pages c1 c2 -> same_pages c2 c3 -> same_pages c1 c3.
Proof. unfold same_pages. intuition congruence. Qed.

Lemma lru_only_pages c c' : lru_only c c' -> same_pages c c'.
Proof. intros [E1 E2]. injection E1. injection E2. unfold same_pages. auto. Qed.

Lemma hash_only_pages c c' : hash_only c c' -> same_pages c c'.
Proof. intros [E1 E2]. injection E1. injection E2. unfold same_pages. auto. Qed.

Lemma zlen_mid {A} (l1 : list A) x l2 : zlen (l1 ++ x :: l2) = zlen (l1 ++ l2) + 1.
Proof. unfold zlen. rewrite !length_app. cbn [length]. lia. Qed.

(** A slot that is off the LRU list and its chain is recycled. *)
Lemma rep_drop c c' l1 s l2 k1 kv k2 fl hs hs' :
  rep c (k1 ++ kv :: k2) (l1 ++ s :: l2) fl hs -> holds c l1 k1 -> holds c l2 k2 ->
  shape c' (l1 ++ l2) (fun x => x ∈ l1 ++ s :: l2 /\ x <> s) fl hs' -> same_pages c c' ->
  rep (recycle ps s c') (k1 ++ k2) (l1 ++ l2) (s :: fl) hs'.
Proof.
  intros H Hh1 Hh2 Hs' (Ep & Ed & Ec & Eu & Eb). pose proof (rp_shape _ _ _ _ _ H) as Hs.
  destruct (sh_lru _ _ _ _ _ Hs) as (Hf & _ & Hnd). destruct (nodup_mid _ _ _ Hnd) as [Hns Hnd'].
  assert (Hin : s ∈ l1 ++ s :: l2) by (apply elem_of_mid; by left).
  assert (H0 : s <> 0%nat) by (by eapply chain_nonzero).
  assert (Hfl : s ∉ fl) by (intros Hx; by apply (sh_free_lru _ _ _ _ _ Hs s Hx)).
  assert (Hlen := entries_length _ _ Ep).
  assert (Hlt : (pred s < length (rc_entries c'))%nat).
  { rewrite Hlen. eapply chain_bound in Hf; [|done]. unfold lns in Hf. by rewrite length_fmap in Hf. }
  pose proof (rep_length _ _ _ _ _ H) as Hll. pose proof (rp_pool _ _ _ _ _ H) as Hpl.
  destruct (recycle_fields ps s c') as (Ep' & Ed' & _).
  split.
  - apply shape_recycle; [|done..]. eapply shape_ext; [|exact Hs']. intros x. cbn beta. rewrite elem_of_mid.
    split; [intros [[->|?] ?]; done|]. intros Hx. split; [by right|]. by intros ->.
  - eapply holds_frame; [|exact Hns|exact H0| |exact Ep'|exact Ed'].
    + unfold holds. rewrite Ep, Ed. by apply Forall2_app.
    + intros x Hx. eapply chain_nonzero; [exact Hf|]. apply elem_of_mid. by right.
  - rewrite length_app in *. cbn [length] in *. lia.
  - rewrite <- (rp_entries _ _ _ _ _ H), <- Hlen. apply (f_equal length) in Ep'. unfold pgs in Ep'.
    rewrite length_insert, !length_fmap in Ep'. done.
  - pose proof (rp_keys _ _ _ _ _ H) as Hk. rewrite fmap_app, fmap_cons in Hk. rewrite fmap_app. by apply (nodup_mid _ kv.1).
  - pose proof (rp_nonzero _ _ _ _ _ H) as Hk. rewrite fmap_app, fmap_cons, elem_of_mid in Hk. rewrite fmap_app. tauto.
  - unfold recycle. fields. rewrite Ec, (rp_count _ _ _ _ _ H), zlen_mid. unfold u32. rewrite Z.mod_small; [lia|].
    apply (f_equal Z.of_nat) in Hll. fold (zlen (k1 ++ kv :: k2)) in Hll. rewrite zlen_mid in Hll.
    pose proof (zlen_nonneg (k1 ++ k2)). unfold LAZY_RAM_CACHE_POOL_MAX in Hmax. lia.
  - unfold recycle. fields. rewrite Eu, (rp_used _ _ _ _ _ H), zlen_mid. pose proof (zlen_nonneg (k1 ++ k2)).
    destruct (Z.leb_spec ps ((zlen (k1 ++ k2) + 1) * ps)); nia.
  - unfold recycle. fields. by rewrite Eb, (rp_budget _ _ _ _ _ H).
Qed.

(** ** Eviction *)

(** The code of the eviction detaches the last slot of the list. *)
Lemma evict_detach c ls s :
  lru_ok c (ls ++ [s]) ->
  let e := entry c s in
  let c1 := with_lru_tail (ce_lru_prev e) c in
  (if (rc_lru_tail c1 =? 0)%nat then with_lru_head 0 c1 else on_entry (rc_lru_tail c1) (set_lru_next 0) c1)
  = lru_detach s c.
Proof.
  intros H. apply lru_neighbours in H as [Hp Hn]. cbn zeta. unfold lru_detach. rewrite Hp, Hn. fields.
  by destruct (last0 ls =? 0)%nat.
Qed.

Lemma rep_page c l ls fl hs i s kv :
  rep c l ls fl hs -> ls !! i = Some s -> l !! i = Some kv ->
  pgs c !! pred s = Some kv.1 /\ das c !! pred s = Some (Some kv.2).
Proof.
  intros H Hs Hkv. destruct (Forall2_lookup_l _ _ _ _ _ (rp_holds _ _ _ _ _ H) Hs) as (kv' & Hkv' & HH). congruence.
Qed.

Lemma link_next c ls bs fl hs b h1 s h2 :
  shape c ls bs fl hs -> hs !! b = Some (h1 ++ s :: h2) -> ce_hash_next (entry c s) = first0 h2.
Proof.
  intros H Hb. destruct (Forall2_lookup_r _ _ _ _ _ (sh_buckets _ _ _ _ _ H) Hb) as (s0 & _ & Hc).
  apply entry_field. by eapply chain_next.
Qed.

Lemma evict_ok c l kv ls fl hs :
  rep c (l ++ [kv]) ls fl hs -> Rep (snd (lazy_cache_evict_lru ps c)) l.
Proof.
  intros H. pose proof (rp_shape _ _ _ _ _ H) as Hs. pose proof (rep_length _ _ _ _ _ H) as Hlen.
  pose proof (rp_holds _ _ _ _ _ H) as Hh. apply Forall2_app_inv_r in Hh as (ls' & sx & Hh1 & Hh2 & ->).
  apply Forall2_cons_inv_r in Hh2 as (s & nl & [Hp Hd] & Hnil & ->). apply Forall2_nil_inv_r in Hnil as ->.
  destruct (sh_lru _ _ _ _ _ Hs) as (Hf & Hb & Hnd).
  assert (Htail : rc_lru_tail c = s).
  { apply chain_first in Hb. rewrite reverse_app in Hb. exact Hb. }
  assert (H0 : s <> 0%nat) by (eapply chain_nonzero; [exact Hf|]; apply elem_of_app; right; by left).
  unfold lazy_cache_evict_lru. rewrite Htail. destruct (Nat.eqb_spec s 0) as [|_]; [done|]. cbn [snd].
  rewrite (evict_detach c ls' s (sh_lru _ _ _ _ _ Hs)).
  pose proof (shape_detach _ _ _ [] _ _ _ Hs) as Hsd. rewrite app_nil_r in Hsd.
  destruct (lru_detach_fields s c) as [Honly _]. pose proof (lru_only_pages _ _ Honly) as (Ep & _).
  rewrite (entry_field ce_page_no c s _ Hp).
  destruct (find_in_bucket_spec _ _ _ _ _ (Nat.eqb s) kv.1 Hsd) as (hl & Hhl & Hfind).
  destruct (find_in_bucket _ _ _) as [[prev s']|].
  - destruct Hfind as (h1 & h2 & -> & Ht & ->). apply Nat.eqb_eq in Ht as <-.
    rewrite (link_next _ _ _ _ _ _ _ _ _ Hsd Hhl).
    pose proof (shape_unbucket _ _ _ _ _ _ _ _ _ Hsd Hhl) as Hsu.
    exists (ls' ++ []), (s :: fl), (<[bucket_of (lru_detach s c) kv.1 := h1 ++ h2]> hs).
    rewrite <- (app_nil_r l). eapply (rep_drop c _ ls' s []); [exact H|exact Hh1|apply Forall2_nil_2| |].
    + rewrite app_nil_r. exact Hsu.
    + eapply same_pages_trans; [by apply lru_only_pages|apply hash_only_pages, set_link_fields].
  - exfalso. rewrite list.Forall_forall in Hfind.
    assert (Hin : s ∈ hl).
    { apply (sh_member _ _ _ _ _ Hsd _ _ s Hhl). split; [apply elem_of_app; right; by left|].
      exists kv.1. by rewrite Ep. }
    specialize (Hfind s Hin). by rewrite Nat.eqb_refl in Hfind.
Qed.

(** ** Lookup *)

Lemma rep_same c c' l ls fl hs :
  rep c l ls fl hs -> same_pages c c' -> shape c' ls (fun x => x ∈ ls) fl hs -> rep c' l ls fl hs.
Proof.
  intros [H1 H2 H3 H4 H5 H6 H7 H8 H9] (Ep & Ed & Ec & Eu & Eb) Hs.
  split; try done; try congruence.
  - unfold holds. by rewrite Ep, Ed.
  - by rewrite (entries_length _ _ Ep).
Qed.

(** An entry moves to the front. *)
Lemma rep_touch c k1 kv k2 l1 s l2 fl hs :
  rep c (k1 ++ kv :: k2) (l1 ++ s :: l2) fl hs -> holds c l1 k1 -> holds c l2 k2 ->
  Rep (lru_push_front s (lru_detach s c)) (kv :: k1 ++ k2).
Proof.
  intros H Hh1 Hh2. pose proof (rp_shape _ _ _ _ _ H) as Hs. destruct (sh_lru _ _ _ _ _ Hs) as (Hf & _ & Hnd).
  destruct (nodup_mid _ _ _ Hnd) as [Hns _].
  assert (Hin : s ∈ l1 ++ s :: l2) by (apply elem_of_mid; by left).
  assert (Hkv : pgs c !! pred s = Some kv.1 /\ das c !! pred s = Some (Some kv.2)).
  { eapply (rep_page c _ _ _ _ (length l1)); [exact H|by apply list_lookup_middle|].
    rewrite (Forall2_length Hh1). by apply list_lookup_middle. }
  pose proof (lru_only_pages _ _ (proj1 (lru_detach_fields s c))) as Hd.
  pose proof (lru_only_pages _ _ (proj1 (lru_push_fields s (lru_detach s c)))) as Hp.
  pose proof (same_pages_trans _ _ _ Hd Hp) as Hsame.
  assert (Hlen : length (rc_entries (lru_detach s c)) = length (rc_entries c)) by (apply entries_length, Hd).
  assert (Hshape : shape (lru_push_front s (lru_detach s c)) (s :: l1 ++ l2) (fun x => x ∈ s :: l1 ++ l2) fl hs).
  { apply (shape_ext _ _ (fun x => x ∈ l1 ++ s :: l2)); [intros x; by rewrite elem_of_mid, elem_of_cons|].
    apply shape_push; [by apply shape_detach|done| | |].
    - intros Hx. by apply (sh_free_lru _ _ _ _ _ Hs s Hx).
    - by eapply chain_nonzero.
    - rewrite Hlen. eapply chain_bound in Hf; [|done]. unfold lns in Hf. by rewrite length_fmap in Hf. }
  exists (s :: l1 ++ l2), fl, hs. destruct H as [H1 H2 H3 H4 H5 H6 H7 H8 H9], Hsame as (Ep & Ed & Ec & Eu & Eb).
  split; try done.
  - unfold holds. rewrite Ep, Ed. constructor; [done|]. by apply Forall2_app.
  - rewrite length_app in *. cbn [length] in *. rewrite length_app. lia.
  - by rewrite (entries_length _ _ Ep).
  - rewrite fmap_cons, fmap_app. rewrite fmap_app, fmap_cons, <- Permutation_middle in H5. done.
  - rewrite fmap_cons, fmap_app. rewrite fmap_app, fmap_cons, elem_of_mid in H6. by rewrite elem_of_cons.
  - rewrite Ec, H7. unfold zlen. cbn [length]. rewrite !length_app. cbn [length]. lia.
  - rewrite Eu, H8. unfold zlen. cbn [length]. rewrite !length_app. cbn [length]. lia.
  - congruence.
Qed.

Lemma lookup_ok c l p :
  Rep c l -> fst (lazy_cache_lookup p c) = fst (lru_lookup p l) /\ Rep (snd (lazy_cache_lookup p c)) (snd (lru_lookup p l)).
Proof.
  intros (ls & fl & hs & H). unfold lazy_cache_lookup. rewrite (rep_on _ _ _ _ _ H).
  pose proof (find_page _ _ _ _ _ p (rp_shape _ _ _ _ _ H) (rp_holds _ _ _ _ _ H)) as Hf.
  destruct (find_in_bucket _ _ _) as [[prev s]|]; unfold lru_lookup.
  - destruct Hf as (h1 & h2 & l1 & l2 & k1 & k2 & d & _ & _ & -> & -> & Hh1 & Hh2 & Hd).
    destruct (lru_split p d k1 k2 (rp_keys _ _ _ _ _ H)) as [-> ->]. cbn [fst snd]. split; [done|].
    destruct (Nat.eqb_spec (rc_lru_head c) s) as [Eh|]; [|by eapply rep_touch].
    destruct (sh_lru _ _ _ _ _ (rp_shape _ _ _ _ _ H)) as (Hc & _ & Hnd).
    destruct l1 as [|y l1]; [apply Forall2_nil_inv_l in Hh1 as ->; by exists (s :: l2), fl, hs|].
    destruct Hc as (Hy & _). exfalso. subst y. rewrite <- app_comm_cons in Hnd. apply list.NoDup_cons in Hnd as [Hs _].
    apply Hs, elem_of_mid. left. congruence.
  - apply lru_get_None in Hf. rewrite Hf. split; [done|]. by exists ls, fl, hs.
Qed.

Lemma contains_ok c l p : Rep c l -> lazy_cache_contains p c = bool_decide (is_Some (lru_get p l)).
Proof.
  intros (ls & fl & hs & H). unfold lazy_cache_contains. rewrite (rep_on _ _ _ _ _ H).
  pose proof (find_page _ _ _ _ _ p (rp_shape _ _ _ _ _ H) (rp_holds _ _ _ _ _ H)) as Hf.
  destruct (find_in_bucket _ _ _) as [[prev s]|].
  - destruct Hf as (h1 & h2 & l1 & l2 & k1 & k2 & d & _ & _ & -> & -> & _).
    by destruct (lru_split p d k1 k2 (rp_keys _ _ _ _ _ H)) as [-> _].
  - apply lru_get_None in Hf. by rewrite Hf.
Qed.

(** ** Removal *)

Lemma remove_ok c l p : Rep c l -> Rep (lazy_cache_remove ps p c) (lru_remove p l).
Proof.
  intros (ls & fl & hs & H). unfold lazy_cache_remove, lru_remove. rewrite (rep_on _ _ _ _ _ H). cbn [orb].
  destruct (p =? 0); [by exists ls, fl, hs|]. pose proof (rp_shape _ _ _ _ _ H) as Hs.
  pose proof (find_page _ _ _ _ _ p Hs (rp_holds _ _ _ _ _ H)) as Hf.
  destruct (find_in_bucket _ _ _) as [[prev s]|].
  - destruct Hf as (h1 & h2 & l1 & l2 & k1 & k2 & d & Hb & -> & -> & -> & Hh1 & Hh2 & _).
    destruct (lru_split p d k1 k2 (rp_keys _ _ _ _ _ H)) as [_ ->].
    rewrite (link_next _ _ _ _ _ _ _ _ _ Hs Hb). pose proof (shape_unbucket _ _ _ _ _ _ _ _ _ Hs Hb) as Hsu.
    eexists _, _, _. eapply rep_drop; [exact H|done..|by apply shape_detach|].
    eapply same_pages_trans; [apply hash_only_pages, set_link_fields|apply lru_only_pages, lru_detach_fields].
  - rewrite lru_del_notin by done. by exists ls, fl, hs.
Qed.

(** ** Storing *)

Lemma rep_bound c l : Rep c l -> zlen l <= Z.of_nat pool.
Proof.
  intros (ls & fl & hs & H). pose proof (rep_length _ _ _ _ _ H). pose proof (rp_pool _ _ _ _ _ H). unfold zlen. lia.
Qed.

Lemma make_room_ok fuel c l :
  Rep c l -> (length l <= fuel)%nat -> Rep (make_room fuel ps c) (take (Z.to_nat (budget / ps - 1)) l).
Proof.
  revert c l. induction fuel as [|fuel IH]; intros c l H Hlen.
  { destruct l; [|cbn in Hlen; lia]. by rewrite take_nil. }
  cbn [make_room]. pose proof (rep_bound _ _ H) as Hb. destruct H as (ls & fl & hs & H).
  rewrite (rp_count _ _ _ _ _ H), (rp_used _ _ _ _ _ H), (rp_budget _ _ _ _ _ H).
  pose proof (zlen_nonneg l) as H0. unfold LAZY_RAM_CACHE_POOL_MAX in Hmax.
  assert (Hu : u64 (zlen l * ps + ps) = (zlen l + 1) * ps) by (unfold u64; rewrite Z.mod_small; nia).
  rewrite Hu. assert (Hdiv : budget < (zlen l + 1) * ps <-> budget / ps - 1 < zlen l).
  { pose proof (Z.div_mod budget ps ltac:(lia)). pose proof (Z.mod_pos_bound budget ps ltac:(lia)). nia. }
  destruct (Z.ltb_spec 0 (zlen l)) as [Hpos|Hz], (Z.ltb_spec budget ((zlen l + 1) * ps)) as [Hlt|Hge]; cbn [andb].
  1: { destruct (@exists_last _ l ltac:(by intros ->)) as (l' & kv & ->).
       apply evict_ok in H. rewrite length_app in Hlen. cbn in Hlen. apply IH in H; [|lia].
       assert (Hk : budget / ps - 1 < zlen (l' ++ [kv])) by (by apply Hdiv).
       rewrite take_app_le; [done|]. rewrite zlen_app in Hk. unfold zlen in Hk. cbn in Hk. lia. }
  all: rewrite take_ge; [by exists ls, fl, hs|unfold zlen in *; lia].
Qed.

Lemma insert_ok c l p d :
  Rep c l -> zlen l < Z.of_nat pool -> p ∉ l.*1 -> p <> 0 ->
  rc_free_head c <> 0%nat /\ Rep (insert_entry ps p d c) ((p, d) :: l).
Proof.
  intros (ls & fl & hs & H) Hlt Hp Hp0. pose proof (rp_shape _ _ _ _ _ H) as Hs.
  pose proof (rep_length _ _ _ _ _ H) as Hl. pose proof (rp_pool _ _ _ _ _ H) as Hpl.
  destruct fl as [|s fl]; [cbn in Hpl; unfold zlen in Hlt; lia|].
  assert (Es : rc_free_head c = s) by (by destruct (sh_free _ _ _ _ _ Hs)).
  assert (H0 : s <> 0%nat) by (by destruct (sh_free _ _ _ _ _ Hs) as (_ & ? & _)). split; [by rewrite Es|].
  assert (Hb : (pred s < length (rc_entries c))%nat).
  { pose proof (chain_bound _ _ _ s (sh_free _ _ _ _ _ Hs) ltac:(by left)) as Hx. unfold hns in Hx. by rewrite length_fmap in Hx. }
  assert (Hns : s ∉ ls) by (apply (sh_free_lru _ _ _ _ _ Hs); by left).
  destruct (find_in_bucket_spec _ _ _ _ _ (fun _ => true) p Hs) as (hl & Hhl & _).
  pose proof (shape_link p d _ _ _ _ _ _ _ Hs Hhl H0 Hb) as Hk.
  destruct (link_entry_fields p d c) as (Ep & Ed & _). rewrite Es in Ep, Ed.
  assert (Hen : length (rc_entries (link_entry p d c)) = length (rc_entries c)).
  { apply (f_equal length) in Ep. unfold pgs in Ep. by rewrite length_insert, !length_fmap in Ep. }
  pose proof (sh_free_nodup _ _ _ _ _ Hs) as Hnd. apply list.NoDup_cons in Hnd as [Hsf _].
  pose proof (shape_push _ s _ _ _ _ Hk Hns Hsf H0 ltac:(by rewrite Hen)) as Hfin.
  destruct (lru_only_pages _ _ (proj1 (lru_push_fields s (link_entry p d c)))) as (Ep' & Ed' & Ec & Eu & Eb).
  assert (Hlook : forall c', pgs c' = <[pred s := p]> (pgs c) -> das c' = <[pred s := Some d]> (das c) ->
                  holds c' (s :: ls) ((p, d) :: l)).
  { intros c' E1 E2. constructor.
    - rewrite E1, E2. unfold pgs, das. by rewrite !list_lookup_insert_eq by (by rewrite length_fmap).
    - eapply holds_frame; [exact (rp_holds _ _ _ _ _ H)|exact Hns|exact H0| |exact E1|exact E2].
      intros x. apply chain_nonzero with (lns c) (rc_lru_head c). apply (sh_lru _ _ _ _ _ Hs). }
  exists (s :: ls), fl, (<[bucket_of c p := s :: hl]> hs). unfold insert_entry. rewrite Es.
  destruct H as [H1 H2 H3 H4 H5 H6 H7 H8 H9]. split.
  - apply (shape_ext _ _ _ (fun x => x ∈ s :: ls)) in Hfin; [by destruct Hfin; split|].
    intros x. cbn beta. rewrite elem_of_cons. tauto.
  - apply Hlook; fields; congruence.
  - cbn [length] in *. lia.
  - change (length (rc_entries (lru_push_front s (link_entry p d c))) = pool). rewrite (entries_length _ _ Ep'), Hen. done.
  - rewrite fmap_cons. by apply list.NoDup_cons.
  - rewrite fmap_cons, elem_of_cons. intros [E|E]; [by subst|done].
  - fields. rewrite Ec. change (rc_count (link_entry p d c)) with (rc_count c). rewrite H7, zlen_cons. unfold u32.
    unfold LAZY_RAM_CACHE_POOL_MAX in Hmax. pose proof (zlen_nonneg l). rewrite Z.mod_small; lia.
  - fields. rewrite Eu. change (rc_used_bytes (link_entry p d c)) with (rc_used_bytes c). rewrite H8, zlen_cons. unfold u64.
    unfold LAZY_RAM_CACHE_POOL_MAX in Hmax. pose proof (zlen_nonneg l). rewrite Z.mod_small; nia.
  - fields. rewrite Eb. exact H9.
Qed.

(** The bytes of an entry are replaced. *)
Lemma rep_replace c k1 p d0 d k2 l1 s l2 fl hs :
  rep c (k1 ++ (p, d0) :: k2) (l1 ++ s :: l2) fl hs -> holds c l1 k1 -> holds c l2 k2 ->
  rep (on_entry s (set_page p (Some d)) c) (k1 ++ (p, d) :: k2) (l1 ++ s :: l2) fl hs.
Proof.
  intros H Hh1 Hh2. set (c' := on_entry _ _ _). pose proof (rp_shape _ _ _ _ _ H) as Hs.
  destruct (sh_lru _ _ _ _ _ Hs) as (Hf & _ & Hnd). destruct (nodup_mid _ _ _ Hnd) as [Hns _].
  assert (Hin : s ∈ l1 ++ s :: l2) by (apply elem_of_mid; by left).
  assert (H0 : s <> 0%nat) by (by eapply chain_nonzero).
  assert (Hpg : pgs c !! pred s = Some p).
  { eapply (rep_page c _ _ _ _ (length l1) s (p, d0)); [exact H|by apply list_lookup_middle|].
    rewrite (Forall2_length Hh1). by apply list_lookup_middle. }
  assert (Ep : pgs c' = <[pred s := p]> (pgs c)) by (unfold c'; fields; done).
  assert (Ep1 : pgs c' = pgs c) by (rewrite Ep; by apply list_insert_id).
  assert (Ed : das c' = <[pred s := Some d]> (das c)) by (unfold c'; fields; done).
  assert (El : lps c' = lps c /\ lns c' = lns c /\ hns c' = hns c) by (unfold c'; fields; done).
  destruct El as (Elp & Eln & Eh). destruct H as [H1 H2 H3 H4 H5 H6 H7 H8 H9]. split; try done.
  - destruct Hs as [S1 S2 S3 S4 S5 S6 S7 S8 S8' S9]. split; try done.
    + unfold lru_ok. rewrite Elp, Eln. exact S1.
    + unfold buckets_ok. rewrite Eh. exact S2.
    + unfold bucket_of. rewrite Ep1. exact S4.
    + rewrite Eh. exact S5.
  - assert (Hn : forall x, x ∈ l1 ++ l2 -> x <> 0%nat).
    { intros x Hx. eapply chain_nonzero; [exact Hf|]. apply elem_of_mid. by right. }
    assert (Hrest : holds c' (l1 ++ l2) (k1 ++ k2)).
    { eapply holds_frame; [by apply Forall2_app|exact Hns|exact H0|exact Hn|exact Ep|exact Ed]. }
    apply Forall2_app_inv in Hrest as [Hr1 Hr2]; [|exact (Forall2_length Hh1)].
    apply Forall2_app; [done|]. constructor; [|done]. rewrite Ep1, Ed. split; [done|].
    apply list_lookup_insert_eq. unfold das. rewrite length_fmap. apply lookup_lt_Some in Hpg.
    unfold pgs in Hpg. by rewrite length_fmap in Hpg.
  - by rewrite (entries_length _ _ Ep1).
  - by rewrite fmap_app, fmap_cons in *.
  - by rewrite fmap_app, fmap_cons in *.
  - change (rc_count c = zlen (k1 ++ (p, d) :: k2)). by rewrite H7, !zlen_mid.
  - change (rc_used_bytes c = zlen (k1 ++ (p, d) :: k2) * ps). by rewrite H8, !zlen_mid.
Qed.

Lemma free_full c l ls fl hs : rep c l ls fl hs -> rc_free_head c = 0%nat -> length l = pool.
Proof.
  intros H E. rewrite (rep_length _ _ _ _ _ H). rewrite <- (rp_pool _ _ _ _ _ H).
  pose proof (sh_free _ _ _ _ _ (rp_shape _ _ _ _ _ H)) as Hf. rewrite E in Hf. destruct fl; [cbn; lia|].
  by destruct Hf as (<- & ? & _).
Qed.

Lemma store_ok c l p d : Rep c l -> Rep (lazy_cache_store ps p d c) (lru_store ps budget pool p (take (Z.to_nat ps) d) l).
Proof.
  intros HR. pose proof HR as (ls & fl & hs & H). unfold lazy_cache_store, lru_store. rewrite (rep_on _ _ _ _ _ H). cbn [orb].
  destruct (Z.eqb_spec p 0) as [|Hp0]; [done|]. set (data := take _ d).
  pose proof (find_page _ _ _ _ _ p (rp_shape _ _ _ _ _ H) (rp_holds _ _ _ _ _ H)) as Hf.
  destruct (find_in_bucket _ _ _) as [[prev s]|].
  - destruct Hf as (h1 & h2 & l1 & l2 & k1 & k2 & d0 & _ & _ & -> & -> & Hh1 & Hh2 & _).
    destruct (lru_split p d0 k1 k2 (rp_keys _ _ _ _ _ H)) as [-> ->].
    pose proof (rep_replace _ _ _ _ data _ _ _ _ _ _ H Hh1 Hh2) as Hr.
    destruct (lru_split p data k1 k2 (rp_keys _ _ _ _ _ Hr)) as [E1 E2].
    destruct (lookup_ok _ _ p (ex_intro _ _ (ex_intro _ _ (ex_intro _ _ Hr)))) as [_ Hl].
    unfold lru_lookup in Hl. rewrite E1, E2 in Hl. exact Hl.
  - pose proof Hf as Hn. apply lru_get_None in Hn. rewrite Hn. rewrite (rp_entries _ _ _ _ _ H).
    assert (Hl : (length l <= pool)%nat) by (pose proof (rep_bound _ _ HR); unfold zlen in *; lia).
    pose proof (make_room_ok pool c l HR Hl) as H1. set (c1 := make_room _ _ _) in *. set (K := Z.to_nat (budget / ps - 1)) in *.
    set (c2 := if _ && _ then _ else _).
    assert (H2 : Rep c2 (take (lru_keep ps budget pool) l)).
    { unfold lru_keep. fold K. pose proof (rep_bound _ _ H1) as Hb1. unfold zlen in Hb1. rewrite length_take in Hb1.
      pose proof H1 as (ls1 & fl1 & hs1 & R1). unfold c2.
      destruct (Nat.eqb_spec (rc_free_head c1) 0) as [E0|E0]; cbn [andb].
      - pose proof (free_full _ _ _ _ _ R1 E0) as Hfull.
        assert (Et : rc_lru_tail c1 <> 0%nat).
        { destruct (sh_lru _ _ _ _ _ (rp_shape _ _ _ _ _ R1)) as (Hc & Hb & _).
          rewrite (chain_first _ _ _ Hb), first0_reverse. eapply chain_nonzero; [exact Hc|]. apply last0_elem.
          intros ->. pose proof (rep_length _ _ _ _ _ R1) as E. cbn in E. lia. }
        destruct (Nat.eqb_spec (rc_lru_tail c1) 0) as [|_]; [done|]. cbn [negb].
        destruct (@exists_last _ (take K l)) as (l' & kv & E); [intros E; rewrite E in Hfull; cbn in Hfull; lia|].
        rewrite E in R1. apply evict_ok in R1. rewrite E, length_app in Hfull. cbn in Hfull.
        replace (take (K `min` pred pool) l) with l'; [done|].
        rewrite Nat.min_comm, <- take_take, E, take_app_le by lia. by rewrite take_ge by lia.
      - rewrite Nat.min_comm, <- take_take. rewrite (take_ge (take K l)); [done|].
        pose proof (rp_pool _ _ _ _ _ R1) as Hpl. pose proof (rep_length _ _ _ _ _ R1) as Hll.
        destruct fl1; [|cbn in Hpl; lia]. destruct (sh_free _ _ _ _ _ (rp_shape _ _ _ _ _ R1)). done. }
    assert (Hlt : zlen (take (lru_keep ps budget pool) l) < Z.of_nat pool).
    { unfold zlen, lru_keep. rewrite length_take. lia. }
    assert (Hnin : p ∉ (take (lru_keep ps budget pool) l).*1).
    { rewrite fmap_take. intros (i & Hi & _)%elem_of_take. apply Hf. by eapply list_elem_of_lookup_2. }
    destruct (insert_ok c2 _ p data H2 Hlt Hnin Hp0) as [Hfree Hins].
    destruct (Nat.eqb_spec (rc_free_head c2) 0); done.
Qed.
End Operations.

(** ** Initialisation *)

Lemma grow_buckets_pow fuel j pool :
  0 <= j -> exists k, j <= k <= j + Z.of_nat fuel /\ grow_buckets fuel (2 ^ j) pool = 2 ^ k.
Proof.
  revert j. induction fuel as [|fuel IH]; intros j Hj; [exists j; split; [lia|done]|]. cbn [grow_buckets].
  destruct (_ && _); [|exists j; split; [lia|done]].
  rewrite Z.shiftl_mul_pow2 by lia. rewrite <- Z.pow_add_r by lia.
  destruct (IH (j + 1) ltac:(lia)) as (k & Hk & E). exists k. split; [lia|done].
Qed.

Lemma free_chain next n i m :
  (forall j, (j < n)%nat -> next !! j = Some (if (S j <? n)%nat then S (S j) else 0%nat)) ->
  (i + m = n)%nat -> chain next (if (0 <? m)%nat then S i else 0%nat) (seq (S i) m).
Proof.
  intros H. revert i. induction m as [|m IH]; intros i E; [done|]. cbn [seq chain].
  split; [done|]. split; [done|]. exists (if (S i <? n)%nat then S (S i) else 0%nat). split; [apply H; lia|].
  specialize (IH (S i) ltac:(lia)). destruct (Nat.ltb_spec (S i) n), (Nat.ltb_spec 0 m); try lia; done.
Qed.

(** The configuration of the tier. *)
Definition cache_budget (getenv : bytes -> option bytes) : Z := lazy_ram_cache_mb getenv * 1024 * 1024.
Definition cache_pool (getenv : bytes -> option bytes) (ps : Z) : nat :=
  Z.to_nat (Z.min LAZY_RAM_CACHE_POOL_MAX (cache_budget getenv / ps + 1)).

Lemma ram_cache_mb_range getenv : 0 <= lazy_ram_cache_mb getenv <= LAZY_RAM_CACHE_MAX_MB.
Proof.
  unfold lazy_ram_cache_mb, LAZY_RAM_CACHE_MAX_MB, LAZY_RAM_CACHE_DEFAULT_MB. repeat case_match; lia.
Qed.

Lemma init_ok getenv ps :
  0 < ps < 2 ^ 32 -> lazy_ram_cache_mb getenv <> 0 ->
  Rep ps (cache_budget getenv) (cache_pool getenv ps) (lazy_cache_init getenv ps zero_cache) [].
Proof.
  intros Hps Hmb. pose proof (ram_cache_mb_range getenv) as Hr. unfold lazy_cache_init.
  change (negb (zlen (rc_entries zero_cache) =? 0)) with false. cbv iota.
  destruct (Z.eqb_spec (lazy_ram_cache_mb getenv) 0) as [|_]; [done|]. destruct (Z.eqb_spec ps 0) as [|_]; [lia|]. cbn [orb].
  fold (cache_budget getenv). set (want := cache_budget getenv / ps + 1).
  assert (Hwant : 0 < want).
  { unfold want, cache_budget. pose proof (Z.div_pos (lazy_ram_cache_mb getenv * 1024 * 1024) ps ltac:(lia) ltac:(lia)). lia. }
  set (pool := Z.to_nat (if LAZY_RAM_CACHE_POOL_MAX <? want then _ else _)).
  assert (Epool : pool = cache_pool getenv ps).
  { unfold pool, cache_pool. fold want. f_equal. destruct (Z.ltb_spec LAZY_RAM_CACHE_POOL_MAX want); lia. }
  assert (Hpos : (0 < pool)%nat).
  { rewrite Epool. unfold cache_pool, LAZY_RAM_CACHE_POOL_MAX. fold want. lia. }
  rewrite <- Epool. destruct (grow_buckets_pow 24 0 (Z.of_nat pool) ltac:(lia)) as (k & Hk & Eb).
  change (2 ^ 0) with 1 in Eb. rewrite Eb. set (nb := Z.to_nat (2 ^ k)).
  assert (Hnb : Z.of_nat nb = 2 ^ k) by (pose proof (Z.pow_pos_nonneg 2 k ltac:(lia) ltac:(lia)); lia).
  exists [], (seq 1 pool), (replicate nb []).
  assert (Hseq : Forall (fun x => x <> 0%nat) (seq 1 pool)) by (apply list.Forall_forall; intros x Hx%elem_of_seq; lia).
  split; cbn [zero_cache rc_count rc_used_bytes rc_budget_bytes]; [|apply Forall2_nil_2|by rewrite length_seq| |apply NoDup_nil_2|by intros ?%elem_of_nil|done..].
  2: { cbn [rc_entries]. by rewrite length_fmap, length_seq. }
  split.
  - repeat split; [done..|apply NoDup_nil_2].
  - unfold buckets_ok. cbn [rc_hash]. by apply Forall2_replicate.
  - intros b hl. rewrite lookup_replicate. intros [-> _]. apply NoDup_nil_2.
  - intros b hl x. rewrite lookup_replicate. intros [-> _]. rewrite elem_of_nil. naive_solver.
  - cbn [rc_free_head]. pose proof (free_chain (hns (mkCache (free_entry pool <$> seq 0 pool) (replicate nb 0%nat)
      (cache_budget getenv) 0 0 0 1 0)) pool 0 pool) as H.
    destruct (Nat.ltb_spec 0 pool); [|lia]. apply H; [|done]. intros j Hj. unfold hns. cbn [rc_entries].
    rewrite list_lookup_fmap, list_lookup_fmap, lookup_seq_lt by done. done.
  - apply NoDup_seq.
  - by intros x _ ?%elem_of_nil.
  - by intros x _ ?%elem_of_nil.
  - by intros x ?%elem_of_nil.
  - exists k. cbn [rc_hash]. rewrite length_replicate. split; [lia|done].
Qed.

(** ** Sequences of operations *)

Inductive cache_op :=
  | CLookup (page_no : Z)
  | CContains (page_no : Z)
  | CStore (page_no : Z) (data : bytes)
  | CRemove (page_no : Z).

(** What an operation answers: the bytes of a hit, or the probe. *)
Definition cache_answer : Type := option bytes + bool.

Definition cache_step (ps : Z) (op : cache_op) (c : lazy_ram_cache) : cache_answer * lazy_ram_cache :=
  match op with
  | CLookup p => let '(r, c') := lazy_cache_lookup p c in (inl r, c')
  | CContains p => (inr (lazy_cache_contains p c), c)
  | CStore p d => (inl None, lazy_cache_store ps p d c)
  | CRemove p => (inl None, lazy_cache_remove ps p c)
  end.

Definition lru_step (ps budget : Z) (pool : nat) (op : cache_op) (l : lru) : cache_answer * lru :=
  match op with
  | CLookup p => let '(r, l') := lru_lookup p l in (inl r, l')
  | CContains p => (inr (bool_decide (is_Some (lru_get p l))), l)
  | CStore p d => (inl None, lru_store ps budget pool p (take (Z.to_nat ps) d) l)
  | CRemove p => (inl None, lru_remove p l)
  end.

Fixpoint run_ops {T} (step : cache_op -> T -> cache_answer * T) (ops : list cache_op) (t : T) : list cache_answer * T :=
  match ops with
  | [] => ([], t)
  | op :: rest =>
      let '(a, t) := step op t in
      let '(answers, t) := run_ops step rest t in (a :: answers, t)
  end.

Lemma run_ops_simulates ps budget pool ops c l :
  0 < ps < 2 ^ 32 -> 0 < budget < 2 ^ 63 -> (0 < pool)%nat -> Z.of_nat pool <= LAZY_RAM_CACHE_POOL_MAX ->
  Rep ps budget pool c l ->
  fst (run_ops (cache_step ps) ops c) = fst (run_ops (lru_step ps budget pool) ops l) /\
  Rep ps budget pool (snd (run_ops (cache_step ps) ops c)) (snd (run_ops (lru_step ps budget pool) ops l)).
Proof.
  intros H1 H2 H3 H4. revert c l. induction ops as [|op ops IH]; intros c l H; [done|]. cbn [run_ops].
  assert (Hstep : fst (cache_step ps op c) = fst (lru_step ps budget pool op l) /\
                  Rep ps budget pool (snd (cache_step ps op c)) (snd (lru_step ps budget pool op l))).
  { destruct op as [p|p|p d|p]; cbn [cache_step lru_step fst snd].
    - assert (fst (lazy_cache_lookup p c) = fst (lru_lookup p l) /\
              Rep ps budget pool (snd (lazy_cache_lookup p c)) (snd (lru_lookup p l))) as [Ha Hr] by (by apply lookup_ok).
      destruct (lazy_cache_lookup p c), (lru_lookup p l). cbn [fst snd] in *. by subst.
    - split; [|done]. f_equal. by apply (contains_ok ps budget pool).
    - split; [done|]. by apply store_ok.
    - split; [done|]. by apply remove_ok. }
  destruct (cache_step ps op c) as [a c'], (lru_step ps budget pool op l) as [a' l']. cbn [fst snd] in Hstep.
  destruct Hstep as [<- Hr]. specialize (IH c' l' Hr).
  destruct (run_ops (cache_step ps) ops c'), (run_ops (lru_step ps budget pool) ops l'). cbn [fst snd] in *.
  destruct IH as [<- ?]. done.
Qed.

(** The LRU list never holds more than the budget, one page apart. *)
Definition within (ps budget : Z) (l : lru) : Prop := zlen l * ps <= Z.max budget ps.

Lemma zlen_del p l : zlen (lru_del p l) <= zlen l.
Proof. induction l as [|[q d] l IH]; [done|]. cbn [lru_del]. destruct (q =? p); rewrite ?zlen_cons; lia. Qed.

Lemma zlen_del_hit p l d : lru_get p l = Some d -> zlen (lru_del p l) < zlen l.
Proof.
  induction l as [|[q e] l IH]; [done|]. cbn [lru_get lru_del]. rewrite zlen_cons. pose proof (zlen_del p l).
  destruct (q =? p); [lia|]. intros H1. apply IH in H1. rewrite zlen_cons. lia.
Qed.

Lemma lru_step_within ps budget pool op l :
  0 < ps -> 0 < budget -> within ps budget l -> within ps budget (snd (lru_step ps budget pool op l)).
Proof.
  unfold within. intros Hps Hb H. pose proof (zlen_nonneg l).
  destruct op as [p|p|p d|p]; cbn [lru_step]; unfold lru_lookup, lru_store, lru_remove; cbn [snd].
  - destruct (lru_get p l) eqn:E; [|done]. apply zlen_del_hit in E. cbn [snd]. rewrite zlen_cons. nia.
  - done.
  - destruct (p =? 0); [done|]. destruct (lru_get p l) eqn:E; rewrite zlen_cons.
    + apply zlen_del_hit in E. nia.
    + assert (zlen (take (lru_keep ps budget pool) l) <= Z.max 0 (budget / ps - 1)).
      { unfold zlen, lru_keep. rewrite length_take. lia. }
      pose proof (Z.mul_div_le budget ps Hps). nia.
  - destruct (p =? 0); [done|]. pose proof (zlen_del p l). nia.
Qed.

Lemma run_ops_within ps budget pool ops l :
  0 < ps -> 0 < budget -> within ps budget l -> within ps budget (snd (run_ops (lru_step ps budget pool) ops l)).
Proof.
  intros Hps Hb. revert l. induction ops as [|op ops IH]; intros l H; [done|]. cbn [run_ops].
  apply (lru_step_within ps budget pool op) in H; [|done..].
  destruct (lru_step ps budget pool op l) as [a l']. cbn [snd] in H. specialize (IH l' H).
  by destruct (run_ops (lru_step ps budget pool) ops l').
Qed.

(** C10. The RAM page cache is an LRU list: from the initialised tier, every
    sequence of lookups, probes, stores and removals gives the answers of the list
    of the pages in order of use, which a store cuts to what leaves room for one
    page under the budget and in the pool. The slots are exactly the pages of the
    list, and the bytes in use never exceed the budget, or one page if the budget
    is smaller than a page. *)
Theorem lazy_cache_refines_lru getenv ps ops :
  0 < ps < 2 ^ 32 -> lazy_ram_cache_mb getenv <> 0 ->
  let '(answers, c) := run_ops (cache_step ps) ops (lazy_cache_init getenv ps zero_cache) in
  let '(expected, l) := run_ops (lru_step ps (cache_budget getenv) (cache_pool getenv ps)) ops [] in
  answers = expected /\ rc_count c = zlen l /\ rc_used_bytes c = zlen l * ps /\
  rc_used_bytes c <= Z.max (cache_budget getenv) ps.
Proof.
  intros Hps Hmb. pose proof (ram_cache_mb_range getenv) as Hr.
  assert (Hb : 0 < cache_budget getenv < 2 ^ 63) by (unfold cache_budget, LAZY_RAM_CACHE_MAX_MB in *; lia).
  assert (Hd : 0 <= cache_budget getenv / ps) by (apply Z.div_pos; lia).
  assert (Hpool : (0 < cache_pool getenv ps)%nat) by (unfold cache_pool, LAZY_RAM_CACHE_POOL_MAX; lia).
  assert (Hmax : Z.of_nat (cache_pool getenv ps) <= LAZY_RAM_CACHE_POOL_MAX)
    by (unfold cache_pool, LAZY_RAM_CACHE_POOL_MAX; lia).
  pose proof (run_ops_simulates _ _ _ ops _ _ Hps Hb Hpool Hmax (init_ok getenv ps Hps Hmb)) as [Ha (ls & fl & hs & H)].
  pose proof (run_ops_within ps (cache_budget getenv) (cache_pool getenv ps) ops [] ltac:(lia) ltac:(lia)) as Hw.
  destruct (run_ops (cache_step ps) _ _) as [answers c], (run_ops (lru_step _ _ _) _ _) as [expected l]. cbn [fst snd] in *.
  rewrite (rp_used _ _ _ _ _ _ _ _ H), (rp_count _ _ _ _ _ _ _ _ H).
  repeat split; [done|]. apply Hw. unfold within. change (zlen (@nil (Z * bytes))) with 0. lia.
Qed.

(** A tier of one megabyte with the largest pages: sixteen fit. *)
Definition sample_getenv (name : bytes) : option bytes :=
  if bytes_eqb name (str "OTSARDB_S3_RAM_CACHE_MB") then Some (str "1") else None.

Definition sample_ops : list cache_op :=
  ((fun i => CStore (Z.of_nat i) [Z.of_nat i]) <$> seq 1 16) ++
  [CLookup 1; CStore 17 [17]; CContains 2; CLookup 1; CRemove 1; CLookup 1; CLookup 17].

Lemma lazy_cache_refines_lru_witness :
  let '(answers, c) := run_ops (cache_step 65536) sample_ops (lazy_cache_init sample_getenv 65536 zero_cache) in
  drop 16 answers = [inl (Some [1]); inl None; inr false; inl (Some [1]); inl None; inl None; inl (Some [17])] /\
  rc_count c = 15 /\ rc_used_bytes c <= 1048576.
Proof.
  pose proof (lazy_cache_refines_lru sample_getenv 65536 sample_ops ltac:(lia) ltac:(by vm_compute)) as H.
  destruct (run_ops (cache_step 65536) _ _) as [answers c].
  destruct (run_ops (lru_step _ _ _) _ _) as [expected l] eqn:E.
  assert (El : drop 16 (fst (expected, l)) = [inl (Some [1]); inl None; inr false; inl (Some [1]); inl None; inl None; inl (Some [17])]
               /\ zlen (snd (expected, l)) = 15) by (rewrite <- E; vm_compute; split; reflexivity).
  cbn [fst snd] in El. destruct H as (-> & Hc & _ & Hu), El as [El1 El2].
  split; [exact El1|]. split; [by rewrite Hc|]. vm_compute (Z.max _ _) in Hu. exact Hu.
Defined.
