(* ===== verification/LazyHydration.v ===== *)
(** * Lazy hydration (lazy_hydration.c)

    A session opens over an empty image of the head size and fetches pages when
    they are first read. The state of the hydrator is the index of the validated
    chain, a bitmap of the pages in the image, one fetch task per segment with a
    known page set, the read-ahead jobs and the RAM cache. Everything below runs
    with the mutex held, except the requests of the pool workers; [others] is what
    the other threads do while the caller waits on the condition variable.
    Allocations succeed; timing output and the wall clock are left out. *)

From S2P Require Import Prelude CText JsonText ObjectStore Journal Codec WalBatch Sha256 Segment.
From S2P Require Import Checksum CheckpointPage DbMetadata CommitManifest CommitPublish.
From S2P Require Import CheckpointManifest Cipher LocalFile Recovery WalPublisher LazyCache.

(** ** Settings *)

Definition LAZY_COALESCE_DEFAULT : Z := 4096.
Definition LAZY_COALESCE_MAX : Z := 2147483647.
Definition LAZY_POOL_MAX : Z := 8.
Definition LAZY_POOL_DEFAULT : Z := 4.
Definition LAZY_PREFETCH_DEFAULT : Z := 8.
Definition LAZY_PREFETCH_MAX : Z := 64.
Definition LAZY_PREFETCH_JOB_MAX : Z := 64.
Definition LAZY_PREFETCH_MIN_STREAK : Z := 2.

Definition lazy_coalesce_max (getenv : bytes -> option bytes) : Z :=
  match getenv (str "OTSARDB_S3_COALESCE_MAX") with
  | None | Some [] => LAZY_COALESCE_DEFAULT
  | Some value =>
      match strtol_all value with
      | None => LAZY_COALESCE_DEFAULT
      | Some n =>
          if n <? 0 then LAZY_COALESCE_DEFAULT
          else if n =? 0 then 0
          else if LAZY_COALESCE_MAX <? n then LAZY_COALESCE_MAX else n
      end
  end.

Definition lazy_pool_parallelism (getenv : bytes -> option bytes) : Z :=
  match getenv (str "OTSARDB_LAZY_PARALLEL") with
  | None | Some [] => LAZY_POOL_DEFAULT
  | Some value =>
      match strtol_all value with
      | None => LAZY_POOL_DEFAULT
      | Some n => if n <? 1 then 1 else if LAZY_POOL_MAX <? n then LAZY_POOL_MAX else n
      end
  end.

Definition lazy_prefetch_depth (getenv : bytes -> option bytes) : Z :=
  match getenv (str "OTSARDB_LAZY_PREFETCH") with
  | None | Some [] => LAZY_PREFETCH_DEFAULT
  | Some value =>
      match strtol_all value with
      | None => LAZY_PREFETCH_DEFAULT
      | Some n => if n <? 1 then 0 else if LAZY_PREFETCH_MAX <? n then LAZY_PREFETCH_MAX else n
      end
  end.

(** ** The state *)

Record lazy_unknown_ref := mkUnknown {
  ur_manifest_index : nat;
  ur_segment_index : nat;
  ur_key : bytes;
  ur_sha256 : bytes;
  ur_size : Z;
  ur_fetched : bool
}.

Record lazy_task_ref := mkTaskRef {
  tr_format_version : Z;
  tr_commit_id : bytes;
  tr_absolute_key : bytes;
  tr_sha256 : bytes;
  tr_size : Z;
  tr_page_size : Z;
  tr_manifest_index : nat;
  tr_segment_index : nat;
  tr_has_frame_offsets : bool
}.

Inductive task_state := TASK_IDLE | TASK_FETCHING | TASK_FETCHED | TASK_APPLIED | TASK_FAILED.

Record lazy_seg_task := mkTask {
  st_ref : lazy_task_ref;
  st_state : task_state;
  st_verified_bytes : option bytes
}.

Inductive job_state := PREFETCH_PENDING | PREFETCH_FETCHING | PREFETCH_DONE | PREFETCH_DROPPED.

Record lazy_prefetch_job := mkJob {
  pj_ordinal : nat;
  pj_first_page : Z;
  pj_last_page : Z;
  pj_state : job_state
}.

#[global] Instance task_state_eq : EqDecision task_state.
Proof. solve_decision. Defined.
#[global] Instance job_state_eq : EqDecision job_state.
Proof. solve_decision. Defined.

(** The counters of the read path. *)
Inductive counter :=
  | total_gets | range_gets | bytes_fetched | demand_misses | prefetch_fetches | prefetch_hits
  | coalesced_runs | sequential_streaks | ram_hits | ram_misses.

#[global] Instance counter_eq : EqDecision counter.
Proof. solve_decision. Defined.

(** What a restore builds and nothing else changes. *)
Record lazy_index := mkIndex {
  li_root : bytes;
  li_path : bytes;
  li_cipher : option bytes;
  li_page_size : Z;
  li_database_size_pages : Z;
  li_covered_size_pages : Z;
  li_base_complete_pages : Z;
  (** newest first, with the parsed encryption entries *)
  li_manifests : list (otsardb_commit_manifest * enc_set)
}.

Record otsardb_lazy_hydrator := mkHydrator {
  lh_index : lazy_index;
  lh_unknown : list lazy_unknown_ref;
  lh_unknown_fetched : bool;
  lh_bitmap : bytes;
  lh_marked_pages : Z;
  lh_fetch_failed : bool;
  lh_generation : Z;
  lh_tasks : list lazy_seg_task;
  lh_next_apply : nat;
  lh_pool_started : bool;
  lh_pool_workers : Z;
  lh_pool_stop : bool;
  lh_last_miss_page : Z;
  lh_seq_streak : Z;
  lh_jobs : list lazy_prefetch_job;
  lh_stats : counter -> Z;
  lh_cache : lazy_ram_cache
}.

Definition lh_page_size (h : otsardb_lazy_hydrator) : Z := li_page_size (lh_index h).
Definition lh_database_size_pages (h : otsardb_lazy_hydrator) : Z := li_database_size_pages (lh_index h).

Definition set_index (i : lazy_index) (h : otsardb_lazy_hydrator) : otsardb_lazy_hydrator :=
  let 'mkHydrator _ b c d e f g j k l m n o p q r s := h in mkHydrator i b c d e f g j k l m n o p q r s.
Definition set_unknown (u : list lazy_unknown_ref) (fetched : bool) (h : otsardb_lazy_hydrator) : otsardb_lazy_hydrator :=
  let 'mkHydrator a _ _ d e f g j k l m n o p q r s := h in mkHydrator a u fetched d e f g j k l m n o p q r s.
Definition set_bitmap (bits : bytes) (marked : Z) (h : otsardb_lazy_hydrator) : otsardb_lazy_hydrator :=
  let 'mkHydrator a b c _ _ f g j k l m n o p q r s := h in mkHydrator a b c bits marked f g j k l m n o p q r s.
Definition set_failed (failed : bool) (h : otsardb_lazy_hydrator) : otsardb_lazy_hydrator :=
  let 'mkHydrator a b c d e _ g j k l m n o p q r s := h in mkHydrator a b c d e failed g j k l m n o p q r s.
Definition set_tasks (tasks : list lazy_seg_task) (next : nat) (h : otsardb_lazy_hydrator) : otsardb_lazy_hydrator :=
  let 'mkHydrator a b c d e f g _ _ l m n o p q r s := h in mkHydrator a b c d e f g tasks next l m n o p q r s.
Definition set_pool (started : bool) (workers : Z) (stop : bool) (h : otsardb_lazy_hydrator) : otsardb_lazy_hydrator :=
  let 'mkHydrator a b c d e f g j k _ _ _ o p q r s := h in mkHydrator a b c d e f g j k started workers stop o p q r s.
Definition set_streak (last streak : Z) (h : otsardb_lazy_hydrator) : otsardb_lazy_hydrator :=
  let 'mkHydrator a b c d e f g j k l m n _ _ q r s := h in mkHydrator a b c d e f g j k l m n last streak q r s.
Definition set_jobs (jobs : list lazy_prefetch_job) (h : otsardb_lazy_hydrator) : otsardb_lazy_hydrator :=
  let 'mkHydrator a b c d e f g j k l m n o p _ r s := h in mkHydrator a b c d e f g j k l m n o p jobs r s.
Definition set_stats (stats : counter -> Z) (h : otsardb_lazy_hydrator) : otsardb_lazy_hydrator :=
  let 'mkHydrator a b c d e f g j k l m n o p q _ s := h in mkHydrator a b c d e f g j k l m n o p q stats s.
Definition set_cache (cache : lazy_ram_cache) (h : otsardb_lazy_hydrator) : otsardb_lazy_hydrator :=
  let 'mkHydrator a b c d e f g j k l m n o p q r _ := h in mkHydrator a b c d e f g j k l m n o p q r cache.

Definition lazy_stats_add64 (c : counter) (value : Z) (h : otsardb_lazy_hydrator) : otsardb_lazy_hydrator :=
  set_stats (fun c' => if decide (c' = c) then u64 (lh_stats h c' + value) else lh_stats h c') h.

(** ** The bitmap: page [p] is bit [p - 1] *)

Definition bit_byte (page_no : Z) : nat := Z.to_nat (Z.shiftr (page_no - 1) 3).
Definition bit_mask (page_no : Z) : Z := Z.shiftl 1 (Z.land (page_no - 1) 7).

Definition bit_is_set (bitmap : bytes) (page_no : Z) : bool :=
  negb (Z.land (default 0 (bitmap !! bit_byte page_no)) (bit_mask page_no) =? 0).

Definition outside (h : otsardb_lazy_hydrator) (page_no : Z) : bool :=
  (page_no =? 0) || (lh_database_size_pages h <? page_no).

Definition bitmap_set (page_no : Z) (h : otsardb_lazy_hydrator) : otsardb_lazy_hydrator :=
  if outside h page_no || bit_is_set (lh_bitmap h) page_no then h
  else set_bitmap (alter (fun b => Z.lor b (bit_mask page_no)) (bit_byte page_no) (lh_bitmap h))
         (u64 (lh_marked_pages h + 1)) h.

Definition bitmap_get (h : otsardb_lazy_hydrator) (page_no : Z) : bool :=
  negb (outside h page_no) && bit_is_set (lh_bitmap h) page_no.

Definition bitmap_clear (page_no : Z) (h : otsardb_lazy_hydrator) : otsardb_lazy_hydrator :=
  if bit_is_set (lh_bitmap h) page_no
  then set_bitmap (alter (fun b => Z.ldiff b (bit_mask page_no)) (bit_byte page_no) (lh_bitmap h))
         (u64 (lh_marked_pages h - 1)) h
  else h.

Fixpoint bitmap_clear_loop (count : nat) (p : Z) (h : otsardb_lazy_hydrator) : otsardb_lazy_hydrator :=
  match count with
  | O => h
  | Datatypes.S count' => bitmap_clear_loop count' (p + 1) (bitmap_clear p h)
  end.

Definition bitmap_clear_range (first last : Z) (h : otsardb_lazy_hydrator) : otsardb_lazy_hydrator :=
  let first := if first =? 0 then 1 else first in
  let last := if lh_database_size_pages h <? last then lh_database_size_pages h else last in
  bitmap_clear_loop (Z.to_nat (last - first + 1)) first h.

(** ** Claims *)

(** The first index from [lo] on whose page is not below [page_no]; the interval
    halves, so the number of pages is enough fuel. *)
Fixpoint lower_bound (fuel : nat) (pages : list Z) (page_no : Z) (lo hi : nat) : nat :=
  match fuel with
  | O => lo
  | Datatypes.S fuel' =>
      if (hi <=? lo)%nat then lo
      else
        let mid := (lo + (hi - lo) / 2)%nat in
        if default 0 (pages !! mid) <? page_no
        then lower_bound fuel' pages page_no (Datatypes.S mid) hi
        else lower_bound fuel' pages page_no lo mid
  end.

(** The index of a page in the sorted page set of a segment. *)
Definition page_index (pages : list Z) (page_no : Z) : option nat :=
  let lo := lower_bound (length pages) pages page_no 0 (length pages) in
  if bool_decide (pages !! lo = Some page_no) then Some lo else None.

(** The segment loop; [inr] is the ordinal after the segments. *)
Fixpoint resolve_segments (segments : list otsardb_manifest_segment_ref) (page_no : Z) (ordinal : nat) : nat + nat :=
  match segments with
  | [] => inr ordinal
  | ref :: rest =>
      if sg_page_count ref =? 0 then resolve_segments rest page_no ordinal
      else match page_index (sg_pages ref) page_no with
           | Some _ => inl ordinal
           | None => resolve_segments rest page_no (Datatypes.S ordinal)
           end
  end.

Fixpoint resolve_manifests (manifests : list (otsardb_commit_manifest * enc_set)) (page_no : Z) (ordinal : nat) : option nat :=
  match manifests with
  | [] => None
  | (m, _) :: rest =>
      match resolve_segments (cm_segments m) page_no ordinal with
      | inl found => Some found
      | inr ordinal => resolve_manifests rest page_no ordinal
      end
  end.

(** The ordinal of the newest segment that claims the page. *)
Definition lazy_resolve_page (h : otsardb_lazy_hydrator) (page_no : Z) : option nat :=
  resolve_manifests (li_manifests (lh_index h)) page_no 0.

Definition lazy_covered_by_checkpoint (h : otsardb_lazy_hydrator) (page_no : Z) : bool :=
  negb (li_covered_size_pages (lh_index h) =? 0) && (page_no <=? li_covered_size_pages (lh_index h)).

(** The manifest entry of a task. *)
Definition task_segment (h : otsardb_lazy_hydrator) (task : lazy_seg_task) : option otsardb_manifest_segment_ref :=
  match li_manifests (lh_index h) !! tr_manifest_index (st_ref task) with
  | Some (m, _) => cm_segments m !! tr_segment_index (st_ref task)
  | None => None
  end.

Definition offset_task (h : otsardb_lazy_hydrator) (ordinal : nat) : bool :=
  match lh_tasks h !! ordinal with Some t => tr_has_frame_offsets (st_ref t) | None => false end.

(** ** Read-ahead jobs *)

Definition job_active (job : lazy_prefetch_job) : bool :=
  bool_decide (pj_state job = PREFETCH_PENDING) || bool_decide (pj_state job = PREFETCH_FETCHING).

Definition job_covers (ordinal : nat) (page_no : Z) (job : lazy_prefetch_job) : bool :=
  (pj_ordinal job =? ordinal)%nat && (pj_first_page job <=? page_no) && (page_no <=? pj_last_page job).

(** Dropped when the window overlaps an active job or the queue is full. *)
Definition lazy_prefetch_job_enqueue (ordinal : nat) (first_page last_page : Z) (h : otsardb_lazy_hydrator) : otsardb_lazy_hydrator :=
  if existsb (fun job => job_active job && (pj_ordinal job =? ordinal)%nat && (pj_first_page job <=? last_page) &&
                         (first_page <=? pj_last_page job)) (lh_jobs h) then h
  else if LAZY_PREFETCH_JOB_MAX <=? zlen (lh_jobs h) then h
  else set_jobs (lh_jobs h ++ [mkJob ordinal first_page last_page PREFETCH_PENDING]) h.

Definition lazy_prefetch_covers (h : otsardb_lazy_hydrator) (ordinal : nat) (page_no : Z) : bool :=
  existsb (fun job => job_active job && job_covers ordinal page_no job) (lh_jobs h).

Definition lazy_prefetch_job_done (h : otsardb_lazy_hydrator) (ordinal : nat) (page_no : Z) : bool :=
  existsb (fun job => bool_decide (pj_state job = PREFETCH_DONE) && job_covers ordinal page_no job) (lh_jobs h).

(** The page belongs to a window of the segment. *)
Definition prefetch_wanted (h : otsardb_lazy_hydrator) (ordinal : nat) (p : Z) : bool :=
  negb (bitmap_get h p || lazy_cache_contains p (lh_cache h) || negb (bool_decide (lazy_resolve_page h p = Some ordinal))).

(** The end of the run that starts at [p]. *)
Fixpoint extend_run (fuel : nat) (h : otsardb_lazy_hydrator) (ordinal : nat) (p last : Z) : Z :=
  match fuel with
  | O => p
  | Datatypes.S fuel' =>
      if (p <? last) && prefetch_wanted h ordinal (p + 1) then extend_run fuel' h ordinal (p + 1) last else p
  end.

(** The loop over the lookahead, at most 64 pages. *)
Fixpoint schedule_windows (fuel : nat) (ordinal : nat) (p last : Z) (h : otsardb_lazy_hydrator) : otsardb_lazy_hydrator :=
  match fuel with
  | O => h
  | Datatypes.S fuel' =>
      if last <? p then h
      else if negb (prefetch_wanted h ordinal p) then schedule_windows fuel' ordinal (p + 1) last h
      else
        let e := extend_run fuel h ordinal p last in
        schedule_windows fuel' ordinal (e + 1) last (lazy_prefetch_job_enqueue ordinal p e h)
  end.

Section Hydration.
Context `{HSha : Sha256} `{HLz4 : Lz4} `{HA : Aead}.
Context (getenv : bytes -> option bytes).
Context {S : Type} (store : otsardb_object_store S).
(** The bytes behind a pointer into a buffer that was freed. *)
Context (freed : bytes -> bytes).

Definition has_range_get : bool := otsardb_store_supports store OTSARDB_STORE_CAP_RANGE_GET.

Definition lazy_prefetch_schedule (page_no : Z) (h : otsardb_lazy_hydrator) : otsardb_lazy_hydrator :=
  let depth := lazy_prefetch_depth getenv in
  if (depth <=? 0) || (lh_pool_workers h =? 0) || (page_no =? UINT32_MAX) then h
  else match lazy_resolve_page h page_no with
  | None => h
  | Some ordinal =>
      if negb (offset_task h ordinal) || negb has_range_get then h
      else
        let h := lazy_stats_add64 sequential_streaks 1 h in
        let first := page_no + 1 in
        let last := if lh_database_size_pages h <? page_no + depth then lh_database_size_pages h else page_no + depth in
        if last <? first then h
        else schedule_windows (Z.to_nat (last - first + 1)) ordinal first last h
  end.

Definition lazy_note_miss (page_no : Z) (h : otsardb_lazy_hydrator) : otsardb_lazy_hydrator :=
  if page_no =? 0 then h
  else
    let streak := if negb (lh_last_miss_page h =? 0) && (page_no =? u32 (lh_last_miss_page h + 1))
                  then u32 (lh_seq_streak h + 1) else 1 in
    let h := set_streak page_no streak h in
    if LAZY_PREFETCH_MIN_STREAK <=? streak then lazy_prefetch_schedule page_no h else h.

(** ** Calls on the hydrator, the store and the files *)

Abbreviation W := (otsardb_lazy_hydrator * (S * local))%type.

Definition get_h : M W otsardb_lazy_hydrator := fun w => (fst w, w).
Definition mod_h (f : otsardb_lazy_hydrator -> otsardb_lazy_hydrator) : M W unit := fun w => (tt, (f (fst w), snd w)).
Definition in_store {A} (m : M S A) : M W A := fun w =>
  let '(a, s) := on_store m (snd w) in (a, (fst w, s)).
Definition in_files {A} (m : M local A) : M W A := fun w =>
  let '(a, s) := on_files m (snd w) in (a, (fst w, s)).

(** [fopen(path, "r+b")]: the file exists. *)
Definition fopen_existing (path : bytes) : M local bool :=
  let! ok := io_call in
  let! file := file_of path in
  return! ok && bool_decide (is_Some file).

(** One page of the image: open, seek, write, close. *)
Definition write_page_file (path : bytes) (page_size page_no : Z) (page : bytes) : M local bool :=
  let offset := page_offset page_no page_size in
  if INT64_MAX <? offset then return! false else
  let! opened := fopen_existing path in
  if negb opened then return! false else
  let! written := fwrite_at path offset (take (Z.to_nat page_size) page) in
  let! closed := io_call in
  return! written && closed.

Definition lazy_write_page_file (page_no : Z) (page : bytes) : M W bool :=
  let! h := get_h in
  in_files (write_page_file (li_path (lh_index h)) (lh_page_size h) page_no page).

Definition cache_store (page_no : Z) (page : bytes) (h : otsardb_lazy_hydrator) : otsardb_lazy_hydrator :=
  set_cache (lazy_cache_store (lh_page_size h) page_no page (lh_cache h)) h.

(** A page that was fetched on demand has been written. *)
Definition demand_written (page_no : Z) (page : bytes) (h : otsardb_lazy_hydrator) : otsardb_lazy_hydrator :=
  cache_store page_no page (lazy_note_miss page_no (lazy_stats_add64 demand_misses 1 (bitmap_set page_no h))).

(** A demand read of a page that a completed job has materialised. *)
Definition note_prefetch_hit (page_no : Z) (h : otsardb_lazy_hydrator) : otsardb_lazy_hydrator :=
  match lazy_resolve_page h page_no with
  | Some ordinal => if lazy_prefetch_job_done h ordinal page_no then lazy_stats_add64 prefetch_hits 1 h else h
  | None => h
  end.

Definition lazy_cache_resolve_page (page_no : Z) : M W bool :=
  let! h := get_h in
  if cache_off (lh_cache h) then return! false
  else
    let '(cached, cache) := lazy_cache_lookup page_no (lh_cache h) in
    let! _ := mod_h (set_cache cache) in
    match cached with
    | None => let! _ := mod_h (lazy_stats_add64 ram_misses 1) in return! false
    | Some cached =>
        let! _ := mod_h (lazy_stats_add64 ram_hits 1) in
        if bitmap_get h page_no then (let! _ := mod_h (note_prefetch_hit page_no) in return! true)
        else
          let! written := lazy_write_page_file page_no cached in
          if negb written then return! false else
          let! _ := mod_h (fun h => lazy_note_miss page_no (lazy_stats_add64 demand_misses 1 (bitmap_set page_no h))) in
          return! true
    end.

(** ** Range requests *)

(** The byte range of [len] blocks from block [k] on; [None] when it is empty or
    ends after the object. *)
Definition block_range (ref : otsardb_manifest_segment_ref) (offsets : list Z) (k len : nat) : option (Z * Z) :=
  let range_start := default 0 (offsets !! k) in
  let range_end := if (k + len <? length (sg_pages ref))%nat then default 0 (offsets !! (k + len)%nat) else sg_size ref in
  if (range_end <=? range_start) || (sg_size ref <? range_end) then None else Some (range_start, range_end).

(** The slice, which must have the length asked for. *)
Definition get_slice (key : bytes) (range_start range_end : Z) : M W (option bytes) :=
  let span := range_end - range_start in
  let! rc := in_store (otsardb_store_get_range store key range_start span) in
  return! match rc with
          | inl _ => None
          | inr slice => if zlen (so_data slice) =? span then Some (so_data slice) else None
          end.

(** The blocks of a job, from page [page_no] on: every block is decoded, and
    written when its page is still missing and still claimed by the segment. *)
Fixpoint prefetch_apply (count : nat) (ordinal : nat) (page_no : Z) (slice : bytes) (pos : Z) : M W bool :=
  match count with
  | O => return! pos =? zlen slice
  | Datatypes.S count' =>
      let! h := get_h in
      if lh_fetch_failed h then return! false
      else match otsardb_segment_frame_decode slice pos with
      | None => return! false
      | Some (frame, frame_page, pos) =>
          if negb (zlen frame =? 8 + lh_page_size h) || negb (frame_page =? page_no) then return! false
          else if bitmap_get h page_no || negb (bool_decide (lazy_resolve_page h page_no = Some ordinal))
          then prefetch_apply count' ordinal (page_no + 1) slice pos
          else
            let page := drop 8 frame in
            let! written := lazy_write_page_file page_no page in
            if negb written then return! false else
            let! _ := mod_h (fun h => cache_store page_no page
                               (lazy_stats_add64 prefetch_fetches 1 (bitmap_set page_no h))) in
            prefetch_apply count' ordinal (page_no + 1) slice pos
      end
  end.

(** The pages of the run are consecutive in the page set. *)
Definition consecutive_pages (pages : list Z) (k : nat) (first_page : Z) (len : nat) : bool :=
  forallb (fun b => bool_decide (pages !! (k + b)%nat = Some (first_page + Z.of_nat b))) (seq 0 len).

Definition lazy_prefetch_fetch_run (ordinal : nat) (first_page last_page : Z) : M W bool :=
  let! h := get_h in
  match lh_tasks h !! ordinal with
  | None => return! false
  | Some task =>
      if negb (tr_has_frame_offsets (st_ref task)) then return! false
      else match task_segment h task with
      | None => return! false
      | Some ref =>
          match sg_frame_offsets ref, page_index (sg_pages ref) first_page with
          | Some offsets, Some k =>
              let run_len := Z.to_nat (u32 (last_page - first_page + 1)) in
              if (length (sg_pages ref) <? k + run_len)%nat || negb (consecutive_pages (sg_pages ref) k first_page run_len)
              then return! false
              else match block_range ref offsets k run_len with
              | None => return! false
              | Some (range_start, range_end) =>
                  let! slice := get_slice (tr_absolute_key (st_ref task)) range_start range_end in
                  let! _ := mod_h (fun h => lazy_stats_add64 range_gets 1 (lazy_stats_add64 total_gets 1 h)) in
                  match slice with
                  | None => return! false
                  | Some slice =>
                      let! _ := mod_h (lazy_stats_add64 bytes_fetched (zlen slice)) in
                      let! _ := mod_h (fun h => if (1 <? run_len)%nat then lazy_stats_add64 coalesced_runs 1 h else h) in
                      prefetch_apply run_len ordinal first_page slice 0
                  end
              end
          | _, _ => return! false
          end
      end
  end.

(** ** Whole objects *)

Definition set_task (i : nat) (f : lazy_seg_task -> lazy_seg_task) (h : otsardb_lazy_hydrator) : otsardb_lazy_hydrator :=
  set_tasks (alter f i (lh_tasks h)) (lh_next_apply h) h.
Definition with_state (st : task_state) (t : lazy_seg_task) : lazy_seg_task := mkTask (st_ref t) st (st_verified_bytes t).
Definition with_bytes (b : option bytes) (t : lazy_seg_task) : lazy_seg_task := mkTask (st_ref t) (st_state t) b.

(** The object of a task, checked against its reference. *)
Definition lazy_task_fetch (i : nat) : M W bool :=
  let! h := get_h in
  match lh_tasks h !! i with
  | None => return! false
  | Some task =>
      let! rc := in_store (otsardb_store_get store (tr_absolute_key (st_ref task))) in
      match rc with
      | inl _ => return! false
      | inr object =>
          if (zlen (so_data object) =? tr_size (st_ref task)) &&
             bytes_eqb (otsardb_sha256_hex_data (so_data object)) (tr_sha256 (st_ref task))
          then (let! _ := mod_h (set_task i (with_bytes (Some (so_data object)))) in return! true)
          else return! false
      end
  end.

(** The entry of a segment, when its manifest encrypts it. *)
Definition lazy_segment_enc_entry (h : otsardb_lazy_hydrator) (manifest_index segment_index : nat)
  : option otsardb_segment_enc_entry :=
  match li_manifests (lh_index h) !! manifest_index with
  | Some (_, Some entries) =>
      match entries !! segment_index with
      | Some e => if ee_present e then Some e else None
      | None => None
      end
  | _ => None
  end.

Definition lazy_decrypt_envelope (h : otsardb_lazy_hydrator) (absolute_key commit_id envelope : bytes) : option bytes :=
  match li_cipher (lh_index h) with
  | None => None
  | Some key => otsardb_cipher_decrypt key envelope (segment_aad_build absolute_key commit_id)
  end.

(** The frame loop of a task, from frame [i] on; the file stays open. *)
Fixpoint apply_task_frames (count : nat) (i : Z) (batch : otsardb_wal_batch_view) (ordinal : nat) (path : bytes) : M W bool :=
  match count with
  | O => return! true
  | Datatypes.S count' =>
      match otsardb_wal_batch_frame batch i with
      | None => return! false
      | Some (page_no, page) =>
          let! h := get_h in
          if negb (bool_decide (lazy_resolve_page h page_no = Some ordinal))
          then apply_task_frames count' (i + 1) batch ordinal path
          else
            let! ok := in_files (write_page path page_no (wb_page_size batch) page) in
            if negb ok then return! false else
            let was_miss := negb (bitmap_get h page_no) in
            let! _ := mod_h (fun h => if was_miss then demand_written page_no page h else bitmap_set page_no h) in
            apply_task_frames count' (i + 1) batch ordinal path
      end
  end.

(** The segment behind the verified bytes of a task. The plaintext of an encrypted
    segment is freed before the payload that points into it is read. *)
Definition task_view (h : otsardb_lazy_hydrator) (ref : lazy_task_ref) (verified : bytes) : option otsardb_segment_view :=
  let entry := lazy_segment_enc_entry h (tr_manifest_index ref) (tr_segment_index ref) in
  let plain := match entry with
               | Some _ => lazy_decrypt_envelope h (tr_absolute_key ref) (tr_commit_id ref) verified
               | None => Some verified
               end in
  match plain with
  | None => None
  | Some plain =>
      match otsardb_segment_decode plain with
      | None => None
      | Some segment =>
          if negb ((sv_kind segment =? OTSARDB_SEGMENT_WAL_FRAMES) && bytes_eqb (sv_commit_id segment) (tr_commit_id ref))
          then None
          else Some (match entry with
                     | Some _ => mkSegmentView (sv_format_version segment) (sv_kind segment) (sv_commit_id segment)
                                   (freed (sv_payload segment)) (sv_compressed segment) (sv_payload_sha256 segment)
                     | None => segment
                     end)
      end
  end.

Definition view_batch (segment : otsardb_segment_view) (page_size : Z) : option otsardb_wal_batch_view :=
  let payload := if sv_compressed segment then otsardb_segment_decompress segment else Some (sv_payload segment) in
  match payload with
  | None => None
  | Some payload =>
      match otsardb_wal_batch_decode payload with
      | Some batch => if wb_page_size batch =? page_size then Some batch else None
      | None => None
      end
  end.

Definition lazy_task_apply (ordinal : nat) : M W bool :=
  let! h := get_h in
  match lh_tasks h !! ordinal with
  | None => return! false
  | Some task =>
      match st_verified_bytes task with
      | None => return! false
      | Some verified =>
          match task_view h (st_ref task) verified with
          | None => return! false
          | Some segment =>
              let path := li_path (lh_index h) in
              let! ok :=
                match view_batch segment (tr_page_size (st_ref task)) with
                | None => return! false
                | Some batch =>
                    let! opened := in_files (fopen_existing path) in
                    if negb opened then return! false else
                    let! ok := apply_task_frames (Z.to_nat (wb_frame_count batch)) 0 batch ordinal path in
                    let! closed := in_files io_call in
                    return! ok && closed
                end in
              let! _ := mod_h (set_task ordinal (with_bytes None)) in
              return! ok
          end
      end
  end.

(** ** Segments whose pages are not known *)

(** The frame loop: a page that is in the image is left alone. *)
Fixpoint apply_unknown_frames (count : nat) (i : Z) (batch : otsardb_wal_batch_view) (path : bytes) : M W bool :=
  match count with
  | O => return! true
  | Datatypes.S count' =>
      match otsardb_wal_batch_frame batch i with
      | None => return! false
      | Some (page_no, page) =>
          let! h := get_h in
          if bitmap_get h page_no then apply_unknown_frames count' (i + 1) batch path
          else
            let! ok := in_files (write_page path page_no (wb_page_size batch) page) in
            if negb ok then return! false else
            let! _ := mod_h (demand_written page_no page) in
            apply_unknown_frames count' (i + 1) batch path
      end
  end.

(** The batch of an unknown segment. *)
Definition unknown_batch (h : otsardb_lazy_hydrator) (u : lazy_unknown_ref) (m : otsardb_commit_manifest)
    (ref : otsardb_manifest_segment_ref) (absolute_key data : bytes) : option otsardb_wal_batch_view :=
  match segment_batch (li_cipher (lh_index h)) m ref (lazy_segment_enc_entry h (ur_manifest_index u) (ur_segment_index u))
          absolute_key data with
  | None => None
  | Some payload =>
      match otsardb_wal_batch_decode payload with
      | Some batch => if wb_page_size batch =? cm_page_size m then Some batch else None
      | None => None
      end
  end.

Definition unknown_mark_fetched (i : nat) (h : otsardb_lazy_hydrator) : otsardb_lazy_hydrator :=
  set_unknown (alter (fun u => mkUnknown (ur_manifest_index u) (ur_segment_index u) (ur_key u) (ur_sha256 u) (ur_size u) true)
                 i (lh_unknown h)) (lh_unknown_fetched h) h.

(** A reference of format 3 or later is relative to the root; an absolute key
    must fit the buffer. *)
Definition segment_absolute_key (h : otsardb_lazy_hydrator) (format_version : Z) (key : bytes) : option bytes :=
  if 3 <=? format_version then root_join (li_root (lh_index h)) key (OTSARDB_KEY_MAX + 1)
  else if OTSARDB_KEY_MAX + 1 <=? zlen key then None else Some key.

(** The loop over the unknown segments, from segment [i] on. *)
Fixpoint fetch_unknown_loop (count : nat) (i : nat) : M W bool :=
  match count with
  | O => return! true
  | Datatypes.S count' =>
      let! h := get_h in
      match lh_unknown h !! i with
      | None => return! true
      | Some u =>
          if ur_fetched u then fetch_unknown_loop count' (Datatypes.S i)
          else match li_manifests (lh_index h) !! ur_manifest_index u with
          | None => return! false
          | Some (m, _) =>
              match cm_segments m !! ur_segment_index u with
              | None => return! false
              | Some ref =>
                  match segment_absolute_key h (cm_format_version m) (sg_key ref) with
                  | None => return! false
                  | Some key =>
                      let! _ := mod_h (lazy_stats_add64 total_gets 1) in
                      let! rc := in_store (otsardb_store_get store key) in
                      match rc with
                      | inl _ => return! false
                      | inr object =>
                          let! _ := mod_h (lazy_stats_add64 bytes_fetched (zlen (so_data object))) in
                          match unknown_batch h u m ref key (so_data object) with
                          | None => return! false
                          | Some batch =>
                              let path := li_path (lh_index h) in
                              let! opened := in_files (fopen_existing path) in
                              if negb opened then return! false else
                              let! ok := apply_unknown_frames (Z.to_nat (wb_frame_count batch)) 0 batch path in
                              let! closed := in_files io_call in
                              if ok && closed then
                                (let! _ := mod_h (unknown_mark_fetched i) in fetch_unknown_loop count' (Datatypes.S i))
                              else return! false
                          end
                      end
                  end
              end
          end
      end
  end.

Definition lazy_fetch_unknown_segments : M W bool :=
  let! h := get_h in
  if lh_unknown_fetched h then return! true else
  let! ok := fetch_unknown_loop (length (lh_unknown h)) 0 in
  if negb ok then return! false else
  let! _ := mod_h (fun h => set_unknown (lh_unknown h) true h) in
  return! true.

(** ** Inline range requests *)

(** The pages of the range that are missing and owned by a segment with offsets. *)
Fixpoint collect_requests (count : nat) (page : Z) (prefetch_aware : bool) : M W (list (nat * Z)) :=
  match count with
  | O => return! []
  | Datatypes.S count' =>
      let! resolved := lazy_cache_resolve_page page in
      if resolved then collect_requests count' (page + 1) prefetch_aware else
      let! h := get_h in
      if bitmap_get h page
      then (let! _ := mod_h (note_prefetch_hit page) in collect_requests count' (page + 1) prefetch_aware)
      else match lazy_resolve_page h page with
      | None => collect_requests count' (page + 1) prefetch_aware
      | Some ordinal =>
          if negb (offset_task h ordinal) || (prefetch_aware && lazy_prefetch_covers h ordinal page)
          then collect_requests count' (page + 1) prefetch_aware
          else
            let! rest := collect_requests count' (page + 1) prefetch_aware in
            return! (ordinal, page) :: rest
      end
  end.

Record lazy_fetch_run := mkRun {
  fr_ordinal : nat;
  fr_page_idx_start : nat;
  fr_page_idx_count : nat;
  fr_covered_lo : nat;
  fr_covered_hi : nat;
  fr_range_start : Z;
  fr_range_end : Z
}.

(** The requests that follow [page_no] without a gap: their number and the rest. *)
Fixpoint span_run (ordinal : nat) (page_no : Z) (reqs : list (nat * Z)) : nat * list (nat * Z) :=
  match reqs with
  | (o, p) :: rest =>
      if (o =? ordinal)%nat && (p =? page_no + 1)
      then let '(n, rest) := span_run ordinal p rest in (Datatypes.S n, rest)
      else (0%nat, reqs)
  | [] => (0%nat, [])
  end.

Definition ordinal_segment (h : otsardb_lazy_hydrator) (ordinal : nat) : option otsardb_manifest_segment_ref :=
  match lh_tasks h !! ordinal with Some task => task_segment h task | None => None end.

(** Consecutive pages of one segment are one run of blocks. *)
Fixpoint build_runs (fuel : nat) (h : otsardb_lazy_hydrator) (reqs : list (nat * Z)) : option (list lazy_fetch_run) :=
  match fuel, reqs with
  | _, [] => Some []
  | O, _ => None
  | Datatypes.S fuel', (ordinal, page_no) :: rest =>
      match ordinal_segment h ordinal with
      | None => None
      | Some ref =>
          match sg_frame_offsets ref, page_index (sg_pages ref) page_no with
          | Some offsets, Some k =>
              let '(n, rest) := span_run ordinal page_no rest in
              let run_len := Datatypes.S n in
              if (length (sg_pages ref) <? k + run_len)%nat then None
              else match block_range ref offsets k run_len with
              | None => None
              | Some (range_start, range_end) =>
                  match build_runs fuel' h rest with
                  | None => None
                  | Some runs => Some (mkRun ordinal k run_len k (k + run_len) range_start range_end :: runs)
                  end
              end
          | _, _ => None
          end
      end
  end.

(** [a[i] = a[count - 1]; --count] *)
Definition swap_remove {A} (i : nat) (l : list A) : list A :=
  match list.last l with
  | Some x => take (pred (length l)) (<[i := x]> l)
  | None => l
  end.

(** The open run of the segment takes the next run in. *)
Definition merge_run (o run : lazy_fetch_run) : lazy_fetch_run :=
  mkRun (fr_ordinal o) (fr_page_idx_start o) (fr_page_idx_start run + fr_page_idx_count run - fr_page_idx_start o)
    (fr_covered_lo o) (fr_page_idx_start run + fr_page_idx_count run) (fr_range_start o) (fr_range_end run).

Definition merges (coalesce_max : Z) (o run : lazy_fetch_run) : bool :=
  (0 <? coalesce_max) && (fr_range_end o <=? fr_range_start run) && (fr_range_start run - fr_range_end o <=? coalesce_max).

(** One open run per segment; the others are closed, in order. *)
Fixpoint coalesce_loop (coalesce_max : Z) (runs opened closed : list lazy_fetch_run) : list lazy_fetch_run :=
  match runs with
  | [] => closed ++ opened
  | run :: rest =>
      match list_find (fun o => fr_ordinal o = fr_ordinal run) opened with
      | Some (slot, o) =>
          if merges coalesce_max o run
          then coalesce_loop coalesce_max rest (<[slot := merge_run o run]> opened) closed
          else coalesce_loop coalesce_max rest (swap_remove slot opened ++ [run]) (closed ++ [o])
      | None => coalesce_loop coalesce_max rest (opened ++ [run]) closed
      end
  end.

Definition coalesce_runs (coalesce_max : Z) (runs : list lazy_fetch_run) : list lazy_fetch_run :=
  coalesce_loop coalesce_max runs [] [].

(** The range lies in the object. *)
Definition run_in_object (h : otsardb_lazy_hydrator) (run : lazy_fetch_run) : bool :=
  (fr_range_start run <? fr_range_end run) &&
  match ordinal_segment h (fr_ordinal run) with Some ref => fr_range_end run <=? sg_size ref | None => false end.

Definition run_key (h : otsardb_lazy_hydrator) (run : lazy_fetch_run) : bytes :=
  match lh_tasks h !! fr_ordinal run with Some task => tr_absolute_key (st_ref task) | None => [] end.

(** The requests of the workers, in the order of the runs. *)
Fixpoint fetch_runs (runs : list lazy_fetch_run) : M W (list (lazy_fetch_run * option bytes)) :=
  match runs with
  | [] => return! []
  | run :: rest =>
      let! h := get_h in
      let! slice := get_slice (run_key h run) (fr_range_start run) (fr_range_end run) in
      let! slices := fetch_runs rest in
      return! (run, slice) :: slices
  end.

Definition count_run (r : lazy_fetch_run * option bytes) (h : otsardb_lazy_hydrator) : otsardb_lazy_hydrator :=
  let '(run, slice) := r in
  let h := lazy_stats_add64 range_gets 1 (lazy_stats_add64 total_gets 1 h) in
  match slice with
  | None => h
  | Some slice =>
      let h := lazy_stats_add64 bytes_fetched (zlen slice) h in
      if (1 <? fr_covered_hi run - fr_covered_lo run)%nat then lazy_stats_add64 coalesced_runs 1 h else h
  end.

(** The blocks of a slice, from page index [idx] on: every block is checked
    against the page set, and applied when it was asked for, is still missing and
    is still claimed by the segment. *)
Fixpoint apply_run (count : nat) (run : lazy_fetch_run) (pages : list Z) (idx : nat) (slice : bytes) (pos : Z) : M W bool :=
  match count with
  | O => return! pos =? zlen slice
  | Datatypes.S count' =>
      match otsardb_segment_frame_decode slice pos with
      | None => return! false
      | Some (frame, frame_page, pos) =>
          let! h := get_h in
          if negb (zlen frame =? 8 + lh_page_size h) || negb (bool_decide (pages !! idx = Some frame_page)) then return! false
          else if (fr_page_idx_start run <=? idx)%nat && (idx <? fr_page_idx_start run + fr_page_idx_count run)%nat &&
                  negb (bitmap_get h frame_page) && bool_decide (lazy_resolve_page h frame_page = Some (fr_ordinal run))
          then
            let page := drop 8 frame in
            let! written := lazy_write_page_file frame_page page in
            if negb written then return! false else
            let! _ := mod_h (demand_written frame_page page) in
            apply_run count' run pages (Datatypes.S idx) slice pos
          else apply_run count' run pages (Datatypes.S idx) slice pos
      end
  end.

Fixpoint apply_runs (slices : list (lazy_fetch_run * option bytes)) : M W bool :=
  match slices with
  | [] => return! true
  | (_, None) :: _ => return! false
  | (run, Some slice) :: rest =>
      let! h := get_h in
      match ordinal_segment h (fr_ordinal run) with
      | None => return! false
      | Some ref =>
          let! ok := apply_run (fr_covered_hi run - fr_covered_lo run) run (sg_pages ref) (fr_covered_lo run) slice 0 in
          if ok then apply_runs rest else return! false
      end
  end.

Definition lazy_hydrate_frames_inline (first_page last_page : Z) (prefetch_aware : bool) : M W bool :=
  let! h := get_h in
  if negb has_range_get || (zlen (lh_tasks h) =? 0) then return! true else
  let! reqs := collect_requests (Z.to_nat (last_page - first_page + 1)) first_page prefetch_aware in
  let! h := get_h in
  match build_runs (length reqs) h reqs with
  | None => return! false
  | Some runs =>
      let runs := coalesce_runs (lazy_coalesce_max getenv) runs in
      if negb (forallb (run_in_object h) runs)
      then (let! _ := mod_h (fun h' => foldl (fun h' run => count_run (run, if run_in_object h run then Some [] else None) h') h' runs) in return! false)
      else
        let! slices := fetch_runs runs in
        let! _ := mod_h (fun h => foldl (fun h r => count_run r h) h slices) in
        if forallb (fun r => bool_decide (is_Some (snd r))) slices then apply_runs slices else return! false
  end.

(** ** The pool *)

Context (others : M W unit) (wakeups : nat) (thread_limit : Z).

(** A thread that is not woken up again stays blocked. *)
Inductive blocked := Blocked.

Fixpoint wait_while (n : nat) (waiting : otsardb_lazy_hydrator -> bool) : M W (blocked + unit) :=
  let! h := get_h in
  if waiting h then
    match n with
    | O => return! inl Blocked
    | Datatypes.S n' => let! _ := others in wait_while n' waiting
    end
  else return! inr tt.

(** The calls that cannot block. *)
Definition lift_ok {A} (m : M W A) : M W (blocked + A) := let! a := m in return! inr a.

Definition lazy_wait_prefetch_job (ordinal : nat) (page_no generation : Z) : M W (blocked + unit) :=
  wait_while wakeups (fun h => lazy_prefetch_covers h ordinal page_no && negb (lh_fetch_failed h) &&
                               negb (lh_pool_stop h) && (generation =? lh_generation h)).

Definition task_ready (h : otsardb_lazy_hydrator) (i : nat) : bool :=
  match lh_tasks h !! i with
  | Some t => bool_decide (st_state t = TASK_FETCHED) || bool_decide (st_state t = TASK_APPLIED)
  | None => false
  end.

Definition task_unfetched (h : otsardb_lazy_hydrator) (i : nat) : bool :=
  match lh_tasks h !! i with
  | Some t => bool_decide (st_state t = TASK_IDLE) || bool_decide (st_state t = TASK_FETCHING)
  | None => false
  end.

(** A whole object has been asked for, and its bytes are verified. *)
Definition count_task (i : nat) (ok : bool) (h : otsardb_lazy_hydrator) : otsardb_lazy_hydrator :=
  let h := lazy_stats_add64 total_gets 1 h in
  if ok then
    lazy_stats_add64 bytes_fetched
      (match lh_tasks h !! i with Some t => zlen (default [] (st_verified_bytes t)) | None => 0 end) h
  else h.

Definition finish_task (i : nat) (ok : bool) (h : otsardb_lazy_hydrator) : otsardb_lazy_hydrator :=
  let h := count_task i ok h in
  if ok then set_task i (with_state TASK_FETCHED) h
  else set_failed true (set_task i (with_state TASK_FAILED) h).

Definition lazy_wait_task_fetched (i : nat) (generation : Z) (sync_mode : bool) : M W (blocked + bool) :=
  if sync_mode then
    lift_ok (let! h := get_h in
             let! ok := if task_unfetched h i then
                          let! ok := lazy_task_fetch i in
                          let! _ := mod_h (finish_task i ok) in
                          return! ok
                        else return! true in
             let! h := get_h in
             return! ok && task_ready h i)
  else
    let? _ := wait_while wakeups (fun h => negb (task_ready h i) && negb (lh_fetch_failed h) &&
                                           negb (lh_pool_stop h) && (generation =? lh_generation h)) in
    lift_ok (let! h := get_h in
             return! negb (lh_fetch_failed h) && (generation =? lh_generation h) && negb (lh_pool_stop h) && task_ready h i).

Definition lazy_pool_start (h : otsardb_lazy_hydrator) : otsardb_lazy_hydrator :=
  let workers := if zlen (lh_tasks h) <? 2 then 1 else lazy_pool_parallelism getenv in
  set_pool true (lh_pool_workers h + Z.max 0 (Z.min workers thread_limit)) (lh_pool_stop h) h.

(** What a worker picks, in one section of the mutex: a job, then a task. *)
Inductive claim := ClaimStop | ClaimJob (i : nat) (job : lazy_prefetch_job) | ClaimTask (i : nat) | ClaimNothing.

Definition set_job (i : nat) (st : job_state) (h : otsardb_lazy_hydrator) : otsardb_lazy_hydrator :=
  set_jobs (alter (fun j => mkJob (pj_ordinal j) (pj_first_page j) (pj_last_page j) st) i (lh_jobs h)) h.

Definition worker_claim : M W claim :=
  let! h := get_h in
  if lh_pool_stop h || lh_fetch_failed h then return! ClaimStop
  else match list_find (fun j => pj_state j = PREFETCH_PENDING) (lh_jobs h) with
  | Some (i, job) => let! _ := mod_h (set_job i PREFETCH_FETCHING) in return! ClaimJob i job
  | None =>
      match list_find (fun t => st_state t = TASK_IDLE /\ tr_has_frame_offsets (st_ref t) = false) (lh_tasks h) with
      | Some (i, _) => let! _ := mod_h (set_task i (with_state TASK_FETCHING)) in return! ClaimTask i
      | None => return! ClaimNothing
      end
  end.

(** The work of a claim and the section that records its end. *)
Definition worker_run (c : claim) : M W unit :=
  match c with
  | ClaimJob i job =>
      let! ok := lazy_prefetch_fetch_run (pj_ordinal job) (pj_first_page job) (pj_last_page job) in
      mod_h (set_job i (if ok then PREFETCH_DONE else PREFETCH_DROPPED))
  | ClaimTask i =>
      let! ok := lazy_task_fetch i in
      mod_h (finish_task i ok)
  | ClaimStop | ClaimNothing => return! tt
  end.

(** The rounds of a worker, until it stops or sleeps. *)
Fixpoint lazy_pool_worker_main (rounds : nat) : M W unit :=
  match rounds with
  | O => return! tt
  | Datatypes.S rounds' =>
      let! c := worker_claim in
      match c with
      | ClaimStop | ClaimNothing => return! tt
      | _ => let! _ := worker_run c in lazy_pool_worker_main rounds'
      end
  end.

(** ** Demand *)

(** The tasks up to [ordinal] are applied in order; [fuel] is their number. *)
Fixpoint apply_tasks (fuel : nat) (ordinal : nat) (generation : Z) (sync_mode : bool) : M W (blocked + bool) :=
  match fuel with
  | O => return! inr true
  | Datatypes.S fuel' =>
      let? h := lift_ok get_h in
      let i := lh_next_apply h in
      if (ordinal <? i)%nat then return! inr true
      else
        let next := mod_h (fun h => set_tasks (lh_tasks h) (Datatypes.S (lh_next_apply h)) h) in
        if offset_task h i then
          let? _ := lift_ok next in apply_tasks fuel' ordinal generation sync_mode
        else
          let? ok := if task_unfetched h i then lazy_wait_task_fetched i generation sync_mode else return! inr true in
          if negb ok then return! inr false else
          let? h := lift_ok get_h in
          match lh_tasks h !! i with
          | None => return! inr false
          | Some t =>
              match st_state t with
              | TASK_FAILED => return! inr false
              | TASK_FETCHED =>
                  let? ok := lift_ok (lazy_task_apply i) in
                  if negb ok then return! inr false else
                  let? _ := lift_ok (mod_h (set_task i (with_state TASK_APPLIED))) in
                  let? _ := lift_ok next in apply_tasks fuel' ordinal generation sync_mode
              | _ => let? _ := lift_ok next in apply_tasks fuel' ordinal generation sync_mode
              end
          end
  end.

(** A page that a segment with offsets claims is being fetched by a job, or the
    read fails. *)
Definition await_prefetched (ordinal : nat) (page generation : Z) : M W (blocked + bool) :=
  let? h := lift_ok get_h in
  let? _ := if lazy_prefetch_covers h ordinal page then lazy_wait_prefetch_job ordinal page generation
            else return! inr tt in
  let? h := lift_ok get_h in
  if bitmap_get h page then
    lift_ok (let! _ := mod_h (fun h => if lazy_prefetch_job_done h ordinal page
                                       then lazy_stats_add64 prefetch_hits 1 h else h) in return! true)
  else if lazy_prefetch_covers h ordinal page then
    lift_ok (let! ok := lazy_hydrate_frames_inline page page false in
             let! h := get_h in
             return! ok && bitmap_get h page)
  else return! inr false.

(** One page of the demand loop: [true] goes on to the next page. *)
Definition hydrate_page (page generation : Z) (sync_mode : bool) : M W (blocked + bool) :=
  let? cached := lift_ok (if has_range_get then return! false else lazy_cache_resolve_page page) in
  if cached : bool then return! inr true else
  let? h := lift_ok get_h in
  if bitmap_get h page then return! inr true else
  let claimed (ordinal : nat) :=
    let? h := lift_ok get_h in
    if offset_task h ordinal then await_prefetched ordinal page generation
    else
      let? ok := lazy_wait_task_fetched ordinal generation sync_mode in
      if negb ok then return! inr false
      else apply_tasks (Datatypes.S ordinal) ordinal generation sync_mode in
  match lazy_resolve_page h page with
  | Some ordinal => claimed ordinal
  | None =>
      let? ok := lift_ok lazy_fetch_unknown_segments in
      if negb ok then return! inr false else
      let? h := lift_ok get_h in
      if bitmap_get h page then return! inr true
      else match lazy_resolve_page h page with
      | Some ordinal => claimed ordinal
      | None =>
          if lazy_covered_by_checkpoint h page then
            lift_ok (let! _ := mod_h (fun h => lazy_note_miss page (lazy_stats_add64 demand_misses 1 (bitmap_set page h))) in
                     return! true)
          else return! inr false
      end
  end.

Fixpoint hydrate_loop (count : nat) (page generation : Z) (sync_mode : bool) : M W (blocked + bool) :=
  match count with
  | O => return! inr true
  | Datatypes.S count' =>
      let? ok := hydrate_page page generation sync_mode in
      if ok : bool then hydrate_loop count' (page + 1) generation sync_mode else return! inr false
  end.

Definition otsardb_lazy_hydrate_range (first_page last_page : Z) : M W (blocked + bool) :=
  let first_page := if first_page =? 0 then 1 else first_page in
  if last_page <? first_page then return! inr true else
  let? h := lift_ok get_h in
  if lh_fetch_failed h || (UINT32_MAX <=? lh_database_size_pages h) then return! inr false
  else
    let last_page := if lh_database_size_pages h <? last_page then lh_database_size_pages h else last_page in
    let? _ := lift_ok (mod_h (fun h => if negb (lh_pool_started h) && (0 <? zlen (lh_tasks h)) then lazy_pool_start h else h)) in
    let? h := lift_ok get_h in
    let sync_mode := lh_pool_workers h =? 0 in
    let generation := lh_generation h in
    let? ok := lift_ok (lazy_hydrate_frames_inline first_page last_page true) in
    let? ok := if ok : bool then hydrate_loop (Z.to_nat (last_page - first_page + 1)) first_page generation sync_mode
               else return! inr false in
    let? _ := lift_ok (mod_h (fun h => if ok : bool then h else set_failed true h)) in
    return! inr ok.

Definition otsardb_lazy_hydrate_bytes (offset amount : Z) : M W (blocked + bool) :=
  let? h := lift_ok get_h in
  let ps := lh_page_size h in
  if (amount <=? 0) || (offset <? 0) || (ps =? 0) then return! inr false
  else
    let start_page := offset / ps + 1 in
    let end_page := u64 (offset + amount - 1) / ps + 1 in
    let end_page := if UINT32_MAX <? end_page then UINT32_MAX else end_page in
    otsardb_lazy_hydrate_range (u32 start_page) end_page.
End Hydration.

(** ** Completeness and session writes *)

Definition otsardb_lazy_is_complete (h : otsardb_lazy_hydrator) : bool :=
  lh_database_size_pages h <=? u64 (lh_marked_pages h + li_base_complete_pages (lh_index h)).

(** SQLite wrote the page. *)
Definition mark_page (p : Z) (h : otsardb_lazy_hydrator) : otsardb_lazy_hydrator :=
  let h := bitmap_set p h in
  set_cache (lazy_cache_remove (lh_page_size h) p (lh_cache h)) h.

(** The loop compares 32-bit page numbers: with [last] the largest of them it
    starts again at 0. [None]: more than [fuel] rounds. *)
Fixpoint mark_loop (fuel : nat) (p last : Z) (h : otsardb_lazy_hydrator) : option otsardb_lazy_hydrator :=
  if last <? p then Some h
  else match fuel with
  | O => None
  | Datatypes.S fuel' => mark_loop fuel' (u32 (p + 1)) last (mark_page p h)
  end.

Definition otsardb_lazy_mark_range (fuel : nat) (first_page last_page : Z) (h : otsardb_lazy_hydrator) : option otsardb_lazy_hydrator :=
  mark_loop fuel (if first_page =? 0 then 1 else first_page) last_page h.

Definition otsardb_lazy_mark_bytes (fuel : nat) (offset amount : Z) (h : otsardb_lazy_hydrator) : option otsardb_lazy_hydrator :=
  let ps := lh_page_size h in
  if (amount <=? 0) || (offset <? 0) || (ps =? 0) then Some h
  else
    let start_page := offset / ps + 1 in
    let end_page := u64 (offset + amount - 1) / ps + 1 in
    let end_page := if UINT32_MAX <? end_page then UINT32_MAX else end_page in
    otsardb_lazy_mark_range fuel (u32 start_page) end_page h.

Definition otsardb_lazy_mark_all (h : otsardb_lazy_hydrator) : otsardb_lazy_hydrator :=
  let h := if zlen (lh_bitmap h) =? 0 then h
           else set_bitmap ((fun _ => 255) <$> lh_bitmap h) (lh_database_size_pages h) h in
  set_cache (lazy_cache_clear (lh_cache h)) h.

Definition otsardb_lazy_clear_beyond (page_count : Z) (h : otsardb_lazy_hydrator) : otsardb_lazy_hydrator :=
  if page_count <? lh_database_size_pages h
  then bitmap_clear_range (page_count + 1) (lh_database_size_pages h) h else h.

Definition otsardb_lazy_clear_beyond_bytes (file_bytes : Z) (h : otsardb_lazy_hydrator) : otsardb_lazy_hydrator :=
  if (file_bytes <? 0) || (lh_page_size h =? 0) then h
  else
    let pages := file_bytes / lh_page_size h in
    otsardb_lazy_clear_beyond (if UINT32_MAX <? pages then UINT32_MAX else pages) h.
