(* ===== verification/LazyRestore.v ===== *)
(** * Opening a lazy session (lazy_hydration.c)

    The manifests of the chain are collected by one of three routes: guessed keys
    of a single write-ahead log, the listing of the commits, or the sequential
    walk of recovery. From them the hydrator gets its fetch tasks, the number of
    pages the checkpoint base completes, and an image of the head size. The
    requests that the code sends in parallel windows are made in order. *)

From S2P Require Import Prelude CText JsonText ObjectStore Journal Codec WalBatch Sha256 Segment.
From S2P Require Import Checksum CheckpointPage DbMetadata CommitManifest CommitPublish.
From S2P Require Import CheckpointManifest Cipher LocalFile Recovery WalPublisher LazyCache LazyHydration.

Definition LAZY_PARALLEL_CHAIN_MAX : Z := 16384.
Definition LAZY_PARALLEL_CHAIN_WINDOW : nat := 16.
Definition LAZY_LIST_MAX : Z := 1000000.

(** ** The visitor of the chain *)

(** What the walk has collected: the manifests, newest first, and the segments
    whose page set is not known. *)
Record lazy_collect := mkCollect {
  lc_manifests : list (otsardb_commit_manifest * enc_set);
  lc_unknown : list lazy_unknown_ref
}.

Definition set_segments (segments : list otsardb_manifest_segment_ref) (m : otsardb_commit_manifest) : otsardb_commit_manifest :=
  mkManifest (cm_format_version m) (cm_generation m) (cm_parent_generation m) (cm_page_size m) (cm_database_size_pages m)
    (cm_database_id m) (cm_commit_id m) (cm_parent_commit_id m) (cm_parent_manifest_sha256 m) segments (cm_post_apply_checksum m).

(** The base image covers the segment: its page set is dropped. *)
Definition drop_pages (ref : otsardb_manifest_segment_ref) : otsardb_manifest_segment_ref :=
  mkSegmentRef (sg_key ref) (sg_sha256 ref) (sg_size ref) [] None.

Definition unknown_refs (manifest_index : nat) (segments : list otsardb_manifest_segment_ref) : list lazy_unknown_ref :=
  omap (fun ir => let '(i, ref) := ir in
                  if sg_page_count ref =? 0
                  then Some (mkUnknown manifest_index i (sg_key ref) (sg_sha256 ref) (sg_size ref) false) else None)
    (zip (seq 0 (length segments)) segments).

Definition lazy_chain_visitor (covered_generation : Z) (m : otsardb_commit_manifest) (enc : enc_set) (c : lazy_collect) : lazy_collect :=
  let covered := negb (covered_generation =? 0) && (cm_generation m <=? covered_generation) in
  if covered : bool
  then mkCollect (lc_manifests c ++ [(set_segments (drop_pages <$> cm_segments m) m, enc)]) (lc_unknown c)
  else mkCollect (lc_manifests c ++ [(m, enc)]) (lc_unknown c ++ unknown_refs (length (lc_manifests c)) (cm_segments m)).

Definition visit_all (covered_generation : Z) (chain : list (otsardb_commit_manifest * enc_set)) (c : lazy_collect) : lazy_collect :=
  foldl (fun c me => lazy_chain_visitor covered_generation (fst me) (snd me) c) c chain.

(** ** Sorting the listed keys *)

(** [strcmp(a, b) <= 0] *)
Fixpoint bytes_leb (a b : bytes) : bool :=
  match a, b with
  | [], _ => true
  | _ :: _, [] => false
  | x :: a', y :: b' => if x =? y then bytes_leb a' b' else x <? y
  end.

Section Sort.
Context {A : Type} (leb : A -> A -> bool).

(** The merge of two runs; ties take the left one. *)
Fixpoint merge_runs (fuel : nat) (a b : list A) : list A :=
  match fuel, a, b with
  | O, _, _ => a ++ b
  | _, [], _ => b
  | _, _, [] => a
  | S fuel', x :: a', y :: b' =>
      if leb x y then x :: merge_runs fuel' a' b else y :: merge_runs fuel' a b'
  end.

(** One pass over the runs of [width] elements. *)
Fixpoint merge_pass (fuel width : nat) (l : list A) : list A :=
  match fuel with
  | O => l
  | S fuel' =>
      if (length l <=? width)%nat then l
      else
        let a := take width l in
        let b := take width (drop width l) in
        merge_runs (length a + length b) a b ++ merge_pass fuel' width (drop (width + width) l)
  end.

(** The width doubles until it reaches the length. *)
Fixpoint sort_loop (fuel width : nat) (l : list A) : list A :=
  match fuel with
  | O => l
  | S fuel' => if (width <? length l)%nat then sort_loop fuel' (width + width) (merge_pass (length l) width l) else l
  end.

Definition lazy_list_sort (l : list A) : list A :=
  if (length l <? 2)%nat then l else sort_loop (length l) 1 l.
End Sort.

(** ** Manifests fetched ahead *)

Record lazy_chain_slot := mkSlot {
  cs_key : bytes;
  cs_manifest : otsardb_commit_manifest;
  cs_enc : enc_set;
  cs_sha256 : bytes
}.

(** The index of the first key from [lo] on that is not below [key]. *)
Fixpoint key_lower_bound (fuel : nat) (slots : list lazy_chain_slot) (key : bytes) (lo hi : nat) : nat :=
  match fuel with
  | O => lo
  | S fuel' =>
      if (hi <=? lo)%nat then lo
      else
        let mid := (lo + (hi - lo) / 2)%nat in
        match slots !! mid with
        | Some slot => if negb (bytes_leb key (cs_key slot)) then key_lower_bound fuel' slots key (S mid) hi
                       else key_lower_bound fuel' slots key lo mid
        | None => lo
        end
  end.

Definition find_slot (slots : list lazy_chain_slot) (key : bytes) : option lazy_chain_slot :=
  match slots !! key_lower_bound (length slots) slots key 0 (length slots) with
  | Some slot => if bytes_eqb (cs_key slot) key then Some slot else None
  | None => None
  end.

(** The chain from [pos] on, through the sorted slots, newest first; each round
    lowers the generation. *)
Fixpoint list_chain_loop (fuel : nat) (root : bytes) (metadata : otsardb_db_metadata) (slots : list lazy_chain_slot)
    (pos : chain_pos) : option (list lazy_chain_slot) :=
  match fuel with
  | O => if cp_generation pos <=? 0 then Some [] else None
  | S fuel' =>
      if cp_generation pos <=? 0 then Some []
      else match find_slot slots (cp_key pos) with
      | None => None
      | Some slot =>
          let m := cs_manifest slot in
          if negb (bytes_eqb (cs_sha256 slot) (cp_sha pos)) || negb (link_ok metadata pos m) then None
          else if cm_parent_generation m =? 0 then (if genesis_ok m then Some [slot] else None)
          else match parent_link root m with
          | None => None
          | Some next =>
              match list_chain_loop fuel' root metadata slots next with
              | Some rest => Some (slot :: rest)
              | None => None
              end
          end
      end
  end.

Section Restore.
Context `{HSha : Sha256} `{HLz4 : Lz4} `{HA : Aead}.
Context (getenv : bytes -> option bytes).
Context {S : Type} (store : otsardb_object_store S).
Abbreviation St := (S * local)%type.

(** One worker: the manifest under a key, not yet checked against anything. *)
Definition lazy_chain_worker (key : bytes) : M S (option lazy_chain_slot) :=
  let! rc := otsardb_store_get store key in
  return! match rc with
          | inl _ => None
          | inr object =>
              match otsardb_commit_manifest_decode_json (so_data object), otsardb_segment_enc_parse_json (so_data object) with
              | Some m, Some enc => Some (mkSlot key m enc (otsardb_sha256_hex_data (so_data object)))
              | _, _ => None
              end
          end.

Fixpoint fetch_window (keys : list bytes) : M S (list (option lazy_chain_slot)) :=
  match keys with
  | [] => return! []
  | key :: rest =>
      let! slot := lazy_chain_worker key in
      let! slots := fetch_window rest in
      return! slot :: slots
  end.

(** A window with a failure is the last one. *)
Fixpoint fetch_windows (fuel : nat) (keys : list bytes) : M S (option (list lazy_chain_slot)) :=
  match fuel, keys with
  | _, [] => return! Some []
  | O, _ => return! None
  | Datatypes.S fuel', _ =>
      let! window := fetch_window (take LAZY_PARALLEL_CHAIN_WINDOW keys) in
      match mapM id window with
      | None => return! None
      | Some slots =>
          let! rest := fetch_windows fuel' (drop LAZY_PARALLEL_CHAIN_WINDOW keys) in
          return! match rest with Some rest => Some (slots ++ rest) | None => None end
      end
  end.

(** ** Guessed keys *)

(** [sscanf(commit_id, "w%8x%8x-%8x%c")] with three conversions. *)
Definition parse_wal_commit_id (commit_id : bytes) : option (Z * Z * Z) :=
  match scan_literal 119 commit_id with
  | None => None
  | Some t =>
      match scan_hex8 t with
      | None => None
      | Some (salt1, t) =>
          match scan_hex8 t with
          | None => None
          | Some (salt2, t) =>
              match scan_literal 45 t with
              | None => None
              | Some t => match scan_hex8 t with Some (index, []) => Some (salt1, salt2, index) | _ => None end
              end
          end
      end
  end.

(** [%s/commits/w%08x%08x-%08x.json] *)
Definition wal_manifest_key (root : bytes) (salt1 salt2 k : Z) : bytes :=
  root ++ str "/commits/" ++ wal_commit_id salt1 salt2 k ++ str ".json".

(** The checks on slot [k] but those on its parent. *)
Definition wal_slot_ok (metadata : otsardb_db_metadata) (salt1 salt2 k : Z) (m : otsardb_commit_manifest) : bool :=
  (cm_generation m =? k) && bytes_eqb (cm_commit_id m) (wal_commit_id salt1 salt2 k) &&
  (u64 (cm_parent_generation m + 1) =? cm_generation m) &&
  bytes_eqb (cm_database_id m) (md_database_id metadata) && (cm_page_size m =? md_page_size metadata).

(** The validation loop, from slot [k] on; the first slot leaves it. *)
Fixpoint validate_slots (metadata : otsardb_db_metadata) (salt1 salt2 k : Z) (slots : list lazy_chain_slot) : bool :=
  match slots with
  | [] => true
  | slot :: rest =>
      let m := cs_manifest slot in
      if negb (wal_slot_ok metadata salt1 salt2 k m) then false
      else if k =? 1 then (zlen (cm_parent_commit_id m) =? 0) && (zlen (cm_parent_manifest_sha256 m) =? 0)
      else if negb (bytes_eqb (cm_parent_commit_id m) (wal_commit_id salt1 salt2 (k - 1))) then false
      else validate_slots metadata salt1 salt2 (k + 1) rest
  end.

(** The hash links, newest first: [expected] is the digest the newer one names. *)
Fixpoint hash_links_ok (expected : bytes) (slots : list lazy_chain_slot) : bool :=
  match slots with
  | [] => true
  | slot :: rest =>
      bytes_eqb (cs_sha256 slot) expected &&
      match rest with
      | [] => true
      | _ => (2 <=? cm_format_version (cs_manifest slot)) &&
             (zlen (cm_parent_manifest_sha256 (cs_manifest slot)) =? OTSARDB_MANIFEST_SHA256_HEX_SIZE) &&
             hash_links_ok (cm_parent_manifest_sha256 (cs_manifest slot)) rest
      end
  end.

(** The manifests, newest first, when the fast path replaces the walk. *)
Definition lazy_try_parallel_chain (root : bytes) (metadata : otsardb_db_metadata) (head : otsardb_head)
  : M S (option (list lazy_chain_slot)) :=
  match parse_wal_commit_id (hd_commit_id head) with
  | None => return! None
  | Some (salt1, salt2, head_index) =>
      let count := hd_generation head in
      if (count =? 0) || (LAZY_PARALLEL_CHAIN_MAX <? count) || negb (head_index =? u32 count) then return! None
      else
        let keys := (fun k => wal_manifest_key root salt1 salt2 (Z.of_nat k)) <$> seq 1 (Z.to_nat count) in
        if existsb (fun key => OTSARDB_KEY_MAX + 1 <=? zlen key) keys then return! None else
        let! slots := fetch_windows (length keys) keys in
        return! match slots with
                | None => None
                | Some slots =>
                    if validate_slots metadata salt1 salt2 1 slots && hash_links_ok (hd_commit_sha256 head) (reverse slots)
                    then Some (reverse slots) else None
                end
  end.

(** ** Listed keys *)

Definition lazy_try_list_chain (root : bytes) (metadata : otsardb_db_metadata) (head : otsardb_head)
  : M S (option (list lazy_chain_slot)) :=
  let list_prefix := root ++ str "/commits/" in
  if OTSARDB_KEY_MAX + 1 <=? zlen list_prefix then return! None else
  let! rc := otsardb_store_list store list_prefix in
  match rc with
  | inl _ => return! None
  | inr listed =>
      let names := filter (fun k => k <> []) listed in
      if (LAZY_LIST_MAX <? zlen names) || (zlen names =? 0) then return! None
      else
        let keys := (fun name => list_prefix ++ name) <$> names in
        if existsb (fun key => OTSARDB_KEY_MAX + 1 <=? zlen key) keys then return! None else
        let! slots := fetch_windows (length keys) keys in
        return! match slots with
                | None => None
                | Some slots =>
                    let sorted := lazy_list_sort (fun a b => bytes_leb (cs_key a) (cs_key b)) slots in
                    match list_chain_loop (Z.to_nat (hd_generation head)) root metadata sorted (head_pos head) with
                    | Some chain => if zlen chain =? hd_generation head then Some chain else None
                    | None => None
                    end
                end
  end.

(** ** The sequential walk *)

(** A store seen by a computation that also carries what it has collected. *)
Definition beside {C A} (m : M S A) : M (C * S) A := fun cs => let '(a, s) := m (snd cs) in (a, (fst cs, s)).

Definition beside_store (C : Type) : otsardb_object_store (C * S) :=
  mkStore ((fun f key => beside (f key)) <$> ops_get store)
    ((fun f key offset len => beside (f key offset len)) <$> ops_get_range store)
    ((fun f key data o => beside (f key data o)) <$> ops_put store)
    ((fun f key source n o => beside (f key source n o)) <$> ops_put_stream store)
    ((fun f key => beside (f key)) <$> ops_delete_object store)
    ((fun f prefix => beside (f prefix)) <$> ops_list store) (capabilities store).

Definition walk_collect (root : bytes) (metadata : otsardb_db_metadata) (head : otsardb_head) (covered_generation : Z)
    (c : lazy_collect) : M S (option lazy_collect) := fun s =>
  let visitor (_ : chain_pos) m enc : M (lazy_collect * S) bool :=
    fun cs => (true, (lazy_chain_visitor covered_generation m enc (fst cs), snd cs)) in
  let '(ok, (c, s)) := otsardb_recovery_walk_chain (beside_store lazy_collect) visitor root metadata head covered_generation (c, s) in
  (if ok && negb (zlen (lc_manifests c) =? 0) then Some c else None, s).

(** The three routes, in order; a route that gives up leaves nothing behind. *)
Definition collect_chain (root : bytes) (metadata : otsardb_db_metadata) (head : otsardb_head) (covered_generation : Z)
  : M S (option lazy_collect) :=
  let empty := mkCollect [] [] in
  let feed slots := Some (visit_all covered_generation ((fun sl => (cs_manifest sl, cs_enc sl)) <$> slots) empty) in
  let parallel_ok := match getenv (str "OTSARDB_LAZY_CHAIN_PARALLEL") with
                     | Some v => negb (bytes_eqb v (str "0"))
                     | None => true
                     end in
  let! guessed := if (covered_generation =? 0) && parallel_ok
                  then lazy_try_parallel_chain root metadata head else return! None in
  match guessed with
  | Some slots => return! feed slots
  | None =>
      let! listed := if parallel_ok then lazy_try_list_chain root metadata head else return! None in
      match listed with
      | Some slots => return! feed slots
      | None => walk_collect root metadata head covered_generation empty
      end
  end.

(** ** Tasks *)

(** The tasks of one manifest, from segment [s] on. *)
Fixpoint manifest_tasks (h : otsardb_lazy_hydrator) (m : otsardb_commit_manifest) (enc : enc_set) (mi s : nat)
    (segments : list otsardb_manifest_segment_ref) : list lazy_seg_task :=
  match segments with
  | [] => []
  | ref :: rest =>
      let tasks := manifest_tasks h m enc mi (Datatypes.S s) rest in
      if sg_page_count ref =? 0 then tasks
      else
        let encrypted := match enc with
                         | Some entries => match entries !! s with Some e => ee_present e | None => false end
                         | None => false
                         end in
        let offsets := negb encrypted && bool_decide (is_Some (sg_frame_offsets ref)) && has_range_get store in
        mkTask (mkTaskRef (cm_format_version m) (snprintf_s (OTSARDB_MANIFEST_ID_MAX + 1) (cm_commit_id m))
                  (default [] (segment_absolute_key h (cm_format_version m) (sg_key ref)))
                  (snprintf_s (OTSARDB_MANIFEST_SHA256_HEX_SIZE + 1) (sg_sha256 ref)) (sg_size ref) (cm_page_size m) mi s offsets)
          TASK_IDLE None :: tasks
  end.

Fixpoint all_tasks (h : otsardb_lazy_hydrator) (mi : nat) (manifests : list (otsardb_commit_manifest * enc_set)) : list lazy_seg_task :=
  match manifests with
  | [] => []
  | (m, enc) :: rest => manifest_tasks h m enc mi 0 (cm_segments m) ++ all_tasks h (Datatypes.S mi) rest
  end.

Definition lazy_build_tasks (h : otsardb_lazy_hydrator) : otsardb_lazy_hydrator :=
  set_tasks (all_tasks h 0 (li_manifests (lh_index h))) (lh_next_apply h) h.

(** ** Pages the base completes *)

(** The smallest page at the heads of the page sets. *)
Definition min_head (sets : list (list Z)) : option Z :=
  foldl (fun best l => match l, best with
                       | v :: _, Some b => if v <? b then Some v else Some b
                       | v :: _, None => Some v
                       | [], _ => best
                       end) None sets.

(** Every cursor on the page moves on. *)
Definition advance (best : Z) (sets : list (list Z)) : list (list Z) :=
  (fun l => match l with v :: r => if v =? best then r else l | [] => [] end) <$> sets.

(** The merge: each page that is emitted is larger than the one before. Every
    round takes a page off a set. *)
Fixpoint count_claimed (fuel : nat) (limit previous claimed : Z) (sets : list (list Z)) : Z :=
  match fuel with
  | O => claimed
  | Datatypes.S fuel' =>
      match min_head sets with
      | None => claimed
      | Some best =>
          if limit <? best then claimed
          else count_claimed fuel' limit (Z.max previous best) (if previous <? best then claimed + 1 else claimed)
                 (advance best sets)
      end
  end.

Definition task_pages (h : otsardb_lazy_hydrator) : list (list Z) :=
  (fun t => match task_segment h t with Some ref => sg_pages ref | None => [] end) <$> lh_tasks h.

Definition lazy_count_covered_unclaimed (h : otsardb_lazy_hydrator) (limit : Z) : Z :=
  if (zlen (lh_tasks h) =? 0) || (limit =? 0) then limit
  else limit - count_claimed (sum_list (length <$> task_pages h)) limit 0 0 (task_pages h).

(** ** The image *)

Definition lazy_truncate_file (path : bytes) (size : Z) : M local bool :=
  if INT64_MAX <? size then return! false else
  let! opened := fopen_update path in
  if negb opened then return! false else
  let! ok := ftruncate path size in
  let! closed := io_call in
  return! ok && closed.

(** ** Restore *)

Definition no_index : lazy_index := mkIndex [] [] None 0 0 0 0 [].

(** The zeroed state of a fresh hydrator. *)
Definition fresh_hydrator : otsardb_lazy_hydrator :=
  mkHydrator no_index [] false [] 0 false 0 [] 0 false 0 false 0 0 [] (fun _ => 0) zero_cache.

(** What survives a rebuild: the generation, the worker count and the counters. *)
Definition lazy_release_state (h : otsardb_lazy_hydrator) : otsardb_lazy_hydrator :=
  mkHydrator (mkIndex (li_root (lh_index h)) (li_path (lh_index h)) (li_cipher (lh_index h)) 0 0 0 0 []) [] false [] 0 false
    (lh_generation h) [] 0 false (lh_pool_workers h) false 0 0 [] (lh_stats h) zero_cache.

(** The workers are joined. *)
Definition lazy_pool_shutdown (h : otsardb_lazy_hydrator) : otsardb_lazy_hydrator :=
  if negb (lh_pool_started h) || (lh_pool_workers h =? 0)
  then set_pool (lh_pool_started h) (lh_pool_workers h) true h
  else set_pool false 0 true h.

(** The checkpoint base, best effort: the generation it covers and its size. *)
Definition restore_base (root path : bytes) (metadata : otsardb_db_metadata) (head : otsardb_head) : M St (Z * Z) :=
  let! (rc, r) := on_store (otsardb_checkpoint_ptr_read store root) in
  match rc, r with
  | OTSARDB_CHECKPOINT_PTR_OK, Some (ptr, _) =>
      if negb ((0 <? pt_covered_generation ptr) && (pt_covered_generation ptr <=? hd_generation head) &&
               negb (zlen (pt_checkpoint_key ptr) =? 0)) then return! (0, 0)
      else
        let! rc := on_store (otsardb_store_get store (pt_checkpoint_key ptr)) in
        match rc with
        | inl _ => return! (0, 0)
        | inr object =>
            if negb (bytes_eqb (otsardb_sha256_hex_data (so_data object)) (pt_checkpoint_sha256 ptr)) then return! (0, 0)
            else match otsardb_checkpoint_manifest_decode (so_data object) with
            | None => return! (0, 0)
            | Some cp =>
                if bytes_eqb (ck_database_id cp) (md_database_id metadata) && (ck_page_size cp =? md_page_size metadata) &&
                   (0 <? ck_database_size_pages cp) then
                  let! ok := otsardb_recovery_apply_checkpoint_pages store root cp path in
                  return! if ok : bool then (ck_covered_generation cp, ck_database_size_pages cp) else (0, 0)
                else return! (0, 0)
            end
        end
  | _, _ => return! (0, 0)
  end.

(** Steps 5 and 6: the index, the cache, the bitmap, the tasks and the image. *)
Definition restore_index (root path : bytes) (cipher : option bytes) (covered_size : Z) (c : lazy_collect)
    (h : otsardb_lazy_hydrator) : M St (option otsardb_lazy_hydrator) :=
  match lc_manifests c with
  | [] => return! None
  | (m, _) :: _ =>
      let size := cm_database_size_pages m in
      let ps := cm_page_size m in
      if (size =? 0) || (UINT32_MAX <=? size) then return! None
      else
        let h := set_index (mkIndex root path cipher ps size covered_size 0 (lc_manifests c)) h in
        let h := set_unknown (lc_unknown c) false h in
        let h := set_cache (lazy_cache_init getenv ps (lh_cache h)) h in
        let h := set_bitmap (replicate (Z.to_nat ((size + 7) / 8)) 0) 0 h in
        let h := lazy_build_tasks h in
        let limit := if size <? covered_size then size else covered_size in
        let base := if limit =? 0 then 0 else lazy_count_covered_unclaimed h limit in
        let h := set_index (mkIndex root path cipher ps size covered_size base (lc_manifests c)) h in
        let file_bytes := u64 (size * ps) in
        if file_bytes =? 0 then return! None else
        let! ok := on_files (lazy_truncate_file path file_bytes) in
        return! if ok : bool then Some h else None
  end.

(** [old] is the hydrator of an in-place rebuild. *)
Definition otsardb_lazy_restore_store_ex (root path : bytes) (head_in : option otsardb_head) (cipher : option bytes)
    (old : option otsardb_lazy_hydrator) : M St (bool * option otsardb_lazy_hydrator) :=
  let h := match old with None => fresh_hydrator | Some h => lazy_release_state (lazy_pool_shutdown h) end in
  let h := mkHydrator (mkIndex root path cipher 0 0 0 0 []) [] false [] 0 false (u64 (lh_generation h + 1)) [] 0
             false (lh_pool_workers h) false 0 0 [] (lh_stats h) zero_cache in
  let failed := (false, match old with
                        | None => None
                        | Some _ => Some (set_failed true (lazy_release_state h))
                        end) in
  let! (rc, metadata) := on_store (otsardb_db_metadata_read store root) in
  match rc, metadata with
  | OTSARDB_METADATA_OK, Some metadata =>
      let! head := match head_in with
                   | Some head => return! Some head
                   | None =>
                       let! (rc, r) := on_store (otsardb_journal_read_head store root) in
                       return! match rc, r with OTSARDB_JOURNAL_OK, Some (head, _) => Some head | _, _ => None end
                   end in
      match head with
      | None => return! failed
      | Some head =>
          if negb (bytes_eqb (hd_database_id head) (md_database_id metadata)) || (hd_generation head =? 0) ||
             negb (zlen (hd_commit_sha256 head) =? OTSARDB_MANIFEST_SHA256_HEX_SIZE) then return! failed
          else
            let! (covered_generation, covered_size) := restore_base root path metadata head in
            let! c := on_store (collect_chain root metadata head covered_generation) in
            match c with
            | None => return! failed
            | Some c =>
                let! h := restore_index root path cipher covered_size c h in
                return! match h with Some h => (true, Some h) | None => failed end
            end
      end
  | _, _ => return! failed
  end.
End Restore.
