(* ===== verification/LazyTheory.v ===== *)
(** * Lazy hydration: claims, tasks and the bitmap

    The binary searches of the claims compute the newest claimant, the tasks are
    the claiming segments in the same order, and the bitmap counts its bits. *)

From stdpp Require Import sorting.
From S2P Require Import Prelude CText JsonText ObjectStore Journal Codec WalBatch Sha256 Segment.
From S2P Require Import CommitManifest CommitPublish Cipher LocalFile Recovery WalPublisher.
From S2P Require Import LazyCache LazyHydration LazyRestore.

(** ** Page sets *)

Definition increasing (pages : list Z) : Prop :=
  forall i j x y, (i < j)%nat -> pages !! i = Some x -> pages !! j = Some y -> x < y.

Lemma increasing_cons x pages : increasing (x :: pages) <-> (forall y, y ∈ pages -> x < y) /\ increasing pages.
Proof.
  split.
  - intros H. split.
    + intros y [i Hi]%list_elem_of_lookup. by apply (H 0%nat (S i) x y); [lia|..].
    + intros i j a b Hij Ha Hb. by apply (H (S i) (S j)); [lia|..].
  - intros [Hx H] [|i] [|j] a b Hij Ha Hb; [lia| |lia|by apply (H i j); [lia|..]].
    cbn in Ha. injection Ha as <-. apply Hx. by eapply list_elem_of_lookup_2.
Qed.

(** The decoder accepts increasing page sets only. *)
Lemma pages_valid_increasing prev pages size :
  pages_valid_from prev pages size = true ->
  increasing pages /\ (forall p, p ∈ pages -> p <= size /\ match prev with Some q => q < p | None => True end).
Proof.
  revert prev. induction pages as [|p pages IH]; intros prev H.
  { split; [by intros i j x y _ ?|]. by intros p ?%elem_of_nil. }
  cbn [pages_valid_from] in H. destruct (p =? 0); [done|]. destruct (Z.ltb_spec size p) as [|Hs]; [done|].
  destruct (match prev with Some q => p <=? q | None => false end) eqn:Ep; [done|].
  destruct (IH _ H) as [Hi Hall]. split; [rewrite increasing_cons; split; [|done]; intros y Hy; by apply Hall|].
  assert (Hp : match prev with Some q => q < p | None => True end) by (destruct prev; prop_bools; lia).
  intros x [->|Hx]%elem_of_cons; [done|]. destruct (Hall x Hx). split; [done|]. destruct prev; lia.
Qed.

(** ** The binary search *)

Lemma lower_bound_spec fuel pages p lo hi :
  increasing pages -> (lo <= hi <= length pages)%nat -> (hi - lo <= fuel)%nat ->
  (forall i x, (i < lo)%nat -> pages !! i = Some x -> x < p) ->
  (forall i x, (hi <= i)%nat -> pages !! i = Some x -> p <= x) ->
  let k := lower_bound fuel pages p lo hi in
  (forall i x, (i < k)%nat -> pages !! i = Some x -> x < p) /\
  (forall i x, (k <= i)%nat -> pages !! i = Some x -> p <= x).
Proof.
  intros Hinc. revert lo hi. induction fuel as [|fuel IH]; intros lo hi Hr Hf Hlo Hhi; cbn [lower_bound].
  { split; [done|]. intros i x Hi. apply Hhi. lia. }
  destruct (Nat.leb_spec hi lo) as [|Hlt]; [split; [done|]; intros i x Hi; apply Hhi; lia|].
  set (mid := (lo + (hi - lo) / 2)%nat).
  assert (Hmid : (lo <= mid < hi)%nat).
  { unfold mid. pose proof (Nat.div_lt (hi - lo) 2 ltac:(lia) ltac:(lia)). lia. }
  destruct (pages !! mid) as [v|] eqn:Ev; [|apply lookup_ge_None in Ev; lia]. change (default 0 (Some v)) with v.
  destruct (Z.ltb_spec v p) as [Hv|Hv]; apply IH; try lia; try done.
  - intros i x Hi Hx. destruct (decide (i = mid)) as [->|]; [congruence|]. enough (x < v) by lia.
    apply (Hinc i mid); [lia|done|done].
  - intros i x Hi Hx. destruct (decide (i = mid)) as [->|]; [by simplify_eq|].
    enough (v < x) by lia. apply (Hinc mid i); [lia|done|done].
Qed.

Lemma page_index_spec pages p k : increasing pages -> page_index pages p = Some k <-> pages !! k = Some p.
Proof.
  intros Hinc. unfold page_index.
  destruct (lower_bound_spec (length pages) pages p 0 (length pages) Hinc) as [Hlt Hge]; [lia..| |].
  { intros i x Hi Hx. apply lookup_lt_Some in Hx. lia. }
  set (lo := lower_bound _ _ _ _ _) in *. split.
  - case_bool_decide; [|done]. by intros [= <-].
  - intros Hk. assert (lo = k) as ->.
    { destruct (Nat.lt_trichotomy k lo) as [H|[H|H]]; [|done|].
      - specialize (Hlt k p H Hk). lia.
      - destruct (pages !! lo) as [x|] eqn:Ex.
        + specialize (Hge lo x ltac:(lia) Ex). specialize (Hinc lo k x p H Ex Hk). lia.
        + apply lookup_ge_None in Ex. apply lookup_lt_Some in Hk. lia. }
    by rewrite bool_decide_eq_true_2.
Qed.

Lemma page_index_elem pages p : increasing pages -> is_Some (page_index pages p) <-> p ∈ pages.
Proof.
  intros H. split.
  - intros [k Hk]. apply (page_index_spec _ _ _ H) in Hk. by eapply list_elem_of_lookup_2.
  - intros [k Hk]%list_elem_of_lookup. exists k. by apply page_index_spec.
Qed.

(** ** Claims *)

(** The page sets of the segments that have one, newest first. *)
Definition segment_sets (segments : list otsardb_manifest_segment_ref) : list (list Z) :=
  filter (fun l => l <> []) (sg_pages <$> segments).
Definition page_sets (manifests : list (otsardb_commit_manifest * enc_set)) : list (list Z) :=
  manifests ≫= (fun me => segment_sets (cm_segments (fst me))).

Lemma page_count_nil ref : (sg_page_count ref =? 0) = bool_decide (sg_pages ref = []).
Proof.
  unfold sg_page_count, zlen. destruct (sg_pages ref); [done|]. cbn [length]. rewrite bool_decide_eq_false_2 by done.
  apply Z.eqb_neq. lia.
Qed.

Lemma segment_sets_cons ref segments :
  segment_sets (ref :: segments) =
  if sg_page_count ref =? 0 then segment_sets segments else sg_pages ref :: segment_sets segments.
Proof.
  rewrite page_count_nil. unfold segment_sets. rewrite fmap_cons, filter_cons.
  destruct (sg_pages ref); [by rewrite decide_False by (intros H; by apply H)|by rewrite decide_True].
Qed.

Lemma page_sets_cons m enc manifests :
  page_sets ((m, enc) :: manifests) = segment_sets (cm_segments m) ++ page_sets manifests.
Proof. done. Qed.

(** The index of the first set with the page. *)
Definition first_claim (sets : list (list Z)) (p : Z) : option nat := fst <$> list_find (fun l => p ∈ l) sets.

Lemma first_claim_cons l sets p :
  first_claim (l :: sets) p = if decide (p ∈ l) then Some 0%nat else S <$> first_claim sets p.
Proof.
  unfold first_claim. cbn [list_find]. case_decide; [done|]. by destruct (list_find _ sets) as [[i x]|].
Qed.

Lemma first_claim_app a b p :
  first_claim (a ++ b) p =
  match first_claim a p with Some i => Some i | None => Nat.add (length a) <$> first_claim b p end.
Proof.
  induction a as [|l a IH]; cbn [app length].
  - by destruct (first_claim b p).
  - rewrite !first_claim_cons. case_decide; [done|]. rewrite IH.
    destruct (first_claim a p); [done|]. by destruct (first_claim b p).
Qed.

Lemma resolve_segments_spec segments p ordinal :
  Forall increasing (segment_sets segments) ->
  resolve_segments segments p ordinal =
  match first_claim (segment_sets segments) p with
  | Some i => inl (ordinal + i)%nat
  | None => inr (ordinal + length (segment_sets segments))%nat
  end.
Proof.
  revert ordinal. induction segments as [|ref segments IH]; intros ordinal H; cbn [resolve_segments]; [by rewrite Nat.add_0_r|].
  rewrite segment_sets_cons in *. destruct (sg_page_count ref =? 0); [by apply IH|].
  apply list.Forall_cons in H as [Hinc H]. rewrite first_claim_cons.
  destruct (page_index (sg_pages ref) p) as [k|] eqn:Ek.
  - rewrite decide_True; [by rewrite Nat.add_0_r|]. apply page_index_elem; [done|by exists k].
  - rewrite decide_False; [|rewrite <- page_index_elem by done; rewrite Ek; by intros [? ?]].
    rewrite IH by done. cbn [length]. destruct (first_claim (segment_sets segments) p); cbn; f_equal; lia.
Qed.

Lemma resolve_manifests_spec manifests p ordinal :
  Forall increasing (page_sets manifests) ->
  resolve_manifests manifests p ordinal = Nat.add ordinal <$> first_claim (page_sets manifests) p.
Proof.
  revert ordinal. induction manifests as [|[m enc] manifests IH]; intros ordinal H; [done|].
  rewrite page_sets_cons in *. apply list.Forall_app in H as [H1 H2]. cbn [resolve_manifests].
  rewrite resolve_segments_spec, first_claim_app by done.
  destruct (first_claim (segment_sets (cm_segments m)) p); [done|]. rewrite IH by done.
  destruct (first_claim (page_sets manifests) p); cbn; [|done]. f_equal. lia.
Qed.

Lemma resolve_first_claim h p :
  Forall increasing (page_sets (li_manifests (lh_index h))) ->
  lazy_resolve_page h p = first_claim (page_sets (li_manifests (lh_index h))) p.
Proof.
  intros H. unfold lazy_resolve_page. rewrite resolve_manifests_spec by done. by destruct (first_claim _ p).
Qed.

(** ** Tasks *)

Section Tasks.
Context {S : Type} (store : otsardb_object_store S).

Lemma manifest_tasks_sets h m enc mi (pre segments : list otsardb_manifest_segment_ref) :
  li_manifests (lh_index h) !! mi = Some (m, enc) -> cm_segments m = pre ++ segments ->
  (fun t => match task_segment h t with Some ref => sg_pages ref | None => [] end)
    <$> manifest_tasks store h m enc mi (length pre) segments = segment_sets segments.
Proof.
  intros Hm. revert pre. induction segments as [|ref segments IH]; intros pre Hs; [done|].
  cbn [manifest_tasks]. rewrite segment_sets_cons.
  assert (IH' := IH (pre ++ [ref])). rewrite <- app_assoc, length_app, Nat.add_1_r in IH'. specialize (IH' Hs).
  destruct (sg_page_count ref =? 0); [done|]. rewrite fmap_cons, IH'. f_equal.
  unfold task_segment. cbn [st_ref tr_manifest_index tr_segment_index]. rewrite Hm, Hs.
  by rewrite list_lookup_middle by done.
Qed.

Lemma all_tasks_sets h (pre manifests : list (otsardb_commit_manifest * enc_set)) :
  li_manifests (lh_index h) = pre ++ manifests ->
  (fun t => match task_segment h t with Some ref => sg_pages ref | None => [] end)
    <$> all_tasks store h (length pre) manifests = page_sets manifests.
Proof.
  revert pre. induction manifests as [|[m enc] manifests IH]; intros pre Hm; [done|].
  cbn [all_tasks]. rewrite fmap_app, page_sets_cons. f_equal.
  - apply (manifest_tasks_sets h m enc (length pre) [] (cm_segments m)); [|done]. rewrite Hm. by apply list_lookup_middle.
  - specialize (IH (pre ++ [(m, enc)])). rewrite <- app_assoc, length_app, Nat.add_1_r in IH. by apply IH.
Qed.

(** The tasks are the claiming segments, in the order of the claims. *)
Lemma build_tasks_sets h : task_pages (lazy_build_tasks store h) = page_sets (li_manifests (lh_index h)).
Proof.
  unfold task_pages, lazy_build_tasks. destruct h as [i]. exact (all_tasks_sets (mkHydrator i _ _ _ _ _ _ _ _ _ _ _ _ _ _ _ _) [] _ eq_refl).
Qed.
End Tasks.

(** ** Pages claimed by no segment *)

(** The claimed pages up to a limit. *)
Definition claimed_upto (limit : Z) (sets : list (list Z)) : gset Z :=
  filter (fun p => p <= limit) (list_to_set (concat sets)).

Lemma elem_of_claimed limit sets p :
  p ∈ claimed_upto limit sets <-> p <= limit /\ exists l, l ∈ sets /\ p ∈ l.
Proof.
  unfold claimed_upto. rewrite elem_of_filter, elem_of_list_to_set, list_elem_of_In, in_concat.
  setoid_rewrite list_elem_of_In. done.
Qed.

Lemma min_head_spec sets :
  Forall increasing sets ->
  match min_head sets with
  | None => forall l, l ∈ sets -> l = []
  | Some b => (exists l, l ∈ sets /\ b ∈ l) /\ (forall l p, l ∈ sets -> p ∈ l -> b <= p)
  end.
Proof.
  intros Hinc. unfold min_head. induction sets as [|l sets IH] using rev_ind; [by intros l ?%elem_of_nil|].
  apply list.Forall_app in Hinc as [Hinc Hl]. rewrite list.Forall_singleton in Hl. specialize (IH Hinc).
  rewrite foldl_snoc. set (best := foldl _ _ _) in *.
  assert (Hin : forall x : list Z, x ∈ sets ++ [l] <-> x ∈ sets \/ x = l).
  { intros x. by rewrite elem_of_app, list_elem_of_singleton. }
  destruct l as [|v r].
  { destruct best as [b|].
    - destruct IH as [(l & Hl1 & Hb) Hmin]. split; [exists l; rewrite Hin; naive_solver|].
      intros l' p [Hl'| ->]%Hin Hp; [by eapply Hmin|by apply elem_of_nil in Hp].
    - intros l' [Hl'| ->]%Hin; [by apply IH|done]. }
  apply increasing_cons in Hl as [Hr _].
  assert (Hv : forall p, p ∈ v :: r -> v <= p) by (intros p [->|Hp]%elem_of_cons; [lia|specialize (Hr p Hp); lia]).
  destruct best as [b|].
  - destruct IH as [(l & Hl1 & Hb) Hmin]. destruct (Z.ltb_spec v b) as [Hvb|Hvb].
    + split; [exists (v :: r); rewrite Hin; split; [by right|by left]|].
      intros l' p [Hl'| ->]%Hin Hp; [specialize (Hmin l' p Hl' Hp); lia|by apply Hv].
    + split; [exists l; rewrite Hin; split; [by left|done]|].
      intros l' p [Hl'| ->]%Hin Hp; [by eapply Hmin|specialize (Hv p Hp); lia].
  - split; [exists (v :: r); rewrite Hin; split; [by right|by left]|].
    intros l' p [Hl'| ->]%Hin Hp; [rewrite (IH l' Hl') in Hp; by apply elem_of_nil in Hp|by apply Hv].
Qed.

Lemma advance_increasing b sets : Forall increasing sets -> Forall increasing (advance b sets).
Proof.
  intros H. apply Forall_fmap. eapply list.Forall_impl; [exact H|]. intros [|v r] Hl; cbn; [done|].
  destruct (v =? b); [|done]. by apply increasing_cons in Hl as [_ ?].
Qed.

(** With [b] the smallest page, the cursors now point behind it. *)
Lemma advance_elem b sets p :
  Forall increasing sets -> (forall l q, l ∈ sets -> q ∈ l -> b <= q) ->
  (exists l, l ∈ advance b sets /\ p ∈ l) <-> (exists l, l ∈ sets /\ p ∈ l) /\ p <> b.
Proof.
  intros Hinc Hmin. unfold advance. setoid_rewrite list_elem_of_fmap. rewrite list.Forall_forall in Hinc. split.
  - intros (l' & (l & -> & Hl) & Hp). specialize (Hinc l Hl). destruct l as [|v r]; [by apply elem_of_nil in Hp|].
    apply increasing_cons in Hinc as [Hr _]. destruct (Z.eqb_spec v b) as [->|Hne].
    + split; [exists (b :: r); split; [done|by right]|]. specialize (Hr p Hp). lia.
    + split; [by exists (v :: r)|]. intros ->. specialize (Hmin _ v Hl ltac:(by left)).
      apply elem_of_cons in Hp as [->|Hp]; [done|]. specialize (Hr b Hp). lia.
  - intros [(l & Hl & Hp) Hne]. exists (match l with v :: r => if v =? b then r else l | [] => [] end). split; [by exists l|].
    destruct l as [|v r]; [done|]. destruct (Z.eqb_spec v b) as [->|]; [|done].
    by apply elem_of_cons in Hp as [->|?].
Qed.

Lemma sum_advance b sets :
  (exists l r, l ∈ sets /\ l = b :: r) -> (sum_list (length <$> advance b sets) < sum_list (length <$> sets))%nat.
Proof.
  assert (Hle : forall l : list Z, (length (match l with v :: r => if (v =? b)%Z then r else l | [] => [] end) <= length l)%nat).
  { intros [|v r]; [done|]. destruct (v =? b); cbn; lia. }
  assert (Hsum : forall sets, (sum_list (length <$> advance b sets) <= sum_list (length <$> sets))%nat).
  { intros ss. induction ss as [|l ss IH]; [done|]. cbn. specialize (Hle l). unfold advance in *. lia. }
  intros (l & r & Hl & ->). apply list_elem_of_split in Hl as (a & c & ->). unfold advance in *.
  rewrite !fmap_app, !fmap_cons, !sum_list_with_app || idtac. induction a as [|x a IH]; cbn in *.
  - rewrite Z.eqb_refl. specialize (Hsum c). cbn. lia.
  - specialize (Hle x). lia.
Qed.

Lemma sum_length_elem (l : list Z) sets : l ∈ sets -> (length l <= sum_list (length <$> sets))%nat.
Proof. induction 1 as [|l m sets Hl IH]; cbn; lia. Qed.

Lemma count_claimed_exact fuel limit previous claimed sets :
  Forall increasing sets -> (forall l p, l ∈ sets -> p ∈ l -> previous < p) ->
  (sum_list (length <$> sets) <= fuel)%nat ->
  count_claimed fuel limit previous claimed sets = claimed + Z.of_nat (size (claimed_upto limit sets)).
Proof.
  revert previous claimed sets. induction fuel as [|fuel IH]; intros previous claimed sets Hinc Hprev Hf.
  - assert (E : claimed_upto limit sets = ∅).
    { apply set_eq. intros p. rewrite elem_of_claimed. split; [|set_solver].
      intros (_ & l & Hl & Hp). apply sum_length_elem in Hl. destruct l; [by apply elem_of_nil in Hp|]. cbn in Hl. lia. }
    rewrite E, size_empty. cbn. lia.
  - cbn [count_claimed]. pose proof (min_head_spec sets Hinc) as Hm. destruct (min_head sets) as [b|].
    + destruct Hm as [(l & Hl & Hb) Hmin]. destruct (Z.ltb_spec limit b) as [Hlb|Hlb].
      * assert (E : claimed_upto limit sets = ∅).
        { apply set_eq. intros p. rewrite elem_of_claimed. split; [|set_solver].
          intros (Hp & l' & Hl' & Hin). specialize (Hmin l' p Hl' Hin). lia. }
        rewrite E, size_empty. cbn. lia.
      * pose proof (Hprev l b Hl Hb) as Hpb. destruct (Z.ltb_spec previous b) as [_|]; [|lia].
        rewrite Z.max_r by lia.
        assert (Hhead : exists l r, l ∈ sets /\ l = b :: r).
        { destruct l as [|v r]; [by apply elem_of_nil in Hb|]. exists (v :: r), r. split; [done|]. f_equal.
          apply elem_of_cons in Hb as [->|Hb]; [done|]. rewrite list.Forall_forall in Hinc.
          specialize (Hinc _ Hl). apply increasing_cons in Hinc as [Hr _].
          specialize (Hr b Hb). specialize (Hmin _ v Hl ltac:(by left)). lia. }
        rewrite IH; [|by apply advance_increasing| |apply sum_advance in Hhead; lia].
        2: { intros l' p Hl' Hp. assert (Hex : exists l, l ∈ advance b sets /\ p ∈ l) by eauto.
             rewrite advance_elem in Hex by done. destruct Hex as ((l0 & Hl0 & Hp0) & Hne).
             specialize (Hmin l0 p Hl0 Hp0). lia. }
        assert (E : claimed_upto limit sets = {[b]} ∪ claimed_upto limit (advance b sets)).
        { apply set_eq. intros p. rewrite elem_of_union, elem_of_singleton, !elem_of_claimed, advance_elem by done.
          split; [destruct (decide (p = b)); tauto|]. intros [->|(? & ? & _)]; [|done]. split; [lia|by exists l]. }
        rewrite E, size_union, size_singleton; [lia|].
        apply disjoint_singleton_l. rewrite elem_of_claimed, advance_elem by done. by intros (_ & _ & ?).
    + assert (E : claimed_upto limit sets = ∅).
      { apply set_eq. intros p. rewrite elem_of_claimed. split; [|set_solver].
        intros (_ & l & Hl & Hp). rewrite (Hm l Hl) in Hp. by apply elem_of_nil in Hp. }
      rewrite E, size_empty. cbn. lia.
Qed.

(** What the manifests of a validated chain satisfy. *)
Definition claims_ok (h : otsardb_lazy_hydrator) : Prop :=
  Forall (fun l => increasing l /\ Forall (fun p => 0 < p) l) (page_sets (li_manifests (lh_index h))).

Lemma claims_increasing h : claims_ok h -> Forall increasing (page_sets (li_manifests (lh_index h))).
Proof. intros H. eapply list.Forall_impl; [exact H|]. by intros l [? _]. Qed.

Lemma resolve_None h p :
  claims_ok h -> lazy_resolve_page h p = None <-> forall l, l ∈ page_sets (li_manifests (lh_index h)) -> p ∉ l.
Proof.
  intros H. rewrite (resolve_first_claim h p (claims_increasing h H)). unfold first_claim.
  rewrite fmap_None, list_find_None, list.Forall_forall. done.
Qed.

Lemma seqZ_split (P : Z -> Prop) `{forall p, Decision (P p)} l :
  zlen (filter P l) + zlen (filter (fun p => ~ P p) l) = zlen l.
Proof.
  induction l as [|x l IH]; [done|]. rewrite !filter_cons. unfold zlen in *. 
  destruct (decide (P x)), (decide (~ P x)); try tauto; cbn [length]; lia.
Qed.

Lemma zlen_seqZ m n : 0 <= n -> zlen (seqZ m n) = n.
Proof. intros Hn. unfold zlen. rewrite length_seqZ. lia. Qed.

(** The claimed pages up to [limit], counted page by page. *)
Lemma claimed_count h limit :
  claims_ok h -> 0 <= limit ->
  Z.of_nat (size (claimed_upto limit (page_sets (li_manifests (lh_index h))))) =
  zlen (filter (fun p => lazy_resolve_page h p <> None) (seqZ 1 limit)).
Proof.
  intros H Hl. unfold zlen. f_equal.
  set (good := filter _ _). assert (Hnd : NoDup good) by (apply list.NoDup_filter, NoDup_seqZ).
  rewrite <- (size_list_to_set (C := gset Z) good Hnd). f_equal. apply set_eq. intros p.
  rewrite elem_of_list_to_set. unfold good. rewrite list_elem_of_filter, elem_of_seqZ, elem_of_claimed.
  rewrite (resolve_None h p H). unfold claims_ok in H. rewrite list.Forall_forall in H. split.
  - intros (Hp & l & Hin & Hpl). destruct (H l Hin) as [_ Hpos]. rewrite list.Forall_forall in Hpos. specialize (Hpos p Hpl).
    split; [|lia]. intros Hn. by apply (Hn l Hin).
  - intros [Hn Hp]. split; [lia|]. destruct (decide (Exists (fun l => p ∈ l) (page_sets (li_manifests (lh_index h))))) as [He|He].
    + apply list.Exists_exists in He as (l & Hin & Hpl). by exists l.
    + exfalso. apply Hn. intros l Hin Hpl. apply He. apply list.Exists_exists. by exists l.
Qed.

Section Unclaimed.
Context {S : Type} (store : otsardb_object_store S).

Lemma build_tasks_index h : lh_index (lazy_build_tasks store h) = lh_index h.
Proof. by destruct h. Qed.

Lemma count_unclaimed h limit :
  claims_ok h -> 0 <= limit ->
  lazy_count_covered_unclaimed (lazy_build_tasks store h) limit =
  zlen (filter (fun p => lazy_resolve_page h p = None) (seqZ 1 limit)).
Proof.
  intros H Hl. pose proof (claimed_count h limit H Hl) as Hc.
  assert (Hsplit : zlen (filter (fun p => lazy_resolve_page h p = None) (seqZ 1 limit)) =
                   limit - Z.of_nat (size (claimed_upto limit (page_sets (li_manifests (lh_index h)))))).
  { rewrite Hc. pose proof (seqZ_split (fun p => lazy_resolve_page h p = None) (seqZ 1 limit)) as E.
    rewrite zlen_seqZ in E by done. unfold zlen in *. lia. }
  rewrite Hsplit. unfold lazy_count_covered_unclaimed.
  pose proof (build_tasks_sets store h) as Es. set (h' := lazy_build_tasks store h) in *.
  destruct (Z.eqb_spec limit 0) as [->|Hl0].
  { rewrite orb_true_r. assert (zlen (filter (fun p => lazy_resolve_page h p = None) (seqZ 1 0)) = 0) by done. lia. }
  destruct (Z.eqb_spec (zlen (lh_tasks h')) 0) as [Ht|_]; cbn [orb].
  - apply zlen_0 in Ht. unfold task_pages in Es. rewrite Ht in Es. cbn in Es. rewrite <- Es.
    assert (E : claimed_upto limit [] = ∅) by set_solver. rewrite E, size_empty. cbn. lia.
  - rewrite Es, count_claimed_exact; [lia|by apply claims_increasing| |done].
    intros l p Hin Hp. unfold claims_ok in H. rewrite list.Forall_forall in H. destruct (H l Hin) as [_ Hpos].
    rewrite list.Forall_forall in Hpos. by apply Hpos.
Qed.
End Unclaimed.

(** ** The bitmap *)

Lemma land_bit b i : 0 <= i -> (Z.land b (Z.shiftl 1 i) =? 0) = negb (Z.testbit b i).
Proof.
  intros Hi. rewrite Z.shiftl_1_l. destruct (Z.testbit b i) eqn:E; cbn [negb].
  - apply Z.eqb_neq. intros H. apply (f_equal (fun v => Z.testbit v i)) in H.
    rewrite Z.land_spec, Z.pow2_bits_true, E, Z.bits_0 in H by done. done.
  - apply Z.eqb_eq, Z.bits_inj'. intros j Hj. rewrite Z.land_spec, Z.bits_0.
    destruct (decide (j = i)) as [->|Hne]; [by rewrite E|]. rewrite Z.pow2_bits_false by done. apply andb_false_r.
Qed.

Definition bit_index (p : Z) : Z := Z.land (p - 1) 7.

Lemma bit_index_range p : 0 <= bit_index p < 8.
Proof. unfold bit_index. change 7 with (Z.ones 3). rewrite Z.land_ones by lia. apply Z.mod_pos_bound. lia. Qed.

Lemma bit_is_set_testbit bm p : bit_is_set bm p = Z.testbit (default 0 (bm !! bit_byte p)) (bit_index p).
Proof.
  unfold bit_is_set, bit_mask. fold (bit_index p). rewrite land_bit by apply bit_index_range. by rewrite negb_involutive.
Qed.

(** Two pages with the same byte and bit are one. *)
Lemma bit_position p q : 0 < p -> 0 < q -> bit_byte p = bit_byte q -> bit_index p = bit_index q -> p = q.
Proof.
  unfold bit_byte, bit_index. change 7 with (Z.ones 3). rewrite !Z.land_ones, !Z.shiftr_div_pow2 by lia.
  intros Hp Hq Hb Hi. apply Z2Nat.inj in Hb; [|apply Z.div_pos; lia..].
  pose proof (Z.div_mod (p - 1) (2 ^ 3) ltac:(lia)). pose proof (Z.div_mod (q - 1) (2 ^ 3) ltac:(lia)). lia.
Qed.

Lemma bit_byte_bound p size : 0 < p <= size -> (bit_byte p < Z.to_nat ((size + 7) / 8))%nat.
Proof.
  intros Hp. unfold bit_byte. rewrite Z.shiftr_div_pow2 by lia. change (2 ^ 3) with 8.
  apply Z2Nat.inj_lt; [apply Z.div_pos; lia..|]. apply Z.div_lt_upper_bound; [lia|].
  pose proof (Z.div_mod (size + 7) 8 ltac:(lia)). pose proof (Z.mod_pos_bound (size + 7) 8 ltac:(lia)). lia.
Qed.

Lemma bit_set_spec bm p q size :
  0 < p <= size -> 0 < q -> length bm = Z.to_nat ((size + 7) / 8) ->
  bit_is_set (alter (fun b => Z.lor b (bit_mask p)) (bit_byte p) bm) q = bool_decide (q = p) || bit_is_set bm q.
Proof.
  intros Hp Hq Hlen. rewrite !bit_is_set_testbit. pose proof (bit_index_range p) as Hi. pose proof (bit_index_range q) as Hj.
  assert (Hlt := bit_byte_bound p size Hp). rewrite <- Hlen in Hlt. apply lookup_lt_is_Some_2 in Hlt as [b Hb].
  destruct (decide (bit_byte q = bit_byte p)) as [Eb|Eb].
  - rewrite Eb, list_lookup_alter_eq, Hb. cbn [fmap option_fmap option_map]. 
    change (default 0 (Some (Z.lor b (bit_mask p)))) with (Z.lor b (bit_mask p)). change (default 0 (Some b)) with b.
    rewrite Z.lor_spec. unfold bit_mask. fold (bit_index p). rewrite Z.shiftl_1_l.
    destruct (decide (q = p)) as [->|Hne].
    + rewrite Z.pow2_bits_true, bool_decide_eq_true_2, orb_true_r by (done || lia). done.
    + rewrite bool_decide_eq_false_2 by done. rewrite Z.pow2_bits_false, orb_false_r; [done|].
      intros E. apply Hne, bit_position; [lia..|done|done].
  - rewrite list_lookup_alter_ne by done. rewrite bool_decide_eq_false_2; [done|]. by intros ->.
Qed.

Lemma bit_clear_spec bm p q size :
  0 < p <= size -> 0 < q -> length bm = Z.to_nat ((size + 7) / 8) ->
  bit_is_set (alter (fun b => Z.ldiff b (bit_mask p)) (bit_byte p) bm) q = negb (bool_decide (q = p)) && bit_is_set bm q.
Proof.
  intros Hp Hq Hlen. rewrite !bit_is_set_testbit. pose proof (bit_index_range p) as Hi. pose proof (bit_index_range q) as Hj.
  assert (Hlt := bit_byte_bound p size Hp). rewrite <- Hlen in Hlt. apply lookup_lt_is_Some_2 in Hlt as [b Hb].
  destruct (decide (bit_byte q = bit_byte p)) as [Eb|Eb].
  - rewrite Eb, list_lookup_alter_eq, Hb. cbn [fmap option_fmap option_map].
    change (default 0 (Some (Z.ldiff b (bit_mask p)))) with (Z.ldiff b (bit_mask p)). change (default 0 (Some b)) with b.
    rewrite Z.ldiff_spec. unfold bit_mask. fold (bit_index p). rewrite Z.shiftl_1_l.
    destruct (decide (q = p)) as [->|Hne].
    + rewrite Z.pow2_bits_true, bool_decide_eq_true_2, andb_false_r by (done || lia). done.
    + rewrite bool_decide_eq_false_2 by done. rewrite Z.pow2_bits_false, andb_true_r; [done|].
      intros E. apply Hne, bit_position; [lia..|done|done].
  - rewrite list_lookup_alter_ne by done. rewrite bool_decide_eq_false_2; [done|]. by intros ->.
Qed.

(** The counter is the number of marked pages. *)
Record bits_ok (h : otsardb_lazy_hydrator) : Prop := {
  bo_size : 0 <= lh_database_size_pages h < 2 ^ 63;
  bo_length : length (lh_bitmap h) = Z.to_nat ((lh_database_size_pages h + 7) / 8);
  bo_marked : lh_marked_pages h = zlen (filter (fun p => bitmap_get h p = true) (seqZ 1 (lh_database_size_pages h)))
}.

Lemma filter_same (f g : Z -> bool) (l : list Z) :
  (forall q, q ∈ l -> g q = f q) -> filter (fun q => g q = true) l = filter (fun q => f q = true) l.
Proof.
  induction l as [|x l IH]; intros H; [done|]. rewrite !list.filter_cons.
  rewrite IH by (intros q Hq; apply H; by right). pose proof (H x ltac:(by left)) as E.
  destruct (decide (g x = true)), (decide (f x = true)); congruence.
Qed.

(** Counting when one element changes. *)
Lemma count_change (f g : Z -> bool) (l : list Z) p :
  NoDup l -> p ∈ l -> (forall q, q <> p -> q ∈ l -> g q = f q) -> f p = false -> g p = true ->
  zlen (filter (fun q => g q = true) l) = zlen (filter (fun q => f q = true) l) + 1.
Proof.
  intros Hnd Hin Hfg Hf Hg. apply list_elem_of_split in Hin as (a & b & ->). destruct (proj1 (list.NoDup_app _ _) Hnd) as (_ & Ha & Hb).
  apply list.NoDup_cons in Hb as [Hb _]. rewrite !list.filter_app, !list.filter_cons.
  rewrite (decide_True (P := g p = true)) by done. rewrite (decide_False (P := f p = true)) by (by rewrite Hf).
  assert (Ea : filter (fun q => g q = true) a = filter (fun q => f q = true) a).
  { apply filter_same. intros q Hq. apply Hfg; [|apply elem_of_app; by left].
    intros ->. apply (Ha p Hq). by left. }
  assert (Eb : filter (fun q => g q = true) b = filter (fun q => f q = true) b).
  { apply filter_same. intros q Hq. apply Hfg; [|apply elem_of_app; right; by right].
    by intros ->. }
  rewrite Ea, Eb. unfold zlen. rewrite !length_app. cbn [length]. lia.
Qed.

Lemma count_bound (f : Z -> bool) n : 0 <= n -> 0 <= zlen (filter (fun q => f q = true) (seqZ 1 n)) <= n.
Proof.
  intros Hn. pose proof (zlen_nonneg (filter (fun q => f q = true) (seqZ 1 n))). split; [done|].
  rewrite <- (zlen_seqZ 1 n) at 2 by done. unfold zlen. apply inj_le, length_filter.
Qed.

Lemma outside_false h p : outside h p = false <-> p <> 0 /\ p <= lh_database_size_pages h.
Proof. unfold outside. rewrite orb_false_iff, Z.eqb_neq, Z.ltb_ge. done. Qed.

(** What a change of the bits keeps. *)
Lemma set_bitmap_fields bits marked h :
  lh_index (set_bitmap bits marked h) = lh_index h /\ lh_bitmap (set_bitmap bits marked h) = bits /\
  lh_marked_pages (set_bitmap bits marked h) = marked /\ lh_cache (set_bitmap bits marked h) = lh_cache h.
Proof. by destruct h. Qed.

Lemma bitmap_set_spec h p :
  bits_ok h -> 0 <= p ->
  bits_ok (bitmap_set p h) /\ lh_index (bitmap_set p h) = lh_index h /\ lh_cache (bitmap_set p h) = lh_cache h /\
  (forall q, 0 <= q -> bitmap_get (bitmap_set p h) q = negb (outside h q) && bool_decide (q = p) || bitmap_get h q).
Proof.
  intros [H1 H2 H3] Hp. unfold bitmap_set. destruct (outside h p) eqn:Eo; cbn [orb].
  { split; [done|]. split; [done|]. split; [done|]. intros q Hq.
    destruct (decide (q = p)) as [->|]; [by rewrite Eo|by rewrite bool_decide_eq_false_2, andb_false_r by done]. }
  pose proof Eo as Ein. apply outside_false in Ein as [Hp0 Hps].
  destruct (bit_is_set (lh_bitmap h) p) eqn:Eb.
  { split; [done|]. split; [done|]. split; [done|]. intros q Hq.
    destruct (decide (q = p)) as [->|]; [|by rewrite bool_decide_eq_false_2, andb_false_r by done].
    unfold bitmap_get. rewrite Eo, Eb. by rewrite orb_true_r. }
  set (h' := set_bitmap _ _ _).
  destruct (set_bitmap_fields (alter (fun b => Z.lor b (bit_mask p)) (bit_byte p) (lh_bitmap h)) (u64 (lh_marked_pages h + 1)) h)
    as (Ei & Ebm & Em & Ec). fold h' in Ei, Ebm, Em, Ec.
  assert (Es : lh_database_size_pages h' = lh_database_size_pages h) by (unfold lh_database_size_pages; by rewrite Ei).
  assert (Hget : forall q, 0 <= q -> bitmap_get h' q = negb (outside h q) && bool_decide (q = p) || bitmap_get h q).
  { intros q Hq. unfold bitmap_get, outside. rewrite Es, Ebm.
    destruct (Z.eqb_spec q 0) as [->|Hq0]; cbn [orb negb andb]; [done|].
    rewrite (bit_set_spec _ p q (lh_database_size_pages h)) by (done || lia).
    destruct (lh_database_size_pages h <? q); [done|]. cbn [negb andb]. done. }
  split; [|done]. split; [by rewrite Es|by rewrite Es, Ebm, length_alter|].
  rewrite Em, Es, H3. assert (Hin : p ∈ seqZ 1 (lh_database_size_pages h)) by (apply elem_of_seqZ; lia).
  rewrite (count_change (bitmap_get h) (bitmap_get h') _ p); [|apply NoDup_seqZ|done| | |].
  - unfold u64. rewrite Z.mod_small; [done|]. pose proof (count_bound (bitmap_get h) (lh_database_size_pages h) ltac:(lia)). lia.
  - intros q Hne Hq%elem_of_seqZ. rewrite Hget by lia. by rewrite bool_decide_eq_false_2, andb_false_r by done.
  - unfold bitmap_get. by rewrite Eb, andb_false_r.
  - rewrite Hget by lia. by rewrite Eo, bool_decide_eq_true_2 by done.
Qed.

Lemma bitmap_clear_spec h p :
  bits_ok h -> 0 < p <= lh_database_size_pages h ->
  bits_ok (bitmap_clear p h) /\ lh_index (bitmap_clear p h) = lh_index h /\ lh_cache (bitmap_clear p h) = lh_cache h /\
  (forall q, 0 <= q -> bitmap_get (bitmap_clear p h) q = negb (bool_decide (q = p)) && bitmap_get h q).
Proof.
  intros [H1 H2 H3] Hp. unfold bitmap_clear.
  destruct (bit_is_set (lh_bitmap h) p) eqn:Eb.
  2: { split; [done|]. split; [done|]. split; [done|]. intros q Hq. case_bool_decide; [subst|done].
       unfold bitmap_get. by rewrite Eb, andb_false_r. }
  set (h' := set_bitmap _ _ _).
  destruct (set_bitmap_fields (alter (fun b => Z.ldiff b (bit_mask p)) (bit_byte p) (lh_bitmap h)) (u64 (lh_marked_pages h - 1)) h)
    as (Ei & Ebm & Em & Ec). fold h' in Ei, Ebm, Em, Ec.
  assert (Es : lh_database_size_pages h' = lh_database_size_pages h) by (unfold lh_database_size_pages; by rewrite Ei).
  assert (Hget : forall q, 0 <= q -> bitmap_get h' q = negb (bool_decide (q = p)) && bitmap_get h q).
  { intros q Hq. unfold bitmap_get, outside. rewrite Es, Ebm.
    destruct (Z.eqb_spec q 0) as [->|Hq0]; cbn [orb negb andb]; [by rewrite andb_false_r|].
    rewrite (bit_clear_spec _ p q (lh_database_size_pages h)) by (done || lia).
    destruct (lh_database_size_pages h <? q); cbn [negb andb]; [by rewrite andb_false_r|done]. }
  split; [|done]. split; [by rewrite Es|by rewrite Es, Ebm, length_alter|].
  rewrite Em, Es, H3. assert (Hin : p ∈ seqZ 1 (lh_database_size_pages h)) by (apply elem_of_seqZ; lia).
  assert (Hset : bitmap_get h p = true).
  { unfold bitmap_get. rewrite Eb, andb_true_r. apply negb_true_iff, outside_false. lia. }
  rewrite (count_change (bitmap_get h') (bitmap_get h) _ p); [|apply NoDup_seqZ|done| | |done].
  - unfold u64. rewrite Z.mod_small; [lia|].
    pose proof (count_bound (bitmap_get h') (lh_database_size_pages h) ltac:(lia)). lia.
  - intros q Hne Hq%elem_of_seqZ. rewrite Hget by lia. by rewrite bool_decide_eq_false_2 by done.
  - rewrite Hget by lia. by rewrite bool_decide_eq_true_2 by done.
Qed.
