(* ===== verification/LazySound.v ===== *)
(** * Lazy hydration: the image

    Every page that is marked, and every page that only the checkpoint base has,
    holds the bytes of the head. The invariant relates the bitmap, the cache, the
    verified objects of the tasks and the image file; each operation of the demand
    path and of the workers keeps it, in whatever order they run. *)

From S2P Require Import Prelude CText JsonText ObjectStore Journal Codec WalBatch Sha256 Segment.
From S2P Require Import CommitManifest CommitPublish Cipher LocalFile Recovery WalPublisher Triples.
From S2P Require Import LazyCache LazyCacheTheory LazyCacheRefine LazyHydration LazyRestore LazyTheory.

(** ** Pages of a file *)

Definition page_at (ps : Z) (file : bytes) (p : Z) : bytes :=
  take (Z.to_nat ps) (drop (Z.to_nat ((p - 1) * ps)) file).

Lemma lookup_write_at file off d i :
  0 <= off ->
  write_at file off d !! i =
  if decide (i < Z.to_nat off)%nat then (file ++ replicate (Z.to_nat off - length file) 0) !! i
  else if decide (i < Z.to_nat off + length d)%nat then d !! (i - Z.to_nat off)%nat else file !! i.
Proof.
  intros Hoff. unfold write_at. set (n := Z.to_nat off). set (padded := file ++ replicate (n - length file) 0).
  assert (Hlen : length (take n padded) = n).
  { rewrite length_take. unfold padded. rewrite length_app, length_replicate. lia. }
  destruct (decide (i < n)%nat).
  - rewrite lookup_app_l by lia. by rewrite lookup_take_lt by lia.
  - rewrite lookup_app_r by lia. rewrite Hlen. destruct (decide (i < n + length d)%nat).
    + by rewrite lookup_app_l by lia.
    + rewrite lookup_app_r by lia. rewrite lookup_drop. f_equal. lia.
Qed.

Lemma length_write_at file off d : 0 <= off -> (length file <= length (write_at file off d))%nat.
Proof.
  intros Hoff. unfold write_at. rewrite !length_app, length_take, length_drop, length_app, length_replicate. lia.
Qed.

Lemma lookup_page_at ps file p i :
  page_at ps file p !! i = if decide (i < Z.to_nat ps)%nat then file !! (Z.to_nat ((p - 1) * ps) + i)%nat else None.
Proof.
  unfold page_at. case_decide; [by rewrite lookup_take_lt, lookup_drop by lia|by rewrite lookup_take_ge by lia].
Qed.

Section Pages.
Context (ps : Z) (Hps : 0 < ps).

(** The page that is written. *)
Lemma page_written file p d : 0 < p -> length d = Z.to_nat ps -> page_at ps (write_at file ((p - 1) * ps) d) p = d.
Proof.
  intros Hp Hd. apply list_eq. intros i. rewrite lookup_page_at. case_decide.
  - rewrite lookup_write_at by nia. rewrite decide_False by lia. rewrite decide_True by lia. f_equal. lia.
  - symmetry. apply lookup_ge_None. lia.
Qed.

(** Another page is not touched. *)
Lemma page_other file p q d :
  0 < p -> 0 < q -> q <> p -> (length d <= Z.to_nat ps)%nat -> q * ps <= zlen file ->
  page_at ps (write_at file ((p - 1) * ps) d) q = page_at ps file q.
Proof.
  intros Hp Hq Hne Hd Hlen. unfold zlen in Hlen. apply list_eq. intros i. rewrite !lookup_page_at. case_decide; [|done].
  rewrite lookup_write_at by nia. destruct (decide (q < p)) as [Hlt|Hge].
  - rewrite decide_True by nia. by rewrite lookup_app_l by nia.
  - rewrite decide_False by nia. by rewrite decide_False by nia.
Qed.

(** A prefix of what the page holds changes nothing. *)
Lemma page_prefix file p n :
  0 < p -> p * ps <= zlen file ->
  page_at ps (write_at file ((p - 1) * ps) (take n (page_at ps file p))) p = page_at ps file p.
Proof.
  intros Hp Hlen. unfold zlen in Hlen. apply list_eq. intros i. rewrite (lookup_page_at ps (write_at _ _ _)). case_decide as Hi.
  - rewrite lookup_write_at by nia. rewrite decide_False by lia. case_decide as Hn.
    + rewrite length_take in Hn. rewrite lookup_take_lt by lia. f_equal. lia.
    + rewrite lookup_page_at, decide_True by done. done.
  - rewrite lookup_page_at. by rewrite decide_False by done.
Qed.
End Pages.

(** ** Writing the image *)

(** A write of [d] at page [p] that may have stopped early. *)
Definition page_write (ps p : Z) (d file file' : bytes) : Prop :=
  file' = file \/ exists n, file' = write_at file ((p - 1) * ps) (take n d).

Lemma io_call_files l b l' : io_call l = (b, l') -> l_files l' = l_files l.
Proof. unfold io_call, io_pop, mbind_, mret_. destruct (l_faults l); intros [= _ <-]; done. Qed.

Lemma fwrite_effect path off d l b l' file :
  l_files l !! path = Some file -> fwrite_at path off d l = (b, l') ->
  exists file', l_files l' !! path = Some file' /\
    (file' = file \/ exists n, file' = write_at file off (take n d)) /\ (b = true -> file' = write_at file off d).
Proof.
  intros Hf. unfold fwrite_at, mbind_, mret_. destruct (io_call l) as [seek l1] eqn:E1. apply io_call_files in E1.
  destruct seek; cbn [negb].
  2: { intros [= <- <-]. exists file. rewrite E1. split; [done|]. split; [by left|done]. }
  unfold io_pop, file_of. destruct (l_faults l1) as [|f r]; cbn.
  - rewrite E1, Hf. cbn. intros [= <- <-]. eexists. cbn. rewrite lookup_insert_eq. split; [done|]. split; [|done].
    right. exists (length d). by rewrite take_ge by lia.
  - rewrite E1, Hf. destruct f as [|n]; cbn; intros [= <- <-]; eexists; cbn; rewrite lookup_insert_eq; (split; [done|]).
    + split; [|done]. right. exists (length d). by rewrite take_ge by lia.
    + split; [|done]. right. by exists n.
Qed.

Lemma fopen_existing_files path l b l' : fopen_existing path l = (b, l') -> l_files l' = l_files l.
Proof.
  unfold fopen_existing, mbind_, mret_, file_of. destruct (io_call l) as [ok l1] eqn:E1. intros [= _ <-].
  by apply io_call_files in E1.
Qed.

Lemma page_offset_small p ps : 0 < p < 2 ^ 32 -> 0 < ps < 2 ^ 32 -> page_offset p ps = (p - 1) * ps.
Proof.
  intros Hp Hps. unfold page_offset, u64. rewrite (Z.mod_small (p - 1)) by lia. apply Z.mod_small. nia.
Qed.

Lemma write_page_effect path p ps page l b l' file :
  0 < p < 2 ^ 32 -> 0 < ps < 2 ^ 32 -> l_files l !! path = Some file -> write_page path p ps page l = (b, l') ->
  exists file', l_files l' !! path = Some file' /\ page_write ps p page file file' /\
                (b = true -> file' = write_at file ((p - 1) * ps) page).
Proof.
  intros Hp Hps Hf. unfold write_page. rewrite page_offset_small by done. destruct (_ <? _).
  { unfold mret_. intros [= <- <-]. exists file. split; [done|]. split; [by left|done]. }
  intros E. eapply fwrite_effect in E; [|done]. exact E.
Qed.

Lemma write_page_file_effect path p ps page l b l' file :
  0 < p < 2 ^ 32 -> 0 < ps < 2 ^ 32 -> l_files l !! path = Some file -> write_page_file path ps p page l = (b, l') ->
  let d := take (Z.to_nat ps) page in
  exists file', l_files l' !! path = Some file' /\ page_write ps p d file file' /\
                (b = true -> file' = write_at file ((p - 1) * ps) d).
Proof.
  intros Hp Hps Hf. unfold write_page_file. rewrite page_offset_small by done. cbn zeta. destruct (_ <? _).
  { unfold mret_. intros [= <- <-]. exists file. split; [done|]. split; [by left|done]. }
  unfold mbind_, mret_. destruct (fopen_existing path l) as [opened l1] eqn:E1. apply fopen_existing_files in E1.
  destruct opened; cbn [negb].
  2: { intros [= <- <-]. exists file. rewrite E1. split; [done|]. split; [by left|done]. }
  destruct (fwrite_at path _ _ l1) as [written l2] eqn:E2. rewrite <- E1 in Hf. eapply fwrite_effect in E2 as (file' & Hf' & Hw & Hok); [|done].
  destruct (io_call l2) as [closed l3] eqn:E3. apply io_call_files in E3. intros [= <- <-].
  exists file'. rewrite E3. split; [done|]. split; [done|]. intros Hb. apply andb_prop in Hb as [Hb _]. by apply Hok.
Qed.

(** ** The invariant *)

(** What a store promises of its range requests. *)
Class RangeLaw {S} (store : otsardb_object_store S) (view : S -> contents) (env : contents -> contents -> Prop) : Prop := {
  range_law : forall key offset len s r s', otsardb_store_get_range store key offset len s = (r, s') ->
    env (view s) (view s') /\
    match r with
    | inr ob => exists whole, view s' !! key = Some whole /\
                              so_data ob = take (Z.to_nat len) (drop (Z.to_nat offset) (so_data whole))
    | inl _ => True
    end
}.

#[export] Instance mem_range_law caps : RangeLaw (mem_store caps) m_objects quiet.
Proof.
  split. intros key offset len s r s'. cbn. unfold mem_get_range. destruct (mem_pop s) as [f s1] eqn:Ep.
  apply mem_pop_objects in Ep. destruct f; intros H; [|by injection H as <- <-; rewrite Ep..].
  destruct (m_objects s1 !! key) as [ob|] eqn:Eo; [|by injection H as <- <-; rewrite Ep].
  destruct (_ <? _); injection H as <- <-; rewrite <- Ep; [done|]. split; [done|]. by exists ob.
Qed.

(** The positions that decoding reaches from the start of a slice. *)
Inductive reached `{Lz4} (slice : bytes) : Z -> Prop :=
  | reached_start : reached slice 0
  | reached_next pos frame p pos' :
      reached slice pos -> otsardb_segment_frame_decode slice pos = Some (frame, p, pos') -> reached slice pos'.

(** Entries of the abstract cache. *)
Lemma lru_del_sub p q e (l : lru) : (q, e) ∈ lru_del p l -> (q, e) ∈ l.
Proof.
  induction l as [|[a b] l IH]; [done|]. cbn. destruct (a =? p); [right; by apply IH|].
  intros [H|?]%elem_of_cons; [rewrite H; by left|right; by apply IH].
Qed.

Lemma lru_get_in p d (l : lru) : lru_get p l = Some d -> (p, d) ∈ l.
Proof.
  induction l as [|[a b] l IH]; [done|]. cbn. destruct (Z.eqb_spec a p) as [->|]; [intros [= ->]; by left|right; by apply IH].
Qed.

Section Invariant.
Context `{HSha : Sha256} `{HLz4 : Lz4} `{HA : Aead}.
Context (getenv : bytes -> option bytes) (freed : bytes -> bytes).
Context {S : Type} (store : otsardb_object_store S) (view : S -> contents) (env : contents -> contents -> Prop).
Context {Hlaws : StoreLaws store view env} {Hrange : RangeLaw store view env}.
(** The index, the references of the tasks, the bytes of the head, and the next
    task to apply. *)
Context (I : lazy_index) (refs : list lazy_task_ref) (expected : Z -> bytes) (next : nat).

Abbreviation ps := (li_page_size I).
Abbreviation size := (li_database_size_pages I).
Abbreviation W := (otsardb_lazy_hydrator * (S * local))%type.

Definition claimant (p : Z) : option nat := resolve_manifests (li_manifests I) p 0.

(** The checkpoint base has the newest bytes of the page. *)
Definition in_base (p : Z) : Prop :=
  li_covered_size_pages I <> 0 /\ p <= li_covered_size_pages I /\ claimant p = None.

(** The object of a task holds its pages as the head has them. *)
Definition whole_ok (o : nat) (ref : lazy_task_ref) (data : bytes) : Prop :=
  forall h segment batch, lh_index h = I -> task_view freed h ref data = Some segment ->
  view_batch segment (tr_page_size ref) = Some batch ->
  wb_page_size batch = ps /\
  (forall i p page, 0 <= i -> otsardb_wal_batch_frame batch i = Some (p, page) -> claimant p = Some o -> page = expected p) /\
  (forall p, 0 < p <= size -> claimant p = Some o ->
     exists i page, 0 <= i < wb_frame_count batch /\ otsardb_wal_batch_frame batch i = Some (p, page)).

(** So do the blocks of a slice of it. *)
Definition slice_ok (o : nat) (slice : bytes) : Prop :=
  forall pos frame p pos', reached slice pos -> otsardb_segment_frame_decode slice pos = Some (frame, p, pos') ->
  claimant p = Some o -> take (Z.to_nat ps) (drop 8 frame) = expected p.

(** A byte range of blocks of the segment behind an ordinal. *)
Definition block_bounds (o : nat) (a b : Z) : Prop :=
  exists ref seg offsets, refs !! o = Some ref /\
    (exists m enc, li_manifests I !! tr_manifest_index ref = Some (m, enc) /\ cm_segments m !! tr_segment_index ref = Some seg) /\
    sg_frame_offsets seg = Some offsets /\ (exists k, offsets !! k = Some a) /\
    ((exists k, offsets !! k = Some b) \/ b = sg_size seg).

(** The objects of the segments, as far as they are in the store, are those the
    manifests describe. *)
Definition authentic (v : contents) : Prop :=
  (forall o ref ob, refs !! o = Some ref -> v !! tr_absolute_key ref = Some ob ->
     zlen (so_data ob) = tr_size ref -> otsardb_sha256_hex_data (so_data ob) = tr_sha256 ref -> whole_ok o ref (so_data ob)) /\
  (forall o ref ob a b, refs !! o = Some ref -> v !! tr_absolute_key ref = Some ob -> block_bounds o a b ->
     slice_ok o (take (Z.to_nat (b - a)) (drop (Z.to_nat a) (so_data ob)))).

(** Every page in the cache is a page of the head. *)
Definition cache_good (c : lazy_ram_cache) : Prop :=
  cache_off c = true \/
  exists budget pool l, 0 < budget < 2 ^ 63 /\ (0 < pool)%nat /\ Z.of_nat pool <= LAZY_RAM_CACHE_POOL_MAX /\
    Rep ps budget pool c l /\ (forall p d, (p, d) ∈ l -> d = expected p).

(** [X]: pages that are in the image and not marked yet. *)
Record inv (X : Z -> Prop) (w : W) : Prop := {
  iv_index : lh_index (fst w) = I;
  iv_unknown : lh_unknown (fst w) = [];
  iv_refs : st_ref <$> lh_tasks (fst w) = refs;
  iv_bits : bits_ok (fst w);
  iv_cache : cache_good (lh_cache (fst w));
  iv_verified : forall o t d, lh_tasks (fst w) !! o = Some t -> st_verified_bytes t = Some d -> whole_ok o (st_ref t) d;
  iv_applied : forall o t p, lh_tasks (fst w) !! o = Some t -> st_state t = TASK_APPLIED ->
    0 < p <= size -> claimant p = Some o -> bitmap_get (fst w) p = true;
  iv_next : forall o t, (o < next)%nat -> lh_tasks (fst w) !! o = Some t ->
    tr_has_frame_offsets (st_ref t) = false -> st_state t = TASK_APPLIED;
  iv_store : authentic (view (fst (snd w)));
  iv_image : exists file, l_files (snd (snd w)) !! li_path I = Some file /\ size * ps <= zlen file /\
    forall p, 0 < p <= size -> bitmap_get (fst w) p = true \/ in_base p \/ X p -> page_at ps file p = expected p;
  iv_next_apply : lh_next_apply (fst w) = next
}.

(** Marked pages stay marked. *)
Definition grows (w w' : W) : Prop := forall p, 0 <= p -> bitmap_get (fst w) p = true -> bitmap_get (fst w') p = true.

#[global] Instance grows_preorder : PreOrder grows.
Proof. split; [by intros w p|]. intros a b c Hab Hbc p H0 Hp. by apply Hbc, Hab. Qed.

Definition none : Z -> Prop := fun _ => False.
Definition one (p : Z) : Z -> Prop := fun q => q = p.

(** [m] keeps the invariant, and its result satisfies [Q]. *)
Definition keeps {A} (m : M W A) (Q : A -> W -> Prop) : Prop :=
  triple grows (inv none) m (fun a w => inv none w /\ Q a w).

Definition any {A} : A -> W -> Prop := fun _ _ => True.

Lemma keep_ret {A} (a : A) (Q : A -> W -> Prop) : (forall w, Q a w) -> keeps (mret_ a) Q.
Proof. intros H. apply (triple_ret grows). intros w Hw. split; [done|apply H]. Qed.

Lemma keep_bind {A B} (m : M W A) (k : A -> M W B) Q1 Q :
  keeps m Q1 -> (forall a, triple grows (fun w => inv none w /\ Q1 a w) (k a) (fun b w => inv none w /\ Q b w)) ->
  keeps (mbind_ m k) Q.
Proof. intros Hm Hk. exact (triple_bind grows _ m _ k _ Hm Hk). Qed.

(** The continuation needs the invariant only. *)
Lemma keeps_seq {A B} (m : M W A) (k : A -> M W B) Q1 Q :
  keeps m Q1 -> (forall a, keeps (k a) Q) -> keeps (mbind_ m k) Q.
Proof.
  intros Hm Hk. eapply keep_bind; [exact Hm|]. intros a. eapply triple_weaken; [apply Hk|by intros w [? _]|done].
Qed.

Lemma keeps_get {B} (k : otsardb_lazy_hydrator -> M W B) Q :
  (forall h, lh_index h = I -> triple grows (fun w => inv none w /\ fst w = h) (k h) (fun b w => inv none w /\ Q b w)) ->
  keeps (mbind_ get_h k) Q.
Proof.
  intros H w b w' Hw E. unfold mbind_, get_h in E. apply (H (fst w) (iv_index _ _ Hw) w b w'); [by split|done].
Qed.

(** The same, when nothing about the state is needed. *)
Lemma keeps_get_any {B} (k : otsardb_lazy_hydrator -> M W B) Q :
  (forall h, lh_index h = I -> keeps (k h) Q) -> keeps (mbind_ get_h k) Q.
Proof.
  intros H. apply keeps_get. intros h Hh. eapply triple_weaken; [apply (H h Hh)|by intros w [? _]|done].
Qed.

(** ** Changes of the hydrator *)

(** What the invariant reads. *)
Definition core (h : otsardb_lazy_hydrator) :=
  (lh_index h, lh_unknown h, lh_bitmap h, lh_marked_pages h, lh_tasks h, lh_next_apply h, lh_cache h).

Lemma bitmap_get_core h h' p : lh_index h' = lh_index h -> lh_bitmap h' = lh_bitmap h -> bitmap_get h' p = bitmap_get h p.
Proof. intros Ei Eb. unfold bitmap_get, outside, lh_database_size_pages. by rewrite Ei, Eb. Qed.

Lemma bits_ok_core h h' :
  lh_index h' = lh_index h -> lh_bitmap h' = lh_bitmap h -> lh_marked_pages h' = lh_marked_pages h -> bits_ok h -> bits_ok h'.
Proof.
  intros Ei Eb Em [H1 H2 H3]. assert (Es : lh_database_size_pages h' = lh_database_size_pages h)
    by (unfold lh_database_size_pages; by rewrite Ei).
  split; rewrite ?Es, ?Eb, ?Em; [done..|]. rewrite H3. f_equal. apply filter_same. intros q _. symmetry. by apply bitmap_get_core.
Qed.

Lemma inv_core X h h' st : core h' = core h -> inv X (h, st) -> inv X (h', st).
Proof.
  unfold core. intros E. injection E as Ei Eu Eb Em Et En Ec. intros [H1 H2 H3 H4 H5 H6 H7 H8 H9 H10 H11].
  assert (Hg : forall p, bitmap_get h' p = bitmap_get h p) by (intros p; by apply bitmap_get_core).
  cbn [fst snd] in *. split; cbn [fst snd]; rewrite ?Ei, ?Eu, ?Et, ?Ec, ?En; try done.
  - by eapply bits_ok_core.
  - intros o t p. rewrite Hg. by apply H7.
  - destruct H10 as (file & Hf & Hl & Hp). exists file. split; [done|]. split; [done|]. intros p. rewrite Hg. by apply Hp.
Qed.

Lemma grows_core h h' st st' : core h' = core h -> grows (h, st) (h', st').
Proof. unfold core. intros E. injection E as Ei _ Eb _ _ _ _. intros p _. cbn. by rewrite (bitmap_get_core h h'). Qed.

Lemma mod_core X (f : otsardb_lazy_hydrator -> otsardb_lazy_hydrator) (Q : W -> Prop) :
  (forall h, core (f h) = core h) -> (forall h st, Q (h, st) -> Q (f h, st)) ->
  triple grows (fun w => inv X w /\ Q w) (mod_h f) (fun _ w => inv X w /\ Q w).
Proof.
  intros Hc HQ [h st] r w' [Hw Hq] [= <- <-]. split; [by apply grows_core|]. split; [|by apply HQ].
  eapply inv_core; [|exact Hw]. apply Hc.
Qed.

Lemma keeps_mod_core (f : otsardb_lazy_hydrator -> otsardb_lazy_hydrator) :
  (forall h, core (f h) = core h) -> keeps (mod_h f) any.
Proof.
  intros Hc [h st] r w' Hw [= <- <-]. split; [by apply grows_core|]. split; [|done]. eapply inv_core; [|exact Hw]. apply Hc.
Qed.

Lemma core_stats c v h : core (lazy_stats_add64 c v h) = core h.
Proof. by destruct h. Qed.
Lemma core_streak a b h : core (set_streak a b h) = core h.
Proof. by destruct h. Qed.
Lemma core_jobs j h : core (set_jobs j h) = core h.
Proof. by destruct h. Qed.
Lemma core_failed b h : core (set_failed b h) = core h.
Proof. by destruct h. Qed.
Lemma core_pool a b c h : core (set_pool a b c h) = core h.
Proof. by destruct h. Qed.

Lemma core_enqueue o a b h : core (lazy_prefetch_job_enqueue o a b h) = core h.
Proof. unfold lazy_prefetch_job_enqueue. destruct (existsb _ _); [done|]. destruct (_ <=? _); [done|apply core_jobs]. Qed.

Lemma core_windows fuel o p last h : core (schedule_windows fuel o p last h) = core h.
Proof.
  revert p h. induction fuel as [|fuel IH]; intros p h; [done|]. cbn [schedule_windows].
  destruct (last <? p); [done|]. destruct (negb _); [apply IH|]. rewrite IH. apply core_enqueue.
Qed.

Lemma core_schedule p h : core (lazy_prefetch_schedule getenv store p h) = core h.
Proof.
  unfold lazy_prefetch_schedule. destruct (_ || _); [done|]. destruct (lazy_resolve_page h p); [|done].
  destruct (_ || _); [done|]. destruct (_ <? _); [apply core_stats|]. rewrite core_windows. apply core_stats.
Qed.

Lemma core_note_miss p h : core (lazy_note_miss getenv store p h) = core h.
Proof.
  unfold lazy_note_miss. destruct (p =? 0); [done|]. destruct (_ <=? _); [rewrite core_schedule|]; apply core_streak.
Qed.

Lemma core_prefetch_hit p h : core (note_prefetch_hit p h) = core h.
Proof. unfold note_prefetch_hit. destruct (lazy_resolve_page h p); [|done]. destruct (lazy_prefetch_job_done _ _ _); [apply core_stats|done]. Qed.

(** ** Writing and marking *)

Context (Hps : 0 < ps < 2 ^ 32) (Hsize : 0 <= size < UINT32_MAX).
Context (Hexp : forall p, length (expected p) = Z.to_nat ps).
Context (Hclaimed : forall p o, claimant p = Some o -> 0 < p < 2 ^ 32).
Context (Hstable : forall v v', env v v' -> authentic v -> authentic v').

Lemma resolve_claimant h p : lh_index h = I -> lazy_resolve_page h p = claimant p.
Proof. intros E. unfold lazy_resolve_page, claimant. by rewrite E. Qed.

Lemma page_write_expected p file file' q :
  0 < p -> 0 < q <= size -> size * ps <= zlen file -> page_write ps p (expected p) file file' ->
  page_at ps file q = expected q -> page_at ps file' q = expected q.
Proof.
  intros Hp Hq Hl [->|[n ->]] Hold; [done|]. assert (q * ps <= zlen file) by nia.
  destruct (decide (q = p)) as [->|Hne].
  - rewrite <- Hold at 1. rewrite page_prefix by (done || lia). done.
  - rewrite page_other; [done|lia..| |done]. rewrite length_take, Hexp. lia.
Qed.

Lemma page_write_length p d file file' : 0 < p -> page_write ps p d file file' -> zlen file <= zlen file'.
Proof.
  intros Hp [->|[n ->]]; [lia|]. unfold zlen. pose proof (length_write_at file ((p - 1) * ps) (take n d) ltac:(nia)). lia.
Qed.

(** The bytes of the head reach the image. *)
Lemma inv_write X h s l l' p file file' :
  inv X (h, (s, l)) -> 0 < p -> l_files l !! li_path I = Some file -> l_files l' !! li_path I = Some file' ->
  page_write ps p (expected p) file file' ->
  inv X (h, (s, l')) /\ (file' = write_at file ((p - 1) * ps) (expected p) -> inv (fun q => X q \/ q = p) (h, (s, l'))).
Proof.
  intros [H1 H2 H3 H4 H5 H6 H7 H8 H9 H10 H11] Hp Hf Hf' Hw. cbn [fst snd] in *.
  destruct H10 as (file0 & Hf0 & Hl & Hpages). assert (file0 = file) as -> by congruence.
  pose proof (page_write_length p _ _ _ Hp Hw) as Hlen. split.
  - split; try done. cbn [fst snd]. exists file'. split; [done|]. split; [lia|]. intros q Hq HX.
    eapply page_write_expected; [exact Hp|done|done|exact Hw|by apply Hpages].
  - intros ->. split; try done. cbn [fst snd]. exists (write_at file ((p - 1) * ps) (expected p)). split; [done|]. split; [lia|].
    intros q Hq HX. destruct (decide (q = p)) as [->|Hne]; [apply page_written; [lia|done|apply Hexp]|].
    eapply page_write_expected; [exact Hp|done|done|exact Hw|]. apply Hpages; [done|]. destruct HX as [?|[?|[?|?]]]; tauto.
Qed.

Lemma inv_weaken (X Y : Z -> Prop) w : (forall p, 0 < p <= size -> Y p -> X p \/ bitmap_get (fst w) p = true) -> inv X w -> inv Y w.
Proof.
  intros HXY [H1 H2 H3 H4 H5 H6 H7 H8 H9 H10 H11]. split; try done. destruct H10 as (file & Hf & Hl & Hp).
  exists file. split; [done|]. split; [done|]. intros p Hr HY. apply Hp; [done|].
  destruct HY as [?|[?|HY]]; [tauto..|]. destruct (HXY p Hr HY); tauto.
Qed.

(** The page is in the image: it can be marked. *)
Lemma inv_mark h st p :
  inv (one p) (h, st) -> 0 <= p ->
  inv none (bitmap_set p h, st) /\ grows (h, st) (bitmap_set p h, st) /\
  (0 < p <= size -> bitmap_get (bitmap_set p h) p = true).
Proof.
  intros Hw Hp. pose proof (iv_bits _ _ Hw) as Hb. cbn [fst] in Hb.
  destruct (bitmap_set_spec h p Hb Hp) as (Hb' & Ei & Ec & Hget).
  assert (Hpos : forall q, bitmap_get h q = true -> 0 <= q -> bitmap_get (bitmap_set p h) q = true).
  { intros q Hq Hq0. rewrite Hget by done. by rewrite Hq, orb_true_r. }
  assert (Eo : lh_unknown (bitmap_set p h) = lh_unknown h /\ lh_tasks (bitmap_set p h) = lh_tasks h /\
               lh_next_apply (bitmap_set p h) = lh_next_apply h).
  { unfold bitmap_set. destruct (_ || _); [done|]. by destruct h. }
  destruct Eo as (Eu & Et & En). destruct Hw as [H1 H2 H3 H4 H5 H6 H7 H8 H9 H10 H11]. cbn [fst snd] in *.
  assert (Hsz : lh_database_size_pages h = size) by (unfold lh_database_size_pages; by rewrite H1).
  split; [|split].
  - split; cbn [fst snd]; rewrite ?Ei, ?Eu, ?Et, ?Ec, ?En; try done.
    + intros o t q Ht Hs Hq Hc. apply Hpos; [by eapply H7|lia].
    + destruct H10 as (file & Hf & Hl & Hpages). exists file. split; [done|]. split; [done|]. intros q Hq HX.
      apply Hpages; [done|]. rewrite Hget in HX by lia. destruct HX as [HX|[HX|[]]]; [|tauto].
      apply orb_prop in HX as [HX|HX]; [|tauto]. apply andb_prop in HX as [_ HX]. apply bool_decide_eq_true in HX.
      right. right. exact HX.
  - intros q H0 Hq. by apply Hpos.
  - intros Hr. rewrite Hget by lia. rewrite bool_decide_eq_true_2 by done. rewrite andb_true_r.
    apply orb_true_intro. left. apply negb_true_iff, outside_false. lia.
Qed.

(** Bytes of the head may enter the cache. *)
Lemma cache_good_store c p page :
  cache_good c -> take (Z.to_nat ps) page = expected p -> cache_good (lazy_cache_store ps p page c).
Proof.
  intros [Hoff|(budget & pool & l & Hb & Hpool & Hmax & Hrep & Hl)] Hd.
  - left. unfold lazy_cache_store. by rewrite Hoff.
  - right. exists budget, pool, (lru_store ps budget pool p (take (Z.to_nat ps) page) l).
    split; [done|]. split; [done|]. split; [done|]. split; [by apply store_ok|]. rewrite Hd.
    intros q e. unfold lru_store. destruct (p =? 0); [by apply Hl|]. destruct (lru_get p l).
    + intros [[= -> ->]|Hin]%elem_of_cons; [done|]. by eapply Hl, lru_del_sub.
    + intros [[= -> ->]|Hin]%elem_of_cons; [done|]. apply elem_of_take in Hin as (i & Hi & _).
      apply Hl. by eapply list_elem_of_lookup_2.
Qed.

Lemma inv_cache X h st c : inv X (h, st) -> cache_good c -> inv X (set_cache c h, st).
Proof.
  intros [H1 H2 H3 H4 H5 H6 H7 H8 H9 H10 H11] Hc. destruct h. split; try done. eapply bits_ok_core; [..|exact H4]; done.
Qed.

Lemma inv_cache_store X h st p page :
  inv X (h, st) -> take (Z.to_nat ps) page = expected p -> inv X (cache_store p page h, st).
Proof.
  intros H Hd. apply inv_cache; [done|]. pose proof (iv_index _ _ H) as Hi. cbn in Hi. unfold lh_page_size. rewrite Hi.
  apply cache_good_store; [apply (iv_cache _ _ H)|done].
Qed.

Lemma bitmap_get_set_cache c h p : bitmap_get (set_cache c h) p = bitmap_get h p.
Proof. by destruct h. Qed.

Lemma inv_demand h st p page :
  inv (one p) (h, st) -> 0 <= p -> take (Z.to_nat ps) page = expected p ->
  inv none (demand_written getenv store p page h, st) /\ grows (h, st) (demand_written getenv store p page h, st) /\
  (0 < p <= size -> bitmap_get (demand_written getenv store p page h) p = true).
Proof.
  intros Hw Hp Hd. destruct (inv_mark h st p Hw Hp) as (Hi & Hg & Hm). unfold demand_written, cache_store.
  set (h1 := lazy_note_miss _ _ _ _). assert (Ec : core h1 = core (bitmap_set p h)).
  { unfold h1. by rewrite core_note_miss, core_stats. }
  assert (Eg : forall q, bitmap_get h1 q = bitmap_get (bitmap_set p h) q).
  { intros q. unfold core in Ec. injection Ec as E1 _ E2 _ _ _ _. by apply bitmap_get_core. }
  split; [|split].
  - apply inv_cache_store; [|done]. eapply inv_core; [exact Ec|done].
  - intros q H0 Hq. cbn [fst]. rewrite bitmap_get_set_cache, Eg. by apply Hg.
  - intros Hr. rewrite bitmap_get_set_cache, Eg. by apply Hm.
Qed.

(** A lookup finds bytes of the head. *)
Lemma cache_good_lookup c p r c' :
  cache_good c -> cache_off c = false -> lazy_cache_lookup p c = (r, c') ->
  cache_good c' /\ (forall d, r = Some d -> d = expected p).
Proof.
  intros [Hoff|(budget & pool & l & Hb & Hpool & Hmax & Hrep & Hl)] Hon E; [congruence|].
  assert (Hok : fst (lazy_cache_lookup p c) = fst (lru_lookup p l) /\
                Rep ps budget pool (snd (lazy_cache_lookup p c)) (snd (lru_lookup p l))) by (apply lookup_ok; done || lia).
  destruct Hok as [Hr Hrep']. rewrite E in Hr, Hrep'. cbn [fst snd] in *.
  unfold lru_lookup in Hr, Hrep'. destruct (lru_get p l) as [d|] eqn:Ed; cbn [fst snd] in *; subst r.
  - apply lru_get_in in Ed. split; [|intros ? [= <-]; by apply Hl].
    right. exists budget, pool, ((p, d) :: lru_del p l). do 4 (split; [done|]).
    intros q e [[= -> ->]|Hin]%elem_of_cons; [by apply Hl|]. by eapply Hl, lru_del_sub.
  - split; [|done]. right. by exists budget, pool, l.
Qed.

(** ** Steps *)

Lemma keeps_weaken {A} (m : M W A) (Q Q' : A -> W -> Prop) : keeps m Q -> (forall a w, Q a w -> Q' a w) -> keeps m Q'.
Proof. intros H HQ. eapply triple_weaken; [exact H|done|]. intros a w [? ?]. split; [done|by apply HQ]. Qed.

(** A file call that writes bytes of the head to page [p]. *)
Lemma image_write X (m : M local bool) p :
  0 < p ->
  (forall l b l' file, l_files l !! li_path I = Some file -> m l = (b, l') ->
     exists file', l_files l' !! li_path I = Some file' /\ page_write ps p (expected p) file file' /\
                   (b = true -> file' = write_at file ((p - 1) * ps) (expected p))) ->
  triple grows (inv X) (in_files (S := S) m) (fun b w => inv X w /\ (b = true -> inv (fun q => X q \/ q = p) w)).
Proof.
  intros Hp Hm [h [s l]] b w' Hw E. unfold in_files, on_files in E. cbn in E. destruct (m l) as [b0 l'] eqn:Em.
  injection E as <- <-. destruct (iv_image _ _ Hw) as (file & Hf & _). cbn in Hf.
  destruct (Hm _ _ _ _ Hf Em) as (file' & Hf' & Hpw & Hok). split; [by intros q|].
  destruct (inv_write X h s l l' p file file' Hw Hp Hf Hf' Hpw) as [H1 H2]. split; [done|]. intros Hb. by apply H2, Hok.
Qed.

(** A file call that writes nothing. *)
Lemma keeps_files {A} (m : M local A) :
  (forall l a l', m l = (a, l') -> l_files l' = l_files l) -> keeps (in_files (S := S) m) any.
Proof.
  intros Hm [h [s l]] a w' Hw E. unfold in_files, on_files in E. cbn in E. destruct (m l) as [a0 l'] eqn:Em.
  injection E as <- <-. split; [by intros q|]. split; [|done].
  destruct Hw as [H1 H2 H3 H4 H5 H6 H7 H8 H9 H10 H11]. split; try done. cbn in *. by rewrite (Hm _ _ _ Em).
Qed.

Lemma to_one p w : inv (fun q => none q \/ q = p) w -> inv (one p) w.
Proof. apply inv_weaken. intros q _ Hq. left. by right. Qed.

Lemma write_page_file_keeps p page :
  0 < p < 2 ^ 32 -> take (Z.to_nat ps) page = expected p ->
  triple grows (inv none) (lazy_write_page_file p page) (fun b w => inv none w /\ (b = true -> inv (one p) w)).
Proof.
  intros Hp Hd. apply (triple_bind grows _ _ (fun h w => inv none w /\ lh_index h = I)).
  { intros w h w' Hw [= <- <-]. split; [done|]. split; [done|apply (iv_index _ _ Hw)]. }
  intros h w b w' [Hw Hh] E. unfold lh_page_size in E. rewrite Hh in E.
  eapply (image_write none _ p ltac:(lia)) in E as (Hg & Hi & Hb); [|intros l b0 l' file Hf Em|exact Hw].
  - split; [done|]. split; [done|]. intros ->. by apply to_one, Hb.
  - rewrite <- Hd. by eapply write_page_file_effect.
Qed.

Lemma write_page_keeps p page :
  0 < p < 2 ^ 32 -> page = expected p ->
  triple grows (inv none) (in_files (S := S) (write_page (li_path I) p ps page)) (fun b w => inv none w /\ (b = true -> inv (one p) w)).
Proof.
  intros Hp -> w b w' Hw E. eapply (image_write none _ p ltac:(lia)) in E as (Hg & Hi & Hb); [|intros l b0 l' file Hf Em|exact Hw].
  - split; [done|]. split; [done|]. intros ->. by apply to_one, Hb.
  - by eapply write_page_effect.
Qed.

(** The page is in range and marked. *)
Definition marked (p : Z) (w : W) : Prop := 0 < p <= size -> bitmap_get (fst w) p = true.

Lemma marked_stable p : stable grows (marked p).
Proof. intros w w' Hg Hm Hp. apply Hg; [lia|by apply Hm]. Qed.

(** A change that marks page [p], which the image has, and stores it in the cache
    or not. *)
Definition marking (p : Z) (f : otsardb_lazy_hydrator -> otsardb_lazy_hydrator) : Prop :=
  forall h st, inv (one p) (h, st) -> inv none (f h, st) /\ grows (h, st) (f h, st) /\ marked p (f h, st).

Lemma marking_triple p f :
  marking p f -> triple grows (inv (one p)) (mod_h f) (fun _ w => inv none w /\ marked p w).
Proof. intros Hf [h st] a w' Hw [= <- <-]. destruct (Hf h st Hw) as (? & ? & ?). by split. Qed.

Lemma marking_set p : 0 <= p -> marking p (bitmap_set p).
Proof. intros Hp h st Hw. by apply inv_mark. Qed.

Lemma marking_demand p page : 0 <= p -> take (Z.to_nat ps) page = expected p -> marking p (demand_written getenv store p page).
Proof. intros Hp Hd h st Hw. by apply inv_demand. Qed.

Lemma marking_core p f g : marking p f -> (forall h, core (g h) = core (f h)) -> marking p g.
Proof.
  intros Hf Hc h st Hw. destruct (Hf h st Hw) as (Hi & Hg & Hm). specialize (Hc h). split; [by eapply inv_core|].
  assert (Eg : forall q, bitmap_get (g h) q = bitmap_get (f h) q).
  { intros q. unfold core in Hc. injection Hc as E1 _ E2 _ _ _ _. by apply bitmap_get_core. }
  split; [intros q Hq0 Hq; cbn|intros Hr; cbn]; rewrite Eg; [by apply Hg|by apply Hm].
Qed.

Lemma marking_cache p page f : marking p f -> take (Z.to_nat ps) page = expected p -> marking p (fun h => cache_store p page (f h)).
Proof.
  intros Hf Hd h st Hw. destruct (Hf h st Hw) as (Hi & Hg & Hm). split; [by apply inv_cache_store|].
  unfold cache_store. split; [intros q Hq0 Hq; cbn|intros Hr; cbn]; rewrite bitmap_get_set_cache; [by apply Hg|by apply Hm].
Qed.

(** Write, then mark; what follows needs the invariant and the mark. *)
Lemma write_then {A} p (m : M W bool) (f : bool -> M W A) (Q : A -> W -> Prop) :
  triple grows (inv none) m (fun b w => inv none w /\ (b = true -> inv (one p) w)) ->
  keeps (f false) Q ->
  (triple grows (inv (one p)) (f true) (fun a w => inv none w /\ Q a w)) ->
  keeps (mbind_ m f) Q.
Proof.
  intros Hm Hfail Hok. refine (triple_bind grows _ m _ f _ Hm _). intros [].
  - eapply triple_weaken; [exact Hok| |done]. intros w [_ H]. by apply H.
  - eapply triple_weaken; [exact Hfail|by intros w [? _]|done].
Qed.

Lemma mark_then {A} p f (k : M W A) (Q : A -> W -> Prop) :
  marking p f -> keeps k Q ->
  triple grows (inv (one p)) (mbind_ (mod_h f) (fun _ => k)) (fun a w => inv none w /\ (marked p w /\ Q a w)).
Proof.
  intros Hf Hk. refine (triple_bind grows _ _ _ _ _ (marking_triple p f Hf) _). intros _.
  eapply triple_weaken; [exact (triple_frame grows (marked p) _ k _ (marked_stable p) Hk)|done|].
  intros a w [[? ?] ?]. done.
Qed.

(** What was just read of the state is not needed, or shows a mark. *)
Lemma keeps_forget {B} h (k : M W B) (Q : B -> W -> Prop) :
  keeps k Q -> triple grows (fun w => inv none w /\ fst w = h) k (fun r w => inv none w /\ Q r w).
Proof. intros H. eapply triple_weaken; [exact H|by intros w [? _]|done]. Qed.

Lemma keeps_known_mark {B} h p (k : M W B) (Q : B -> W -> Prop) :
  bitmap_get h p = true -> keeps k Q ->
  triple grows (fun w => inv none w /\ fst w = h) k (fun r w => inv none w /\ (marked p w /\ Q r w)).
Proof.
  intros Hb H. eapply triple_weaken; [exact (triple_frame grows (marked p) _ k _ (marked_stable p) H)| |].
  - intros w [Hw <-]. split; [done|]. by intros _.
  - intros a w [[? ?] ?]. done.
Qed.

(** A page that the cache has is written and marked. *)
Lemma cache_hit_keeps p h c' :
  0 < p < 2 ^ 32 ->
  triple grows (fun w => inv none w /\ fst w = set_cache c' h)
    (let! _ := mod_h (lazy_stats_add64 ram_hits 1) in
     if bitmap_get h p then (let! _ := mod_h (note_prefetch_hit p) in return! true)
     else
       let! written := lazy_write_page_file p (expected p) in
       if negb written then return! false else
       let! _ := mod_h (fun h => lazy_note_miss getenv store p (lazy_stats_add64 demand_misses 1 (bitmap_set p h))) in
       return! true) (fun b w => inv none w /\ (b = true -> marked p w)).
Proof.
  intros Hp. destruct (bitmap_get h p) eqn:Eb.
  - eapply triple_weaken; [eapply (keeps_known_mark (set_cache c' h) p)|done|].
    + by rewrite bitmap_get_set_cache.
    + eapply (keeps_seq _ _ any); [apply keeps_mod_core, core_stats|]. intros _.
      eapply (keeps_seq _ _ any); [apply keeps_mod_core, core_prefetch_hit|]. intros _. by apply (keep_ret true any).
    + intros b w1 (? & ? & _). by split.
  - apply keeps_forget. eapply (keeps_seq _ _ any); [apply keeps_mod_core, core_stats|]. intros _.
    eapply (write_then p).
    + apply write_page_file_keeps; [done|]. rewrite take_ge; [done|]. by rewrite Hexp.
    + by apply keep_ret.
    + eapply triple_weaken; [eapply (mark_then p _ _ any)|done|].
      * eapply marking_core; [apply (marking_set p); lia|]. intros h0. by rewrite core_note_miss, core_stats.
      * by apply (keep_ret true any).
      * intros b w1 (? & ? & _). by split.
Qed.

(** A hit of the cache leaves the page marked. *)
Lemma cache_resolve_keeps p :
  0 < p < 2 ^ 32 -> keeps (lazy_cache_resolve_page getenv store p) (fun b w => b = true -> marked p w).
Proof.
  intros Hp. apply keeps_get. intros h Hh. destruct (cache_off (lh_cache h)) eqn:Hoff; [apply keeps_forget, keep_ret; by intros|].
  destruct (lazy_cache_lookup p (lh_cache h)) as [cached c'] eqn:El.
  apply (triple_bind grows _ _ (fun _ w => (inv none w /\ fst w = set_cache c' h) /\ forall d, cached = Some d -> d = expected p)).
  { intros [h0 st] a w' [Hw Hf] [= <- <-]. cbn in Hf. subst h0. cbn [fst snd].
    destruct (cache_good_lookup _ _ _ _ (iv_cache _ _ Hw) Hoff El) as [Hc Hd]. split; [|split; [|done]; split; [by apply inv_cache|done]].
    intros q _. cbn. by rewrite bitmap_get_set_cache. }
  intros _ w r w' [Hw Hd]. destruct cached as [d|].
  - rewrite (Hd d eq_refl). by apply (cache_hit_keeps p h c' Hp w r w').
  - clear Hd. revert w r w' Hw. apply keeps_forget. eapply (keeps_seq _ _ any); [apply keeps_mod_core, core_stats|].
    intros _. by apply keep_ret.
Qed.

(** ** Blocks of a slice *)

Lemma frame_page_resolves h p o :
  lh_index h = I -> bool_decide (lazy_resolve_page h p = Some o) = true -> claimant p = Some o.
Proof. intros Hh H. apply bool_decide_eq_true in H. by rewrite <- (resolve_claimant h p Hh). Qed.

(** The blocks that a job fetched. *)
Lemma prefetch_apply_keeps count o p slice pos :
  slice_ok o slice -> reached slice pos -> keeps (prefetch_apply count o p slice pos) any.
Proof.
  intros Hs. revert p pos. induction count as [|count IH]; intros p pos Hr; [by apply keep_ret|]. cbn [prefetch_apply].
  apply keeps_get_any. intros h Hh. destruct (lh_fetch_failed h); [by apply keep_ret|].
  destruct (otsardb_segment_frame_decode slice pos) as [[[frame q] pos']|] eqn:Ed; [|by apply keep_ret].
  pose proof (reached_next _ _ _ _ _ Hr Ed) as Hr'.
  destruct (_ || negb _) eqn:Et; [by apply keep_ret|]. apply orb_false_elim in Et as [_ Et].
  apply negb_false_iff, Z.eqb_eq in Et. subst q.
  destruct (bitmap_get h p || _) eqn:Ec; [by apply IH|]. apply orb_false_elim in Ec as [_ Ec].
  apply negb_false_iff, frame_page_resolves in Ec; [|done].
  pose proof (Hs _ _ _ _ Hr Ed Ec) as Hd. pose proof (Hclaimed _ _ Ec) as Hp.
  eapply (write_then p); [by apply write_page_file_keeps|by apply keep_ret|].
  eapply triple_weaken; [eapply (mark_then p _ _ any)|done|by intros a w (? & _)]; [|by apply IH].
  apply (marking_cache p (drop 8 frame)); [|done].
  eapply marking_core; [apply (marking_set p); lia|]. intros h0. by rewrite core_stats.
Qed.

(** The blocks of a run of requests. *)
Lemma apply_run_keeps count run pages idx slice pos :
  slice_ok (fr_ordinal run) slice -> reached slice pos -> keeps (apply_run getenv store count run pages idx slice pos) any.
Proof.
  intros Hs. revert idx pos. induction count as [|count IH]; intros idx pos Hr; [by apply keep_ret|]. cbn [apply_run].
  destruct (otsardb_segment_frame_decode slice pos) as [[[frame q] pos']|] eqn:Ed; [|by apply keep_ret].
  pose proof (reached_next _ _ _ _ _ Hr Ed) as Hr'. apply keeps_get_any. intros h Hh.
  destruct (_ || negb _); [by apply keep_ret|]. destruct (_ && _) eqn:Ec; [|by apply IH].
  apply andb_prop in Ec as [_ Ec]. apply frame_page_resolves in Ec; [|done].
  pose proof (Hs _ _ _ _ Hr Ed Ec) as Hd. pose proof (Hclaimed _ _ Ec) as Hp.
  eapply (write_then q); [by apply write_page_file_keeps|by apply keep_ret|].
  eapply triple_weaken; [eapply (mark_then q _ _ any)|done|by intros a w (? & _)]; [|by apply IH].
  apply marking_demand; [lia|done].
Qed.

Lemma apply_runs_keeps slices :
  (forall run slice, (run, Some slice) ∈ slices -> slice_ok (fr_ordinal run) slice) ->
  keeps (apply_runs getenv store slices) any.
Proof.
  induction slices as [|[run [slice|]] slices IH]; intros Hs; cbn [apply_runs]; [by apply keep_ret| |by apply keep_ret].
  apply keeps_get_any. intros h Hh. destruct (ordinal_segment h _) as [ref|]; [|by apply keep_ret].
  eapply (keeps_seq _ _ any); [apply apply_run_keeps; [apply Hs; by left|constructor]|].
  intros []; [|by apply keep_ret]. apply IH. intros r sl Hin. apply Hs. by right.
Qed.

(** ** Requests *)

(** A call on the store. *)
Lemma keeps_store {A} (m : M S A) (Q : A -> Prop) :
  (forall s a s', m s = (a, s') -> env (view s) (view s') /\ (authentic (view s') -> Q a)) ->
  keeps (in_store m) (fun a _ => Q a).
Proof.
  intros Hm [h [s l]] a w' Hw E. unfold in_store, on_store in E. cbn in E. destruct (m s) as [a0 s'] eqn:Em.
  injection E as <- <-. destruct (Hm _ _ _ Em) as [He HQ]. split; [by intros q|].
  destruct Hw as [H1 H2 H3 H4 H5 H6 H7 H8 H9 H10 H11]. assert (Ha : authentic (view s')) by (eapply Hstable; [exact He|exact H9]).
  split; [|by apply HQ]. by split.
Qed.

(** The slice of a range of blocks. *)
Lemma get_slice_keeps o ref a b :
  refs !! o = Some ref -> block_bounds o a b ->
  keeps (get_slice store (tr_absolute_key ref) a b) (fun r _ => forall slice, r = Some slice -> slice_ok o slice).
Proof.
  intros Ho Hb. unfold get_slice.
  eapply keep_bind; [apply (keeps_store _ (fun r => forall ob, r = inr ob -> slice_ok o (so_data ob)))|].
  - intros s r s' E. destruct (range_law _ _ _ _ _ _ E) as [He Hr]. split; [done|]. intros [_ Ha] ob ->.
    destruct Hr as (whole & Hw & ->). by eapply Ha.
  - intros r. apply (triple_ret grows). intros w [Hw Hs]. split; [done|]. intros slice Hsl. destruct r as [|ob]; [done|].
    destruct (_ =? _); [|done]. injection Hsl as <-. by apply Hs.
Qed.

(** The offsets of a segment are one per page. *)
Context (Hoffsets : forall m enc seg offsets, (m, enc) ∈ li_manifests I -> seg ∈ cm_segments m ->
                    sg_frame_offsets seg = Some offsets -> length offsets = length (sg_pages seg)).

Definition run_ok (run : lazy_fetch_run) : Prop := block_bounds (fr_ordinal run) (fr_range_start run) (fr_range_end run).

Lemma page_index_lt pages p k : page_index pages p = Some k -> (k < length pages)%nat.
Proof. unfold page_index. case_bool_decide as H; [|done]. intros [= <-]. by apply lookup_lt_Some in H. Qed.

Lemma block_range_ok h task o ref offsets k len a b :
  lh_index h = I -> st_ref <$> lh_tasks h = refs -> lh_tasks h !! o = Some task -> task_segment h task = Some ref ->
  sg_frame_offsets ref = Some offsets -> (k < length (sg_pages ref))%nat ->
  block_range ref offsets k len = Some (a, b) -> block_bounds o a b.
Proof.
  intros Hh Hrefs Ht Hseg Hoff Hk. unfold task_segment in Hseg. rewrite Hh in Hseg.
  destruct (li_manifests I !! _) as [[m enc]|] eqn:Em; [|done].
  pose proof (Hoffsets m enc ref offsets ltac:(by eapply list_elem_of_lookup_2) ltac:(by eapply list_elem_of_lookup_2) Hoff) as Hlen.
  unfold block_range. destruct (_ || _); [done|]. intros [= <- <-].
  exists (st_ref task), ref, offsets. split; [rewrite <- Hrefs, list_lookup_fmap, Ht; done|].
  split; [by exists m, enc|]. split; [done|].
  assert (Hat : forall i, (i < length (sg_pages ref))%nat -> exists j, offsets !! j = Some (default 0 (offsets !! i))).
  { intros i Hi. destruct (lookup_lt_is_Some_2 offsets i ltac:(lia)) as [x Hx]. exists i. by rewrite Hx. }
  split; [by apply Hat|]. destruct (Nat.ltb_spec (k + len) (length (sg_pages ref))); [left; by apply Hat|by right].
Qed.

Lemma build_runs_ok h fuel reqs runs :
  lh_index h = I -> st_ref <$> lh_tasks h = refs -> build_runs fuel h reqs = Some runs -> Forall run_ok runs.
Proof.
  intros Hh Hrefs. revert reqs runs. induction fuel as [|fuel IH]; intros [|[o p] reqs] runs; cbn [build_runs]; try done.
  1, 2: intros [= <-]; apply Forall_nil_2.
  unfold ordinal_segment. destruct (lh_tasks h !! o) as [task|] eqn:Et; [|done].
  destruct (task_segment h task) as [ref|] eqn:Er; [|done]. destruct (sg_frame_offsets ref) as [offsets|] eqn:Eo; [|done].
  destruct (page_index (sg_pages ref) p) as [k|] eqn:Ek; [|done]. apply page_index_lt in Ek.
  destruct (span_run o p reqs) as [n rest]. destruct (_ <? _)%nat; [done|].
  destruct (block_range ref offsets k _) as [[a b]|] eqn:Eb; [|done].
  destruct (build_runs fuel h rest) as [rs|] eqn:Ebr; [|done]. intros [= <-]. apply Forall_cons_2; [|by eapply IH].
  unfold run_ok. cbn. by eapply block_range_ok.
Qed.

Lemma merge_run_ok o run : fr_ordinal o = fr_ordinal run -> run_ok o -> run_ok run -> run_ok (merge_run o run).
Proof.
  unfold run_ok. cbn. intros Eo (ref & seg & offs & Hr & (m & enc & Hm & Hs) & Ho & Ha & _)
    (ref' & seg' & offs' & Hr' & (m' & enc' & Hm' & Hs') & Ho' & _ & Hb). rewrite <- Eo in Hr'.
  assert (ref' = ref) as -> by congruence. assert (m' = m) as -> by congruence.
  assert (seg' = seg) as -> by congruence. assert (offs' = offs) as -> by congruence.
  exists ref, seg, offs. split; [done|]. split; [by exists m, enc|]. by split.
Qed.

Lemma Forall_swap_remove {A} (P : A -> Prop) i (l : list A) : Forall P l -> Forall P (swap_remove i l).
Proof.
  intros H. unfold swap_remove. destruct (list.last l) as [x|] eqn:El; [|done]. apply Forall_take, Forall_insert; [done|].
  apply last_Some in El as [l' ->]. apply list.Forall_app in H as [_ H]. by apply list.Forall_cons in H as [H _].
Qed.

Lemma coalesce_ok cmax runs opened closed :
  Forall run_ok runs -> Forall run_ok opened -> Forall run_ok closed -> Forall run_ok (coalesce_loop cmax runs opened closed).
Proof.
  revert opened closed. induction runs as [|run runs IH]; intros opened closed Hr Ho Hc; cbn [coalesce_loop].
  { by apply Forall_app_2. }
  apply list.Forall_cons in Hr as [Hrun Hr]. destruct (list_find _ opened) as [[slot o]|] eqn:Ef.
  - apply list_find_Some in Ef as (Hslot & Eord & _).
    assert (Hopen : run_ok o) by (eapply Forall_lookup_1; [exact Ho|exact Hslot]).
    destruct (merges cmax o run).
    + apply IH; [done| |done]. apply Forall_insert; [done|]. by apply merge_run_ok.
    + apply IH; [done|apply Forall_app_2; [by apply Forall_swap_remove|]|apply Forall_app_2; [done|]];
        apply Forall_cons_2; try apply Forall_nil_2; done.
  - apply IH; [done| |done]. apply Forall_app_2; [done|]. apply Forall_cons_2; [done|apply Forall_nil_2].
Qed.

Lemma run_key_ref h run ref : st_ref <$> lh_tasks h = refs -> refs !! fr_ordinal run = Some ref -> run_key h run = tr_absolute_key ref.
Proof.
  intros <- H. rewrite list_lookup_fmap in H. unfold run_key. destruct (lh_tasks h !! fr_ordinal run); [|done].
  by injection H as <-.
Qed.

Lemma keeps_get_refs {B} (k : otsardb_lazy_hydrator -> M W B) Q :
  (forall h, lh_index h = I -> st_ref <$> lh_tasks h = refs -> keeps (k h) Q) -> keeps (mbind_ get_h k) Q.
Proof.
  intros H w b w' Hw E. unfold mbind_, get_h in E.
  exact (H (fst w) (iv_index _ _ Hw) (iv_refs _ _ Hw) w b w' Hw E).
Qed.

Lemma fetch_runs_keeps runs :
  Forall run_ok runs ->
  keeps (fetch_runs store runs) (fun slices _ => forall run slice, (run, Some slice) ∈ slices -> slice_ok (fr_ordinal run) slice).
Proof.
  induction runs as [|run runs IH]; intros Hr; cbn [fetch_runs].
  { apply keep_ret. intros _ r sl Hin. by apply elem_of_nil in Hin. }
  apply list.Forall_cons in Hr as [Hrun Hr]. apply keeps_get_refs. intros h Hh Hrefs.
  pose proof Hrun as (ref & _ & _ & Href & _). rewrite (run_key_ref h run ref Hrefs Href).
  eapply keep_bind; [by apply get_slice_keeps|]. intros sl.
  eapply (triple_bind grows); [exact (triple_frame grows _ _ _ _ (stable_pure grows _) (IH Hr))|].
  intros slices. apply (triple_ret grows). intros w [[Hw Hs] Hsl]. split; [done|].
  intros r s [E|Hin]%elem_of_cons; [injection E as -> E; by apply Hsl|by eapply Hs].
Qed.

Lemma collect_keeps count p aware :
  0 < p -> p + Z.of_nat count <= 2 ^ 32 -> keeps (collect_requests getenv store count p aware) any.
Proof.
  revert p. induction count as [|count IH]; intros p Hp Hc; [by apply keep_ret|]. cbn [collect_requests].
  assert (Hnext : keeps (collect_requests getenv store count (p + 1) aware) any) by (apply IH; lia).
  eapply keeps_seq; [apply cache_resolve_keeps; lia|]. intros []; [done|].
  apply keeps_get_any. intros h _. destruct (bitmap_get h p).
  { eapply (keeps_seq _ _ any); [apply keeps_mod_core, core_prefetch_hit|by intros _]. }
  destruct (lazy_resolve_page h p); [|done]. destruct (_ || _); [done|].
  eapply keeps_seq; [exact Hnext|]. intros rest. by apply keep_ret.
Qed.

Lemma core_count_runs rs h : core (foldl (fun h r => count_run r h) h rs) = core h.
Proof.
  revert h. induction rs as [|[run sl] rs IH]; intros h; [done|]. cbn [foldl]. rewrite IH.
  unfold count_run. destruct sl; [|by rewrite !core_stats]. destruct (_ <? _)%nat; by rewrite !core_stats.
Qed.

(** The inline requests. *)
Lemma inline_keeps first last aware :
  0 < first < 2 ^ 32 -> last < 2 ^ 32 -> keeps (lazy_hydrate_frames_inline getenv store first last aware) any.
Proof.
  intros Hf Hl. apply keeps_get_any. intros h0 _. destruct (_ || _); [by apply keep_ret|].
  eapply keeps_seq; [apply collect_keeps; [lia|]|intros reqs].
  { lia. }
  apply keeps_get_refs. intros h Hh Hrefs. destruct (build_runs _ _ _) as [runs|] eqn:Eb; [|by apply keep_ret].
  apply build_runs_ok in Eb; [|done..].
  assert (Hruns : Forall run_ok (coalesce_runs (lazy_coalesce_max getenv) runs)) by (apply coalesce_ok; done || apply Forall_nil_2).
  cbv zeta. destruct (negb (forallb _ _)).
  { eapply (keeps_seq _ _ any); [apply keeps_mod_core|by intros _; apply keep_ret]. intros h1.
    set (f := fun run => (run, if run_in_object h run then Some ([] : bytes) else None)).
    rewrite <- (core_count_runs (f <$> coalesce_runs (lazy_coalesce_max getenv) runs) h1). by rewrite foldl_fmap. }
  eapply keep_bind; [by apply fetch_runs_keeps|]. intros slices.
  intros w b w' [Hw Hs]. revert w b w' Hw. eapply (keeps_seq _ _ any); [apply keeps_mod_core, core_count_runs|]. intros _.
  destruct (forallb _ _); [|by apply keep_ret]. by apply apply_runs_keeps.
Qed.

(** A job of a worker. *)
Lemma prefetch_run_keeps o first last : keeps (lazy_prefetch_fetch_run store o first last) any.
Proof.
  apply keeps_get_refs. intros h Hh Hrefs. destruct (lh_tasks h !! o) as [task|] eqn:Et; [|by apply keep_ret].
  destruct (negb _); [by apply keep_ret|]. destruct (task_segment h task) as [ref|] eqn:Er; [|by apply keep_ret].
  destruct (sg_frame_offsets ref) as [offsets|] eqn:Eo; [|by apply keep_ret].
  destruct (page_index (sg_pages ref) first) as [k|] eqn:Ek; [|by apply keep_ret]. apply page_index_lt in Ek.
  cbv zeta. destruct (_ || negb _); [by apply keep_ret|].
  destruct (block_range _ _ _ _) as [[a b]|] eqn:Eb; [|by apply keep_ret]. eapply block_range_ok in Eb; [|done..].
  eapply keep_bind; [apply (get_slice_keeps o); [|done]|].
  { by rewrite <- Hrefs, list_lookup_fmap, Et. }
  intros sl w r w' [Hw Hs]. revert w r w' Hw. eapply (keeps_seq _ _ any).
  { apply keeps_mod_core. intros h0. by rewrite !core_stats. }
  intros _. destruct sl as [slice|]; [|by apply keep_ret].
  eapply (keeps_seq _ _ any); [apply keeps_mod_core; intros h0; by rewrite core_stats|]. intros _.
  eapply (keeps_seq _ _ any); [apply keeps_mod_core; intros h0; destruct (1 <? _)%nat; by rewrite ?core_stats|]. intros _.
  apply prefetch_apply_keeps; [by apply Hs|constructor].
Qed.

(** ** Tasks *)

Lemma bitmap_get_set_tasks ts k h p : bitmap_get (set_tasks ts k h) p = bitmap_get h p.
Proof. by destruct h. Qed.

(** A change of a task that the invariant allows. *)
Record task_change (h : otsardb_lazy_hydrator) (i : nat) (t t' : lazy_seg_task) : Prop := {
  tc_ref : st_ref t' = st_ref t;
  tc_bytes : forall d, st_verified_bytes t' = Some d -> st_verified_bytes t = Some d \/ whole_ok i (st_ref t) d;
  tc_applied : st_state t' = TASK_APPLIED -> st_state t = TASK_APPLIED \/
               (forall p, 0 < p <= size -> claimant p = Some i -> bitmap_get h p = true);
  tc_stays : st_state t = TASK_APPLIED -> st_state t' = TASK_APPLIED
}.

Lemma inv_set_task h st i f :
  inv none (h, st) -> (forall t, lh_tasks h !! i = Some t -> task_change h i t (f t)) -> inv none (set_task i f h, st).
Proof.
  intros [H1 H2 H3 H4 H5 H6 H7 H8 H9 H10 H11] Hf. cbn [fst snd] in *.
  assert (Ht : lh_tasks (set_task i f h) = alter f i (lh_tasks h)) by by destruct h.
  assert (Hcase : forall o t', lh_tasks (set_task i f h) !! o = Some t' ->
            exists t, lh_tasks h !! o = Some t /\ (t' = t \/ o = i /\ task_change h i t t')).
  { intros o t'. rewrite Ht. destruct (decide (o = i)) as [->|Hne]; [|rewrite list_lookup_alter_ne by done; eauto].
    rewrite list_lookup_alter_eq. destruct (lh_tasks h !! i) as [t|] eqn:Et; [|done]. intros [= <-].
    exists t. split; [done|]. right. split; [done|by apply Hf]. }
  split; cbn [fst snd]; try (by destruct h).
  - rewrite Ht, <- H3. apply list_eq. intros o. rewrite !list_lookup_fmap.
    destruct (decide (o = i)) as [->|Hne]; [|by rewrite list_lookup_alter_ne]. rewrite list_lookup_alter_eq.
    destruct (lh_tasks h !! i) as [t|] eqn:Et; [|done]. cbn. f_equal. by apply (tc_ref h i), Hf.
  - eapply bits_ok_core; [..|exact H4]; by destruct h.
  - intros o t' d Ho Hd. apply Hcase in Ho as (t & Ho & [->|[-> Hc]]); [by eapply H6|]. rewrite (tc_ref _ _ _ _ Hc).
    destruct (tc_bytes _ _ _ _ Hc d Hd); [by eapply H6|done].
  - intros o t' p Ho Hs Hp Hcl. unfold set_task. rewrite bitmap_get_set_tasks.
    apply Hcase in Ho as (t & Ho & [->|[-> Hc]]); [by eapply H7|]. destruct (tc_applied _ _ _ _ Hc Hs); [by eapply H7|auto].
  - intros o t' Hlt Ho Hoff. apply Hcase in Ho as (t & Ho & [->|[-> Hc]]); [by eapply H8|].
    rewrite (tc_ref _ _ _ _ Hc) in Hoff. eapply (tc_stays _ _ _ _ Hc), H8; done.
Qed.

Lemma grows_set_task h st i f : grows (h, st) (set_task i f h, st).
Proof. intros p _ Hp. cbn. unfold set_task. by rewrite bitmap_get_set_tasks. Qed.

(** The object of a task enters it verified. *)
Lemma task_fetch_keeps i : keeps (lazy_task_fetch store i) any.
Proof.
  apply keeps_get_refs. intros h Hh Hrefs. destruct (lh_tasks h !! i) as [task|] eqn:Et; [|by apply keep_ret].
  assert (Hi : refs !! i = Some (st_ref task)) by by rewrite <- Hrefs, list_lookup_fmap, Et.
  eapply keep_bind; [apply (keeps_store _ (fun r => forall ob, r = inr ob -> zlen (so_data ob) = tr_size (st_ref task) ->
      otsardb_sha256_hex_data (so_data ob) = tr_sha256 (st_ref task) -> whole_ok i (st_ref task) (so_data ob)))|].
  { intros s r s' E. destruct (get_law _ _ _ _ E) as [He Hr]. split; [done|]. intros [Ha _] ob -> Hz Hsha. by eapply Ha. }
  intros r w b w' [Hw Hr]. revert w b w' Hw. destruct r as [|ob]; [by apply keep_ret|].
  destruct (_ && _) eqn:Ec; [|by apply keep_ret]. apply andb_prop in Ec as [Ez Es].
  apply Z.eqb_eq in Ez. apply bytes_eqb_eq in Es. specialize (Hr ob eq_refl Ez Es).
  eapply (keeps_seq _ _ any); [|by intros _; apply keep_ret].
  intros [h1 st] u w' Hw [= <- <-]. split; [apply grows_set_task|]. split; [|done]. apply inv_set_task; [done|].
  intros t Ht. assert (Hst : st_ref t = st_ref task).
  { pose proof (iv_refs _ _ Hw) as Hrf. cbn in Hrf, Ht. rewrite <- Hrf, list_lookup_fmap, Ht in Hi. by injection Hi. }
  split; try done; cbn.
  - intros d [= <-]. right. by rewrite Hst.
  - by left.
Qed.

Definition unapplied (i : nat) (w : W) : Prop := forall t, lh_tasks (fst w) !! i = Some t -> st_state t <> TASK_APPLIED.

(** Fetching does not move the state of a task. *)
Lemma task_fetch_state i o w r w' :
  lazy_task_fetch store i w = (r, w') -> st_state <$> lh_tasks (fst w') !! o = st_state <$> lh_tasks (fst w) !! o.
Proof.
  destruct w as [h [s l]]. unfold lazy_task_fetch, mbind_, get_h, mret_. cbn [fst snd].
  destruct (lh_tasks h !! i) as [t|] eqn:Et; [|by intros [= <- <-]]. unfold in_store, on_store. cbn.
  destruct (otsardb_store_get store _ s) as [[|ob] s']; [by intros [= <- <-]|].
  destruct (_ && _); intros [= <- <-]; [|done]. cbn [fst]. destruct h as [? ? ? ? ? ? ? tasks]. cbn in *.
  destruct (decide (o = i)) as [->|]; [rewrite list_lookup_alter_eq, Et; done|by rewrite list_lookup_alter_ne].
Qed.

Lemma task_fetch_unapplied i :
  triple grows (fun w => inv none w /\ unapplied i w) (lazy_task_fetch store i) (fun _ w => inv none w /\ unapplied i w).
Proof.
  intros w r w' [Hw Hu] E. destruct (task_fetch_keeps i w r w' Hw E) as (Hg & Hi & _). split; [done|]. split; [done|].
  intros t Ht. pose proof (task_fetch_state i i _ _ _ E) as Hs. rewrite Ht in Hs. cbn in Hs.
  destruct (lh_tasks (fst w) !! i) as [t0|] eqn:Et0; [|done]. cbn in Hs. injection Hs as ->. by apply Hu.
Qed.

Lemma finish_task_keeps i ok :
  triple grows (fun w => inv none w /\ unapplied i w) (mod_h (finish_task i ok)) (fun _ w => inv none w /\ any tt w).
Proof.
  intros [h st] r w' [Hw Hu] [= <- <-].
  assert (Hc : core (count_task i ok h) = core h) by (unfold count_task; destruct ok; by rewrite !core_stats).
  assert (Hi : inv none (count_task i ok h, st)) by (eapply inv_core; [exact Hc|exact Hw]).
  assert (Hst : forall s, s <> TASK_APPLIED -> inv none (set_task i (with_state s) (count_task i ok h), st)).
  { intros s Hs. apply inv_set_task; [done|]. intros t Ht. assert (Ht' : lh_tasks h !! i = Some t).
    { unfold core in Hc. injection Hc as _ _ _ _ E _ _. by rewrite <- E. }
    split; try done; cbn; [by left|]. intros Ha. by apply Hu in Ht'. }
  assert (Hg : forall s, grows (h, st) (set_task i (with_state s) (count_task i ok h), st)).
  { intros s. etrans; [by apply grows_core|apply grows_set_task]. }
  unfold finish_task. destruct ok; cbn [fst snd]; [split; [apply Hg|split; [by apply Hst|done]]|].
  split; [etrans; [apply Hg|apply grows_core, core_failed]|]. split; [|done].
  eapply inv_core; [apply core_failed|by apply Hst].
Qed.

(** Every page of a task is marked. *)
Definition all_marked (i : nat) (w : W) : Prop := forall p, 0 < p <= size -> claimant p = Some i -> bitmap_get (fst w) p = true.

Lemma apply_task_frames_keeps count i batch o :
  wb_page_size batch = ps -> 0 <= i ->
  (forall j p page, 0 <= j -> otsardb_wal_batch_frame batch j = Some (p, page) -> claimant p = Some o -> page = expected p) ->
  keeps (apply_task_frames getenv store count i batch o (li_path I))
    (fun b w => b = true -> forall j p page, i <= j < i + Z.of_nat count ->
       otsardb_wal_batch_frame batch j = Some (p, page) -> claimant p = Some o -> marked p w).
Proof.
  intros Hb Hi Hok. revert i Hi. induction count as [|count IH]; intros i Hi; cbn [apply_task_frames].
  { apply keep_ret. intros w _ j p page Hj. lia. }
  destruct (otsardb_wal_batch_frame batch i) as [[p page]|] eqn:Ef; [|by apply keep_ret].
  apply keeps_get_any. intros h Hh.
  assert (Hrest : forall w, (claimant p = Some o -> marked p w) ->
            (forall j q pg, i + 1 <= j < i + 1 + Z.of_nat count -> otsardb_wal_batch_frame batch j = Some (q, pg) ->
               claimant q = Some o -> marked q w) ->
            forall j q pg, i <= j < i + Z.of_nat (Datatypes.S count) -> otsardb_wal_batch_frame batch j = Some (q, pg) ->
              claimant q = Some o -> marked q w).
  { intros w Hp Hr j q pg Hj Hfr Hc. destruct (decide (j = i)) as [->|]; [rewrite Ef in Hfr; injection Hfr as <- <-; auto|].
    apply (Hr j q pg); [lia|done..]. }
  destruct (negb _) eqn:Ec.
  { eapply keeps_weaken; [apply (IH (i + 1)); lia|]. intros b w Hw Hbt. apply Hrest; [|by apply Hw].
    intros Hc. rewrite (resolve_claimant h p Hh) in Ec. rewrite bool_decide_eq_true_2 in Ec by done. done. }
  apply negb_false_iff, frame_page_resolves in Ec; [|done]. pose proof (Hok i p page Hi Ef Ec) as Hd.
  pose proof (Hclaimed _ _ Ec) as Hp. rewrite Hb.
  assert (Htake : take (Z.to_nat ps) page = expected p) by (rewrite Hd, take_ge; [done|by rewrite Hexp]).
  eapply (write_then p); [by apply write_page_keeps|by apply keep_ret|].
  eapply triple_weaken; [eapply (mark_then p _ _ _); [|apply (IH (i + 1)); lia]|done|].
  - destruct (negb (bitmap_get h p)); [apply marking_demand; [lia|done]|apply marking_set; lia].
  - intros b w (Hw & Hm & Hr). split; [done|]. intros Hbt. apply Hrest; [by intros _|by apply Hr].
Qed.

Lemma keeps_get_inv {B} (k : otsardb_lazy_hydrator -> M W B) Q :
  (forall h st, inv none (h, st) -> keeps (k h) Q) -> keeps (mbind_ get_h k) Q.
Proof. intros H [h st] b w' Hw E. unfold mbind_, get_h in E. exact (H h st Hw (h, st) b w' Hw E). Qed.

(** What the first computation establishes, and others do not undo, holds at the end. *)
Lemma keeps_bind_stable {A B} (m : M W A) (k : A -> M W B) Q1 (Q2 : A -> B -> W -> Prop) Q :
  keeps m Q1 -> (forall a, stable grows (Q1 a)) -> (forall a, keeps (k a) (Q2 a)) ->
  (forall a b w, Q1 a w -> Q2 a b w -> Q b w) -> keeps (mbind_ m k) Q.
Proof.
  intros Hm Hs Hk HQ. eapply keep_bind; [exact Hm|]. intros a.
  eapply triple_weaken; [exact (triple_frame grows (Q1 a) _ (k a) _ (Hs a) (Hk a))|by intros w H|].
  intros b w [[Hw H2] H1]. split; [done|]. by eapply HQ.
Qed.

Lemma all_marked_stable i : stable grows (all_marked i).
Proof. intros w w' Hg H p Hp Hc. apply Hg; [lia|by apply H]. Qed.

Lemma stable_if (b : bool) (F : W -> Prop) : stable grows F -> stable grows (fun w => b = true -> F w).
Proof. intros H w w' Hg Hf Hb. eapply H; [exact Hg|by apply Hf]. Qed.

Lemma keeps_drop_bytes i : keeps (mod_h (S := S) (set_task i (with_bytes None))) any.
Proof.
  intros [h st] r w' Hw [= <- <-]. split; [apply grows_set_task|]. split; [|done]. apply inv_set_task; [done|].
  intros t _. split; try done. cbn. by left.
Qed.

Lemma io_call_keeps : keeps (in_files (S := S) io_call) any.
Proof. apply keeps_files. intros l b l'. apply io_call_files. Qed.

(** The frames of a task, with the file calls around them. *)
Lemma apply_batch_keeps i batch :
  wb_page_size batch = ps ->
  (forall j p page, 0 <= j -> otsardb_wal_batch_frame batch j = Some (p, page) -> claimant p = Some i -> page = expected p) ->
  (forall p, 0 < p <= size -> claimant p = Some i ->
     exists j page, 0 <= j < wb_frame_count batch /\ otsardb_wal_batch_frame batch j = Some (p, page)) ->
  keeps (let! opened := in_files (fopen_existing (li_path I)) in
         if negb opened then return! false else
         let! ok := apply_task_frames getenv store (Z.to_nat (wb_frame_count batch)) 0 batch i (li_path I) in
         let! closed := in_files io_call in
         return! ok && closed) (fun b w => b = true -> all_marked i w).
Proof.
  intros Hb Hok Hall. eapply (keeps_seq _ _ any).
  { apply keeps_files. intros l b l'. apply fopen_existing_files. }
  intros opened. destruct (negb opened); [by apply keep_ret|].
  eapply (keeps_bind_stable _ _ (fun ok w => ok = true -> all_marked i w) (fun ok b w => b = true -> ok = true)).
  - eapply keeps_weaken; [by apply apply_task_frames_keeps|]. intros ok w H Hok' p Hp Hc.
    destruct (Hall p Hp Hc) as (j & page & Hj & Hf). eapply (H Hok' j p page); [lia|done..].
  - intros ok. apply stable_if, all_marked_stable.
  - intros ok. eapply (keeps_seq _ _ any); [apply io_call_keeps|]. intros closed. apply keep_ret.
    intros w H. by apply andb_prop in H as [H _].
  - intros ok b w H1 H2 H. by apply H1, H2.
Qed.

Lemma task_apply_keeps i : keeps (lazy_task_apply getenv store freed i) (fun b w => b = true -> all_marked i w).
Proof.
  apply keeps_get_inv. intros h st Hw. destruct (lh_tasks h !! i) as [task|] eqn:Et; [|by apply keep_ret].
  destruct (st_verified_bytes task) as [d|] eqn:Ed; [|by apply keep_ret].
  destruct (task_view freed h (st_ref task) d) as [segment|] eqn:Ev; [|by apply keep_ret].
  pose proof (iv_verified _ _ Hw i task d Et Ed) as Hwhole. pose proof (iv_index _ _ Hw) as Hh. cbn in Hh.
  eapply (keeps_bind_stable _ _ (fun ok w => ok = true -> all_marked i w) (fun ok b _ => b = ok)).
  - destruct (view_batch segment _) as [batch|] eqn:Eb; [|by apply keep_ret].
    destruct (Hwhole h segment batch Hh Ev Eb) as (Hb & Hok & Hall). cbv zeta. rewrite Hh. by apply apply_batch_keeps.
  - intros ok. apply stable_if, all_marked_stable.
  - intros ok. eapply (keeps_seq _ _ any); [apply keeps_drop_bytes|]. intros _. by apply keep_ret.
  - by intros ok b w H1 ->.
Qed.

Lemma applied_keeps i :
  triple grows (fun w => inv none w /\ all_marked i w) (mod_h (S := S) (set_task i (with_state TASK_APPLIED))) (fun _ w => inv none w /\
    (forall t, lh_tasks (fst w) !! i = Some t -> st_state t = TASK_APPLIED)).
Proof.
  intros [h st] r w' [Hw Ha] [= <- <-]. split; [apply grows_set_task|]. split.
  - apply inv_set_task; [done|]. intros t _. split; try done; cbn; [by left|]. intros _. by right.
  - cbn [fst]. intros t. destruct h as [? ? ? ? ? ? ? tasks]. cbn. rewrite list_lookup_alter_eq.
    destruct (tasks !! i); [|done]. by intros [= <-].
Qed.

(** ** The pool *)

Lemma job_core i st h : core (set_job i st h) = core h.
Proof. apply core_jobs. Qed.

Definition claim_ok (c : claim) (w : W) : Prop := match c with ClaimTask i => unapplied i w | _ => True end.

Lemma worker_claim_keeps : keeps (worker_claim (S := S)) claim_ok.
Proof.
  apply keeps_get. intros h Hh. destruct (_ || _); [by apply keeps_forget, keep_ret|].
  destruct (list_find _ (lh_jobs h)) as [[i job]|].
  { apply keeps_forget. eapply (keeps_seq _ _ any); [apply keeps_mod_core, job_core|]. intros _. by apply keep_ret. }
  destruct (list_find _ (lh_tasks h)) as [[i t]|] eqn:Ef; [|by apply keeps_forget, keep_ret].
  apply list_find_Some in Ef as (Ht & [Hs _] & _).
  apply (triple_bind grows _ _ (fun _ w => inv none w /\ unapplied i w)); [|intros _; by apply (triple_ret grows)].
  intros [h0 st] u w' [Hw Hf] [= <- <-]. cbn in Hf. subst h0. split; [apply grows_set_task|]. split.
  - apply inv_set_task; [done|]. intros t0 Ht0. assert (t0 = t) as -> by congruence. split; try done; cbn; [by left|by rewrite Hs].
  - intros t0 Ht0. cbn [fst] in Ht0. destruct h as [? ? ? ? ? ? ? tasks]. cbn in *. rewrite list_lookup_alter_eq, Ht in Ht0.
    by injection Ht0 as <-.
Qed.

Lemma worker_run_keeps c : triple grows (fun w => inv none w /\ claim_ok c w) (worker_run store c) (fun _ w => inv none w /\ any tt w).
Proof.
  destruct c as [|i job|i|]; cbn [worker_run claim_ok]; try (apply (triple_ret grows); by intros w [? _]).
  - intros w r w' [Hw _]. revert w r w' Hw. eapply (keeps_seq _ _ any); [apply prefetch_run_keeps|].
    intros ok. apply keeps_mod_core, job_core.
  - refine (triple_bind grows _ _ _ _ _ (task_fetch_unapplied i) _). intros ok. apply finish_task_keeps.
Qed.

(** The rounds of a worker keep the invariant. *)
Lemma worker_main_keeps rounds : keeps (lazy_pool_worker_main store rounds) any.
Proof.
  induction rounds as [|rounds IH]; cbn [lazy_pool_worker_main]; [by apply keep_ret|].
  eapply keep_bind; [apply worker_claim_keeps|]. intros c.
  assert (Hrun : triple grows (fun w => inv none w /\ claim_ok c w)
                   (let! _ := worker_run store c in lazy_pool_worker_main store rounds) (fun _ w => inv none w /\ any tt w)).
  { refine (triple_bind grows _ _ _ _ _ (worker_run_keeps c) _). intros _ w r w' [Hw _]. exact (IH w r w' Hw). }
  destruct c; try exact Hrun; apply (triple_ret grows); by intros w [? _].
Qed.

(** ** Waiting *)

Context (others : M W unit) (Hothers : keeps others any) (wakeups : nat).

Lemma keeps_err {A B} (m : M W (blocked + A)) (k : A -> M W (blocked + B)) (Q1 : A -> W -> Prop) (Q : B -> W -> Prop) :
  keeps m (on_ok Q1) -> (forall a, triple grows (fun w => inv none w /\ Q1 a w) (k a) (fun b w => inv none w /\ on_ok Q b w)) ->
  keeps (mbind_err m k) (on_ok Q).
Proof.
  intros Hm Hk. refine (triple_bind grows _ m _ _ _ Hm _). intros [e|a]; [|apply Hk].
  apply (triple_ret grows). by intros w [? _].
Qed.

Lemma keeps_err_seq {A B} (m : M W (blocked + A)) (k : A -> M W (blocked + B)) Q1 (Q : B -> W -> Prop) :
  keeps m (on_ok Q1) -> (forall a, keeps (k a) (on_ok Q)) -> keeps (mbind_err m k) (on_ok Q).
Proof.
  intros Hm Hk. eapply keeps_err; [exact Hm|]. intros a. eapply triple_weaken; [apply Hk|by intros w [? _]|done].
Qed.

Lemma keeps_lift {A} (m : M W A) Q : keeps m Q -> keeps (lift_ok m) (on_ok Q).
Proof.
  intros Hm. refine (triple_bind grows _ m _ _ _ Hm _). intros a. by apply (triple_ret grows).
Qed.

(** The state that was just read, through [let?]. *)
Lemma keeps_err_get {B} (k : otsardb_lazy_hydrator -> M W (blocked + B)) (Q : B -> W -> Prop) :
  (forall h, lh_index h = I -> triple grows (fun w => inv none w /\ fst w = h) (k h) (fun b w => inv none w /\ on_ok Q b w)) ->
  keeps (mbind_err (lift_ok get_h) k) (on_ok Q).
Proof.
  intros H w b w' Hw E. unfold mbind_err, lift_ok, mbind_, get_h, mret_ in E.
  exact (H (fst w) (iv_index _ _ Hw) w b w' (conj Hw eq_refl) E).
Qed.

Lemma wait_while_keeps n waiting :
  keeps (wait_while others n waiting) (on_ok (fun _ w => waiting (fst w) = false)).
Proof.
  induction n as [|n IH]; cbn [wait_while]; apply keeps_get; intros h Hh; destruct (waiting h) eqn:Ew.
  - by apply keeps_forget, keep_ret.
  - apply (triple_ret grows). intros w [Hw <-]. by split.
  - apply keeps_forget. eapply (keeps_seq _ _ any); [exact Hothers|]. intros _. exact IH.
  - apply (triple_ret grows). intros w [Hw <-]. by split.
Qed.

Lemma unfetched_unapplied h st i : task_unfetched h i = true -> unapplied i (h, st).
Proof.
  unfold task_unfetched. intros H t Ht. cbn in Ht. rewrite Ht in H. intros Hs. rewrite Hs in H. by vm_compute in H.
Qed.

Lemma wait_fetched_keeps i generation sync :
  keeps (lazy_wait_task_fetched store others wakeups i generation sync)
    (on_ok (fun b w => b = true -> task_ready (fst w) i = true)).
Proof.
  unfold lazy_wait_task_fetched. destruct sync.
  - apply keeps_lift, keeps_get. intros h Hh. apply (triple_bind grows _ _ (fun _ w => inv none w /\ any tt w)).
    + destruct (task_unfetched h i) eqn:Eu; [|apply keeps_forget; by apply (keep_ret true (fun _ => any tt))].
      apply (triple_bind grows _ _ (fun _ w => inv none w /\ unapplied i w)).
      * eapply triple_weaken; [apply task_fetch_unapplied| |done]. intros [h0 st] [Hw Hf]. cbn in Hf. subst h0.
        split; [done|by apply unfetched_unapplied].
      * intros ok. refine (triple_bind grows _ _ _ _ _ (finish_task_keeps i ok) _). intros _. by apply (triple_ret grows).
    + intros ok w0 r0 w0' [Hw0 _]. revert w0 r0 w0' Hw0. apply keeps_get. intros h1 _. apply (triple_ret grows).
      intros w [Hw <-]. split; [done|]. intros H. by apply andb_prop in H as [_ H].
  - eapply keeps_err_seq; [apply wait_while_keeps|]. intros _. apply keeps_lift, keeps_get. intros h Hh.
    apply (triple_ret grows). intros w [Hw <-]. split; [done|]. intros H. by apply andb_prop in H as [_ H].
Qed.

Lemma await_keeps o p generation :
  0 < p < 2 ^ 32 ->
  keeps (await_prefetched getenv store others wakeups o p generation) (on_ok (fun b w => b = true -> marked p w)).
Proof.
  intros Hp. apply keeps_err_get. intros h0 _. apply keeps_forget. eapply (keeps_err_seq _ _ any).
  { destruct (lazy_prefetch_covers h0 o p); [|by apply keep_ret].
    eapply keeps_weaken; [apply wait_while_keeps|]. by intros [|] w. }
  intros _. apply keeps_err_get. intros h Hh. destruct (bitmap_get h p) eqn:Eb.
  { eapply triple_weaken; [eapply (keeps_known_mark h p _ any); [done|]|done|].
    - apply (keeps_weaken _ (on_ok any)); [apply keeps_lift|done]. eapply (keeps_seq _ _ any); [apply keeps_mod_core|].
      + intros h1. destruct (lazy_prefetch_job_done h1 o p); [apply core_stats|done].
      + intros _. by apply (keep_ret true any).
    - intros [e|b] w (Hw & Hm & _); (split; [exact Hw|]); [exact Logic.I|intros _; exact Hm]. }
  destruct (lazy_prefetch_covers h o p); [|by apply keeps_forget, keep_ret].
  apply keeps_forget, keeps_lift. eapply keeps_seq; [apply inline_keeps; lia|]. intros ok. apply keeps_get. intros h1 _.
  apply (triple_ret grows). intros w [Hw <-]. split; [done|]. intros H. apply andb_prop in H as [_ H]. by intros _.
Qed.
End Invariant.
