(* ===== verification/LazyDemand.v ===== *)
(** * Lazy hydration: demand

    The demand loop on top of the invariant of the image. The tasks are applied in
    order, so a page that a whole object claims is marked once the apply position
    has passed its task; every page that a read asked for is then in the image with
    the bytes of the head, whatever the workers do while the read waits. *)

From S2P Require Import Prelude CText JsonText ObjectStore Journal Codec WalBatch Sha256 Segment.
From S2P Require Import CommitManifest CommitPublish Cipher LocalFile Recovery WalPublisher Triples.
From S2P Require Import LazyCache LazyHydration LazyRestore LazyTheory LazySound.

Section Demand.
Context `{HSha : Sha256} `{HLz4 : Lz4} `{HA : Aead}.
Context (getenv : bytes -> option bytes) (freed : bytes -> bytes).
Context {S : Type} (store : otsardb_object_store S) (view : S -> contents) (env : contents -> contents -> Prop).
Context {Hlaws : StoreLaws store view env} {Hrange : RangeLaw store view env}.
Context (I : lazy_index) (refs : list lazy_task_ref) (expected : Z -> bytes).

Abbreviation ps := (li_page_size I).
Abbreviation size := (li_database_size_pages I).
Abbreviation W := (otsardb_lazy_hydrator * (S * local))%type.
Abbreviation claimant := (LazySound.claimant I).
Abbreviation inv := (LazySound.inv freed view I refs expected).
Abbreviation keeps := (LazySound.keeps freed view I refs expected).
Abbreviation marked := (LazySound.marked I).

(** What the manifests of a validated chain promise of the index. *)
Record chain_ok : Prop := {
  ck_page_size : 0 < ps < 2 ^ 32;
  ck_size : 0 <= size < UINT32_MAX;
  ck_pages : forall p, length (expected p) = Z.to_nat ps;
  ck_claims : forall p o, claimant p = Some o -> 0 < p < 2 ^ 32;
  ck_tasks : forall p o, claimant p = Some o -> is_Some (refs !! o);
  ck_offsets : forall m enc seg offsets, (m, enc) ∈ li_manifests I -> seg ∈ cm_segments m ->
    sg_frame_offsets seg = Some offsets -> length offsets = length (sg_pages seg);
  (** an object that is in the store stays what it is *)
  ck_stable : forall v v', env v v' -> authentic freed I refs expected v -> authentic freed I refs expected v'
}.

Context (Hok : chain_ok).

(** The invariant, wherever the apply position is. *)
Definition sound (w : W) : Prop := exists n, inv n none w.

(** [m] keeps it; a result that did not block satisfies [Q]. *)
Definition serves {A} (P : W -> Prop) (m : M W (blocked + A)) (Q : A -> W -> Prop) : Prop :=
  triple grows P m (fun r w => sound w /\ on_ok Q r w).

Lemma serves_bind {A B} P (m : M W (blocked + A)) (k : A -> M W (blocked + B)) Q1 Q :
  serves P m Q1 -> (forall a, serves (fun w => sound w /\ Q1 a w) (k a) Q) -> serves P (mbind_err m k) Q.
Proof.
  intros Hm Hk. refine (triple_bind grows _ m _ _ _ Hm _). intros [e|a]; [|apply Hk].
  apply (triple_ret grows). by intros w [? _].
Qed.

Lemma serves_ret {A} (P : W -> Prop) (a : A) (Q : A -> W -> Prop) :
  (forall w, P w -> sound w /\ Q a w) -> serves P (mret_ (inr a)) Q.
Proof. intros H. by apply (triple_ret grows). Qed.

Lemma serves_pre {A} (P P' : W -> Prop) (m : M W (blocked + A)) Q : serves P m Q -> (forall w, P' w -> P w) -> serves P' m Q.
Proof. intros H HP. by eapply triple_weaken; [exact H| |]. Qed.

(** What holds at every apply position. *)
Lemma serves_keeps {A} (m : M W (blocked + A)) Q : (forall n, keeps n m (on_ok Q)) -> serves sound m Q.
Proof.
  intros H w r w' [n Hw] E. destruct (H n w r w' Hw E) as (Hg & Hi & HQ). split; [done|]. split; [by exists n|done].
Qed.

Lemma serves_get {B} (P : W -> Prop) (k : otsardb_lazy_hydrator -> M W (blocked + B)) Q :
  (forall h, serves (fun w => P w /\ fst w = h) (k h) Q) -> serves P (mbind_err (lift_ok get_h) k) Q.
Proof.
  intros H w b w' Hw E. unfold mbind_err, lift_ok, mbind_, get_h, mret_ in E. exact (H (fst w) w b w' (conj Hw eq_refl) E).
Qed.

Lemma lift_bind {A B} (m : M W A) (k : A -> M W (blocked + B)) w : mbind_err (lift_ok m) k w = k (fst (m w)) (snd (m w)).
Proof. unfold mbind_err, lift_ok, mbind_, mret_. by destruct (m w). Qed.

(** ** Applying the tasks in order *)

Definition applied (i : nat) (w : W) : Prop :=
  forall t, lh_tasks (fst w) !! i = Some t -> tr_has_frame_offsets (st_ref t) = false -> st_state t = TASK_APPLIED.

(** The position passes a task that is applied. *)
Lemma inv_next n h st : inv n none (h, st) -> applied n (h, st) -> inv (Datatypes.S n) none (set_tasks (lh_tasks h) (Datatypes.S (lh_next_apply h)) h, st).
Proof.
  intros [H1 H2 H3 H4 H5 H6 H7 H8 H9 H10 H11] Ha. cbn [fst snd] in *.
  assert (Hn : forall o t, (o < Datatypes.S n)%nat -> lh_tasks h !! o = Some t -> tr_has_frame_offsets (st_ref t) = false ->
                           st_state t = TASK_APPLIED).
  { intros o t Ho. destruct (decide (o = n)) as [->|]; [apply Ha|apply H8; lia]. }
  split; try (by destruct h); cbn [fst snd].
  - eapply bits_ok_core; [..|exact H4]; by destruct h.
  - destruct h. cbn in *. by rewrite H11.
Qed.

Lemma serves_next {B} n P (k : M W (blocked + B)) Q :
  (forall w, P w -> inv n none w /\ applied n w) -> serves (inv (Datatypes.S n) none) k Q ->
  serves P (mbind_err (lift_ok (mod_h (fun h => set_tasks (lh_tasks h) (Datatypes.S (lh_next_apply h)) h))) (fun _ => k)) Q.
Proof.
  intros HP Hk [h st] r w' Hw E. unfold mbind_err, lift_ok, mbind_, mod_h, mret_ in E. cbn [fst snd] in E.
  destruct (HP _ Hw) as [Hi Ha]. destruct (Hk _ r w' (inv_next n h st Hi Ha) E) as [Hg HQ]. split; [|done].
  etrans; [|exact Hg]. intros p _ Hp. cbn in *. by rewrite bitmap_get_set_tasks.
Qed.

Context (others : M W unit) (Hothers : forall n, keeps n others any) (wakeups : nat) (thread_limit : Z).

Lemma applied_ready n h st t :
  lh_tasks h !! n = Some t -> st_state t = TASK_APPLIED -> applied n (h, st).
Proof. intros Ht Hs t' Ht' _. cbn in Ht'. congruence. Qed.

(** The position has passed a task, unless the loop failed. *)
Definition passed (o : nat) (b : bool) (w : W) : Prop := b = true -> exists n, (o < n)%nat /\ inv n none w.

Lemma passed_false o w : passed o false w.
Proof. by intros. Qed.

(** The task at the position is fetched: it is applied, then passed. *)
Lemma serves_apply n o (k : M W (blocked + bool)) :
  serves (inv (Datatypes.S n) none) k (passed o) ->
  serves (inv n none)
    (let? ok := lift_ok (lazy_task_apply getenv store freed n) in
     if negb ok then return! inr false else
     let? _ := lift_ok (mod_h (set_task n (with_state TASK_APPLIED))) in
     let? _ := lift_ok (mod_h (fun h => set_tasks (lh_tasks h) (Datatypes.S (lh_next_apply h)) h)) in k) (passed o).
Proof.
  intros Hk w r w' Hw. rewrite lift_bind. destruct (lazy_task_apply getenv store freed n w) as [ok w1] eqn:Ea. cbn [fst snd].
  destruct (task_apply_keeps getenv freed store view I refs expected n (ck_page_size Hok) (ck_size Hok) (ck_pages Hok)
              (ck_claims Hok) n w ok w1 Hw Ea) as (Hg1 & Hi1 & Hm). destruct ok; cbn [negb].
  2: { intros [= <- <-]. split; [done|]. split; [by exists n|apply passed_false]. }
  specialize (Hm eq_refl). rewrite lift_bind. destruct (mod_h (set_task n (with_state TASK_APPLIED)) w1) as [u w2] eqn:Es.
  cbn [fst snd]. destruct (applied_keeps freed view I refs expected n n w1 u w2 (conj Hi1 Hm) Es) as (Hg2 & Hi2 & Hs). intros E.
  eapply (serves_next n (fun w => inv n none w /\ applied n w) k) in E as [Hg3 HQ]; [|done|exact Hk|].
  - split; [by do 2 (etrans; [eassumption|])|done].
  - split; [done|]. intros t Ht _. by apply Hs.
Qed.

(** The end of a round: the task at the position has been fetched. *)
Lemma apply_round n o (k : M W (blocked + bool)) ok :
  serves (inv (Datatypes.S n) none) k (passed o) ->
  serves (fun w => inv n none w /\ (ok = true -> task_unfetched (fst w) n = false))
    (if negb ok then return! inr false else
     let? h := lift_ok get_h in
     match lh_tasks h !! n with
     | None => return! inr false
     | Some t =>
         match st_state t with
         | TASK_FAILED => return! inr false
         | TASK_FETCHED =>
             let? ok := lift_ok (lazy_task_apply getenv store freed n) in
             if negb ok then return! inr false else
             let? _ := lift_ok (mod_h (set_task n (with_state TASK_APPLIED))) in
             let? _ := lift_ok (mod_h (fun h => set_tasks (lh_tasks h) (Datatypes.S (lh_next_apply h)) h)) in k
         | _ => let? _ := lift_ok (mod_h (fun h => set_tasks (lh_tasks h) (Datatypes.S (lh_next_apply h)) h)) in k
         end
     end) (passed o).
Proof.
  intros Hk. assert (Hfail : forall P : W -> Prop, (forall w, P w -> inv n none w) -> serves P (mret_ (inr false)) (passed o)).
  { intros P HP. apply serves_ret. intros w Hw. split; [exists n; by apply HP|apply passed_false]. }
  destruct ok; cbn [negb]; [|by apply Hfail; intros w [? _]]. apply serves_get. intros h.
  destruct (lh_tasks h !! n) as [t|] eqn:Et; [|by apply Hfail; intros w [[? _] _]].
  destruct (st_state t) eqn:Es; [| | | |by apply Hfail; intros w [[? _] _]].
  3: { eapply serves_pre; [by apply serves_apply|by intros w [[? _] _]]. }
  all: apply (serves_next n); [|exact Hk]; intros w [[Hw Hu] <-]; (split; [done|]).
  1, 2: specialize (Hu eq_refl); unfold task_unfetched in Hu; rewrite Et, Es in Hu; by vm_compute in Hu.
  intros t' Ht' _. congruence.
Qed.

(** The loop leaves the position after [o]. *)
Lemma apply_tasks_serves fuel n o generation sync :
  (o < n + fuel)%nat ->
  serves (inv n none) (apply_tasks getenv store freed others wakeups fuel o generation sync) (passed o).
Proof.
  revert n. induction fuel as [|fuel IH]; intros n Hn; cbn [apply_tasks].
  { apply serves_ret. intros w Hw. split; [by exists n|]. intros _. exists n. split; [lia|done]. }
  apply serves_get. intros h. specialize (IH (Datatypes.S n) ltac:(lia)).
  intros w r w' [Hw Hf]. pose proof (iv_next_apply _ _ _ _ _ _ _ _ Hw) as Hna. rewrite Hf in Hna. rewrite Hna.
  destruct (Nat.ltb_spec o n).
  { intros [= <- <-]. split; [done|]. split; [by exists n|]. intros _. by exists n. }
  destruct (offset_task h n) eqn:Eo.
  { apply (serves_next n (fun w => inv n none w /\ fst w = h)); [|exact IH|done]. intros w0 [Hw0 Hf0]. split; [done|].
    intros t Ht Hoff. rewrite Hf0 in Ht. unfold offset_task in Eo. rewrite Ht in Eo. congruence. }
  revert w r w' Hw Hf. refine (fun w r w' Hw Hf => (_ : serves (fun w => inv n none w /\ fst w = h) _ (passed o)) w r w' (conj Hw Hf)).
  apply (triple_bind grows _ _
           (fun r w => inv n none w /\ on_ok (fun b w => b = true -> task_unfetched (fst w) n = false) r w)).
  - destruct (task_unfetched h n) eqn:Eu; [|apply (triple_ret grows); intros w1 [Hw1 Hf1]; (split; [exact Hw1|intros _; by rewrite Hf1])].
    apply keeps_forget. eapply keeps_weaken; [by eapply wait_fetched_keeps; [exact Hlaws|apply (ck_stable Hok)|]|].
    intros [|b] w1 H1; [done|]. intros Hb. specialize (H1 Hb). unfold task_ready in H1. unfold task_unfetched.
    destruct (lh_tasks (fst w1) !! n) as [t|]; [|done]. by destruct (st_state t).
  - intros [e|ok].
    + apply (triple_ret grows). intros w1 [Hw1 _]. split; [by exists n|done].
    + by apply apply_round.
Qed.

(** ** One page *)

Definition serves_page (p : Z) (P : W -> Prop) (m : M W (blocked + bool)) : Prop := serves P m (fun b w => b = true -> marked p w).

(** A page whose task the position has passed is marked. *)
Lemma passed_marked n o p w ref :
  inv n none w -> (o < n)%nat -> claimant p = Some o -> refs !! o = Some ref -> tr_has_frame_offsets ref = false -> marked p w.
Proof.
  intros Hw Ho Hc Hr Hoff Hp. rewrite <- (iv_refs _ _ _ _ _ _ _ _ Hw), list_lookup_fmap in Hr.
  destruct (lh_tasks (fst w) !! o) as [t|] eqn:Et; [|done]. cbn in Hr. injection Hr as <-.
  eapply (iv_applied _ _ _ _ _ _ _ _ Hw); [exact Et| |done|done]. by eapply (iv_next _ _ _ _ _ _ _ _ Hw).
Qed.

Lemma offset_task_ref n h st o ref :
  inv n none (h, st) -> refs !! o = Some ref -> offset_task h o = tr_has_frame_offsets ref.
Proof.
  intros Hw Hr. rewrite <- (iv_refs _ _ _ _ _ _ _ _ Hw), list_lookup_fmap in Hr. cbn in Hr. unfold offset_task.
  destruct (lh_tasks h !! o); [|done]. by injection Hr as <-.
Qed.

(** A page that a task claims. *)
Lemma claimed_serves p o generation sync :
  claimant p = Some o ->
  serves_page p sound
    (let? h := lift_ok get_h in
     if offset_task h o then await_prefetched getenv store others wakeups o p generation
     else
       let? ok := lazy_wait_task_fetched store others wakeups o generation sync in
       if negb ok then return! inr false
       else apply_tasks getenv store freed others wakeups (Datatypes.S o) o generation sync).
Proof.
  intros Hc. destruct (ck_tasks Hok _ _ Hc) as [ref Href]. apply serves_get. intros h w r w' [Hw Hf]. pose proof Hw as [n Hn].
  destruct w as [h0 st]. cbn in Hf. subst h0. rewrite (offset_task_ref n h st o ref Hn Href).
  destruct (tr_has_frame_offsets ref) eqn:Eoff.
  - revert Hw. apply (serves_keeps _ _). intros m. eapply await_keeps; try apply Hok; [exact Hrange|apply Hothers|by eapply (ck_claims Hok)].
  - revert Hw. apply (serves_bind sound _ _ (fun _ _ => True)).
    { apply serves_keeps. intros m. eapply keeps_weaken; [eapply wait_fetched_keeps; [exact Hlaws|apply Hok|apply Hothers]|].
      by intros [|] ?. }
    intros ok. destruct ok; cbn [negb]; [|apply serves_ret; by intros w0 [? _]].
    intros w0 r0 w0' [[m Hm] _] E.
    destruct (apply_tasks_serves (Datatypes.S o) m o generation sync ltac:(lia) w0 r0 w0' Hm E) as (Hg & Hs & HQ).
    split; [done|]. split; [done|]. destruct r0 as [|b]; [done|]. intros Hb. destruct (HQ Hb) as (n' & Hn' & Hi').
    by eapply passed_marked.
Qed.

(** The base has the page: it is marked as it is. *)
Lemma base_inv n p w : in_base I p -> inv n none w -> inv n (one p) w.
Proof.
  intros Hb [H1 H2 H3 H4 H5 H6 H7 H8 H9 H10 H11]. split; try done. destruct H10 as (file & Hf & Hl & Hp). exists file.
  split; [done|]. split; [done|]. intros q Hq [?|[?| ->]]; apply Hp; tauto.
Qed.

Lemma unknown_keeps n : keeps n (lazy_fetch_unknown_segments getenv store) any.
Proof.
  apply keeps_get_inv. intros h st Hw. pose proof (iv_unknown _ _ _ _ _ _ _ _ Hw) as Hu. cbn in Hu. rewrite Hu.
  destruct (lh_unknown_fetched h); [by apply keep_ret|]. cbn [length fetch_unknown_loop].
  eapply (keeps_seq _ _ _ _ _ _ _ _ any); [by apply keep_ret|]. intros []; [|by apply keep_ret]. cbn [negb].
  eapply (keeps_seq _ _ _ _ _ _ _ _ any); [|intros _; by apply keep_ret]. apply keeps_mod_core. intros h1. by destruct h1.
Qed.

Lemma base_serves p :
  in_base I p -> 0 < p ->
  serves_page p sound (lift_ok (let! _ := mod_h (fun h => lazy_note_miss getenv store p (lazy_stats_add64 demand_misses 1 (bitmap_set p h))) in
                                return! true)).
Proof.
  intros Hb Hp w r w' [n Hw] E. apply (base_inv n p) in Hw; [|done].
  assert (Hmk : marking freed view I refs expected n p (fun h => lazy_note_miss getenv store p (lazy_stats_add64 demand_misses 1 (bitmap_set p h)))).
  { eapply marking_core; [apply (marking_set getenv); try apply Hok; lia|]. intros h0. by rewrite core_note_miss, core_stats. }
  destruct w as [h st]. unfold lift_ok, mbind_, mod_h, mret_ in E. cbn [fst snd] in E. injection E as <- <-.
  destruct (Hmk h st Hw) as (Hi & Hg & Hm). split; [done|]. split; [by exists n|]. by intros _.
Qed.

Lemma hydrate_page_serves p generation sync :
  0 < p < 2 ^ 32 -> serves_page p sound (hydrate_page getenv store freed others wakeups p generation sync).
Proof.
  intros Hp. unfold hydrate_page. apply (serves_bind sound _ _ (fun b w => b = true -> marked p w)).
  { apply serves_keeps. intros n. apply keeps_lift. destruct (has_range_get store); [by apply keep_ret|].
    apply cache_resolve_keeps; (apply Hok || done). }
  intros []; [apply serves_ret; intros w [Hw Hm]; split; [done|]; intros _; by apply Hm|].
  assert (Hmarked : forall h, bitmap_get h p = true -> serves_page p (fun w => sound w /\ fst w = h) (mret_ (inr true))).
  { intros h Hb. apply serves_ret. intros w [Hw <-]. split; [done|]. by intros _ _. }
  eapply serves_pre; [apply (serves_get sound)|by intros w [? _]]. intros h. destruct (bitmap_get h p) eqn:Eb; [by apply Hmarked|].
  intros w r w' [Hw Hf]. pose proof Hw as [n Hn]. assert (Hh : lh_index h = I) by (rewrite <- Hf; apply (iv_index _ _ _ _ _ _ _ _ Hn)).
  rewrite (resolve_claimant I h p Hh). destruct (claimant p) as [o|] eqn:Ec; [revert Hw; by apply claimed_serves|].
  revert Hw. apply (serves_bind sound _ _ (fun _ _ => True)).
  { apply serves_keeps. intros m. eapply keeps_weaken; [apply keeps_lift, unknown_keeps|]. by intros [|] ?. }
  intros ok. destruct ok; cbn [negb]; [|apply serves_ret; by intros w0 [? _]].
  eapply serves_pre; [apply (serves_get sound)|by intros w0 [? _]]. intros h1. destruct (bitmap_get h1 p) eqn:Eb1; [by apply Hmarked|].
  intros w0 r0 w0' [Hw0 Hf0]. pose proof Hw0 as [n0 Hn0].
  assert (Hh1 : lh_index h1 = I) by (rewrite <- Hf0; apply (iv_index _ _ _ _ _ _ _ _ Hn0)).
  rewrite (resolve_claimant I h1 p Hh1), Ec. destruct (lazy_covered_by_checkpoint h1 p) eqn:Ev.
  - revert Hw0. apply base_serves; [|lia]. unfold lazy_covered_by_checkpoint in Ev. rewrite Hh1 in Ev.
    apply andb_prop in Ev as [E1 E2]. apply negb_true_iff, Z.eqb_neq in E1. apply Z.leb_le in E2. by split.
  - intros [= <- <-]. split; [done|]. by split.
Qed.

(** ** A range *)

Lemma hydrate_loop_serves count p generation sync :
  0 < p -> p + Z.of_nat count <= 2 ^ 32 ->
  serves sound (hydrate_loop getenv store freed others wakeups count p generation sync)
    (fun b w => b = true -> forall q, p <= q < p + Z.of_nat count -> marked q w).
Proof.
  revert p. induction count as [|count IH]; intros p Hp Hc; cbn [hydrate_loop].
  { apply serves_ret. intros w Hw. split; [done|]. intros _ q Hq. lia. }
  apply (serves_bind sound _ _ (fun b w => b = true -> marked p w)); [apply hydrate_page_serves; lia|].
  intros []; [|apply serves_ret; intros w [? _]; by split].
  intros w r w' [Hw Hm] E. destruct (IH (p + 1) ltac:(lia) ltac:(lia) w r w' Hw E) as (Hg & Hs & HQ). split; [done|].
  split; [done|]. destruct r as [|b]; [done|]. intros Hb q Hq. destruct (decide (q = p)) as [->|].
  - eapply marked_stable; [exact Hg|by apply Hm].
  - apply (HQ Hb). lia.
Qed.

Lemma hydrate_range_serves first last :
  0 <= first < 2 ^ 32 -> last < 2 ^ 32 ->
  serves sound (otsardb_lazy_hydrate_range getenv store freed others wakeups thread_limit first last)
    (fun b w => b = true -> forall p, first <= p <= last -> marked p w).
Proof.
  intros Hf Hl. unfold otsardb_lazy_hydrate_range. set (first' := if first =? 0 then 1 else first). cbv zeta.
  assert (Hf' : 0 < first' < 2 ^ 32) by (unfold first'; destruct (Z.eqb_spec first 0); lia).
  assert (Hrange' : forall p, first <= p -> 0 < p -> first' <= p) by (unfold first'; intros; destruct (Z.eqb_spec first 0); lia).
  destruct (Z.ltb_spec last first').
  { apply serves_ret. intros w Hw. split; [done|]. intros _ p Hp Hr. specialize (Hrange' p). lia. }
  apply serves_get. intros h. destruct (_ || _) eqn:Et; [apply serves_ret; by intros w [? _]|].
  intros w r w' [Hw Hfst]. pose proof Hw as [n Hn].
  assert (Hsz : lh_database_size_pages h = size).
  { unfold lh_database_size_pages. rewrite <- Hfst. by rewrite (iv_index _ _ _ _ _ _ _ _ Hn). }
  rewrite Hsz. set (last' := if size <? last then size else last).
  assert (Hl' : last' < 2 ^ 32) by (pose proof (ck_size Hok); unfold last'; destruct (Z.ltb_spec size last); lia).
  revert Hw. apply (serves_bind sound _ _ (fun _ _ => True)).
  { apply serves_keeps. intros m. eapply keeps_weaken; [apply keeps_lift, keeps_mod_core|by intros [|] ?].
    intros h1. destruct (_ && _); [apply core_pool|done]. }
  intros _. eapply serves_pre; [apply (serves_get sound)|by intros w0 [? _]]. intros h1.
  apply (serves_bind _ _ _ (fun _ _ => True)).
  { eapply serves_pre; [|by intros w0 [? _]]. apply serves_keeps. intros m.
    eapply keeps_weaken; [apply keeps_lift; eapply inline_keeps; try apply Hok; done|by intros [|] ?]. }
  intros ok. apply (serves_bind _ _ _ (fun b w => b = true -> forall p, first <= p <= last -> marked p w)).
  { destruct ok; [|apply serves_ret; by intros w0 [? _]].
    intros w0 r0 w0' [Hw0 _] E. destruct (Z.le_gt_cases first' (last' + 1)) as [Hle|Hgt].
    - destruct (hydrate_loop_serves (Z.to_nat (last' - first' + 1)) first' _ _ ltac:(lia) ltac:(lia) w0 r0 w0' Hw0 E) as (Hg & Hs & HQ).
      split; [done|]. split; [done|]. destruct r0 as [|b]; [done|]. intros Hb p Hp Hr. apply (HQ Hb); [|done].
      specialize (Hrange' p). unfold last' in *. destruct (Z.ltb_spec size last); lia.
    - replace (Z.to_nat (last' - first' + 1)) with 0%nat in E by lia. injection E as <- <-. split; [done|]. split; [done|].
      intros _ p Hp Hr. specialize (Hrange' p). unfold last' in *. destruct (Z.ltb_spec size last); lia. }
  intros ok'. intros w0 r0 w0' [Hw0 Hm] E. destruct w0 as [h0 st0]. destruct Hw0 as [m Hm0].
  rewrite lift_bind in E. unfold mret_, mod_h in E. cbn [fst snd] in E. injection E as <- <-.
  assert (Hc : core (if ok' then h0 else set_failed true h0) = core h0) by (destruct ok'; [done|apply core_failed]).
  split; [by apply grows_core|]. split; [exists m; by eapply inv_core|]. intros ->. by apply Hm.
Qed.
End Demand.
