(* ===== verification/LazyOpen.v ===== *)
(** * Lazy hydration: opening

    A restore that succeeds leaves a hydrator over an image of the head size, with
    no page marked and every task idle: the invariant of the image holds, and the
    claims are those of the page sets of the chain. *)

From S2P Require Import Prelude CText JsonText ObjectStore Journal Codec WalBatch Sha256 Segment.
From S2P Require Import DbMetadata CommitManifest CommitManifestTheory CommitPublish Cipher LocalFile Recovery WalPublisher Triples.
From S2P Require Import LazyCache LazyCacheTheory LazyCacheRefine LazyHydration LazyRestore LazyTheory LazySound LazyDemand.

(** ** The chain *)

(** What the decoder checks of the segments of a manifest; page numbers have 32
    bits, and there is an offset per page. *)
Definition manifests_valid (ms : list (otsardb_commit_manifest * enc_set)) : Prop :=
  forall m enc seg, (m, enc) ∈ ms -> seg ∈ cm_segments m ->
  increasing (sg_pages seg) /\ Forall (fun p => 0 < p < 2 ^ 32) (sg_pages seg) /\
  (forall offsets, sg_frame_offsets seg = Some offsets -> length offsets = length (sg_pages seg)).

Lemma page_sets_elem ms l :
  l ∈ page_sets ms -> exists m enc seg, (m, enc) ∈ ms /\ seg ∈ cm_segments m /\ sg_pages seg = l.
Proof.
  unfold page_sets, segment_sets. rewrite list_elem_of_bind. intros ([m enc] & Hl & Hm).
  apply list_elem_of_filter in Hl as [_ Hl]. apply list_elem_of_fmap in Hl as (seg & -> & Hs). by exists m, enc, seg.
Qed.

Lemma valid_sets ms :
  manifests_valid ms -> Forall (fun l => increasing l /\ Forall (fun p => 0 < p < 2 ^ 32) l) (page_sets ms).
Proof.
  intros H. apply list.Forall_forall. intros l Hl. apply page_sets_elem in Hl as (m & enc & seg & Hm & Hs & <-).
  destruct (H m enc seg Hm Hs) as (? & ? & _). by split.
Qed.

Lemma valid_increasing ms : manifests_valid ms -> Forall increasing (page_sets ms).
Proof. intros H. eapply list.Forall_impl; [exact (valid_sets ms H)|]. by intros l [? _]. Qed.

Lemma valid_claims h : manifests_valid (li_manifests (lh_index h)) -> claims_ok h.
Proof.
  intros H. eapply list.Forall_impl; [exact (valid_sets _ H)|]. intros l [? Hl]. split; [done|].
  eapply list.Forall_impl; [exact Hl|]. cbn. lia.
Qed.

(** The newest set with the page. *)
Lemma claimant_first I p :
  manifests_valid (li_manifests I) -> claimant I p = first_claim (page_sets (li_manifests I)) p.
Proof.
  intros H. unfold claimant. rewrite resolve_manifests_spec by by apply valid_increasing. by destruct (first_claim _ p).
Qed.

Lemma first_claim_lookup sets p o : first_claim sets p = Some o -> exists l, sets !! o = Some l /\ p ∈ l.
Proof.
  unfold first_claim. destruct (list_find _ sets) as [[i l]|] eqn:E; [|done]. intros [= <-].
  apply list_find_Some in E as (Hl & Hp & _). by exists l.
Qed.

(** ** The order of the chain *)

Section Order.
Context `{HSha : Sha256}.

(** Manifests, each decoded from bytes that the one before it names as its
    parent: by digest, or below version 2, which has none, by commit id and
    generation. [named] is what names the first one. *)
Definition parent_named (m m' : otsardb_commit_manifest) (data' : bytes) : Prop :=
  if 2 <=? cm_format_version m then otsardb_sha256_hex_data data' = cm_parent_manifest_sha256 m
  else cm_commit_id m' = snprintf_s 64 (cm_parent_commit_id m) /\ cm_generation m' = cm_parent_generation m.

Fixpoint linked (named : otsardb_commit_manifest -> bytes -> Prop) (chain : list (otsardb_commit_manifest * enc_set)) : Prop :=
  match chain with
  | [] => True
  | (m, enc) :: rest =>
      (exists data, named m data /\ otsardb_commit_manifest_decode_json data = Some m /\
                    otsardb_segment_enc_parse_json data = Some enc) /\ linked (parent_named m) rest
  end.

(** The parent chain of a head, newest first: it starts with the manifest whose
    digest the head has, and ends with a manifest without parent, or with the one
    of the generation a checkpoint covers. *)
Definition chain_end (covered_generation : Z) (chain : list (otsardb_commit_manifest * enc_set)) : Prop :=
  exists newer m enc, chain = newer ++ [(m, enc)] /\
    (cm_parent_commit_id m = [] \/ covered_generation <> 0 /\ cm_generation m = covered_generation).

Definition parent_chain (head : otsardb_head) (covered_generation : Z) (chain : list (otsardb_commit_manifest * enc_set)) : Prop :=
  linked (fun _ data => otsardb_sha256_hex_data data = hd_commit_sha256 head) chain /\ chain_end covered_generation chain.

(** The index has no page sets of the manifests the checkpoint covers. *)
Definition uncover (covered_generation : Z) (me : otsardb_commit_manifest * enc_set) : otsardb_commit_manifest * enc_set :=
  if negb (covered_generation =? 0) && (cm_generation (fst me) <=? covered_generation)
  then (set_segments (drop_pages <$> cm_segments (fst me)) (fst me), snd me) else me.

Lemma visitor_manifests cg m enc c :
  lc_manifests (lazy_chain_visitor cg m enc c) = lc_manifests c ++ [uncover cg (m, enc)].
Proof. unfold lazy_chain_visitor, uncover. cbn [fst snd]. by destruct (_ && _). Qed.

Lemma visit_all_manifests cg chain : forall c,
  lc_manifests (visit_all cg chain c) = lc_manifests c ++ (uncover cg <$> chain).
Proof.
  induction chain as [|[m enc] chain IH]; intros c; cbn [visit_all foldl]; [by rewrite app_nil_r|].
  unfold visit_all in IH. rewrite IH. cbn [fst snd]. rewrite visitor_manifests, <- app_assoc. done.
Qed.

Lemma linked_weaken (P Q : otsardb_commit_manifest -> bytes -> Prop) chain :
  (forall m data, P m data -> Q m data) -> linked P chain -> linked Q chain.
Proof. destruct chain as [|[m enc] chain]; [done|]. intros H [(data & Hd & Hr) Hl]. split; [exists data; split; [by apply H|done]|done]. Qed.

(** What a position of the walk names. *)
Definition pos_names (pos : chain_pos) (m : otsardb_commit_manifest) (data : bytes) : Prop :=
  (cp_sha pos = [] \/ otsardb_sha256_hex_data data = cp_sha pos) /\
  cm_commit_id m = cp_id pos /\ cm_generation m = cp_generation pos.

Lemma parent_link_names root m next m' data' : parent_link root m = Some next -> pos_names next m' data' -> parent_named m m' data'.
Proof.
  unfold parent_link, parent_named. intros H (Hsha & Hid & Hgen). destruct (_ =? 0); [done|].
  destruct (build_manifest_key _ _); [|done]. destruct (2 <=? cm_format_version m); [|by simplify_eq].
  destruct (Z.eqb_spec (zlen (cm_parent_manifest_sha256 m)) OTSARDB_MANIFEST_SHA256_HEX_SIZE) as [E|]; [|done].
  cbn [negb] in H. simplify_eq. cbn [cp_sha] in Hsha.
  assert (Et : snprintf_s 65 (cm_parent_manifest_sha256 m) = cm_parent_manifest_sha256 m).
  { unfold snprintf_s. apply take_ge. unfold zlen, OTSARDB_MANIFEST_SHA256_HEX_SIZE in E. lia. }
  rewrite Et in Hsha. destruct Hsha as [Hn|]; [|done]. by rewrite Hn in E.
Qed.

Lemma link_ok_names md pos m data : link_ok md pos m = true ->
  (cp_sha pos = [] \/ otsardb_sha256_hex_data data = cp_sha pos) -> pos_names pos m data.
Proof. intros H Hs. unfold link_ok in H. prop_bools. split; [done|]. split; [|done]. by apply bytes_eqb_eq. Qed.

(** The parent of a manifest the decoder accepted has a generation. *)
Lemma parent_generation_pos root data m next : otsardb_commit_manifest_decode_json data = Some m ->
  0 < cm_generation m -> (cm_parent_generation m =? 0) = false -> parent_link root m = Some next -> 0 < cp_generation next.
Proof.
  intros Hd Hg E H. apply manifest_decode_facts in Hd as (_ & _ & _ & Hp & _). rewrite E in Hp.
  assert (cp_generation next = cm_parent_generation m) as -> by (unfold parent_link in H; repeat case_match; by simplify_eq).
  apply Z.eqb_neq in E. lia.
Qed.

Lemma genesis_ok_end m : genesis_ok m = true -> cm_parent_commit_id m = [].
Proof. unfold genesis_ok. intros H. prop_bools. destruct (cm_parent_commit_id m); [done|]. unfold zlen in *. cbn [length] in *. lia. Qed.

Lemma chain_end_cons cg x chain : chain_end cg chain -> chain_end cg (x :: chain).
Proof. intros (newer & m & enc & -> & He). by exists (x :: newer), m, enc. Qed.

(** ** The listed chain *)

(** A slot holds what it was decoded from. *)
Definition slot_ok (slot : lazy_chain_slot) : Prop :=
  exists data, otsardb_commit_manifest_decode_json data = Some (cs_manifest slot) /\
    otsardb_segment_enc_parse_json data = Some (cs_enc slot) /\ cs_sha256 slot = otsardb_sha256_hex_data data.

Definition slot_entry (slot : lazy_chain_slot) : otsardb_commit_manifest * enc_set := (cs_manifest slot, cs_enc slot).

Lemma find_slot_in slots key slot : find_slot slots key = Some slot -> slot ∈ slots.
Proof.
  unfold find_slot. destruct (slots !! _) as [sl|] eqn:E; [|done]. destruct (bytes_eqb _ _); [|done].
  intros [= <-]. by eapply list_elem_of_lookup_2.
Qed.

Lemma list_chain_linked root md slots fuel : Forall slot_ok slots -> forall pos chain, 0 < cp_generation pos ->
  zlen (cp_sha pos) <> 0 \/ cp_sha pos = [] ->
  list_chain_loop fuel root md slots pos = Some chain ->
  linked (pos_names pos) (slot_entry <$> chain) /\ chain_end 0 (slot_entry <$> chain).
Proof.
  intros Hall. rewrite list.Forall_forall in Hall. induction fuel as [|fuel IH]; intros pos chain Hpos Hsha H; cbn [list_chain_loop] in H;
    destruct (Z.leb_spec (cp_generation pos) 0); [lia|done|lia|].
  destruct (find_slot slots (cp_key pos)) as [slot|] eqn:Ef; [|done].
  destruct (Hall slot (find_slot_in _ _ _ Ef)) as (data & Hd & He & Es).
  destruct (bytes_eqb (cs_sha256 slot) (cp_sha pos)) eqn:Eb; [|done]. apply bytes_eqb_eq in Eb.
  destruct (link_ok md pos (cs_manifest slot)) eqn:El; [|done]. cbn [negb orb] in H.
  assert (Hn : pos_names pos (cs_manifest slot) data) by (apply (link_ok_names md); [done|right; congruence]).
  destruct (cm_parent_generation (cs_manifest slot) =? 0) eqn:Ep.
  - destruct (genesis_ok _) eqn:Eg; [|done]. simplify_eq. split; [split; [by exists data|done]|].
    exists [], (cs_manifest slot), (cs_enc slot). split; [done|]. left. by apply genesis_ok_end.
  - destruct (parent_link root (cs_manifest slot)) as [next|] eqn:En; [|done].
    destruct (list_chain_loop fuel root md slots next) as [rest|] eqn:Er; [|done]. simplify_eq.
    pose proof (parent_generation_pos _ _ _ _ Hd ltac:(destruct Hn as (_ & _ & ->); lia) Ep En) as Hg.
    destruct (IH next rest Hg) as [Hl Hend]; [|done|].
    { destruct (cp_sha next); [by right|left]. unfold zlen. cbn. lia. }
    split; [|by apply chain_end_cons]. split; [by exists data|]. eapply linked_weaken; [|exact Hl].
    intros m' data'. by eapply parent_link_names.
Qed.

(** Sorting keeps the slots. *)
Lemma sort_keeps {A} (leb : A -> A -> bool) (P : A -> Prop) l : Forall P l -> Forall P (lazy_list_sort leb l).
Proof.
  assert (Hr : forall fuel a b, Forall P a -> Forall P b -> Forall P (merge_runs leb fuel a b)).
  { induction fuel as [|fuel IH]; intros a b Ha Hb; cbn; [by apply list.Forall_app|].
    destruct a as [|x a]; [done|]. destruct b as [|y b]; [done|].
    apply list.Forall_cons in Ha as [Hx Ha], Hb as [Hy Hb]. destruct (leb x y); constructor; try done; apply IH; try done; by constructor. }
  assert (Hp : forall fuel width l, Forall P l -> Forall P (merge_pass leb fuel width l)).
  { induction fuel as [|fuel IH]; intros width l' H; cbn; [done|]. destruct (_ <=? _)%nat; [done|].
    apply list.Forall_app. split; [apply Hr; [by apply Forall_take|by apply Forall_take, Forall_drop]|]. apply IH. by apply Forall_drop. }
  intros H. unfold lazy_list_sort. destruct (_ <? _)%nat; [done|]. generalize (length l) as fuel, 1%nat as width. intros fuel.
  revert l H. induction fuel as [|fuel IH]; intros l H width; cbn [sort_loop]; [done|]. destruct (width <? length l)%nat; [|done]. by apply IH, Hp.
Qed.

(** ** The guessed chain *)

Lemma hash_links_linked slots : Forall slot_ok slots -> forall sha, hash_links_ok sha slots = true ->
  linked (fun _ data => otsardb_sha256_hex_data data = sha) (slot_entry <$> slots).
Proof.
  induction 1 as [|slot slots (data & Hd & He & Es) Hall IH]; intros sha H; [done|]. cbn [hash_links_ok] in H.
  apply andb_prop in H as [Hs H]. apply bytes_eqb_eq in Hs. cbn [fmap list_fmap linked slot_entry].
  split; [exists data; split; [congruence|done]|]. destruct slots as [|next slots]; [done|].
  apply andb_prop in H as [H Hl]. apply andb_prop in H as [Hv _]. eapply linked_weaken; [|by apply IH].
  intros m' data' Hm. unfold parent_named. by rewrite Hv.
Qed.
End Order.

(** What the segments of the chain hold, newest manifest first, as finite maps. *)
Abbreviation segment_contents := (list (list (gmap Z bytes))).

Section Open.
Context `{HSha : Sha256} `{HLz4 : Lz4} `{HA : Aead}.
Context (getenv : bytes -> option bytes).
Context {S : Type} (store : otsardb_object_store S).

(** ** The chain of a restore *)

Lemma fetch_window_ok keys : forall s window s', fetch_window store keys s = (window, s') ->
  forall slots, mapM id window = Some slots -> Forall slot_ok slots.
Proof.
  induction keys as [|key keys IH]; intros s window s' H slots Hm; cbn [fetch_window] in H.
  { unfold mret_ in H. simplify_eq. apply (inj Some) in Hm as <-. constructor. }
  unfold mbind_ in H. destruct (lazy_chain_worker store key s) as [slot s1] eqn:E1.
  destruct (fetch_window store keys s1) as [rest s2] eqn:E2. unfold mret_ in H. simplify_eq.
  cbn in Hm. destruct slot as [slot|]; [|done]. cbn in Hm. destruct (mapM id rest) as [slots'|] eqn:Em; [|done].
  apply (inj Some) in Hm as <-. constructor; [|by eapply IH].
  unfold lazy_chain_worker, mbind_, mret_ in E1. destruct (otsardb_store_get store key s) as [[e|ob] s3]; [by simplify_eq|].
  destruct (otsardb_commit_manifest_decode_json (so_data ob)) as [m|] eqn:Ed; [|by simplify_eq].
  destruct (otsardb_segment_enc_parse_json (so_data ob)) as [enc|] eqn:Ee; [|by simplify_eq]. simplify_eq. by exists (so_data ob).
Qed.

Lemma fetch_windows_ok fuel : forall keys s slots s', fetch_windows store fuel keys s = (Some slots, s') -> Forall slot_ok slots.
Proof.
  induction fuel as [|fuel IH]; intros keys s slots s' H; cbn [fetch_windows] in H;
    (destruct keys as [|key keys]; [unfold mret_ in H; by simplify_eq|]); [unfold mret_ in H; by simplify_eq|].
  unfold mbind_ in H. destruct (fetch_window store _ s) as [window s1] eqn:E1.
  destruct (mapM id window) as [first|] eqn:Em; [|unfold mret_ in H; by simplify_eq].
  destruct (fetch_windows store fuel _ s1) as [[rest|] s2] eqn:E2; unfold mret_ in H; simplify_eq.
  apply list.Forall_app. split; [by eapply fetch_window_ok|by eapply IH].
Qed.

Lemma validated_first md salt1 salt2 slot slots : validate_slots md salt1 salt2 1 (slot :: slots) = true ->
  cm_parent_commit_id (cs_manifest slot) = [].
Proof.
  cbn [validate_slots]. destruct (wal_slot_ok _ _ _ _ _); [|done]. cbn [negb Z.eqb Pos.eqb]. intros H. prop_bools.
  destruct (cm_parent_commit_id _); [done|]. unfold zlen in *. cbn [length] in *. lia.
Qed.

Lemma parallel_chain_ok root md head s slots s' :
  lazy_try_parallel_chain store root md head s = (Some slots, s') -> slots <> [] -> parent_chain head 0 (slot_entry <$> slots).
Proof.
  unfold lazy_try_parallel_chain. intros H Hne. destruct (parse_wal_commit_id _) as [[[salt1 salt2] index]|]; [|unfold mret_ in H; by simplify_eq].
  destruct (_ || _ || _); [unfold mret_ in H; by simplify_eq|]. cbv zeta in H. destruct (existsb _ _); [unfold mret_ in H; by simplify_eq|].
  unfold mbind_ in H. destruct (fetch_windows store _ _ s) as [[fetched|] s1] eqn:E; unfold mret_ in H; [|by simplify_eq].
  destruct (validate_slots md salt1 salt2 1 fetched) eqn:Ev; [|by simplify_eq].
  destruct (hash_links_ok _ _) eqn:Eh; [|by simplify_eq]. cbn [andb] in H. simplify_eq. apply fetch_windows_ok in E.
  split; [apply hash_links_linked; [by apply list.Forall_reverse|done]|].
  destruct fetched as [|first fetched]; [done|]. exists (slot_entry <$> reverse fetched), (cs_manifest first), (cs_enc first).
  rewrite reverse_cons, fmap_app. split; [done|]. left. by eapply validated_first.
Qed.

Lemma list_chain_ok root md head s slots s' : zlen (hd_commit_sha256 head) = OTSARDB_MANIFEST_SHA256_HEX_SIZE ->
  lazy_try_list_chain store root md head s = (Some slots, s') -> slots <> [] -> parent_chain head 0 (slot_entry <$> slots).
Proof.
  unfold lazy_try_list_chain. intros Hsha H Hne. cbv zeta in H. destruct (_ <=? _); [unfold mret_ in H; by simplify_eq|].
  unfold mbind_ at 1 in H. destruct (otsardb_store_list store _ s) as [[e|listed] s1]; [unfold mret_ in H; by simplify_eq|].
  destruct (_ || _); [unfold mret_ in H; by simplify_eq|]. destruct (existsb _ _); [unfold mret_ in H; by simplify_eq|].
  unfold mbind_ in H. destruct (fetch_windows store _ _ s1) as [[fetched|] s2] eqn:E; unfold mret_ in H; [|by simplify_eq].
  destruct (list_chain_loop _ _ _ _ _) as [chain|] eqn:El; [|by simplify_eq]. destruct (_ =? _); [|by simplify_eq]. simplify_eq.
  apply fetch_windows_ok in E. destruct (Z.le_gt_cases (hd_generation head) 0) as [Hle|Hpos].
  { exfalso. apply Hne. replace (Z.to_nat (hd_generation head)) with 0%nat in El by lia. cbn in El.
    destruct (Z.leb_spec (hd_generation head) 0); [by simplify_eq|lia]. }
  assert (Et : cp_sha (head_pos head) = hd_commit_sha256 head).
  { cbn. unfold snprintf_s. apply take_ge. unfold zlen, OTSARDB_MANIFEST_SHA256_HEX_SIZE in Hsha. lia. }
  apply list_chain_linked in El as [Hl Hend]; [|by apply sort_keeps|by cbn|left; rewrite Et, Hsha; done].
  split; [|exact Hend]. eapply linked_weaken; [|exact Hl]. intros m data ([Hn|Hn] & _); rewrite Et in Hn; [|done].
  by rewrite Hn in Hsha.
Qed.

(** The store beside what is collected. *)
Lemma beside_get {C} key (c : C) s r cs : otsardb_store_get (beside_store store C) key (c, s) = (r, cs) -> fst cs = c.
Proof.
  unfold otsardb_store_get, beside_store. cbn [ops_get]. destruct (ops_get store) as [f|]; cbn [fmap option_fmap option_map].
  - unfold beside. cbn [fst snd]. destruct (f key s). intros H. by simplify_eq.
  - unfold mret_. intros H. by simplify_eq.
Qed.

Lemma beside_manifest {C} key sha (c : C) s m enc cs :
  read_manifest_object (beside_store store C) key sha (c, s) = (Some (m, enc), cs) ->
  fst cs = c /\ exists data, (sha = [] \/ otsardb_sha256_hex_data data = sha) /\
    otsardb_commit_manifest_decode_json data = Some m /\ otsardb_segment_enc_parse_json data = Some enc.
Proof.
  unfold read_manifest_object, mbind_. destruct (otsardb_store_get _ key (c, s)) as [[e|ob] cs1] eqn:E; [done|].
  apply beside_get in E. destruct ((zlen sha =? 0) || bytes_eqb _ sha) eqn:Es; [|done]. cbn [negb].
  destruct (otsardb_commit_manifest_decode_json (so_data ob)) as [m0|] eqn:Ed; [|done].
  destruct (otsardb_segment_enc_parse_json (so_data ob)) as [enc0|] eqn:Ee; [|done].
  unfold mret_. intros H. injection H as <- <- <-. split; [done|]. exists (so_data ob). split; [|done].
  apply orb_prop in Es as [Es|Es]; [left; destruct sha; [done|unfold zlen in Es; cbn [length] in Es; apply Z.eqb_eq in Es; lia]|right; by apply bytes_eqb_eq].
Qed.

Abbreviation collector cg :=
  (fun (_ : chain_pos) m enc (cs : lazy_collect * S) => (true, (lazy_chain_visitor cg m enc (fst cs), snd cs))).

Lemma walk_linked root md cg fuel : forall count pos c s keys c' s', 0 < cp_generation pos ->
  chain_loop (read_manifest_object (beside_store store lazy_collect)) (collector cg) fuel root md cg count pos (c, s)
    = (Some keys, (c', s')) ->
  exists chain, lc_manifests c' = lc_manifests c ++ (uncover cg <$> chain) /\ linked (pos_names pos) chain /\ chain_end cg chain.
Proof.
  induction fuel as [|fuel IH]; intros count pos c s keys c' s' Hpos; cbn [chain_loop];
    (destruct (Z.leb_spec (cp_generation pos) 0) as [|_]; [lia|]); (destruct (_ <=? count); [done|]); [done|].
  unfold mbind_ at 1. destruct (read_manifest_object _ _ _ (c, s)) as [[[m enc]|] [c1 s1]] eqn:Em; [|done].
  apply beside_manifest in Em as (Ec & data & Hsha & Hd & He). cbn [fst] in Ec. subst c1.
  destruct (link_ok md pos m) eqn:El; [|done]. cbn [negb]. unfold mbind_ at 1. cbn [fst snd negb].
  assert (Hn : pos_names pos m data) by (by apply (link_ok_names md)). set (c2 := lazy_chain_visitor cg m enc c).
  assert (E2 : lc_manifests c2 = lc_manifests c ++ [uncover cg (m, enc)]) by apply visitor_manifests.
  destruct (negb (cg =? 0) && (cm_generation m =? cg)) eqn:Estop.
  { unfold mret_. intros H. injection H as _ <- _. exists [(m, enc)]. split; [done|]. split; [split; [by exists data|done]|].
    exists [], m, enc. split; [done|]. right. prop_bools. by split. }
  destruct (cm_parent_generation m =? 0) eqn:Ep.
  { unfold mret_. intros H. destruct (genesis_ok m) eqn:Eg; [|done]. injection H as _ <- _. exists [(m, enc)].
    split; [done|]. split; [split; [by exists data|done]|]. exists [], m, enc. split; [done|]. left. by apply genesis_ok_end. }
  destruct (parent_link root m) as [next|] eqn:En; [|done]. unfold mbind_.
  destruct (chain_loop _ _ fuel root md cg _ next _) as [[rest|] [c3 s3]] eqn:Er; unfold mret_; [|done].
  intros H. injection H as _ <- _. pose proof (parent_generation_pos _ _ _ _ Hd ltac:(destruct Hn as (_ & _ & ->); lia) Ep En) as Hg.
  apply IH in Er as (chain & Ec & Hl & Hend); [|done]. exists ((m, enc) :: chain).
  split; [rewrite Ec, E2, <- app_assoc; done|]. split; [|by apply chain_end_cons]. split; [by exists data|].
  eapply linked_weaken; [|exact Hl]. intros m' data'. by eapply parent_link_names.
Qed.

Lemma parent_chain_cover head cg chain : parent_chain head 0 chain -> parent_chain head cg chain.
Proof. intros (Hl & newer & m & enc & E & [H|[H _]]); [|done]. split; [done|]. exists newer, m, enc. split; [done|by left]. Qed.

Lemma walk_collect_ok root md head cg s c s' : zlen (hd_commit_sha256 head) = OTSARDB_MANIFEST_SHA256_HEX_SIZE ->
  walk_collect store root md head cg (mkCollect [] []) s = (Some c, s') ->
  exists chain, lc_manifests c = uncover cg <$> chain /\ parent_chain head cg chain.
Proof.
  intros Hsha. unfold walk_collect, otsardb_recovery_walk_chain. unfold mbind_ at 1.
  destruct (chain_loop _ _ _ root md cg 0 (head_pos head) _) as [r [c1 s1]] eqn:El. intros H.
  assert (Hpos : 0 < hd_generation head).
  { destruct (Z.le_gt_cases (hd_generation head) 0) as [Hle|]; [|done]. exfalso.
    replace (Z.to_nat (hd_generation head)) with 0%nat in El by lia. cbn in El.
    destruct (Z.leb_spec (hd_generation head) 0); [|lia]. unfold mret_ in El. simplify_eq.
    destruct (cg =? 0); cbn in H; unfold mret_ in H; by simplify_eq. }
  destruct r as [keys|]; [|unfold mret_ in H; by simplify_eq].
  apply walk_linked in El as (chain & Ec & Hl & Hend); [|done]. cbn [lc_manifests app] in Ec.
  assert (lc_manifests c = lc_manifests c1) as E.
  { destruct (cg =? 0).
    - unfold genesis_check in H. destruct (reverse keys) as [|key ?]; [unfold mret_ in H; by simplify_eq|].
      unfold mbind_ in H. unfold read_manifest_object, mbind_ in H.
      destruct (otsardb_store_get _ key (c1, s1)) as [g [c2 s2]] eqn:Eg. apply beside_get in Eg. cbn [fst] in Eg. subst c2.
      unfold mret_ in H. repeat case_match; by simplify_eq.
    - unfold mret_ in H. repeat case_match; by simplify_eq. }
  exists chain. split; [congruence|]. split; [|exact Hend]. eapply linked_weaken; [|exact Hl].
  assert (Et : cp_sha (head_pos head) = hd_commit_sha256 head).
  { cbn. unfold snprintf_s. apply take_ge. unfold zlen, OTSARDB_MANIFEST_SHA256_HEX_SIZE in Hsha. lia. }
  intros m data ([Hn|Hn] & _); rewrite Et in Hn; [|done]. by rewrite Hn in Hsha.
Qed.

Lemma collect_chain_ok root md head cg s c s' : zlen (hd_commit_sha256 head) = OTSARDB_MANIFEST_SHA256_HEX_SIZE ->
  collect_chain getenv store root md head cg s = (Some c, s') -> lc_manifests c <> [] ->
  exists chain, lc_manifests c = uncover cg <$> chain /\ parent_chain head cg chain.
Proof.
  intros Hsha. unfold collect_chain. cbv zeta. set (ok := match getenv _ with Some v => _ | None => _ end).
  unfold mbind_ at 1. intros H Hne.
  assert (Hfeed : forall slots, lc_manifests (visit_all cg ((fun sl => (cs_manifest sl, cs_enc sl)) <$> slots) (mkCollect [] []))
    = uncover cg <$> (slot_entry <$> slots)) by (intros slots; by rewrite visit_all_manifests).
  destruct ((if (cg =? 0) && ok then lazy_try_parallel_chain store root md head else mret_ None) s) as [[slots|] s1] eqn:E1.
  { unfold mret_ in H. injection H as <- <-. rewrite Hfeed in Hne |- *. exists (slot_entry <$> slots). split; [done|].
    apply parent_chain_cover. destruct (_ && ok); [|done]. eapply parallel_chain_ok; [exact E1|]. by intros ->. }
  unfold mbind_ in H. destruct ((if ok then lazy_try_list_chain store root md head else mret_ None) s1) as [[slots|] s2] eqn:E2.
  { unfold mret_ in H. injection H as <- <-. rewrite Hfeed in Hne |- *. exists (slot_entry <$> slots). split; [done|].
    apply parent_chain_cover. destruct ok; [|done]. eapply list_chain_ok; [done|exact E2|]. by intros ->. }
  by eapply walk_collect_ok.
Qed.

(** ** The hydrator of a restore *)

Record opened (h : otsardb_lazy_hydrator) : Prop := {
  op_size : li_database_size_pages (lh_index h) <> 0 /\ li_database_size_pages (lh_index h) < UINT32_MAX;
  op_bitmap : lh_bitmap h = replicate (Z.to_nat ((li_database_size_pages (lh_index h) + 7) / 8)) 0;
  op_marked : lh_marked_pages h = 0;
  op_tasks : lh_tasks h = all_tasks store h 0 (li_manifests (lh_index h));
  op_next : lh_next_apply h = 0%nat;
  op_cache : lh_cache h = lazy_cache_init getenv (li_page_size (lh_index h)) zero_cache;
  op_base : li_base_complete_pages (lh_index h) =
            lazy_count_covered_unclaimed h (Z.min (li_database_size_pages (lh_index h)) (li_covered_size_pages (lh_index h)))
}.

(** The image has its size. *)
Lemma truncate_length path size l l' :
  0 <= size -> lazy_truncate_file path size l = (true, l') -> exists file, l_files l' !! path = Some file /\ zlen file = size.
Proof.
  intros Hs. unfold lazy_truncate_file. destruct (_ <? _); [done|]. unfold mbind_ at 1.
  destruct (fopen_update path l) as [op l1]. destruct op; [|done]. cbn [negb]. unfold ftruncate, mbind_, mret_, set_file.
  destruct (io_call l1) as [ok l2]. destruct ok; cbn [negb]; [|by destruct (io_call l2)]. unfold file_of. cbn.
  destruct (io_call _) as [closed l3] eqn:E. intros [= -> <-]. apply io_call_files in E. cbn in E. rewrite E, lookup_insert_eq.
  eexists. split; [done|]. unfold zlen, resize. rewrite length_take, length_app, length_replicate. lia.
Qed.

(** The task list depends on the root and the chain only. *)
Lemma manifest_tasks_index h h' m enc mi s segs :
  li_root (lh_index h') = li_root (lh_index h) -> manifest_tasks store h' m enc mi s segs = manifest_tasks store h m enc mi s segs.
Proof.
  intros E. revert s. induction segs as [|ref segs IH]; intros s; [done|]. cbn [manifest_tasks].
  rewrite IH. unfold segment_absolute_key. by rewrite E.
Qed.

Lemma all_tasks_index h h' mi ms :
  li_root (lh_index h') = li_root (lh_index h) -> all_tasks store h' mi ms = all_tasks store h mi ms.
Proof.
  intros E. revert mi. induction ms as [|[m enc] ms IH]; intros mi; [done|]. cbn [all_tasks].
  by rewrite IH, (manifest_tasks_index h h').
Qed.

(** The index and the fields, before the tasks are built and after. *)
Lemma opened_build h1 root path cipher ps size covered ms :
  lh_index h1 = mkIndex root path cipher ps size covered 0 ms -> size <> 0 /\ size < UINT32_MAX ->
  lh_bitmap h1 = replicate (Z.to_nat ((size + 7) / 8)) 0 -> lh_marked_pages h1 = 0 -> lh_next_apply h1 = 0%nat ->
  lh_cache h1 = lazy_cache_init getenv ps zero_cache ->
  let h2 := lazy_build_tasks store h1 in
  let limit := if size <? covered then size else covered in
  let base := if limit =? 0 then 0 else lazy_count_covered_unclaimed h2 limit in
  opened (set_index (mkIndex root path cipher ps size covered base ms) h2).
Proof.
  intros Ei Hs Hb Hm Hn Hc. cbv zeta. set (base := if _ =? 0 then _ else _).
  set (h := set_index _ _). assert (Ht : lh_tasks h = all_tasks store h1 0 ms).
  { unfold h, lazy_build_tasks. destruct h1. cbn in *. by rewrite Ei. }
  assert (Eix : lh_index h = mkIndex root path cipher ps size covered base ms) by (unfold h; by destruct h1).
  split; rewrite ?Eix; cbn [li_database_size_pages li_page_size li_manifests li_covered_size_pages li_base_complete_pages]; try done.
  - unfold h. by destruct h1.
  - unfold h. by destruct h1.
  - rewrite Ht. symmetry. apply all_tasks_index. by rewrite Eix, Ei.
  - unfold h. by destruct h1.
  - unfold h. by destruct h1.
  - assert (El : (if size <? covered then size else covered) = Z.min size covered) by (destruct (Z.ltb_spec size covered); lia).
    assert (Ecount : lazy_count_covered_unclaimed h (Z.min size covered) =
                     lazy_count_covered_unclaimed (lazy_build_tasks store h1) (Z.min size covered)).
    { unfold lazy_count_covered_unclaimed, task_pages, task_segment. rewrite Eix.
      assert (Ei2 : lh_index (lazy_build_tasks store h1) = lh_index h1) by (by destruct h1). rewrite Ei2, Ei.
      assert (Et2 : lh_tasks (lazy_build_tasks store h1) = lh_tasks h) by (unfold h; by destruct h1). by rewrite Et2. }
    rewrite Ecount. unfold base. rewrite El. destruct (Z.eqb_spec (Z.min size covered) 0) as [->|]; [|done].
    unfold lazy_count_covered_unclaimed. by rewrite orb_true_r.
Qed.

Lemma restore_index_opened root path cipher covered c h0 s l h s' l' :
  lh_next_apply h0 = 0%nat -> lh_cache h0 = zero_cache ->
  restore_index getenv store root path cipher covered c h0 (s, l) = (Some h, (s', l')) ->
  opened h /\ s' = s /\ li_path (lh_index h) = path /\
  exists file, l_files l' !! path = Some file /\ zlen file = u64 (li_database_size_pages (lh_index h) * li_page_size (lh_index h)).
Proof.
  intros Hn Hc. unfold restore_index. destruct (lc_manifests c) as [|[m enc] ms]; [done|].
  destruct (_ || _) eqn:Esz; [done|]. apply orb_false_elim in Esz as [E0 E1]. apply Z.eqb_neq in E0. apply Z.leb_gt in E1.
  cbv zeta. destruct (Z.eqb_spec (u64 (cm_database_size_pages m * cm_page_size m)) 0); [done|]. unfold mbind_ at 1, on_files.
  cbn [fst snd]. destruct (lazy_truncate_file path _ l) as [ok l1] eqn:Et. unfold mret_. destruct ok; [|done].
  set (h1 := set_bitmap _ _ _). intros E. injection E as Eh Es El. subst s' l'.
  assert (Hopen : opened h).
  { rewrite <- Eh. apply (opened_build h1); [| |unfold h1; by destruct h0..|]; try done; [unfold h1; by destruct h0|].
    unfold h1. destruct h0. cbn in *. by subst. }
  assert (Ei : li_path (lh_index h) = path /\ li_database_size_pages (lh_index h) = cm_database_size_pages m /\
               li_page_size (lh_index h) = cm_page_size m) by (rewrite <- Eh; unfold h1; by destruct h0).
  destruct Ei as (Ep & Esz & Eps). split; [done|]. split; [done|]. split; [done|]. rewrite Esz, Eps.
  apply truncate_length in Et; [done|apply Z.mod_pos_bound; lia].
Qed.

(** A restore that succeeds. *)
Lemma restore_opened root path head_in cipher old s l h s' l' :
  otsardb_lazy_restore_store_ex getenv store root path head_in cipher old (s, l) = ((true, Some h), (s', l')) ->
  opened h /\ li_path (lh_index h) = path /\
  exists file, l_files l' !! path = Some file /\ zlen file = u64 (li_database_size_pages (lh_index h) * li_page_size (lh_index h)).
Proof.
  unfold otsardb_lazy_restore_store_ex. set (h0 := mkHydrator _ _ _ _ _ _ _ _ _ _ _ _ _ _ _ _ _). cbv zeta.
  unfold mbind_ at 1. destruct (on_store _ (s, l)) as [[rc metadata] w1]. 
  destruct rc; try (by intros [= ?]). destruct metadata as [metadata|]; [|by intros [= ?]].
  unfold mbind_ at 1. match goal with |- context [match ?m w1 with (_, _) => _ end] => destruct (m w1) as [[head|] w2] end;
    [|by intros [= ?]].
  destruct (_ || _); [by intros [= ?]|]. unfold mbind_ at 1.
  destruct (restore_base _ _ _ _ _ w2) as [[cg cs] w3]. unfold mbind_ at 1.
  destruct (on_store _ w3) as [[c|] w4]; [|by intros [= ?]]. unfold mbind_ at 1. destruct w4 as [s4 l4].
  destruct (restore_index getenv store root path cipher cs c h0 (s4, l4)) as [[h1|] [s5 l5]] eqn:Er; [|by intros [= ?]].
  intros [= <- <- <-]. apply restore_index_opened in Er as (Ho & _ & Hp & Hf); [by split|done..].
Qed.

(** The head a restore reads, at some moment after its start. *)
Definition head_read (env : contents -> contents -> Prop) (root : bytes) (v0 : contents) (head : otsardb_head) : Prop :=
  exists v hk ob, rtc env v0 v /\ build_head_key root (OTSARDB_KEY_MAX + 1) = Some hk /\ v !! hk = Some ob /\
    otsardb_head_decode_json (so_data ob) = Some head.

(** The manifests of a restore: the parent chain of the head, newest first. *)
Definition restored_chain (env : contents -> contents -> Prop) (root : bytes) (head_in : option otsardb_head) (v0 : contents)
    (manifests : list (otsardb_commit_manifest * enc_set)) : Prop :=
  exists head cg chain,
    match head_in with Some hd => head = hd | None => head_read env root v0 head end /\
    manifests = uncover cg <$> chain /\ parent_chain head cg chain.

Lemma restore_index_manifests root path cipher covered c h0 w h w' :
  restore_index getenv store root path cipher covered c h0 w = (Some h, w') ->
  li_manifests (lh_index h) = lc_manifests c /\ lc_manifests c <> [].
Proof.
  unfold restore_index. destruct (lc_manifests c) as [|[m enc] ms] eqn:E; [done|]. destruct (_ || _); [done|]. cbv zeta.
  destruct (_ =? 0); [done|]. unfold mbind_, mret_. destruct (on_files _ w) as [[] w1]; [|done]. intros H. injection H as <- _.
  by destruct h0.
Qed.

Lemma restore_chain (view : S -> contents) env `{!StoreLaws store view env} root path head_in cipher old s l h w :
  otsardb_lazy_restore_store_ex getenv store root path head_in cipher old (s, l) = ((true, Some h), w) ->
  restored_chain env root head_in (view s) (li_manifests (lh_index h)).
Proof.
  unfold otsardb_lazy_restore_store_ex. set (h0 := mkHydrator _ _ _ _ _ _ _ _ _ _ _ _ _ _ _ _ _). cbv zeta.
  unfold mbind_ at 1, on_store at 1. cbn [fst snd].
  destruct (otsardb_db_metadata_read store root s) as [[rc metadata] s1] eqn:Emd.
  destruct rc; try (by intros [= ?]). destruct metadata as [metadata|]; [|by intros [= ?]].
  assert (H1 : rtc env (view s) (view s1)).
  { unfold otsardb_db_metadata_read, mbind_, mret_ in Emd. destruct (build_key _ _) as [key|]; [|by simplify_eq].
    destruct (otsardb_store_get store key s) as [g s2] eqn:Eg. apply (get_law (view := view)) in Eg as [He _].
    assert (s1 = s2) as -> by (repeat case_match; by simplify_eq). by apply rtc_once. }
  unfold mbind_ at 1. match goal with |- context [match ?m (s1, l) with (_, _) => _ end] => destruct (m (s1, l)) as [[head|] w2] eqn:Eh end;
    [|by intros [= ?]].
  assert (Hhead : match head_in with Some hd => head = hd | None => head_read env root (view s) head end).
  { destruct head_in as [hd|]; [unfold mret_ in Eh; by simplify_eq|].
    unfold mbind_, on_store, mret_ in Eh. cbn [fst snd] in Eh.
    destruct (otsardb_journal_read_head store root s1) as [[rc r] s2] eqn:Er.
    destruct rc; try by simplify_eq. destruct r as [[hd etag]|]; [|by simplify_eq]. simplify_eq.
    unfold otsardb_journal_read_head, mbind_, mret_ in Er. destruct (build_head_key root _) as [hk|] eqn:Ek; [|by simplify_eq].
    destruct (otsardb_store_get store hk s1) as [[[]|ob] s3] eqn:Eg; try by simplify_eq.
    apply (get_law (view := view)) in Eg as [He Hob]. destruct (otsardb_head_decode_json (so_data ob)) as [hd|] eqn:Ed; [|by simplify_eq].
    exists (view s3), hk, ob. split; [by eapply rtc_r|]. split; [done|]. split; [done|]. repeat case_match; by simplify_eq. }
  destruct (negb (bytes_eqb (hd_database_id head) _) || _ || _) eqn:Esha; [by intros [= ?]|].
  apply orb_false_elim in Esha as [_ Esha]. apply negb_false_iff, Z.eqb_eq in Esha. unfold mbind_ at 1.
  destruct (restore_base _ _ _ _ _ w2) as [[cg cs] [s3 l3]]. unfold mbind_ at 1, on_store. cbn [fst snd].
  destruct (collect_chain getenv store root metadata head cg s3) as [[c|] s4] eqn:Ec; [|by intros [= ?]]. unfold mbind_.
  destruct (restore_index getenv store root path cipher cs c h0 (s4, l3)) as [[h1|] w5] eqn:Er; [|by intros [= ?]].
  intros [= <- <-]. apply restore_index_manifests in Er as [Em Hne].
  apply collect_chain_ok in Ec as (chain & Ech & Hp); [|done..]. exists head, cg, chain. split; [done|]. split; [congruence|done].
Qed.

(** ** The first claim *)

Definition segment_has (ms : list (otsardb_commit_manifest * enc_set)) (i j : nat) (p : Z) : Prop :=
  exists m enc seg, ms !! i = Some (m, enc) /\ cm_segments m !! j = Some seg /\ p ∈ sg_pages seg.

Lemma manifest_tasks_length h m enc mi segs : forall k,
  length (manifest_tasks store h m enc mi k segs) = length (segment_sets segs).
Proof.
  induction segs as [|ref segs IH]; intros k; [done|]. cbn [manifest_tasks]. rewrite segment_sets_cons.
  destruct (_ =? 0); cbn [length]; by rewrite IH.
Qed.

(** [r] is the first of the tasks of one manifest, for the segments from [k] on,
    that has the page. *)
Definition claims_first (mi k : nat) (tasks : list lazy_seg_task) (segs : list otsardb_manifest_segment_ref) (p : Z)
    (r : option nat) : Prop :=
  match r with
  | Some o => exists t j seg, tasks !! o = Some t /\ tr_manifest_index (st_ref t) = mi /\
      tr_segment_index (st_ref t) = (k + j)%nat /\ segs !! j = Some seg /\ p ∈ sg_pages seg /\
      forall j' seg', segs !! j' = Some seg' -> p ∈ sg_pages seg' -> (j <= j')%nat
  | None => forall j seg, segs !! j = Some seg -> p ∉ sg_pages seg
  end.

Lemma claims_skip mi k tasks ref segs p r : p ∉ sg_pages ref ->
  claims_first mi (Datatypes.S k) tasks segs p r -> claims_first mi k tasks (ref :: segs) p r.
Proof.
  intros Hp. destruct r as [o|].
  - intros (t & j & seg & Ht & Hm & Hs & Hj & Hin & Hmin). exists t, (Datatypes.S j), seg. split_and!; try done; [lia|].
    intros [|j'] seg' Hj' Hin'; cbn in Hj'; [by simplify_eq|]. specialize (Hmin j' seg' Hj' Hin'). lia.
  - intros Hno [|j] seg Hj; cbn in Hj; [by simplify_eq|by eapply Hno].
Qed.

Lemma segment_claim h m enc mi p segs : forall k,
  claims_first mi k (manifest_tasks store h m enc mi k segs) segs p (first_claim (segment_sets segs) p).
Proof.
  induction segs as [|ref segs IH]; intros k; [by intros j seg Hj|]. cbn [manifest_tasks]. rewrite segment_sets_cons.
  specialize (IH (Datatypes.S k)). destruct (sg_page_count ref =? 0) eqn:Ec.
  { apply claims_skip; [|exact IH]. rewrite page_count_nil in Ec. apply bool_decide_eq_true in Ec as ->. set_solver. }
  rewrite first_claim_cons. case_decide as Hp.
  - eexists _, 0%nat, ref. cbn. split_and!; [done|done|cbn; lia|done|done|intros; lia].
  - apply (claims_skip _ _ _ ref) in IH; [|done]. destruct (first_claim (segment_sets segs) p); exact IH.
Qed.

(** The page belongs to the newest manifest that has it, and of its segments to
    the first one. *)
Lemma chain_claim h p ms : forall mi,
  match first_claim (page_sets ms) p with
  | Some o => exists t i, all_tasks store h mi ms !! o = Some t /\ tr_manifest_index (st_ref t) = (mi + i)%nat /\
      segment_has ms i (tr_segment_index (st_ref t)) p /\
      forall i' j', segment_has ms i' j' p -> (i < i')%nat \/ (i = i' /\ (tr_segment_index (st_ref t) <= j')%nat)
  | None => forall i j, ~ segment_has ms i j p
  end.
Proof.
  induction ms as [|[m enc] ms IH]; intros mi; [by intros i j (? & ? & ? & ? & _)|].
  rewrite page_sets_cons, first_claim_app. cbn [all_tasks]. pose proof (segment_claim h m enc mi p (cm_segments m) 0) as Hs.
  destruct (first_claim (segment_sets (cm_segments m)) p) as [o|]; cbn [claims_first] in Hs.
  - destruct Hs as (t & j & seg & Ht & Hm & Hj & Hseg & Hp & Hmin). exists t, 0%nat. rewrite Hj. cbn [Nat.add].
    split_and!; [by apply lookup_app_l_Some|lia|by exists m, enc, seg|].
    intros [|i'] j' (m' & enc' & seg' & Hi' & Hj' & Hp'); [right|left; lia]. cbn in Hi'. simplify_eq. split; [done|]. by eapply Hmin.
  - specialize (IH (Datatypes.S mi)). rewrite <- (manifest_tasks_length h m enc mi (cm_segments m) 0).
    destruct (first_claim (page_sets ms) p) as [o|]; cbn [fmap option_fmap option_map].
    + destruct IH as (t & i & Ht & Hm & (m0 & enc0 & seg0 & Hi & Hj & Hp) & Hmin). exists t, (Datatypes.S i).
      split_and!; [rewrite lookup_app_r by lia; rewrite <- Ht; f_equal; lia|lia|by exists m0, enc0, seg0|].
      intros [|i'] j' (m' & enc' & seg' & Hi' & Hj' & Hp'); cbn in Hi'; [simplify_eq; by destruct (Hs _ _ Hj')|].
      destruct (Hmin i' j') as [?|[? ?]]; [by exists m', enc', seg'|left; lia|right; lia].
    + intros [|i] j (m' & enc' & seg' & Hi' & Hj' & Hp'); cbn in Hi'; [simplify_eq; by destruct (Hs _ _ Hj')|].
      apply (IH i j). by exists m', enc', seg'.
Qed.

(** ** The pages of the head *)

(** The segments are replayed from the oldest manifest on, segment after segment:
    the last writer of a page wins. *)
Definition replay (image : gmap Z bytes) (segs : list (gmap Z bytes)) : gmap Z bytes :=
  foldl (fun image seg => seg ∪ image) image segs.
Definition chain_pages (contents : segment_contents) : gmap Z bytes := foldl replay ∅ (reverse contents).

(** A page that no segment has is the one of the image the checkpoint was
    written to. *)
Definition base_page (ps : Z) (file : bytes) (p : Z) : bytes :=
  take (Z.to_nat ps) (page_at ps file p ++ replicate (Z.to_nat ps) 0).
Definition head_page (contents : segment_contents) (ps : Z) (file : bytes) (p : Z) : bytes :=
  default (base_page ps file p) (chain_pages contents !! p).

(** The page sets of the manifests are those of the contents, and no page is in
    two segments of one manifest. *)
Record described (ms : list (otsardb_commit_manifest * enc_set)) (contents : segment_contents) : Prop := {
  ds_sets : Forall2 (fun me segs => Forall2 (fun ref seg => forall p, p ∈ sg_pages ref <-> is_Some (seg !! p))
                                      (cm_segments (fst me)) segs) ms contents;
  ds_once : forall i segs j j' seg seg' p, contents !! i = Some segs -> segs !! j = Some seg -> segs !! j' = Some seg' ->
            is_Some (seg !! p) -> is_Some (seg' !! p) -> j = j'
}.

Lemma described_has ms contents i j p : described ms contents ->
  segment_has ms i j p <-> exists segs seg, contents !! i = Some segs /\ segs !! j = Some seg /\ is_Some (seg !! p).
Proof.
  intros [Hd _]. split.
  - intros (m & enc & ref & Hi & Hj & Hp). destruct (Forall2_lookup_l _ _ _ _ _ Hd Hi) as (segs & Hs & Hf).
    destruct (Forall2_lookup_l _ _ _ _ _ Hf Hj) as (seg & Hseg & Hiff). exists segs, seg. split_and!; [done|done|by apply Hiff].
  - intros (segs & seg & Hi & Hj & Hp). destruct (Forall2_lookup_r _ _ _ _ _ Hd Hi) as ([m enc] & Hm & Hf).
    destruct (Forall2_lookup_r _ _ _ _ _ Hf Hj) as (ref & Href & Hiff). exists m, enc, ref. split_and!; [done|done|by apply Hiff].
Qed.

Lemma replay_none segs p : forall image, (forall j seg, segs !! j = Some seg -> seg !! p = None) ->
  replay image segs !! p = image !! p.
Proof.
  induction segs as [|seg segs IH]; intros image H; [done|]. unfold replay in *. cbn [foldl]. rewrite IH.
  - rewrite lookup_union, (H 0%nat seg eq_refl). by destruct (image !! p).
  - intros j seg' Hj. by apply (H (Datatypes.S j)).
Qed.

Lemma replay_one segs p j seg page : forall image, segs !! j = Some seg -> seg !! p = Some page ->
  (forall j' seg', segs !! j' = Some seg' -> is_Some (seg' !! p) -> j' = j) -> replay image segs !! p = Some page.
Proof.
  revert j. induction segs as [|x segs IH]; intros j image Hj Hp Honly; [done|]. unfold replay in *. cbn [foldl].
  destruct j as [|j]; cbn in Hj.
  - injection Hj as ->. pose proof (replay_none segs p (seg ∪ image)) as Hn. unfold replay in Hn. rewrite Hn.
    + rewrite lookup_union, Hp. by destruct (image !! p).
    + intros j' seg' Hj'. destruct (seg' !! p) eqn:E; [|done]. specialize (Honly (Datatypes.S j') seg' Hj' ltac:(by rewrite E)). done.
  - apply (IH j); [done|done|]. intros j' seg' Hj' Hs. specialize (Honly (Datatypes.S j') seg' Hj' Hs). lia.
Qed.

Lemma chain_pages_cons segs contents : chain_pages (segs :: contents) = replay (chain_pages contents) segs.
Proof. unfold chain_pages. by rewrite reverse_cons, foldl_app. Qed.

Lemma chain_pages_newest contents p : forall i segs j seg page,
  contents !! i = Some segs -> segs !! j = Some seg -> seg !! p = Some page ->
  (forall j' seg', segs !! j' = Some seg' -> is_Some (seg' !! p) -> j' = j) ->
  (forall i' segs' j' seg', (i' < i)%nat -> contents !! i' = Some segs' -> segs' !! j' = Some seg' -> seg' !! p = None) ->
  chain_pages contents !! p = Some page.
Proof.
  induction contents as [|x contents IH]; intros i segs j seg page Hi Hj Hp Honly Hnew; [done|]. rewrite chain_pages_cons.
  destruct i as [|i]; cbn in Hi; [simplify_eq; by eapply replay_one|]. rewrite replay_none.
  - eapply IH; [exact Hi|exact Hj|exact Hp|done|]. intros i' segs' j' seg' Hlt Hi' Hj'. by apply (Hnew (Datatypes.S i') segs' j'); [lia|..].
  - intros j' seg' Hj'. by apply (Hnew 0%nat x j'); [lia|..].
Qed.

Lemma chain_pages_none contents p :
  (forall i segs j seg, contents !! i = Some segs -> segs !! j = Some seg -> seg !! p = None) -> chain_pages contents !! p = None.
Proof.
  induction contents as [|x contents IH]; intros H; [done|]. rewrite chain_pages_cons, replay_none.
  - apply IH. intros i segs j seg Hi Hj. by apply (H (Datatypes.S i) segs j).
  - intros j seg Hj. by apply (H 0%nat x j).
Qed.

(** The claimant of a page is the segment whose page the replay ends with. *)
Lemma claim_pages h ms contents p : manifests_valid ms -> described ms contents ->
  match first_claim (page_sets ms) p with
  | Some o => exists t segs seg page, all_tasks store h 0 ms !! o = Some t /\
      contents !! tr_manifest_index (st_ref t) = Some segs /\ segs !! tr_segment_index (st_ref t) = Some seg /\
      seg !! p = Some page /\ chain_pages contents !! p = Some page
  | None => chain_pages contents !! p = None
  end.
Proof.
  intros Hv Hd. pose proof (chain_claim h p ms 0) as Hc. destruct (first_claim (page_sets ms) p) as [o|].
  - destruct Hc as (t & i & Ht & Hm & Hhas & Hmin). cbn [Nat.add] in Hm.
    pose proof Hhas as Hhas'. apply (described_has ms contents) in Hhas as (segs & seg & Hi & Hj & page & Hp); [|done].
    exists t, segs, seg, page. rewrite Hm. split_and!; try done. eapply chain_pages_newest; [exact Hi|exact Hj|exact Hp| |].
    + intros j' seg' Hj' Hs. by eapply (ds_once _ _ Hd); [exact Hi|exact Hj'|exact Hj|exact Hs|eexists].
    + intros i' segs' j' seg' Hlt Hi' Hj'. destruct (seg' !! p) as [q|] eqn:E; [|done].
      destruct (Hmin i' j') as [?|[? ?]]; [|lia..]. apply (described_has ms contents); [done|]. exists segs', seg'. by rewrite E.
  - apply chain_pages_none. intros i segs j seg Hi Hj. destruct (seg !! p) as [q|] eqn:E; [|done]. exfalso.
    apply (Hc i j), (described_has ms contents); [done|]. exists segs, seg. by rewrite E.
Qed.

(** ** The invariant holds *)

Lemma tasks_idle h mi ms t : t ∈ all_tasks store h mi ms -> st_state t = TASK_IDLE /\ st_verified_bytes t = None.
Proof.
  revert mi. induction ms as [|[m enc] ms IH]; intros mi; cbn [all_tasks]; [by intros ?%elem_of_nil|].
  rewrite elem_of_app. intros [Ht|Ht]; [|by eapply IH]. revert Ht. generalize 0%nat. induction (cm_segments m) as [|ref segs IHs];
    intros k; cbn [manifest_tasks]; [by intros ?%elem_of_nil|].
  destruct (sg_page_count ref =? 0); [by apply IHs|]. intros [->|Ht]%elem_of_cons; [done|by eapply IHs].
Qed.

Lemma fresh_bits h :
  0 <= lh_database_size_pages h < UINT32_MAX ->
  lh_bitmap h = replicate (Z.to_nat ((lh_database_size_pages h + 7) / 8)) 0 -> lh_marked_pages h = 0 ->
  bits_ok h /\ forall p, bitmap_get h p = false.
Proof.
  intros Hs Hb Hm. assert (Hg : forall p, bitmap_get h p = false).
  { intros p. unfold bitmap_get, bit_is_set. rewrite Hb. apply andb_false_iff. right.
    destruct (replicate _ 0 !! bit_byte p) as [x|] eqn:Ex; [|by rewrite Z.land_0_l].
    apply lookup_replicate in Ex as [-> _]. by rewrite Z.land_0_l. }
  split; [|done]. split; [unfold UINT32_MAX in Hs; lia|by rewrite Hb, length_replicate|].
  rewrite Hm. symmetry. induction (seqZ 1 (lh_database_size_pages h)) as [|q l IH]; [done|].
  rewrite list.filter_cons_False; [done|]. by rewrite Hg.
Qed.

Context (freed : bytes -> bytes) (view : S -> contents) (env : contents -> contents -> Prop).

(** The object of a segment holds its pages: whole, or in a range of its blocks. *)
Definition object_holds (I : lazy_index) (ref : lazy_task_ref) (seg : gmap Z bytes) (data : bytes) : Prop :=
  forall h segment batch, lh_index h = I -> task_view freed h ref data = Some segment ->
  view_batch segment (tr_page_size ref) = Some batch ->
  wb_page_size batch = li_page_size I /\
  (forall i p page, 0 <= i -> otsardb_wal_batch_frame batch i = Some (p, page) -> seg !! p = Some page) /\
  (forall p, is_Some (seg !! p) -> exists i page, 0 <= i < wb_frame_count batch /\ otsardb_wal_batch_frame batch i = Some (p, page)).

Definition slice_holds (ps : Z) (seg : gmap Z bytes) (slice : bytes) : Prop :=
  forall pos frame p pos', reached slice pos -> otsardb_segment_frame_decode slice pos = Some (frame, p, pos') ->
  seg !! p = Some (take (Z.to_nat ps) (drop 8 frame)).

(** What is assumed of the head behind a restored hydrator: page numbers have 32
    bits, every segment has a page set (none is unknown), [contents] are the pages
    of the segments, no page being in two segments of one commit, and the objects
    of the segments, as far as the store has them under their digests, decode to
    these pages. *)
Record head_stored (h : otsardb_lazy_hydrator) (v : contents) (contents : segment_contents) : Prop := {
  hs_manifests : manifests_valid (li_manifests (lh_index h));
  hs_known : lh_unknown h = [];
  hs_page_size : 0 < li_page_size (lh_index h) < 2 ^ 32;
  hs_size : 0 <= li_database_size_pages (lh_index h);
  hs_described : described (li_manifests (lh_index h)) contents;
  hs_lengths : forall i segs j seg p page, contents !! i = Some segs -> segs !! j = Some seg -> seg !! p = Some page ->
               length page = Z.to_nat (li_page_size (lh_index h));
  hs_objects : forall o ref segs seg ob, (st_ref <$> lh_tasks h) !! o = Some ref ->
               contents !! tr_manifest_index ref = Some segs -> segs !! tr_segment_index ref = Some seg ->
               v !! tr_absolute_key ref = Some ob ->
               (zlen (so_data ob) = tr_size ref -> otsardb_sha256_hex_data (so_data ob) = tr_sha256 ref ->
                object_holds (lh_index h) ref seg (so_data ob)) /\
               (forall a b, block_bounds (lh_index h) (st_ref <$> lh_tasks h) o a b ->
                slice_holds (li_page_size (lh_index h)) seg (take (Z.to_nat (b - a)) (drop (Z.to_nat a) (so_data ob))))
}.

Lemma base_page_at ps size file p : 0 < ps -> 0 < p <= size -> zlen file = size * ps -> base_page ps file p = page_at ps file p.
Proof.
  intros Hps Hp Hz. unfold base_page. apply take_app_length'. unfold page_at. rewrite length_take, length_drop.
  unfold zlen in Hz. nia.
Qed.

(** The page of a claimant, by the index. *)
Lemma claimant_page h v contents p o : opened h -> head_stored h v contents -> claimant (lh_index h) p = Some o ->
  exists ref segs seg page, (st_ref <$> lh_tasks h) !! o = Some ref /\
    contents !! tr_manifest_index ref = Some segs /\ segs !! tr_segment_index ref = Some seg /\
    seg !! p = Some page /\ chain_pages contents !! p = Some page.
Proof.
  intros Ho Hh Hc. rewrite claimant_first in Hc by apply Hh.
  pose proof (claim_pages h _ _ p (hs_manifests _ _ _ Hh) (hs_described _ _ _ Hh)) as H. rewrite Hc in H.
  destruct H as (t & segs & seg & page & Ht & H). exists (st_ref t), segs, seg, page. split; [|done].
  by rewrite (op_tasks _ Ho), list_lookup_fmap, Ht.
Qed.

Context (expected : Z -> bytes).

(** What is known of the head behind a restored hydrator: the chain was decoded,
    the store has the objects its manifests describe, and the image has the pages
    that only the checkpoint has. *)
Record serves_head (h : otsardb_lazy_hydrator) (v : contents) (file : bytes) : Prop := {
  sh_manifests : manifests_valid (li_manifests (lh_index h));
  sh_known : lh_unknown h = [];
  sh_page_size : 0 < li_page_size (lh_index h) < 2 ^ 32;
  sh_size : 0 <= li_database_size_pages (lh_index h);
  sh_pages : forall p, length (expected p) = Z.to_nat (li_page_size (lh_index h));
  sh_objects : authentic freed (lh_index h) (st_ref <$> lh_tasks h) expected v;
  sh_base : forall p, 0 < p <= li_database_size_pages (lh_index h) -> in_base (lh_index h) p ->
            page_at (li_page_size (lh_index h)) file p = expected p
}.

Lemma tasks_length h : opened h -> length (lh_tasks h) = length (page_sets (li_manifests (lh_index h))).
Proof.
  intros Ho. rewrite (op_tasks _ Ho).
  rewrite <- (all_tasks_sets store h [] (li_manifests (lh_index h)) eq_refl). by rewrite length_fmap.
Qed.

Lemma opened_chain h v file :
  opened h -> serves_head h v file ->
  (forall v v', env v v' -> authentic freed (lh_index h) (st_ref <$> lh_tasks h) expected v ->
                authentic freed (lh_index h) (st_ref <$> lh_tasks h) expected v') ->
  chain_ok freed env (lh_index h) (st_ref <$> lh_tasks h) expected.
Proof.
  intros Ho [H1 H2 H3 H4 H5 H6 H7] Hst. destruct (op_size _ Ho) as [Hne Hlt].
  assert (Hclaim : forall p o, claimant (lh_index h) p = Some o -> exists l, page_sets (li_manifests (lh_index h)) !! o = Some l /\ p ∈ l).
  { intros p o Hc. rewrite claimant_first in Hc by done. by apply first_claim_lookup. }
  split; try done.
  - intros p o Hc. destruct (Hclaim p o Hc) as (l & Hl & Hp). pose proof (valid_sets _ H1) as Hall. rewrite list.Forall_forall in Hall.
    destruct (Hall l) as [_ Hr]; [by eapply list_elem_of_lookup_2|]. rewrite list.Forall_forall in Hr. by apply Hr.
  - intros p o Hc. destruct (Hclaim p o Hc) as (l & Hl & _). apply lookup_lt_Some in Hl. apply lookup_lt_is_Some_2.
    by rewrite length_fmap, tasks_length.
  - intros m enc seg offsets Hm Hs. by apply (H1 m enc seg).
Qed.

Lemma init_good ps0 I0 : li_page_size I0 = ps0 -> 0 < ps0 < 2 ^ 32 -> cache_good I0 expected (lazy_cache_init getenv ps0 zero_cache).
Proof.
  intros Hi Hps. destruct (decide (lazy_ram_cache_mb getenv = 0)) as [E|Hne].
  - left. unfold lazy_cache_init. by rewrite E.
  - right. exists (cache_budget getenv), (cache_pool getenv ps0), []. rewrite Hi.
    pose proof (ram_cache_mb_range getenv) as Hr. split; [unfold cache_budget, LAZY_RAM_CACHE_MAX_MB in *; lia|].
    assert (Hq : 0 <= cache_budget getenv / ps0) by (apply Z.div_pos; unfold cache_budget; lia).
    split; [unfold cache_pool, LAZY_RAM_CACHE_POOL_MAX; lia|]. split; [unfold cache_pool, LAZY_RAM_CACHE_POOL_MAX; lia|].
    split; [by apply init_ok|]. by intros p d ?%elem_of_nil.
Qed.

Lemma opened_inv h s l file :
  opened h -> serves_head h (view s) file -> l_files l !! li_path (lh_index h) = Some file ->
  zlen file = u64 (li_database_size_pages (lh_index h) * li_page_size (lh_index h)) ->
  inv freed view (lh_index h) (st_ref <$> lh_tasks h) expected 0 none (h, (s, l)).
Proof.
  intros Ho [H1 H2 H3 H4 H5 H6 H7] Hf Hz. destruct (op_size _ Ho) as [Hne Hlt].
  destruct (fresh_bits h) as [Hb Hg]; [by split|apply Ho|apply Ho|].
  assert (Hidle : forall o t, lh_tasks h !! o = Some t -> st_state t = TASK_IDLE /\ st_verified_bytes t = None).
  { intros o t Ht. rewrite (op_tasks _ Ho) in Ht. eapply tasks_idle, list_elem_of_lookup_2, Ht. }
  split; cbn [fst snd]; try done.
  - rewrite (op_cache _ Ho). by apply init_good.
  - intros o t d Ht Hd. destruct (Hidle o t Ht). congruence.
  - intros o t p Ht Hs. destruct (Hidle o t Ht). congruence.
  - intros o t Hlt'. lia.
  - exists file. split; [done|]. split.
    + rewrite Hz. unfold u64. rewrite Z.mod_small; [done|]. unfold UINT32_MAX in Hlt. nia.
    + intros p Hp [Hm|[Hm|[]]]; [by rewrite Hg in Hm|by apply H7].
  - apply Ho.
Qed.
End Open.

(** ** A head that is stored *)

Section Stored.
Context `{HSha : Sha256} `{HLz4 : Lz4} `{HA : Aead}.
Context (getenv : bytes -> option bytes) (freed : bytes -> bytes).
Context {S : Type} (store : otsardb_object_store S).
Context (h : otsardb_lazy_hydrator) (v : contents) (file : bytes) (contents : segment_contents).
Context (Ho : opened getenv store h) (Hh : head_stored freed h v contents).
Abbreviation ps := (li_page_size (lh_index h)).
Abbreviation refs := (st_ref <$> lh_tasks h).

Lemma manifest_task_segment m enc mi segs t : forall k, t ∈ manifest_tasks store h m enc mi k segs ->
  tr_manifest_index (st_ref t) = mi /\ exists j seg, tr_segment_index (st_ref t) = (k + j)%nat /\ segs !! j = Some seg.
Proof.
  induction segs as [|ref segs IH]; intros k; cbn [manifest_tasks]; [by intros ?%elem_of_nil|]. intros Ht.
  assert (t ∈ manifest_tasks store h m enc mi (Datatypes.S k) segs ->
    tr_manifest_index (st_ref t) = mi /\ exists j seg, tr_segment_index (st_ref t) = (k + j)%nat /\ (ref :: segs) !! j = Some seg) as Hr.
  { intros Hin. destruct (IH _ Hin) as (E & j & seg & Ej & Hj). split; [done|]. exists (Datatypes.S j), seg. split; [lia|done]. }
  destruct (sg_page_count ref =? 0); [by apply Hr|]. apply elem_of_cons in Ht as [->|Ht]; [|by apply Hr].
  split; [done|]. exists 0%nat, ref. split; [cbn; lia|done].
Qed.

Lemma all_task_segment ms t : forall mi, t ∈ all_tasks store h mi ms ->
  exists i m enc seg, tr_manifest_index (st_ref t) = (mi + i)%nat /\ ms !! i = Some (m, enc) /\
    cm_segments m !! tr_segment_index (st_ref t) = Some seg.
Proof.
  induction ms as [|[m enc] ms IH]; intros mi; cbn [all_tasks]; [by intros ?%elem_of_nil|]. rewrite elem_of_app. intros [Ht|Ht].
  - apply manifest_task_segment in Ht as (E & j & seg & Ej & Hj). exists 0%nat, m, enc, seg. rewrite Ej. split_and!; [lia|done|done].
  - destruct (IH _ Ht) as (i & m' & enc' & seg & E & Hi & Hs). exists (Datatypes.S i), m', enc', seg. split_and!; [lia|done|done].
Qed.

(** Every task has its pages in the contents. *)
Lemma task_contents o ref : refs !! o = Some ref ->
  exists segs seg, contents !! tr_manifest_index ref = Some segs /\ segs !! tr_segment_index ref = Some seg.
Proof.
  rewrite list_lookup_fmap. destruct (lh_tasks h !! o) as [t|] eqn:Et; [|done]. cbn. intros [= <-].
  rewrite (op_tasks _ _ _ Ho) in Et. apply list_elem_of_lookup_2, all_task_segment in Et as (i & m & enc & seg & E & Hi & Hs).
  cbn [Nat.add] in E. rewrite E. destruct (hs_described _ _ _ _ Hh) as [Hd _].
  destruct (Forall2_lookup_l _ _ _ _ _ Hd Hi) as (segs & Hc & Hf). destruct (Forall2_lookup_l _ _ _ _ _ Hf Hs) as (sg & Hsg & _).
  by exists segs, sg.
Qed.

Lemma claimed_pages p o ref segs seg : claimant (lh_index h) p = Some o -> refs !! o = Some ref ->
  contents !! tr_manifest_index ref = Some segs -> segs !! tr_segment_index ref = Some seg ->
  is_Some (seg !! p) /\ forall page, seg !! p = Some page -> page = head_page contents ps file p.
Proof.
  intros Hc Hr Hi Hj. destruct (claimant_page getenv store freed h v contents p o Ho Hh Hc)
    as (ref' & segs' & seg' & page & Hr' & Hi' & Hj' & Hp & Hcp).
  simplify_eq. split; [by exists page|]. intros page' Hp'. simplify_eq. unfold head_page. by rewrite Hcp.
Qed.

Lemma stored_authentic : authentic freed (lh_index h) refs (head_page contents ps file) v.
Proof.
  split.
  - intros o ref ob Hr Hob Hsz Hsha h' segment batch Eh Hv Hb. destruct (task_contents o ref Hr) as (segs & seg & Hi & Hj).
    destruct (hs_objects _ _ _ _ Hh o ref segs seg ob Hr Hi Hj Hob) as [Hw _].
    destruct (Hw Hsz Hsha h' segment batch Eh Hv Hb) as (Eps & Hframes & Hall). split; [done|]. split.
    + intros i p page Hpos Hf Hc. destruct (claimed_pages p o ref segs seg Hc Hr Hi Hj) as [_ Hpg]. apply Hpg. by eapply Hframes.
    + intros p _ Hc. apply Hall. by apply (claimed_pages p o ref segs seg).
  - intros o ref ob a b Hr Hob Hbb pos frame p pos' Hreach Hdec Hc. destruct (task_contents o ref Hr) as (segs & seg & Hi & Hj).
    destruct (hs_objects _ _ _ _ Hh o ref segs seg ob Hr Hi Hj Hob) as [_ Hs].
    destruct (claimed_pages p o ref segs seg Hc Hr Hi Hj) as [_ Hpg]. apply Hpg. by eapply (Hs a b Hbb).
Qed.

(** A head that is stored is the replay of its chain over the checkpoint. *)
Lemma stored_serves : zlen file = u64 (li_database_size_pages (lh_index h) * ps) ->
  serves_head freed (head_page contents ps file) h v file.
Proof.
  intros Hz. pose proof Hh as [H1 H2 H3 H4 H5 H6 _]. split; try done.
  - intros p. unfold head_page. pose proof (claim_pages store h _ _ p H1 H5) as Hc. destruct (first_claim _ p) as [o|].
    + destruct Hc as (t & segs & seg & page & _ & Hi & Hj & Hp & ->). by eapply H6.
    + rewrite Hc. cbn. unfold base_page. rewrite length_take, length_app, length_replicate. lia.
  - apply stored_authentic.
  - intros p Hp (_ & _ & Hc). rewrite claimant_first in Hc by done.
    pose proof (claim_pages store h _ _ p H1 H5) as Hcp. rewrite Hc in Hcp. unfold head_page. rewrite Hcp. cbn.
    symmetry. apply (base_page_at _ (li_database_size_pages (lh_index h))); [lia|done|]. rewrite Hz. unfold u64. rewrite Z.mod_small; [done|].
    destruct (op_size _ _ _ Ho) as [_ Hlt]. unfold UINT32_MAX in Hlt. nia.
Qed.

(** Peers that leave the objects of the chain alone, or delete them. *)
Definition objects_stay (env : gmap bytes otsardb_store_object -> gmap bytes otsardb_store_object -> Prop) : Prop :=
  forall v v' ref ob, env v v' -> ref ∈ refs -> v' !! tr_absolute_key ref = Some ob -> v !! tr_absolute_key ref = Some ob.

Lemma objects_stay_authentic env expected v0 v1 : objects_stay env -> env v0 v1 ->
  authentic freed (lh_index h) refs expected v0 -> authentic freed (lh_index h) refs expected v1.
Proof.
  intros Hst He [H1 H2]. split.
  - intros o ref ob Hr Hob. apply (H1 o ref ob Hr). eapply Hst; [exact He|by eapply list_elem_of_lookup_2|exact Hob].
  - intros o ref ob a b Hr Hob. apply (H2 o ref ob a b Hr). eapply Hst; [exact He|by eapply list_elem_of_lookup_2|exact Hob].
Qed.
End Stored.
