(* ===== verification/LazyProps.v ===== *)
(** * Lazy hydration: what it promises

    The properties of the component, and a database of two commits that is opened
    lazily and read. *)

From S2P Require Import Prelude CText JsonText ObjectStore Journal Codec WalBatch Sha256 Segment.
From S2P Require Import DbMetadata CommitManifest CommitPublish Cipher LocalFile Recovery WalPublisher Triples RecoveryProps.
From S2P Require Import SegmentTheory CipherTheory LazyCache LazyHydration LazyRestore LazyTheory LazySound LazyDemand LazyOpen.

(** ** Reading *)

Section Session.
Context `{HSha : Sha256} `{HLz4 : Lz4} `{HA : Aead}.
Context (getenv : bytes -> option bytes) (freed : bytes -> bytes).
Context {S : Type} (store : otsardb_object_store S).
(** The rounds of the workers at each wakeup of a reader. *)
Context (rounds wakeups : nat) (thread_limit : Z).

Abbreviation W := (otsardb_lazy_hydrator * (S * local))%type.

Definition read_range (first last : Z) : M W (blocked + bool) :=
  otsardb_lazy_hydrate_range getenv store freed (lazy_pool_worker_main store rounds) wakeups thread_limit first last.

(** What happens to a hydrator: reads, whatever they return, and rounds of workers. *)
Inductive lazy_event := EvRead (first last : Z) | EvWorker (n : nat).

Definition run_event (e : lazy_event) : M W unit :=
  match e with
  | EvRead first last => let! _ := read_range first last in return! tt
  | EvWorker n => lazy_pool_worker_main store n
  end.

Fixpoint run_events (es : list lazy_event) : M W unit :=
  match es with
  | [] => return! tt
  | e :: rest => let! _ := run_event e in run_events rest
  end.

(** Page numbers have 32 bits. *)
Definition event_ok (e : lazy_event) : Prop :=
  match e with EvRead first last => 0 <= first < 2 ^ 32 /\ last < 2 ^ 32 | EvWorker _ => True end.

Context (view : S -> contents) (env : contents -> contents -> Prop).
Context {Hlaws : StoreLaws store view env} {Hrange : RangeLaw store view env}.
Context (I : lazy_index) (refs : list lazy_task_ref) (expected : Z -> bytes).
Context (Hok : chain_ok freed env I refs expected).

Abbreviation sound := (LazyDemand.sound freed view I refs expected).

Lemma workers_keep n m : keeps freed view I refs expected n (lazy_pool_worker_main store m) any.
Proof. eapply worker_main_keeps; try apply Hok; done. Qed.

Lemma read_range_sound first last w r w' :
  0 <= first < 2 ^ 32 -> last < 2 ^ 32 -> sound w -> read_range first last w = (r, w') ->
  sound w' /\ (r = inr true -> forall p, first <= p <= last -> LazySound.marked I p w').
Proof.
  intros Hf Hl Hw E. eapply hydrate_range_serves in E as (_ & Hs & HQ); [..|exact Hw]; try done.
  - split; [done|]. intros ->. by apply HQ.
  - intros n. apply workers_keep.
Qed.

Lemma events_sound es w w' : Forall event_ok es -> sound w -> run_events es w = (tt, w') -> sound w'.
Proof.
  revert w. induction es as [|e es IH]; intros w He Hw E; [by injection E as <-|]. apply list.Forall_cons in He as [He Hes].
  cbn [run_events] in E. unfold mbind_ in E. destruct (run_event e w) as [[] w1] eqn:E1. apply (IH w1 Hes); [|done].
  destruct e as [first last|m]; cbn [run_event] in E1.
  - unfold mbind_, mret_ in E1. destruct (read_range first last w) as [r w2] eqn:E2. injection E1 as <-.
    destruct He as [Hf Hl]. by destruct (read_range_sound _ _ _ _ _ Hf Hl Hw E2).
  - destruct Hw as [n Hn]. destruct (workers_keep n m w _ _ Hn E1) as (_ & Hi & _). by exists n.
Qed.

(** A marked page of a sound state has the bytes of the head. *)
Lemma sound_page w p :
  sound w -> 0 < p <= li_database_size_pages I -> LazySound.marked I p w ->
  exists image, l_files (snd (snd w)) !! li_path I = Some image /\ page_at (li_page_size I) image p = expected p.
Proof.
  intros [n Hw] Hp Hm. destruct (iv_image _ _ _ _ _ _ _ _ Hw) as (image & Hi & _ & Hpages).
  exists image. split; [done|]. apply Hpages; [done|]. left. by apply Hm.
Qed.
End Session.


(** ** A database of two commits, opened lazily *)

Module LazySample.
Import RecoverySample.

(** A cache of one megabyte, one worker, no read-ahead. *)
Definition getenv (name : bytes) : option bytes :=
  if bytes_eqb name (str "OTSARDB_S3_RAM_CACHE_MB") then Some (str "1") else None.

Definition opening := otsardb_lazy_restore_store_ex (HSha := sum_sha256) getenv shelf (str "db") path None None None (objects, no_files).
Definition hydrator : otsardb_lazy_hydrator := match snd (fst opening) with Some h => h | None => fresh_hydrator end.
Definition files : local := snd (snd opening).

(** Page 1 is of the first commit, page 2 of the second. *)
Definition contents : segment_contents := [[{[2 := page 66]}]; [{[1 := page 65]}]].

Definition index : lazy_index := Eval vm_compute in lh_index hydrator.
Definition refs : list lazy_task_ref := Eval vm_compute in st_ref <$> lh_tasks hydrator.

Lemma index_ok : lh_index hydrator = index.
Proof. vm_compute. reflexivity. Qed.
Lemma refs_ok : st_ref <$> lh_tasks hydrator = refs.
Proof. vm_compute. reflexivity. Qed.

Lemma shelf_range : RangeLaw shelf id quiet.
Proof. split. intros key offset len s r s' H. cbn in H. by injection H as <- <-. Qed.

Lemma valid : manifests_valid (li_manifests index).
Proof.
  intros m enc seg Hm Hs. unfold index in Hm. cbn [li_manifests] in Hm.
  apply elem_of_cons in Hm as [E|Hm]; [|apply list_elem_of_singleton in Hm as E].
  all: injection E as -> ->; cbn [cm_segments] in Hs; apply list_elem_of_singleton in Hs as ->; cbn [sg_pages sg_frame_offsets].
  all: split; [intros [|i] [|j] x y Hij; [lia|done|lia|done]|]; split; [by repeat constructor|done].
Qed.

Lemma view_index freed h ref d : lh_index h = index -> task_view freed h ref d = task_view freed hydrator ref d.
Proof. intros H. unfold task_view, lazy_segment_enc_entry, lazy_decrypt_envelope. by rewrite H, index_ok. Qed.

(** The batch of a segment has one page. *)
Lemma whole ref data p b segment batch :
  task_view (HSha := sum_sha256) id hydrator ref data = Some segment -> view_batch (HLz4 := zero_lz4) segment (tr_page_size ref) = Some batch ->
  wb_page_size batch = 512 -> wb_frame_count batch = 1 -> otsardb_wal_batch_frame batch 0 = Some (p, page b) ->
  object_holds (HSha := sum_sha256) (HLz4 := zero_lz4) id index ref {[p := page b]} data.
Proof.
  intros Hv Hb Hps Hc Hf h sg bt Hh Hv' Hb'. rewrite view_index in Hv' by done.
  rewrite Hv in Hv'. injection Hv' as <-. rewrite Hb in Hb'. injection Hb' as <-. split; [done|]. split.
  - intros i q pg Hi Hfr. destruct (decide (i = 0)) as [->|Hne].
    + rewrite Hf in Hfr. injection Hfr as <- <-. apply lookup_singleton_eq.
    + unfold otsardb_wal_batch_frame in Hfr. rewrite Hc in Hfr. destruct (Z.leb_spec 1 i); [done|lia].
  - intros q [pg Hq]. apply lookup_singleton_Some in Hq as [<- _]. exists 0, (page b). rewrite Hc. split; [lia|done].
Qed.

Lemma ref_cases o ref : refs !! o = Some ref -> o = 0%nat /\ refs !! 0%nat = Some ref \/ o = 1%nat /\ refs !! 1%nat = Some ref.
Proof. destruct o as [|[|o]]; [by left|by right|]. unfold refs. by destruct o. Qed.

Lemma no_offsets o a b : ~ block_bounds index refs o a b.
Proof.
  intros (ref & seg & offsets & _ & (m & enc & Hm & Hs) & Ho & _).
  assert (Hno : Forall (fun me => Forall (fun sg => sg_frame_offsets sg = None) (cm_segments (fst me))) (li_manifests index)).
  { repeat constructor. }
  eapply Forall_lookup_1 in Hno; [|exact Hm]. eapply Forall_lookup_1 in Hno; [|exact Hs]. congruence.
Qed.

Lemma object_s2 ref ob : refs !! 0%nat = Some ref -> objects !! tr_absolute_key ref = Some ob -> so_data ob = s2.
Proof. intros Hr. unfold refs in Hr. injection Hr as <-. vm_compute. by intros [= <-]. Qed.
Lemma object_s1 ref ob : refs !! 1%nat = Some ref -> objects !! tr_absolute_key ref = Some ob -> so_data ob = s1.
Proof. intros Hr. unfold refs in Hr. injection Hr as <-. vm_compute. by intros [= <-]. Qed.

Lemma whole_s2 ref : refs !! 0%nat = Some ref -> object_holds (HSha := sum_sha256) (HLz4 := zero_lz4) id index ref {[2 := page 66]} s2.
Proof. intros Hr. unfold refs in Hr. injection Hr as <-. eapply (whole _ _ 2 66); [vm_compute; reflexivity..]. Qed.
Lemma whole_s1 ref : refs !! 1%nat = Some ref -> object_holds (HSha := sum_sha256) (HLz4 := zero_lz4) id index ref {[1 := page 65]} s1.
Proof. intros Hr. unfold refs in Hr. injection Hr as <-. eapply (whole _ _ 1 65); [vm_compute; reflexivity..]. Qed.

Lemma ref_contents o ref segs seg ob : refs !! o = Some ref -> contents !! tr_manifest_index ref = Some segs ->
  segs !! tr_segment_index ref = Some seg -> objects !! tr_absolute_key ref = Some ob ->
  object_holds (HSha := sum_sha256) (HLz4 := zero_lz4) id index ref seg (so_data ob).
Proof.
  intros Hr. apply ref_cases in Hr as [[-> Hr]|[-> Hr]]; intros Hi Hj Hob.
  - rewrite (object_s2 ref ob Hr Hob). assert (seg = {[2 := page 66]}) as ->; [|by apply whole_s2].
    unfold refs in Hr. injection Hr as <-. cbn in Hi. injection Hi as <-. cbn in Hj. by injection Hj as <-.
  - rewrite (object_s1 ref ob Hr Hob). assert (seg = {[1 := page 65]}) as ->; [|by apply whole_s1].
    unfold refs in Hr. injection Hr as <-. cbn in Hi. injection Hi as <-. cbn in Hj. by injection Hj as <-.
Qed.

Lemma one_page ref q x : sg_pages ref = [q] -> forall p, p ∈ sg_pages ref <-> is_Some (({[q := x]} : gmap Z bytes) !! p).
Proof.
  intros -> p. rewrite list_elem_of_singleton. split; [intros ->; by rewrite lookup_singleton_eq|].
  intros [y Hy]. by apply lookup_singleton_Some in Hy as [<- _].
Qed.

Lemma contents_described : described (li_manifests index) contents.
Proof.
  split.
  - repeat (constructor; [cbn; repeat (constructor; [by apply one_page|]); constructor|]). constructor.
  - intros i segs j j' seg seg' p Hi Hj Hj' _ _.
    assert (Hone : length segs = 1%nat) by (destruct i as [|[|i]]; cbn in Hi; [by injection Hi as <-..|done]).
    apply lookup_lt_Some in Hj, Hj'. lia.
Qed.

Lemma contents_length i segs j seg p pg : contents !! i = Some segs -> segs !! j = Some seg -> seg !! p = Some pg -> length pg = 512%nat.
Proof.
  intros Hi Hj Hp. assert (exists q b, seg = {[q := page b]}) as (q & b & ->).
  { destruct i as [|[|i]]; cbn in Hi; [injection Hi as <-..|done]; (destruct j; cbn in Hj; [injection Hj as <-|done]); by eexists _, _. }
  apply lookup_singleton_Some in Hp as [_ <-]. apply length_replicate.
Qed.
End LazySample.

Lemma pair_fst {A B} (m : A * B) a : fst m = a -> m = (a, snd m).
Proof. destruct m. cbn. by intros ->. Qed.

Lemma sample_head :
  head_stored (HSha := RecoverySample.sum_sha256) (HLz4 := zero_lz4) id LazySample.hydrator RecoverySample.objects LazySample.contents.
Proof.
  split; rewrite ?LazySample.refs_ok, ?LazySample.index_ok.
  - apply LazySample.valid.
  - vm_compute. reflexivity.
  - split; reflexivity.
  - discriminate.
  - apply LazySample.contents_described.
  - apply LazySample.contents_length.
  - intros o ref segs seg ob Hr Hi Hj Hob. split; [intros _ _; by eapply LazySample.ref_contents|].
    intros a b Hb. by apply LazySample.no_offsets in Hb.
Qed.

Lemma sample_stay : objects_stay LazySample.hydrator quiet.
Proof. by intros v v' ref ob -> _ H. Qed.

(** A worker fetches a segment, page 1 is read; then the whole database. *)
Definition sample_before := run_events (HSha := RecoverySample.sum_sha256) (HLz4 := zero_lz4) LazySample.getenv id RecoverySample.shelf 2 9 1
  [EvWorker 1; EvRead 1 1] (LazySample.hydrator, (RecoverySample.objects, LazySample.files)).
Definition sample_read := read_range (HSha := RecoverySample.sum_sha256) (HLz4 := zero_lz4) LazySample.getenv id RecoverySample.shelf 2 9 1
  1 2 (snd sample_before).

