(* ===== verification/LazySession.v ===== *)
(** * Lazy hydration: claims, marks and completeness

    The index of a restored hydrator resolves every page to the newest segment that
    has it; the bitmap is a set of pages whose size is the counter; the test for
    completeness is exact as long as no page is counted twice. *)

From S2P Require Import Prelude CText JsonText ObjectStore Journal Codec WalBatch Sha256 Segment.
From S2P Require Import DbMetadata CommitManifest CommitPublish Cipher LocalFile Recovery WalPublisher Triples RecoveryProps.
From S2P Require Import SegmentTheory CipherTheory RecoveryTheory WalPublisherTheory WalPublisherProps LazyCache LazyHydration LazyRestore LazyTheory LazySound LazyOpen LazyProps.

(** ** Claims *)



(** ** Marks *)

(** The bitmap is the set of pages that [X] selects. *)
Record tracks (I : lazy_index) (h : otsardb_lazy_hydrator) (X : Z -> bool) : Prop := {
  tk_index : lh_index h = I;
  tk_bits : bits_ok h;
  tk_pages : forall p, 0 < p <= li_database_size_pages I -> bitmap_get h p = X p
}.

Lemma tracks_size I h X : tracks I h X -> lh_database_size_pages h = li_database_size_pages I.
Proof. intros H. unfold lh_database_size_pages. by rewrite (tk_index _ _ _ H). Qed.

Lemma tracks_ext I h X Y : tracks I h X -> (forall p, 0 < p <= li_database_size_pages I -> X p = Y p) -> tracks I h Y.
Proof. intros [H1 H2 H3] E. split; [done..|]. intros p Hp. by rewrite <- E, H3. Qed.

Lemma tracks_cache I h X c : tracks I h X -> tracks I (set_cache c h) X.
Proof.
  intros [H1 H2 H3]. split; [by destruct h| |intros p Hp; rewrite bitmap_get_set_cache; by apply H3].
  eapply bits_ok_core; [..|exact H2]; by destruct h.
Qed.

Lemma tracks_count I h X : tracks I h X -> lh_marked_pages h = zlen (filter (fun p => X p = true) (seqZ 1 (li_database_size_pages I))).
Proof.
  intros H. rewrite (bo_marked _ (tk_bits _ _ _ H)), (tracks_size _ _ _ H). f_equal. apply filter_same.
  intros q Hq%elem_of_seqZ. apply (tk_pages _ _ _ H). lia.
Qed.

Lemma tracks_mark I h X p : tracks I h X -> 0 < p -> tracks I (mark_page p h) (fun q => X q || (q =? p)).
Proof.
  intros H Hp. pose proof (tracks_size _ _ _ H) as Hs. destruct H as [H1 H2 H3]. unfold mark_page.
  destruct (bitmap_set_spec h p H2 ltac:(lia)) as (Hb & Ei & _ & Hg).
  apply tracks_cache. split; [by rewrite Ei|done|]. intros q Hq. rewrite Hg, H3 by lia. rewrite orb_comm. f_equal.
  assert (Eo : outside h q = false) by (apply outside_false; lia). rewrite Eo. cbn.
  destruct (Z.eqb_spec q p); [by rewrite bool_decide_eq_true_2|by rewrite bool_decide_eq_false_2].
Qed.

(** The loop ends: [last] is not the largest 32-bit number. *)
Lemma tracks_mark_loop I fuel p last h X :
  tracks I h X -> 0 < p <= UINT32_MAX -> last < UINT32_MAX -> last - p < Z.of_nat fuel ->
  exists h', mark_loop fuel p last h = Some h' /\ tracks I h' (fun q => X q || (p <=? q) && (q <=? last)).
Proof.
  revert p h X. induction fuel as [|fuel IH]; intros p h X H Hp Hl Hf; cbn [mark_loop].
  - destruct (Z.ltb_spec last p); [|lia]. exists h. split; [done|]. eapply tracks_ext; [exact H|]. intros q Hq.
    destruct (Z.leb_spec p q), (Z.leb_spec q last); cbn; try lia; by rewrite orb_false_r.
  - destruct (Z.ltb_spec last p).
    + exists h. split; [done|]. eapply tracks_ext; [exact H|]. intros q Hq.
      destruct (Z.leb_spec p q), (Z.leb_spec q last); cbn; try lia; by rewrite orb_false_r.
    + unfold u32. rewrite Z.mod_small by (unfold UINT32_MAX in *; lia).
      destruct (IH (p + 1) (mark_page p h) _ (tracks_mark I h X p H ltac:(lia)) ltac:(lia) Hl ltac:(lia)) as (h' & E & H').
      exists h'. split; [done|]. eapply tracks_ext; [exact H'|]. intros q Hq. cbv beta. rewrite <- orb_assoc. f_equal.
      destruct (Z.eqb_spec q p), (Z.leb_spec (p + 1) q), (Z.leb_spec p q), (Z.leb_spec q last); cbn; lia || done.
Qed.

Lemma tracks_clear_loop I count p h X :
  tracks I h X -> 0 < p -> p + Z.of_nat count <= li_database_size_pages I + 1 ->
  tracks I (bitmap_clear_loop count p h) (fun q => X q && negb ((p <=? q) && (q <? p + Z.of_nat count))).
Proof.
  revert p h X. induction count as [|count IH]; intros p h X H Hp Hc; cbn [bitmap_clear_loop].
  { eapply tracks_ext; [exact H|]. intros q Hq. destruct (Z.leb_spec p q), (Z.ltb_spec q (p + Z.of_nat 0)); cbn; try lia; by rewrite andb_true_r. }
  assert (H' : tracks I (bitmap_clear p h) (fun q => X q && negb (q =? p))).
  { pose proof (tracks_size _ _ _ H) as Hs. destruct H as [H1 H2 H3]. destruct (bitmap_clear_spec h p H2 ltac:(lia)) as (Hb & Ei & _ & Hg).
    split; [by rewrite Ei|done|]. intros q Hq. rewrite Hg, H3 by lia. rewrite andb_comm. f_equal. f_equal.
    destruct (Z.eqb_spec q p); [by rewrite bool_decide_eq_true_2|by rewrite bool_decide_eq_false_2]. }
  specialize (IH (p + 1) _ _ H' ltac:(lia) ltac:(lia)). eapply tracks_ext; [exact IH|]. intros q Hq. cbv beta.
  rewrite <- andb_assoc. f_equal.
  destruct (Z.eqb_spec q p), (Z.leb_spec (p + 1) q), (Z.leb_spec p q), (Z.ltb_spec q (p + 1 + Z.of_nat count)),
    (Z.ltb_spec q (p + Z.of_nat (Datatypes.S count))); cbn; lia || done.
Qed.

Lemma tracks_all I h X : tracks I h X -> tracks I (otsardb_lazy_mark_all h) (fun _ => true).
Proof.
  intros H. pose proof (tracks_size _ _ _ H) as Hs. destruct H as [H1 [H21 H22 H23] H3]. unfold otsardb_lazy_mark_all.
  apply tracks_cache. destruct (Z.eqb_spec (zlen (lh_bitmap h)) 0) as [Hz|Hz].
  - assert (Hsz : li_database_size_pages I = 0).
    { unfold zlen in Hz. rewrite H22 in Hz. rewrite <- Hs. destruct (Z.eq_dec (lh_database_size_pages h) 0); [done|].
      assert (1 <= (lh_database_size_pages h + 7) / 8) by (apply Z.div_le_lower_bound; lia). lia. }
    split; [done|by split|]. intros p Hp. lia.
  - set (h' := set_bitmap _ _ h). destruct (set_bitmap_fields ((fun _ => 255) <$> lh_bitmap h) (lh_database_size_pages h) h) as (Ei & Eb & Em & _).
    fold h' in Ei, Eb, Em. assert (Es : lh_database_size_pages h' = lh_database_size_pages h) by (unfold lh_database_size_pages; by rewrite Ei).
    assert (Hg : forall p, 0 < p <= lh_database_size_pages h -> bitmap_get h' p = true).
    { intros p Hp. unfold bitmap_get. assert (Eo : outside h' p = false) by (apply outside_false; lia). rewrite Eo. cbn.
      rewrite bit_is_set_testbit, Eb, list_lookup_fmap.
      destruct (lookup_lt_is_Some_2 (lh_bitmap h) (bit_byte p)) as [x Hx]; [rewrite H22; by apply bit_byte_bound|]. rewrite Hx. cbn.
      pose proof (bit_index_range p). change 255 with (Z.ones 8). apply Z.ones_spec_low. lia. }
    split; [by rewrite Ei|split; rewrite ?Es, ?Em; [done|by rewrite Eb, length_fmap|]|intros p Hp; apply Hg; lia].
    symmetry. rewrite (filter_same (fun _ => true) (bitmap_get h')) by (intros q Hq%elem_of_seqZ; apply Hg; lia).
    assert (Eall : forall l : list Z, filter (fun _ => true = true) l = l).
    { intros l. induction l as [|q l IH]; [done|]. rewrite list.filter_cons_True by done. by rewrite IH. }
    rewrite Eall. apply zlen_seqZ. lia.
Qed.

(** What the file layer reports to the hydrator. *)
Inductive mark_op :=
  | MarkRange (first last : Z) | MarkBytes (offset amount : Z) | MarkAll
  | ClearBeyond (page_count : Z) | ClearBeyondBytes (file_bytes : Z).

Definition run_mark (fuel : nat) (o : mark_op) (h : otsardb_lazy_hydrator) : option otsardb_lazy_hydrator :=
  match o with
  | MarkRange first last => otsardb_lazy_mark_range fuel first last h
  | MarkBytes offset amount => otsardb_lazy_mark_bytes fuel offset amount h
  | MarkAll => Some (otsardb_lazy_mark_all h)
  | ClearBeyond n => Some (otsardb_lazy_clear_beyond n h)
  | ClearBeyondBytes n => Some (otsardb_lazy_clear_beyond_bytes n h)
  end.

Fixpoint run_marks (fuel : nat) (os : list mark_op) (h : otsardb_lazy_hydrator) : option otsardb_lazy_hydrator :=
  match os with
  | [] => Some h
  | o :: rest => match run_mark fuel o h with Some h' => run_marks fuel rest h' | None => None end
  end.

(** The set of pages after it: those of the range, those that share a byte with
    the write, those that lie in the file whole. Negative offsets and lengths
    report nothing. *)
Definition mark_spec (ps : Z) (o : mark_op) (X : Z -> bool) : Z -> bool :=
  match o with
  | MarkRange first last => fun p => X p || (first <=? p) && (p <=? last)
  | MarkBytes offset amount => fun p => X p ||
      (0 <=? offset) && (0 <? amount) && (((p - 1) * ps <? offset + amount) && (offset <? p * ps))
  | MarkAll => fun _ => true
  | ClearBeyond n => fun p => X p && (p <=? n)
  | ClearBeyondBytes n => fun p => X p && ((n <? 0) || (p * ps <=? n))
  end.

(** The arguments are in the ranges of their types. *)
Definition mark_typed (o : mark_op) : Prop :=
  match o with
  | MarkRange first last => 0 <= first <= UINT32_MAX /\ 0 <= last <= UINT32_MAX
  | MarkBytes offset amount => -2 ^ 63 <= offset < 2 ^ 63 /\ -2 ^ 31 <= amount < 2 ^ 31
  | MarkAll => True
  | ClearBeyond n => 0 <= n <= UINT32_MAX
  | ClearBeyondBytes n => -2 ^ 63 <= n < 2 ^ 63
  end.

(** The range reaches the largest 32-bit page number, where the code's clamp puts
    the end of every write beyond it. *)
Definition mark_to_end (ps : Z) (o : mark_op) : bool :=
  match o with
  | MarkRange _ last => last =? UINT32_MAX
  | MarkBytes offset amount => (0 <=? offset) && (0 <? amount) && ((UINT32_MAX - 1) * ps <? offset + amount)
  | _ => false
  end.

(** The rounds an operation may take. *)
Definition mark_rounds (ps : Z) (o : mark_op) : Z :=
  match o with
  | MarkRange first last => last - first + 1
  | MarkBytes offset amount => amount / ps + 2
  | _ => 0
  end.

Lemma tracks_range I fuel first last h X :
  tracks I h X -> 0 <= first <= UINT32_MAX -> last < UINT32_MAX -> last - first < Z.of_nat fuel ->
  exists h', otsardb_lazy_mark_range fuel first last h = Some h' /\ tracks I h' (fun q => X q || (first <=? q) && (q <=? last)).
Proof.
  intros H Hf Hl Hn. unfold otsardb_lazy_mark_range. set (first' := if first =? 0 then 1 else first).
  assert (Hf' : 0 < first' /\ first <= first' <= UINT32_MAX) by (unfold first', UINT32_MAX in *; destruct (Z.eqb_spec first 0); lia).
  destruct (tracks_mark_loop I fuel first' last h X H ltac:(lia) Hl ltac:(lia)) as (h' & E & H'). exists h'. split; [done|].
  eapply tracks_ext; [exact H'|]. intros q Hq. cbv beta. f_equal. f_equal. unfold first'.
  destruct (Z.eqb_spec first 0) as [->|]; [|done]. destruct (Z.leb_spec 1 q), (Z.leb_spec 0 q); lia || done.
Qed.

(** The first and the last page of a write. *)
Lemma byte_pages ps offset amount q :
  0 < ps -> (offset / ps + 1 <=? q) && (q <=? (offset + amount - 1) / ps + 1) = ((q - 1) * ps <? offset + amount) && (offset <? q * ps).
Proof.
  intros Hps. apply eq_bool_prop_intro. rewrite !andb_True, !Is_true_true, !Z.leb_le, !Z.ltb_lt.
  pose proof (Z.div_mod offset ps ltac:(lia)). pose proof (Z.mod_pos_bound offset ps Hps).
  pose proof (Z.div_mod (offset + amount - 1) ps ltac:(lia)). pose proof (Z.mod_pos_bound (offset + amount - 1) ps Hps).
  split; intros [H4 H5]; split; nia.
Qed.

Lemma tracks_bytes I fuel offset amount h X :
  let o := MarkBytes offset amount in
  tracks I h X -> 0 < li_page_size I -> mark_typed o -> mark_to_end (li_page_size I) o = false ->
  mark_rounds (li_page_size I) o <= Z.of_nat fuel ->
  exists h', run_mark fuel o h = Some h' /\ tracks I h' (mark_spec (li_page_size I) o X).
Proof.
  cbn [mark_typed mark_to_end mark_rounds run_mark mark_spec]. intros H Hps (Ho & Ha) He Hf.
  unfold otsardb_lazy_mark_bytes, lh_page_size. rewrite (tk_index _ _ _ H). set (ps := li_page_size I) in *.
  destruct (Z.leb_spec amount 0); cbn [orb].
  { exists h. split; [done|]. eapply tracks_ext; [exact H|]. intros q _. destruct (Z.ltb_spec 0 amount); [lia|].
    by rewrite andb_false_r, orb_false_r. }
  destruct (Z.ltb_spec offset 0); cbn [orb].
  { exists h. split; [done|]. eapply tracks_ext; [exact H|]. intros q _. destruct (Z.leb_spec 0 offset); [lia|]. by rewrite orb_false_r. }
  destruct (Z.leb_spec 0 offset), (Z.ltb_spec 0 amount); try lia. cbn [andb] in *. destruct (Z.ltb_spec ((UINT32_MAX - 1) * ps) (offset + amount)); [done|].
  destruct (Z.eqb_spec ps 0); [lia|].
  unfold u64. rewrite (Z.mod_small (offset + amount - 1)) by lia.
  pose proof (Z.div_pos offset ps ltac:(lia) Hps). pose proof (Z.div_le_mono offset (offset + amount - 1) ps Hps ltac:(lia)).
  assert (Hlast : (offset + amount - 1) / ps < UINT32_MAX - 1) by (apply Z.div_lt_upper_bound; nia).
  destruct (Z.ltb_spec UINT32_MAX ((offset + amount - 1) / ps + 1)); [lia|]. cbv zeta.
  unfold u32. rewrite (Z.mod_small (offset / ps + 1)) by (unfold UINT32_MAX in *; lia).
  assert (Hn : (offset + amount - 1) / ps <= offset / ps + amount / ps + 1).
  { enough ((offset + amount - 1) / ps < offset / ps + amount / ps + 2) by lia. apply Z.div_lt_upper_bound; [lia|].
    pose proof (Z.div_mod offset ps ltac:(lia)). pose proof (Z.mod_pos_bound offset ps Hps).
    pose proof (Z.div_mod amount ps ltac:(lia)). pose proof (Z.mod_pos_bound amount ps Hps). nia. }
  destruct (tracks_range I fuel (offset / ps + 1) ((offset + amount - 1) / ps + 1) h X H) as (h' & E & H'); [lia..|].
  exists h'. split; [done|]. eapply tracks_ext; [exact H'|]. intros q Hq. cbv beta. f_equal. by apply byte_pages.
Qed.

Lemma tracks_clear I n h X : tracks I h X -> 0 <= n -> tracks I (otsardb_lazy_clear_beyond n h) (fun p => X p && (p <=? n)).
Proof.
  intros H Hn. unfold otsardb_lazy_clear_beyond. rewrite (tracks_size _ _ _ H). destruct (Z.ltb_spec n (li_database_size_pages I)).
  - unfold bitmap_clear_range. rewrite (tracks_size _ _ _ H). destruct (Z.eqb_spec (n + 1) 0); [lia|].
    rewrite Z.ltb_irrefl. eapply tracks_ext; [apply tracks_clear_loop; [exact H|lia|lia]|]. intros q Hq. cbv beta. f_equal.
    destruct (Z.leb_spec (n + 1) q), (Z.leb_spec q n), (Z.ltb_spec q (n + 1 + Z.of_nat (Z.to_nat (li_database_size_pages I - (n + 1) + 1))));
      cbn; lia || done.
  - eapply tracks_ext; [exact H|]. intros q Hq. destruct (Z.leb_spec q n); [|lia]. by rewrite andb_true_r.
Qed.

Lemma run_mark_tracks I fuel o h X :
  0 < li_page_size I -> li_database_size_pages I < UINT32_MAX -> tracks I h X -> mark_typed o ->
  mark_to_end (li_page_size I) o = false -> mark_rounds (li_page_size I) o <= Z.of_nat fuel ->
  exists h', run_mark fuel o h = Some h' /\ tracks I h' (mark_spec (li_page_size I) o X).
Proof.
  intros Hps Hsz H Hm He Hr. destruct o as [first last|offset amount| |n|n].
  - destruct Hm as [Hm1 Hm2]. cbn in He, Hr. apply Z.eqb_neq in He. apply tracks_range; [done|lia..].
  - by apply tracks_bytes.
  - eexists. split; [done|]. by eapply tracks_all.
  - eexists. split; [done|]. destruct Hm. by apply tracks_clear.
  - cbn [run_mark mark_spec]. eexists. split; [done|]. unfold otsardb_lazy_clear_beyond_bytes, lh_page_size. rewrite (tk_index _ _ _ H).
    set (ps := li_page_size I) in *. destruct (Z.ltb_spec n 0) as [Hneg|Hn]; cbn [orb].
    { eapply tracks_ext; [exact H|]. intros q _. by rewrite andb_true_r. }
    destruct (Z.eqb_spec ps 0); [lia|].
    assert (Hdiv : forall p, (p * ps <=? n) = (p <=? n / ps)).
    { intros p. pose proof (Z.div_mod n ps ltac:(lia)). pose proof (Z.mod_pos_bound n ps Hps).
      destruct (Z.leb_spec (p * ps) n), (Z.leb_spec p (n / ps)); done || nia. }
    pose proof (Z.div_pos n ps Hn Hps). eapply tracks_ext; [apply tracks_clear; [exact H|]|].
    + destruct (_ <? _); unfold UINT32_MAX; lia.
    + intros p Hp. cbv beta. f_equal. rewrite Hdiv. destruct (Z.ltb_spec UINT32_MAX (n / ps)); [|done].
      destruct (Z.leb_spec p UINT32_MAX), (Z.leb_spec p (n / ps)); lia || done.
Qed.

(** With the largest page number as its end the loop that marks a range never ends:
    the 32-bit counter starts again at zero. *)
Lemma mark_range_endless fuel first h :
  0 <= first <= UINT32_MAX -> otsardb_lazy_mark_range fuel first UINT32_MAX h = None.
Proof.
  intros Hf. unfold otsardb_lazy_mark_range. set (p := if first =? 0 then 1 else first).
  assert (Hp : 0 <= p <= UINT32_MAX) by (unfold p, UINT32_MAX in *; destruct (Z.eqb_spec first 0); lia). clearbody p. revert p h Hp.
  induction fuel as [|fuel IH]; intros p h Hp; cbn [mark_loop]; (destruct (Z.ltb_spec UINT32_MAX p); [lia|]); [done|].
  apply IH. unfold u32. pose proof (Z.mod_pos_bound (p + 1) (2 ^ 32) ltac:(lia)). unfold UINT32_MAX. lia.
Qed.

Lemma run_mark_endless I fuel o h X :
  0 < li_page_size I -> tracks I h X -> mark_typed o -> mark_to_end (li_page_size I) o = true -> run_mark fuel o h = None.
Proof.
  intros Hps H Hm He. destruct o as [first last|offset amount| | |]; cbn [run_mark mark_to_end mark_typed] in *; [| |done..].
  - apply Z.eqb_eq in He as ->. apply mark_range_endless. lia.
  - unfold otsardb_lazy_mark_bytes, lh_page_size. rewrite (tk_index _ _ _ H). set (ps := li_page_size I) in *.
    rewrite !andb_true_iff, Z.leb_le, !Z.ltb_lt in He. destruct He as [[Ho Ha] He].
    destruct (Z.leb_spec amount 0), (Z.ltb_spec offset 0), (Z.eqb_spec ps 0); try lia. cbn [orb]. cbv zeta.
    unfold u64. rewrite (Z.mod_small (offset + amount - 1)) by lia.
    assert (UINT32_MAX - 1 <= (offset + amount - 1) / ps) by (apply Z.div_le_lower_bound; nia).
    assert (Ee : (if UINT32_MAX <? (offset + amount - 1) / ps + 1 then UINT32_MAX else (offset + amount - 1) / ps + 1) = UINT32_MAX)
      by (destruct (Z.ltb_spec UINT32_MAX ((offset + amount - 1) / ps + 1)); lia).
    rewrite Ee. apply mark_range_endless. unfold u32. pose proof (Z.mod_pos_bound (offset / ps + 1) (2 ^ 32) ltac:(lia)).
    unfold UINT32_MAX. lia.
Qed.

(** More rounds do not change a result. *)
Lemma mark_loop_mono fuel fuel' p last h h' :
  (fuel <= fuel')%nat -> mark_loop fuel p last h = Some h' -> mark_loop fuel' p last h = Some h'.
Proof.
  revert fuel' p h. induction fuel as [|fuel IH]; intros fuel' p h Hle; destruct fuel' as [|fuel']; cbn [mark_loop];
    try lia; try done; destruct (last <? p); try done. apply IH. lia.
Qed.

Lemma run_mark_mono fuel fuel' o h h' : (fuel <= fuel')%nat -> run_mark fuel o h = Some h' -> run_mark fuel' o h = Some h'.
Proof.
  intros Hle. destruct o; cbn [run_mark]; try done; [by apply mark_loop_mono|].
  unfold otsardb_lazy_mark_bytes. destruct (_ || _); [done|]. cbv zeta. by apply mark_loop_mono.
Qed.

(** The hydrator keeps track of the pages whenever the operation returns. *)
Lemma run_mark_returns I fuel o h h' X :
  0 < li_page_size I -> li_database_size_pages I < UINT32_MAX -> tracks I h X -> mark_typed o ->
  mark_to_end (li_page_size I) o = false -> run_mark fuel o h = Some h' -> tracks I h' (mark_spec (li_page_size I) o X).
Proof.
  intros Hps Hsz H Hm He Hr. set (fuel' := (fuel + Z.to_nat (mark_rounds (li_page_size I) o))%nat).
  destruct (run_mark_tracks I fuel' o h X Hps Hsz H Hm He) as (h2 & E & H2); [unfold fuel'; lia|].
  apply (run_mark_mono _ fuel') in Hr; [|unfold fuel'; lia]. rewrite E in Hr. by injection Hr as <-.
Qed.

(** C11. The marks refine a set of pages, for every sequence of reported writes,
    truncations and rematerialisations whose arguments fit their C types. Unless
    one of the page ranges reaches the largest 32-bit page number, each operation
    ends, and the bitmap is the set that results from adding the pages that share
    a byte with the write and dropping those beyond the truncation; the counter is
    the size of that set. If one does reach it, directly or through the clamp of a
    write that ends beyond it, the sequence never ends. *)
Theorem lazy_marks_refine_page_set I os h X :
  0 < li_page_size I -> li_database_size_pages I < UINT32_MAX -> tracks I h X -> Forall mark_typed os ->
  if existsb (mark_to_end (li_page_size I)) os then forall fuel, run_marks fuel os h = None
  else forall fuel, Forall (fun o => mark_rounds (li_page_size I) o <= Z.of_nat fuel) os ->
    exists h', run_marks fuel os h = Some h' /\
      let Y := foldl (fun X o => mark_spec (li_page_size I) o X) X os in
      tracks I h' Y /\ lh_marked_pages h' = zlen (filter (fun p => Y p = true) (seqZ 1 (li_database_size_pages I))).
Proof.
  intros Hps Hsz. revert h X. induction os as [|o os IH]; intros h X H Hos; cbn [run_marks foldl existsb].
  { intros fuel _. exists h. split; [done|]. split; [done|by eapply tracks_count]. }
  apply list.Forall_cons in Hos as [Ho Hos].
  destruct (mark_to_end (li_page_size I) o) eqn:He; cbn [orb].
  { intros fuel. by rewrite (run_mark_endless I fuel o h X). }
  destruct (existsb _ os) eqn:Hex.
  - intros fuel. destruct (run_mark fuel o h) as [h1|] eqn:E; [|done].
    apply (IH h1 _ (run_mark_returns I fuel o h h1 X Hps Hsz H Ho He E) Hos).
  - intros fuel Hf. apply list.Forall_cons in Hf as [Hf1 Hf2].
    destruct (run_mark_tracks I fuel o h X Hps Hsz H Ho He Hf1) as (h1 & -> & H1). by apply (IH h1 _ H1 Hos fuel Hf2).
Qed.

Definition sample_marks : list mark_op := [MarkBytes 1000 100; ClearBeyondBytes 1500; MarkRange 0 1].

Lemma fresh_tracks I : 0 <= li_database_size_pages I < UINT32_MAX ->
  tracks I (set_bitmap (replicate (Z.to_nat ((li_database_size_pages I + 7) / 8)) 0) 0 (set_index I fresh_hydrator)) (fun _ => false).
Proof. intros H. destruct (fresh_bits (set_bitmap (replicate (Z.to_nat ((li_database_size_pages I + 7) / 8)) 0) 0 (set_index I fresh_hydrator)) H eq_refl eq_refl) as [Hb Hg]. split; [done|done|]. intros p _. apply Hg. Qed.

Definition three_pages : lazy_index := mkIndex (str "db") (str "x.db") None 512 3 0 0 [].

Lemma lazy_marks_refine_page_set_witness :
  exists h', run_marks 9 sample_marks (set_bitmap (replicate (Z.to_nat ((3 + 7) / 8)) 0) 0 (set_index three_pages fresh_hydrator)) = Some h' /\
    bitmap_get h' 1 = true /\ bitmap_get h' 3 = false /\ lh_marked_pages h' = 2.
Proof.
  assert (Hty : Forall mark_typed sample_marks)
    by (repeat (apply Forall_cons_2; [cbn; unfold UINT32_MAX; lia|]); apply Forall_nil_2).
  destruct (lazy_marks_refine_page_set three_pages sample_marks
    (set_bitmap (replicate (Z.to_nat ((3 + 7) / 8)) 0) 0 (set_index three_pages fresh_hydrator)) (fun _ => false)
    eq_refl eq_refl (fresh_tracks three_pages ltac:(cbn; unfold UINT32_MAX; lia)) Hty 9%nat) as (h' & E & H & Hc).
  - unfold sample_marks. repeat (apply Forall_cons_2; [vm_compute; discriminate|]). apply Forall_nil_2.
  - exists h'. split; [exact E|]. split; [|split].
    + rewrite (tk_pages _ _ _ H) by (cbn; split; [reflexivity|discriminate]). reflexivity.
    + rewrite (tk_pages _ _ _ H) by (cbn; split; [reflexivity|discriminate]). reflexivity.
    + rewrite Hc. reflexivity.
Defined.

(** ** Completeness *)

Lemma count_disjoint (f g : Z -> bool) (l : list Z) :
  (forall p, p ∈ l -> f p = true -> g p = false) ->
  zlen (filter (fun p => f p = true) l) + zlen (filter (fun p => g p = true) l) = zlen (filter (fun p => f p || g p = true) l).
Proof.
  unfold zlen. induction l as [|p l IH]; intros H; [done|]. specialize (IH (fun q Hq => H q (list_elem_of_further q p l Hq))).
  specialize (H p ltac:(by left)). rewrite !filter_cons.
  destruct (f p), (g p); try (by specialize (H eq_refl)); repeat case_decide; try done; cbn [length]; lia.
Qed.

Lemma count_all (f : Z -> bool) (l : list Z) :
  zlen l <= zlen (filter (fun p => f p = true) l) <-> forall p, p ∈ l -> f p = true.
Proof.
  unfold zlen. induction l as [|p l IH]; [split; [by intros _ p ?%elem_of_nil|done]|]. rewrite filter_cons.
  pose proof (length_filter (fun p => f p = true) l) as Hle. case_decide as Hp; cbn [length].
  - split; [intros H q [->|Hq]%elem_of_cons; [done|]; by apply IH; [lia|]|].
    intros H. enough (Z.of_nat (length l) <= Z.of_nat (length (filter (fun p => f p = true) l))) by lia. apply IH. intros q Hq.
    apply H. by right.
  - split; [lia|]. intros H. by rewrite (H p ltac:(by left)) in Hp.
Qed.

(** The test for completeness is exact where no page is counted twice: when the
    base count is the number of pages of [B], the pages only the checkpoint base
    has, and none of them is marked, the test holds if and only if every page of
    the database is marked or in the base. *)
Theorem lazy_complete_exact I h X (B : Z -> bool) :
  tracks I h X -> 0 <= li_database_size_pages I < UINT32_MAX ->
  li_base_complete_pages I = zlen (filter (fun p => B p = true) (seqZ 1 (li_database_size_pages I))) ->
  (forall p, 0 < p <= li_database_size_pages I -> X p = true -> B p = false) ->
  otsardb_lazy_is_complete h = true <-> forall p, 0 < p <= li_database_size_pages I -> X p || B p = true.
Proof.
  intros H Hsz Hb Hd. set (l := seqZ 1 (li_database_size_pages I)) in *.
  assert (Hl : forall p, p ∈ l <-> 0 < p <= li_database_size_pages I) by (intros p; unfold l; rewrite elem_of_seqZ; lia).
  assert (Hsum : lh_marked_pages h + li_base_complete_pages I = zlen (filter (fun p => X p || B p = true) l)).
  { rewrite (tracks_count _ _ _ H), Hb. apply count_disjoint. intros p Hp. apply Hd. by apply Hl. }
  assert (Hle : 0 <= zlen (filter (fun p => X p || B p = true) l) <= li_database_size_pages I).
  { unfold l. apply (count_bound (fun p => X p || B p)). lia. }
  unfold otsardb_lazy_is_complete. rewrite (tracks_size _ _ _ H), (tk_index _ _ _ H), Hsum. unfold u64.
  rewrite Z.mod_small by (unfold UINT32_MAX in *; lia). rewrite Z.leb_le.
  pose proof (count_all (fun p => X p || B p) l) as Hall. unfold l in Hall at 1. rewrite zlen_seqZ in Hall by lia. rewrite Hall.
  split; intros Hp p; specialize (Hp p); rewrite Hl in *; done.
Qed.

Lemma lazy_complete_exact_witness :
  otsardb_lazy_is_complete (set_bitmap (replicate (Z.to_nat ((3 + 7) / 8)) 0) 0 (set_index three_pages fresh_hydrator)) = true <->
  forall p, 0 < p <= 3 -> false || false = true.
Proof.
  apply (lazy_complete_exact three_pages _ (fun _ => false) (fun _ => false)).
  - apply (fresh_tracks three_pages). split; [discriminate|reflexivity].
  - split; [discriminate|reflexivity].
  - reflexivity.
  - discriminate.
Defined.

(** The head commit of the sample over a checkpoint of its first: page 1 is in the
    base image, page 2 is of the newer segment. *)
Module CheckpointSample.
Import RecoverySample.
Definition base_files : local := mkLocal {[path := image1]} [].
Definition collected : lazy_collect := mkCollect (take 1 (li_manifests LazySample.index)) [].
Definition opening := restore_index LazySample.getenv shelf (str "db") path None 1 collected fresh_hydrator (objects, base_files).
Definition hydrator : otsardb_lazy_hydrator := match fst opening with Some h => h | None => fresh_hydrator end.
Definition read_one := read_range (HSha := sum_sha256) (HLz4 := zero_lz4) LazySample.getenv id shelf 2 9 1 1 1 (hydrator, snd opening).
End CheckpointSample.

(** A page of the base that is read is marked, and counted a second time: after
    one read of page 1 the hydrator reports the database complete while page 2 has
    never been fetched and its bytes in the image are zero. *)
Theorem lazy_complete_counts_base_twice :
  fst CheckpointSample.read_one = inr true /\
  otsardb_lazy_is_complete (fst (snd CheckpointSample.read_one)) = true /\
  bitmap_get (fst (snd CheckpointSample.read_one)) 2 = false /\
  page_at 512 (file_at (snd (snd (snd CheckpointSample.read_one))) RecoverySample.path) 2 = replicate 512 0 /\
  lazy_resolve_page CheckpointSample.hydrator 2 = Some 0%nat.
Proof. split_and!; vm_compute; reflexivity. Qed.

(** ** Ends of loops *)

(** With the largest page number as its end the loop that marks a range never ends. *)
Theorem lazy_mark_range_unbounded fuel first h :
  0 <= first <= UINT32_MAX -> otsardb_lazy_mark_range fuel first UINT32_MAX h = None.
Proof. apply mark_range_endless. Qed.

(** The parallel validation of the chain looks at the first manifest only: the loop
    over the slots is left at slot 1, so the others pass whatever they say. *)
Theorem parallel_chain_checks_first_slot md salt1 salt2 slot rest rest' :
  validate_slots md salt1 salt2 1 (slot :: rest) = validate_slots md salt1 salt2 1 (slot :: rest').
Proof. cbn [validate_slots]. by destruct (negb _). Qed.

(** ** Segments whose pages are not known *)

(** The first commit has pages 1 and 2 in a segment without a page set, the second
    replaces page 1. *)
Module UnknownSample.
Import RecoverySample.
Definition s1 : bytes :=
  Eval vm_compute in segment "c-1" (default [] (otsardb_wal_batch_encode 512 2 [1; 2] (page 65 ++ page 66))).
Definition s2 : bytes := Eval vm_compute in segment "c-2" (batch 2 1 67).
Definition m1 : bytes :=
  Eval vm_compute in manifest_json (mkManifest 4 1 0 512 2 (str "db-1") (str "c-1") [] [] [ref "segments/s1" s1 []] []).
Definition m2 : bytes :=
  Eval vm_compute in manifest_json (mkManifest 4 2 1 512 2 (str "db-1") (str "c-2") (str "c-1") (digest m1) [ref "segments/s2" s2 [1]] []).
Definition objects : contents :=
  <[str "db/segments/s1" := object s1]> (<[str "db/segments/s2" := object s2]> (database m1 m2 (head_at m2))).
Definition opening := otsardb_lazy_restore_store_ex (HSha := sum_sha256) LazySample.getenv shelf (str "db") path None None None (objects, no_files).
Definition hydrator : otsardb_lazy_hydrator := match snd (fst opening) with Some h => h | None => fresh_hydrator end.
Definition read (first last : Z) (w : otsardb_lazy_hydrator * (contents * local)) :=
  read_range (HSha := sum_sha256) (HLz4 := zero_lz4) LazySample.getenv id shelf 2 9 1 first last w.
(** Page 2, then page 1. *)
Definition after_two := read 2 2 (hydrator, snd opening).
Definition after_one := read 1 1 (snd after_two).
End UnknownSample.

(** The older segment is written over every page that is not in the image yet: after
    a read of page 2, a read of page 1 succeeds with the bytes of the first commit
    although the second replaces the page and its segment claims it. *)
Theorem lazy_unknown_hides_newer :
  lazy_resolve_page UnknownSample.hydrator 1 = Some 0%nat /\
  fst UnknownSample.after_two = inr true /\ fst UnknownSample.after_one = inr true /\
  page_at 512 (file_at (snd (snd (snd UnknownSample.after_one))) RecoverySample.path) 1 = RecoverySample.page 65.
Proof. split_and!; vm_compute; reflexivity. Qed.

(** ** Session writes *)

(** The session has written page 2 of the sample, which is marked; then page 1 is
    read. *)
Module WriteSample.
Import RecoverySample.
Definition written : bytes := page 0 ++ page 90.
Definition state : otsardb_lazy_hydrator * (contents * local) :=
  (default LazySample.hydrator (otsardb_lazy_mark_range 2 2 2 LazySample.hydrator), (objects, mkLocal {[path := written]} [])).
Definition after := read_range (HSha := sum_sha256) (HLz4 := zero_lz4) LazySample.getenv id shelf 2 9 1 1 1 state.
End WriteSample.

(** The tasks are applied in order up to the one that claims page 1, and the first
    of them writes page 2 over what the session wrote: only the claim is looked at,
    not the mark. *)
Theorem lazy_apply_overwrites_session :
  bitmap_get (fst WriteSample.state) 2 = true /\ fst WriteSample.after = inr true /\
  page_at 512 (file_at (snd (snd WriteSample.state)) RecoverySample.path) 2 = RecoverySample.page 90 /\
  page_at 512 (file_at (snd (snd (snd WriteSample.after))) RecoverySample.path) 2 = RecoverySample.page 66.
Proof. split_and!; vm_compute; reflexivity. Qed.

(** ** A page in two segments of one commit *)

Module ChunkSample.
(** One transaction writes page 1 twice; each segment takes one frame. *)
Definition wal : bytes := Eval vm_compute in PublisherSample.wal [(1, 0, 65); (1, 1, 66)].
Definition publisher : otsardb_wal_publisher := otsardb_wal_publisher_set_segment_payload_limit 520 genesis_publisher.
Definition published : Z * otsardb_wal_publisher * mem := Eval vm_compute in PublisherSample.sync None wal publisher mem_empty.
Definition opening := otsardb_lazy_restore_store_ex (HSha := RecoverySample.sum_sha256) LazySample.getenv PublisherSample.store
  (str "db") (str "y.db") None None None (snd published, no_files).
Definition hydrator : otsardb_lazy_hydrator := match snd (fst opening) with Some h => h | None => fresh_hydrator end.
Definition read := read_range (HSha := RecoverySample.sum_sha256) (HLz4 := zero_lz4) LazySample.getenv id PublisherSample.store 2 9 1
  1 1 (hydrator, snd opening).
End ChunkSample.

(** The segments of one commit are searched first to last, but applied first to
    last by recovery: of a page that a transaction wrote into two segments,
    recovery restores the last frame and a lazy session reads the first one. *)
Theorem lazy_serves_older_chunk :
  PublisherSample.sync None ChunkSample.wal ChunkSample.publisher mem_empty = ChunkSample.published /\
  fst (fst ChunkSample.published) = SQLITE_OK /\
  fst (PublisherSample.restore (snd ChunkSample.published)) = true /\
  l_files (snd (snd (PublisherSample.restore (snd ChunkSample.published)))) !! str "x.db" = Some (RecoverySample.page 66) /\
  fst ChunkSample.read = inr true /\
  l_files (snd (snd (snd ChunkSample.read))) !! str "y.db" = Some (RecoverySample.page 65).
Proof. split_and!; vm_equal. Qed.
