(* ===== verification/Forward.v ===== *)
(** * Forwarding of writes (ha/forward.c)

    A session that does not hold the writer lease sends a statement to the
    leader over HTTP ([POST /forward]) and gets the rendered rows back. The file
    models the embedded server (reading a request under a deadline, its
    parsing, the answers), the client, and the builders of the response body.

    A connection is what the peer will still send, with the delays of its
    pieces, what has been sent to the peer, and the monotonic clock. The
    statement itself runs in the handler, a parameter: a computation on the
    state of the leader's database, which takes its own time on the thread of the
    server. *)

From S2P Require Import Prelude CText.

Definition OTSARDB_FORWARD_MAX_BODY : Z := 2 ^ 20.
Definition OTSARDB_FORWARD_MAX_HEADERS : Z := 2 ^ 14.
Definition OTSARDB_FORWARD_TIMEOUT_MS : Z := 10000.
Definition OTSARDB_FORWARD_READ_IDLE_MS : Z := 5000.
Definition OTSARDB_FORWARD_READ_TOTAL_MS : Z := 30000.

Definition crlf : bytes := [13; 10].
Definition crlf2 : bytes := [13; 10; 13; 10].

(** ** The C library: [strtol] and [memmem] *)

(** [strtol(p, &end, 10)] of a 64-bit [long]: the saturated value and the text
    at [end]; [None] when no digit was read ([end == p], value 0). *)
Definition strtol (p : bytes) : option (Z * bytes) :=
  let t := skip_while is_space p in
  let '(neg, t) := match t with
                   | 45 :: t' => (true, t')
                   | 43 :: t' => (false, t')
                   | _ => (false, t)
                   end in
  match span is_digit t with
  | ([], _) => None
  | (ds, rest) =>
      let v := if neg : bool then - digits_value ds else digits_value ds in
      Some (Z.max (- 2 ^ 63) (Z.min (2 ^ 63 - 1) v), rest)
  end.

(** The conversion of a [long] to [int]. *)
Definition to_int (v : Z) : Z := (v + 2 ^ 31) mod 2 ^ 32 - 2 ^ 31.

(** The offset of the first occurrence of [needle]. *)
Fixpoint find_bytes (haystack needle : bytes) : option nat :=
  if prefixb needle haystack then Some O
  else match haystack with
       | [] => None
       | _ :: t => S <$> find_bytes t needle
       end.

(** ** Connections *)

(** What the peer does next: a piece of data (an empty one is the end of the
    stream or an error of [recv]), or an event that makes [select] fail; [after]
    milliseconds after the previous one. Nothing more is silence. *)
Inductive arrival :=
| Data (after : N) (data : bytes)
| SelectError (after : N).

(** [c_sends]: what the next calls of [send] do, the milliseconds they block and
    the bytes they take at most (an error when that is not positive); when the
    script is over, [send] takes everything at once. *)
Record conn := mkConn {
  c_now : Z;
  c_in : list arrival;
  c_out : bytes;
  c_sends : list (N * Z)
}.

Definition arrival_after (a : arrival) : N :=
  match a with Data d _ | SelectError d => d end.

Definition delayed (a : arrival) (d : N) : arrival :=
  match a with Data _ data => Data d data | SelectError _ => SelectError d end.

Definition elapse (ms : Z) (arrivals : list arrival) (c : conn) : conn :=
  mkConn (c_now c + ms) arrivals (c_out c) (c_sends c).

(** The loop below only waits for a positive time. *)
Definition wait_readable (timeout_ms : Z) : M conn bool := fun c =>
  match c_in c with
  | [] => (false, elapse timeout_ms [] c)
  | a :: r =>
      let d := Z.of_N (arrival_after a) in
      if timeout_ms <? d
      then (false, elapse timeout_ms (delayed a (Z.to_N (d - timeout_ms)) :: r) c)
      else match a with
           | Data _ data => (true, elapse d (Data 0 data :: r) c)
           | SelectError _ => (false, elapse d r c)
           end
  end.

(** [recv]: at most [size] bytes of the first piece; [[]] when it returns 0 or
    an error. It is only called on a readable connection. *)
Definition recv (size : Z) : M conn bytes := fun c =>
  match c_in c with
  | Data d data :: r =>
      let n := Z.to_nat size in
      let rest := drop n data in
      (take n data,
       mkConn (c_now c)
              (match data, rest with _ :: _, [] => r | _, _ => Data 0 rest :: r end)
              (c_out c) (c_sends c))
  | _ => ([], c)
  end.

Definition forward_now_ms : M conn Z := fun c => (c_now c, c).

(** [send]: the number of bytes taken, or a result that is not positive. *)
Definition send (data : bytes) : M conn Z := fun c =>
  match c_sends c with
  | [] => (zlen data, mkConn (c_now c) (c_in c) (c_out c ++ data) [])
  | (ms, n) :: r =>
      let n := Z.min n (zlen data) in
      (n, mkConn (c_now c + Z.of_N ms) (c_in c) (c_out c ++ take (Z.to_nat n) data) r)
  end.

(** Each round sends a byte at least, so a round per byte is enough. *)
Fixpoint send_loop (fuel : nat) (data : bytes) : M conn bool :=
  match data with
  | [] => return! true
  | _ =>
      match fuel with
      | O => return! false
      | S fuel =>
          let! n := send data in
          if n <=? 0 then return! false else send_loop fuel (drop (Z.to_nat n) data)
      end
  end.

Definition send_all (data : bytes) : M conn bool := send_loop (length data) data.

Definition read_deadline_remaining (start_ms : Z) : M conn Z :=
  let! now := forward_now_ms in
  let elapsed := u64 (now - start_ms) in
  return!
    if OTSARDB_FORWARD_READ_TOTAL_MS <=? elapsed then 0 else
    let left := OTSARDB_FORWARD_READ_TOTAL_MS - elapsed in
    if OTSARDB_FORWARD_READ_IDLE_MS <=? left then OTSARDB_FORWARD_READ_IDLE_MS else left.

(** ** The server *)

Definition response_header (status : Z) (status_text : bytes) (body_len : Z) : bytes :=
  str "HTTP/1.1 " ++ dec status ++ str " " ++ status_text ++ crlf ++
  str "Content-Length: " ++ dec body_len ++ crlf ++
  str "Connection: close" ++ crlf2.

(** A header that does not fit in 512 bytes is not sent; the body is sent
    whatever became of the header. *)
Definition send_simple_response (status : Z) (status_text body : bytes) : M conn unit :=
  let header := response_header status status_text (zlen body) in
  let! _ := if zlen header <? 512 then send_all header else return! false in
  let! _ := send_all body in
  return! tt.

(** Wait under the deadline, then [recv]: [None] is a timeout. *)
Definition recv_by_deadline (start_ms size : Z) : M conn (option bytes) :=
  let! ms := read_deadline_remaining start_ms in
  if ms <=? 0 then return! None else
  let! ready := wait_readable ms in
  if ready : bool then (let! data := recv size in return! Some data) else return! None.

(** The bytes read and the offset of the body. A round reads a byte at least,
    and [cap] rounds are enough. *)
Fixpoint read_request_headers (fuel : nat) (cap start_ms : Z) (buffer : bytes)
    : M conn (option (bytes * nat)) :=
  match fuel with
  | O => return! None
  | S fuel =>
      if cap <=? zlen buffer + 1 then return! None else
      let! r := recv_by_deadline start_ms (cap - zlen buffer - 1) in
      match r with
      | None | Some [] => return! None
      | Some data =>
          let buffer := buffer ++ data in
          match find_bytes buffer crlf2 with
          | Some i => return! Some (buffer, (i + 4)%nat)
          | None => read_request_headers fuel cap start_ms buffer
          end
      end
  end.

(** The method and the path; the two spaces are overwritten with NULs in the
    buffer, on the failing paths too. *)
Definition parse_request_line (line : bytes) (method_cap path_cap : Z)
    : bytes * option (bytes * bytes) :=
  match split_at 32 (cstr line) with
  | None => (line, None)
  | Some (method, rest) =>
      let line := <[length method := 0]> line in
      match split_at 32 rest with
      | None => (line, None)
      | Some (path, _) =>
          let line := <[(length method + 1 + length path)%nat := 0]> line in
          if (method_cap <=? zlen method) || (path_cap <=? zlen path) then (line, None)
          else (line, Some (method, path))
      end
  end.

Definition content_length_tag : bytes := str "Content-Length:".

Definition parse_content_length (headers : bytes) : Z :=
  match strstr (cstr headers) content_length_tag with
  | None => -1
  | Some found =>
      match strtol (skip_while is_blank (drop 15 found)) with
      | None => -1
      | Some (parsed, _) => if parsed <? 0 then -1 else parsed
      end
  end.

(** What the headers ask for: the length of the body, or the answer that
    refuses the request. [zone] is the buffer up to the body. *)
Definition check_request (zone : bytes) : (Z * bytes * bytes) + Z :=
  match parse_request_line zone 16 128 with
  | (_, None) => inl (400, str "Bad Request", str "bad request: unparsable request line")
  | (zone, Some (method, path)) =>
      let headers := match find_bytes zone crlf with
                     | Some i => drop (i + 2) zone
                     | None => zone
                     end in
      if negb (bytes_eqb method (str "POST"))
      then inl (405, str "Method Not Allowed", str "method not allowed")
      else if negb (bytes_eqb path (str "/forward"))
      then inl (404, str "Not Found", str "not found")
      else
        let content_length := parse_content_length headers in
        if content_length <? 0
        then inl (400, str "Bad Request", str "bad request: missing or invalid Content-Length")
        else if OTSARDB_FORWARD_MAX_BODY <? content_length
        then inl (400, str "Bad Request", str "bad request: body exceeds the 1 MiB cap")
        else inr content_length
  end.

(** The rest of the body: its bytes, or the refusal. A round reads a byte at
    least. *)
Fixpoint read_body (fuel : nat) (start_ms content_length : Z) (body : bytes)
    : M conn ((Z * bytes * bytes) + bytes) :=
  let remaining := content_length - zlen body in
  if remaining <=? 0 then return! inr body else
  match fuel with
  | O => return! inr body
  | S fuel =>
      let! r := recv_by_deadline start_ms remaining in
      match r with
      | None => return! inl (408, str "Request Timeout", str "request timeout: body was not received")
      | Some [] => return! inl (400, str "Bad Request", str "bad request: truncated body")
      | Some data => read_body fuel start_ms content_length (body ++ data)
      end
  end.

(** The statement of a request, or the refusal. *)
Definition read_request_rounds (fuel : nat) (start_ms : Z) : M conn ((Z * bytes * bytes) + bytes) :=
  let! r := read_request_headers fuel OTSARDB_FORWARD_MAX_HEADERS start_ms [] in
  match r with
  | None => return! inl (400, str "Bad Request",
                         str "bad request: malformed headers (read deadline exceeded)")
  | Some (buffer, body_offset) =>
      match check_request (take body_offset buffer) with
      | inl refusal => return! inl refusal
      | inr content_length =>
          let body := take (Z.to_nat content_length) (drop body_offset buffer) in
          read_body (Z.to_nat content_length) start_ms content_length body
      end
  end.

Definition read_request : Z -> M conn ((Z * bytes * bytes) + bytes) :=
  read_request_rounds (Z.to_nat OTSARDB_FORWARD_MAX_HEADERS).

Section Server.
Context {D : Type}.
(** The handler runs the statement on the state of the database and gives the
    HTTP status and the C string it left in the response buffer. *)
Variable handler : bytes -> M D (Z * bytes).
(** The milliseconds it takes. *)
Variable handler_ms : bytes -> D -> N.

Definition on_conn {A} (m : M conn A) : M (D * conn) A := fun st =>
  let '(a, c') := m (snd st) in (a, (fst st, c')).

(** The handler runs on the thread of the accept loop: the clock goes on while
    it does. *)
Definition run_handler (sql : bytes) : M (D * conn) (Z * bytes) := fun st =>
  let '(a, d') := handler sql (fst st) in
  (a, (d', elapse (Z.of_N (handler_ms sql (fst st))) (c_in (snd st)) (snd st))).

(** The answer to what the handler did. *)
Definition answer (status : Z) (response : bytes) : Z * bytes * bytes :=
  if status =? 200 then (200, str "OK", response)
  else if status =? 421 then (421, str "Not Leader", str "not leader")
  else (500, str "Internal Server Error", response).

Definition handle_connection : M (D * conn) unit :=
  let! start_ms := on_conn forward_now_ms in
  let! request := on_conn (read_request start_ms) in
  match request with
  | inl (status, text, body) => on_conn (send_simple_response status text body)
  | inr sql =>
      let! r := run_handler sql in
      let '(status, text, body) := answer (fst r) (cstr (snd r)) in
      on_conn (send_simple_response status text body)
  end.

(** A turn of the accept loop: [select] is not ready, [accept] fails, or a
    connection is accepted. *)
Inductive listen_event :=
| NotReady
| AcceptFailed
| Accepted (c : conn).

(** The turns before the stop flag is seen; the connections in their final
    state, each closed before the next is accepted. *)
Fixpoint forward_server_main (turns : list listen_event) : M D (list conn) :=
  match turns with
  | [] => return! []
  | (NotReady | AcceptFailed) :: r => forward_server_main r
  | Accepted c :: r => fun d =>
      let '(_, (d', c')) := handle_connection (d, c) in
      let '(served, d'') := forward_server_main r d' in
      (c' :: served, d'')
  end.
End Server.

(** What the system calls of the start give: socket initialization, the
    resolved addresses with the results of [socket] and [bind] on each,
    [listen], the bound port ([getsockname]) and the start of the thread. *)
Record start_env := mkStartEnv {
  e_wsa : bool;
  e_resolved : option (list (bool * bool));
  e_listen : bool;
  e_bound_port : option Z;
  e_thread : bool
}.

Inductive start_error :=
| InvalidArguments | SocketInitialization | CannotResolve | CannotBind | ListenFailed | CannotStartThread.

(** The listening address (its index) and the port. *)
Record otsardb_forward_server := mkServer {
  srv_address : nat;
  srv_port : Z
}.

(** The first address whose socket opens and binds. *)
Fixpoint bind_first (i : nat) (addresses : list (bool * bool)) : option nat :=
  match addresses with
  | [] => None
  | (opened, bound) :: r => if opened && bound then Some i else bind_first (S i) r
  end.

Definition otsardb_forward_server_start (env : start_env) (port : Z) (has_handler : bool)
    : start_error + otsardb_forward_server :=
  if negb has_handler || (port <? 0) || (65535 <? port) then inl InvalidArguments else
  if negb (e_wsa env) then inl SocketInitialization else
  match e_resolved env with
  | None | Some [] => inl CannotResolve
  | Some addresses =>
      match bind_first 0 addresses with
      | None => inl CannotBind
      | Some i =>
          if negb (e_listen env) then inl ListenFailed else
          let port := if port =? 0 then default port (e_bound_port env) else port in
          if negb (e_thread env) then inl CannotStartThread else inr (mkServer i port)
      end
  end.

Definition otsardb_forward_server_port (server : option otsardb_forward_server) : Z :=
  match server with Some s => srv_port s | None => 0 end.

(** ** The client *)

(** [strrchr(s, c)]: the bytes before the last [c] and those after it. *)
Fixpoint split_last (c : Z) (s : bytes) : option (bytes * bytes) :=
  match s with
  | [] => None
  | x :: t => match split_last c t with
              | Some (a, b) => Some (x :: a, b)
              | None => if x =? c then Some ([], t) else None
              end
  end.

Definition unsafe_host_byte (c : Z) : bool := (c <? 32) || (c =? 127) || (c =? 32).

Definition otsardb_forward_split_host_port (host_port : bytes) (host_cap : Z) : option (bytes * Z) :=
  if (zlen host_port =? 0) || (host_cap =? 0) then None else
  if existsb unsafe_host_byte host_port then None else
  match split_last 58 host_port with
  | None | Some ([], _) => None
  | Some (host, port_text) =>
      match strtol port_text with
      | Some (port, []) =>
          if (port <? 1) || (65535 <? port) || (host_cap <=? zlen host) then None
          else Some (host, port)
      | _ => None
      end
  end.

Definition request_header (host_port : bytes) (sql_len : Z) : bytes :=
  str "POST /forward HTTP/1.1" ++ crlf ++
  str "Host: " ++ host_port ++ crlf ++
  str "Content-Length: " ++ dec sql_len ++ crlf ++
  str "Connection: close" ++ crlf2.

(** The first resolved address that connects. *)
Definition client_connect (resolved : option (list (bool * bool))) : bool :=
  match resolved with
  | None | Some [] => false
  | Some addresses => bool_decide (is_Some (bind_first 0 addresses))
  end.

(** The state of the loop that reads the response. *)
Record reading := mkReading {
  rd_buffer : bytes;
  rd_header_end : option nat; (* [got_headers] *)
  rd_status : Z;
  rd_body_len : Z
}.

(** The status line and the length, once the headers are complete: [None] when
    the status line is empty or does not fit, which ends the loop. *)
Definition parse_response_headers (response : bytes) (header_end : nat) (response_cap : Z)
    : option (Z * Z) :=
  let line_len := default O (find_bytes (take header_end response) crlf) in
  if (line_len =? 0)%nat || (64 <=? Z.of_nat line_len) then None else
  let status :=
    match split_at 32 (cstr (take line_len response)) with
    | Some (_, token) => to_int (match strtol token with Some (v, _) => v | None => 0 end)
    | None => 0
    end in
  let body_len :=
    match strstr (cstr response) content_length_tag with
    | Some cl =>
        let parsed := match strtol (drop 15 cl) with Some (v, _) => v | None => 0 end in
        if (0 <=? parsed) && (parsed <=? response_cap) then parsed else 0
    | None => 0
    end in
  Some (status, body_len).

Definition response_complete (r : reading) : bool :=
  match rd_header_end r with
  | Some h => (0 <? rd_body_len r) && (Z.of_nat h + rd_body_len r <=? zlen (rd_buffer r))
  | None => false
  end.

(** The received data looked at: the new state, and whether the loop goes on. *)
Definition read_response_step (response_cap : Z) (r : reading) (data : bytes) : reading * bool :=
  let buffer := rd_buffer r ++ data in
  let '(r, go) :=
    match rd_header_end r with
    | Some _ => (mkReading buffer (rd_header_end r) (rd_status r) (rd_body_len r), true)
    | None =>
        match find_bytes buffer crlf2 with
        | None => (mkReading buffer None (rd_status r) (rd_body_len r), true)
        | Some i =>
            let h := (i + 4)%nat in
            match parse_response_headers buffer h response_cap with
            | None => (mkReading buffer (Some h) (rd_status r) (rd_body_len r), false)
            | Some (status, body_len) => (mkReading buffer (Some h) status body_len, true)
            end
        end
    end in
  (r, go && negb (response_complete r)).

(** A round receives a byte at least. *)
Fixpoint read_response (fuel : nat) (ms response_cap : Z) (r : reading) : M conn reading :=
  match fuel with
  | O => return! r
  | S fuel =>
      if response_cap <=? zlen (rd_buffer r) then return! r else
      let! ready := wait_readable ms in
      if negb ready then return! r else
      let! data := recv (response_cap - zlen (rd_buffer r) - 1) in
      match data with
      | [] => return! r
      | _ =>
          let '(r, go) := read_response_step response_cap r data in
          if go : bool then read_response fuel ms response_cap r else return! r
      end
  end.

(** The body is moved to the front; [None] is the result -1. *)
Definition response_result (r : reading) : option (Z * bytes) :=
  match rd_header_end r with
  | Some h =>
      if 0 <? rd_status r then
        let available := drop h (rd_buffer r) in
        let available := if (0 <? rd_body_len r) && (rd_body_len r <? zlen available)
                         then take (Z.to_nat (rd_body_len r)) available else available in
        Some (rd_status r, available)
      else None
  | None => None
  end.

Definition otsardb_forward_client_post (resolved : option (list (bool * bool)))
    (host_port sql : bytes) (response_cap timeout_ms : Z) : M conn (option (Z * bytes)) :=
  if (zlen host_port =? 0) || (response_cap =? 0) then return! None else
  match otsardb_forward_split_host_port host_port 256 with
  | None => return! None
  | Some _ =>
      if negb (client_connect resolved) then return! None else
      let ms := if 0 <? timeout_ms then timeout_ms else OTSARDB_FORWARD_TIMEOUT_MS in
      let header := request_header host_port (zlen sql) in
      if negb (zlen header <? 512) then return! None else
      let! sent := send_all header in
      if negb sent then return! None else
      let! sent := send_all sql in
      if negb sent then return! None else
      let! r := read_response (Z.to_nat response_cap) ms response_cap (mkReading [] None 0 0) in
      return! response_result r
  end.

(** ** Building the body *)

(** The fields of a row after [out], which holds less than [cap] bytes; a NULL
    value is the text NULL. *)
Fixpoint row_fields (cap : Z) (first : bool) (argv : list (option bytes)) (out : bytes) : bytes :=
  match argv with
  | [] => out
  | value :: r =>
      if negb first && (cap <=? zlen out + 1) then out else
      let out := if first then out else out ++ [9] in
      let value := default (str "NULL") value in
      let len := if cap <=? zlen out + zlen value then cap - zlen out - 1 else zlen value in
      row_fields cap false r (out ++ take (Z.to_nat len) value)
  end.

Definition otsardb_forward_row_line (cap : Z) (out : bytes) (argv : list (option bytes)) : bytes :=
  if (cap =? 0) || (cap <=? zlen out) then out else
  let out := row_fields cap true argv out in
  if zlen out + 1 <? cap then out ++ [10] else out.

Definition end_marker (row_count : Z) : bytes := str "# end " ++ dec row_count ++ [10].

Definition otsardb_forward_end_marker (cap : Z) (out : bytes) (row_count : Z) : bytes :=
  if (cap =? 0) || (cap <=? zlen out) then out else
  out ++ snprintf_s (cap - zlen out) (end_marker row_count).
