(* ===== verification/ForwardTheory.v ===== *)
(** * Forwarding of writes: what the two ends read and send

    The bytes a connection delivers, how far the reads of the server get
    whatever the peer does (time, statement, answer), and what both ends read
    when the pieces come in time. *)

From S2P Require Import Prelude CText Forward.

(** ** Searching *)

Lemma find_bytes_cons x t needle : prefixb needle (x :: t) = false ->
  find_bytes (x :: t) needle = S <$> find_bytes t needle.
Proof. intros H. cbn [find_bytes]. by rewrite H. Qed.

Lemma prefixb_app_mono p a b : prefixb p a = true -> prefixb p (a ++ b) = true.
Proof. rewrite !prefixb_spec. intros [r ->]. exists (r ++ b). by rewrite app_assoc. Qed.

Lemma prefixb_app_short p a b : prefixb p (a ++ b) = true -> (length p <= length a)%nat -> prefixb p a = true.
Proof.
  revert a. induction p as [|x p IH]; intros [|y a] H Hl; cbn in *; try done; [lia|].
  prop_bools. subst. rewrite Z.eqb_refl. cbn. apply IH; [done|lia].
Qed.

Lemma find_bytes_bound hay needle i : find_bytes hay needle = Some i -> (i + length needle <= length hay)%nat.
Proof.
  revert i. induction hay as [|x t IH]; intros i; cbn [find_bytes]; destruct (prefixb needle _) eqn:E.
  all: try (intros [= <-]; apply prefixb_spec in E as [r E]; apply (f_equal length) in E;
            rewrite length_app in E; cbn in *; lia).
  destruct (find_bytes t needle) as [j|] eqn:F; intros [= <-]. specialize (IH _ eq_refl). cbn. lia.
Qed.

Lemma find_bytes_app hay rest needle i :
  find_bytes hay needle = Some i -> find_bytes (hay ++ rest) needle = Some i.
Proof.
  revert i. induction hay as [|x t IH]; intros i; cbn [find_bytes app].
  - destruct (prefixb needle []) eqn:E; [|done]. destruct needle; [|done]. intros [= <-]. by destruct rest.
  - destruct (prefixb needle (x :: t)) eqn:E.
    + intros [= <-]. change (x :: t ++ rest) with ((x :: t) ++ rest). by rewrite prefixb_app_mono.
    + destruct (find_bytes t needle) as [j|] eqn:F; intros [= <-].
      assert (prefixb needle (x :: t ++ rest) = false) as ->.
      { apply not_true_iff_false. intros H. apply not_true_iff_false in E. apply E.
        apply (prefixb_app_short _ _ rest); [done|]. apply find_bytes_bound in F. cbn. lia. }
      by rewrite (IH _ eq_refl).
Qed.

(** A text cut before the end of the first occurrence has none. *)
Lemma find_bytes_cut hay rest needle i :
  find_bytes (hay ++ rest) needle = Some i ->
  find_bytes hay needle = if (i + length needle <=? length hay)%nat then Some i else None.
Proof.
  destruct (Nat.leb_spec (i + length needle) (length hay)) as [H|H]; intros F.
  2:{ destruct (find_bytes hay needle) as [j|] eqn:E; [|done].
      pose proof (find_bytes_app _ rest _ _ E) as F'. rewrite F in F'. injection F' as ->.
      apply find_bytes_bound in E. lia. }
  revert i F H. induction hay as [|x t IH]; intros i F H; cbn [find_bytes app] in *.
  - cbn in H. destruct needle; cbn in *; [|lia]. destruct i; [done|lia].
  - change (x :: t ++ rest) with ((x :: t) ++ rest) in F.
    destruct (prefixb needle ((x :: t) ++ rest)) eqn:E.
    + injection F as <-. cbn [Nat.add] in H. by rewrite (prefixb_app_short _ _ rest).
    + destruct (find_bytes (t ++ rest) needle) as [j|] eqn:F'; [|done]. injection F as <-.
      destruct (prefixb needle (x :: t)) eqn:E'.
      { apply (prefixb_app_mono _ _ rest) in E'. congruence. }
      cbn in H. rewrite (IH j); [done|done|lia].
Qed.

(** The search passes over text without the first byte of the needle. *)
Lemma find_bytes_skip c needle a b : no_byte c a = true ->
  find_bytes (a ++ b) (c :: needle) = (fun i => length a + i)%nat <$> find_bytes b (c :: needle).
Proof.
  induction a as [|x a IH]; intros H.
  - cbn [app length]. destruct (find_bytes b _); done.
  - rewrite no_byte_cons in H. prop_bools. cbn [app]. rewrite find_bytes_cons.
    + rewrite IH by done. destruct (find_bytes b _); done.
    + cbn [prefixb]. destruct (Z.eqb_spec c x); [congruence|done].
Qed.

Lemma find_bytes_at needle b : find_bytes (needle ++ b) needle = Some O.
Proof. destruct (needle ++ b) eqn:E; cbn [find_bytes]; by rewrite <- E, prefixb_app. Qed.

(** ** The bytes a connection delivers *)

(** Everything the peer sends before the end of the stream. *)
Fixpoint arriving (arrivals : list arrival) : bytes :=
  match arrivals with
  | [] | Data _ [] :: _ => []
  | Data _ data :: r => data ++ arriving r
  | SelectError _ :: r => arriving r
  end.

(** The time the scripted sends block. *)
Fixpoint sent_ms (sends : list (N * Z)) : Z :=
  match sends with [] => 0 | (ms, _) :: r => Z.of_N ms + sent_ms r end.

Lemma sent_ms_nonneg sends : 0 <= sent_ms sends.
Proof. induction sends as [|[ms n] r IH]; cbn; lia. Qed.

(** The output side of two states is the same. *)
Definition same_output (c c' : conn) : Prop := c_out c' = c_out c /\ c_sends c' = c_sends c.

Lemma same_output_refl c : same_output c c.
Proof. done. Qed.
Lemma same_output_trans c1 c2 c3 : same_output c1 c2 -> same_output c2 c3 -> same_output c1 c3.
Proof. unfold same_output. intros [-> ->] [-> ->]. done. Qed.
#[export] Hint Resolve same_output_refl same_output_trans : otsar.

Lemma wait_readable_ms ms c ready c' : 0 <= ms -> wait_readable ms c = (ready, c') ->
  c_now c <= c_now c' <= c_now c + ms /\ same_output c c' /\
  (ready = true -> arriving (c_in c') = arriving (c_in c) /\ exists d data r, c_in c' = Data d data :: r).
Proof.
  unfold wait_readable. intros Hm H. destruct (c_in c) as [|a r] eqn:E.
  { injection H as <- <-. cbn. split_and!; try done; lia. }
  destruct (Z.ltb_spec ms (Z.of_N (arrival_after a))).
  { injection H as <- <-. cbn. split_and!; try done; lia. }
  destruct a as [d data|d]; injection H as <- <-; cbn in *; (split; [lia|split; [done|]]); [|done].
  intros _. split; [|eauto]. by destruct data.
Qed.

Lemma recv_stream size c data c' d x r : c_in c = Data d x :: r -> 0 < size -> recv size c = (data, c') ->
  arriving (c_in c) = data ++ arriving (c_in c') /\ c_now c' = c_now c /\ same_output c c' /\
  zlen data <= size /\ (data = [] <-> x = []).
Proof.
  unfold recv. intros E Hs H. rewrite E in H. injection H as <- <-. rewrite E. cbn [c_in c_now].
  split_and!; try done.
  - destruct x as [|y x]; [by destruct (Z.to_nat size)|]. cbn [arriving].
    destruct (drop (Z.to_nat size) (y :: x)) as [|z rest] eqn:F.
    + rewrite <- (take_drop (Z.to_nat size) (y :: x)) at 1. by rewrite F, app_nil_r.
    + cbn [arriving]. rewrite <- (take_drop (Z.to_nat size) (y :: x)) at 1. by rewrite F, <- app_assoc.
  - unfold zlen. rewrite length_take. lia.
  - destruct x; [by destruct (Z.to_nat size)|]. assert (Z.to_nat size <> 0%nat) by lia.
    by destruct (Z.to_nat size).
Qed.

Section Deadline.
Context (start : Z).

(** The clock is between the start and the deadline. *)
Definition in_deadline (c : conn) : Prop := start <= c_now c <= start + OTSARDB_FORWARD_READ_TOTAL_MS.

Lemma deadline_elapsed c : in_deadline c -> u64 (c_now c - start) = c_now c - start.
Proof. unfold in_deadline, u64, OTSARDB_FORWARD_READ_TOTAL_MS. intros H. apply Z.mod_small. lia. Qed.

Lemma read_deadline_spec c : in_deadline c ->
  read_deadline_remaining start c =
    (Z.min OTSARDB_FORWARD_READ_IDLE_MS (start + OTSARDB_FORWARD_READ_TOTAL_MS - c_now c), c).
Proof.
  intros H. unfold read_deadline_remaining, mbind_, forward_now_ms, mret_. cbv zeta.
  rewrite deadline_elapsed by done. unfold in_deadline in H.
  unfold OTSARDB_FORWARD_READ_TOTAL_MS, OTSARDB_FORWARD_READ_IDLE_MS in *. f_equal.
  destruct (Z.leb_spec 30000 (c_now c - start)); [lia|].
  destruct (Z.leb_spec 5000 (30000 - (c_now c - start))); lia.
Qed.

(** A read under the deadline: the clock stays within it, and the data are the
    next bytes of the stream. *)
Lemma recv_by_deadline_spec size c r c' : in_deadline c -> 0 < size ->
  recv_by_deadline start size c = (r, c') ->
  c_now c <= c_now c' /\ in_deadline c' /\ same_output c c' /\
  forall data, r = Some data -> arriving (c_in c) = data ++ arriving (c_in c') /\ zlen data <= size.
Proof.
  intros Hd Hs. unfold recv_by_deadline, mbind_. rewrite read_deadline_spec by done.
  set (ms := Z.min _ _). assert (ms <= start + OTSARDB_FORWARD_READ_TOTAL_MS - c_now c) by lia.
  destruct (Z.leb_spec ms 0).
  { unfold mret_. intros [= <- <-]. split_and!; try done; unfold in_deadline in *; lia. }
  destruct (wait_readable ms c) as [ready c1] eqn:E. destruct (wait_readable_ms ms _ _ _ ltac:(lia) E) as (Hn & Ho & Hr).
  assert (in_deadline c1) by (unfold in_deadline in *; lia).
  destruct ready; [|unfold mret_; intros [= <- <-]; unfold in_deadline in *; split_and!; try done; lia].
  destruct (Hr eq_refl) as (Ha & d & x & q & E1). destruct (recv size c1) as [data c2] eqn:E2.
  destruct (recv_stream _ _ _ _ _ _ _ E1 Hs E2) as (Hd2 & Hn2 & Ho2 & Hz & _).
  unfold mret_. intros [= <- <-]. unfold in_deadline in *. split_and!; eauto with otsar; try lia.
  intros data' [= <-]. split; [|done]. by rewrite <- Ha.
Qed.

(** Headers that were read: the stream up to the first empty line, and what
    came with it. *)
Lemma read_headers_spec fuel cap buffer c r c' : in_deadline c ->
  find_bytes buffer crlf2 = None -> read_request_headers fuel cap start buffer c = (r, c') ->
  c_now c <= c_now c' /\ in_deadline c' /\ same_output c c' /\
  forall buffer' offset, r = Some (buffer', offset) ->
    buffer ++ arriving (c_in c) = buffer' ++ arriving (c_in c') /\ zlen buffer' < cap /\
    exists i, find_bytes buffer' crlf2 = Some i /\ offset = (i + 4)%nat.
Proof.
  revert buffer c. induction fuel as [|fuel IH]; intros buffer c Hd Hf; cbn [read_request_headers].
  { unfold mret_. intros [= <- <-]. by split_and!. }
  destruct (Z.leb_spec cap (zlen buffer + 1)).
  { unfold mret_. intros [= <- <-]. by split_and!. }
  unfold mbind_. destruct (recv_by_deadline _ _ c) as [o c1] eqn:E.
  apply recv_by_deadline_spec in E as (Hn & Hd1 & Ho & Hs); [|done|lia].
  destruct o as [[|x data]|].
  1, 3: unfold mret_; intros [= <- <-]; by split_and!.
  destruct (Hs _ eq_refl) as [Hst Hz]. destruct (find_bytes (buffer ++ x :: data) crlf2) as [i|] eqn:F.
  - unfold mret_. intros [= <- <-]. split_and!; try done. intros buffer' offset [= <- <-].
    rewrite zlen_app, Hst, app_assoc. split_and!; eauto; lia.
  - intros H1. destruct (IH _ _ Hd1 F H1) as (Hn2 & Hd2 & Ho2 & Hs2).
    split_and!; eauto with otsar; [lia|]. intros b o Hr. destruct (Hs2 _ _ Hr) as (H2 & H3).
    split; [|done]. by rewrite Hst, app_assoc.
Qed.

(** A body that was read: the next bytes of the stream, all of them. *)
Lemma read_body_spec fuel len body c r c' : in_deadline c -> zlen body <= len ->
  len - zlen body <= Z.of_nat fuel -> read_body fuel start len body c = (r, c') ->
  c_now c <= c_now c' /\ in_deadline c' /\ same_output c c' /\
  match r with
  | inl (status, _, _) => status = 400 \/ status = 408
  | inr sql => body ++ arriving (c_in c) = sql ++ arriving (c_in c') /\ zlen sql = len
  end.
Proof.
  revert body c. induction fuel as [|fuel IH]; intros body c Hd Hl Hf; cbn [read_body].
  { destruct (Z.leb_spec (len - zlen body) 0); [|lia]. unfold mret_. intros [= <- <-].
    split_and!; try done; lia. }
  destruct (Z.leb_spec (len - zlen body) 0).
  { unfold mret_. intros [= <- <-]. split_and!; try done; lia. }
  unfold mbind_. destruct (recv_by_deadline _ _ c) as [o c1] eqn:E.
  apply recv_by_deadline_spec in E as (Hn & Hd1 & Ho & Hs); [|done|lia].
  destruct o as [[|x data]|].
  1, 3: unfold mret_; intros [= <- <-]; split_and!; auto.
  destruct (Hs _ eq_refl) as [Hst Hz]. intros H1.
  apply IH in H1 as (Hn2 & Hd2 & Ho2 & Hs2); [..|done| |].
  - split_and!; eauto with otsar; [lia|]. destruct r as [[[? ?] ?]|sql]; [done|].
    by rewrite Hst, app_assoc.
  - rewrite zlen_app. lia.
  - rewrite zlen_app, zlen_cons. pose proof (zlen_nonneg data). lia.
Qed.
End Deadline.

(** ** Requests *)

(** [sql] is the statement of the stream: its headers are the bytes up to the
    first empty line, they are accepted, and they announce the length of the
    bytes that follow. *)
Definition requested (stream sql : bytes) : Prop :=
  exists zone rest, stream = zone ++ sql ++ rest /\ find_bytes zone crlf2 = Some (length zone - 4)%nat /\
    check_request zone = inr (zlen sql).

Definition is_refusal (status : Z) : bool := existsb (Z.eqb status) [400; 404; 405; 408].

Lemma check_request_cases zone :
  match check_request zone with
  | inl (status, _, _) => is_refusal status = true
  | inr len => 0 <= len <= OTSARDB_FORWARD_MAX_BODY
  end.
Proof.
  unfold check_request. destruct (parse_request_line zone 16 128) as [z [[m p]|]]; [|done].
  cbv zeta. destruct (negb (bytes_eqb m _)); [done|]. destruct (negb (bytes_eqb p _)); [done|].
  set (len := parse_content_length _). destruct (Z.ltb_spec len 0); [done|].
  destruct (Z.ltb_spec OTSARDB_FORWARD_MAX_BODY len); [done|lia].
Qed.

Lemma read_request_spec fuel c r c' : read_request_rounds fuel (c_now c) c = (r, c') ->
  c_now c <= c_now c' <= c_now c + OTSARDB_FORWARD_READ_TOTAL_MS /\ same_output c c' /\
  match r with
  | inl (status, _, _) => is_refusal status = true
  | inr sql => requested (arriving (c_in c)) sql
  end.
Proof.
  intros H. unfold read_request_rounds, mbind_ in H. destruct (read_request_headers _ _ _ _ c) as [o c1] eqn:E.
  assert (Hd : in_deadline (c_now c) c) by (unfold in_deadline, OTSARDB_FORWARD_READ_TOTAL_MS; lia).
  apply read_headers_spec in E as (Hn & Hd1 & Ho & Hs); [|done|done].
  destruct o as [[buffer offset]|].
  2:{ injection H as <- <-. unfold in_deadline in Hd1. split_and!; done || lia. }
  destruct (Hs _ _ eq_refl) as (Hst & Hz & i & Hi & ->). cbn [app] in Hst.
  pose proof (find_bytes_bound _ _ _ Hi) as Hb. change (length crlf2) with 4%nat in Hb.
  pose proof (check_request_cases (take (i + 4) buffer)) as Hc.
  destruct (check_request (take (i + 4) buffer)) as [[[st t] b]|len] eqn:Ec.
  { injection H as <- <-. unfold in_deadline in Hd1. split_and!; done || lia. }
  set (rest := drop (i + 4) buffer) in *.
  apply read_body_spec in H as (Hn2 & Hd2 & Ho2 & Hs2); [|done|unfold zlen; rewrite length_take; lia..].
  unfold in_deadline in Hd2. split; [lia|]. split; [eauto with otsar|]. destruct r as [[[st t] b]|sql].
  { unfold is_refusal. by destruct Hs2 as [-> | ->]. }
  destruct Hs2 as [Hs2 Hlen]. exists (take (i + 4) buffer).
  assert (find_bytes (take (i + 4) buffer) crlf2 = Some i) as Hf.
  { rewrite <- (take_drop (i + 4) buffer) in Hi. rewrite (find_bytes_cut _ _ _ _ Hi), length_take.
    change (length crlf2) with 4%nat. destruct (Nat.leb_spec (i + 4) ((i + 4) `min` length buffer)); [done|lia]. }
  rewrite Hf, length_take, Ec, Hlen. rewrite <- (take_drop (i + 4) buffer) in Hst. fold rest in Hst.
  rewrite Hst.
  destruct (Z.le_gt_cases (zlen rest) len) as [Hle|Hgt].
  - rewrite take_ge in Hs2 by (unfold zlen in *; lia). exists (arriving (c_in c')).
    rewrite <- app_assoc, Hs2. split_and!; [done|f_equal; lia|done].
  - assert (sql = take (Z.to_nat len) rest) as ->.
    { apply (f_equal (take (Z.to_nat len))) in Hs2. rewrite !take_app_le, take_take in Hs2.
      - rewrite (take_ge sql) in Hs2 by (unfold zlen in *; lia). by rewrite Nat.min_id in Hs2.
      - unfold zlen in *; lia.
      - rewrite length_take. unfold zlen in *; lia. }
    exists (drop (Z.to_nat len) rest ++ arriving (c_in c1)).
    rewrite <- app_assoc. rewrite (app_assoc (take (Z.to_nat len) rest)), take_drop.
    split_and!; [done|f_equal; lia|done].
Qed.

(** ** Answers *)

Lemma send_loop_spec fuel data c ok c' : (length data <= fuel)%nat -> send_loop fuel data c = (ok, c') ->
  c_now c <= c_now c' /\ c_now c' + sent_ms (c_sends c') = c_now c + sent_ms (c_sends c) /\
  c_in c' = c_in c /\ (c_sends c = [] -> ok = true /\ c_out c' = c_out c ++ data /\ c_sends c' = []).
Proof.
  revert data c. induction fuel as [|fuel IH]; intros data c Hl.
  { destruct data; [|cbn in Hl; lia]. intros [= <- <-]. rewrite app_nil_r. by split_and!. }
  destruct data as [|x data]; cbn [send_loop]; [intros [= <- <-]; rewrite app_nil_r; by split_and!|].
  set (l := x :: data) in *. unfold mbind_, send. assert (0 < zlen l) by (unfold l; rewrite zlen_cons; pose proof (zlen_nonneg data); lia).
  destruct (c_sends c) as [|[ms n] r] eqn:E.
  - destruct (Z.leb_spec (zlen l) 0); [lia|]. rewrite drop_ge by (unfold zlen; lia).
    destruct fuel; intros [= <- <-]; cbn [c_now c_sends c_in c_out sent_ms]; split_and!; done || lia.
  - destruct (Z.leb_spec (Z.min n (zlen l)) 0).
    + intros [= <- <-]. cbn [c_now c_sends c_in sent_ms]. split_and!; done || lia.
    + intros H1. apply IH in H1 as (? & Hm & Hi & _).
      * cbn [c_now c_sends c_in sent_ms] in *. split_and!; done || lia.
      * rewrite length_drop. lia.
Qed.

Lemma send_all_spec data c ok c' : send_all data c = (ok, c') ->
  c_now c <= c_now c' /\ c_now c' + sent_ms (c_sends c') = c_now c + sent_ms (c_sends c) /\
  c_in c' = c_in c /\ (c_sends c = [] -> ok = true /\ c_out c' = c_out c ++ data /\ c_sends c' = []).
Proof. by apply send_loop_spec. Qed.

Lemma send_all_fails ms n r data c : c_sends c = (ms, n) :: r -> n <= 0 -> data <> [] ->
  send_all data c = (false, mkConn (c_now c + Z.of_N ms) (c_in c) (c_out c) r).
Proof.
  intros Hs Hn Hd. destruct data as [|x data]; [done|]. unfold send_all. cbn [length send_loop].
  unfold mbind_, send. rewrite Hs. pose proof (zlen_nonneg (x :: data)).
  destruct (Z.leb_spec (Z.min n (zlen (x :: data))) 0); [|lia].
  replace (Z.to_nat (Z.min n (zlen (x :: data)))) with 0%nat by lia. cbn [take]. by rewrite app_nil_r.
Qed.

Definition http_response (status : Z) (status_text body : bytes) : bytes :=
  response_header status status_text (zlen body) ++ body.

Lemma respond_spec status text body c c' :
  zlen (response_header status text (zlen body)) < 512 ->
  send_simple_response status text body c = (tt, c') ->
  c_now c <= c_now c' /\ c_now c' + sent_ms (c_sends c') = c_now c + sent_ms (c_sends c) /\ c_in c' = c_in c /\
  (c_sends c = [] -> c_out c' = c_out c ++ http_response status text body).
Proof.
  intros Hh. unfold send_simple_response, mbind_. cbv zeta. apply Z.ltb_lt in Hh as ->.
  destruct (send_all _ c) as [ok1 c1] eqn:E1. destruct (send_all body c1) as [ok2 c2] eqn:E2.
  apply send_all_spec in E1 as (N1 & M1 & I1 & O1), E2 as (N2 & M2 & I2 & O2).
  intros [= <-]. split_and!; [lia|lia|congruence|]. intros Hs. destruct (O1 Hs) as (_ & Ho & Hs1).
  destruct (O2 Hs1) as (_ & Ho2 & _). rewrite Ho2, Ho. unfold http_response. by rewrite app_assoc.
Qed.

(** Every answer of the server has a short header. *)
Lemma dec_length n : zlen (dec n) <= 20.
Proof.
  assert (forall fuel n acc, zlen (dec_fuel fuel n acc) <= Z.of_nat fuel + zlen acc) as H.
  { induction fuel as [|fuel IH]; intros k acc; cbn [dec_fuel]; [lia|].
    case_match; rewrite ?zlen_cons; [lia|]. etrans; [apply IH|]. rewrite zlen_cons. lia. }
  unfold dec. etrans; [apply H|]. done.
Qed.

Lemma response_header_short status text len : zlen text <= 32 -> zlen (response_header status text len) < 512.
Proof.
  intros H. unfold response_header. rewrite !zlen_app. pose proof (dec_length status). pose proof (dec_length len).
  change (zlen (str "HTTP/1.1 ")) with 9. change (zlen (str " ")) with 1. change (zlen crlf) with 2.
  change (zlen (str "Content-Length: ")) with 16. change (zlen (str "Connection: close")) with 17.
  change (zlen crlf2) with 4. lia.
Qed.
