(* ===== verification/ForwardWire.v ===== *)
(** * Forwarding of writes: the two ends over a working connection

    The headers each end writes are the headers the other parses, and a stream
    that comes in time is read to its end, however it is cut into pieces. *)

From S2P Require Import Prelude CText Forward ForwardTheory.

(** ** Texts without a carriage return *)

Definition one_line (s : bytes) : bool := no_byte 13 s.

Definition ends_headers (h : bytes) : Prop :=
  (4 <= length h)%nat /\ find_bytes h crlf2 = Some (length h - 4)%nat.

Lemma ends_headers_last a : one_line a = true -> ends_headers (a ++ crlf2).
Proof.
  intros H. unfold ends_headers. rewrite length_app. change (length crlf2) with 4%nat. split; [lia|].
  unfold crlf2 at 2. rewrite find_bytes_skip by done. change [13; 10; 13; 10] with crlf2.
  rewrite <- (app_nil_r crlf2) at 1. rewrite find_bytes_at. cbn. f_equal. lia.
Qed.

Lemma ends_headers_line a c b : one_line a = true -> c <> 13 -> ends_headers (c :: b) ->
  ends_headers (a ++ crlf ++ c :: b).
Proof.
  intros H Hc [Hl Hf]. unfold ends_headers. rewrite !length_app. change (length crlf) with 2%nat. split; [lia|].
  unfold crlf2 in *. rewrite find_bytes_skip by done. unfold crlf. cbn [app].
  rewrite (find_bytes_cons 13), (find_bytes_cons 10), Hf.
  - cbn. f_equal. cbn in Hl. lia.
  - done.
  - cbn [prefixb]. rewrite !Z.eqb_refl. cbn [andb]. destruct (Z.eqb_spec 13 c); [congruence|done].
Qed.

Lemma prefixb_line needle a b : one_line needle = true ->
  prefixb needle (a ++ 13 :: b) = prefixb needle a.
Proof.
  unfold one_line. revert a. induction needle as [|x needle IH]; intros a H.
  { by destruct a. }
  rewrite no_byte_cons in H. prop_bools. destruct a as [|y a]; cbn [app prefixb].
  - destruct (Z.eqb_spec x 13); [congruence|done].
  - by rewrite IH.
Qed.

Lemma strstr_line needle a b : one_line needle = true -> strstr a needle = None ->
  strstr (a ++ 13 :: b) needle = strstr (13 :: b) needle.
Proof.
  intros Hn. induction a as [|x a IH]; [done|]. cbn [app]. intros H.
  unfold strstr in H; fold strstr in H. unfold strstr at 1; fold strstr.
  change (x :: a ++ 13 :: b) with ((x :: a) ++ 13 :: b). rewrite prefixb_line by done.
  destruct (prefixb needle (x :: a)); [done|]. by apply IH.
Qed.

Lemma strstr_at needle b : strstr (needle ++ b) needle = Some (needle ++ b).
Proof. destruct (needle ++ b) eqn:E; unfold strstr; fold strstr; by rewrite <- E, prefixb_app. Qed.

Lemma one_line_digits n : is_u64 n -> one_line (dec n) = true.
Proof. intros Hn. destruct (dec_spec n Hn) as (_ & H & _). by apply digits_no_byte. Qed.

Lemma strtol_dec n rest : 0 <= n < 2 ^ 63 ->
  (match rest with [] => true | c :: _ => negb (is_digit c) end) = true ->
  strtol (dec n ++ rest) = Some (n, rest).
Proof.
  intros Hn Hr. assert (Hu : is_u64 n) by (unfold is_u64, UINT64_MAX; lia).
  pose proof (strtoull_dec n rest Hu Hr) as H. destruct (dec_head n Hu) as (d & ds & E & Hd).
  destruct (dec_spec n Hu) as (Hne & Hds & Hv). unfold strtol.
  rewrite skip_while_stop by (rewrite E; cbn; by destruct (digit_not_space d Hd) as [-> _]).
  assert (Hm : (match dec n ++ rest with
                | 45 :: t => (true, t) | 43 :: t => (false, t)
                | _ => (false, dec n ++ rest) end) = (false, dec n ++ rest)).
  { rewrite E. cbn [app]. unfold is_digit in Hd. prop_bools. assert (d <> 45 /\ d <> 43) as [? ?] by lia.
    destruct d as [|p|p]; try done. do 6 (destruct p as [p|p|]; try done; try lia). }
  rewrite Hm, span_app by done. destruct (dec n) as [|d' ds'] eqn:E'; [done|].
  rewrite Hv. f_equal. f_equal. lia.
Qed.

(** The blank after the colon does not matter to [strtol]. *)
Lemma strtol_blank t : strtol (32 :: t) = strtol t.
Proof. done. Qed.

(** ** The request *)

(** The part of the request header after the request line. *)
Definition request_fields (host_port : bytes) (n : Z) : bytes :=
  str "Host: " ++ host_port ++ crlf ++
  str "Content-Length: " ++ dec n ++ crlf ++ str "Connection: close" ++ crlf2.

(** What the client checks of the address, and the search of the server relies
    on. *)
Definition plain_host (host_port : bytes) : Prop :=
  existsb unsafe_host_byte host_port = false /\ strstr host_port content_length_tag = None.

Lemma plain_host_bytes c host_port : unsafe_host_byte c = true ->
  existsb unsafe_host_byte host_port = false -> no_byte c host_port = true.
Proof.
  intros Hc. induction host_port as [|x t IH]; [done|]. cbn [existsb]. rewrite no_byte_cons. intros H. prop_bools.
  rewrite IH by done. destruct (Z.eqb_spec x c); [congruence|done].
Qed.

Lemma request_header_ends host_port n : plain_host host_port -> is_u64 n ->
  ends_headers (request_header host_port n).
Proof.
  intros [Hh _] Hn. unfold request_header.
  assert (one_line host_port = true) by by apply plain_host_bytes.
  change (str "Host: ") with (72 :: str "ost: "). cbn [app].
  apply (ends_headers_line _ 72); [done|done|]. change (72 :: ?x ++ ?y) with ((72 :: x) ++ y).
  rewrite app_assoc. change (str "Content-Length: ") with (67 :: str "ontent-Length: "). cbn [app].
  apply (ends_headers_line (72 :: str "ost: " ++ host_port) 67).
  { change (72 :: str "ost: " ++ host_port) with (str "Host: " ++ host_port). unfold one_line. rewrite no_byte_app.
    apply andb_true_intro. by split. }
  { done. }
  change (67 :: ?x ++ ?y) with ((67 :: x) ++ y). rewrite app_assoc.
  change (str "Connection: close") with (67 :: str "onnection: close"). cbn [app].
  apply (ends_headers_line (67 :: str "ontent-Length: " ++ dec n) 67); [|done|].
  { change (67 :: str "ontent-Length: " ++ dec n) with (str "Content-Length: " ++ dec n). unfold one_line.
    rewrite no_byte_app. apply andb_true_intro. split; [done|]. by apply one_line_digits. }
  by apply (ends_headers_last (67 :: str "onnection: close")).
Qed.

Lemma request_fields_length host_port n : plain_host host_port -> 0 <= n < 2 ^ 63 ->
  parse_content_length (request_fields host_port n) = n.
Proof.
  intros [Hh Hs] Hn. assert (Hu : is_u64 n) by (unfold is_u64, UINT64_MAX; lia). unfold parse_content_length.
  rewrite cstr_no_nul.
  2:{ unfold request_fields. rewrite !no_nul_app, dec_no_nul by done. unfold no_nul.
      rewrite (plain_host_bytes 0 host_port) by done. done. }
  assert (strstr (request_fields host_port n) content_length_tag =
          Some (content_length_tag ++ 32 :: dec n ++ crlf ++ str "Connection: close" ++ crlf2)) as ->.
  { unfold request_fields. rewrite app_assoc. unfold crlf at 1. cbn [app]. rewrite strstr_line.
    - change (str "Content-Length: " ++ dec n ++ crlf ++ str "Connection: close" ++ crlf2)
        with (content_length_tag ++ 32 :: dec n ++ crlf ++ str "Connection: close" ++ crlf2).
      generalize (32 :: dec n ++ crlf ++ str "Connection: close" ++ crlf2). intros t.
      transitivity (strstr (content_length_tag ++ t) content_length_tag); [reflexivity|apply strstr_at].
    - done.
    - rewrite <- Hs. reflexivity. }
  change (drop 15 (content_length_tag ++ ?t)) with t.
  destruct (dec_head n Hu) as (d & ds & E & Hd). cbn [skip_while].
  change (is_blank 32) with true. cbn match. rewrite skip_while_stop.
  - rewrite strtol_dec by done. destruct (Z.ltb_spec n 0); [lia|done].
  - rewrite E. cbn. by destruct (digit_not_space d Hd) as [_ ->].
Qed.

(** The server accepts the header the client writes, with its length. *)
Lemma request_header_checked host_port n : plain_host host_port -> 0 <= n <= OTSARDB_FORWARD_MAX_BODY ->
  check_request (request_header host_port n) = inr n.
Proof.
  intros Hp Hn. pose proof Hp as [Hh _].
  change (request_header host_port n) with (str "POST /forward HTTP/1.1" ++ crlf ++ request_fields host_port n).
  assert (Hf : parse_content_length (request_fields host_port n) = n)
    by (apply request_fields_length; [done|unfold OTSARDB_FORWARD_MAX_BODY in Hn; lia]).
  assert (Hz : no_nul (request_fields host_port n) = true).
  { unfold request_fields. rewrite !no_nul_app, dec_no_nul by (unfold is_u64, UINT64_MAX, OTSARDB_FORWARD_MAX_BODY in *; lia).
    unfold no_nul. rewrite (plain_host_bytes 0 host_port) by done. done. }
  generalize dependent (request_fields host_port n). intros t Hf Hz.
  assert (parse_request_line (str "POST /forward HTTP/1.1" ++ crlf ++ t) 16 128 =
          (str "POST" ++ 0 :: str "/forward" ++ 0 :: str "HTTP/1.1" ++ crlf ++ t, Some (str "POST", str "/forward"))) as Hl.
  { unfold parse_request_line. rewrite cstr_no_nul by (rewrite !no_nul_app, Hz; done). reflexivity. }
  unfold check_request. rewrite Hl. cbv zeta. lit_tests. cbn [negb].
  change (find_bytes (str "POST" ++ 0 :: str "/forward" ++ 0 :: str "HTTP/1.1" ++ crlf ++ t) crlf) with (Some 22%nat).
  cbn match. change (drop (22 + 2) (str "POST" ++ 0 :: str "/forward" ++ 0 :: str "HTTP/1.1" ++ crlf ++ t)) with t.
  rewrite Hf. destruct (Z.ltb_spec n 0); [lia|].
  destruct (Z.ltb_spec OTSARDB_FORWARD_MAX_BODY n); [lia|done].
Qed.

(** ** Streams that come in time *)

(** Pieces that are at most [limit] milliseconds apart, up to the end of the
    stream. *)
Fixpoint pieces_ok (limit : Z) (arrivals : list arrival) : bool :=
  match arrivals with
  | [] | Data _ [] :: _ => true
  | Data d _ :: r => (Z.of_N d <=? limit) && pieces_ok limit r
  | SelectError _ :: _ => false
  end.

Fixpoint total_delay (arrivals : list arrival) : Z :=
  match arrivals with
  | Data d (_ :: _) :: r => Z.of_N d + total_delay r
  | _ => 0
  end.

Lemma total_delay_nonneg arrivals : 0 <= total_delay arrivals.
Proof. induction arrivals as [|[d [|x data]|d] r IH]; cbn; lia. Qed.

(** The next piece of such a stream is there when one waits for it. *)
Lemma next_piece limit ms size c : pieces_ok limit (c_in c) = true -> arriving (c_in c) <> [] -> 0 < size ->
  Z.min limit (total_delay (c_in c)) <= ms ->
  exists data c1 c2, wait_readable ms c = (true, c1) /\ recv size c1 = (data, c2) /\ data <> [] /\
    zlen data <= size /\ arriving (c_in c) = data ++ arriving (c_in c2) /\ pieces_ok limit (c_in c2) = true /\
    c_now c <= c_now c2 /\ c_now c2 + total_delay (c_in c2) = c_now c + total_delay (c_in c) /\ same_output c c2.
Proof.
  intros Hp Ha Hs Hm. unfold wait_readable. destruct (c_in c) as [|[d [|x data]|d] r] eqn:E; [done|done| |done].
  cbn [pieces_ok total_delay arrival_after] in *. apply andb_prop in Hp as [Hd Hp]. apply Z.leb_le in Hd.
  pose proof (total_delay_nonneg r). destruct (Z.ltb_spec ms (Z.of_N d)); [lia|].
  set (c1 := elapse (Z.of_N d) (Data 0 (x :: data) :: r) c). destruct (recv size c1) as [got c2] eqn:E2.
  destruct (recv_stream size c1 got c2 0 (x :: data) r eq_refl Hs E2) as (Hst & Hn & Ho & Hz & He).
  exists got, c1, c2. assert (got <> []) by (by rewrite He). split_and!; try done.
  - unfold recv in E2. cbn [c_in elapse c1] in E2. injection E2 as <- <-. cbn [c_in].
    destruct (drop (Z.to_nat size) (x :: data)); [done|]. cbn. by rewrite Hp, (proj2 (Z.leb_le _ _)) by lia.
  - rewrite Hn. cbn. lia.
  - rewrite Hn. unfold recv in E2. cbn [c_in elapse c1] in E2. injection E2 as <- <-. cbn [c_in c_now elapse c1].
    destruct (drop (Z.to_nat size) (x :: data)); cbn; lia.
Qed.

(** The rest of a request comes in time: no long pause, and before the
    deadline. *)
Definition in_time (start : Z) (c : conn) : Prop :=
  start <= c_now c /\ pieces_ok OTSARDB_FORWARD_READ_IDLE_MS (c_in c) = true /\
  c_now c + total_delay (c_in c) < start + OTSARDB_FORWARD_READ_TOTAL_MS.

Section Server.
Context (start : Z).

Lemma recv_in_time size c : in_time start c -> arriving (c_in c) <> [] -> 0 < size ->
  exists data c', recv_by_deadline start size c = (Some data, c') /\ data <> [] /\ zlen data <= size /\
    arriving (c_in c) = data ++ arriving (c_in c') /\ in_time start c' /\ same_output c c'.
Proof.
  intros (Hs & Hp & Ht) Ha Hz. pose proof (total_delay_nonneg (c_in c)).
  unfold recv_by_deadline, mbind_. rewrite read_deadline_spec by (unfold in_deadline; lia).
  set (ms := Z.min _ _). unfold OTSARDB_FORWARD_READ_IDLE_MS in *. destruct (Z.leb_spec ms 0); [lia|].
  destruct (next_piece _ ms size c Hp Ha Hz ltac:(lia)) as (data & c1 & c2 & -> & -> & Hd & Hl & Hst & Hp2 & Hn & Ht2 & Ho).
  exists data, c2. unfold in_time, OTSARDB_FORWARD_READ_IDLE_MS. split_and!; done || lia.
Qed.

Lemma read_headers_complete fuel cap buffer c head body : in_time start c ->
  buffer ++ arriving (c_in c) = head ++ body -> ends_headers head ->
  (length buffer < length head)%nat -> zlen head < cap -> (length head - length buffer <= fuel)%nat ->
  exists buffer' c', read_request_headers fuel cap start buffer c = (Some (buffer', length head), c') /\
    buffer' ++ arriving (c_in c') = head ++ body /\ (length head <= length buffer')%nat /\
    in_time start c' /\ same_output c c'.
Proof.
  intros Ht Hst [H4 Hf] Hb Hc. revert buffer c Ht Hst Hb.
  induction fuel as [|fuel IH]; intros buffer c Ht Hst Hb Hfu; [lia|]. cbn [read_request_headers].
  unfold zlen in *. destruct (Z.leb_spec cap (Z.of_nat (length buffer) + 1)); [lia|]. fold (zlen buffer).
  assert (arriving (c_in c) <> []) as Ha.
  { intros E. rewrite E, app_nil_r in Hst. subst buffer. rewrite length_app in Hb. lia. }
  destruct (recv_in_time (cap - zlen buffer - 1) c Ht Ha ltac:(unfold zlen; lia))
    as (data & c1 & E & Hd & _ & Hda & Ht1 & Ho1).
  unfold mbind_. rewrite E. destruct data as [|x data]; [done|].
  rewrite Hda, app_assoc in Hst. pose proof (find_bytes_app _ body _ _ Hf) as Hf'. rewrite <- Hst in Hf'.
  rewrite (find_bytes_cut _ _ _ _ Hf'). change (length crlf2) with 4%nat.
  destruct (Nat.leb_spec (length head - 4 + 4) (length (buffer ++ x :: data))) as [Hle|Hgt].
  - exists (buffer ++ x :: data), c1. unfold mret_. split_and!; try done; [|lia].
    replace (length head - 4 + 4)%nat with (length head) by lia. done.
  - assert (length (buffer ++ x :: data) = length buffer + S (length data))%nat as Hlen by (rewrite length_app; done).
    destruct (IH (buffer ++ x :: data) c1 Ht1 Hst ltac:(lia) ltac:(lia)) as (b' & c2 & Hr & Hs2 & Hl2 & Ht2 & Ho2).
    exists b', c2. split_and!; eauto with otsar.
Qed.

Lemma read_body_complete fuel body c sql rest : in_time start c ->
  body ++ arriving (c_in c) = sql ++ rest -> (length body <= length sql)%nat ->
  (length sql - length body <= fuel)%nat ->
  exists c', read_body fuel start (zlen sql) body c = (inr sql, c') /\ same_output c c'.
Proof.
  revert body c. induction fuel as [|fuel IH]; intros body c Ht Hst Hb Hf; cbn [read_body].
  all: destruct (Z.leb_spec (zlen sql - zlen body) 0).
  1, 3: unfold zlen in *; apply app_inj_1 in Hst as [-> _]; [|lia]; exists c; by split.
  { unfold zlen in *. lia. }
  assert (arriving (c_in c) <> []) as Ha.
  { intros E. rewrite E, app_nil_r in Hst. subst body. unfold zlen in *. rewrite length_app in *. lia. }
  destruct (recv_in_time (zlen sql - zlen body) c Ht Ha ltac:(lia)) as (data & c1 & E & Hd & Hl & Hda & Ht1 & Ho1).
  unfold mbind_. rewrite E. destruct data as [|x data]; [done|].
  rewrite Hda, app_assoc in Hst.
  assert (length (body ++ x :: data) = length body + S (length data))%nat as Hlen by (rewrite length_app; done).
  rewrite zlen_cons in Hl. unfold zlen in Hl.
  destruct (IH (body ++ x :: data) c1 Ht1 Hst ltac:(lia) ltac:(lia)) as (c2 & Hr & Ho2).
  exists c2. split; [done|]. eauto with otsar.
Qed.
End Server.

(** A request of the protocol that comes in time is read, whatever follows. *)
Lemma read_request_complete fuel c head sql rest : in_time (c_now c) c ->
  arriving (c_in c) = head ++ sql ++ rest -> ends_headers head -> check_request head = inr (zlen sql) ->
  zlen head < OTSARDB_FORWARD_MAX_HEADERS -> (length head <= fuel)%nat ->
  exists c', read_request_rounds fuel (c_now c) c = (inr sql, c') /\ same_output c c'.
Proof.
  intros Ht Hst Hh Hc Hcap Hf. pose proof Hh as [H4 _].
  destruct (read_headers_complete (c_now c) fuel OTSARDB_FORWARD_MAX_HEADERS [] c head (sql ++ rest))
    as (buffer & c1 & E & Hs1 & Hl & Ht1 & Ho1); [done|done|done|cbn; lia|done|cbn; lia|].
  unfold read_request_rounds, mbind_. rewrite E.
  assert (exists tail, buffer = head ++ tail /\ tail ++ arriving (c_in c1) = sql ++ rest) as (tail & -> & Hta).
  { exists (drop (length head) buffer). rewrite <- (take_drop (length head) buffer), <- app_assoc in Hs1.
    apply app_inj_1 in Hs1 as [Hx Hy]; [|rewrite length_take; lia]. split; [|done].
    rewrite <- Hx at 1. by rewrite take_drop. }
  rewrite take_app_length, Hc, drop_app_length.
  replace (Z.to_nat (zlen sql)) with (length sql) by (unfold zlen; lia).
  destruct (Nat.le_gt_cases (length tail) (length sql)) as [Hle|Hgt].
  - rewrite take_ge by done. destruct (read_body_complete (c_now c) (length sql) tail c1 sql rest) as (c2 & Hr & Ho2);
      [done|done|done|lia|]. exists c2. split; [done|]. eauto with otsar.
  - assert (take (length sql) tail = sql) as ->.
    { apply (f_equal (take (length sql))) in Hta. rewrite take_app_le, take_app_length in Hta by lia. done. }
    exists c1. split; [|done]. destruct (length sql); cbn [read_body]; rewrite Z.sub_diag; done.
Qed.

(** ** The response *)

Lemma strstr_skip_byte c needle a b : no_byte c a = true ->
  strstr (a ++ b) (c :: needle) = strstr b (c :: needle).
Proof.
  induction a as [|x a IH]; [done|]. rewrite no_byte_cons. intros H. prop_bools. cbn [app].
  unfold strstr at 1; fold strstr. cbn [prefixb]. destruct (Z.eqb_spec c x); [congruence|]. by apply IH.
Qed.

(** A reason phrase: short, on one line, and not the name of the header. *)
Definition plain_text (text : bytes) : Prop :=
  one_line text = true /\ no_nul text = true /\ strstr text content_length_tag = None /\ zlen text <= 32.

Definition status_line (status : Z) (text : bytes) : bytes :=
  str "HTTP/1.1 " ++ dec status ++ str " " ++ text.

Section Response.
Context (status : Z) (text : bytes).
Hypothesis (Hstatus : 0 <= status < 2 ^ 31) (Htext : plain_text text).

Let Hu : is_u64 status.
Proof. unfold is_u64, UINT64_MAX. lia. Qed.

Lemma status_one_line : one_line (status_line status text) = true.
Proof.
  unfold status_line, one_line. rewrite !no_byte_app. destruct Htext as (H1 & _).
  pose proof (one_line_digits _ Hu) as H2. unfold one_line in *. by rewrite H1, H2.
Qed.

Lemma status_no_nul : no_nul (status_line status text) = true.
Proof. unfold status_line. rewrite !no_nul_app, dec_no_nul by done. destruct Htext as (_ & -> & _). done. Qed.

Lemma response_header_eq n : response_header status text n =
  status_line status text ++ crlf ++ content_length_tag ++ 32 :: dec n ++ crlf ++ str "Connection: close" ++ crlf2.
Proof. unfold response_header, status_line. rewrite <- !app_assoc. reflexivity. Qed.

Lemma response_header_ends n : is_u64 n -> ends_headers (response_header status text n).
Proof.
  intros Hn. rewrite response_header_eq. change content_length_tag with (67 :: str "ontent-Length:"). cbn [app].
  apply (ends_headers_line _ 67); [apply status_one_line|done|].
  change (67 :: str "ontent-Length:" ++ 32 :: dec n ++ crlf ++ str "Connection: close" ++ crlf2)
    with (str "Content-Length: " ++ dec n ++ crlf ++ 67 :: str "onnection: close" ++ crlf2).
  rewrite app_assoc. apply (ends_headers_line _ 67); [|done|].
  - unfold one_line. rewrite no_byte_app. by rewrite (one_line_digits n Hn : no_byte 13 (dec n) = true).
  - by apply (ends_headers_last (67 :: str "onnection: close")).
Qed.

Lemma response_header_parsed n rest cap : no_nul rest = true -> 0 <= n <= cap -> n < 2 ^ 63 ->
  parse_response_headers (response_header status text n ++ rest) (length (response_header status text n)) cap =
    Some (status, n).
Proof.
  intros Hr Hn Hb. assert (Hun : is_u64 n) by (unfold is_u64, UINT64_MAX; lia).
  unfold parse_response_headers. rewrite take_app_length.
  assert (find_bytes (response_header status text n) crlf = Some (length (status_line status text))) as ->.
  { rewrite response_header_eq. change (find_bytes ?h crlf) with (find_bytes h [13; 10]).
    rewrite find_bytes_skip by apply status_one_line. rewrite (find_bytes_at [13; 10]). cbn. f_equal. lia. }
  change (default 0%nat (Some ?x)) with x. cbv zeta. assert (length (status_line status text) < 64)%nat as Hl.
  { destruct Htext as (_ & _ & _ & Ht). pose proof (dec_length status). unfold status_line. unfold zlen in *.
    rewrite !length_app. change (length (str "HTTP/1.1 ")) with 9%nat. change (length (str " ")) with 1%nat. lia. }
  assert (length (status_line status text) <> 0)%nat as H0.
  { unfold status_line. rewrite length_app. change (length (str "HTTP/1.1 ")) with 9%nat. lia. }
  apply Nat.eqb_neq in H0 as ->. destruct (Z.leb_spec 64 (Z.of_nat (length (status_line status text)))); [lia|].
  cbn [orb]. f_equal. f_equal.
  - rewrite response_header_eq, <- app_assoc, take_app_length, cstr_no_nul by apply status_no_nul.
    unfold status_line. change (split_at 32 (str "HTTP/1.1 " ++ ?x)) with (Some (str "HTTP/1.1", x)).
    cbn match. rewrite strtol_dec by (lia || done). unfold to_int. rewrite Z.mod_small; lia.
  - rewrite cstr_no_nul.
    2:{ rewrite response_header_eq, !no_nul_app, status_no_nul, Hr.
        change (32 :: ?x) with (str " " ++ x). rewrite !no_nul_app, dec_no_nul by done. done. }
    assert (strstr (response_header status text n ++ rest) content_length_tag =
            Some (content_length_tag ++ 32 :: dec n ++ crlf ++ str "Connection: close" ++ crlf2 ++ rest)) as ->.
    { rewrite response_header_eq, <- !app_assoc. unfold crlf at 1. cbn [app]. rewrite strstr_line.
      - rewrite <- !app_assoc. generalize (32 :: dec n ++ crlf ++ str "Connection: close" ++ crlf2 ++ rest). intros u.
        transitivity (strstr (content_length_tag ++ u) content_length_tag); [reflexivity|apply strstr_at].
      - done.
      - unfold status_line, content_length_tag. change (str "Content-Length:") with (67 :: str "ontent-Length:").
        rewrite strstr_skip_byte, strstr_skip_byte, strstr_skip_byte; [by apply Htext|done| |done].
        destruct (dec_spec status Hu) as (_ & Hd & _). by apply digits_no_byte. }
    change (drop 15 (content_length_tag ++ ?t)) with t. rewrite strtol_blank, strtol_dec by (lia || done).
    destruct (Z.leb_spec 0 n); [|lia]. destruct (Z.leb_spec n cap); [done|lia].
Qed.
End Response.

(** ** Reading the response *)

Section Client.
Context (status : Z) (text body : bytes) (cap : Z).
Hypothesis (Hstatus : 0 < status < 2 ^ 31) (Htext : plain_text text) (Hbody : no_nul body = true).
Let head := response_header status text (zlen body).
Hypothesis (Hfits : zlen head + zlen body < cap) (Hcap : cap < 2 ^ 63).

(** The client has read a part of the response. *)
Definition reading_ok (r : reading) (rest : bytes) : Prop :=
  rd_buffer r ++ rest = head ++ body /\
  match rd_header_end r with
  | None => (length (rd_buffer r) < length head)%nat /\ rd_status r = 0 /\ rd_body_len r = 0
  | Some h => h = length head /\ (h <= length (rd_buffer r))%nat /\ rd_status r = status /\ rd_body_len r = zlen body
  end.

Lemma head_ends : ends_headers head.
Proof.
  apply response_header_ends; [lia|done|]. pose proof (zlen_nonneg body). pose proof (zlen_nonneg head).
  unfold is_u64, UINT64_MAX. lia.
Qed.

(** All of it was read. *)
Lemma reading_done r : reading_ok r [] -> response_result r = Some (status, body).
Proof.
  intros [Hb H]. rewrite app_nil_r in Hb. unfold response_result. rewrite Hb in *.
  destruct (rd_header_end r) as [h|]; [|rewrite length_app in H; lia].
  destruct H as (-> & _ & -> & ->). rewrite drop_app_length, Z.ltb_irrefl, andb_false_r.
  by rewrite (proj2 (Z.ltb_lt 0 status)) by lia.
Qed.

Lemma reading_complete r rest : reading_ok r rest -> response_complete r = true -> rest = [].
Proof.
  intros [Hb H] Hc. unfold response_complete in Hc. destruct (rd_header_end r) as [h|]; [|done].
  destruct H as (-> & _ & _ & Hl). rewrite Hl in Hc. prop_bools. apply (f_equal length) in Hb.
  rewrite !length_app in Hb. unfold zlen in *. destruct rest; [done|]. cbn in Hb. lia.
Qed.

Lemma no_nul_cut a b c : a ++ b = head ++ c -> (length head <= length a)%nat -> no_nul c = true ->
  exists t, a = head ++ t /\ no_nul t = true.
Proof.
  intros E Hl Hc. exists (drop (length head) a). rewrite <- (take_drop (length head) a), <- app_assoc in E.
  apply app_inj_1 in E as [E1 E2]; [|rewrite length_take; lia]. split.
  - rewrite <- E1 at 1. by rewrite take_drop.
  - rewrite <- E2, no_nul_app in Hc. by prop_bools.
Qed.

Lemma reading_step r data rest : reading_ok r (data ++ rest) ->
  let '(r', go) := read_response_step cap r data in
  reading_ok r' rest /\ rd_buffer r' = rd_buffer r ++ data /\ go = negb (response_complete r').
Proof.
  intros [Hb H]. rewrite app_assoc in Hb. unfold read_response_step. pose proof head_ends as [H4 Hf].
  destruct (rd_header_end r) as [h|] eqn:E.
  { split; [|done]. split; [done|]. cbn. destruct H as (? & ? & ? & ?). split_and!; try done.
    rewrite length_app. lia. }
  destruct H as (Hl & Hs & Hn). pose proof (find_bytes_app _ body _ _ Hf) as Hf'. rewrite <- Hb in Hf'.
  rewrite (find_bytes_cut _ _ _ _ Hf'). change (length crlf2) with 4%nat.
  destruct (Nat.leb_spec (length head - 4 + 4) (length (rd_buffer r ++ data))) as [Hle|Hgt].
  - replace (length head - 4 + 4)%nat with (length head) in * by lia.
    destruct (no_nul_cut _ _ _ Hb Hle Hbody) as (t & Et & Ht). rewrite Et.
    pose proof (zlen_nonneg head). pose proof (zlen_nonneg body).
    assert (parse_response_headers (head ++ t) (length head) cap = Some (status, zlen body)) as ->
      by (apply response_header_parsed; done || lia).
    split; [|done]. split; cbn; [by rewrite <- Et|]. rewrite length_app. split_and!; done || lia.
  - split; [|done]. split; [done|]. cbn. split_and!; done || lia.
Qed.

Lemma read_response_complete fuel ms r c : pieces_ok ms (c_in c) = true ->
  reading_ok r (arriving (c_in c)) -> (length (arriving (c_in c)) < fuel)%nat ->
  response_result (fst (read_response fuel ms cap r c)) = Some (status, body).
Proof.
  revert r c. induction fuel as [|fuel IH]; intros r c Hp Hr Hf; [lia|]. cbn [read_response].
  assert (zlen (rd_buffer r) + zlen (arriving (c_in c)) = zlen head + zlen body) as Hlen.
  { destruct Hr as [Hb _]. rewrite <- !zlen_app. by rewrite Hb. }
  destruct (Z.leb_spec cap (zlen (rd_buffer r))); [pose proof (zlen_nonneg (arriving (c_in c))); lia|].
  destruct (decide (arriving (c_in c) = [])) as [Ea|Ha].
  - rewrite Ea in Hr. unfold mbind_, wait_readable. destruct (c_in c) as [|[d [|x data]|d] q]; try done.
    + by apply reading_done.
    + cbn [arrival_after]. destruct (Z.ltb_spec ms (Z.of_N d)); cbn [negb]; [by apply reading_done|].
      unfold recv. cbn [c_in elapse]. destruct (Z.to_nat _); by apply reading_done.
  - destruct (next_piece ms ms (cap - zlen (rd_buffer r) - 1) c Hp Ha) as
      (data & c1 & c2 & E1 & E2 & Hd & _ & Hst & Hp2 & _); [|lia|].
    { destruct (arriving (c_in c)); [done|]. rewrite zlen_cons in Hlen. pose proof (zlen_nonneg l). lia. }
    unfold mbind_. rewrite E1. cbn [negb]. rewrite E2. rewrite Hst in Hr, Hf. apply reading_step in Hr.
    destruct (read_response_step cap r data) as [r' go]. destruct Hr as (Hr & Hb' & Hgo).
    destruct data as [|x data]; [done|]. subst go. destruct (response_complete r') eqn:Ec; cbn [negb].
    + apply reading_done. by rewrite (reading_complete _ _ Hr Ec) in Hr.
    + apply IH; [done|done|]. rewrite length_app in Hf. cbn in Hf. lia.
Qed.
End Client.

Lemma read_response_out fuel ms cap r c : c_out (snd (read_response fuel ms cap r c)) = c_out c.
Proof.
  revert r c. induction fuel as [|fuel IH]; intros r c; cbn [read_response]; [done|].
  destruct (cap <=? zlen (rd_buffer r)); [done|]. unfold mbind_.
  assert (c_out (snd (wait_readable ms c)) = c_out c) as H1.
  { unfold wait_readable. destruct (c_in c) as [|a q]; [done|]. destruct (ms <? _); [done|]. by destruct a. }
  destruct (wait_readable ms c) as [[|] c1]; [|done]. cbn [negb snd] in *.
  assert (forall n, c_out (snd (recv n c1)) = c_out c1) as H2.
  { intros n. unfold recv. by destruct (c_in c1) as [|[d x|d] q]. }
  specialize (H2 (cap - zlen (rd_buffer r) - 1)). destruct (recv _ c1) as [[|x data] c2]; cbn in *; [congruence|].
  destruct (read_response_step cap r (x :: data)) as [r' [|]]; [rewrite IH; congruence|cbn; congruence].
Qed.

(** What a client sends, when its sends succeed. *)
Lemma client_sends resolved host_port sql cap ms c r c' : c_sends c = [] ->
  otsardb_forward_split_host_port host_port 256 <> None -> client_connect resolved = true -> cap <> 0 ->
  zlen (request_header host_port (zlen sql)) < 512 ->
  otsardb_forward_client_post resolved host_port sql cap ms c = (r, c') ->
  c_out c' = c_out c ++ request_header host_port (zlen sql) ++ sql /\
  exists c1, c_in c1 = c_in c /\
    r = response_result (fst (read_response (Z.to_nat cap) (if 0 <? ms then ms else OTSARDB_FORWARD_TIMEOUT_MS)
                                cap (mkReading [] None 0 0) c1)).
Proof.
  intros Hs Hsp Hc Hcap Hh. unfold otsardb_forward_client_post.
  destruct (zlen host_port =? 0) eqn:E0.
  { exfalso. apply Hsp. unfold otsardb_forward_split_host_port. by rewrite E0. }
  apply Z.eqb_neq in Hcap as ->. destruct (otsardb_forward_split_host_port host_port 256); [|done].
  rewrite Hc. cbn [orb negb]. apply Z.ltb_lt in Hh as ->. cbn [negb]. unfold mbind_.
  destruct (send_all _ c) as [ok1 c1] eqn:E1. apply send_all_spec in E1 as (_ & _ & I1 & O1).
  destruct (O1 Hs) as (-> & Ho1 & Hs1). cbn [negb].
  destruct (send_all sql c1) as [ok2 c2] eqn:E2. apply send_all_spec in E2 as (_ & _ & I2 & O2).
  destruct (O2 Hs1) as (-> & Ho2 & Hs2). cbn [negb].
  destruct (read_response _ _ _ _ c2) as [rd c3] eqn:E3. unfold mret_. intros [= <- <-]. split.
  - pose proof (read_response_out (Z.to_nat cap) (if 0 <? ms then ms else OTSARDB_FORWARD_TIMEOUT_MS) cap
                  (mkReading [] None 0 0) c2) as Ho3.
    rewrite E3 in Ho3. cbn [snd] in Ho3. by rewrite Ho3, Ho2, Ho1, app_assoc.
  - exists c2. rewrite E3. split; [congruence|done].
Qed.
