(* ===== verification/ForwardProps.v ===== *)
(** * Forwarding of writes: the theorems

    What the server does to the database and how long it may take, whatever the
    peer sends; the round trip of a statement and its answer over a working
    connection; and the defects of the protocol, on concrete connections. *)

From S2P Require Import Prelude CText Forward ForwardTheory ForwardWire.

Section Server.
Context {D : Type} (handler : bytes -> M D (Z * bytes)) (handler_ms : bytes -> D -> N).

(** The answer to a request: the refusal, or what the handler returned. *)
Definition reply (status : Z) (response : bytes) : bytes :=
  let '(status, text, body) := answer status (cstr response) in http_response status text body.

(** The effect of one connection on the database: refused, or one statement. *)
Definition served (stream : bytes) (d d' : D) (sent : bytes) : Prop :=
  (exists status text body, is_refusal status = true /\ d' = d /\ sent = http_response status text body) \/
  (exists sql, requested stream sql /\ d' = snd (handler sql d) /\
     sent = reply (fst (fst (handler sql d))) (snd (fst (handler sql d)))).

(** The time a connection takes from [start] on, its sends apart: the reading
    takes 30 seconds at most, then the statement, if there is one, its own time. *)
Definition held (stream : bytes) (d d' : D) (start finish : Z) : Prop :=
  (d' = d /\ finish <= start + OTSARDB_FORWARD_READ_TOTAL_MS) \/
  (exists sql, requested stream sql /\ d' = snd (handler sql d) /\
     finish <= start + OTSARDB_FORWARD_READ_TOTAL_MS + Z.of_N (handler_ms sql d)).

Lemma refusal_texts fuel c refusal c' : read_request_rounds fuel (c_now c) c = (inl refusal, c') ->
  zlen (snd (fst refusal)) <= 32.
Proof.
  unfold read_request_rounds, mbind_. destruct (read_request_headers _ _ _ _ c) as [[[buffer offset]|] c1].
  2:{ intros [= <- <-]. by vm_compute. }
  destruct (check_request (take offset buffer)) as [r|len] eqn:E.
  - intros [= <- <-]. unfold check_request in E. destruct (parse_request_line _ 16 128) as [z [[m p]|]].
    2:{ injection E as <-. by vm_compute. }
    cbv zeta in E. repeat case_if_in E; first [discriminate E | injection E as <-; by vm_compute].
  - set (body := take _ _). clearbody body. generalize (Z.to_nat len). intros k. revert body c1.
    induction k as [|k IH]; intros body c1; cbn [read_body]; (destruct (len - zlen body <=? 0); [done|]); [done|].
    unfold mbind_. destruct (recv_by_deadline _ _ c1) as [[[|x data]|] c2].
    1, 3: intros [= <- <-]; by vm_compute.
    apply IH.
Qed.

Lemma answer_text status response : zlen (snd (fst (answer status response))) <= 32.
Proof. unfold answer. case_match; [done|]. by case_match. Qed.

(** A connection: its effect, its answer and its time. *)
Lemma handle_connection_spec d c : let '(_, (d', c')) := handle_connection handler handler_ms (d, c) in
  held (arriving (c_in c)) d d' (c_now c) (c_now c' - sent_ms (c_sends c)) /\
  exists sent, served (arriving (c_in c)) d d' sent /\ (c_sends c = [] -> c_out c' = c_out c ++ sent).
Proof.
  unfold handle_connection, mbind_, on_conn at 1, forward_now_ms. cbn [snd fst].
  unfold on_conn at 1. cbn [snd fst]. unfold read_request. generalize (Z.to_nat OTSARDB_FORWARD_MAX_HEADERS). intros fuel.
  destruct (read_request_rounds fuel (c_now c) c) as [r c1] eqn:E.
  pose proof (fun refusal c' => refusal_texts fuel c refusal c') as Ht.
  pose proof E as E'. apply read_request_spec in E' as (Hn & [Ho Hs] & Hr).
  destruct r as [[[status text] body]|sql].
  - unfold on_conn. cbn [snd fst]. destruct (send_simple_response status text body c1) as [[] c2] eqn:E2.
    apply respond_spec in E2 as (Hn2 & Hm2 & _ & Ho2).
    2:{ apply response_header_short. by apply (Ht _ _ E). }
    pose proof (sent_ms_nonneg (c_sends c2)).
    rewrite Hs, ?Ho in *. split; [left; split; [done|lia]|]. exists (http_response status text body).
    split; [left; eauto 8|]. intros Hq. by rewrite Ho2.
  - unfold run_handler. cbn [fst snd]. destruct (handler sql d) as [[status response] d'] eqn:Eh. cbn [fst snd].
    set (c1' := elapse _ _ c1).
    pose proof (answer_text status (cstr response)) as Ht2.
    destruct (answer status (cstr response)) as [[status' text] body] eqn:Ea. cbn [fst snd] in Ht2.
    unfold on_conn. cbn [fst snd]. destruct (send_simple_response status' text body c1') as [[] c2] eqn:E2.
    apply respond_spec in E2 as (Hn2 & Hm2 & _ & Ho2); [|by apply response_header_short].
    pose proof (sent_ms_nonneg (c_sends c2)). unfold c1', elapse in Hn2, Hm2, Ho2. cbn in Hn2, Hm2, Ho2.
    rewrite Hs, ?Ho in *. split; [right; exists sql; rewrite Eh; split_and!; [done|done|lia]|]. exists (http_response status' text body). split.
    + right. exists sql. rewrite Eh. cbn [fst snd]. split_and!; [done|done|]. unfold reply. by rewrite Ea.
    + intros Hq. by rewrite Ho2.
Qed.

(** The connections a run of the accept loop takes. *)
Definition accepted (turns : list listen_event) : list conn :=
  omap (fun t => match t with Accepted c => Some c | _ => None end) turns.

(** The sequential service: the connections in their order, each refused or
    given one statement of its stream, the database passed from one to the next. *)
Inductive serial : list conn -> list conn -> D -> D -> Prop :=
| Serial_nil d : serial [] [] d d
| Serial_cons c c' cs cs' d d' d'' sent :
    served (arriving (c_in c)) d d' sent -> (c_sends c = [] -> c_out c' = c_out c ++ sent) ->
    serial cs cs' d' d'' -> serial (c :: cs) (c' :: cs') d d''.

(** C22. Whatever the peers send, in whatever pieces and with whatever errors,
    the accept loop is a sequential service of the connections it accepted: each
    one is refused with 400, 404, 405 or 408 and leaves the database unchanged,
    or the handler runs once on the statement of its stream - exactly the
    announced bytes after the headers, never a part of them - and its answer is
    sent. *)
Theorem forward_server_serializes turns d :
  let '(conns, d') := forward_server_main handler handler_ms turns d in serial (accepted turns) conns d d'.
Proof.
  revert d. induction turns as [|[| |c] turns IH]; intros d; cbn [forward_server_main]; [constructor|apply IH|apply IH|].
  pose proof (handle_connection_spec d c) as H. destruct (handle_connection handler handler_ms (d, c)) as [u [d1 c1]].
  destruct H as (_ & sent & Hs & Ho). specialize (IH d1). destruct (forward_server_main handler handler_ms turns d1) as [conns d2].
  by econstructor.
Qed.

(** C24. How long a connection holds the single-threaded accept loop: 30 seconds
    of reading at most, however slowly its peer drips bytes, then the time the
    handler takes for the statement, if the request was one (it runs on the same
    thread, with no bound of its own), and the time the connection's own sends
    block. A refused connection does not run the handler. *)
Theorem forward_read_deadline d c : let '(_, (d', c')) := handle_connection handler handler_ms (d, c) in
  (d' = d /\ c_now c' <= c_now c + OTSARDB_FORWARD_READ_TOTAL_MS + sent_ms (c_sends c)) \/
  (exists sql, requested (arriving (c_in c)) sql /\ d' = snd (handler sql d) /\
     c_now c' <= c_now c + OTSARDB_FORWARD_READ_TOTAL_MS + Z.of_N (handler_ms sql d) + sent_ms (c_sends c)).
Proof.
  pose proof (handle_connection_spec d c) as H. destruct (handle_connection handler handler_ms (d, c)) as [u [d1 c1]].
  destruct H as ([[Hd H]|(sql & Hq & Hd & H)] & _); [left; split; [done|lia]|right].
  exists sql. split_and!; [done|done|lia].
Qed.

(** ** The round trip *)

Lemma request_header_fits host_port n : zlen (request_header host_port n) < 512 ->
  (length (request_header host_port n) <= Z.to_nat OTSARDB_FORWARD_MAX_HEADERS)%nat.
Proof. unfold zlen, OTSARDB_FORWARD_MAX_HEADERS. lia. Qed.

Lemma answer_plain status response : let '(status', text, body) := answer status response in
  0 < status' < 2 ^ 31 /\ plain_text text.
Proof. unfold answer. destruct (status =? 200); [|destruct (status =? 421)]; by vm_compute. Qed.

(** The server answers a request of the protocol that comes in time. *)
Lemma handle_connection_complete d c host_port sql : plain_host host_port ->
  zlen sql <= OTSARDB_FORWARD_MAX_BODY -> zlen (request_header host_port (zlen sql)) < 512 ->
  in_time (c_now c) c -> arriving (c_in c) = request_header host_port (zlen sql) ++ sql -> c_sends c = [] ->
  let '(_, (d', c')) := handle_connection handler handler_ms (d, c) in
  d' = snd (handler sql d) /\
  c_out c' = c_out c ++ reply (fst (fst (handler sql d))) (snd (fst (handler sql d))).
Proof.
  intros Hp Hz Hh Ht Ha Hs. pose proof (zlen_nonneg sql).
  destruct (read_request_complete (Z.to_nat OTSARDB_FORWARD_MAX_HEADERS) c (request_header host_port (zlen sql)) sql [])
    as (c1 & E & Ho & Hs1); [done|by rewrite app_nil_r| | | |by apply request_header_fits|].
  { apply request_header_ends; [done|]. unfold is_u64, UINT64_MAX, OTSARDB_FORWARD_MAX_BODY in *. lia. }
  { by apply request_header_checked. }
  { unfold OTSARDB_FORWARD_MAX_HEADERS. lia. }
  revert E. unfold handle_connection, read_request. generalize (Z.to_nat OTSARDB_FORWARD_MAX_HEADERS). intros fuel E.
  unfold mbind_, on_conn, forward_now_ms. cbn [fst snd]. rewrite E. unfold run_handler. cbn [fst snd].
  destruct (handler sql d) as [[status response] d'] eqn:Eh. cbn [fst snd]. unfold reply.
  pose proof (answer_text status (cstr response)) as Ht2.
  destruct (answer status (cstr response)) as [[status' text] body] eqn:Ea. cbn [fst snd] in Ht2. cbn [fst snd].
  set (c1' := elapse _ _ c1). destruct (send_simple_response status' text body c1') as [[] c2] eqn:E2.
  apply respond_spec in E2 as (_ & _ & _ & Ho2); [|by apply response_header_short].
  split; [done|]. rewrite Ho2 by (unfold c1', elapse; cbn; congruence). unfold c1', elapse. cbn. by rewrite Ho.
Qed.
End Server.

(** C23. The round trip of a forwarded statement. The client's bytes reach the
    server and the server's bytes reach the client, each stream cut into any
    pieces: then the handler runs on the very statement, once, and the client
    returns the status and the body of the handler's answer - if the pieces come
    in time, the body fits in the client's buffer with its header, and the
    address does not contain the header name the server searches for. *)
Theorem forward_roundtrip {D} (handler : bytes -> M D (Z * bytes)) handler_ms d d' resolved host_port sql cap ms
    client client' server server' r u :
  otsardb_forward_split_host_port host_port 256 <> None -> strstr host_port content_length_tag = None ->
  client_connect resolved = true -> zlen (request_header host_port (zlen sql)) < 512 ->
  zlen sql <= OTSARDB_FORWARD_MAX_BODY ->
  c_sends client = [] -> c_out client = [] -> c_sends server = [] -> c_out server = [] ->
  otsardb_forward_client_post resolved host_port sql cap ms client = (r, client') ->
  handle_connection handler handler_ms (d, server) = (u, (d', server')) ->
  arriving (c_in server) = c_out client' -> in_time (c_now server) server ->
  arriving (c_in client) = c_out server' -> 0 < ms -> pieces_ok ms (c_in client) = true ->
  zlen (c_out server') < cap < 2 ^ 63 ->
  d' = snd (handler sql d) /\
  exists status text body, answer (fst (fst (handler sql d))) (cstr (snd (fst (handler sql d)))) = (status, text, body) /\
    r = Some (status, body).
Proof.
  intros Hsp Hst Hc Hh Hz Hcs Hco Hss Hso Hpost Hserve Hws Htime Hwc Hms Hpieces Hcap.
  assert (plain_host host_port) as Hp.
  { split; [|done]. destruct (existsb unsafe_host_byte host_port) eqn:E; [|done]. exfalso. apply Hsp.
    unfold otsardb_forward_split_host_port. rewrite E. by destruct (zlen host_port =? 0). }
  assert (cap <> 0) as Hc0 by (pose proof (zlen_nonneg (c_out server')); lia).
  destruct (client_sends _ _ _ _ _ _ _ _ Hcs Hsp Hc Hc0 Hh Hpost) as (Ho & c1 & Hi & ->).
  rewrite Hco in Ho. cbn [app] in Ho. rewrite Ho in Hws.
  pose proof (handle_connection_complete handler handler_ms d server host_port sql Hp Hz Hh Htime Hws Hss) as H.
  rewrite Hserve in H. destruct H as [Hd Hout]. split; [done|]. rewrite Hso in Hout. cbn [app] in Hout.
  unfold reply in Hout. set (response := cstr (snd (fst (handler sql d)))) in *.
  pose proof (answer_plain (fst (fst (handler sql d))) response) as Hpl.
  assert (no_nul (snd (answer (fst (fst (handler sql d))) response)) = true) as Hn.
  { unfold answer. repeat case_match; try done; apply cstr_is_no_nul. }
  destruct (answer (fst (fst (handler sql d))) response) as [[status text] body]. destruct Hpl as [Hst1 Hpt].
  exists status, text, body. split; [done|]. apply Z.ltb_lt in Hms as ->.
  rewrite Hout in Hcap, Hwc. unfold http_response in Hcap, Hwc. rewrite zlen_app in Hcap. rewrite <- Hi in Hwc, Hpieces.
  apply (read_response_complete status text body cap); try done; try lia.
  - split; [cbn; by rewrite Hwc|]. cbn. split_and!; try done.
    pose proof (response_header_ends status text ltac:(lia) Hpt (zlen body)) as [H4 _]; [|lia].
    pose proof (zlen_nonneg body). pose proof (zlen_nonneg (response_header status text (zlen body))).
    unfold is_u64, UINT64_MAX. lia.
  - rewrite Hwc, length_app. set (h := response_header status text (zlen body)) in *. clearbody h.
    unfold zlen in Hcap. lia.
Qed.

(** ** A concrete exchange *)

Definition sample_handler (sql : bytes) : M (list bytes) (Z * bytes) := fun d =>
  ((200, str "# end 0" ++ [10]), d ++ [sql]).
(** A statement takes 20 seconds. *)
Definition sample_ms (sql : bytes) (d : list bytes) : N := 20000.
Definition sample_address : bytes := str "127.0.0.1:8717".
Definition sample_sql : bytes := str "INSERT INTO t VALUES(1)".
Definition sample_route : option (list (bool * bool)) := Some [(true, false); (true, true)].

(** Three pieces, with pauses. *)
Definition pieces (l : bytes) : list arrival := [Data 10 (take 7 l); Data 4000 (take 40 (drop 7 l)); Data 1 (drop 47 l)].
Definition sample_request : bytes := request_header sample_address (zlen sample_sql) ++ sample_sql.
Definition sample_response : bytes := http_response 200 (str "OK") (str "# end 0" ++ [10]).
Definition sample_server : conn := mkConn 100 (pieces sample_request) [] [].
Definition sample_client : conn := mkConn 0 (pieces sample_response ++ [Data 0 []]) [] [].

Lemma forward_roundtrip_witness :
  fst (snd (handle_connection sample_handler sample_ms ([], sample_server))) = [sample_sql] /\
  exists status text body, answer 200 (cstr (str "# end 0" ++ [10])) = (status, text, body) /\
    fst (otsardb_forward_client_post sample_route sample_address sample_sql 8192 5000 sample_client) = Some (status, body).
Proof.
  apply (forward_roundtrip sample_handler sample_ms [] _ sample_route sample_address sample_sql 8192 5000 sample_client
           (snd (otsardb_forward_client_post sample_route sample_address sample_sql 8192 5000 sample_client))
           sample_server (snd (snd (handle_connection sample_handler sample_ms ([], sample_server)))) _ tt);
    by vm_compute.
Defined.

(** ** Defects *)

(** The answer comes after the client has given up: the client reports a
    transport error, which its caller shows as a write that was not executed
    anywhere, and the leader has executed the statement. *)
Theorem forward_unreachable_yet_executed :
  let client := mkConn 0 [Data 10001 sample_response] [] [] in
  let '(r, client') := otsardb_forward_client_post sample_route sample_address sample_sql 8192
                         OTSARDB_FORWARD_TIMEOUT_MS client in
  let '(_, (d', server')) := handle_connection sample_handler sample_ms ([], sample_server) in
  arriving (c_in sample_server) = c_out client' /\ arriving (c_in client) = c_out server' /\
  r = None /\ d' = [sample_sql].
Proof. vm_compute. done. Qed.

(** A response that stops in the middle of its body is a success. *)
Theorem forward_partial_body_accepted :
  fst (otsardb_forward_client_post sample_route sample_address sample_sql 8192 5000
         (mkConn 0 [Data 0 (take 60 sample_response)] [] [])) = Some (200, str "# e").
Proof. vm_compute. done. Qed.

(** The server searches the header name anywhere: an address that contains it
    gives the length of the body, and a part of the statement is executed. *)
Theorem forward_length_from_host :
  let host := str "Content-Length:12" in
  let sql := str "DELETE FROM t WHERE id = 7" in
  otsardb_forward_split_host_port host 256 <> None /\
  fst (snd (handle_connection sample_handler sample_ms
              ([], mkConn 0 [Data 0 (request_header host (zlen sql) ++ sql)] [] []))) = [str "DELETE FROM "].
Proof. vm_compute. done. Qed.

(** A peer that does not read its answer holds the accept loop for as long as
    it likes: the deadlines cover the reads only. *)
Theorem forward_send_holds_loop (ms : N) :
  let '(_, (_, c')) := handle_connection sample_handler sample_ms ([], mkConn 0 [] [] [(ms, 0)]) in
  Z.of_N ms <= c_now c'.
Proof.
  assert (read_request 0 (mkConn 0 [] [] [(ms, 0)]) =
          (inl (400, str "Bad Request", str "bad request: malformed headers (read deadline exceeded)"),
           mkConn 5000 [] [] [(ms, 0)])) as E by (vm_compute; reflexivity).
  unfold handle_connection, mbind_, on_conn, forward_now_ms. cbn [fst snd c_now]. rewrite E. cbn [fst snd].
  unfold send_simple_response, mbind_. cbv zeta. rewrite (proj2 (Z.ltb_lt _ 512)) by (by vm_compute).
  rewrite (send_all_fails ms 0 []) by done. cbn [c_now c_in c_out].
  destruct (send_all _ _) as [ok c'] eqn:E2. apply send_all_spec in E2 as (H & _). cbn in *. lia.
Qed.

(** ** The body *)

(** The line of a row: the fields between tabs. *)
Fixpoint row_tail (argv : list (option bytes)) : bytes :=
  match argv with [] => [] | v :: r => 9 :: default (str "NULL") v ++ row_tail r end.
Definition row_body (first : bool) (argv : list (option bytes)) : bytes :=
  match argv with
  | v :: r => if first then default (str "NULL") v ++ row_tail r else row_tail argv
  | [] => []
  end.
Definition row_text (argv : list (option bytes)) : bytes := row_body true argv ++ [10].

Section Body.
Context (cap : Z).

Lemma row_fields_bound first argv out : zlen out < cap ->
  zlen (row_fields cap first argv out) < cap /\ exists t, row_fields cap first argv out = out ++ t.
Proof.
  revert first out. induction argv as [|v r IH]; intros first out H; cbn [row_fields].
  { split; [done|]. exists []. by rewrite app_nil_r. }
  destruct (negb first && (cap <=? zlen out + 1)) eqn:E.
  { split; [done|]. exists []. by rewrite app_nil_r. }
  cbv zeta. set (out1 := if first then out else out ++ [9]).
  assert (zlen out1 < cap /\ exists t1, out1 = out ++ t1) as [H1 [t1 E1]].
  { unfold out1. destruct first; [split; [done|]; exists []; by rewrite app_nil_r|].
    cbn in E. prop_bools. rewrite zlen_app. change (zlen [9]) with 1. split; [lia|eauto]. }
  set (value := default (str "NULL") v).
  set (n := if cap <=? zlen out1 + zlen value then cap - zlen out1 - 1 else zlen value).
  assert (zlen out1 + zlen (take (Z.to_nat n) value) < cap) as H2.
  { unfold n. pose proof (zlen_nonneg out1).
    destruct (Z.leb_spec cap (zlen out1 + zlen value)); unfold zlen in *; rewrite length_take; lia. }
  destruct (IH false (out1 ++ take (Z.to_nat n) value)) as [H3 [t E3]]; [by rewrite zlen_app|].
  split; [done|]. exists (t1 ++ take (Z.to_nat n) value ++ t). by rewrite E3, E1, <- !app_assoc.
Qed.

Lemma row_body_false argv : row_body false argv = row_tail argv.
Proof. by destruct argv. Qed.

Lemma row_fields_exact first argv out : zlen out + zlen (row_body first argv) < cap ->
  row_fields cap first argv out = out ++ row_body first argv.
Proof.
  revert first out. induction argv as [|v r IH]; intros first out H; cbn [row_fields row_body row_tail] in *.
  { by rewrite app_nil_r. }
  set (value := default (str "NULL") v) in *. pose proof (zlen_nonneg value). pose proof (zlen_nonneg (row_tail r)).
  destruct first; cbn [negb andb]; cbv zeta.
  - rewrite zlen_app in H. destruct (Z.leb_spec cap (zlen out + zlen value)); [lia|].
    rewrite take_ge by (unfold zlen; lia). rewrite IH by (rewrite row_body_false, zlen_app; lia).
    by rewrite row_body_false, app_assoc.
  - rewrite zlen_cons, zlen_app in H. destruct (Z.leb_spec cap (zlen out + 1)); [lia|].
    rewrite zlen_app. change (zlen [9]) with 1. destruct (Z.leb_spec cap (zlen out + 1 + zlen value)); [lia|].
    rewrite take_ge by (unfold zlen; lia).
    rewrite IH by (rewrite row_body_false, !zlen_app; change (zlen [9]) with 1; lia).
    by rewrite row_body_false, <- !app_assoc.
Qed.
End Body.

(** The body of a response is built within its buffer: a row is appended
    in full when it fits, and otherwise as much of it as leaves room for the
    terminating NUL; nothing that was there is lost. *)
Theorem forward_row_bounded cap out argv : zlen out < cap ->
  zlen (otsardb_forward_row_line cap out argv) < cap /\
  (exists t, otsardb_forward_row_line cap out argv = out ++ t) /\
  (zlen out + zlen (row_text argv) < cap -> otsardb_forward_row_line cap out argv = out ++ row_text argv).
Proof.
  intros H. unfold otsardb_forward_row_line. pose proof (zlen_nonneg out).
  destruct (Z.eqb_spec cap 0); [lia|]. destruct (Z.leb_spec cap (zlen out)); [lia|]. cbn [orb]. cbv zeta.
  destruct (row_fields_bound cap true argv out H) as [Hb [t Ht]]. split_and!.
  - destruct (Z.ltb_spec (zlen (row_fields cap true argv out) + 1) cap); [|done]. by rewrite zlen_app.
  - rewrite Ht. case_match; [exists (t ++ [10]); by rewrite app_assoc|by exists t].
  - unfold row_text. rewrite zlen_app. change (zlen [10]) with 1. intros Hr.
    rewrite row_fields_exact, zlen_app by lia. rewrite (proj2 (Z.ltb_lt _ _)) by lia. by rewrite <- app_assoc.
Qed.

Lemma forward_row_bounded_witness :
  otsardb_forward_row_line 32 (str "a" ++ [10]) [Some (str "1"); Some (str "two"); None] =
    str "a" ++ [10] ++ str "1" ++ [9] ++ str "two" ++ [9] ++ str "NULL" ++ [10].
Proof. apply (forward_row_bounded 32 (str "a" ++ [10])); by vm_compute. Defined.

(** When the rows fill the buffer the end marker is cut: a response with status
    200 does not end with it. *)
Theorem forward_marker_cut :
  let body := otsardb_forward_row_line 16 [] [Some (str "fourteen bytes")] in
  otsardb_forward_end_marker 16 body 1 = str "fourteen bytes" ++ [10].
Proof. vm_compute. done. Qed.
