(* ===== verification/LocalVfs.v ===== *)
(** * The SQLite VFS of a session (storage/local_vfs.c)

    SQLite reads and writes its files through a shim over the system VFS. Reads
    of the main database first ask the hydrator for the pages, writes and
    truncations are reported to it, and a sync of the write-ahead log runs the
    hook that publishes the log. The system VFS and the hooks are parameters:
    records of operations on a state [U]; the state of the shim is the wrapped
    files and the main database file of the instance. *)

From S2P Require Import Prelude CText SqliteWal WalPublisher.

Definition SQLITE_ERROR : Z := 1.
Definition SQLITE_CANTOPEN : Z := 14.
Definition SQLITE_IOERR_FSTAT : Z := 1802.
Definition SQLITE_IOERR_SHMLOCK : Z := 5130.
Definition SQLITE_IOERR_SHMMAP : Z := 5386.
Definition SQLITE_IOERR_DELETE : Z := 2570.
Definition SQLITE_IOERR_ACCESS : Z := 3338.
Definition SQLITE_OPEN_MAIN_DB : Z := 0x100.
Definition SQLITE_OPEN_WAL : Z := 0x80000.
Definition INT64_MAX : Z := 2 ^ 63 - 1.

(** A file handle of SQLite: the wrapper and the underlying file in it. *)
Abbreviation handle := nat.

(** ** The system VFS *)

(** [xRead] gives the bytes it stored in the buffer. *)
Record sqlite3_io_methods (U : Type) := mkMethods {
  iVersion : Z;
  xClose : handle -> M U Z;
  xRead : handle -> Z -> Z -> M U (Z * bytes);
  xWrite : handle -> bytes -> Z -> M U Z;
  xTruncate : handle -> Z -> M U Z;
  xSync : handle -> Z -> M U Z;
  xFileSize : handle -> M U (Z * Z);
  xLock : handle -> Z -> M U Z;
  xUnlock : handle -> Z -> M U Z;
  xCheckReservedLock : handle -> M U (Z * Z);
  xFileControl : handle -> Z -> M U Z;
  xSectorSize : handle -> M U Z;
  xDeviceCharacteristics : handle -> M U Z;
  xShmMap : option (handle -> Z -> Z -> Z -> M U (Z * Z));
  xShmLock : option (handle -> Z -> Z -> Z -> M U Z);
  xShmBarrier : option (handle -> M U unit);
  xShmUnmap : option (handle -> Z -> M U Z);
  xFetch : option (handle -> Z -> Z -> M U (Z * Z));
  xUnfetch : option (handle -> Z -> Z -> M U Z)
}.
#[global] Arguments mkMethods {U}.
#[global] Arguments iVersion {U}.
#[global] Arguments xClose {U}.
#[global] Arguments xRead {U}.
#[global] Arguments xWrite {U}.
#[global] Arguments xTruncate {U}.
#[global] Arguments xSync {U}.
#[global] Arguments xFileSize {U}.
#[global] Arguments xLock {U}.
#[global] Arguments xUnlock {U}.
#[global] Arguments xCheckReservedLock {U}.
#[global] Arguments xFileControl {U}.
#[global] Arguments xSectorSize {U}.
#[global] Arguments xDeviceCharacteristics {U}.
#[global] Arguments xShmMap {U}.
#[global] Arguments xShmLock {U}.
#[global] Arguments xShmBarrier {U}.
#[global] Arguments xShmUnmap {U}.
#[global] Arguments xFetch {U}.
#[global] Arguments xUnfetch {U}.

(** ** Hooks *)

(** The reader hook gets the name and the size of the log, the reader with its
    context, and the reader of the main database with its context, if there is
    one. *)
Record vfs_hooks (U : Type) := mkHooks {
  wal_sync_hook : option (bytes -> bytes -> M U Z);
  wal_reader_sync_hook :
    option (bytes -> Z -> otsardb_sqlite_wal_read_at -> handle ->
            option (otsardb_sqlite_wal_read_at * handle) -> M U Z);
  page_hydrate_hook : option (Z -> Z -> M U Z);
  page_mark_hook : option (Z -> Z -> M U unit);
  page_truncate_hook : option (Z -> M U unit)
}.
#[global] Arguments mkHooks {U}.
#[global] Arguments wal_sync_hook {U}.
#[global] Arguments wal_reader_sync_hook {U}.
#[global] Arguments page_hydrate_hook {U}.
#[global] Arguments page_mark_hook {U}.
#[global] Arguments page_truncate_hook {U}.

(** Install the page hooks; all three may not be absent. *)
Definition otsardb_local_vfs_instance_set_page_hooks {U} (hydrate : option (Z -> Z -> M U Z))
    (mark : option (Z -> Z -> M U unit)) (truncate : option (Z -> M U unit)) (h : vfs_hooks U) : Z * vfs_hooks U :=
  match hydrate, mark, truncate with
  | None, None, None => (SQLITE_MISUSE, h)
  | _, _, _ => (SQLITE_OK, mkHooks (wal_sync_hook h) (wal_reader_sync_hook h) hydrate mark truncate)
  end.

Definition otsardb_local_vfs_set_wal_sync_hook {U} (hook : option (bytes -> bytes -> M U Z)) (h : vfs_hooks U) : vfs_hooks U :=
  mkHooks hook (wal_reader_sync_hook h) (page_hydrate_hook h) (page_mark_hook h) (page_truncate_hook h).

(** The hooks of the default instance are replaced. *)
Definition otsardb_local_vfs_set_wal_reader_sync_hook {U}
    (hook : option (bytes -> Z -> otsardb_sqlite_wal_read_at -> handle ->
                    option (otsardb_sqlite_wal_read_at * handle) -> M U Z)) (h : vfs_hooks U) : vfs_hooks U :=
  mkHooks (wal_sync_hook h) hook (page_hydrate_hook h) (page_mark_hook h) (page_truncate_hook h).

(** ** Files *)

(** [f_open]: the handle has methods. *)
Record otsardb_file := mkFile {
  f_open : bool;
  f_instance : bool;
  f_name : option bytes;
  f_flags : Z;
  f_wal_dirty : bool
}.

Definition zero_file : otsardb_file := mkFile false false None 0 false.

Record vfs := mkVfs {
  v_files : list otsardb_file;
  v_main_db_file : option handle
}.

Definition fresh_vfs : vfs := mkVfs [] None.

Definition is_main_db (f : otsardb_file) : bool := negb (Z.land (f_flags f) SQLITE_OPEN_MAIN_DB =? 0).
Definition is_wal (f : otsardb_file) : bool := negb (Z.land (f_flags f) SQLITE_OPEN_WAL =? 0).

Definition set_dirty (b : bool) (f : otsardb_file) : otsardb_file :=
  mkFile (f_open f) (f_instance f) (f_name f) (f_flags f) b.

Section Io.
Context {U : Type} (m : sqlite3_io_methods U) (hooks : vfs_hooks U).

Abbreviation V := (vfs * U)%type.

Definition on_under {A} (k : M U A) : M V A := fun st =>
  let '(a, u') := k (snd st) in (a, (fst st, u')).
Definition get_vfs : M V vfs := fun st => (fst st, st).
Definition file_at (i : handle) (v : vfs) : otsardb_file := default zero_file (v_files v !! i).
Definition update_file (i : handle) (f : otsardb_file -> otsardb_file) : M V unit := fun st =>
  (tt, (mkVfs (alter f i (v_files (fst st))) (v_main_db_file (fst st)), snd st)).

Definition otsardb_io_close (i : handle) : M V Z :=
  let! rc := on_under (xClose m i) in
  let! _ := update_file i (fun f => mkFile false false None (f_flags f) (f_wal_dirty f)) in
  return! rc.

(** The pages are hydrated before the read; a failure is the result. *)
Definition otsardb_io_read (i : handle) (amount offset : Z) : M V (Z * bytes) :=
  let! v := get_vfs in
  let f := file_at i v in
  let! rc := match page_hydrate_hook hooks with
             | Some hydrate => if is_main_db f && f_instance f then on_under (hydrate offset amount)
                               else return! SQLITE_OK
             | None => return! SQLITE_OK
             end in
  if negb (rc =? SQLITE_OK) then return! (rc, []) else on_under (xRead m i amount offset).

Definition otsardb_io_write (i : handle) (buffer : bytes) (offset : Z) : M V Z :=
  let! v := get_vfs in
  let f := file_at i v in
  let! rc := on_under (xWrite m i buffer offset) in
  if negb (rc =? SQLITE_OK) then return! rc else
  let! _ :=
    if is_wal f then update_file i (set_dirty true)
    else match page_mark_hook hooks with
         | Some mark => if is_main_db f && f_instance f then on_under (mark offset (zlen buffer)) else return! tt
         | None => return! tt
         end in
  return! rc.

Definition otsardb_io_truncate (i : handle) (size : Z) : M V Z :=
  let! v := get_vfs in
  let f := file_at i v in
  let! rc := on_under (xTruncate m i size) in
  if negb (rc =? SQLITE_OK) then return! rc else
  let! _ :=
    if is_wal f then update_file i (set_dirty true)
    else match page_truncate_hook hooks with
         | Some truncate => if is_main_db f && f_instance f then on_under (truncate size) else return! tt
         | None => return! tt
         end in
  return! rc.

(** Chunks of at most [INT_MAX] bytes; [fuel] rounds, one per chunk. *)
Fixpoint read_underlying_chunks (fuel : nat) (i : handle) (offset size : Z) (out : bytes) : M U (Z * bytes) :=
  if size <=? zlen out then return! (SQLITE_OK, out) else
  match fuel with
  | O => return! (SQLITE_IOERR_READ, out)
  | S fuel =>
      let remaining := size - zlen out in
      let chunk := if INT_MAX <? remaining then INT_MAX else remaining in
      if (INT64_MAX <? offset) || (INT64_MAX - offset <? zlen out) then return! (SQLITE_IOERR_READ, out) else
      let! (rc, data) := xRead m i chunk (offset + zlen out) in
      if negb (rc =? SQLITE_OK) then return! (rc, out)
      else read_underlying_chunks fuel i offset size (out ++ data)
  end.

Definition read_underlying_range (i : handle) (offset size : Z) : M U (Z * bytes) :=
  read_underlying_chunks (Z.to_nat (size / INT_MAX + 1)) i offset size [].

(** A reader over the state at hand: the hook that uses it does not change the
    files. *)
Definition wal_reader_read_at (u : U) (i : handle) : otsardb_sqlite_wal_read_at := fun offset size =>
  let '((rc, data), _) := read_underlying_range i offset size u in
  if rc =? SQLITE_OK then Some data else None.

Definition read_underlying_file (i : handle) : M U (Z * bytes) :=
  let! (rc, file_size) := xFileSize m i in
  if negb (rc =? SQLITE_OK) then return! (rc, []) else
  if (file_size <? 0) || (SIZE_MAX <? file_size) then return! (SQLITE_IOERR_FSTAT, []) else
  read_underlying_range i 0 file_size.

Definition wal_name (f : otsardb_file) : bytes := default [] (f_name f).

(** The log stays dirty until the hook has succeeded. *)
Definition otsardb_io_sync (i : handle) (flags : Z) : M V Z :=
  let! v := get_vfs in
  let f := file_at i v in
  let! rc := on_under (xSync m i flags) in
  if negb (rc =? SQLITE_OK) then return! rc else
  if negb (is_wal f) || negb (f_wal_dirty f) || negb (f_instance f) then return! SQLITE_OK else
  match wal_reader_sync_hook hooks, wal_sync_hook hooks with
  | Some hook, _ =>
      let! (rc, file_size) := on_under (xFileSize m i) in
      if negb (rc =? SQLITE_OK) then return! rc else
      if file_size <? 0 then return! SQLITE_IOERR_FSTAT else
      let! rc := on_under (fun u =>
        hook (wal_name f) file_size (wal_reader_read_at u i) i
          ((fun db => (wal_reader_read_at u db, db)) <$> v_main_db_file v) u) in
      let! _ := if rc =? SQLITE_OK then update_file i (set_dirty false) else return! tt in
      return! rc
  | None, Some hook =>
      let! (rc, data) := on_under (read_underlying_file i) in
      if negb (rc =? SQLITE_OK) then return! rc else
      let! rc := on_under (hook (wal_name f) data) in
      let! _ := if rc =? SQLITE_OK then update_file i (set_dirty false) else return! tt in
      return! rc
  | None, None => return! SQLITE_OK
  end.

(** Calls passed on as they are. *)
Definition otsardb_io_file_size (i : handle) : M V (Z * Z) := on_under (xFileSize m i).
Definition otsardb_io_lock (i : handle) (lock : Z) : M V Z := on_under (xLock m i lock).
Definition otsardb_io_unlock (i : handle) (lock : Z) : M V Z := on_under (xUnlock m i lock).
Definition otsardb_io_check_reserved_lock (i : handle) : M V (Z * Z) := on_under (xCheckReservedLock m i).
Definition otsardb_io_file_control (i : handle) (op : Z) : M V Z := on_under (xFileControl m i op).
Definition otsardb_io_sector_size (i : handle) : M V Z := on_under (xSectorSize m i).
Definition otsardb_io_device_characteristics (i : handle) : M V Z := on_under (xDeviceCharacteristics m i).

(** Calls of a newer version of the methods, with what stands for a method that
    is not there; the pointer 0 is 0. *)
Definition otsardb_io_shm_map (i : handle) (page page_size extend : Z) : M V (Z * Z) :=
  match xShmMap m with
  | Some f => if iVersion m <? 2 then return! (SQLITE_IOERR_SHMMAP, 0) else on_under (f i page page_size extend)
  | None => return! (SQLITE_IOERR_SHMMAP, 0)
  end.
Definition otsardb_io_shm_lock (i : handle) (offset count flags : Z) : M V Z :=
  match xShmLock m with
  | Some f => if iVersion m <? 2 then return! SQLITE_IOERR_SHMLOCK else on_under (f i offset count flags)
  | None => return! SQLITE_IOERR_SHMLOCK
  end.
Definition otsardb_io_shm_barrier (i : handle) : M V unit :=
  match xShmBarrier m with
  | Some f => if iVersion m <? 2 then return! tt else on_under (f i)
  | None => return! tt
  end.
Definition otsardb_io_shm_unmap (i : handle) (delete_flag : Z) : M V Z :=
  match xShmUnmap m with
  | Some f => if iVersion m <? 2 then return! SQLITE_OK else on_under (f i delete_flag)
  | None => return! SQLITE_OK
  end.
Definition otsardb_io_fetch (i : handle) (offset amount : Z) : M V (Z * Z) :=
  match xFetch m with
  | Some f => if iVersion m <? 3 then return! (SQLITE_OK, 0) else on_under (f i offset amount)
  | None => return! (SQLITE_OK, 0)
  end.
Definition otsardb_io_unfetch (i : handle) (offset ptr : Z) : M V Z :=
  match xUnfetch m with
  | Some f => if iVersion m <? 3 then return! SQLITE_OK else on_under (f i offset ptr)
  | None => return! SQLITE_OK
  end.

(** [base_open]: the [xOpen] of the system VFS on the new handle: its result,
    and whether it gave the file methods. The handle is the next one. *)
Definition otsardb_vfs_open (base_open : option (option bytes -> handle -> Z -> M U (Z * bool)))
    (name : option bytes) (flags : Z) : M V (Z * handle) :=
  let! v := get_vfs in
  let i := length (v_files v) in
  match base_open with
  | None => return! (SQLITE_CANTOPEN, i)
  | Some xOpen =>
      let place (f : otsardb_file) (main : option handle) : M V unit := fun st =>
        (tt, (mkVfs (v_files (fst st) ++ [f]) main, snd st)) in
      let! (rc, methods) := on_under (xOpen name i flags) in
      if negb (rc =? SQLITE_OK) then
        (let! _ := place (mkFile false true None 0 false) (v_main_db_file v) in return! (rc, i))
      else if negb methods then
        (let! _ := place (mkFile false true None 0 false) (v_main_db_file v) in return! (SQLITE_CANTOPEN, i))
      else
        let main := if negb (Z.land flags SQLITE_OPEN_MAIN_DB =? 0) then Some i else v_main_db_file v in
        let! _ := place (mkFile true true name flags false) main in
        return! (SQLITE_OK, i)
  end.
End Io.

(** ** Instances *)

(** [_Alignof] of the union of [long double], [double], a pointer and a 64-bit
    integer. *)
Definition ALIGNMENT : Z := 16.

Definition align_up (value : Z) : Z :=
  Z.land (u64 (value + ALIGNMENT - 1)) (UINT64_MAX - (ALIGNMENT - 1)).

(** What the instance overrides in the copy of the system VFS. *)
Record sqlite3_vfs := mkVfsTable {
  vt_name : bytes;
  vt_iVersion : Z;
  vt_szOsFile : Z;
  vt_own_time64 : bool;
  vt_own_system_calls : bool
}.

Definition configure_instance (sizeof_file : Z) (base : option sqlite3_vfs) (name : bytes) : Z + sqlite3_vfs :=
  match base, name with
  | None, _ | _, [] => inl SQLITE_MISUSE
  | Some base, _ =>
      let underlying_offset := align_up sizeof_file in
      if (INT_MAX <? underlying_offset) || (INT_MAX - underlying_offset <? vt_szOsFile base)
      then inl SQLITE_TOOBIG
      else inr (mkVfsTable (snprintf_s 64 name) (vt_iVersion base) (underlying_offset + vt_szOsFile base)
                  (2 <=? vt_iVersion base) (3 <=? vt_iVersion base))
  end.

(** The VFSes registered with SQLite, the default one first. *)
Definition vfs_find (name : bytes) (registered : list sqlite3_vfs) : option sqlite3_vfs :=
  find (fun v => bytes_eqb (vt_name v) name) registered.

Definition hex_digit (v : Z) : Z := if v <? 10 then 48 + v else 87 + v.
Definition hex_byte (b : Z) : bytes := [hex_digit (b / 16); hex_digit (b mod 16)].

Definition instance_name (random_bytes : bytes) : bytes := str "otsardb-db-" ++ (random_bytes ≫= hex_byte).

(** At most [attempts] draws of eight random bytes. *)
Fixpoint draw_name (attempts : nat) (draws : nat -> bytes) (registered : list sqlite3_vfs) : option bytes :=
  match attempts with
  | O => None
  | S n =>
      let name := instance_name (draws O) in
      match vfs_find name registered with
      | None => Some name
      | Some _ => draw_name n (fun k => draws (S k)) registered
      end
  end.

(** [init]: the result of [sqlite3_initialize]; [register]: that of
    [sqlite3_vfs_register]. The new table is registered last. *)
Definition otsardb_local_vfs_instance_create (sizeof_file init register : Z) (draws : nat -> bytes)
    (registered : list sqlite3_vfs) : (Z + sqlite3_vfs) * list sqlite3_vfs :=
  if negb (init =? SQLITE_OK) then (inl init, registered) else
  match registered with
  | [] => (inl SQLITE_ERROR, registered)
  | base :: _ =>
      match draw_name 8 draws registered with
      | None => (inl SQLITE_BUSY, registered)
      | Some name =>
          match configure_instance sizeof_file (Some base) name with
          | inl rc => (inl rc, registered)
          | inr table =>
              if negb (register =? SQLITE_OK) then (inl register, registered)
              else (inr table, registered ++ [table])
          end
      end
  end.

Definition otsardb_local_vfs_name : bytes := str "otsardb-local".

(** [done]: the default instance is registered already. *)
Definition otsardb_local_vfs_register (sizeof_file register : Z) (done : bool)
    (registered : list sqlite3_vfs) : Z * bool * list sqlite3_vfs :=
  if done then (SQLITE_OK, done, registered) else
  match registered with
  | [] => (SQLITE_ERROR, done, registered)
  | base :: _ =>
      match configure_instance sizeof_file (Some base) otsardb_local_vfs_name with
      | inl rc => (rc, done, registered)
      | inr table =>
          if register =? SQLITE_OK then (SQLITE_OK, true, registered ++ [table]) else (register, done, registered)
      end
  end.

(** [sqlite3_vfs_unregister]; the default instance is kept. *)
Definition otsardb_local_vfs_instance_destroy (instance : option bytes) (registered : list sqlite3_vfs) : list sqlite3_vfs :=
  match instance with
  | None => registered
  | Some name => if bytes_eqb name otsardb_local_vfs_name then registered
                 else filter (fun v => negb (bytes_eqb (vt_name v) name)) registered
  end.
