(* ===== verification/LocalVfsProps.v ===== *)
(** * The VFS of a session: what it promises

    A sync of the log that reports success has published every change of the
    log; the wrapped file fits in the handle SQLite allocates; the names of the
    instances are distinct. The composition with lazy hydration is in
    LocalVfsLazy. *)

From S2P Require Import Prelude CText SqliteWal WalPublisher LocalVfs.

(** ** Changes of the log and calls of the hook *)

Inductive wal_event :=
| EvWrite (i : handle)
| EvTruncate (i : handle)
| EvHook (i : handle) (rc : Z).

(** The log of [i] has changed since the hook last succeeded on it. *)
Definition note (i : handle) (pending : bool) (e : wal_event) : bool :=
  match e with
  | EvWrite j | EvTruncate j => bool_decide (j = i) || pending
  | EvHook j rc => if bool_decide (j = i) && (rc =? SQLITE_OK) then false else pending
  end.
Definition unpublished (i : handle) (events : list wal_event) : bool := foldl (note i) false events.

Lemma unpublished_snoc i events e : unpublished i (events ++ [e]) = note i (unpublished i events) e.
Proof. unfold unpublished. by rewrite foldl_app. Qed.

Section Traced.
Context {U : Type} (m : sqlite3_io_methods U) (hooks : vfs_hooks U).
Context (base_open : option bytes -> handle -> Z -> M U (Z * bool)).

(** The same methods and hooks, which also record what they did. *)
Abbreviation T := (list wal_event * U)%type.

Definition quietly {A} (k : M U A) : M T A := fun t =>
  let '(a, u') := k (snd t) in (a, (fst t, u')).
Definition recording {A} (e : A -> list wal_event) (k : M U A) : M T A := fun t =>
  let '(a, u') := k (snd t) in (a, (fst t ++ e a, u')).

Definition on_success (e : wal_event) (rc : Z) : list wal_event := if rc =? SQLITE_OK then [e] else [].

Definition traced_methods : sqlite3_io_methods T :=
  mkMethods (iVersion m)
    (fun i => quietly (xClose m i))
    (fun i amount offset => quietly (xRead m i amount offset))
    (fun i data offset => recording (on_success (EvWrite i)) (xWrite m i data offset))
    (fun i size => recording (on_success (EvTruncate i)) (xTruncate m i size))
    (fun i flags => quietly (xSync m i flags))
    (fun i => quietly (xFileSize m i))
    (fun i lock => quietly (xLock m i lock))
    (fun i lock => quietly (xUnlock m i lock))
    (fun i => quietly (xCheckReservedLock m i))
    (fun i op => quietly (xFileControl m i op))
    (fun i => quietly (xSectorSize m i))
    (fun i => quietly (xDeviceCharacteristics m i))
    ((fun f i a b c => quietly (f i a b c)) <$> xShmMap m)
    ((fun f i a b c => quietly (f i a b c)) <$> xShmLock m)
    ((fun f i => quietly (f i)) <$> xShmBarrier m)
    ((fun f i a => quietly (f i a)) <$> xShmUnmap m)
    ((fun f i a b => quietly (f i a b)) <$> xFetch m)
    ((fun f i a b => quietly (f i a b)) <$> xUnfetch m).

Definition traced_hooks : vfs_hooks T :=
  mkHooks
    ((fun f name data => quietly (f name data)) <$> wal_sync_hook hooks)
    ((fun f name size rd i db => recording (fun rc => [EvHook i rc]) (f name size rd i db)) <$> wal_reader_sync_hook hooks)
    ((fun f a b => quietly (f a b)) <$> page_hydrate_hook hooks)
    ((fun f a b => quietly (f a b)) <$> page_mark_hook hooks)
    ((fun f a => quietly (f a)) <$> page_truncate_hook hooks).

(** The calls of SQLite, on open handles only. *)
Inductive vfs_op :=
| OpOpen (name : option bytes) (flags : Z)
| OpClose (i : handle)
| OpRead (i : handle) (amount offset : Z)
| OpWrite (i : handle) (data : bytes) (offset : Z)
| OpTruncate (i : handle) (size : Z)
| OpSync (i : handle) (flags : Z).

Definition when_open (i : handle) {A} (k : M (vfs * T) A) : M (vfs * T) unit := fun st =>
  if f_open (file_at i (fst st)) then (tt, snd (k st)) else (tt, st).

Definition run_op (o : vfs_op) : M (vfs * T) unit :=
  match o with
  | OpOpen name flags =>
      let! _ := otsardb_vfs_open (Some (fun name i flags => quietly (base_open name i flags))) name flags in return! tt
  | OpClose i => when_open i (otsardb_io_close traced_methods i)
  | OpRead i amount offset => when_open i (otsardb_io_read traced_methods traced_hooks i amount offset)
  | OpWrite i data offset => when_open i (otsardb_io_write traced_methods traced_hooks i data offset)
  | OpTruncate i size => when_open i (otsardb_io_truncate traced_methods traced_hooks i size)
  | OpSync i flags => when_open i (otsardb_io_sync traced_methods traced_hooks i flags)
  end.

Fixpoint run_ops (os : list vfs_op) : M (vfs * T) unit :=
  match os with
  | [] => return! tt
  | o :: r => let! _ := run_op o in run_ops r
  end.

(** A handle whose log has unpublished changes is dirty; a handle that is not
    there has had no change. *)
Definition tracked (st : vfs * T) : Prop := forall i,
  match v_files (fst st) !! i with
  | Some f => is_wal f = true -> unpublished i (fst (snd st)) = true -> f_wal_dirty f = true
  | None => unpublished i (fst (snd st)) = false
  end.

(** What an operation on [i] may do: other handles and the other fields stay,
    and new events are of [i]. *)
Lemma quiet_under {A} (k : M U A) v t : exists u a, on_under (quietly k) (v, t) = (a, (v, (fst t, u))).
Proof.
  unfold on_under, quietly. cbn [fst snd]. destruct (k (snd t)) as [a u]. by exists u, a.
Qed.

Lemma record_under {A} (e : A -> list wal_event) (k : M U A) v t :
  exists u a, on_under (recording e k) (v, t) = (a, (v, (fst t ++ e a, u))).
Proof.
  unfold on_under, recording. cbn [fst snd]. destruct (k (snd t)) as [a u]. by exists u, a.
Qed.

Lemma tracked_log v log u u' : tracked (v, (log, u)) -> tracked (v, (log, u')).
Proof. done. Qed.

(** An event of [i] together with the flag it sets. *)
Lemma tracked_event i v log u u' e b f :
  tracked (v, (log, u)) -> v_files v !! i = Some f ->
  (forall j p, j <> i -> note j p e = p) ->
  (is_wal f = true -> note i (unpublished i log) e = true -> b = true) ->
  tracked (mkVfs (alter (set_dirty b) i (v_files v)) (v_main_db_file v), (log ++ [e], u')).
Proof.
  intros H Hf Ho Hb j. specialize (H j). cbn [fst snd v_files] in *. rewrite unpublished_snoc.
  destruct (decide (j = i)) as [->|Hne].
  - rewrite list_lookup_alter, decide_True, Hf by done. exact Hb.
  - rewrite list_lookup_alter_ne by done. by rewrite Ho.
Qed.

(** An event of a handle that is not a log. *)
Lemma tracked_other i v log u u' e f :
  tracked (v, (log, u)) -> v_files v !! i = Some f -> is_wal f = false ->
  (forall j p, j <> i -> note j p e = p) -> tracked (v, (log ++ [e], u')).
Proof.
  intros H Hf Hw Ho j. specialize (H j). cbn [fst snd] in *. rewrite unpublished_snoc.
  destruct (decide (j = i)) as [->|Hne].
  - rewrite Hf. by rewrite Hw.
  - by rewrite Ho.
Qed.

Lemma tracked_flag i v log u f b :
  tracked (v, (log, u)) -> v_files v !! i = Some f -> (is_wal f = true -> unpublished i log = true -> b = true) ->
  tracked (mkVfs (alter (set_dirty b) i (v_files v)) (v_main_db_file v), (log, u)).
Proof.
  intros H Hf Hb j. specialize (H j). cbn [fst snd v_files] in *. destruct (decide (j = i)) as [->|Hne].
  - rewrite list_lookup_alter, decide_True, Hf by done. exact Hb.
  - by rewrite list_lookup_alter_ne.
Qed.

Lemma open_file i v : f_open (file_at i v) = true -> exists f, v_files v !! i = Some f /\ file_at i v = f.
Proof. unfold file_at. destruct (v_files v !! i) as [f|]; [|done]. by exists f. Qed.

(** A change of the file: a write or a truncation, with its event. *)
Definition change (i : handle) (e : wal_event) (k : M U Z) (report : M U unit) (reported : bool) : M (vfs * T) Z :=
  let! v := get_vfs in
  let f := file_at i v in
  let! rc := on_under (recording (on_success e) k) in
  if negb (rc =? SQLITE_OK) then return! rc else
  let! _ := if is_wal f then update_file i (set_dirty true)
            else if reported && (is_main_db f && f_instance f) then on_under (quietly report) else return! tt in
  return! rc.

Lemma change_tracked i e k report reported st : f_open (file_at i (fst st)) = true -> tracked st ->
  (forall j p, j <> i -> note j p e = p) ->
  tracked (snd (change i e k report reported st)).
Proof.
  destruct st as [v [log u]]. intros Ho H He. destruct (open_file _ _ Ho) as (f & Hf & Ef).
  unfold change, mbind_, get_vfs. cbn [fst] in *. rewrite Ef.
  destruct (record_under (on_success e) k v (log, u)) as (u1 & rc & E). rewrite E. cbn [fst].
  unfold on_success. destruct (rc =? SQLITE_OK) eqn:Erc; cbn [negb]; [|by rewrite app_nil_r].
  destruct (is_wal f) eqn:Ew.
  - cbn. eapply tracked_event; done.
  - destruct (reported && _).
    + destruct (quiet_under report v (log ++ [e], u1)) as (u2 & [] & E2). rewrite E2. cbn. by eapply tracked_other.
    + cbn. by eapply tracked_other.
Qed.

Lemma write_tracked i data offset st : f_open (file_at i (fst st)) = true -> tracked st ->
  tracked (snd (otsardb_io_write traced_methods traced_hooks i data offset st)).
Proof.
  intros Ho H.
  pose proof (fun report reported => change_tracked i (EvWrite i) (xWrite m i data offset) report reported st Ho H) as Hc.
  assert (forall j p, j <> i -> note j p (EvWrite i) = p) as He.
  { intros j p Hj. cbn. by rewrite bool_decide_eq_false_2 by congruence. }
  unfold otsardb_io_write. cbn [traced_hooks page_mark_hook]. destruct (page_mark_hook hooks) as [mark|]; cbn [fmap option_fmap option_map].
  - exact (Hc (mark offset (zlen data)) true He).
  - exact (Hc (mret_ tt) false He).
Qed.

Lemma truncate_tracked i size st : f_open (file_at i (fst st)) = true -> tracked st ->
  tracked (snd (otsardb_io_truncate traced_methods traced_hooks i size st)).
Proof.
  intros Ho H.
  pose proof (fun report reported => change_tracked i (EvTruncate i) (xTruncate m i size) report reported st Ho H) as Hc.
  assert (forall j p, j <> i -> note j p (EvTruncate i) = p) as He.
  { intros j p Hj. cbn. by rewrite bool_decide_eq_false_2 by congruence. }
  unfold otsardb_io_truncate. cbn [traced_hooks page_truncate_hook].
  destruct (page_truncate_hook hooks) as [truncate|]; cbn [fmap option_fmap option_map].
  - exact (Hc (truncate size) true He).
  - exact (Hc (mret_ tt) false He).
Qed.

Lemma read_tracked i amount offset st : tracked st ->
  tracked (snd (otsardb_io_read traced_methods traced_hooks i amount offset st)).
Proof.
  destruct st as [v [log u]]. intros H. unfold otsardb_io_read, mbind_, get_vfs. cbn [fst].
  assert (forall rc w, tracked (snd ((if negb (rc =? SQLITE_OK) then mret_ (rc, [])
                        else on_under (xRead traced_methods i amount offset)) (v, (log, w))))) as Hr.
  { intros rc w. destruct (negb _); [done|]. cbn [traced_methods xRead].
    destruct (quiet_under (xRead m i amount offset) v (log, w)) as (u2 & a & ->). done. }
  cbn [traced_hooks page_hydrate_hook]. destruct (page_hydrate_hook hooks) as [hydrate|]; cbn [fmap option_fmap option_map].
  - destruct (is_main_db _ && _); [|exact (Hr SQLITE_OK u)].
    destruct (quiet_under (hydrate offset amount) v (log, u)) as (u2 & rc & ->). exact (Hr rc u2).
  - exact (Hr SQLITE_OK u).
Qed.

(** A sync keeps the flags right and, when it succeeds on a log that has a
    reader hook, leaves nothing unpublished. *)
Lemma sync_tracked i flags st rc st' : f_open (file_at i (fst st)) = true -> tracked st ->
  wal_reader_sync_hook hooks <> None -> otsardb_io_sync traced_methods traced_hooks i flags st = (rc, st') ->
  tracked st' /\ (rc = SQLITE_OK -> is_wal (file_at i (fst st)) = true ->
                  f_instance (file_at i (fst st)) = true -> unpublished i (fst (snd st')) = false).
Proof.
  destruct st as [v [log u]]. intros Ho H Hk. destruct (open_file _ _ Ho) as (f & Hf & Ef). cbn [fst] in *.
  pose proof (H i) as Hi. cbn [fst snd] in Hi. rewrite Hf in Hi.
  unfold otsardb_io_sync, mbind_, get_vfs. cbn [fst traced_methods xSync xFileSize]. rewrite Ef.
  destruct (quiet_under (xSync m i flags) v (log, u)) as (u1 & rc1 & ->). cbn [fst].
  destruct (Z.eqb_spec rc1 SQLITE_OK) as [->|Hn]; cbn [negb].
  2:{ intros [= <- <-]. split; [done|]. congruence. }
  destruct (is_wal f) eqn:Ew; cbn [negb orb].
  2:{ intros [= <- <-]. split; [done|]. congruence. }
  destruct (f_wal_dirty f) eqn:Ed; cbn [negb orb].
  2:{ intros [= <- <-]. split; [done|]. intros _ _ _. cbn [fst snd].
      destruct (unpublished i log); [|done]. by specialize (Hi eq_refl eq_refl). }
  destruct (f_instance f) eqn:Ei; cbn [negb].
  2:{ intros [= <- <-]. split; [done|]. congruence. }
  cbn [traced_hooks wal_reader_sync_hook wal_sync_hook].
  destruct (wal_reader_sync_hook hooks) as [hook|]; cbn [fmap option_fmap option_map].
  - destruct (quiet_under (xFileSize m i) v (log, u1)) as (u2 & [rc2 size] & ->). cbn [fst].
    destruct (Z.eqb_spec rc2 SQLITE_OK) as [->|Hn]; cbn [negb].
    2:{ intros [= <- <-]. split; [done|]. congruence. }
    destruct (size <? 0); [intros [= <- <-]; split; [done|intros [=]]|].
    unfold on_under at 1. cbn [fst snd]. unfold recording.
    destruct (hook _ _ _ _ _ _) as [rc3 u3]. cbn [fst snd].
    destruct (Z.eqb_spec rc3 SQLITE_OK) as [->|Hn].
    + intros [= <- <-]. split.
      * eapply tracked_event; [done|done| |].
        -- intros j p Hj. cbn. by rewrite bool_decide_eq_false_2 by congruence.
        -- cbn. by rewrite bool_decide_eq_true_2.
      * intros _ _ _. cbn [fst snd]. rewrite unpublished_snoc. cbn. by rewrite bool_decide_eq_true_2.
    + intros [= <- <-]. split; [|congruence]. intros j. specialize (H j). cbn [fst snd] in *.
      rewrite unpublished_snoc. cbn. apply Z.eqb_neq in Hn as ->. by rewrite andb_false_r.
  - done.
Qed.
Lemma close_tracked i st : tracked st -> tracked (snd (otsardb_io_close traced_methods i st)).
Proof.
  destruct st as [v [log u]]. intros H. unfold otsardb_io_close, mbind_. cbn [traced_methods xClose].
  destruct (quiet_under (xClose m i) v (log, u)) as (u1 & rc & ->). cbn. intros j. specialize (H j). cbn [fst snd v_files] in *.
  destruct (decide (i = j)) as [->|Hne]; [|by rewrite list_lookup_alter_ne].
  rewrite list_lookup_alter, decide_True by done. by destruct (v_files v !! j).
Qed.

Lemma open_tracked name flags st : tracked st ->
  tracked (snd (otsardb_vfs_open (Some (fun name i flags => quietly (base_open name i flags))) name flags st)).
Proof.
  destruct st as [v [log u]]. intros H. unfold otsardb_vfs_open, mbind_, get_vfs. cbn [fst].
  destruct (quiet_under (base_open name (length (v_files v)) flags) v (log, u)) as (u1 & [rc methods] & ->).
  assert (forall f main, tracked (mkVfs (v_files v ++ [f]) main, (log, u1))) as Hp.
  { intros f main j. specialize (H j). cbn [fst snd v_files] in *. destruct (decide (j < length (v_files v))%nat) as [Hj|Hj].
    - by rewrite lookup_app_l.
    - rewrite lookup_ge_None_2 in H by lia. rewrite H.
      destruct (decide (j = length (v_files v))) as [->|Hne]; [by rewrite list_lookup_middle|].
      rewrite lookup_ge_None_2; [done|]. rewrite length_app. cbn. lia. }
  destruct (negb (rc =? SQLITE_OK)); [apply Hp|]. destruct (negb methods); apply Hp.
Qed.

Lemma run_ops_tracked os st : wal_reader_sync_hook hooks <> None -> tracked st -> tracked (snd (run_ops os st)).
Proof.
  intros Hk. revert st. induction os as [|o os IH]; intros st H; cbn [run_ops]; [done|]. unfold mbind_.
  assert (tracked (snd (run_op o st))) as H1.
  { destruct o as [name flags|i|i amount offset|i data offset|i size|i flags]; cbn [run_op]; unfold when_open.
    { pose proof (open_tracked name flags st H). unfold mbind_. by destruct (otsardb_vfs_open _ name flags st). }
    all: destruct (f_open (file_at i (fst st))) eqn:Ho; [|done]; cbn [snd].
    - by apply close_tracked.
    - by apply read_tracked.
    - by apply write_tracked.
    - by apply truncate_tracked.
    - destruct (otsardb_io_sync traced_methods traced_hooks i flags st) as [rc st'] eqn:E. by eapply sync_tracked. }
  destruct (run_op o st) as [[] st1]. by apply IH.
Qed.
End Traced.

(** C18. Acknowledged syncs are published. Whatever SQLite does with the files
    of an instance, and whatever the system calls and the hook return: when a sync
    of an open write-ahead log returns SQLITE_OK, no successful write or truncation
    of that log is newer than the last call of the publication hook on it that
    succeeded. A hook that fails leaves the log dirty, and the next sync calls it
    again. *)
Theorem vfs_sync_publishes {U} (m : sqlite3_io_methods U) hooks base_open os u i flags st st' :
  wal_reader_sync_hook hooks <> None ->
  run_ops m hooks base_open os (fresh_vfs, ([], u)) = (tt, st) ->
  f_open (file_at i (fst st)) = true -> f_instance (file_at i (fst st)) = true -> is_wal (file_at i (fst st)) = true ->
  otsardb_io_sync (traced_methods m) (traced_hooks hooks) i flags st = (SQLITE_OK, st') ->
  unpublished i (fst (snd st')) = false.
Proof.
  intros Hk Hr Ho Hin Hw Hs. assert (tracked st) as Ht.
  { change st with (snd (tt, st)). rewrite <- Hr. by apply run_ops_tracked. }
  destruct (sync_tracked m hooks i flags st SQLITE_OK st' Ho Ht Hk Hs) as [_ H]. by apply H.
Qed.

(** ** An instance whose hook fails once *)

(** Files of bytes, a hook with the results it still has to give. *)
Definition sample_methods : sqlite3_io_methods (gmap handle bytes * list Z) :=
  mkMethods 1 (fun i u => (SQLITE_OK, u))
    (fun i amount offset u =>
       ((SQLITE_OK, take (Z.to_nat amount) (drop (Z.to_nat offset) (default [] (fst u !! i)))), u))
    (fun i data offset u => (SQLITE_OK, (<[i := default [] (fst u !! i) ++ data]> (fst u), snd u)))
    (fun i size u => (SQLITE_OK, (<[i := take (Z.to_nat size) (default [] (fst u !! i))]> (fst u), snd u)))
    (fun i flags u => (SQLITE_OK, u)) (fun i u => ((SQLITE_OK, zlen (default [] (fst u !! i))), u))
    (fun i lock u => (SQLITE_OK, u)) (fun i lock u => (SQLITE_OK, u)) (fun i u => ((SQLITE_OK, 0), u))
    (fun i op u => (SQLITE_OK, u)) (fun i u => (4096, u)) (fun i u => (0, u)) None None None None None None.

Definition sample_hooks : vfs_hooks (gmap handle bytes * list Z) :=
  mkHooks None
    (Some (fun name size rd i db u =>
       match snd u with [] => (SQLITE_OK, u) | rc :: r => (rc, (fst u, r)) end)) None None None.

Definition sample_open : option bytes -> handle -> Z -> M (gmap handle bytes * list Z) (Z * bool) :=
  fun name i flags u => ((SQLITE_OK, true), u).

Definition sample_ops : list vfs_op :=
  [OpOpen (Some (str "db")) SQLITE_OPEN_MAIN_DB; OpOpen (Some (str "db-wal")) SQLITE_OPEN_WAL;
   OpWrite 1 [1; 2; 3] 0; OpSync 1 0].

Definition sample_state := snd (run_ops sample_methods sample_hooks sample_open sample_ops (fresh_vfs, ([], (∅, [SQLITE_BUSY])))).

(** After a sync that failed the log is dirty, and the next sync publishes it. *)
Lemma vfs_sync_publishes_witness :
  unpublished 1 (fst (snd sample_state)) = true /\
  unpublished 1 (fst (snd (snd (otsardb_io_sync (traced_methods sample_methods) (traced_hooks sample_hooks) 1 0 sample_state)))) = false.
Proof.
  split; [vm_compute; reflexivity|].
  apply (vfs_sync_publishes sample_methods sample_hooks sample_open sample_ops (∅, [SQLITE_BUSY]) 1 0 sample_state);
    try (vm_compute; reflexivity); discriminate.
Defined.

(** ** The layout of a handle *)

Lemma mask_low x : 0 <= x < 2 ^ 64 -> Z.land x (2 ^ 64 - 16) = x / 16 * 16.
Proof.
  intros Hx. change (2 ^ 64 - 16) with (Z.shiftl (Z.ones 60) 4).
  change 16 with (2 ^ 4) at 1 2. rewrite <- Z.shiftr_div_pow2, <- Z.shiftl_mul_pow2 by lia.
  apply Z.bits_inj'. intros n Hn. rewrite Z.land_spec. destruct (Z.ltb_spec n 4).
  - rewrite !Z.shiftl_spec_low by done. by rewrite andb_false_r.
  - rewrite !Z.shiftl_spec_high, Z.shiftr_spec by lia. replace (n - 4 + 4) with n by lia.
    destruct (Z.ltb_spec n 64).
    + rewrite Z.ones_spec_low by lia. by rewrite andb_true_r.
    + rewrite Z.ones_spec_high by lia. rewrite andb_false_r. symmetry. destruct (Z.eqb_spec x 0) as [->|].
      * apply Z.testbit_0_l.
      * apply Z.bits_above_log2; [lia|]. apply Z.log2_lt_pow2; [lia|]. apply Z.lt_le_trans with (2 ^ 64); [lia|].
        apply Z.pow_le_mono_r; lia.
Qed.

(** [align_up] is the least multiple of the alignment that is not smaller. *)
Lemma align_up_spec value : 0 <= value < 2 ^ 63 ->
  value <= align_up value < value + ALIGNMENT /\ align_up value mod ALIGNMENT = 0.
Proof.
  intros H. unfold align_up, u64, ALIGNMENT. rewrite Z.mod_small by lia.
  change (UINT64_MAX - (16 - 1)) with (2 ^ 64 - 16). rewrite mask_low by lia.
  pose proof (Z.div_mod (value + 16 - 1) 16 ltac:(lia)). pose proof (Z.mod_pos_bound (value + 16 - 1) 16 ltac:(lia)).
  split; [lia|apply Z_mod_mult].
Qed.

(** A configured instance: the wrapper and the underlying file, aligned, fill
    the handle SQLite allocates, and its size is an [int]. *)
Theorem vfs_handle_layout sizeof_file base name table :
  0 <= sizeof_file < 2 ^ 63 -> 0 <= vt_szOsFile base ->
  configure_instance sizeof_file (Some base) name = inr table ->
  let underlying := align_up sizeof_file in
  sizeof_file <= underlying /\ underlying mod ALIGNMENT = 0 /\
  vt_szOsFile table = underlying + vt_szOsFile base /\ vt_szOsFile table <= INT_MAX.
Proof.
  intros Hs Hb. pose proof (align_up_spec sizeof_file Hs) as [Ha Hm]. unfold configure_instance.
  destruct name as [|c name]; [done|]. cbv zeta. destruct ((INT_MAX <? align_up sizeof_file) || _) eqn:E; [done|].
  prop_bools. intros [= <-]. cbn. split_and!; done || lia.
Qed.

(** ** Names of instances *)

Definition names (registered : list sqlite3_vfs) : list bytes := vt_name <$> registered.

Lemma vfs_find_None name registered : vfs_find name registered = None -> name ∉ names registered.
Proof.
  unfold vfs_find, names. intros H Hin. apply list_elem_of_fmap in Hin as (v & -> & Hv).
  apply list_elem_of_In in Hv. pose proof (find_none _ _ H v Hv) as Hn. cbn in Hn. by rewrite bytes_eqb_refl in Hn.
Qed.

Lemma draw_name_fresh n draws registered name : draw_name n draws registered = Some name ->
  (name ∉ names registered) /\ exists k, name = instance_name (draws k).
Proof.
  revert draws. induction n as [|n IH]; intros draws; cbn [draw_name]; [done|].
  destruct (vfs_find _ registered) eqn:E.
  - intros H. destruct (IH _ H) as [? [k ?]]. eauto.
  - intros [= <-]. split; [by apply vfs_find_None|]. by exists O.
Qed.

Lemma instance_name_length r : length (instance_name r) = (11 + 2 * length r)%nat.
Proof.
  unfold instance_name. rewrite length_app. change (length (str "otsardb-db-")) with 11%nat. f_equal.
  induction r as [|b r IH]; [done|]. rewrite bind_cons, length_app, IH. cbn. lia.
Qed.

(** Calls on the registry of VFSes; a random draw is eight bytes. *)
Inductive registry_op :=
| RegCreate (init register : Z) (draws : nat -> bytes)
| RegDefault (register : Z)
| RegDestroy (instance : option bytes).

Definition run_registry (sizeof_file : Z) (st : bool * list sqlite3_vfs) (o : registry_op) : bool * list sqlite3_vfs :=
  match o with
  | RegCreate init register draws =>
      (fst st, snd (otsardb_local_vfs_instance_create sizeof_file init register draws (snd st)))
  | RegDefault register =>
      let '(_, done, registered) := otsardb_local_vfs_register sizeof_file register (fst st) (snd st) in (done, registered)
  | RegDestroy instance => (fst st, otsardb_local_vfs_instance_destroy instance (snd st))
  end.

Definition draws_ok (o : registry_op) : Prop :=
  match o with RegCreate _ _ draws => forall k, length (draws k) = 8%nat | _ => True end.

(** Names are distinct, and the default instance is there once registered. *)
Definition registry_ok (st : bool * list sqlite3_vfs) : Prop :=
  NoDup (names (snd st)) /\ (fst st = false -> otsardb_local_vfs_name ∉ names (snd st)).

Lemma registry_step sizeof_file st o : registry_ok st -> draws_ok o -> registry_ok (run_registry sizeof_file st o).
Proof.
  destruct st as [done registered]. intros [Hn Hd] Ho. cbn [fst snd] in *. destruct o as [init register draws|register|instance].
  - cbn [run_registry fst snd]. unfold otsardb_local_vfs_instance_create.
    destruct (negb (init =? SQLITE_OK)); [done|]. destruct registered as [|base rest]; [done|].
    destruct (draw_name 8 draws (base :: rest)) as [name|] eqn:E; [|done].
    apply draw_name_fresh in E as [Hf [k ->]]. unfold configure_instance.
    destruct (instance_name (draws k)) as [|c t] eqn:En; [done|]. rewrite <- En in *. cbv zeta.
    destruct (_ || _); [done|]. destruct (negb (register =? SQLITE_OK)); [done|]. cbn [snd].
    assert (snprintf_s 64 (instance_name (draws k)) = instance_name (draws k)) as Hs.
    { unfold snprintf_s. apply take_ge. rewrite instance_name_length, Ho. vm_compute. lia. }
    unfold registry_ok. cbn [fst snd]. unfold names. rewrite fmap_app. cbn [fmap list_fmap vt_name]. rewrite Hs. split.
    + rewrite <- Permutation_cons_append. by constructor.
    + intros Hf'. specialize (Hd Hf'). rewrite elem_of_app, list_elem_of_singleton. intros [?|Hx]; [done|].
      apply (f_equal length) in Hx. rewrite instance_name_length, Ho in Hx. by vm_compute in Hx.
  - cbn [run_registry fst snd]. unfold otsardb_local_vfs_register. destruct done; [done|].
    destruct registered as [|base rest]; [done|]. unfold configure_instance. cbv zeta.
    change otsardb_local_vfs_name with (111 :: drop 1 otsardb_local_vfs_name). cbn match.
    change (111 :: drop 1 otsardb_local_vfs_name) with otsardb_local_vfs_name.
    destruct (_ || _); [done|]. destruct (register =? SQLITE_OK); [|done]. unfold registry_ok. cbn [fst snd]. split; [|done].
    unfold names. rewrite fmap_app. cbn [fmap list_fmap vt_name].
    change (snprintf_s 64 otsardb_local_vfs_name) with otsardb_local_vfs_name.
    rewrite <- Permutation_cons_append. constructor; [by apply Hd|done].
  - cbn [run_registry fst snd]. unfold otsardb_local_vfs_instance_destroy. destruct instance as [name|]; [|done].
    case_match; [done|]. unfold registry_ok, names in *. cbn [fst snd]. split.
    + apply (sublist_NoDup _ _ Hn). apply fmap_sublist, sublist_filter.
    + intros Hx Hin. apply (Hd Hx). apply list_elem_of_fmap in Hin as (v & -> & Hv). apply list_elem_of_filter in Hv as [_ Hv].
      by apply list_elem_of_fmap_2.
Qed.

(** Whatever is drawn, registered and destroyed, no two registered VFSes have
    the same name: an instance finds its own hooks. *)
Theorem vfs_names_distinct sizeof_file base os :
  vt_name base <> otsardb_local_vfs_name -> Forall draws_ok os ->
  NoDup (names (snd (foldl (run_registry sizeof_file) (false, [base]) os))).
Proof.
  intros Hb Hos. assert (registry_ok (false, [base])) as H0.
  { split; cbn; [apply NoDup_singleton|]. intros _ Hx. apply list_elem_of_singleton in Hx. congruence. }
  generalize dependent (false, [base]). induction Hos as [|o os Ho Hos IH]; intros st H0; [apply H0|].
  cbn [foldl]. apply IH. by apply registry_step.
Qed.

(** Closing a main database file leaves it the main database of the instance:
    the next sync hands the hook a reader of a closed file. *)
Theorem vfs_main_db_outlives_close :
  let st := snd (run_ops sample_methods sample_hooks sample_open
    [OpOpen (Some (str "db")) SQLITE_OPEN_MAIN_DB; OpOpen (Some (str "db")) SQLITE_OPEN_MAIN_DB; OpClose 1]
    (fresh_vfs, ([], (∅, [])))) in
  v_main_db_file (fst st) = Some 1%nat /\ f_open (file_at 1 (fst st)) = false /\ f_open (file_at 0 (fst st)) = true.
Proof. vm_compute. done. Qed.
