(* ===== verification/LocalVfsLazy.v ===== *)
(** * Reads of SQLite over lazy hydration

    The VFS of a lazy session: the page hook of the session (s3_database.cpp)
    asks the hydrator, and the read of the image file follows. What SQLite reads
    is what the head has; what the publication hook reads of the same file is
    not. *)

From S2P Require Import Prelude CText JsonText ObjectStore Journal Codec WalBatch Sha256 Segment SqliteWal Checksum.
From S2P Require Import DbMetadata CommitManifest CommitPublish Cipher LocalFile Recovery WalPublisher Triples RecoveryProps.
From S2P Require Import SegmentTheory CipherTheory LazyCache LazyHydration LazyRestore LazyTheory LazySound LazyDemand LazyOpen LazyProps LocalVfs.

Section Session.
Context `{HSha : Sha256} `{HLz4 : Lz4} `{HA : Aead}.
Context (getenv : bytes -> option bytes) (freed : bytes -> bytes).
Context {S : Type} (store : otsardb_object_store S).
Context (rounds wakeups : nat) (thread_limit : Z).

Abbreviation W := (otsardb_lazy_hydrator * (S * local))%type.

(** A read that waits for ever does not return; it is not a success. *)
Definition session_page_hydrate (offset amount : Z) : M W Z :=
  let! r := otsardb_lazy_hydrate_bytes getenv store freed (lazy_pool_worker_main store rounds) wakeups thread_limit
              offset amount in
  return! match r with inr true => SQLITE_OK | _ => SQLITE_IOERR_READ end.

(** A write covers no more pages than bytes; a loop that does not end (pages up to
    2^32 - 1) does not return, and the state stays. *)
Definition session_page_mark (offset amount : Z) : M W unit := fun w =>
  (tt, (default (fst w) (otsardb_lazy_mark_bytes (Datatypes.S (Z.to_nat amount)) offset amount (fst w)), snd w)).

Definition session_page_truncate (new_size : Z) : M W unit := fun w =>
  (tt, (otsardb_lazy_clear_beyond_bytes new_size (fst w), snd w)).

Definition session_hooks (reader : option (bytes -> Z -> otsardb_sqlite_wal_read_at -> handle ->
                                           option (otsardb_sqlite_wal_read_at * handle) -> M W Z))
    : vfs_hooks W := mkHooks None reader (Some session_page_hydrate) (Some session_page_mark) (Some session_page_truncate).

(** The system VFS reads the file at [path] for the handle: a read that
    succeeds gives the bytes that are there. *)
Definition reads_image (m : sqlite3_io_methods W) (i : handle) (path : bytes) : Prop :=
  forall amount offset w data w', xRead m i amount offset w = ((SQLITE_OK, data), w') ->
  exists image, l_files (snd (snd w)) !! path = Some image /\
    data = take (Z.to_nat amount) (drop (Z.to_nat offset) image).

(** A part of a page. *)
Lemma page_part ps image p offset amount : 0 < ps -> 0 <= offset -> 0 <= amount -> p = offset / ps + 1 ->
  offset mod ps + amount <= ps ->
  take (Z.to_nat amount) (drop (Z.to_nat offset) image) =
    take (Z.to_nat amount) (drop (Z.to_nat (offset mod ps)) (page_at ps image p)).
Proof.
  intros Hps Ho Ha -> Hm. unfold page_at. replace (offset / ps + 1 - 1) with (offset / ps) by lia.
  pose proof (Z.div_mod offset ps ltac:(lia)) as Hd. pose proof (Z.mod_pos_bound offset ps Hps).
  assert (0 <= offset / ps) by (apply Z.div_pos; lia). assert (0 <= offset / ps * ps) by nia.
  rewrite List.skipn_firstn_comm, take_take, drop_drop. f_equal; [lia|]. f_equal. lia.
Qed.

Context (view : S -> contents) (env : contents -> contents -> Prop).
Context {Hlaws : StoreLaws store view env} {Hrange : RangeLaw store view env}.
Context (I : lazy_index) (refs : list lazy_task_ref) (expected : Z -> bytes).
Context (Hok : chain_ok freed env I refs expected).

Abbreviation sound := (LazyDemand.sound freed view I refs expected).

Lemma hydrate_bytes_marks offset amount w r w' : sound w -> 0 <= offset -> 0 < amount ->
  offset / li_page_size I + 1 <= li_database_size_pages I -> offset mod li_page_size I + amount <= li_page_size I ->
  session_page_hydrate offset amount w = (r, w') ->
  sound w' /\ (r = SQLITE_OK -> LazySound.marked I (offset / li_page_size I + 1) w').
Proof.
  intros Hw Ho Ha Hp Hm E. destruct Hok as [Hps Hsz _ _ _ _ _]. set (ps := li_page_size I) in *.
  assert (Hi : lh_index (fst w) = I) by (destruct Hw as [n Hw]; by apply (iv_index _ _ _ _ _ _ _ _ Hw)).
  assert (Hdiv : 0 <= offset / ps) by (apply Z.div_pos; lia).
  pose proof (Z.div_mod offset ps ltac:(lia)) as Hdm. pose proof (Z.mod_pos_bound offset ps ltac:(lia)).
  unfold UINT32_MAX in Hsz. assert (Hend : (offset + amount - 1) / ps = offset / ps).
  { symmetry. apply Z.div_unique with (offset mod ps + amount - 1); lia. }
  assert (Hsmall : u64 (offset + amount - 1) = offset + amount - 1).
  { unfold u64. apply Z.mod_small. split; [lia|]. assert (offset + amount <= (offset / ps + 1) * ps) by nia.
    assert ((offset / ps + 1) * ps <= 2 ^ 32 * 2 ^ 32) by nia. lia. }
  unfold session_page_hydrate, mbind_ in E. destruct (otsardb_lazy_hydrate_bytes _ _ _ _ _ _ _ _ w) as [b w1] eqn:E1.
  injection E as <- <-. unfold otsardb_lazy_hydrate_bytes, mbind_err, mbind_, lift_ok, get_h in E1. cbn in E1.
  unfold lh_page_size in E1. rewrite Hi in E1. fold ps in E1.
  destruct (Z.leb_spec amount 0); [lia|]. destruct (Z.ltb_spec offset 0); [lia|]. destruct (Z.eqb_spec ps 0); [lia|].
  cbn [orb] in E1. rewrite Hsmall, Hend in E1. destruct (Z.ltb_spec UINT32_MAX (offset / ps + 1)); [unfold UINT32_MAX in *; lia|].
  assert (Hu : u32 (offset / ps + 1) = offset / ps + 1) by (unfold u32; apply Z.mod_small; lia). rewrite Hu in E1.
  eapply (read_range_sound getenv freed store rounds wakeups thread_limit view env I refs expected Hok) in E1 as [Hs HQ]; [|lia|lia|done].
  split; [done|]. destruct b as [|[|]]; try done. intros _. apply HQ; [done|lia].
Qed.

(** A read of the main database of a sound session. *)
Lemma io_read_serves m i reader v w amount offset data st' :
  reads_image m i (li_path I) -> sound w -> is_main_db (file_at i v) = true -> f_instance (file_at i v) = true ->
  0 <= offset -> 0 < amount -> offset / li_page_size I + 1 <= li_database_size_pages I ->
  offset mod li_page_size I + amount <= li_page_size I ->
  otsardb_io_read m (session_hooks reader) i amount offset (v, w) = ((SQLITE_OK, data), st') ->
  data = take (Z.to_nat amount) (drop (Z.to_nat (offset mod li_page_size I)) (expected (offset / li_page_size I + 1))).
Proof.
  intros Hm Hw Hdb Hin Ho Ha Hp Hpart. unfold otsardb_io_read, mbind_, get_vfs. cbn [fst session_hooks page_hydrate_hook].
  rewrite Hdb, Hin. cbn [andb]. unfold on_under at 1. cbn [fst snd].
  destruct (session_page_hydrate offset amount w) as [rc w1] eqn:E.
  apply hydrate_bytes_marks in E as [Hs HQ]; [|done..].
  destruct (Z.eqb_spec rc SQLITE_OK) as [->|Hne]; cbn [negb]; [|unfold mret_; intros [= -> _ _]; done].
  unfold on_under. cbn [fst snd]. destruct (xRead m i amount offset w1) as [r w2] eqn:E2. intros [= -> _].
  apply Hm in E2 as (image & Hi & ->). destruct Hok as [Hps _ _ _ _ _ _].
  assert (0 <= offset / li_page_size I) by (apply Z.div_pos; lia).
  destruct (sound_page freed view I refs expected w1 (offset / li_page_size I + 1) Hs ltac:(lia) (HQ eq_refl)) as (image' & Hi' & Hpg).
  rewrite Hi in Hi'. injection Hi' as <-. rewrite <- Hpg. apply page_part; lia.
Qed.
End Session.


(** ** The sample database through the VFS *)

Module VfsSample.
Import RecoverySample.

Abbreviation W := (otsardb_lazy_hydrator * (contents * local))%type.

(** Reads of the image file; a read past its end is short. *)
Definition image_methods : sqlite3_io_methods W :=
  mkMethods 1 (fun i w => (SQLITE_OK, w))
    (fun i amount offset w =>
       match l_files (snd (snd w)) !! path with
       | Some image => ((SQLITE_OK, take (Z.to_nat amount) (drop (Z.to_nat offset) image)), w)
       | None => ((SQLITE_IOERR_READ, []), w)
       end)
    (fun i data offset w => (SQLITE_IOERR_WRITE, w)) (fun i size w => (SQLITE_IOERR_WRITE, w))
    (fun i flags w => (SQLITE_OK, w)) (fun i w => ((SQLITE_OK, 1024), w))
    (fun i lock w => (SQLITE_OK, w)) (fun i lock w => (SQLITE_OK, w)) (fun i w => ((SQLITE_OK, 0), w))
    (fun i op w => (SQLITE_OK, w)) (fun i w => (4096, w)) (fun i w => (0, w)) None None None None None None.

Lemma image_methods_read i : reads_image image_methods i path.
Proof.
  intros amount offset w data w'. cbn. destruct (l_files _ !! path) as [image|]; [|done].
  intros [= <- <-]. by exists image.
Qed.

Definition main_db : vfs := mkVfs [mkFile true true (Some path) SQLITE_OPEN_MAIN_DB false] (Some O).
Definition opened_state : W := (LazySample.hydrator, (objects, LazySample.files)).
Definition hooks : vfs_hooks W :=
  session_hooks (HSha := sum_sha256) (HLz4 := zero_lz4) LazySample.getenv id shelf 2 9 1 None.

(** Twenty bytes in the middle of page 2. *)
Definition part_read := otsardb_io_read image_methods hooks 0 20 528 (main_db, opened_state).
End VfsSample.

Lemma pair_ok {A B C} (x : (A * B) * C) a : fst (fst x) = a -> x = ((a, snd (fst x)), snd x).
Proof. destruct x as [[? ?] ?]. cbn. by intros ->. Qed.


(** The publication hook reads old pages of the main database through
    [wal_reader_read_at], which does not hydrate: of a page that has not come yet
    it gets zeros where SQLite gets the bytes of the head, and the contribution
    that is taken out of the rolling checksum is not the page's. *)
Theorem vfs_old_page_not_hydrated :
  let read := wal_reader_read_at VfsSample.image_methods VfsSample.opened_state 0 in
  read 512 512 = Some (replicate 512 0) /\
  fst (otsardb_io_read VfsSample.image_methods VfsSample.hooks 0 512 512 (VfsSample.main_db, VfsSample.opened_state)) =
    (SQLITE_OK, RecoverySample.page 66) /\
  old_page_contrib (Some read) 2 512 <> Some (otsardb_checksum_accumulate 0 2 (RecoverySample.page 66)).
Proof. cbv zeta. split_and!; [vm_compute; reflexivity|vm_compute; reflexivity|vm_compute; discriminate]. Qed.
