(* ===== verification/Core.v ===== *)
(** * The handle of a database (core/otsardb.c)

    Opening, executing and closing over the SQL engine. The engine and the
    hooks of the storage integration are parameters: operations on a state [E].
    The calls that matter to their order are recorded. *)

From S2P Require Import Prelude CText LocalVfs WalPublisher.

Definition OTSARDB_OK : Z := 0.
Definition OTSARDB_ERROR : Z := 1.
Definition OTSARDB_UNSUPPORTED : Z := 2.

(** The second scheme is compared on its first eleven bytes only. *)
Definition is_s3_target (target : bytes) : bool :=
  prefixb (str "s3://") target || prefixb (take 11 (str "otsardb+s3://")) target.

(** What the engine and the hooks did. *)
Inductive call :=
| CallLock | CallUnlock | CallPreExec | CallExec (sql : bytes) | CallSqliteClose | CallCloseHook.

(** The calls of the engine; [engine_exec] is [sqlite3_exec]. *)
Record engine (E : Type) := mkEngine {
  engine_initialize : M E Z;
  engine_vfs_register : M E Z; (* [otsardb_local_vfs_register] *)
  engine_vfs_find : bytes -> M E bool;
  engine_open : bytes -> bytes -> M E (Z * bool); (* whether a handle was allocated *)
  engine_exec : bytes -> M E Z;
  engine_close : M E Z
}.
#[global] Arguments mkEngine {E}.
#[global] Arguments engine_initialize {E}.
#[global] Arguments engine_vfs_register {E}.
#[global] Arguments engine_vfs_find {E}.
#[global] Arguments engine_open {E}.
#[global] Arguments engine_exec {E}.
#[global] Arguments engine_close {E}.

(** [db_handle]: the engine's handle is open. A hook stands with its context. *)
Record otsardb (E : Type) := mkDb {
  db_handle : bool;
  db_close_hook : option (M E unit);
  db_pre_exec_hook : option (M E Z);
  db_exec_lock : option (M E unit);
  db_exec_unlock : option (M E unit)
}.
#[global] Arguments mkDb {E}.
#[global] Arguments db_handle {E}.
#[global] Arguments db_close_hook {E}.
#[global] Arguments db_pre_exec_hook {E}.
#[global] Arguments db_exec_lock {E}.
#[global] Arguments db_exec_unlock {E}.

Section Core.
Context {E : Type} (eng : engine E).

(** The engine's state with the calls made so far. *)
Abbreviation X := (list call * E)%type.

Definition do {A} (c : call) (k : M E A) : M X A := fun x =>
  let '(a, e) := k (snd x) in (a, (fst x ++ [c], e)).
Definition silently {A} (k : M E A) : M X A := fun x =>
  let '(a, e) := k (snd x) in (a, (fst x, e)).
Definition call_if {A} (c : call) (hook : option (M E A)) : M X unit :=
  match hook with Some k => let! _ := do c k in return! tt | None => return! tt end.

Definition otsardb_initialize : M X Z :=
  let! rc := silently (engine_initialize eng) in
  if negb (rc =? SQLITE_OK) then return! OTSARDB_ERROR else
  let! rc := silently (engine_vfs_register eng) in
  return! if rc =? SQLITE_OK then OTSARDB_OK else OTSARDB_ERROR.

Definition otsardb_open_with_vfs_owned (target vfs_name : bytes) (close_hook : option (M E unit))
    : M X (Z * option (otsardb E)) :=
  if zlen vfs_name =? 0 then return! (OTSARDB_ERROR, None) else
  if is_s3_target target then return! (OTSARDB_UNSUPPORTED, None) else
  let! rc := otsardb_initialize in
  if negb (rc =? OTSARDB_OK) then return! (OTSARDB_ERROR, None) else
  let! found := silently (engine_vfs_find eng vfs_name) in
  if negb found then return! (OTSARDB_ERROR, None) else
  let! (rc, allocated) := silently (engine_open eng target vfs_name) in
  if negb (rc =? SQLITE_OK) then
    let! _ := if allocated : bool then do CallSqliteClose (engine_close eng) else return! SQLITE_OK in
    return! (OTSARDB_ERROR, None)
  else return! (OTSARDB_OK, Some (mkDb true close_hook None None None)).

Definition otsardb_open_with_vfs (target vfs_name : bytes) : M X (Z * option (otsardb E)) :=
  otsardb_open_with_vfs_owned target vfs_name None.

Definition otsardb_open (target : bytes) : M X (Z * option (otsardb E)) :=
  otsardb_open_with_vfs target otsardb_local_vfs_name.

(** The lock is held from before the hook to after the statement. *)
Definition otsardb_exec (db : otsardb E) (sql : bytes) : M X Z :=
  if negb (db_handle db) then return! OTSARDB_ERROR else
  let! _ := call_if CallLock (db_exec_lock db) in
  let! hook_rc := match db_pre_exec_hook db with
                  | Some hook => do CallPreExec hook
                  | None => return! OTSARDB_OK
                  end in
  if negb (hook_rc =? OTSARDB_OK) then
    let! _ := call_if CallUnlock (db_exec_unlock db) in
    return! OTSARDB_ERROR
  else
    let! rc := do (CallExec sql) (engine_exec eng sql) in
    let! _ := call_if CallUnlock (db_exec_unlock db) in
    return! if rc =? SQLITE_OK then OTSARDB_OK else OTSARDB_ERROR.

Definition otsardb_internal_set_pre_exec_hook (hook : option (M E Z)) (db : otsardb E) : otsardb E :=
  mkDb (db_handle db) (db_close_hook db) hook (db_exec_lock db) (db_exec_unlock db).

Definition otsardb_internal_set_exec_lock (lock unlock : option (M E unit)) (db : otsardb E) : otsardb E :=
  mkDb (db_handle db) (db_close_hook db) (db_pre_exec_hook db) lock unlock.

(** [Some db]: the engine did not close, and the handle is kept with its owner. *)
Definition otsardb_close (db : otsardb E) : M X (option (otsardb E)) :=
  let! rc := if db_handle db then do CallSqliteClose (engine_close eng) else return! SQLITE_OK in
  if negb (rc =? SQLITE_OK) then return! Some db else
  let! _ := call_if CallCloseHook (db_close_hook db) in
  return! None.

(** ** Statements under the lock *)

(** What the calls leave of the lock: [None] when a statement or its hook runs
    without it, or when it is taken twice or given back without being held. *)
Fixpoint lock_state (held : bool) (calls : list call) : option bool :=
  match calls with
  | [] => Some held
  | CallLock :: r => if held then None else lock_state true r
  | CallUnlock :: r => if held then lock_state false r else None
  | (CallPreExec | CallExec _) :: r => if held then lock_state held r else None
  | (CallSqliteClose | CallCloseHook) :: r => lock_state held r
  end.

Lemma lock_state_app held a b : lock_state held (a ++ b) = lock_state held a ≫= fun h => lock_state h b.
Proof. revert held. induction a as [|c a IH]; intros held; [done|]. destruct c, held; cbn; auto. Qed.

(** The calls one statement makes. *)
Definition statement_calls (db : otsardb E) (sql : bytes) (hook_ok : bool) : list call :=
  match db_exec_lock db with Some _ => [CallLock] | None => [] end ++
  match db_pre_exec_hook db with Some _ => [CallPreExec] | None => [] end ++
  (if hook_ok then [CallExec sql] else []) ++
  match db_exec_unlock db with Some _ => [CallUnlock] | None => [] end.

Lemma call_if_calls {A} c (hook : option (M E A)) calls e :
  exists e', call_if c hook (calls, e) = (tt, (calls ++ match hook with Some _ => [c] | None => [] end, e')).
Proof.
  unfold call_if, mbind_, do. destruct hook as [k|]; cbn.
  - destruct (k e) as [a e']. by exists e'.
  - rewrite app_nil_r. by exists e.
Qed.

Lemma exec_calls db sql calls e : db_handle db = true ->
  exists rc e' hook_ok, otsardb_exec db sql (calls, e) = (rc, (calls ++ statement_calls db sql hook_ok, e')) /\
    (hook_ok = false -> db_pre_exec_hook db <> None /\ rc = OTSARDB_ERROR).
Proof.
  intros Hh. unfold otsardb_exec, statement_calls, mbind_. rewrite Hh. cbn [negb].
  destruct (call_if_calls CallLock (db_exec_lock db) calls e) as [e1 E1]. rewrite E1.
  destruct (db_pre_exec_hook db) as [hook|].
  - unfold do at 1. cbn [fst snd]. destruct (hook e1) as [hrc e2]. destruct (hrc =? OTSARDB_OK); cbn [negb].
    + unfold do. cbn [fst snd]. destruct (engine_exec eng sql e2) as [rc e3].
      destruct (call_if_calls CallUnlock (db_exec_unlock db) (((calls ++ match db_exec_lock db with Some _ => [CallLock] | None => [] end) ++ [CallPreExec]) ++ [CallExec sql]) e3) as [e4 E4].
      rewrite E4. eexists _, e4, true. split; [|done]. unfold mret_. by rewrite <- !app_assoc.
    + destruct (call_if_calls CallUnlock (db_exec_unlock db) ((calls ++ match db_exec_lock db with Some _ => [CallLock] | None => [] end) ++ [CallPreExec]) e2) as [e4 E4].
      rewrite E4. exists OTSARDB_ERROR, e4, false. split; [|done]. unfold mret_. by rewrite <- !app_assoc.
  - unfold mret_ at 1. cbn [negb Z.eqb OTSARDB_OK]. unfold do. cbn [fst snd].
    destruct (engine_exec eng sql e1) as [rc e3].
    destruct (call_if_calls CallUnlock (db_exec_unlock db) ((calls ++ match db_exec_lock db with Some _ => [CallLock] | None => [] end) ++ [CallExec sql]) e3) as [e4 E4].
    rewrite E4. eexists _, e4, true. split; [|done]. unfold mret_. by rewrite <- !app_assoc.
Qed.
End Core.

(** Statements never run outside the session lock. On a handle with both lock
    callbacks, any sequence of statements, whatever the hook and the engine
    answer, takes and gives back the lock once around each hook and statement, and
    leaves it free; a statement whose hook fails is not executed. *)
Theorem exec_holds_lock {E} (eng : engine E) db sqls calls e :
  db_handle db = true -> db_exec_lock db <> None -> db_exec_unlock db <> None -> lock_state false calls = Some false ->
  lock_state false (fst (foldl (fun x sql => snd (otsardb_exec eng db sql x)) (calls, e) sqls)) = Some false.
Proof.
  intros Hh Hl Hu. revert calls e. induction sqls as [|sql sqls IH]; intros calls e Hc; [done|]. cbn [foldl].
  destruct (exec_calls eng db sql calls e Hh) as (rc & e' & hook_ok & -> & _). cbn [snd].
  apply IH. rewrite lock_state_app, Hc. unfold statement_calls.
  destruct (db_exec_lock db); [|done]. destruct (db_exec_unlock db); [|done].
  by destruct (db_pre_exec_hook db), hook_ok.
Qed.

(** The owner of the storage is destroyed after the engine has closed, and
    never when the engine refused. *)
Theorem close_hook_after_engine {E} (eng : engine E) db calls e : db_handle db = true ->
  let '(r, (calls', _)) := otsardb_close eng db (calls, e) in
  match r with
  | Some db' => db' = db /\ calls' = calls ++ [CallSqliteClose]
  | None => calls' = calls ++ CallSqliteClose :: match db_close_hook db with Some _ => [CallCloseHook] | None => [] end
  end.
Proof.
  intros Hh. unfold otsardb_close, mbind_. rewrite Hh. unfold do. cbn [fst snd].
  destruct (engine_close eng e) as [rc e1]. destruct (rc =? SQLITE_OK); cbn [negb]; [|done].
  destruct (call_if_calls CallCloseHook (db_close_hook db) (calls ++ [CallSqliteClose]) e1) as [e2 E2].
  rewrite E2. cbn. by rewrite <- app_assoc.
Qed.

(** A target with a colon and no slashes after the second scheme is taken for an
    S3 target. *)
Theorem s3_scheme_compared_short : is_s3_target (str "otsardb+s3:notes.db") = true.
Proof. done. Qed.
