(* ===== verification/JsonMode.v ===== *)
(** * The JSON output of the command line (cli/json_mode.c)

    One JSON object per statement, one per line, in a buffer with a hard cap:
    what does not fit is replaced by an error object. The SQL engine is a
    parameter, as the sequence of what it prepares, with the rows, the final
    result and the message of each statement. *)

From S2P Require Import Prelude CText WalPublisher.

Definition OTSARDB_JSON_MAX_ROWS : Z := 100000.
Definition OTSARDB_JSON_MAX_BYTES : Z := 2 ^ 23.
Definition SQLITE_DONE : Z := 101.

(** ** The buffer *)

Record jbuf := mkBuf {
  jb_data : bytes;
  jb_cap : Z;
  jb_alloc : bool
}.

Definition new_buf (cap : Z) : jbuf := mkBuf [] cap false.

Definition buf_reserve (need : Z) : M jbuf bool := fun b =>
  if jb_cap b <? need then (false, b) else
  if jb_alloc b then (zlen (jb_data b) <=? jb_cap b - need, b) else
  if jb_cap b =? SIZE_MAX then (false, b) else (true, mkBuf (jb_data b) (jb_cap b) true).

Definition buf_appendn (s : bytes) : M jbuf bool :=
  let! ok := buf_reserve (zlen s) in
  if ok : bool then fun b => (true, mkBuf (jb_data b ++ s) (jb_cap b) (jb_alloc b)) else return! false.

Definition buf_puts (s : bytes) : M jbuf bool := buf_appendn s.

(** [buf_printf(b, "%d", n)]: the text always fits in the 64 bytes. *)
Definition buf_put_int (n : Z) : M jbuf bool := buf_appendn (dec n).

Definition buf_reset : M jbuf unit := fun b => (tt, mkBuf [] (jb_cap b) (jb_alloc b)).

(** Each part, until one does not fit; what was appended stays. *)
Definition and_then (a b : M jbuf bool) : M jbuf bool :=
  let! ok := a in if ok : bool then b else return! false.

(** ** Strings and numbers *)

Definition hex (v : Z) : Z := if v <? 10 then 48 + v else 87 + v.

(** The text of one byte in a JSON string. *)
Definition escape_byte (c : Z) : bytes :=
  if c =? 34 then [92; 34] else if c =? 92 then [92; 92]
  else if c <? 32 then str "\u00" ++ [hex (c / 16); hex (c mod 16)] else [c].

Fixpoint append_escaped (s : bytes) : M jbuf bool :=
  match s with
  | [] => return! true
  | c :: r => and_then (buf_appendn (escape_byte c)) (append_escaped r)
  end.

Definition append_json_string (s : bytes) : M jbuf bool :=
  and_then (buf_puts [dq]) (and_then (append_escaped s) (buf_puts [dq])).

(** The digits after an optional part: at least one of them, then the rest. *)
Definition some_digits (p : bytes) : option bytes :=
  match p with
  | c :: _ => if is_digit c then Some (skip_while is_digit p) else None
  | [] => None
  end.

(** One byte, if it is there. *)
Definition skip_byte (test : Z -> bool) (p : bytes) : bytes :=
  match p with c :: t => if test c then t else p | [] => p end.

(** The parts of a number, each as the text after it. *)
Definition number_int (p : bytes) : option bytes :=
  match p with
  | [] => None
  | c :: t => if c =? 48 then Some t
              else if (49 <=? c) && (c <=? 57) then Some (skip_while is_digit p) else None
  end.
Definition number_frac (p : bytes) : option bytes :=
  match p with
  | c :: t => if c =? 46 then some_digits t else Some p
  | [] => Some p
  end.
Definition number_exp (p : bytes) : option bytes :=
  match p with
  | c :: t => if (c =? 101) || (c =? 69) then some_digits (skip_byte (fun s => (s =? 43) || (s =? 45)) t) else Some p
  | [] => Some p
  end.

(** On a C string. *)
Definition is_json_number (s : bytes) : bool :=
  match (number_int (skip_byte (fun c => c =? 45) s) ≫= number_frac) ≫= number_exp with
  | Some p => zlen p =? 0
  | None => false
  end.

(** A value of a row: its text, if the engine could give it. *)
Inductive cell :=
| CellNull
| CellNumber (text : option bytes) (* INTEGER or FLOAT *)
| CellOther (text : option bytes).

(** A number is a C string; the other texts have their length. *)
Definition append_cell (c : cell) : M jbuf bool :=
  match c with
  | CellNull => buf_puts (str "null")
  | CellNumber (Some text) =>
      if is_json_number (cstr text) then buf_puts (cstr text) else append_json_string text
  | CellNumber None => append_json_string []
  | CellOther text => append_json_string (default [] text)
  end.

(** ** Statements *)

Definition error_open : bytes := str "{" ++ q "ok" ++ str ":false," ++ q "error" ++ str ":".
Definition object_end : bytes := str "}" ++ [10].
Definition cap_exceeded : bytes := str "--json output cap exceeded".

Definition emit_stmt_error (stmt_start : nat) (message : bytes) : M jbuf unit :=
  let message := match cstr message with [] => str "unknown error" | m => m end in
  let! _ := fun b => (tt, mkBuf (take stmt_start (jb_data b)) (jb_cap b) (jb_alloc b)) in
  let! ok := and_then (buf_puts error_open) (and_then (append_json_string message) (buf_puts object_end)) in
  if ok : bool then return! tt else
  let! _ := buf_reset in
  let! _ := buf_puts (error_open ++ quoted cap_exceeded ++ object_end) in
  return! tt.

(** The rows the engine steps through, the result that ends them, and the
    message of the connection then. *)
Record statement := mkStatement {
  s_columns : list (option bytes);
  s_rows : list (list cell);
  s_final : Z;
  s_errmsg : bytes
}.

Fixpoint append_cells (first : bool) (cells : list cell) : M jbuf bool :=
  match cells with
  | [] => return! true
  | c :: r => and_then (if first then return! true else buf_puts (str ","))
                (and_then (append_cell c) (append_cells false r))
  end.

Inductive rows_result := RowsDone (nrows : Z) | RowsTooMany | RowsOverflow.

Fixpoint append_rows (nrows : Z) (rows : list (list cell)) : M jbuf rows_result :=
  match rows with
  | [] => return! RowsDone nrows
  | r :: rest =>
      if OTSARDB_JSON_MAX_ROWS <=? nrows then return! RowsTooMany else
      let! ok := and_then (buf_puts (if nrows =? 0 then str "[" else str ",["))
                   (and_then (append_cells true r) (buf_puts (str "]"))) in
      if ok : bool then append_rows (nrows + 1) rest else return! RowsOverflow
  end.

Fixpoint append_columns (first : bool) (columns : list (option bytes)) : M jbuf bool :=
  match columns with
  | [] => return! true
  | name :: r => and_then (if first then return! true else buf_puts (str ","))
                   (and_then (append_json_string (default [] name)) (append_columns false r))
  end.

Definition row_cap_message : bytes := str "result set exceeds the --json row cap (100000); narrow the query".
Definition payload_cap_message : bytes := str "result set exceeds the --json payload cap (8 MiB); narrow the query".
Definition output_cap_message : bytes := str "output exceeds the --json output cap (32 MiB); narrow the query".

Definition run_statement (out_cap : Z) (st : statement) : M jbuf bool := fun out =>
  let stmt_start := length (jb_data out) in
  let fail message : bool * jbuf := let '(_, out) := emit_stmt_error stmt_start message out in (false, out) in
  let remaining := if zlen (jb_data out) <? out_cap then out_cap - zlen (jb_data out) else 0 in
  let stmt_budget := if remaining <? OTSARDB_JSON_MAX_BYTES then remaining else OTSARDB_JSON_MAX_BYTES in
  let '(r, rows) := append_rows 0 (s_rows st) (new_buf stmt_budget) in
  match r with
  | RowsTooMany => fail row_cap_message
  | RowsOverflow => fail payload_cap_message
  | RowsDone nrows =>
      if negb (s_final st =? SQLITE_DONE) then fail (s_errmsg st) else
      if stmt_budget <? zlen (jb_data rows) + 0 + 256 then fail payload_cap_message else
      let '(ok, out) :=
        and_then (buf_puts (str "{" ++ q "ok" ++ str ":true," ++ q "rows" ++ str ":"))
          (and_then (buf_put_int nrows)
            (and_then (buf_puts (str "," ++ q "columns" ++ str ":["))
              (and_then (append_columns true (s_columns st))
                (and_then (buf_puts (str "]," ++ q "data" ++ str ":["))
                  (and_then (buf_appendn (jb_data rows)) (buf_puts (str "]}" ++ [10]))))))) out in
      if ok then (true, out)
      else let '(_, out) := emit_stmt_error stmt_start output_cap_message out in (false, out)
  end.

(** What [sqlite3_prepare_v2] gives for the rest of the text. *)
Inductive prepared :=
| PrepareFailed (errmsg : bytes)
| PrepareNothing
| Prepared (st : statement).

Definition otsardb_cli_json_error (message : option bytes) (out_cap : Z) : bytes :=
  if out_cap =? 0 then [] else
  let '(ok, b) := buf_reserve 128 (new_buf out_cap) in
  if negb ok then [] else
  let '(ok, b) := buf_puts error_open b in
  let b := if ok : bool then
             let '(_, b) := append_json_string (cstr (default [] message)) b in
             let '(_, b) := buf_puts object_end b in b
           else b in
  let b := if out_cap <=? zlen (jb_data b) then
             let '(_, b) := buf_reset b in
             let '(_, b) := buf_puts (error_open ++ quoted cap_exceeded ++ object_end) b in b
           else b in
  let len := if out_cap <=? zlen (jb_data b) then out_cap - 1 else zlen (jb_data b) in
  take (Z.to_nat len) (jb_data b).

Fixpoint run_statements (out_cap : Z) (script : list prepared) : M jbuf bool :=
  match script with
  | [] | PrepareNothing :: _ => return! true
  | PrepareFailed errmsg :: _ => fun out =>
      let '(_, out) := emit_stmt_error (length (jb_data out)) errmsg out in (false, out)
  | Prepared st :: rest => and_then (run_statement out_cap st) (run_statements out_cap rest)
  end.

(** The result (0 or 1) and the output; [open]: the handle is there and open. *)
Definition otsardb_cli_exec_json (open : bool) (script : list prepared) (out_cap : Z) : Z * bytes :=
  if out_cap =? 0 then (1, []) else
  if negb open then (1, otsardb_cli_json_error (Some (str "OtsarDB handle is not open")) out_cap) else
  let '(ok, b) := buf_reserve 4096 (new_buf out_cap) in
  if negb ok then (1, otsardb_cli_json_error (Some (str "out of memory")) out_cap) else
  let '(ok, b) := run_statements out_cap script b in
  if out_cap <=? zlen (jb_data b) then
    let '(_, b) := buf_reset b in
    let '(_, b) := buf_puts (error_open ++ quoted cap_exceeded ++ object_end) b in
    (1, jb_data b)
  else (if ok : bool then 0 else 1, jb_data b).
