(* ===== verification/JsonModeProps.v ===== *)
(** * The JSON output: complete lines or an error

    The texts of strings, rows and objects as plain functions, what the bounded
    buffer makes of them, and the two reference definitions of RFC 8259 the code
    is compared with: the decoding of a string and the grammar of a number. *)

From S2P Require Import Prelude CText WalPublisher JsonMode.

(** ** The texts *)

Definition json_string (s : bytes) : bytes := [dq] ++ (s ≫= escape_byte) ++ [dq].

Definition cell_text (c : cell) : bytes :=
  match c with
  | CellNull => str "null"
  | CellNumber (Some text) => if is_json_number (cstr text) then cstr text else json_string text
  | CellNumber None => json_string []
  | CellOther text => json_string (default [] text)
  end.

(** Texts with commas between them. *)
Fixpoint commas (first : bool) (texts : list bytes) : bytes :=
  match texts with
  | [] => []
  | t :: r => (if first then [] else str ",") ++ t ++ commas false r
  end.

Definition row_text (r : list cell) : bytes := str "[" ++ commas true (cell_text <$> r) ++ str "]".

Definition result_line (st : statement) : bytes :=
  (str "{" ++ q "ok" ++ str ":true," ++ q "rows" ++ str ":") ++ dec (zlen (s_rows st)) ++
  (str "," ++ q "columns" ++ str ":[") ++ commas true ((fun n => json_string (default [] n)) <$> s_columns st) ++
  (str "]," ++ q "data" ++ str ":[") ++ commas true (row_text <$> s_rows st) ++ str "]}" ++ [10].

Definition error_line (message : bytes) : bytes := error_open ++ json_string message ++ object_end.

(** ** Appending *)

Definition buf_ok (b : jbuf) : Prop := zlen (jb_data b) <= jb_cap b /\ (jb_alloc b = false -> jb_data b = []).

(** [m] appends [text], or a part of something when it does not fit. *)
Definition appends (text : bytes) (m : M jbuf bool) : Prop := forall b ok b', buf_ok b -> m b = (ok, b') ->
  buf_ok b' /\ jb_cap b' = jb_cap b /\ (jb_alloc b = true -> jb_alloc b' = true) /\
  exists t, jb_data b' = jb_data b ++ t /\ (ok = true -> t = text).

Lemma appends_nil : appends [] (mret_ true).
Proof. intros b ok b' Hb [= <- <-]. split_and!; try done. exists []. by rewrite app_nil_r. Qed.

Lemma appends_text s : appends s (buf_appendn s).
Proof.
  intros b ok b' [Hl Ha]. unfold buf_appendn, buf_reserve, mbind_.
  destruct (Z.ltb_spec (jb_cap b) (zlen s)).
  { intros [= <- <-]. split_and!; try done. exists []. by rewrite app_nil_r. }
  assert (forall b1, jb_data b1 = jb_data b -> jb_cap b1 = jb_cap b -> (jb_alloc b1 = true) ->
            zlen (jb_data b) <= jb_cap b - zlen s ->
            ((fun b => (true, mkBuf (jb_data b ++ s) (jb_cap b) (jb_alloc b))) b1) = (ok, b') ->
            buf_ok b' /\ jb_cap b' = jb_cap b /\ (jb_alloc b = true -> jb_alloc b' = true) /\
            exists t, jb_data b' = jb_data b ++ t /\ (ok = true -> t = s)) as Hgo.
  { intros b1 E1 E2 E3 Hle [= <- <-]. unfold buf_ok. cbn. rewrite E1, E2, zlen_app. split_and!; try lia; [congruence|by intros|].
    by exists s. }
  destruct (jb_alloc b) eqn:Ea.
  - destruct (Z.leb_spec (zlen (jb_data b)) (jb_cap b - zlen s)).
    + by apply Hgo.
    + intros [= <- <-]. unfold buf_ok. rewrite Ea. split_and!; try done. exists []. by rewrite app_nil_r.
  - destruct (jb_cap b =? SIZE_MAX).
    + intros [= <- <-]. unfold buf_ok. rewrite Ea. split_and!; try done. exists []. by rewrite app_nil_r.
    + apply Hgo; try done. rewrite (Ha eq_refl). change (zlen (@nil Z)) with 0. lia.
Qed.

Lemma appends_then a b s t : appends s a -> appends t b -> appends (s ++ t) (and_then a b).
Proof.
  intros Ha Hb x ok y Hx. unfold and_then, mbind_. destruct (a x) as [ok1 x1] eqn:E1.
  destruct (Ha _ _ _ Hx E1) as (Hx1 & Hc1 & Hal1 & t1 & Hd1 & Ht1). destruct ok1.
  - intros E2. destruct (Hb _ _ _ Hx1 E2) as (Hx2 & Hc2 & Hal2 & t2 & Hd2 & Ht2). split_and!; try done; [congruence|auto|].
    exists (t1 ++ t2). split; [by rewrite Hd2, Hd1, app_assoc|]. intros Hok. by rewrite Ht1, Ht2.
  - intros [= <- <-]. split_and!; try done. by exists t1.
Qed.

Create HintDb json.
#[export] Hint Resolve appends_nil appends_text : json.

Lemma appends_eq s t m : appends s m -> s = t -> appends t m.
Proof. by intros H ->. Qed.

Lemma appends_escaped s : appends (s ≫= escape_byte) (append_escaped s).
Proof.
  induction s as [|c s IH]; cbn [append_escaped]; [apply appends_nil|]. rewrite bind_cons.
  apply appends_then; [apply appends_text|done].
Qed.

Lemma appends_string s : appends (json_string s) (append_json_string s).
Proof.
  apply appends_then; [apply appends_text|]. apply appends_then; [apply appends_escaped|apply appends_text].
Qed.
#[export] Hint Resolve appends_string : json.

Lemma appends_cell c : appends (cell_text c) (append_cell c).
Proof.
  destruct c as [|[text|]|text]; cbn [append_cell cell_text]; try apply appends_text; auto with json.
  destruct (is_json_number (cstr text)); [apply appends_text|]; auto with json.
Qed.
#[export] Hint Resolve appends_cell : json.

Lemma appends_comma (first : bool) : appends (if first then [] else str ",") (if first then mret_ true else buf_puts (str ",")).
Proof. destruct first; [apply appends_nil|apply appends_text]. Qed.

Lemma appends_cells first r : appends (commas first (cell_text <$> r)) (append_cells first r).
Proof.
  revert first. induction r as [|c r IH]; intros first; cbn [append_cells fmap list_fmap commas]; [apply appends_nil|].
  apply appends_then; [apply appends_comma|]. apply appends_then; auto with json.
Qed.

Lemma appends_columns first cs :
  appends (commas first ((fun n => json_string (default [] n)) <$> cs)) (append_columns first cs).
Proof.
  revert first. induction cs as [|c cs IH]; intros first; cbn [append_columns fmap list_fmap commas]; [apply appends_nil|].
  apply appends_then; [apply appends_comma|]. apply appends_then; auto with json.
Qed.
#[export] Hint Resolve appends_cells appends_columns : json.

Lemma append_rows_spec n rows b r b' : 0 <= n -> buf_ok b -> append_rows n rows b = (r, b') ->
  match r with
  | RowsDone k => k = n + zlen rows /\ jb_data b' = jb_data b ++ commas (n =? 0) (row_text <$> rows)
  | _ => True
  end.
Proof.
  revert n b. induction rows as [|row rows IH]; intros n b Hn Hb; cbn [append_rows].
  { intros [= <- <-]. rewrite zlen_nil, app_nil_r. split; [lia|done]. }
  destruct (OTSARDB_JSON_MAX_ROWS <=? n); [by intros [= <- <-]|]. unfold mbind_.
  destruct (and_then _ _ b) as [ok b1] eqn:E.
  assert (appends ((if n =? 0 then str "[" else str ",[") ++ commas true (cell_text <$> row) ++ str "]")
            (and_then (buf_puts (if n =? 0 then str "[" else str ",[")) (and_then (append_cells true row) (buf_puts (str "]"))))) as Ha.
  { apply appends_then; [apply appends_text|]. apply appends_then; [auto with json|apply appends_text]. }
  destruct (Ha _ _ _ Hb E) as (Hb1 & _ & _ & t & Hd & Ht). destruct ok; [|by intros [= <- <-]].
  intros E2. apply IH in E2; [|lia|done]. destruct r as [k| |]; [|done..]. destruct E2 as [-> Hd2].
  rewrite zlen_cons. split; [lia|]. rewrite Hd2, Hd, (Ht eq_refl). cbn [fmap list_fmap commas].
  destruct (Z.eqb_spec (n + 1) 0); [lia|]. unfold row_text at 2.
  destruct (n =? 0); [by rewrite <- !app_assoc|]. change (str ",[") with (str "," ++ str "["). by rewrite <- !app_assoc.
Qed.

(** ** Lines *)

Definition line_ok (l : bytes) : Prop := (exists m, l = error_line m) \/ (exists st, l = result_line st).
Definition lines_ok (out : bytes) : Prop := exists ls, out = concat ls /\ Forall line_ok ls.

Lemma lines_ok_nil : lines_ok [].
Proof. by exists []. Qed.

Lemma lines_ok_snoc out l : lines_ok out -> line_ok l -> lines_ok (out ++ l).
Proof.
  intros (ls & -> & H) Hl. exists (ls ++ [l]). rewrite concat_app. cbn. rewrite app_nil_r. split; [done|].
  apply Forall_app. by split; [|constructor].
Qed.

Definition cap_line : bytes := error_open ++ quoted cap_exceeded ++ object_end.
Lemma cap_line_ok : lines_ok cap_line.
Proof. apply (lines_ok_snoc [] cap_line lines_ok_nil). left. exists cap_exceeded. by vm_compute. Qed.

Section Run.
Context (cap : Z).
Hypothesis (Hcap : 4096 <= cap).

(** An allocated output buffer of complete lines. *)
Definition allocated (b : jbuf) : Prop := buf_ok b /\ jb_cap b = cap /\ jb_alloc b = true.
Definition output_ok (b : jbuf) : Prop := allocated b /\ lines_ok (jb_data b).

(** The text fits in an empty buffer of this size. *)
Lemma puts_fits s b : jb_data b = [] -> jb_cap b = cap -> jb_alloc b = true -> zlen s <= 4096 ->
  exists b', buf_puts s b = (true, b') /\ jb_data b' = s /\ jb_cap b' = cap /\ jb_alloc b' = true.
Proof.
  intros Hd Hc Ha Hs. unfold buf_puts, buf_appendn, buf_reserve, mbind_. rewrite Hd, Hc, Ha.
  destruct (Z.ltb_spec cap (zlen s)); [lia|]. change (zlen (@nil Z)) with 0.
  destruct (Z.leb_spec 0 (cap - zlen s)); [|lia]. rewrite Hd, Hc, Ha. by eexists.
Qed.

Lemma emit_error_ok start message b b' : allocated b -> lines_ok (take start (jb_data b)) ->
  emit_stmt_error start message b = (tt, b') -> output_ok b'.
Proof.
  intros ([Hl Hn] & Hc & Ha) Hs. unfold emit_stmt_error, mbind_. cbv zeta.
  set (m := match cstr message with [] => _ | _ => _ end).
  set (b1 := mkBuf (take start (jb_data b)) (jb_cap b) (jb_alloc b)).
  assert (buf_ok b1) as Hb1.
  { split; cbn; [|by rewrite Ha]. etrans; [|exact Hl]. unfold zlen. rewrite length_take. lia. }
  destruct (and_then _ _ b1) as [ok b2] eqn:E.
  assert (appends (error_line m) (and_then (buf_puts error_open) (and_then (append_json_string m) (buf_puts object_end)))) as Hap.
  { apply appends_then; [apply appends_text|]. apply appends_then; [auto with json|apply appends_text]. }
  destruct (Hap _ _ _ Hb1 E) as (Hb2 & Hc2 & Ha2 & t & Hd & Ht). destruct ok.
  - intros [= <-]. unfold output_ok, allocated. cbn in Hc2, Ha2, Hd. rewrite Hd, Hc2, (Ht eq_refl). split_and!; auto.
    apply lines_ok_snoc; [done|]. left. by exists m.
  - unfold buf_reset. fold cap_line. set (b3 := mkBuf [] (jb_cap b2) (jb_alloc b2)).
    destruct (puts_fits cap_line b3) as (b4 & -> & Hd4 & Hc4 & Ha4); [done|cbn; by rewrite Hc2|by apply Ha2|by vm_compute|].
    intros [= <-]. unfold output_ok, allocated, buf_ok. rewrite Hd4, Hc4, Ha4. split_and!; try done; [|apply cap_line_ok].
    etrans; [|exact Hcap]. by vm_compute.
Qed.

Lemma appends_result st rows : jb_data rows = commas true (row_text <$> s_rows st) ->
  appends (result_line st)
    (and_then (buf_puts (str "{" ++ q "ok" ++ str ":true," ++ q "rows" ++ str ":"))
       (and_then (buf_put_int (zlen (s_rows st)))
         (and_then (buf_puts (str "," ++ q "columns" ++ str ":["))
           (and_then (append_columns true (s_columns st))
             (and_then (buf_puts (str "]," ++ q "data" ++ str ":["))
               (and_then (buf_appendn (jb_data rows)) (buf_puts (str "]}" ++ [10])))))))).
Proof.
  intros ->. unfold result_line. repeat (apply appends_then; [first [apply appends_text|apply appends_columns]|]). apply appends_text.
Qed.

(** A statement: complete lines whatever happens, and its whole result when it
    succeeds. *)
Lemma run_statement_ok st b ok b' : output_ok b -> run_statement cap st b = (ok, b') ->
  output_ok b' /\ (ok = true -> jb_data b' = jb_data b ++ result_line st /\ s_final st = SQLITE_DONE).
Proof.
  intros Hb. pose proof Hb as ((Hbo & Hc & Ha) & Hlines). unfold run_statement. cbv zeta.
  assert (forall message b1, allocated b1 -> lines_ok (take (length (jb_data b)) (jb_data b1)) ->
            (let '(_, out) := emit_stmt_error (length (jb_data b)) message b1 in (false, out)) = (ok, b') ->
            output_ok b' /\ (ok = true -> jb_data b' = jb_data b ++ result_line st /\ s_final st = SQLITE_DONE)) as Hfail.
  { intros message b1 Hb1 Hl1 Hf. destruct (emit_stmt_error _ message b1) as [[] out] eqn:E.
    injection Hf as <- <-. split; [|done]. by eapply emit_error_ok. }
  assert (lines_ok (take (length (jb_data b)) (jb_data b))) as Hself by (by rewrite take_ge by done).
  set (budget := if _ <? OTSARDB_JSON_MAX_BYTES then _ else _).
  assert (0 <= budget) as Hbud.
  { unfold budget, OTSARDB_JSON_MAX_BYTES. repeat case_match; prop_bools; lia. }
  destruct (append_rows 0 (s_rows st) (new_buf budget)) as [r rows] eqn:E.
  apply append_rows_spec in E; [|lia|by split].
  destruct r as [k| |]; [|by apply Hfail..]. destruct E as [-> Hrows]. cbn in Hrows.
  destruct (Z.eqb_spec (s_final st) SQLITE_DONE) as [Hdone|]; cbn [negb]; [|by apply Hfail].
  destruct (budget <? _); [by apply Hfail|].
  destruct (and_then _ _ b) as [ok1 b1] eqn:E1.
  destruct (appends_result st rows Hrows _ _ _ Hbo E1) as (Hb1 & Hc1 & Ha1 & t & Hd & Ht).
  destruct ok1.
  - intros [= <- <-]. rewrite Hd, (Ht eq_refl). split; [|done]. unfold output_ok, allocated. rewrite Hd, (Ht eq_refl).
    split_and!; [done|congruence|auto|]. apply lines_ok_snoc; [done|]. right. by exists st.
  - destruct (emit_stmt_error (length (jb_data b)) output_cap_message b1) as [[] out] eqn:E2. intros [= <- <-].
    split; [|done]. eapply emit_error_ok; [|..|exact E2]; [|by rewrite Hd, take_app_length].
    split_and!; [done|congruence|auto].
Qed.

(** The statements of a script, up to its end. *)
Fixpoint script_statements (script : list prepared) : option (list statement) :=
  match script with
  | [] | PrepareNothing :: _ => Some []
  | PrepareFailed _ :: _ => None
  | Prepared st :: r => cons st <$> script_statements r
  end.

Lemma run_statements_ok script b ok b' : output_ok b -> run_statements cap script b = (ok, b') ->
  output_ok b' /\ (ok = true -> exists sts, script_statements script = Some sts /\
    Forall (fun st => s_final st = SQLITE_DONE) sts /\ jb_data b' = jb_data b ++ concat (result_line <$> sts)).
Proof.
  revert b. induction script as [|[errmsg| |st] script IH]; intros b Hb; cbn [run_statements script_statements].
  - intros [= <- <-]. split; [done|]. intros _. exists []. by rewrite app_nil_r.
  - destruct (emit_stmt_error _ errmsg b) as [[] out] eqn:E. intros [= <- <-]. split; [|done].
    eapply emit_error_ok; [apply Hb| |exact E]. rewrite take_ge by done. apply Hb.
  - intros [= <- <-]. split; [done|]. intros _. exists []. by rewrite app_nil_r.
  - unfold and_then, mbind_. destruct (run_statement cap st b) as [ok1 b1] eqn:E.
    destruct (run_statement_ok _ _ _ _ Hb E) as [Hb1 H1]. destruct ok1; [|intros [= <- <-]; by split].
    intros E2. destruct (IH _ Hb1 E2) as [Hb2 H2]. split; [done|]. intros Hok.
    destruct (H1 eq_refl) as [Hd Hf]. destruct (H2 Hok) as (sts & -> & Hall & Hd2).
    exists (st :: sts). split_and!; [done|by constructor|]. rewrite Hd2, Hd. cbn. by rewrite app_assoc.
Qed.
End Run.

(** C39. The JSON output is complete or says that it is not. For every sequence
    of statements and whatever the engine returns, the output fits in the caller's
    buffer with its terminating NUL and is a sequence of complete lines, each the
    whole result of a statement or an error object; when the result is 0, the lines
    are exactly the whole results of all the statements, in order, each of which
    the engine ran to its end. Nothing is truncated silently. *)
Theorem json_output_complete script cap rc out : 4096 <= cap < SIZE_MAX ->
  otsardb_cli_exec_json true script cap = (rc, out) ->
  zlen out < cap /\ lines_ok out /\
  (rc = 0 -> exists sts, script_statements script = Some sts /\
     Forall (fun st => s_final st = SQLITE_DONE) sts /\ out = concat (result_line <$> sts)).
Proof.
  intros Hcap. unfold otsardb_cli_exec_json. destruct (Z.eqb_spec cap 0); [lia|]. cbn [negb].
  unfold buf_reserve, new_buf. cbn [jb_cap jb_alloc jb_data]. destruct (Z.ltb_spec cap 4096); [lia|].
  destruct (Z.eqb_spec cap SIZE_MAX); [lia|]. cbn [negb].
  destruct (run_statements cap script (mkBuf [] cap true)) as [ok b] eqn:E.
  apply run_statements_ok in E as [((Hb & Hc & Ha) & Hl) Hok]; [|lia|].
  2:{ split; [|apply lines_ok_nil]. split_and!; try done. split; [|done]. cbn. rewrite zlen_nil. lia. }
  destruct (Z.leb_spec cap (zlen (jb_data b))).
  - unfold buf_reset. fold cap_line.
    destruct (puts_fits cap ltac:(lia) cap_line (mkBuf [] (jb_cap b) (jb_alloc b))) as (b' & -> & Hd & _); [done|done|done|by vm_compute|].
    intros [= <- <-]. rewrite Hd. split_and!; [|apply cap_line_ok|done]. apply Z.lt_le_trans with 4096; [by vm_compute|lia].
  - intros [= <- <-]. split_and!; [done|done|]. destruct ok; [|done]. intros _. by apply Hok.
Qed.

(** ** A run with an error *)

Definition sample_statement : statement :=
  mkStatement [Some (str "id"); Some (str "name")] [[CellNumber (Some (str "1")); CellOther (Some [97; 34; 10])];
                                                    [CellNumber (Some (str "Inf")); CellNull]] SQLITE_DONE [].

Lemma json_output_complete_witness :
  zlen (snd (otsardb_cli_exec_json true [Prepared sample_statement; PrepareNothing] 4096)) < 4096 /\
  lines_ok (snd (otsardb_cli_exec_json true [Prepared sample_statement; PrepareNothing] 4096)).
Proof.
  destruct (json_output_complete [Prepared sample_statement; PrepareNothing] 4096 0
              (snd (otsardb_cli_exec_json true [Prepared sample_statement; PrepareNothing] 4096))) as (H1 & H2 & _).
  - split; [discriminate|reflexivity].
  - vm_compute. reflexivity.
  - split; assumption.
Defined.

(** ** Strings and numbers of RFC 8259 *)

Definition hex_value (c : Z) : option Z :=
  if is_digit c then Some (c - 48)
  else if (97 <=? c) && (c <=? 102) then Some (c - 87)
  else if (65 <=? c) && (c <=? 70) then Some (c - 55) else None.

Definition simple_escape (c : Z) : option Z :=
  if (c =? 34) || (c =? 92) || (c =? 47) then Some c
  else if c =? 98 then Some 8 else if c =? 102 then Some 12 else if c =? 110 then Some 10
  else if c =? 114 then Some 13 else if c =? 116 then Some 9 else None.

(** The value of four hexadecimal digits, for the ASCII characters. *)
Definition hex4 (a b c d : Z) : option Z :=
  match hex_value a, hex_value b, hex_value c, hex_value d with
  | Some a, Some b, Some c, Some d =>
      let v := ((a * 16 + b) * 16 + c) * 16 + d in if v <? 128 then Some v else None
  | _, _, _, _ => None
  end.

Definition prepend (c : Z) (r : option (bytes * bytes)) : option (bytes * bytes) :=
  match r with Some (s, rest) => Some (c :: s, rest) | None => None end.

(** A reader of JSON strings: the characters up to the closing quote, and what
    follows it. Unescaped control characters and quotes are not allowed. *)
Fixpoint read_string (s : bytes) : option (bytes * bytes) :=
  match s with
  | [] => None
  | c :: t =>
      if c =? 34 then Some ([], t)
      else if c =? 92 then
        match t with
        | [] => None
        | e :: t' =>
            if e =? 117 then
              match t' with
              | x :: y :: z :: w :: r => match hex4 x y z w with Some v => prepend v (read_string r) | None => None end
              | _ => None
              end
            else match simple_escape e with Some v => prepend v (read_string t') | None => None end
        end
      else if c <? 32 then None else prepend c (read_string t)
  end.

Definition read_json_string (s : bytes) : option (bytes * bytes) :=
  match s with c :: t => if c =? dq then read_string t else None | [] => None end.

Lemma hex_value_hex v : 0 <= v < 16 -> hex_value (hex v) = Some v.
Proof.
  intros H. unfold hex, hex_value, is_digit. destruct (Z.ltb_spec v 10).
  - rewrite (proj2 (Z.leb_le 48 (48 + v))), (proj2 (Z.leb_le (48 + v) 57)) by lia. cbn. f_equal. lia.
  - rewrite (proj2 (Z.leb_gt (87 + v) 57)) by lia. rewrite andb_false_r.
    rewrite (proj2 (Z.leb_le 97 (87 + v))), (proj2 (Z.leb_le (87 + v) 102)) by lia. cbn. f_equal. lia.
Qed.

Lemma read_escaped c r : byte_ok c -> read_string (escape_byte c ++ r) = prepend c (read_string r).
Proof.
  intros Hc. unfold escape_byte, byte_ok in *. destruct (Z.eqb_spec c 34) as [->|H34]; [done|].
  destruct (Z.eqb_spec c 92) as [->|H92]; [done|]. destruct (Z.ltb_spec c 32).
  - change (str "\u00") with [92; 117; 48; 48]. cbn [app read_string]. cbn [Z.eqb Pos.eqb].
    assert (hex4 48 48 (hex (c / 16)) (hex (c mod 16)) = Some c) as ->; [|done].
    assert (0 <= c / 16 < 16) by (split; [apply Z.div_pos; lia|apply Z.div_lt_upper_bound; lia]).
    unfold hex4. rewrite !hex_value_hex by (try apply Z.mod_pos_bound; lia). change (hex_value 48) with (Some 0).
    cbv zeta iota. pose proof (Z.div_mod c 16 ltac:(lia)) as Hd.
    replace (((0 * 16 + 0) * 16 + c / 16) * 16 + c mod 16) with c by lia. by rewrite (proj2 (Z.ltb_lt c 128)) by lia.
  - cbn [app read_string]. apply Z.eqb_neq in H34 as ->. apply Z.eqb_neq in H92 as ->.
    by rewrite (proj2 (Z.ltb_ge c 32)) by lia.
Qed.

(** Every byte string is read back from the string that is written for it, and
    the reader stops where the writer did. *)
Theorem json_string_roundtrip s rest : bytes_ok s -> read_json_string (json_string s ++ rest) = Some (s, rest).
Proof.
  intros Hs. change (json_string s ++ rest) with (dq :: ((s ≫= escape_byte) ++ [dq]) ++ rest).
  cbn [read_json_string]. rewrite Z.eqb_refl, <- app_assoc. induction Hs as [|c s Hc Hs IH]; [done|].
  rewrite bind_cons, <- app_assoc, read_escaped, IH by done. done.
Qed.

(** The grammar of a number. *)
Definition digits (ds : bytes) : Prop := ds <> [] /\ forallb is_digit ds = true.
Definition int_part (i : bytes) : Prop :=
  i = [48] \/ exists d ds, i = d :: ds /\ 49 <= d <= 57 /\ forallb is_digit ds = true.
Definition frac_part (f : bytes) : Prop := f = [] \/ exists ds, f = 46 :: ds /\ digits ds.
Definition exp_part (x : bytes) : Prop :=
  x = [] \/ exists e sign ds, x = e :: sign ++ ds /\ (e = 101 \/ e = 69) /\ sign ∈ [[]; [43]; [45]] /\ digits ds.
Definition json_number (s : bytes) : Prop :=
  exists neg i f x, s = neg ++ i ++ f ++ x /\ neg ∈ [[]; [45]] /\ int_part i /\ frac_part f /\ exp_part x.

Lemma skip_digits p : exists ds, p = ds ++ skip_while is_digit p /\ forallb is_digit ds = true.
Proof.
  induction p as [|c p (ds & IH & Hd)]; [by exists []|]. cbn [skip_while]. destruct (is_digit c) eqn:E; [|by exists []].
  exists (c :: ds). cbn. rewrite E. split; [by rewrite <- IH|done].
Qed.

Lemma skip_digits_app ds r : forallb is_digit ds = true -> match r with c :: _ => is_digit c = false | [] => True end ->
  skip_while is_digit (ds ++ r) = r.
Proof.
  intros Hd Hr. induction ds as [|d ds IH]; cbn [app skip_while]; [destruct r; cbn; [done|by rewrite Hr]|].
  cbn in Hd. prop_bools. rewrite H. by apply IH.
Qed.

Lemma some_digits_spec p r : some_digits p = Some r -> exists ds, p = ds ++ r /\ digits ds.
Proof.
  unfold some_digits. destruct p as [|c p]; [done|]. destruct (is_digit c) eqn:E; [|done]. intros [= <-].
  destruct (skip_digits (c :: p)) as (ds & Hp & Hd). exists ds. split; [done|]. split; [|done].
  intros ->. cbn [app skip_while] in Hp. rewrite E in Hp. apply (f_equal length) in Hp.
  destruct (skip_digits p) as (ds & Hq & _). apply (f_equal length) in Hq. rewrite length_app in Hq. cbn in Hp. lia.
Qed.

Lemma some_digits_app ds r : digits ds -> match r with c :: _ => is_digit c = false | [] => True end ->
  some_digits (ds ++ r) = Some r.
Proof.
  intros [Hn Hd] Hr. destruct ds as [|d ds]; [done|]. unfold some_digits. cbn [app].
  assert (is_digit d = true) as -> by (cbn in Hd; by prop_bools). f_equal. by apply (skip_digits_app (d :: ds)).
Qed.

Lemma number_parts p : match (number_int p ≫= number_frac) ≫= number_exp with Some [] => True | _ => False end ->
  exists i f x, p = i ++ f ++ x /\ int_part i /\ frac_part f /\ exp_part x.
Proof.
  destruct (number_int p) as [p1|] eqn:E1; [|done]. cbn [mbind option_bind].
  destruct (number_frac p1) as [p2|] eqn:E2; [|done]. cbn [mbind option_bind].
  destruct (number_exp p2) as [[|? ?]|] eqn:E3; [|done..]. intros _.
  assert (exists i, p = i ++ p1 /\ int_part i) as (i & -> & Hi).
  { unfold number_int in E1. destruct p as [|c t]; [done|]. destruct (Z.eqb_spec c 48) as [->|].
    - injection E1 as <-. exists [48]. split; [done|by left].
    - destruct ((49 <=? c) && (c <=? 57)) eqn:Ec; [|done]. prop_bools. injection E1 as <-.
      assert (is_digit c = true) as Hc by (unfold is_digit; apply andb_true_intro; split; apply Z.leb_le; lia).
      destruct (skip_digits t) as (ds & Ht & Hd). exists (c :: ds). cbn [skip_while app]. rewrite Hc. split; [by rewrite <- Ht|].
      right. by exists c, ds. }
  assert (exists f, p1 = f ++ p2 /\ frac_part f) as (f & -> & Hf).
  { unfold number_frac in E2. destruct p1 as [|c t]; [injection E2 as <-; exists []; split; [done|by left]|].
    destruct (Z.eqb_spec c 46) as [->|]; [|injection E2 as <-; exists []; split; [done|by left]].
    apply some_digits_spec in E2 as (ds & -> & Hd). exists (46 :: ds). split; [done|right; eauto]. }
  exists i, f, p2. split; [done|]. split; [done|]. split; [done|].
  unfold number_exp in E3. destruct p2 as [|c t]; [by left|].
  destruct ((c =? 101) || (c =? 69)) eqn:Ec; [|done]. right.
  apply some_digits_spec in E3 as (ds & Hs & Hd). rewrite app_nil_r in Hs. apply orb_prop in Ec.
  assert (c = 101 \/ c = 69) as Hc by (destruct Ec; prop_bools; auto).
  unfold skip_byte in Hs. destruct t as [|s t]; [by destruct ds, Hd|].
  destruct ((s =? 43) || (s =? 45)) eqn:Es.
  - subst t. apply orb_prop in Es. exists c, [s], ds. split_and!; try done. destruct Es; prop_bools; subst; set_solver.
  - exists c, [], ds. split_and!; try done; [by rewrite <- Hs|set_solver].
Qed.

(** The numbers the writer passes as they are: exactly those of the grammar. *)
Theorem json_number_grammar s : is_json_number s = true <-> json_number s.
Proof.
  unfold is_json_number. split.
  - intros H. destruct (number_parts (skip_byte (fun c => c =? 45) s)) as (i & f & x & Hp & Hi & Hf & Hx).
    { destruct (_ ≫= number_exp) as [[|? ?]|]; done. }
    unfold skip_byte in Hp. destruct s as [|c s]; [by exists [], i, f, x; split_and!; [|set_solver|..]|].
    destruct (Z.eqb_spec c 45) as [->|].
    + exists [45], i, f, x. split_and!; [by rewrite Hp|set_solver|done..].
    + exists [], i, f, x. split_and!; [done|set_solver|done..].
  - intros (neg & i & f & x & -> & Hneg & Hi & Hf & Hx).
    assert (skip_byte (fun c => c =? 45) (neg ++ i ++ f ++ x) = i ++ f ++ x) as ->.
    { assert (exists d t, i = d :: t /\ d <> 45) as (d & t & -> & Hd).
      { destruct Hi as [->|(d & ds & -> & Hd & _)]; [by exists 48, []|]. exists d, ds. split; [done|lia]. }
      apply elem_of_cons in Hneg as [->|Hneg]; [|apply list_elem_of_singleton in Hneg as ->; done].
      cbn. by rewrite (proj2 (Z.eqb_neq d 45)). }
    assert (match f ++ x with c :: _ => is_digit c = false | [] => True end) as Hfx.
    { destruct Hf as [->|(ds & -> & _)]; [|done]. cbn. destruct Hx as [->|(e & sg & ds & -> & [->| ->] & _)]; done. }
    assert (number_int (i ++ f ++ x) = Some (f ++ x)) as ->.
    { destruct Hi as [->|(d & ds & -> & Hd & Hds)]; [done|]. cbn [app number_int].
      rewrite (proj2 (Z.eqb_neq d 48)) by lia. rewrite (proj2 (Z.leb_le 49 d)), (proj2 (Z.leb_le d 57)) by lia. cbn [andb]. f_equal.
      apply (skip_digits_app (d :: ds)); [|done]. cbn. unfold is_digit at 1.
      by rewrite (proj2 (Z.leb_le 48 d)), (proj2 (Z.leb_le d 57)) by lia. }
    assert (match x with c :: _ => is_digit c = false /\ c <> 46 | [] => True end) as Hxh.
    { destruct Hx as [->|(e & sg & ds & -> & [->| ->] & _)]; done. }
    cbn [mbind option_bind]. assert (number_frac (f ++ x) = Some x) as ->.
    { destruct Hf as [->|(ds & -> & Hds)]; cbn [app number_frac].
      - destruct x as [|c x]; [done|]. destruct Hxh as [_ Hc]. cbn [app number_frac]. by rewrite (proj2 (Z.eqb_neq c 46)).
      - apply some_digits_app; [done|]. destruct x; [done|]. apply Hxh. }
    cbn [mbind option_bind]. destruct Hx as [->|(e & sg & ds & -> & He & Hsg & Hds)]; [done|]. cbn [number_exp].
    assert ((e =? 101) || (e =? 69) = true) as -> by (by destruct He as [-> | ->]).
    assert (skip_byte (fun s => (s =? 43) || (s =? 45)) (sg ++ ds) = ds) as ->.
    { apply elem_of_cons in Hsg as [->|Hsg].
      - destruct Hds as [Hn Hd]. destruct ds as [|d ds]; [done|]. cbn in *. prop_bools. unfold is_digit in H. prop_bools.
        by rewrite (proj2 (Z.eqb_neq d 43)), (proj2 (Z.eqb_neq d 45)) by lia.
      - apply elem_of_cons in Hsg as [->|Hsg]; [done|]. by apply list_elem_of_singleton in Hsg as ->. }
    rewrite <- (app_nil_r ds), some_digits_app by done. done.
Qed.

(** A message whose last character that fits not is escaped leaves room for the
    closing brace and none for the closing quote: the error object is not JSON. *)
Theorem json_error_unterminated :
  let message := replicate 104 97 ++ [1] in
  let out := otsardb_cli_json_error (Some message) 128 in
  out = error_open ++ [dq] ++ replicate 104 97 ++ object_end /\
  read_json_string (drop (length error_open) out) = None.
Proof. vm_compute. done. Qed.
