(* ===== verification/Studio.v ===== *)
(** * The studio: request gate and generated SQL (cli/studio.c)

    The web workbench accepts a state-changing request only through the CSRF
    gate, and turns row edits and page requests into SQL text. The file models
    the gate with its header lookup and the two SQL generators with their bounded
    buffer. *)

From S2P Require Import Prelude CText Forward JsonMode.

(** ** The gate *)

Definition lower (c : Z) : Z := if (65 <=? c) && (c <=? 90) then c + 32 else c.

(** The first [length b] bytes of [a]. *)
Definition ascii_ci_eqn (a b : bytes) : bool := bytes_eqb (lower <$> take (length b) a) (lower <$> b).

Fixpoint ascii_ci_str_eq (a b : bytes) : bool :=
  match a, b with
  | [], [] => true
  | x :: a, y :: b => (lower x =? lower y) && ascii_ci_str_eq a b
  | _, _ => false
  end.

(** The differences are collected over the common length, without an early
    exit. *)
Fixpoint token_diff (diff : Z) (a b : bytes) : Z * bool :=
  match a, b with
  | x :: a, y :: b => token_diff (Z.lor diff (Z.lxor x y)) a b
  | [], [] => (diff, true)
  | _, _ => (diff, false)
  end.

Definition csrf_token_equal (a b : bytes) : bool :=
  let '(diff, both_end) := token_diff 0 a b in both_end && (diff =? 0).

Definition trim_blanks (v : bytes) : bytes :=
  rev (skip_while is_blank (rev (skip_while is_blank v))).

(** The lines of the header zone; [fuel] bounds their number. *)
Fixpoint header_lines (fuel : nat) (p : bytes) : list bytes :=
  match fuel, p with
  | O, _ | _, [] => []
  | S fuel, _ =>
      match find_bytes p crlf with
      | Some i => take i p :: header_lines fuel (drop (i + 2) p)
      | None => [p]
      end
  end.

(** The value of the header in one line, if it is that header. *)
Definition line_value (name line : bytes) : option bytes :=
  match split_at 58 line with
  | Some (key, value) => if (length key =? length name)%nat && ascii_ci_eqn key name
                         then Some (trim_blanks value) else None
  | None => None
  end.

Fixpoint first_value (name : bytes) (lines : list bytes) : option bytes :=
  match lines with
  | [] => None
  | l :: r => match line_value name l with Some v => Some v | None => first_value name r end
  end.

(** A value that does not fit is present and empty. *)
Definition header_value (headers name : bytes) (cap : Z) : option bytes :=
  match first_value name (header_lines (length headers) headers) with
  | Some v => Some (if cap <=? zlen v then [] else v)
  | None => None
  end.

Definition content_type_is_json (ct : bytes) : bool :=
  let media := fst (span (fun c => negb ((c =? 59) || (c =? 44))) ct) in
  bytes_eqb (lower <$> media) (str "application/json").

Inductive gate_result := GatePassed | GateForbidden (what : bytes) | GateUnsupported.

Definition studio_csrf_gate (port : Z) (csrf_token header_zone : bytes) : gate_result :=
  let expected_host := str "127.0.0.1:" ++ dec port in
  let expected_origin := str "http://127.0.0.1:" ++ dec port in
  let value name := header_value header_zone (str name) 512 in
  if negb match value "Host"%string with Some v => ascii_ci_str_eq v expected_host | None => false end
  then GateForbidden (str "forbidden: Host must be 127.0.0.1:<port>")
  else if match value "Origin"%string with Some v => negb (ascii_ci_str_eq v expected_origin) | None => false end
  then GateForbidden (str "forbidden: cross-origin requests are not allowed")
  else if negb match value "X-OTSARDB-CSRF"%string with Some v => csrf_token_equal v csrf_token | None => false end
  then GateForbidden (str "forbidden: missing or invalid X-OTSARDB-CSRF token")
  else if negb match value "Content-Type"%string with Some v => content_type_is_json v | None => false end
  then GateUnsupported
  else GatePassed.

(** ** The buffer *)

(** The buffer has [sb_cap] bytes allocated; [sb_past_end]: a NUL was written
    after them. *)
Record sbuf := mkSbuf {
  sb_data : bytes;
  sb_cap : Z;
  sb_overflow : bool;
  sb_past_end : bool
}.

Definition new_sbuf (cap : Z) : sbuf := mkSbuf [] cap false false.

Definition sbuf_grow (need : Z) : M sbuf bool := fun b =>
  if sb_overflow b then (false, b) else
  if sb_cap b <? zlen (sb_data b) + need then (false, mkSbuf (sb_data b) (sb_cap b) true (sb_past_end b))
  else (true, b).

Definition sbuf_putn (s : bytes) : M sbuf bool :=
  let! ok := sbuf_grow (zlen s) in
  if ok : bool then fun b =>
    let data := sb_data b ++ s in
    (true, mkSbuf data (sb_cap b) (sb_overflow b) (sb_past_end b || (sb_cap b <=? zlen data)))
  else return! false.

(** A part of the SQL: [None] when it was written, or the message. *)
Abbreviation part := (M sbuf (option bytes)).

Definition default_error : bytes := str "invalid edit request".

Definition puts (s : bytes) : part :=
  let! ok := sbuf_putn s in return! if ok : bool then None else Some default_error.

Definition then_ (a b : part) : part :=
  let! e := a in match e with None => b | Some _ => return! e end.

Fixpoint seq_parts (ps : list part) : part :=
  match ps with [] => return! None | p :: r => then_ p (seq_parts r) end.

(** The quote is doubled; the bytes are written one by one. *)
Definition quoted_parts (quote : Z) (s : bytes) : list part :=
  (fun c => puts (if c =? quote then [quote; quote] else [c])) <$> s.

Definition sbuf_quoted_ident (name : bytes) : part :=
  seq_parts (puts [34] :: quoted_parts 34 name ++ [puts [34]]).

(** ** Row edits *)

Record otsardb_studio_cell := mkCell {
  ce_is_null : bool;
  ce_is_number : bool;
  ce_text : option bytes
}.

(** The number rule of the JSON output. *)
Definition edit_is_number_text (s : option bytes) : bool := match s with Some t => is_json_number t | None => false end.

Definition sbuf_edit_cell (cell : otsardb_studio_cell) : part :=
  if ce_is_null cell then puts (str "NULL") else
  if ce_is_number cell then
    if edit_is_number_text (ce_text cell) then puts (default [] (ce_text cell))
    else return! Some (snprintf_s 256 (str "invalid number text in row value: " ++ default (str "(null)") (ce_text cell)))
  else seq_parts (puts [39] :: quoted_parts 39 (default [] (ce_text cell)) ++ [puts [39]]).

Definition sbuf_edit_predicate (name : bytes) (cell : otsardb_studio_cell) : part :=
  then_ (sbuf_quoted_ident name)
    (if ce_is_null cell then puts (str " IS NULL") else then_ (puts (str "=")) (sbuf_edit_cell cell)).

Definition OTSARDB_EDIT_MAX_COLS : Z := 64.

(** Arrays with their counts; an absent array of names is empty. *)
Record otsardb_studio_edit := mkEdit {
  ed_table : option bytes;
  ed_op : option bytes;
  ed_cols : list bytes;
  ed_pk : list bytes;
  ed_old : option (list otsardb_studio_cell);
  ed_new : option (list otsardb_studio_cell)
}.

Inductive edit_op := OpUpdate | OpDelete | OpInsert.

Definition edit_kind (op : option bytes) : option edit_op :=
  match op with
  | Some op => if bytes_eqb op (str "update") then Some OpUpdate
               else if bytes_eqb op (str "delete") then Some OpDelete
               else if bytes_eqb op (str "insert") then Some OpInsert else None
  | None => None
  end.

(** A row of as many cells as there are columns. *)
Definition row_of (cols : list bytes) (row : option (list otsardb_studio_cell)) : option (list otsardb_studio_cell) :=
  match row with
  | Some r => if (length r =? length cols)%nat then Some r else None
  | None => None
  end.

Definition count_error (what old_or_new : string) : bytes :=
  str what ++ str " requires " ++ q old_or_new ++ str " with the same column count".

(** The checks of the request: the operation, the table, and the rows the
    operation uses (the old one, the new one). *)
Definition check_edit (e : otsardb_studio_edit)
    : bytes + (edit_op * bytes * list otsardb_studio_cell * list otsardb_studio_cell) :=
  match ed_table e with
  | None | Some [] => inl (str "missing table name")
  | Some table =>
      match edit_kind (ed_op e) with
      | None => inl (snprintf_s 256 (str "unsupported edit operation: " ++ default (str "(missing)") (ed_op e)))
      | Some op =>
          if zlen (ed_cols e) <? 1 then inl (str "edit request has no columns") else
          if OTSARDB_EDIT_MAX_COLS <? zlen (ed_cols e) then inl (str "too many columns (max 64)") else
          if (zlen (ed_pk e) <? 1) && match op with OpInsert => false | _ => true end
          then inl (str "update/delete require primary-key columns (add " ++ q "pk" ++ str " to the request)") else
          if OTSARDB_EDIT_MAX_COLS <? zlen (ed_pk e) then inl (str "too many primary-key columns (max 64)") else
          let old := row_of (ed_cols e) (ed_old e) in
          let new := row_of (ed_cols e) (ed_new e) in
          match op, old, new with
          | OpUpdate, _, None => inl (count_error "update" "new")
          | OpUpdate, None, _ => inl (count_error "update" "old")
          | OpUpdate, Some old, Some new => inr (op, table, old, new)
          | OpInsert, _, None => inl (count_error "insert" "new")
          | OpInsert, _, Some new => inr (op, table, [], new)
          | OpDelete, None, _ => inl (count_error "delete" "old")
          | OpDelete, Some old, _ => inr (op, table, old, [])
          end
      end
  end.

Fixpoint column_index (cols : list bytes) (name : bytes) : option nat :=
  match cols with
  | [] => None
  | c :: r => if bytes_eqb c name then Some O else S <$> column_index r name
  end.

(** Parts with a separator before all but the first. *)
Fixpoint separated (sep : bytes) (first : bool) (ps : list part) : part :=
  match ps with
  | [] => return! None
  | p :: r => then_ (if first then return! None else puts sep) (then_ p (separated sep false r))
  end.

Definition set_parts (cols : list bytes) (new : list otsardb_studio_cell) : list part :=
  zip_with (fun col cell => seq_parts [sbuf_quoted_ident col; puts (str "="); sbuf_edit_cell cell]) cols new.

(** The index is looked up before the separator is written. *)
Fixpoint where_parts (first : bool) (cols pk : list bytes) (old : list otsardb_studio_cell) : part :=
  match pk with
  | [] => return! None
  | name :: r =>
      match column_index cols name with
      | None => return! Some (snprintf_s 256 (str "primary-key column '" ++ name ++ str "' is not among the row columns"))
      | Some idx =>
          then_ (if first then return! None else puts (str " AND "))
            (then_ (sbuf_edit_predicate name (default (mkCell true false None) (old !! idx)))
               (where_parts false cols r old))
      end
  end.

Definition edit_parts (e : otsardb_studio_edit) (op : edit_op) (table : bytes)
    (old new : list otsardb_studio_cell) : part :=
  then_
    match op with
    | OpUpdate => seq_parts [puts (str "UPDATE "); sbuf_quoted_ident table; puts (str " SET ");
                             separated (str ",") true (set_parts (ed_cols e) new);
                             puts (str " WHERE "); where_parts true (ed_cols e) (ed_pk e) old]
    | OpDelete => seq_parts [puts (str "DELETE FROM "); sbuf_quoted_ident table;
                             puts (str " WHERE "); where_parts true (ed_cols e) (ed_pk e) old]
    | OpInsert => seq_parts [puts (str "INSERT INTO "); sbuf_quoted_ident table; puts (str " (");
                             separated (str ",") true (sbuf_quoted_ident <$> ed_cols e);
                             puts (str ") VALUES ("); separated (str ",") true (sbuf_edit_cell <$> new);
                             puts (str ")")]
    end (puts (str ";")).

(** The SQL, or the message. A text that fills the buffer loses its last byte. *)
Definition otsardb_studio_edit_sql (e : otsardb_studio_edit) (out_cap : Z) : bytes + bytes :=
  if out_cap =? 0 then inl [] else
  match check_edit e with
  | inl message => inl (snprintf_s out_cap message)
  | inr (op, table, old, new) =>
      match edit_parts e op table old new (new_sbuf out_cap) with
      | (Some message, _) => inl (snprintf_s out_cap message)
      | (None, b) => inr (if zlen (sb_data b) <? out_cap then sb_data b else take (Z.to_nat (out_cap - 1)) (sb_data b))
      end
  end.

(** ** Pages *)

Definition is_page_space (c : Z) : bool := (c =? 32) || (c =? 9) || (c =? 13) || (c =? 10).
Definition is_word_byte (c : Z) : bool :=
  ((97 <=? c) && (c <=? 122)) || ((65 <=? c) && (c <=? 90)) || is_digit c || (c =? 95) || (c =? 36).

(** A keyword without case, not followed by a byte of an identifier. *)
Definition page_keyword (word sql : bytes) : option bytes :=
  let rest := drop (length word) sql in
  if ascii_ci_eqn sql word && match rest with c :: _ => negb (is_word_byte c) | [] => true end
  then Some rest else None.

(** An identifier between double quotes, of less than [cap] bytes. *)
Fixpoint paged_parse_quoted_ident (sql : bytes) (cap : Z) (out : bytes) : option (bytes * bytes) :=
  match sql with
  | [] => None
  | c :: t =>
      if c =? 34 then
        match t with
        | d :: t' => if d =? 34 then
                       if cap <=? zlen out + 1 then None else paged_parse_quoted_ident t' cap (out ++ [34])
                     else Some (out, t)
        | [] => Some (out, t)
        end
      else if cap <=? zlen out + 1 then None else paged_parse_quoted_ident t cap (out ++ [c])
  end.

Definition paged_ident (sql : bytes) : option (bytes * bytes) :=
  match sql with
  | c :: t =>
      if c =? 34 then paged_parse_quoted_ident t 512 []
      else match span is_word_byte sql with
           | ([], _) => None
           | (ident, rest) => if 512 <=? zlen ident then None else Some (ident, rest)
           end
  | [] => None
  end.

(** The table of [SELECT * FROM table]. *)
Definition paged_table (sql : bytes) : option bytes :=
  match page_keyword (str "select") (skip_while is_page_space sql) with
  | None => None
  | Some p =>
      match skip_while is_page_space p with
      | star :: p =>
          if negb (star =? 42) then None else
          match page_keyword (str "from") (skip_while is_page_space p) with
          | None => None
          | Some p =>
              match paged_ident (skip_while is_page_space p) with
              | None => None
              | Some (ident, p) =>
                  let p := skip_while is_page_space p in
                  let p := match p with c :: t => if c =? 59 then skip_while is_page_space t else p | [] => p end in
                  match p, ident with
                  | _ :: _, _ | _, [] => None
                  | [], _ => Some ident
                  end
              end
          end
      | [] => None
      end
  end.

(** A signed 64-bit product, as the machine computes it. *)
Definition s64 (v : Z) : Z := (v + 2 ^ 63) mod 2 ^ 64 - 2 ^ 63.

Definition dec_signed (v : Z) : bytes := if v <? 0 then str "-" ++ dec (- v) else dec v.

Definition otsardb_studio_paged_sql (sql : bytes) (page page_size : Z) (count_only : bool) (out_cap : Z) : option bytes :=
  if out_cap =? 0 then None else
  let page := if page <? 1 then 1 else page in
  let page_size := if page_size <? 1 then 200 else page_size in
  let page_size := if 10000 <? page_size then 10000 else page_size in
  let offset := s64 ((page - 1) * page_size) in
  if 2147483647 <? offset then None else
  match paged_table sql with
  | None => None
  | Some ident =>
      let ps := if count_only
                then [puts (str "SELECT COUNT(*) FROM "); sbuf_quoted_ident ident; puts (str ";")]
                else [puts (str "SELECT * FROM "); sbuf_quoted_ident ident;
                      puts (str " LIMIT " ++ dec_signed page_size ++ str " OFFSET " ++ dec_signed offset ++ str ";")] in
      match seq_parts ps (new_sbuf out_cap) with
      | (Some _, _) => None
      | (None, b) => Some (if zlen (sb_data b) <? out_cap then sb_data b else take (Z.to_nat (out_cap - 1)) (sb_data b))
      end
  end.
