(* ===== verification/StudioProps.v ===== *)
(** * The studio: what its SQL means and who may ask for it

    A reader of SQL text as a sequence of tokens, and the theorem that the SQL
    generated for a row edit reads back as the intended statement, whatever bytes
    its names and values have. *)

From S2P Require Import Prelude CText Forward JsonMode JsonModeProps Studio.

(** ** SQL tokens *)

Inductive token := Word (w : bytes) | Ident (name : bytes) | Str (s : bytes) | Num (n : bytes) | Punct (c : Z).

Inductive lmode := MNone | MWord (w : bytes) | MNum (n : bytes) | MIdent (s : bytes) | MIdentEnd (s : bytes)
                 | MStr (s : bytes) | MStrEnd (s : bytes).

Definition is_exp (c : Z) : bool := (c =? 101) || (c =? 69).

(** A sign belongs to a number after its exponent letter only. *)
Definition num_continues (n : bytes) (c : Z) : bool :=
  is_digit c || (c =? 46) || is_exp c ||
  (((c =? 43) || (c =? 45)) && match last_byte n with Some l => is_exp l | None => false end).

Definition start (c : Z) (toks : list token) : lmode * list token :=
  if is_page_space c then (MNone, toks)
  else if c =? 34 then (MIdent [], toks) else if c =? 39 then (MStr [], toks)
  else if is_digit c then (MNum [c], toks)
  else if is_word_byte c then (MWord [c], toks)
  else (MNone, toks ++ [Punct c]).

(** One byte. A quote inside quotes is doubled. *)
Definition step (st : lmode * list token) (c : Z) : lmode * list token :=
  let '(mode, toks) := st in
  match mode with
  | MNone => start c toks
  | MWord w => if is_word_byte c then (MWord (w ++ [c]), toks) else start c (toks ++ [Word w])
  | MNum n => if num_continues n c then (MNum (n ++ [c]), toks) else start c (toks ++ [Num n])
  | MIdent s => if c =? 34 then (MIdentEnd s, toks) else (MIdent (s ++ [c]), toks)
  | MIdentEnd s => if c =? 34 then (MIdent (s ++ [34]), toks) else start c (toks ++ [Ident s])
  | MStr s => if c =? 39 then (MStrEnd s, toks) else (MStr (s ++ [c]), toks)
  | MStrEnd s => if c =? 39 then (MStr (s ++ [39]), toks) else start c (toks ++ [Str s])
  end.

Definition finish (st : lmode * list token) : option (list token) :=
  let '(mode, toks) := st in
  match mode with
  | MNone => Some toks
  | MWord w => Some (toks ++ [Word w])
  | MNum n => Some (toks ++ [Num n])
  | MIdentEnd s => Some (toks ++ [Ident s])
  | MStrEnd s => Some (toks ++ [Str s])
  | MIdent _ | MStr _ => None
  end.

Definition lex (sql : bytes) : option (list token) := finish (foldl step (MNone, []) sql).

(** ** Reading in pieces *)

(** A token ends before these. *)
Definition is_delim (c : Z) : bool := existsb (Z.eqb c) [32; 40; 41; 44; 59; 61].

Lemma delim_cases c : is_delim c = true -> c = 32 \/ c = 40 \/ c = 41 \/ c = 44 \/ c = 59 \/ c = 61.
Proof. unfold is_delim. cbn. intros H. repeat (apply orb_prop in H as [H|H]; [prop_bools; lia|]). done. Qed.

Lemma finish_delim st toks c : finish st = Some toks -> is_delim c = true -> step st c = start c toks.
Proof.
  intros H Hc. assert (is_word_byte c = false /\ c <> 34 /\ c <> 39 /\ forall n, num_continues n c = false) as (Hw & H34 & H39 & Hn).
  { apply delim_cases in Hc as [->|[->|[->|[->|[->| ->]]]]]; done. }
  destruct st as [[] ts]; cbn in *; simplify_eq; try done.
  - by rewrite Hw.
  - by rewrite Hn.
  - by rewrite (proj2 (Z.eqb_neq c 34)).
  - by rewrite (proj2 (Z.eqb_neq c 39)).
Qed.

(** [text] reads as [new]; [clean] when its last token is complete. *)
Definition reads (text : bytes) (new : list token) : Prop := forall toks,
  finish (foldl step (MNone, toks) text) = Some (toks ++ new).
Definition clean (text : bytes) (new : list token) : Prop := forall toks,
  foldl step (MNone, toks) text = (MNone, toks ++ new).
Definition starts_delim (text : bytes) : Prop := match text with c :: _ => is_delim c = true | [] => False end.

Lemma clean_reads text new : clean text new -> reads text new.
Proof. intros H toks. by rewrite H. Qed.

Lemma reads_then a b n1 n2 : reads a n1 -> reads b n2 -> starts_delim b -> reads (a ++ b) (n1 ++ n2).
Proof.
  intros Ha Hb Hd toks. rewrite foldl_app. specialize (Ha toks). destruct b as [|c b]; [done|]. cbn [foldl].
  rewrite (finish_delim _ _ _ Ha Hd). specialize (Hb (toks ++ n1)). cbn [foldl step] in Hb. rewrite Hb. by rewrite app_assoc.
Qed.

Lemma reads_clean a b n1 n2 : reads a n1 -> clean b n2 -> starts_delim b -> clean (a ++ b) (n1 ++ n2).
Proof.
  intros Ha Hb Hd toks. rewrite foldl_app. specialize (Ha toks). destruct b as [|c b]; [done|]. cbn [foldl].
  rewrite (finish_delim _ _ _ Ha Hd). specialize (Hb (toks ++ n1)). cbn [foldl step] in Hb. rewrite Hb. by rewrite app_assoc.
Qed.

Lemma clean_then a b n1 n2 : clean a n1 -> reads b n2 -> reads (a ++ b) (n1 ++ n2).
Proof. intros Ha Hb toks. rewrite foldl_app, Ha, Hb. by rewrite app_assoc. Qed.

Lemma clean_clean a b n1 n2 : clean a n1 -> clean b n2 -> clean (a ++ b) (n1 ++ n2).
Proof. intros Ha Hb toks. rewrite foldl_app, Ha, Hb. by rewrite app_assoc. Qed.

(** ** Quoted names and values *)

Definition doubled (quote : Z) (s : bytes) : bytes := s ≫= fun c => if c =? quote then [quote; quote] else [c].

Lemma doubled_cons quote c s : doubled quote (c :: s) = (if c =? quote then [quote; quote] else [c]) ++ doubled quote s.
Proof. done. Qed.

Lemma ident_reads name : reads ([34] ++ doubled 34 name ++ [34]) [Ident name].
Proof.
  intros toks. change (foldl step (MNone, toks) ([34] ++ doubled 34 name ++ [34])) with (foldl step (MIdent [], toks) (doubled 34 name ++ [34])).
  rewrite foldl_app. assert (forall s, foldl step (MIdent s, toks) (doubled 34 name) = (MIdent (s ++ name), toks)) as ->; [|done].
  induction name as [|c name IH]; intros s; [by rewrite app_nil_r|].
  rewrite doubled_cons, foldl_app. destruct (Z.eqb_spec c 34) as [->|Hc].
  - change (foldl step (MIdent s, toks) [34; 34]) with (MIdent (s ++ [34]), toks). rewrite IH. by rewrite <- app_assoc.
  - cbn [foldl step]. rewrite (proj2 (Z.eqb_neq c 34)) by done. rewrite IH. by rewrite <- app_assoc.
Qed.

Lemma string_reads s : reads ([39] ++ doubled 39 s ++ [39]) [Str s].
Proof.
  intros toks. change (foldl step (MNone, toks) ([39] ++ doubled 39 s ++ [39])) with (foldl step (MStr [], toks) (doubled 39 s ++ [39])).
  rewrite foldl_app. assert (forall t, foldl step (MStr t, toks) (doubled 39 s) = (MStr (t ++ s), toks)) as ->; [|done].
  induction s as [|c s IH]; intros t; [by rewrite app_nil_r|].
  rewrite doubled_cons, foldl_app. destruct (Z.eqb_spec c 39) as [->|Hc].
  - change (foldl step (MStr t, toks) [39; 39]) with (MStr (t ++ [39]), toks). rewrite IH. by rewrite <- app_assoc.
  - cbn [foldl step]. rewrite (proj2 (Z.eqb_neq c 39)) by done. rewrite IH. by rewrite <- app_assoc.
Qed.

(** The tokens of a number: a minus sign is one of its own. *)
Definition number_tokens (text : bytes) : list token :=
  match text with c :: t => if c =? 45 then [Punct 45; Num t] else [Num text] | [] => [Num text] end.

Lemma digits_continue n ds toks : forallb is_digit ds = true ->
  foldl step (MNum n, toks) ds = (MNum (n ++ ds), toks).
Proof.
  revert n. induction ds as [|d ds IH]; intros n Hd; [by rewrite app_nil_r|]. cbn in Hd. prop_bools. cbn [foldl step].
  unfold num_continues. rewrite H. cbn [orb]. rewrite IH by done. by rewrite <- app_assoc.
Qed.

Lemma last_snoc (n : bytes) c : last_byte (n ++ [c]) = Some c.
Proof.
  induction n as [|x n IH]; [done|]. cbn [app last_byte]. destruct (n ++ [c]) eqn:E; [by destruct n|]. done.
Qed.

Lemma number_reads i f x : int_part i -> frac_part f -> exp_part x -> reads (i ++ f ++ x) [Num (i ++ f ++ x)].
Proof.
  intros Hi Hf Hx toks.
  assert (exists d t, i = d :: t /\ is_digit d = true /\ forallb is_digit t = true) as (d & t & -> & Hd & Ht).
  { destruct Hi as [->|(d & ds & -> & Hr & Hds)]; [by exists 48, []|]. exists d, ds. split_and!; try done.
    unfold is_digit. apply andb_true_intro. split; apply Z.leb_le; lia. }
  cbn [app foldl step]. assert (start d toks = (MNum [d], toks)) as ->.
  { unfold start. rewrite Hd. unfold is_digit in Hd. prop_bools. unfold is_page_space.
    repeat (rewrite (proj2 (Z.eqb_neq d _)) by lia). done. }
  rewrite !foldl_app, digits_continue by done.
  assert (foldl step (MNum ([d] ++ t), toks) f = (MNum (([d] ++ t) ++ f), toks)) as ->.
  { destruct Hf as [->|(ds & -> & _ & Hds)]; [by rewrite app_nil_r|]. cbn [foldl step].
    change (num_continues ([d] ++ t) 46) with true. cbv iota. rewrite digits_continue by done. by rewrite <- app_assoc. }
  destruct Hx as [->|(e & sg & ds & -> & He & Hsg & _ & Hds)]; [cbn; by rewrite !app_nil_r|]. cbn [foldl step].
  assert (num_continues (([d] ++ t) ++ f) e = true) as -> by (by destruct He as [-> | ->]).
  rewrite foldl_app. set (n := (([d] ++ t) ++ f) ++ [e]).
  assert (foldl step (MNum n, toks) sg = (MNum (n ++ sg), toks)) as ->.
  { assert (match last_byte n with Some l => is_exp l | None => false end = true) as Hl.
    { unfold n. rewrite last_snoc. by destruct He as [-> | ->]. }
    apply elem_of_cons in Hsg as [->|Hsg]; [by rewrite app_nil_r|].
    apply elem_of_cons in Hsg as [->|Hsg]; [|apply list_elem_of_singleton in Hsg as ->];
      cbn [foldl step]; unfold num_continues; rewrite Hl; done. }
  rewrite digits_continue by done. cbn. unfold n. by rewrite <- !app_assoc.
Qed.

Lemma number_text_reads text : is_json_number text = true -> reads text (number_tokens text).
Proof.
  intros H. apply json_number_grammar in H as (neg & i & f & x & -> & Hneg & Hi & Hf & Hx).
  pose proof (number_reads i f x Hi Hf Hx) as Hn.
  apply elem_of_cons in Hneg as [->|Hneg]; [|apply list_elem_of_singleton in Hneg as ->].
  - cbn [app]. unfold number_tokens. destruct (i ++ f ++ x) as [|c t] eqn:E; [done|].
    assert (c <> 45); [|by rewrite (proj2 (Z.eqb_neq c 45))].
    destruct Hi as [->|(d & ds & -> & Hr & _)]; cbn in E; injection E as <- _; lia.
  - cbn [app number_tokens Z.eqb Pos.eqb]. apply (clean_then [45] (i ++ f ++ x) [Punct 45]); [|done]. by intros toks.
Qed.

(** ** The generated text *)

(** A part that succeeds appends a text that satisfies [P], within the buffer. *)
Definition emits (p : part) (P : bytes -> Prop) : Prop := forall b b', p b = (None, b') ->
  exists t, sb_data b' = sb_data b ++ t /\ P t /\ sb_cap b' = sb_cap b /\
            (zlen (sb_data b) <= sb_cap b -> zlen (sb_data b') <= sb_cap b).

Lemma emits_weaken p (P Q : bytes -> Prop) : emits p P -> (forall t, P t -> Q t) -> emits p Q.
Proof. intros H HPQ b b' E. destruct (H b b' E) as (t & ? & ? & ?). eauto. Qed.

Lemma emits_none : emits (mret_ None) (eq []).
Proof. intros b b' [= <-]. exists []. by rewrite app_nil_r. Qed.

Lemma emits_fail P m : emits (mret_ (Some m)) P.
Proof. by intros b b' [=]. Qed.

Lemma emits_puts s : emits (puts s) (eq s).
Proof.
  intros b b'. unfold puts, sbuf_putn, sbuf_grow, mbind_, mret_. destruct (sb_overflow b); [done|].
  destruct (Z.ltb_spec (sb_cap b) (zlen (sb_data b) + zlen s)); [done|]. intros [= <-]. exists s. cbn. rewrite zlen_app.
  split_and!; done || lia.
Qed.

Lemma emits_then p q P Q : emits p P -> emits q Q -> emits (then_ p q) (fun t => exists a b, t = a ++ b /\ P a /\ Q b).
Proof.
  intros Hp Hq b b'. unfold then_, mbind_. destruct (p b) as [[m|] b1] eqn:E; [done|]. intros E2.
  destruct (Hp _ _ E) as (t1 & D1 & H1 & C1 & L1). destruct (Hq _ _ E2) as (t2 & D2 & H2 & C2 & L2).
  exists (t1 ++ t2). split_and!; [by rewrite D2, D1, app_assoc|eauto|congruence|]. intros Hl. rewrite <- C1. apply L2.
  rewrite C1. by apply L1.
Qed.

(** Parts one after the other. *)
Fixpoint in_turn (Ps : list (bytes -> Prop)) (t : bytes) : Prop :=
  match Ps with [] => t = [] | P :: r => exists a b, t = a ++ b /\ P a /\ in_turn r b end.

Lemma emits_seq ps Ps : Forall2 emits ps Ps -> emits (seq_parts ps) (in_turn Ps).
Proof.
  induction 1 as [|p P ps Ps Hp _ IH]; cbn [seq_parts].
  - eapply emits_weaken; [apply emits_none|]. by intros t <-.
  - by apply emits_then.
Qed.

Lemma quoted_text quote s : emits (seq_parts (puts [quote] :: quoted_parts quote s ++ [puts [quote]]))
  (eq ([quote] ++ doubled quote s ++ [quote])).
Proof.
  assert (emits (seq_parts (quoted_parts quote s ++ [puts [quote]])) (eq (doubled quote s ++ [quote]))) as H.
  { induction s as [|c s IH].
    - eapply emits_weaken; [apply emits_then; [apply emits_puts|apply emits_none]|]. by intros t (a & b & -> & <- & <-).
    - eapply emits_weaken; [apply emits_then; [apply emits_puts|exact IH]|]. intros t (a & b & -> & <- & <-).
      rewrite doubled_cons. by rewrite <- app_assoc. }
  eapply emits_weaken; [apply emits_then; [apply emits_puts|exact H]|]. by intros t (a & b & -> & <- & <-).
Qed.

Lemma emits_ident name : emits (sbuf_quoted_ident name) (fun t => reads t [Ident name]).
Proof. eapply emits_weaken; [apply quoted_text|]. intros t <-. apply ident_reads. Qed.

Definition cell_tokens (c : otsardb_studio_cell) : list token :=
  if ce_is_null c then [Word (str "NULL")]
  else if ce_is_number c then number_tokens (default [] (ce_text c)) else [Str (default [] (ce_text c))].

Lemma emits_cell c : emits (sbuf_edit_cell c) (fun t => reads t (cell_tokens c)).
Proof.
  unfold sbuf_edit_cell, cell_tokens. destruct (ce_is_null c).
  { eapply emits_weaken; [apply emits_puts|]. intros t <- toks. reflexivity. }
  destruct (ce_is_number c).
  - unfold edit_is_number_text. destruct (ce_text c) as [text|]; [|apply emits_fail].
    destruct (is_json_number text) eqn:E; [|apply emits_fail]. eapply emits_weaken; [apply emits_puts|].
    intros t <-. by apply number_text_reads.
  - eapply emits_weaken; [apply quoted_text|]. intros t <-. apply string_reads.
Qed.

Definition predicate_tokens (name : bytes) (c : otsardb_studio_cell) : list token :=
  Ident name :: if ce_is_null c then [Word (str "IS"); Word (str "NULL")] else Punct 61 :: cell_tokens c.

(** A name, an equal sign, a value. *)
Lemma assign_reads name a eq_ v c : reads a [Ident name] -> eq_ = str "=" -> reads v (cell_tokens c) ->
  reads (a ++ eq_ ++ v) (Ident name :: Punct 61 :: cell_tokens c).
Proof.
  intros Ha -> Hv. apply (reads_then a _ [Ident name]); [done| |done].
  apply (clean_then (str "=") v [Punct 61]); [by intros toks|done].
Qed.

Lemma emits_predicate name c : emits (sbuf_edit_predicate name c) (fun t => reads t (predicate_tokens name c)).
Proof.
  unfold sbuf_edit_predicate, predicate_tokens. destruct (ce_is_null c).
  - eapply emits_weaken; [apply emits_then; [apply emits_ident|apply emits_puts]|]. intros t (a & b & -> & Ha & <-).
    apply (reads_then a _ [Ident name]); [done| |done]. intros toks.
    change (Some ((toks ++ [Word (str "IS")]) ++ [Word (str "NULL")]) = Some (toks ++ [Word (str "IS"); Word (str "NULL")])).
    by rewrite <- app_assoc.
  - eapply emits_weaken; [apply emits_then; [apply emits_ident|apply emits_then; [apply emits_puts|apply emits_cell]]|].
    intros t (a & b & -> & Ha & s & v & -> & <- & Hv). by apply assign_reads.
Qed.

(** ** Lists with separators *)

Fixpoint separated_tokens (sep : list token) (first : bool) (ns : list (list token)) : list token :=
  match ns with [] => [] | n :: r => (if first then [] else sep) ++ n ++ separated_tokens sep false r end.

(** The rest of a list: nothing, or a separator first. *)
Definition tail_reads (t : bytes) (new : list token) : Prop := (t = [] /\ new = []) \/ (starts_delim t /\ reads t new).

Lemma item_reads a t n new : reads a n -> tail_reads t new -> reads (a ++ t) (n ++ new).
Proof. intros Ha [[-> ->]|[Hd Hr]]; [by rewrite !app_nil_r|by apply reads_then]. Qed.

Lemma sep_reads sep st a new : clean sep st -> starts_delim sep -> reads a new -> tail_reads (sep ++ a) (st ++ new).
Proof. intros Hs Hd Ha. right. split; [by destruct sep|by apply clean_then]. Qed.

Section Separated.
Context (sep : bytes) (st : list token) (Hsep : clean sep st) (Hd : starts_delim sep).

Lemma emits_separated_tail ps ns : Forall2 (fun p n => emits p (fun t => reads t n)) ps ns ->
  emits (separated sep false ps) (fun t => tail_reads t (separated_tokens st false ns)).
Proof.
  induction 1 as [|p n ps ns Hp _ IH]; cbn [separated separated_tokens].
  - eapply emits_weaken; [apply emits_none|]. intros t <-. by left.
  - eapply emits_weaken; [apply emits_then; [apply emits_puts|apply emits_then; [exact Hp|exact IH]]|].
    intros t (s & b & -> & <- & a & r & -> & Ha & Hr). apply sep_reads; [done|done|]. by apply item_reads.
Qed.

Lemma emits_separated p ps n ns : Forall2 (fun p n => emits p (fun t => reads t n)) (p :: ps) (n :: ns) ->
  emits (separated sep true (p :: ps)) (fun t => reads t (separated_tokens st true (n :: ns))).
Proof.
  intros H. inversion_clear H as [|? ? ? ? Hp Hps]. cbn [separated separated_tokens].
  eapply emits_weaken; [apply emits_then; [apply emits_none|apply emits_then; [exact Hp|by apply emits_separated_tail]]|].
  intros t (s & b & -> & <- & a & r & -> & Ha & Hr). cbn [app]. by apply item_reads.
Qed.
End Separated.

(** ** The statement *)

(** The value of a column of the row. *)
Definition cell_of (cols : list bytes) (row : list otsardb_studio_cell) (name : bytes) : otsardb_studio_cell :=
  default (mkCell true false None) (column_index cols name ≫= fun i => row !! i).

Definition where_tokens (first : bool) (cols pk : list bytes) (old : list otsardb_studio_cell) : list token :=
  separated_tokens [Word (str "AND")] first ((fun name => predicate_tokens name (cell_of cols old name)) <$> pk).

Lemma and_clean : clean (str " AND ") [Word (str "AND")].
Proof. by intros toks. Qed.

Lemma emits_where_tail cols pk old :
  emits (where_parts false cols pk old) (fun t => tail_reads t (where_tokens false cols pk old)).
Proof.
  induction pk as [|name pk IH]; cbn [where_parts].
  { eapply emits_weaken; [apply emits_none|]. intros t <-. by left. }
  destruct (column_index cols name) as [idx|] eqn:E; [|apply emits_fail].
  eapply emits_weaken; [apply emits_then; [apply emits_puts|apply emits_then; [apply emits_predicate|exact IH]]|].
  intros t (s & b & -> & <- & a & r & -> & Ha & Hr). apply (sep_reads _ [Word (str "AND")]); [apply and_clean|done|].
  cbn [fmap list_fmap separated_tokens]. unfold cell_of. rewrite E. by apply item_reads.
Qed.

Lemma emits_where cols name pk old :
  emits (where_parts true cols (name :: pk) old) (fun t => reads t (where_tokens true cols (name :: pk) old)).
Proof.
  cbn [where_parts]. destruct (column_index cols name) as [idx|] eqn:E; [|apply emits_fail].
  eapply emits_weaken; [apply emits_then; [apply emits_none|apply emits_then; [apply emits_predicate|apply emits_where_tail]]|].
  intros t (s & b & -> & <- & a & r & -> & Ha & Hr). unfold where_tokens, cell_of at 1. cbn [fmap list_fmap separated_tokens app].
  rewrite E. by apply item_reads.
Qed.

(** What an edit means, token by token. *)
Definition edit_tokens (e : otsardb_studio_edit) (op : edit_op) (table : bytes)
    (old new : list otsardb_studio_cell) : list token :=
  match op with
  | OpUpdate => [Word (str "UPDATE")] ++ [Ident table] ++ [Word (str "SET")] ++
      separated_tokens [Punct 44] true (zip_with (fun c v => Ident c :: Punct 61 :: cell_tokens v) (ed_cols e) new) ++
      [Word (str "WHERE")] ++ where_tokens true (ed_cols e) (ed_pk e) old
  | OpDelete => [Word (str "DELETE"); Word (str "FROM")] ++ [Ident table] ++
      [Word (str "WHERE")] ++ where_tokens true (ed_cols e) (ed_pk e) old
  | OpInsert => [Word (str "INSERT"); Word (str "INTO")] ++ [Ident table] ++ [Punct 40] ++
      separated_tokens [Punct 44] true ((fun c => [Ident c]) <$> ed_cols e) ++ [Punct 41; Word (str "VALUES"); Punct 40] ++
      separated_tokens [Punct 44] true (cell_tokens <$> new) ++ [Punct 41]
  end.

(** A keyword, a name or a list, and the rest. *)
Lemma clause_reads k a r nk na nr : clean k nk -> reads a na -> starts_delim r -> reads r nr ->
  reads (k ++ a ++ r) (nk ++ na ++ nr).
Proof. intros Hk Ha Hd Hr. apply clean_then; [done|]. by apply reads_then. Qed.

Lemma comma_clean : clean (str ",") [Punct 44].
Proof. by intros toks. Qed.

Lemma assign_emits cols new : Forall2 (fun p n => emits p (fun t => reads t n)) (set_parts cols new)
  (zip_with (fun c v => Ident c :: Punct 61 :: cell_tokens v) cols new).
Proof.
  unfold set_parts. revert new. induction cols as [|c cols IH]; intros [|v new]; constructor; [|apply IH].
  eapply emits_weaken.
  { apply emits_seq. constructor; [apply emits_ident|constructor; [apply emits_puts|constructor; [apply emits_cell|constructor]]]. }
  intros t (a & b & -> & Ha & q & r & -> & <- & v' & z & -> & Hv & ->). rewrite app_nil_r. by apply assign_reads.
Qed.

Lemma map_emits {A} (f : A -> part) (g : A -> list token) l : (forall x, emits (f x) (fun t => reads t (g x))) ->
  Forall2 (fun p n => emits p (fun t => reads t n)) (f <$> l) (g <$> l).
Proof. intros H. induction l; constructor; auto. Qed.

(** A list of at least one item. *)
Lemma emits_list ps ns : ps <> [] -> Forall2 (fun p n => emits p (fun t => reads t n)) ps ns ->
  emits (separated (str ",") true ps) (fun t => reads t (separated_tokens [Punct 44] true ns)).
Proof. intros Hne H. destruct H; [done|]. apply emits_separated; [apply comma_clean|done|by constructor]. Qed.

(** The head of a statement, and its keywords. *)
Lemma two_words a b toks : foldl step (MNone, toks) (a ++ [32] ++ b ++ [32]) = (MNone, (toks ++ [Word a]) ++ [Word b]) ->
  foldl step (MNone, toks) (a ++ [32] ++ b ++ [32]) = (MNone, toks ++ [Word a; Word b]).
Proof. intros ->. by rewrite <- app_assoc. Qed.

Lemma delete_clean : clean (str "DELETE FROM ") [Word (str "DELETE"); Word (str "FROM")].
Proof. intros toks. by apply (two_words (str "DELETE") (str "FROM")). Qed.

Lemma insert_clean : clean (str "INSERT INTO ") [Word (str "INSERT"); Word (str "INTO")].
Proof. intros toks. by apply (two_words (str "INSERT") (str "INTO")). Qed.

Lemma values_clean : clean (str ") VALUES (") [Punct 41; Word (str "VALUES"); Punct 40].
Proof.
  intros toks. change (foldl step (MNone, toks) (str ") VALUES ("))
    with (MNone, ((toks ++ [Punct 41]) ++ [Word (str "VALUES")]) ++ [Punct 40]). by rewrite <- !app_assoc.
Qed.

Lemma emits_update e table old new : set_parts (ed_cols e) new <> [] -> ed_pk e <> [] ->
  emits (seq_parts [puts (str "UPDATE "); sbuf_quoted_ident table; puts (str " SET ");
                    separated (str ",") true (set_parts (ed_cols e) new);
                    puts (str " WHERE "); where_parts true (ed_cols e) (ed_pk e) old])
        (fun t => reads t (edit_tokens e OpUpdate table old new)).
Proof.
  intros Hc Hpk. destruct (ed_pk e) as [|name pk] eqn:Epk; [done|]. eapply emits_weaken.
  { apply emits_seq. repeat (constructor; [first [apply emits_puts|apply emits_ident|apply emits_where
      |apply emits_list; [exact Hc|apply assign_emits]]|]). constructor. }
  intros t (k & x1 & -> & <- & i & x2 & -> & Hi & k2 & x3 & -> & <- & l & x4 & -> & Hl & k3 & x5 & -> & <- & w & z & -> & Hw & ->).
  unfold edit_tokens. rewrite Epk, app_nil_r. apply clause_reads; [by intros toks|done|done|].
  apply clause_reads; [by intros toks|done|done|]. apply clean_then; [by intros toks|done].
Qed.

Lemma emits_delete e table old new : ed_pk e <> [] ->
  emits (seq_parts [puts (str "DELETE FROM "); sbuf_quoted_ident table;
                    puts (str " WHERE "); where_parts true (ed_cols e) (ed_pk e) old])
        (fun t => reads t (edit_tokens e OpDelete table old new)).
Proof.
  intros Hpk. destruct (ed_pk e) as [|name pk] eqn:Epk; [done|]. eapply emits_weaken.
  { apply emits_seq. repeat (constructor; [first [apply emits_puts|apply emits_ident|apply emits_where]|]). constructor. }
  intros t (k & x1 & -> & <- & i & x2 & -> & Hi & k3 & x5 & -> & <- & w & z & -> & Hw & ->).
  unfold edit_tokens. rewrite Epk, app_nil_r. apply clause_reads; [apply delete_clean|done|done|].
  apply clean_then; [by intros toks|done].
Qed.

Lemma emits_insert e table old new : ed_cols e <> [] -> new <> [] ->
  emits (seq_parts [puts (str "INSERT INTO "); sbuf_quoted_ident table; puts (str " (");
                    separated (str ",") true (sbuf_quoted_ident <$> ed_cols e);
                    puts (str ") VALUES ("); separated (str ",") true (sbuf_edit_cell <$> new);
                    puts (str ")")])
        (fun t => reads t (edit_tokens e OpInsert table old new)).
Proof.
  intros Hc Hn. eapply emits_weaken.
  { apply emits_seq. repeat (constructor; [first [apply emits_puts|apply emits_ident
      |apply emits_list; [by destruct (ed_cols e)|apply map_emits, emits_ident]
      |apply emits_list; [by destruct new|apply map_emits, emits_cell]]|]). constructor. }
  intros t (k & x1 & -> & <- & i & x2 & -> & Hi & k2 & x3 & -> & <- & l & x4 & -> & Hl & k3 & x5 & -> & <-
            & w & x6 & -> & Hw & k4 & z & -> & <- & ->).
  unfold edit_tokens. rewrite app_nil_r. apply clause_reads; [apply insert_clean|done|done|].
  apply clause_reads; [by intros toks|done|done|]. apply clause_reads; [apply values_clean|done|done|by intros toks].
Qed.

(** What the checks establish. *)
Lemma check_edit_spec e op table old new : check_edit e = inr (op, table, old, new) ->
  ed_table e = Some table /\ edit_kind (ed_op e) = Some op /\ ed_cols e <> [] /\
  match op with
  | OpUpdate => ed_pk e <> [] /\ ed_old e = Some old /\ ed_new e = Some new /\
                length old = length (ed_cols e) /\ length new = length (ed_cols e)
  | OpDelete => ed_pk e <> [] /\ ed_old e = Some old /\ length old = length (ed_cols e)
  | OpInsert => ed_new e = Some new /\ length new = length (ed_cols e)
  end.
Proof.
  unfold check_edit, row_of. intros H. destruct (ed_table e) as [[|c table']|]; [done| |done].
  destruct (edit_kind (ed_op e)) as [o|]; [|done]. destruct (ed_cols e) as [|col cols]; [done|].
  destruct (zlen (col :: cols) <? 1); [done|]. destruct (OTSARDB_EDIT_MAX_COLS <? zlen (col :: cols)); [done|].
  destruct (ed_pk e) as [|name pk]; destruct o; try done;
    repeat match goal with
    | H : context [if OTSARDB_EDIT_MAX_COLS <? ?v then _ else _] |- _ => destruct (OTSARDB_EDIT_MAX_COLS <? v)
    | H : context [zlen (name :: pk) <? 1] |- _ => destruct (zlen (name :: pk) <? 1)
    | H : context [match ed_old e with _ => _ end] |- _ => destruct (ed_old e) as [o|]
    | H : context [match ed_new e with _ => _ end] |- _ => destruct (ed_new e) as [w|]
    | H : context [if (?a =? ?b)%nat then _ else _] |- _ => destruct (Nat.eqb_spec a b)
    end; rewrite ?andb_false_r in H; cbn in H; simplify_eq; split_and!; done.
Qed.

Lemma edit_emits e op table old new : check_edit e = inr (op, table, old, new) ->
  emits (edit_parts e op table old new)
        (fun t => exists s, t = s ++ str ";" /\ reads s (edit_tokens e op table old new)).
Proof.
  intros H. apply check_edit_spec in H as (_ & _ & Hc & Hop). unfold edit_parts. eapply emits_weaken.
  { apply emits_then; [|apply emits_puts]. destruct op.
    - destruct Hop as (Hpk & _ & _ & _ & Hn). apply emits_update; [|done].
      destruct (ed_cols e), new; done.
    - destruct Hop as (Hpk & _). by apply emits_delete.
    - destruct Hop as (_ & Hn). apply emits_insert; [done|]. destruct (ed_cols e), new; done. }
  intros t (a & b & -> & Ha & <-). by exists a.
Qed.

(** C40. The SQL generated for a row edit reads as the intended statement: the
    operation's keywords, the table, the columns and the values, each a single token
    (a quoted name, a quoted string, a number or NULL), whatever bytes the names and
    the values have, with the primary-key columns compared to the original row. A
    text that fills the buffer loses the final semicolon only. *)
Theorem studio_edit_injection_free (e : otsardb_studio_edit) (cap : Z) (sql : bytes) :
  0 <= cap -> otsardb_studio_edit_sql e cap = inr sql ->
  exists op table old new, check_edit e = inr (op, table, old, new) /\
    ed_table e = Some table /\ edit_kind (ed_op e) = Some op /\ zlen sql < cap /\
    (lex sql = Some (edit_tokens e op table old new ++ [Punct 59]) \/ lex sql = Some (edit_tokens e op table old new)).
Proof.
  intros Hcap. unfold otsardb_studio_edit_sql. destruct (Z.eqb_spec cap 0); [done|].
  destruct (check_edit e) as [m|[[[op table] old] new]] eqn:Ec; [done|].
  destruct (edit_parts e op table old new (new_sbuf cap)) as [[m|] b] eqn:Ep; [done|]. intros [= <-].
  exists op, table, old, new. pose proof (check_edit_spec _ _ _ _ _ Ec) as (Ht & Ho & _). split_and!; try done.
  - destruct (Z.ltb_spec (zlen (sb_data b)) cap); [done|]. unfold zlen in *. rewrite length_take. lia.
  - destruct (edit_emits _ _ _ _ _ Ec _ _ Ep) as (t & D & (s & -> & Hs) & _ & L). cbn in D, L.
    specialize (L Hcap). rewrite D in *. unfold lex. case_match.
    + left. pose proof (reads_then s (str ";") _ [Punct 59] Hs ltac:(by intros toks) eq_refl []) as Hr. by rewrite Hr.
    + right. rewrite zlen_app in *. change (zlen (str ";")) with 1 in *. rewrite take_app_le, take_ge by (unfold zlen in *; lia).
      by rewrite (Hs []).
Qed.

(** A value that tries to end its literal and start a statement of its own. *)
Definition hostile_edit : otsardb_studio_edit :=
  mkEdit (Some (str "users")) (Some (str "update")) [str "id"; str "name"] [str "id"]
    (Some [mkCell false true (Some (str "1")); mkCell false false (Some (str "ana"))])
    (Some [mkCell false true (Some (str "1")); mkCell false false (Some (str "x'; DROP TABLE users; --"))]).

Definition hostile_sql : bytes :=
  match otsardb_studio_edit_sql hostile_edit 16384 with inr sql => sql | inl _ => [] end.

Lemma studio_edit_injection_free_witness :
  exists op table old new, check_edit hostile_edit = inr (op, table, old, new) /\
    ed_table hostile_edit = Some table /\ edit_kind (ed_op hostile_edit) = Some op /\ zlen hostile_sql < 16384 /\
    (lex hostile_sql = Some (edit_tokens hostile_edit op table old new ++ [Punct 59]) \/
     lex hostile_sql = Some (edit_tokens hostile_edit op table old new)).
Proof. apply (studio_edit_injection_free hostile_edit 16384); [lia|vm_compute; reflexivity]. Defined.

(** ** The gate *)

Lemma bytes_eqb_cons x y a b : bytes_eqb (x :: a) (y :: b) = (x =? y) && bytes_eqb a b.
Proof.
  apply Bool.eq_iff_eq_true. rewrite andb_true_iff, !bytes_eqb_eq, Z.eqb_eq. split; [by intros [= -> ->]|by intros [-> ->]].
Qed.

Lemma token_diff_spec diff a b :
  let '(d, e) := token_diff diff a b in e && (d =? 0) = (diff =? 0) && bytes_eqb a b.
Proof.
  revert diff b. induction a as [|x a IH]; intros diff [|y b]; cbn [token_diff];
    try (by destruct (diff =? 0)).
  specialize (IH (Z.lor diff (Z.lxor x y)) b).
  destruct (token_diff _ a b) as [d e]. rewrite IH. clear IH.
  destruct (Z.eqb_spec (Z.lor diff (Z.lxor x y)) 0) as [H0|H0].
  - apply Z.lor_eq_0_iff in H0 as [-> H0]. apply Z.lxor_eq in H0 as ->. cbn. by rewrite bytes_eqb_cons, Z.eqb_refl.
  - destruct (Z.eqb_spec diff 0) as [->|]; [|done]. cbn. rewrite bytes_eqb_cons. destruct (Z.eqb_spec x y) as [->|]; [|done].
    by rewrite Z.lxor_nilpotent in H0.
Qed.

Lemma csrf_token_equal_eq a b : csrf_token_equal a b = bytes_eqb a b.
Proof. unfold csrf_token_equal. pose proof (token_diff_spec 0 a b) as H. destruct (token_diff 0 a b). by rewrite H. Qed.

(** A request passes the gate only when it carries the session's token, in a
    comparison that reads both tokens to their common end, with the server's own
    address as its host, no foreign origin and a JSON body. *)
Theorem studio_gate_requires_token (port : Z) (token headers : bytes) :
  studio_csrf_gate port token headers = GatePassed ->
  header_value headers (str "X-OTSARDB-CSRF") 512 = Some token /\
  (exists host, header_value headers (str "Host") 512 = Some host /\ ascii_ci_str_eq host (str "127.0.0.1:" ++ dec port) = true) /\
  (forall origin, header_value headers (str "Origin") 512 = Some origin ->
     ascii_ci_str_eq origin (str "http://127.0.0.1:" ++ dec port) = true) /\
  (exists ct, header_value headers (str "Content-Type") 512 = Some ct /\ content_type_is_json ct = true).
Proof.
  unfold studio_csrf_gate.
  destruct (header_value headers (str "Host") 512) as [host|] eqn:Eh; [|done].
  destruct (ascii_ci_str_eq host _) eqn:Eq1; [|done].
  destruct (header_value headers (str "Origin") 512) as [origin|] eqn:Eo;
    [destruct (ascii_ci_str_eq origin _) eqn:Eq2; [|done]|];
  (destruct (header_value headers (str "X-OTSARDB-CSRF") 512) as [v|] eqn:Ev; [|done]);
  (destruct (csrf_token_equal v token) eqn:Eq3; [|done]);
  (destruct (header_value headers (str "Content-Type") 512) as [ct|] eqn:Ec; [|done]);
  (destruct (content_type_is_json ct) eqn:Eq4; [|done]); intros _;
  (rewrite csrf_token_equal_eq in Eq3; apply bytes_eqb_eq in Eq3 as ->);
  split_and!; try done; try (by eexists); by intros ? [= <-].
Qed.

Definition gate_headers : bytes :=
  str "host: 127.0.0.1:8717" ++ crlf ++ str "x-otsardb-csrf: 0af3" ++ crlf ++ str "Content-Type: application/json" ++ crlf.

Lemma studio_gate_requires_token_witness : header_value gate_headers (str "X-OTSARDB-CSRF") 512 = Some (str "0af3").
Proof. apply (studio_gate_requires_token 8717 (str "0af3") gate_headers). vm_compute. reflexivity. Defined.

(** A request without the token is refused before its body is read. *)
Example studio_gate_refuses :
  studio_csrf_gate 8717 (str "0af3") (str "Host: 127.0.0.1:8717" ++ crlf ++ str "Content-Type: application/json" ++ crlf)
  = GateForbidden (str "forbidden: missing or invalid X-OTSARDB-CSRF token").
Proof. vm_compute. reflexivity. Qed.

(** ** What the generators do at their bounds *)

(** A text of exactly the buffer's size puts its NUL after the allocation. *)
Lemma sbuf_nul_past_end data s cap : zlen data + zlen s = cap ->
  sb_past_end (snd (sbuf_putn s (mkSbuf data cap false false))) = true.
Proof.
  intros H. unfold sbuf_putn, sbuf_grow, mbind_. cbn. rewrite (proj2 (Z.ltb_ge _ _)) by lia. cbn.
  apply Z.leb_le. rewrite zlen_app. lia.
Qed.

(** The product that bounds the page wraps for a page of fifteen digits, and the
    statement has a negative offset. *)
Lemma studio_page_offset_wraps :
  otsardb_studio_paged_sql (str "select * from t") 999999999999999 10000 false 512
  = Some (str "SELECT * FROM " ++ q "t" ++ str " LIMIT 10000 OFFSET -8446744073709571616;").
Proof. vm_compute. reflexivity. Qed.

(** An edit that does not fit is reported as an invalid request: the message has
    its default already, so the one about the limit is never written. *)
Lemma studio_edit_cap_message : otsardb_studio_edit_sql hostile_edit 64 = inl (str "invalid edit request").
Proof. vm_compute. reflexivity. Qed.

(** A value of more than 256 bytes is accepted. *)
Lemma studio_edit_long_value :
  exists sql, otsardb_studio_edit_sql (mkEdit (Some (str "t")) (Some (str "insert")) [str "c"] [] None
    (Some [mkCell false false (Some (replicate 400 120))])) 16384 = inr sql.
Proof. eexists. vm_compute. reflexivity. Qed.
