(* ===== verification/LocalCache.v ===== *)
(** * The cache of database images on disk (storage/local_cache.cpp)

    A session saves its image when it closes, with a metadata file that attests
    generation, commit and digest, and the next session takes the image over when
    the head has not changed. Disk calls may fail, write short, or be the last one
    before the power is lost; what was not synced may then be anything. *)

From S2P Require Import Prelude CText Sha256.

(** ** The disk *)

(** [F_fail n]: the call fails, a read or write has moved its first [n] bytes.
    [F_crash n]: the same, and nothing happens after it. *)
Inductive fault := F_ok | F_fail (n : nat) | F_crash (n : nat).

Record dfile := mkDfile {
  df_data : bytes;
  df_synced : bool;
  df_mtime : Z
}.

(** [dk_dirs]: the directories in the order a scan lists them; [dk_last]: the
    static variable of [next_saved_at]; [dk_on]: the power is on. *)
Record disk := mkDisk {
  dk_files : gmap bytes dfile;
  dk_dirs : list bytes;
  dk_now : Z;
  dk_last : Z;
  dk_faults : list fault;
  dk_on : bool
}.

Definition set_files (f : gmap bytes dfile -> gmap bytes dfile) (d : disk) : disk :=
  mkDisk (f (dk_files d)) (dk_dirs d) (dk_now d) (dk_last d) (dk_faults d) (dk_on d).
Definition set_dirs (f : list bytes -> list bytes) (d : disk) : disk :=
  mkDisk (dk_files d) (f (dk_dirs d)) (dk_now d) (dk_last d) (dk_faults d) (dk_on d).
Definition set_script (faults : list fault) (on : bool) (d : disk) : disk :=
  mkDisk (dk_files d) (dk_dirs d) (dk_now d) (dk_last d) faults on.

(** One call: [None] when it was done, or the number of bytes before it failed. *)
Definition call (all : disk -> disk) (part : nat -> disk -> disk) : M disk (option nat) := fun d =>
  if negb (dk_on d) then (Some O, d) else
  match dk_faults d with
  | [] => (None, all d)
  | F_ok :: r => (None, all (set_script r true d))
  | F_fail n :: r => (Some n, part n (set_script r true d))
  | F_crash n :: r => (Some n, part n (set_script r false d))
  end.

Definition done (r : option nat) : bool := match r with None => true | Some _ => false end.

(** A call that is done as a whole or not at all. *)
Definition effect (f : disk -> disk) : M disk bool := let! r := call f (fun _ d => d) in return! done r.

(** A question about the disk, with the answer of a failure. *)
Definition query {A} (default : A) (f : disk -> A) : M disk A :=
  let! r := call (fun d => d) (fun _ d => d) in
  fun d => (if done r then f d else default, d).

Definition write_file (path : bytes) (f : dfile -> bytes) (d : disk) : disk :=
  set_files (alter (fun x => mkDfile (f x) false (dk_now d)) path) d.

Definition fopen_rb (path : bytes) : M disk (option bytes) := query None (fun d => df_data <$> dk_files d !! path).

Definition fopen_wb (path : bytes) : M disk bool :=
  effect (fun d => set_files (<[path := mkDfile [] false (dk_now d)]>) d).

Definition fread (chunk : bytes) : M disk (bytes * bool) :=
  let! r := call (fun d => d) (fun _ d => d) in
  return! match r with None => (chunk, true) | Some n => (take n chunk, false) end.

Definition fwrite (path data : bytes) : M disk bool :=
  let! r := call (write_file path (fun x => df_data x ++ data)) (fun n => write_file path (fun x => df_data x ++ take n data)) in
  return! done r.

Definition fclose : M disk bool := effect (fun d => d).

(** The stream is flushed, then the descriptor is synced. *)
Definition fsync_stream (path : bytes) : M disk bool :=
  let! flushed := effect (fun d => d) in
  if flushed then effect (set_files (alter (fun x => mkDfile (df_data x) true (df_mtime x)) path)) else return! false.

(** The file replaces the other one in a single step. *)
Definition rename (from to : bytes) : M disk bool :=
  let! source := query None (fun d => dk_files d !! from) in
  match source with
  | None => return! false
  | Some f => effect (set_files (fun m => <[to := f]> (delete from m)))
  end.

(** The callers do not look at the result of a removal. *)
Definition fs_remove (path : bytes) : M disk unit := let! _ := effect (set_files (delete path)) in return! tt.

(** ** Paths *)

Definition slash : Z := 47.
Definition parent_path (p : bytes) : bytes := match split_at slash (rev p) with Some (_, r) => rev r | None => [] end.
Definition filename (p : bytes) : bytes := match split_at slash (rev p) with Some (n, _) => rev n | None => p end.

(** A directory is removed when nothing is in it. *)
Definition remove_dir (dir : bytes) : M disk unit :=
  let! _ := effect (fun d =>
    if existsb (fun p => bytes_eqb (parent_path p) dir) (map fst (map_to_list (dk_files d)) ++ dk_dirs d) then d
    else set_dirs (List.filter (fun x => negb (bytes_eqb x dir))) d) in
  return! tt.

(** The directory and those it is in; [fuel] bounds their number. *)
Fixpoint ancestors (fuel : nat) (dir : bytes) : list bytes :=
  match fuel, dir with
  | O, _ | _, [] => []
  | S fuel, _ => ancestors fuel (parent_path dir) ++ [dir]
  end.

Definition create_directories (dir : bytes) : M disk bool :=
  effect (set_dirs (fun dirs => foldl (fun ds x => if existsb (bytes_eqb x) ds then ds else ds ++ [x]) dirs
                                  (ancestors (length dir) dir))).

Definition kCacheVersionDir : bytes := str "otsardb-cache-v1".
Definition kIndexName : bytes := str "otsardb-cache-index.json".

Definition cache_root_path (cache_dir : bytes) : bytes :=
  match cache_dir with
  | [] => []
  | _ => rev (skip_while (Z.eqb slash) (rev cache_dir)) ++ [slash] ++ kCacheVersionDir
  end.
Definition cache_db_dir (cache_dir database_id : bytes) : bytes := cache_root_path cache_dir ++ [slash] ++ database_id.
Definition metadata_path (cache_dir database_id : bytes) : bytes := cache_db_dir cache_dir database_id ++ str "/cache.json".
Definition image_path (cache_dir database_id : bytes) : bytes := cache_db_dir cache_dir database_id ++ str "/state.db".
Definition index_path (cache_dir : bytes) : bytes := cache_root_path cache_dir ++ [slash] ++ kIndexName.
Definition tmp_path (dest : bytes) : bytes := dest ++ str ".tmp".

Definition file_exists (path : bytes) : M disk bool := query false (fun d => bool_decide (is_Some (dk_files d !! path))).
Definition file_size (path : bytes) : M disk Z := query 0 (fun d => match dk_files d !! path with Some f => zlen (df_data f) | None => 0 end).
Definition mtime_ms (path : bytes) : M disk Z :=
  query 0 (fun d => match dk_files d !! path with Some f => Z.max 0 (df_mtime f) | None => 0 end).

Definition next_saved_at : M disk Z := fun d =>
  let now := if dk_now d <=? dk_last d then u64 (dk_last d + 1) else dk_now d in
  (now, mkDisk (dk_files d) (dk_dirs d) (dk_now d) now (dk_faults d) (dk_on d)).

(** ** Metadata *)

Record otsardb_local_cache_state := mkState {
  cs_generation : Z;
  cs_commit_id : bytes;
  cs_commit_sha256 : bytes;
  cs_image_size_bytes : Z;
  cs_image_sha256 : bytes
}.

Definition OTSARDB_LOCAL_CACHE_COMMIT_ID_MAX : Z := 63.
Definition OTSARDB_LOCAL_CACHE_SHA256_MAX : Z := 64.

(** [sscanf]: a literal of the format, [%llu], and [%<width>[^quote]]. *)
Definition scan_literal (lit p : bytes) : option bytes := if prefixb lit p then Some (drop (length lit) p) else None.
Definition scan_u64 (p : bytes) : option (Z * bytes) := match strtoull p with Some (v, r, _) => Some (v, r) | None => None end.
Definition scan_unquoted (width : Z) (p : bytes) : option (bytes * bytes) :=
  match take (Z.to_nat width) (fst (span (fun c => negb (c =? dq)) p)) with
  | [] => None
  | run => Some (run, drop (length run) p)
  end.

Definition lit_generation : bytes := str "{" ++ q "generation" ++ str ":".
Definition lit_commit_id : bytes := str "," ++ q "commit_id" ++ str ":" ++ [dq].
Definition lit_commit_sha256 : bytes := [dq] ++ str "," ++ q "commit_sha256" ++ str ":" ++ [dq].
Definition lit_image_size : bytes := [dq] ++ str "," ++ q "image_size" ++ str ":".
Definition lit_image_sha256 : bytes := str "," ++ q "image_sha256" ++ str ":" ++ [dq].

(** The five conversions. *)
Definition scan_metadata (json : bytes) : option otsardb_local_cache_state :=
  p ← scan_literal lit_generation json;
  '(gen, p) ← scan_u64 p;
  p ← scan_literal lit_commit_id p;
  '(id, p) ← scan_unquoted OTSARDB_LOCAL_CACHE_COMMIT_ID_MAX p;
  p ← scan_literal lit_commit_sha256 p;
  '(sha, p) ← scan_unquoted OTSARDB_LOCAL_CACHE_SHA256_MAX p;
  p ← scan_literal lit_image_size p;
  '(img_size, p) ← scan_u64 p;
  p ← scan_literal lit_image_sha256 p;
  '(img_sha, p) ← scan_unquoted OTSARDB_LOCAL_CACHE_SHA256_MAX p;
  Some (mkState gen id sha img_size img_sha).

(** The lines are joined without their newlines. *)
Definition parse_metadata (data : bytes) : option otsardb_local_cache_state :=
  match scan_metadata (cstr (List.filter (fun c => negb (c =? 10)) data)) with
  | Some st =>
      if (cs_generation st =? 0) || (zlen (cs_commit_id st) =? 0) || negb (zlen (cs_commit_sha256 st) =? 64) ||
         negb (zlen (cs_image_sha256 st) =? 64) || (cs_image_size_bytes st =? 0)
      then None else Some st
  | None => None
  end.

Definition read_metadata (path : bytes) : M disk (option otsardb_local_cache_state) :=
  let! data := fopen_rb path in return! (data ≫= parse_metadata).

Definition metadata_text (st : otsardb_local_cache_state) : bytes :=
  lit_generation ++ dec (cs_generation st) ++ lit_commit_id ++ cs_commit_id st ++ lit_commit_sha256 ++ cs_commit_sha256 st ++
  lit_image_size ++ dec (cs_image_size_bytes st) ++ lit_image_sha256 ++ cs_image_sha256 st ++ [dq] ++ str "}" ++ [10].

Definition write_metadata (path : bytes) (st : otsardb_local_cache_state) : M disk bool :=
  let tmp := tmp_path path in
  let! made := create_directories (parent_path tmp) in
  if negb made then return! false else
  let! opened := fopen_wb tmp in
  if negb opened then return! false else
  let! written := fwrite tmp (metadata_text st) in
  let! ok := if written then fsync_stream tmp else return! false in
  let! closed := fclose in
  if negb (ok && closed) then (let! _ := fs_remove tmp in return! false) else
  rename tmp path.

(** ** Images *)

Definition BUFFER : nat := Z.to_nat (2 ^ 18).

(** Read a file in buffers and hand each one on: whether all went well, and the
    bytes that were read. [fuel] bounds the rounds. *)
Fixpoint read_loop (fuel : nat) (sink : bytes -> M disk bool) (rest seen : bytes) : M disk (bool * bytes) :=
  match fuel with
  | O => return! (true, seen)
  | S fuel =>
      let! (buf, ok) := fread (take BUFFER rest) in
      let! taken := match buf with [] => return! true | _ => sink buf end in
      if negb taken then return! (false, seen)
      else if (length buf <? BUFFER)%nat then return! (ok, seen ++ buf)
      else read_loop fuel sink (drop BUFFER rest) (seen ++ buf)
  end.

(** The bytes a stream that is open for reading delivers. *)
Definition contents_of (path : bytes) : M disk bytes := fun d =>
  (match dk_files d !! path with Some f => df_data f | None => [] end, d).

Section Cache.
Context `{Sha256}.

Definition sha256_file (path : bytes) : M disk (option (Z * bytes)) :=
  let! file := fopen_rb path in
  match file with
  | None => return! None
  | Some data =>
      let! (ok, seen) := read_loop (S (length data)) (fun _ => return! true) data [] in
      let! _ := fclose in
      return! if ok : bool then Some (u64 (zlen seen), otsardb_sha256_hex_data seen) else None
  end.

Definition copy_file_verified (src dst : bytes) (expected_size : Z) (expected_sha256_hex : bytes) : M disk bool :=
  let! file := fopen_rb src in
  match file with
  | None => return! false
  | Some _ =>
      let! opened := fopen_wb dst in
      if negb opened then return! false else
      let! data := contents_of src in
      let! (ok, seen) := read_loop (S (length data)) (fwrite dst) data [] in
      let! closed := fclose in
      let! _ := fclose in
      if ok && closed && (u64 (zlen seen) =? expected_size) && (zlen expected_sha256_hex =? 64) &&
         bytes_eqb (otsardb_sha256_hex_data seen) expected_sha256_hex
      then return! true
      else (let! _ := fs_remove dst in return! false)
  end.

Definition copy_file_fsync_tmp (src dst : bytes) : M disk bool :=
  let! file := fopen_rb src in
  match file with
  | None => return! false
  | Some _ =>
      let! opened := fopen_wb dst in
      if negb opened then return! false else
      let! data := contents_of src in
      let! (ok, _) := read_loop (S (length data)) (fwrite dst) data [] in
      let! ok := if ok : bool then fsync_stream dst else return! false in
      let! closed := fclose in
      let! _ := fclose in
      if ok && closed then return! true else (let! _ := fs_remove dst in return! false)
  end.

(** ** The index *)

Record cache_entry := mkEntry {
  en_db_id : bytes;
  en_path : bytes;
  en_size_bytes : Z;
  en_saved_at_ms : Z
}.

Definition json_escape (s : bytes) : bytes := s ≫= fun c => if (c =? 92) || (c =? dq) then [92; c] else [c].

Definition is_ws (c : Z) : bool := (c =? 32) || (c =? 9) || (c =? 13) || (c =? 10).
Definition skip_ws : bytes -> bytes := skip_while is_ws.

Definition expect_char (c : Z) (p : bytes) : option bytes :=
  match skip_ws p with x :: t => if x =? c then Some t else None | [] => None end.

Fixpoint json_string_body (p v : bytes) : option (bytes * bytes) :=
  match p with
  | [] => None
  | c :: t =>
      if c =? 92 then match t with x :: t' => json_string_body t' (v ++ [x]) | [] => None end
      else if c =? dq then Some (v, t)
      else json_string_body t (v ++ [c])
  end.

Definition read_json_string (p : bytes) : option (bytes * bytes) :=
  p ← expect_char dq p; json_string_body p [].

(** The value wraps. *)
Definition read_json_number (p : bytes) : option (Z * bytes) :=
  match span is_digit (skip_ws p) with
  | ([], _) => None
  | (ds, rest) => Some (foldl (fun v c => u64 (v * 10 + (c - 48))) 0 ds, rest)
  end.

(** A member name and its colon. *)
Definition expect_key (key p : bytes) : option bytes :=
  '(k, p) ← read_json_string p;
  if bytes_eqb k key then expect_char 58 p else None.

Definition parse_entry (p : bytes) : option (cache_entry * bytes) :=
  p ← expect_char 123 p;
  p ← expect_key (str "db") p;
  '(db, p) ← read_json_string p;
  p ← expect_char 44 p;
  p ← expect_key (str "path") p;
  '(path, p) ← read_json_string p;
  p ← expect_char 44 p;
  p ← expect_key (str "size_bytes") p;
  '(size, p) ← read_json_number p;
  p ← expect_char 44 p;
  p ← expect_key (str "saved_at") p;
  '(saved, p) ← read_json_number p;
  p ← expect_char 125 p;
  match db, path with [], _ | _, [] => None | _, _ => Some (mkEntry db path size saved, p) end.

(** The entries to the closing bracket; [fuel] bounds their number. *)
Fixpoint parse_entries (fuel : nat) (p : bytes) : option (list cache_entry) :=
  match fuel with
  | O => None
  | S fuel =>
      match skip_ws p with
      | 93 :: _ => Some []
      | _ =>
          '(e, p) ← parse_entry p;
          match skip_ws p with
          | 44 :: p => cons e <$> parse_entries fuel p
          | 93 :: _ => Some [e]
          | _ => None
          end
      end
  end.

Definition parse_index_json (json : bytes) : option (list cache_entry) :=
  p ← expect_char 123 json;
  p ← expect_key (str "format") p;
  '(format, p) ← read_json_number p;
  if negb (format =? 1) then None else
  p ← expect_char 44 p;
  p ← expect_key (str "entries") p;
  p ← expect_char 91 p;
  parse_entries (S (length json)) p.

Definition entry_text (e : cache_entry) : bytes :=
  str "{" ++ q "db" ++ str ":" ++ [dq] ++ json_escape (en_db_id e) ++ [dq] ++ str "," ++ q "path" ++ str ":" ++ [dq] ++
  json_escape (en_path e) ++ [dq] ++ str "," ++ q "size_bytes" ++ str ":" ++ dec (en_size_bytes e) ++ str "," ++
  q "saved_at" ++ str ":" ++ dec (en_saved_at_ms e) ++ str "}".

Fixpoint entries_text (first : bool) (es : list cache_entry) : bytes :=
  match es with [] => [] | e :: r => (if first then [] else str ",") ++ entry_text e ++ entries_text false r end.

Definition index_text (es : list cache_entry) : bytes :=
  str "{" ++ q "format" ++ str ":1," ++ q "entries" ++ str ":[" ++ entries_text true es ++ str "]}" ++ [10].

(** Errors of the stream are not looked at before the rename. *)
Definition write_index_json (path : bytes) (es : list cache_entry) : M disk bool :=
  let tmp := tmp_path path in
  let! made := create_directories (parent_path tmp) in
  if negb made then return! false else
  let! opened := fopen_wb tmp in
  if negb opened then return! false else
  let! _ := fwrite tmp (index_text es) in
  let! _ := fclose in
  rename tmp path.

(** The order of [std::string]: by unsigned bytes. *)
Fixpoint bytes_ltb (a b : bytes) : bool :=
  match a, b with
  | _, [] => false
  | [], _ :: _ => true
  | x :: a, y :: b => if x =? y then bytes_ltb a b else x <? y
  end.

Definition entry_older (a b : cache_entry) : bool :=
  if en_saved_at_ms a =? en_saved_at_ms b then bytes_ltb (en_db_id a) (en_db_id b)
  else en_saved_at_ms a <? en_saved_at_ms b.

(** [std::sort]. The databases of a directory are distinct, so that the order is
    total on them and the sorted sequence is unique. *)
Fixpoint insert_older (e : cache_entry) (es : list cache_entry) : list cache_entry :=
  match es with [] => [e] | x :: r => if entry_older x e then x :: insert_older e r else e :: es end.
Definition sort_entries (es : list cache_entry) : list cache_entry := foldr insert_older [] es.

Definition index_entry (parsed : list cache_entry) (db : bytes) (size mtime : Z) : cache_entry :=
  match List.find (fun e => bytes_eqb (en_db_id e) db) parsed with
  | Some e => mkEntry (en_db_id e) (en_path e) size (if en_saved_at_ms e =? 0 then mtime else en_saved_at_ms e)
  | None => mkEntry db (db ++ str "/state.db") size mtime
  end.

(** The directories one after the other. *)
Fixpoint scan_dirs (cache_dir : bytes) (parsed : list cache_entry) (dbs : list bytes) : M disk (list cache_entry) :=
  match dbs with
  | [] => return! []
  | db :: r =>
      if bytes_eqb db [] || bytes_eqb db kIndexName then scan_dirs cache_dir parsed r else
      let! meta := file_exists (metadata_path cache_dir db) in
      let! img := if meta then file_exists (image_path cache_dir db) else return! false in
      if negb img then scan_dirs cache_dir parsed r else
      let! size := file_size (image_path cache_dir db) in
      let! mtime := mtime_ms (image_path cache_dir db) in
      let! rest := scan_dirs cache_dir parsed r in
      return! (index_entry parsed db size mtime :: rest)
  end.

Definition load_index (cache_dir : bytes) : M disk (list cache_entry) :=
  let root := cache_root_path cache_dir in
  let! there := file_exists (index_path cache_dir) in
  let! json := if there then fopen_rb (index_path cache_dir) else return! None in
  let parsed := default [] (json ≫= parse_index_json) in
  let! dbs := query [] (fun d => if existsb (bytes_eqb root) (dk_dirs d)
                                 then filename <$> List.filter (fun x => bytes_eqb (parent_path x) root) (dk_dirs d) else []) in
  let! entries := scan_dirs cache_dir parsed dbs in
  return! sort_entries entries.

(** The files of an entry and their leftovers. *)
Definition evict_entry (cache_dir db : bytes) : M disk unit :=
  let! _ := fs_remove (image_path cache_dir db) in
  let! _ := fs_remove (metadata_path cache_dir db) in
  let! _ := fs_remove (tmp_path (image_path cache_dir db)) in
  let! _ := fs_remove (tmp_path (metadata_path cache_dir db)) in
  remove_dir (cache_db_dir cache_dir db).

Fixpoint evict_loop (cache_dir protected_db : bytes) (budget total : Z) (es : list cache_entry) : M disk (list cache_entry) :=
  match es with
  | [] => return! []
  | e :: r =>
      if total <=? budget then return! es
      else if bytes_eqb (en_db_id e) protected_db
      then (let! kept := evict_loop cache_dir protected_db budget total r in return! (e :: kept))
      else let! _ := evict_entry cache_dir (en_db_id e) in
           evict_loop cache_dir protected_db budget (u64 (total - en_size_bytes e)) r
  end.

Definition total_bytes (es : list cache_entry) : Z := foldl (fun t e => u64 (t + en_size_bytes e)) 0 es.

Definition evict_over_budget (cache_dir protected_db : bytes) (budget : Z) (es : list cache_entry) : M disk (list cache_entry) :=
  if budget =? 0 then return! es else evict_loop cache_dir protected_db budget (total_bytes es) es.

(** ** The interface *)

Definition otsardb_local_cache_probe (cache_dir database_id : bytes) (remote_head : otsardb_local_cache_state)
    (target_image_path : bytes) : M disk bool :=
  if bytes_eqb database_id [] || bytes_eqb (cs_commit_id remote_head) [] || (cs_generation remote_head =? 0)
  then return! false else
  let meta_file := metadata_path cache_dir database_id in
  let img_file := image_path cache_dir database_id in
  let! meta := file_exists meta_file in
  let! img := if meta then file_exists img_file else return! false in
  if negb img then return! false else
  let! cached := read_metadata meta_file in
  match cached with
  | None => return! false
  | Some cached =>
      if negb (cs_generation cached =? cs_generation remote_head) ||
         negb (bytes_eqb (cs_commit_id cached) (cs_commit_id remote_head)) ||
         negb (bytes_eqb (cs_commit_sha256 cached) (cs_commit_sha256 remote_head))
      then return! false else
      let! size := file_size img_file in
      if negb (size =? cs_image_size_bytes cached) then return! false else
      let! copied := copy_file_verified img_file target_image_path (cs_image_size_bytes cached) (cs_image_sha256 cached) in
      return! copied && (cs_generation remote_head =? cs_generation cached)
  end.

Definition otsardb_local_cache_read_state (cache_dir database_id : bytes) : M disk (option otsardb_local_cache_state) :=
  if bytes_eqb database_id [] then return! None else
  let! meta := file_exists (metadata_path cache_dir database_id) in
  let! img := if meta then file_exists (image_path cache_dir database_id) else return! false in
  if negb img then return! None else read_metadata (metadata_path cache_dir database_id).

(** The attestation of the caller, or the one of the file. *)
Definition attest (source_image_path : bytes) (state : otsardb_local_cache_state) : M disk (option otsardb_local_cache_state) :=
  if (cs_image_size_bytes state =? 0) || negb (zlen (cs_image_sha256 state) =? 64) then
    let! r := sha256_file source_image_path in
    return! match r with
            | Some (size, sha) => Some (mkState (cs_generation state) (cs_commit_id state) (cs_commit_sha256 state) size sha)
            | None => None
            end
  else return! Some state.

Definition replace_entry (current : cache_entry) (es : list cache_entry) : list cache_entry :=
  if existsb (fun e => bytes_eqb (en_db_id e) (en_db_id current)) es
  then (fix go es := match es with
        | [] => []
        | e :: r => if bytes_eqb (en_db_id e) (en_db_id current) then current :: r else e :: go r
        end) es
  else es ++ [current].

(** The index and the evictions after a save. *)
Definition update_index (cache_dir database_id : bytes) (budget : Z) : M disk unit :=
  let! entries := load_index cache_dir in
  let! size := file_size (image_path cache_dir database_id) in
  let! saved_at := next_saved_at in
  let current := mkEntry database_id (database_id ++ str "/state.db") size saved_at in
  let! kept := evict_over_budget cache_dir database_id budget (sort_entries (replace_entry current entries)) in
  let! _ := write_index_json (index_path cache_dir) kept in
  return! tt.

(** [budget]: the bytes that [cache_budget_bytes] computes from the environment
    with floating-point arithmetic. *)
Definition otsardb_local_cache_save (budget : Z) (cache_dir database_id source_image_path : bytes)
    (state : otsardb_local_cache_state) : M disk bool :=
  if bytes_eqb database_id [] || bytes_eqb (cs_commit_id state) [] || (cs_generation state =? 0) then return! false else
  let! there := file_exists source_image_path in
  if negb there then return! false else
  let img_file := image_path cache_dir database_id in
  let! made := create_directories (parent_path img_file) in
  if negb made then return! false else
  let! attested := attest source_image_path state in
  match attested with
  | None => return! false
  | Some attested =>
      let! copied := copy_file_fsync_tmp source_image_path (tmp_path img_file) in
      if negb copied then return! false else
      let! renamed := rename (tmp_path img_file) img_file in
      if negb renamed then return! false else
      let! _ := effect (fun d => set_files (alter (fun x => mkDfile (df_data x) (df_synced x) (dk_now d)) img_file) d) in
      let! written := write_metadata (metadata_path cache_dir database_id) attested in
      if negb written then return! false else
      let! _ := update_index cache_dir database_id budget in
      return! true
  end.
End Cache.
