(* ===== verification/LocalCacheProps.v ===== *)
(** * The image cache: what a probe serves

    Every metadata file of the cache was written by a save and attests its image,
    whatever calls failed and wherever the power was lost; and a save that goes
    well is served by the next probe. *)

From S2P Require Import Prelude CText Sha256 LocalCache.

(** ** Paths *)

Section Paths.
Context (cd : bytes).

Lemma metadata_path_inj a b : metadata_path cd a = metadata_path cd b -> a = b.
Proof. unfold metadata_path, cache_db_dir. intros H. apply app_inj_2 in H as [H _]; [|done]. by simplify_list_eq. Qed.

Lemma image_path_inj a b : image_path cd a = image_path cd b -> a = b.
Proof. unfold image_path, cache_db_dir. intros H. apply app_inj_2 in H as [H _]; [|done]. by simplify_list_eq. Qed.

(** Not a metadata file of the cache. *)
Definition not_meta (p : bytes) : Prop := forall db, p <> metadata_path cd db.

(** Paths whose ends differ. *)
Lemma ends_differ (a s b t : bytes) : length s = length t -> s <> t -> a ++ s <> b ++ t.
Proof. intros Hl Hn H. by apply app_inj_2 in H as [_ ?]. Qed.

Lemma tmp_not_meta p : not_meta (tmp_path p).
Proof.
  intros db. unfold tmp_path, metadata_path. change (str "/cache.json") with (str "/cache." ++ str "json").
  rewrite !app_assoc. by apply ends_differ.
Qed.

Lemma image_not_meta db : not_meta (image_path cd db).
Proof.
  intros db'. unfold image_path, metadata_path. change (str "/cache.json") with (str "/cach" ++ str "e.json").
  change (str "/state.db") with (str "/sta" ++ str "te.db"). rewrite !app_assoc.
  change (str "e.json") with ([101] ++ str ".json"). rewrite !app_assoc. by apply ends_differ.
Qed.

Lemma index_not_meta : not_meta (index_path cd).
Proof.
  intros db. unfold index_path, metadata_path, kIndexName. change (str "/cache.json") with (str "/" ++ str "cache.json").
  change (str "otsardb-cache-index.json") with (str "otsardb-cache-" ++ str "index.json"). rewrite !app_assoc. by apply ends_differ.
Qed.

Lemma tmp_not_image p db : tmp_path p <> image_path cd db.
Proof.
  unfold tmp_path, image_path. change (str "/state.db") with (str "/state" ++ str ".db").
  change (str ".tmp") with ([46] ++ str "tmp"). rewrite !app_assoc. by apply ends_differ.
Qed.

Lemma index_not_image db : index_path cd <> image_path cd db.
Proof.
  unfold index_path, image_path, kIndexName. change (str "/state.db") with (str "/state" ++ str ".db").
  change (str "otsardb-cache-index.json") with (str "otsardb-cache-index.j" ++ str "son"). rewrite !app_assoc. by apply ends_differ.
Qed.
End Paths.

(** ** Calls that succeed *)

Lemma call_none all part d d' : call all part d = (None, d') -> exists s, d' = all (set_script s true d) /\ dk_on d = true.
Proof.
  unfold call. destruct d as [files dirs now last faults on]. cbn. destruct on; [|done]. cbn.
  destruct faults as [|[|n|n] r]; intros [= <-]; [by exists []|by exists r].
Qed.

Lemma effect_true f d d' : effect f d = (true, d') -> exists s, d' = f (set_script s true d).
Proof.
  unfold effect, mbind_, mret_. destruct (call _ _ d) as [[n|] d1] eqn:E; intros [= <-].
  apply call_none in E as (s & -> & _). by exists s.
Qed.

Lemma query_files {A} (a : A) f d : dk_files (snd (query a f d)) = dk_files d.
Proof.
  unfold query, call, mbind_. destruct d as [files dirs now last faults on]. cbn.
  destruct on; [|done]. by destruct faults as [|[|n|n] r].
Qed.

(** The answer of a question is the default or the truth. *)
Lemma query_answer {A} (a : A) f d r d' : (forall s on, f (set_script s on d) = f d) ->
  query a f d = (r, d') -> r = a \/ r = f d.
Proof.
  intros Hf. unfold query, call, mbind_. destruct d as [files dirs now last faults on]. cbn in *.
  destruct on; [|intros [= <- _]; by left]. destruct faults as [|[|n|n] l]; cbn; intros [= <- _];
    [by right|right; by apply Hf|by left|by left].
Qed.

Lemma id_effect_files d : dk_files (snd (fclose d)) = dk_files d.
Proof.
  unfold fclose, effect, call, mbind_. destruct d as [files dirs now last faults on]. cbn.
  destruct on; [|done]. by destruct faults as [|[|n|n] r].
Qed.

Lemma fopen_wb_true p d d' : fopen_wb p d = (true, d') -> exists t, dk_files d' = <[p := mkDfile [] false t]> (dk_files d).
Proof. intros H. apply effect_true in H as (s & ->). by exists (dk_now d). Qed.

Lemma fwrite_true p data d d' f : fwrite p data d = (true, d') -> dk_files d !! p = Some f ->
  exists t, dk_files d' !! p = Some (mkDfile (df_data f ++ data) false t).
Proof.
  unfold fwrite, mbind_, mret_. destruct (call _ _ d) as [[n|] d1] eqn:E; intros [= <-] Hf.
  apply call_none in E as (s & -> & _). exists (dk_now d). cbn. by rewrite lookup_alter_eq, Hf.
Qed.

Lemma fsync_true p d d' f : fsync_stream p d = (true, d') -> dk_files d !! p = Some f ->
  dk_files d' !! p = Some (mkDfile (df_data f) true (df_mtime f)).
Proof.
  unfold fsync_stream, mbind_. intros H Hf. change (effect (fun x => x)) with fclose in H.
  pose proof (id_effect_files d) as Hc. destruct (fclose d) as [[|] d1]; [|done]. cbn in Hc.
  apply effect_true in H as (s & ->). cbn. by rewrite Hc, lookup_alter_eq, Hf.
Qed.

(** A rename takes the file it found, or changes nothing. *)
Lemma rename_spec from to d r d' : rename from to d = (r, d') ->
  (r = false /\ dk_files d' = dk_files d) \/
  (exists f, r = true /\ dk_files d !! from = Some f /\ dk_files d' = <[to := f]> (delete from (dk_files d))).
Proof.
  unfold rename, mbind_. intros H. pose proof (query_files None (fun x => dk_files x !! from) d) as Hq.
  destruct (query None _ d) as [source d1] eqn:E. cbn in Hq. apply query_answer in E; [|done].
  destruct source as [f|]; [|injection H as <- <-; by left]. destruct E as [|E]; [done|].
  destruct r.
  - right. exists f. apply effect_true in H as (s & ->). cbn. by rewrite Hq.
  - left. split; [done|]. unfold effect, call, mbind_ in H. destruct d1 as [files dirs now last faults on]. cbn in *.
    unfold mret_ in H. destruct on; cbn in H; [|by simplify_eq/=].
    destruct faults as [|[|n|n] l]; cbn in H; by simplify_eq/=.
Qed.

(** The file that a loop of writes fills. *)
Lemma read_loop_writes fuel dst rest seen d seen' d' f : dk_files d !! dst = Some f -> df_data f = seen ->
  read_loop fuel (fwrite dst) rest seen d = ((true, seen'), d') ->
  exists f', dk_files d' !! dst = Some f' /\ df_data f' = seen'.
Proof.
  revert rest seen d f. induction fuel as [|fuel IH]; intros rest seen d f Hf Hs; cbn [read_loop].
  { intros [= <- <-]. by exists f. }
  unfold fread at 1, mbind_, mret_. destruct (call _ _ d) as [r d1] eqn:E.
  assert (dk_files d1 = dk_files d) as Hd1.
  { pose proof (query_files tt (fun _ => tt) d) as Hq. unfold query, mbind_ in Hq. by rewrite E in Hq. }
  set (p := match r with None => (take BUFFER rest, true) | Some n => (take n (take BUFFER rest), false) end).
  destruct p as [buf ok]. destruct buf as [|c buf].
  - cbn [negb]. assert ((length (@nil Z) <? BUFFER)%nat = true) as -> by done. intros [= -> <- <-]. exists f. rewrite app_nil_r.
    by rewrite Hd1.
  - destruct (fwrite dst (c :: buf) d1) as [taken d2] eqn:Ew. destruct taken; cbn [negb]; [|done].
    eapply fwrite_true in Ew as [t Ht]; [|by rewrite Hd1]. destruct (length (c :: buf) <? BUFFER)%nat.
    + intros [= -> <- <-]. eexists. split; [exact Ht|]. cbn. by rewrite Hs.
    + eapply IH; [exact Ht|]. cbn. by rewrite Hs.
Qed.

(** ** What a save leaves in the metadata files *)

Section Kept.
Context `{HSha : Sha256} (cd : bytes).

Definition attested (st : otsardb_local_cache_state) (img : bytes) : otsardb_local_cache_state :=
  mkState (cs_generation st) (cs_commit_id st) (cs_commit_sha256 st) (u64 (zlen img)) (otsardb_sha256_hex_data img).

(** The saves so far: the database, the state and the image. *)
Abbreviation history := (list (bytes * otsardb_local_cache_state * bytes)).

Definition vouched (H : history) (db : bytes) (f : dfile) : Prop :=
  df_synced f = true /\ exists st img, (db, st, img) ∈ H /\ df_data f = metadata_text (attested st img).

(** A metadata file was there before or is vouched for. *)
Definition leads (H : history) (d d' : disk) : Prop := forall db f,
  dk_files d' !! metadata_path cd db = Some f -> dk_files d !! metadata_path cd db = Some f \/ vouched H db f.

Definition kept {A} (H : history) (m : M disk A) : Prop := forall d, leads H d (snd (m d)).

Lemma leads_refl H d : leads H d d.
Proof. by left. Qed.

Lemma leads_same H d d' : dk_files d' = dk_files d -> leads H d d'.
Proof. intros E db f Hf. left. by rewrite <- E. Qed.

Lemma leads_trans H d1 d2 d3 : leads H d1 d2 -> leads H d2 d3 -> leads H d1 d3.
Proof. intros H1 H2 db f Hf. destruct (H2 db f Hf) as [Hf2|]; [by apply H1|by right]. Qed.

Lemma kept_ret {A} H (a : A) : kept H (mret_ a).
Proof. intros d. apply leads_refl. Qed.

Lemma kept_bind {A B} H (m : M disk A) (k : A -> M disk B) : kept H m -> (forall a, kept H (k a)) -> kept H (mbind_ m k).
Proof.
  intros Hm Hk d. unfold mbind_. specialize (Hm d). destruct (m d) as [a d1]. eapply leads_trans; [exact Hm|apply Hk].
Qed.

Lemma kept_call H all part : (forall d, leads H d (all d)) -> (forall n d, leads H d (part n d)) -> kept H (call all part).
Proof.
  intros Ha Hp d. unfold call. destruct (dk_on d); cbn [negb]; [|apply leads_refl].
  destruct (dk_faults d) as [|[|n|n] r]; cbn [snd]; [apply Ha| | |];
    (eapply leads_trans; [|first [apply Ha|apply Hp]]); by apply leads_same.
Qed.

Lemma kept_effect H f : (forall d, leads H d (f d)) -> kept H (effect f).
Proof. intros Hf. apply kept_bind; [|intros; apply kept_ret]. apply kept_call; [done|intros; apply leads_refl]. Qed.

Lemma kept_query {A} H (a : A) f : kept H (query a f).
Proof. intros d. apply leads_same, query_files. Qed.

Lemma leads_other H p d d' : not_meta cd p -> (forall x, x <> p -> dk_files d' !! x = dk_files d !! x) -> leads H d d'.
Proof. intros Hp Hx db f Hf. left. rewrite <- Hx; [done|]. intros E. by apply (Hp db). Qed.

Lemma kept_fopen_wb H p : not_meta cd p -> kept H (fopen_wb p).
Proof. intros Hp. apply kept_effect. intros d. apply (leads_other _ p); [done|]. intros x Hx. cbn. by rewrite lookup_insert_ne. Qed.

Lemma leads_write H p f d : not_meta cd p -> leads H d (write_file p f d).
Proof. intros Hp. apply (leads_other _ p); [done|]. intros x Hx. cbn. by rewrite lookup_alter_ne. Qed.

Lemma kept_fwrite H p data : not_meta cd p -> kept H (fwrite p data).
Proof. intros Hp. apply kept_bind; [|intros; apply kept_ret]. apply kept_call; intros; by apply leads_write. Qed.

Lemma kept_alter H g p : not_meta cd p -> kept H (effect (fun d => set_files (alter (g d) p) d)).
Proof. intros Hp. apply kept_effect. intros d. apply (leads_other _ p); [done|]. intros x Hx. cbn. by rewrite lookup_alter_ne. Qed.

Lemma kept_fclose H : kept H fclose.
Proof. intros d. apply leads_same, id_effect_files. Qed.

Lemma kept_fsync H p : not_meta cd p -> kept H (fsync_stream p).
Proof.
  intros Hp. apply kept_bind; [apply kept_fclose|]. intros [|]; [|apply kept_ret].
  apply (kept_alter _ (fun _ x => mkDfile (df_data x) true (df_mtime x))). done.
Qed.

Lemma kept_remove H p : kept H (fs_remove p).
Proof.
  apply kept_bind; [|intros; apply kept_ret]. apply kept_effect. intros d db f. cbn. intros Hf.
  apply lookup_delete_Some in Hf as [_ Hf]. by left.
Qed.

Lemma kept_remove_dir H p : kept H (remove_dir p).
Proof. apply kept_bind; [|intros; apply kept_ret]. apply kept_effect. intros d. apply leads_same. by case_match. Qed.

Lemma kept_mkdirs H p : kept H (create_directories p).
Proof. apply kept_effect. intros d. by apply leads_same. Qed.

Lemma kept_rename H from to : not_meta cd to -> kept H (rename from to).
Proof.
  intros Hp d. destruct (rename from to d) as [r d'] eqn:E. cbn.
  apply rename_spec in E as [[_ E]|(f & _ & Hf & E)]; [by apply leads_same|].
  intros db g Hg. rewrite E, lookup_insert_ne in Hg by done. apply lookup_delete_Some in Hg as [_ Hg]. by left.
Qed.

Lemma kept_next_saved_at H : kept H next_saved_at.
Proof. intros d. by apply leads_same. Qed.

Lemma kept_contents H p : kept H (contents_of p).
Proof. intros d. apply leads_refl. Qed.

Lemma kept_fread H chunk : kept H (fread chunk).
Proof. apply kept_bind; [|intros; apply kept_ret]. apply kept_call; intros; apply leads_refl. Qed.
End Kept.

Create HintDb cache.
#[export] Hint Resolve kept_ret kept_query kept_fopen_wb kept_fwrite kept_fclose kept_fsync kept_remove kept_remove_dir
  kept_mkdirs kept_rename kept_next_saved_at kept_contents kept_fread tmp_not_meta image_not_meta index_not_meta : cache.

Ltac kept_tac :=
  repeat first [solve [eauto 3 with cache] | apply kept_bind; intros | case_match].

Section Composite.
Context `{HSha : Sha256} (cd : bytes) (H : list (bytes * otsardb_local_cache_state * bytes)).

Lemma kept_read_loop fuel sink rest seen : (forall b, kept cd H (sink b)) -> kept cd H (read_loop fuel sink rest seen).
Proof.
  intros Hs. revert rest seen. induction fuel as [|fuel IH]; intros rest seen; cbn [read_loop]; [apply kept_ret|].
  apply kept_bind; [apply kept_fread|]. intros [buf ok]. apply kept_bind; [destruct buf; [apply kept_ret|apply Hs]|]. intros t.
  destruct t; cbn [negb]; [|apply kept_ret]. case_match; [apply kept_ret|apply IH].
Qed.

Lemma kept_sha256_file p : kept cd H (sha256_file p).
Proof.
  unfold sha256_file, fopen_rb. apply kept_bind; [apply kept_query|]. intros [data|]; [|apply kept_ret].
  apply kept_bind; [apply kept_read_loop; intros; apply kept_ret|]. intros [ok seen]. kept_tac.
Qed.

Lemma kept_copy_verified src dst size sha : not_meta cd dst -> kept cd H (copy_file_verified src dst size sha).
Proof.
  intros Hd. unfold copy_file_verified, fopen_rb. apply kept_bind; [apply kept_query|]. intros [data|]; [|apply kept_ret].
  apply kept_bind; [by apply kept_fopen_wb|]. intros [|]; cbn [negb]; [|apply kept_ret]. apply kept_bind; [apply kept_contents|].
  intros bs. apply kept_bind; [apply kept_read_loop; intros; by apply kept_fwrite|]. intros [ok seen]. kept_tac.
Qed.

Lemma kept_copy_fsync src dst : not_meta cd dst -> kept cd H (copy_file_fsync_tmp src dst).
Proof.
  intros Hd. unfold copy_file_fsync_tmp, fopen_rb. apply kept_bind; [apply kept_query|]. intros [data|]; [|apply kept_ret].
  apply kept_bind; [by apply kept_fopen_wb|]. intros [|]; cbn [negb]; [|apply kept_ret]. apply kept_bind; [apply kept_contents|].
  intros bs. apply kept_bind; [apply kept_read_loop; intros; by apply kept_fwrite|]. intros [ok seen]. kept_tac.
Qed.

Lemma kept_write_index p es : not_meta cd p -> kept cd H (write_index_json p es).
Proof. intros Hp. unfold write_index_json. kept_tac. Qed.

Lemma kept_scan_dirs parsed dbs : kept cd H (scan_dirs cd parsed dbs).
Proof.
  induction dbs as [|db dbs IH]; cbn [scan_dirs]; [apply kept_ret|]. case_match; [done|]. unfold file_exists, file_size, mtime_ms.
  apply kept_bind; [apply kept_query|]. intros meta. apply kept_bind; [destruct meta; kept_tac|]. intros img.
  destruct img; cbn [negb]; [|done]. kept_tac.
Qed.

Lemma kept_load_index : kept cd H (load_index cd).
Proof.
  unfold load_index, file_exists, fopen_rb. apply kept_bind; [apply kept_query|]. intros there.
  apply kept_bind; [destruct there; kept_tac|]. intros json. apply kept_bind; [apply kept_query|]. intros dbs.
  apply kept_bind; [apply kept_scan_dirs|]. intros; apply kept_ret.
Qed.

Lemma kept_evict_loop db budget total es : kept cd H (evict_loop cd db budget total es).
Proof.
  revert total. induction es as [|e es IH]; intros total; cbn [evict_loop]; [apply kept_ret|].
  case_match; [apply kept_ret|]. case_match; [kept_tac|]. unfold evict_entry. kept_tac.
Qed.

Lemma kept_update_index db budget : kept cd H (update_index cd db budget).
Proof.
  unfold update_index, file_size. apply kept_bind; [apply kept_load_index|]. intros es. apply kept_bind; [apply kept_query|].
  intros size. apply kept_bind; [apply kept_next_saved_at|]. intros t. apply kept_bind.
  { unfold evict_over_budget. case_match; [apply kept_ret|apply kept_evict_loop]. }
  intros kept_. apply kept_bind; [|intros; apply kept_ret]. apply kept_write_index, index_not_meta.
Qed.

(** The metadata file appears complete, synced and vouched for, or not at all. *)
Lemma kept_write_metadata db st img : (db, st, img) ∈ H -> kept cd H (write_metadata (metadata_path cd db) (attested st img)).
Proof.
  intros Hin. unfold write_metadata. set (tmp := tmp_path _). assert (not_meta cd tmp) as Ht by apply tmp_not_meta.
  apply kept_bind; [apply kept_mkdirs|]. intros [|]; cbn [negb]; [|apply kept_ret]. intros d. unfold mbind_ at 1.
  pose proof (kept_fopen_wb cd H tmp Ht d) as L0. destruct (fopen_wb tmp d) as [opened d0] eqn:E0. cbn in L0.
  destruct opened; cbn [negb]; [|done]. apply fopen_wb_true in E0 as [t0 F0].
  unfold mbind_ at 1. pose proof (kept_fwrite cd H tmp (metadata_text (attested st img)) Ht d0) as L1.
  destruct (fwrite tmp _ d0) as [written d1] eqn:E1. cbn in L1. unfold mbind_ at 1.
  assert (kept cd H (if written then fsync_stream tmp else mret_ false)) as K2 by (destruct written; kept_tac).
  specialize (K2 d1). destruct ((if written then fsync_stream tmp else mret_ false) d1) as [ok d2] eqn:E2. cbn in K2.
  unfold mbind_ at 1. pose proof (id_effect_files d2) as F3. destruct (fclose d2) as [closed d3]. cbn in F3.
  assert (leads cd H d d3) as L3.
  { eapply leads_trans; [exact L0|]. eapply leads_trans; [exact L1|]. eapply leads_trans; [exact K2|]. by apply leads_same. }
  destruct (ok && closed) eqn:Eok; cbn [negb]; [|eapply leads_trans; [exact L3|]; apply kept_bind; kept_tac].
  apply andb_prop in Eok as [-> _]. destruct written; [|done].
  eapply fwrite_true in E1 as [t1 F1]; [|by rewrite F0, lookup_insert_eq]. eapply fsync_true in E2; [|exact F1].
  eapply leads_trans; [exact L3|]. destruct (rename tmp _ d3) as [r d4] eqn:E4. cbn.
  apply rename_spec in E4 as [[_ E4]|(f & _ & Hf & E4)]; [by apply leads_same|].
  rewrite F3, E2 in Hf. injection Hf as <-. intros db' g Hg. rewrite E4 in Hg.
  destruct (decide (metadata_path cd db = metadata_path cd db')) as [Heq|Hne].
  - apply metadata_path_inj in Heq as <-. rewrite lookup_insert_eq in Hg. injection Hg as <-. right. split; [done|]. by exists st, img.
  - rewrite lookup_insert_ne in Hg by done. apply lookup_delete_Some in Hg as [_ Hg]. by left.
Qed.
End Composite.

(** ** Reading *)

Lemma fread_spec chunk d buf ok d' : fread chunk d = ((buf, ok), d') ->
  dk_files d' = dk_files d /\ ((ok = true /\ buf = chunk) \/ (ok = false /\ exists n, buf = take n chunk)).
Proof.
  unfold fread, call, mbind_, mret_. destruct d as [files dirs now last faults on]. cbn.
  destruct on; cbn; [|intros [= <- <- <-]; split; [done|]; right; split; [done|]; by exists O].
  destruct faults as [|[|n|n] r]; cbn; intros [= <- <- <-]; (split; [done|]); [by left|by left|right..]; (split; [done|]); by exists n.
Qed.

(** A loop that goes well has read the whole file. *)
Lemma read_loop_all fuel sink rest seen d seen' d' : (length rest < fuel)%nat ->
  read_loop fuel sink rest seen d = ((true, seen'), d') -> seen' = seen ++ rest.
Proof.
  revert rest seen d. induction fuel as [|fuel IH]; intros rest seen d Hl; [lia|]. cbn [read_loop]. unfold mbind_ at 1.
  destruct (fread (take BUFFER rest) d) as [[buf ok] d1] eqn:E. apply fread_spec in E as [_ Hb]. unfold mbind_.
  destruct (match buf with [] => mret_ true | _ => sink buf end d1) as [taken d2]. destruct taken; cbn [negb]; [|done].
  assert (0 < BUFFER)%nat as HB by (unfold BUFFER; lia).
  destruct (Nat.ltb_spec (length buf) BUFFER) as [Hs|Hs].
  - intros [= -> <- _]. destruct Hb as [[_ ->]|[? _]]; [|done]. rewrite length_take in Hs. rewrite take_ge by lia. done.
  - assert (buf = take BUFFER rest) as ->.
    { destruct Hb as [[_ ->]|[_ [n ->]]]; [done|]. rewrite !length_take in Hs. rewrite (take_ge (take BUFFER rest)); [done|].
      rewrite length_take. lia. }
    rewrite length_take in Hs. intros Hr. apply IH in Hr; [|rewrite length_drop; lia]. rewrite Hr, <- app_assoc, take_drop. done.
Qed.

Section Values.
Context `{HSha : Sha256}.

Lemma fopen_rb_some p d data d' : fopen_rb p d = (Some data, d') ->
  dk_files d' = dk_files d /\ exists f, dk_files d !! p = Some f /\ data = df_data f.
Proof.
  intros E. pose proof (query_files None (fun x => df_data <$> dk_files x !! p) d) as Hq. unfold fopen_rb in E.
  rewrite E in Hq. split; [done|]. apply query_answer in E as [|E]; [done| |done].
  destruct (dk_files d !! p) as [f|]; [|done]. injection E as ->. by exists f.
Qed.

Lemma sha256_file_some p d size sha d' : sha256_file p d = (Some (size, sha), d') ->
  exists f, dk_files d !! p = Some f /\ size = u64 (zlen (df_data f)) /\ sha = otsardb_sha256_hex_data (df_data f).
Proof.
  unfold sha256_file, mbind_, mret_. destruct (fopen_rb p d) as [[data|] d1] eqn:E; [|done].
  apply fopen_rb_some in E as (_ & f & Hf & ->).
  destruct (read_loop _ _ _ _ d1) as [[ok seen] d2] eqn:E2. destruct (fclose d2) as [c d3]. destruct ok; [|done].
  apply read_loop_all in E2 as ->; [|lia]. intros [= <- <- _]. by exists f.
Qed.

(** A verified copy that succeeds holds bytes of the attested size and digest. *)
Lemma copy_verified_true src dst size sha d d' : copy_file_verified src dst size sha d = (true, d') ->
  exists f, dk_files d' !! dst = Some f /\ u64 (zlen (df_data f)) = size /\ otsardb_sha256_hex_data (df_data f) = sha.
Proof.
  unfold copy_file_verified, mbind_, mret_. destruct (fopen_rb src d) as [[data|] d1]; [|done].
  destruct (fopen_wb dst d1) as [[|] d2] eqn:E2; [|done]. cbn [negb]. apply fopen_wb_true in E2 as [t F2].
  destruct (contents_of src d2) as [bs d2'] eqn:Ec. injection Ec as <- <-.
  destruct (read_loop _ _ _ _ d2) as [[ok seen] d3] eqn:E3.
  pose proof (id_effect_files d3) as F4. destruct (fclose d3) as [closed d4].
  pose proof (id_effect_files d4) as F5. destruct (fclose d4) as [c d5]. cbn in F4, F5.
  destruct (ok && closed && (u64 (zlen seen) =? size) && (zlen sha =? 64) && bytes_eqb (otsardb_sha256_hex_data seen) sha) eqn:Eok;
    [|by destruct (fs_remove dst d5)].
  intros [= <-]. prop_bools. subst ok.
  eapply read_loop_writes in E3 as (f & Hf & Hd); [|by rewrite F2, lookup_insert_eq|done].
  exists f. rewrite F5, F4, Hd. split_and!; [done|lia|]. by apply bytes_eqb_eq.
Qed.

(** ** Metadata round trip *)

Definition field_ok (s : bytes) : bool := noq s && no_nul s && no_byte 10 s.

(** The state a session saves: a whole digest, an id that fits, no attestation of
    its own. *)
Definition state_ok (st : otsardb_local_cache_state) : Prop :=
  0 < cs_generation st <= UINT64_MAX /\ field_ok (cs_commit_id st) = true /\ 0 < zlen (cs_commit_id st) <= 63 /\
  field_ok (cs_commit_sha256 st) = true /\ zlen (cs_commit_sha256 st) = 64 /\ cs_image_size_bytes st = 0.

Lemma scan_literal_app lit p : scan_literal lit (lit ++ p) = Some p.
Proof. unfold scan_literal. by rewrite prefixb_app, drop_app_length. Qed.

Lemma scan_u64_dec n lit rest : is_u64 n -> match lit with c :: _ => is_digit c = false | [] => False end ->
  scan_u64 (dec n ++ lit ++ rest) = Some (n, lit ++ rest).
Proof. intros Hn Hc. unfold scan_u64. destruct lit as [|c lit]; [done|]. rewrite strtoull_dec; [done|done|]. cbn. by rewrite Hc. Qed.

Lemma span_quote s rest : noq s = true -> span (fun c => negb (c =? dq)) (s ++ dq :: rest) = (s, dq :: rest).
Proof.
  induction s as [|c s IH]; [done|]. unfold noq. rewrite no_byte_cons. intros Hq. prop_bools. cbn [app span].
  destruct (Z.eqb_spec c dq); [done|]. cbn. by rewrite IH.
Qed.

Lemma scan_unquoted_app w s lit rest : noq s = true -> 0 < zlen s <= w -> match lit with c :: _ => c = dq | [] => False end ->
  scan_unquoted w (s ++ lit ++ rest) = Some (s, lit ++ rest).
Proof.
  intros Hq Hl Hc. destruct lit as [|c lit]; [done|]. rewrite Hc. cbn [app]. unfold scan_unquoted. rewrite span_quote by done.
  cbn [fst]. unfold zlen in Hl. rewrite take_ge by lia.
  destruct s as [|x s]; [cbn in Hl; lia|]. by rewrite drop_app_length.
Qed.

(** The text without its newline. *)
Definition metadata_line (st : otsardb_local_cache_state) : bytes :=
  lit_generation ++ dec (cs_generation st) ++ lit_commit_id ++ cs_commit_id st ++ lit_commit_sha256 ++ cs_commit_sha256 st ++
  lit_image_size ++ dec (cs_image_size_bytes st) ++ lit_image_sha256 ++ cs_image_sha256 st ++ [dq] ++ str "}".

Lemma scan_metadata_line st : is_u64 (cs_generation st) -> is_u64 (cs_image_size_bytes st) ->
  noq (cs_commit_id st) = true -> 0 < zlen (cs_commit_id st) <= 63 -> noq (cs_commit_sha256 st) = true ->
  zlen (cs_commit_sha256 st) = 64 -> noq (cs_image_sha256 st) = true -> zlen (cs_image_sha256 st) = 64 ->
  scan_metadata (metadata_line st) = Some st.
Proof.
  intros Hg Hs Hi Hil Hc Hcl Hm Hml. unfold scan_metadata, metadata_line. rewrite scan_literal_app. cbn [mbind option_bind].
  rewrite scan_u64_dec by done. cbn [mbind option_bind]. rewrite scan_literal_app. cbn [mbind option_bind].
  rewrite scan_unquoted_app by done. cbn [mbind option_bind]. rewrite scan_literal_app. cbn [mbind option_bind].
  rewrite scan_unquoted_app; [|done|unfold OTSARDB_LOCAL_CACHE_SHA256_MAX; lia|done]. cbn [mbind option_bind].
  rewrite scan_literal_app. cbn [mbind option_bind]. rewrite scan_u64_dec by done. cbn [mbind option_bind].
  rewrite scan_literal_app. cbn [mbind option_bind].
  rewrite scan_unquoted_app; [|done|unfold OTSARDB_LOCAL_CACHE_SHA256_MAX; lia|done]. cbn [mbind option_bind]. by destruct st.
Qed.

Lemma no_byte_filter c s : no_byte c s = true -> List.filter (fun x => negb (x =? c)) s = s.
Proof.
  induction s as [|x s IH]; [done|]. rewrite no_byte_cons. intros Hn. prop_bools. cbn. destruct (Z.eqb_spec x c); [done|].
  cbn. by rewrite IH.
Qed.

Lemma hex_field_ok data : field_ok (otsardb_sha256_hex_data data) = true.
Proof.
  unfold field_ok, noq, no_nul, no_byte, otsardb_sha256_hex_data.
  pose proof (sha256_hex_range (otsardb_sha256 data)) as Hr. rewrite !andb_true_iff, !forallb_forall.
  rewrite Forall_forall in Hr.
  split_and!; intros x Hx; specialize (Hr x Hx); apply negb_true_iff, Z.eqb_neq; unfold dq; lia.
Qed.

Lemma dec_field_ok n : is_u64 n -> field_ok (dec n) = true.
Proof.
  intros Hn. unfold field_ok. rewrite dec_noq, dec_no_nul by done. cbn. apply digits_no_byte; [done|]. by apply dec_spec.
Qed.

(** What a save wrote is read back, unless the image is empty. *)
Lemma metadata_roundtrip st img : state_ok st ->
  parse_metadata (metadata_text (attested st img)) = if u64 (zlen img) =? 0 then None else Some (attested st img).
Proof.
  intros (Hg & Hi & Hil & Hc & Hcl & _). unfold parse_metadata. set (a := attested st img).
  assert (is_u64 (u64 (zlen img))) as Hu by (unfold is_u64, u64, UINT64_MAX; pose proof (Z.mod_pos_bound (zlen img) (2 ^ 64)); lia).
  assert (is_u64 (cs_generation st)) as Hgu by (unfold is_u64; lia).
  pose proof (hex_field_ok img) as Hh. pose proof (dec_field_ok _ Hu) as Hd1. pose proof (dec_field_ok _ Hgu) as Hd2.
  unfold field_ok in *. prop_bools.
  assert (metadata_text a = metadata_line a ++ [10]) as ->.
  { unfold metadata_text, metadata_line. rewrite <- !app_assoc. done. }
  rewrite List.filter_app. cbn [List.filter Z.eqb Pos.eqb negb]. rewrite app_nil_r.
  assert (no_byte 10 (metadata_line a) = true) as Hnl.
  { unfold metadata_line, a, attested. cbn [cs_generation cs_commit_id cs_commit_sha256 cs_image_size_bytes cs_image_sha256].
    rewrite !no_byte_app. repeat (apply andb_true_intro; split); done. }
  assert (no_nul (metadata_line a) = true) as Hnz.
  { unfold metadata_line, a, attested. cbn [cs_generation cs_commit_id cs_commit_sha256 cs_image_size_bytes cs_image_sha256].
    rewrite !no_nul_app. repeat (apply andb_true_intro; split); done. }
  rewrite no_byte_filter, cstr_no_nul by done. rewrite scan_metadata_line; try done; try (apply zlen_sha256_hex_data).
  unfold a, attested. cbn. rewrite (proj2 (Z.eqb_neq (cs_generation st) 0)) by lia.
  rewrite (proj2 (Z.eqb_neq (zlen (cs_commit_id st)) 0)) by lia. by rewrite Hcl, zlen_sha256_hex_data.
Qed.
End Values.

(** ** Histories of the cache *)

(** Sessions, other programs and losses of power. *)
Inductive cache_op :=
  | CSave (budget : Z) (db source : bytes) (st : otsardb_local_cache_state)
  | CProbe (db : bytes) (head : otsardb_local_cache_state) (target : bytes)
  | CReadState (db : bytes)
  | CWrite (path data : bytes)
  | CReboot (damage : bytes -> bytes -> option bytes) (now : Z) (faults : list fault).

(** A file that was not synced has any content, or is gone. *)
Definition reboot (damage : bytes -> bytes -> option bytes) (now : Z) (faults : list fault) (d : disk) : disk :=
  mkDisk (map_imap (fun p f => if df_synced f then Some f else (fun x => mkDfile x true now) <$> damage p (df_data f)) (dk_files d))
         (dk_dirs d) now 0 faults true.

Section Histories.
Context `{HSha : Sha256} (cd : bytes).

Abbreviation history := (list (bytes * otsardb_local_cache_state * bytes)).

(** The history records the image at the source path when a save begins. *)
Definition cache_step (o : cache_op) (hd : history * disk) : history * disk :=
  let '(H, d) := hd in
  match o with
  | CSave budget db source st =>
      (match dk_files d !! source with Some f => (db, st, df_data f) :: H | None => H end,
       snd (otsardb_local_cache_save budget cd db source st d))
  | CProbe db head target => (H, snd (otsardb_local_cache_probe cd db head target d))
  | CReadState db => (H, snd (otsardb_local_cache_read_state cd db d))
  | CWrite path data => (H, set_files (<[path := mkDfile data false (dk_now d)]>) d)
  | CReboot damage now faults => (H, reboot damage now faults d)
  end.

Definition cache_run (ops : list cache_op) (hd : history * disk) : history * disk := foldl (fun hd o => cache_step o hd) hd ops.

(** Sessions save whole states, and nobody else writes metadata files. *)
Definition cache_op_ok (o : cache_op) : Prop :=
  match o with
  | CSave _ _ _ st => state_ok st
  | CProbe _ _ target => not_meta cd target
  | CWrite path _ => not_meta cd path
  | CReadState _ | CReboot _ _ _ => True
  end.

Definition sound (hd : history * disk) : Prop :=
  Forall (fun e => state_ok (snd (fst e))) (fst hd) /\
  forall db f, dk_files (snd hd) !! metadata_path cd db = Some f -> vouched (fst hd) db f.

Lemma sound_leads H d d' : sound (H, d) -> leads cd H d d' -> sound (H, d').
Proof. intros [Hs Hm] Hl. split; [done|]. cbn in *. intros db f Hf. destruct (Hl db f Hf); [by apply Hm|done]. Qed.

Lemma sound_more H e d : sound (H, d) -> state_ok (snd (fst e)) -> sound (e :: H, d).
Proof.
  intros [Hs Hm] He. split; [by constructor|]. cbn in *. intros db f Hf. destruct (Hm db f Hf) as (Hy & st & img & Hin & Hd).
  split; [done|]. exists st, img. split; [|done]. by right.
Qed.

Lemma kept_exists H p : kept cd H (file_exists p).
Proof. apply kept_query. Qed.

Lemma kept_read_metadata H p : kept cd H (read_metadata p).
Proof. unfold read_metadata, fopen_rb. kept_tac. Qed.

Lemma kept_probe H db head target : not_meta cd target -> kept cd H (otsardb_local_cache_probe cd db head target).
Proof.
  intros Ht. unfold otsardb_local_cache_probe. case_match; [apply kept_ret|]. apply kept_bind; [apply kept_exists|].
  intros meta. apply kept_bind; [destruct meta; [apply kept_exists|apply kept_ret]|]. intros img.
  destruct img; cbn [negb]; [|apply kept_ret]. apply kept_bind; [apply kept_read_metadata|]. intros [c|]; [|apply kept_ret].
  case_match; [apply kept_ret|]. unfold file_size. apply kept_bind; [apply kept_query|]. intros size.
  case_match; [apply kept_ret|]. apply kept_bind; [by apply kept_copy_verified|]. intros; apply kept_ret.
Qed.

Lemma kept_read_state H db : kept cd H (otsardb_local_cache_read_state cd db).
Proof.
  unfold otsardb_local_cache_read_state. case_match; [apply kept_ret|]. apply kept_bind; [apply kept_exists|].
  intros meta. apply kept_bind; [destruct meta; [apply kept_exists|apply kept_ret]|]. intros img.
  destruct img; cbn [negb]; [apply kept_read_metadata|apply kept_ret].
Qed.

(** A save whose source is in the history. *)
Lemma save_leads H budget db source st d : state_ok st ->
  (forall f, dk_files d !! source = Some f -> (db, st, df_data f) ∈ H) ->
  leads cd H d (snd (otsardb_local_cache_save budget cd db source st d)).
Proof.
  intros Hst Hin. unfold otsardb_local_cache_save. case_match; [apply leads_refl|]. unfold mbind_ at 1.
  pose proof (query_files false (fun x => bool_decide (is_Some (dk_files x !! source))) d) as F1.
  change (query false (fun x => bool_decide (is_Some (dk_files x !! source)))) with (file_exists source) in F1.
  destruct (file_exists source d) as [there d1]. cbn in F1. destruct there; cbn [negb]; [|by apply leads_same].
  unfold mbind_ at 1. assert (dk_files (snd (create_directories (parent_path (image_path cd db)) d1)) = dk_files d1) as F2.
  { unfold create_directories, effect, call, mbind_. destruct d1 as [files dirs now last faults on]. cbn.
    destruct on; [|done]. by destruct faults as [|[|n|n] r]. }
  destruct (create_directories _ d1) as [made d2]. cbn in F2. rewrite F1 in F2. destruct made; cbn [negb]; [|by apply leads_same].
  unfold mbind_ at 1, attest. rewrite (proj2 (proj2 (proj2 (proj2 (proj2 Hst))))). cbn [Z.eqb orb]. unfold mbind_ at 1.
  pose proof (kept_sha256_file cd H source d2) as L3. destruct (sha256_file source d2) as [[[size sha]|] d3] eqn:E3; cbn in L3.
  2:{ cbn. eapply leads_trans; [by apply leads_same|done]. }
  apply sha256_file_some in E3 as (f & Hf & -> & ->). rewrite F2 in Hf. specialize (Hin f Hf). unfold mret_ at 1.
  eapply leads_trans; [|eapply leads_trans; [exact L3|]]; [by apply leads_same|].
  change (mkState _ _ _ _ _) with (attested st (df_data f)).
  apply kept_bind; [apply kept_copy_fsync, tmp_not_meta|]. intros [|]; cbn [negb]; [|apply kept_ret].
  apply kept_bind; [apply kept_rename, image_not_meta|]. intros [|]; cbn [negb]; [|apply kept_ret].
  apply kept_bind; [apply (kept_alter cd H (fun d x => mkDfile (df_data x) (df_synced x) (dk_now d))), image_not_meta|]. intros _.
  apply kept_bind; [by apply kept_write_metadata|]. intros [|]; cbn [negb]; [|apply kept_ret].
  apply kept_bind; [apply kept_update_index|]. intros; apply kept_ret.
Qed.

Lemma cache_step_sound o hd : cache_op_ok o -> sound hd -> sound (cache_step o hd).
Proof.
  destruct hd as [H d]. destruct o as [budget db source st|db head target|db|path data|damage now faults]; cbn [cache_step cache_op_ok]; intros Ho Hs.
  - destruct (dk_files d !! source) as [f|] eqn:E.
    + eapply sound_leads; [by apply sound_more|]. apply save_leads; [done|]. rewrite E. intros g [= <-]. left.
    + eapply sound_leads; [done|]. apply save_leads; [done|]. by rewrite E.
  - eapply sound_leads; [done|]. by apply kept_probe.
  - eapply sound_leads; [done|]. apply kept_read_state.
  - eapply sound_leads; [done|]. apply (leads_other cd _ path); [done|]. intros x Hx. cbn. by rewrite lookup_insert_ne.
  - destruct Hs as [Hs Hm]. split; [done|]. cbn. intros db f Hf. rewrite map_lookup_imap in Hf.
    destruct (dk_files d !! metadata_path cd db) as [g|] eqn:E; [|done]. cbn in Hf.
    destruct (Hm db g E) as [Hy Hv]. rewrite Hy in Hf. injection Hf as <-. by split.
Qed.

Lemma exists_files p d : dk_files (snd (file_exists p d)) = dk_files d.
Proof. apply query_files. Qed.

(** A probe that succeeds found metadata for the head and a copy of its image. *)
Lemma probe_true db head target d d' : otsardb_local_cache_probe cd db head target d = (true, d') ->
  exists m cached f, dk_files d !! metadata_path cd db = Some m /\ parse_metadata (df_data m) = Some cached /\
    cs_generation cached = cs_generation head /\ cs_commit_id cached = cs_commit_id head /\
    cs_commit_sha256 cached = cs_commit_sha256 head /\ dk_files d' !! target = Some f /\
    u64 (zlen (df_data f)) = cs_image_size_bytes cached /\ otsardb_sha256_hex_data (df_data f) = cs_image_sha256 cached.
Proof.
  unfold otsardb_local_cache_probe. case_match; [done|]. unfold mbind_ at 1.
  pose proof (exists_files (metadata_path cd db) d) as F1. destruct (file_exists (metadata_path cd db) d) as [meta d1]. cbn in F1.
  unfold mbind_ at 1. assert (dk_files (snd ((if meta then file_exists (image_path cd db) else mret_ false) d1)) = dk_files d) as F2.
  { destruct meta; [by rewrite exists_files|done]. }
  destruct ((if meta then file_exists (image_path cd db) else mret_ false) d1) as [img d2]. cbn in F2. destruct img; cbn [negb]; [|done].
  unfold mbind_ at 1, read_metadata, mbind_ at 1. destruct (fopen_rb (metadata_path cd db) d2) as [[data|] d3] eqn:E3; [|done].
  apply fopen_rb_some in E3 as (_ & m & Hm & ->). rewrite F2 in Hm. unfold mret_ at 1. cbn [mbind option_bind].
  destruct (parse_metadata (df_data m)) as [cached|] eqn:Ep; [|done].
  destruct (negb _ || _ || _) eqn:Eq; [done|]. unfold mbind_ at 1. destruct (file_size _ d3) as [size d4].
  destruct (negb (size =? cs_image_size_bytes cached)); [done|]. unfold mbind_, mret_.
  destruct (copy_file_verified _ _ _ _ d4) as [copied d5] eqn:E5. intros [= Hc <-]. apply andb_prop in Hc as [-> _].
  apply copy_verified_true in E5 as (f & Hf & Hl & Hh). exists m, cached, f.
  apply orb_false_iff in Eq as [Eq E3]. apply orb_false_iff in Eq as [E1 E2].
  apply negb_false_iff in E1, E2, E3. apply Z.eqb_eq in E1. apply bytes_eqb_eq in E2, E3. split_and!; done.
Qed.

Lemma cache_run_sound ops hd : Forall cache_op_ok ops -> sound hd -> sound (cache_run ops hd).
Proof.
  unfold cache_run. revert hd. induction ops as [|o ops IH]; intros hd Ho Hs; [done|]. inversion_clear Ho.
  cbn [foldl]. apply IH; [done|]. by apply cache_step_sound.
Qed.

(** C20. A probe serves what a session saved, and for the commit it was saved at.
    Take any sequence of saves, probes, evictions, writes of other programs to
    anything but the metadata files (images and index included) and losses of
    power, in which every disk call may fail or stop half-way and every file that
    was not synced may come back with any content. A probe that then reports success
    has put at the target an image with the size and the SHA-256 digest of an image
    that a session handed to a save of the same database, for exactly the
    generation, the commit and the manifest digest of the remote head. *)
Theorem cache_probe_serves_saved (ops : list cache_op) (d0 d d' : disk) (H : history) (db : bytes)
    (head : otsardb_local_cache_state) (target : bytes) :
  (forall db, dk_files d0 !! metadata_path cd db = None) -> Forall cache_op_ok ops ->
  cache_run ops ([], d0) = (H, d) -> otsardb_local_cache_probe cd db head target d = (true, d') ->
  exists st img f, (db, st, img) ∈ H /\ cs_generation st = cs_generation head /\ cs_commit_id st = cs_commit_id head /\
    cs_commit_sha256 st = cs_commit_sha256 head /\ dk_files d' !! target = Some f /\
    u64 (zlen (df_data f)) = u64 (zlen img) /\ otsardb_sha256_hex_data (df_data f) = otsardb_sha256_hex_data img.
Proof.
  intros H0 Ho Hr Hp. assert (sound (H, d)) as [Hst Hm].
  { rewrite <- Hr. apply cache_run_sound; [done|]. split; [constructor|]. cbn. intros db' f Hf. by rewrite H0 in Hf. }
  apply probe_true in Hp as (m & cached & f & Hmf & Hparse & Hg & Hi & Hc & Hf & Hl & Hh). cbn in Hst, Hm.
  destruct (Hm db m Hmf) as (_ & st & img & Hin & Hd). rewrite Forall_forall in Hst. pose proof (Hst _ (proj1 (list_elem_of_In _ _) Hin)) as Hok. cbn in Hok.
  rewrite Hd, metadata_roundtrip in Hparse by done. destruct (u64 (zlen img) =? 0); [done|]. injection Hparse as <-.
  exists st, img, f. split_and!; done.
Qed.
End Histories.

(** ** A crash between two saves *)

Module CacheSample.
Definition sha : Sha256 := pure_sha256.
Definition dir : bytes := str "/var/cache".
Definition source : bytes := str "/tmp/s.db".
Definition target : bytes := str "/tmp/t.db".
Definition first : otsardb_local_cache_state := mkState 1 (str "c1") (replicate 64 97) 0 [].
Definition second : otsardb_local_cache_state := mkState 2 (str "c2") (replicate 64 98) 0 [].

(** The second save loses power while its image is copied, and what was not
    synced is gone. *)
Definition ops : list cache_op :=
  [CWrite source [1; 2; 3]; CSave 0 (str "db") source first;
   CReboot (fun _ old => Some old) 2000 (replicate 8 F_ok ++ [F_crash 1]);
   CWrite source [4; 5; 6]; CSave 0 (str "db") source second;
   CReboot (fun _ _ => None) 3000 []].
Definition start : disk := mkDisk ∅ [] 1000 0 [] true.
Definition final := cache_run (HSha := sha) dir ops ([], start).
Definition served := otsardb_local_cache_probe (H := sha) dir (str "db") first target (snd final).
End CacheSample.

Example cache_second_save_lost :
  fst (otsardb_local_cache_probe (H := CacheSample.sha) CacheSample.dir (str "db") CacheSample.second CacheSample.target
         (snd CacheSample.final)) = false.
Proof. vm_compute. reflexivity. Qed.

Lemma pair_eta {A B} (x : A * B) : x = (fst x, snd x).
Proof. by destruct x. Qed.

Lemma served_true : fst CacheSample.served = true.
Proof. vm_compute. reflexivity. Qed.

Lemma cache_probe_serves_saved_witness :
  exists st img f, (str "db", st, img) ∈ fst CacheSample.final /\
    cs_generation st = 1 /\ cs_commit_id st = str "c1" /\ cs_commit_sha256 st = replicate 64 97 /\
    dk_files (snd CacheSample.served) !! CacheSample.target = Some f /\ u64 (zlen (df_data f)) = u64 (zlen img) /\
    otsardb_sha256_hex_data (H := CacheSample.sha) (df_data f) = otsardb_sha256_hex_data (H := CacheSample.sha) img.
Proof.
  apply (cache_probe_serves_saved (HSha := CacheSample.sha) CacheSample.dir CacheSample.ops CacheSample.start (snd CacheSample.final)
           (snd CacheSample.served) (fst CacheSample.final) (str "db") CacheSample.first CacheSample.target).
  - intros db. apply lookup_empty.
  - assert (not_meta CacheSample.dir CacheSample.source) as Hs.
    { intros db E. apply (f_equal (fun p => nth 1 p 0)) in E. discriminate E. }
    assert (state_ok CacheSample.first /\ state_ok CacheSample.second) as [H1 H2].
    { split; (split_and!; [reflexivity|discriminate|reflexivity|reflexivity|discriminate|reflexivity|reflexivity|reflexivity]). }
    unfold CacheSample.ops. repeat apply Forall_cons_2; [exact Hs|exact H1|exact I|exact Hs|exact H2|exact I|apply Forall_nil_2].
  - exact (eq_sym (pair_eta CacheSample.final)).
  - exact (eq_trans (pair_eta CacheSample.served) (f_equal (fun b => (b, snd CacheSample.served)) served_true)).
Defined.
