(* ===== verification/LocalCacheRound.v ===== *)
(** * The image cache: a save is served

    On a disk whose calls succeed, what a session saves is what the next probe
    copies out, and evictions respect the budget. *)

From S2P Require Import Prelude CText Sha256 LocalCache LocalCacheProps.

(** ** A disk whose calls succeed *)

Definition calm (d : disk) : Prop := dk_on d = true /\ dk_faults d = [].

Lemma calm_disk_call all part d : calm d -> call all part d = (None, all d).
Proof. intros [H1 H2]. unfold call. by rewrite H1, H2. Qed.

Lemma calm_effect f d : calm d -> effect f d = (true, f d).
Proof. intros H. unfold effect, mbind_. by rewrite calm_disk_call. Qed.

Lemma calm_query {A} (a : A) f d : calm d -> query a f d = (f d, d).
Proof. intros H. unfold query, mbind_. by rewrite calm_disk_call. Qed.

Lemma calm_fread chunk d : calm d -> fread chunk d = ((chunk, true), d).
Proof. intros H. unfold fread, mbind_. by rewrite calm_disk_call. Qed.

Lemma calm_fwrite p data d : calm d -> fwrite p data d = (true, write_file p (fun x => df_data x ++ data) d).
Proof. intros H. unfold fwrite, mbind_. by rewrite calm_disk_call. Qed.

Lemma calm_fopen_rb p d : calm d -> fopen_rb p d = (df_data <$> dk_files d !! p, d).
Proof. intros H. unfold fopen_rb. by rewrite calm_query. Qed.

Lemma calm_fclose d : calm d -> fclose d = (true, d).
Proof. apply calm_effect. Qed.

Lemma calm_fsync p d : calm d ->
  fsync_stream p d = (true, set_files (alter (fun x => mkDfile (df_data x) true (df_mtime x)) p) d).
Proof. intros H. unfold fsync_stream, mbind_. rewrite calm_effect by done. by rewrite calm_effect. Qed.

Lemma calm_rename from to d f : calm d -> dk_files d !! from = Some f ->
  rename from to d = (true, set_files (fun m => <[to := f]> (delete from m)) d).
Proof. intros H Hf. unfold rename, mbind_. rewrite calm_query, Hf by done. by rewrite calm_effect. Qed.

(** Changes of the files leave the disk as calm as it was. *)
Lemma calm_files f d : calm d -> calm (set_files f d).
Proof. done. Qed.

(** ** Copies *)

Lemma read_loop_reads fuel rest seen d : calm d -> (length rest < fuel)%nat ->
  read_loop fuel (fun _ => mret_ true) rest seen d = ((true, seen ++ rest), d).
Proof.
  intros Hd. revert rest seen. induction fuel as [|fuel IH]; intros rest seen Hl; [lia|]. cbn [read_loop]. unfold mbind_.
  rewrite calm_fread by done. assert (0 < BUFFER)%nat as HB by (unfold BUFFER; lia).
  assert (match take BUFFER rest with [] => mret_ true | _ :: _ => mret_ true end d = (true, d)) as ->
    by (by destruct (take BUFFER rest)).
  cbn [negb]. destruct (Nat.ltb_spec (length (take BUFFER rest)) BUFFER) as [Hs|Hs]; rewrite length_take in Hs.
  - by rewrite take_ge by lia.
  - rewrite IH; [|rewrite length_drop; lia]. by rewrite <- app_assoc, take_drop.
Qed.

(** The other files are not touched by a copy. *)
Lemma read_loop_copies fuel dst rest seen d f : calm d -> (length rest < fuel)%nat ->
  dk_files d !! dst = Some f -> df_data f = seen ->
  exists t, read_loop fuel (fwrite dst) rest seen d =
    ((true, seen ++ rest), set_files (<[dst := mkDfile (seen ++ rest) (match rest with [] => df_synced f | _ => false end) t]>) d).
Proof.
  intros Hd. revert rest seen d f Hd. induction fuel as [|fuel IH]; intros rest seen d f Hd Hl Hf Hs; [lia|]. cbn [read_loop].
  unfold mbind_, mret_. rewrite calm_fread by done. assert (0 < BUFFER)%nat as HB by (unfold BUFFER; lia).
  destruct rest as [|c rest].
  { exists (df_mtime f). rewrite take_nil. cbn [negb]. assert ((length (@nil Z) <? BUFFER)%nat = true) as -> by done.
    rewrite !app_nil_r. f_equal. destruct d as [files dirs now last faults on]. unfold set_files. cbn in *. f_equal.
    rewrite <- Hs. symmetry. apply insert_id. rewrite Hf. by destruct f. }
  destruct (take BUFFER (c :: rest)) as [|c' buf] eqn:Et.
  { apply (f_equal length) in Et. rewrite length_take in Et. cbn in Et. lia. }
  rewrite calm_fwrite by done. cbn [negb]. rewrite <- Et.
  assert (write_file dst (fun x => df_data x ++ take BUFFER (c :: rest)) d =
          set_files (<[dst := mkDfile (seen ++ take BUFFER (c :: rest)) false (dk_now d)]>) d) as ->.
  { unfold write_file, set_files. f_equal. apply map_eq. intros p. destruct (decide (p = dst)) as [->|Hp].
    - by rewrite lookup_alter_eq, lookup_insert_eq, Hf, <- Hs.
    - by rewrite lookup_alter_ne, lookup_insert_ne by done. }
  destruct (Nat.ltb_spec (length (take BUFFER (c :: rest))) BUFFER) as [Hb|Hb]; rewrite length_take in Hb.
  - exists (dk_now d). by rewrite take_ge by lia.
  - set (rest' := drop BUFFER (c :: rest)).
    edestruct (IH rest' (seen ++ take BUFFER (c :: rest)) (set_files (<[dst := mkDfile (seen ++ take BUFFER (c :: rest)) false (dk_now d)]>) d))
      as [t E]; [done|unfold rest'; rewrite length_drop; lia|cbn; by rewrite lookup_insert_eq|done|].
    exists t. rewrite E. unfold rest'. rewrite <- app_assoc, take_drop. unfold set_files. cbn. rewrite insert_insert_eq.
    by destruct (drop BUFFER (c :: rest)).
Qed.

(** ** The saved pair stays *)

Section Stays.
Context `{HSha : Sha256} (cd db img text : bytes).

Definition holds (d : disk) : Prop :=
  calm d /\ df_data <$> dk_files d !! image_path cd db = Some img /\ df_data <$> dk_files d !! metadata_path cd db = Some text.

Definition stays {A} (m : M disk A) : Prop := forall d, holds d -> holds (snd (m d)).

Definition elsewhere (p : bytes) : Prop := p <> image_path cd db /\ p <> metadata_path cd db.

Lemma stays_ret {A} (a : A) : stays (mret_ a).
Proof. by intros d. Qed.

Lemma stays_bind {A B} (m : M disk A) (k : A -> M disk B) : stays m -> (forall a, stays (k a)) -> stays (mbind_ m k).
Proof. intros Hm Hk d Hd. unfold mbind_. specialize (Hm d Hd). destruct (m d) as [a d1]. by apply Hk. Qed.

Lemma stays_query {A} (a : A) f : stays (query a f).
Proof. intros d Hd. by rewrite calm_query by apply Hd. Qed.

Lemma stays_effect f : (forall d, holds d -> holds (f d)) -> stays (effect f).
Proof. intros Hf d Hd. rewrite calm_effect by apply Hd. by apply Hf. Qed.

Lemma holds_other p f d : elsewhere p -> (forall m x, x <> p -> f m !! x = m !! x) -> holds d -> holds (set_files f d).
Proof.
  intros [H1 H2] Hf (Hc & Hi & Hm). split_and!; [done| |]; cbn; rewrite Hf; try done; intros E; congruence.
Qed.

Lemma stays_fopen_wb p : elsewhere p -> stays (fopen_wb p).
Proof.
  intros Hp. apply stays_effect. intros d. apply (holds_other p (<[p := mkDfile [] false (dk_now d)]>)); [done|].
  intros m x Hx. by rewrite lookup_insert_ne.
Qed.

Lemma stays_fwrite p data : elsewhere p -> stays (fwrite p data).
Proof.
  intros Hp d Hd. rewrite calm_fwrite by apply Hd. unfold write_file. cbn [snd]. apply (holds_other p); [done| |done].
  intros m x Hx. by rewrite lookup_alter_ne.
Qed.

Lemma stays_remove p : elsewhere p -> stays (fs_remove p).
Proof.
  intros Hp. apply stays_bind; [|intros; apply stays_ret]. apply stays_effect. intros d. apply (holds_other p); [done|].
  intros m x Hx. by rewrite lookup_delete_ne.
Qed.

Lemma stays_rename from to : elsewhere from -> elsewhere to -> stays (rename from to).
Proof.
  intros Hf Ht. apply stays_bind; [apply stays_query|]. intros [f|]; [|apply stays_ret]. apply stays_effect. intros d Hd.
  change (set_files (fun m => <[to := f]> (delete from m)) d) with (set_files (<[to := f]>) (set_files (delete from) d)).
  apply (holds_other to); [done|intros m x Hx; by rewrite lookup_insert_ne|].
  apply (holds_other from); [done|intros m x Hx; by rewrite lookup_delete_ne|done].
Qed.

Lemma stays_fclose : stays fclose.
Proof. by apply stays_effect. Qed.

Lemma stays_mkdirs p : stays (create_directories p).
Proof. by apply stays_effect. Qed.

Lemma stays_remove_dir p : stays (remove_dir p).
Proof. apply stays_bind; [|intros; apply stays_ret]. apply stays_effect. intros d. by case_match. Qed.

Lemma elsewhere_tmp p : elsewhere (tmp_path p).
Proof. split; [apply tmp_not_image|apply tmp_not_meta]. Qed.

Lemma elsewhere_index : elsewhere (index_path cd).
Proof. split; [apply index_not_image|apply index_not_meta]. Qed.

Lemma elsewhere_image db' : db' <> db -> elsewhere (image_path cd db').
Proof. intros Hne. split; [by intros ?%image_path_inj|apply image_not_meta]. Qed.

Lemma elsewhere_metadata db' : db' <> db -> elsewhere (metadata_path cd db').
Proof. intros Hne. split; [apply not_eq_sym, image_not_meta|by intros ?%metadata_path_inj]. Qed.

Lemma stays_scan_dirs parsed dbs : stays (scan_dirs cd parsed dbs).
Proof.
  induction dbs as [|x dbs IH]; cbn [scan_dirs]; [apply stays_ret|]. case_match; [done|].
  apply stays_bind; [apply stays_query|]. intros meta. apply stays_bind; [destruct meta; [apply stays_query|apply stays_ret]|].
  intros i. destruct i; cbn [negb]; [|done]. do 2 (apply stays_bind; [apply stays_query|]; intros).
  apply stays_bind; [done|]. intros; apply stays_ret.
Qed.

Lemma stays_load_index : stays (load_index cd).
Proof.
  unfold load_index. apply stays_bind; [apply stays_query|]. intros there.
  apply stays_bind; [destruct there; [apply stays_query|apply stays_ret]|]. intros json. apply stays_bind; [apply stays_query|].
  intros dbs. apply stays_bind; [apply stays_scan_dirs|]. intros; apply stays_ret.
Qed.

Lemma stays_evict_entry db' : db' <> db -> stays (evict_entry cd db').
Proof.
  intros Hne. unfold evict_entry.
  apply stays_bind; [apply stays_remove; by apply elsewhere_image|]. intros _.
  apply stays_bind; [apply stays_remove; by apply elsewhere_metadata|]. intros _.
  apply stays_bind; [apply stays_remove, elsewhere_tmp|]. intros _.
  apply stays_bind; [apply stays_remove, elsewhere_tmp|]. intros _. apply stays_remove_dir.
Qed.

Lemma stays_evict_loop budget total es : stays (evict_loop cd db budget total es).
Proof.
  revert total. induction es as [|e es IH]; intros total; cbn [evict_loop]; [apply stays_ret|]. case_match; [apply stays_ret|].
  destruct (bytes_eqb (en_db_id e) db) eqn:Eq.
  - apply stays_bind; [done|]. intros; apply stays_ret.
  - apply bytes_eqb_neq in Eq. apply stays_bind; [by apply stays_evict_entry|]. intros; apply IH.
Qed.

Lemma stays_write_index es : stays (write_index_json (index_path cd) es).
Proof.
  unfold write_index_json. apply stays_bind; [apply stays_mkdirs|]. intros [|]; cbn [negb]; [|apply stays_ret].
  apply stays_bind; [apply stays_fopen_wb, elsewhere_tmp|]. intros [|]; cbn [negb]; [|apply stays_ret].
  apply stays_bind; [apply stays_fwrite, elsewhere_tmp|]. intros _. apply stays_bind; [apply stays_fclose|]. intros _.
  apply stays_rename; [apply elsewhere_tmp|apply elsewhere_index].
Qed.

Lemma stays_update_index budget : stays (update_index cd db budget).
Proof.
  unfold update_index. apply stays_bind; [apply stays_load_index|]. intros es. apply stays_bind; [apply stays_query|].
  intros size. apply stays_bind; [by intros d|]. intros t. apply stays_bind.
  { unfold evict_over_budget. case_match; [apply stays_ret|apply stays_evict_loop]. }
  intros kept. apply stays_bind; [apply stays_write_index|]. intros; apply stays_ret.
Qed.
End Stays.

(** ** A save and a probe *)

Section Round.
Context `{HSha : Sha256}.

Lemma calm_insert d p x f : set_files (alter f p) (set_files (<[p := x]>) d) = set_files (<[p := f x]>) d.
Proof. unfold set_files. cbn. f_equal. by rewrite alter_insert_eq. Qed.

Lemma set_files_twice f g d : set_files f (set_files g d) = set_files (fun m => f (g m)) d.
Proof. done. Qed.

(** The copy that both directions share. *)
Lemma copy_calm src dst d f : calm d -> src <> dst -> dk_files d !! src = Some f ->
  let d1 := set_files (<[dst := mkDfile [] false (dk_now d)]>) d in
  contents_of src d1 = (df_data f, d1) /\
  exists s t, read_loop (S (length (df_data f))) (fwrite dst) (df_data f) [] d1 =
    ((true, df_data f), set_files (<[dst := mkDfile (df_data f) s t]>) d).
Proof.
  intros Hc Hne Hf d1. split.
  { unfold contents_of, d1. cbn. by rewrite lookup_insert_ne, Hf. }
  destruct (read_loop_copies (S (length (df_data f))) dst (df_data f) [] d1 (mkDfile [] false (dk_now d))) as [t E];
    [done|lia|unfold d1; cbn; by rewrite lookup_insert_eq|done|].
  exists (match df_data f with [] => false | _ => false end), t. rewrite E. cbn [app df_synced].
  unfold d1. rewrite set_files_twice. unfold set_files. do 2 f_equal. by rewrite insert_insert_eq.
Qed.

Lemma copy_fsync_calm src dst d f : calm d -> src <> dst -> dk_files d !! src = Some f ->
  exists t, copy_file_fsync_tmp src dst d = (true, set_files (<[dst := mkDfile (df_data f) true t]>) d).
Proof.
  intros Hc Hne Hf. unfold copy_file_fsync_tmp, mbind_, mret_. rewrite calm_fopen_rb, Hf by done. cbn [fmap option_fmap option_map].
  unfold fopen_wb. rewrite calm_effect by done. cbn [negb]. destruct (copy_calm src dst d f Hc Hne Hf) as [-> (s & t & ->)].
  rewrite calm_fsync by done. cbv iota beta. rewrite !calm_fclose by done. cbn [andb]. exists t. by rewrite calm_insert.
Qed.

Lemma copy_verified_calm src dst d f : calm d -> src <> dst -> dk_files d !! src = Some f ->
  exists s t, copy_file_verified src dst (u64 (zlen (df_data f))) (otsardb_sha256_hex_data (df_data f)) d =
    (true, set_files (<[dst := mkDfile (df_data f) s t]>) d).
Proof.
  intros Hc Hne Hf. unfold copy_file_verified, mbind_, mret_. rewrite calm_fopen_rb, Hf by done. cbn [fmap option_fmap option_map].
  unfold fopen_wb. rewrite calm_effect by done. cbn [negb]. destruct (copy_calm src dst d f Hc Hne Hf) as [-> (s & t & ->)].
  rewrite !calm_fclose by done. rewrite Z.eqb_refl, zlen_sha256_hex_data, bytes_eqb_refl. cbn. by exists s, t.
Qed.

Lemma sha256_file_calm p d f : calm d -> dk_files d !! p = Some f ->
  sha256_file p d = (Some (u64 (zlen (df_data f)), otsardb_sha256_hex_data (df_data f)), d).
Proof.
  intros Hc Hf. unfold sha256_file, mbind_. rewrite calm_fopen_rb, Hf by done. cbn [fmap option_fmap option_map].
  rewrite read_loop_reads by (done || lia). by rewrite calm_fclose.
Qed.

Lemma write_metadata_calm p st d : calm d -> p <> tmp_path p ->
  exists d' t, write_metadata p st d = (true, d') /\ calm d' /\
    dk_files d' = <[p := mkDfile (metadata_text st) true t]> (delete (tmp_path p) (dk_files d)).
Proof.
  intros Hc Hne. unfold write_metadata, mbind_, mret_, create_directories. rewrite calm_effect by done. cbn [negb].
  set (d1 := set_dirs _ d). assert (calm d1) as Hc1 by done. unfold fopen_wb. rewrite calm_effect by done. cbn [negb].
  rewrite calm_fwrite by done. rewrite calm_fsync by done. rewrite calm_fclose by done. cbn [andb negb].
  unfold write_file. rewrite !calm_insert. cbn [df_data df_mtime app].
  erewrite calm_rename; [|done|cbn; by rewrite lookup_insert_eq].
  eexists _, _. split; [done|]. split; [done|]. cbn. by rewrite delete_insert_eq.
Qed.

Lemma tmp_ne p : p <> tmp_path p.
Proof. intros E. apply (f_equal length) in E. unfold tmp_path in E. rewrite length_app in E. change (length (str ".tmp")) with 4%nat in E. lia. Qed.

Lemma save_calm budget cd db src st d f : calm d -> db <> [] -> state_ok st -> dk_files d !! src = Some f ->
  src <> tmp_path (image_path cd db) ->
  exists d', otsardb_local_cache_save budget cd db src st d = (true, d') /\
    holds cd db (df_data f) (metadata_text (attested st (df_data f))) d'.
Proof.
  intros Hc Hdb Hst Hf Hne. pose proof Hst as (Hg & _ & Hil & _ & _ & Hz). unfold otsardb_local_cache_save.
  rewrite (proj2 (bytes_eqb_neq db [])) by done. rewrite (proj2 (bytes_eqb_neq (cs_commit_id st) [])).
  2:{ intros E. apply (f_equal zlen) in E. change (zlen (@nil Z)) with 0 in E. lia. }
  rewrite (proj2 (Z.eqb_neq (cs_generation st) 0)) by lia. cbn [orb]. unfold mbind_ at 1, file_exists. rewrite calm_query by done.
  rewrite bool_decide_true by eauto. cbn [negb]. unfold mbind_ at 1, create_directories. rewrite calm_effect by done. cbn [negb].
  set (d1 := set_dirs _ d). assert (calm d1) as Hc1 by done. assert (dk_files d1 !! src = Some f) as Hf1 by done.
  unfold mbind_ at 1, attest. rewrite Hz. cbn [Z.eqb orb]. unfold mbind_ at 1. erewrite sha256_file_calm by done. unfold mret_ at 1.
  change (mkState _ _ _ _ _) with (attested st (df_data f)).
  unfold mbind_ at 1. destruct (copy_fsync_calm src (tmp_path (image_path cd db)) d1 f Hc1 Hne Hf1) as [t ->]. cbn [negb].
  unfold mbind_ at 1. erewrite calm_rename; [|done|cbn; by rewrite lookup_insert_eq]. cbn [negb].
  unfold mbind_ at 1. rewrite calm_effect by done.
  unfold mbind_ at 1.
  match goal with |- context [write_metadata ?p ?s ?x] =>
    destruct (write_metadata_calm p s x) as (d3 & t3 & -> & Hc3 & F3); [done|apply tmp_ne|] end. cbn [negb].
  assert (holds cd db (df_data f) (metadata_text (attested st (df_data f))) d3) as Hh.
  { split_and!; [done| |].
    - rewrite F3, lookup_insert_ne, lookup_delete_ne; [|apply tmp_not_image|apply not_eq_sym, image_not_meta]. cbn.
      by rewrite lookup_alter_eq, lookup_insert_eq.
    - by rewrite F3, lookup_insert_eq. }
  unfold mbind_. pose proof (stays_update_index cd db (df_data f) (metadata_text (attested st (df_data f))) budget d3 Hh) as Hh4.
  destruct (update_index cd db budget d3) as [[] d4]. by exists d4.
Qed.

(** C21. A saved image is served. On a disk whose calls succeed, whatever is in the
    cache and however small its budget, a save of a non-empty image succeeds, and a
    probe for the same generation, commit and manifest digest then succeeds and puts
    exactly that image at the target. *)
Theorem cache_save_then_probe budget cd db src target st head d f :
  calm d -> db <> [] -> state_ok st -> dk_files d !! src = Some f -> src <> tmp_path (image_path cd db) ->
  0 < zlen (df_data f) <= UINT64_MAX -> target <> image_path cd db ->
  cs_generation head = cs_generation st -> cs_commit_id head = cs_commit_id st ->
  cs_commit_sha256 head = cs_commit_sha256 st ->
  exists d1 d2 g, otsardb_local_cache_save budget cd db src st d = (true, d1) /\
    otsardb_local_cache_probe cd db head target d1 = (true, d2) /\
    dk_files d2 !! target = Some g /\ df_data g = df_data f.
Proof.
  intros Hc Hdb Hst Hf Hne Hlen Ht Hg Hi Hs. destruct (save_calm budget cd db src st d f Hc Hdb Hst Hf Hne) as (d1 & E1 & Hc1 & Him & Hme).
  exists d1. rewrite E1. destruct (dk_files d1 !! image_path cd db) as [im|] eqn:Eim; [|done]. injection Him as Him.
  destruct (dk_files d1 !! metadata_path cd db) as [me|] eqn:Eme; [|done]. injection Hme as Hme.
  assert (u64 (zlen (df_data f)) = zlen (df_data f)) as Hu by (unfold u64; apply Z.mod_small; unfold UINT64_MAX in Hlen; lia).
  pose proof Hst as (Hgr & _ & Hil & _). assert (cs_commit_id st <> []) as Hid.
  { intros E. apply (f_equal zlen) in E. change (zlen (@nil Z)) with 0 in E. lia. }
  destruct (copy_verified_calm (image_path cd db) target d1 im Hc1 ltac:(done) Eim) as (s & t & Ec).
  eexists _, _. split; [done|]. unfold otsardb_local_cache_probe.
  rewrite (proj2 (bytes_eqb_neq db [])) by done. rewrite Hi, (proj2 (bytes_eqb_neq (cs_commit_id st) [])) by done.
  rewrite Hg, (proj2 (Z.eqb_neq (cs_generation st) 0)) by lia. cbn [orb]. unfold mbind_, mret_, file_exists, file_size, read_metadata, mbind_.
  rewrite calm_query, Eme by done. cbn [is_Some]. rewrite bool_decide_true by eauto. rewrite calm_query, Eim by done.
  rewrite bool_decide_true by eauto. cbn [negb]. rewrite calm_fopen_rb, Eme by done. cbn [fmap option_fmap option_map mbind option_bind].
  unfold mret_. rewrite Hme, metadata_roundtrip by done. rewrite Hu, (proj2 (Z.eqb_neq _ 0)) by lia.
  unfold attested. cbn [cs_generation cs_commit_id cs_commit_sha256 cs_image_size_bytes cs_image_sha256].
  rewrite Hs, Z.eqb_refl, !bytes_eqb_refl. cbn [negb orb]. rewrite calm_query, Eim by done. rewrite Him, Hu, Z.eqb_refl. cbn [negb].
  rewrite Him, Hu in Ec. rewrite Ec. cbn [andb]. split; [done|]. cbn. by rewrite lookup_insert_eq.
Qed.
End Round.

(** ** The budget *)

Definition size_ok (e : cache_entry) : Prop := 0 <= en_size_bytes e.

Fixpoint sum_bytes (es : list cache_entry) : Z := match es with [] => 0 | e :: r => en_size_bytes e + sum_bytes r end.

Lemma sum_bytes_nonneg es : Forall size_ok es -> 0 <= sum_bytes es.
Proof. induction 1 as [|e es He _ IH]; [done|]. unfold size_ok in He. cbn. lia. Qed.

Lemma total_is_sum es t : Forall size_ok es -> 0 <= t -> t + sum_bytes es <= UINT64_MAX ->
  foldl (fun t e => u64 (t + en_size_bytes e)) t es = t + sum_bytes es.
Proof.
  intros Hs. revert t. induction Hs as [|e es He Hs IH]; intros t Ht Hle; cbn [foldl sum_bytes]; [lia|].
  pose proof (sum_bytes_nonneg es Hs). cbn in Hle. unfold size_ok in He.
  assert (u64 (t + en_size_bytes e) = t + en_size_bytes e) as -> by (unfold u64; apply Z.mod_small; unfold UINT64_MAX in Hle; lia).
  rewrite IH by lia. lia.
Qed.

(** What is over the budget is the protected database alone. *)
Lemma evict_loop_fits cd db budget total es d : Forall size_ok es -> 0 <= sum_bytes es <= total -> total <= UINT64_MAX ->
  let kept := fst (evict_loop cd db budget total es d) in
  total - sum_bytes es + sum_bytes kept <= budget \/ Forall (fun e => en_db_id e = db) kept.
Proof.
  intros Hs. revert total d. induction Hs as [|e es He Hs IH]; intros total d Ht Hu; cbn [evict_loop]; [right; constructor|].
  cbn [sum_bytes] in *. pose proof (sum_bytes_nonneg es Hs). unfold size_ok in He. destruct (Z.leb_spec total budget).
  { left. cbn [fst mret_ sum_bytes]. lia. }
  destruct (bytes_eqb (en_db_id e) db) eqn:Eq.
  - apply bytes_eqb_eq in Eq. unfold mbind_. specialize (IH total d ltac:(lia) Hu). destruct (evict_loop cd db budget total es d) as [kept d'].
    cbn in *. destruct IH as [IH|IH]; [left; lia|right; by constructor].
  - unfold mbind_. destruct (evict_entry cd (en_db_id e) d) as [[] d1].
    assert (u64 (total - en_size_bytes e) = total - en_size_bytes e) as -> by (unfold u64; apply Z.mod_small; unfold UINT64_MAX in Hu; lia).
    specialize (IH (total - en_size_bytes e) d1 ltac:(lia) ltac:(lia)). cbn in *. destruct IH as [IH|IH]; [left; lia|by right].
Qed.

(** The entries that an eviction keeps fit the budget, or they are the saved
    database alone; whatever disk calls fail. *)
Theorem cache_eviction_fits cd db budget es d : Forall size_ok es -> sum_bytes es <= UINT64_MAX -> budget <> 0 ->
  let kept := fst (evict_over_budget cd db budget es d) in
  sum_bytes kept <= budget \/ Forall (fun e => en_db_id e = db) kept.
Proof.
  intros Hs Hu Hb. unfold evict_over_budget, total_bytes. rewrite (proj2 (Z.eqb_neq budget 0)) by done.
  pose proof (sum_bytes_nonneg es Hs). rewrite total_is_sum by (done || lia).
  destruct (evict_loop_fits cd db budget (0 + sum_bytes es) es d Hs ltac:(lia) ltac:(lia)) as [H1|H1]; [left; lia|by right].
Qed.

(** ** The index round trip *)

Lemma string_body_escaped s v rest : json_string_body (json_escape s ++ dq :: rest) v = Some (v ++ s, rest).
Proof.
  revert v. induction s as [|c s IH]; intros v.
  - cbn. by rewrite app_nil_r.
  - change (json_escape (c :: s)) with ((if (c =? 92) || (c =? dq) then [92; c] else [c]) ++ json_escape s).
    destruct (Z.eqb_spec c 92) as [->|H1]; [|destruct (Z.eqb_spec c dq) as [->|H2]]; cbn [orb app json_string_body].
    + rewrite Z.eqb_refl, IH. by rewrite <- app_assoc.
    + change (92 =? 92) with true. cbv iota. rewrite IH. by rewrite <- app_assoc.
    + rewrite (proj2 (Z.eqb_neq c 92)), (proj2 (Z.eqb_neq c dq)) by done. rewrite IH. by rewrite <- app_assoc.
Qed.

Lemma expect_char_here c rest : is_ws c = false -> expect_char c (c :: rest) = Some rest.
Proof. intros Hc. unfold expect_char, skip_ws. cbn [skip_while]. by rewrite Hc, Z.eqb_refl. Qed.

Lemma read_string_text s rest : read_json_string (dq :: json_escape s ++ dq :: rest) = Some (s, rest).
Proof. unfold read_json_string. rewrite expect_char_here by done. cbn [mbind option_bind]. apply string_body_escaped. Qed.

(** A name without characters to escape. *)
Lemma escape_plain s : no_byte 92 s = true -> noq s = true -> json_escape s = s.
Proof.
  induction s as [|c s IH]; [done|]. unfold noq. rewrite !no_byte_cons. intros H1 H2. prop_bools.
  change (json_escape (c :: s)) with ((if (c =? 92) || (c =? dq) then [92; c] else [c]) ++ json_escape s).
  destruct (Z.eqb_spec c 92); [done|]. destruct (Z.eqb_spec c dq); [done|]. cbn. by rewrite IH.
Qed.

Lemma expect_key_text key rest : no_byte 92 key = true -> noq key = true ->
  expect_key key (dq :: key ++ dq :: 58 :: rest) = Some rest.
Proof.
  intros H1 H2. unfold expect_key. pose proof (read_string_text key (58 :: rest)) as R. rewrite escape_plain in R by done.
  rewrite R. cbn [mbind option_bind].
  rewrite bytes_eqb_refl. by rewrite expect_char_here.
Qed.

Lemma wrapped_digits ds v : foldl (fun v c => u64 (v * 10 + (c - 48))) (u64 v) ds = u64 (foldl (fun acc d => acc * 10 + (d - 48)) v ds).
Proof.
  revert v. induction ds as [|c ds IH]; intros v; [done|]. cbn [foldl]. rewrite <- IH. f_equal. unfold u64.
  rewrite Z.add_mod, Z.mul_mod_idemp_l, <- Z.add_mod by lia. done.
Qed.

Lemma read_number_text n c rest : is_u64 n -> is_digit c = false -> read_json_number (dec n ++ c :: rest) = Some (n, c :: rest).
Proof.
  intros Hn Hc. destruct (dec_spec n Hn) as (Hne & Hd & Hv). destruct (dec_head n Hn) as (d & ds & E & Hd0).
  unfold read_json_number, skip_ws. rewrite skip_while_stop.
  2:{ rewrite E. cbn. unfold is_digit in Hd0. prop_bools. unfold is_ws. repeat (rewrite (proj2 (Z.eqb_neq d _)) by lia). done. }
  assert (forall l, forallb is_digit l = true -> span is_digit (l ++ c :: rest) = (l, c :: rest)) as Hspan.
  { induction l as [|x l IH]; cbn; [by rewrite Hc|]. intros Hl. prop_bools. rewrite H, IH by done. done. }
  rewrite Hspan by done. rewrite E. rewrite <- E. f_equal. f_equal. change 0 with (u64 0) at 1. rewrite wrapped_digits.
  unfold digits_value in Hv. rewrite Hv. unfold u64. apply Z.mod_small. destruct Hn. unfold UINT64_MAX in *. lia.
Qed.

Definition entry_ok (e : cache_entry) : Prop :=
  en_db_id e <> [] /\ en_path e <> [] /\ is_u64 (en_size_bytes e) /\ is_u64 (en_saved_at_ms e).

(** The pieces of an entry, as the text has them. *)
Lemma key_piece k rest : no_byte 92 (str k) = true -> noq (str k) = true -> expect_key (str k) (q k ++ str ":" ++ rest) = Some rest.
Proof. intros H1 H2. unfold q, quoted. cbn [app]. rewrite <- app_assoc. by apply expect_key_text. Qed.

Lemma string_piece s rest : read_json_string ([dq] ++ json_escape s ++ [dq] ++ rest) = Some (s, rest).
Proof. apply read_string_text. Qed.

Lemma comma_piece rest : expect_char 44 (str "," ++ rest) = Some rest.
Proof. done. Qed.

Lemma number_piece n rest : is_u64 n -> read_json_number (dec n ++ str "," ++ rest) = Some (n, str "," ++ rest).
Proof. intros Hn. by apply read_number_text. Qed.

Lemma last_number_piece n rest : is_u64 n -> read_json_number (dec n ++ str "}" ++ rest) = Some (n, str "}" ++ rest).
Proof. intros Hn. by apply read_number_text. Qed.

Lemma parse_entry_text e rest : entry_ok e -> parse_entry (entry_text e ++ rest) = Some (e, rest).
Proof.
  intros (Hdb & Hp & Hs & Ha). unfold parse_entry, entry_text. rewrite <- !app_assoc.
  change (expect_char 123 (str "{" ++ ?x)) with (Some x). cbn [mbind option_bind].
  rewrite key_piece by done. cbn [mbind option_bind]. rewrite string_piece. cbn [mbind option_bind]. rewrite comma_piece. cbn [mbind option_bind].
  rewrite key_piece by done. cbn [mbind option_bind]. rewrite string_piece. cbn [mbind option_bind]. rewrite comma_piece. cbn [mbind option_bind].
  rewrite key_piece by done. cbn [mbind option_bind]. rewrite number_piece by done. cbn [mbind option_bind].
  rewrite comma_piece. cbn [mbind option_bind]. rewrite key_piece by done. cbn [mbind option_bind].
  rewrite last_number_piece by done. cbn [mbind option_bind]. change (expect_char 125 (str "}" ++ rest)) with (Some rest). cbn [mbind option_bind].
  destruct e as [db path size saved]. cbn in *. by destruct db, path.
Qed.

(** The entries up to the closing bracket. *)
Lemma parse_entries_text fuel e es rest : Forall entry_ok (e :: es) -> (length es < fuel)%nat ->
  parse_entries fuel (entry_text e ++ entries_text false es ++ str "]" ++ rest) = Some (e :: es).
Proof.
  revert e es. induction fuel as [|fuel IH]; intros e es Hok Hl; [lia|]. inversion_clear Hok as [|? ? He Hes]. cbn [parse_entries].
  assert (skip_ws (entry_text e ++ entries_text false es ++ str "]" ++ rest) = entry_text e ++ entries_text false es ++ str "]" ++ rest) as -> by done.
  change (match entry_text e ++ ?x with 93 :: _ => ?a | _ => ?b end) with b. rewrite parse_entry_text by done. cbn [mbind option_bind].
  destruct es as [|e' es]; [done|]. cbn [entries_text]. rewrite <- !app_assoc.
  change (skip_ws (str "," ++ ?x)) with (44 :: x). cbv iota. rewrite IH; [done|done|cbn in Hl; lia].
Qed.

(** The index that a save writes is the one the next save reads. *)
Theorem cache_index_roundtrip es : Forall entry_ok es -> parse_index_json (index_text es) = Some es.
Proof.
  intros Hes. unfold parse_index_json, index_text. change (expect_char 123 (str "{" ++ ?x)) with (Some x). cbn [mbind option_bind].
  change (str ":1,") with (str ":" ++ str "1,"). rewrite <- app_assoc. rewrite key_piece by done. cbn [mbind option_bind].
  change (read_json_number (str "1," ++ ?x)) with (Some (1, str "," ++ x)). cbn [mbind option_bind Z.eqb Pos.eqb negb].
  rewrite comma_piece. cbn [mbind option_bind]. change (str ":[") with (str ":" ++ str "["). rewrite <- app_assoc. rewrite key_piece by done.
  cbn [mbind option_bind]. change (expect_char 91 (str "[" ++ ?x)) with (Some x). cbn [mbind option_bind].
  destruct es as [|e es]; [done|]. cbn [entries_text]. cbn [app]. rewrite <- app_assoc.
  change (str "]}") with (str "]" ++ str "}"). rewrite <- app_assoc. apply parse_entries_text; [done|].
  rewrite !length_app. assert (length es <= length (entries_text false es))%nat; [|lia].
  clear. induction es as [|x es IH]; [done|]. cbn [entries_text length]. rewrite !length_app. change (length (str ",")) with 1%nat. lia.
Qed.

(** ** A save into an empty cache *)

Definition round_disk : disk := mkDisk {[CacheSample.source := mkDfile [1; 2; 3] true 0]} [] 1000 0 [] true.

Lemma cache_save_then_probe_witness :
  exists d1 d2 g, otsardb_local_cache_save (H := CacheSample.sha) 1 CacheSample.dir (str "db") CacheSample.source CacheSample.first
      round_disk = (true, d1) /\
    otsardb_local_cache_probe (H := CacheSample.sha) CacheSample.dir (str "db") CacheSample.first CacheSample.target d1 = (true, d2) /\
    dk_files d2 !! CacheSample.target = Some g /\ df_data g = [1; 2; 3].
Proof.
  apply (cache_save_then_probe (HSha := CacheSample.sha) 1 CacheSample.dir (str "db") CacheSample.source CacheSample.target
           CacheSample.first CacheSample.first round_disk (mkDfile [1; 2; 3] true 0)).
  - by split.
  - discriminate.
  - split_and!; [reflexivity|discriminate|reflexivity|reflexivity|discriminate|reflexivity|reflexivity|reflexivity].
  - apply lookup_singleton_eq.
  - intros E. apply (f_equal (fun p => nth 1 p 0)) in E. discriminate E.
  - split; [reflexivity|discriminate].
  - intros E. apply (f_equal (fun p => nth 1 p 0)) in E. discriminate E.
  - reflexivity.
  - reflexivity.
  - reflexivity.
Defined.
