(* ===== verification/StudioRequest.v ===== *)
(** * The studio: requests (cli/studio.c)

    The reader of the JSON object that the workbench sends, the handler that turns
    an edit request into SQL, and the theorem that an edit, as a client writes it,
    reaches the generator unchanged. *)

From S2P Require Import Prelude CText Forward JsonMode JsonModeProps Studio.

Definition OTSARDB_STUDIO_MAX_SQL : Z := 65536.
Definition OTSARDB_EDIT_MAX_CELL : Z := 256.

(** ** Strings *)

(** Surrogates and larger values become the replacement character. *)
Definition utf8_encode (cp : Z) : bytes :=
  if cp <? 128 then [cp]
  else if cp <? 2048 then [Z.lor 192 (Z.shiftr cp 6); Z.lor 128 (Z.land cp 63)]
  else if (cp <? 65536) && negb ((55296 <=? cp) && (cp <=? 57343))
  then [Z.lor 224 (Z.shiftr cp 12); Z.lor 128 (Z.land (Z.shiftr cp 6) 63); Z.lor 128 (Z.land cp 63)]
  else [239; 191; 189].

Definition hex_digit_value (c : Z) : option Z :=
  if is_digit c then Some (c - 48)
  else if (97 <=? c) && (c <=? 102) then Some (c - 97 + 10)
  else if (65 <=? c) && (c <=? 70) then Some (c - 65 + 10) else None.

Definition hex4 (s : bytes) : option Z :=
  foldl (fun v c => v ← v; d ← hex_digit_value c; Some (Z.lor (Z.shiftl v 4) d)) (Some 0) (take 4 s).

(** The byte of an escape of two characters. *)
Definition simple_escape (e : Z) : option Z :=
  if (e =? 34) || (e =? 92) || (e =? 47) then Some e
  else if e =? 110 then Some 10 else if e =? 114 then Some 13 else if e =? 116 then Some 9
  else if e =? 98 then Some 8 else if e =? 102 then Some 12 else None.

(** The characters after the opening quote, [o] of them in a buffer of [cap]. *)
Fixpoint string_chars (p : bytes) (cap : Z) (o : bytes) : option (bytes * bytes) :=
  match p with
  | [] => None
  | c :: t =>
      if c =? 34 then Some (o, t)
      else if c =? 92 then
        match t with
        | [] => None
        | e :: t' =>
            match simple_escape e with
            | Some b => if cap <=? zlen o + 1 then None else string_chars t' cap (o ++ [b])
            | None =>
                if negb (e =? 117) then None else
                match t' with
                | x :: y :: z :: w :: r =>
                    match hex4 [x; y; z; w] with
                    | Some cp => let enc := utf8_encode cp in
                                 if cap <=? zlen o + zlen enc then None else string_chars r cap (o ++ enc)
                    | None => None
                    end
                | _ => None
                end
            end
        end
      else if c <? 32 then None
      else if cap <=? zlen o + 1 then None else string_chars t cap (o ++ [c])
  end.

Definition parse_string_value (p : bytes) (cap : Z) : option (bytes * bytes) :=
  match p with c :: t => if c =? 34 then string_chars t cap [] else None | [] => None end.

(** ** Arrays *)

(** Items up to the bracket, at most [max]; [fuel] bounds the rounds. *)
Fixpoint array_items {A} (item : bytes -> option (A * bytes)) (fuel : nat) (max : Z) (p : bytes) : option (list A * bytes) :=
  match fuel with
  | O => None
  | S fuel =>
      match skip_while is_page_space p with
      | [] => None
      | c :: t =>
          if c =? 93 then Some ([], t) else if max <=? 0 then None else
          '(x, p) ← item (c :: t);
          match skip_while is_page_space p with
          | [] => None
          | d :: t => if d =? 44 then '(xs, p) ← array_items item fuel (max - 1) t; Some (x :: xs, p)
                      else if d =? 93 then Some ([x], t) else None
          end
      end
  end.

Definition parse_array {A} (item : bytes -> option (A * bytes)) (p : bytes) : option (list A * bytes) :=
  match p with c :: t => if c =? 91 then array_items item (S (length t)) OTSARDB_EDIT_MAX_COLS t else None | [] => None end.

(** An entry is used as a C string. *)
Definition string_item (p : bytes) : option (bytes * bytes) :=
  '(s, p) ← parse_string_value p OTSARDB_EDIT_MAX_CELL; Some (cstr s, p).

Definition parse_string_array : bytes -> option (list bytes * bytes) := parse_array string_item.

Definition is_number_char (c : Z) : bool := (c =? 45) || (c =? 43) || (c =? 46) || (c =? 101) || (c =? 69) || is_digit c.

Definition parse_cell_value (p : bytes) : option (otsardb_studio_cell * bytes) :=
  match p with
  | [] => None
  | c :: _ =>
      if c =? 34 then '(s, p) ← string_item p; Some (mkCell false false (Some s), p)
      else if prefixb (str "null") p then Some (mkCell true false (Some []), drop 4 p)
      else match span is_number_char p with
           | ([], _) => None
           | (text, rest) => if OTSARDB_EDIT_MAX_CELL <=? zlen text then None else Some (mkCell false true (Some text), rest)
           end
  end.

Definition parse_cell_array : bytes -> option (list otsardb_studio_cell * bytes) := parse_array parse_cell_value.

(** ** The object *)

(** The string members by name (a name that is there was set), and the arrays. *)
Record studio_req := mkReq {
  sr_fields : gmap bytes bytes;
  sr_edit_cols : list bytes;
  sr_edit_pk : list bytes;
  sr_edit_old : list otsardb_studio_cell;
  sr_edit_new : list otsardb_studio_cell
}.

Definition empty_req : studio_req := mkReq ∅ [] [] [] [].

(** The sizes of the fields. *)
Definition field_caps : list (bytes * Z) :=
  [(str "target", 1024); (str "sql", OTSARDB_STUDIO_MAX_SQL); (str "endpoint", 512); (str "region", 256); (str "bucket", 512);
   (str "database", 512); (str "access_key", 512); (str "secret_key", 512); (str "auto_checkpoint", 16);
   (str "auto_checkpoint_commits", 16); (str "gc", 16); (str "page_size", 16); (str "page", 16); (str "with_sql", 16);
   (str "table", 256); (str "op", 16)].

Definition field_cap (key : bytes) : option Z := snd <$> List.find (fun f => bytes_eqb (fst f) key) field_caps.

(** Other names are ignored. *)
Definition set_field (key value : bytes) (r : studio_req) : option studio_req :=
  match field_cap key with
  | None => Some r
  | Some cap => if cap <=? zlen value then None
                else Some (mkReq (<[key := value]> (sr_fields r)) (sr_edit_cols r) (sr_edit_pk r) (sr_edit_old r) (sr_edit_new r))
  end.

(** A member value at [p]. *)
Definition parse_member (key p : bytes) (r : studio_req) : option (studio_req * bytes) :=
  match p with
  | 34 :: _ => '(value, p) ← parse_string_value p OTSARDB_STUDIO_MAX_SQL; r ← set_field key (cstr value) r; Some (r, p)
  | 91 :: _ =>
      if bytes_eqb key (str "cols") then
        '(cols, p) ← parse_string_array p; Some (mkReq (sr_fields r) cols (sr_edit_pk r) (sr_edit_old r) (sr_edit_new r), p)
      else if bytes_eqb key (str "pk") then
        '(pk, p) ← parse_string_array p; Some (mkReq (sr_fields r) (sr_edit_cols r) pk (sr_edit_old r) (sr_edit_new r), p)
      else if bytes_eqb key (str "old") then
        '(old, p) ← parse_cell_array p; Some (mkReq (sr_fields r) (sr_edit_cols r) (sr_edit_pk r) old (sr_edit_new r), p)
      else if bytes_eqb key (str "new") then
        '(new, p) ← parse_cell_array p; Some (mkReq (sr_fields r) (sr_edit_cols r) (sr_edit_pk r) (sr_edit_old r) new, p)
      else Some (r, drop 1 (snd (span (fun c => negb (c =? 93)) p)))
  | _ => Some (r, snd (span (fun c => negb ((c =? 44) || (c =? 125))) p))
  end.

(** The members up to the brace, which nothing but space may follow. *)
Fixpoint parse_members (fuel : nat) (p : bytes) (r : studio_req) : option studio_req :=
  match fuel with
  | O => None
  | S fuel =>
      match skip_while is_page_space p with
      | [] => None
      | c :: t =>
          if c =? 125 then match skip_while is_page_space t with [] => Some r | _ => None end
          else if negb (c =? 34) then None else
          '(key, p) ← parse_string_value (c :: t) 64;
          match skip_while is_blank p with
          | 58 :: p =>
              '(r, p) ← parse_member (cstr key) (skip_while is_blank p) r;
              parse_members fuel (match p with 44 :: t => t | _ => p end) r
          | _ => None
          end
      end
  end.

Definition parse_query_request (body : bytes) : option studio_req :=
  match skip_while is_page_space body with
  | c :: t => if c =? 123 then parse_members (S (length body)) t empty_req else None
  | [] => None
  end.

(** ** Edits *)

(** [EditRun]: the statement and the request it runs in. *)
Inductive edit_outcome := EditMalformed | EditRefused (message : bytes) | EditRun (sql : bytes) (r : studio_req).

Definition handle_edit (body : bytes) : edit_outcome :=
  match parse_query_request body with
  | None => EditMalformed
  | Some r =>
      match sr_fields r !! str "table", sr_fields r !! str "op", sr_edit_cols r with
      | Some table, Some op, _ :: _ =>
          let edit := mkEdit (Some table) (Some op) (sr_edit_cols r) (sr_edit_pk r) (Some (sr_edit_old r)) (Some (sr_edit_new r)) in
          match otsardb_studio_edit_sql edit OTSARDB_STUDIO_MAX_SQL with
          | inl message => EditRefused message
          | inr sql =>
              if OTSARDB_STUDIO_MAX_SQL <=? zlen sql then EditRefused (str "generated edit SQL exceeds the request cap")
              else EditRun sql (mkReq (<[str "sql" := sql]> (sr_fields r)) (sr_edit_cols r) (sr_edit_pk r) (sr_edit_old r) (sr_edit_new r))
          end
      | _, _, _ => EditRefused (str "edit request needs " ++ q "table" ++ str ", " ++ q "op" ++ str " and " ++ q "cols")
      end
  end.

(** ** Strings that are read back *)

Lemma hex_digit_hex v : 0 <= v < 16 -> hex_digit_value (hex v) = Some v.
Proof.
  intros H. unfold hex, hex_digit_value, is_digit. destruct (Z.ltb_spec v 10).
  - rewrite (proj2 (Z.leb_le 48 (48 + v))), (proj2 (Z.leb_le (48 + v) 57)) by lia. cbn. f_equal. lia.
  - rewrite (proj2 (Z.leb_gt (87 + v) 57)) by lia. rewrite andb_false_r.
    rewrite (proj2 (Z.leb_le 97 (87 + v))), (proj2 (Z.leb_le (87 + v) 102)) by lia. cbn. f_equal. lia.
Qed.

(** A control character written with four digits. *)
Lemma hex4_control c : 0 <= c < 32 -> hex4 [48; 48; hex (c / 16); hex (c mod 16)] = Some c.
Proof.
  intros Hc. assert (0 <= c / 16 < 16) by (split; [apply Z.div_pos; lia|apply Z.div_lt_upper_bound; lia]).
  pose proof (Z.mod_pos_bound c 16 ltac:(lia)). unfold hex4.
  change (take 4 ?l) with l. cbn [foldl mbind option_bind]. change (hex_digit_value 48) with (Some 0). cbn [mbind option_bind].
  rewrite !hex_digit_hex by lia. cbn [mbind option_bind]. f_equal.
  change (Z.lor (Z.shiftl (Z.lor (Z.shiftl 0 4) 0) 4) 0) with 0. change (Z.shiftl 0 4) with 0. rewrite Z.lor_0_l.
  assert (c / 16 = 0 \/ c / 16 = 1) as [E|E] by (assert (c / 16 < 2) by (apply Z.div_lt_upper_bound; lia); lia); rewrite E.
  - change (Z.shiftl 0 4) with 0. rewrite Z.lor_0_l. pose proof (Z.div_mod c 16). lia.
  - change (Z.shiftl 1 4) with 16. pose proof (Z.div_mod c 16 ltac:(lia)) as Hd. rewrite E in Hd.
    assert (forall m, 0 <= m < 16 -> Z.lor 16 m = 16 + m) as Hl.
    { intros m Hm. assert (In m (map Z.of_nat (seq 0 16))) as Hi.
      { apply in_map_iff. exists (Z.to_nat m). split; [lia|]. apply in_seq. lia. }
      cbn in Hi. repeat destruct Hi as [<-|Hi]; try reflexivity. done. }
    rewrite Hl by lia. lia.
Qed.

Lemma escaped_char c cap o r : byte_ok c -> zlen o + 1 < cap ->
  string_chars (escape_byte c ++ r) cap o = string_chars r cap (o ++ [c]).
Proof.
  intros Hc Hcap. unfold escape_byte, byte_ok in *. assert ((cap <=? zlen o + 1) = false) as Hle by (apply Z.leb_gt; lia).
  destruct (Z.eqb_spec c 34) as [->|H34].
  { cbn. by rewrite Hle. }
  destruct (Z.eqb_spec c 92) as [->|H92].
  { cbn. by rewrite Hle. }
  destruct (Z.ltb_spec c 32).
  - change (str "\u00") with [92; 117; 48; 48]. cbn [app string_chars]. cbn [Z.eqb Pos.eqb]. change (simple_escape 117) with (@None Z).
    cbn [negb]. rewrite hex4_control by lia. unfold utf8_encode. rewrite (proj2 (Z.ltb_lt c 128)) by lia. cbv zeta.
    change (zlen [c]) with 1. by rewrite Hle.
  - cbn [app string_chars]. rewrite (proj2 (Z.eqb_neq c 34)), (proj2 (Z.eqb_neq c 92)), (proj2 (Z.ltb_ge c 32)) by lia. by rewrite Hle.
Qed.

Lemma string_chars_text s cap o rest : bytes_ok s -> zlen o + zlen s < cap ->
  string_chars ((s ≫= escape_byte) ++ [dq] ++ rest) cap o = Some (o ++ s, rest).
Proof.
  intros Hs. revert o. induction Hs as [|c s Hc _ IH]; intros o Hl.
  { cbn. by rewrite app_nil_r. }
  change ((c :: s) ≫= escape_byte) with (escape_byte c ++ (s ≫= escape_byte)). rewrite <- app_assoc.
  assert (zlen (c :: s) = 1 + zlen s) as El by (unfold zlen; cbn [length]; lia). pose proof (zlen_nonneg s).
  rewrite escaped_char by (done || lia). rewrite IH; [by rewrite <- app_assoc|]. rewrite zlen_app. change (zlen [c]) with 1. lia.
Qed.

Lemma parse_string_text s cap rest : bytes_ok s -> zlen s < cap -> parse_string_value (json_string s ++ rest) cap = Some (s, rest).
Proof.
  intros Hs Hl. unfold json_string. rewrite <- !app_assoc. change (parse_string_value ([dq] ++ ?x) cap) with (string_chars x cap []).
  rewrite string_chars_text; [done|done|]. change (zlen (@nil Z)) with 0. lia.
Qed.

(** ** Arrays that are read back *)

Fixpoint joined (first : bool) (items : list bytes) : bytes :=
  match items with [] => [] | x :: r => (if first then [] else str ",") ++ x ++ joined false r end.
Definition array_text (items : list bytes) : bytes := str "[" ++ joined true items ++ str "]".

(** An item that is read back, and does not start with space or a bracket. *)
Definition item_ok {A} (item : bytes -> option (A * bytes)) (x : A) (t : bytes) : Prop :=
  (forall rest c, c = 44 \/ c = 93 -> item (t ++ c :: rest) = Some (x, c :: rest)) /\
  match t with c :: _ => is_page_space c = false /\ c <> 93 | [] => False end.

Lemma joined_tail items rest : exists c t, joined false items ++ str "]" ++ rest = c :: t /\ (c = 44 \/ c = 93).
Proof. destruct items as [|x items]; [by eexists _, _; split; [|right]|]. cbn. eexists _, _. split; [done|]. by left. Qed.

Lemma array_items_text {A} (item : bytes -> option (A * bytes)) fuel max xs ts rest : Forall2 (item_ok item) xs ts ->
  (length xs < fuel)%nat -> forall x t, item_ok item x t -> zlen xs < max ->
  array_items item fuel max (t ++ joined false ts ++ str "]" ++ rest) = Some (x :: xs, rest).
Proof.
  intros Hf. revert fuel max. induction Hf as [|y u xs ts Hy Hf IH]; intros fuel max Hl x t [Hx Ht] Hm;
    (destruct fuel as [|fuel]; [lia|]); cbn [array_items].
  - destruct t as [|c t]; [done|]. destruct Ht as [Hs Hb]. cbn [app]. rewrite skip_while_stop by (by rewrite Hs).
    rewrite (proj2 (Z.eqb_neq c 93)) by done. rewrite (proj2 (Z.leb_gt max 0)) by (pose proof (zlen_nonneg (@nil A)); lia).
    specialize (Hx rest 93 (or_intror eq_refl)). cbn [app] in Hx. cbn [joined]. cbn [app]. change (str "]" ++ rest) with (93 :: rest).
    rewrite Hx. cbn [mbind option_bind]. done.
  - destruct t as [|c t]; [done|]. destruct Ht as [Hs Hb]. cbn [app]. rewrite skip_while_stop by (by rewrite Hs).
    rewrite (proj2 (Z.eqb_neq c 93)) by done. assert (zlen (y :: xs) = 1 + zlen xs) as El by (unfold zlen; cbn [length]; lia).
    pose proof (zlen_nonneg xs). rewrite (proj2 (Z.leb_gt max 0)) by lia.
    cbn [joined]. rewrite <- !app_assoc. change (str "," ++ ?z) with (44 :: z).
    specialize (Hx (u ++ joined false ts ++ str "]" ++ rest) 44 (or_introl eq_refl)). cbn [app] in Hx. rewrite Hx. cbn [mbind option_bind].
    change (skip_while is_page_space (44 :: ?z)) with (44 :: z). cbn [Z.eqb Pos.eqb]. cbn in Hl.
    rewrite (IH fuel (max - 1) ltac:(lia) y u Hy ltac:(lia)). done.
Qed.

Lemma parse_array_text {A} (item : bytes -> option (A * bytes)) xs ts rest : Forall2 (item_ok item) xs ts ->
  zlen xs <= OTSARDB_EDIT_MAX_COLS -> parse_array item (array_text ts ++ rest) = Some (xs, rest).
Proof.
  intros Hf Hl. unfold array_text. rewrite <- !app_assoc. unfold parse_array. change (str "[" ++ ?z) with (91 :: z). cbn [Z.eqb Pos.eqb].
  destruct Hf as [|x t xs ts Hx Hf]; [done|]. cbn [joined app]. rewrite <- app_assoc.
  assert (zlen (x :: xs) = 1 + zlen xs) as El by (unfold zlen; cbn [length]; lia).
  apply array_items_text; [done| |done|lia].
  rewrite !length_app. assert (length ts <= length (joined false ts))%nat.
  { clear. induction ts as [|y ts IH]; [done|]. cbn [joined length]. rewrite !length_app. change (length (str ",")) with 1%nat. lia. }
  apply Forall2_length in Hf. lia.
Qed.

(** ** Names and cells *)

Definition name_ok (cap : Z) (s : bytes) : Prop := bytes_ok s /\ no_nul s = true /\ zlen s < cap.

Lemma string_item_ok s : name_ok OTSARDB_EDIT_MAX_CELL s -> item_ok string_item s (json_string s).
Proof.
  intros (Hs & Hn & Hl). split; [|split; [done|discriminate]]. intros rest c _. unfold string_item.
  rewrite parse_string_text by done. cbn [mbind option_bind]. by rewrite cstr_no_nul.
Qed.

(** The cells of a request: NULL, a number, a string. *)
Definition wire_cell (c : otsardb_studio_cell) : Prop :=
  c = mkCell true false (Some []) \/
  (exists t, c = mkCell false true (Some t) /\ is_json_number t = true /\ zlen t < OTSARDB_EDIT_MAX_CELL) \/
  (exists s, c = mkCell false false (Some s) /\ name_ok OTSARDB_EDIT_MAX_CELL s).

Definition cell_text (c : otsardb_studio_cell) : bytes :=
  if ce_is_null c then str "null" else if ce_is_number c then default [] (ce_text c) else json_string (default [] (ce_text c)).

Lemma forallb_app_intro {A} (f : A -> bool) a b : forallb f a = true -> forallb f b = true -> forallb f (a ++ b) = true.
Proof. intros H1 H2. by rewrite forallb_app, H1, H2. Qed.

Lemma digits_number_chars ds : forallb is_digit ds = true -> forallb is_number_char ds = true.
Proof.
  induction ds as [|d ds IH]; [done|]. cbn. intros H. prop_bools. apply andb_true_intro.
  split; [|by apply IH]. unfold is_number_char. rewrite H. by rewrite !orb_true_r.
Qed.

(** A number is a run of number characters, and starts with a digit or a sign. *)
Lemma number_chars t : is_json_number t = true ->
  forallb is_number_char t = true /\ exists c r, t = c :: r /\ (c = 45 \/ is_digit c = true).
Proof.
  intros H. apply json_number_grammar in H as (neg & i & f & x & -> & Hneg & Hi & Hf & Hx).
  assert (exists d t, i = d :: t /\ is_digit d = true /\ forallb is_digit t = true) as (d & t & -> & Hd & Ht).
  { destruct Hi as [->|(d & ds & -> & Hr & Hds)]; [by exists 48, []|]. exists d, ds. split_and!; try done.
    unfold is_digit. apply andb_true_intro. split; apply Z.leb_le; lia. }
  split.
  - repeat apply forallb_app_intro.
    + apply elem_of_cons in Hneg as [->|Hneg]; [done|apply list_elem_of_singleton in Hneg as ->; done].
    + apply digits_number_chars. cbn. by rewrite Hd.
    + destruct Hf as [->|(ds & -> & _ & Hds)]; [done|]. by apply digits_number_chars in Hds.
    + destruct Hx as [->|(e & sg & ds & -> & He & Hsg & _ & Hds)]; [done|]. apply digits_number_chars in Hds.
      change (forallb is_number_char ([e] ++ sg ++ ds) = true). repeat apply forallb_app_intro; [by destruct He as [-> | ->]| |done].
      repeat (apply elem_of_cons in Hsg as [->|Hsg]; [done|]). by apply elem_of_nil in Hsg.
  - apply elem_of_cons in Hneg as [->|Hneg]; [|apply list_elem_of_singleton in Hneg as ->]; eexists _, _; (split; [done|]); [by right|by left].
Qed.

Lemma span_run f l c rest : forallb f l = true -> f c = false -> span f (l ++ c :: rest) = (l, c :: rest).
Proof. intros Hl Hc. induction l as [|x l IH]; cbn in *; [by rewrite Hc|]. prop_bools. rewrite H, IH by done. done. Qed.

Lemma cell_item_ok c : wire_cell c -> item_ok parse_cell_value c (cell_text c).
Proof.
  intros [->|[(t & -> & Hn & Hl)|(s & -> & Hs)]]; unfold cell_text; cbn [ce_is_null ce_is_number ce_text default]; cbv [id].
  - by split.
  - destruct (number_chars t Hn) as (Ha & c & r & Et & Hc). rewrite Et in *. assert (c <> 34 /\ c <> 110 /\ c <> 93 /\ is_page_space c = false) as (H1 & H2 & H3 & H4).
    { unfold is_page_space. destruct Hc as [->|Hc]; [done|]. unfold is_digit in Hc. prop_bools.
      split_and!; lia. }
    split; [|done]. intros rest d Hd. unfold parse_cell_value. cbn [app]. rewrite (proj2 (Z.eqb_neq c 34)) by done.
    assert (prefixb (str "null") (c :: r ++ d :: rest) = false) as ->.
    { change (str "null") with (110 :: str "ull"). cbn [prefixb]. by rewrite (proj2 (Z.eqb_neq 110 c)) by done. }
    change (c :: r ++ d :: rest) with ((c :: r) ++ d :: rest). rewrite span_run; [|done|by destruct Hd as [-> | ->]].
    by rewrite (proj2 (Z.leb_gt _ _)) by done.
  - destruct (string_item_ok s Hs) as [Hi Hh]. split; [|done]. intros rest d Hd. unfold parse_cell_value.
    specialize (Hi rest d Hd). assert (exists z, json_string s ++ d :: rest = 34 :: z) as [z Ez] by (by eexists).
    rewrite Ez in *. cbn [Z.eqb Pos.eqb]. by rewrite Hi.
Qed.

(** ** The request *)

Definition member (key : string) (value : bytes) : bytes := q key ++ str ":" ++ value.

(** The text a client sends for an edit. *)
Definition request_text (table op : bytes) (cols pk : list bytes) (old new : list otsardb_studio_cell) : bytes :=
  str "{" ++ member "table" (json_string table) ++ str "," ++ member "op" (json_string op) ++ str "," ++
  member "cols" (array_text (json_string <$> cols)) ++ str "," ++ member "pk" (array_text (json_string <$> pk)) ++ str "," ++
  member "old" (array_text (cell_text <$> old)) ++ str "," ++ member "new" (array_text (cell_text <$> new)) ++ str "}".

Lemma map_items {A} (item : bytes -> option (A * bytes)) (f : A -> bytes) (P : A -> Prop) xs :
  (forall x, P x -> item_ok item x (f x)) -> Forall P xs -> Forall2 (item_ok item) xs (f <$> xs).
Proof. intros Hi. induction 1; constructor; auto. Qed.

Lemma json_string_plain k : (k ≫= escape_byte) = k -> json_string k = quoted k.
Proof. unfold json_string, quoted. by intros ->. Qed.

(** One member and the comma after it. *)
Lemma members_step fuel key value rest r r' : bytes_ok (str key) -> (str key ≫= escape_byte) = str key -> no_nul (str key) = true ->
  zlen (str key) < 64 -> match value with c :: _ => is_blank c = false | [] => False end ->
  (forall c, c = 44 \/ c = 125 -> parse_member (str key) (value ++ c :: rest) r = Some (r', c :: rest)) ->
  parse_members (S fuel) (member key value ++ str "," ++ rest) r = parse_members fuel rest r' /\
  parse_members (S fuel) (member key value ++ str "}" ++ rest) r = parse_members fuel (125 :: rest) r'.
Proof.
  intros Hk He Hn Hl Hv Hm. assert (forall c, c = 44 \/ c = 125 ->
    parse_members (S fuel) (member key value ++ c :: rest) r = parse_members fuel (match c :: rest with 44 :: t => t | _ => c :: rest end) r') as Hc.
  { intros c Hc. unfold member, q. rewrite <- json_string_plain by done. rewrite <- !app_assoc. cbn [parse_members].
    assert (skip_while is_page_space (json_string (str key) ++ str ":" ++ value ++ c :: rest) =
            34 :: ((str key ≫= escape_byte) ++ [dq]) ++ str ":" ++ value ++ c :: rest) as -> by done.
    cbn [Z.eqb Pos.eqb negb]. change (34 :: ((str key ≫= escape_byte) ++ [dq]) ++ ?z) with (json_string (str key) ++ z).
    rewrite parse_string_text by done. cbn [mbind option_bind]. change (skip_while is_blank (str ":" ++ ?z)) with (58 :: z). cbv iota beta.
    rewrite cstr_no_nul by done. destruct value as [|v value]; [done|]. cbn [app]. rewrite skip_while_stop by (by rewrite Hv).
    specialize (Hm c Hc). cbn [app] in Hm. rewrite Hm. done. }
  split; [exact (Hc 44 (or_introl eq_refl))|exact (Hc 125 (or_intror eq_refl))].
Qed.

Lemma parse_members_end fuel r : parse_members (S fuel) [125] r = Some r.
Proof. done. Qed.

(** A string member and an array member. *)
Lemma string_member key cap value rest r : field_cap (str key) = Some cap -> cap <= OTSARDB_STUDIO_MAX_SQL -> name_ok cap value ->
  parse_member (str key) (json_string value ++ rest) r =
    Some (mkReq (<[str key := value]> (sr_fields r)) (sr_edit_cols r) (sr_edit_pk r) (sr_edit_old r) (sr_edit_new r), rest).
Proof.
  intros Hk Hcap (Hv & Hn & Hl). unfold parse_member. assert (exists z, json_string value ++ rest = 34 :: z) as [z Ez] by (by eexists).
  pose proof (parse_string_text value OTSARDB_STUDIO_MAX_SQL rest Hv ltac:(lia)) as Hp. rewrite Ez in *. cbv iota beta.
  rewrite Hp. cbn [mbind option_bind]. rewrite cstr_no_nul by done. unfold set_field. rewrite Hk, (proj2 (Z.leb_gt cap (zlen value))) by lia. done.
Qed.

(** Sizes that the request holds. *)
Definition edit_fits (table op : bytes) (cols pk : list bytes) (old new : list otsardb_studio_cell) : Prop :=
  name_ok 256 table /\ name_ok 16 op /\
  Forall (name_ok OTSARDB_EDIT_MAX_CELL) cols /\ 0 < zlen cols <= OTSARDB_EDIT_MAX_COLS /\
  Forall (name_ok OTSARDB_EDIT_MAX_CELL) pk /\ zlen pk <= OTSARDB_EDIT_MAX_COLS /\
  Forall wire_cell old /\ zlen old <= OTSARDB_EDIT_MAX_COLS /\ Forall wire_cell new /\ zlen new <= OTSARDB_EDIT_MAX_COLS.

Definition edit_req (table op : bytes) (cols pk : list bytes) (old new : list otsardb_studio_cell) : studio_req :=
  mkReq (<[str "op" := op]> (<[str "table" := table]> ∅)) cols pk old new.

(** The array members. *)
Lemma names_array xs rest : Forall (name_ok OTSARDB_EDIT_MAX_CELL) xs -> zlen xs <= OTSARDB_EDIT_MAX_COLS ->
  parse_string_array (array_text (json_string <$> xs) ++ rest) = Some (xs, rest).
Proof. intros Hx Hl. apply parse_array_text; [|done]. eapply map_items; [|done]. apply string_item_ok. Qed.

Lemma cells_array xs rest : Forall wire_cell xs -> zlen xs <= OTSARDB_EDIT_MAX_COLS ->
  parse_cell_array (array_text (cell_text <$> xs) ++ rest) = Some (xs, rest).
Proof. intros Hx Hl. apply parse_array_text; [|done]. eapply map_items; [|done]. apply cell_item_ok. Qed.

Lemma array_head items rest : exists z, array_text items ++ rest = 91 :: z.
Proof. by eexists. Qed.

Lemma array_members r :
  (forall xs rest, Forall (name_ok OTSARDB_EDIT_MAX_CELL) xs -> zlen xs <= OTSARDB_EDIT_MAX_COLS ->
    parse_member (str "cols") (array_text (json_string <$> xs) ++ rest) r =
      Some (mkReq (sr_fields r) xs (sr_edit_pk r) (sr_edit_old r) (sr_edit_new r), rest) /\
    parse_member (str "pk") (array_text (json_string <$> xs) ++ rest) r =
      Some (mkReq (sr_fields r) (sr_edit_cols r) xs (sr_edit_old r) (sr_edit_new r), rest)) /\
  (forall xs rest, Forall wire_cell xs -> zlen xs <= OTSARDB_EDIT_MAX_COLS ->
    parse_member (str "old") (array_text (cell_text <$> xs) ++ rest) r =
      Some (mkReq (sr_fields r) (sr_edit_cols r) (sr_edit_pk r) xs (sr_edit_new r), rest) /\
    parse_member (str "new") (array_text (cell_text <$> xs) ++ rest) r =
      Some (mkReq (sr_fields r) (sr_edit_cols r) (sr_edit_pk r) (sr_edit_old r) xs, rest)).
Proof.
  split; intros xs rest Hx Hl.
  - pose proof (names_array xs rest Hx Hl) as Ha. destruct (array_head (json_string <$> xs) rest) as [z E]. rewrite E in *.
    split; unfold parse_member; cbv iota beta.
    + change (bytes_eqb (str "cols") (str "cols")) with true. cbv iota. by rewrite Ha.
    + change (bytes_eqb (str "pk") (str "cols")) with false. change (bytes_eqb (str "pk") (str "pk")) with true. cbv iota. by rewrite Ha.
  - pose proof (cells_array xs rest Hx Hl) as Ha. destruct (array_head (cell_text <$> xs) rest) as [z E]. rewrite E in *.
    split; unfold parse_member; cbv iota beta.
    + change (bytes_eqb (str "old") (str "cols")) with false. change (bytes_eqb (str "old") (str "pk")) with false.
      change (bytes_eqb (str "old") (str "old")) with true. cbv iota. by rewrite Ha.
    + change (bytes_eqb (str "new") (str "cols")) with false. change (bytes_eqb (str "new") (str "pk")) with false.
      change (bytes_eqb (str "new") (str "old")) with false. change (bytes_eqb (str "new") (str "new")) with true. cbv iota. by rewrite Ha.
Qed.

(** The request that is sent is the request that is read. *)
Lemma request_read table op cols pk old new : edit_fits table op cols pk old new ->
  parse_query_request (request_text table op cols pk old new) = Some (edit_req table op cols pk old new).
Proof.
  intros (Ht & Ho & Hc & Hcl & Hp & Hpl & Hold & Holdl & Hnew & Hnewl). unfold parse_query_request.
  remember (length (request_text table op cols pk old new)) as n eqn:En.
  assert (exists k, n = S (S (S (S (S (S k)))))) as [k ->].
  { exists (n - 6)%nat. subst n. unfold request_text. rewrite !length_app. change (length (str ",")) with 1%nat.
    change (length (str "{")) with 1%nat. lia. }
  unfold request_text. change (skip_while is_page_space (str "{" ++ ?z)) with (123 :: z). cbn [Z.eqb Pos.eqb]. clear En.
  erewrite (proj1 (members_step _ "table" _ _ _ _ _ _ _ _ _ (fun c _ => string_member "table" 256 table _ _ eq_refl ltac:(done) Ht))).
  erewrite (proj1 (members_step _ "op" _ _ _ _ _ _ _ _ _ (fun c _ => string_member "op" 16 op _ _ eq_refl ltac:(done) Ho))).
  erewrite (proj1 (members_step _ "cols" _ _ _ _ _ _ _ _ _ (fun c _ => proj1 (proj1 (array_members _) cols _ Hc ltac:(lia))))).
  erewrite (proj1 (members_step _ "pk" _ _ _ _ _ _ _ _ _ (fun c _ => proj2 (proj1 (array_members _) pk _ Hp Hpl)))).
  erewrite (proj1 (members_step _ "old" _ _ _ _ _ _ _ _ _ (fun c _ => proj1 (proj2 (array_members _) old _ Hold Holdl)))).
  rewrite <- (app_nil_r (str "}")).
  erewrite (proj2 (members_step _ "new" _ _ _ _ _ _ _ _ _ (fun c _ => proj2 (proj2 (array_members _) new _ Hnew Hnewl)))).
  { done. }
  Unshelve. all: first [done|by repeat constructor].
Qed.

(** The statement fits its buffer with the NUL. *)
Lemma edit_sql_short e cap sql : 0 < cap -> otsardb_studio_edit_sql e cap = inr sql -> zlen sql < cap.
Proof.
  intros Hc. unfold otsardb_studio_edit_sql. destruct (Z.eqb_spec cap 0); [done|]. destruct (check_edit e) as [|[[[op table] old] new]]; [done|].
  destruct (edit_parts e op table old new (new_sbuf cap)) as [[m|] b]; [done|]. intros [= <-].
  destruct (Z.ltb_spec (zlen (sb_data b)) cap); [done|]. unfold zlen in *. rewrite length_take. lia.
Qed.

(** An edit that a client sends as JSON, with any bytes but NUL in its names and
    values, is the edit the generator gets: the handler answers with its message or
    runs its statement. *)
Theorem studio_edit_request_exact table op cols pk old new : edit_fits table op cols pk old new ->
  handle_edit (request_text table op cols pk old new) =
  match otsardb_studio_edit_sql (mkEdit (Some table) (Some op) cols pk (Some old) (Some new)) OTSARDB_STUDIO_MAX_SQL with
  | inl message => EditRefused message
  | inr sql => EditRun sql (mkReq (<[str "sql" := sql]> (sr_fields (edit_req table op cols pk old new))) cols pk old new)
  end.
Proof.
  intros Hf. unfold handle_edit. rewrite request_read by done. destruct Hf as (_ & _ & _ & Hcl & _). unfold edit_req.
  cbn [sr_fields sr_edit_cols sr_edit_pk sr_edit_old sr_edit_new].
  rewrite (lookup_insert_ne _ (str "op") (str "table")) by done. rewrite !lookup_insert_eq.
  destruct cols as [|c cols]; [exfalso; destruct Hcl as [Hcl _]; by apply (Z.lt_irrefl 0)|].
  destruct (otsardb_studio_edit_sql _ OTSARDB_STUDIO_MAX_SQL) as [m|sql] eqn:E; [done|].
  apply edit_sql_short in E; [|done]. by rewrite (proj2 (Z.leb_gt _ _)).
Qed.

(** An escaped NUL cuts the value short without an error. *)
Lemma studio_nul_truncates :
  (fun r => sr_fields r !! str "sql") <$>
    parse_query_request (str "{" ++ q "sql" ++ str ":" ++ [dq] ++ str "DELETE FROM t\u0000 WHERE id=1" ++ [dq] ++ str "}")
  = Some (Some (str "DELETE FROM t")).
Proof. vm_compute. reflexivity. Qed.
